(* ===== verification/_CoqProject ===== *)
-Q . S2P
Prelude.v
BaseUInt.v
UInt256.v
Serialize.v
Opcodes.v
ScriptNum.v
Script.v
SigEncoding.v
StackManager.v
Interpreter.v
ScriptSafety.v
ScriptRun.v
CryptoCommon.v
BlockHasher.v
MessageSchedule.v
Sha256.v
Sha1.v
Ripemd160.v
Hashes.v
Transaction.v
Merkle.v
Coins.v
CoinsCache.v
CoinsUpdate.v
ScriptProps.v
MultiSig.v
StakingVault.v
Standard.v
StandardProps.v
SigHash.v
BlockIndex.v
Chain.v
Subsidy.v
Lottery.v
Base58.v
MasternodeVotes.v
Incentives.v
Pow.v
StakeModifier.v
ProofOfStake.v
Validation.v
IndexUpdates.v
ConnectBlock.v
Supply.v
BlockChecks.v
BlockSigning.v
Bip9.v
Bip9Tracker.v
Disconnect.v
BestChain.v
BestChainProps.v
ChainSelection.v
BlockReceipt.v
FeeEstimator.v
Mempool.v
MempoolProps.v
MempoolIndex.v
MerkleBlock.v
MerkleBlockProps.v
Bloom.v
FilteredBlock.v
MempoolAccept.v
BlockEffect.v
MempoolAcceptProps.v
MempoolBacked.v
BlockAssembly.v
BlockAssemblyProps.v
Compressor.v
CoinsDisk.v
BlockFiles.v
