(* ===== verification/Prelude.v ===== *)
(** * Divi Core: a verification development

    Divi is a proof-of-stake cryptocurrency node derived from Bitcoin and PIVX
    ([divi/src]).  Its consensus core decides which transactions may spend which
    outputs, which blocks may be minted and what they may pay; this library models
    that core and proves what it guarantees.

    ** The program's parts and the files that model them

    Foundations:
    - [Prelude] (this file): the outcome type for C++ calls, machine integers,
      byte strings, the shared lemmas and tactics.
    - [BaseUInt], [UInt256]: [base_uint] of [uint256.h] and [uint256.cpp] as lists of
      32-bit limbs, its compact form and hexadecimal text.
    - [Serialize]: [serialize.h]; the overloads for a type are one [codec].
    - [CryptoCommon], [BlockHasher], [MessageSchedule], [Sha256], [Sha1],
      [Ripemd160], [Hashes]: [crypto/common.h], [crypto/sha256.cpp],
      [crypto/sha1.cpp], [crypto/ripemd160.cpp], the hash objects of [hash.h],
      [crypto/hmac_sha256.cpp] and [crypto/rfc6979_hmac_sha256.cpp].  The streaming
      part is modelled once (record [hasher]: state, 64-byte buffer, byte counter)
      and instantiated per algorithm; the unrolled compression functions are
      translated line by line.
    - [Base58]: [base58data.cpp], [base58address.cpp].

    Scripts:
    - [Opcodes]: the constants of [script/opcodes.h], [script/script_error.h] and
      [script/scriptandsigflags.h].
    - [ScriptNum]: [CScriptNum] of [script/script.h], the numbers of the script
      language, an [int64_t] with its serialization and minimal-encoding rule.
    - [Script]: [CScript] of [script/script.h] and [script/script.cpp].  A script is
      the list of its bytes, an iterator is the rest of the list.
    - [SigEncoding], [SigHash]: [script/SignatureCheckers.cpp] and the big-endian
      comparison of [eccryptoverify.cpp].
    - [StackManager]: [script/StackManager.cpp]: the state is the record
      [StackOperationManager] (both stacks, conditional scopes, operation count);
      one definition per [StackOperator] subclass, dispatched by [ApplyOpcode].
    - [Interpreter]: [EvalScript] and [VerifyScript] of [script/interpreter.cpp],
      the loop one [eval_step] at a time.
    - [ScriptSafety], [ScriptRun], [ScriptProps], [MultiSig]: the theorems on
      evaluation: invariant of the machine, symbolic execution lemmas, totality
      and bounds, CHECKMULTISIG.
    - [StakingVault]: [script/StakingVaultScript.cpp].
    - [Standard], [StandardProps]: [script/standard.cpp], the syntactic part of
      [CPubKey] ([pubkey.h]) and [CTxDestination] ([destination.h]).

    Transactions, blocks and the unspent outputs:
    - [Transaction], [Merkle]: [primitives/transaction.h], [primitives/block.h].
    - [Coins], [CoinsCache], [CoinsUpdate]: [coins.h], [coins.cpp], [undo.h], the
      stack of caches over the coins of [txdb.cpp], and
      [UtxoCheckingAndUpdating.cpp], written against the interface [CoinsStore].
    - [Compressor], [CoinsDisk]: [compressor.cpp] and the formats of coins, undo data
      and block undo data ([coins.h], [undo.h], [BlockUndo.h]); what parses and
      prints points of the curve is the interface [KeyCurve] with its law.
    - [BlockFiles]: [FindBlockPos], [FindUndoPos] and [FlushBlockFile] of [main.cpp],
      [BlockDiskAccessor.cpp], [BlockUndo.cpp], [BlockFileOpener.cpp],
      [blockFileInfo.cpp]: a file is the list of its bytes; the loop that looks for a
      file with room has the number of known files as fuel.
    - [BlockIndex], [Chain]: [chain.h], [chain.cpp]: entries on a heap.
    - [Validation]: [CheckTransaction], [CheckInputs], [CheckCoinstakeForVaults].
    - [IndexUpdates]: [IndexDatabaseUpdateCollector.cpp] and the batches of
      [txdb.cpp].
    - [ConnectBlock], [Supply]: [BlockTransactionChecker.cpp],
      [TransactionInputChecker.cpp], [ConnectBlock] of [main.cpp] and
      [DisconnectBlock] of [ActiveChainManager.cpp]; [Disconnect]: that the one
      undoes the other.
    - [BlockChecks]: [CheckBlock] and the contextual checks of [main.cpp], median
      times, checkpoints; [BlockSigning]: [BlockSigning.cpp].
    - [BestChain], [BestChainProps], [ChainSelection], [BlockReceipt]: the choice of
      the best chain in [main.cpp]: the block tree with its statuses, the set of
      candidates, the blocks that wait for a parent and the active chain are the
      record [node]; what connecting a block does to the coins is the interface
      [ChainState] with its laws [ChainStateLaws].
    - [Bip9], [Bip9Tracker]: [versionbits.cpp], the activation tracker and the
      activation manager.

    The memory pool:
    - [FeeEstimator]: [FeeRate.cpp], [FeeAndPriorityCalculator.cpp] and the policy
      estimator of [txmempool.cpp], with [double] as binary64 numbers.
    - [Mempool], [MempoolProps], [MempoolIndex]: [CTxMemPool] of [txmempool.cpp]: the
      pool is a record of its maps; a pointer into [mapTx] is a key.
    - [MempoolAccept], [MempoolAcceptProps]: [AcceptToMemoryPool] of [main.cpp] with
      the policy before it; [BlockEffect]: which outputs a block makes and spends;
      [MempoolBacked]: the pool and the chain together, with the way back of
      transactions in [DisconnectTip].
    - [BlockAssembly], [BlockAssemblyProps]: the choice of transactions for a new
      block in [BlockMemoryPoolTransactionCollector.cpp]; the loop over the queue has
      the transactions that are queued or wait as fuel, one leaves in each round.

    Light clients:
    - [MerkleBlock], [MerkleBlockProps]: the partial merkle trees of
      [merkleblock.cpp]; [Bloom]: [bloom.cpp]; [FilteredBlock]: the sessions of a
      peer with its filter and [CMerkleBlock].

    Minting:
    - [Pow]: [pow.cpp]; [StakeModifier]: [kernel.cpp] and the modifier services;
      [ProofOfStake]: [ProofOfStakeCalculator.cpp], [ProofOfStakeGenerator.cpp].
    - [Subsidy]: subsidies, superblock heights, rewards and sporks;
      [Lottery]: [LotteryWinnersCalculator.cpp];
      [MasternodeVotes]: [masternode-payments.cpp];
      [Incentives]: [BlockIncentivesPopulator.cpp].

    The parts interact as in the code.  [ConnectBlock] checks each transaction with
    [CheckInputs] over the coins view, updates the view with
    [UpdateCoinsWithTransaction], collects index entries, and compares what was
    minted with the subsidy through the block incentives.  [CheckInputs] runs
    [VerifyScript], which runs [EvalScript] on the input and output scripts, which
    reads operations with [GetOp2] and hands them to the stack manager; the
    signature operators call the encoding checks and a signature checker.  The
    checker's virtual functions are the record [BaseSignatureChecker]; its
    implementation [TransactionSignatureChecker] hashes with [SignatureHash] and
    calls the signature verification of secp256k1, a parameter.  The hash functions
    are the type class [ScriptHashes], which [Hashes] implements.  [ActivateBestChain] moves the
    active chain to the candidate of most work, a block at a time, connecting and
    disconnecting through the interface; blocks that fail are marked, and
    [InvalidateBlock], [ReconsiderBlock] and [ReceivedBlockTransactions] change the
    marks and the candidates.

    ** Modelling conventions

    Bytes and integers of every width are [Z]; unsigned arithmetic is reduced by
    [u8] .. [u64] where it can wrap, signed overflow is [Undef].  A [std::vector]
    used as a stack is a list from its back.  A C++ call is an [outcome]: normal
    return, error code, exception, or undefined behaviour (out-of-range access,
    failed [assert]); [io] is the outcome of calls without an error code.  Objects
    that the code shares through pointers (block index entries) live in a heap, a
    finite map from positive numbers; a coins view that fills its caches while it
    is read is returned with what was read.  Loops are fixpoints with fuel that
    yield [Undef] when it runs out; the fuel is the number of bytes, keys, template
    operations or index entries left, every round consumes at least one, and the
    theorems that exclude [Undef] show that it is enough; the rounds of
    [ActivateBestChain] are bounded by [activation_rounds], as each of them marks a
    block or raises the work of the tip.

    ** What the theorems show

    - The money supply: [block_supply_bounded] (a connected block creates no more
      than its subsidy), [CheckInputs_exact], [vault_stake_protected].
    - Blocks and their signatures: [CheckBlock_exact], [coinbase_heights_differ],
      [median_time_monotone], [signed_block_checks].
    - The active chain: [best_chain_active] (the best usable branch becomes active,
      in finitely many rounds), [received_block_linked],
      [invalidated_block_abandoned], [reconsidered_block_usable].
    - Block assembly: [collected_block_valid] (the choice ends, and what is chosen
      passes the checks of its inputs in order and stays within the limits).
    - The memory pool: [pool_extends_chain] (the pool spends what it makes or the
      chain has, across reorganisations), [memory_pool_accepts], [pool_consistent],
      [removal_takes_descendants], [block_leaves_no_conflict],
      [pool_indices_exact]; [fee_estimates_ordered].
    - Light clients: [filtered_block_proves], [partial_tree_roundtrip],
      [partial_tree_sound], [bloom_no_false_negatives], [bloom_follows_payments].
    - Activation of deployments: [versionbits_correct], [activation_locked_in],
      [tracker_correct], [manager_correct] (the caches agree with the states by
      recursion over the periods).
    - Evaluation: [EvalScript_safe], [VerifyScript_total] (no undefined behaviour,
      no escaping exception, limits kept, on all inputs), [IsUnspendable_fails],
      [PushMinimal_evaluates].
    - Meaning of the output forms: [p2pkh_semantics], [p2sh_semantics],
      [CheckMultiSig_matching], [vault_spend_sound], [vault_spend_complete].
    - Minting: [next_work_required], [block_work], [stake_modifiers_carried],
      [candidate_selection], [stake_verification], [timestamp_search];
      [superblock_pays_shares], [superblock_schedule], [lottery_best_eleven],
      [lottery_uniform], [masternode_votes_safe], [masternode_payee_decided],
      [minted_block_accepted].
    - Unspent outputs and the chain: [coins_cache_refines] (the caches refine one
      map), [disconnect_undoes_connect], [block_disconnect_restores],
      [address_index_reversed],
      [chain_invariant], [fork_points], [locator_correct].
    - On disk: [coins_and_undo_stored] (coins and undo data read back, compressed
      amounts and scripts included), [stored_data_kept] (whatever happens to the
      block and undo files, what was stored can be read where it was put).
    - Encodings: [scriptnum_roundtrip], [scriptnum_canonical], [GetOp2_push_data],
      [FindAndDelete_spec], [GetSigOpCount_accurate_le],
      [IsValidSignatureEncoding_spec], [IsLowDERSignature_spec],
      [transaction_bijection], [block_bijection], [compact_size_codec],
      [varint_codec], [base58_bijection], [address_roundtrip], [hex_roundtrip],
      [compact_roundtrip], [SetCompact_exact].
    - Classification: [classification_total], [destination_roundtrip],
      [multisig_roundtrip], [vault_roundtrip].
    - Integers: [base_uint_ring], [base_uint_exact] (limb arithmetic is arithmetic
      modulo the width).
    - Hashing: [CSHA256_correct], [CSHA1_correct], [CRIPEMD160_correct] (equal to the
      published algorithms for every way of cutting the message into writes),
      [hash_objects_correct], [CHMAC_SHA256_correct], [RFC6979_correct],
      [SignatureHash_copy], [merkle_tree_binding], [merkle_branch_correct].
    - Where the code does not do what it means to, a lemma shows it on an input:
      [coinstake_flag_lost], [stake_trust_zero], [searched_timestamp_too_young],
      [unspent_height_lost], [spent_entry_kept], [double_spend_asserts],
      [truncated_code_shorter], [size_code_differs], [fee_spork_unreadable],
      [work_signing_throws], [version_bits_out_of_bounds],
      [first_period_statistics], [default_deployment_divides_by_zero],
      [tracker_checker_differ], [reconsidered_ancestor_not_activated],
      [cleared_pool_still_indexed], [partial_tree_other_count],
      [cleared_default_divides], [priority_overflows], [inputs_standard_by_order],
      [varint_negative] (of the version of coins).

    ** What is not modelled

    ECDSA itself (secp256k1), LevelDB and the sph hash functions are third-party
    code; where the modelled code calls them they are parameters.  Networking, RPC,
    the wallet and the masternode announcements are input/output and glue around
    the modelled parts.  The fee estimates file, the
    notifications and writes around the choice of the best chain, the constructor of
    bloom filters that computes their size in floating point, and SHA-512 are not
    modelled yet. *)

From Stdlib Require Import ZArith Lia Bool.
From stdpp Require Import base option numbers list.

(** ** Outcomes of C++ code

    A call of the source ends in one of four ways, and each is a value:
    [Ret] is a normal return (for a function returning [bool] together with an
    error code: returned true), [Err e] is "returned false with error code e",
    [Throw] is a C++ exception leaving the call, and [Undef] is everything the
    language leaves undefined or that stops the process: a read outside a
    vector, a pop of an empty vector, a failed [assert]; it is also what a
    loop with exhausted fuel yields, so that a theorem excluding [Undef] proves
    termination together with memory safety. *)

Inductive outcome (E A : Type) : Type :=
| Ret (a : A)
| Err (e : E)
| Throw
| Undef.
Arguments Ret {E A} a.
Arguments Err {E A} e.
Arguments Throw {E A}.
Arguments Undef {E A}.

Definition obind {E A B} (m : outcome E A) (f : A -> outcome E B) : outcome E B :=
  match m with
  | Ret a => f a
  | Err e => Err e
  | Throw => Throw
  | Undef => Undef
  end.

(** [C++ assert]. *)
Definition oassert {E} (b : bool) : outcome E unit := if b then Ret tt else Undef.

(** An access [v[i]], [*it] or [v.back()]: undefined out of range. *)
Definition oaccess {E A} (x : option A) : outcome E A :=
  match x with Some a => Ret a | None => Undef end.

(** [if (c) return set_error(serror, e);] *)
Definition oreject {E} (c : bool) (e : E) : outcome E unit := if c then Err e else Ret tt.

Declare Scope outcome_scope.
Delimit Scope outcome_scope with outcome.
Notation "'let*' x ':=' m 'in' k" := (obind m (fun x => k))
  (at level 10, x name, m at level 100, k at level 200) : outcome_scope.
Notation "'let*' ' p ':=' m 'in' k" := (obind m (fun x => match x with p => k end))
  (at level 10, p strict pattern, m at level 100, k at level 200) : outcome_scope.
Notation "m ';;;' k" := (obind m (fun _ => k))
  (at level 199, right associativity) : outcome_scope.

(** [safe P m]: [m] is defined behaviour, and a normal return satisfies [P]. *)
Definition safe {E A} (P : A -> Prop) (m : outcome E A) : Prop :=
  match m with
  | Ret a => P a
  | Err _ | Throw => True
  | Undef => False
  end.

(** [returns P m]: [m] returns normally, with a value that satisfies [P]. *)
Definition returns {E A} (P : A -> Prop) (m : outcome E A) : Prop :=
  match m with Ret a => P a | _ => False end.

Lemma returns_bind {E A B} (P : A -> Prop) (Q : B -> Prop) (m : outcome E A) f :
  returns P m -> (forall a, P a -> returns Q (f a)) -> returns Q (obind m f).
Proof. destruct m; simpl; auto; contradiction. Qed.

Create HintDb divi.

Lemma safe_bind {E A B} (P : A -> Prop) (Q : B -> Prop) (m : outcome E A) f :
  safe P m -> (forall a, P a -> safe Q (f a)) -> safe Q (obind m f).
Proof. destruct m; simpl; auto. Qed.

Lemma safe_weaken {E A} (P Q : A -> Prop) (m : outcome E A) :
  safe P m -> (forall a, P a -> Q a) -> safe Q m.
Proof. destruct m; simpl; auto. Qed.

Lemma safe_reject {E} c (e : E) : safe (fun _ => c = false) (oreject c e).
Proof. destruct c; simpl; auto. Qed.

Lemma safe_access {E A} (x : option A) :
  is_Some x -> safe (fun a => x = Some a) (oaccess (E:=E) x).
Proof. intros [a ->]. reflexivity. Qed.

Lemma obind_ret_inv {E A B} (m : outcome E A) (f : A -> outcome E B) b :
  obind m f = Ret b -> exists a, m = Ret a /\ f a = Ret b.
Proof. destruct m; simpl; intros; try discriminate. eauto. Qed.

Lemma oreject_ret_inv {E} c (e : E) u : oreject c e = Ret u -> c = false.
Proof. destruct c; simpl; congruence. Qed.

Lemma oaccess_ret_inv {E A} (x : option A) a :
  oaccess (E:=E) x = Ret a -> x = Some a.
Proof. destruct x; simpl; congruence. Qed.

#[export] Hint Resolve safe_reject safe_access : divi.

(** Invert a successful monadic computation in the context, step by step. *)
Ltac inv_ret :=
  repeat match goal with
  | H : obind _ _ = Ret _ |- _ =>
      let a := fresh "v" in let H1 := fresh "Hm" in let H2 := fresh "Hk" in
      apply obind_ret_inv in H; destruct H as (a & H1 & H2)
  | H : oreject _ _ = Ret _ |- _ => apply oreject_ret_inv in H
  | H : oaccess _ = Ret _ |- _ => apply oaccess_ret_inv in H
  | H : Ret _ = Ret _ |- _ => injection H; clear H; intros; subst
  | H : Err _ = Ret _ |- _ => discriminate H
  | H : Throw = Ret _ |- _ => discriminate H
  | H : Undef = Ret _ |- _ => discriminate H
  end.

(** Boolean tests of the code to their propositions. *)
Ltac bool_prop :=
  repeat match goal with
  | H : _ && _ = true |- _ => apply andb_true_iff in H; destruct H
  | H : _ || _ = false |- _ => apply orb_false_iff in H; destruct H
  | H : negb _ = true |- _ => apply negb_true_iff in H
  | H : negb _ = false |- _ => apply negb_false_iff in H
  | H : Z.eqb _ _ = true |- _ => apply Z.eqb_eq in H
  | H : Z.eqb _ _ = false |- _ => apply Z.eqb_neq in H
  | H : Z.ltb _ _ = true |- _ => apply Z.ltb_lt in H
  | H : Z.ltb _ _ = false |- _ => apply Z.ltb_ge in H
  | H : Z.leb _ _ = true |- _ => apply Z.leb_le in H
  | H : Z.leb _ _ = false |- _ => apply Z.leb_gt in H
  end.

(** ** Machine integers *)

Definition u8 (x : Z) : Z := (x mod 2 ^ 8)%Z.
Definition u16 (x : Z) : Z := (x mod 2 ^ 16)%Z.
Definition u32 (x : Z) : Z := (x mod 2 ^ 32)%Z.
Definition u64 (x : Z) : Z := (x mod 2 ^ 64)%Z.
(** Two's complement reinterpretation. *)
Definition i32 (x : Z) : Z := ((x + 2 ^ 31) mod 2 ^ 32 - 2 ^ 31)%Z.
Definition i64 (x : Z) : Z := ((x + 2 ^ 63) mod 2 ^ 64 - 2 ^ 63)%Z.

Definition is_byte (b : Z) : Prop := (0 <= b < 256)%Z.
Definition bytes_ok (l : list Z) : Prop := Forall is_byte l.

#[global] Instance is_byte_dec b : Decision (is_byte b).
Proof. unfold is_byte; apply _. Defined.
#[global] Instance bytes_ok_dec l : Decision (bytes_ok l).
Proof. unfold bytes_ok; apply _. Defined.

Definition zlen {A} (l : list A) : Z := Z.of_nat (length l).
#[global] Arguments zlen : simpl never.

Lemma zlen_nonneg {A} (l : list A) : (0 <= zlen l)%Z.
Proof. unfold zlen; lia. Qed.
Lemma zlen_app {A} (l k : list A) : zlen (l ++ k) = (zlen l + zlen k)%Z.
Proof. unfold zlen; rewrite length_app; lia. Qed.
Lemma zlen_cons {A} (x : A) l : zlen (x :: l) = (1 + zlen l)%Z.
Proof. unfold zlen; simpl length; lia. Qed.
Lemma zlen_nil {A} : zlen (@nil A) = 0%Z.
Proof. reflexivity. Qed.
Create Rewrite HintDb zlen.
#[export] Hint Rewrite @zlen_app @zlen_cons @zlen_nil : zlen.
#[export] Hint Resolve zlen_nonneg : divi.

Lemma split_at_z {A} (n : Z) (l : list A) :
  (0 <= n <= zlen l)%Z -> exists a b, l = a ++ b /\ zlen a = n.
Proof.
  intros H. exists (take (Z.to_nat n) l), (drop (Z.to_nat n) l).
  rewrite take_drop. unfold zlen in *. rewrite length_take. split; [reflexivity|lia].
Qed.

Ltac zlen_simpl := autorewrite with zlen in *.

(** ** Little- and big-endian integers of fixed width *)

Section Endian.
Local Open Scope Z_scope.

Fixpoint le_encode (n : nat) (v : Z) : list Z :=
  match n with
  | O => []
  | S n => (v mod 256) :: le_encode n (v / 256)
  end.

Fixpoint le_decode (l : list Z) : Z :=
  match l with
  | [] => 0
  | b :: l => b + 256 * le_decode l
  end.

Definition be_encode (n : nat) (v : Z) : list Z := rev (le_encode n v).
Definition be_decode (l : list Z) : Z := le_decode (rev l).

Lemma le_encode_length n v : length (le_encode n v) = n.
Proof. revert v; induction n; simpl; auto. Qed.

Lemma be_encode_length n v : length (be_encode n v) = n.
Proof. unfold be_encode. rewrite length_rev. apply le_encode_length. Qed.

Lemma le_encode_bytes n v : bytes_ok (le_encode n v).
Proof.
  revert v; induction n; simpl; constructor; [|apply IHn].
  unfold is_byte. pose proof (Z.mod_pos_bound v 256). lia.
Qed.

Lemma le_decode_encode n v :
  le_decode (le_encode n v) = v mod 2 ^ (8 * Z.of_nat n).
Proof.
  revert v; induction n as [|n IH]; intros v; simpl le_encode; simpl le_decode.
  - rewrite Z.mod_1_r. reflexivity.
  - rewrite IH. replace (8 * Z.of_nat (S n)) with (8 + 8 * Z.of_nat n) by lia.
    rewrite Z.pow_add_r by lia. change (2 ^ 8) with 256.
    rewrite (Z.rem_mul_r v 256) by lia. reflexivity.
Qed.

Lemma le_decode_bound l : bytes_ok l -> 0 <= le_decode l < 2 ^ (8 * zlen l).
Proof.
  induction 1 as [|b l Hb Hl IH]; simpl le_decode; [vm_compute; intuition congruence|].
  rewrite zlen_cons. replace (8 * (1 + zlen l)) with (8 + 8 * zlen l) by lia.
  rewrite Z.pow_add_r by (pose proof (zlen_nonneg l); lia). change (2 ^ 8) with 256.
  unfold is_byte in Hb. nia.
Qed.

Lemma le_encode_decode l : bytes_ok l -> le_encode (length l) (le_decode l) = l.
Proof.
  induction 1 as [|b l Hb Hl IH]; simpl; [reflexivity|].
  unfold is_byte in Hb.
  replace (b + 256 * le_decode l) with (b + le_decode l * 256) by ring.
  rewrite Z.mod_add, Z.mod_small, Z.div_add, Z.div_small by lia.
  rewrite Z.add_0_l, IH. reflexivity.
Qed.

Lemma le_decode_app l k :
  le_decode (l ++ k) = le_decode l + 2 ^ (8 * zlen l) * le_decode k.
Proof.
  induction l as [|b l IH]; simpl; [change (zlen (@nil Z)) with 0; lia|].
  rewrite IH, zlen_cons. replace (8 * (1 + zlen l)) with (8 + 8 * zlen l) by lia.
  rewrite Z.pow_add_r by (pose proof (zlen_nonneg l); lia). change (2 ^ 8) with 256. ring.
Qed.
End Endian.

(** ** Bits of bytes *)

Section Bits.
Local Open Scope Z_scope.

(** A boolean property of bytes holds of every byte when it evaluates to true
    on the 256 of them. *)
Lemma byte_forall (P : Z -> bool) :
  forallb P (map Z.of_nat (seq 0 256)) = true -> forall b, is_byte b -> P b = true.
Proof.
  intros H b Hb. rewrite forallb_forall in H. apply H.
  apply in_map_iff. exists (Z.to_nat b). unfold is_byte in Hb.
  split; [lia|]. apply in_seq. lia.
Qed.

Lemma land_0x80 b : is_byte b -> (Z.land b 0x80 =? 0) = (b <? 128).
Proof.
  intros Hb. apply eqb_prop.
  apply (byte_forall (fun b => eqb (Z.land b 0x80 =? 0) (b <? 128))); auto.
Qed.

Lemma land_0x7f b : is_byte b -> Z.land b 0x7f = b mod 128.
Proof. intros _. apply (Z.land_ones b 7). lia. Qed.

Lemma lor_0x80 b : 0 <= b < 128 -> Z.lor b 0x80 = b + 128.
Proof.
  intros Hb. enough ((128 <=? b) || (Z.lor b 0x80 =? b + 128) = true) as H.
  { apply orb_true_iff in H as [H|H]; [apply Z.leb_le in H|apply Z.eqb_eq in H]; lia. }
  apply (byte_forall (fun b => (128 <=? b) || (Z.lor b 0x80 =? b + 128))); auto.
  unfold is_byte; lia.
Qed.

Lemma land_shiftl_disjoint r b n :
  0 <= n -> 0 <= r < 2 ^ n -> Z.land r (Z.shiftl b n) = 0.
Proof.
  intros Hn Hr. apply Z.bits_inj'. intros i Hi.
  rewrite Z.land_spec, Z.bits_0, Z.shiftl_spec by lia.
  destruct (Z.lt_ge_cases i n).
  - rewrite (Z.testbit_neg_r b) by lia. apply andb_false_r.
  - rewrite <- (Z.mod_small r (2 ^ n)), Z.mod_pow2_bits_high by lia. reflexivity.
Qed.

Lemma lor_shiftl_add r b n :
  0 <= n -> 0 <= r < 2 ^ n -> Z.lor r (Z.shiftl b n) = r + b * 2 ^ n.
Proof.
  intros. rewrite <- Z.add_nocarry_lor by (apply land_shiftl_disjoint; lia).
  rewrite Z.shiftl_mul_pow2 by lia. reflexivity.
Qed.

(** Clearing bit [k] of a number in which it is the top bit. *)
Lemma land_lnot_top k x :
  0 <= k -> 0 <= x < 2 ^ k -> Z.land (x + 2 ^ k) (Z.lnot (2 ^ k)) = x.
Proof.
  intros Hk Hx. rewrite <- (Z.mul_1_l (2 ^ k)) at 1. rewrite <- lor_shiftl_add by lia.
  rewrite <- Z.ldiff_land, <- (Z.mul_1_l (2 ^ k)), <- Z.shiftl_mul_pow2 by lia.
  pose proof (land_shiftl_disjoint x 1 k Hk Hx) as Hd.
  apply Z.bits_inj'. intros i Hi. apply (f_equal (fun z => Z.testbit z i)) in Hd.
  rewrite Z.land_spec, Z.bits_0 in Hd. rewrite Z.ldiff_spec, Z.lor_spec.
  destruct (Z.testbit x i), (Z.testbit (Z.shiftl 1 k) i); simpl in *; congruence.
Qed.
End Bits.

Lemma bytes_ok_app l k : bytes_ok (l ++ k) <-> bytes_ok l /\ bytes_ok k.
Proof. apply Forall_app. Qed.
Lemma bytes_ok_cons b l : bytes_ok (b :: l) <-> is_byte b /\ bytes_ok l.
Proof. apply Forall_cons. Qed.
Lemma bytes_ok_nil : bytes_ok [].
Proof. constructor. Qed.
Lemma bytes_ok_take n l : bytes_ok l -> bytes_ok (take n l).
Proof. apply Forall_take. Qed.
Lemma bytes_ok_drop n l : bytes_ok l -> bytes_ok (drop n l).
Proof. apply Forall_drop. Qed.
#[export] Hint Resolve bytes_ok_nil bytes_ok_take bytes_ok_drop le_encode_bytes : divi.
