(* ===== verification/BaseUInt.v ===== *)
(** * Wide unsigned integers: [uint256.h], [uint256.cpp]

    [base_uint<BITS>] keeps [WIDTH] 32-bit limbs, least significant first.  The
    operations are loops over the limbs with 64-bit intermediates; [value] is the
    integer the limbs denote, and the theorems show that every operation
    computes the one on integers modulo [2 ^ (32 * WIDTH)]. *)

From Stdlib Require Import ZArith Lia Bool.
From stdpp Require Import base option numbers list.
From S2P Require Import Prelude.

Open Scope Z_scope.
Open Scope outcome_scope.

(** [uint32_t pn[WIDTH]]. *)
Definition base_uint := list Z.

(** [pn[i]], for indices the loops keep in range. *)
Definition limb (pn : base_uint) (i : nat) : Z := nth i pn 0.

(** [pn[i] |= v] *)
Definition or_at (pn : list Z) (i : nat) (v : Z) : list Z := alter (fun x => Z.lor x v) i pn.

(** ** Element-wise operations *)

Definition IsNull (pn : base_uint) : bool := forallb (fun x => x =? 0) pn.
Definition op_not (pn : base_uint) : base_uint := map (fun x => u32 (Z.lnot x)) pn.
Definition op_xor (a b : base_uint) : base_uint := zip_with Z.lxor a b.
Definition op_and (a b : base_uint) : base_uint := zip_with Z.land a b.
Definition op_or (a b : base_uint) : base_uint := zip_with Z.lor a b.

(** [while (++pn[i] == 0 && i < WIDTH - 1) i++;] *)
Fixpoint op_incr (pn : base_uint) : base_uint :=
  match pn with
  | [] => []
  | x :: pn => let x := u32 (x + 1) in if x =? 0 then x :: op_incr pn else x :: pn
  end.

(** [while (--pn[i] == (uint32_t)-1 && i < WIDTH - 1) i++;] *)
Fixpoint op_decr (pn : base_uint) : base_uint :=
  match pn with
  | [] => []
  | x :: pn => let x := u32 (x - 1) in if x =? u32 (-1) then x :: op_decr pn else x :: pn
  end.

Definition op_neg (pn : base_uint) : base_uint := op_incr (op_not pn).

Fixpoint add_loop (carry : Z) (a b : base_uint) : base_uint :=
  match a, b with
  | x :: a, y :: b =>
      let n := u64 (carry + x + y) in
      Z.land n 0xffffffff :: add_loop (Z.shiftr n 32) a b
  | _, _ => []
  end.

Definition op_add (a b : base_uint) : base_uint := add_loop 0 a b.
Definition op_sub (a b : base_uint) : base_uint := op_add a (op_neg b).

(** ** Multiplication *)

Fixpoint mul32_loop (carry b32 : Z) (a : base_uint) : base_uint :=
  match a with
  | x :: a =>
      let n := u64 (carry + b32 * x) in
      Z.land n 0xffffffff :: mul32_loop (Z.shiftr n 32) b32 a
  | [] => []
  end.

Definition op_mul32 (a : base_uint) (b32 : Z) : base_uint := mul32_loop 0 b32 a.

(** The inner loop of [MultiplyBy]: [pn] is the part of the array from index [j]
    on, so that [i + j < WIDTH] is "there is a limb left". *)
Fixpoint mul_row (carry aj : Z) (pn b : base_uint) : base_uint * Z :=
  match pn, b with
  | p :: pn, bi :: b =>
      let n := u64 (carry + p + aj * bi) in
      let '(pn, carry) := mul_row (Z.shiftr n 32) aj pn b in
      (Z.land n 0xffffffff :: pn, carry)
  | _, _ => ([], carry)
  end.

Record mul_state := mkMul { mul_pn : base_uint; mul_overflow : bool; highestNonzeroA : nat; highestNonzeroB : nat }.

Definition mul_step (a b : base_uint) (st : mul_state) (j : nat) : mul_state :=
  let hA := if limb a j =? 0 then highestNonzeroA st else j in
  let hB := if limb b j =? 0 then highestNonzeroB st else j in
  let '(row, carry) := mul_row 0 (limb a j) (drop j (mul_pn st)) b in
  mkMul (take j (mul_pn st) ++ row) (mul_overflow st || (0 <? carry)) hA hB.

(** The new [*this], and the returned "no overflow". *)
Definition MultiplyBy (a b : base_uint) : base_uint * bool :=
  let WIDTH := length a in
  let st := fold_left (mul_step a b) (seq 0 WIDTH) (mkMul (replicate WIDTH 0) false 0 0) in
  let overflow := mul_overflow st || (WIDTH <=? highestNonzeroA st + highestNonzeroB st)%nat in
  (mul_pn st, negb overflow).

Definition op_mul (a b : base_uint) : base_uint := (MultiplyBy a b).1.

(** ** Shifts *)

Definition shl_step (a : base_uint) (k : nat) (shift : Z) (pn : base_uint) (i : nat) : base_uint :=
  let WIDTH := length a in
  let pn :=
    if (i + k + 1 <? WIDTH)%nat && negb (shift =? 0)
    then or_at pn (i + k + 1) (Z.shiftr (limb a i) (32 - shift)) else pn in
  if (i + k <? WIDTH)%nat then or_at pn (i + k) (u32 (Z.shiftl (limb a i) shift)) else pn.

Definition op_shl (a : base_uint) (shift : Z) : base_uint :=
  let WIDTH := length a in
  fold_left (shl_step a (Z.to_nat (shift / 32)) (shift mod 32)) (seq 0 WIDTH) (replicate WIDTH 0).

Definition shr_step (a : base_uint) (k : nat) (shift : Z) (pn : base_uint) (i : nat) : base_uint :=
  let pn :=
    if (k + 1 <=? i)%nat && negb (shift =? 0)
    then or_at pn (i - k - 1) (u32 (Z.shiftl (limb a i) (32 - shift))) else pn in
  if (k <=? i)%nat then or_at pn (i - k) (Z.shiftr (limb a i) shift) else pn.

Definition op_shr (a : base_uint) (shift : Z) : base_uint :=
  let WIDTH := length a in
  fold_left (shr_step a (Z.to_nat (shift / 32)) (shift mod 32)) (seq 0 WIDTH) (replicate WIDTH 0).

(** ** Comparison and size *)

(** [for (int i = WIDTH - 1; i >= 0; i--)], with [n = i + 1]. *)
Fixpoint compare_loop (n : nat) (a b : base_uint) : Z :=
  match n with
  | O => 0
  | S i =>
      if limb a i <? limb b i then -1
      else if limb b i <? limb a i then 1
      else compare_loop i a b
  end.

Definition CompareTo (a b : base_uint) : Z := compare_loop (length a) a b.

(** [for (int bits = 31; bits > 0; bits--)]; the last value is the answer of the
    [return] behind the loop. *)
Fixpoint top_bit (bits : nat) (x : Z) : Z :=
  match bits with
  | O => 1
  | S n => if Z.land x (Z.shiftl 1 (Z.of_nat bits)) =? 0 then top_bit n x else Z.of_nat bits + 1
  end.

Fixpoint bits_loop (n : nat) (pn : base_uint) : Z :=
  match n with
  | O => 0
  | S pos => if limb pn pos =? 0 then bits_loop pos pn else 32 * Z.of_nat pos + top_bit 31 (limb pn pos)
  end.

Definition bits (pn : base_uint) : Z := bits_loop (length pn) pn.

(** ** Conversions *)

(** [base_uint(uint64_t b)] *)
Definition of_uint64 (WIDTH : nat) (b : Z) : base_uint :=
  u32 b :: u32 (Z.shiftr b 32) :: replicate (WIDTH - 2) 0.

Definition GetLow64 (pn : base_uint) : Z := Z.lor (limb pn 0) (u64 (Z.shiftl (limb pn 1) 32)).

(** [for (int i = WIDTH - 1; i >= 2; i--) if (pn[i]) return false;] and the two
    low limbs. *)
Definition EqualTo (pn : base_uint) (b : Z) : bool :=
  if negb (forallb (fun x => x =? 0) (drop 2 pn)) then false
  else if negb (limb pn 1 =? Z.shiftr b 32) then false
  else limb pn 0 =? Z.land b 0xffffffff.

(** ** Division *)

(** [while (shift >= 0)], with [n = shift + 1]: the quotient and the remainder. *)
Fixpoint div_loop (n : nat) (num div quo : base_uint) : base_uint * base_uint :=
  match n with
  | O => (quo, num)
  | S shift =>
      let '(num, quo) :=
        if 0 <=? CompareTo num div
        then (op_sub num div, or_at quo (shift / 32) (u32 (Z.shiftl 1 (Z.of_nat shift mod 32))))
        else (num, quo) in
      div_loop shift num (op_shr div 1) quo
  end.

(** [throw uint_error("Division by zero")] is [Throw]. *)
Definition op_div (a b : base_uint) : outcome Empty_set base_uint :=
  let num_bits := bits a in
  let div_bits := bits b in
  if div_bits =? 0 then Throw
  else if num_bits <? div_bits then Ret (replicate (length a) 0)
  else
    let shift := num_bits - div_bits in
    let div := op_shl b shift in
    Ret (div_loop (Z.to_nat (shift + 1)) a div (replicate (length a) 0)).1.

(** ** The integer the limbs denote *)

Definition limb_ok (x : Z) : Prop := 0 <= x < 2 ^ 32.

Fixpoint value (pn : base_uint) : Z :=
  match pn with
  | [] => 0
  | x :: pn => x + 2 ^ 32 * value pn
  end.

(** [2 ^ BITS]. *)
Definition modulus (pn : base_uint) : Z := 2 ^ (32 * zlen pn).

Create HintDb limbs.

Lemma limb_ok_0 : limb_ok 0.
Proof. unfold limb_ok. lia. Qed.
Lemma limb_ok_u32 x : limb_ok (u32 x).
Proof. unfold limb_ok, u32. apply Z.mod_pos_bound. lia. Qed.
Lemma limb_ok_land_mask n : limb_ok (Z.land n 0xffffffff).
Proof. unfold limb_ok. change 0xffffffff with (Z.ones 32). rewrite Z.land_ones by lia. apply Z.mod_pos_bound. lia. Qed.
#[export] Hint Resolve limb_ok_0 limb_ok_u32 limb_ok_land_mask : limbs.

(** Numbers below a power of two are closed under the bit operations. *)
Lemma pow2_bound_bits n x : 0 <= n -> 0 <= x < 2 ^ n <-> 0 <= x /\ (forall i, n <= i -> Z.testbit x i = false).
Proof.
  intros Hn. split.
  - intros [H0 H1]. split; [exact H0|]. intros i Hi.
    rewrite <- (Z.mod_small x (2 ^ n)) by lia. apply Z.mod_pow2_bits_high. lia.
  - intros [H0 H]. split; [exact H0|]. destruct (Z.lt_ge_cases x (2 ^ n)) as [|Hge]; [assumption|].
    assert (0 < x) by (pose proof (Z.pow_pos_nonneg 2 n); lia).
    assert (n <= Z.log2 x) as Hl by (apply Z.log2_le_pow2; lia).
    specialize (H _ Hl). rewrite Z.bit_log2 in H by lia. discriminate.
Qed.

Lemma limb_ok_lor x y : limb_ok x -> limb_ok y -> limb_ok (Z.lor x y).
Proof.
  unfold limb_ok. rewrite !pow2_bound_bits by lia. intros [? Hx] [? Hy]. split; [apply Z.lor_nonneg; auto|].
  intros i Hi. rewrite Z.lor_spec, Hx, Hy by lia. reflexivity.
Qed.

Lemma limb_ok_land x y : limb_ok x -> limb_ok y -> limb_ok (Z.land x y).
Proof.
  unfold limb_ok. rewrite !pow2_bound_bits by lia. intros [? Hx] [? Hy]. split; [apply Z.land_nonneg; auto|].
  intros i Hi. rewrite Z.land_spec, Hx by lia. reflexivity.
Qed.

Lemma limb_ok_lxor x y : limb_ok x -> limb_ok y -> limb_ok (Z.lxor x y).
Proof.
  unfold limb_ok. rewrite !pow2_bound_bits by lia. intros [? Hx] [? Hy]. split; [apply Z.lxor_nonneg; tauto|].
  intros i Hi. rewrite Z.lxor_spec, Hx, Hy by lia. reflexivity.
Qed.

Lemma limb_ok_shiftr x n : 0 <= n -> limb_ok x -> limb_ok (Z.shiftr x n).
Proof.
  unfold limb_ok. rewrite !pow2_bound_bits by lia. intros ? [? Hx]. split; [apply Z.shiftr_nonneg; auto|].
  intros i Hi. rewrite Z.shiftr_spec by lia. apply Hx. lia.
Qed.
#[export] Hint Resolve limb_ok_lor limb_ok_land limb_ok_lxor limb_ok_shiftr : limbs.

Definition wf (pn : base_uint) : Prop := Forall limb_ok pn.

Lemma wf_limb pn i : wf pn -> limb_ok (limb pn i).
Proof.
  intros H. unfold limb. destruct (nth_in_or_default i pn 0) as [Hin| ->]; [|apply limb_ok_0].
  unfold wf in H. rewrite Forall_forall in H. apply H. apply list_elem_of_In, Hin.
Qed.

Lemma wf_zero n : wf (replicate n 0).
Proof. unfold wf. induction n; constructor; auto with limbs. Qed.

Lemma wf_or_at pn i v : wf pn -> limb_ok v -> wf (or_at pn i v).
Proof. intros H Hv. revert i. induction H; intros [|i]; constructor; auto with limbs. apply IHForall. Qed.

Lemma wf_take n pn : wf pn -> wf (take n pn).
Proof. apply Forall_take. Qed.
Lemma wf_drop n pn : wf pn -> wf (drop n pn).
Proof. apply Forall_drop. Qed.
#[export] Hint Resolve wf_limb wf_zero wf_or_at wf_take wf_drop : limbs.

Lemma pow32 n : 0 <= n -> 2 ^ (32 * (1 + n)) = 2 ^ 32 * 2 ^ (32 * n).
Proof. intros. rewrite <- Z.pow_add_r by lia. f_equal. lia. Qed.

Lemma value_bound pn : wf pn -> 0 <= value pn < modulus pn.
Proof.
  unfold modulus. induction 1 as [|x pn [Hx Hx'] H IH]; simpl value; [vm_compute; intuition congruence|].
  rewrite zlen_cons, pow32 by (pose proof (zlen_nonneg pn); lia). nia.
Qed.

Lemma value_app a b : value (a ++ b) = value a + 2 ^ (32 * zlen a) * value b.
Proof.
  induction a as [|x a IH]; simpl value.
  - change (zlen (@nil Z)) with 0. change (2 ^ (32 * 0)) with 1. lia.
  - rewrite IH, zlen_cons, pow32 by (pose proof (zlen_nonneg a); lia). ring.
Qed.

Lemma value_zero n : value (replicate n 0) = 0.
Proof. induction n; simpl value; lia. Qed.

Lemma value_split n pn : (n <= length pn)%nat ->
  value pn = value (take n pn) + 2 ^ (32 * Z.of_nat n) * value (drop n pn).
Proof.
  intros Hn. rewrite <- (take_drop n pn) at 1. rewrite value_app. unfold zlen.
  rewrite length_take, Nat.min_l by lia. reflexivity.
Qed.

Lemma value_0_iff pn : wf pn -> value pn = 0 <-> Forall (fun x => x = 0) pn.
Proof.
  induction 1 as [|x pn Hx H IH]; simpl value; [split; auto|].
  pose proof (value_bound pn H). unfold limb_ok in Hx. rewrite Forall_cons, <- IH. lia.
Qed.

Lemma value_inj a b : length a = length b -> wf a -> wf b -> value a = value b -> a = b.
Proof.
  revert b. induction a as [|x a IH]; intros [|y b] Hl Ha Hb Hv; try discriminate; [reflexivity|].
  apply Forall_cons in Ha as [[? ?] Ha], Hb as [[? ?] Hb]. simpl value in Hv.
  injection Hl as Hl. assert (x = y) as -> by lia. f_equal. apply IH; auto. lia.
Qed.

Lemma value_testbit pn n : wf pn -> 0 <= n ->
  Z.testbit (value pn) n = Z.testbit (limb pn (Z.to_nat (n / 32))) (n mod 32).
Proof.
  intros H. revert n. induction H as [|x pn Hx H IH]; intros n Hn; simpl value.
  { unfold limb. rewrite nth_overflow by (simpl; lia). now rewrite !Z.bits_0. }
  replace (x + 2 ^ 32 * value pn) with (x + value pn * 2 ^ 32) by ring.
  rewrite <- lor_shiftl_add by (unfold limb_ok in Hx; lia). rewrite Z.lor_spec, Z.shiftl_spec by lia.
  destruct (Z.lt_ge_cases n 32).
  - rewrite (Z.testbit_neg_r (value pn)), orb_false_r, Z.div_small, Z.mod_small by lia. reflexivity.
  - rewrite (proj2 (proj1 (pow2_bound_bits 32 x ltac:(lia)) Hx)) by lia. rewrite IH by lia. simpl orb.
    replace (Z.to_nat (n / 32)) with (S (Z.to_nat ((n - 32) / 32))).
    + simpl limb. unfold limb; simpl nth. f_equal. rewrite <- (Z.mod_add (n - 32) 1 32) by lia. f_equal. lia.
    + replace (n / 32) with ((n - 32) / 32 + 1); [pose proof (Z.div_pos (n - 32) 32); lia|].
      rewrite <- (Z.div_add (n - 32) 1 32) by lia. f_equal. lia.
Qed.

(** The 64-bit intermediate of the loops, split into limb and carry. *)
Lemma split64 n : 0 <= n < 2 ^ 64 ->
  Z.land (u64 n) 0xffffffff + 2 ^ 32 * Z.shiftr (u64 n) 32 = n /\ limb_ok (Z.shiftr (u64 n) 32).
Proof.
  intros Hn. unfold u64. rewrite (Z.mod_small n) by lia. change 0xffffffff with (Z.ones 32).
  rewrite Z.land_ones, Z.shiftr_div_pow2 by lia. split.
  - rewrite (Z.div_mod n (2 ^ 32)) at 3 by lia. ring.
  - unfold limb_ok. split; [apply Z.div_pos; lia|]. apply Z.div_lt_upper_bound; lia.
Qed.

(** [x = q M + y] with [y] in range determines [y]. *)
Lemma mod_unique_shift x y M q : 0 <= y < M -> x = y + M * q -> y = x mod M.
Proof. intros Hy ->. rewrite (Z.mul_comm M), Z.mod_add, Z.mod_small by lia. reflexivity. Qed.

(** ** Addition, subtraction, increment *)

Lemma add_loop_spec carry a b :
  length a = length b -> limb_ok carry -> carry <= 1 -> wf a -> wf b ->
  exists c, value (add_loop carry a b) + modulus a * c = carry + value a + value b /\
    0 <= c /\ wf (add_loop carry a b) /\ length (add_loop carry a b) = length a.
Proof.
  revert carry b. induction a as [|x a IH]; intros carry [|y b] Hl Hc Hc1 Ha Hb; try discriminate.
  - exists carry. unfold limb_ok in Hc. repeat split; simpl; [unfold modulus; change (zlen []) with 0; lia|lia|constructor].
  - apply Forall_cons in Ha as [Hx Ha], Hb as [Hy Hb]. unfold limb_ok in *. cbn [add_loop value].
    injection Hl as Hl.
    destruct (split64 (carry + x + y)) as [Hs [Hs1 Hs2]]; [lia|].
    pose proof (limb_ok_land_mask (u64 (carry + x + y))) as Hlo.
    unfold limb_ok in Hlo.
    destruct (IH (Z.shiftr (u64 (carry + x + y)) 32) b) as (c & Hv & Hc' & Hwf & Hlen); auto; [lia|].
    exists c. unfold modulus in *. rewrite zlen_cons, pow32 by (pose proof (zlen_nonneg a); lia).
    repeat split; [nia|lia|constructor; auto|simpl; lia].
Qed.

Lemma op_add_spec a b : length a = length b -> wf a -> wf b ->
  value (op_add a b) = (value a + value b) mod modulus a /\ wf (op_add a b) /\ length (op_add a b) = length a.
Proof.
  intros Hl Ha Hb. destruct (add_loop_spec 0 a b) as (c & Hv & Hc & Hwf & Hlen); auto with limbs; [lia|].
  fold (op_add a b) in *. repeat split; auto. pose proof (value_bound _ Hwf) as Hbd.
  unfold modulus, zlen in *. rewrite Hlen in Hbd. apply (mod_unique_shift _ _ _ c); lia.
Qed.

Lemma op_incr_spec a : wf a ->
  value (op_incr a) = (value a + 1) mod modulus a /\ wf (op_incr a) /\ length (op_incr a) = length a.
Proof.
  induction 1 as [|x a Hx Ha (Hv & Hwf & Hl)]; [repeat split; try constructor; reflexivity|].
  cbn [op_incr]. pose proof (value_bound a Ha) as Hb. unfold modulus in *.
  rewrite zlen_cons, pow32 by (pose proof (zlen_nonneg a); lia). unfold limb_ok in Hx. unfold u32.
  destruct (Z.eq_dec x (2 ^ 32 - 1)) as [->|Hne].
  - rewrite Z.sub_add, Z.mod_same by lia. cbn [Z.eqb value]. repeat split; [|constructor; auto with limbs|simpl; lia].
    rewrite Hv. rewrite Z.add_0_l, <- Z.mul_mod_distr_l by lia. f_equal. ring.
  - rewrite (Z.mod_small (x + 1)) by lia. replace (x + 1 =? 0) with false by lia.
    repeat split; [|constructor; auto; unfold limb_ok; lia]. cbn [value]. apply (mod_unique_shift _ _ _ 0); nia.
Qed.

Lemma op_decr_spec a : wf a ->
  value (op_decr a) = (value a - 1) mod modulus a /\ wf (op_decr a) /\ length (op_decr a) = length a.
Proof.
  induction 1 as [|x a Hx Ha (Hv & Hwf & Hl)]; [repeat split; try constructor; reflexivity|].
  cbn [op_decr]. pose proof (value_bound a Ha) as Hb. unfold modulus in *.
  rewrite zlen_cons, pow32 by (pose proof (zlen_nonneg a); lia). unfold limb_ok in Hx. unfold u32.
  change ((-1) mod 2 ^ 32) with (2 ^ 32 - 1).
  destruct (Z.eq_dec x 0) as [->|Hne].
  - change ((0 - 1) mod 2 ^ 32) with (2 ^ 32 - 1). rewrite Z.eqb_refl. cbn [value].
    repeat split; [|constructor; auto; unfold limb_ok; lia|simpl; lia].
    rewrite Hv. set (M := 2 ^ (32 * zlen a)) in *.
    replace (0 + 2 ^ 32 * value a - 1) with (2 ^ 32 - 1 + 2 ^ 32 * (value a - 1)) by ring.
    apply (mod_unique_shift _ _ _ ((value a - 1) / M)).
    + pose proof (Z.mod_pos_bound (value a - 1) M). nia.
    + rewrite (Z.div_mod (value a - 1) M) at 1 by lia. ring.
  - rewrite (Z.mod_small (x - 1)) by lia. replace (x - 1 =? 2 ^ 32 - 1) with false by lia.
    repeat split; [|constructor; auto; unfold limb_ok; lia]. cbn [value]. apply (mod_unique_shift _ _ _ 0); nia.
Qed.

Lemma op_not_spec a : wf a ->
  value (op_not a) = modulus a - 1 - value a /\ wf (op_not a) /\ length (op_not a) = length a.
Proof.
  induction 1 as [|x a Hx Ha (Hv & Hwf & Hl)]; [repeat split; constructor|].
  cbn [op_not map value]. fold (op_not a). unfold modulus in *.
  rewrite zlen_cons, pow32 by (pose proof (zlen_nonneg a); lia). unfold limb_ok in Hx.
  assert (u32 (Z.lnot x) = 2 ^ 32 - 1 - x) as ->.
  { unfold u32, Z.lnot. rewrite <- (Z.mod_add _ 1), Z.mod_small by lia. lia. }
  repeat split; [lia|constructor; auto; unfold limb_ok; lia|simpl; lia].
Qed.

Lemma op_neg_spec a : wf a ->
  value (op_neg a) = (- value a) mod modulus a /\ wf (op_neg a) /\ length (op_neg a) = length a.
Proof.
  intros Ha. destruct (op_not_spec a Ha) as (Hv & Hwf & Hl). unfold op_neg.
  destruct (op_incr_spec _ Hwf) as (Hv' & Hwf' & Hl'). repeat split; [|assumption|lia].
  rewrite Hv', Hv. unfold modulus, zlen. rewrite Hl. set (M := 2 ^ _).
  replace (M - 1 - value a + 1) with (- value a + 1 * M) by ring. apply Z.mod_add. unfold M. lia.
Qed.

Lemma op_sub_spec a b : length a = length b -> wf a -> wf b ->
  value (op_sub a b) = (value a - value b) mod modulus a /\ wf (op_sub a b) /\ length (op_sub a b) = length a.
Proof.
  intros Hl Ha Hb. destruct (op_neg_spec b Hb) as (Hv & Hwf & Hlen). unfold op_sub.
  destruct (op_add_spec a (op_neg b)) as (Hv' & Hwf' & Hl'); auto; [lia|]. repeat split; auto.
  rewrite Hv', Hv. unfold modulus, zlen. rewrite Hl. apply Zplus_mod_idemp_r.
Qed.

(** ** Multiplication *)

Lemma mul32_loop_spec carry b32 a : limb_ok carry -> limb_ok b32 -> wf a ->
  exists c, value (mul32_loop carry b32 a) + modulus a * c = carry + b32 * value a /\
    wf (mul32_loop carry b32 a) /\ length (mul32_loop carry b32 a) = length a.
Proof.
  intros Hc Hb Ha. revert carry Hc. induction Ha as [|x a Hx Ha IH]; intros carry Hc.
  - exists carry. repeat split; [|constructor]. unfold modulus. change (zlen []) with 0. simpl; lia.
  - cbn [mul32_loop value]. unfold limb_ok in *.
    destruct (split64 (carry + b32 * x)) as [Hs [Hs1 Hs2]]; [nia|].
    destruct (IH (Z.shiftr (u64 (carry + b32 * x)) 32)) as (c & Hv & Hwf & Hlen); [lia|].
    exists c. unfold modulus in *. rewrite zlen_cons, pow32 by (pose proof (zlen_nonneg a); lia).
    repeat split; [nia|constructor; auto with limbs|simpl; lia].
Qed.

Lemma op_mul32_spec a b32 : wf a -> limb_ok b32 ->
  value (op_mul32 a b32) = (value a * b32) mod modulus a /\ wf (op_mul32 a b32) /\ length (op_mul32 a b32) = length a.
Proof.
  intros Ha Hb. destruct (mul32_loop_spec 0 b32 a) as (c & Hv & Hwf & Hlen); auto with limbs.
  fold (op_mul32 a b32) in *. repeat split; auto. pose proof (value_bound _ Hwf) as Hbd.
  unfold modulus, zlen in *. rewrite Hlen in Hbd. apply (mod_unique_shift _ _ _ c); lia.
Qed.

Lemma mul_row_spec carry aj pn b : limb_ok carry -> limb_ok aj -> wf pn -> wf b -> (length pn <= length b)%nat ->
  value (mul_row carry aj pn b).1 + modulus pn * (mul_row carry aj pn b).2 =
    carry + value pn + aj * value (take (length pn) b) /\
  limb_ok (mul_row carry aj pn b).2 /\ wf (mul_row carry aj pn b).1 /\
  length (mul_row carry aj pn b).1 = length pn.
Proof.
  intros Hc Ha Hp. revert carry b Hc. induction Hp as [|p pn Hpp Hp IH]; intros carry b Hc Hb Hl.
  - cbn [mul_row fst snd length take value]. split; [unfold modulus; change (zlen []) with 0; change (value (take 0 b)) with 0; lia|].
    split; [assumption|]. split; [constructor|reflexivity].
  - destruct b as [|bi b]; [simpl in Hl; lia|]. apply Forall_cons in Hb as [Hbi Hb].
    simpl in Hl. cbn [mul_row length take value]. unfold limb_ok in *.
    destruct (split64 (carry + p + aj * bi)) as [Hs [Hs1 Hs2]]; [nia|].
    specialize (IH (Z.shiftr (u64 (carry + p + aj * bi)) 32) b ltac:(lia) Hb ltac:(lia)).
    destruct (mul_row _ aj pn b) as [row c]. cbn [fst snd value length] in *.
    destruct IH as (Hv & Hc' & Hwf & Hlen). unfold modulus in *.
    rewrite zlen_cons, pow32 by (pose proof (zlen_nonneg pn); lia).
    split; [nia|]. split; [lia|]. split; [constructor; auto with limbs|lia].
Qed.

Lemma take_snoc_limb a j : (j < length a)%nat -> take (S j) a = take j a ++ [limb a j].
Proof.
  intros H. unfold limb. destruct (lookup_lt_is_Some_2 a j H) as [x Hx].
  rewrite (take_S_r _ _ _ Hx). f_equal. f_equal. symmetry. apply nth_lookup_Some with (d:=0) in Hx. exact Hx.
Qed.

Lemma value_take_S a j : (j < length a)%nat ->
  value (take (S j) a) = value (take j a) + 2 ^ (32 * Z.of_nat j) * limb a j.
Proof.
  intros H. rewrite take_snoc_limb, value_app by assumption. unfold zlen. rewrite length_take, Nat.min_l by lia.
  simpl value. ring.
Qed.

(** After [m] rows: the exact product of the low [m] limbs of [a] with [b] is the
    accumulator plus [C] lost carries and [D] limbs that were never computed. *)
Record mul_inv (a b : base_uint) (m : nat) (st : mul_state) (C D : Z) : Prop := mkMulInv {
  mi_wf : wf (mul_pn st);
  mi_len : length (mul_pn st) = length a;
  mi_value : value (take m a) * value b = value (mul_pn st) + modulus a * (C + D);
  mi_C : 0 <= C;
  mi_D : 0 <= D;
  mi_overflow : mul_overflow st = (0 <? C);
  mi_dropped : D = 0 <-> forall j, (j < m)%nat -> limb a j = 0 \/ value (drop (length a - j) b) = 0;
  mi_highA : (forall i, (highestNonzeroA st < i < m)%nat -> limb a i = 0) /\
             (highestNonzeroA st = 0%nat \/ limb a (highestNonzeroA st) <> 0) /\
             (highestNonzeroA st < m \/ highestNonzeroA st = 0)%nat;
  mi_highB : (forall i, (highestNonzeroB st < i < m)%nat -> limb b i = 0) /\
             (highestNonzeroB st = 0%nat \/ limb b (highestNonzeroB st) <> 0) /\
             (highestNonzeroB st < m \/ highestNonzeroB st = 0)%nat
}.

Lemma highest_step (a : base_uint) (h m : nat) :
  (forall i, (h < i < m)%nat -> limb a i = 0) /\ (h = 0%nat \/ limb a h <> 0) /\ (h < m \/ h = 0)%nat ->
  let h' := if limb a m =? 0 then h else m in
  (forall i, (h' < i < S m)%nat -> limb a i = 0) /\ (h' = 0%nat \/ limb a h' <> 0) /\ (h' < S m \/ h' = 0)%nat.
Proof.
  intros (H1 & H2 & H3). destruct (Z.eqb_spec (limb a m) 0) as [E|E]; cbn zeta.
  - repeat split; [|assumption|lia]. intros i Hi. destruct (Nat.eq_dec i m) as [->|]; [assumption|apply H1; lia].
  - repeat split; [intros i Hi; lia|right; assumption|lia].
Qed.

Lemma mul_step_inv a b m st C D :
  length a = length b -> wf a -> wf b -> (m < length a)%nat -> mul_inv a b m st C D ->
  exists C' D', mul_inv a b (S m) (mul_step a b st m) C' D'.
Proof.
  intros Hl Ha Hb Hm [Hwf Hlen Hv HC HD Hov Hdrop HA HB].
  pose proof (mul_row_spec 0 (limb a m) (drop m (mul_pn st)) b limb_ok_0 (wf_limb a m Ha) (wf_drop _ _ Hwf) Hb
    ltac:(rewrite length_drop; lia)) as Hrow.
  unfold mul_step. destruct (mul_row 0 (limb a m) (drop m (mul_pn st)) b) as [row c]. cbn [fst snd] in Hrow.
  destruct Hrow as (Hr & Hc & Hrwf & Hrl). rewrite length_drop in Hr, Hrl.
  pose proof (wf_limb a m Ha) as Ham. unfold limb_ok in *.
  set (E := value (drop (length (mul_pn st) - m) b)) in *.
  assert (0 <= E) by (apply value_bound; auto with limbs).
  exists (C + c), (D + limb a m * E). constructor; cbn [mul_pn mul_overflow highestNonzeroA highestNonzeroB].
  - apply Forall_app. split; [apply wf_take|]; assumption.
  - rewrite length_app, length_take. lia.
  - rewrite value_take_S by assumption. rewrite Z.mul_add_distr_r, Hv, value_app.
    rewrite (value_split m (mul_pn st)) by lia.
    rewrite (value_split (length (mul_pn st) - m) b) by lia. fold E.
    unfold zlen. rewrite length_take, Nat.min_l by lia.
    unfold modulus, zlen in *. rewrite length_drop in Hr.
    assert (2 ^ (32 * Z.of_nat (length a)) =
            2 ^ (32 * Z.of_nat m) * 2 ^ (32 * Z.of_nat (length (mul_pn st) - m))) as HM.
    { rewrite <- Z.pow_add_r by lia. f_equal. lia. }
    set (P := 2 ^ (32 * Z.of_nat m)) in *. set (R := 2 ^ (32 * Z.of_nat (length (mul_pn st) - m))) in *.
    set (T := value (take (length (mul_pn st) - m) b)) in *. rewrite HM.
    replace (value row) with (0 + value (drop m (mul_pn st)) + limb a m * T - R * c) by lia. ring.
  - lia.
  - nia.
  - rewrite Hov. lia.
  - assert (value (drop (length a - m) b) = E) as HEq by (unfold E; rewrite Hlen; reflexivity). split.
    + intros H0 j Hj. destruct (Nat.eq_dec j m) as [->|].
      * rewrite HEq. nia.
      * apply Hdrop; [nia|lia].
    + intros H0. assert (D = 0) as -> by (apply Hdrop; intros; apply H0; lia).
      destruct (H0 m ltac:(lia)) as [-> | HE]; [lia|]. rewrite HEq in HE. nia.
  - apply highest_step, HA.
  - apply highest_step, HB.
Qed.

Lemma mul_loop_inv a b m : length a = length b -> wf a -> wf b -> (m <= length a)%nat ->
  exists C D, mul_inv a b m (fold_left (mul_step a b) (seq 0 m) (mkMul (replicate (length a) 0) false 0 0)) C D.
Proof.
  intros Hl Ha Hb. induction m as [|m IH]; intros Hm.
  - exists 0, 0. constructor; cbn [fold_left seq mul_pn mul_overflow highestNonzeroA highestNonzeroB];
      auto with limbs; try (repeat split; auto; intros; lia).
    + apply length_replicate.
    + rewrite value_zero. simpl take. simpl value. lia.
  - destruct IH as (C & D & IH); [lia|]. rewrite seq_S, fold_left_app. cbn [fold_left].
    apply (mul_step_inv a b m _ C D); auto; lia.
Qed.

Lemma value_drop_0 b n : wf b -> value (drop n b) = 0 <-> (forall i, (n <= i)%nat -> limb b i = 0).
Proof.
  intros Hb. rewrite value_0_iff, Forall_lookup by auto with limbs. split.
  - intros H i Hi. unfold limb. destruct (b !! i) as [x|] eqn:E.
    + rewrite (nth_lookup_Some b i 0 x E). apply (H (i - n)%nat). rewrite lookup_drop. rewrite <- E. f_equal. lia.
    + apply lookup_ge_None in E. apply nth_overflow. lia.
  - intros H i x Hx. rewrite lookup_drop in Hx. rewrite <- (nth_lookup_Some b (n + i) 0 x Hx). apply H. lia.
Qed.

Lemma highest_overflow (a b : base_uint) (hA hB : nat) : length a = length b -> wf b ->
  (forall i, (hA < i < length a)%nat -> limb a i = 0) /\ (hA = 0%nat \/ limb a hA <> 0) /\ (hA < length a \/ hA = 0)%nat ->
  (forall i, (hB < i < length a)%nat -> limb b i = 0) /\ (hB = 0%nat \/ limb b hB <> 0) /\ (hB < length a \/ hB = 0)%nat ->
  (forall j, (j < length a)%nat -> limb a j = 0 \/ value (drop (length a - j) b) = 0) <->
  (hA + hB < length a \/ length a = 0)%nat.
Proof.
  intros Hl Hb (A1 & A2 & A3) (B1 & B2 & B3). split.
  - intros H. destruct (Nat.lt_ge_cases (hA + hB) (length a)) as [|Hge]; [auto|].
    destruct (Nat.eq_dec (length a) 0%nat) as [|Hn]; [auto|].
    destruct (H hA) as [E|E]; [lia| |]; [destruct A2; [lia|contradiction]|].
    rewrite value_drop_0 in E by assumption. specialize (E hB ltac:(lia)). destruct B2; [lia|contradiction].
  - intros H j Hj. destruct (Nat.le_gt_cases j hA) as [Hle|Hgt]; [|left; apply A1; lia].
    right. rewrite value_drop_0 by assumption. intros i Hi.
    destruct (Nat.lt_ge_cases i (length a)); [apply B1; lia|]. unfold limb. apply nth_overflow. lia.
Qed.

Lemma MultiplyBy_spec a b : length a = length b -> (0 < length a)%nat -> wf a -> wf b ->
  value (MultiplyBy a b).1 = (value a * value b) mod modulus a /\
  (MultiplyBy a b).2 = (value a * value b <? modulus a) /\
  wf (MultiplyBy a b).1 /\ length (MultiplyBy a b).1 = length a.
Proof.
  intros Hl Hn Ha Hb. destruct (mul_loop_inv a b (length a)) as (C & D & [Hwf Hlen Hv HC HD Hov Hdrop HA HB]); auto.
  unfold MultiplyBy. set (st := fold_left _ _ _) in *. cbn [fst snd].
  rewrite firstn_all in Hv. pose proof (value_bound _ Hwf) as Hbd. unfold modulus, zlen in *. rewrite Hlen in Hbd.
  rewrite (highest_overflow a b _ _ Hl Hb HA HB) in Hdrop.
  split; [apply (mod_unique_shift _ _ _ (C + D)); lia|]. split; [|auto].
  rewrite Hov. set (M := 2 ^ _) in *.
  destruct (Nat.leb_spec (length a) (highestNonzeroA st + highestNonzeroB st)) as [Hge|Hlt].
  - assert (D <> 0) by (rewrite Hdrop; lia). rewrite orb_true_r. cbn [negb]. symmetry. apply Z.ltb_ge. nia.
  - assert (D = 0) as -> by (rewrite Hdrop; lia). rewrite orb_false_r.
    destruct (Z.ltb_spec 0 C); cbn [negb]; symmetry; [apply Z.ltb_ge|apply Z.ltb_lt]; nia.
Qed.

(** ** Shifts *)

Lemma limb_or_at pn i v j : (i < length pn)%nat ->
  limb (or_at pn i v) j = if (j =? i)%nat then Z.lor (limb pn j) v else limb pn j.
Proof.
  intros Hi. unfold limb, or_at. rewrite !nth_lookup. destruct (Nat.eqb_spec j i) as [->|Hne].
  - rewrite list_lookup_alter_eq. destruct (lookup_lt_is_Some_2 pn i Hi) as [x ->]. reflexivity.
  - rewrite list_lookup_alter_ne by lia. reflexivity.
Qed.

Lemma length_or_at pn i v : length (or_at pn i v) = length pn.
Proof. apply length_alter. Qed.

Lemma limb_zero n i : limb (replicate n 0) i = 0.
Proof. unfold limb. revert i. induction n; intros [|i]; simpl; auto. Qed.

(** A value is determined by its limbs: reading all bits. *)
Lemma value_bits pn x : wf pn -> 0 <= x < modulus pn ->
  (forall i b, (i < length pn)%nat -> 0 <= b < 32 -> Z.testbit (limb pn i) b = Z.testbit x (32 * Z.of_nat i + b)) ->
  value pn = x.
Proof.
  intros Hwf Hx H. apply Z.bits_inj'. intros n Hn. rewrite value_testbit by assumption.
  pose proof (Z.div_mod n 32 ltac:(lia)). pose proof (Z.mod_pos_bound n 32 ltac:(lia)).
  assert (0 <= n / 32) by (apply Z.div_pos; lia).
  destruct (Z.lt_ge_cases n (32 * zlen pn)) as [Hlt|Hge].
  - rewrite H by (unfold zlen in *; lia). f_equal. rewrite Z2Nat.id by lia. lia.
  - unfold limb. rewrite nth_overflow by (unfold zlen in *; lia). rewrite Z.bits_0.
    unfold modulus in Hx. symmetry.
    apply (proj2 (proj1 (pow2_bound_bits (32 * zlen pn) x ltac:(pose proof (zlen_nonneg pn); lia)) Hx)). lia.
Qed.

(** Decide the index tests of a loop body. *)
Ltac nat_tests :=
  repeat match goal with
  | |- context [(?x =? ?y)%nat] => destruct (Nat.eqb_spec x y); try subst; try lia
  | |- context [(?x <? ?y)%nat] => destruct (Nat.ltb_spec x y); try lia
  | |- context [(?x <=? ?y)%nat] => destruct (Nat.leb_spec x y); try lia
  end; cbn [andb negb]; rewrite ?Z.lor_0_l, ?Z.lor_0_r; try reflexivity.

Lemma limb_or_at_if (c : bool) pn i v j : (c = true -> (i < length pn)%nat) ->
  limb (if c then or_at pn i v else pn) j = Z.lor (limb pn j) (if c && (j =? i)%nat then v else 0).
Proof.
  destruct c; intros H; cbn [andb].
  - rewrite limb_or_at by auto. destruct (j =? i)%nat; [reflexivity|]. now rewrite Z.lor_0_r.
  - now rewrite Z.lor_0_r.
Qed.

Lemma shl_loop_limb a k s m j : wf a -> 0 <= s < 32 -> (m <= length a)%nat -> (j < length a)%nat ->
  let pn := fold_left (shl_step a k s) (seq 0 m) (replicate (length a) 0) in
  wf pn /\ length pn = length a /\
  limb pn j = Z.lor (if (k + 1 <=? j)%nat && (j <? k + 1 + m)%nat && negb (s =? 0)
                     then Z.shiftr (limb a (j - k - 1)) (32 - s) else 0)
                    (if (k <=? j)%nat && (j <? k + m)%nat then u32 (Z.shiftl (limb a (j - k)) s) else 0).
Proof.
  intros Ha Hs. induction m as [|m IH]; intros Hm Hj; cbn zeta in *.
  - cbn [seq fold_left]. split; [apply wf_zero|]. split; [apply length_replicate|]. rewrite limb_zero.
    nat_tests.
  - destruct IH as (Hwf & Hl & IH); [lia|lia|]. rewrite seq_S, fold_left_app, Nat.add_0_l. cbn [fold_left].
    set (pn := fold_left _ _ _) in *. unfold shl_step. cbn zeta.
    set (c1 := (m + k + 1 <? length a)%nat && negb (s =? 0)).
    assert (Hl1 : length (if c1 then or_at pn (m + k + 1) (Z.shiftr (limb a m) (32 - s)) else pn) = length a)
      by (destruct c1; rewrite ?length_or_at; assumption).
    split; [|split].
    + assert (wf (if c1 then or_at pn (m + k + 1) (Z.shiftr (limb a m) (32 - s)) else pn)).
      { destruct c1; auto. apply wf_or_at; auto. apply limb_ok_shiftr; [lia|auto with limbs]. }
      destruct (m + k <? length a)%nat; [apply wf_or_at; auto with limbs|assumption].
    + destruct (m + k <? length a)%nat; rewrite ?length_or_at; assumption.
    + rewrite limb_or_at_if by (intros ?%Nat.ltb_lt; lia).
      rewrite limb_or_at_if by (unfold c1; intros; bool_prop; rewrite Nat.ltb_lt in *; lia). rewrite IH.
      unfold c1. clear IH Hl1 c1.
      destruct (Z.eqb_spec s 0); nat_tests;
        replace (m + k + 1 - k - 1)%nat with m by lia; replace (m + k - k)%nat with m by lia;
        rewrite ?Z.lor_assoc; reflexivity.
Qed.

Lemma limb_high pn i b : wf pn -> 32 <= b -> Z.testbit (limb pn i) b = false.
Proof. intros H. apply (proj1 (pow2_bound_bits 32 _ ltac:(lia)) (wf_limb pn i H)). Qed.

Lemma value_bit pn i b : wf pn -> 0 <= b < 32 -> Z.testbit (value pn) (32 * Z.of_nat i + b) = Z.testbit (limb pn i) b.
Proof.
  intros H Hb. rewrite value_testbit by (auto; lia). replace (32 * Z.of_nat i + b) with (b + Z.of_nat i * 32) by ring.
  rewrite Z.div_add, Z.mod_add, Z.div_small, Z.mod_small, Z.add_0_l, Nat2Z.id by lia. reflexivity.
Qed.

Lemma testbit_u32 x b : 0 <= b < 32 -> Z.testbit (u32 x) b = Z.testbit x b.
Proof. intros. unfold u32. apply Z.mod_pow2_bits_low. lia. Qed.

Lemma length_pos_modulus (a : base_uint) : 0 < modulus a.
Proof. unfold modulus. apply Z.pow_pos_nonneg; [lia|]. pose proof (zlen_nonneg a). lia. Qed.

Lemma modulus_length (a b : base_uint) : length a = length b -> modulus a = modulus b.
Proof. intros H. unfold modulus, zlen. now rewrite H. Qed.

Lemma op_shl_shape a shift : 0 <= shift -> wf a -> wf (op_shl a shift) /\ length (op_shl a shift) = length a.
Proof.
  intros Hs Ha. destruct a as [|x a']; [repeat split; constructor|]. remember (x :: a') as a eqn:E.
  destruct (shl_loop_limb a (Z.to_nat (shift / 32)) (shift mod 32) (length a) 0) as (H1 & H2 & _); auto.
  - apply Z.mod_pos_bound; lia.
  - subst a. simpl. lia.
Qed.

Lemma op_shl_spec a shift : 0 <= shift -> wf a ->
  value (op_shl a shift) = (value a * 2 ^ shift) mod modulus a.
Proof.
  intros Hs Ha. destruct (op_shl_shape a shift Hs Ha) as [Hwf Hl].
  apply value_bits; auto.
  { rewrite (modulus_length _ _ Hl). apply Z.mod_pos_bound, length_pos_modulus. }
  intros i b Hi Hb. rewrite Hl in Hi. unfold modulus. rewrite Z.mod_pow2_bits_low by (unfold zlen; lia).
  rewrite Z.mul_pow2_bits by lia.
  pose proof (Z.mod_pos_bound shift 32 ltac:(lia)) as Hm. pose proof (Z.div_mod shift 32 ltac:(lia)) as Hdm.
  pose proof (Z.div_pos shift 32 Hs ltac:(lia)).
  destruct (shl_loop_limb a (Z.to_nat (shift / 32)) (shift mod 32) (length a) i) as (_ & _ & Hlimb); auto.
  fold (op_shl a shift) in Hlimb. rewrite Hlimb, Z.lor_spec. clear Hlimb.
  assert (Hsh : shift = 32 * Z.of_nat (Z.to_nat (shift / 32)) + shift mod 32) by lia.
  revert Hm Hsh. generalize (Z.to_nat (shift / 32)) (shift mod 32). intros k s Hm ->.
  destruct (Z.lt_ge_cases b s) as [Hlt|Hge].
  - assert (s <> 0) by lia. replace (s =? 0) with false by lia. cbn [negb]. rewrite andb_true_r.
    replace (Z.testbit (if (k <=? i)%nat && _ then _ else _) b) with false.
    2:{ destruct (_ && _); [|symmetry; apply Z.bits_0]. rewrite testbit_u32, Z.shiftl_spec by lia.
        symmetry. apply Z.testbit_neg_r. lia. }
    rewrite orb_false_r. nat_tests; rewrite ?Z.bits_0.
    + rewrite Z.shiftr_spec by lia. replace (b + (32 - s)) with (b + 32 - s) by lia. rewrite <- value_bit by (auto; lia).
      f_equal. lia.
    + symmetry. apply Z.testbit_neg_r. lia.
  - replace (Z.testbit (if _ && _ && _ then _ else _) b) with false.
    2:{ destruct (_ && _); [|symmetry; apply Z.bits_0]. rewrite Z.shiftr_spec by lia. symmetry. apply limb_high; auto; lia. }
    cbn [orb]. nat_tests; rewrite ?Z.bits_0.
    + rewrite testbit_u32, Z.shiftl_spec by lia. rewrite <- value_bit by (auto; lia). f_equal. lia.
    + symmetry. apply Z.testbit_neg_r. lia.
Qed.

Lemma shr_loop_limb a k s m j : wf a -> 0 <= s < 32 -> (m <= length a)%nat -> (j < length a)%nat ->
  let pn := fold_left (shr_step a k s) (seq 0 m) (replicate (length a) 0) in
  wf pn /\ length pn = length a /\
  limb pn j = Z.lor (if (j + k + 1 <? m)%nat && negb (s =? 0) then u32 (Z.shiftl (limb a (j + k + 1)) (32 - s)) else 0)
                    (if (j + k <? m)%nat then Z.shiftr (limb a (j + k)) s else 0).
Proof.
  intros Ha Hs. induction m as [|m IH]; intros Hm Hj; cbn zeta in *.
  - cbn [seq fold_left]. split; [apply wf_zero|]. split; [apply length_replicate|]. rewrite limb_zero. nat_tests.
  - destruct IH as (Hwf & Hl & IH); [lia|lia|]. rewrite seq_S, fold_left_app, Nat.add_0_l. cbn [fold_left].
    set (pn := fold_left _ _ _) in *. unfold shr_step. cbn zeta.
    set (c1 := (k + 1 <=? m)%nat && negb (s =? 0)).
    assert (Hl1 : length (if c1 then or_at pn (m - k - 1) (u32 (Z.shiftl (limb a m) (32 - s))) else pn) = length a)
      by (destruct c1; rewrite ?length_or_at; assumption).
    split; [|split].
    + assert (wf (if c1 then or_at pn (m - k - 1) (u32 (Z.shiftl (limb a m) (32 - s))) else pn))
        by (destruct c1; auto with limbs).
      destruct (k <=? m)%nat; [|assumption]. apply wf_or_at; [assumption|].
      apply limb_ok_shiftr; [lia|auto with limbs].
    + destruct (k <=? m)%nat; rewrite ?length_or_at; assumption.
    + rewrite limb_or_at_if by (intros ?%Nat.leb_le; lia).
      rewrite limb_or_at_if by (unfold c1; intros; bool_prop; rewrite Nat.leb_le in *; lia). rewrite IH.
      unfold c1. clear IH Hl1 c1.
      destruct (Z.eqb_spec s 0); nat_tests;
        first [repeat f_equal; lia | rewrite Z.lor_comm; repeat f_equal; lia].
Qed.

Lemma op_shr_shape a shift : 0 <= shift -> wf a -> wf (op_shr a shift) /\ length (op_shr a shift) = length a.
Proof.
  intros Hs Ha. destruct a as [|x a']; [repeat split; constructor|]. remember (x :: a') as a eqn:E.
  destruct (shr_loop_limb a (Z.to_nat (shift / 32)) (shift mod 32) (length a) 0) as (H1 & H2 & _); auto.
  - apply Z.mod_pos_bound; lia.
  - subst a. simpl. lia.
Qed.

Lemma op_shr_spec a shift : 0 <= shift -> wf a -> value (op_shr a shift) = value a / 2 ^ shift.
Proof.
  intros Hs Ha. destruct (op_shr_shape a shift Hs Ha) as [Hwf Hl].
  rewrite <- Z.shiftr_div_pow2 by lia. apply value_bits; auto.
  { rewrite (modulus_length _ _ Hl), Z.shiftr_div_pow2 by lia. pose proof (value_bound a Ha).
    pose proof (Z.pow_pos_nonneg 2 shift). split; [apply Z.div_pos; lia|].
    apply Z.div_lt_upper_bound; [lia|]. nia. }
  intros i b Hi Hb. rewrite Hl in Hi. rewrite Z.shiftr_spec by lia.
  pose proof (Z.mod_pos_bound shift 32 ltac:(lia)) as Hm. pose proof (Z.div_mod shift 32 ltac:(lia)) as Hdm.
  pose proof (Z.div_pos shift 32 Hs ltac:(lia)).
  destruct (shr_loop_limb a (Z.to_nat (shift / 32)) (shift mod 32) (length a) i) as (_ & _ & Hlimb); auto.
  fold (op_shr a shift) in Hlimb. rewrite Hlimb, Z.lor_spec. clear Hlimb.
  assert (Hsh : shift = 32 * Z.of_nat (Z.to_nat (shift / 32)) + shift mod 32) by lia.
  revert Hm Hsh. generalize (Z.to_nat (shift / 32)) (shift mod 32). intros k s Hm ->.
  destruct (Z.lt_ge_cases b (32 - s)) as [Hlt|Hge].
  - replace (Z.testbit (if _ && _ then _ else _) b) with false.
    2:{ destruct (_ && _); [|symmetry; apply Z.bits_0]. rewrite testbit_u32, Z.shiftl_spec by lia.
        symmetry. apply Z.testbit_neg_r. lia. }
    replace (32 * Z.of_nat i + b + (32 * Z.of_nat k + s)) with (32 * Z.of_nat (i + k) + (b + s)) by lia.
    rewrite value_bit by (auto; lia). cbn [orb]. nat_tests; rewrite ?Z.bits_0.
    + rewrite Z.shiftr_spec by lia. reflexivity.
    + unfold limb. rewrite nth_overflow by lia. now rewrite Z.bits_0.
  - replace (s =? 0) with false by lia.
    replace (Z.testbit (if (i + k <? length a)%nat then _ else _) b) with false.
    2:{ destruct (_ <? _)%nat; [|symmetry; apply Z.bits_0]. rewrite Z.shiftr_spec by lia. symmetry. apply limb_high; auto; lia. }
    replace (32 * Z.of_nat i + b + (32 * Z.of_nat k + s)) with (32 * Z.of_nat (i + k + 1) + (b - (32 - s))) by lia.
    rewrite value_bit by (auto; lia). rewrite orb_false_r. nat_tests; rewrite ?Z.bits_0.
    + rewrite testbit_u32, Z.shiftl_spec by lia. reflexivity.
    + unfold limb. rewrite nth_overflow by lia. now rewrite Z.bits_0.
Qed.

(** ** Comparison, size, low words *)

Lemma compare_loop_spec n a b : wf a -> wf b -> (n <= length a)%nat -> length a = length b ->
  compare_loop n a b = match value (take n a) ?= value (take n b) with Lt => -1 | Eq => 0 | Gt => 1 end.
Proof.
  intros Ha Hb Hn Hl. induction n as [|n IH]; [reflexivity|]. cbn [compare_loop].
  rewrite !value_take_S by lia. rewrite IH by lia.
  pose proof (value_bound (take n a) (wf_take _ _ Ha)) as Hx. pose proof (value_bound (take n b) (wf_take _ _ Hb)) as Hy.
  unfold modulus, zlen in Hx, Hy. rewrite length_take, Nat.min_l in Hx, Hy by lia.
  set (P := 2 ^ (32 * Z.of_nat n)) in *.
  destruct (Z.ltb_spec (limb a n) (limb b n)); [|destruct (Z.ltb_spec (limb b n) (limb a n))].
  - rewrite (proj2 (Z.compare_lt_iff _ _)); [reflexivity|nia].
  - rewrite (proj2 (Z.compare_gt_iff _ _)); [reflexivity|nia].
  - replace (limb b n) with (limb a n) by lia. rewrite !(Z.add_comm _ (P * limb a n)), Z.add_compare_mono_l. reflexivity.
Qed.

Lemma CompareTo_spec a b : wf a -> wf b -> length a = length b ->
  CompareTo a b = match value a ?= value b with Lt => -1 | Eq => 0 | Gt => 1 end.
Proof.
  intros Ha Hb Hl. unfold CompareTo. rewrite compare_loop_spec by (auto; lia).
  rewrite firstn_all. rewrite Hl, firstn_all. reflexivity.
Qed.

Lemma CompareTo_ge a b : wf a -> wf b -> length a = length b -> (0 <=? CompareTo a b) = (value b <=? value a).
Proof.
  intros Ha Hb Hl. rewrite CompareTo_spec by assumption. destruct (Z.compare_spec (value a) (value b)); simpl; lia.
Qed.

Lemma land_bit x n : 0 <= n -> (Z.land x (Z.shiftl 1 n) =? 0) = negb (Z.testbit x n).
Proof.
  intros Hn. rewrite Z.shiftl_1_l. destruct (Z.testbit x n) eqn:E; cbn [negb].
  - apply Z.eqb_neq. intros H. apply (f_equal (fun z => Z.testbit z n)) in H.
    rewrite Z.land_spec, E, Z.pow2_bits_true, Z.bits_0 in H by lia. discriminate.
  - apply Z.eqb_eq. apply Z.bits_inj'. intros i Hi. rewrite Z.land_spec, Z.bits_0, Z.pow2_bits_eqb by lia.
    destruct (Z.eqb_spec n i) as [->|]; [rewrite E|rewrite andb_false_r]; reflexivity.
Qed.

Lemma top_bit_spec n x : 0 < x < 2 ^ (Z.of_nat n + 1) -> top_bit n x = Z.log2 x + 1.
Proof.
  induction n as [|n IH]; intros Hx; cbn [top_bit].
  - change (2 ^ (Z.of_nat 0 + 1)) with 2 in Hx. replace x with 1 by lia. reflexivity.
  - rewrite land_bit by lia. destruct (Z.testbit x (Z.of_nat (S n))) eqn:E; cbn [negb].
    + f_equal. symmetry. apply Z.log2_unique; [lia|]. split; [|unfold Z.succ; lia].
      destruct (Z.le_gt_cases (2 ^ Z.of_nat (S n)) x) as [|Hlt]; [assumption|].
      rewrite (proj2 (proj1 (pow2_bound_bits (Z.of_nat (S n)) x ltac:(lia)) ltac:(lia))) in E by lia. discriminate.
    + apply IH. split; [lia|]. replace (Z.of_nat n + 1) with (Z.of_nat (S n)) by lia.
      apply pow2_bound_bits; [lia|]. split; [lia|]. intros i Hi.
      destruct (Z.eq_dec i (Z.of_nat (S n))) as [->|]; [assumption|].
      apply (proj2 (proj1 (pow2_bound_bits (Z.of_nat (S n) + 1) x ltac:(lia)) ltac:(lia))). lia.
Qed.

Lemma bits_loop_spec n pn : wf pn -> (n <= length pn)%nat ->
  bits_loop n pn = if value (take n pn) =? 0 then 0 else Z.log2 (value (take n pn)) + 1.
Proof.
  intros Hwf Hn. induction n as [|n IH]; [reflexivity|]. cbn [bits_loop]. rewrite value_take_S by lia.
  pose proof (value_bound (take n pn) (wf_take _ _ Hwf)) as Hx.
  unfold modulus, zlen in Hx. rewrite length_take, Nat.min_l in Hx by lia.
  pose proof (wf_limb pn n Hwf) as Hl. unfold limb_ok in Hl. set (P := 2 ^ (32 * Z.of_nat n)) in *.
  destruct (Z.eqb_spec (limb pn n) 0) as [->|Hne].
  - rewrite Z.mul_0_r, Z.add_0_r. apply IH. lia.
  - replace (_ =? 0) with false by nia. rewrite top_bit_spec by (change (2 ^ (Z.of_nat 31 + 1)) with (2 ^ 32); lia).
    enough (Z.log2 (value (take n pn) + P * limb pn n) = 32 * Z.of_nat n + Z.log2 (limb pn n)) by lia.
    pose proof (Z.log2_nonneg (limb pn n)). apply Z.log2_unique; [lia|].
    unfold Z.succ. rewrite <- Z.add_assoc, !Z.pow_add_r by lia. fold P. change (2 ^ 1) with 2.
    pose proof (Z.log2_spec (limb pn n) ltac:(lia)) as [H1 H2].
    unfold Z.succ in H2. rewrite Z.pow_add_r in H2 by lia. change (2 ^ 1) with 2 in H2. nia.
Qed.

Lemma bits_spec pn : wf pn -> bits pn = if value pn =? 0 then 0 else Z.log2 (value pn) + 1.
Proof. intros H. unfold bits. rewrite bits_loop_spec by (auto; lia). now rewrite firstn_all. Qed.

(** ** Division *)

Lemma value_or_at pn i v : wf pn -> limb_ok v -> (i < length pn)%nat ->
  value (or_at pn i v) = Z.lor (value pn) (v * 2 ^ (32 * Z.of_nat i)).
Proof.
  intros Hwf Hv Hi. apply Z.bits_inj'. intros n Hn.
  rewrite value_testbit by (auto with limbs). rewrite limb_or_at by assumption.
  rewrite Z.lor_spec, value_testbit by assumption. rewrite Z.mul_pow2_bits by lia.
  pose proof (Z.div_mod n 32 ltac:(lia)). pose proof (Z.mod_pos_bound n 32 ltac:(lia)).
  assert (0 <= n / 32) by (apply Z.div_pos; lia).
  destruct (Nat.eqb_spec (Z.to_nat (n / 32)) i) as [<-|Hne].
  - rewrite Z.lor_spec. do 2 f_equal. rewrite Z2Nat.id by lia. lia.
  - replace (Z.testbit v (n - 32 * Z.of_nat i)) with false; [now rewrite orb_false_r|]. symmetry.
    destruct (Z.lt_ge_cases n (32 * Z.of_nat i)); [apply Z.testbit_neg_r; lia|].
    apply (proj2 (proj1 (pow2_bound_bits 32 v ltac:(lia)) Hv)). lia.
Qed.

Lemma set_quotient_bit quo shift : wf quo -> (shift < 32 * length quo)%nat ->
  value quo mod 2 ^ (Z.of_nat shift + 1) = 0 ->
  let quo' := or_at quo (shift / 32) (u32 (Z.shiftl 1 (Z.of_nat shift mod 32))) in
  value quo' = value quo + 2 ^ Z.of_nat shift /\ wf quo' /\ length quo' = length quo.
Proof.
  intros Hwf Hs Hm. cbn zeta. pose proof (Z.mod_pos_bound (Z.of_nat shift) 32 ltac:(lia)).
  assert (Hi : (shift / 32 < length quo)%nat) by (apply Nat.Div0.div_lt_upper_bound; lia).
  split; [|split; [auto with limbs|apply length_or_at]].
  rewrite value_or_at by auto with limbs. rewrite Z.shiftl_1_l.
  assert (u32 (2 ^ (Z.of_nat shift mod 32)) * 2 ^ (32 * Z.of_nat (shift / 32)) = 2 ^ Z.of_nat shift) as ->.
  { unfold u32. rewrite Z.mod_small by (split; [lia|apply Z.pow_lt_mono_r; lia]).
    rewrite <- Z.pow_add_r by lia. f_equal. rewrite Nat2Z.inj_div. change (Z.of_nat 32) with 32.
    pose proof (Z.div_mod (Z.of_nat shift) 32). lia. }
  rewrite Z.lor_comm. apply Z.div_exact in Hm; [|pose proof (Z.pow_pos_nonneg 2 (Z.of_nat shift + 1)); lia].
  rewrite Hm at 1. rewrite (Z.mul_comm (2 ^ (Z.of_nat shift + 1))).
  rewrite <- Z.shiftl_mul_pow2 by lia. rewrite lor_shiftl_add; [|lia|split; [lia|apply Z.pow_lt_mono_r; lia]].
  rewrite <- (Z.mul_comm (2 ^ (Z.of_nat shift + 1))), <- Hm. lia.
Qed.

(** The loop before the round of [shift = n - 1]: the divisor stands at
    [d * 2 ^ shift], the numerator is what is left, and the quotient has bits
    only above. *)
Record div_inv (n : nat) (N d : Z) (num div quo : base_uint) : Prop := mkDivInv {
  di_num : wf num; di_div : wf div; di_quo : wf quo;
  di_len1 : length num = length quo; di_len2 : length div = length quo;
  di_bound : (n <= 32 * length quo)%nat;
  di_d : 0 < d;
  di_shifted : forall m, n = S m -> value div = d * 2 ^ Z.of_nat m;
  di_left : value num < d * 2 ^ Z.of_nat n;
  di_high : value quo mod 2 ^ Z.of_nat n = 0;
  di_sum : N = value quo * d + value num
}.

Lemma div_inv_step shift N d num div quo : div_inv (S shift) N d num div quo ->
  let '(num', quo') :=
    if 0 <=? CompareTo num div
    then (op_sub num div, or_at quo (shift / 32) (u32 (Z.shiftl 1 (Z.of_nat shift mod 32))))
    else (num, quo) in
  div_inv shift N d num' (op_shr div 1) quo' /\ length quo' = length quo.
Proof.
  intros [Hnum Hdiv Hquo Hl1 Hl2 Hb Hd Hsh Hleft Hhigh Hsum]. specialize (Hsh shift eq_refl).
  pose proof (value_bound num Hnum) as Bn. pose proof (value_bound div Hdiv) as Bd.
  destruct (op_shr_shape div 1) as [Hwd Hld]; [lia|assumption|].
  assert (Hshift : forall m, shift = S m -> value (op_shr div 1) = d * 2 ^ Z.of_nat m).
  { intros m ->. rewrite op_shr_spec, Hsh, Nat2Z.inj_succ, Z.pow_succ_r by (auto; lia).
    replace (d * (2 * 2 ^ Z.of_nat m)) with (d * 2 ^ Z.of_nat m * 2) by ring. apply Z.div_mul. lia. }
  rewrite Nat2Z.inj_succ, Z.pow_succ_r in Hleft, Hhigh by lia.
  assert (Hlow : value quo mod 2 ^ Z.of_nat shift = 0).
  { apply Z.mod_divide in Hhigh as [q Hq]; [|pose proof (Z.pow_pos_nonneg 2 (Z.of_nat shift)); lia].
    apply Z.mod_divide; [pose proof (Z.pow_pos_nonneg 2 (Z.of_nat shift)); lia|]. exists (q * 2). lia. }
  rewrite CompareTo_ge by (auto; lia). destruct (Z.leb_spec (value div) (value num)).
  - destruct (op_sub_spec num div) as (Hv & Hw & Hl); auto; [lia|]. rewrite Z.mod_small in Hv by lia.
    destruct (set_quotient_bit quo shift) as (Hqv & Hqw & Hql);
      [assumption|lia|rewrite Z.pow_add_r, Z.mul_comm by lia; assumption|].
    split; [|assumption]. constructor; auto; try lia.
    rewrite Hqv, <- (Z.mul_1_l (2 ^ Z.of_nat shift)) at 1. rewrite Z.mod_add; [assumption|].
    pose proof (Z.pow_pos_nonneg 2 (Z.of_nat shift)). lia.
  - split; [|reflexivity]. constructor; auto; lia.
Qed.

Lemma div_loop_spec n N d num div quo : div_inv n N d num div quo ->
  let '(q, r) := div_loop n num div quo in
  value q = N / d /\ value r = N mod d /\ wf q /\ length q = length quo.
Proof.
  revert num div quo. induction n as [|n IH]; intros num div quo H; cbn [div_loop].
  - destruct H as [Hnum Hdiv Hquo Hl1 Hl2 Hb Hd Hsh Hleft Hhigh Hsum]. change (2 ^ Z.of_nat 0) with 1 in Hleft.
    pose proof (value_bound num Hnum). repeat split; auto.
    + apply (Z.div_unique N d (value quo) (value num)); lia.
    + apply (Z.mod_unique N d (value quo) (value num)); lia.
  - apply div_inv_step in H. destruct (if 0 <=? _ then _ else _) as [num' quo']. destruct H as [H Hl].
    specialize (IH _ _ _ H). rewrite <- Hl. exact IH.
Qed.

Lemma log2_bounds x : 0 < x -> 2 ^ Z.log2 x <= x < 2 * 2 ^ Z.log2 x.
Proof. intros H. pose proof (Z.log2_nonneg x). rewrite <- Z.pow_succ_r by lia. apply Z.log2_spec, H. Qed.

Lemma op_div_spec a b : length a = length b -> wf a -> wf b ->
  match op_div a b with
  | Throw => value b = 0
  | Ret q => value b <> 0 /\ value q = value a / value b /\ wf q /\ length q = length a
  | _ => False
  end.
Proof.
  intros Hl Ha Hb. unfold op_div. rewrite !bits_spec by assumption.
  pose proof (value_bound a Ha) as Ba. pose proof (value_bound b Hb) as Bb.
  destruct (Z.eqb_spec (value b) 0) as [|Hb0]; [assumption|].
  pose proof (Z.log2_nonneg (value b)). pose proof (log2_bounds (value b) ltac:(lia)).
  destruct (Z.eqb_spec (Z.log2 (value b) + 1) 0); [lia|].
  assert (value a <> 0 -> 2 ^ Z.log2 (value a) <= value a < 2 * 2 ^ Z.log2 (value a)) by (intros; apply log2_bounds; lia).
  destruct (Z.ltb_spec (if value a =? 0 then 0 else Z.log2 (value a) + 1) (Z.log2 (value b) + 1)) as [Hlt|Hge].
  - rewrite value_zero, length_replicate. repeat split; auto with limbs. symmetry. apply Z.div_small.
    destruct (Z.eqb_spec (value a) 0); [lia|]. split; [lia|].
    assert (Z.log2 (value a) + 1 <= Z.log2 (value b)) as Hp by lia.
    apply (Z.pow_le_mono_r 2) in Hp; [|lia]. rewrite Z.pow_add_r in Hp by (pose proof (Z.log2_nonneg (value a)); lia). lia.
  - destruct (Z.eqb_spec (value a) 0) as [|Ha0]; [lia|].
    set (s := Z.log2 (value a) + 1 - (Z.log2 (value b) + 1)).
    assert (0 <= s) by lia. assert (Hpow : 2 ^ Z.log2 (value a) = 2 ^ Z.log2 (value b) * 2 ^ s)
      by (rewrite <- Z.pow_add_r by lia; f_equal; lia).
    destruct (op_shl_shape b s) as [Hws Hls]; [lia|assumption|].
    assert (0 < 2 ^ s) by (apply Z.pow_pos_nonneg; lia).
    assert (Hlog : Z.log2 (value a) < 32 * zlen a) by (apply Z.log2_lt_pow2; [lia|exact (proj2 Ba)]).
    pose proof (div_loop_spec (Z.to_nat (s + 1)) (value a) (value b) a (op_shl b s) (replicate (length a) 0)) as Hdiv.
    destruct (div_loop _ _ _ _) as [q r]. cbn [fst]. rewrite length_replicate in Hdiv.
    assert (Z.of_nat (Z.to_nat (s + 1)) = s + 1) as Hn by lia.
    destruct Hdiv as (Hq & _ & Hwq & Hlq); [|tauto].
    constructor; rewrite ?length_replicate, ?Hn; auto with limbs; try lia.
    + unfold zlen in Hlog. lia.
    + intros m Hm. assert (Z.of_nat m = s) as -> by lia. rewrite op_shl_spec by (auto; lia).
      apply Z.mod_small. rewrite (modulus_length b a) by lia. split; [nia|].
      apply (Z.lt_le_trans _ (2 * 2 ^ Z.log2 (value a))); [nia|].
      change 2 with (2 ^ 1) at 1. rewrite <- Z.pow_add_r by (pose proof (Z.log2_nonneg (value a)); lia).
      apply Z.pow_le_mono_r; lia.
    + rewrite Z.pow_add_r by lia. change (2 ^ 1) with 2. nia.
    + rewrite value_zero. apply Z.mod_0_l. pose proof (Z.pow_pos_nonneg 2 (s + 1)). lia.
    + rewrite value_zero. lia.
Qed.

(** ** Bit operations and 64-bit conversions *)

Lemma zip_bits_spec (f : Z -> Z -> Z) (g : bool -> bool -> bool) a b :
  (forall x y n, 0 <= n -> Z.testbit (f x y) n = g (Z.testbit x n) (Z.testbit y n)) ->
  (forall x y, limb_ok x -> limb_ok y -> limb_ok (f x y)) ->
  f 0 0 = 0 -> length a = length b -> wf a -> wf b ->
  value (zip_with f a b) = f (value a) (value b) /\ wf (zip_with f a b) /\ length (zip_with f a b) = length a.
Proof.
  intros Hf Hok H0. revert b. induction a as [|x a IH]; intros [|y b] Hl Ha Hb; try discriminate.
  - repeat split; [symmetry; exact H0|constructor].
  - apply Forall_cons in Ha as [Hx Ha], Hb as [Hy Hb]. injection Hl as Hl.
    destruct (IH b Hl Ha Hb) as (Hv & Hwf & Hlen). cbn [zip_with value length].
    split; [|split; [constructor; auto|lia]]. rewrite Hv. apply Z.bits_inj'. intros n Hn.
    assert (Hs : forall u v, limb_ok u -> u + 2 ^ 32 * v = Z.lor u (Z.shiftl v 32)).
    { intros u v Hu. rewrite lor_shiftl_add by (unfold limb_ok in Hu; lia). ring. }
    rewrite !Hs by auto. rewrite Hf by lia. rewrite !Z.lor_spec, Hf, !Z.shiftl_spec by lia.
    destruct (Z.lt_ge_cases n 32).
    + rewrite !(Z.testbit_neg_r _ (n - 32)), !orb_false_r by lia. reflexivity.
    + rewrite Hf by lia. rewrite !(fun u Hu => proj2 (proj1 (pow2_bound_bits 32 u ltac:(lia)) Hu) n) by auto.
      pose proof (Hf 0 0 0 ltac:(lia)) as Hg. rewrite H0, !Z.bits_0 in Hg. rewrite <- Hg. reflexivity.
Qed.

Lemma of_uint64_spec WIDTH b : (2 <= WIDTH)%nat -> 0 <= b < 2 ^ 64 ->
  value (of_uint64 WIDTH b) = b /\ wf (of_uint64 WIDTH b) /\ length (of_uint64 WIDTH b) = WIDTH.
Proof.
  intros HW Hb. unfold of_uint64. split; [|split].
  - cbn [value]. rewrite value_zero. unfold u32. rewrite Z.shiftr_div_pow2 by lia.
    rewrite (Z.mod_small (b / 2 ^ 32)) by (split; [apply Z.div_pos|apply Z.div_lt_upper_bound]; lia).
    rewrite (Z.div_mod b (2 ^ 32)) at 3 by lia. ring.
  - repeat constructor; try apply limb_ok_u32. apply wf_zero.
  - simpl. rewrite length_replicate. lia.
Qed.

Lemma low64_sum pn : wf pn -> GetLow64 pn = limb pn 0 + 2 ^ 32 * limb pn 1.
Proof.
  intros H. pose proof (wf_limb pn 0 H) as H0. pose proof (wf_limb pn 1 H) as H1. unfold limb_ok in *. unfold GetLow64, u64.
  rewrite Z.shiftl_mul_pow2 by lia. rewrite Z.mod_small by lia. rewrite <- Z.shiftl_mul_pow2 by lia.
  rewrite lor_shiftl_add by lia. ring.
Qed.

Lemma value_low2 pn : (2 <= length pn)%nat -> value pn = limb pn 0 + 2 ^ 32 * limb pn 1 + 2 ^ 64 * value (drop 2 pn).
Proof.
  intros H. destruct pn as [|x [|y pn]]; [simpl in H; lia..|]. change (drop 2 (x :: y :: pn)) with pn.
  unfold limb. cbn [value nth].
  change (2 ^ 64) with (2 ^ 32 * 2 ^ 32). ring.
Qed.

Lemma GetLow64_spec pn : wf pn -> (2 <= length pn)%nat -> GetLow64 pn = value pn mod 2 ^ 64.
Proof.
  intros H Hl. rewrite low64_sum by assumption. pose proof (wf_limb pn 0 H) as H0. pose proof (wf_limb pn 1 H) as H1.
  unfold limb_ok in *. apply (mod_unique_shift _ _ _ (value (drop 2 pn))); [lia|]. rewrite (value_low2 pn Hl). ring.
Qed.

Lemma EqualTo_spec pn b : wf pn -> (2 <= length pn)%nat -> 0 <= b < 2 ^ 64 -> EqualTo pn b = (value pn =? b).
Proof.
  intros H Hl Hb. unfold EqualTo. rewrite (value_low2 pn Hl).
  pose proof (wf_limb pn 0 H) as H0. pose proof (wf_limb pn 1 H) as H1. unfold limb_ok in *.
  pose proof (value_bound _ (wf_drop 2 _ H)) as Hd. change 0xffffffff with (Z.ones 32).
  rewrite Z.land_ones, Z.shiftr_div_pow2 by lia. pose proof (Z.div_mod b (2 ^ 32) ltac:(lia)).
  pose proof (Z.mod_pos_bound b (2 ^ 32) ltac:(lia)).
  assert (b / 2 ^ 32 < 2 ^ 32) by (apply Z.div_lt_upper_bound; lia).
  assert (forallb (fun x => x =? 0) (drop 2 pn) = (value (drop 2 pn) =? 0)) as ->.
  { apply eq_true_iff_eq. rewrite forallb_forall, Z.eqb_eq, value_0_iff, Forall_forall by auto with limbs.
    setoid_rewrite Z.eqb_eq. setoid_rewrite list_elem_of_In. reflexivity. }
  destruct (Z.eqb_spec (value (drop 2 pn)) 0) as [->|]; cbn [negb]; [|lia].
  destruct (Z.eqb_spec (limb pn 1) (b / 2 ^ 32)) as [->|]; cbn [negb]; lia.
Qed.

(** ** The class implements arithmetic modulo [2 ^ BITS] *)

(** [pn] denotes the integer [x] modulo [2 ^ BITS]. *)
Definition denotes (WIDTH : nat) (pn : base_uint) (x : Z) : Prop :=
  wf pn /\ length pn = WIDTH /\ value pn = x mod 2 ^ (32 * Z.of_nat WIDTH).

(** the ring operations of [base_uint] act on the denoted integers modulo
    [2 ^ BITS] as the mathematical ones: whatever integers the operands denote,
    [+], [-], unary [-], [++], [--], [*] (by a word and by another number), [~]
    and [<<] denote the result, and the limbs stay 32-bit values. *)
Theorem base_uint_ring WIDTH a b x y b32 shift :
  (0 < WIDTH)%nat -> denotes WIDTH a x -> denotes WIDTH b y -> 0 <= b32 < 2 ^ 32 -> 0 <= shift ->
  denotes WIDTH (op_add a b) (x + y) /\ denotes WIDTH (op_sub a b) (x - y) /\
  denotes WIDTH (op_neg a) (- x) /\ denotes WIDTH (op_incr a) (x + 1) /\ denotes WIDTH (op_decr a) (x - 1) /\
  denotes WIDTH (op_mul32 a b32) (x * b32) /\ denotes WIDTH (op_mul a b) (x * y) /\
  denotes WIDTH (op_not a) (Z.lnot x) /\ denotes WIDTH (op_shl a shift) (x * 2 ^ shift).
Proof.
  intros HW (Ha & La & Va) (Hb & Lb & Vb) H32 Hs. assert (Hl : length a = length b) by lia.
  pose proof (op_add_spec a b Hl Ha Hb) as (A1 & A2 & A3). pose proof (op_sub_spec a b Hl Ha Hb) as (S1 & S2 & S3).
  pose proof (op_neg_spec a Ha) as (N1 & N2 & N3). pose proof (op_incr_spec a Ha) as (I1 & I2 & I3).
  pose proof (op_decr_spec a Ha) as (D1 & D2 & D3). pose proof (op_mul32_spec a b32 Ha H32) as (M1 & M2 & M3).
  pose proof (MultiplyBy_spec a b Hl ltac:(lia) Ha Hb) as (P1 & _ & P2 & P3).
  pose proof (op_not_spec a Ha) as (O1 & O2 & O3). pose proof (op_shl_shape a shift Hs Ha) as (L1 & L2).
  pose proof (op_shl_spec a shift Hs Ha) as L3. pose proof (value_bound _ O2) as OB.
  rewrite (modulus_length _ _ O3) in OB. assert (modulus a <> 0) by (pose proof (length_pos_modulus a); lia).
  unfold op_mul. repeat split; try assumption; try lia;
    rewrite ?A1, ?S1, ?N1, ?I1, ?D1, ?M1, ?P1, ?O1, ?L3, ?Va, ?Vb; unfold modulus, zlen in *; rewrite ?La, ?Lb in *;
    rewrite ?Z.mod_mod by assumption.
  - symmetry. apply Z.add_mod. assumption.
  - symmetry. apply Zminus_mod.
  - rewrite <- !Z.sub_0_l. apply Zminus_mod_idemp_r.
  - apply Zplus_mod_idemp_l.
  - apply Zminus_mod_idemp_l.
  - apply Zmult_mod_idemp_l.
  - symmetry. apply Z.mul_mod. assumption.
  - rewrite O1, Va in OB. rewrite <- (Z.mod_small (_ - 1 - _) (2 ^ (32 * Z.of_nat WIDTH))) by lia.
    unfold Z.lnot, Z.pred. rewrite Zminus_mod_idemp_r.
    replace (2 ^ (32 * Z.of_nat WIDTH) - 1 - x) with (- x + -1 + 1 * 2 ^ (32 * Z.of_nat WIDTH)) by ring.
    apply Z.mod_add. assumption.
  - apply Zmult_mod_idemp_l.
Qed.

Lemma base_uint_ring_witness :
  denotes 5 (op_sub (of_uint64 5 3) (of_uint64 5 7)) (3 - 7) /\ value (op_sub (of_uint64 5 3) (of_uint64 5 7)) = 2 ^ 160 - 4.
Proof.
  split; [|vm_compute; reflexivity].
  refine (proj1 (proj2 (base_uint_ring 5 (of_uint64 5 3) (of_uint64 5 7) 3 7 0 0 _ _ _ _ _))); try lia;
    (split; [repeat (constructor; [vm_compute; intuition congruence|]); constructor|split; reflexivity]).
Defined.

(** the observations of [base_uint] are exact.  [CompareTo] and [EqualTo]
    compare the denoted integers, [bits] is the position of the highest set bit
    plus one, [>>=] divides by a power of two, [MultiplyBy] reports exactly
    whether the product fits, the bitwise operators act bit by bit, and [/=]
    terminates, throws exactly for a zero divisor and otherwise leaves the
    quotient. *)
Theorem base_uint_exact a b shift w :
  (2 <= length a)%nat -> length a = length b -> wf a -> wf b -> 0 <= shift -> 0 <= w < 2 ^ 64 ->
  CompareTo a b = match value a ?= value b with Lt => -1 | Eq => 0 | Gt => 1 end /\
  EqualTo a w = (value a =? w) /\
  bits a = (if value a =? 0 then 0 else Z.log2 (value a) + 1) /\
  value (op_shr a shift) = value a / 2 ^ shift /\
  (MultiplyBy a b).2 = (value a * value b <? modulus a) /\
  value (op_xor a b) = Z.lxor (value a) (value b) /\
  value (op_and a b) = Z.land (value a) (value b) /\
  value (op_or a b) = Z.lor (value a) (value b) /\
  match op_div a b with
  | Throw => value b = 0
  | Ret q => value b <> 0 /\ value q = value a / value b /\ wf q /\ length q = length a
  | _ => False
  end.
Proof.
  intros H2 Hl Ha Hb Hs Hw. split; [apply CompareTo_spec; assumption|]. split; [apply EqualTo_spec; assumption|].
  split; [apply bits_spec, Ha|]. split; [apply op_shr_spec; assumption|].
  split; [apply MultiplyBy_spec; auto; lia|].
  split; [apply (zip_bits_spec Z.lxor xorb); auto with limbs; intros; apply Z.lxor_spec|].
  split; [apply (zip_bits_spec Z.land andb); auto with limbs; intros; apply Z.land_spec|].
  split; [apply (zip_bits_spec Z.lor orb); auto with limbs; intros; apply Z.lor_spec|].
  apply op_div_spec; assumption.
Qed.

Lemma base_uint_exact_witness :
  match op_div (op_shl (of_uint64 8 1000) 200) (of_uint64 8 7) with
  | Ret q => value q = (1000 * 2 ^ 200) / 7
  | _ => False
  end.
Proof.
  pose proof (base_uint_exact (op_shl (of_uint64 8 1000) 200) (of_uint64 8 7) 0 0) as H.
  specialize (H ltac:(vm_compute; lia) eq_refl).
  specialize (H ltac:(repeat (constructor; [vm_compute; intuition congruence|]); constructor)).
  specialize (H ltac:(repeat (constructor; [vm_compute; intuition congruence|]); constructor) ltac:(lia) ltac:(lia)).
  destruct H as (_ & _ & _ & _ & _ & _ & _ & _ & H).
  replace (value (op_shl (of_uint64 8 1000) 200)) with (1000 * 2 ^ 200) in H by (vm_compute; reflexivity).
  replace (value (of_uint64 8 7)) with 7 in H by (vm_compute; reflexivity).
  revert H. destruct (op_div (op_shl (of_uint64 8 1000) 200) (of_uint64 8 7)); [|contradiction|discriminate|contradiction].
  intros (_ & H & _). exact H.
Defined.
