(* ===== verification/UInt256.v ===== *)
(** * [uint256]: compact form, bytes and hexadecimal ([uint256.h], [uint256.cpp])

    The compact form is the floating-point notation of difficulty targets;
    [SetHex] and [GetHex] are the textual form of hashes. *)

From Stdlib Require Import ZArith Lia Bool.
From stdpp Require Import base option numbers list.
From S2P Require Import Prelude BaseUInt.

Open Scope Z_scope.
Open Scope outcome_scope.

(** ** The compact form *)

(** The number, [*pfNegative] and [*pfOverflow]. *)
Definition SetCompact (nCompact : Z) : base_uint * bool * bool :=
  let nSize := Z.shiftr nCompact 24 in
  let nWord := Z.land nCompact 0x007fffff in
  let '(nWord, this) :=
    if nSize <=? 3
    then let nWord := Z.shiftr nWord (8 * (3 - nSize)) in (nWord, of_uint64 8 nWord)
    else (nWord, op_shl (of_uint64 8 nWord) (8 * (nSize - 3))) in
  (this,
   negb (nWord =? 0) && negb (Z.land nCompact 0x00800000 =? 0),
   negb (nWord =? 0) &&
     ((34 <? nSize) || ((0xff <? nWord) && (33 <? nSize)) || ((0xffff <? nWord) && (32 <? nSize)))).

Definition GetCompact (this : base_uint) (fNegative : bool) : outcome Empty_set Z :=
  let nSize := (bits this + 7) / 8 in
  let nCompact :=
    if nSize <=? 3
    then u32 (u64 (Z.shiftl (GetLow64 this) (8 * (3 - nSize))))
    else u32 (GetLow64 (op_shr this (8 * (nSize - 3)))) in
  let '(nCompact, nSize) :=
    if Z.land nCompact 0x00800000 =? 0 then (nCompact, nSize) else (Z.shiftr nCompact 8, nSize + 1) in
  oassert (Z.land nCompact (u32 (Z.lnot 0x007fffff)) =? 0) ;;;
  oassert (nSize <? 256) ;;;
  let nCompact := Z.lor nCompact (Z.shiftl nSize 24) in
  Ret (Z.lor nCompact (if fNegative && negb (Z.land nCompact 0x007fffff =? 0) then 0x00800000 else 0)).

Lemma testbit_top x n : 0 <= n -> 0 <= x < 2 ^ (n + 1) -> Z.testbit x n = (2 ^ n <=? x).
Proof.
  intros Hn Hx. rewrite Z.testbit_odd, Z.shiftr_div_pow2 by lia. rewrite Z.pow_add_r in Hx by lia.
  change (2 ^ 1) with 2 in Hx. pose proof (Z.pow_pos_nonneg 2 n). destruct (Z.leb_spec (2 ^ n) x).
  - replace (x / 2 ^ n) with 1; [reflexivity|]. apply (Z.div_unique x (2 ^ n) 1 (x - 2 ^ n)); lia.
  - rewrite Z.div_small by lia. reflexivity.
Qed.

(** The sign bit of a 24-bit mantissa. *)
Lemma mantissa_sign m : 0 <= m < 2 ^ 24 -> (Z.land m 0x00800000 =? 0) = (m <? 2 ^ 23).
Proof.
  intros Hm. change 0x00800000 with (Z.shiftl 1 23). rewrite land_bit, testbit_top by lia.
  destruct (Z.leb_spec (2 ^ 23) m); lia.
Qed.

Lemma mantissa_fits m : 0 <= m < 2 ^ 23 -> Z.land m (u32 (Z.lnot 0x007fffff)) = 0.
Proof.
  intros Hm. change (u32 (Z.lnot 0x007fffff)) with (Z.shiftl 511 23). apply land_shiftl_disjoint; lia.
Qed.

(** [v] in compact form: exponent [E] and normalised mantissa [m]. *)
Definition canonical (v E m : Z) : Prop :=
  0 <= E <= 33 /\ (v = 0 -> E = 0 /\ m = 0) /\
  (v <> 0 -> m = v * 2 ^ 24 / 256 ^ E /\ 2 ^ 15 <= m) /\ 0 <= m < 2 ^ 23.

Lemma div_pow256 v E F : 0 <= E <= F -> v / 256 ^ F = v / 256 ^ E / 256 ^ (F - E).
Proof.
  intros H. rewrite Z.div_div by (try apply Z.pow_pos_nonneg; try apply Z.pow_nonzero; lia).
  rewrite <- Z.pow_add_r by lia. do 2 f_equal. lia.
Qed.

Lemma canonical_unique v E m E' m' : 0 <= v -> canonical v E m -> canonical v E' m' -> E = E' /\ m = m'.
Proof.
  intros Hv H H'. destruct (Z.eq_dec v 0) as [->|Hne].
  { destruct H as (_ & H & _), H' as (_ & H' & _). destruct (H eq_refl), (H' eq_refl). lia. }
  assert (Hno : forall E m E' m', canonical v E m -> canonical v E' m' -> E < E' -> False).
  { clear E m E' m' H H'. intros E m E' m' (HE & _ & H & Hm) (HE' & _ & H' & Hm') Hlt.
    destruct (H Hne) as [Hd _], (H' Hne) as [Hd' Hb']. rewrite (div_pow256 _ E E') in Hd' by lia. rewrite <- Hd in Hd'.
    assert (256 ^ 1 <= 256 ^ (E' - E)) as Hp by (apply Z.pow_le_mono_r; lia). change (256 ^ 1) with 256 in Hp.
    assert (m / 256 ^ (E' - E) < 2 ^ 15) by (apply Z.div_lt_upper_bound; nia). lia. }
  destruct (Z.lt_trichotomy E E') as [Hlt|[->|Hlt]].
  - destruct (Hno _ _ _ _ H H' Hlt).
  - split; [reflexivity|]. destruct H as (_ & _ & H & _), H' as (_ & _ & H' & _).
    destruct (H Hne) as [-> _], (H' Hne) as [-> _]. reflexivity.
  - destruct (Hno _ _ _ _ H' H Hlt).
Qed.

Lemma pow256 n : 0 <= n -> 256 ^ n = 2 ^ (8 * n).
Proof. intros. rewrite Z.pow_mul_r by lia. reflexivity. Qed.

(** The byte length [GetCompact] computes from [bits]. *)
Lemma byte_length v : 0 < v < 2 ^ 256 ->
  let n := (Z.log2 v + 1 + 7) / 8 in 1 <= n <= 32 /\ 256 ^ (n - 1) <= v < 256 ^ n.
Proof.
  intros Hv n. pose proof (Z.log2_nonneg v). pose proof (log2_bounds v ltac:(lia)) as Hl.
  assert (Z.log2 v < 256) by (apply Z.log2_lt_pow2; lia).
  pose proof (Z.div_mod (Z.log2 v + 1 + 7) 8 ltac:(lia)). pose proof (Z.mod_pos_bound (Z.log2 v + 1 + 7) 8 ltac:(lia)).
  fold n in H1. split; [lia|]. rewrite !pow256 by lia. split.
  - transitivity (2 ^ Z.log2 v); [apply Z.pow_le_mono_r; lia|lia].
  - apply (Z.lt_le_trans _ (2 ^ (Z.log2 v + 1))); [rewrite Z.pow_add_r by lia; lia|]. apply Z.pow_le_mono_r; lia.
Qed.

(** The mantissa before the sign adjustment is the top three bytes. *)
Lemma raw_mantissa x n : wf x -> length x = 8%nat -> 1 <= n <= 32 -> 256 ^ (n - 1) <= value x < 256 ^ n ->
  (if n <=? 3 then u32 (u64 (Z.shiftl (GetLow64 x) (8 * (3 - n)))) else u32 (GetLow64 (op_shr x (8 * (n - 3))))) =
    value x * 2 ^ 24 / 256 ^ n /\ 2 ^ 16 <= value x * 2 ^ 24 / 256 ^ n < 2 ^ 24.
Proof.
  intros Hwf Hl Hn [Hlo Hhi]. assert (0 < 256 ^ n) by (apply Z.pow_pos_nonneg; lia).
  assert (H256 : 256 ^ n = 256 * 256 ^ (n - 1)) by (rewrite <- Z.pow_succ_r by lia; f_equal; lia).
  assert (Hb : 2 ^ 16 <= value x * 2 ^ 24 / 256 ^ n < 2 ^ 24).
  { split; [apply Z.div_le_lower_bound; lia|apply Z.div_lt_upper_bound; lia]. }
  split; [|exact Hb]. unfold u32, u64. destruct (Z.leb_spec n 3).
  - assert (value x * 2 ^ 24 / 256 ^ n = value x * 2 ^ (8 * (3 - n))) as ->.
    { rewrite pow256 by lia. replace (2 ^ 24) with (2 ^ (8 * (3 - n)) * 2 ^ (8 * n)) by (rewrite <- Z.pow_add_r by lia; f_equal; lia).
      rewrite Z.mul_assoc. apply Z.div_mul. apply Z.pow_nonzero; lia. }
    assert (value x < 2 ^ 24).
    { apply (Z.lt_le_trans _ (256 ^ n)); [lia|]. rewrite pow256 by lia. apply Z.pow_le_mono_r; lia. }
    rewrite GetLow64_spec by (auto; lia). rewrite (Z.mod_small (value x)) by lia. rewrite Z.shiftl_mul_pow2 by lia.
    assert (0 <= value x * 2 ^ (8 * (3 - n)) < 2 ^ 24).
    { split; [apply Z.mul_nonneg_nonneg; [lia|apply Z.pow_nonneg; lia]|].
      replace (2 ^ 24) with (256 ^ n * 2 ^ (8 * (3 - n))) by (rewrite pow256, <- Z.pow_add_r by lia; f_equal; lia).
      apply Z.mul_lt_mono_pos_r; [apply Z.pow_pos_nonneg; lia|lia]. }
    rewrite (Z.mod_small _ (2 ^ 64)) by lia. apply Z.mod_small. lia.
  - destruct (op_shr_shape x (8 * (n - 3))) as [Hws Hls]; [lia|assumption|].
    rewrite GetLow64_spec, op_shr_spec by (auto; lia).
    assert (value x / 2 ^ (8 * (n - 3)) = value x * 2 ^ 24 / 256 ^ n) as ->.
    { rewrite pow256 by lia. replace (2 ^ (8 * n)) with (2 ^ (8 * (n - 3)) * 2 ^ 24) by (rewrite <- Z.pow_add_r by lia; f_equal; lia).
      symmetry. apply Z.div_mul_cancel_r; [apply Z.pow_nonzero|]; lia. }
    rewrite (Z.mod_small _ (2 ^ 64)) by lia. apply Z.mod_small. lia.
Qed.

Lemma GetCompact_spec x : wf x -> length x = 8%nat ->
  exists E m, canonical (value x) E m /\ GetCompact x false = Ret (m + E * 2 ^ 24).
Proof.
  intros Hwf Hl. pose proof (value_bound x Hwf) as Hb. unfold modulus, zlen in Hb. rewrite Hl in Hb.
  change (2 ^ (32 * Z.of_nat 8)) with (2 ^ 256) in Hb. unfold GetCompact. rewrite bits_spec by assumption.
  destruct (Z.eqb_spec (value x) 0) as [E0|Hne].
  { exists 0, 0. split; [repeat split; try lia|]. rewrite GetLow64_spec, E0 by (auto; lia). reflexivity. }
  destruct (byte_length (value x)) as [Hn Hv]; [lia|]. set (n := (Z.log2 (value x) + 1 + 7) / 8) in *.
  destruct (raw_mantissa x n Hwf Hl Hn Hv) as [-> Hm]. set (m0 := value x * 2 ^ 24 / 256 ^ n) in *.
  rewrite mantissa_sign by lia. cbn [andb].
  assert (Hfin : forall E m, E <= 33 -> 0 <= m < 2 ^ 23 ->
    (oassert (E:=Empty_set) (Z.land m (u32 (Z.lnot 0x007fffff)) =? 0) ;;; oassert (E <? 256) ;;;
     Ret (Z.lor (Z.lor m (Z.shiftl E 24)) 0)) = Ret (m + E * 2 ^ 24)).
  { intros E m HE Hm'. rewrite mantissa_fits by lia. replace (E <? 256) with true by lia. cbn [oassert obind Z.eqb].
    rewrite Z.lor_0_r, lor_shiftl_add by lia. reflexivity. }
  destruct (Z.ltb_spec m0 (2 ^ 23)).
  - exists n, m0. split; [repeat split; lia|]. apply Hfin; lia.
  - exists (n + 1), (m0 / 256). rewrite Z.shiftr_div_pow2 by lia. change (2 ^ 8) with 256.
    assert (2 ^ 15 <= m0 / 256 < 2 ^ 23)
      by (split; [apply Z.div_le_lower_bound|apply Z.div_lt_upper_bound]; lia).
    split; [|apply Hfin; lia]. repeat split; try lia.
    rewrite (div_pow256 _ n (n + 1)) by lia. replace (n + 1 - n) with 1 by lia. reflexivity.
Qed.

Lemma compact_fields m E : 0 <= m < 2 ^ 24 -> 0 <= E ->
  Z.shiftr (m + E * 2 ^ 24) 24 = E /\ Z.land (m + E * 2 ^ 24) 0x007fffff = m mod 2 ^ 23 /\
  (Z.land (m + E * 2 ^ 24) 0x00800000 =? 0) = (m <? 2 ^ 23).
Proof.
  intros Hm HE. split; [|split].
  - rewrite Z.shiftr_div_pow2, Z.div_add, Z.div_small by lia. lia.
  - change 0x007fffff with (Z.ones 23). rewrite Z.land_ones by lia.
    replace (E * 2 ^ 24) with (E * 2 * 2 ^ 23) by ring. apply Z.mod_add. lia.
  - change 0x00800000 with (Z.shiftl 1 23). rewrite land_bit by lia.
    rewrite <- (Z.mod_pow2_bits_low (m + E * 2 ^ 24) 24), Z.mod_add, Z.mod_small, testbit_top by lia.
    destruct (Z.leb_spec (2 ^ 23) m); lia.
Qed.

(** The number a compact encoding denotes: [mantissa * 256 ^ (exponent - 3)]. *)
Definition compact_value (m E : Z) : Z := if E <=? 3 then m / 256 ^ (3 - E) else m * 256 ^ (E - 3).

Lemma compact_overflow m E : 0 <= m < 2 ^ 23 -> 3 < E ->
  (negb (m =? 0) && ((34 <? E) || ((0xff <? m) && (33 <? E)) || ((0xffff <? m) && (32 <? E)))) =
  (2 ^ 256 <=? m * 256 ^ (E - 3)).
Proof.
  intros Hm HE. destruct (Z.eqb_spec m 0) as [->|Hne]; cbn [negb andb]; [reflexivity|].
  destruct (Z.ltb_spec 34 E).
  { symmetry. apply Z.leb_le. assert (256 ^ 32 <= 256 ^ (E - 3)) by (apply Z.pow_le_mono_r; lia).
    change (256 ^ 32) with (2 ^ 256) in *. nia. }
  destruct (Z.eq_dec E 34) as [->|]; [|destruct (Z.eq_dec E 33) as [->|]].
  - change (256 ^ (34 - 3)) with (2 ^ 248). cbn [orb]. change (33 <? 34) with true. change (32 <? 34) with true.
    rewrite !andb_true_r. apply eq_true_iff_eq. rewrite orb_true_iff, Z.leb_le, !Z.ltb_lt.
    change (2 ^ 256) with (256 * 2 ^ 248). lia.
  - change (256 ^ (33 - 3)) with (2 ^ 240). cbn [orb]. change (33 <? 33) with false. change (32 <? 33) with true.
    rewrite andb_false_r, andb_true_r. apply eq_true_iff_eq. cbn [orb]. rewrite Z.leb_le, Z.ltb_lt.
    change (2 ^ 256) with (65536 * 2 ^ 240). lia.
  - replace (33 <? E) with false by lia. replace (32 <? E) with false by lia. rewrite !andb_false_r. symmetry.
    apply Z.leb_gt. assert (256 ^ (E - 3) <= 256 ^ 29) by (apply Z.pow_le_mono_r; lia).
    change (2 ^ 256) with (2 ^ 24 * 256 ^ 29). assert (0 < 256 ^ 29) by (apply Z.pow_pos_nonneg; lia). nia.
Qed.

Lemma SetCompact_spec m E : 0 <= m < 2 ^ 24 -> 0 <= E ->
  let '(x, neg, ovf) := SetCompact (m + E * 2 ^ 24) in
  let v := compact_value (m mod 2 ^ 23) E in
  wf x /\ length x = 8%nat /\ value x = v mod 2 ^ 256 /\
  neg = negb (v =? 0) && (2 ^ 23 <=? m) /\ ovf = (2 ^ 256 <=? v).
Proof.
  intros Hm HE. unfold SetCompact. destruct (compact_fields m E Hm HE) as (-> & -> & ->). cbn zeta.
  pose proof (Z.mod_pos_bound m (2 ^ 23) ltac:(lia)) as Hw. set (w := m mod 2 ^ 23) in *.
  assert (negb (m <? 2 ^ 23) = (2 ^ 23 <=? m)) as -> by lia. unfold compact_value.
  destruct (Z.leb_spec E 3).
  - rewrite Z.shiftr_div_pow2, pow256 by lia. set (v := w / 2 ^ (8 * (3 - E))).
    assert (0 <= v <= w).
    { split; [apply Z.div_pos; [lia|apply Z.pow_pos_nonneg; lia]|].
      apply Z.div_le_upper_bound; [apply Z.pow_pos_nonneg; lia|].
      assert (1 <= 2 ^ (8 * (3 - E))) by (apply (Z.pow_le_mono_r 2 0); lia). nia. }
    destruct (of_uint64_spec 8 v) as (Hv & Hwf & Hl); [lia|lia|].
    repeat split; auto.
    + rewrite Hv, Z.mod_small; [reflexivity|]. split; [lia|]. apply (Z.lt_le_trans _ (2 ^ 23)); [lia|].
      apply Z.pow_le_mono_r; lia.
    + replace (34 <? E) with false by lia. replace (33 <? E) with false by lia. replace (32 <? E) with false by lia.
      rewrite !andb_false_r. symmetry. apply Z.leb_gt.
      apply (Z.lt_le_trans _ (2 ^ 23)); [lia|]. apply Z.pow_le_mono_r; lia.
  - destruct (of_uint64_spec 8 w) as (Hv & Hwf & Hl); [lia|lia|].
    destruct (op_shl_shape (of_uint64 8 w) (8 * (E - 3))) as [Hws Hls]; [lia|assumption|].
    split; [auto|]. split; [lia|]. split; [|split].
    + rewrite op_shl_spec, Hv, pow256 by (auto; lia). unfold modulus, zlen. rewrite Hl. reflexivity.
    + f_equal. assert (0 < 256 ^ (E - 3)) by (apply Z.pow_pos_nonneg; lia).
      destruct (Z.eqb_spec w 0) as [->|]; [reflexivity|]. replace (w * 256 ^ (E - 3) =? 0) with false by nia. reflexivity.
    + apply compact_overflow; lia.
Qed.

Lemma canonical_value v E m : 0 <= v -> canonical v E m ->
  compact_value m E <= v /\ 0 <= compact_value m E /\
  (v - compact_value m E) * 2 ^ 15 <= v /\ canonical (compact_value m E) E m.
Proof.
  intros Hv (HE & H0 & H1 & Hm). unfold compact_value. destruct (Z.eq_dec v 0) as [->|Hne].
  { destruct (H0 eq_refl) as [-> ->]. change (if 0 <=? 3 then 0 / 256 ^ (3 - 0) else 0 * 256 ^ (0 - 3)) with 0.
    repeat split; intros; lia. }
  destruct (H1 Hne) as [Hd Hlo]. destruct (Z.leb_spec E 3).
  - assert (m = v * 256 ^ (3 - E)) as Hmv.
    { rewrite Hd. change (2 ^ 24) with (256 ^ 3). replace (256 ^ 3) with (256 ^ (3 - E) * 256 ^ E)
        by (rewrite <- Z.pow_add_r by lia; f_equal; lia).
      rewrite Z.mul_assoc. apply Z.div_mul. apply Z.pow_nonzero; lia. }
    rewrite Hmv at 1 2 3 4. rewrite Z.div_mul by (apply Z.pow_nonzero; lia). repeat split; try lia.
  - assert (Hp : 0 < 256 ^ (E - 3)) by (apply Z.pow_pos_nonneg; lia).
    assert (HdE : forall u, u * 2 ^ 24 / 256 ^ E = u / 256 ^ (E - 3)).
    { intros u. replace (256 ^ E) with (256 ^ (E - 3) * 2 ^ 24)
        by (change (2 ^ 24) with (256 ^ 3); rewrite <- Z.pow_add_r by lia; f_equal; lia).
      apply Z.div_mul_cancel_r; lia. }
    rewrite HdE in Hd. pose proof (Z.div_mod v (256 ^ (E - 3)) ltac:(lia)) as Hdm. rewrite <- Hd in Hdm.
    pose proof (Z.mod_pos_bound v (256 ^ (E - 3)) Hp). repeat split; try nia.
    rewrite HdE, Z.div_mul by lia. reflexivity.
Qed.

(** [SetCompact] reads [mantissa * 256 ^ (exponent - 3)] modulo [2 ^ 256];
    the overflow flag is set exactly when that number does not fit into 256 bits
    and the negative flag exactly when the number is not zero and the sign bit is
    set. *)
Theorem SetCompact_exact nCompact : 0 <= nCompact < 2 ^ 32 ->
  let '(x, neg, ovf) := SetCompact nCompact in
  let v := compact_value (nCompact mod 2 ^ 23) (nCompact / 2 ^ 24) in
  wf x /\ length x = 8%nat /\ value x = v mod 2 ^ 256 /\
  neg = negb (v =? 0) && Z.testbit nCompact 23 /\ ovf = (2 ^ 256 <=? v).
Proof.
  intros Hc. pose proof (Z.mod_pos_bound nCompact (2 ^ 24) ltac:(lia)) as Hm.
  pose proof (SetCompact_spec (nCompact mod 2 ^ 24) (nCompact / 2 ^ 24) Hm ltac:(apply Z.div_pos; lia)) as H.
  replace (nCompact mod 2 ^ 24 + nCompact / 2 ^ 24 * 2 ^ 24) with nCompact in H by (rewrite (Z.div_mod nCompact (2 ^ 24)) at 1; lia).
  assert (nCompact mod 2 ^ 24 mod 2 ^ 23 = nCompact mod 2 ^ 23) as Hmm.
  { change (2 ^ 24) with (2 ^ 23 * 2). rewrite Z.rem_mul_r by lia.
    rewrite (Z.mul_comm (2 ^ 23)), Z.mod_add, Z.mod_mod by lia. reflexivity. }
  rewrite Hmm in H. rewrite <- testbit_top, Z.mod_pow2_bits_low in H by lia. exact H.
Qed.

Lemma SetCompact_exact_witness :
  let '(x, neg, ovf) := SetCompact 0x1d00ffff in value x = 0xffff * 256 ^ 26 /\ neg = false /\ ovf = false.
Proof.
  pose proof (SetCompact_exact 0x1d00ffff ltac:(lia)) as H.
  destruct (SetCompact 0x1d00ffff) as [[x neg] ovf]. destruct H as (_ & _ & Hv & Hn & Ho).
  rewrite Hv, Hn, Ho. vm_compute. auto.
Defined.

(** [GetCompact] never fails its assertions; reading its result back gives
    a non-negative number without overflow that is at most the original, within a
    relative error of [2 ^ -15], and that has the same compact form. *)
Theorem compact_roundtrip x : wf x -> length x = 8%nat ->
  exists c, GetCompact x false = Ret c /\
  let '(y, neg, ovf) := SetCompact c in
  neg = false /\ ovf = false /\ wf y /\
  value y <= value x /\ (value x - value y) * 2 ^ 15 <= value x /\ GetCompact y false = Ret c.
Proof.
  intros Hwf Hl. destruct (GetCompact_spec x Hwf Hl) as (E & m & Hcan & Hget). exists (m + E * 2 ^ 24).
  split; [exact Hget|]. pose proof (value_bound x Hwf) as Hb. unfold modulus, zlen in Hb. rewrite Hl in Hb.
  change (2 ^ (32 * Z.of_nat 8)) with (2 ^ 256) in Hb. pose proof Hcan as (HE & H0 & H1 & Hm).
  pose proof (SetCompact_spec m E ltac:(lia) ltac:(lia)) as Hset.
  destruct (SetCompact (m + E * 2 ^ 24)) as [[y neg] ovf]. rewrite (Z.mod_small m) in Hset by lia.
  assert (Hval : compact_value m E <= value x /\ 0 <= compact_value m E /\
    (value x - compact_value m E) * 2 ^ 15 <= value x /\ canonical (compact_value m E) E m).
  { exact (canonical_value (value x) E m ltac:(lia) Hcan). }
  destruct Hset as (Hwy & Hly & Hvy & -> & ->), Hval as (Hle & Hpos & Herr & Hcany).
  rewrite Z.mod_small in Hvy by lia. rewrite <- Hvy in *.
  split; [replace (2 ^ 23 <=? m) with false by lia; apply andb_false_r|]. split; [apply Z.leb_gt; lia|].
  repeat split; auto. destruct (GetCompact_spec y Hwy Hly) as (E' & m' & Hcan' & Hget').
  destruct (canonical_unique (value y) E m E' m') as [-> ->]; auto; lia.
Qed.

Lemma compact_roundtrip_witness :
  exists c, GetCompact (of_uint64 8 0x123456789a) false = Ret c /\
  let '(y, neg, ovf) := SetCompact c in value y = 0x1234560000 /\ neg = false.
Proof.
  destruct (compact_roundtrip (of_uint64 8 0x123456789a)) as (c & Hc & H);
    [repeat (constructor; [vm_compute; intuition congruence|]); constructor|reflexivity|].
  exists c. split; [exact Hc|].
  assert (Hg : GetCompact (of_uint64 8 0x123456789a) false = Ret 0x05123456) by (vm_compute; reflexivity).
  rewrite Hg in Hc. injection Hc as <-.
  assert (Hs : value (SetCompact 0x05123456).1.1 = 0x1234560000) by (vm_compute; reflexivity).
  destruct (SetCompact 0x05123456) as [[y neg] ovf]. exact (conj Hs (proj1 H)).
Defined.

(** ** Bytes: [begin()], [Serialize], the constructor from a vector *)

(** The memory of [pn] on a little-endian machine. *)
Definition bytes_of (pn : base_uint) : list Z := flat_map (le_encode 4) pn.

Fixpoint of_bytes (bs : list Z) : base_uint :=
  match bs with
  | b0 :: b1 :: b2 :: b3 :: bs => le_decode [b0; b1; b2; b3] :: of_bytes bs
  | _ => []
  end.

(** [throw uint_error] on a vector of the wrong size. *)
Definition of_vch (WIDTH : nat) (vch : list Z) : outcome Empty_set base_uint :=
  if negb (zlen vch =? 4 * Z.of_nat WIDTH) then Throw else Ret (of_bytes vch).

Lemma limb_bytes x : limb_ok x -> le_decode (le_encode 4 x) = x.
Proof. intros Hx. rewrite le_decode_encode. apply Z.mod_small. exact Hx. Qed.

Lemma of_bytes_app x bs : of_bytes (le_encode 4 x ++ bs) = le_decode (le_encode 4 x) :: of_bytes bs.
Proof. reflexivity. Qed.

Lemma of_bytes_of pn : wf pn -> of_bytes (bytes_of pn) = pn.
Proof.
  induction 1 as [|x pn Hx H IH]; [reflexivity|].
  change (bytes_of (x :: pn)) with (le_encode 4 x ++ bytes_of pn). rewrite of_bytes_app, limb_bytes, IH by assumption.
  reflexivity.
Qed.

Lemma le_decode_bytes_of pn : wf pn -> le_decode (bytes_of pn) = value pn.
Proof.
  induction 1 as [|x pn Hx H IH]; [reflexivity|].
  change (bytes_of (x :: pn)) with (le_encode 4 x ++ bytes_of pn). rewrite le_decode_app, limb_bytes, IH by assumption.
  reflexivity.
Qed.

Lemma length_bytes_of pn : length (bytes_of pn) = (4 * length pn)%nat.
Proof.
  induction pn as [|x pn IH]; [reflexivity|].
  change (bytes_of (x :: pn)) with (le_encode 4 x ++ bytes_of pn). rewrite length_app, IH. simpl. lia.
Qed.

Lemma bytes_of_ok pn : bytes_ok (bytes_of pn).
Proof.
  induction pn as [|x pn IH]; [constructor|].
  change (bytes_of (x :: pn)) with (le_encode 4 x ++ bytes_of pn). apply bytes_ok_app. split; [apply le_encode_bytes|assumption].
Qed.

Lemma of_bytes_spec n bs : bytes_ok bs -> length bs = (4 * n)%nat ->
  wf (of_bytes bs) /\ length (of_bytes bs) = n /\ value (of_bytes bs) = le_decode bs.
Proof.
  revert bs. induction n as [|n IH]; intros bs Hok Hl.
  - destruct bs; [|simpl in Hl; lia]. repeat split; constructor.
  - destruct bs as [|b0 [|b1 [|b2 [|b3 bs]]]]; try (simpl in Hl; lia).
    change (b0 :: b1 :: b2 :: b3 :: bs) with ([b0; b1; b2; b3] ++ bs) in *. apply bytes_ok_app in Hok as [H4 Hok].
    destruct (IH bs Hok) as (Hwf & Hlen & Hv); [simpl in Hl; lia|].
    change (of_bytes ([b0; b1; b2; b3] ++ bs)) with (le_decode [b0; b1; b2; b3] :: of_bytes bs).
    pose proof (le_decode_bound _ H4) as Hb. rewrite le_decode_app, <- Hv. split; [|split].
    + constructor; [exact Hb|assumption].
    + simpl length. rewrite Hlen. reflexivity.
    + reflexivity.
Qed.

(** ** Hexadecimal *)

(** [p_util_hexdigit] *)
Definition p_util_hexdigit : list Z :=
  replicate 48 (-1) ++ [0; 1; 2; 3; 4; 5; 6; 7; 8; 9] ++ replicate 7 (-1) ++ [10; 11; 12; 13; 14; 15] ++
  replicate 26 (-1) ++ [10; 11; 12; 13; 14; 15] ++ replicate 153 (-1).

Definition HexDigit (c : Z) : Z := nth (Z.to_nat c) p_util_hexdigit (-1).

Definition isspace (c : Z) : bool := ((9 <=? c) && (c <=? 13)) || (c =? 32).

Fixpoint skip_spaces (psz : list Z) : list Z :=
  match psz with
  | c :: psz' => if isspace c then skip_spaces psz' else psz
  | [] => []
  end.

(** [psz[0] == '0' && tolower(psz[1]) == 'x'] *)
Definition skip_0x (psz : list Z) : list Z :=
  match psz with
  | c :: x :: psz' => if (c =? 48) && ((x =? 120) || (x =? 88)) then psz' else psz
  | _ => psz
  end.

(** The digits up to the first character that is none. *)
Fixpoint hex_prefix (psz : list Z) : list Z :=
  match psz with
  | c :: psz => if HexDigit c =? -1 then [] else c :: hex_prefix psz
  | [] => []
  end.

(** The loop that fills [n] bytes from the digits [ds], last digit first; the
    bytes behind stay zero. *)
Fixpoint sethex_loop (n : nat) (ds : list Z) : list Z :=
  match n, ds with
  | O, _ => []
  | S n, d :: h :: ds => Z.lor (HexDigit d) (u8 (Z.shiftl (HexDigit h) 4)) :: sethex_loop n ds
  | S n, [d] => HexDigit d :: replicate n 0
  | S n, [] => replicate (S n) 0
  end.

Definition SetHex (WIDTH : nat) (psz : list Z) : base_uint :=
  of_bytes (sethex_loop (WIDTH * 4) (rev (hex_prefix (skip_0x (skip_spaces psz))))).

(** [sprintf("%02x", b)] *)
Definition hex_char (d : Z) : Z := if d <? 10 then 48 + d else 87 + d.
Definition hex02 (b : Z) : list Z := [hex_char (b / 16); hex_char (b mod 16)].

Definition GetHex (pn : base_uint) : list Z := flat_map hex02 (rev (bytes_of pn)).
Definition ToStringReverseEndian (pn : base_uint) : list Z := flat_map hex02 (bytes_of pn).

(** The number written by hexadecimal digits, most significant first. *)
Definition hex_number (ds : list Z) : Z := fold_left (fun v d => 16 * v + HexDigit d) ds 0.

Definition is_hex (c : Z) : Prop := 0 <= HexDigit c < 16.

Lemma HexDigit_range c : HexDigit c = -1 \/ is_hex c.
Proof.
  unfold is_hex, HexDigit. destruct (Nat.lt_ge_cases (Z.to_nat c) 256) as [H|H].
  - assert (Forall (fun v => v = -1 \/ 0 <= v < 16) p_util_hexdigit) as Hall.
    { apply (bool_decide_unpack (Forall (fun v => v = -1 \/ 0 <= v < 16) p_util_hexdigit)). vm_compute. exact I. }
    rewrite Forall_forall in Hall. apply Hall, list_elem_of_In, nth_In. exact H.
  - left. apply nth_overflow. exact H.
Qed.

Lemma hex_prefix_hex psz : Forall is_hex (hex_prefix psz).
Proof.
  induction psz as [|c psz IH]; simpl; [constructor|]. destruct (Z.eqb_spec (HexDigit c) (-1)); constructor; auto.
  destruct (HexDigit_range c); [contradiction|assumption].
Qed.

(** Digits least significant first. *)
Fixpoint hexle (ds : list Z) : Z := match ds with [] => 0 | d :: ds => HexDigit d + 16 * hexle ds end.

Lemma hex_number_snoc ds d : hex_number (ds ++ [d]) = 16 * hex_number ds + HexDigit d.
Proof. unfold hex_number. rewrite fold_left_app. reflexivity. Qed.

Lemma hexle_rev ds : hexle (rev ds) = hex_number ds.
Proof.
  rewrite <- (rev_involutive ds) at 2. induction (rev ds) as [|d l IH]; [reflexivity|].
  cbn [rev hexle]. rewrite hex_number_snoc, IH. ring.
Qed.

Lemma sethex_byte d h : is_hex d -> is_hex h ->
  Z.lor (HexDigit d) (u8 (Z.shiftl (HexDigit h) 4)) = HexDigit d + 16 * HexDigit h /\
  is_byte (HexDigit d + 16 * HexDigit h).
Proof.
  unfold is_hex, is_byte, u8. intros Hd Hh. split; [|lia]. rewrite Z.mod_small by (rewrite Z.shiftl_mul_pow2 by lia; lia).
  rewrite lor_shiftl_add by lia. ring.
Qed.

Lemma le_decode_zeros n : le_decode (replicate n 0) = 0.
Proof. induction n; simpl; lia. Qed.

Lemma bytes_ok_zeros n : bytes_ok (replicate n 0).
Proof. apply Forall_replicate. unfold is_byte. lia. Qed.

Lemma pow8_S n : 2 ^ (8 * Z.of_nat (S n)) = 256 * 2 ^ (8 * Z.of_nat n).
Proof. rewrite Nat2Z.inj_succ, <- Z.add_1_l, Z.mul_add_distr_l, Z.pow_add_r by lia. reflexivity. Qed.

Lemma sethex_loop_spec n ds : Forall is_hex ds ->
  le_decode (sethex_loop n ds) = hexle ds mod 2 ^ (8 * Z.of_nat n) /\
  bytes_ok (sethex_loop n ds) /\ length (sethex_loop n ds) = n.
Proof.
  revert ds. induction n as [|n IH]; intros ds Hds.
  { destruct ds; cbn [sethex_loop le_decode length]; rewrite Z.mod_1_r; repeat split; constructor. }
  assert (0 < 2 ^ (8 * Z.of_nat n)) by (apply Z.pow_pos_nonneg; lia).
  destruct ds as [|d [|h ds]].
  - cbn [sethex_loop hexle]. rewrite le_decode_zeros, length_replicate. split; [|split; [apply bytes_ok_zeros|reflexivity]].
    symmetry. apply Z.mod_0_l. rewrite pow8_S. lia.
  - apply Forall_cons in Hds as [Hd _]. unfold is_hex in Hd. cbn [sethex_loop hexle le_decode length].
    rewrite le_decode_zeros, length_replicate, pow8_S. split; [symmetry; apply Z.mod_small; lia|].
    split; [constructor; [unfold is_byte; lia|apply bytes_ok_zeros]|reflexivity].
  - apply Forall_cons in Hds as [Hd Hds]. apply Forall_cons in Hds as [Hh Hds].
    destruct (IH ds Hds) as (Hv & Hok & Hl). destruct (sethex_byte d h Hd Hh) as [Hb Hbyte].
    cbn [sethex_loop hexle le_decode length]. rewrite Hb, Hv, Hl. split; [|split; [constructor; assumption|reflexivity]].
    rewrite pow8_S. unfold is_byte in Hbyte. apply (mod_unique_shift _ _ _ (hexle ds / 2 ^ (8 * Z.of_nat n))).
    + pose proof (Z.mod_pos_bound (hexle ds) (2 ^ (8 * Z.of_nat n)) ltac:(lia)). nia.
    + rewrite (Z.div_mod (hexle ds) (2 ^ (8 * Z.of_nat n))) at 1 by lia. ring.
Qed.

Lemma SetHex_spec WIDTH psz :
  let ds := hex_prefix (skip_0x (skip_spaces psz)) in
  wf (SetHex WIDTH psz) /\ length (SetHex WIDTH psz) = WIDTH /\
  value (SetHex WIDTH psz) = hex_number ds mod 2 ^ (32 * Z.of_nat WIDTH).
Proof.
  cbn zeta. set (ds := hex_prefix _).
  assert (Hh : Forall is_hex (rev ds)) by (apply Forall_rev, hex_prefix_hex).
  destruct (sethex_loop_spec (WIDTH * 4) (rev ds) Hh) as (Hv & Hok & Hl).
  unfold SetHex. fold ds. destruct (of_bytes_spec WIDTH (sethex_loop (WIDTH * 4) (rev ds))) as (Hwf & Hlen & Hval);
    [assumption|lia|]. split; [assumption|]. split; [assumption|]. rewrite Hval, Hv, hexle_rev. do 2 f_equal. lia.
Qed.

Lemma hex_char_digit d : 0 <= d < 16 -> HexDigit (hex_char d) = d /\ isspace (hex_char d) = false /\ hex_char d <> 120 /\ hex_char d <> 88.
Proof.
  intros Hd. assert (d = 0 \/ d = 1 \/ d = 2 \/ d = 3 \/ d = 4 \/ d = 5 \/ d = 6 \/ d = 7 \/ d = 8 \/ d = 9 \/
    d = 10 \/ d = 11 \/ d = 12 \/ d = 13 \/ d = 14 \/ d = 15) as Hc by lia.
  repeat (destruct Hc as [->|Hc]; [vm_compute; intuition congruence|]). subst d. vm_compute. intuition congruence.
Qed.

(** A character [GetHex] prints. *)
Definition printed (c : Z) : Prop := exists d, 0 <= d < 16 /\ c = hex_char d.

Lemma hex02_printed bs : bytes_ok bs -> Forall printed (flat_map hex02 bs).
Proof.
  induction 1 as [|b bs Hb H IH]; [constructor|]. unfold is_byte in Hb. cbn [flat_map hex02 app].
  repeat constructor; try assumption; eexists; (split; [|reflexivity]).
  - split; [apply Z.div_pos; lia|apply Z.div_lt_upper_bound; lia].
  - apply Z.mod_pos_bound. lia.
Qed.

Lemma hex_prefix_printed l : Forall printed l -> hex_prefix (skip_0x (skip_spaces l)) = l.
Proof.
  intros H. assert (skip_spaces l = l) as ->.
  { destruct H as [|c l (d & Hd & ->) H]; [reflexivity|]. cbn [skip_spaces].
    destruct (hex_char_digit d Hd) as (_ & -> & _). reflexivity. }
  assert (skip_0x l = l) as ->.
  { destruct H as [|c l _ [|x l' (d & Hd & ->) H]]; [reflexivity..|]. cbn [skip_0x].
    destruct (hex_char_digit d Hd) as (_ & _ & H1 & H2). rewrite (proj2 (Z.eqb_neq _ _) H1), (proj2 (Z.eqb_neq _ _) H2).
    rewrite andb_false_r. reflexivity. }
  induction H as [|c l (d & Hd & ->) H IH]; [reflexivity|]. cbn [hex_prefix].
  destruct (hex_char_digit d Hd) as (-> & _). replace (d =? -1) with false by lia. now rewrite IH.
Qed.

Lemma hex_number_rev_bytes bs : bytes_ok bs -> hex_number (flat_map hex02 (rev bs)) = le_decode bs.
Proof.
  induction 1 as [|b bs Hb H IH]; [reflexivity|]. unfold is_byte in Hb. cbn [rev le_decode].
  rewrite flat_map_app. cbn [flat_map]. rewrite app_nil_r. unfold hex02 at 2.
  change [hex_char (b / 16); hex_char (b mod 16)] with ([hex_char (b / 16)] ++ [hex_char (b mod 16)]).
  rewrite app_assoc, !hex_number_snoc, IH.
  rewrite !(fun d Hd => proj1 (hex_char_digit d Hd)) by
    (first [apply Z.mod_pos_bound; lia | split; [apply Z.div_pos; lia|apply Z.div_lt_upper_bound; lia]]).
  pose proof (Z.div_mod b 16). lia.
Qed.

(** [SetHex] of any text reads the number written by the hexadecimal digits
    behind optional white space and an optional [0x], modulo [2 ^ BITS]; reading
    what [GetHex] printed gives back the same number. *)
Theorem hex_roundtrip WIDTH pn psz : wf pn -> length pn = WIDTH ->
  value (SetHex WIDTH psz) = hex_number (hex_prefix (skip_0x (skip_spaces psz))) mod 2 ^ (32 * Z.of_nat WIDTH) /\
  wf (SetHex WIDTH psz) /\ SetHex WIDTH (GetHex pn) = pn /\ length (GetHex pn) = (8 * WIDTH)%nat.
Proof.
  intros Hwf Hl. destruct (SetHex_spec WIDTH psz) as (H1 & H2 & H3). split; [exact H3|]. split; [exact H1|].
  destruct (SetHex_spec WIDTH (GetHex pn)) as (G1 & G2 & G3).
  assert (Hok : bytes_ok (rev (bytes_of pn))) by apply Forall_rev, bytes_of_ok.
  unfold GetHex in G3 at 2. rewrite hex_prefix_printed in G3 by apply hex02_printed, Hok.
  rewrite hex_number_rev_bytes, le_decode_bytes_of in G3 by (try apply bytes_of_ok; assumption).
  pose proof (value_bound pn Hwf) as Hb. unfold modulus, zlen in Hb. rewrite Hl in Hb. rewrite Z.mod_small in G3 by lia.
  split; [apply value_inj; auto; lia|]. unfold GetHex. rewrite <- Hl.
  assert (forall l, length (flat_map hex02 l) = (2 * length l)%nat) as ->
    by (intros l; induction l; simpl in *; lia).
  rewrite length_rev, length_bytes_of. lia.
Qed.

Lemma hex_roundtrip_witness : SetHex 8 (GetHex (of_uint64 8 0xdeadbeef)) = of_uint64 8 0xdeadbeef.
Proof.
  refine (proj1 (proj2 (proj2 (hex_roundtrip 8 (of_uint64 8 0xdeadbeef) [] _ eq_refl)))).
  repeat (constructor; [vm_compute; intuition congruence|]). constructor.
Defined.
