(* ===== verification/Serialize.v ===== *)
(** * Serialization: [serialize.h]

    A stream is the list of bytes still to be read; reading behind the end
    throws.  The overloads of [Serialize], [Unserialize] and [GetSerializeSize] for
    a type are one [codec]; the templates for pairs, vectors and objects are
    functions on codecs.  [lawful c valid] is what a type promises to its users:
    what was written is read back, every accepted byte string is the one encoding
    of what was read, reading ends, and the reported size is the written one. *)

From Stdlib Require Import ZArith Lia Bool.
From stdpp Require Import base option numbers list.
From S2P Require Import Prelude BaseUInt UInt256.

Open Scope Z_scope.
Open Scope outcome_scope.

Definition reader (A : Type) : Type := list Z -> outcome Empty_set (A * list Z).

(** [CDataStream::read] *)
Definition read (nSize : Z) : reader (list Z) := fun inp =>
  if zlen inp <? nSize then Throw else Ret (take (Z.to_nat nSize) inp, drop (Z.to_nat nSize) inp).

Definition MAX_SIZE : Z := 0x02000000.

(** ** Compact sizes *)

Definition GetSizeOfCompactSize (nSize : Z) : Z :=
  if nSize <? 253 then 1
  else if nSize <=? 65535 then 1 + 2
  else if nSize <=? 4294967295 then 1 + 4
  else 1 + 8.

Definition WriteCompactSize (nSize : Z) : list Z :=
  if nSize <? 253 then le_encode 1 nSize
  else if nSize <=? 65535 then le_encode 1 253 ++ le_encode 2 nSize
  else if nSize <=? 4294967295 then le_encode 1 254 ++ le_encode 4 nSize
  else le_encode 1 255 ++ le_encode 8 nSize.

(** The branches throw on a non-canonical encoding. *)
Definition ReadCompactSize : reader Z := fun inp =>
  let* '(chSize, inp) := read 1 inp in
  let chSize := le_decode chSize in
  let* '(nSizeRet, inp) :=
    if chSize <? 253 then Ret (chSize, inp)
    else if chSize =? 253 then
      let* '(xSize, inp) := read 2 inp in
      if le_decode xSize <? 253 then Throw else Ret (le_decode xSize, inp)
    else if chSize =? 254 then
      let* '(xSize, inp) := read 4 inp in
      if le_decode xSize <? 0x10000 then Throw else Ret (le_decode xSize, inp)
    else
      let* '(xSize, inp) := read 8 inp in
      if le_decode xSize <? 0x100000000 then Throw else Ret (le_decode xSize, inp) in
  if MAX_SIZE <? nSizeRet then Throw else Ret (nSizeRet, inp).

(** ** Codecs *)

Record codec (A : Type) := Codec {
  Serialize : A -> list Z;
  Unserialize : reader A;
  GetSerializeSize : A -> Z
}.
Arguments Codec {A}.
Arguments Serialize {A}.
Arguments Unserialize {A}.
Arguments GetSerializeSize {A}.

(** [WRITEDATA], [READDATA] on an unsigned integer of [n] bytes, little-endian. *)
Definition uint_codec (n : nat) : codec Z :=
  Codec (le_encode n)
        (fun inp => let* '(bs, inp) := read (Z.of_nat n) inp in Ret (le_decode bs, inp))
        (fun _ => Z.of_nat n).

(** The same on a signed integer, in two's complement. *)
Definition signed (n : nat) (x : Z) : Z :=
  (x + 2 ^ (8 * Z.of_nat n - 1)) mod 2 ^ (8 * Z.of_nat n) - 2 ^ (8 * Z.of_nat n - 1).

Definition int_codec (n : nat) : codec Z :=
  Codec (le_encode n)
        (fun inp => let* '(bs, inp) := read (Z.of_nat n) inp in Ret (signed n (le_decode bs), inp))
        (fun _ => Z.of_nat n).

(** [base_uint::Serialize], [Unserialize] *)
Definition base_uint_codec (WIDTH : nat) : codec base_uint :=
  Codec bytes_of
        (fun inp => let* '(bs, inp) := read (4 * Z.of_nat WIDTH) inp in Ret (of_bytes bs, inp))
        (fun _ => 4 * Z.of_nat WIDTH).

(** Vectors of bytes (also strings and scripts): one blob, read in blocks of at
    most 5000000 bytes. *)
Fixpoint read_blocks (fuel : nat) (i nSize : Z) : reader (list Z) := fun inp =>
  if i <? nSize then
    match fuel with
    | O => Undef
    | S fuel =>
        let blk := Z.min (nSize - i) (1 + 4999999 / 1) in
        let* '(v, inp) := read blk inp in
        let* '(vs, inp) := read_blocks fuel (i + blk) nSize inp in
        Ret (v ++ vs, inp)
    end
  else Ret ([], inp).

Definition bytes_codec : codec (list Z) :=
  Codec (fun v => WriteCompactSize (zlen v) ++ v)
        (fun inp => let* '(nSize, inp) := ReadCompactSize inp in read_blocks (Z.to_nat nSize) 0 nSize inp)
        (fun v => GetSizeOfCompactSize (zlen v) + zlen v * 1).

Section Combinators.
Context {A B : Type}.

(** [for (; i < nMid; i++) Unserialize(is, v[i], nType, nVersion);] *)
Fixpoint read_elements (c : codec A) (n : nat) : reader (list A) := fun inp =>
  match n with
  | O => Ret ([], inp)
  | S n =>
      let* '(x, inp) := Unserialize c inp in
      let* '(xs, inp) := read_elements c n inp in
      Ret (x :: xs, inp)
  end.

(** The outer loop; [i = nMid] whenever it is entered. *)
Fixpoint read_batches (c : codec A) (sizeof : Z) (fuel : nat) (nMid nSize : Z) : reader (list A) := fun inp =>
  if nMid <? nSize then
    match fuel with
    | O => Undef
    | S fuel =>
        let i := nMid in
        let nMid := u32 (nMid + 5000000 / sizeof) in
        let nMid := if nSize <? nMid then nSize else nMid in
        let* '(v, inp) := read_elements c (Z.to_nat (nMid - i)) inp in
        let* '(vs, inp) := read_batches c sizeof fuel nMid nSize inp in
        Ret (v ++ vs, inp)
    end
  else Ret ([], inp).

(** Vectors of objects; [sizeof] is the size of an element in memory. *)
Definition vector_codec (sizeof : Z) (c : codec A) : codec (list A) :=
  Codec (fun v => WriteCompactSize (zlen v) ++ flat_map (Serialize c) v)
        (fun inp => let* '(nSize, inp) := ReadCompactSize inp in read_batches c sizeof (Z.to_nat nSize) 0 nSize inp)
        (fun v => GetSizeOfCompactSize (zlen v) + foldr (fun x n => GetSerializeSize c x + n) 0 v).

(** Two successive [READWRITE]s; the second may depend on what the first read. *)
Definition seq_codec (c : codec A) (d : A -> codec B) : codec (A * B) :=
  Codec (fun x => Serialize c x.1 ++ Serialize (d x.1) x.2)
        (fun inp =>
           let* '(a, inp) := Unserialize c inp in
           let* '(b, inp) := Unserialize (d a) inp in
           Ret ((a, b), inp))
        (fun x => GetSerializeSize c x.1 + GetSerializeSize (d x.1) x.2).

(** [std::pair] *)
Definition pair_codec (c : codec A) (d : codec B) : codec (A * B) := seq_codec c (fun _ => d).

(** [if (b) READWRITE(x);] on an object whose member is [x0] so far. *)
Definition when_codec (b : bool) (c : codec A) (x0 : A) : codec A :=
  if b then c else Codec (fun _ => []) (fun inp => Ret (x0, inp)) (fun _ => 0).

(** The members of an object as a tuple. *)
Definition object_codec (f : A -> B) (g : B -> A) (c : codec A) : codec B :=
  Codec (fun x => Serialize c (g x))
        (fun inp => let* '(a, inp) := Unserialize c inp in Ret (f a, inp))
        (fun x => GetSerializeSize c (g x)).
End Combinators.

(** ** Variable-length integers *)

Section VarInt.
(** [sizeof(I) * 8] of the unsigned integer type [I]. *)
Variable w : Z.

Fixpoint varint_size (fuel : nat) (n : Z) : outcome Empty_set Z :=
  match fuel with
  | O => Undef
  | S fuel => if n <=? 0x7F then Ret 1 else let* nRet := varint_size fuel (Z.shiftr n 7 - 1) in Ret (1 + nRet)
  end.

(** A round removes seven bits. *)
Definition GetSizeOfVarInt (n : Z) : outcome Empty_set Z := varint_size (Z.to_nat ((w + 6) / 7)) n.

(** [tmp], filled from index [len] on; [Undef] is a write outside of
    [tmp[(sizeof(n) * 8 + 6) / 7]]. *)
Fixpoint varint_digits (room : nat) (len : nat) (n : Z) : outcome Empty_set (list Z) :=
  match room with
  | O => Undef
  | S room =>
      let d := Z.lor (Z.land n 0x7F) (match len with O => 0x00 | _ => 0x80 end) in
      if n <=? 0x7F then Ret [d]
      else let* tmp := varint_digits room (S len) (Z.shiftr n 7 - 1) in Ret (d :: tmp)
  end.

(** [do { WRITEDATA(os, tmp[len]); } while (len--);] *)
Definition WriteVarInt (n : Z) : outcome Empty_set (list Z) :=
  let* tmp := varint_digits (Z.to_nat ((w + 6) / 7)) 0 n in Ret (rev tmp).

Fixpoint read_varint (fuel : nat) (n : Z) : reader Z := fun inp =>
  match fuel with
  | O => Undef
  | S fuel =>
      let* '(chData, inp) := read 1 inp in
      let chData := le_decode chData in
      let n := Z.lor (Z.shiftl n 7 mod 2 ^ w) (Z.land chData 0x7F) in
      if Z.land chData 0x80 =? 0 then Ret (n, inp)
      else read_varint fuel ((n + 1) mod 2 ^ w) inp
  end.

(** Each round consumes a byte. *)
Definition ReadVarInt : reader Z := fun inp => read_varint (S (length inp)) 0 inp.
End VarInt.

(** ** Reading and writing *)

Lemma read_app n bs rest : zlen bs = n -> read n (bs ++ rest) = Ret (bs, rest).
Proof.
  intros <-. unfold read. rewrite zlen_app. pose proof (zlen_nonneg rest).
  replace (zlen bs + zlen rest <? zlen bs) with false by lia. unfold zlen. rewrite Nat2Z.id.
  now rewrite take_app_length, drop_app_length.
Qed.

Lemma read_inv n inp bs rest : 0 <= n -> read n inp = Ret (bs, rest) -> inp = bs ++ rest /\ zlen bs = n.
Proof.
  unfold read. intros Hn H. destruct (Z.ltb_spec (zlen inp) n); [discriminate|]. injection H as <- <-.
  rewrite take_drop. split; [reflexivity|]. unfold zlen in *. rewrite length_take. lia.
Qed.

Lemma read_total n inp : read n inp <> Undef.
Proof. unfold read. destruct (_ <? _); discriminate. Qed.

Lemma obind_total {E A B} (m : outcome E A) (f : A -> outcome E B) :
  m <> Undef -> (forall a, m = Ret a -> f a <> Undef) -> obind m f <> Undef.
Proof. destruct m; simpl; intros; auto; discriminate. Qed.

Lemma zlen_le_encode n v : zlen (le_encode n v) = Z.of_nat n.
Proof. unfold zlen. now rewrite le_encode_length. Qed.

Lemma le_decode_small n v : 0 <= v < 2 ^ (8 * Z.of_nat n) -> le_decode (le_encode n v) = v.
Proof. intros H. rewrite le_decode_encode. apply Z.mod_small, H. Qed.

Lemma le_encode_of_read n bs : bytes_ok bs -> zlen bs = Z.of_nat n ->
  le_encode n (le_decode bs) = bs /\ 0 <= le_decode bs < 2 ^ (8 * Z.of_nat n).
Proof.
  intros Hok Hl. assert (length bs = n) as <- by (unfold zlen in Hl; lia). split; [apply le_encode_decode, Hok|].
  apply le_decode_bound, Hok.
Qed.

(** ** Compact sizes *)

Lemma size_of_compact_size n : 0 <= n -> GetSizeOfCompactSize n = zlen (WriteCompactSize n).
Proof.
  intros Hn. unfold GetSizeOfCompactSize, WriteCompactSize.
  repeat destruct (_ <? _); repeat destruct (_ <=? _); rewrite ?zlen_app, !zlen_le_encode; reflexivity.
Qed.

Lemma write_compact_size_bytes n : bytes_ok (WriteCompactSize n).
Proof.
  unfold WriteCompactSize. repeat destruct (_ <? _); repeat destruct (_ <=? _); rewrite ?bytes_ok_app; auto using le_encode_bytes.
Qed.

Lemma read_compact_size n rest : 0 <= n <= MAX_SIZE -> ReadCompactSize (WriteCompactSize n ++ rest) = Ret (n, rest).
Proof.
  unfold MAX_SIZE. intros Hn. unfold ReadCompactSize, WriteCompactSize, MAX_SIZE.
  destruct (Z.ltb_spec n 253); [|destruct (Z.leb_spec n 65535); [|destruct (Z.leb_spec n 4294967295); [|lia]]];
    rewrite <- ?app_assoc; (rewrite read_app by apply zlen_le_encode); cbn [obind];
    (rewrite (le_decode_small 1) by (change (2 ^ (8 * Z.of_nat 1)) with 256; lia)).
  - replace (n <? 253) with true by lia. cbn [obind]. replace (0x2000000 <? n) with false by lia. reflexivity.
  - change (253 <? 253) with false. change (253 =? 253) with true. cbv iota.
    rewrite read_app by apply zlen_le_encode. cbn [obind].
    rewrite le_decode_small by (change (2 ^ (8 * Z.of_nat 2)) with 65536; lia).
    replace (n <? 253) with false by lia. cbn [obind]. replace (0x2000000 <? n) with false by lia. reflexivity.
  - change (254 <? 253) with false. change (254 =? 253) with false. change (254 =? 254) with true. cbv iota.
    rewrite read_app by apply zlen_le_encode. cbn [obind].
    rewrite le_decode_small by (change (2 ^ (8 * Z.of_nat 4)) with 4294967296; lia).
    replace (n <? 0x10000) with false by lia. cbn [obind]. replace (0x2000000 <? n) with false by lia. reflexivity.
Qed.

Lemma compact_size_canonical inp n rest : bytes_ok inp -> ReadCompactSize inp = Ret (n, rest) ->
  0 <= n <= MAX_SIZE /\ inp = WriteCompactSize n ++ rest.
Proof.
  unfold ReadCompactSize. intros Hok H. apply obind_ret_inv in H as ([l0 inp1] & Hr & H).
  apply read_inv in Hr as [-> Hl0]; [|lia]. apply bytes_ok_app in Hok as [H1 Hok].
  destruct (le_encode_of_read 1 l0 H1) as [E1 B1]; [lia|]. set (ch := le_decode l0) in *.
  change (2 ^ (8 * Z.of_nat 1)) with 256 in B1. apply obind_ret_inv in H as ([k inp2] & Hk & H).
  destruct (Z.ltb_spec MAX_SIZE k); [discriminate|]. injection H as -> ->. unfold WriteCompactSize.
  destruct (Z.ltb_spec ch 253).
  { injection Hk as <- <-. replace (ch <? 253) with true by lia. rewrite E1. repeat split; auto; lia. }
  assert (Hwide : forall m bs rest', bytes_ok bs -> zlen bs = Z.of_nat m -> (0 <= le_decode bs < 2 ^ (8 * Z.of_nat m)) ->
    l0 ++ bs ++ rest' = (le_encode 1 ch ++ le_encode m (le_decode bs)) ++ rest').
  { intros m bs rest' Hb Hl _. destruct (le_encode_of_read m bs Hb Hl) as [-> _]. rewrite E1, app_assoc. reflexivity. }
  destruct (Z.eqb_spec ch 253) as [E|]; [|destruct (Z.eqb_spec ch 254) as [E|]];
    apply obind_ret_inv in Hk as ([l1 inp3] & Hr & Hk); (apply read_inv in Hr as [-> Hl1]; [|lia]);
    apply bytes_ok_app in Hok as [H2 Hok]; (destruct (_ <? _) eqn:Hc in Hk; [discriminate|]); injection Hk as <- <-; bool_prop.
  - destruct (le_encode_of_read 2 l1 H2 Hl1) as [_ B]. pose proof B as B'. change (2 ^ (8 * Z.of_nat 2)) with 65536 in B'.
    split; [lia|]. replace (le_decode l1 <? 253) with false by lia. replace (le_decode l1 <=? 65535) with true by lia.
    rewrite <- E. apply Hwide; assumption.
  - destruct (le_encode_of_read 4 l1 H2 Hl1) as [_ B]. pose proof B as B'. change (2 ^ (8 * Z.of_nat 4)) with 4294967296 in B'.
    split; [lia|]. replace (le_decode l1 <? 253) with false by lia. replace (le_decode l1 <=? 65535) with false by lia.
    replace (le_decode l1 <=? 4294967295) with true by lia. rewrite <- E. apply Hwide; assumption.
  - unfold MAX_SIZE in *. lia.
Qed.

Lemma ReadCompactSize_total inp : ReadCompactSize inp <> Undef.
Proof.
  unfold ReadCompactSize. apply obind_total; [apply read_total|]. intros [c s1] _. apply obind_total.
  - repeat destruct (_ <? _); repeat destruct (_ =? _); try discriminate;
      (apply obind_total; [apply read_total|intros [x s2] _; destruct (_ <? _); discriminate]).
  - intros [n s2] _. destruct (_ <? _); discriminate.
Qed.

(** [ReadCompactSize] reads back every size up to [MAX_SIZE] that
    [WriteCompactSize] wrote, accepts no other byte string than the one written
    for the size it returns, always ends, and [GetSizeOfCompactSize] is the number
    of bytes written. *)
Theorem compact_size_codec n rest inp : 0 <= n <= MAX_SIZE -> bytes_ok inp ->
  ReadCompactSize (WriteCompactSize n ++ rest) = Ret (n, rest) /\
  GetSizeOfCompactSize n = zlen (WriteCompactSize n) /\
  match ReadCompactSize inp with
  | Ret (m, rest') => 0 <= m <= MAX_SIZE /\ inp = WriteCompactSize m ++ rest'
  | Throw => True
  | _ => False
  end.
Proof.
  intros Hn Hok. split; [apply read_compact_size, Hn|]. split; [apply size_of_compact_size; lia|].
  destruct (ReadCompactSize inp) as [[m r]|[]| |] eqn:E; auto.
  - apply (compact_size_canonical inp m r Hok E).
  - exact (ReadCompactSize_total inp E).
Qed.

Lemma compact_size_codec_witness :
  ReadCompactSize (WriteCompactSize 70000 ++ [1; 2]) = Ret (70000, [1; 2]) /\
  ReadCompactSize [253; 252; 0] = Throw.
Proof.
  split; [|vm_compute; reflexivity].
  refine (proj1 (compact_size_codec 70000 [1; 2] [] _ _)); [unfold MAX_SIZE; lia|constructor].
Defined.

(** ** What a codec promises *)

(** What was written is read back. *)
Definition reads_back {A} (c : codec A) (valid : A -> Prop) : Prop :=
  forall a rest, valid a -> Unserialize c (Serialize c a ++ rest) = Ret (a, rest).

(** [valid] are the values that fit into the wire format. *)
Record lawful {A} (c : codec A) (valid : A -> Prop) : Prop := mkLawful {
  law_bytes : forall a, valid a -> bytes_ok (Serialize c a);
  law_roundtrip : reads_back c valid;
  law_canonical : forall inp a rest, bytes_ok inp -> Unserialize c inp = Ret (a, rest) ->
    valid a /\ inp = Serialize c a ++ rest;
  law_total : forall inp, Unserialize c inp <> Undef;
  law_size : forall a, valid a -> GetSerializeSize c a = zlen (Serialize c a)
}.
Arguments law_bytes {A c valid}.
Arguments law_roundtrip {A c valid}.
Arguments law_canonical {A c valid}.
Arguments law_total {A c valid}.
Arguments law_size {A c valid}.

Definition uint_range (n : nat) (x : Z) : Prop := 0 <= x < 2 ^ (8 * Z.of_nat n).
Definition int_range (n : nat) (x : Z) : Prop := - 2 ^ (8 * Z.of_nat n - 1) <= x < 2 ^ (8 * Z.of_nat n - 1).
Definition blob_ok (WIDTH : nat) (x : base_uint) : Prop := wf x /\ length x = WIDTH.
Definition bytes_fit (v : list Z) : Prop := bytes_ok v /\ zlen v <= MAX_SIZE.

Lemma uint_lawful n : lawful (uint_codec n) (uint_range n).
Proof.
  constructor; unfold reads_back; cbn [Serialize Unserialize GetSerializeSize uint_codec].
  - intros; apply le_encode_bytes.
  - intros a rest Ha. rewrite read_app by apply zlen_le_encode. cbn [obind]. rewrite le_decode_small by exact Ha. reflexivity.
  - intros inp a rest Hok H. apply obind_ret_inv in H as ([bs r] & Hr & H). injection H as <- <-.
    apply read_inv in Hr as [-> Hl]; [|lia]. apply bytes_ok_app in Hok as [Hb _].
    destruct (le_encode_of_read n bs Hb Hl) as [-> B]. split; [exact B|reflexivity].
  - intros. apply obind_total; [apply read_total|]. intros [? ?] _. discriminate.
  - intros. symmetry. apply zlen_le_encode.
Qed.

Lemma le_encode_mod n v : le_encode n (v mod 2 ^ (8 * Z.of_nat n)) = le_encode n v.
Proof.
  revert v. induction n as [|n IH]; intros v; [reflexivity|]. cbn [le_encode]. rewrite pow8_S.
  assert (0 < 2 ^ (8 * Z.of_nat n)) by (apply Z.pow_pos_nonneg; lia).
  rewrite Z.rem_mul_r by lia. f_equal.
  - rewrite (Z.mul_comm 256), Z.mod_add, Z.mod_mod by lia. reflexivity.
  - rewrite (Z.mul_comm 256), Z.div_add, Z.div_small, Z.add_0_l by (pose proof (Z.mod_pos_bound v 256); lia). apply IH.
Qed.

Lemma signed_range n x : (0 < n)%nat -> int_range n (signed n x).
Proof.
  intros Hn. unfold int_range, signed. set (M := 2 ^ (8 * Z.of_nat n - 1)).
  assert (2 ^ (8 * Z.of_nat n) = 2 * M) as -> by (unfold M; rewrite <- Z.pow_succ_r by lia; f_equal; lia).
  assert (0 < M) by (apply Z.pow_pos_nonneg; lia). pose proof (Z.mod_pos_bound (x + M) (2 * M)). lia.
Qed.

Lemma signed_mod n x : (0 < n)%nat -> signed n x mod 2 ^ (8 * Z.of_nat n) = x mod 2 ^ (8 * Z.of_nat n).
Proof. intros Hn. unfold signed. rewrite Zminus_mod_idemp_l. f_equal. lia. Qed.

Lemma signed_id n x : (0 < n)%nat -> int_range n x -> signed n (x mod 2 ^ (8 * Z.of_nat n)) = x.
Proof.
  intros Hn Hx. unfold signed, int_range in *. rewrite Zplus_mod_idemp_l. rewrite Z.mod_small; [lia|].
  set (M := 2 ^ (8 * Z.of_nat n - 1)) in *.
  assert (2 ^ (8 * Z.of_nat n) = 2 * M) as -> by (unfold M; rewrite <- Z.pow_succ_r by lia; f_equal; lia). lia.
Qed.

Lemma int_lawful n : (0 < n)%nat -> lawful (int_codec n) (int_range n).
Proof.
  intros Hn. constructor; unfold reads_back; cbn [Serialize Unserialize GetSerializeSize int_codec].
  - intros; apply le_encode_bytes.
  - intros a rest Ha. rewrite read_app by apply zlen_le_encode. cbn [obind].
    rewrite le_decode_encode, signed_id by assumption. reflexivity.
  - intros inp a rest Hok H. apply obind_ret_inv in H as ([bs r] & Hr & H). injection H as <- <-.
    apply read_inv in Hr as [-> Hl]; [|lia]. apply bytes_ok_app in Hok as [Hb _].
    destruct (le_encode_of_read n bs Hb Hl) as [E B]. split; [apply signed_range, Hn|].
    rewrite <- (le_encode_mod n (signed n _)), signed_mod, le_encode_mod, E by assumption. reflexivity.
  - intros. apply obind_total; [apply read_total|]. intros [? ?] _. discriminate.
  - intros. symmetry. apply zlen_le_encode.
Qed.

Lemma bytes_of_of_bytes n bs : bytes_ok bs -> length bs = (4 * n)%nat -> bytes_of (of_bytes bs) = bs.
Proof.
  revert bs. induction n as [|n IH]; intros bs Hok Hl.
  - destruct bs; [reflexivity|simpl in Hl; lia].
  - destruct bs as [|b0 [|b1 [|b2 [|b3 bs]]]]; try (simpl in Hl; lia).
    change (b0 :: b1 :: b2 :: b3 :: bs) with ([b0; b1; b2; b3] ++ bs) in *. apply bytes_ok_app in Hok as [H4 Hok].
    change (bytes_of (of_bytes ([b0; b1; b2; b3] ++ bs)))
      with (le_encode (length [b0; b1; b2; b3]) (le_decode [b0; b1; b2; b3]) ++ bytes_of (of_bytes bs)).
    rewrite (le_encode_decode [b0; b1; b2; b3] H4). rewrite IH; auto. simpl in Hl. lia.
Qed.

Lemma base_uint_lawful WIDTH : lawful (base_uint_codec WIDTH) (blob_ok WIDTH).
Proof.
  constructor; unfold reads_back; cbn [Serialize Unserialize GetSerializeSize base_uint_codec].
  - intros; apply bytes_of_ok.
  - intros a rest [Hwf Hl]. rewrite read_app by (unfold zlen; rewrite length_bytes_of; lia). cbn [obind].
    rewrite of_bytes_of by assumption. reflexivity.
  - intros inp a rest Hok H. apply obind_ret_inv in H as ([bs r] & Hr & H). injection H as <- <-.
    apply read_inv in Hr as [-> Hl]; [|lia]. apply bytes_ok_app in Hok as [Hb _].
    assert (length bs = (4 * WIDTH)%nat) as Hn by (unfold zlen in Hl; lia).
    destruct (of_bytes_spec WIDTH bs Hb Hn) as (H1 & H2 & _). split; [split; assumption|].
    rewrite (bytes_of_of_bytes WIDTH) by assumption. reflexivity.
  - intros. apply obind_total; [apply read_total|]. intros [? ?] _. discriminate.
  - intros a [_ Hl]. unfold zlen. rewrite length_bytes_of. lia.
Qed.

(** Reading in blocks is reading at once. *)
Lemma read_blocks_app fuel i n bs rest : zlen bs = n - i -> (Z.to_nat (n - i) <= fuel)%nat ->
  read_blocks fuel i n (bs ++ rest) = Ret (bs, rest).
Proof.
  revert i bs. induction fuel as [|fuel IH]; intros i bs Hl Hf; cbn [read_blocks].
  - pose proof (zlen_nonneg bs). destruct (Z.ltb_spec i n); [lia|].
    destruct bs; [reflexivity|rewrite zlen_cons in Hl; pose proof (zlen_nonneg bs); lia].
  - destruct (Z.ltb_spec i n).
    + change (1 + 4999999 / 1) with 5000000. set (blk := Z.min (n - i) 5000000).
      destruct (split_at_z blk bs) as (x & y & -> & Hx); [lia|]. rewrite <- app_assoc, read_app by exact Hx. cbn [obind].
      rewrite zlen_app in Hl. rewrite IH by lia. reflexivity.
    + pose proof (zlen_nonneg bs). destruct bs; [reflexivity|rewrite zlen_cons in Hl; pose proof (zlen_nonneg bs); lia].
Qed.

Lemma read_blocks_inv fuel i n inp v rest : read_blocks fuel i n inp = Ret (v, rest) -> i <= n ->
  inp = v ++ rest /\ zlen v = n - i.
Proof.
  revert i inp v. induction fuel as [|fuel IH]; intros i inp v H Hi; cbn [read_blocks] in H; destruct (Z.ltb_spec i n).
  - discriminate.
  - injection H as <- <-. split; [reflexivity|]. change (zlen []) with 0. lia.
  - change (1 + 4999999 / 1) with 5000000 in H. set (blk := Z.min (n - i) 5000000) in *.
    apply obind_ret_inv in H as ([x s1] & Hr & H). apply read_inv in Hr as [-> Hx]; [|lia].
    apply obind_ret_inv in H as ([y s2] & Hr & H). injection H as <- <-.
    apply IH in Hr as [-> Hy]; [|lia]. rewrite app_assoc, zlen_app. split; [reflexivity|lia].
  - injection H as <- <-. split; [reflexivity|]. change (zlen []) with 0. lia.
Qed.

Lemma read_blocks_total fuel i n inp : (Z.to_nat (n - i) <= fuel)%nat -> read_blocks fuel i n inp <> Undef.
Proof.
  revert i inp. induction fuel as [|fuel IH]; intros i inp Hf; cbn [read_blocks]; destruct (Z.ltb_spec i n); try discriminate; [lia|].
  change (1 + 4999999 / 1) with 5000000. apply obind_total; [apply read_total|]. intros [v s1] _.
  apply obind_total; [apply IH; lia|]. intros [? ?] _. discriminate.
Qed.

Lemma bytes_lawful : lawful bytes_codec bytes_fit.
Proof.
  constructor; unfold reads_back; cbn [Serialize Unserialize GetSerializeSize bytes_codec].
  - intros a [Ha _]. apply bytes_ok_app. split; [apply write_compact_size_bytes|exact Ha].
  - intros a rest [Ha Hl]. rewrite <- app_assoc, read_compact_size by (pose proof (zlen_nonneg a); lia). cbn [obind].
    apply read_blocks_app; lia.
  - intros inp a rest Hok H. apply obind_ret_inv in H as ([n s1] & Hr & H).
    apply compact_size_canonical in Hr as [Hn ->]; [|assumption]. apply bytes_ok_app in Hok as [_ Hok].
    apply read_blocks_inv in H as [-> Hl]; [|lia]. apply bytes_ok_app in Hok as [Ha _].
    rewrite Z.sub_0_r in Hl. split; [split; [assumption|lia]|]. rewrite Hl, app_assoc. reflexivity.
  - intros inp. apply obind_total; [apply ReadCompactSize_total|]. intros [n s1] _. apply read_blocks_total. lia.
  - intros a [_ Hl]. rewrite zlen_app, size_of_compact_size by apply zlen_nonneg. lia.
Qed.

Section CombinatorLaws.
Context {A B : Type}.

Lemma seq_restores (c : codec A) (d : A -> codec B) (va : A -> Prop) (vb : A -> B -> Prop) :
  reads_back c va -> (forall a, va a -> reads_back (d a) (vb a)) -> reads_back (seq_codec c d) (fun x => va x.1 /\ vb x.1 x.2).
Proof.
  intros Hc Hd [a b] rest [Ha Hb]. cbn [Serialize Unserialize seq_codec fst snd] in *. rewrite <- app_assoc, Hc by assumption. cbn [obind].
  rewrite (Hd a Ha) by assumption. reflexivity.
Qed.

Lemma object_restores (f : A -> B) (g : B -> A) (c : codec A) (va : A -> Prop) (vb : B -> Prop) :
  (forall b, vb b -> va (g b) /\ f (g b) = b) -> reads_back c va -> reads_back (object_codec f g c) vb.
Proof.
  intros Hfg Hc x rest Hx. destruct (Hfg x Hx) as [Hv Hid]. cbn [Serialize Unserialize object_codec]. rewrite Hc by assumption. cbn [obind].
  rewrite Hid. reflexivity.
Qed.

Lemma when_restores (b : bool) (c : codec A) x0 va : reads_back c va -> reads_back (when_codec b c x0) (fun x => if b then va x else x = x0).
Proof. intros Hc. destruct b; [exact Hc|]. intros x rest ->. reflexivity. Qed.

Lemma seq_lawful (c : codec A) (d : A -> codec B) (va : A -> Prop) (vb : A -> B -> Prop) :
  lawful c va -> (forall a, va a -> lawful (d a) (vb a)) ->
  (forall a inp, Unserialize (d a) inp <> Undef) ->
  lawful (seq_codec c d) (fun x => va x.1 /\ vb x.1 x.2).
Proof.
  intros Hc Hd Ht. constructor; unfold reads_back; cbn [Serialize Unserialize GetSerializeSize seq_codec].
  - intros [a b] [Ha Hb]. apply bytes_ok_app. split; [apply (law_bytes Hc), Ha|apply (law_bytes (Hd a Ha)), Hb].
  - apply seq_restores; [apply (law_roundtrip Hc)|]. intros a Ha. apply (law_roundtrip (Hd a Ha)).
  - intros inp [a b] rest Hok H. apply obind_ret_inv in H as ([a' s1] & Ha & H).
    apply obind_ret_inv in H as ([b' s2] & Hb & H). injection H as <- <- <-.
    destruct (law_canonical Hc _ _ _ Hok Ha) as [Va ->]. apply bytes_ok_app in Hok as [_ Hok].
    destruct (law_canonical (Hd a' Va) _ _ _ Hok Hb) as [Vb ->]. cbn [fst snd]. rewrite app_assoc. auto.
  - intros inp. apply obind_total; [apply (law_total Hc)|]. intros [a s1] _.
    apply obind_total; [apply Ht|]. intros [? ?] _. discriminate.
  - intros [a b] [Ha Hb]. cbn [fst snd] in *. rewrite zlen_app, (law_size Hc), (law_size (Hd a Ha)) by assumption. reflexivity.
Qed.

Lemma pair_lawful (c : codec A) (d : codec B) va vb : lawful c va -> lawful d vb ->
  lawful (pair_codec c d) (fun x => va x.1 /\ vb x.2).
Proof. intros Hc Hd. apply (seq_lawful c (fun _ => d) va (fun _ => vb)); auto. intros _. apply (law_total Hd). Qed.

Lemma when_lawful (b : bool) (c : codec A) x0 va : lawful c va ->
  lawful (when_codec b c x0) (fun x => if b then va x else x = x0).
Proof.
  intros Hc. destruct b; [exact Hc|]. constructor; unfold reads_back; cbn [Serialize Unserialize GetSerializeSize when_codec].
  - constructor.
  - intros a rest ->. reflexivity.
  - intros inp a rest _ H. injection H as <- <-. auto.
  - discriminate.
  - reflexivity.
Qed.

Lemma object_lawful (f : A -> B) (g : B -> A) (c : codec A) (va : A -> Prop) (vb : B -> Prop) :
  (forall b, vb b -> va (g b) /\ f (g b) = b) -> (forall a, va a -> vb (f a) /\ g (f a) = a) ->
  lawful c va -> lawful (object_codec f g c) vb.
Proof.
  intros Hfg Hgf Hc. constructor; unfold reads_back; cbn [Serialize Unserialize GetSerializeSize object_codec].
  - intros x Hx. apply (law_bytes Hc), Hfg, Hx.
  - apply (object_restores _ _ _ va); [assumption|apply (law_roundtrip Hc)].
  - intros inp x rest Hok H. apply obind_ret_inv in H as ([a s1] & Ha & H). injection H as <- <-.
    destruct (law_canonical Hc _ _ _ Hok Ha) as [Va ->]. destruct (Hgf a Va) as [Vb ->]. auto.
  - intros inp. apply obind_total; [apply (law_total Hc)|]. intros [? ?] _. discriminate.
  - intros x Hx. apply (law_size Hc), Hfg, Hx.
Qed.
End CombinatorLaws.

Section VectorReads.
Context {A : Type} (c : codec A) (va : A -> Prop).

Definition vector_fits (v : list A) : Prop := Forall va v /\ zlen v <= MAX_SIZE.

Context (sizeof : Z) (Hsize : 1 <= sizeof <= 5000000).

(** The next value of [nMid]. *)
Lemma next_mid nMid nSize : 0 <= nMid < nSize -> nSize <= MAX_SIZE ->
  let nMid' := if nSize <? u32 (nMid + 5000000 / sizeof) then nSize else u32 (nMid + 5000000 / sizeof) in
  nMid < nMid' <= nSize.
Proof.
  unfold MAX_SIZE, u32. intros Hm Hn. assert (1 <= 5000000 / sizeof) by (apply Z.div_le_lower_bound; lia).
  assert (5000000 / sizeof <= 5000000) by (apply Z.div_le_upper_bound; nia).
  rewrite Z.mod_small by lia. cbn zeta. destruct (Z.ltb_spec nSize (nMid + 5000000 / sizeof)); lia.
Qed.

Hypothesis Hc : reads_back c va.

Lemma read_elements_app v rest : Forall va v ->
  read_elements c (length v) (flat_map (Serialize c) v ++ rest) = Ret (v, rest).
Proof.
  induction 1 as [|x v Hx Hv IH]; [reflexivity|]. cbn [length read_elements flat_map].
  rewrite <- app_assoc, Hc by assumption. cbn [obind]. rewrite IH. reflexivity.
Qed.

Lemma read_batches_app fuel nMid nSize v rest : Forall va v -> 0 <= nMid -> nSize <= MAX_SIZE ->
  zlen v = nSize - nMid -> (Z.to_nat (nSize - nMid) <= fuel)%nat ->
  read_batches c sizeof fuel nMid nSize (flat_map (Serialize c) v ++ rest) = Ret (v, rest).
Proof.
  revert nMid v. induction fuel as [|fuel IH]; intros nMid v Hv Hm Hn Hl Hf; cbn [read_batches]; pose proof (zlen_nonneg v).
  - destruct (Z.ltb_spec nMid nSize); [lia|]. destruct v as [|x v]; [reflexivity|].
    rewrite zlen_cons in Hl. pose proof (zlen_nonneg v). lia.
  - destruct (Z.ltb_spec nMid nSize).
    + pose proof (next_mid nMid nSize ltac:(lia) Hn) as Hmid. cbn zeta in *.
      set (nMid' := if nSize <? u32 _ then _ else _) in *.
      destruct (split_at_z (nMid' - nMid) v) as (x & y & -> & Hx); [lia|]. apply Forall_app in Hv as [Hvx Hvy].
      rewrite flat_map_app, <- app_assoc. rewrite zlen_app in Hl.
      replace (Z.to_nat (nMid' - nMid)) with (length x) by (unfold zlen in Hx; lia).
      rewrite read_elements_app by assumption. cbn [obind]. rewrite IH by (auto; lia). reflexivity.
    + destruct v as [|x v]; [reflexivity|]. rewrite zlen_cons in Hl. pose proof (zlen_nonneg v). lia.
Qed.

Lemma vector_restores : reads_back (vector_codec sizeof c) vector_fits.
Proof.
  intros v rest [Hv Hl]. cbn [Serialize Unserialize vector_codec]. rewrite <- app_assoc, read_compact_size by (pose proof (zlen_nonneg v); lia). cbn [obind].
  apply read_batches_app; auto; lia.
Qed.
End VectorReads.

Section VectorLaws.
Context {A : Type} (c : codec A) (va : A -> Prop) (Hc : lawful c va).


Lemma read_elements_inv n inp v rest : bytes_ok inp -> read_elements c n inp = Ret (v, rest) ->
  Forall va v /\ length v = n /\ inp = flat_map (Serialize c) v ++ rest.
Proof.
  revert inp v. induction n as [|n IH]; intros inp v Hok H; cbn [read_elements] in H.
  - injection H as <- <-. repeat split. constructor.
  - apply obind_ret_inv in H as ([x s1] & Hx & H). apply obind_ret_inv in H as ([xs s2] & Hxs & H).
    injection H as <- <-. destruct (law_canonical Hc _ _ _ Hok Hx) as [Vx ->]. apply bytes_ok_app in Hok as [_ Hok].
    destruct (IH s1 xs Hok Hxs) as (Hv & Hl & ->). cbn [flat_map length]. rewrite app_assoc.
    repeat split; [constructor; assumption|lia].
Qed.

Lemma read_elements_total n inp : read_elements c n inp <> Undef.
Proof.
  revert inp. induction n as [|n IH]; intros inp; cbn [read_elements]; [discriminate|].
  apply obind_total; [apply (law_total Hc)|]. intros [x s1] _. apply obind_total; [apply IH|]. intros [? ?] _. discriminate.
Qed.

Context (sizeof : Z) (Hsize : 1 <= sizeof <= 5000000).



Lemma read_batches_inv fuel nMid nSize inp v rest : bytes_ok inp -> 0 <= nMid <= nSize -> nSize <= MAX_SIZE ->
  read_batches c sizeof fuel nMid nSize inp = Ret (v, rest) ->
  Forall va v /\ zlen v = nSize - nMid /\ inp = flat_map (Serialize c) v ++ rest.
Proof.
  revert nMid inp v. induction fuel as [|fuel IH]; intros nMid inp v Hok Hm Hn H; cbn [read_batches] in H;
    destruct (Z.ltb_spec nMid nSize).
  - discriminate.
  - injection H as <- <-. repeat split; [constructor|]. change (zlen []) with 0. lia.
  - pose proof (next_mid sizeof Hsize nMid nSize ltac:(lia) Hn) as Hmid. cbn zeta in *.
    set (nMid' := if nSize <? u32 _ then _ else _) in *.
    apply obind_ret_inv in H as ([x s1] & Hx & H). apply obind_ret_inv in H as ([y s2] & Hy & H). injection H as <- <-.
    apply read_elements_inv in Hx as (Vx & Lx & ->); [|assumption]. apply bytes_ok_app in Hok as [_ Hok].
    apply IH in Hy as (Vy & Ly & ->); [|assumption|lia|assumption].
    rewrite flat_map_app, <- app_assoc, zlen_app. split; [apply Forall_app; auto|]. split; [|reflexivity].
    unfold zlen in *. lia.
  - injection H as <- <-. repeat split; [constructor|]. change (zlen []) with 0. lia.
Qed.

Lemma read_batches_total fuel nMid nSize inp : 0 <= nMid -> nSize <= MAX_SIZE -> (Z.to_nat (nSize - nMid) <= fuel)%nat ->
  read_batches c sizeof fuel nMid nSize inp <> Undef.
Proof.
  revert nMid inp. induction fuel as [|fuel IH]; intros nMid inp Hm Hn Hf; cbn [read_batches];
    destruct (Z.ltb_spec nMid nSize); try discriminate; [lia|].
  pose proof (next_mid sizeof Hsize nMid nSize ltac:(lia) Hn) as Hmid. cbn zeta in *.
  set (nMid' := if nSize <? u32 _ then _ else _) in *.
  apply obind_total; [apply read_elements_total|]. intros [x s1] _.
  apply obind_total; [apply IH; lia|]. intros [? ?] _. discriminate.
Qed.


Lemma vector_lawful : lawful (vector_codec sizeof c) (vector_fits va).
Proof.
  constructor; unfold reads_back; cbn [Serialize Unserialize GetSerializeSize vector_codec].
  - intros v [Hv _]. apply bytes_ok_app. split; [apply write_compact_size_bytes|].
    induction Hv; cbn [flat_map]; [constructor|]. apply bytes_ok_app. split; [apply (law_bytes Hc)|]; assumption.
  - apply vector_restores; [assumption|apply (law_roundtrip Hc)].
  - intros inp v rest Hok H. apply obind_ret_inv in H as ([n s1] & Hr & H).
    apply compact_size_canonical in Hr as [Hn ->]; [|assumption]. apply bytes_ok_app in Hok as [_ Hok].
    apply read_batches_inv in H as (Hv & Hl & ->); [|assumption|lia|lia]. rewrite Z.sub_0_r in Hl.
    split; [split; [assumption|lia]|]. rewrite Hl, app_assoc. reflexivity.
  - intros inp. destruct (ReadCompactSize inp) as [[n s1]| | |] eqn:E; cbn [obind]; try discriminate.
    + unfold MAX_SIZE. enough (n <= MAX_SIZE) by (apply read_batches_total; unfold MAX_SIZE in *; lia).
      unfold ReadCompactSize in E. apply obind_ret_inv in E as ([ch s2] & _ & E). apply obind_ret_inv in E as ([k s3] & _ & E).
      destruct (Z.ltb_spec MAX_SIZE k); [discriminate|]. injection E as <- <-. assumption.
    + destruct (ReadCompactSize_total inp E).
  - intros v [Hv _]. rewrite zlen_app, size_of_compact_size by apply zlen_nonneg. f_equal.
    induction Hv as [|x v Hx Hv IH]; [reflexivity|]. cbn [foldr flat_map].
    rewrite zlen_app, (law_size Hc), IH by assumption. reflexivity.
Qed.
End VectorLaws.

(** ** Variable-length integers *)

Section VarIntLaws.
Variable w : Z.
Hypothesis Hw : 1 <= w.

Lemma land_7f n : Z.land n 0x7F = n mod 128.
Proof. apply (Z.land_ones n 7). lia. Qed.

Lemma split7 n : 0 <= n -> Z.lor (Z.shiftl (Z.shiftr n 7) 7) (n mod 128) = n.
Proof.
  intros Hn. rewrite Z.lor_comm, lor_shiftl_add by (change (2 ^ 7) with 128; pose proof (Z.mod_pos_bound n 128); lia).
  rewrite Z.shiftr_div_pow2 by lia. change (2 ^ 7) with 128. pose proof (Z.div_mod n 128). lia.
Qed.

(** Reading the digit [n mod 128] behind the higher digits of [n]. *)
Lemma read_varint_digit fuel n d flag more :
  0 <= n < 2 ^ w -> d = n mod 128 + (if flag : bool then 128 else 0) ->
  read_varint w (S fuel) (Z.shiftr n 7 mod 2 ^ w) (d :: more) =
  if flag then read_varint w fuel ((n + 1) mod 2 ^ w) more else Ret (n, more).
Proof.
  intros Hn ->. pose proof (Z.mod_pos_bound n 128 ltac:(lia)) as Hm. set (m := n mod 128) in *.
  change ((?d) :: more) with ([d] ++ more). cbn [read_varint].
  rewrite (read_app 1 [_] more) by reflexivity. cbn [obind le_decode].
  assert (Hd : le_decode [m + (if flag then 128 else 0)] = m + (if flag then 128 else 0)) by (cbn [le_decode]; lia).
  rewrite Z.mul_0_r, Z.add_0_r. rewrite land_7f.
  assert ((m + (if flag then 128 else 0)) mod 128 = m) as ->.
  { destruct flag; [|rewrite Z.add_0_r; apply Z.mod_small; lia].
    replace (m + 128) with (m + 1 * 128) by lia. rewrite Z.mod_add, Z.mod_small; lia. }
  assert (Hsh : 0 <= Z.shiftr n 7 /\ Z.shiftr n 7 * 128 <= n).
  { rewrite Z.shiftr_div_pow2 by lia. change (2 ^ 7) with 128.
    split; [apply Z.div_pos; lia|]. pose proof (Z.mul_div_le n 128). lia. }
  rewrite (Z.mod_small (Z.shiftr n 7)) by lia.
  rewrite (Z.mod_small (Z.shiftl (Z.shiftr n 7) 7)) by (rewrite Z.shiftl_mul_pow2 by lia; change (2 ^ 7) with 128; lia).
  unfold m at 1. rewrite split7 by lia. rewrite land_0x80 by (unfold is_byte; destruct flag; lia).
  fold m. destruct flag; [replace (m + 128 <? 128) with false by lia|replace (m + 0 <? 128) with true by lia]; reflexivity.
Qed.

Lemma digit_flag n len : 0 <= n ->
  Z.lor (Z.land n 0x7F) (match len with O => 0x00 | _ => 0x80 end) =
  n mod 128 + (if match len with O => false | _ => true end then 128 else 0).
Proof.
  intros Hn. rewrite land_7f. pose proof (Z.mod_pos_bound n 128 ltac:(lia)).
  destruct len; [rewrite Z.lor_0_r; lia|apply lor_0x80; lia].
Qed.

Lemma varint_digits_spec room len n : 0 <= n < 2 ^ w -> n < 128 ^ Z.of_nat room -> (0 < room)%nat ->
  exists d tmp, varint_digits room len n = Ret (d :: tmp) /\ (length (d :: tmp) <= room)%nat /\
    varint_size room n = Ret (zlen (d :: tmp)) /\
    d = n mod 128 + (if match len with O => false | _ => true end then 128 else 0) /\
    forall fuel more, read_varint w (length tmp + fuel) 0 (rev tmp ++ more) = read_varint w fuel (Z.shiftr n 7 mod 2 ^ w) more.
Proof.
  revert len n. induction room as [|room IH]; intros len n Hn Hr Hpos; [lia|]. cbn [varint_digits varint_size].
  rewrite digit_flag by lia. destruct (Z.leb_spec n 0x7F).
  - do 2 eexists. split; [reflexivity|]. split; [simpl; lia|]. split; [reflexivity|]. split; [reflexivity|].
    intros fuel more. cbn [length rev app Nat.add]. rewrite Z.shiftr_div_pow2, Z.div_small, Z.mod_0_l by lia. reflexivity.
  - assert (Hq : 1 <= Z.shiftr n 7 /\ Z.shiftr n 7 * 128 <= n).
    { rewrite Z.shiftr_div_pow2 by lia. change (2 ^ 7) with 128.
      split; [apply Z.div_le_lower_bound; lia|]. pose proof (Z.mul_div_le n 128). lia. }
    assert (Hb : Z.shiftr n 7 - 1 < 128 ^ Z.of_nat room).
    { rewrite Nat2Z.inj_succ, Z.pow_succ_r in Hr by lia. nia. }
    assert (Hroom : (0 < room)%nat) by (destruct room; [change (128 ^ Z.of_nat 1) with 128 in Hr; lia|lia]).
    destruct (IH (S len) (Z.shiftr n 7 - 1)) as (d & tmp & -> & Hl & -> & Hd & Hread); [lia|exact Hb|exact Hroom|].
    cbn [obind]. do 2 eexists. split; [reflexivity|]. split; [simpl in *; lia|].
    split; [rewrite !zlen_cons; reflexivity|]. split; [reflexivity|]. intros fuel more.
    cbn [rev length]. rewrite <- app_assoc, Nat.add_succ_comm. cbn [app]. rewrite Hread.
    rewrite (read_varint_digit fuel (Z.shiftr n 7 - 1) d true) by (auto; lia). f_equal. f_equal. lia.
Qed.

Lemma varint_room n : 0 <= n < 2 ^ w -> n < 128 ^ Z.of_nat (Z.to_nat ((w + 6) / 7)) /\ (0 < Z.to_nat ((w + 6) / 7))%nat.
Proof.
  intros Hn. pose proof (Z.div_mod (w + 6) 7). pose proof (Z.mod_pos_bound (w + 6) 7).
  assert (1 <= (w + 6) / 7) by (apply Z.div_le_lower_bound; lia). split; [|lia]. rewrite Z2Nat.id by lia.
  change 128 with (2 ^ 7). rewrite <- Z.pow_mul_r by lia. apply (Z.lt_le_trans _ (2 ^ w)); [lia|]. apply Z.pow_le_mono_r; lia.
Qed.

Lemma read_varint_total fuel n inp : (length inp < fuel)%nat -> read_varint w fuel n inp <> Undef.
Proof.
  revert n inp. induction fuel as [|fuel IH]; intros n inp Hf; [lia|]. cbn [read_varint].
  apply obind_total; [apply read_total|]. intros [b s1] Hr. apply read_inv in Hr as [-> Hb]; [|lia].
  destruct (_ =? 0); [discriminate|]. apply IH. rewrite length_app in Hf. unfold zlen in Hb. lia.
Qed.

(** writing a [w]-bit unsigned integer as a [VARINT] stays inside the
    buffer of [(w + 6) / 7] bytes, [GetSizeOfVarInt] is the number of bytes
    written, reading them gives the integer back, and reading any stream ends. *)
Theorem varint_codec n rest inp : 0 <= n < 2 ^ w ->
  exists bs, WriteVarInt w n = Ret bs /\ GetSizeOfVarInt w n = Ret (zlen bs) /\ zlen bs <= (w + 6) / 7 /\
    ReadVarInt w (bs ++ rest) = Ret (n, rest) /\ ReadVarInt w inp <> Undef.
Proof.
  intros Hn. destruct (varint_room n Hn) as [Hr Hp].
  destruct (varint_digits_spec _ 0 n Hn Hr Hp) as (d & tmp & Hd & Hl & Hs & Hflag & Hread).
  exists (rev (d :: tmp)). unfold WriteVarInt, GetSizeOfVarInt. rewrite Hd, Hs.
  assert (Hz : zlen (rev (d :: tmp)) = zlen (d :: tmp)) by (unfold zlen; now rewrite length_rev).
  split; [reflexivity|]. split; [rewrite Hz; reflexivity|]. split; [rewrite Hz; unfold zlen; lia|].
  split; [|apply read_varint_total; lia].
  unfold ReadVarInt. cbn [rev]. rewrite <- app_assoc. cbn [app].
  replace (S (length (rev tmp ++ d :: rest))) with (length tmp + S (S (length rest)))%nat
    by (rewrite length_app, length_rev; simpl; lia).
  rewrite Hread. apply (read_varint_digit _ n d false); assumption.
Qed.
End VarIntLaws.

Lemma varint_codec_witness :
  exists bs, WriteVarInt 32 65535 = Ret bs /\ bs = [0x82; 0xFE; 0x7F] /\ ReadVarInt 32 (bs ++ [9]) = Ret (65535, [9]).
Proof.
  destruct (varint_codec 32 ltac:(lia) 65535 [9] [] ltac:(lia)) as (bs & H1 & _ & _ & H2 & _).
  exists bs. split; [exact H1|]. split; [|exact H2].
  assert (WriteVarInt 32 65535 = Ret [0x82; 0xFE; 0x7F]) as E by (vm_compute; reflexivity).
  rewrite E in H1. injection H1 as <-. reflexivity.
Defined.

(** The examples of the format's description: 16511 takes two bytes and the
    middle byte of 65535 is [0xFE]; a stream that overflows the integer type is
    accepted and wraps, so that zero has more than one encoding on 32 bits. *)
Lemma varint_examples :
  WriteVarInt 64 128 = Ret [0x80; 0x00] /\ WriteVarInt 64 16383 = Ret [0xFE; 0x7F] /\
  WriteVarInt 64 16511 = Ret [0xFF; 0x7F] /\ WriteVarInt 64 65535 = Ret [0x82; 0xFE; 0x7F] /\
  WriteVarInt 64 (2 ^ 32) = Ret [0x8E; 0xFE; 0xFE; 0xFF; 0x00] /\
  ReadVarInt 32 [0x8E; 0xFE; 0xFE; 0xFF; 0x00] = ReadVarInt 32 [0x00].
Proof. vm_compute. repeat split; reflexivity. Qed.

(** ** [VARINT(obj)] *)

(** The buffer is large enough ([CVarInt_writes]), so that writing is a function. *)
Definition varint_bytes (w n : Z) : list Z := match WriteVarInt w n with Ret bs => bs | _ => [] end.
Definition varint_length (w n : Z) : Z := match GetSizeOfVarInt w n with Ret k => k | _ => 0 end.
Definition CVarInt (w : Z) : codec Z := Codec (varint_bytes w) (ReadVarInt w) (varint_length w).

(** Into an [int], in which [n << 7] and [n++] must not overflow. *)
Fixpoint read_varint_int (fuel : nat) (n : Z) : reader Z := fun inp =>
  match fuel with
  | O => Undef
  | S fuel =>
      let* '(chData, inp) := read 1 inp in
      let chData := le_decode chData in
      oassert (Z.shiftl n 7 <? 2 ^ 31) ;;;
      let n := Z.lor (Z.shiftl n 7) (Z.land chData 0x7F) in
      if Z.land chData 0x80 =? 0 then Ret (n, inp)
      else oassert (n + 1 <? 2 ^ 31) ;;; read_varint_int fuel (n + 1) inp
  end.
Definition CVarInt_int : codec Z := Codec (varint_bytes 32) (fun inp => read_varint_int (S (length inp)) 0 inp) (varint_length 32).

Lemma CVarInt_writes w n : 1 <= w -> 0 <= n < 2 ^ w -> WriteVarInt w n = Ret (varint_bytes w n) /\ GetSizeOfVarInt w n = Ret (varint_length w n) /\ varint_length w n = zlen (varint_bytes w n).
Proof.
  intros Hw Hn. destruct (varint_codec w Hw n [] [] Hn) as (bs & H1 & H2 & _). unfold varint_bytes, varint_length. rewrite H1, H2. auto.
Qed.

Lemma CVarInt_restores w : 1 <= w -> reads_back (CVarInt w) (fun n => 0 <= n < 2 ^ w).
Proof.
  intros Hw n rest Hn. cbn [Serialize Unserialize CVarInt]. destruct (varint_codec w Hw n rest [] Hn) as (bs & H1 & _ & _ & H2 & _).
  unfold varint_bytes. rewrite H1. exact H2.
Qed.

(** An [int] below zero is written as one digit. *)
Lemma varint_negative n : n < 0 -> varint_bytes 32 n = varint_bytes 32 (n mod 128) /\ varint_length 32 n = varint_length 32 (n mod 128).
Proof.
  intros Hn. pose proof (Z.mod_pos_bound n 128 ltac:(lia)). unfold varint_bytes, varint_length, WriteVarInt, GetSizeOfVarInt.
  change (Z.to_nat ((32 + 6) / 7)) with 5%nat. cbn [varint_digits varint_size]. rewrite !land_7f, Z.mod_mod by lia.
  destruct (Z.leb_spec n 0x7F); [|lia]. destruct (Z.leb_spec (n mod 128) 0x7F); [auto|lia].
Qed.

(** More room changes nothing. *)
Lemma varint_digits_room room k len n ds : varint_digits room len n = Ret ds -> varint_digits (room + k) len n = Ret ds.
Proof.
  revert len n ds. induction room as [|room IH]; intros len n ds; cbn [varint_digits Nat.add]; [discriminate|]. destruct (_ <=? _); [auto|].
  destruct (varint_digits room _ _) as [t| | |] eqn:E; cbn [obind]; try discriminate. now rewrite (IH _ _ _ E).
Qed.

(** In a type wide enough for all bytes the reader never wraps. *)
Lemma read_varint_wide W fuel n inp r rest : 0 <= n -> (n + 1) * 2 ^ (8 * zlen inp) <= 2 ^ W -> read_varint W fuel n inp = Ret (r, rest) -> r < 2 ^ 31 ->
  n <= r /\ read_varint_int fuel n inp = Ret (r, rest).
Proof.
  revert n inp. induction fuel as [|fuel IH]; intros n inp Hn Hw; cbn [read_varint read_varint_int]; [discriminate|]. intros H Hr.
  apply obind_ret_inv in H as ([b s1] & Hb & H). rewrite Hb. cbn [obind]. apply read_inv in Hb as [-> Hl]; [|lia]. rewrite zlen_app, Hl in Hw.
  rewrite Z.mul_add_distr_l, Z.pow_add_r in Hw by (pose proof (zlen_nonneg s1); lia). change (2 ^ (8 * 1)) with 256 in Hw.
  assert (0 < 2 ^ (8 * zlen s1)) by (apply Z.pow_pos_nonneg; pose proof (zlen_nonneg s1); lia). set (P := 2 ^ (8 * zlen s1)) in *. set (Q := 2 ^ W) in *.
  rewrite land_7f in *. pose proof (Z.mod_pos_bound (le_decode b) 128 ltac:(lia)) as Hm. set (d := le_decode b mod 128) in *. rewrite Z.shiftl_mul_pow2 in * by lia. change (2 ^ 7) with 128 in *.
  rewrite (Z.mod_small (n * 128)) in H by nia.
  assert (Hlor : Z.lor (n * 128) d = n * 128 + d).
  { rewrite Z.lor_comm. replace (n * 128) with (Z.shiftl n 7) by (rewrite Z.shiftl_mul_pow2 by lia; reflexivity). rewrite lor_shiftl_add by (change (2 ^ 7) with 128; lia).
    rewrite Z.shiftl_mul_pow2 by lia. change (2 ^ 7) with 128. lia. }
  rewrite Hlor in *. destruct (_ =? 0).
  - injection H as <- <-. split; [lia|]. replace (n * 128 <? 2 ^ 31) with true by lia. reflexivity.
  - rewrite (Z.mod_small (n * 128 + d + 1)) in H by nia. destruct (IH (n * 128 + d + 1) s1) as [H1 H2]; [lia|unfold P in *; nia|exact H|exact Hr|]. split; [lia|].
    replace (n * 128 <? 2 ^ 31) with true by lia. cbn [oassert obind]. replace (n * 128 + d + 1 <? 2 ^ 31) with true by lia. exact H2.
Qed.

Lemma CVarInt_int_restores : reads_back CVarInt_int (fun n => 0 <= n < 2 ^ 31).
Proof.
  intros n rest Hn. cbn [Serialize Unserialize CVarInt_int]. set (inp := varint_bytes 32 n ++ rest). set (W := 32 + 8 * zlen inp).
  pose proof (zlen_nonneg inp). destruct (CVarInt_writes 32 n) as [H1 _]; [lia|lia|]. unfold WriteVarInt in H1. apply obind_ret_inv in H1 as (ds & Hd & H1).
  assert (HW : WriteVarInt W n = Ret (varint_bytes 32 n)).
  { unfold WriteVarInt. replace (Z.to_nat ((W + 6) / 7)) with (Z.to_nat ((32 + 6) / 7) + (Z.to_nat ((W + 6) / 7) - Z.to_nat ((32 + 6) / 7)))%nat.
    - now rewrite (varint_digits_room _ _ _ _ _ Hd).
    - assert ((32 + 6) / 7 <= (W + 6) / 7) by (apply Z.div_le_mono; unfold W; lia). lia. }
  assert (0 <= n < 2 ^ W) as Hn' by (split; [lia|]; apply (Z.lt_le_trans _ (2 ^ 31)); [lia|apply Z.pow_le_mono_r; unfold W; lia]).
  destruct (varint_codec W ltac:(unfold W; lia) n rest [] Hn') as (bs & HW' & _ & _ & Hr & _). rewrite HW in HW'. injection HW' as <-. fold inp in Hr.
  apply (read_varint_wide W); [lia| |exact Hr|lia]. unfold W. rewrite Z.pow_add_r by lia. assert (0 < 2 ^ (8 * zlen inp)) by (apply Z.pow_pos_nonneg; lia). nia.
Qed.
