(* ===== verification/ScriptNum.v ===== *)
(** * Script numbers: [CScriptNum] of [script/script.h]

    Numeric opcodes read stack elements as little-endian sign-magnitude numbers
    of at most four bytes and write results of any int64 size back.  [m_value]
    is the C++ [int64_t]; the arithmetic operators keep the code's [assert]s,
    whose failure is [Undef]. *)

From Stdlib Require Import ZArith Lia Bool.
From stdpp Require Import base option numbers list.
From S2P Require Import Prelude Opcodes.

Open Scope Z_scope.
Open Scope outcome_scope.

Definition INT64_MAX : Z := 2 ^ 63 - 1.
Definition INT64_MIN : Z := - 2 ^ 63.
Definition INT_MAX : Z := 2 ^ 31 - 1.
Definition INT_MIN : Z := - 2 ^ 31.

Record CScriptNum := mkScriptNum { m_value : Z }.

Definition nMaxNumSize : Z := 4.

(** The loop [result |= static_cast<int64_t>(vch[i]) << 8*i]. *)
Fixpoint set_vch_loop (vch : list Z) (i : Z) (result : Z) : Z :=
  match vch with
  | [] => result
  | b :: vch => set_vch_loop vch (i + 1) (Z.lor result (Z.shiftl b (8 * i)))
  end.

Definition set_vch (vch : list Z) : Z :=
  match last vch with
  | None => 0
  | Some b =>
      let result := set_vch_loop vch 0 0 in
      if negb (Z.land b 0x80 =? 0)
      then - Z.land result (Z.lnot (Z.shiftl 0x80 (8 * (zlen vch - 1))))
      else result
  end.

(** The constructor from bytes: throws [scriptnum_error]. *)
Definition CScriptNum_of_vch (vch : list Z) (fRequireMinimal : bool) : outcome ScriptError CScriptNum :=
  if nMaxNumSize <? zlen vch then Throw
  else
    let non_minimal :=
      match last vch with
      | None => false
      | Some back =>
          (Z.land back 0x7f =? 0) &&
          ((zlen vch <=? 1) ||
           match vch !! (length vch - 2)%nat with
           | Some b => Z.land b 0x80 =? 0
           | None => false
           end)
      end in
    if fRequireMinimal && non_minimal then Throw
    else Ret (mkScriptNum (set_vch vch)).

(** [while(absvalue) { result.push_back(absvalue & 0xff); absvalue >>= 8; }];
    a uint64 is exhausted after eight steps, so the fuel 8 is exact. *)
Fixpoint serialize_loop (fuel : nat) (absvalue : Z) : list Z :=
  match fuel with
  | O => []
  | S fuel =>
      if absvalue =? 0 then []
      else Z.land absvalue 0xff :: serialize_loop fuel (Z.shiftr absvalue 8)
  end.

Definition serialize (value : Z) : list Z :=
  if value =? 0 then []
  else
    let neg := value <? 0 in
    let absvalue := u64 (if neg then - value else value) in
    let result := serialize_loop 8 absvalue in
    match last result with
    | None => result
    | Some back =>
        if negb (Z.land back 0x80 =? 0)
        then result ++ [if neg then 0x80 else 0]
        else if neg then take (length result - 1) result ++ [Z.lor back 0x80]
        else result
    end.

Definition getvch (n : CScriptNum) : list Z := serialize (m_value n).

Definition getint (n : CScriptNum) : Z :=
  if INT_MAX <? m_value n then INT_MAX
  else if m_value n <? INT_MIN then INT_MIN
  else m_value n.

(** [operator-()]. *)
Definition num_neg (n : CScriptNum) : outcome ScriptError CScriptNum :=
  oassert (negb (m_value n =? INT64_MIN)) ;;; Ret (mkScriptNum (- m_value n)).

(** [operator+=] and [operator-=]. *)
Definition num_add_assign (n : CScriptNum) (rhs : Z) : outcome ScriptError CScriptNum :=
  oassert ((rhs =? 0) || ((0 <? rhs) && (m_value n <=? INT64_MAX - rhs)) ||
           ((rhs <? 0) && (INT64_MIN - rhs <=? m_value n))) ;;;
  Ret (mkScriptNum (m_value n + rhs)).

Definition num_sub_assign (n : CScriptNum) (rhs : Z) : outcome ScriptError CScriptNum :=
  oassert ((rhs =? 0) || ((0 <? rhs) && (INT64_MIN + rhs <=? m_value n)) ||
           ((rhs <? 0) && (m_value n <=? INT64_MAX + rhs))) ;;;
  Ret (mkScriptNum (m_value n - rhs)).

(** The binary operators [+] and [-] compute on int64 without a check; signed
    overflow is undefined behaviour. *)
Definition in_int64 (v : Z) : bool := (INT64_MIN <=? v) && (v <=? INT64_MAX).

Definition num_add (a b : CScriptNum) : outcome ScriptError CScriptNum :=
  oassert (in_int64 (m_value a + m_value b)) ;;; Ret (mkScriptNum (m_value a + m_value b)).

Definition num_sub (a b : CScriptNum) : outcome ScriptError CScriptNum :=
  oassert (in_int64 (m_value a - m_value b)) ;;; Ret (mkScriptNum (m_value a - m_value b)).

Definition bnZero : CScriptNum := mkScriptNum 0.
Definition bnOne : CScriptNum := mkScriptNum 1.

Example serialize_255 : serialize 255 = [0xff; 0x00].
Proof. reflexivity. Qed.
Example serialize_m255 : serialize (-255) = [0xff; 0x80].
Proof. reflexivity. Qed.
Example serialize_m1 : serialize (-1) = [0x81].
Proof. reflexivity. Qed.

(** ** The value of a byte vector *)

Lemma set_vch_loop_spec vch : forall i r,
  0 <= i -> 0 <= r < 2 ^ (8 * i) -> bytes_ok vch ->
  set_vch_loop vch i r = r + 2 ^ (8 * i) * le_decode vch.
Proof.
  induction vch as [|b vch IH]; intros i r Hi Hr Hok; simpl; [lia|].
  apply bytes_ok_cons in Hok as [Hb Hok]. unfold is_byte in Hb.
  rewrite lor_shiftl_add by lia.
  assert (2 ^ (8 * (i + 1)) = 256 * 2 ^ (8 * i)) as E.
  { replace (8 * (i + 1)) with (8 + 8 * i) by lia. rewrite Z.pow_add_r by lia. reflexivity. }
  rewrite IH by (auto; try lia; rewrite E; nia). rewrite E. ring.
Qed.

Definition sign_magnitude (neg : bool) (m : Z) : Z := if neg then - m else m.

Lemma set_vch_snoc pre b :
  bytes_ok (pre ++ [b]) ->
  set_vch (pre ++ [b]) =
    sign_magnitude (128 <=? b) (le_decode pre + 2 ^ (8 * zlen pre) * (b mod 128)).
Proof.
  intros Hok. unfold set_vch. rewrite last_snoc.
  pose proof Hok as Hok'. apply bytes_ok_app in Hok' as [Hpre Hb].
  apply bytes_ok_cons in Hb as [Hb _].
  rewrite set_vch_loop_spec, land_0x80 by (auto; simpl; lia).
  rewrite le_decode_app, zlen_app. change (zlen [b]) with 1.
  replace (zlen pre + 1 - 1) with (zlen pre) by lia.
  pose proof (le_decode_bound pre Hpre) as Hbd. unfold is_byte in Hb.
  pose proof (zlen_nonneg pre). cbn [le_decode].
  set (P := 2 ^ (8 * zlen pre)) in *. unfold sign_magnitude.
  rewrite Z.add_0_l, Z.mul_0_r, Z.pow_0_r, Z.mul_1_l, Z.mul_0_r, Z.add_0_r.
  destruct (Z.ltb_spec b 128); destruct (Z.leb_spec 128 b); simpl negb; cbv iota; try lia.
  - rewrite (Z.mod_small b 128) by lia. reflexivity.
  - replace (Z.shiftl 128 (8 * zlen pre)) with (2 ^ (8 * zlen pre + 7))
      by (rewrite Z.shiftl_mul_pow2, Z.pow_add_r by lia; lia).
    assert (b mod 128 = b - 128) as -> by (symmetry; apply Z.mod_unique with 1; lia).
    f_equal. rewrite <- (land_lnot_top (8 * zlen pre + 7)); [|lia|];
      rewrite Z.pow_add_r by lia; fold P; [f_equal; lia|nia].
Qed.

(** ** The magnitude bytes [serialize] writes *)

Lemma serialize_loop_spec fuel : forall v,
  0 <= v < 2 ^ (8 * Z.of_nat fuel) ->
  bytes_ok (serialize_loop fuel v) /\ le_decode (serialize_loop fuel v) = v /\
  (v <> 0 -> exists pre b, serialize_loop fuel v = pre ++ [b] /\ 0 < b < 256).
Proof.
  induction fuel as [|fuel IH]; intros v Hv; cbn [serialize_loop].
  - assert (v = 0) as -> by (simpl in Hv; lia). repeat split; [constructor|lia].
  - replace (8 * Z.of_nat (S fuel)) with (8 + 8 * Z.of_nat fuel) in Hv by lia.
    rewrite Z.pow_add_r in Hv by lia. change (2 ^ 8) with 256 in Hv.
    destruct (Z.eqb_spec v 0) as [->|Hnz]; [repeat split; [constructor|lia]|].
    change 0xff with (Z.ones 8). rewrite Z.land_ones, Z.shiftr_div_pow2 by lia.
    change (2 ^ 8) with 256. pose proof (Z.mod_pos_bound v 256 ltac:(lia)) as Hm.
    pose proof (Z.div_mod v 256 ltac:(lia)) as Hdm.
    destruct (IH (v / 256)) as (Hok & Hval & Hlast).
    { split; [apply Z.div_pos; lia|apply Z.div_lt_upper_bound; lia]. }
    split; [|split].
    + apply bytes_ok_cons. unfold is_byte. auto.
    + cbn [le_decode]. lia.
    + intros _. destruct (Z.eq_dec (v / 256) 0) as [E|E].
      * exists [], (v mod 256). rewrite E. split; [destruct fuel; reflexivity|lia].
      * destruct (Hlast E) as (pre & b & -> & Hb). exists (v mod 256 :: pre), b. auto.
Qed.

(** The loop undoes [le_decode] on vectors without leading zero. *)
Lemma serialize_loop_decode fuel : forall pre b,
  bytes_ok (pre ++ [b]) -> b <> 0 -> (length pre < fuel)%nat ->
  serialize_loop fuel (le_decode (pre ++ [b])) = pre ++ [b].
Proof.
  induction fuel as [|fuel IH]; intros pre b Hok Hb Hlen; [lia|].
  destruct pre as [|c pre]; cbn [app le_decode serialize_loop] in *;
    apply bytes_ok_cons in Hok as [Hc Hok]; unfold is_byte in Hc;
    change 0xff with (Z.ones 8); rewrite Z.land_ones, Z.shiftr_div_pow2 by lia;
    change (2 ^ 8) with 256.
  - rewrite Z.mul_0_r, Z.add_0_r, Z.mod_small, Z.div_small by lia.
    destruct (Z.eqb_spec b 0); [lia|]. destruct fuel; reflexivity.
  - pose proof (le_decode_bound _ Hok) as Hbd.
    assert (0 < le_decode (pre ++ [b])) as Hpos.
    { rewrite le_decode_app. cbn [le_decode]. apply bytes_ok_app in Hok as [Hp Hb'].
      apply bytes_ok_cons in Hb' as [Hb' _]. unfold is_byte in Hb'.
      pose proof (le_decode_bound _ Hp). pose proof (Z.pow_pos_nonneg 2 (8 * zlen pre)).
      pose proof (zlen_nonneg pre). nia. }
    destruct (Z.eqb_spec (c + 256 * le_decode (pre ++ [b])) 0); [lia|].
    rewrite (Z.mul_comm 256), Z.mod_add, Z.div_add, Z.mod_small, Z.div_small by lia.
    rewrite Z.add_0_l, IH by (auto; simpl in Hlen; lia). reflexivity.
Qed.

(** [serialize] in terms of the sign and the magnitude bytes [pre ++ [b]]. *)
Lemma serialize_shape v pre b (neg : bool) :
  serialize_loop 8 (u64 (if v <? 0 then - v else v)) = pre ++ [b] ->
  v <> 0 -> 0 < b < 256 -> (v <? 0) = neg ->
  serialize v =
    if 128 <=? b then (pre ++ [b]) ++ [if neg then 0x80 else 0]
    else pre ++ [if neg then b + 128 else b].
Proof.
  intros HL Hv Hb Hneg. unfold serialize. rewrite HL, last_snoc, Hneg.
  destruct (Z.eqb_spec v 0); [congruence|].
  rewrite land_0x80 by (unfold is_byte; lia).
  destruct (Z.ltb_spec b 128); destruct (Z.leb_spec 128 b); simpl negb; cbv iota; try lia; [|reflexivity].
  destruct neg; [|reflexivity].
  rewrite lor_0x80 by lia. rewrite length_app, Nat.add_sub, take_app_length. reflexivity.
Qed.

Lemma set_vch_serialize v : INT64_MIN < v <= INT64_MAX -> set_vch (serialize v) = v /\ bytes_ok (serialize v).
Proof.
  unfold INT64_MIN, INT64_MAX. intros Hr.
  destruct (Z.eq_dec v 0) as [->|Hnz]; [split; [reflexivity|constructor]|].
  set (a := if v <? 0 then - v else v).
  assert (0 < a < 2 ^ 63) as Ha by (unfold a; destruct (Z.ltb_spec v 0); lia).
  assert (u64 a = a) as Hu by (apply Z.mod_small; lia).
  destruct (serialize_loop_spec 8 a) as (Hok & Hval & Hlast); [simpl; lia|].
  destruct Hlast as (pre & b & HL & Hb); [lia|].
  rewrite (serialize_shape v pre b (v <? 0)) by (rewrite ?Hu; auto; fold a; congruence).
  rewrite HL in Hok, Hval. pose proof Hok as Hok'. apply bytes_ok_app in Hok' as [Hpre _].
  rewrite le_decode_app in Hval. cbn [le_decode] in Hval.
  destruct (Z.leb_spec 128 b).
  - assert (bytes_ok ((pre ++ [b]) ++ [if v <? 0 then 128 else 0])) as Hall.
    { apply bytes_ok_app; split; [assumption|].
      apply bytes_ok_cons; split; [|constructor]. unfold is_byte. destruct (v <? 0); lia. }
    split; [|assumption]. rewrite set_vch_snoc, le_decode_app by assumption.
    unfold sign_magnitude, a in *. cbn [le_decode].
    destruct (Z.ltb_spec v 0); cbn [Z.leb Z.compare Pos.compare Pos.compare_cont];
      [rewrite Z_mod_same_full|rewrite Z.mod_0_l by lia]; lia.
  - assert (bytes_ok (pre ++ [if v <? 0 then b + 128 else b])) as Hall.
    { apply bytes_ok_app; split; [assumption|].
      apply bytes_ok_cons; split; [|constructor]. unfold is_byte. destruct (v <? 0); lia. }
    split; [|assumption]. rewrite set_vch_snoc by assumption.
    unfold sign_magnitude, a in *.
    destruct (Z.ltb_spec v 0).
    + replace ((b + 128) mod 128) with b
        by (symmetry; rewrite <- (Z.mul_1_l 128) at 1; rewrite Z.mod_add, Z.mod_small; lia).
      destruct (Z.leb_spec 128 (b + 128)); lia.
    + rewrite Z.mod_small by lia. destruct (Z.leb_spec 128 b); lia.
Qed.

(** The constructor's minimality test on a non-empty vector. *)
Definition minimal_vch (vch : list Z) : Prop :=
  forall pre b, vch = pre ++ [b] -> b mod 128 = 0 ->
    exists pre' c, pre = pre' ++ [c] /\ 128 <= c.

Lemma CScriptNum_of_vch_spec vch fRequireMinimal :
  bytes_ok vch -> zlen vch <= nMaxNumSize -> minimal_vch vch ->
  CScriptNum_of_vch vch fRequireMinimal = Ret (mkScriptNum (set_vch vch)).
Proof.
  intros Hok Hlen Hmin. unfold CScriptNum_of_vch.
  destruct (Z.ltb_spec nMaxNumSize (zlen vch)); [lia|].
  destruct (last vch) as [b|] eqn:E; [|rewrite andb_false_r; reflexivity].
  apply last_Some in E as [pre ->].
  pose proof Hok as Hok'. apply bytes_ok_app in Hok' as [Hpre Hb].
  apply bytes_ok_cons in Hb as [Hb _]. rewrite land_0x7f by assumption.
  destruct (Z.eqb_spec (b mod 128) 0) as [E|E]; [|rewrite andb_false_r; reflexivity].
  destruct (Hmin _ _ eq_refl E) as (pre' & c & -> & Hc).
  apply bytes_ok_app in Hpre as [_ Hcok]. apply bytes_ok_cons in Hcok as [Hcok _].
  rewrite !length_app, <- app_assoc, lookup_app_r by (simpl; lia).
  replace (length pre' + length [c] + length [b] - 2 - length pre')%nat with 0%nat by (simpl; lia).
  cbn [lookup list_lookup app]. rewrite land_0x80 by assumption. zlen_simpl. pose proof (zlen_nonneg pre').
  destruct (Z.leb_spec (zlen pre' + (1 + (1 + 0))) 1); [lia|].
  destruct (Z.ltb_spec c 128); [lia|]. rewrite andb_false_r. reflexivity.
Qed.

Lemma CScriptNum_of_vch_minimal vch n :
  bytes_ok vch -> CScriptNum_of_vch vch true = Ret n ->
  zlen vch <= nMaxNumSize /\ minimal_vch vch /\ m_value n = set_vch vch.
Proof.
  unfold CScriptNum_of_vch. intros Hok H.
  destruct (Z.ltb_spec nMaxNumSize (zlen vch)); [discriminate|].
  split; [assumption|].
  destruct (last vch) as [b|] eqn:E; simpl andb in H.
  2: { injection H as <-. split; [|reflexivity]. intros pre c ->. rewrite last_snoc in E. discriminate. }
  apply last_Some in E as [pre ->].
  pose proof Hok as Hok'. apply bytes_ok_app in Hok' as [Hpre Hb].
  apply bytes_ok_cons in Hb as [Hb _]. rewrite land_0x7f in H by assumption.
  destruct (_ && _) eqn:Et in H; [discriminate|]. injection H as <-. split; [|reflexivity].
  intros pre0 b0 Heq Hb0. apply app_inj_tail in Heq as [<- <-].
  rewrite Hb0, Z.eqb_refl in Et. simpl in Et. apply orb_false_iff in Et as [Et1 Et2].
  destruct (last pre) as [c|] eqn:Ep; [|apply last_None in Ep as ->; discriminate].
  apply last_Some in Ep as [pre' ->]. exists pre', c. split; [reflexivity|].
  apply bytes_ok_app in Hpre as [_ Hcok]. apply bytes_ok_cons in Hcok as [Hcok _].
  rewrite !length_app, <- app_assoc, lookup_app_r in Et2 by (simpl; lia).
  replace (length pre' + length [c] + length [b] - 2 - length pre')%nat with 0%nat in Et2 by (simpl; lia).
  cbn [lookup list_lookup app] in Et2. rewrite land_0x80 in Et2 by assumption. bool_prop. assumption.
Qed.

Lemma serialize_small v : - 2 ^ 31 < v < 2 ^ 31 -> v <> 0 ->
  zlen (serialize v) <= nMaxNumSize /\ minimal_vch (serialize v).
Proof.
  intros Hr Hnz. set (a := if v <? 0 then - v else v).
  assert (0 < a < 2 ^ 31) as Ha by (unfold a; destruct (Z.ltb_spec v 0); lia).
  assert (u64 a = a) as Hu by (apply Z.mod_small; lia).
  destruct (serialize_loop_spec 8 a) as (Hok & Hval & Hlast); [simpl; lia|].
  destruct Hlast as (pre & b & HL & Hb); [lia|].
  rewrite (serialize_shape v pre b (v <? 0)) by (rewrite ?Hu; auto; fold a; congruence).
  rewrite HL in Hok, Hval. pose proof Hok as Hok'. apply bytes_ok_app in Hok' as [Hpre _].
  rewrite le_decode_app in Hval. cbn [le_decode] in Hval.
  pose proof (le_decode_bound pre Hpre) as Hbd. pose proof (zlen_nonneg pre) as Hn.
  assert (forall k, 0 <= k <= zlen pre -> b * 2 ^ (8 * k) < 2 ^ 31) as Hk.
  { intros k Hk. pose proof (Z.pow_le_mono_r 2 (8 * k) (8 * zlen pre)). nia. }
  unfold nMaxNumSize. destruct (Z.leb_spec 128 b).
  - split.
    + zlen_simpl. destruct (Z.le_gt_cases (zlen pre) 2); [lia|].
      specialize (Hk 3 ltac:(lia)). lia.
    + intros pre0 c Heq Hc. apply app_inj_tail in Heq as [<- <-]. eauto.
  - split.
    + zlen_simpl. destruct (Z.le_gt_cases (zlen pre) 3); [lia|].
      specialize (Hk 4 ltac:(lia)). lia.
    + intros pre0 c Heq Hc. apply app_inj_tail in Heq as [<- <-]. exfalso.
      destruct (v <? 0); [|rewrite Z.mod_small in Hc; lia].
      rewrite <- (Z.mul_1_l 128) in Hc at 1. rewrite Z.mod_add, Z.mod_small in Hc; lia.
Qed.

Lemma number_roundtrip (v : Z) (fRequireMinimal : bool) :
  - 2 ^ 31 < v < 2 ^ 31 ->
  CScriptNum_of_vch (getvch (mkScriptNum v)) fRequireMinimal = Ret (mkScriptNum v).
Proof.
  intros Hr. unfold getvch. cbn [m_value].
  destruct (Z.eq_dec v 0) as [->|Hnz]; [destruct fRequireMinimal; reflexivity|].
  destruct (serialize_small v Hr Hnz).
  destruct (set_vch_serialize v) as [Hset Hok]; [unfold INT64_MIN, INT64_MAX; lia|].
  rewrite CScriptNum_of_vch_spec, Hset by assumption. reflexivity.
Qed.

(** every script number whose magnitude fits 31 bits survives being pushed
    ([getvch]) and read back by the constructor, with and without the minimal
    encoding rule: [serialize] always produces an accepted, minimal encoding. *)
Theorem scriptnum_roundtrip (v : Z) (fRequireMinimal : bool) :
  - 2 ^ 31 < v < 2 ^ 31 ->
  CScriptNum_of_vch (getvch (mkScriptNum v)) fRequireMinimal = Ret (mkScriptNum v).
Proof. apply number_roundtrip. Qed.

Lemma scriptnum_roundtrip_witness :
  CScriptNum_of_vch (getvch (mkScriptNum (-255))) true = Ret (mkScriptNum (-255)).
Proof. apply (scriptnum_roundtrip (-255) true). lia. Defined.

(** The magnitude bytes of a minimally encoded vector [pre ++ [b]], and the
    vector rebuilt from them. *)
Lemma magnitude_bytes pre b :
  bytes_ok (pre ++ [b]) -> minimal_vch (pre ++ [b]) -> (length pre <= 3)%nat ->
  exists p c,
    serialize_loop 8 (le_decode pre + 2 ^ (8 * zlen pre) * (b mod 128)) = p ++ [c] /\
    0 < c < 256 /\
    pre ++ [b] = if 128 <=? c then (p ++ [c]) ++ [if 128 <=? b then 128 else 0]
                 else p ++ [if 128 <=? b then c + 128 else c].
Proof.
  intros Hok Hmin Hl. pose proof Hok as Hok'. apply bytes_ok_app in Hok' as [Hpre Hb].
  apply bytes_ok_cons in Hb as [Hb _]. unfold is_byte in Hb.
  pose proof (Z.mod_pos_bound b 128 ltac:(lia)) as Hm.
  pose proof (Z.div_mod b 128 ltac:(lia)) as Hdm.
  destruct (Z.eq_dec (b mod 128) 0) as [E|E].
  - destruct (Hmin pre b eq_refl E) as (p & c & -> & Hc).
    pose proof Hpre as Hq. apply bytes_ok_app in Hq as [_ Hq].
    apply bytes_ok_cons in Hq as [Hq _]. unfold is_byte in Hq.
    exists p, c. rewrite E, Z.mul_0_r, Z.add_0_r. rewrite length_app in Hl. simpl in Hl.
    rewrite serialize_loop_decode by (auto; lia). split; [reflexivity|split; [lia|]].
    destruct (Z.leb_spec 128 c); [|lia]. f_equal. f_equal. destruct (Z.leb_spec 128 b); lia.
  - exists pre, (b mod 128).
    replace (le_decode pre + _) with (le_decode (pre ++ [b mod 128]))
      by (rewrite le_decode_app; cbn [le_decode]; lia).
    rewrite serialize_loop_decode; [| |lia|lia].
    2: { apply bytes_ok_app; split; [assumption|]. apply bytes_ok_cons; split; [|constructor].
         unfold is_byte; lia. }
    split; [reflexivity|split; [lia|]]. destruct (Z.leb_spec 128 (b mod 128)); [lia|].
    f_equal. f_equal. destruct (Z.leb_spec 128 b); lia.
Qed.

(** under the minimal encoding rule decoding is injective: the only byte
    vector the constructor accepts for a number is the one [getvch] writes, so
    a numeric stack element has exactly one accepted spelling. *)
Theorem scriptnum_canonical (vch : list Z) (n : CScriptNum) :
  bytes_ok vch -> CScriptNum_of_vch vch true = Ret n -> getvch n = vch.
Proof.
  intros Hok H. apply CScriptNum_of_vch_minimal in H as (Hlen & Hmin & Hv); [|assumption].
  unfold getvch, nMaxNumSize in *. rewrite Hv. clear Hv n.
  destruct vch as [|b pre _] using rev_ind; [reflexivity|].
  rewrite set_vch_snoc by assumption. zlen_simpl.
  assert (length pre <= 3)%nat as Hl by (unfold zlen in Hlen; lia).
  destruct (magnitude_bytes pre b Hok Hmin Hl) as (p & c & HL & Hc & Heq). rewrite Heq.
  apply bytes_ok_app in Hok as [Hpre _].
  pose proof (Z.mod_pos_bound b 128 ltac:(lia)) as Hm.
  pose proof (le_decode_bound pre Hpre) as Hbd.
  assert (2 ^ (8 * zlen pre) <= 2 ^ 24) as Hp by (apply Z.pow_le_mono_r; unfold zlen; lia).
  set (m := le_decode pre + 2 ^ (8 * zlen pre) * (b mod 128)) in *.
  assert (0 < m < 2 ^ 31) as Hmr.
  { destruct (Z.eq_dec m 0) as [E|E]; [|unfold m in *; nia].
    rewrite E in HL. destruct p; discriminate HL. }
  assert (u64 m = m) as Hu by (apply Z.mod_small; lia).
  unfold sign_magnitude. destruct (Z.leb_spec 128 b).
  - apply (serialize_shape (- m) p c true); try lia.
    destruct (Z.ltb_spec (- m) 0); [|lia]. rewrite Z.opp_involutive, Hu. assumption.
  - apply (serialize_shape m p c false); try lia.
    destruct (Z.ltb_spec m 0); [lia|]. rewrite Hu. assumption.
Qed.

Lemma scriptnum_canonical_witness :
  exists n, CScriptNum_of_vch [0xff; 0x80] true = Ret n /\ getvch n = [0xff; 0x80].
Proof.
  exists (mkScriptNum (-255)). split; [reflexivity|].
  apply scriptnum_canonical; [|reflexivity].
  repeat constructor; vm_compute; congruence.
Defined.

(** ** Ranges *)

Lemma set_vch_range vch : bytes_ok vch -> zlen vch <= nMaxNumSize -> - 2 ^ 31 < set_vch vch < 2 ^ 31.
Proof.
  unfold nMaxNumSize. intros Hok Hlen. destruct vch as [|b pre _] using rev_ind; [change (set_vch []) with 0; lia|].
  rewrite set_vch_snoc by assumption. apply bytes_ok_app in Hok as [Hpre _].
  pose proof (le_decode_bound pre Hpre) as Hb. pose proof (Z.mod_pos_bound b 128 ltac:(lia)) as Hm.
  zlen_simpl. pose proof (Z.pow_le_mono_r 2 (8 * zlen pre) 24 ltac:(lia) ltac:(lia)) as Hp.
  unfold sign_magnitude. destruct (128 <=? b); nia.
Qed.

(** Operands of numeric opcodes are 31-bit magnitudes. *)
Lemma CScriptNum_of_vch_range vch fRequireMinimal :
  bytes_ok vch ->
  safe (fun n => - 2 ^ 31 < m_value n < 2 ^ 31) (CScriptNum_of_vch vch fRequireMinimal).
Proof.
  intros Hok. unfold CScriptNum_of_vch. destruct (Z.ltb_spec nMaxNumSize (zlen vch)); [exact I|].
  destruct (_ && _); [exact I|]. apply set_vch_range; assumption.
Qed.

Lemma serialize_loop_length fuel : forall v, (length (serialize_loop fuel v) <= fuel)%nat.
Proof.
  induction fuel as [|fuel IH]; intros v; cbn [serialize_loop]; [simpl; lia|].
  case_match; simpl; [lia|]. specialize (IH (Z.shiftr v 8)). lia.
Qed.

Lemma serialize_length v : zlen (serialize v) <= 9.
Proof.
  unfold serialize, zlen. destruct (v =? 0); [simpl; lia|].
  pose proof (serialize_loop_length 8 (u64 (if v <? 0 then - v else v))) as H.
  destruct (serialize_loop 8 _) as [|x l]; [simpl; lia|]. destruct (last _); [|lia].
  destruct (negb _); [|destruct (v <? 0)]; rewrite ?length_app, ?length_take; cbn [length] in *; lia.
Qed.

(** Results of numeric opcodes: any int64 above the minimum. *)
Lemma getvch_bytes n : INT64_MIN < m_value n <= INT64_MAX -> bytes_ok (getvch n).
Proof. intros. apply set_vch_serialize. assumption. Qed.

Lemma getint_small v : INT_MIN <= v <= INT_MAX -> getint (mkScriptNum v) = v.
Proof.
  intros H. unfold getint. cbn [m_value].
  destruct (Z.ltb_spec INT_MAX v); [lia|]. destruct (Z.ltb_spec v INT_MIN); [lia|reflexivity].
Qed.
