(* ===== verification/Script.v ===== *)
(** * Serialized scripts: [CScript] of [script/script.h] and [script/script.cpp]

    A script is its byte vector; an iterator [pc] into it is the suffix from
    [pc] to [end()], so advancing the iterator drops bytes and [pc < end()] is
    non-emptiness.  The header's appenders, the opcode reader [GetOp2] (with
    the iterator position it leaves behind on failure, which
    [SerializeScriptCode] observes), [FindAndDelete], the sigop counters and the
    shape tests are modelled. *)

From Stdlib Require Import ZArith Lia Bool.
From stdpp Require Import base option numbers list.
From S2P Require Import Prelude Opcodes ScriptNum.

Open Scope Z_scope.
Open Scope outcome_scope.

Abbreviation valtype := (list Z) (only parsing).
Abbreviation CScript := (list Z) (only parsing).

Definition MAX_SCRIPT_ELEMENT_SIZE : Z := 520.

(** ** Appending *)

(** [operator<<(opcodetype)] throws outside a byte. *)
Definition push_opcode (s : CScript) (opcode : opcodetype) : outcome ScriptError CScript :=
  if (opcode <? 0) || (0xff <? opcode) then Throw else Ret (s ++ [opcode]).

(** [operator<<(const std::vector<unsigned char>&)]; the sizes are written in
    host (little-endian) byte order. *)
Definition push_data (s : CScript) (b : valtype) : CScript :=
  s ++ (if zlen b <? OP_PUSHDATA1 then [u8 (zlen b)]
        else if zlen b <=? 0xff then [OP_PUSHDATA1; u8 (zlen b)]
        else if zlen b <=? 0xffff then OP_PUSHDATA2 :: le_encode 2 (zlen b)
        else OP_PUSHDATA4 :: le_encode 4 (zlen b)) ++ b.

(** [push_int64]; the byte pushed is [n + (OP_1 - 1)] as an unsigned char. *)
Definition push_int64 (s : CScript) (n : Z) : CScript :=
  if (n =? -1) || ((1 <=? n) && (n <=? 16)) then s ++ [u8 (n + (OP_1 - 1))]
  else if n =? 0 then s ++ [OP_0]
  else push_data s (serialize n).

(** [operator<<(const CScriptNum&)]. *)
Definition push_num (s : CScript) (n : CScriptNum) : CScript := push_data s (getvch n).

Definition PushMinimal (s : CScript) (b : valtype) : CScript :=
  match b with
  | [] => s ++ [OP_0]
  | [x] =>
      if (1 <=? x) && (x <=? 16) then s ++ [OP_1 + (x - 1)]
      else if x =? 0x81 then s ++ [OP_1NEGATE]
      else push_data s b
  | _ => push_data s b
  end.

(** ** Reading *)

Record GetOp_result := mkGetOp {
  go_ok : bool;
  go_opcode : opcodetype;
  go_vch : valtype;
  go_pc : CScript
}.

Definition getop_fail (pc : CScript) : GetOp_result := mkGetOp false OP_INVALIDOPCODE [] pc.

(** The immediate operand of [nSize] bytes. *)
Definition getop_operand (opcode nSize : Z) (pc : CScript) : GetOp_result :=
  if zlen pc <? nSize then getop_fail pc
  else mkGetOp true opcode (take (Z.to_nat nSize) pc) (drop (Z.to_nat nSize) pc).

Definition GetOp2 (pc : CScript) : GetOp_result :=
  match pc with
  | [] => getop_fail []
  | opcode :: pc =>
      if opcode <=? OP_PUSHDATA4 then
        if opcode <? OP_PUSHDATA1 then getop_operand opcode opcode pc
        else if opcode =? OP_PUSHDATA1 then
          match pc with
          | [] => getop_fail pc
          | n :: pc => getop_operand opcode n pc
          end
        else if opcode =? OP_PUSHDATA2 then
          if zlen pc <? 2 then getop_fail pc
          else getop_operand opcode (le_decode (take 2 pc)) (drop 2 pc)
        else
          if zlen pc <? 4 then getop_fail pc
          else getop_operand opcode (le_decode (take 4 pc)) (drop 4 pc)
      else mkGetOp true opcode [] pc
  end.

(** Small integers. *)
Definition DecodeOP_N (opcode : opcodetype) : outcome ScriptError Z :=
  if opcode =? OP_0 then Ret 0
  else oassert ((OP_1 <=? opcode) && (opcode <=? OP_16)) ;;; Ret (opcode - (OP_1 - 1)).

Definition EncodeOP_N (n : Z) : outcome ScriptError opcodetype :=
  oassert ((0 <=? n) && (n <=? 16)) ;;;
  if n =? 0 then Ret OP_0 else Ret (OP_1 + n - 1).

(** ** [FindAndDelete]

    [find_erase] is the inner loop [while (pc starts with b) erase], the outer
    loop is [find_and_delete_loop]: it returns the script from [pc] on after the
    deletions, and the number of them.  Every round of either loop shortens the
    rest, so the length of the script is enough fuel. *)

Definition starts_with (b pc : list Z) : bool := bool_decide (take (length b) pc = b).

Fixpoint find_erase (fuel : nat) (b pc : CScript) : CScript * Z :=
  match fuel with
  | O => (pc, 0)
  | S fuel =>
      if (zlen b <=? zlen pc) && starts_with b pc
      then let '(pc', n) := find_erase fuel b (drop (length b) pc) in (pc', n + 1)
      else (pc, 0)
  end.

Fixpoint find_and_delete_loop (fuel : nat) (b pc : CScript) : CScript * Z :=
  match fuel with
  | O => (pc, 0)
  | S fuel =>
      let '(pc, n) := find_erase (length pc) b pc in
      let r := GetOp2 pc in
      if go_ok r then
        let '(rest, m) := find_and_delete_loop fuel b (go_pc r) in
        (take (length pc - length (go_pc r)) pc ++ rest, n + m)
      else (pc, n)
  end.

(** The script after the call, and [nFound]. *)
Definition FindAndDelete (s b : CScript) : CScript * Z :=
  match b with
  | [] => (s, 0)
  | _ => find_and_delete_loop (S (length s)) b s
  end.

(** [Find]: the number of occurrences of an opcode. *)
Fixpoint Find_loop (fuel : nat) (op : opcodetype) (pc : CScript) : Z :=
  match fuel with
  | O => 0
  | S fuel =>
      let r := GetOp2 pc in
      if go_ok r then (if go_opcode r =? op then 1 else 0) + Find_loop fuel op (go_pc r) else 0
  end.
Definition Find (s : CScript) (op : opcodetype) : Z := Find_loop (length s) op s.

(** ** Signature operation counting *)

Fixpoint GetSigOpCount_loop (fuel : nat) (fAccurate : bool) (n : Z) (lastOpcode : opcodetype)
    (pc : CScript) : outcome ScriptError Z :=
  match pc, fuel with
  | [], _ => Ret n
  | _, O => Undef
  | _, S fuel =>
      let r := GetOp2 pc in
      if negb (go_ok r) then Ret n
      else
        let opcode := go_opcode r in
        let* n :=
          if (opcode =? OP_CHECKSIG) || (opcode =? OP_CHECKSIGVERIFY) then Ret (u32 (n + 1))
          else if (opcode =? OP_CHECKMULTISIG) || (opcode =? OP_CHECKMULTISIGVERIFY) then
            if fAccurate && (OP_1 <=? lastOpcode) && (lastOpcode <=? OP_16)
            then let* k := DecodeOP_N lastOpcode in Ret (u32 (n + k))
            else Ret (u32 (n + 20))
          else Ret n in
        GetSigOpCount_loop fuel fAccurate n opcode (go_pc r)
  end.

(** [GetSigOpCount(bool fAccurate)]. *)
Definition GetSigOpCount (s : CScript) (fAccurate : bool) : outcome ScriptError Z :=
  GetSigOpCount_loop (length s) fAccurate 0 OP_INVALIDOPCODE s.

Definition at_ (s : CScript) (i : nat) : Z := default 0 (s !! i).

Definition IsPayToScriptHash (s : CScript) : bool :=
  (zlen s =? 23) && (at_ s 0 =? OP_HASH160) && (at_ s 1 =? 0x14) && (at_ s 22 =? OP_EQUAL).

Definition IsPayToPublicKeyHash (s : CScript) : bool :=
  (zlen s =? 25) && (at_ s 0 =? OP_DUP) && (at_ s 1 =? OP_HASH160) && (at_ s 2 =? 0x14) &&
  (at_ s 23 =? OP_EQUALVERIFY) && (at_ s 24 =? OP_CHECKSIG).

(** The last data pushed by a push-only [scriptSig]; [None] is [return 0]. *)
Fixpoint last_push_loop (fuel : nat) (data : valtype) (pc : CScript) : outcome ScriptError (option valtype) :=
  match pc, fuel with
  | [], _ => Ret (Some data)
  | _, O => Undef
  | _, S fuel =>
      let r := GetOp2 pc in
      if negb (go_ok r) then Ret None
      else if OP_16 <? go_opcode r then Ret None
      else last_push_loop fuel (go_vch r) (go_pc r)
  end.

(** [GetSigOpCount(const CScript& scriptSig)]. *)
Definition GetSigOpCount_p2sh (s scriptSig : CScript) : outcome ScriptError Z :=
  if negb (IsPayToScriptHash s) then GetSigOpCount s true
  else
    let* data := last_push_loop (length scriptSig) [] scriptSig in
    match data with
    | None => Ret 0
    | Some subscript => GetSigOpCount subscript true
    end.

(** ** Shape tests *)

Fixpoint IsNormalPaymentScript_loop (fuel : nat) (i : Z) (pc : CScript) : bool :=
  match pc, fuel with
  | [], _ => true
  | _, O => false
  | _, S fuel =>
      let r := GetOp2 pc in
      let opcode := go_opcode r in
      if (i =? 0) && negb (opcode =? OP_DUP) then false
      else if (i =? 1) && negb (opcode =? OP_HASH160) then false
      else if (i =? 3) && negb (opcode =? OP_EQUALVERIFY) then false
      else if (i =? 4) && negb (opcode =? OP_CHECKSIG) then false
      else if i =? 5 then false
      else IsNormalPaymentScript_loop fuel (i + 1) (go_pc r)
  end.

Definition IsNormalPaymentScript (s : CScript) : bool :=
  if negb (zlen s =? 25) then false else IsNormalPaymentScript_loop (length s) 0 s.

Fixpoint IsPushOnly_loop (fuel : nat) (pc : CScript) : bool :=
  match pc, fuel with
  | [], _ => true
  | _, O => false
  | _, S fuel =>
      let r := GetOp2 pc in
      if negb (go_ok r) then false
      else if OP_16 <? go_opcode r then false
      else IsPushOnly_loop fuel (go_pc r)
  end.

(** [IsPushOnly(pc)] and [IsPushOnly()]. *)
Definition IsPushOnly (pc : CScript) : bool := IsPushOnly_loop (length pc) pc.

Definition IsUnspendable (s : CScript) : bool :=
  match s with
  | [] => false
  | b :: _ => b =? OP_META
  end.

(** ** The reader *)

Lemma getop_operand_pc opcode n pc :
  exists k, go_pc (getop_operand opcode n pc) = drop k pc.
Proof.
  unfold getop_operand, getop_fail. case_match; simpl; [exists 0%nat|eexists]; reflexivity.
Qed.

(** The iterator [GetOp2] leaves behind, on success and on failure, is a proper
    suffix of the one it was given. *)
Lemma GetOp2_suffix b pc : exists k, go_pc (GetOp2 (b :: pc)) = drop k pc.
Proof.
  unfold GetOp2, getop_fail. repeat case_match; cbn [go_pc]; try (exists 0%nat; reflexivity);
    try apply getop_operand_pc.
  - destruct (getop_operand_pc b z l) as [k ->]. exists (S k). reflexivity.
  - destruct (getop_operand_pc b (le_decode (take 2 pc)) (drop 2 pc)) as [k ->].
    exists (2 + k)%nat. apply drop_drop.
  - destruct (getop_operand_pc b (le_decode (take 4 pc)) (drop 4 pc)) as [k ->].
    exists (4 + k)%nat. apply drop_drop.
Qed.

Lemma GetOp2_shorter b pc : (length (go_pc (GetOp2 (b :: pc))) <= length pc)%nat.
Proof. destruct (GetOp2_suffix b pc) as [k ->]. rewrite length_drop. lia. Qed.

Lemma GetOp2_ok_nonempty pc : go_ok (GetOp2 pc) = true -> pc <> [].
Proof. destruct pc; [discriminate|congruence]. Qed.

(** The bytes [GetOp2] consumed, followed by what it left, are the input. *)
Definition op_bytes (pc : CScript) : list Z := take (length pc - length (go_pc (GetOp2 pc))) pc.

Lemma op_bytes_app pc : op_bytes pc ++ go_pc (GetOp2 pc) = pc.
Proof.
  unfold op_bytes. destruct pc as [|b pc]; [reflexivity|].
  destruct (GetOp2_suffix b pc) as [k E]. rewrite E, length_drop.
  destruct (Nat.le_gt_cases k (length pc)).
  - replace (length (b :: pc) - (length pc - k))%nat with (S k) by (simpl; lia).
    simpl. f_equal. apply take_drop.
  - rewrite !drop_ge, app_nil_r, take_ge by (simpl; lia). reflexivity.
Qed.

Lemma getop_operand_data op (d rest : list Z) :
  getop_operand op (zlen d) (d ++ rest) = mkGetOp true op d rest.
Proof.
  unfold getop_operand. pose proof (zlen_nonneg rest). zlen_simpl.
  destruct (Z.ltb_spec (zlen d + zlen rest) (zlen d)); [lia|].
  unfold zlen. rewrite Nat2Z.id, take_app_length, drop_app_length. reflexivity.
Qed.

Lemma GetOp2_direct (d rest : list Z) :
  zlen d < OP_PUSHDATA1 -> GetOp2 (zlen d :: d ++ rest) = mkGetOp true (zlen d) d rest.
Proof.
  intros Hd. unfold GetOp2, OP_PUSHDATA1, OP_PUSHDATA4 in *.
  destruct (Z.leb_spec (zlen d) 0x4e); [|lia]. destruct (Z.ltb_spec (zlen d) 0x4c); [|lia].
  apply getop_operand_data.
Qed.

Lemma GetOp2_wide (n : nat) op (d rest : list Z) :
  (op = OP_PUSHDATA2 /\ n = 2%nat) \/ (op = OP_PUSHDATA4 /\ n = 4%nat) ->
  zlen d < 2 ^ (8 * Z.of_nat n) ->
  GetOp2 (op :: le_encode n (zlen d) ++ d ++ rest) = mkGetOp true op d rest.
Proof.
  intros Hop Hd. pose proof (zlen_nonneg d). pose proof (zlen_nonneg (d ++ rest)).
  pose proof (le_encode_length n (zlen d)) as Hlen.
  assert ((zlen (le_encode n (zlen d) ++ d ++ rest) <? Z.of_nat n) = false) as Hlt.
  { apply Z.ltb_ge. rewrite zlen_app. unfold zlen at 1. lia. }
  assert (take n (le_encode n (zlen d) ++ d ++ rest) = le_encode n (zlen d)) as Ht
    by (apply take_app_length'; auto).
  assert (drop n (le_encode n (zlen d) ++ d ++ rest) = d ++ rest) as Hdr
    by (apply drop_app_length'; auto).
  rewrite <- (getop_operand_data op).
  destruct Hop as [[-> ->]|[-> ->]];
    [change (Z.of_nat 2) with 2 in *|change (Z.of_nat 4) with 4 in *]; unfold GetOp2;
    cbn [Z.leb Z.ltb Z.eqb Z.compare Pos.compare Pos.compare_cont Pos.eqb OP_PUSHDATA1 OP_PUSHDATA2 OP_PUSHDATA4];
    rewrite Hlt, Ht, Hdr, le_decode_encode, Z.mod_small by (simpl; lia); reflexivity.
Qed.

(** The opcode byte [push_data] chooses. *)
Definition push_data_opcode (d : valtype) : opcodetype :=
  if zlen d <? OP_PUSHDATA1 then zlen d
  else if zlen d <=? 0xff then OP_PUSHDATA1
  else if zlen d <=? 0xffff then OP_PUSHDATA2
  else OP_PUSHDATA4.

Lemma GetOp2_pushed (d rest : list Z) :
  zlen d < 2 ^ 32 ->
  GetOp2 (push_data [] d ++ rest) = mkGetOp true (push_data_opcode d) d rest.
Proof.
  intros Hd. unfold push_data, push_data_opcode. cbn [app]. rewrite <- app_assoc.
  pose proof (zlen_nonneg d). destruct (Z.ltb_spec (zlen d) OP_PUSHDATA1) as [H1|H1].
  { unfold OP_PUSHDATA1, u8 in *. rewrite Z.mod_small by lia. apply (GetOp2_direct d rest). assumption. }
  destruct (Z.leb_spec (zlen d) 0xff).
  { unfold u8. rewrite Z.mod_small by lia. apply (getop_operand_data _ d rest). }
  destruct (Z.leb_spec (zlen d) 0xffff); cbn [app]; apply GetOp2_wide; auto; simpl; lia.
Qed.

(** reading back what [operator<<(vector)] appended returns exactly the
    pushed data with the opcode of the chosen push form, and leaves the iterator
    just behind it, for every vector whose size fits the four-byte length. *)
Theorem GetOp2_push_data (d rest : list Z) :
  zlen d < 2 ^ 32 ->
  GetOp2 (push_data [] d ++ rest) = mkGetOp true (push_data_opcode d) d rest.
Proof. apply GetOp2_pushed. Qed.

Lemma GetOp2_push_data_witness :
  GetOp2 (push_data [] (replicate 80 7) ++ [OP_DUP]) =
  mkGetOp true OP_PUSHDATA1 (replicate 80 7) [OP_DUP].
Proof. apply (GetOp2_push_data (replicate 80 7) [OP_DUP]). vm_compute. reflexivity. Defined.

(** ** A script as the list of its operations *)

Fixpoint script_ops_loop (fuel : nat) (pc : CScript) : list (list Z) * list Z :=
  match fuel with
  | O => ([], pc)
  | S fuel =>
      let r := GetOp2 pc in
      if go_ok r then
        let '(ops, tail) := script_ops_loop fuel (go_pc r) in (op_bytes pc :: ops, tail)
      else ([], pc)
  end.

(** The raw bytes of each operation and the unreadable tail. *)
Definition script_ops (s : CScript) : list (list Z) * list Z := script_ops_loop (length s) s.

Lemma script_ops_loop_fuel f1 : forall f2 pc,
  (length pc <= f1)%nat -> (length pc <= f2)%nat -> script_ops_loop f1 pc = script_ops_loop f2 pc.
Proof.
  induction f1 as [|f1 IH]; intros f2 [|b pc] H1 H2; try (simpl in *; lia).
  1,2: destruct f2; reflexivity.
  destruct f2 as [|f2]; [simpl in *; lia|]. cbn [script_ops_loop].
  pose proof (GetOp2_shorter b pc). simpl in H1, H2.
  rewrite (IH f2) by lia. reflexivity.
Qed.

Lemma script_ops_step pc :
  script_ops pc =
    if go_ok (GetOp2 pc) then
      let '(ops, tail) := script_ops (go_pc (GetOp2 pc)) in (op_bytes pc :: ops, tail)
    else ([], pc).
Proof.
  unfold script_ops. destruct pc as [|b pc]; [reflexivity|]. cbn [length script_ops_loop].
  pose proof (GetOp2_shorter b pc). rewrite (script_ops_loop_fuel (length pc) (length (go_pc (GetOp2 (b :: pc))))) by lia.
  reflexivity.
Qed.

Lemma script_ops_pushed d rest :
  zlen d < 2 ^ 32 ->
  script_ops (push_data [] d ++ rest) =
    let '(ops, tail) := script_ops rest in (push_data [] d :: ops, tail).
Proof.
  intros Hd. rewrite script_ops_step. unfold op_bytes. rewrite GetOp2_pushed by assumption.
  cbn [go_ok go_pc]. rewrite length_app, Nat.add_sub, take_app_length. reflexivity.
Qed.

Lemma starts_with_app b pc :
  (zlen b <=? zlen pc) && starts_with b pc = true <-> exists rest, pc = b ++ rest.
Proof.
  unfold starts_with. rewrite andb_true_iff, Z.leb_le, bool_decide_eq_true. split.
  - intros [_ H]. exists (drop (length b) pc). rewrite <- H at 1. symmetry. apply take_drop.
  - intros [rest ->]. rewrite zlen_app, take_app_length. pose proof (zlen_nonneg rest). split; [lia|auto].
Qed.

(** Operations that are not the push [b]. *)
Definition keep_op (b op : list Z) : bool := negb (bool_decide (op = b)).
Definition count_op (b : list Z) (ops : list (list Z)) : Z := zlen (List.filter (fun op => bool_decide (op = b)) ops).

Lemma pushed_not_nil d : push_data [] d <> [].
Proof.
  unfold push_data. cbn [app]. intros H. apply app_eq_nil in H as [H _].
  repeat case_match; discriminate.
Qed.

Section FindAndDelete.
(** A pattern that is one whole operation. *)
Context (b : list Z) (Hnil : b <> []).
Context (Hops : forall rest, script_ops (b ++ rest) = let '(ops, tail) := script_ops rest in (b :: ops, tail)).

Lemma pushed_not_prefix pc :
  (zlen b <=? zlen pc) && starts_with b pc = false ->
  go_ok (GetOp2 pc) = true -> op_bytes pc <> b.
Proof.
  intros Hs Hok Heq. apply not_true_iff_false in Hs. apply Hs, starts_with_app.
  exists (go_pc (GetOp2 pc)). rewrite <- Heq. symmetry. apply op_bytes_app.
Qed.

Lemma find_erase_spec fuel : forall pc pc' n,
  (length pc <= fuel)%nat -> find_erase fuel b pc = (pc', n) ->
  (length pc' <= length pc)%nat /\ (zlen b <=? zlen pc') && starts_with b pc' = false /\
  List.filter (keep_op b) (script_ops pc).1 = List.filter (keep_op b) (script_ops pc').1 /\
  count_op b (script_ops pc).1 = n + count_op b (script_ops pc').1 /\
  (script_ops pc).2 = (script_ops pc').2.
Proof.
  assert (0 < length b)%nat as Hb by (destruct b; [congruence|simpl; lia]).
  induction fuel as [|fuel IH]; intros pc pc' n Hlen H; cbn [find_erase] in H.
  - injection H as <- <-. repeat split; auto. destruct pc; [|simpl in Hlen; lia].
    apply andb_false_iff. left. apply Z.leb_gt. unfold zlen. simpl. lia.
  - destruct (_ && _) eqn:E; [|injection H as <- <-; auto].
    apply starts_with_app in E as [rest ->]. rewrite length_app in *.
    rewrite drop_app_length in H. destruct (find_erase fuel b rest) as [q m] eqn:Er.
    injection H as <- <-. apply IH in Er as (H1 & H2 & H3 & H4 & H5); [|lia].
    rewrite Hops.
    destruct (script_ops rest) as [ops tail]. cbn [fst snd] in *.
    unfold count_op, keep_op in *. cbn [List.filter]. rewrite bool_decide_true by reflexivity.
    cbn [negb]. zlen_simpl. repeat split; auto; lia.
Qed.

Lemma find_and_delete_loop_spec fuel : forall pc,
  (length pc < fuel)%nat ->
  find_and_delete_loop fuel b pc =
    (concat (List.filter (keep_op b) (script_ops pc).1) ++ (script_ops pc).2,
     count_op b (script_ops pc).1).
Proof.
  induction fuel as [|fuel IH]; intros pc Hlen; [lia|]. cbn [find_and_delete_loop].
  destruct (find_erase (length pc) b pc) as [q n] eqn:Ee.
  apply find_erase_spec in Ee as (H1 & H2 & H3 & H4 & H5); [|lia].
  rewrite H3, H4, H5. clear H3 H4 H5. rewrite script_ops_step.
  destruct (go_ok (GetOp2 q)) eqn:Eok; [|unfold count_op; simpl; rewrite Z.add_0_r; reflexivity].
  pose proof (pushed_not_prefix q H2 Eok) as Hne.
  destruct q as [|x q]; [discriminate|].
  pose proof (GetOp2_shorter x q) as Hs. simpl in H1.
  rewrite (IH (go_pc (GetOp2 (x :: q)))) by lia.
  destruct (script_ops (go_pc (GetOp2 (x :: q)))) as [ops tail]. cbn [fst snd].
  unfold count_op, keep_op. cbn [List.filter]. rewrite bool_decide_false by assumption.
  cbn [negb concat]. rewrite <- app_assoc. reflexivity.
Qed.

Lemma FindAndDelete_ops s :
  FindAndDelete s b = (concat (List.filter (keep_op b) (script_ops s).1) ++ (script_ops s).2, count_op b (script_ops s).1).
Proof.
  rewrite <- (find_and_delete_loop_spec (S (length s))) by lia. unfold FindAndDelete.
  generalize Hnil. clear. destruct b; [congruence|reflexivity].
Qed.

End FindAndDelete.

(** [FindAndDelete] of a pushed vector (the use [OP_CHECKSIG] makes of it)
    removes exactly the operations whose bytes are that push, keeps every other
    operation and the unreadable tail in order, and returns how many it removed. *)
Theorem FindAndDelete_spec (d : valtype) (s : CScript) :
  zlen d < 2 ^ 32 ->
  FindAndDelete s (push_data [] d) =
    (concat (List.filter (keep_op (push_data [] d)) (script_ops s).1) ++ (script_ops s).2,
     count_op (push_data [] d) (script_ops s).1).
Proof.
  intros Hd. apply FindAndDelete_ops; [apply pushed_not_nil|]. intros rest. apply script_ops_pushed, Hd.
Qed.

Lemma FindAndDelete_spec_witness :
  FindAndDelete ([OP_DUP] ++ push_data [] [7; 7] ++ [OP_HASH160; 2; 7; 7; 2; 7]) (push_data [] [7; 7])
  = ([OP_DUP; OP_HASH160; 2; 7], 2).
Proof. rewrite FindAndDelete_spec; vm_compute; reflexivity. Defined.

(** ** Sigop counting *)

(** One step's contribution in both counting modes. *)
Lemma GetSigOpCount_loop_spec fuel : forall pc last na ni,
  (length pc <= fuel)%nat -> 0 <= na <= ni -> ni + 20 * zlen pc < 2 ^ 32 ->
  exists a i,
    GetSigOpCount_loop fuel true na last pc = Ret a /\
    GetSigOpCount_loop fuel false ni last pc = Ret i /\
    0 <= a <= i /\ i <= ni + 20 * zlen pc.
Proof.
  induction fuel as [|fuel IH]; intros pc last na ni Hlen Hn Hb;
    (destruct pc as [|x pc]; [exists na, ni; repeat split; auto; unfold zlen; simpl; lia|]);
    simpl in Hlen; try lia.
  cbn [GetSigOpCount_loop]. set (r := GetOp2 (x :: pc)).
  pose proof (GetOp2_shorter x pc) as Hs. fold r in Hs. rewrite zlen_cons in Hb |- *.
  assert (zlen (go_pc r) <= zlen pc) as Hz by (unfold zlen; lia).
  destruct (negb (go_ok r)); [exists na, ni; repeat split; auto; pose proof (zlen_nonneg pc); lia|].
  assert (forall na' ni', 0 <= na' <= ni' -> ni' <= ni + 20 ->
    exists a i, GetSigOpCount_loop fuel true na' (go_opcode r) (go_pc r) = Ret a /\
    GetSigOpCount_loop fuel false ni' (go_opcode r) (go_pc r) = Ret i /\
    0 <= a <= i /\ i <= ni + 20 * (1 + zlen pc)) as Hrec.
  { intros na' ni' H1 H2. destruct (IH (go_pc r) (go_opcode r) na' ni') as (a & i & ? & ? & ? & ?); try lia.
    exists a, i. repeat split; auto; lia. }
  pose proof (zlen_nonneg pc). cbn [andb].
  destruct (_ || _); [cbn [obind]; unfold u32; rewrite !Z.mod_small by lia; apply Hrec; lia|].
  destruct (_ || _); [|cbn [obind]; apply Hrec; lia].
  destruct (_ && _) eqn:E.
  - unfold DecodeOP_N. rewrite E. bool_prop. unfold OP_1, OP_16, OP_0 in *.
    destruct (Z.eqb_spec last 0); cbn [oassert obind]; unfold u32;
      rewrite !Z.mod_small by lia; apply Hrec; lia.
  - cbn [obind]. unfold u32. rewrite !Z.mod_small by lia. apply Hrec; lia.
Qed.

(** counting signature operations never trips the assertion of
    [DecodeOP_N], terminates, and the accurate (P2SH-style) count never exceeds
    the legacy count, which is at most twenty per script byte. *)
Theorem GetSigOpCount_accurate_le (s : CScript) :
  20 * zlen s < 2 ^ 32 ->
  exists accurate legacy,
    GetSigOpCount s true = Ret accurate /\ GetSigOpCount s false = Ret legacy /\
    0 <= accurate <= legacy /\ legacy <= 20 * zlen s.
Proof. intros. apply GetSigOpCount_loop_spec; lia. Qed.

Lemma GetSigOpCount_accurate_le_witness :
  exists accurate legacy,
    GetSigOpCount [OP_2; OP_CHECKMULTISIG; OP_CHECKSIG] true = Ret accurate /\
    GetSigOpCount [OP_2; OP_CHECKMULTISIG; OP_CHECKSIG] false = Ret legacy /\
    0 <= accurate <= legacy /\ legacy <= 20 * zlen [OP_2; OP_CHECKMULTISIG; OP_CHECKSIG].
Proof. apply GetSigOpCount_accurate_le. vm_compute. reflexivity. Defined.

Example GetSigOpCount_ex :
  GetSigOpCount [OP_2; OP_CHECKMULTISIG; OP_CHECKSIG] true = Ret 3 /\
  GetSigOpCount [OP_2; OP_CHECKMULTISIG; OP_CHECKSIG] false = Ret 21.
Proof. split; reflexivity. Qed.

(** ** Push-only scripts *)

Lemma IsPushOnly_loop_fuel f1 : forall f2 pc,
  (length pc <= f1)%nat -> (length pc <= f2)%nat -> IsPushOnly_loop f1 pc = IsPushOnly_loop f2 pc.
Proof.
  induction f1 as [|f1 IH]; intros f2 [|b pc] H1 H2; try (simpl in *; lia).
  1,2: destruct f2; reflexivity.
  destruct f2 as [|f2]; [simpl in *; lia|]. cbn [IsPushOnly_loop].
  pose proof (GetOp2_shorter b pc). simpl in H1, H2.
  rewrite (IH f2) by lia. reflexivity.
Qed.

(** The loop of [IsPushOnly], one round. *)
Lemma IsPushOnly_step pc :
  IsPushOnly pc =
    match pc with
    | [] => true
    | _ => go_ok (GetOp2 pc) && (go_opcode (GetOp2 pc) <=? OP_16) && IsPushOnly (go_pc (GetOp2 pc))
    end.
Proof.
  unfold IsPushOnly. destruct pc as [|b pc]; [reflexivity|]. cbn [length IsPushOnly_loop].
  pose proof (GetOp2_shorter b pc).
  rewrite (IsPushOnly_loop_fuel (length pc) (length (go_pc (GetOp2 (b :: pc))))) by lia.
  destruct (go_ok _); [|reflexivity]. rewrite Z.leb_antisym. cbn [negb andb].
  destruct (OP_16 <? _); reflexivity.
Qed.
