(* ===== verification/SigEncoding.v ===== *)
(** * Signature and public key encodings

    The static checks of [script/SignatureCheckers.cpp] ([IsValidSignatureEncoding],
    [IsLowDERSignature], [IsDefinedHashtypeSignature], [CheckSignatureEncoding],
    [CheckPubKeyEncoding]) and the number comparison of [eccryptoverify.cpp].
    Every [sig[i]] is a checked access, so the theorems include that the code
    stays inside the vector. *)

From Stdlib Require Import ZArith Lia Bool.
From stdpp Require Import base option numbers list.
From S2P Require Import Prelude Opcodes ScriptNum Script.

Open Scope Z_scope.
Open Scope outcome_scope.

(** [v[i]]. *)
Definition rd (v : list Z) (i : Z) : outcome ScriptError Z := oaccess (v !! Z.to_nat i).

(** ** [eccryptoverify.cpp] *)

Module eccrypto.

(** The loops of [CompareBigEndian]; the pointers are the remaining bytes. *)
Fixpoint compare_same_length (c1 c2 : list Z) : Z :=
  match c1, c2 with
  | x :: c1, y :: c2 =>
      if y <? x then 1 else if x <? y then -1 else compare_same_length c1 c2
  | _, _ => 0
  end.

(** The first two loops: the excess leading bytes of the longer number; [Some] of
    the rest when they are all zero, [None] at the first non-zero one. *)
Fixpoint skip_zeros (excess : nat) (c : list Z) : option (list Z) :=
  match excess, c with
  | O, _ => Some c
  | S n, x :: c => if negb (x =? 0) then None else skip_zeros n c
  | S _, [] => Some []
  end.

Definition CompareBigEndian (c1 c2 : list Z) : Z :=
  match skip_zeros (length c1 - length c2) c1 with
  | None => 1
  | Some c1 =>
      match skip_zeros (length c2 - length c1) c2 with
      | None => -1
      | Some c2 => compare_same_length c1 c2
      end
  end.

Definition vchMaxModOrder : list Z :=
  [0xFF; 0xFF; 0xFF; 0xFF; 0xFF; 0xFF; 0xFF; 0xFF;
   0xFF; 0xFF; 0xFF; 0xFF; 0xFF; 0xFF; 0xFF; 0xFE;
   0xBA; 0xAE; 0xDC; 0xE6; 0xAF; 0x48; 0xA0; 0x3B;
   0xBF; 0xD2; 0x5E; 0x8C; 0xD0; 0x36; 0x41; 0x40].

Definition vchMaxModHalfOrder : list Z :=
  [0x7F; 0xFF; 0xFF; 0xFF; 0xFF; 0xFF; 0xFF; 0xFF;
   0xFF; 0xFF; 0xFF; 0xFF; 0xFF; 0xFF; 0xFF; 0xFF;
   0x5D; 0x57; 0x6E; 0x73; 0x57; 0xA4; 0x50; 0x1D;
   0xDF; 0xE9; 0x2F; 0x46; 0x68; 0x1B; 0x20; 0xA0].

(** [vchZero] is always passed with length 0. *)
Definition Check (vch : list Z) : bool :=
  (0 <? CompareBigEndian vch []) && (CompareBigEndian vch vchMaxModOrder <=? 0).

Definition CheckSignatureElement (vch : list Z) (half : bool) : bool :=
  (0 <? CompareBigEndian vch []) &&
  (CompareBigEndian vch (if half then vchMaxModHalfOrder else vchMaxModOrder) <=? 0).

End eccrypto.

(** ** [SignatureCheckers.cpp] *)

Definition IsCompressedOrUncompressedPubKey (vchPubKey : list Z) : outcome ScriptError bool :=
  if zlen vchPubKey <? 33 then Ret false
  else
    let* b0 := rd vchPubKey 0 in
    if b0 =? 0x04 then Ret (zlen vchPubKey =? 65)
    else if (b0 =? 0x02) || (b0 =? 0x03) then Ret (zlen vchPubKey =? 33)
    else Ret false.

Definition IsValidSignatureEncoding (sig : list Z) : outcome ScriptError bool :=
  if zlen sig <? 9 then Ret false
  else if 73 <? zlen sig then Ret false
  else
    let* b0 := rd sig 0 in
    if negb (b0 =? 0x30) then Ret false else
    let* b1 := rd sig 1 in
    if negb (b1 =? zlen sig - 3) then Ret false else
    let* lenR := rd sig 3 in
    if zlen sig <=? 5 + lenR then Ret false else
    let* lenS := rd sig (5 + lenR) in
    if negb (lenR + lenS + 7 =? zlen sig) then Ret false else
    let* b2 := rd sig 2 in
    if negb (b2 =? 0x02) then Ret false else
    if lenR =? 0 then Ret false else
    let* b4 := rd sig 4 in
    if negb (Z.land b4 0x80 =? 0) then Ret false else
    let* padR :=
      if (1 <? lenR) && (b4 =? 0x00)
      then let* b5 := rd sig 5 in Ret (Z.land b5 0x80 =? 0) else Ret false in
    if padR then Ret false else
    let* bS := rd sig (lenR + 4) in
    if negb (bS =? 0x02) then Ret false else
    if lenS =? 0 then Ret false else
    let* s0 := rd sig (lenR + 6) in
    if negb (Z.land s0 0x80 =? 0) then Ret false else
    let* padS :=
      if (1 <? lenS) && (s0 =? 0x00)
      then let* s1 := rd sig (lenR + 7) in Ret (Z.land s1 0x80 =? 0) else Ret false in
    if padS then Ret false else Ret true.

Definition IsLowDERSignature (vchSig : list Z) : outcome ScriptError unit :=
  let* valid := IsValidSignatureEncoding vchSig in
  oreject (negb valid) SCRIPT_ERR_SIG_DER ;;;
  let* nLenR := rd vchSig 3 in
  let* nLenS := rd vchSig (5 + nLenR) in
  let S_ := take (Z.to_nat nLenS) (drop (Z.to_nat (6 + nLenR)) vchSig) in
  oassert (zlen S_ =? nLenS) ;;;
  oreject (negb (eccrypto.CheckSignatureElement S_ true)) SCRIPT_ERR_SIG_HIGH_S.

Definition IsDefinedHashtypeSignature (vchSig : list Z) : bool :=
  match last vchSig with
  | None => false
  | Some b =>
      let nHashType := Z.land b (Z.lnot SIGHASH_ANYONECANPAY) in
      negb ((nHashType <? SIGHASH_ALL) || (SIGHASH_SINGLE <? nHashType))
  end.

Definition CheckSignatureEncoding (vchSig : list Z) (flags : Z) : outcome ScriptError unit :=
  if zlen vchSig =? 0 then Ret tt
  else
    let* valid :=
      if has_flag flags (Z.lor (Z.lor SCRIPT_VERIFY_DERSIG SCRIPT_VERIFY_LOW_S) SCRIPT_VERIFY_STRICTENC)
      then IsValidSignatureEncoding vchSig else Ret true in
    oreject (negb valid) SCRIPT_ERR_SIG_DER ;;;
    (if has_flag flags SCRIPT_VERIFY_LOW_S then IsLowDERSignature vchSig else Ret tt) ;;;
    oreject (has_flag flags SCRIPT_VERIFY_STRICTENC && negb (IsDefinedHashtypeSignature vchSig))
      SCRIPT_ERR_SIG_HASHTYPE.

Definition CheckPubKeyEncoding (vchPubKey : list Z) (flags : Z) : outcome ScriptError unit :=
  if has_flag flags SCRIPT_VERIFY_STRICTENC
  then let* ok := IsCompressedOrUncompressedPubKey vchPubKey in
       oreject (negb ok) SCRIPT_ERR_PUBKEYTYPE
  else Ret tt.

(** ** Accesses *)

Lemma rd_total v i : 0 <= i < zlen v -> exists b, rd v i = Ret b /\ v !! Z.to_nat i = Some b.
Proof.
  intros Hi. unfold rd, zlen in *. destruct (lookup_lt_is_Some_2 v (Z.to_nat i)) as [b Hb]; [lia|].
  exists b. rewrite Hb. auto.
Qed.

Lemma rd_cons x v i : 0 < i -> rd (x :: v) i = rd v (i - 1).
Proof.
  intros. unfold rd. replace (Z.to_nat i) with (S (Z.to_nat (i - 1))) by lia. reflexivity.
Qed.

Lemma rd_app_r v w i : 0 <= i -> rd (v ++ w) (zlen v + i) = rd w i.
Proof.
  intros. unfold rd, zlen. rewrite lookup_app_r by lia. do 2 f_equal. lia.
Qed.

Lemma rd_byte v i b : bytes_ok v -> rd v i = Ret b -> is_byte b.
Proof.
  unfold rd. intros Hok H. apply oaccess_ret_inv in H. eapply Forall_lookup_1; eauto.
Qed.

(** ** Strict DER *)

(** A DER integer: non-empty, non-negative, no redundant leading zero. *)
Definition der_int (x : list Z) : bool :=
  match x with
  | [] => false
  | h :: t => (h <? 128) && match t with [] => true | s :: _ => negb ((h =? 0) && (s <? 128)) end
  end.

(** The layout [0x30 total 0x02 lenR R 0x02 lenS S hashtype]. *)
Definition der_frame (a0 a1 a2 : Z) (R : list Z) (c : Z) (S_ : list Z) (ht : Z) : list Z :=
  a0 :: a1 :: a2 :: zlen R :: R ++ c :: zlen S_ :: S_ ++ [ht].

Lemma zlen_der_frame a0 a1 a2 R c S_ ht : zlen (der_frame a0 a1 a2 R c S_ ht) = zlen R + zlen S_ + 7.
Proof. unfold der_frame. zlen_simpl. lia. Qed.

(** Reading at [4 + k] of a frame, for [k] inside [R], and behind it. *)
Lemma rd_frame_R a0 a1 a2 R c S_ ht i :
  0 <= i < zlen R -> rd (der_frame a0 a1 a2 R c S_ ht) (4 + i) = rd R i.
Proof.
  intros Hi. unfold der_frame. rewrite !rd_cons by lia. replace (4 + i - 1 - 1 - 1 - 1) with i by lia.
  unfold rd, zlen in *. rewrite lookup_app_l by lia. reflexivity.
Qed.

Lemma rd_frame_S a0 a1 a2 R c S_ ht i :
  0 <= i -> rd (der_frame a0 a1 a2 R c S_ ht) (4 + zlen R + i) = rd (c :: zlen S_ :: S_ ++ [ht]) i.
Proof.
  intros Hi. pose proof (zlen_nonneg R). unfold der_frame. rewrite !rd_cons by lia.
  replace (4 + zlen R + i - 1 - 1 - 1 - 1) with (zlen R + i) by lia. apply rd_app_r. assumption.
Qed.

(** The sign and padding tests on an integer [h :: t], as the code nests them;
    [acc] is the access to the second byte. *)
Lemma der_int_tests h t {A} (acc : outcome ScriptError Z) (k k0 : outcome ScriptError A) :
  bytes_ok (h :: t) -> (forall s t', t = s :: t' -> acc = Ret s) ->
  (if negb (Z.land h 0x80 =? 0) then k0
   else let* pad := if (1 <? zlen (h :: t)) && (h =? 0)
                    then let* b := acc in Ret (Z.land b 0x80 =? 0) else Ret false in
        if pad then k0 else k) = if der_int (h :: t) then k else k0.
Proof.
  intros Hok Hacc. apply bytes_ok_cons in Hok as [Hh Ht]. rewrite land_0x80 by assumption.
  cbn [der_int]. destruct (Z.ltb_spec h 128); [|reflexivity]. cbn [negb andb].
  destruct t as [|s t].
  - replace (1 <? zlen [h]) with false by reflexivity. reflexivity.
  - replace (1 <? zlen (h :: s :: t)) with true
      by (symmetry; apply Z.ltb_lt; zlen_simpl; pose proof (zlen_nonneg t); lia).
    apply bytes_ok_cons in Ht as [Hs _]. cbn [andb]. destruct (h =? 0); [|reflexivity].
    rewrite (Hacc s t) by reflexivity. cbn [obind].
    rewrite land_0x80 by assumption. destruct (s <? 128); reflexivity.
Qed.

Lemma der_int_nonempty x : der_int x = true -> zlen x <> 0.
Proof. destruct x; [discriminate|]. rewrite zlen_cons. pose proof (zlen_nonneg x). lia. Qed.

(** The check on a frame is the conjunction of the format's rules. *)
Lemma IsValidSignatureEncoding_frame a0 a1 a2 R c S_ ht :
  bytes_ok R -> bytes_ok S_ -> 9 <= zlen R + zlen S_ + 7 <= 73 ->
  IsValidSignatureEncoding (der_frame a0 a1 a2 R c S_ ht) =
    Ret ((a0 =? 0x30) && (a1 =? zlen R + zlen S_ + 4) && (a2 =? 0x02) && der_int R &&
         (c =? 0x02) && der_int S_).
Proof.
  intros HR HS Hlen. unfold IsValidSignatureEncoding. rewrite zlen_der_frame.
  set (sig := der_frame a0 a1 a2 R c S_ ht). pose proof (zlen_nonneg R). pose proof (zlen_nonneg S_).
  destruct (Z.ltb_spec (zlen R + zlen S_ + 7) 9); [lia|].
  destruct (Z.ltb_spec 73 (zlen R + zlen S_ + 7)); [lia|].
  change (rd sig 0) with (Ret a0 : outcome ScriptError Z).
  change (rd sig 1) with (Ret a1 : outcome ScriptError Z).
  change (rd sig 2) with (Ret a2 : outcome ScriptError Z).
  change (rd sig 3) with (Ret (zlen R) : outcome ScriptError Z). cbn [obind].
  replace (zlen R + zlen S_ + 7 - 3) with (zlen R + zlen S_ + 4) by lia.
  destruct (a0 =? 0x30); [|reflexivity]. destruct (a1 =? _); [|reflexivity]. cbn [negb andb].
  destruct (Z.leb_spec (zlen R + zlen S_ + 7) (5 + zlen R)); [lia|].
  replace (5 + zlen R) with (4 + zlen R + 1) by lia. unfold sig at 1.
  rewrite rd_frame_S by lia. change (rd (c :: zlen S_ :: S_ ++ [ht]) 1) with (Ret (zlen S_) : outcome ScriptError Z).
  cbn [obind]. rewrite Z.eqb_refl. cbn [negb]. destruct (a2 =? 0x02); [|reflexivity]. cbn [negb andb].
  destruct R as [|r0 R']; [reflexivity|]. set (R := r0 :: R') in *.
  destruct (Z.eqb_spec (zlen R) 0) as [E|_].
  { unfold R in E. rewrite zlen_cons in E. pose proof (zlen_nonneg R'). lia. }
  assert (rd sig 4 = Ret r0) as ->.
  { apply (rd_frame_R a0 a1 a2 R c S_ ht 0). unfold R. rewrite zlen_cons. pose proof (zlen_nonneg R'). lia. }
  cbn [obind]. unfold R at 1. rewrite der_int_tests; [|exact HR|].
  2: { intros s t' ->. apply (rd_frame_R a0 a1 a2 R c S_ ht 1). unfold R. zlen_simpl.
       pose proof (zlen_nonneg t'). lia. }
  fold R. destruct (der_int R); [|reflexivity]. cbn [andb].
  assert (rd sig (zlen R + 4) = Ret c) as ->.
  { replace (zlen R + 4) with (4 + zlen R + 0) by lia. apply rd_frame_S. lia. }
  cbn [obind]. destruct (c =? 0x02); [|reflexivity]. cbn [negb andb].
  destruct S_ as [|s0 S']; [reflexivity|]. set (S_ := s0 :: S') in *.
  destruct (Z.eqb_spec (zlen S_) 0) as [E|_].
  { unfold S_ in E. rewrite zlen_cons in E. pose proof (zlen_nonneg S'). lia. }
  assert (rd sig (zlen R + 6) = Ret s0) as ->.
  { replace (zlen R + 6) with (4 + zlen R + 2) by lia. unfold sig. rewrite rd_frame_S by lia. reflexivity. }
  cbn [obind]. unfold S_ at 1. rewrite der_int_tests; [fold S_; destruct (der_int S_); reflexivity|exact HS|].
  intros s t' ->. replace (zlen R + 7) with (4 + zlen R + 3) by lia.
  unfold sig. rewrite rd_frame_S by lia. reflexivity.
Qed.

(** A vector that passes the length tests of the code is a frame. *)
Lemma der_frame_of sig lenR lenS :
  9 <= zlen sig -> rd sig 3 = Ret lenR -> 0 <= lenR -> 0 <= lenS ->
  rd sig (5 + lenR) = Ret lenS -> lenR + lenS + 7 = zlen sig ->
  exists a0 a1 a2 R c S_ ht, sig = der_frame a0 a1 a2 R c S_ ht /\ zlen R = lenR /\ zlen S_ = lenS.
Proof.
  intros H9 HR HR0 HS0 HS Hlen.
  do 4 (destruct sig as [|? sig]; [exfalso; revert H9; vm_compute; auto|]).
  injection HR as ->. rewrite !rd_cons in HS by lia. zlen_simpl.
  replace (5 + lenR - 1 - 1 - 1 - 1) with (lenR + 1) in HS by lia.
  destruct (split_at_z lenR sig) as (R & rest & -> & ER); [lia|].
  rewrite <- ER in HS at 1. rewrite rd_app_r in HS by lia. zlen_simpl.
  destruct rest as [|c rest]; [unfold rd in HS; simpl in HS; discriminate|].
  destruct rest as [|n rest]; [unfold rd in HS; simpl in HS; discriminate|].
  injection HS as ->. zlen_simpl.
  destruct rest as [|ht S_ _] using rev_ind; [zlen_simpl; lia|]. zlen_simpl.
  exists z, z0, z1, R, c, S_, ht. assert (zlen S_ = lenS) as <- by lia. rewrite <- ER. auto.
Qed.

Definition strict_der (sig : list Z) : Prop :=
  exists R S_ ht, sig = der_frame 0x30 (zlen R + zlen S_ + 4) 0x02 R 0x02 S_ ht /\
    der_int R = true /\ der_int S_ = true /\ zlen sig <= 73.

Lemma IsValidSignatureEncoding_cases sig :
  bytes_ok sig ->
  IsValidSignatureEncoding sig = Ret false \/
  (exists a0 a1 a2 R c S_ ht, sig = der_frame a0 a1 a2 R c S_ ht /\ 9 <= zlen sig <= 73).
Proof.
  intros Hok. unfold IsValidSignatureEncoding.
  destruct (Z.ltb_spec (zlen sig) 9) as [H9|H9]; [auto|].
  destruct (Z.ltb_spec 73 (zlen sig)) as [H73|H73]; [auto|].
  destruct (rd_total sig 0) as (b0 & -> & _); [lia|].
  destruct (rd_total sig 1) as (b1 & -> & _); [lia|].
  destruct (rd_total sig 3) as (lenR & E3 & _); [lia|].
  pose proof (rd_byte _ _ _ Hok E3) as HlR. unfold is_byte in HlR. rewrite E3. cbn [obind].
  destruct (negb (b0 =? 0x30)); [auto|]. destruct (negb (b1 =? zlen sig - 3)); [auto|].
  destruct (Z.leb_spec (zlen sig) (5 + lenR)) as [HR|HR]; [auto|].
  destruct (rd_total sig (5 + lenR)) as (lenS & E5 & _); [lia|].
  pose proof (rd_byte _ _ _ Hok E5) as HlS. unfold is_byte in HlS. rewrite E5. cbn [obind].
  destruct (negb (lenR + lenS + 7 =? zlen sig)) eqn:Els; [auto|]. bool_prop. right.
  destruct (der_frame_of sig lenR lenS) as (a0 & a1 & a2 & R & c & S_ & ht & E & _ & _); try assumption; try lia.
  exists a0, a1, a2, R, c, S_, ht. auto.
Qed.

Lemma bytes_ok_der_frame a0 a1 a2 R c S_ ht :
  bytes_ok (der_frame a0 a1 a2 R c S_ ht) -> bytes_ok R /\ bytes_ok S_.
Proof.
  unfold der_frame. intros Hok. repeat (apply bytes_ok_cons in Hok as [_ Hok]).
  apply bytes_ok_app in Hok as [HokR Hok]. repeat (apply bytes_ok_cons in Hok as [_ Hok]).
  apply bytes_ok_app in Hok as [HokS _]. auto.
Qed.

Lemma IsValidSignatureEncoding_strict_der sig :
  bytes_ok sig -> strict_der sig -> IsValidSignatureEncoding sig = Ret true.
Proof.
  intros Hok (R & S_ & ht & -> & HR & HS & Hlen). rewrite zlen_der_frame in Hlen.
  apply bytes_ok_der_frame in Hok as [HokR HokS].
  pose proof (der_int_nonempty _ HR). pose proof (der_int_nonempty _ HS).
  pose proof (zlen_nonneg R). pose proof (zlen_nonneg S_).
  rewrite IsValidSignatureEncoding_frame, HR, HS, !Z.eqb_refl by (auto; lia). reflexivity.
Qed.

(** The check terminates normally (no access outside the vector) and decides the
    format of the comment above the C++ function. *)
Lemma IsValidSignatureEncoding_total sig :
  bytes_ok sig ->
  exists b, IsValidSignatureEncoding sig = Ret b /\ (b = true <-> strict_der sig).
Proof.
  intros Hok. destruct (IsValidSignatureEncoding_cases sig Hok) as [E|(a0 & a1 & a2 & R & c & S_ & ht & E & Hlen)].
  - exists false. split; [assumption|]. split; [discriminate|].
    intros Hd. rewrite (IsValidSignatureEncoding_strict_der sig Hok Hd) in E. congruence.
  - pose proof (bytes_ok_der_frame a0 a1 a2 R c S_ ht) as Hb. rewrite <- E in Hb.
    destruct (Hb Hok) as [HokR HokS]. pose proof Hlen as Hlen'. rewrite E, zlen_der_frame in Hlen'.
    pose proof (IsValidSignatureEncoding_frame a0 a1 a2 R c S_ ht HokR HokS Hlen') as Hv.
    rewrite <- E in Hv. eexists. split; [exact Hv|]. split.
    + intros Ht. bool_prop. subst a0 a1 a2 c. exists R, S_, ht. repeat split; try assumption; lia.
    + intros Hd. rewrite (IsValidSignatureEncoding_strict_der sig Hok Hd) in Hv. congruence.
Qed.

(** the strict-DER check of a signature reads only inside the vector and
    accepts exactly the byte strings of the documented layout: [0x30], the
    length of what follows without the hash type, two canonical non-negative
    integers each behind [0x02] and its length, and one hash-type byte, at most
    73 bytes in all. *)
Theorem IsValidSignatureEncoding_spec (sig : list Z) :
  bytes_ok sig ->
  exists b, IsValidSignatureEncoding sig = Ret b /\ (b = true <-> strict_der sig).
Proof. apply IsValidSignatureEncoding_total. Qed.

Definition sample_sig : list Z := der_frame 0x30 7 0x02 [0x01] 0x02 [0x00; 0x80] SIGHASH_ALL.

Lemma IsValidSignatureEncoding_spec_witness :
  bytes_ok sample_sig /\
  exists b, IsValidSignatureEncoding sample_sig = Ret b /\ (b = true <-> strict_der sample_sig).
Proof.
  assert (bytes_ok sample_sig) as Hok by (apply (bool_decide_unpack (bytes_ok sample_sig)); vm_compute; exact I).
  split; [exact Hok|]. apply IsValidSignatureEncoding_spec. exact Hok.
Defined.

(** ** Big-endian comparison *)

Lemma be_decode_cons x l : be_decode (x :: l) = x * 2 ^ (8 * zlen l) + be_decode l.
Proof.
  unfold be_decode. cbn [rev]. rewrite le_decode_app. cbn [le_decode].
  unfold zlen. rewrite length_rev. ring.
Qed.

Lemma be_decode_bound l : bytes_ok l -> 0 <= be_decode l < 2 ^ (8 * zlen l).
Proof.
  intros H. unfold be_decode. replace (zlen l) with (zlen (rev l)) by (unfold zlen; rewrite length_rev; auto).
  apply le_decode_bound. apply Forall_rev. assumption.
Qed.

Definition cmp_sign (c : comparison) : Z := match c with Lt => -1 | Eq => 0 | Gt => 1 end.

Lemma compare_same_length_spec c1 : forall c2,
  bytes_ok c1 -> bytes_ok c2 -> length c1 = length c2 ->
  eccrypto.compare_same_length c1 c2 = cmp_sign (be_decode c1 ?= be_decode c2).
Proof.
  induction c1 as [|x c1 IH]; intros [|y c2] H1 H2 Hlen; try discriminate; [reflexivity|].
  apply bytes_ok_cons in H1 as [Hx H1]. apply bytes_ok_cons in H2 as [Hy H2].
  cbn [eccrypto.compare_same_length]. rewrite !be_decode_cons.
  injection Hlen as Hlen. replace (zlen c2) with (zlen c1) by (unfold zlen; lia).
  pose proof (be_decode_bound _ H1) as B1. pose proof (be_decode_bound _ H2) as B2.
  replace (zlen c2) with (zlen c1) in B2 by (unfold zlen; lia).
  destruct (Z.ltb_spec y x).
  { replace (_ ?= _) with Gt; [reflexivity|]. symmetry. apply Z.compare_gt_iff. nia. }
  destruct (Z.ltb_spec x y).
  { replace (_ ?= _) with Lt; [reflexivity|]. symmetry. apply Z.compare_lt_iff. nia. }
  rewrite IH by assumption. replace y with x by lia. rewrite Z.add_compare_mono_l. reflexivity.
Qed.

Lemma skip_zeros_spec n : forall c,
  bytes_ok c -> (n <= length c)%nat ->
  match eccrypto.skip_zeros n c with
  | Some c' => bytes_ok c' /\ be_decode c' = be_decode c /\ length c' = (length c - n)%nat
  | None => 2 ^ (8 * Z.of_nat (length c - n)) <= be_decode c
  end.
Proof.
  induction n as [|n IH]; intros c Hok Hlen; cbn [eccrypto.skip_zeros].
  { repeat split; auto; lia. }
  destruct c as [|x c]; [simpl in Hlen; lia|].
  pose proof Hok as Hok0. apply bytes_ok_cons in Hok as [Hx Hok]. unfold is_byte in Hx.
  pose proof (be_decode_bound _ Hok) as Bc. rewrite be_decode_cons. simpl length in *.
  destruct (Z.eqb_spec x 0) as [->|Hnz]; cbn [negb].
  - specialize (IH c Hok ltac:(lia)). rewrite Z.mul_0_l, Z.add_0_l. exact IH.
  - pose proof (Z.pow_le_mono_r 2 (8 * Z.of_nat (S (length c) - S n)) (8 * zlen c)).
    unfold zlen in *. nia.
Qed.

(** [CompareBigEndian] is the comparison of the numbers, whatever the lengths. *)
Lemma CompareBigEndian_spec c1 c2 :
  bytes_ok c1 -> bytes_ok c2 ->
  eccrypto.CompareBigEndian c1 c2 = cmp_sign (be_decode c1 ?= be_decode c2).
Proof.
  intros H1 H2. unfold eccrypto.CompareBigEndian.
  pose proof (be_decode_bound _ H1) as B1. pose proof (be_decode_bound _ H2) as B2.
  pose proof (skip_zeros_spec (length c1 - length c2) c1 H1 ltac:(lia)) as S1.
  destruct (eccrypto.skip_zeros _ c1) as [c1'|].
  - destruct S1 as (Hok1 & E1 & L1).
    pose proof (skip_zeros_spec (length c2 - length c1') c2 H2 ltac:(lia)) as S2.
    destruct (eccrypto.skip_zeros _ c2) as [c2'|].
    + destruct S2 as (Hok2 & E2 & L2). rewrite <- E1, <- E2.
      apply compare_same_length_spec; auto; lia.
    + pose proof (be_decode_bound _ Hok1) as B1'. unfold zlen in *.
      replace (length c2 - (length c2 - length c1'))%nat with (length c1') in S2 by lia.
      replace (_ ?= _) with Lt; [reflexivity|]. symmetry. apply Z.compare_lt_iff. lia.
  - unfold zlen in *. destruct (Nat.le_gt_cases (length c1) (length c2)).
    { replace (length c1 - (length c1 - length c2))%nat with (length c1) in S1 by lia. lia. }
    replace (length c1 - (length c1 - length c2))%nat with (length c2) in S1 by lia.
    replace (_ ?= _) with Gt; [reflexivity|]. symmetry. apply Z.compare_gt_iff. lia.
Qed.

(** The order of the secp256k1 group. *)
Definition secp256k1_order : Z := 0xFFFFFFFFFFFFFFFFFFFFFFFFFFFFFFFEBAAEDCE6AF48A03BBFD25E8CD0364141.

Lemma CheckSignatureElement_spec vch (half : bool) :
  bytes_ok vch ->
  eccrypto.CheckSignatureElement vch half = true <->
  1 <= be_decode vch <= (if half then (secp256k1_order - 1) / 2 else secp256k1_order - 1).
Proof.
  intros Hok. unfold eccrypto.CheckSignatureElement.
  assert (bytes_ok (if half then eccrypto.vchMaxModHalfOrder else eccrypto.vchMaxModOrder)) as Hm.
  { destruct half; apply (bool_decide_unpack (bytes_ok _)); vm_compute; exact I. }
  rewrite !CompareBigEndian_spec by (auto; constructor).
  replace (be_decode (if half then eccrypto.vchMaxModHalfOrder else eccrypto.vchMaxModOrder))
    with (if half then (secp256k1_order - 1) / 2 else secp256k1_order - 1)
    by (destruct half; vm_compute; reflexivity).
  change (be_decode []) with 0. set (m := if half then _ else _).
  pose proof (be_decode_bound _ Hok).
  destruct (Z.compare_spec (be_decode vch) 0), (Z.compare_spec (be_decode vch) m);
    cbn [cmp_sign andb Z.ltb Z.leb Z.compare]; split; intros; try discriminate; try reflexivity; try lia.
Qed.

Lemma IsLowDERSignature_frame a0 a1 a2 R c S_ ht :
  let sig := der_frame a0 a1 a2 R c S_ ht in
  bytes_ok sig -> IsValidSignatureEncoding sig = Ret true ->
  IsLowDERSignature sig = oreject (negb (eccrypto.CheckSignatureElement S_ true)) SCRIPT_ERR_SIG_HIGH_S.
Proof.
  intros sig Hok Hv. unfold IsLowDERSignature. rewrite Hv. cbn [obind negb oreject].
  change (rd sig 3) with (Ret (zlen R) : outcome ScriptError Z). cbn [obind].
  pose proof (zlen_nonneg R). pose proof (zlen_nonneg S_).
  replace (rd sig (5 + zlen R)) with (Ret (zlen S_) : outcome ScriptError Z).
  2: { replace (5 + zlen R) with (4 + zlen R + 1) by lia. unfold sig. rewrite rd_frame_S by lia. reflexivity. }
  cbn [obind].
  replace (drop (Z.to_nat (6 + zlen R)) sig) with (S_ ++ [ht]).
  2: { unfold sig, der_frame. replace (Z.to_nat (6 + zlen R)) with (4 + (length R + 2))%nat by (unfold zlen; lia).
       cbn [Nat.add drop]. rewrite <- drop_drop, drop_app_length. reflexivity. }
  replace (take (Z.to_nat (zlen S_)) (S_ ++ [ht])) with S_
    by (unfold zlen; rewrite Nat2Z.id, take_app_length; reflexivity).
  rewrite Z.eqb_refl. reflexivity.
Qed.

Lemma IsLowDERSignature_total (sig : list Z) :
  bytes_ok sig ->
  (IsLowDERSignature sig = Ret tt /\
     exists R S_ ht, sig = der_frame 0x30 (zlen R + zlen S_ + 4) 0x02 R 0x02 S_ ht /\
       strict_der sig /\ 1 <= be_decode S_ <= (secp256k1_order - 1) / 2) \/
  (IsLowDERSignature sig = Err SCRIPT_ERR_SIG_DER /\ ~ strict_der sig) \/
  (IsLowDERSignature sig = Err SCRIPT_ERR_SIG_HIGH_S /\
     exists R S_ ht, sig = der_frame 0x30 (zlen R + zlen S_ + 4) 0x02 R 0x02 S_ ht /\
       strict_der sig /\ ~ (1 <= be_decode S_ <= (secp256k1_order - 1) / 2)).
Proof.
  intros Hok. destruct (IsValidSignatureEncoding_total sig Hok) as (b & Hv & Hiff).
  destruct b.
  - destruct (proj1 Hiff eq_refl) as (R & S_ & ht & E & HR & HS & Hl).
    assert (strict_der sig) as Hsd by (exists R, S_, ht; auto).
    pose proof (IsLowDERSignature_frame 0x30 (zlen R + zlen S_ + 4) 0x02 R 0x02 S_ ht) as Hf.
    cbv zeta in Hf. rewrite <- E in Hf. rewrite (Hf Hok Hv).
    assert (bytes_ok S_) as HokS by (apply (bytes_ok_der_frame 0x30 (zlen R + zlen S_ + 4) 0x02 R 0x02 S_ ht); congruence).
    pose proof (CheckSignatureElement_spec S_ true HokS) as Hc. cbv iota in Hc.
    destruct (eccrypto.CheckSignatureElement S_ true); cbn [negb oreject]; [left|right; right];
      (split; [reflexivity|]); exists R, S_, ht; (split; [assumption|split; [assumption|]]).
    + apply Hc. reflexivity.
    + intros Hr. apply Hc in Hr. discriminate.
  - right; left. unfold IsLowDERSignature. rewrite Hv. cbn [obind negb oreject].
    split; [reflexivity|]. intros Hd. apply Hiff in Hd. discriminate.
Qed.

(** the low-S rule accepts a signature exactly when it is strict DER and its
    S value, as an integer, lies in [1 .. (n-1)/2] for the secp256k1 group order
    n; otherwise it fails with [SIG_DER] or [SIG_HIGH_S], never outside the
    vector. *)
Theorem IsLowDERSignature_spec (sig : list Z) :
  bytes_ok sig ->
  (IsLowDERSignature sig = Ret tt /\
     exists R S_ ht, sig = der_frame 0x30 (zlen R + zlen S_ + 4) 0x02 R 0x02 S_ ht /\
       strict_der sig /\ 1 <= be_decode S_ <= (secp256k1_order - 1) / 2) \/
  (IsLowDERSignature sig = Err SCRIPT_ERR_SIG_DER /\ ~ strict_der sig) \/
  (IsLowDERSignature sig = Err SCRIPT_ERR_SIG_HIGH_S /\
     exists R S_ ht, sig = der_frame 0x30 (zlen R + zlen S_ + 4) 0x02 R 0x02 S_ ht /\
       strict_der sig /\ ~ (1 <= be_decode S_ <= (secp256k1_order - 1) / 2)).
Proof. apply IsLowDERSignature_total. Qed.

Lemma IsLowDERSignature_spec_witness :
  (IsLowDERSignature sample_sig = Ret tt /\
     exists R S_ ht, sample_sig = der_frame 0x30 (zlen R + zlen S_ + 4) 0x02 R 0x02 S_ ht /\
       strict_der sample_sig /\ 1 <= be_decode S_ <= (secp256k1_order - 1) / 2) \/
  (IsLowDERSignature sample_sig = Err SCRIPT_ERR_SIG_DER /\ ~ strict_der sample_sig) \/
  (IsLowDERSignature sample_sig = Err SCRIPT_ERR_SIG_HIGH_S /\
     exists R S_ ht, sample_sig = der_frame 0x30 (zlen R + zlen S_ + 4) 0x02 R 0x02 S_ ht /\
       strict_der sample_sig /\ ~ (1 <= be_decode S_ <= (secp256k1_order - 1) / 2)).
Proof.
  apply IsLowDERSignature_spec. apply (bool_decide_unpack (bytes_ok sample_sig)). vm_compute. exact I.
Defined.

(** ** The checks are defined on every byte vector *)

Lemma CheckSignatureEncoding_safe sig flags :
  bytes_ok sig -> safe (fun _ => True) (CheckSignatureEncoding sig flags).
Proof.
  intros Hok. unfold CheckSignatureEncoding. case_match; [exact I|].
  destruct (IsValidSignatureEncoding_total sig Hok) as (b & Hv & _).
  apply safe_bind with (P := fun _ => True); [case_match; rewrite ?Hv; exact I|]. intros valid _.
  eapply safe_bind; [apply safe_reject|]. intros [] _. eapply safe_bind with (P := fun _ => True).
  - case_match; [|exact I].
    destruct (IsLowDERSignature_total sig Hok) as [[-> _]|[[-> _]|[-> _]]]; exact I.
  - intros [] _. eapply safe_weaken; [apply safe_reject|auto].
Qed.

Lemma CheckPubKeyEncoding_safe pk flags : safe (fun _ => True) (CheckPubKeyEncoding pk flags).
Proof.
  unfold CheckPubKeyEncoding, IsCompressedOrUncompressedPubKey. case_match; [|exact I].
  destruct (Z.ltb_spec (zlen pk) 33); [exact I|].
  destruct (rd_total pk 0) as (b & -> & _); [lia|]. cbn [obind].
  repeat case_match; cbn [obind]; (eapply safe_weaken; [apply safe_reject|auto]).
Qed.
