(* ===== verification/StackManager.v ===== *)
(** * The script machine: [script/StackManager.h] and [script/StackManager.cpp]

    The two value stacks, the conditional scopes, the operation counter and one
    handler per [StackOperator] subclass, dispatched by [ApplyOpcode].

    A [StackType] is a C++ vector used at its end; here it is the list of its
    elements from the back, so the head is [back()], [push_back] is cons and
    [stackTop(depth)] is lookup at [depth].  Every [stackTop], [pop_back], [erase]
    and [insert] is a checked access: out of range is [Undef]. *)

From Stdlib Require Import ZArith Lia Bool.
From stdpp Require Import base option numbers list.
From S2P Require Import Prelude Opcodes ScriptNum Script SigEncoding.

Open Scope Z_scope.
Open Scope outcome_scope.

(** ** What the machine needs from its surroundings *)

(** The hash functions of [crypto/]: the operators use their digests and rely on
    the digest sizes. *)
Class ScriptHashes := {
  RIPEMD160 : list Z -> list Z;
  SHA1 : list Z -> list Z;
  SHA256 : list Z -> list Z;
  RIPEMD160_size : forall m, zlen (RIPEMD160 m) = 20;
  SHA1_size : forall m, zlen (SHA1 m) = 20;
  SHA256_size : forall m, zlen (SHA256 m) = 32;
  RIPEMD160_bytes : forall m, bytes_ok (RIPEMD160 m);
  SHA1_bytes : forall m, bytes_ok (SHA1 m);
  SHA256_bytes : forall m, bytes_ok (SHA256 m)
}.

(** The virtual functions of [BaseSignatureChecker]. *)
Record BaseSignatureChecker := {
  CheckSig : valtype -> valtype -> CScript -> bool;
  CheckCoinstake : bool
}.

Abbreviation StackType := (list (list Z)) (only parsing).

Definition MAXIMUM_NUMBER_OF_OPCODES : Z := 201.

(** [Helpers::CastToBool]: [i] is the index of the head of [vch]. *)
Fixpoint CastToBool (vch : valtype) : bool :=
  match vch with
  | [] => false
  | b :: rest =>
      if negb (b =? 0) then negb (bool_decide (rest = []) && (b =? 0x80))
      else CastToBool rest
  end.

Definition vchFalse : valtype := [].
Definition vchTrue : valtype := [1].
Definition vch_of_bool (b : bool) : valtype := if b then vchTrue else vchFalse.

(** ** Conditional scopes *)

Record ConditionalScopeStackManager := mkCond {
  conditionalScopeReadStatusStack : list bool;
  conditionalScopeNeedsClosing : bool
}.

Definition cond_init : ConditionalScopeStackManager := mkCond [] false.

Definition CheckConditionalScopeStatus (c : ConditionalScopeStackManager) : ConditionalScopeStackManager :=
  mkCond (conditionalScopeReadStatusStack c)
    (negb (zlen (List.filter negb (conditionalScopeReadStatusStack c)) =? 0)).

Definition StackIsEmpty (c : ConditionalScopeStackManager) : bool :=
  match conditionalScopeReadStatusStack c with [] => true | _ => false end.

Definition ConditionalScopeNeedsClosing (c : ConditionalScopeStackManager) : bool :=
  conditionalScopeNeedsClosing c.

Definition OpenScope (c : ConditionalScopeStackManager) (conditionStatus : bool) : ConditionalScopeStackManager :=
  mkCond (conditionStatus :: conditionalScopeReadStatusStack c)
    (conditionalScopeNeedsClosing c || negb conditionStatus).

(** [TryElse] and [TryCLoseScope]: [None] is [return false]. *)
Definition TryElse (c : ConditionalScopeStackManager) : option ConditionalScopeStackManager :=
  match conditionalScopeReadStatusStack c with
  | [] => None
  | b :: st => Some (CheckConditionalScopeStatus (mkCond (negb b :: st) (conditionalScopeNeedsClosing c)))
  end.

Definition TryCLoseScope (c : ConditionalScopeStackManager) : option ConditionalScopeStackManager :=
  match conditionalScopeReadStatusStack c with
  | [] => None
  | _ :: st => Some (CheckConditionalScopeStatus (mkCond st (conditionalScopeNeedsClosing c)))
  end.

(** ** The state the operators share *)

Record StackOperationManager := mkManager {
  stack_ : StackType;
  altstack_ : StackType;
  conditionalManager_ : ConditionalScopeStackManager;
  opCount_ : Z
}.

Definition manager_init (stack : StackType) : StackOperationManager := mkManager stack [] cond_init 0.

Definition with_stack (m : StackOperationManager) (st : StackType) : StackOperationManager :=
  mkManager st (altstack_ m) (conditionalManager_ m) (opCount_ m).
Definition with_stacks (m : StackOperationManager) (st alt : StackType) : StackOperationManager :=
  mkManager st alt (conditionalManager_ m) (opCount_ m).
Definition with_cond (m : StackOperationManager) (c : ConditionalScopeStackManager) : StackOperationManager :=
  mkManager (stack_ m) (altstack_ m) c (opCount_ m).
Definition with_opCount (m : StackOperationManager) (n : Z) : StackOperationManager :=
  mkManager (stack_ m) (altstack_ m) (conditionalManager_ m) n.

Definition result := outcome ScriptError.

(** Vector primitives. *)
Definition stackTop (st : StackType) (depth : Z) : result valtype :=
  if depth <? 0 then Undef else oaccess (st !! Z.to_nat depth).

Definition pop_back (st : StackType) : result StackType :=
  match st with [] => Undef | _ :: st => Ret st end.

(** [stack_.erase(stack_.end() - depth - 1)]. *)
Definition erase_at (st : StackType) (depth : Z) : result StackType :=
  if (depth <? 0) || (zlen st <=? depth) then Undef
  else Ret (take (Z.to_nat depth) st ++ drop (S (Z.to_nat depth)) st).

(** [stack_.insert(stack_.end() - depth, v)]. *)
Definition insert_at (st : StackType) (depth : Z) (v : valtype) : result StackType :=
  if (depth <? 0) || (zlen st <? depth) then Undef
  else Ret (take (Z.to_nat depth) st ++ v :: drop (Z.to_nat depth) st).

(** [swap(stackTop(i), stackTop(j))]. *)
Definition stack_swap (st : StackType) (i j : Z) : result StackType :=
  let* a := stackTop st i in
  let* b := stackTop st j in
  Ret (<[Z.to_nat j := a]> (<[Z.to_nat i := b]> st)).

(** [if (stack_.size() < n) return set_error(serror, SCRIPT_ERR_INVALID_STACK_OPERATION);] *)
Definition require_size (st : StackType) (n : Z) : result unit :=
  oreject (zlen st <? n) SCRIPT_ERR_INVALID_STACK_OPERATION.

(** Members of an enumerated set. *)
Definition op_in (opcode : opcodetype) (l : list opcodetype) : bool := existsb (Z.eqb opcode) l.

(** ** The operators *)

Section Operators.
Context {SH : ScriptHashes}.
Variable flags : Z.

Definition fRequireMinimal_ : bool := has_flag flags SCRIPT_VERIFY_MINIMALDATA.

(** [CHash160] and [CHash256] of [hash.h]. *)
Definition op_hash160 (m : list Z) : list Z := RIPEMD160 (SHA256 m).
Definition op_hash256 (m : list Z) : list Z := SHA256 (SHA256 m).

Definition DisabledOp (m : StackOperationManager) : result StackOperationManager :=
  oreject (has_flag flags SCRIPT_VERIFY_DISCOURAGE_UPGRADABLE_NOPS) SCRIPT_ERR_DISCOURAGE_UPGRADABLE_NOPS ;;;
  Ret m.

Definition PushValueOp (opcode : opcodetype) (m : StackOperationManager) : result StackOperationManager :=
  let bn := mkScriptNum (opcode - (OP_1 - 1)) in
  Ret (with_stack m (getvch bn :: stack_ m)).

Definition ConditionalOp (opcode : opcodetype) (m : StackOperationManager) : result StackOperationManager :=
  if (opcode =? OP_IF) || (opcode =? OP_NOTIF) then
    if negb (ConditionalScopeNeedsClosing (conditionalManager_ m)) then
      oreject (zlen (stack_ m) <? 1) SCRIPT_ERR_UNBALANCED_CONDITIONAL ;;;
      let* vch := stackTop (stack_ m) 0 in
      let fValue := CastToBool vch in
      let fValue := if opcode =? OP_NOTIF then negb fValue else fValue in
      let* st := pop_back (stack_ m) in
      Ret (with_cond (with_stack m st) (OpenScope (conditionalManager_ m) fValue))
    else Ret (with_cond m (OpenScope (conditionalManager_ m) false))
  else if opcode =? OP_ELSE then
    match TryElse (conditionalManager_ m) with
    | None => Err SCRIPT_ERR_UNBALANCED_CONDITIONAL
    | Some c => Ret (with_cond m c)
    end
  else if opcode =? OP_ENDIF then
    match TryCLoseScope (conditionalManager_ m) with
    | None => Err SCRIPT_ERR_UNBALANCED_CONDITIONAL
    | Some c => Ret (with_cond m c)
    end
  else Ret m.

Definition StackModificationOp (opcode : opcodetype) (m : StackOperationManager) : result StackOperationManager :=
  let st := stack_ m in
  if opcode =? OP_TOALTSTACK then
    require_size st 1 ;;;
    let* v := stackTop st 0 in
    let* st := pop_back st in
    Ret (with_stacks m st (v :: altstack_ m))
  else if opcode =? OP_FROMALTSTACK then
    oreject (zlen (altstack_ m) <? 1) SCRIPT_ERR_INVALID_ALTSTACK_OPERATION ;;;
    let* v := stackTop (altstack_ m) 0 in
    let* alt := pop_back (altstack_ m) in
    Ret (with_stacks m (v :: st) alt)
  else if opcode =? OP_2DROP then
    require_size st 2 ;;;
    let* st := pop_back st in
    let* st := pop_back st in
    Ret (with_stack m st)
  else if opcode =? OP_2DUP then
    require_size st 2 ;;;
    let* vch1 := stackTop st 1 in
    let* vch2 := stackTop st 0 in
    Ret (with_stack m (vch2 :: vch1 :: st))
  else if opcode =? OP_3DUP then
    require_size st 3 ;;;
    let* vch1 := stackTop st 2 in
    let* vch2 := stackTop st 1 in
    let* vch3 := stackTop st 0 in
    Ret (with_stack m (vch3 :: vch2 :: vch1 :: st))
  else if opcode =? OP_2OVER then
    require_size st 4 ;;;
    let* vch1 := stackTop st 3 in
    let* vch2 := stackTop st 2 in
    Ret (with_stack m (vch2 :: vch1 :: st))
  else if opcode =? OP_2ROT then
    require_size st 6 ;;;
    let* vch1 := stackTop st 5 in
    let* vch2 := stackTop st 4 in
    let* st := erase_at st 5 in
    let* st := erase_at st 4 in
    Ret (with_stack m (vch2 :: vch1 :: st))
  else if opcode =? OP_2SWAP then
    require_size st 4 ;;;
    let* st := stack_swap st 3 1 in
    let* st := stack_swap st 2 0 in
    Ret (with_stack m st)
  else if opcode =? OP_IFDUP then
    require_size st 1 ;;;
    let* vch := stackTop st 0 in
    Ret (if CastToBool vch then with_stack m (vch :: st) else m)
  else if opcode =? OP_DEPTH then
    let bn := mkScriptNum (zlen st) in
    Ret (with_stack m (getvch bn :: st))
  else if opcode =? OP_DROP then
    require_size st 1 ;;;
    let* st := pop_back st in
    Ret (with_stack m st)
  else if opcode =? OP_DUP then
    require_size st 1 ;;;
    let* vch := stackTop st 0 in
    Ret (with_stack m (vch :: st))
  else if opcode =? OP_NIP then
    require_size st 2 ;;;
    let* st := erase_at st 1 in
    Ret (with_stack m st)
  else if opcode =? OP_OVER then
    require_size st 2 ;;;
    let* vch := stackTop st 1 in
    Ret (with_stack m (vch :: st))
  else if (opcode =? OP_PICK) || (opcode =? OP_ROLL) then
    require_size st 2 ;;;
    let* top := stackTop st 0 in
    let* bn := CScriptNum_of_vch top fRequireMinimal_ in
    let n := getint bn in
    let* st := pop_back st in
    oreject ((n <? 0) || (zlen st <=? n)) SCRIPT_ERR_INVALID_STACK_OPERATION ;;;
    let* vch := stackTop st n in
    let* st := if opcode =? OP_ROLL then erase_at st n else Ret st in
    Ret (with_stack m (vch :: st))
  else if opcode =? OP_ROT then
    require_size st 3 ;;;
    let* st := stack_swap st 2 1 in
    let* st := stack_swap st 1 0 in
    Ret (with_stack m st)
  else if opcode =? OP_SWAP then
    require_size st 2 ;;;
    let* st := stack_swap st 1 0 in
    Ret (with_stack m st)
  else if opcode =? OP_TUCK then
    require_size st 2 ;;;
    let* vch := stackTop st 0 in
    let* st := insert_at st 2 vch in
    Ret (with_stack m st)
  else if opcode =? OP_SIZE then
    require_size st 1 ;;;
    let* vch := stackTop st 0 in
    let bn := mkScriptNum (zlen vch) in
    Ret (with_stack m (getvch bn :: st))
  else Ret m.

Definition EqualityVerificationOp (opcode : opcodetype) (m : StackOperationManager) : result StackOperationManager :=
  let* m :=
    if opcode =? OP_VERIFY then
      require_size (stack_ m) 1 ;;;
      let* v := stackTop (stack_ m) 0 in
      if CastToBool v then let* st := pop_back (stack_ m) in Ret (with_stack m st)
      else Err SCRIPT_ERR_VERIFY
    else Ret m in
  if (opcode =? OP_EQUAL) || (opcode =? OP_EQUALVERIFY) then
    require_size (stack_ m) 2 ;;;
    let* vch1 := stackTop (stack_ m) 1 in
    let* vch2 := stackTop (stack_ m) 0 in
    let fEqual := bool_decide (vch1 = vch2) in
    let* st := pop_back (stack_ m) in
    let* st := pop_back st in
    let st := vch_of_bool fEqual :: st in
    if opcode =? OP_EQUALVERIFY then
      if fEqual then let* st := pop_back st in Ret (with_stack m st)
      else Err SCRIPT_ERR_EQUALVERIFY
    else Ret (with_stack m st)
  else Ret m.

Definition MetadataOp (m : StackOperationManager) : result StackOperationManager := Err SCRIPT_ERR_OP_META.

Definition num_of_bool (b : bool) : CScriptNum := mkScriptNum (if b then 1 else 0).

Definition UnaryNumericOp (opcode : opcodetype) (m : StackOperationManager) : result StackOperationManager :=
  require_size (stack_ m) 1 ;;;
  let* v := stackTop (stack_ m) 0 in
  let* bn := CScriptNum_of_vch v fRequireMinimal_ in
  let* bn :=
    if opcode =? OP_1ADD then num_add_assign bn (m_value bnOne)
    else if opcode =? OP_1SUB then num_sub_assign bn (m_value bnOne)
    else if opcode =? OP_NEGATE then num_neg bn
    else if opcode =? OP_ABS then (if m_value bn <? m_value bnZero then num_neg bn else Ret bn)
    else if opcode =? OP_NOT then Ret (num_of_bool (m_value bn =? m_value bnZero))
    else if opcode =? OP_0NOTEQUAL then Ret (num_of_bool (negb (m_value bn =? m_value bnZero)))
    else Err SCRIPT_ERR_UNKNOWN_ERROR in
  let* st := pop_back (stack_ m) in
  Ret (with_stack m (getvch bn :: st)).

Definition BinaryNumericOp (opcode : opcodetype) (m : StackOperationManager) : result StackOperationManager :=
  require_size (stack_ m) 2 ;;;
  let* v1 := stackTop (stack_ m) 1 in
  let* bn1 := CScriptNum_of_vch v1 fRequireMinimal_ in
  let* v2 := stackTop (stack_ m) 0 in
  let* bn2 := CScriptNum_of_vch v2 fRequireMinimal_ in
  let x := m_value bn1 in
  let y := m_value bn2 in
  let* bn :=
    if opcode =? OP_ADD then num_add bn1 bn2
    else if opcode =? OP_SUB then num_sub bn1 bn2
    else if opcode =? OP_BOOLAND then Ret (num_of_bool (negb (x =? 0) && negb (y =? 0)))
    else if opcode =? OP_BOOLOR then Ret (num_of_bool (negb (x =? 0) || negb (y =? 0)))
    else if opcode =? OP_NUMEQUAL then Ret (num_of_bool (x =? y))
    else if opcode =? OP_NUMEQUALVERIFY then Ret (num_of_bool (x =? y))
    else if opcode =? OP_NUMNOTEQUAL then Ret (num_of_bool (negb (x =? y)))
    else if opcode =? OP_LESSTHAN then Ret (num_of_bool (x <? y))
    else if opcode =? OP_GREATERTHAN then Ret (num_of_bool (y <? x))
    else if opcode =? OP_LESSTHANOREQUAL then Ret (num_of_bool (x <=? y))
    else if opcode =? OP_GREATERTHANOREQUAL then Ret (num_of_bool (y <=? x))
    else if opcode =? OP_MIN then Ret (if x <? y then bn1 else bn2)
    else if opcode =? OP_MAX then Ret (if y <? x then bn1 else bn2)
    else Err SCRIPT_ERR_UNKNOWN_ERROR in
  let* st := pop_back (stack_ m) in
  let* st := pop_back st in
  let st := getvch bn :: st in
  if opcode =? OP_NUMEQUALVERIFY then
    let* top := stackTop st 0 in
    if CastToBool top then let* st := pop_back st in Ret (with_stack m st)
    else Err SCRIPT_ERR_NUMEQUALVERIFY
  else Ret (with_stack m st).

Definition NumericBoundsOp (m : StackOperationManager) : result StackOperationManager :=
  require_size (stack_ m) 3 ;;;
  let* v1 := stackTop (stack_ m) 2 in
  let* bn1 := CScriptNum_of_vch v1 fRequireMinimal_ in
  let* v2 := stackTop (stack_ m) 1 in
  let* bn2 := CScriptNum_of_vch v2 fRequireMinimal_ in
  let* v3 := stackTop (stack_ m) 0 in
  let* bn3 := CScriptNum_of_vch v3 fRequireMinimal_ in
  let fValue := (m_value bn2 <=? m_value bn1) && (m_value bn1 <? m_value bn3) in
  let* st := pop_back (stack_ m) in
  let* st := pop_back st in
  let* st := pop_back st in
  Ret (with_stack m (vch_of_bool fValue :: st)).

Definition HashingOp (opcode : opcodetype) (m : StackOperationManager) : result StackOperationManager :=
  require_size (stack_ m) 1 ;;;
  let* vch := stackTop (stack_ m) 0 in
  let vchHash :=
    if opcode =? OP_RIPEMD160 then RIPEMD160 vch
    else if opcode =? OP_SHA1 then SHA1 vch
    else if opcode =? OP_SHA256 then SHA256 vch
    else if opcode =? OP_HASH160 then op_hash160 vch
    else if opcode =? OP_HASH256 then op_hash256 vch
    else replicate 32 0 in
  let* st := pop_back (stack_ m) in
  Ret (with_stack m (vchHash :: st)).

(** ** Signature checks *)

Variable checker : BaseSignatureChecker.

Definition CheckSigOp (opcode : opcodetype) (scriptCode : CScript) (m : StackOperationManager) :
    result StackOperationManager :=
  require_size (stack_ m) 2 ;;;
  let* vchSig := stackTop (stack_ m) 1 in
  let* vchPubKey := stackTop (stack_ m) 0 in
  let scriptCode := (FindAndDelete scriptCode (push_data [] vchSig)).1 in
  CheckSignatureEncoding vchSig flags ;;;
  CheckPubKeyEncoding vchPubKey flags ;;;
  let fSuccess := CheckSig checker vchSig vchPubKey scriptCode in
  let* st := pop_back (stack_ m) in
  let* st := pop_back st in
  let st := vch_of_bool fSuccess :: st in
  if opcode =? OP_CHECKSIGVERIFY then
    if fSuccess then let* st := pop_back st in Ret (with_stack m st)
    else Err SCRIPT_ERR_CHECKSIGVERIFY
  else Ret (with_stack m st).

(** [for (int k = 0; k < nSigsCount; k++) scriptCode.FindAndDelete(...)];
    [k] counts up to [nSigsCount]. *)
Fixpoint drop_signatures (todo : nat) (k isig : Z) (st : StackType) (scriptCode : CScript) : result CScript :=
  match todo with
  | O => Ret scriptCode
  | S todo =>
      let* vchSig := stackTop st (isig + k - 1) in
      drop_signatures todo (k + 1) isig st (FindAndDelete scriptCode (push_data [] vchSig)).1
  end.

(** [while (fSuccess && nSigsCount > 0)]; every round consumes a key, so one more
    than the number of keys is enough fuel. *)
Fixpoint multisig_loop (fuel : nat) (st : StackType) (scriptCode : CScript)
    (isig ikey nSigsCount nKeysCount : Z) : result bool :=
  if negb (0 <? nSigsCount) then Ret true
  else
    match fuel with
    | O => Undef
    | S fuel =>
        let* vchSig := stackTop st (isig - 1) in
        let* vchPubKey := stackTop st (ikey - 1) in
        CheckSignatureEncoding vchSig flags ;;;
        CheckPubKeyEncoding vchPubKey flags ;;;
        let fOk := CheckSig checker vchSig vchPubKey scriptCode in
        let isig := if fOk then isig + 1 else isig in
        let nSigsCount := if fOk then nSigsCount - 1 else nSigsCount in
        let ikey := ikey + 1 in
        let nKeysCount := nKeysCount - 1 in
        if nKeysCount <? nSigsCount then Ret false
        else multisig_loop fuel st scriptCode isig ikey nSigsCount nKeysCount
    end.

(** [while (i-- > 1) stack_.pop_back();] *)
Fixpoint pop_times (n : nat) (st : StackType) : result StackType :=
  match n with
  | O => Ret st
  | S n => let* st := pop_back st in pop_times n st
  end.

Definition CheckMultiSigOp (opcode : opcodetype) (scriptCode : CScript) (m : StackOperationManager) :
    result StackOperationManager :=
  let st := stack_ m in
  let i := 1 in
  require_size st 1 ;;;
  let* v := stackTop st (i - 1) in
  let* bn := CScriptNum_of_vch v fRequireMinimal_ in
  let nKeysCount := getint bn in
  oreject ((nKeysCount <? 0) || (20 <? nKeysCount)) SCRIPT_ERR_PUBKEY_COUNT ;;;
  let m := with_opCount m (u32 (opCount_ m + nKeysCount)) in
  oreject (MAXIMUM_NUMBER_OF_OPCODES <? opCount_ m) SCRIPT_ERR_OP_COUNT ;;;
  let i := i + 1 in
  let ikey := i in
  let i := i + nKeysCount in
  require_size st i ;;;
  let* v := stackTop st (i - 1) in
  let* bn := CScriptNum_of_vch v fRequireMinimal_ in
  let nSigsCount := getint bn in
  oreject ((nSigsCount <? 0) || (nKeysCount <? nSigsCount)) SCRIPT_ERR_SIG_COUNT ;;;
  let i := i + 1 in
  let isig := i in
  let i := i + nSigsCount in
  require_size st i ;;;
  let* scriptCode := drop_signatures (Z.to_nat nSigsCount) 0 isig st scriptCode in
  let* fSuccess := multisig_loop (S (Z.to_nat nKeysCount)) st scriptCode isig ikey nSigsCount nKeysCount in
  let* st := pop_times (Z.to_nat (i - 1)) st in
  require_size st 1 ;;;
  let* dummy := stackTop st 0 in
  oreject (has_flag flags SCRIPT_VERIFY_NULLDUMMY && negb (zlen dummy =? 0)) SCRIPT_ERR_SIG_NULLDUMMY ;;;
  let* st := pop_back st in
  let st := vch_of_bool fSuccess :: st in
  if opcode =? OP_CHECKMULTISIGVERIFY then
    if fSuccess then let* st := pop_back st in Ret (with_stack m st)
    else Err SCRIPT_ERR_CHECKMULTISIGVERIFY
  else Ret (with_stack m st).

Definition SignatureCheckOp (opcode : opcodetype) (scriptCode : CScript) (m : StackOperationManager) :
    result StackOperationManager :=
  if (opcode =? OP_CHECKSIG) || (opcode =? OP_CHECKSIGVERIFY) then CheckSigOp opcode scriptCode m
  else if (opcode =? OP_CHECKMULTISIG) || (opcode =? OP_CHECKMULTISIGVERIFY) then CheckMultiSigOp opcode scriptCode m
  else Ret m.

Definition CoinstakeCheckOp (m : StackOperationManager) : result StackOperationManager :=
  let success := CheckCoinstake checker in
  let st := vch_of_bool success :: stack_ m in
  if negb success then Err SCRIPT_ERR_VERIFY
  else let* st := pop_back st in Ret (with_stack m st).

(** ** Dispatch *)

Definition upgradableOpCodes : list opcodetype :=
  [OP_NOP1; OP_NOP2; OP_NOP3; OP_NOP4; OP_NOP5; OP_NOP6; OP_NOP7; OP_NOP8; OP_NOP9; OP_NOP10].
Definition simpleValueOpCodes : list opcodetype :=
  [OP_1NEGATE; OP_1; OP_2; OP_3; OP_4; OP_5; OP_6; OP_7; OP_8;
   OP_9; OP_10; OP_11; OP_12; OP_13; OP_14; OP_15; OP_16].
Definition conditionalOpCodes : list opcodetype := [OP_IF; OP_NOTIF; OP_ELSE; OP_ENDIF].
Definition stackModificationOpCodes : list opcodetype :=
  [OP_TOALTSTACK; OP_FROMALTSTACK; OP_2DROP; OP_2DUP; OP_3DUP; OP_2OVER; OP_2ROT;
   OP_2SWAP; OP_IFDUP; OP_DEPTH; OP_DROP; OP_DUP; OP_NIP; OP_OVER; OP_PICK; OP_ROLL;
   OP_ROT; OP_SWAP; OP_TUCK; OP_SIZE].
Definition equalityAndVerificationOpCodes : list opcodetype := [OP_EQUAL; OP_EQUALVERIFY; OP_VERIFY].
Definition unaryNumericOpCodes : list opcodetype :=
  [OP_1ADD; OP_1SUB; OP_NEGATE; OP_ABS; OP_NOT; OP_0NOTEQUAL].
Definition binaryNumericOpCodes : list opcodetype :=
  [OP_ADD; OP_SUB; OP_BOOLAND; OP_BOOLOR; OP_NUMEQUAL; OP_NUMEQUALVERIFY; OP_NUMNOTEQUAL;
   OP_LESSTHAN; OP_GREATERTHAN; OP_LESSTHANOREQUAL; OP_GREATERTHANOREQUAL; OP_MIN; OP_MAX].
Definition hashingOpCodes : list opcodetype :=
  [OP_RIPEMD160; OP_SHA1; OP_SHA256; OP_HASH160; OP_HASH256].
Definition checkSigOpcodes : list opcodetype :=
  [OP_CHECKSIG; OP_CHECKSIGVERIFY; OP_CHECKMULTISIG; OP_CHECKMULTISIGVERIFY].

Definition ApplyOpcode (opcode : opcodetype) (m : StackOperationManager) : result StackOperationManager :=
  if has_flag flags SCRIPT_REQUIRE_COINSTAKE && (opcode =? OP_REQUIRE_COINSTAKE) then CoinstakeCheckOp m
  else if opcode =? OP_META then MetadataOp m
  else if opcode =? OP_WITHIN then NumericBoundsOp m
  else if op_in opcode upgradableOpCodes then DisabledOp m
  else if op_in opcode simpleValueOpCodes then PushValueOp opcode m
  else if op_in opcode conditionalOpCodes then ConditionalOp opcode m
  else if op_in opcode stackModificationOpCodes then StackModificationOp opcode m
  else if op_in opcode equalityAndVerificationOpCodes then EqualityVerificationOp opcode m
  else if op_in opcode unaryNumericOpCodes then UnaryNumericOp opcode m
  else if op_in opcode binaryNumericOpCodes then BinaryNumericOp opcode m
  else if op_in opcode hashingOpCodes then HashingOp opcode m
  else Err SCRIPT_ERR_BAD_OPCODE.

(** The overload with the script code. *)
Definition ApplyOpcode_script (opcode : opcodetype) (scriptCode : CScript) (m : StackOperationManager) :
    result StackOperationManager :=
  if op_in opcode checkSigOpcodes then SignatureCheckOp opcode scriptCode m
  else Err SCRIPT_ERR_INVALID_STACK_OPERATION.

(** ** [StackOperationManager] *)

Definition ApplyOp (opcode : opcodetype) (m : StackOperationManager) : result StackOperationManager :=
  ApplyOpcode opcode m.
Definition ApplyOp_script (opcode : opcodetype) (scriptCode : CScript) (m : StackOperationManager) :
    result StackOperationManager :=
  ApplyOpcode_script opcode scriptCode m.

End Operators.

(** [return (++opCount_ <= MAXIMUM_NUMBER_OF_OPCODES)]: the flag and the new state. *)
Definition ReserveAdditionalOp (m : StackOperationManager) : bool * StackOperationManager :=
  let m := with_opCount m (u32 (opCount_ m + 1)) in
  (opCount_ m <=? MAXIMUM_NUMBER_OF_OPCODES, m).

Definition PushData (m : StackOperationManager) (stackElement : valtype) : StackOperationManager :=
  with_stack m (stackElement :: stack_ m).

Definition ConditionalNeedsClosing (m : StackOperationManager) : bool :=
  ConditionalScopeNeedsClosing (conditionalManager_ m).
Definition ConditionalScopeIsBalanced (m : StackOperationManager) : bool :=
  StackIsEmpty (conditionalManager_ m).
Definition TotalStackSize (m : StackOperationManager) : Z := zlen (stack_ m) + zlen (altstack_ m).

Definition OpcodeIsDisabled (opcode : opcodetype) : bool :=
  (opcode =? OP_CAT) || (opcode =? OP_SUBSTR) || (opcode =? OP_LEFT) || (opcode =? OP_RIGHT) ||
  (opcode =? OP_INVERT) || (opcode =? OP_AND) || (opcode =? OP_OR) || (opcode =? OP_XOR) ||
  (opcode =? OP_2MUL) || (opcode =? OP_2DIV) || (opcode =? OP_MUL) || (opcode =? OP_DIV) ||
  (opcode =? OP_MOD) || (opcode =? OP_LSHIFT) || (opcode =? OP_RSHIFT).
