(* ===== verification/Interpreter.v ===== *)
(** * The interpreter: [EvalScript] and [VerifyScript] of [script/interpreter.cpp]

    The [while (pc < pend)] loop of [EvalScript] is [eval_loop] over
    [eval_step]; iterators are script suffixes.  A C++ exception inside the loop
    (only [scriptnum_error] can arise) is caught and becomes
    [SCRIPT_ERR_UNKNOWN_ERROR].  A failed call returns its error code; the stack
    it leaves behind is not part of the result, since every caller discards it. *)

From Stdlib Require Import ZArith Lia Bool.
From stdpp Require Import base option numbers list.
From S2P Require Import Prelude Opcodes ScriptNum Script SigEncoding StackManager.

Open Scope Z_scope.
Open Scope outcome_scope.

Definition CheckMinimalPush (data : valtype) (opcode : opcodetype) : bool :=
  let b0 := default 0 (data !! 0%nat) in
  if zlen data =? 0 then opcode =? OP_0
  else if (zlen data =? 1) && (1 <=? b0) && (b0 <=? 16) then opcode =? OP_1 + (b0 - 1)
  else if (zlen data =? 1) && (b0 =? 0x81) then opcode =? OP_1NEGATE
  else if zlen data <=? 75 then opcode =? zlen data
  else if zlen data <=? 255 then opcode =? OP_PUSHDATA1
  else if zlen data <=? 65535 then opcode =? OP_PUSHDATA2
  else true.

(** [throw runtime_error("popstack() : stack empty")]. *)
Definition popstack (st : StackType) : result StackType :=
  match st with [] => Throw | _ :: st => Ret st end.

Section Eval.
Context {SH : ScriptHashes}.
Variable flags : Z.
Variable checker : BaseSignatureChecker.

(** The iterators and the manager: [pc], [pbegincodehash], [stackManager]. *)
Record eval_state := mkEval { ev_pc : CScript; ev_begincodehash : CScript; ev_manager : StackOperationManager }.

(** The [switch (opcode)] of the loop; [pc] is already behind the operation. *)
Definition eval_switch (opcode : opcodetype) (pc pbegincodehash : CScript) (m : StackOperationManager) :
    result eval_state :=
  if opcode =? OP_NOP then Ret (mkEval pc pbegincodehash m)
  else if opcode =? OP_CODESEPARATOR then Ret (mkEval pc pc m)
  else if (opcode =? OP_CHECKSIG) || (opcode =? OP_CHECKSIGVERIFY) ||
          (opcode =? OP_CHECKMULTISIG) || (opcode =? OP_CHECKMULTISIGVERIFY) then
    let scriptCode := pbegincodehash in
    let* m := ApplyOp_script flags checker opcode scriptCode m in
    Ret (mkEval pc pbegincodehash m)
  else
    let* m := ApplyOp flags checker opcode m in
    Ret (mkEval pc pbegincodehash m).

(** One round of the loop. *)
Definition eval_step (s : eval_state) : result eval_state :=
  let r := GetOp2 (ev_pc s) in
  let opcode := go_opcode r in
  let vchPushValue := go_vch r in
  let pc := go_pc r in
  oreject (negb (go_ok r)) SCRIPT_ERR_BAD_OPCODE ;;;
  oreject (MAX_SCRIPT_ELEMENT_SIZE <? zlen vchPushValue) SCRIPT_ERR_PUSH_SIZE ;;;
  let* m :=
    if OP_16 <? opcode
    then let '(within, m) := ReserveAdditionalOp (ev_manager s) in
         oreject (negb within) SCRIPT_ERR_OP_COUNT ;;; Ret m
    else Ret (ev_manager s) in
  oreject (OpcodeIsDisabled opcode) SCRIPT_ERR_DISABLED_OPCODE ;;;
  let* s :=
    if negb (ConditionalNeedsClosing m) && (0 <=? opcode) && (opcode <=? OP_PUSHDATA4) then
      oreject (has_flag flags SCRIPT_VERIFY_MINIMALDATA && negb (CheckMinimalPush vchPushValue opcode))
        SCRIPT_ERR_MINIMALDATA ;;;
      Ret (mkEval pc (ev_begincodehash s) (PushData m vchPushValue))
    else if negb (ConditionalNeedsClosing m) || ((OP_IF <=? opcode) && (opcode <=? OP_ENDIF)) then
      eval_switch opcode pc (ev_begincodehash s) m
    else Ret (mkEval pc (ev_begincodehash s) m) in
  oreject (1000 <? TotalStackSize (ev_manager s)) SCRIPT_ERR_STACK_SIZE ;;;
  Ret s.

(** Every round consumes at least the opcode byte: the script's length is
    enough fuel. *)
Fixpoint eval_loop (fuel : nat) (s : eval_state) : result StackOperationManager :=
  match ev_pc s, fuel with
  | [], _ => Ret (ev_manager s)
  | _, O => Undef
  | _, S fuel => let* s := eval_step s in eval_loop fuel s
  end.

(** [catch (...)]. *)
Definition catch_all {A} (r : result A) : result A :=
  match r with
  | Throw => Err SCRIPT_ERR_UNKNOWN_ERROR
  | r => r
  end.

Definition EvalScript (stack : StackType) (script : CScript) : result StackType :=
  oreject (10000 <? zlen script) SCRIPT_ERR_SCRIPT_SIZE ;;;
  let* m := catch_all (eval_loop (length script) (mkEval script script (manager_init stack))) in
  oreject (negb (ConditionalScopeIsBalanced m)) SCRIPT_ERR_UNBALANCED_CONDITIONAL ;;;
  Ret (stack_ m).

(** [stack.empty()] or a false top element: [SCRIPT_ERR_EVAL_FALSE]. *)
Definition require_true (stack : StackType) : result unit :=
  match stack with
  | [] => Err SCRIPT_ERR_EVAL_FALSE
  | top :: _ => oreject (negb (CastToBool top)) SCRIPT_ERR_EVAL_FALSE
  end.

Definition VerifyScript (scriptSig scriptPubKey : CScript) : result unit :=
  oreject (has_flag flags SCRIPT_VERIFY_SIGPUSHONLY && negb (IsPushOnly scriptSig)) SCRIPT_ERR_SIG_PUSHONLY ;;;
  let* stack := EvalScript [] scriptSig in
  let stackCopy := if has_flag flags SCRIPT_VERIFY_P2SH then stack else [] in
  let* stack := EvalScript stack scriptPubKey in
  require_true stack ;;;
  if has_flag flags SCRIPT_VERIFY_P2SH && IsPayToScriptHash scriptPubKey then
    oreject (negb (IsPushOnly scriptSig)) SCRIPT_ERR_SIG_PUSHONLY ;;;
    let* pubKeySerialized := oaccess (head stackCopy) in
    let pubKey2 := pubKeySerialized in
    let* stackCopy := popstack stackCopy in
    let* stackCopy := EvalScript stackCopy pubKey2 in
    require_true stackCopy
  else Ret tt.

End Eval.
