(* ===== verification/ScriptSafety.v ===== *)
(** * Safety of the script machine

    The invariant of [StackOperationManager] and its preservation by every
    operator: no operator reads or removes outside a stack, no assertion fails,
    stack elements stay within 520 bytes, the operation count within 201 and the
    cached "needs closing" flag agrees with the scopes. *)

From Stdlib Require Import ZArith Lia Bool.
From stdpp Require Import base option numbers list.
From S2P Require Import Prelude Opcodes ScriptNum Script SigEncoding StackManager Interpreter.

Open Scope Z_scope.
Open Scope outcome_scope.

Definition elem_ok (v : valtype) : Prop := bytes_ok v /\ zlen v <= MAX_SCRIPT_ELEMENT_SIZE.

(** The flag caches "some open scope is not taken". *)
Definition cond_ok (c : ConditionalScopeStackManager) : Prop :=
  conditionalScopeNeedsClosing c = existsb negb (conditionalScopeReadStatusStack c).

Record manager_ok (m : StackOperationManager) : Prop := mkOk {
  ok_stack : Forall elem_ok (stack_ m);
  ok_altstack : Forall elem_ok (altstack_ m);
  ok_cond : cond_ok (conditionalManager_ m);
  ok_opCount : 0 <= opCount_ m <= MAXIMUM_NUMBER_OF_OPCODES
}.

(** ** Conditional scopes *)

Lemma count_false_existsb l : negb (zlen (List.filter negb l) =? 0) = existsb negb l.
Proof.
  induction l as [|[] l IH]; cbn [List.filter existsb negb orb]; [reflexivity|exact IH|].
  rewrite zlen_cons. pose proof (zlen_nonneg (List.filter negb l)).
  destruct (Z.eqb_spec (1 + zlen (List.filter negb l)) 0); [lia|reflexivity].
Qed.

Lemma CheckConditionalScopeStatus_ok c : cond_ok (CheckConditionalScopeStatus c).
Proof. unfold cond_ok, CheckConditionalScopeStatus. cbn. apply count_false_existsb. Qed.

Lemma OpenScope_ok c b : cond_ok c -> cond_ok (OpenScope c b).
Proof. unfold cond_ok, OpenScope. cbn. intros ->. apply orb_comm. Qed.

Lemma TryElse_ok c c' : TryElse c = Some c' -> cond_ok c'.
Proof. unfold TryElse. case_match; [discriminate|]. intros [= <-]. apply CheckConditionalScopeStatus_ok. Qed.

Lemma TryCLoseScope_ok c c' : TryCLoseScope c = Some c' -> cond_ok c'.
Proof. unfold TryCLoseScope. case_match; [discriminate|]. intros [= <-]. apply CheckConditionalScopeStatus_ok. Qed.

(** ** Elements *)

Lemma elem_ok_num n : INT64_MIN < m_value n <= INT64_MAX -> elem_ok (getvch n).
Proof.
  intros H. split; [apply getvch_bytes; assumption|].
  pose proof (serialize_length (m_value n)). unfold getvch, MAX_SCRIPT_ELEMENT_SIZE. lia.
Qed.

Lemma elem_ok_bool b : elem_ok (vch_of_bool b).
Proof.
  destruct b; split; try (apply (bool_decide_unpack (bytes_ok _)); vm_compute; exact I);
    vm_compute; congruence.
Qed.

Section Hashes.
Context {SH : ScriptHashes}.
Lemma elem_ok_RIPEMD160 v : elem_ok (RIPEMD160 v).
Proof. split; [apply RIPEMD160_bytes|]. rewrite RIPEMD160_size. unfold MAX_SCRIPT_ELEMENT_SIZE. lia. Qed.
Lemma elem_ok_SHA1 v : elem_ok (SHA1 v).
Proof. split; [apply SHA1_bytes|]. rewrite SHA1_size. unfold MAX_SCRIPT_ELEMENT_SIZE. lia. Qed.
Lemma elem_ok_SHA256 v : elem_ok (SHA256 v).
Proof. split; [apply SHA256_bytes|]. rewrite SHA256_size. unfold MAX_SCRIPT_ELEMENT_SIZE. lia. Qed.
End Hashes.

#[export] Hint Resolve elem_ok_bool elem_ok_RIPEMD160 elem_ok_SHA1 elem_ok_SHA256 OpenScope_ok
  TryElse_ok TryCLoseScope_ok : divi.

(** ** Vector primitives *)

Lemma stackTop_safe st d :
  Forall elem_ok st -> 0 <= d < zlen st -> safe elem_ok (stackTop st d).
Proof.
  intros Hst Hd. unfold stackTop. destruct (Z.ltb_spec d 0); [lia|].
  destruct (lookup_lt_is_Some_2 st (Z.to_nat d)) as [v Hv]; [unfold zlen in Hd; lia|].
  rewrite Hv. simpl. eapply Forall_lookup_1; eauto.
Qed.

Lemma erase_at_safe st d :
  Forall elem_ok st -> 0 <= d < zlen st -> safe (Forall elem_ok) (erase_at st d).
Proof.
  intros Hst Hd. unfold erase_at. destruct (Z.ltb_spec d 0); [lia|].
  destruct (Z.leb_spec (zlen st) d); [lia|]. simpl.
  apply Forall_app; split; [apply Forall_take|apply Forall_drop]; assumption.
Qed.

Lemma erase_at_ret st d :
  0 <= d < zlen st -> erase_at st d = Ret (take (Z.to_nat d) st ++ drop (S (Z.to_nat d)) st).
Proof.
  intros. unfold erase_at. destruct (Z.ltb_spec d 0); [lia|].
  destruct (Z.leb_spec (zlen st) d); [lia|]. reflexivity.
Qed.

Lemma insert_at_ret st d v :
  0 <= d <= zlen st -> insert_at st d v = Ret (take (Z.to_nat d) st ++ v :: drop (Z.to_nat d) st).
Proof.
  intros. unfold insert_at. destruct (Z.ltb_spec d 0); [lia|].
  destruct (Z.ltb_spec (zlen st) d); [lia|]. reflexivity.
Qed.
#[global] Arguments erase_at : simpl never.
#[global] Arguments insert_at : simpl never.

Lemma safe_require {A} (Q : A -> Prop) st n (k : result A) :
  (n <= zlen st -> safe Q k) -> safe Q (require_size st n ;;; k).
Proof.
  intros H. unfold require_size. destruct (Z.ltb_spec (zlen st) n); simpl; auto.
Qed.

Lemma safe_oreject {A} (Q : A -> Prop) c e (k : result A) :
  (c = false -> safe Q k) -> safe Q (oreject c e ;;; k).
Proof. destruct c; simpl; auto. Qed.

Lemma zlen_peel {A} n (x : A) l : n <= zlen (x :: l) -> n - 1 <= zlen l.
Proof. rewrite zlen_cons. lia. Qed.

(** Split off as many elements as a size test has established. *)
Ltac peel :=
  repeat match goal with
  | H : Z.pos ?p <= zlen ?st |- _ =>
      is_var st; destruct st;
      [ exfalso; revert H; vm_compute; congruence
      | apply zlen_peel in H; let n := eval vm_compute in (Z.pos p - 1) in
        change (Z.pos p - 1) with n in H ]
  end.

(** Establish the invariant of a state built from invariant parts. *)
Ltac solve_ok :=
  constructor; cbn [stack_ altstack_ conditionalManager_ opCount_ with_stack with_stacks with_cond with_opCount];
  decompose_Forall_hyps; repeat (apply Forall_cons; split);
  try assumption; auto with divi.

Section Safety.
Context {SH : ScriptHashes}.
Variable flags : Z.
Variable checker : BaseSignatureChecker.

Ltac op_start m := intros [Hst Halt Hc Hn]; destruct m as [st alt c k]; cbn [stack_ altstack_ conditionalManager_ opCount_] in *.

Lemma DisabledOp_safe m : manager_ok m -> safe manager_ok (DisabledOp flags m).
Proof. intros H. unfold DisabledOp. apply safe_oreject. auto. Qed.

Lemma PushValueOp_safe opcode m :
  0 <= opcode < 256 -> manager_ok m -> safe manager_ok (PushValueOp opcode m).
Proof.
  intros Hop. op_start m. simpl. solve_ok. apply elem_ok_num. unfold INT64_MIN, INT64_MAX, OP_1. simpl. lia.
Qed.

Lemma ConditionalOp_safe opcode m : manager_ok m -> safe manager_ok (ConditionalOp opcode m).
Proof.
  op_start m. unfold ConditionalOp.
  destruct (_ || _).
  { destruct (negb _); cbn [stack_ conditionalManager_].
    - apply safe_oreject. intros Hs. apply Z.ltb_ge in Hs. peel. simpl. solve_ok.
    - simpl. solve_ok. }
  destruct (_ =? _).
  { cbn [conditionalManager_]. destruct (TryElse c) eqn:E; simpl; [solve_ok|exact I].
    eapply TryElse_ok; eauto. }
  destruct (_ =? _); [|simpl; solve_ok].
  cbn [conditionalManager_]. destruct (TryCLoseScope c) eqn:E; simpl; [solve_ok|exact I].
  eapply TryCLoseScope_ok; eauto.
Qed.

(** A branch that tests the size, reads, removes and pushes at fixed depths. *)
Ltac fixed_depth :=
  (apply safe_require || apply safe_oreject || idtac); intros;
  bool_prop; peel; simpl;
  repeat (rewrite erase_at_ret by (zlen_simpl; lia); simpl; rewrite ?drop_0);
  rewrite ?insert_at_ret by (zlen_simpl; lia); simpl; rewrite ?drop_0; try case_match; solve_ok.

Lemma PickRoll_safe (roll : bool) st alt c k :
  manager_ok (mkManager st alt c k) ->
  safe manager_ok
    (let m := mkManager st alt c k in
     require_size st 2 ;;;
     let* top := stackTop st 0 in
     let* bn := CScriptNum_of_vch top (fRequireMinimal_ flags) in
     let n := getint bn in
     let* st := pop_back st in
     oreject ((n <? 0) || (zlen st <=? n)) SCRIPT_ERR_INVALID_STACK_OPERATION ;;;
     let* vch := stackTop st n in
     let* st := if roll then erase_at st n else Ret st in
     Ret (with_stack m (vch :: st))).
Proof.
  intros [Hst Halt Hc Hn]. cbn [stack_ altstack_ conditionalManager_ opCount_] in *.
  apply safe_require. intros Hs. destruct st as [|top st]; [vm_compute in Hs; congruence|].
  apply Forall_cons in Hst as [Htop Hst].
  change (stackTop (top :: st) 0) with (Ret top : result (list Z)). cbn [obind pop_back].
  eapply safe_bind; [apply CScriptNum_of_vch_range, Htop|]. intros bn _.
  apply safe_oreject. intros Hr. bool_prop.
  eapply safe_bind; [apply stackTop_safe; [assumption|lia]|]. intros v Hv.
  eapply safe_bind with (P := Forall elem_ok).
  - destruct roll; [apply erase_at_safe; [assumption|lia]|assumption].
  - intros st' Hst'. simpl. solve_ok.
Qed.

Lemma StackModificationOp_safe opcode m :
  zlen (stack_ m) < 2 ^ 32 -> manager_ok m -> safe manager_ok (StackModificationOp flags opcode m).
Proof.
  intros Hsz Hok. pose proof Hok as Hok'. revert Hok'. op_start m.
  unfold StackModificationOp. cbn [stack_ altstack_].
  repeat match goal with
  | |- safe _ (if (opcode =? OP_PICK) || _ then _ else _) => destruct ((opcode =? OP_PICK) || _) eqn:?; [apply PickRoll_safe; assumption|]
  | |- safe _ (if opcode =? OP_DEPTH then _ else _) => destruct (opcode =? OP_DEPTH)
  | |- safe _ (if opcode =? OP_SIZE then _ else _) => destruct (opcode =? OP_SIZE)
  | |- safe _ (if ?b then _ else _) => destruct b; [solve [fixed_depth]|]
  end.
  - simpl. solve_ok. apply elem_ok_num. unfold INT64_MIN, INT64_MAX. simpl. pose proof (zlen_nonneg st). lia.
  - apply safe_require. intros. peel. simpl. solve_ok. apply elem_ok_num.
    unfold INT64_MIN, INT64_MAX, elem_ok, MAX_SCRIPT_ELEMENT_SIZE in *. simpl. pose proof (zlen_nonneg l). lia.
  - simpl. solve_ok.
Qed.

Lemma EqualityVerificationOp_safe opcode m :
  manager_ok m -> safe manager_ok (EqualityVerificationOp opcode m).
Proof.
  intros Hok. unfold EqualityVerificationOp. apply safe_bind with (P := manager_ok).
  - revert Hok. op_start m. destruct (_ =? _); [|constructor; assumption].
    apply safe_require. intros. peel. simpl. case_match; [|exact I]. simpl. solve_ok.
  - clear m Hok. intros m. op_start m. destruct (_ || _); [|constructor; assumption].
    apply safe_require. intros. peel. simpl. repeat case_match; simpl; try exact I; solve_ok.
Qed.

Lemma safe_number {A} (Q : A -> Prop) v (k : CScriptNum -> result A) :
  elem_ok v -> (forall n, - 2 ^ 31 < m_value n < 2 ^ 31 -> safe Q (k n)) ->
  safe Q (let* n := CScriptNum_of_vch v (fRequireMinimal_ flags) in k n).
Proof. intros [Hv _] Hk. eapply safe_bind; [apply CScriptNum_of_vch_range, Hv|exact Hk]. Qed.

Definition int64_num (n : CScriptNum) : Prop := INT64_MIN < m_value n <= INT64_MAX.

Lemma int64_num_of_bool b : int64_num (num_of_bool b).
Proof. destruct b; vm_compute; split; congruence. Qed.

(** The checked operators on 31-bit operands pass their assertions. *)
Ltac num_result :=
  repeat case_match; cbn [safe]; try exact I; try apply int64_num_of_bool;
  unfold num_neg, num_add_assign, num_sub_assign, num_add, num_sub, in_int64, oassert, int64_num,
    INT64_MAX, INT64_MIN in *; cbn [obind safe m_value bnOne bnZero] in *;
  try lia;
  match goal with |- context [if ?b then _ else _] => replace b with true by lia end;
  cbn [obind safe m_value]; lia.

Lemma UnaryNumericOp_safe opcode m : manager_ok m -> safe manager_ok (UnaryNumericOp flags opcode m).
Proof.
  op_start m. unfold UnaryNumericOp. apply safe_require. cbn [stack_]. intros. peel.
  apply Forall_cons in Hst as [Hv Hst].
  change (stackTop (l :: st) 0) with (Ret l : result (list Z)). cbn [obind].
  apply safe_number; [assumption|]. intros n Hn'.
  apply safe_bind with (P := int64_num); [num_result|]. intros bn Hbn. simpl. solve_ok.
  apply elem_ok_num. assumption.
Qed.

Lemma BinaryNumericOp_safe opcode m : manager_ok m -> safe manager_ok (BinaryNumericOp flags opcode m).
Proof.
  op_start m. unfold BinaryNumericOp. apply safe_require. cbn [stack_]. intros. peel.
  apply Forall_cons in Hst as [Hv Hst]. apply Forall_cons in Hst as [Hv0 Hst].
  change (stackTop (l :: l0 :: st) 0) with (Ret l : result (list Z)).
  change (stackTop (l :: l0 :: st) 1) with (Ret l0 : result (list Z)). cbn [obind].
  apply safe_number; [assumption|]. intros n1 Hn1. apply safe_number; [assumption|]. intros n2 Hn2.
  apply safe_bind with (P := int64_num); [num_result|]. intros bn Hbn.
  pose proof (elem_ok_num bn Hbn). cbn [pop_back obind].
  destruct (_ =? _); [|simpl; solve_ok]. simpl. case_match; simpl; [solve_ok|exact I].
Qed.

Lemma NumericBoundsOp_safe m : manager_ok m -> safe manager_ok (NumericBoundsOp flags m).
Proof.
  op_start m. unfold NumericBoundsOp. apply safe_require. cbn [stack_]. intros. peel.
  repeat (apply Forall_cons in Hst as [? Hst]).
  change (stackTop (l :: l0 :: l1 :: st) 0) with (Ret l : result (list Z)).
  change (stackTop (l :: l0 :: l1 :: st) 1) with (Ret l0 : result (list Z)).
  change (stackTop (l :: l0 :: l1 :: st) 2) with (Ret l1 : result (list Z)). cbn [obind].
  do 3 (apply safe_number; [assumption|]; intros ? ?). simpl. solve_ok.
Qed.

Lemma HashingOp_safe opcode m : manager_ok m -> safe manager_ok (HashingOp opcode m).
Proof.
  op_start m. unfold HashingOp. apply safe_require. cbn [stack_]. intros. peel. simpl.
  solve_ok. unfold op_hash160, op_hash256. repeat case_match; auto with divi.
  split; [apply (bool_decide_unpack (bytes_ok _)); vm_compute; exact I|vm_compute; congruence].
Qed.

Lemma CoinstakeCheckOp_safe m : manager_ok m -> safe manager_ok (CoinstakeCheckOp checker m).
Proof. op_start m. unfold CoinstakeCheckOp. case_match; simpl; [exact I|solve_ok]. Qed.

(** ** Signature checks *)

Lemma CheckSigOp_safe opcode scriptCode m :
  manager_ok m -> safe manager_ok (CheckSigOp flags checker opcode scriptCode m).
Proof.
  op_start m. unfold CheckSigOp. apply safe_require. cbn [stack_]. intros. peel.
  repeat (apply Forall_cons in Hst as [? Hst]).
  change (stackTop (l :: l0 :: st) 0) with (Ret l : result (list Z)).
  change (stackTop (l :: l0 :: st) 1) with (Ret l0 : result (list Z)). cbn [obind].
  eapply safe_bind; [apply CheckSignatureEncoding_safe; unfold elem_ok in *; tauto|]. intros _ _.
  eapply safe_bind; [apply CheckPubKeyEncoding_safe|]. intros _ _. simpl.
  repeat case_match; simpl; try exact I; solve_ok.
Qed.

Lemma drop_signatures_safe todo : forall k isig st scriptCode,
  Forall elem_ok st -> 0 <= isig + k - 1 -> isig + k - 1 + Z.of_nat todo <= zlen st ->
  safe (fun _ => True) (drop_signatures todo k isig st scriptCode).
Proof.
  induction todo as [|todo IH]; intros k isig st sc Hst H0 H1; [exact I|]. cbn [drop_signatures].
  eapply safe_bind; [apply stackTop_safe; [assumption|lia]|]. intros v _. apply IH; auto; lia.
Qed.

Lemma multisig_loop_safe fuel : forall st sc isig ikey nSigs nKeys,
  Forall elem_ok st -> nSigs <= nKeys < Z.of_nat fuel ->
  1 <= isig -> 1 <= ikey -> isig - 1 + nSigs <= zlen st -> ikey - 1 + nKeys <= zlen st ->
  safe (fun _ => True) (multisig_loop flags checker fuel st sc isig ikey nSigs nKeys).
Proof.
  induction fuel as [|fuel IH]; intros st sc isig ikey nSigs nKeys Hst Hn Hi Hk Hzi Hzk;
    cbn [multisig_loop]; (destruct (Z.ltb_spec 0 nSigs); [|exact I]); cbn [negb]; [lia|].
  eapply safe_bind; [apply stackTop_safe; [assumption|lia]|]. intros sig Hsig.
  eapply safe_bind; [apply stackTop_safe; [assumption|lia]|]. intros pk _.
  eapply safe_bind; [apply CheckSignatureEncoding_safe, Hsig|]. intros _ _.
  eapply safe_bind; [apply CheckPubKeyEncoding_safe|]. intros _ _.
  cbv zeta. destruct (Z.ltb_spec (nKeys - 1) (if CheckSig checker sig pk sc then nSigs - 1 else nSigs));
    [exact I|]. apply IH; auto; destruct (CheckSig _ _ _ _); lia.
Qed.

Lemma pop_times_drop n : forall st, (n <= length st)%nat -> pop_times n st = Ret (drop n st).
Proof.
  induction n as [|n IH]; intros [|v st] H; simpl in *; try reflexivity; [lia|]. apply IH. lia.
Qed.

Lemma CheckMultiSigOp_safe opcode scriptCode m :
  manager_ok m -> safe manager_ok (CheckMultiSigOp flags checker opcode scriptCode m).
Proof.
  op_start m. unfold CheckMultiSigOp. cbn [stack_ opCount_].
  apply safe_require. intros Hz1.
  eapply safe_bind; [apply stackTop_safe; [assumption|lia]|]. intros v Hv.
  apply safe_number; [assumption|]. intros bn Hbn. apply safe_oreject. intros Hkeys. bool_prop.
  set (nKeys := getint bn) in *.
  apply safe_oreject. intros Hcount. cbn [opCount_ with_opCount] in Hcount. bool_prop.
  apply safe_require. intros Hz2.
  eapply safe_bind; [apply stackTop_safe; [assumption|lia]|]. intros v2 Hv2.
  apply safe_number; [assumption|]. intros bn2 Hbn2. apply safe_oreject. intros Hsigs. bool_prop.
  set (nSigs := getint bn2) in *. apply safe_require. intros Hz3.
  eapply safe_bind; [apply drop_signatures_safe; [assumption|lia|lia]|]. intros sc _.
  eapply safe_bind; [apply multisig_loop_safe; [assumption|lia..]|]. intros fSuccess _.
  rewrite pop_times_drop by (unfold zlen in Hz3; lia). cbn [obind].
  apply safe_require. intros Hz4.
  assert (Forall elem_ok (drop (Z.to_nat (1 + 1 + nKeys + 1 + nSigs - 1)) st)) as Hdr by (apply Forall_drop; assumption).
  destruct (drop _ st) as [|d st']; [vm_compute in Hz4; congruence|].
  change (stackTop (d :: st') 0) with (Ret d : result (list Z)). cbn [obind pop_back].
  apply safe_oreject. intros _.
  assert (0 <= u32 (k + nKeys) <= MAXIMUM_NUMBER_OF_OPCODES)
    by (split; [apply Z.mod_pos_bound; lia|assumption]).
  repeat case_match; simpl; try exact I; solve_ok.
Qed.

(** ** Dispatch *)

Definition stack_bounded (m : StackOperationManager) : Prop := zlen (stack_ m) < 2 ^ 32.

Lemma op_in_byte opcode l : forallb (fun x => (0 <=? x) && (x <? 256)) l = true ->
  op_in opcode l = true -> 0 <= opcode < 256.
Proof.
  unfold op_in. rewrite forallb_forall, existsb_exists. intros Hl (x & Hx & E).
  apply Z.eqb_eq in E as ->. specialize (Hl x Hx). bool_prop. lia.
Qed.

Lemma ApplyOpcode_safe opcode m :
  stack_bounded m -> manager_ok m -> safe manager_ok (ApplyOpcode flags checker opcode m).
Proof.
  intros Hb Hok. unfold ApplyOpcode.
  destruct (_ && _); [apply CoinstakeCheckOp_safe; assumption|].
  destruct (_ =? _); [exact I|]. destruct (_ =? _); [apply NumericBoundsOp_safe; assumption|].
  destruct (op_in _ _); [apply DisabledOp_safe; assumption|].
  destruct (op_in opcode simpleValueOpCodes) eqn:E;
    [apply PushValueOp_safe; [apply (op_in_byte _ simpleValueOpCodes eq_refl E)|assumption]|clear E].
  destruct (op_in _ _); [apply ConditionalOp_safe; assumption|].
  destruct (op_in _ _); [apply StackModificationOp_safe; assumption|].
  destruct (op_in _ _); [apply EqualityVerificationOp_safe; assumption|].
  destruct (op_in _ _); [apply UnaryNumericOp_safe; assumption|].
  destruct (op_in _ _); [apply BinaryNumericOp_safe; assumption|].
  destruct (op_in _ _); [apply HashingOp_safe; assumption|exact I].
Qed.

Lemma ApplyOpcode_script_safe opcode scriptCode m :
  manager_ok m -> safe manager_ok (ApplyOpcode_script flags checker opcode scriptCode m).
Proof.
  intros Hok. unfold ApplyOpcode_script, SignatureCheckOp.
  destruct (op_in _ _); [|exact I].
  destruct (_ || _); [apply CheckSigOp_safe; assumption|].
  destruct (_ || _); [apply CheckMultiSigOp_safe; assumption|assumption].
Qed.

(** ** The loop *)

Lemma getop_operand_bytes op n pc : bytes_ok pc ->
  bytes_ok (go_vch (getop_operand op n pc)) /\ bytes_ok (go_pc (getop_operand op n pc)).
Proof. intros. unfold getop_operand. case_match; simpl; auto with divi. Qed.

Lemma GetOp2_bytes pc : bytes_ok pc ->
  bytes_ok (go_vch (GetOp2 pc)) /\ bytes_ok (go_pc (GetOp2 pc)).
Proof.
  intros Hok. destruct pc as [|b pc]; [simpl; auto with divi|]. apply bytes_ok_cons in Hok as [_ Hok].
  unfold GetOp2. repeat case_match; try (apply getop_operand_bytes; auto with divi);
    simpl; auto with divi. apply bytes_ok_cons in Hok. tauto.
Qed.

Record eval_ok (s : eval_state) : Prop := mkEvalOk {
  eok_pc : bytes_ok (ev_pc s);
  eok_manager : manager_ok (ev_manager s);
  eok_size : TotalStackSize (ev_manager s) <= 1000
}.

Lemma TotalStackSize_bounded m : TotalStackSize m <= 1000 -> stack_bounded m.
Proof. unfold TotalStackSize, stack_bounded. pose proof (zlen_nonneg (altstack_ m)). lia. Qed.

Lemma eval_switch_safe opcode pc pb m :
  bytes_ok pc -> stack_bounded m -> manager_ok m ->
  safe (fun s => ev_pc s = pc /\ manager_ok (ev_manager s)) (eval_switch flags checker opcode pc pb m).
Proof.
  intros Hpc Hb Hok. unfold eval_switch, ApplyOp, ApplyOp_script. repeat case_match; simpl; auto.
  - eapply safe_bind; [apply ApplyOpcode_script_safe; assumption|]. simpl. auto.
  - eapply safe_bind; [apply ApplyOpcode_safe; assumption|]. simpl. auto.
Qed.

(** The manager after the operation count has been charged. *)
Lemma charge_op_safe (opcode : opcodetype) m :
  manager_ok m -> TotalStackSize m <= 1000 ->
  safe (fun m' => manager_ok m' /\ TotalStackSize m' <= 1000)
    (if OP_16 <? opcode
     then let '(within, m) := ReserveAdditionalOp m in
          oreject (negb within) SCRIPT_ERR_OP_COUNT ;;; Ret m
     else Ret m).
Proof.
  intros [] Hsz. case_match; [|simpl; split; [constructor|]; assumption].
  unfold ReserveAdditionalOp. apply safe_oreject. cbn [opCount_ with_opCount]. intros Hle. bool_prop.
  simpl. split; [constructor; simpl; auto|exact Hsz]. split; [apply Z.mod_pos_bound; lia|assumption].
Qed.

Lemma eval_step_safe s :
  eval_ok s ->
  safe (fun s' => eval_ok s' /\ ev_pc s' = go_pc (GetOp2 (ev_pc s))) (eval_step flags checker s).
Proof.
  intros [Hpc Hm Hsz]. unfold eval_step. destruct (GetOp2_bytes _ Hpc) as [Hvch Hrest].
  apply safe_oreject. intros _. apply safe_oreject. intros Hpush. bool_prop.
  eapply safe_bind; [apply charge_op_safe; assumption|]. intros m [Hm' Hsz'].
  apply safe_oreject. intros _.
  eapply safe_bind with (P := fun s' => ev_pc s' = go_pc (GetOp2 (ev_pc s)) /\ manager_ok (ev_manager s')).
  - destruct (_ && _).
    + apply safe_oreject. intros _. destruct Hm'. simpl. split; [reflexivity|].
      constructor; simpl; auto. apply Forall_cons; split; [split|]; assumption.
    + destruct (_ || _); [|simpl; auto].
      apply eval_switch_safe; auto using TotalStackSize_bounded.
  - intros s' [Epc Hm'']. apply safe_oreject. intros Hle. bool_prop. simpl.
    split; [|assumption]. constructor; [rewrite Epc|..]; assumption.
Qed.

Lemma eval_loop_safe fuel : forall s,
  (length (ev_pc s) <= fuel)%nat -> eval_ok s ->
  safe (fun m => manager_ok m /\ TotalStackSize m <= 1000) (eval_loop flags checker fuel s).
Proof.
  induction fuel as [|fuel IH]; intros s Hlen Hok; cbn [eval_loop];
    (destruct (ev_pc s) as [|b pc] eqn:E; [destruct Hok; simpl; auto|]); [simpl in Hlen; lia|].
  eapply safe_bind; [apply eval_step_safe; assumption|]. intros s' [Hok' Epc].
  apply IH; [|assumption]. rewrite Epc, E. pose proof (GetOp2_shorter b pc). simpl in Hlen. lia.
Qed.

(** No exception and no undefined behaviour; a normal return satisfies [P]. *)
Definition total {A} (P : A -> Prop) (r : result A) : Prop :=
  match r with Ret a => P a | Err _ => True | Throw | Undef => False end.

Definition stack_ok (st : list (list Z)) : Prop := Forall elem_ok st /\ zlen st <= 1000.

Lemma EvalScript_total stack script :
  bytes_ok script -> stack_ok stack -> total stack_ok (EvalScript flags checker stack script).
Proof.
  intros Hs [Hst Hlen]. unfold EvalScript. destruct (10000 <? zlen script); [exact I|]. cbn [oreject obind].
  pose proof (eval_loop_safe (length script) (mkEval script script (manager_init stack)) ltac:(reflexivity)) as H.
  destruct (eval_loop _ _ _ _) as [m| | |]; simpl in *; try exact I.
  - destruct H as [[] Hsz].
    { constructor; simpl; auto; [constructor; simpl; auto; [reflexivity|unfold MAXIMUM_NUMBER_OF_OPCODES; lia]|].
      unfold TotalStackSize. simpl. zlen_simpl. lia. }
    destruct (negb _); simpl; [exact I|]. split; [assumption|].
    unfold TotalStackSize in Hsz. pose proof (zlen_nonneg (altstack_ m)). lia.
  - apply H. constructor; simpl; auto; [constructor; simpl; auto; [reflexivity|unfold MAXIMUM_NUMBER_OF_OPCODES; lia]|].
    unfold TotalStackSize. simpl. zlen_simpl. lia.
Qed.

End Safety.
