(* ===== verification/ScriptRun.v ===== *)
(** * Running scripts: lemmas to execute [EvalScript] on symbolic stacks

    One lemma per way an operation can go through the loop of [EvalScript] (a
    push, an executed operation, a skipped one) and one per operation the
    standard scripts use. *)

From Stdlib Require Import ZArith Lia Bool.
From stdpp Require Import base option numbers list.
From S2P Require Import Prelude Opcodes ScriptNum Script SigEncoding StackManager Interpreter ScriptSafety.

Open Scope Z_scope.
Open Scope outcome_scope.

(** Decide the comparisons of a concrete opcode. *)
Ltac dispatch op :=
  unfold Interpreter.eval_switch, ApplyOp, ApplyOp_script, ApplyOpcode, ApplyOpcode_script, SignatureCheckOp;
  repeat match goal with
  | |- context [op =? ?x] => let b := eval vm_compute in (op =? x) in change (op =? x) with b
  | |- context [op_in op ?l] => let b := eval vm_compute in (op_in op l) in change (op_in op l) with b
  end; cbn [orb andb]; rewrite ?andb_false_r; cbv iota.

Ltac handler op :=
  repeat match goal with |- context [op =? ?x] => let b := eval vm_compute in (op =? x) in change (op =? x) with b end;
  cbn [orb andb]; cbv iota; cbn [stack_ altstack_ conditionalManager_ opCount_].

Ltac sizes :=
  unfold require_size; rewrite ?zlen_cons;
  repeat match goal with |- context [?a <? ?b] => destruct (Z.ltb_spec a b); [exfalso; lia|] end;
  cbn [oreject obind].

Section Run.
Context {SH : ScriptHashes}.
Variable flags : Z.
Variable checker : BaseSignatureChecker.

Abbreviation eval_loop := (eval_loop flags checker).
Abbreviation eval_step := (eval_step flags checker).
Abbreviation eval_switch := (eval_switch flags checker).

(** The size check at the end of a round, then the rest of the script. *)
Definition after_round (fuel : nat) (s : eval_state) : result StackOperationManager :=
  oreject (1000 <? TotalStackSize (ev_manager s)) SCRIPT_ERR_STACK_SIZE ;;; eval_loop fuel s.

Lemma after_round_ok fuel s : TotalStackSize (ev_manager s) <= 1000 -> after_round fuel s = eval_loop fuel s.
Proof. intros H. unfold after_round. destruct (Z.ltb_spec 1000 (TotalStackSize (ev_manager s))); [lia|reflexivity]. Qed.

Lemma eval_loop_nil fuel pb m : eval_loop fuel (mkEval [] pb m) = Ret m.
Proof. destruct fuel; reflexivity. Qed.

Lemma obind_assoc {A B C} (r : result A) (f : A -> result B) (g : B -> result C) :
  obind (obind r f) g = obind r (fun x => obind (f x) g).
Proof. destruct r; reflexivity. Qed.

Lemma round_end fuel (r : result eval_state) :
  obind (obind r (fun s => oreject (1000 <? TotalStackSize (ev_manager s)) SCRIPT_ERR_STACK_SIZE ;;; Ret s))
    (eval_loop fuel) = obind r (after_round fuel).
Proof. destruct r as [s| | |]; cbn [obind]; try reflexivity. unfold after_round. destruct (1000 <? _); reflexivity. Qed.

Lemma GetOp2_op op rest : OP_PUSHDATA4 < op -> GetOp2 (op :: rest) = mkGetOp true op [] rest.
Proof. intros H. unfold GetOp2. destruct (Z.leb_spec op OP_PUSHDATA4); [lia|reflexivity]. Qed.

(** An operation that is executed: counted, then dispatched. *)
Lemma eval_loop_op fuel op rest pb st alt c n :
  OP_16 < op -> 0 <= n < MAXIMUM_NUMBER_OF_OPCODES -> OpcodeIsDisabled op = false ->
  conditionalScopeNeedsClosing c = false \/ OP_IF <= op <= OP_ENDIF ->
  eval_loop (S fuel) (mkEval (op :: rest) pb (mkManager st alt c n)) =
  (let* s := eval_switch op rest pb (mkManager st alt c (n + 1)) in after_round fuel s).
Proof.
  intros Hop Hn Hdis Hex. cbn [Interpreter.eval_loop ev_pc]. unfold Interpreter.eval_step. cbn [ev_pc ev_manager ev_begincodehash].
  rewrite GetOp2_op by (unfold OP_16, OP_PUSHDATA4 in *; lia). cbn [go_ok go_vch go_opcode go_pc negb].
  change (MAX_SCRIPT_ELEMENT_SIZE <? zlen (@nil Z)) with false.
  rewrite (proj2 (Z.ltb_lt OP_16 op)) by assumption.
  unfold ReserveAdditionalOp, with_opCount, u32. cbn [opCount_ stack_ altstack_ conditionalManager_ oreject obind].
  rewrite Z.mod_small by (unfold MAXIMUM_NUMBER_OF_OPCODES in *; lia).
  rewrite (proj2 (Z.leb_le (n + 1) _)) by lia. cbn [negb oreject obind]. rewrite Hdis. cbn [oreject obind].
  rewrite (proj2 (Z.leb_gt op OP_PUSHDATA4)), andb_false_r by (unfold OP_16, OP_PUSHDATA4 in *; lia).
  replace (negb (ConditionalNeedsClosing _) || _) with true.
  - apply round_end.
  - symmetry. apply orb_true_iff. unfold ConditionalNeedsClosing, ConditionalScopeNeedsClosing. cbn [conditionalManager_].
    destruct Hex as [->|[H1 H2]]; [left; reflexivity|right; apply andb_true_iff; split; apply Z.leb_le; assumption].
Qed.

(** An operation in a branch that is not taken: only counted. *)
Lemma eval_loop_skip_gen fuel op rest pb st alt c n :
  OP_16 < op -> 0 <= n < MAXIMUM_NUMBER_OF_OPCODES -> OpcodeIsDisabled op = false ->
  conditionalScopeNeedsClosing c = true -> (op < OP_IF \/ OP_ENDIF < op) ->
  eval_loop (S fuel) (mkEval (op :: rest) pb (mkManager st alt c n)) =
  after_round fuel (mkEval rest pb (mkManager st alt c (n + 1))).
Proof.
  intros Hop Hn Hdis Hc Hnc. cbn [Interpreter.eval_loop ev_pc]. unfold Interpreter.eval_step.
  cbn [ev_pc ev_manager ev_begincodehash].
  rewrite GetOp2_op by (unfold OP_16, OP_PUSHDATA4 in *; lia). cbn [go_ok go_vch go_opcode go_pc negb].
  change (MAX_SCRIPT_ELEMENT_SIZE <? zlen (@nil Z)) with false.
  rewrite (proj2 (Z.ltb_lt OP_16 op)) by assumption.
  unfold ReserveAdditionalOp, with_opCount, u32. cbn [opCount_ stack_ altstack_ conditionalManager_ oreject obind].
  rewrite Z.mod_small by (unfold MAXIMUM_NUMBER_OF_OPCODES in *; lia).
  rewrite (proj2 (Z.leb_le (n + 1) _)) by lia. cbn [negb oreject obind]. rewrite Hdis. cbn [oreject obind].
  unfold ConditionalNeedsClosing, ConditionalScopeNeedsClosing. cbn [conditionalManager_]. rewrite Hc. cbn [negb andb orb].
  replace ((OP_IF <=? op) && (op <=? OP_ENDIF)) with false.
  - apply (round_end fuel (Ret _)).
  - symmetry. apply andb_false_iff. rewrite !Z.leb_gt. exact Hnc.
Qed.

Lemma eval_loop_skip fuel op rest pb st alt c n :
  OP_16 < op -> 0 <= n < MAXIMUM_NUMBER_OF_OPCODES -> OpcodeIsDisabled op = false ->
  conditionalScopeNeedsClosing c = true -> (op < OP_IF \/ OP_ENDIF < op) -> zlen st + zlen alt <= 1000 ->
  eval_loop (S fuel) (mkEval (op :: rest) pb (mkManager st alt c n)) =
  eval_loop fuel (mkEval rest pb (mkManager st alt c (n + 1))).
Proof. intros. rewrite eval_loop_skip_gen by assumption. apply after_round_ok. assumption. Qed.

(** The opcode of a push is not counted and not disabled. *)
Lemma push_data_opcode_range d : 0 <= push_data_opcode d <= OP_PUSHDATA4.
Proof.
  unfold push_data_opcode, OP_PUSHDATA1, OP_PUSHDATA2, OP_PUSHDATA4. pose proof (zlen_nonneg d).
  repeat case_match; bool_prop; lia.
Qed.

Lemma not_disabled_below op : op < OP_CAT -> OpcodeIsDisabled op = false.
Proof.
  intros H. unfold OpcodeIsDisabled, OP_CAT, OP_SUBSTR, OP_LEFT, OP_RIGHT, OP_INVERT, OP_AND, OP_OR, OP_XOR,
    OP_2MUL, OP_2DIV, OP_MUL, OP_DIV, OP_MOD, OP_LSHIFT, OP_RSHIFT in *.
  rewrite !orb_false_iff, !Z.eqb_neq. lia.
Qed.

Definition minimal_ok (d : valtype) : Prop :=
  has_flag flags SCRIPT_VERIFY_MINIMALDATA = true -> CheckMinimalPush d (push_data_opcode d) = true.

Lemma eval_loop_push_gen fuel d rest pb st alt c n :
  zlen d <= MAX_SCRIPT_ELEMENT_SIZE ->
  eval_loop (S fuel) (mkEval (push_data [] d ++ rest) pb (mkManager st alt c n)) =
  (let* s :=
     if negb (conditionalScopeNeedsClosing c) then
       oreject (has_flag flags SCRIPT_VERIFY_MINIMALDATA && negb (CheckMinimalPush d (push_data_opcode d)))
         SCRIPT_ERR_MINIMALDATA ;;;
       Ret (mkEval rest pb (mkManager (d :: st) alt c n))
     else Ret (mkEval rest pb (mkManager st alt c n)) in
   after_round fuel s).
Proof.
  intros Hd. pose proof (push_data_opcode_range d) as [Hop0 Hop4].
  pose proof (GetOp2_pushed d rest) as Hget. unfold MAX_SCRIPT_ELEMENT_SIZE in Hd.
  destruct (push_data [] d ++ rest) as [|b pc] eqn:E.
  { exfalso. unfold push_data in E. destruct (zlen d <? OP_PUSHDATA1), (zlen d <=? 255), (zlen d <=? 65535); discriminate. }
  cbn [Interpreter.eval_loop ev_pc]. unfold Interpreter.eval_step. cbn [ev_pc ev_manager ev_begincodehash].
  rewrite Hget by lia. cbn [go_ok go_vch go_opcode go_pc negb oreject obind].
  destruct (Z.ltb_spec MAX_SCRIPT_ELEMENT_SIZE (zlen d)) as [Hbig|_]; [unfold MAX_SCRIPT_ELEMENT_SIZE in Hbig; lia|].
  rewrite (proj2 (Z.ltb_ge OP_16 _)) by (unfold OP_16, OP_PUSHDATA4 in *; lia). cbn [oreject obind].
  rewrite not_disabled_below by (unfold OP_CAT, OP_PUSHDATA4 in *; lia). cbn [oreject obind].
  unfold ConditionalNeedsClosing, ConditionalScopeNeedsClosing. cbn [conditionalManager_].
  rewrite (proj2 (Z.leb_le 0 _)), (proj2 (Z.leb_le _ OP_PUSHDATA4)), !andb_true_r by assumption.
  destruct (conditionalScopeNeedsClosing c); cbn [negb orb].
  - replace ((OP_IF <=? _) && _) with false; [apply round_end|].
    symmetry. apply andb_false_iff. left. apply Z.leb_gt. unfold OP_IF, OP_PUSHDATA4 in *. lia.
  - apply round_end.
Qed.

Lemma eval_loop_push fuel d rest pb st alt c n :
  zlen d <= MAX_SCRIPT_ELEMENT_SIZE -> minimal_ok d ->
  conditionalScopeNeedsClosing c = false -> zlen st + zlen alt < 1000 ->
  eval_loop (S fuel) (mkEval (push_data [] d ++ rest) pb (mkManager st alt c n)) =
  eval_loop fuel (mkEval rest pb (mkManager (d :: st) alt c n)).
Proof.
  intros Hd Hmin Hc Hsz. rewrite eval_loop_push_gen, Hc by assumption. cbn [negb].
  replace (has_flag flags SCRIPT_VERIFY_MINIMALDATA && _) with false.
  - cbn [oreject obind]. apply after_round_ok. unfold TotalStackSize. cbn [ev_manager stack_ altstack_]. rewrite zlen_cons. lia.
  - unfold minimal_ok in Hmin. destruct (has_flag flags SCRIPT_VERIFY_MINIMALDATA); [|reflexivity].
    rewrite Hmin by reflexivity. reflexivity.
Qed.

Lemma eval_loop_push_skip fuel d rest pb st alt c n :
  zlen d <= MAX_SCRIPT_ELEMENT_SIZE -> conditionalScopeNeedsClosing c = true -> zlen st + zlen alt <= 1000 ->
  eval_loop (S fuel) (mkEval (push_data [] d ++ rest) pb (mkManager st alt c n)) =
  eval_loop fuel (mkEval rest pb (mkManager st alt c n)).
Proof.
  intros Hd Hc Hsz. rewrite eval_loop_push_gen, Hc by assumption. cbn [negb obind].
  apply after_round_ok. exact Hsz.
Qed.

(** Inversion of successful runs. *)
Lemma after_round_inv fuel s m : after_round fuel s = Ret m -> eval_loop fuel s = Ret m.
Proof. unfold after_round. destruct (1000 <? _); [discriminate|]. auto. Qed.

Lemma eval_loop_op_inv fuel op rest pb st alt c n m :
  OP_16 < op -> 0 <= n < MAXIMUM_NUMBER_OF_OPCODES -> OpcodeIsDisabled op = false ->
  conditionalScopeNeedsClosing c = false \/ OP_IF <= op <= OP_ENDIF ->
  eval_loop (S fuel) (mkEval (op :: rest) pb (mkManager st alt c n)) = Ret m ->
  exists s, eval_switch op rest pb (mkManager st alt c (n + 1)) = Ret s /\ eval_loop fuel s = Ret m.
Proof.
  intros Hop Hn Hd Hc E. rewrite eval_loop_op in E by assumption.
  destruct (eval_switch _ _ _ _) as [s| | |]; try discriminate. eauto using after_round_inv.
Qed.

Lemma eval_loop_push_inv fuel d rest pb st alt c n m :
  zlen d <= MAX_SCRIPT_ELEMENT_SIZE ->
  eval_loop (S fuel) (mkEval (push_data [] d ++ rest) pb (mkManager st alt c n)) = Ret m ->
  eval_loop fuel (mkEval rest pb (mkManager (if conditionalScopeNeedsClosing c then st else d :: st) alt c n)) = Ret m.
Proof.
  intros Hd E. rewrite eval_loop_push_gen in E by assumption.
  destruct (conditionalScopeNeedsClosing c); cbn [negb obind] in E; [apply after_round_inv, E|].
  destruct (_ && _); [discriminate|]. apply after_round_inv, E.
Qed.

Lemma eval_loop_skip_inv fuel op rest pb st alt c n m :
  OP_16 < op -> 0 <= n < MAXIMUM_NUMBER_OF_OPCODES -> OpcodeIsDisabled op = false ->
  conditionalScopeNeedsClosing c = true -> (op < OP_IF \/ OP_ENDIF < op) ->
  eval_loop (S fuel) (mkEval (op :: rest) pb (mkManager st alt c n)) = Ret m ->
  eval_loop fuel (mkEval rest pb (mkManager st alt c (n + 1))) = Ret m.
Proof.
  intros Hop Hn Hd Hc Hnc E. rewrite eval_loop_skip_gen in E by assumption. apply after_round_inv, E.
Qed.

(** A 20-byte hash is always a minimal push. *)
Lemma minimal_ok_20 d : zlen d = 20 -> minimal_ok d.
Proof.
  intros H _. unfold CheckMinimalPush, push_data_opcode. rewrite H. reflexivity.
Qed.

(** ** Operations on symbolic stacks *)

Lemma switch_DUP pc pb a st alt c n :
  eval_switch OP_DUP pc pb (mkManager (a :: st) alt c n) = Ret (mkEval pc pb (mkManager (a :: a :: st) alt c n)).
Proof. pose proof (zlen_nonneg st). dispatch OP_DUP. unfold StackModificationOp. handler OP_DUP. sizes. reflexivity. Qed.

Lemma switch_OVER pc pb a b st alt c n :
  eval_switch OP_OVER pc pb (mkManager (a :: b :: st) alt c n) =
  Ret (mkEval pc pb (mkManager (b :: a :: b :: st) alt c n)).
Proof. pose proof (zlen_nonneg st). dispatch OP_OVER. unfold StackModificationOp. handler OP_OVER. sizes. reflexivity. Qed.

Lemma switch_HASH160 pc pb a st alt c n :
  eval_switch OP_HASH160 pc pb (mkManager (a :: st) alt c n) =
  Ret (mkEval pc pb (mkManager (op_hash160 a :: st) alt c n)).
Proof. pose proof (zlen_nonneg st). dispatch OP_HASH160. unfold HashingOp. handler OP_HASH160. sizes. reflexivity. Qed.

Lemma switch_HASH160_empty pc pb alt c n :
  eval_switch OP_HASH160 pc pb (mkManager [] alt c n) = Err SCRIPT_ERR_INVALID_STACK_OPERATION.
Proof. dispatch OP_HASH160. reflexivity. Qed.

Lemma switch_EQUAL pc pb a b st alt c n :
  eval_switch OP_EQUAL pc pb (mkManager (a :: b :: st) alt c n) =
  Ret (mkEval pc pb (mkManager (vch_of_bool (bool_decide (b = a)) :: st) alt c n)).
Proof. pose proof (zlen_nonneg st). dispatch OP_EQUAL. unfold EqualityVerificationOp. handler OP_EQUAL. cbn [obind stack_]. sizes. reflexivity. Qed.

Lemma switch_EQUALVERIFY pc pb a b st alt c n :
  eval_switch OP_EQUALVERIFY pc pb (mkManager (a :: b :: st) alt c n) =
  if bool_decide (b = a) then Ret (mkEval pc pb (mkManager st alt c n)) else Err SCRIPT_ERR_EQUALVERIFY.
Proof.
  pose proof (zlen_nonneg st). dispatch OP_EQUALVERIFY. unfold EqualityVerificationOp. handler OP_EQUALVERIFY.
  cbn [obind stack_]. sizes. change (stackTop (a :: b :: st) 1) with (Ret (E := ScriptError) b).
  change (stackTop (a :: b :: st) 0) with (Ret (E := ScriptError) a). cbn [obind pop_back].
  destruct (bool_decide (b = a)); reflexivity.
Qed.

Lemma switch_META pc pb m : eval_switch OP_META pc pb m = Err SCRIPT_ERR_OP_META.
Proof. dispatch OP_META. reflexivity. Qed.

(** [sig pubkey OP_CHECKSIG], with the code from the last separator on. *)
Definition checksig_result (sig pubkey : valtype) (code : CScript) : result bool :=
  CheckSignatureEncoding sig flags ;;;
  CheckPubKeyEncoding pubkey flags ;;;
  Ret (CheckSig checker sig pubkey (FindAndDelete code (push_data [] sig)).1).

Lemma switch_CHECKSIG pc pb pubkey sig st alt c n :
  eval_switch OP_CHECKSIG pc pb (mkManager (pubkey :: sig :: st) alt c n) =
  (let* ok := checksig_result sig pubkey pb in Ret (mkEval pc pb (mkManager (vch_of_bool ok :: st) alt c n))).
Proof.
  pose proof (zlen_nonneg st). dispatch OP_CHECKSIG. unfold CheckSigOp. handler OP_CHECKSIG. sizes.
  change (stackTop (pubkey :: sig :: st) 1) with (Ret (E := ScriptError) sig).
  change (stackTop (pubkey :: sig :: st) 0) with (Ret (E := ScriptError) pubkey). cbn [obind].
  unfold checksig_result. destruct (CheckSignatureEncoding sig flags); try reflexivity.
  destruct (CheckPubKeyEncoding pubkey flags); reflexivity.
Qed.

Lemma switch_IF pc pb v st alt c n :
  conditionalScopeNeedsClosing c = false ->
  eval_switch OP_IF pc pb (mkManager (v :: st) alt c n) =
  Ret (mkEval pc pb (mkManager st alt (OpenScope c (CastToBool v)) n)).
Proof.
  intros Hc. pose proof (zlen_nonneg st). dispatch OP_IF. unfold ConditionalOp. handler OP_IF.
  unfold ConditionalScopeNeedsClosing. rewrite Hc. cbn [negb]. sizes. reflexivity.
Qed.

Lemma switch_ELSE pc pb st alt b l f n :
  eval_switch OP_ELSE pc pb (mkManager st alt (mkCond (b :: l) f) n) =
  Ret (mkEval pc pb (mkManager st alt (CheckConditionalScopeStatus (mkCond (negb b :: l) f)) n)).
Proof. dispatch OP_ELSE. reflexivity. Qed.

Lemma switch_ENDIF pc pb st alt b l f n :
  eval_switch OP_ENDIF pc pb (mkManager st alt (mkCond (b :: l) f) n) =
  Ret (mkEval pc pb (mkManager st alt (CheckConditionalScopeStatus (mkCond l f)) n)).
Proof. dispatch OP_ENDIF. reflexivity. Qed.

(** With the flag, the coinstake opcode demands a coinstake; without it it is an
    upgradable NOP. *)
Lemma switch_REQUIRE_COINSTAKE pc pb m :
  eval_switch OP_REQUIRE_COINSTAKE pc pb m =
  if has_flag flags SCRIPT_REQUIRE_COINSTAKE
  then if CheckCoinstake checker then Ret (mkEval pc pb m) else Err SCRIPT_ERR_VERIFY
  else oreject (has_flag flags SCRIPT_VERIFY_DISCOURAGE_UPGRADABLE_NOPS) SCRIPT_ERR_DISCOURAGE_UPGRADABLE_NOPS ;;;
       Ret (mkEval pc pb m).
Proof.
  dispatch OP_REQUIRE_COINSTAKE. rewrite andb_true_r. destruct (has_flag flags SCRIPT_REQUIRE_COINSTAKE).
  - unfold CoinstakeCheckOp. destruct (CheckCoinstake checker); [destruct m|]; reflexivity.
  - unfold DisabledOp. destruct (has_flag flags _); reflexivity.
Qed.

End Run.
