(* ===== verification/CryptoCommon.v ===== *)
(** * Words and byte order: [crypto/common.h]

    The readers and writers of [common.h] in their portable form (the branches
    that use the platform's [htobe32] family compute the same words), and the
    32-bit operations of the compression functions.  A [uint32_t] is a [Z]; every
    sum and left shift is reduced by [u32]. *)

From Stdlib Require Import ZArith Lia Bool.
From stdpp Require Import base option numbers list.
From S2P Require Import Prelude.

Open Scope Z_scope.

(** [ptr[i]] of a buffer that is long enough. *)
Definition at_ptr (ptr : list Z) (i : nat) : Z := nth i ptr 0.

Definition ReadLE32 (ptr : list Z) (o : nat) : Z :=
  Z.lor (Z.lor (Z.lor (Z.shiftl (at_ptr ptr (o + 3)) 24) (Z.shiftl (at_ptr ptr (o + 2)) 16))
               (Z.shiftl (at_ptr ptr (o + 1)) 8)) (at_ptr ptr o).

Definition ReadBE32 (ptr : list Z) (o : nat) : Z :=
  Z.lor (Z.lor (Z.lor (Z.shiftl (at_ptr ptr o) 24) (Z.shiftl (at_ptr ptr (o + 1)) 16))
               (Z.shiftl (at_ptr ptr (o + 2)) 8)) (at_ptr ptr (o + 3)).

Definition WriteLE32 (x : Z) : list Z :=
  [u8 x; u8 (Z.shiftr x 8); u8 (Z.shiftr x 16); u8 (Z.shiftr x 24)].

Definition WriteBE32 (x : Z) : list Z :=
  [u8 (Z.shiftr x 24); u8 (Z.shiftr x 16); u8 (Z.shiftr x 8); u8 x].

Definition WriteLE64 (x : Z) : list Z :=
  [u8 x; u8 (Z.shiftr x 8); u8 (Z.shiftr x 16); u8 (Z.shiftr x 24);
   u8 (Z.shiftr x 32); u8 (Z.shiftr x 40); u8 (Z.shiftr x 48); u8 (Z.shiftr x 56)].

Definition WriteBE64 (x : Z) : list Z :=
  [u8 (Z.shiftr x 56); u8 (Z.shiftr x 48); u8 (Z.shiftr x 40); u8 (Z.shiftr x 32);
   u8 (Z.shiftr x 24); u8 (Z.shiftr x 16); u8 (Z.shiftr x 8); u8 x].

Definition ReadLE64 (ptr : list Z) (o : nat) : Z :=
  Z.lor (Z.lor (Z.lor (Z.shiftl (at_ptr ptr (o + 7)) 56) (Z.shiftl (at_ptr ptr (o + 6)) 48))
               (Z.lor (Z.shiftl (at_ptr ptr (o + 5)) 40) (Z.shiftl (at_ptr ptr (o + 4)) 32)))
        (ReadLE32 ptr o).

Definition ReadBE64 (ptr : list Z) (o : nat) : Z :=
  Z.lor (Z.lor (Z.lor (Z.shiftl (at_ptr ptr o) 56) (Z.shiftl (at_ptr ptr (o + 1)) 48))
               (Z.lor (Z.shiftl (at_ptr ptr (o + 2)) 40) (Z.shiftl (at_ptr ptr (o + 3)) 32)))
        (ReadBE32 ptr (o + 4)).

(** [x << n], [x >> n] and [~x] on [uint32_t]. *)
Definition shl32 (x n : Z) : Z := u32 (Z.shiftl x n).
Definition shr32 (x n : Z) : Z := Z.shiftr x n.
Definition not32 (x : Z) : Z := u32 (Z.lnot x).

(** ** The writers are the fixed-width encodings *)

Lemma u8_is_byte x : is_byte (u8 x).
Proof. unfold is_byte, u8. apply Z.mod_pos_bound. reflexivity. Qed.

Lemma le_encode_shiftr n v k : 0 <= k -> le_encode n (Z.shiftr v k) = le_encode n (v / 2 ^ k).
Proof. intros. rewrite Z.shiftr_div_pow2 by assumption. reflexivity. Qed.

Lemma WriteLE32_encode x : WriteLE32 x = le_encode 4 x.
Proof.
  unfold WriteLE32, u8. cbn [le_encode]. rewrite !Z.shiftr_div_pow2 by lia.
  change (2 ^ 8) with 256. change (2 ^ 16) with (256 * 256). change (2 ^ 24) with (256 * 256 * 256).
  rewrite <- !Z.div_div by lia. reflexivity.
Qed.

Lemma WriteLE64_encode x : WriteLE64 x = le_encode 8 x.
Proof.
  unfold WriteLE64, u8. cbn [le_encode]. rewrite !Z.shiftr_div_pow2 by lia.
  change (2 ^ 8) with 256. change (2 ^ 16) with (256 * 256). change (2 ^ 24) with (256 * 256 * 256).
  change (2 ^ 32) with (256 * 256 * 256 * 256). change (2 ^ 40) with (256 * 256 * 256 * 256 * 256).
  change (2 ^ 48) with (256 * 256 * 256 * 256 * 256 * 256).
  change (2 ^ 56) with (256 * 256 * 256 * 256 * 256 * 256 * 256).
  rewrite <- !Z.div_div by lia. reflexivity.
Qed.

Lemma WriteBE32_encode x : WriteBE32 x = be_encode 4 x.
Proof. unfold be_encode. rewrite <- WriteLE32_encode. reflexivity. Qed.

Lemma WriteBE64_encode x : WriteBE64 x = be_encode 8 x.
Proof. unfold be_encode. rewrite <- WriteLE64_encode. reflexivity. Qed.

Lemma WriteBE32_bytes x : bytes_ok (WriteBE32 x).
Proof. repeat constructor; apply u8_is_byte. Qed.

Lemma WriteLE32_bytes x : bytes_ok (WriteLE32 x).
Proof. repeat constructor; apply u8_is_byte. Qed.

(** ** The readers decode *)

(** One step of a reader: the high byte above [n] bits already read. *)
Lemma lor_byte_above hi lo n :
  0 <= n -> 0 <= lo < 2 ^ n -> is_byte hi ->
  Z.lor (Z.shiftl hi n) lo = lo + hi * 2 ^ n /\ 0 <= lo + hi * 2 ^ n < 2 ^ (n + 8).
Proof.
  unfold is_byte. intros Hn Hlo Hhi. rewrite Z.lor_comm, lor_shiftl_add, Z.pow_add_r by lia. split; [reflexivity|].
  change (2 ^ 8) with 256. nia.
Qed.

Ltac read_bytes n lo hi :=
  let E := fresh in let B := fresh in
  destruct (lor_byte_above hi lo n) as [E B]; [lia | assumption || lia | assumption |]; rewrite ?E.

Lemma ReadLE32_decode b0 b1 b2 b3 :
  bytes_ok [b0; b1; b2; b3] ->
  ReadLE32 [b0; b1; b2; b3] 0 = le_decode [b0; b1; b2; b3] /\ 0 <= le_decode [b0; b1; b2; b3] < 2 ^ 32.
Proof.
  intros H. split; [|apply (le_decode_bound _ H)].
  unfold bytes_ok in H. rewrite !Forall_cons in H. destruct H as (H0 & H1 & H2 & H3 & _).
  unfold ReadLE32, at_ptr. cbn [nth Nat.add]. rewrite <- !Z.lor_assoc.
  read_bytes 8 b0 b1.
  read_bytes 16 (b0 + b1 * 2 ^ 8) b2. read_bytes 24 (b0 + b1 * 2 ^ 8 + b2 * 2 ^ 16) b3.
  cbn [le_decode]. lia.
Qed.

Lemma ReadLE64_decode l h :
  (length l = 4)%nat -> (length h = 4)%nat -> bytes_ok (l ++ h) -> ReadLE64 (l ++ h) 0 = le_decode (l ++ h).
Proof.
  intros Hl Hh H.
  destruct l as [|b0 [|b1 [|b2 [|b3 [|]]]]]; try discriminate. clear Hl.
  destruct h as [|b4 [|b5 [|b6 [|b7 [|]]]]]; try discriminate. clear Hh.
  apply bytes_ok_app in H as [Hl Hh]. destruct (ReadLE32_decode _ _ _ _ Hl) as [E B].
  unfold bytes_ok in Hh. rewrite !Forall_cons in Hh. destruct Hh as (H4 & H5 & H6 & H7 & _).
  unfold ReadLE64. change (ReadLE32 (_ ++ _) 0) with (ReadLE32 [b0; b1; b2; b3] 0). rewrite E, le_decode_app.
  unfold at_ptr. cbn [app nth Nat.add]. rewrite <- !Z.lor_assoc.
  set (w := le_decode [b0; b1; b2; b3]) in *.
  read_bytes 32 w b4. read_bytes 40 (w + b4 * 2 ^ 32) b5. read_bytes 48 (w + b4 * 2 ^ 32 + b5 * 2 ^ 40) b6.
  read_bytes 56 (w + b4 * 2 ^ 32 + b5 * 2 ^ 40 + b6 * 2 ^ 48) b7.
  cbn [le_decode]. unfold zlen. cbn [length]. change (8 * Z.of_nat 4) with 32. lia.
Qed.

Lemma ReadLE32_write x : ReadLE32 (WriteLE32 x) 0 = u32 x.
Proof.
  unfold WriteLE32. rewrite (proj1 (ReadLE32_decode _ _ _ _ (WriteLE32_bytes x))).
  change [u8 x; u8 (Z.shiftr x 8); u8 (Z.shiftr x 16); u8 (Z.shiftr x 24)] with (WriteLE32 x).
  rewrite WriteLE32_encode. apply (le_decode_encode 4 x).
Qed.

Lemma ReadLE64_write x : ReadLE64 (WriteLE64 x) 0 = u64 x.
Proof.
  rewrite WriteLE64_encode, <- (take_drop 4 (le_encode 8 x)), ReadLE64_decode; try reflexivity.
  - rewrite take_drop. apply (le_decode_encode 8 x).
  - rewrite take_drop. apply le_encode_bytes.
Qed.

(** The byte-order helpers are inverse to each other: reading back what a
    writer stored gives the word, at either width and in either order. *)
Theorem common_roundtrip x :
  ReadLE32 (WriteLE32 x) 0 = u32 x /\ ReadBE32 (WriteBE32 x) 0 = u32 x /\
  ReadLE64 (WriteLE64 x) 0 = u64 x /\ ReadBE64 (WriteBE64 x) 0 = u64 x.
Proof.
  repeat split; [apply ReadLE32_write | rewrite <- ReadLE32_write; reflexivity | apply ReadLE64_write |].
  rewrite <- ReadLE64_write. reflexivity.
Qed.
