(* ===== verification/BlockHasher.v ===== *)
(** * Streaming block hashers

    [CSHA256], [CSHA1] and [CRIPEMD160] of [crypto/] have the same [Write] and
    [Finalize], textually up to the compression function and the byte order.
    They are modelled once over an arbitrary state type and [Transform], and
    instantiated per algorithm.  The hasher's [buf] is the 64-byte C array with
    its stale bytes, [bytes] the [size_t] counter.

    [represents h m] relates a hasher to the message absorbed so far; the
    lemmas show that [Write] appends to it however the caller cuts the input. *)

From Stdlib Require Import ZArith Lia Bool.
From stdpp Require Import base option numbers list.
From S2P Require Import Prelude.

Open Scope Z_scope.

Section Hasher.
Context {St : Type} (Transform : St -> list Z -> St) (Initialize : St).

Record hasher := mkHasher { h_s : St; h_buf : list Z; h_bytes : Z }.

Definition hasher_init : hasher := mkHasher Initialize (replicate 64 0) 0.

(** [Reset()] keeps the buffer. *)
Definition hasher_reset (h : hasher) : hasher := mkHasher Initialize (h_buf h) 0.

(** [memcpy(buf + off, data, len)] with [data] already cut to [len]. *)
Definition buf_copy (buf : list Z) (off : nat) (data : list Z) : list Z :=
  take off buf ++ data ++ drop (off + length data) buf.

(** [while (end >= data + 64)]: the rest has no full chunk when the fuel is the
    number of chunks. *)
Fixpoint write_chunks (fuel : nat) (s : St) (bytes : Z) (data : list Z) : St * Z * list Z :=
  match fuel with
  | O => (s, bytes, data)
  | S fuel =>
      if 64 <=? zlen data
      then write_chunks fuel (Transform s (take 64 data)) (u64 (bytes + 64)) (drop 64 data)
      else (s, bytes, data)
  end.

(** The second half of [Write]: full chunks from the source, then the remainder
    into the empty or partly filled buffer. *)
Definition write_tail (s : St) (buf : list Z) (bytes : Z) (data : list Z) (bufsize : Z) : hasher :=
  let '(s, bytes, data) := write_chunks (length data) s bytes data in
  if 0 <? zlen data
  then mkHasher s (buf_copy buf (Z.to_nat bufsize) data) (u64 (bytes + zlen data))
  else mkHasher s buf bytes.

Definition hasher_write (h : hasher) (data : list Z) : hasher :=
  let bufsize := h_bytes h mod 64 in
  if negb (bufsize =? 0) && (64 <=? bufsize + zlen data) then
    let n := Z.to_nat (64 - bufsize) in
    let buf := buf_copy (h_buf h) (Z.to_nat bufsize) (take n data) in
    write_tail (Transform (h_s h) buf) buf (u64 (h_bytes h + (64 - bufsize))) (drop n data) 0
  else write_tail (h_s h) (h_buf h) (h_bytes h) data bufsize.

(** [Finalize] up to the output: [sizedesc] is the eight bytes of [bytes << 3]. *)
Definition hasher_finish (sizedesc : Z -> list Z) (h : hasher) : hasher :=
  let sd := sizedesc (u64 (Z.shiftl (h_bytes h) 3)) in
  let pad := 0x80 :: replicate 63 0 in
  let h := hasher_write h (take (Z.to_nat (1 + (119 - h_bytes h mod 64) mod 64)) pad) in
  hasher_write h sd.

(** ** The message a hasher has absorbed *)

(** The compression function over the full 64-byte chunks of a message. *)
Fixpoint absorb (n : nat) (s : St) (m : list Z) : St :=
  match n with
  | O => s
  | S n => absorb n (Transform s (take 64 m)) (drop 64 m)
  end.

Definition full_chunks (m : list Z) : nat := (length m / 64)%nat.

Record represents (h : hasher) (m : list Z) : Prop := mkRep {
  rep_bytes : h_bytes h = u64 (zlen m);
  rep_buflen : length (h_buf h) = 64%nat;
  rep_buf : take (length m mod 64) (h_buf h) = drop (64 * full_chunks m) m;
  rep_state : h_s h = absorb (full_chunks m) Initialize m
}.

Lemma absorb_app n k s a b :
  length a = (64 * n)%nat -> absorb (n + k) s (a ++ b) = absorb k (absorb n s a) b.
Proof.
  revert s a. induction n as [|n IH]; intros s a Ha.
  - destruct a; [reflexivity|simpl in Ha; lia].
  - cbn [Nat.add absorb]. rewrite take_app_le, drop_app_le by lia. apply IH. rewrite length_drop. lia.
Qed.

Lemma absorb_prefix n s a b :
  (64 * n <= length a)%nat -> absorb n s (a ++ b) = absorb n s a.
Proof.
  revert s a. induction n as [|n IH]; intros s a Ha; [reflexivity|].
  cbn [absorb]. rewrite take_app_le, drop_app_le by lia. apply IH. rewrite length_drop. lia.
Qed.

Lemma write_chunks_spec fuel : forall s bytes data,
  (length data < 64 * S fuel)%nat ->
  write_chunks fuel s bytes data =
    (absorb (full_chunks data) s data,
     (if bool_decide (full_chunks data = 0%nat) then bytes else u64 (bytes + 64 * Z.of_nat (full_chunks data))),
     drop (64 * full_chunks data) data).
Proof.
  unfold full_chunks. induction fuel as [|fuel IH]; intros s bytes data Hlen; cbn [write_chunks].
  - rewrite Nat.div_small by lia. reflexivity.
  - destruct (Z.leb_spec 64 (zlen data)) as [H|H]; unfold zlen in H.
    2: { rewrite Nat.div_small by lia. reflexivity. }
    rewrite IH by (rewrite length_drop; lia). rewrite length_drop.
    assert (length data / 64 = S ((length data - 64) / 64))%nat as E.
    { replace (length data) with (1 * 64 + (length data - 64))%nat at 1 by lia.
      rewrite Nat.div_add_l by lia. lia. }
    rewrite E. cbn [absorb]. rewrite drop_drop, (bool_decide_false (S _ = 0%nat)) by lia.
    replace (64 + 64 * ((length data - 64) / 64))%nat with (64 * S ((length data - 64) / 64))%nat by lia.
    set (k := ((length data - 64) / 64)%nat). f_equal. f_equal.
    case_bool_decide as Ez; unfold u64; rewrite ?Zplus_mod_idemp_l; f_equal; lia.
Qed.

Lemma init_represents : represents hasher_init [].
Proof. constructor; reflexivity. Qed.

Lemma reset_represents h m : represents h m -> represents (hasher_reset h) [].
Proof. intros []. constructor; try reflexivity. assumption. Qed.

Lemma length_buf_copy buf off data :
  (off + length data <= length buf)%nat -> length (buf_copy buf off data) = length buf.
Proof. intros. unfold buf_copy. rewrite !length_app, length_take, length_drop. lia. Qed.

Lemma take_buf_copy buf off data k :
  (off + length data <= length buf)%nat -> k = (off + length data)%nat ->
  take k (buf_copy buf off data) = take off buf ++ data.
Proof.
  intros H ->. unfold buf_copy. rewrite app_assoc. apply take_app_length'.
  rewrite length_app, length_take. lia.
Qed.

Lemma u64_add_l a b : u64 (u64 a + b) = u64 (a + b).
Proof. unfold u64. apply Zplus_mod_idemp_l. Qed.

Lemma u64_add_add a b c : u64 (u64 (u64 a + b) + c) = u64 (a + (b + c)).
Proof. rewrite u64_add_l, <- Z.add_assoc. apply u64_add_l. Qed.

Lemma u64_mod64 x : u64 x mod 64 = x mod 64.
Proof. unfold u64. change (2 ^ 64) with (64 * 2 ^ 58).
  rewrite Z.rem_mul_r by lia. rewrite Z.mul_comm, Z.mod_add, Z.mod_mod by lia. reflexivity. Qed.

(** From a chunk boundary [m], the tail absorbs [data]. *)
Lemma write_tail_boundary m buf data :
  length buf = 64%nat -> (length m mod 64 = 0)%nat ->
  represents (write_tail (absorb (full_chunks m) Initialize m) buf (u64 (zlen m)) data 0) (m ++ data).
Proof.
  intros Hbuf Hm. unfold write_tail. rewrite write_chunks_spec by lia.
  set (q := full_chunks data). set (r := drop (64 * q) data).
  assert (length m = 64 * full_chunks m)%nat as Em.
  { unfold full_chunks. pose proof (Nat.div_mod_eq (length m) 64). lia. }
  pose proof (Nat.div_mod_eq (length data) 64) as Ed. fold q in Ed. change (length data / 64)%nat with q in Ed.
  assert (length r = length data mod 64)%nat as Hr by (unfold r; rewrite length_drop; lia).
  pose proof (Nat.mod_upper_bound (length data) 64 ltac:(lia)) as Hmod.
  assert (full_chunks (m ++ data) = full_chunks m + q)%nat as Eq.
  { unfold full_chunks at 1. rewrite length_app, Em, Ed. symmetry. apply Nat.div_unique with (length data mod 64)%nat; lia. }
  assert ((length (m ++ data)) mod 64 = length r)%nat as Emod.
  { rewrite length_app, Hr. symmetry. apply Nat.mod_unique with (full_chunks m + q)%nat; lia. }
  assert (drop (64 * full_chunks (m ++ data)) (m ++ data) = r) as Edrop.
  { rewrite Eq, drop_app_ge by lia. unfold r. f_equal. lia. }
  assert (zlen data = 64 * Z.of_nat q + zlen r) as Ez by (unfold zlen; lia).
  assert (absorb (full_chunks (m ++ data)) Initialize (m ++ data) =
          absorb q (absorb (full_chunks m) Initialize m) data) as Eabs.
  { rewrite Eq. apply absorb_app. assumption. }
  destruct (Z.ltb_spec 0 (zlen r)) as [Hp|Hp]; constructor; cbn [h_s h_buf h_bytes];
    rewrite ?Eabs, ?Emod, ?Edrop; try reflexivity.
  - rewrite zlen_app. case_bool_decide as Hz; rewrite ?u64_add_add, ?u64_add_l; f_equal; lia.
  - rewrite length_buf_copy; lia.
  - apply (take_buf_copy buf 0 r); simpl; lia.
  - rewrite zlen_app. pose proof (zlen_nonneg r).
    case_bool_decide as Hz; rewrite ?u64_add_l; f_equal; lia.
  - assumption.
  - destruct r; [reflexivity|]. rewrite zlen_cons in Hp. pose proof (zlen_nonneg r). lia.
Qed.

(** A write that stays inside the buffer. *)
Lemma write_tail_small h m data :
  represents h m -> (length m mod 64 <> 0)%nat -> (length m mod 64 + length data < 64)%nat ->
  represents (write_tail (h_s h) (h_buf h) (h_bytes h) data (h_bytes h mod 64)) (m ++ data).
Proof.
  intros [Hb Hl Hbuf Hs] Hnz Hlt. unfold write_tail.
  assert (h_bytes h mod 64 = Z.of_nat (length m mod 64)) as Ebs.
  { rewrite Hb, u64_mod64. unfold zlen. rewrite Nat2Z.inj_mod. reflexivity. }
  assert (full_chunks data = 0%nat) as E0 by (apply Nat.div_small; lia).
  rewrite write_chunks_spec, E0 by lia. rewrite bool_decide_true by reflexivity. cbn [absorb]. rewrite Nat.mul_0_r, drop_0.
  pose proof (Nat.div_mod_eq (length m) 64) as Em.
  assert (full_chunks (m ++ data) = full_chunks m) as Eq.
  { unfold full_chunks. rewrite length_app. symmetry. apply Nat.div_unique with (length m mod 64 + length data)%nat; lia. }
  assert ((length (m ++ data)) mod 64 = length m mod 64 + length data)%nat as Emod.
  { rewrite length_app. symmetry. apply Nat.mod_unique with (length m / 64)%nat; lia. }
  assert (absorb (full_chunks (m ++ data)) Initialize (m ++ data) = absorb (full_chunks m) Initialize m) as Eabs.
  { rewrite Eq. apply absorb_prefix. unfold full_chunks. lia. }
  assert (drop (64 * full_chunks (m ++ data)) (m ++ data) = drop (64 * full_chunks m) m ++ data) as Edrop.
  { rewrite Eq. apply drop_app_le. unfold full_chunks. lia. }
  rewrite Ebs, Nat2Z.id.
  destruct (Z.ltb_spec 0 (zlen data)) as [Hp|Hp].
  - constructor; cbn [h_s h_buf h_bytes]; rewrite ?Eabs, ?Emod, ?Edrop.
    + rewrite Hb, u64_add_l, zlen_app. reflexivity.
    + rewrite length_buf_copy; lia.
    + rewrite take_buf_copy, Hbuf by lia. reflexivity.
    + assumption.
  - assert (data = []) as -> by (destruct data; [reflexivity|rewrite zlen_cons in Hp; pose proof (zlen_nonneg data); lia]).
    rewrite app_nil_r. constructor; assumption.
Qed.

(** Completing the pending block is one more step of the fold. *)
Lemma absorb_complete m b :
  (length m mod 64 + length b = 64)%nat ->
  full_chunks (m ++ b) = S (full_chunks m) /\
  absorb (full_chunks (m ++ b)) Initialize (m ++ b) =
    Transform (absorb (full_chunks m) Initialize m) (drop (64 * full_chunks m) m ++ b).
Proof.
  intros Hb. pose proof (Nat.div_mod_eq (length m) 64) as Em. fold (full_chunks m) in Em.
  assert (full_chunks (m ++ b) = S (full_chunks m)) as E.
  { unfold full_chunks at 1. rewrite length_app. symmetry. apply Nat.div_unique with 0%nat; lia. }
  split; [exact E|]. rewrite E.
  set (q := full_chunks m) in *. set (a := take (64 * q) m). set (r := drop (64 * q) m).
  assert (m = a ++ r) as Hm by (symmetry; apply take_drop).
  assert (length a = 64 * q)%nat as Ha by (unfold a; rewrite length_take; lia).
  assert (length r = length m mod 64)%nat as Hr by (unfold r; rewrite length_drop; lia).
  rewrite Hm, <- app_assoc, (absorb_prefix q _ a r) by lia. replace (S q) with (q + 1)%nat by lia.
  rewrite absorb_app by exact Ha. cbn [absorb]. rewrite take_ge by (rewrite length_app; lia). reflexivity.
Qed.

(** [Write] appends to the absorbed message, whatever the state of the buffer. *)
Lemma write_represents h m data : represents h m -> represents (hasher_write h data) (m ++ data).
Proof.
  intros Hrep. pose proof Hrep as [Hb Hl Hbuf Hs].
  pose proof (Nat.mod_upper_bound (length m) 64 ltac:(lia)) as Hmod.
  pose proof (Nat.div_mod_eq (length m) 64) as Em.
  assert (h_bytes h mod 64 = Z.of_nat (length m mod 64)) as Ebs.
  { rewrite Hb, u64_mod64. unfold zlen. rewrite Nat2Z.inj_mod. reflexivity. }
  unfold hasher_write. destruct (Z.eqb_spec (h_bytes h mod 64) 0) as [Hz|Hz]; cbn [negb andb].
  { rewrite Hz, Hs, Hb. apply write_tail_boundary; lia. }
  destruct (Z.leb_spec 64 (h_bytes h mod 64 + zlen data)) as [Hge|Hlt].
  2: { apply write_tail_small; unfold zlen in *; try lia. exact Hrep. }
  set (n := Z.to_nat (64 - h_bytes h mod 64)).
  assert (length (take n data) = n) as Hn by (rewrite length_take; unfold n, zlen in *; lia).
  set (buf := buf_copy _ _ _).
  assert (length buf = 64)%nat as Hbl by (unfold buf; rewrite length_buf_copy; unfold n in *; lia).
  assert (buf = drop (64 * full_chunks m) m ++ take n data) as Ebuf.
  { rewrite <- Hbuf, <- (take_buf_copy (h_buf h) (length m mod 64) (take n data) 64) by (unfold n in *; lia).
    unfold buf in *. rewrite Ebs, Nat2Z.id in *. symmetry. apply take_ge. lia. }
  destruct (absorb_complete m (take n data)) as [Hq Habs]; [unfold n in *; lia|].
  replace (m ++ data) with ((m ++ take n data) ++ drop n data) by (rewrite <- app_assoc, take_drop; reflexivity).
  rewrite Hs, Ebuf, <- Habs, <- Ebuf.
  replace (u64 (h_bytes h + (64 - h_bytes h mod 64))) with (u64 (zlen (m ++ take n data))).
  2: { rewrite Hb at 1. rewrite u64_add_l, zlen_app. f_equal. unfold zlen at 2. rewrite Hn. unfold n. lia. }
  apply write_tail_boundary; [exact Hbl|].
  rewrite length_app, Hn. symmetry. apply Nat.mod_unique with (S (full_chunks m)); unfold full_chunks, n; lia.
Qed.

(** Any sequence of [Write]s absorbs the concatenation. *)
Lemma writes_represent h m ds :
  represents h m -> represents (fold_left hasher_write ds h) (m ++ concat ds).
Proof.
  revert h m. induction ds as [|d ds IH]; intros h m H; simpl.
  - rewrite app_nil_r. exact H.
  - rewrite app_assoc. apply IH, write_represents, H.
Qed.

(** ** The padded message *)

(** Merkle-Damgard padding: 0x80, zeros up to 56 modulo 64, the 64-bit length. *)
Definition md_pad (sizedesc : Z -> list Z) (m : list Z) : list Z :=
  m ++ [0x80] ++ replicate (Z.to_nat ((55 - zlen m) mod 64)) 0 ++ sizedesc (u64 (8 * zlen m)).

Definition md_digest_state (sizedesc : Z -> list Z) (m : list Z) : St :=
  absorb (full_chunks (md_pad sizedesc m)) Initialize (md_pad sizedesc m).

Lemma length_md_pad sizedesc m :
  (forall x, length (sizedesc x) = 8%nat) -> (length (md_pad sizedesc m) mod 64 = 0)%nat.
Proof.
  intros Hsd. unfold md_pad. rewrite !length_app, length_replicate, Hsd. cbn [length].
  apply Nat2Z.inj. rewrite Nat2Z.inj_mod, !Nat2Z.inj_add, Z2Nat.id by (apply Z.mod_pos_bound; lia).
  unfold zlen. change (Z.of_nat 64) with 64. change (Z.of_nat 1) with 1. change (Z.of_nat 8) with 8.
  replace (Z.of_nat (length m) + (1 + ((55 - Z.of_nat (length m)) mod 64 + 8)))
    with ((Z.of_nat (length m) + 9) + (55 - Z.of_nat (length m)) mod 64) by lia.
  rewrite Zplus_mod_idemp_r. replace (_ + 9 + _) with 64 by lia. reflexivity.
Qed.

(** [Finalize] leaves the state of the padded message. *)
Lemma finish_state sizedesc h m :
  represents h m -> h_s (hasher_finish sizedesc h) = md_digest_state sizedesc m.
Proof.
  intros Hrep. pose proof (rep_bytes _ _ Hrep) as Hb. unfold hasher_finish, md_digest_state.
  replace (md_pad sizedesc m) with ((m ++ take (Z.to_nat (1 + (119 - h_bytes h mod 64) mod 64)) (0x80 :: replicate 63 0))
     ++ sizedesc (u64 (Z.shiftl (h_bytes h) 3))).
  { apply rep_state, write_represents, write_represents, Hrep. }
  unfold md_pad. rewrite <- !app_assoc. f_equal. rewrite app_assoc. f_equal.
  - rewrite Hb, u64_mod64. rewrite Zminus_mod_idemp_r.
    replace ((119 - zlen m) mod 64) with ((55 - zlen m) mod 64).
    2: { replace (119 - zlen m) with ((55 - zlen m) + 1 * 64) by lia. rewrite Z.mod_add by lia. reflexivity. }
    pose proof (Z.mod_pos_bound (55 - zlen m) 64 ltac:(lia)).
    replace (Z.to_nat (1 + (55 - zlen m) mod 64)) with (S (Z.to_nat ((55 - zlen m) mod 64))) by lia.
    rewrite firstn_cons, take_replicate. cbn [app]. do 2 f_equal. lia.
  - f_equal. rewrite Hb, Z.shiftl_mul_pow2 by lia. change (2 ^ 3) with 8. unfold u64.
    rewrite Zmult_mod_idemp_l. f_equal. lia.
Qed.

End Hasher.
