(* ===== verification/MessageSchedule.v ===== *)
(** * Message schedules

    SHA-1 and SHA-256 specify their word sequence as a recurrence over all words
    so far; the code keeps the last sixteen in variables and computes a word when
    a round needs it.  The equivalence of the two, for any recurrence that only
    looks at the last sixteen words. *)

From Stdlib Require Import ZArith Lia Bool.
From stdpp Require Import base option numbers list.
From S2P Require Import Prelude.

Open Scope Z_scope.

Section Schedule.
Context {St KT : Type} (step : St -> KT * Z -> St) (next_word : list Z -> Z).
Hypothesis next_word_suffix : forall pre ws,
  length ws = 16%nat -> next_word (pre ++ ws) = next_word ws.

(** [n] more words after [ws]. *)
Fixpoint schedule (n : nat) (ws : list Z) : list Z :=
  match n with O => ws | S n => schedule n (ws ++ [next_word ws]) end.

(** The schedule computed when a word is needed, keeping the last sixteen. *)
Fixpoint lazy_rounds (ks : list KT) (ws : list Z) (r : St) : St :=
  match ks with
  | [] => r
  | k :: ks => let w := next_word ws in lazy_rounds ks (drop 1 ws ++ [w]) (step r (k, w))
  end.

Lemma schedule_prefix n ws : exists l, schedule n ws = ws ++ l.
Proof.
  revert ws. induction n as [|n IH]; intros ws; cbn [schedule].
  - exists []. rewrite app_nil_r. reflexivity.
  - destruct (IH (ws ++ [next_word ws])) as [t Et]. exists (next_word ws :: t).
    rewrite Et, <- app_assoc. reflexivity.
Qed.

Lemma schedule_lazy ks : forall pre ws r,
  length ws = 16%nat ->
  fold_left step (zip ks (drop (length pre + 16) (schedule (length ks) (pre ++ ws)))) r = lazy_rounds ks ws r.
Proof.
  induction ks as [|k ks IH]; intros pre ws r Hws; [reflexivity|].
  destruct ws as [|w ws]; [discriminate|]. cbn [length schedule lazy_rounds].
  rewrite next_word_suffix by exact Hws. set (w' := next_word (w :: ws)).
  replace ((pre ++ w :: ws) ++ [w']) with ((pre ++ [w]) ++ (ws ++ [w'])) by (rewrite <- !app_assoc; reflexivity).
  specialize (IH (pre ++ [w]) (ws ++ [w']) (step r (k, w'))).
  destruct (schedule_prefix (length ks) ((pre ++ [w]) ++ (ws ++ [w']))) as [l El].
  simpl in Hws. rewrite El in *.
  replace (((pre ++ [w]) ++ ws ++ [w']) ++ l) with ((pre ++ w :: ws) ++ w' :: l) by (rewrite <- !app_assoc; reflexivity).
  rewrite drop_app_length' by (rewrite length_app; simpl; lia). cbn [zip zip_with fold_left].
  change (drop 1 (w :: ws)) with ws. rewrite <- IH by (rewrite length_app; simpl; lia). f_equal. f_equal.
  rewrite drop_app_length' by (rewrite !length_app; simpl; lia). reflexivity.
Qed.

(** The first sixteen rounds take the block's own words, the others the lazily
    computed ones. *)
Lemma schedule_split (ks : list KT) ws r :
  length ws = 16%nat -> (16 <= length ks)%nat ->
  fold_left step (zip ks (schedule (length ks - 16) ws)) r =
  lazy_rounds (drop 16 ks) ws (fold_left step (zip (take 16 ks) ws) r).
Proof.
  intros Hw Hks. rewrite <- (schedule_lazy (drop 16 ks) []) by exact Hw.
  rewrite length_drop. cbn [app length Nat.add]. rewrite <- (fold_left_app step).
  apply (f_equal (fun l => fold_left step l r)).
  destruct (schedule_prefix (length ks - 16) ws) as [l El]. rewrite El, drop_app_length' by (symmetry; exact Hw).
  rewrite <- (take_drop 16 ks) at 1. apply zip_with_app. rewrite length_take. lia.
Qed.

End Schedule.

(** The 64-byte blocks of a padded message, first to last. *)
Fixpoint blocks (n : nat) (m : list Z) : list (list Z) :=
  match n with O => [] | S n => take 64 m :: blocks n (drop 64 m) end.

(** The integer square root and the integer cube root (bit by bit below [2 ^ n]),
    from which the standards define their constants. *)
Fixpoint cbrt_bits (n : nat) (x r : Z) : Z :=
  match n with
  | O => r
  | S n => let r' := r + 2 ^ Z.of_nat n in cbrt_bits n x (if r' * r' * r' <=? x then r' else r)
  end.
