(* ===== verification/Sha256.v ===== *)
(** * SHA-256: [crypto/sha256.cpp]

    The unrolled compression function of [sha256::Transform], line by line: an
    assignment is a shadowing [let], [Round] returns the two registers it takes by
    reference.  [FIPS] is the specification of FIPS 180-4 (message schedule as a
    recurrence, sixty-four identical rounds, constants defined from the roots of
    the first primes), and [Transform_fips] shows that the code computes it. *)

From Stdlib Require Import ZArith Lia Bool.
From stdpp Require Import base option numbers list.
From S2P Require Import Prelude CryptoCommon BlockHasher MessageSchedule.

Open Scope Z_scope.

Record state := mkState { s0 : Z; s1 : Z; s2 : Z; s3 : Z; s4 : Z; s5 : Z; s6 : Z; s7 : Z }.

Definition Ch (x y z : Z) : Z := Z.lxor z (Z.land x (Z.lxor y z)).
Definition Maj (x y z : Z) : Z := Z.lor (Z.land x y) (Z.land z (Z.lor x y)).
Definition Sigma0 (x : Z) : Z :=
  Z.lxor (Z.lxor (Z.lor (shr32 x 2) (shl32 x 30)) (Z.lor (shr32 x 13) (shl32 x 19))) (Z.lor (shr32 x 22) (shl32 x 10)).
Definition Sigma1 (x : Z) : Z :=
  Z.lxor (Z.lxor (Z.lor (shr32 x 6) (shl32 x 26)) (Z.lor (shr32 x 11) (shl32 x 21))) (Z.lor (shr32 x 25) (shl32 x 7)).
Definition sigma0 (x : Z) : Z :=
  Z.lxor (Z.lxor (Z.lor (shr32 x 7) (shl32 x 25)) (Z.lor (shr32 x 18) (shl32 x 14))) (shr32 x 3).
Definition sigma1 (x : Z) : Z :=
  Z.lxor (Z.lxor (Z.lor (shr32 x 17) (shl32 x 15)) (Z.lor (shr32 x 19) (shl32 x 13))) (shr32 x 10).

Definition Round (a b c d e f g h k w : Z) : Z * Z :=
  let t1 := u32 (h + Sigma1 e + Ch e f g + k + w) in
  let t2 := u32 (Sigma0 a + Maj a b c) in
  (u32 (d + t1), u32 (t1 + t2)).

Definition Initialize : state :=
  mkState 0x6a09e667 0xbb67ae85 0x3c6ef372 0xa54ff53a 0x510e527f 0x9b05688c 0x1f83d9ab 0x5be0cd19.

(** The sixteen word variables [w0] .. [w15] of [Transform]. *)
Record words16 := mkW {
  w_0 : Z; w_1 : Z; w_2 : Z; w_3 : Z; w_4 : Z; w_5 : Z; w_6 : Z; w_7 : Z;
  w_8 : Z; w_9 : Z; w_10 : Z; w_11 : Z; w_12 : Z; w_13 : Z; w_14 : Z; w_15 : Z
}.

(** The body of [Transform], in its four groups of sixteen lines. *)
Definition Rounds_0_15 (r : state) (chunk : list Z) : state * words16 :=
  let '(mkState a b c d e f g h) := r in
  let w0 := ReadBE32 chunk 0 in let '(d, h) := Round a b c d e f g h 0x428a2f98 w0 in
  let w1 := ReadBE32 chunk 4 in let '(c, g) := Round h a b c d e f g 0x71374491 w1 in
  let w2 := ReadBE32 chunk 8 in let '(b, f) := Round g h a b c d e f 0xb5c0fbcf w2 in
  let w3 := ReadBE32 chunk 12 in let '(a, e) := Round f g h a b c d e 0xe9b5dba5 w3 in
  let w4 := ReadBE32 chunk 16 in let '(h, d) := Round e f g h a b c d 0x3956c25b w4 in
  let w5 := ReadBE32 chunk 20 in let '(g, c) := Round d e f g h a b c 0x59f111f1 w5 in
  let w6 := ReadBE32 chunk 24 in let '(f, b) := Round c d e f g h a b 0x923f82a4 w6 in
  let w7 := ReadBE32 chunk 28 in let '(e, a) := Round b c d e f g h a 0xab1c5ed5 w7 in
  let w8 := ReadBE32 chunk 32 in let '(d, h) := Round a b c d e f g h 0xd807aa98 w8 in
  let w9 := ReadBE32 chunk 36 in let '(c, g) := Round h a b c d e f g 0x12835b01 w9 in
  let w10 := ReadBE32 chunk 40 in let '(b, f) := Round g h a b c d e f 0x243185be w10 in
  let w11 := ReadBE32 chunk 44 in let '(a, e) := Round f g h a b c d e 0x550c7dc3 w11 in
  let w12 := ReadBE32 chunk 48 in let '(h, d) := Round e f g h a b c d 0x72be5d74 w12 in
  let w13 := ReadBE32 chunk 52 in let '(g, c) := Round d e f g h a b c 0x80deb1fe w13 in
  let w14 := ReadBE32 chunk 56 in let '(f, b) := Round c d e f g h a b 0x9bdc06a7 w14 in
  let w15 := ReadBE32 chunk 60 in let '(e, a) := Round b c d e f g h a 0xc19bf174 w15 in
  (mkState a b c d e f g h, mkW w0 w1 w2 w3 w4 w5 w6 w7 w8 w9 w10 w11 w12 w13 w14 w15).

Definition Rounds_16_31 (rw : state * words16) : state * words16 :=
  let '(mkState a b c d e f g h, mkW w0 w1 w2 w3 w4 w5 w6 w7 w8 w9 w10 w11 w12 w13 w14 w15) := rw in
  let w0 := u32 (w0 + (sigma1 w14 + w9 + sigma0 w1)) in let '(d, h) := Round a b c d e f g h 0xe49b69c1 w0 in
  let w1 := u32 (w1 + (sigma1 w15 + w10 + sigma0 w2)) in let '(c, g) := Round h a b c d e f g 0xefbe4786 w1 in
  let w2 := u32 (w2 + (sigma1 w0 + w11 + sigma0 w3)) in let '(b, f) := Round g h a b c d e f 0x0fc19dc6 w2 in
  let w3 := u32 (w3 + (sigma1 w1 + w12 + sigma0 w4)) in let '(a, e) := Round f g h a b c d e 0x240ca1cc w3 in
  let w4 := u32 (w4 + (sigma1 w2 + w13 + sigma0 w5)) in let '(h, d) := Round e f g h a b c d 0x2de92c6f w4 in
  let w5 := u32 (w5 + (sigma1 w3 + w14 + sigma0 w6)) in let '(g, c) := Round d e f g h a b c 0x4a7484aa w5 in
  let w6 := u32 (w6 + (sigma1 w4 + w15 + sigma0 w7)) in let '(f, b) := Round c d e f g h a b 0x5cb0a9dc w6 in
  let w7 := u32 (w7 + (sigma1 w5 + w0 + sigma0 w8)) in let '(e, a) := Round b c d e f g h a 0x76f988da w7 in
  let w8 := u32 (w8 + (sigma1 w6 + w1 + sigma0 w9)) in let '(d, h) := Round a b c d e f g h 0x983e5152 w8 in
  let w9 := u32 (w9 + (sigma1 w7 + w2 + sigma0 w10)) in let '(c, g) := Round h a b c d e f g 0xa831c66d w9 in
  let w10 := u32 (w10 + (sigma1 w8 + w3 + sigma0 w11)) in let '(b, f) := Round g h a b c d e f 0xb00327c8 w10 in
  let w11 := u32 (w11 + (sigma1 w9 + w4 + sigma0 w12)) in let '(a, e) := Round f g h a b c d e 0xbf597fc7 w11 in
  let w12 := u32 (w12 + (sigma1 w10 + w5 + sigma0 w13)) in let '(h, d) := Round e f g h a b c d 0xc6e00bf3 w12 in
  let w13 := u32 (w13 + (sigma1 w11 + w6 + sigma0 w14)) in let '(g, c) := Round d e f g h a b c 0xd5a79147 w13 in
  let w14 := u32 (w14 + (sigma1 w12 + w7 + sigma0 w15)) in let '(f, b) := Round c d e f g h a b 0x06ca6351 w14 in
  let w15 := u32 (w15 + (sigma1 w13 + w8 + sigma0 w0)) in let '(e, a) := Round b c d e f g h a 0x14292967 w15 in
  (mkState a b c d e f g h, mkW w0 w1 w2 w3 w4 w5 w6 w7 w8 w9 w10 w11 w12 w13 w14 w15).

Definition Rounds_32_47 (rw : state * words16) : state * words16 :=
  let '(mkState a b c d e f g h, mkW w0 w1 w2 w3 w4 w5 w6 w7 w8 w9 w10 w11 w12 w13 w14 w15) := rw in
  let w0 := u32 (w0 + (sigma1 w14 + w9 + sigma0 w1)) in let '(d, h) := Round a b c d e f g h 0x27b70a85 w0 in
  let w1 := u32 (w1 + (sigma1 w15 + w10 + sigma0 w2)) in let '(c, g) := Round h a b c d e f g 0x2e1b2138 w1 in
  let w2 := u32 (w2 + (sigma1 w0 + w11 + sigma0 w3)) in let '(b, f) := Round g h a b c d e f 0x4d2c6dfc w2 in
  let w3 := u32 (w3 + (sigma1 w1 + w12 + sigma0 w4)) in let '(a, e) := Round f g h a b c d e 0x53380d13 w3 in
  let w4 := u32 (w4 + (sigma1 w2 + w13 + sigma0 w5)) in let '(h, d) := Round e f g h a b c d 0x650a7354 w4 in
  let w5 := u32 (w5 + (sigma1 w3 + w14 + sigma0 w6)) in let '(g, c) := Round d e f g h a b c 0x766a0abb w5 in
  let w6 := u32 (w6 + (sigma1 w4 + w15 + sigma0 w7)) in let '(f, b) := Round c d e f g h a b 0x81c2c92e w6 in
  let w7 := u32 (w7 + (sigma1 w5 + w0 + sigma0 w8)) in let '(e, a) := Round b c d e f g h a 0x92722c85 w7 in
  let w8 := u32 (w8 + (sigma1 w6 + w1 + sigma0 w9)) in let '(d, h) := Round a b c d e f g h 0xa2bfe8a1 w8 in
  let w9 := u32 (w9 + (sigma1 w7 + w2 + sigma0 w10)) in let '(c, g) := Round h a b c d e f g 0xa81a664b w9 in
  let w10 := u32 (w10 + (sigma1 w8 + w3 + sigma0 w11)) in let '(b, f) := Round g h a b c d e f 0xc24b8b70 w10 in
  let w11 := u32 (w11 + (sigma1 w9 + w4 + sigma0 w12)) in let '(a, e) := Round f g h a b c d e 0xc76c51a3 w11 in
  let w12 := u32 (w12 + (sigma1 w10 + w5 + sigma0 w13)) in let '(h, d) := Round e f g h a b c d 0xd192e819 w12 in
  let w13 := u32 (w13 + (sigma1 w11 + w6 + sigma0 w14)) in let '(g, c) := Round d e f g h a b c 0xd6990624 w13 in
  let w14 := u32 (w14 + (sigma1 w12 + w7 + sigma0 w15)) in let '(f, b) := Round c d e f g h a b 0xf40e3585 w14 in
  let w15 := u32 (w15 + (sigma1 w13 + w8 + sigma0 w0)) in let '(e, a) := Round b c d e f g h a 0x106aa070 w15 in
  (mkState a b c d e f g h, mkW w0 w1 w2 w3 w4 w5 w6 w7 w8 w9 w10 w11 w12 w13 w14 w15).

Definition Rounds_48_63 (rw : state * words16) : state :=
  let '(mkState a b c d e f g h, mkW w0 w1 w2 w3 w4 w5 w6 w7 w8 w9 w10 w11 w12 w13 w14 w15) := rw in
  let w0 := u32 (w0 + (sigma1 w14 + w9 + sigma0 w1)) in let '(d, h) := Round a b c d e f g h 0x19a4c116 w0 in
  let w1 := u32 (w1 + (sigma1 w15 + w10 + sigma0 w2)) in let '(c, g) := Round h a b c d e f g 0x1e376c08 w1 in
  let w2 := u32 (w2 + (sigma1 w0 + w11 + sigma0 w3)) in let '(b, f) := Round g h a b c d e f 0x2748774c w2 in
  let w3 := u32 (w3 + (sigma1 w1 + w12 + sigma0 w4)) in let '(a, e) := Round f g h a b c d e 0x34b0bcb5 w3 in
  let w4 := u32 (w4 + (sigma1 w2 + w13 + sigma0 w5)) in let '(h, d) := Round e f g h a b c d 0x391c0cb3 w4 in
  let w5 := u32 (w5 + (sigma1 w3 + w14 + sigma0 w6)) in let '(g, c) := Round d e f g h a b c 0x4ed8aa4a w5 in
  let w6 := u32 (w6 + (sigma1 w4 + w15 + sigma0 w7)) in let '(f, b) := Round c d e f g h a b 0x5b9cca4f w6 in
  let w7 := u32 (w7 + (sigma1 w5 + w0 + sigma0 w8)) in let '(e, a) := Round b c d e f g h a 0x682e6ff3 w7 in
  let w8 := u32 (w8 + (sigma1 w6 + w1 + sigma0 w9)) in let '(d, h) := Round a b c d e f g h 0x748f82ee w8 in
  let w9 := u32 (w9 + (sigma1 w7 + w2 + sigma0 w10)) in let '(c, g) := Round h a b c d e f g 0x78a5636f w9 in
  let w10 := u32 (w10 + (sigma1 w8 + w3 + sigma0 w11)) in let '(b, f) := Round g h a b c d e f 0x84c87814 w10 in
  let w11 := u32 (w11 + (sigma1 w9 + w4 + sigma0 w12)) in let '(a, e) := Round f g h a b c d e 0x8cc70208 w11 in
  let w12 := u32 (w12 + (sigma1 w10 + w5 + sigma0 w13)) in let '(h, d) := Round e f g h a b c d 0x90befffa w12 in
  let w13 := u32 (w13 + (sigma1 w11 + w6 + sigma0 w14)) in let '(g, c) := Round d e f g h a b c 0xa4506ceb w13 in
  let '(f, b) := Round c d e f g h a b 0xbef9a3f7 (u32 (w14 + sigma1 w12 + w7 + sigma0 w15)) in
  let '(e, a) := Round b c d e f g h a 0xc67178f2 (u32 (w15 + sigma1 w13 + w8 + sigma0 w0)) in
  mkState a b c d e f g h.

Definition Transform (s : state) (chunk : list Z) : state :=
  let '(mkState a b c d e f g h) := Rounds_48_63 (Rounds_32_47 (Rounds_16_31 (Rounds_0_15 s chunk))) in
  mkState (u32 (s0 s + a)) (u32 (s1 s + b)) (u32 (s2 s + c)) (u32 (s3 s + d))
          (u32 (s4 s + e)) (u32 (s5 s + f)) (u32 (s6 s + g)) (u32 (s7 s + h)).

(** ** The class [CSHA256] *)

Abbreviation CSHA256 := (hasher (St := state)).

Definition CSHA256_new : CSHA256 := hasher_init Initialize.
Definition CSHA256_Write (h : CSHA256) (data : list Z) : CSHA256 := hasher_write Transform h data.
Definition CSHA256_Finalize (h : CSHA256) : list Z :=
  let s := h_s (hasher_finish Transform WriteBE64 h) in
  WriteBE32 (s0 s) ++ WriteBE32 (s1 s) ++ WriteBE32 (s2 s) ++ WriteBE32 (s3 s) ++
  WriteBE32 (s4 s) ++ WriteBE32 (s5 s) ++ WriteBE32 (s6 s) ++ WriteBE32 (s7 s).
Definition CSHA256_Reset (h : CSHA256) : CSHA256 := hasher_reset Initialize h.

(** [CSHA256().Write(m, len).Finalize(hash)] *)
Definition SHA256_digest (m : list Z) : list Z := CSHA256_Finalize (CSHA256_Write CSHA256_new m).

(** ** FIPS 180-4 *)

Module FIPS.

(** [rotr n x] on 32-bit words. *)
Definition rotr (n x : Z) : Z := Z.lor (Z.shiftr x n) (u32 (Z.shiftl x (32 - n))).
Definition Ch (x y z : Z) : Z := Z.lxor (Z.land x y) (Z.land (Z.lnot x) z).
Definition Maj (x y z : Z) : Z := Z.lxor (Z.lxor (Z.land x y) (Z.land x z)) (Z.land y z).
Definition BSIG0 (x : Z) : Z := Z.lxor (Z.lxor (rotr 2 x) (rotr 13 x)) (rotr 22 x).
Definition BSIG1 (x : Z) : Z := Z.lxor (Z.lxor (rotr 6 x) (rotr 11 x)) (rotr 25 x).
Definition SSIG0 (x : Z) : Z := Z.lxor (Z.lxor (rotr 7 x) (rotr 18 x)) (Z.shiftr x 3).
Definition SSIG1 (x : Z) : Z := Z.lxor (Z.lxor (rotr 17 x) (rotr 19 x)) (Z.shiftr x 10).

(** The first [n] primes from [p] on, by trial division. *)
Definition is_prime (p : Z) : bool :=
  forallb (fun d => negb (p mod Z.of_nat d =? 0)) (seq 2 (Z.to_nat (Z.sqrt p) - 1)).
Fixpoint primes (fuel n : nat) (p : Z) : list Z :=
  match fuel, n with
  | S fuel, S n' => if is_prime p then p :: primes fuel n' (p + 1) else primes fuel n (p + 1)
  | _, _ => []
  end.

(** The first 32 bits of the fractional parts of the cube roots (square roots)
    of the first 64 (8) primes. *)
Definition K : list Z := map (fun p => cbrt_bits 36 (p * 2 ^ 96) 0 mod 2 ^ 32) (primes 400 64 2).
Definition H0 : list Z := map (fun p => Z.sqrt (p * 2 ^ 64) mod 2 ^ 32) (primes 400 8 2).

(** [W_t] from the words before it. *)
Definition next_word (ws : list Z) : Z :=
  let w i := nth (length ws - i) ws 0 in
  u32 (SSIG1 (w 2%nat) + w 7%nat + SSIG0 (w 15%nat) + w 16%nat).
Definition schedule : nat -> list Z -> list Z := MessageSchedule.schedule next_word.

Definition step (r : state) (kw : Z * Z) : state :=
  let '(mkState a b c d e f g h) := r in
  let T1 := u32 (h + BSIG1 e + Ch e f g + fst kw + snd kw) in
  let T2 := u32 (BSIG0 a + Maj a b c) in
  mkState (u32 (T1 + T2)) a b c (u32 (d + T1)) e f g.

Definition words (block : list Z) : list Z :=
  map (fun i => ReadBE32 block (4 * i)) (seq 0 16).

Definition add_state (s r : state) : state :=
  mkState (u32 (s0 s + s0 r)) (u32 (s1 s + s1 r)) (u32 (s2 s + s2 r)) (u32 (s3 s + s3 r))
          (u32 (s4 s + s4 r)) (u32 (s5 s + s5 r)) (u32 (s6 s + s6 r)) (u32 (s7 s + s7 r)).

Definition compress (s : state) (block : list Z) : state :=
  add_state s (fold_left step (zip K (schedule 48 (words block))) s).

Definition initial : state :=
  match H0 with
  | [a; b; c; d; e; f; g; h] => mkState a b c d e f g h
  | _ => mkState 0 0 0 0 0 0 0 0
  end.

Definition pad (m : list Z) : list Z :=
  m ++ [0x80] ++ replicate (Z.to_nat ((55 - zlen m) mod 64)) 0 ++ be_encode 8 (8 * zlen m).

Definition sha256 (m : list Z) : list Z :=
  let p := pad m in
  let s := fold_left compress (blocks (length p / 64) p) initial in
  concat (map (be_encode 4) [s0 s; s1 s; s2 s; s3 s; s4 s; s5 s; s6 s; s7 s]).

End FIPS.

(** ** The code computes FIPS 180-4 *)

Lemma Ch_fips x y z : Ch x y z = FIPS.Ch x y z.
Proof.
  apply Z.bits_inj'. intros i Hi. unfold Ch, FIPS.Ch.
  rewrite !Z.lxor_spec, !Z.land_spec, Z.lxor_spec, Z.lnot_spec by lia.
  destruct (Z.testbit x i), (Z.testbit y i), (Z.testbit z i); reflexivity.
Qed.

Lemma Maj_fips x y z : Maj x y z = FIPS.Maj x y z.
Proof.
  apply Z.bits_inj'. intros i Hi. unfold Maj, FIPS.Maj.
  rewrite !Z.lor_spec, !Z.lxor_spec, !Z.land_spec, !Z.lor_spec.
  destruct (Z.testbit x i), (Z.testbit y i), (Z.testbit z i); reflexivity.
Qed.

Lemma Sigma_fips x :
  Sigma0 x = FIPS.BSIG0 x /\ Sigma1 x = FIPS.BSIG1 x /\ sigma0 x = FIPS.SSIG0 x /\ sigma1 x = FIPS.SSIG1 x.
Proof. repeat split; reflexivity. Qed.

Lemma step_Round a b c d e f g h k w :
  FIPS.step (mkState a b c d e f g h) (k, w) =
  mkState (snd (Round a b c d e f g h k w)) a b c (fst (Round a b c d e f g h k w)) e f g.
Proof.
  destruct (Sigma_fips a) as [Ea _]. destruct (Sigma_fips e) as (_ & Ee & _).
  unfold FIPS.step, Round. rewrite Ch_fips, Maj_fips, Ea, Ee. reflexivity.
Qed.

Lemma next_word_suffix pre ws : length ws = 16%nat -> FIPS.next_word (pre ++ ws) = FIPS.next_word ws.
Proof.
  intros H. assert (forall i, (i <= 16)%nat -> nth (length (pre ++ ws) - i) (pre ++ ws) 0 = nth (length ws - i) ws 0) as Hn.
  { intros i Hi. rewrite length_app, app_nth2 by lia. f_equal. lia. }
  unfold FIPS.next_word. rewrite !Hn by lia. reflexivity.
Qed.


Lemma Initialize_fips : Initialize = FIPS.initial.
Proof. vm_compute. reflexivity. Qed.

(** The next word, as the code adds it up. *)
Lemma lazy_rounds_cons k ks w0 w1 w2 w3 w4 w5 w6 w7 w8 w9 w10 w11 w12 w13 w14 w15 r :
  lazy_rounds FIPS.step FIPS.next_word (k :: ks) [w0; w1; w2; w3; w4; w5; w6; w7; w8; w9; w10; w11; w12; w13; w14; w15] r =
  let w := u32 (w0 + (sigma1 w14 + w9 + sigma0 w1)) in
  lazy_rounds FIPS.step FIPS.next_word ks [w1; w2; w3; w4; w5; w6; w7; w8; w9; w10; w11; w12; w13; w14; w15; w] (FIPS.step r (k, w)).
Proof.
  cbn [lazy_rounds app drop].
  replace (FIPS.next_word _) with (u32 (w0 + (sigma1 w14 + w9 + sigma0 w1))); [reflexivity|].
  destruct (Sigma_fips w1) as (_ & _ & E1 & _). destruct (Sigma_fips w14) as (_ & _ & _ & E14).
  unfold FIPS.next_word. cbn [nth length Nat.sub]. rewrite <- E1, <- E14. f_equal. lia.
Qed.

Lemma sum4_assoc a b c d : a + b + c + d = a + (b + c + d).
Proof. lia. Qed.

Lemma rounds_fips s chunk :
  fold_left FIPS.step (zip FIPS.K (FIPS.schedule 48 (FIPS.words chunk))) s =
  lazy_rounds FIPS.step FIPS.next_word (drop 16 FIPS.K) (FIPS.words chunk) (fold_left FIPS.step (zip (take 16 FIPS.K) (FIPS.words chunk)) s).
Proof.
  assert (length FIPS.K = 64%nat) as Hk by (vm_compute; reflexivity).
  unfold FIPS.schedule. replace 48%nat with (length FIPS.K - 16)%nat by (rewrite Hk; reflexivity).
  apply schedule_split; [exact next_word_suffix | reflexivity | rewrite Hk; lia].
Qed.

(** The same rounds on the code's variables. *)
Definition word_list (w : words16) : list Z :=
  let '(mkW w0 w1 w2 w3 w4 w5 w6 w7 w8 w9 w10 w11 w12 w13 w14 w15) := w in
  [w0; w1; w2; w3; w4; w5; w6; w7; w8; w9; w10; w11; w12; w13; w14; w15].

Fixpoint var_rounds (ks : list Z) (rw : state * words16) : state * words16 :=
  match ks with
  | [] => rw
  | k :: ks =>
      let '(r, mkW w0 w1 w2 w3 w4 w5 w6 w7 w8 w9 w10 w11 w12 w13 w14 w15) := rw in
      let w := u32 (w0 + (sigma1 w14 + w9 + sigma0 w1)) in
      var_rounds ks (FIPS.step r (k, w), mkW w1 w2 w3 w4 w5 w6 w7 w8 w9 w10 w11 w12 w13 w14 w15 w)
  end.

Lemma var_rounds_lazy ks : forall r w, lazy_rounds FIPS.step FIPS.next_word ks (word_list w) r = fst (var_rounds ks (r, w)).
Proof.
  induction ks as [|k ks IH]; intros r w; [reflexivity|].
  destruct w as [w0 w1 w2 w3 w4 w5 w6 w7 w8 w9 w10 w11 w12 w13 w14 w15]. cbn [word_list].
  rewrite lazy_rounds_cons. cbv zeta. cbn [var_rounds]. rewrite <- IH. reflexivity.
Qed.

Lemma var_rounds_app ks ks' rw : var_rounds (ks ++ ks') rw = var_rounds ks' (var_rounds ks rw).
Proof.
  revert rw. induction ks as [|k ks IH]; intros [r []]; [reflexivity|]. cbn [app var_rounds]. apply IH.
Qed.

Lemma var_rounds_cons k ks r w0 w1 w2 w3 w4 w5 w6 w7 w8 w9 w10 w11 w12 w13 w14 w15 :
  var_rounds (k :: ks) (r, mkW w0 w1 w2 w3 w4 w5 w6 w7 w8 w9 w10 w11 w12 w13 w14 w15) =
  var_rounds ks (FIPS.step r (k, u32 (w0 + (sigma1 w14 + w9 + sigma0 w1))),
    mkW w1 w2 w3 w4 w5 w6 w7 w8 w9 w10 w11 w12 w13 w14 w15 (u32 (w0 + (sigma1 w14 + w9 + sigma0 w1)))).
Proof. reflexivity. Qed.

(** One line of the unrolled code against one round: name the word on both
    sides, then the two registers that [Round] returns. *)
Ltac word_step :=
  lazymatch goal with |- context [var_rounds (?k :: ?ks) (?r, _)] => rewrite (var_rounds_cons k ks r) end;
  lazymatch goal with
  | |- context [var_rounds _ (FIPS.step _ (_, ?N), _)] => generalize N; intros ?
  end.

Ltac round_step :=
  lazymatch goal with
  | |- (let '(_, _) := Round ?a ?b ?c ?d ?e ?f ?g ?h ?k ?w in _) = _ =>
      rewrite (step_Round a b c d e f g h k w);
      let P := fresh "P" in
      generalize (Round a b c d e f g h k w); intros P; destruct P as [? ?]; cbv beta iota delta [fst snd]
  end.

Ltac let_step :=
  lazymatch goal with
  | |- (let x := ?E in @?B x) = ?R => change (B E = R); cbv beta
  end.

Ltac consts lo :=
  let k := eval vm_compute in (take 16 (drop lo FIPS.K)) in
  replace (take 16 (drop lo FIPS.K)) with k by (vm_compute; reflexivity).

Lemma Rounds_0_15_spec s chunk :
  exists w, Rounds_0_15 s chunk = (fold_left FIPS.step (zip (take 16 (drop 0 FIPS.K)) (FIPS.words chunk)) s, w) /\
            word_list w = FIPS.words chunk.
Proof.
  destruct s as [a b c d e f g h]. eexists. split.
  - consts 0%nat. unfold FIPS.words. cbn [seq map Nat.mul Nat.add zip zip_with fold_left].
    cbv beta iota delta [Rounds_0_15]. do 16 (let_step; round_step). reflexivity.
  - reflexivity.
Qed.

Ltac group_proof G lo :=
  intros [[a b c d e f g h] [w0 w1 w2 w3 w4 w5 w6 w7 w8 w9 w10 w11 w12 w13 w14 w15]];
  consts lo; cbv beta iota delta [G].

Lemma Rounds_16_31_spec : forall rw, Rounds_16_31 rw = var_rounds (take 16 (drop 16 FIPS.K)) rw.
Proof. group_proof Rounds_16_31 16%nat. do 16 (word_step; let_step; round_step). reflexivity. Qed.

Lemma Rounds_32_47_spec : forall rw, Rounds_32_47 rw = var_rounds (take 16 (drop 32 FIPS.K)) rw.
Proof. group_proof Rounds_32_47 32%nat. do 16 (word_step; let_step; round_step). reflexivity. Qed.

(** The last two words are not stored. *)
Lemma Rounds_48_63_spec : forall rw, Rounds_48_63 rw = fst (var_rounds (take 16 (drop 48 FIPS.K)) rw).
Proof.
  group_proof Rounds_48_63 48%nat.
  do 14 (word_step; let_step; round_step). do 2 (rewrite sum4_assoc; word_step; round_step). reflexivity.
Qed.

Lemma three_groups (g1 g2 : state * words16 -> state * words16) g3 ka kb kc :
  (forall rw, g1 rw = var_rounds ka rw) -> (forall rw, g2 rw = var_rounds kb rw) ->
  (forall rw, g3 rw = fst (var_rounds kc rw)) ->
  forall rw, g3 (g2 (g1 rw)) = fst (var_rounds (ka ++ kb ++ kc) rw).
Proof. intros H1 H2 H3 rw. rewrite H3, H2, H1, !var_rounds_app. reflexivity. Qed.

Lemma K_groups :
  take 16 (drop 16 FIPS.K) ++ take 16 (drop 32 FIPS.K) ++ take 16 (drop 48 FIPS.K) = drop 16 FIPS.K.
Proof. vm_compute. reflexivity. Qed.

#[local] Opaque FIPS.K Rounds_16_31 Rounds_32_47 Rounds_48_63.

Lemma Rounds_tail rw :
  Rounds_48_63 (Rounds_32_47 (Rounds_16_31 rw)) = fst (var_rounds (drop 16 FIPS.K) rw).
Proof.
  rewrite <- K_groups.
  exact (three_groups _ _ _ _ _ _ Rounds_16_31_spec Rounds_32_47_spec Rounds_48_63_spec rw).
Qed.

(** The unrolled compression function is the one of the standard. *)
Lemma Transform_fips s chunk : Transform s chunk = FIPS.compress s chunk.
Proof.
  unfold Transform, FIPS.compress. rewrite rounds_fips.
  destruct (Rounds_0_15_spec s chunk) as (w & E0 & Ew). rewrite E0, <- Ew, var_rounds_lazy, Ew.
  rewrite Rounds_tail, drop_0.
  set (r := fst (var_rounds _ _)). destruct r as [a b c d e f g h]. reflexivity.
Qed.

Lemma absorb_fold (n : nat) : forall s m,
  absorb Transform n s m = fold_left FIPS.compress (blocks n m) s.
Proof.
  induction n as [|n IH]; intros s m; [reflexivity|]. cbn [absorb blocks fold_left].
  rewrite Transform_fips. apply IH.
Qed.

Lemma md_pad_fips m : zlen m < 2 ^ 61 -> md_pad WriteBE64 m = FIPS.pad m.
Proof.
  intros H. unfold md_pad, FIPS.pad, u64. pose proof (zlen_nonneg m).
  rewrite WriteBE64_encode, (Z.mod_small (8 * zlen m)) by lia. reflexivity.
Qed.

Lemma represents_digest h m :
  represents Transform Initialize h m -> zlen m < 2 ^ 61 -> CSHA256_Finalize h = FIPS.sha256 m.
Proof.
  intros Hrep Hlen. unfold CSHA256_Finalize, FIPS.sha256. rewrite (finish_state _ _ _ _ m Hrep).
  unfold md_digest_state, full_chunks. rewrite md_pad_fips by assumption.
  rewrite absorb_fold, Initialize_fips. cbn [map concat]. rewrite !WriteBE32_encode, app_nil_r. reflexivity.
Qed.

(** C31: [CSHA256] computes SHA-256.  However the caller cuts the message into
    [Write]s, and also after a [Reset] of a used object, [Finalize] yields the
    FIPS 180-4 digest of the concatenation (for messages below the standard's
    limit of 2^64 bits). *)
Theorem CSHA256_correct ds h m :
  represents Transform Initialize h m -> zlen (concat ds) < 2 ^ 61 ->
  CSHA256_Finalize (fold_left CSHA256_Write ds CSHA256_new) = FIPS.sha256 (concat ds) /\
  CSHA256_Finalize (fold_left CSHA256_Write ds (CSHA256_Reset h)) = FIPS.sha256 (concat ds).
Proof.
  intros Hrep Hlen. split; apply represents_digest; try assumption.
  - apply (writes_represent Transform Initialize _ []), init_represents.
  - apply (writes_represent Transform Initialize _ []). eapply reset_represents, Hrep.
Qed.

Lemma SHA256_digest_length m : zlen (SHA256_digest m) = 32.
Proof. reflexivity. Qed.

Lemma SHA256_digest_bytes m : bytes_ok (SHA256_digest m).
Proof. unfold SHA256_digest, CSHA256_Finalize. rewrite !bytes_ok_app. repeat split; apply WriteBE32_bytes. Qed.

(** ["abc"] in three writes on a fresh object, and on one that is reset. *)
Lemma CSHA256_correct_witness :
  CSHA256_Finalize (fold_left CSHA256_Write [[97]; []; [98; 99]] CSHA256_new) = FIPS.sha256 [97; 98; 99] /\
  take 4 (FIPS.sha256 [97; 98; 99]) = [0xba; 0x78; 0x16; 0xbf].
Proof.
  split; [|vm_compute; reflexivity].
  exact (proj1 (CSHA256_correct [[97]; []; [98; 99]] CSHA256_new [] (init_represents _ _) eq_refl)).
Defined.
