(* ===== verification/Sha1.v ===== *)
(** * SHA-1: [crypto/sha1.cpp]

    The unrolled compression function of [sha1::Transform] in the style of
    [Sha256.v], and its equivalence with the eighty rounds of FIPS 180-4. *)

From Stdlib Require Import ZArith Lia Bool.
From stdpp Require Import base option numbers list.
From S2P Require Import Prelude CryptoCommon BlockHasher MessageSchedule.

Open Scope Z_scope.

Record state := mkState { s0 : Z; s1 : Z; s2 : Z; s3 : Z; s4 : Z }.

(** [b] and [e] are passed by reference. *)
Definition Round (a b c d e f k w : Z) : Z * Z :=
  let e := u32 (e + (Z.lor (shl32 a 5) (shr32 a 27) + f + k + w)) in
  let b := Z.lor (shl32 b 30) (shr32 b 2) in
  (b, e).

Definition f1 (b c d : Z) : Z := Z.lxor d (Z.land b (Z.lxor c d)).
Definition f2 (b c d : Z) : Z := Z.lxor (Z.lxor b c) d.
Definition f3 (b c d : Z) : Z := Z.lor (Z.land b c) (Z.land d (Z.lor b c)).

Definition left (x : Z) : Z := Z.lor (shl32 x 1) (shr32 x 31).

Definition Initialize : state := mkState 0x67452301 0xEFCDAB89 0x98BADCFE 0x10325476 0xC3D2E1F0.

Definition k1 : Z := 0x5A827999.
Definition k2 : Z := 0x6ED9EBA1.
Definition k3 : Z := 0x8F1BBCDC.
Definition k4 : Z := 0xCA62C1D6.

(** The sixteen word variables [w0] .. [w15] of [Transform]. *)
Record words16 := mkW {
  w_0 : Z; w_1 : Z; w_2 : Z; w_3 : Z; w_4 : Z; w_5 : Z; w_6 : Z; w_7 : Z;
  w_8 : Z; w_9 : Z; w_10 : Z; w_11 : Z; w_12 : Z; w_13 : Z; w_14 : Z; w_15 : Z
}.

(** The body of [Transform], in its five groups of sixteen lines. *)
Definition Rounds_0_15 (r : state) (chunk : list Z) : state * words16 :=
  let '(mkState a b c d e) := r in
  let w0 := ReadBE32 chunk 0 in let '(b, e) := Round a b c d e (f1 b c d) k1 w0 in
  let w1 := ReadBE32 chunk 4 in let '(a, d) := Round e a b c d (f1 a b c) k1 w1 in
  let w2 := ReadBE32 chunk 8 in let '(e, c) := Round d e a b c (f1 e a b) k1 w2 in
  let w3 := ReadBE32 chunk 12 in let '(d, b) := Round c d e a b (f1 d e a) k1 w3 in
  let w4 := ReadBE32 chunk 16 in let '(c, a) := Round b c d e a (f1 c d e) k1 w4 in
  let w5 := ReadBE32 chunk 20 in let '(b, e) := Round a b c d e (f1 b c d) k1 w5 in
  let w6 := ReadBE32 chunk 24 in let '(a, d) := Round e a b c d (f1 a b c) k1 w6 in
  let w7 := ReadBE32 chunk 28 in let '(e, c) := Round d e a b c (f1 e a b) k1 w7 in
  let w8 := ReadBE32 chunk 32 in let '(d, b) := Round c d e a b (f1 d e a) k1 w8 in
  let w9 := ReadBE32 chunk 36 in let '(c, a) := Round b c d e a (f1 c d e) k1 w9 in
  let w10 := ReadBE32 chunk 40 in let '(b, e) := Round a b c d e (f1 b c d) k1 w10 in
  let w11 := ReadBE32 chunk 44 in let '(a, d) := Round e a b c d (f1 a b c) k1 w11 in
  let w12 := ReadBE32 chunk 48 in let '(e, c) := Round d e a b c (f1 e a b) k1 w12 in
  let w13 := ReadBE32 chunk 52 in let '(d, b) := Round c d e a b (f1 d e a) k1 w13 in
  let w14 := ReadBE32 chunk 56 in let '(c, a) := Round b c d e a (f1 c d e) k1 w14 in
  let w15 := ReadBE32 chunk 60 in let '(b, e) := Round a b c d e (f1 b c d) k1 w15 in
  (mkState a b c d e, mkW w0 w1 w2 w3 w4 w5 w6 w7 w8 w9 w10 w11 w12 w13 w14 w15).

Definition Rounds_16_31 (rw : state * words16) : state * words16 :=
  let '(mkState a b c d e, mkW w0 w1 w2 w3 w4 w5 w6 w7 w8 w9 w10 w11 w12 w13 w14 w15) := rw in
  let w0 := left (Z.lxor (Z.lxor (Z.lxor w0 w13) w8) w2) in let '(a, d) := Round e a b c d (f1 a b c) k1 w0 in
  let w1 := left (Z.lxor (Z.lxor (Z.lxor w1 w14) w9) w3) in let '(e, c) := Round d e a b c (f1 e a b) k1 w1 in
  let w2 := left (Z.lxor (Z.lxor (Z.lxor w2 w15) w10) w4) in let '(d, b) := Round c d e a b (f1 d e a) k1 w2 in
  let w3 := left (Z.lxor (Z.lxor (Z.lxor w3 w0) w11) w5) in let '(c, a) := Round b c d e a (f1 c d e) k1 w3 in
  let w4 := left (Z.lxor (Z.lxor (Z.lxor w4 w1) w12) w6) in let '(b, e) := Round a b c d e (f2 b c d) k2 w4 in
  let w5 := left (Z.lxor (Z.lxor (Z.lxor w5 w2) w13) w7) in let '(a, d) := Round e a b c d (f2 a b c) k2 w5 in
  let w6 := left (Z.lxor (Z.lxor (Z.lxor w6 w3) w14) w8) in let '(e, c) := Round d e a b c (f2 e a b) k2 w6 in
  let w7 := left (Z.lxor (Z.lxor (Z.lxor w7 w4) w15) w9) in let '(d, b) := Round c d e a b (f2 d e a) k2 w7 in
  let w8 := left (Z.lxor (Z.lxor (Z.lxor w8 w5) w0) w10) in let '(c, a) := Round b c d e a (f2 c d e) k2 w8 in
  let w9 := left (Z.lxor (Z.lxor (Z.lxor w9 w6) w1) w11) in let '(b, e) := Round a b c d e (f2 b c d) k2 w9 in
  let w10 := left (Z.lxor (Z.lxor (Z.lxor w10 w7) w2) w12) in let '(a, d) := Round e a b c d (f2 a b c) k2 w10 in
  let w11 := left (Z.lxor (Z.lxor (Z.lxor w11 w8) w3) w13) in let '(e, c) := Round d e a b c (f2 e a b) k2 w11 in
  let w12 := left (Z.lxor (Z.lxor (Z.lxor w12 w9) w4) w14) in let '(d, b) := Round c d e a b (f2 d e a) k2 w12 in
  let w13 := left (Z.lxor (Z.lxor (Z.lxor w13 w10) w5) w15) in let '(c, a) := Round b c d e a (f2 c d e) k2 w13 in
  let w14 := left (Z.lxor (Z.lxor (Z.lxor w14 w11) w6) w0) in let '(b, e) := Round a b c d e (f2 b c d) k2 w14 in
  let w15 := left (Z.lxor (Z.lxor (Z.lxor w15 w12) w7) w1) in let '(a, d) := Round e a b c d (f2 a b c) k2 w15 in
  (mkState a b c d e, mkW w0 w1 w2 w3 w4 w5 w6 w7 w8 w9 w10 w11 w12 w13 w14 w15).

Definition Rounds_32_47 (rw : state * words16) : state * words16 :=
  let '(mkState a b c d e, mkW w0 w1 w2 w3 w4 w5 w6 w7 w8 w9 w10 w11 w12 w13 w14 w15) := rw in
  let w0 := left (Z.lxor (Z.lxor (Z.lxor w0 w13) w8) w2) in let '(e, c) := Round d e a b c (f2 e a b) k2 w0 in
  let w1 := left (Z.lxor (Z.lxor (Z.lxor w1 w14) w9) w3) in let '(d, b) := Round c d e a b (f2 d e a) k2 w1 in
  let w2 := left (Z.lxor (Z.lxor (Z.lxor w2 w15) w10) w4) in let '(c, a) := Round b c d e a (f2 c d e) k2 w2 in
  let w3 := left (Z.lxor (Z.lxor (Z.lxor w3 w0) w11) w5) in let '(b, e) := Round a b c d e (f2 b c d) k2 w3 in
  let w4 := left (Z.lxor (Z.lxor (Z.lxor w4 w1) w12) w6) in let '(a, d) := Round e a b c d (f2 a b c) k2 w4 in
  let w5 := left (Z.lxor (Z.lxor (Z.lxor w5 w2) w13) w7) in let '(e, c) := Round d e a b c (f2 e a b) k2 w5 in
  let w6 := left (Z.lxor (Z.lxor (Z.lxor w6 w3) w14) w8) in let '(d, b) := Round c d e a b (f2 d e a) k2 w6 in
  let w7 := left (Z.lxor (Z.lxor (Z.lxor w7 w4) w15) w9) in let '(c, a) := Round b c d e a (f2 c d e) k2 w7 in
  let w8 := left (Z.lxor (Z.lxor (Z.lxor w8 w5) w0) w10) in let '(b, e) := Round a b c d e (f3 b c d) k3 w8 in
  let w9 := left (Z.lxor (Z.lxor (Z.lxor w9 w6) w1) w11) in let '(a, d) := Round e a b c d (f3 a b c) k3 w9 in
  let w10 := left (Z.lxor (Z.lxor (Z.lxor w10 w7) w2) w12) in let '(e, c) := Round d e a b c (f3 e a b) k3 w10 in
  let w11 := left (Z.lxor (Z.lxor (Z.lxor w11 w8) w3) w13) in let '(d, b) := Round c d e a b (f3 d e a) k3 w11 in
  let w12 := left (Z.lxor (Z.lxor (Z.lxor w12 w9) w4) w14) in let '(c, a) := Round b c d e a (f3 c d e) k3 w12 in
  let w13 := left (Z.lxor (Z.lxor (Z.lxor w13 w10) w5) w15) in let '(b, e) := Round a b c d e (f3 b c d) k3 w13 in
  let w14 := left (Z.lxor (Z.lxor (Z.lxor w14 w11) w6) w0) in let '(a, d) := Round e a b c d (f3 a b c) k3 w14 in
  let w15 := left (Z.lxor (Z.lxor (Z.lxor w15 w12) w7) w1) in let '(e, c) := Round d e a b c (f3 e a b) k3 w15 in
  (mkState a b c d e, mkW w0 w1 w2 w3 w4 w5 w6 w7 w8 w9 w10 w11 w12 w13 w14 w15).

Definition Rounds_48_63 (rw : state * words16) : state * words16 :=
  let '(mkState a b c d e, mkW w0 w1 w2 w3 w4 w5 w6 w7 w8 w9 w10 w11 w12 w13 w14 w15) := rw in
  let w0 := left (Z.lxor (Z.lxor (Z.lxor w0 w13) w8) w2) in let '(d, b) := Round c d e a b (f3 d e a) k3 w0 in
  let w1 := left (Z.lxor (Z.lxor (Z.lxor w1 w14) w9) w3) in let '(c, a) := Round b c d e a (f3 c d e) k3 w1 in
  let w2 := left (Z.lxor (Z.lxor (Z.lxor w2 w15) w10) w4) in let '(b, e) := Round a b c d e (f3 b c d) k3 w2 in
  let w3 := left (Z.lxor (Z.lxor (Z.lxor w3 w0) w11) w5) in let '(a, d) := Round e a b c d (f3 a b c) k3 w3 in
  let w4 := left (Z.lxor (Z.lxor (Z.lxor w4 w1) w12) w6) in let '(e, c) := Round d e a b c (f3 e a b) k3 w4 in
  let w5 := left (Z.lxor (Z.lxor (Z.lxor w5 w2) w13) w7) in let '(d, b) := Round c d e a b (f3 d e a) k3 w5 in
  let w6 := left (Z.lxor (Z.lxor (Z.lxor w6 w3) w14) w8) in let '(c, a) := Round b c d e a (f3 c d e) k3 w6 in
  let w7 := left (Z.lxor (Z.lxor (Z.lxor w7 w4) w15) w9) in let '(b, e) := Round a b c d e (f3 b c d) k3 w7 in
  let w8 := left (Z.lxor (Z.lxor (Z.lxor w8 w5) w0) w10) in let '(a, d) := Round e a b c d (f3 a b c) k3 w8 in
  let w9 := left (Z.lxor (Z.lxor (Z.lxor w9 w6) w1) w11) in let '(e, c) := Round d e a b c (f3 e a b) k3 w9 in
  let w10 := left (Z.lxor (Z.lxor (Z.lxor w10 w7) w2) w12) in let '(d, b) := Round c d e a b (f3 d e a) k3 w10 in
  let w11 := left (Z.lxor (Z.lxor (Z.lxor w11 w8) w3) w13) in let '(c, a) := Round b c d e a (f3 c d e) k3 w11 in
  let w12 := left (Z.lxor (Z.lxor (Z.lxor w12 w9) w4) w14) in let '(b, e) := Round a b c d e (f2 b c d) k4 w12 in
  let w13 := left (Z.lxor (Z.lxor (Z.lxor w13 w10) w5) w15) in let '(a, d) := Round e a b c d (f2 a b c) k4 w13 in
  let w14 := left (Z.lxor (Z.lxor (Z.lxor w14 w11) w6) w0) in let '(e, c) := Round d e a b c (f2 e a b) k4 w14 in
  let w15 := left (Z.lxor (Z.lxor (Z.lxor w15 w12) w7) w1) in let '(d, b) := Round c d e a b (f2 d e a) k4 w15 in
  (mkState a b c d e, mkW w0 w1 w2 w3 w4 w5 w6 w7 w8 w9 w10 w11 w12 w13 w14 w15).

Definition Rounds_64_79 (rw : state * words16) : state :=
  let '(mkState a b c d e, mkW w0 w1 w2 w3 w4 w5 w6 w7 w8 w9 w10 w11 w12 w13 w14 w15) := rw in
  let w0 := left (Z.lxor (Z.lxor (Z.lxor w0 w13) w8) w2) in let '(c, a) := Round b c d e a (f2 c d e) k4 w0 in
  let w1 := left (Z.lxor (Z.lxor (Z.lxor w1 w14) w9) w3) in let '(b, e) := Round a b c d e (f2 b c d) k4 w1 in
  let w2 := left (Z.lxor (Z.lxor (Z.lxor w2 w15) w10) w4) in let '(a, d) := Round e a b c d (f2 a b c) k4 w2 in
  let w3 := left (Z.lxor (Z.lxor (Z.lxor w3 w0) w11) w5) in let '(e, c) := Round d e a b c (f2 e a b) k4 w3 in
  let w4 := left (Z.lxor (Z.lxor (Z.lxor w4 w1) w12) w6) in let '(d, b) := Round c d e a b (f2 d e a) k4 w4 in
  let w5 := left (Z.lxor (Z.lxor (Z.lxor w5 w2) w13) w7) in let '(c, a) := Round b c d e a (f2 c d e) k4 w5 in
  let w6 := left (Z.lxor (Z.lxor (Z.lxor w6 w3) w14) w8) in let '(b, e) := Round a b c d e (f2 b c d) k4 w6 in
  let w7 := left (Z.lxor (Z.lxor (Z.lxor w7 w4) w15) w9) in let '(a, d) := Round e a b c d (f2 a b c) k4 w7 in
  let w8 := left (Z.lxor (Z.lxor (Z.lxor w8 w5) w0) w10) in let '(e, c) := Round d e a b c (f2 e a b) k4 w8 in
  let w9 := left (Z.lxor (Z.lxor (Z.lxor w9 w6) w1) w11) in let '(d, b) := Round c d e a b (f2 d e a) k4 w9 in
  let w10 := left (Z.lxor (Z.lxor (Z.lxor w10 w7) w2) w12) in let '(c, a) := Round b c d e a (f2 c d e) k4 w10 in
  let w11 := left (Z.lxor (Z.lxor (Z.lxor w11 w8) w3) w13) in let '(b, e) := Round a b c d e (f2 b c d) k4 w11 in
  let w12 := left (Z.lxor (Z.lxor (Z.lxor w12 w9) w4) w14) in let '(a, d) := Round e a b c d (f2 a b c) k4 w12 in
  let '(e, c) := Round d e a b c (f2 e a b) k4 (left (Z.lxor (Z.lxor (Z.lxor w13 w10) w5) w15)) in
  let '(d, b) := Round c d e a b (f2 d e a) k4 (left (Z.lxor (Z.lxor (Z.lxor w14 w11) w6) w0)) in
  let '(c, a) := Round b c d e a (f2 c d e) k4 (left (Z.lxor (Z.lxor (Z.lxor w15 w12) w7) w1)) in
  mkState a b c d e.

Definition Transform (s : state) (chunk : list Z) : state :=
  let '(mkState a b c d e) :=
    Rounds_64_79 (Rounds_48_63 (Rounds_32_47 (Rounds_16_31 (Rounds_0_15 s chunk)))) in
  mkState (u32 (s0 s + a)) (u32 (s1 s + b)) (u32 (s2 s + c)) (u32 (s3 s + d)) (u32 (s4 s + e)).

(** ** The class [CSHA1] *)

Abbreviation CSHA1 := (hasher (St := state)).

Definition CSHA1_new : CSHA1 := hasher_init Initialize.
Definition CSHA1_Write (h : CSHA1) (data : list Z) : CSHA1 := hasher_write Transform h data.
Definition CSHA1_Finalize (h : CSHA1) : list Z :=
  let s := h_s (hasher_finish Transform WriteBE64 h) in
  WriteBE32 (s0 s) ++ WriteBE32 (s1 s) ++ WriteBE32 (s2 s) ++ WriteBE32 (s3 s) ++ WriteBE32 (s4 s).
Definition CSHA1_Reset (h : CSHA1) : CSHA1 := hasher_reset Initialize h.

(** [CSHA1().Write(m, len).Finalize(hash)] *)
Definition SHA1_digest (m : list Z) : list Z := CSHA1_Finalize (CSHA1_Write CSHA1_new m).

(** ** FIPS 180-4 *)

Module FIPS.

Definition rotl (n x : Z) : Z := Z.lor (u32 (Z.shiftl x n)) (Z.shiftr x (32 - n)).
Definition Ch (x y z : Z) : Z := Z.lxor (Z.land x y) (Z.land (Z.lnot x) z).
Definition Parity (x y z : Z) : Z := Z.lxor (Z.lxor x y) z.
Definition Maj (x y z : Z) : Z := Z.lxor (Z.lxor (Z.land x y) (Z.land x z)) (Z.land y z).

(** Function and constant of round [t]: twenty rounds each, with the constant
    [2 ^ 30 * sqrt p] for 2, 3, 5 and 10. *)
Definition K_of (p : Z) : Z := Z.sqrt (p * 2 ^ 60).
Definition rounds : list ((Z -> Z -> Z -> Z) * Z) :=
  replicate 20 (Ch, K_of 2) ++ replicate 20 (Parity, K_of 3) ++
  replicate 20 (Maj, K_of 5) ++ replicate 20 (Parity, K_of 10).

(** [W_t] from the words before it. *)
Definition next_word (ws : list Z) : Z :=
  let w i := nth (length ws - i) ws 0 in
  rotl 1 (Z.lxor (Z.lxor (Z.lxor (w 3%nat) (w 8%nat)) (w 14%nat)) (w 16%nat)).

Definition step (r : state) (kw : ((Z -> Z -> Z -> Z) * Z) * Z) : state :=
  let '(mkState a b c d e) := r in
  let '((f, k), w) := kw in
  mkState (u32 (rotl 5 a + f b c d + e + k + w)) a (rotl 30 b) c d.

Definition words (block : list Z) : list Z := map (fun i => ReadBE32 block (4 * i)) (seq 0 16).

Definition add_state (s r : state) : state :=
  mkState (u32 (s0 s + s0 r)) (u32 (s1 s + s1 r)) (u32 (s2 s + s2 r)) (u32 (s3 s + s3 r)) (u32 (s4 s + s4 r)).

Definition compress (s : state) (block : list Z) : state :=
  add_state s (fold_left step (zip rounds (schedule next_word 64 (words block))) s).

Definition initial : state := mkState 0x67452301 0xefcdab89 0x98badcfe 0x10325476 0xc3d2e1f0.

Definition pad (m : list Z) : list Z :=
  m ++ [0x80] ++ replicate (Z.to_nat ((55 - zlen m) mod 64)) 0 ++ be_encode 8 (8 * zlen m).

Definition sha1 (m : list Z) : list Z :=
  let p := pad m in
  let s := fold_left compress (blocks (length p / 64) p) initial in
  concat (map (be_encode 4) [s0 s; s1 s; s2 s; s3 s; s4 s]).

End FIPS.

(** ** The code computes FIPS 180-4 *)

Lemma f1_fips x y z : f1 x y z = FIPS.Ch x y z.
Proof.
  apply Z.bits_inj'. intros i Hi. unfold f1, FIPS.Ch.
  rewrite !Z.lxor_spec, !Z.land_spec, Z.lxor_spec, Z.lnot_spec by lia.
  destruct (Z.testbit x i), (Z.testbit y i), (Z.testbit z i); reflexivity.
Qed.

Lemma f3_fips x y z : f3 x y z = FIPS.Maj x y z.
Proof.
  apply Z.bits_inj'. intros i Hi. unfold f3, FIPS.Maj.
  rewrite !Z.lor_spec, !Z.lxor_spec, !Z.land_spec, !Z.lor_spec.
  destruct (Z.testbit x i), (Z.testbit y i), (Z.testbit z i); reflexivity.
Qed.

Lemma sha1_step_Round a b c d e f g k w :
  g b c d = f ->
  FIPS.step (mkState a b c d e) ((g, k), w) =
  mkState (snd (Round a b c d e f k w)) a (fst (Round a b c d e f k w)) c d.
Proof.
  intros <-. unfold FIPS.step, Round, FIPS.rotl, shl32, shr32. cbn [fst snd].
  change (32 - 5) with 27. change (32 - 30) with 2.
  apply (f_equal (fun x => mkState (u32 x) a _ c d)). lia.
Qed.

Lemma sha1_next_word_suffix pre ws : length ws = 16%nat -> FIPS.next_word (pre ++ ws) = FIPS.next_word ws.
Proof.
  intros H. assert (forall i, (i <= 16)%nat -> nth (length (pre ++ ws) - i) (pre ++ ws) 0 = nth (length ws - i) ws 0) as Hn.
  { intros i Hi. rewrite length_app, app_nth2 by lia. f_equal. lia. }
  unfold FIPS.next_word. rewrite !Hn by lia. reflexivity.
Qed.

Lemma sha1_rounds_fips s chunk :
  fold_left FIPS.step (zip FIPS.rounds (schedule FIPS.next_word 64 (FIPS.words chunk))) s =
  lazy_rounds FIPS.step FIPS.next_word (drop 16 FIPS.rounds) (FIPS.words chunk)
    (fold_left FIPS.step (zip (take 16 FIPS.rounds) (FIPS.words chunk)) s).
Proof.
  assert (length FIPS.rounds = 80%nat) as Hk by reflexivity.
  replace 64%nat with (length FIPS.rounds - 16)%nat by (rewrite Hk; reflexivity).
  apply schedule_split; [exact sha1_next_word_suffix | reflexivity | rewrite Hk; lia].
Qed.

(** The rounds on the code's variables. *)
Definition word_list (w : words16) : list Z :=
  let '(mkW w0 w1 w2 w3 w4 w5 w6 w7 w8 w9 w10 w11 w12 w13 w14 w15) := w in
  [w0; w1; w2; w3; w4; w5; w6; w7; w8; w9; w10; w11; w12; w13; w14; w15].

Fixpoint var_rounds (ks : list ((Z -> Z -> Z -> Z) * Z)) (rw : state * words16) : state * words16 :=
  match ks with
  | [] => rw
  | k :: ks =>
      let '(r, mkW w0 w1 w2 w3 w4 w5 w6 w7 w8 w9 w10 w11 w12 w13 w14 w15) := rw in
      let w := left (Z.lxor (Z.lxor (Z.lxor w0 w13) w8) w2) in
      var_rounds ks (FIPS.step r (k, w), mkW w1 w2 w3 w4 w5 w6 w7 w8 w9 w10 w11 w12 w13 w14 w15 w)
  end.

Lemma sha1_var_rounds_cons k ks r w0 w1 w2 w3 w4 w5 w6 w7 w8 w9 w10 w11 w12 w13 w14 w15 :
  var_rounds (k :: ks) (r, mkW w0 w1 w2 w3 w4 w5 w6 w7 w8 w9 w10 w11 w12 w13 w14 w15) =
  var_rounds ks (FIPS.step r (k, left (Z.lxor (Z.lxor (Z.lxor w0 w13) w8) w2)),
    mkW w1 w2 w3 w4 w5 w6 w7 w8 w9 w10 w11 w12 w13 w14 w15 (left (Z.lxor (Z.lxor (Z.lxor w0 w13) w8) w2))).
Proof. reflexivity. Qed.

Lemma next_word_left w0 w1 w2 w3 w4 w5 w6 w7 w8 w9 w10 w11 w12 w13 w14 w15 :
  FIPS.next_word [w0; w1; w2; w3; w4; w5; w6; w7; w8; w9; w10; w11; w12; w13; w14; w15] =
  left (Z.lxor (Z.lxor (Z.lxor w0 w13) w8) w2).
Proof.
  unfold FIPS.next_word. cbn [nth length Nat.sub]. unfold FIPS.rotl, left, shl32, shr32.
  change (32 - 1) with 31.
  replace (Z.lxor (Z.lxor (Z.lxor w13 w8) w2) w0) with (Z.lxor (Z.lxor (Z.lxor w0 w13) w8) w2); [reflexivity|].
  rewrite (Z.lxor_comm _ w0), !Z.lxor_assoc. reflexivity.
Qed.

Lemma sha1_var_rounds_lazy ks : forall r w,
  lazy_rounds FIPS.step FIPS.next_word ks (word_list w) r = fst (var_rounds ks (r, w)).
Proof.
  induction ks as [|k ks IH]; intros r w; [reflexivity|].
  destruct w as [w0 w1 w2 w3 w4 w5 w6 w7 w8 w9 w10 w11 w12 w13 w14 w15].
  rewrite sha1_var_rounds_cons, <- IH. cbn [lazy_rounds word_list]. rewrite next_word_left. reflexivity.
Qed.

Lemma sha1_var_rounds_app ks ks' rw : var_rounds (ks ++ ks') rw = var_rounds ks' (var_rounds ks rw).
Proof.
  revert rw. induction ks as [|k ks IH]; intros [r []]; [reflexivity|]. cbn [app var_rounds]. apply IH.
Qed.

(** One line of the unrolled code against one round. *)
Ltac word_step :=
  lazymatch goal with |- context [var_rounds (?k :: ?ks) (?r, _)] => rewrite (sha1_var_rounds_cons k ks r) end;
  lazymatch goal with
  | |- context [var_rounds _ (FIPS.step _ (_, ?N), _)] => generalize N; intros ?
  end.

Ltac round_fun := first [apply eq_sym, f1_fips | apply eq_sym, f3_fips | reflexivity].

Ltac round_step :=
  lazymatch goal with
  | |- (let '(_, _) := Round ?a ?b ?c ?d ?e ?f ?k ?w in _) = _ =>
      match goal with
      | |- context [FIPS.step (mkState a b c d e) ((?g, k), w)] =>
          rewrite (sha1_step_Round a b c d e f g k w) by round_fun
      end;
      let P := fresh "P" in
      generalize (Round a b c d e f k w); intros P; destruct P as [? ?]; cbv beta iota delta [fst snd]
  end.

Ltac let_step :=
  lazymatch goal with
  | |- (let x := ?E in @?B x) = ?R => change (B E = R); cbv beta
  end.

(** The sixteen rounds from [lo] on, with the constants as the code names them. *)
Definition code_rounds : list ((Z -> Z -> Z -> Z) * Z) :=
  replicate 20 (FIPS.Ch, k1) ++ replicate 20 (FIPS.Parity, k2) ++
  replicate 20 (FIPS.Maj, k3) ++ replicate 20 (FIPS.Parity, k4).

Lemma code_rounds_fips : FIPS.rounds = code_rounds.
Proof. reflexivity. Qed.

(** Sixteen rounds move every register one name on: the code's [a] .. [e] after
    [n] groups, from the registers in round order. *)
Definition ren1 (rw : state * words16) : state * words16 :=
  let '(mkState x0 x1 x2 x3 x4, w) := rw in (mkState x1 x2 x3 x4 x0, w).
Fixpoint ren (n : nat) (rw : state * words16) : state * words16 :=
  match n with O => rw | S n => ren1 (ren n rw) end.

Ltac group_proof G :=
  intros [[a b c d e] [w0 w1 w2 w3 w4 w5 w6 w7 w8 w9 w10 w11 w12 w13 w14 w15]];
  cbv beta iota delta [ren ren1]; cbv beta iota delta [G];
  cbv beta iota delta [take drop code_rounds replicate app].

Lemma sha1_Rounds_0_15_spec s chunk :
  exists w, Rounds_0_15 s chunk = ren 1 (fold_left FIPS.step (zip (take 16 code_rounds) (FIPS.words chunk)) s, w) /\
            word_list w = FIPS.words chunk.
Proof.
  destruct s as [a b c d e]. eexists. split.
  - unfold FIPS.words. cbn [seq map Nat.mul Nat.add].
    cbv beta iota delta [take code_rounds replicate app zip zip_with fold_left Rounds_0_15].
    do 16 (let_step; round_step). reflexivity.
  - reflexivity.
Qed.

Lemma sha1_Rounds_16_31_spec : forall rw,
  Rounds_16_31 (ren 1 rw) = ren 2 (var_rounds (take 16 (drop 16 code_rounds)) rw).
Proof. group_proof Rounds_16_31. do 16 (word_step; let_step; round_step). reflexivity. Qed.

Lemma sha1_Rounds_32_47_spec : forall rw,
  Rounds_32_47 (ren 2 rw) = ren 3 (var_rounds (take 16 (drop 32 code_rounds)) rw).
Proof. group_proof Rounds_32_47. do 16 (word_step; let_step; round_step). reflexivity. Qed.

Lemma sha1_Rounds_48_63_spec : forall rw,
  Rounds_48_63 (ren 3 rw) = ren 4 (var_rounds (take 16 (drop 48 code_rounds)) rw).
Proof. group_proof Rounds_48_63. do 16 (word_step; let_step; round_step). reflexivity. Qed.

(** The last three words are not stored. *)
Lemma Rounds_64_79_spec : forall rw,
  Rounds_64_79 (ren 4 rw) = fst (var_rounds (take 16 (drop 64 code_rounds)) rw).
Proof.
  group_proof Rounds_64_79. do 13 (word_step; let_step; round_step). do 3 (word_step; round_step). reflexivity.
Qed.

Lemma four_groups (g1 g2 g3 : state * words16 -> state * words16) g4 ka kb kc kd :
  (forall rw, g1 (ren 1 rw) = ren 2 (var_rounds ka rw)) -> (forall rw, g2 (ren 2 rw) = ren 3 (var_rounds kb rw)) ->
  (forall rw, g3 (ren 3 rw) = ren 4 (var_rounds kc rw)) -> (forall rw, g4 (ren 4 rw) = fst (var_rounds kd rw)) ->
  forall rw, g4 (g3 (g2 (g1 (ren 1 rw)))) = fst (var_rounds (ka ++ kb ++ kc ++ kd) rw).
Proof. intros H1 H2 H3 H4 rw. rewrite H1, H2, H3, H4, !sha1_var_rounds_app. reflexivity. Qed.

Lemma sha1_Rounds_tail rw :
  Rounds_64_79 (Rounds_48_63 (Rounds_32_47 (Rounds_16_31 (ren 1 rw)))) =
  fst (var_rounds (drop 16 code_rounds) rw).
Proof.
  exact (four_groups _ _ _ _ _ _ _ _ sha1_Rounds_16_31_spec sha1_Rounds_32_47_spec sha1_Rounds_48_63_spec Rounds_64_79_spec rw).
Qed.

(** The unrolled compression function is the one of the standard. *)
Lemma sha1_Transform_fips s chunk : Transform s chunk = FIPS.compress s chunk.
Proof.
  unfold Transform, FIPS.compress. rewrite sha1_rounds_fips, code_rounds_fips.
  destruct (sha1_Rounds_0_15_spec s chunk) as (w & E0 & Ew). rewrite E0, <- Ew, sha1_var_rounds_lazy, Ew, sha1_Rounds_tail.
  set (r := fst (var_rounds _ _)). destruct r as [a b c d e]. reflexivity.
Qed.

Lemma sha1_absorb_fold (n : nat) : forall s m,
  absorb Transform n s m = fold_left FIPS.compress (blocks n m) s.
Proof.
  induction n as [|n IH]; intros s m; [reflexivity|]. cbn [absorb blocks fold_left].
  rewrite sha1_Transform_fips. apply IH.
Qed.

Lemma sha1_md_pad_fips m : zlen m < 2 ^ 61 -> md_pad WriteBE64 m = FIPS.pad m.
Proof.
  intros H. unfold md_pad, FIPS.pad, u64. pose proof (zlen_nonneg m).
  rewrite WriteBE64_encode, (Z.mod_small (8 * zlen m)) by lia. reflexivity.
Qed.

Lemma sha1_represents_digest h m :
  represents Transform Initialize h m -> zlen m < 2 ^ 61 -> CSHA1_Finalize h = FIPS.sha1 m.
Proof.
  intros Hrep Hlen. unfold CSHA1_Finalize, FIPS.sha1. rewrite (finish_state _ _ _ _ m Hrep).
  unfold md_digest_state, full_chunks. rewrite sha1_md_pad_fips by assumption.
  rewrite sha1_absorb_fold. cbn [map concat]. rewrite !WriteBE32_encode, app_nil_r. reflexivity.
Qed.

(** [CSHA1] computes SHA-1 of the concatenation of what was written since
    construction or the last [Reset], however the caller cuts the message. *)
Theorem CSHA1_correct ds h m :
  represents Transform Initialize h m -> zlen (concat ds) < 2 ^ 61 ->
  CSHA1_Finalize (fold_left CSHA1_Write ds CSHA1_new) = FIPS.sha1 (concat ds) /\
  CSHA1_Finalize (fold_left CSHA1_Write ds (CSHA1_Reset h)) = FIPS.sha1 (concat ds).
Proof.
  intros Hrep Hlen. split; apply sha1_represents_digest; try assumption.
  - apply (writes_represent Transform Initialize _ []), init_represents.
  - apply (writes_represent Transform Initialize _ []). eapply reset_represents, Hrep.
Qed.

Lemma SHA1_digest_length m : zlen (SHA1_digest m) = 20.
Proof. reflexivity. Qed.

Lemma SHA1_digest_bytes m : bytes_ok (SHA1_digest m).
Proof. unfold SHA1_digest, CSHA1_Finalize. rewrite !bytes_ok_app. repeat split; apply WriteBE32_bytes. Qed.

Lemma CSHA1_correct_witness :
  CSHA1_Finalize (fold_left CSHA1_Write [[97]; []; [98; 99]] CSHA1_new) = FIPS.sha1 [97; 98; 99] /\
  take 4 (FIPS.sha1 [97; 98; 99]) = [0xa9; 0x99; 0x3e; 0x36].
Proof.
  split; [|vm_compute; reflexivity].
  exact (proj1 (CSHA1_correct [[97]; []; [98; 99]] CSHA1_new [] (init_represents _ _) eq_refl)).
Defined.
