(* ===== verification/Ripemd160.v ===== *)
(** * RIPEMD-160: [crypto/ripemd160.cpp]

    The unrolled compression function of [ripemd160::Transform], two interleaved
    lines of eighty rounds, and its equivalence with the published algorithm
    (word order given by the permutations rho and pi, constants by roots of 2, 3,
    5 and 7). *)

From Stdlib Require Import ZArith Lia Bool.
From stdpp Require Import base option numbers list.
From S2P Require Import Prelude CryptoCommon BlockHasher MessageSchedule.

Open Scope Z_scope.

Record state := mkState { s0 : Z; s1 : Z; s2 : Z; s3 : Z; s4 : Z }.

Definition f1 (x y z : Z) : Z := Z.lxor (Z.lxor x y) z.
Definition f2 (x y z : Z) : Z := Z.lor (Z.land x y) (Z.land (not32 x) z).
Definition f3 (x y z : Z) : Z := Z.lxor (Z.lor x (not32 y)) z.
Definition f4 (x y z : Z) : Z := Z.lor (Z.land x z) (Z.land y (not32 z)).
Definition f5 (x y z : Z) : Z := Z.lxor x (Z.lor y (not32 z)).

Definition Initialize : state := mkState 0x67452301 0xEFCDAB89 0x98BADCFE 0x10325476 0xC3D2E1F0.

Definition rol (x i : Z) : Z := Z.lor (shl32 x i) (shr32 x (32 - i)).

(** [a] and [c] are passed by reference. *)
Definition Round (a b c d e f x k r : Z) : Z * Z :=
  let a := u32 (rol (u32 (a + f + x + k)) r + e) in
  let c := rol c 10 in
  (a, c).

Definition R11 (a b c d e x r : Z) : Z * Z := Round a b c d e (f1 b c d) x 0 r.
Definition R21 (a b c d e x r : Z) : Z * Z := Round a b c d e (f2 b c d) x 0x5A827999 r.
Definition R31 (a b c d e x r : Z) : Z * Z := Round a b c d e (f3 b c d) x 0x6ED9EBA1 r.
Definition R41 (a b c d e x r : Z) : Z * Z := Round a b c d e (f4 b c d) x 0x8F1BBCDC r.
Definition R51 (a b c d e x r : Z) : Z * Z := Round a b c d e (f5 b c d) x 0xA953FD4E r.

Definition R12 (a b c d e x r : Z) : Z * Z := Round a b c d e (f5 b c d) x 0x50A28BE6 r.
Definition R22 (a b c d e x r : Z) : Z * Z := Round a b c d e (f4 b c d) x 0x5C4DD124 r.
Definition R32 (a b c d e x r : Z) : Z * Z := Round a b c d e (f3 b c d) x 0x6D703EF3 r.
Definition R42 (a b c d e x r : Z) : Z * Z := Round a b c d e (f2 b c d) x 0x7A6D76E9 r.
Definition R52 (a b c d e x r : Z) : Z * Z := Round a b c d e (f1 b c d) x 0 r.

(** The sixteen word variables [w0] .. [w15] of [Transform]. *)
Record words16 := mkW {
  w_0 : Z; w_1 : Z; w_2 : Z; w_3 : Z; w_4 : Z; w_5 : Z; w_6 : Z; w_7 : Z;
  w_8 : Z; w_9 : Z; w_10 : Z; w_11 : Z; w_12 : Z; w_13 : Z; w_14 : Z; w_15 : Z
}.

Definition read_words (chunk : list Z) : words16 :=
  mkW (ReadLE32 chunk 0) (ReadLE32 chunk 4) (ReadLE32 chunk 8) (ReadLE32 chunk 12)
      (ReadLE32 chunk 16) (ReadLE32 chunk 20) (ReadLE32 chunk 24) (ReadLE32 chunk 28)
      (ReadLE32 chunk 32) (ReadLE32 chunk 36) (ReadLE32 chunk 40) (ReadLE32 chunk 44)
      (ReadLE32 chunk 48) (ReadLE32 chunk 52) (ReadLE32 chunk 56) (ReadLE32 chunk 60).

(** The body of [Transform], in its five groups of thirty-two lines. *)
Definition Rounds_1 (w : words16) (r : state * state) : state * state :=
  let '(mkW w0 w1 w2 w3 w4 w5 w6 w7 w8 w9 w10 w11 w12 w13 w14 w15) := w in
  let '(mkState a1 b1 c1 d1 e1, mkState a2 b2 c2 d2 e2) := r in
  let '(a1, c1) := R11 a1 b1 c1 d1 e1 w0 11 in
  let '(a2, c2) := R12 a2 b2 c2 d2 e2 w5 8 in
  let '(e1, b1) := R11 e1 a1 b1 c1 d1 w1 14 in
  let '(e2, b2) := R12 e2 a2 b2 c2 d2 w14 9 in
  let '(d1, a1) := R11 d1 e1 a1 b1 c1 w2 15 in
  let '(d2, a2) := R12 d2 e2 a2 b2 c2 w7 9 in
  let '(c1, e1) := R11 c1 d1 e1 a1 b1 w3 12 in
  let '(c2, e2) := R12 c2 d2 e2 a2 b2 w0 11 in
  let '(b1, d1) := R11 b1 c1 d1 e1 a1 w4 5 in
  let '(b2, d2) := R12 b2 c2 d2 e2 a2 w9 13 in
  let '(a1, c1) := R11 a1 b1 c1 d1 e1 w5 8 in
  let '(a2, c2) := R12 a2 b2 c2 d2 e2 w2 15 in
  let '(e1, b1) := R11 e1 a1 b1 c1 d1 w6 7 in
  let '(e2, b2) := R12 e2 a2 b2 c2 d2 w11 15 in
  let '(d1, a1) := R11 d1 e1 a1 b1 c1 w7 9 in
  let '(d2, a2) := R12 d2 e2 a2 b2 c2 w4 5 in
  let '(c1, e1) := R11 c1 d1 e1 a1 b1 w8 11 in
  let '(c2, e2) := R12 c2 d2 e2 a2 b2 w13 7 in
  let '(b1, d1) := R11 b1 c1 d1 e1 a1 w9 13 in
  let '(b2, d2) := R12 b2 c2 d2 e2 a2 w6 7 in
  let '(a1, c1) := R11 a1 b1 c1 d1 e1 w10 14 in
  let '(a2, c2) := R12 a2 b2 c2 d2 e2 w15 8 in
  let '(e1, b1) := R11 e1 a1 b1 c1 d1 w11 15 in
  let '(e2, b2) := R12 e2 a2 b2 c2 d2 w8 11 in
  let '(d1, a1) := R11 d1 e1 a1 b1 c1 w12 6 in
  let '(d2, a2) := R12 d2 e2 a2 b2 c2 w1 14 in
  let '(c1, e1) := R11 c1 d1 e1 a1 b1 w13 7 in
  let '(c2, e2) := R12 c2 d2 e2 a2 b2 w10 14 in
  let '(b1, d1) := R11 b1 c1 d1 e1 a1 w14 9 in
  let '(b2, d2) := R12 b2 c2 d2 e2 a2 w3 12 in
  let '(a1, c1) := R11 a1 b1 c1 d1 e1 w15 8 in
  let '(a2, c2) := R12 a2 b2 c2 d2 e2 w12 6 in
  (mkState a1 b1 c1 d1 e1, mkState a2 b2 c2 d2 e2).

Definition Rounds_2 (w : words16) (r : state * state) : state * state :=
  let '(mkW w0 w1 w2 w3 w4 w5 w6 w7 w8 w9 w10 w11 w12 w13 w14 w15) := w in
  let '(mkState a1 b1 c1 d1 e1, mkState a2 b2 c2 d2 e2) := r in
  let '(e1, b1) := R21 e1 a1 b1 c1 d1 w7 7 in
  let '(e2, b2) := R22 e2 a2 b2 c2 d2 w6 9 in
  let '(d1, a1) := R21 d1 e1 a1 b1 c1 w4 6 in
  let '(d2, a2) := R22 d2 e2 a2 b2 c2 w11 13 in
  let '(c1, e1) := R21 c1 d1 e1 a1 b1 w13 8 in
  let '(c2, e2) := R22 c2 d2 e2 a2 b2 w3 15 in
  let '(b1, d1) := R21 b1 c1 d1 e1 a1 w1 13 in
  let '(b2, d2) := R22 b2 c2 d2 e2 a2 w7 7 in
  let '(a1, c1) := R21 a1 b1 c1 d1 e1 w10 11 in
  let '(a2, c2) := R22 a2 b2 c2 d2 e2 w0 12 in
  let '(e1, b1) := R21 e1 a1 b1 c1 d1 w6 9 in
  let '(e2, b2) := R22 e2 a2 b2 c2 d2 w13 8 in
  let '(d1, a1) := R21 d1 e1 a1 b1 c1 w15 7 in
  let '(d2, a2) := R22 d2 e2 a2 b2 c2 w5 9 in
  let '(c1, e1) := R21 c1 d1 e1 a1 b1 w3 15 in
  let '(c2, e2) := R22 c2 d2 e2 a2 b2 w10 11 in
  let '(b1, d1) := R21 b1 c1 d1 e1 a1 w12 7 in
  let '(b2, d2) := R22 b2 c2 d2 e2 a2 w14 7 in
  let '(a1, c1) := R21 a1 b1 c1 d1 e1 w0 12 in
  let '(a2, c2) := R22 a2 b2 c2 d2 e2 w15 7 in
  let '(e1, b1) := R21 e1 a1 b1 c1 d1 w9 15 in
  let '(e2, b2) := R22 e2 a2 b2 c2 d2 w8 12 in
  let '(d1, a1) := R21 d1 e1 a1 b1 c1 w5 9 in
  let '(d2, a2) := R22 d2 e2 a2 b2 c2 w12 7 in
  let '(c1, e1) := R21 c1 d1 e1 a1 b1 w2 11 in
  let '(c2, e2) := R22 c2 d2 e2 a2 b2 w4 6 in
  let '(b1, d1) := R21 b1 c1 d1 e1 a1 w14 7 in
  let '(b2, d2) := R22 b2 c2 d2 e2 a2 w9 15 in
  let '(a1, c1) := R21 a1 b1 c1 d1 e1 w11 13 in
  let '(a2, c2) := R22 a2 b2 c2 d2 e2 w1 13 in
  let '(e1, b1) := R21 e1 a1 b1 c1 d1 w8 12 in
  let '(e2, b2) := R22 e2 a2 b2 c2 d2 w2 11 in
  (mkState a1 b1 c1 d1 e1, mkState a2 b2 c2 d2 e2).

Definition Rounds_3 (w : words16) (r : state * state) : state * state :=
  let '(mkW w0 w1 w2 w3 w4 w5 w6 w7 w8 w9 w10 w11 w12 w13 w14 w15) := w in
  let '(mkState a1 b1 c1 d1 e1, mkState a2 b2 c2 d2 e2) := r in
  let '(d1, a1) := R31 d1 e1 a1 b1 c1 w3 11 in
  let '(d2, a2) := R32 d2 e2 a2 b2 c2 w15 9 in
  let '(c1, e1) := R31 c1 d1 e1 a1 b1 w10 13 in
  let '(c2, e2) := R32 c2 d2 e2 a2 b2 w5 7 in
  let '(b1, d1) := R31 b1 c1 d1 e1 a1 w14 6 in
  let '(b2, d2) := R32 b2 c2 d2 e2 a2 w1 15 in
  let '(a1, c1) := R31 a1 b1 c1 d1 e1 w4 7 in
  let '(a2, c2) := R32 a2 b2 c2 d2 e2 w3 11 in
  let '(e1, b1) := R31 e1 a1 b1 c1 d1 w9 14 in
  let '(e2, b2) := R32 e2 a2 b2 c2 d2 w7 8 in
  let '(d1, a1) := R31 d1 e1 a1 b1 c1 w15 9 in
  let '(d2, a2) := R32 d2 e2 a2 b2 c2 w14 6 in
  let '(c1, e1) := R31 c1 d1 e1 a1 b1 w8 13 in
  let '(c2, e2) := R32 c2 d2 e2 a2 b2 w6 6 in
  let '(b1, d1) := R31 b1 c1 d1 e1 a1 w1 15 in
  let '(b2, d2) := R32 b2 c2 d2 e2 a2 w9 14 in
  let '(a1, c1) := R31 a1 b1 c1 d1 e1 w2 14 in
  let '(a2, c2) := R32 a2 b2 c2 d2 e2 w11 12 in
  let '(e1, b1) := R31 e1 a1 b1 c1 d1 w7 8 in
  let '(e2, b2) := R32 e2 a2 b2 c2 d2 w8 13 in
  let '(d1, a1) := R31 d1 e1 a1 b1 c1 w0 13 in
  let '(d2, a2) := R32 d2 e2 a2 b2 c2 w12 5 in
  let '(c1, e1) := R31 c1 d1 e1 a1 b1 w6 6 in
  let '(c2, e2) := R32 c2 d2 e2 a2 b2 w2 14 in
  let '(b1, d1) := R31 b1 c1 d1 e1 a1 w13 5 in
  let '(b2, d2) := R32 b2 c2 d2 e2 a2 w10 13 in
  let '(a1, c1) := R31 a1 b1 c1 d1 e1 w11 12 in
  let '(a2, c2) := R32 a2 b2 c2 d2 e2 w0 13 in
  let '(e1, b1) := R31 e1 a1 b1 c1 d1 w5 7 in
  let '(e2, b2) := R32 e2 a2 b2 c2 d2 w4 7 in
  let '(d1, a1) := R31 d1 e1 a1 b1 c1 w12 5 in
  let '(d2, a2) := R32 d2 e2 a2 b2 c2 w13 5 in
  (mkState a1 b1 c1 d1 e1, mkState a2 b2 c2 d2 e2).

Definition Rounds_4 (w : words16) (r : state * state) : state * state :=
  let '(mkW w0 w1 w2 w3 w4 w5 w6 w7 w8 w9 w10 w11 w12 w13 w14 w15) := w in
  let '(mkState a1 b1 c1 d1 e1, mkState a2 b2 c2 d2 e2) := r in
  let '(c1, e1) := R41 c1 d1 e1 a1 b1 w1 11 in
  let '(c2, e2) := R42 c2 d2 e2 a2 b2 w8 15 in
  let '(b1, d1) := R41 b1 c1 d1 e1 a1 w9 12 in
  let '(b2, d2) := R42 b2 c2 d2 e2 a2 w6 5 in
  let '(a1, c1) := R41 a1 b1 c1 d1 e1 w11 14 in
  let '(a2, c2) := R42 a2 b2 c2 d2 e2 w4 8 in
  let '(e1, b1) := R41 e1 a1 b1 c1 d1 w10 15 in
  let '(e2, b2) := R42 e2 a2 b2 c2 d2 w1 11 in
  let '(d1, a1) := R41 d1 e1 a1 b1 c1 w0 14 in
  let '(d2, a2) := R42 d2 e2 a2 b2 c2 w3 14 in
  let '(c1, e1) := R41 c1 d1 e1 a1 b1 w8 15 in
  let '(c2, e2) := R42 c2 d2 e2 a2 b2 w11 14 in
  let '(b1, d1) := R41 b1 c1 d1 e1 a1 w12 9 in
  let '(b2, d2) := R42 b2 c2 d2 e2 a2 w15 6 in
  let '(a1, c1) := R41 a1 b1 c1 d1 e1 w4 8 in
  let '(a2, c2) := R42 a2 b2 c2 d2 e2 w0 14 in
  let '(e1, b1) := R41 e1 a1 b1 c1 d1 w13 9 in
  let '(e2, b2) := R42 e2 a2 b2 c2 d2 w5 6 in
  let '(d1, a1) := R41 d1 e1 a1 b1 c1 w3 14 in
  let '(d2, a2) := R42 d2 e2 a2 b2 c2 w12 9 in
  let '(c1, e1) := R41 c1 d1 e1 a1 b1 w7 5 in
  let '(c2, e2) := R42 c2 d2 e2 a2 b2 w2 12 in
  let '(b1, d1) := R41 b1 c1 d1 e1 a1 w15 6 in
  let '(b2, d2) := R42 b2 c2 d2 e2 a2 w13 9 in
  let '(a1, c1) := R41 a1 b1 c1 d1 e1 w14 8 in
  let '(a2, c2) := R42 a2 b2 c2 d2 e2 w9 12 in
  let '(e1, b1) := R41 e1 a1 b1 c1 d1 w5 6 in
  let '(e2, b2) := R42 e2 a2 b2 c2 d2 w7 5 in
  let '(d1, a1) := R41 d1 e1 a1 b1 c1 w6 5 in
  let '(d2, a2) := R42 d2 e2 a2 b2 c2 w10 15 in
  let '(c1, e1) := R41 c1 d1 e1 a1 b1 w2 12 in
  let '(c2, e2) := R42 c2 d2 e2 a2 b2 w14 8 in
  (mkState a1 b1 c1 d1 e1, mkState a2 b2 c2 d2 e2).

Definition Rounds_5 (w : words16) (r : state * state) : state * state :=
  let '(mkW w0 w1 w2 w3 w4 w5 w6 w7 w8 w9 w10 w11 w12 w13 w14 w15) := w in
  let '(mkState a1 b1 c1 d1 e1, mkState a2 b2 c2 d2 e2) := r in
  let '(b1, d1) := R51 b1 c1 d1 e1 a1 w4 9 in
  let '(b2, d2) := R52 b2 c2 d2 e2 a2 w12 8 in
  let '(a1, c1) := R51 a1 b1 c1 d1 e1 w0 15 in
  let '(a2, c2) := R52 a2 b2 c2 d2 e2 w15 5 in
  let '(e1, b1) := R51 e1 a1 b1 c1 d1 w5 5 in
  let '(e2, b2) := R52 e2 a2 b2 c2 d2 w10 12 in
  let '(d1, a1) := R51 d1 e1 a1 b1 c1 w9 11 in
  let '(d2, a2) := R52 d2 e2 a2 b2 c2 w4 9 in
  let '(c1, e1) := R51 c1 d1 e1 a1 b1 w7 6 in
  let '(c2, e2) := R52 c2 d2 e2 a2 b2 w1 12 in
  let '(b1, d1) := R51 b1 c1 d1 e1 a1 w12 8 in
  let '(b2, d2) := R52 b2 c2 d2 e2 a2 w5 5 in
  let '(a1, c1) := R51 a1 b1 c1 d1 e1 w2 13 in
  let '(a2, c2) := R52 a2 b2 c2 d2 e2 w8 14 in
  let '(e1, b1) := R51 e1 a1 b1 c1 d1 w10 12 in
  let '(e2, b2) := R52 e2 a2 b2 c2 d2 w7 6 in
  let '(d1, a1) := R51 d1 e1 a1 b1 c1 w14 5 in
  let '(d2, a2) := R52 d2 e2 a2 b2 c2 w6 8 in
  let '(c1, e1) := R51 c1 d1 e1 a1 b1 w1 12 in
  let '(c2, e2) := R52 c2 d2 e2 a2 b2 w2 13 in
  let '(b1, d1) := R51 b1 c1 d1 e1 a1 w3 13 in
  let '(b2, d2) := R52 b2 c2 d2 e2 a2 w13 6 in
  let '(a1, c1) := R51 a1 b1 c1 d1 e1 w8 14 in
  let '(a2, c2) := R52 a2 b2 c2 d2 e2 w14 5 in
  let '(e1, b1) := R51 e1 a1 b1 c1 d1 w11 11 in
  let '(e2, b2) := R52 e2 a2 b2 c2 d2 w0 15 in
  let '(d1, a1) := R51 d1 e1 a1 b1 c1 w6 8 in
  let '(d2, a2) := R52 d2 e2 a2 b2 c2 w3 13 in
  let '(c1, e1) := R51 c1 d1 e1 a1 b1 w15 5 in
  let '(c2, e2) := R52 c2 d2 e2 a2 b2 w9 11 in
  let '(b1, d1) := R51 b1 c1 d1 e1 a1 w13 6 in
  let '(b2, d2) := R52 b2 c2 d2 e2 a2 w11 11 in
  (mkState a1 b1 c1 d1 e1, mkState a2 b2 c2 d2 e2).

Definition Transform (s : state) (chunk : list Z) : state :=
  let w := read_words chunk in
  let '(mkState a1 b1 c1 d1 e1, mkState a2 b2 c2 d2 e2) :=
    Rounds_5 w (Rounds_4 w (Rounds_3 w (Rounds_2 w (Rounds_1 w (s, s))))) in
  let t := s0 s in
  mkState (u32 (s1 s + c1 + d2)) (u32 (s2 s + d1 + e2)) (u32 (s3 s + e1 + a2))
          (u32 (s4 s + a1 + b2)) (u32 (t + b1 + c2)).

(** ** The class [CRIPEMD160] *)

Abbreviation CRIPEMD160 := (hasher (St := state)).

Definition CRIPEMD160_new : CRIPEMD160 := hasher_init Initialize.
Definition CRIPEMD160_Write (h : CRIPEMD160) (data : list Z) : CRIPEMD160 := hasher_write Transform h data.
Definition CRIPEMD160_Finalize (h : CRIPEMD160) : list Z :=
  let s := h_s (hasher_finish Transform WriteLE64 h) in
  WriteLE32 (s0 s) ++ WriteLE32 (s1 s) ++ WriteLE32 (s2 s) ++ WriteLE32 (s3 s) ++ WriteLE32 (s4 s).
Definition CRIPEMD160_Reset (h : CRIPEMD160) : CRIPEMD160 := hasher_reset Initialize h.

(** [CRIPEMD160().Write(m, len).Finalize(hash)] *)
Definition RIPEMD160_digest (m : list Z) : list Z := CRIPEMD160_Finalize (CRIPEMD160_Write CRIPEMD160_new m).

(** ** The published algorithm *)

Module Spec.

(** Round group [j] (0 to 4) of a line: the boolean function and the constant. *)
Definition sqrt30 (p : Z) : Z := Z.sqrt (p * 2 ^ 60).
Definition cbrt30 (p : Z) : Z := cbrt_bits 36 (p * 2 ^ 90) 0.
Definition left_fun : list ((Z -> Z -> Z -> Z) * Z) :=
  [(f1, 0); (f2, sqrt30 2); (f3, sqrt30 3); (f4, sqrt30 5); (f5, sqrt30 7)].
Definition right_fun : list ((Z -> Z -> Z -> Z) * Z) :=
  [(f5, cbrt30 2); (f4, cbrt30 3); (f3, cbrt30 5); (f2, cbrt30 7); (f1, 0)].

(** Word order: rho iterated, after the identity on the left line and after
    [pi i = 9 i + 5 (mod 16)] on the right one. *)
Definition rho (i : nat) : nat := nth i [7; 4; 13; 1; 10; 6; 15; 3; 12; 0; 9; 5; 2; 14; 11; 8]%nat 0%nat.
Definition pi (i : nat) : nat := ((9 * i + 5) mod 16)%nat.
Definition left_order (j : nat) : list nat := map (fun i => Nat.iter j rho i) (seq 0 16).
Definition right_order (j : nat) : list nat := map (fun i => Nat.iter j rho (pi i)) (seq 0 16).

(** Rotation amounts by group and word, the same on both lines. *)
Definition shifts : list (list Z) :=
  [[11; 14; 15; 12; 5; 8; 7; 9; 11; 13; 14; 15; 6; 7; 9; 8];
   [12; 13; 11; 15; 6; 9; 9; 7; 12; 15; 11; 13; 7; 8; 7; 7];
   [13; 15; 14; 11; 7; 7; 6; 8; 13; 14; 13; 12; 5; 5; 6; 9];
   [14; 11; 12; 14; 8; 6; 5; 5; 15; 12; 15; 14; 9; 9; 8; 6];
   [15; 12; 13; 13; 9; 5; 8; 6; 14; 11; 12; 11; 8; 6; 5; 5]].

(** One round: function, constant, word index, rotation. *)
Definition round_data : Type := ((Z -> Z -> Z -> Z) * Z) * (nat * Z).
Definition group (fk : (Z -> Z -> Z -> Z) * Z) (j : nat) (order : list nat) : list round_data :=
  map (fun i => (fk, (i, nth i (nth j shifts []) 0))) order.
Definition left_line (j : nat) : list round_data :=
  group (nth j left_fun (f1, 0)) j (left_order j).
Definition right_line (j : nat) : list round_data :=
  group (nth j right_fun (f1, 0)) j (right_order j).

Definition step (X : list Z) (r : state) (rd : round_data) : state :=
  let '(mkState A B C D E) := r in
  let '((f, k), (i, n)) := rd in
  let T := u32 (rol (u32 (A + f B C D + nth i X 0 + k)) n + E) in
  mkState E T B (rol C 10) D.

Definition words (block : list Z) : list Z := map (fun i => ReadLE32 block (4 * i)) (seq 0 16).

Definition line (l : nat -> list round_data) : list round_data := concat (map l (seq 0 5)).

Definition compress (s : state) (block : list Z) : state :=
  let X := words block in
  let L := fold_left (step X) (line left_line) s in
  let R := fold_left (step X) (line right_line) s in
  mkState (u32 (s1 s + s2 L + s3 R)) (u32 (s2 s + s3 L + s4 R)) (u32 (s3 s + s4 L + s0 R))
          (u32 (s4 s + s0 L + s1 R)) (u32 (s0 s + s1 L + s2 R)).

Definition initial : state := mkState 0x67452301 0xefcdab89 0x98badcfe 0x10325476 0xc3d2e1f0.

Definition pad (m : list Z) : list Z :=
  m ++ [0x80] ++ replicate (Z.to_nat ((55 - zlen m) mod 64)) 0 ++ le_encode 8 (8 * zlen m).

Definition ripemd160 (m : list Z) : list Z :=
  let p := pad m in
  let s := fold_left compress (blocks (length p / 64) p) initial in
  concat (map (le_encode 4) [s0 s; s1 s; s2 s; s3 s; s4 s]).

End Spec.

(** ** The code computes it *)

Lemma rmd_step_Round X a b c d e f x k i n :
  nth i X 0 = x ->
  Spec.step X (mkState a b c d e) ((f, k), (i, n)) =
  mkState e (fst (Round a b c d e (f b c d) x k n)) b (snd (Round a b c d e (f b c d) x k n)) d.
Proof. intros <-. reflexivity. Qed.

Definition word_list (w : words16) : list Z :=
  let '(mkW w0 w1 w2 w3 w4 w5 w6 w7 w8 w9 w10 w11 w12 w13 w14 w15) := w in
  [w0; w1; w2; w3; w4; w5; w6; w7; w8; w9; w10; w11; w12; w13; w14; w15].

Definition lines (w : words16) (l r : list Spec.round_data) (p : state * state) : state * state :=
  (fold_left (Spec.step (word_list w)) l (fst p), fold_left (Spec.step (word_list w)) r (snd p)).

(** Sixteen rounds move every register one name on: the code's [a] .. [e] after
    [n] groups, from the registers in round order. *)
Definition ren1 (s : state) : state := let '(mkState x0 x1 x2 x3 x4) := s in mkState x1 x2 x3 x4 x0.
Fixpoint ren (n : nat) (p : state * state) : state * state :=
  match n with O => p | S n => let q := ren n p in (ren1 (fst q), ren1 (snd q)) end.

Definition rounds_of (f : Z -> Z -> Z -> Z) (k : Z) (l : list (nat * Z)) : list Spec.round_data :=
  map (fun p => ((f, k), p)) l.

(** Word index and rotation. *)
Definition pairs (l : list (Z * Z)) : list (nat * Z) := map (fun p => (Z.to_nat (fst p), snd p)) l.

(** One line of the unrolled code against one round of its line. *)
Ltac round_step :=
  lazymatch goal with
  | |- (let '(_, _) := Round ?a ?b ?c ?d ?e (?f _ _ _) ?x ?k ?n in _) = _ =>
      match goal with
      | |- context [Spec.step ?X (mkState a b c d e) ((f, k), (?i, n))] =>
          rewrite (rmd_step_Round X a b c d e f x k i n) by reflexivity
      end;
      let P := fresh "P" in
      generalize (Round a b c d e (f b c d) x k n); intros P; destruct P as [? ?]; cbv beta iota delta [fst snd]
  end.

Ltac group_proof G R1 R2 :=
  intros [w0 w1 w2 w3 w4 w5 w6 w7 w8 w9 w10 w11 w12 w13 w14 w15] [[a1 b1 c1 d1 e1] [a2 b2 c2 d2 e2]];
  cbv beta iota zeta delta [ren ren1 fst snd];
  unfold lines, rounds_of, pairs; cbn [map fold_left word_list fst snd];
  cbv beta iota delta [G]; cbv beta delta [R1 R2];
  do 32 round_step; reflexivity.

(** The rounds of each group as the code lists them. *)
Definition left_1 : list Spec.round_data := rounds_of f1 0
  (pairs [(0, 11); (1, 14); (2, 15); (3, 12); (4, 5); (5, 8); (6, 7); (7, 9); (8, 11); (9, 13); (10, 14); (11, 15); (12, 6); (13, 7); (14, 9); (15, 8)]).
Definition right_1 : list Spec.round_data := rounds_of f5 0x50A28BE6
  (pairs [(5, 8); (14, 9); (7, 9); (0, 11); (9, 13); (2, 15); (11, 15); (4, 5); (13, 7); (6, 7); (15, 8); (8, 11); (1, 14); (10, 14); (3, 12); (12, 6)]).
Definition left_2 : list Spec.round_data := rounds_of f2 0x5A827999
  (pairs [(7, 7); (4, 6); (13, 8); (1, 13); (10, 11); (6, 9); (15, 7); (3, 15); (12, 7); (0, 12); (9, 15); (5, 9); (2, 11); (14, 7); (11, 13); (8, 12)]).
Definition right_2 : list Spec.round_data := rounds_of f4 0x5C4DD124
  (pairs [(6, 9); (11, 13); (3, 15); (7, 7); (0, 12); (13, 8); (5, 9); (10, 11); (14, 7); (15, 7); (8, 12); (12, 7); (4, 6); (9, 15); (1, 13); (2, 11)]).
Definition left_3 : list Spec.round_data := rounds_of f3 0x6ED9EBA1
  (pairs [(3, 11); (10, 13); (14, 6); (4, 7); (9, 14); (15, 9); (8, 13); (1, 15); (2, 14); (7, 8); (0, 13); (6, 6); (13, 5); (11, 12); (5, 7); (12, 5)]).
Definition right_3 : list Spec.round_data := rounds_of f3 0x6D703EF3
  (pairs [(15, 9); (5, 7); (1, 15); (3, 11); (7, 8); (14, 6); (6, 6); (9, 14); (11, 12); (8, 13); (12, 5); (2, 14); (10, 13); (0, 13); (4, 7); (13, 5)]).
Definition left_4 : list Spec.round_data := rounds_of f4 0x8F1BBCDC
  (pairs [(1, 11); (9, 12); (11, 14); (10, 15); (0, 14); (8, 15); (12, 9); (4, 8); (13, 9); (3, 14); (7, 5); (15, 6); (14, 8); (5, 6); (6, 5); (2, 12)]).
Definition right_4 : list Spec.round_data := rounds_of f2 0x7A6D76E9
  (pairs [(8, 15); (6, 5); (4, 8); (1, 11); (3, 14); (11, 14); (15, 6); (0, 14); (5, 6); (12, 9); (2, 12); (13, 9); (9, 12); (7, 5); (10, 15); (14, 8)]).
Definition left_5 : list Spec.round_data := rounds_of f5 0xA953FD4E
  (pairs [(4, 9); (0, 15); (5, 5); (9, 11); (7, 6); (12, 8); (2, 13); (10, 12); (14, 5); (1, 12); (3, 13); (8, 14); (11, 11); (6, 8); (15, 5); (13, 6)]).
Definition right_5 : list Spec.round_data := rounds_of f1 0
  (pairs [(12, 8); (15, 5); (10, 12); (4, 9); (1, 12); (5, 5); (8, 14); (7, 6); (6, 8); (2, 13); (13, 6); (14, 5); (0, 15); (3, 13); (9, 11); (11, 11)]).

Lemma tables_spec :
  Spec.line Spec.left_line = left_1 ++ left_2 ++ left_3 ++ left_4 ++ left_5 /\
  Spec.line Spec.right_line = right_1 ++ right_2 ++ right_3 ++ right_4 ++ right_5.
Proof. split; cbv -[f1 f2 f3 f4 f5]; reflexivity. Qed.

Lemma Rounds_1_spec : forall w p,
  Rounds_1 w (ren 0 p) = ren 1 (lines w left_1 right_1 p).
Proof. unfold left_1, right_1. group_proof Rounds_1 R11 R12. Qed.

Lemma Rounds_2_spec : forall w p,
  Rounds_2 w (ren 1 p) = ren 2 (lines w left_2 right_2 p).
Proof. unfold left_2, right_2. group_proof Rounds_2 R21 R22. Qed.

Lemma Rounds_3_spec : forall w p,
  Rounds_3 w (ren 2 p) = ren 3 (lines w left_3 right_3 p).
Proof. unfold left_3, right_3. group_proof Rounds_3 R31 R32. Qed.

Lemma Rounds_4_spec : forall w p,
  Rounds_4 w (ren 3 p) = ren 4 (lines w left_4 right_4 p).
Proof. unfold left_4, right_4. group_proof Rounds_4 R41 R42. Qed.

Lemma Rounds_5_spec : forall w p,
  Rounds_5 w (ren 4 p) = ren 5 (lines w left_5 right_5 p).
Proof. unfold left_5, right_5. group_proof Rounds_5 R51 R52. Qed.

Lemma lines_app w l l' r r' p : lines w (l ++ l') (r ++ r') p = lines w l' r' (lines w l r p).
Proof. unfold lines. cbn [fst snd]. rewrite !fold_left_app. reflexivity. Qed.

Lemma ren_5 p : ren 5 p = p.
Proof. destruct p as [[] []]. reflexivity. Qed.

Lemma five_groups w (g1 g2 g3 g4 g5 : state * state -> state * state) l1 l2 l3 l4 l5 r1 r2 r3 r4 r5 :
  (forall p, g1 (ren 0 p) = ren 1 (lines w l1 r1 p)) -> (forall p, g2 (ren 1 p) = ren 2 (lines w l2 r2 p)) ->
  (forall p, g3 (ren 2 p) = ren 3 (lines w l3 r3 p)) -> (forall p, g4 (ren 3 p) = ren 4 (lines w l4 r4 p)) ->
  (forall p, g5 (ren 4 p) = ren 5 (lines w l5 r5 p)) ->
  forall p, g5 (g4 (g3 (g2 (g1 p)))) = lines w (l1 ++ l2 ++ l3 ++ l4 ++ l5) (r1 ++ r2 ++ r3 ++ r4 ++ r5) p.
Proof.
  intros H1 H2 H3 H4 H5 p. change p with (ren 0 p) at 1.
  rewrite H1, H2, H3, H4, H5, ren_5, !lines_app. reflexivity.
Qed.

(** The unrolled compression function is the published one. *)
Lemma Transform_spec s chunk : Transform s chunk = Spec.compress s chunk.
Proof.
  unfold Transform, Spec.compress. destruct tables_spec as [-> ->].
  pose proof (five_groups (read_words chunk) _ _ _ _ _ _ _ _ _ _ _ _ _ _ _
    (Rounds_1_spec _) (Rounds_2_spec _) (Rounds_3_spec _) (Rounds_4_spec _) (Rounds_5_spec _) (s, s)) as E.
  cbv zeta. rewrite E. unfold lines. cbn [fst snd].
  change (word_list (read_words chunk)) with (Spec.words chunk).
  destruct (fold_left _ _ s) as [a1 b1 c1 d1 e1]. destruct (fold_left _ _ s) as [a2 b2 c2 d2 e2]. reflexivity.
Qed.

Lemma rmd_absorb_fold (n : nat) : forall s m,
  absorb Transform n s m = fold_left Spec.compress (blocks n m) s.
Proof.
  induction n as [|n IH]; intros s m; [reflexivity|]. cbn [absorb blocks fold_left].
  rewrite Transform_spec. apply IH.
Qed.

Lemma md_pad_spec m : zlen m < 2 ^ 61 -> md_pad WriteLE64 m = Spec.pad m.
Proof.
  intros H. unfold md_pad, Spec.pad, u64. pose proof (zlen_nonneg m).
  rewrite WriteLE64_encode, (Z.mod_small (8 * zlen m)) by lia. reflexivity.
Qed.

Lemma rmd_represents_digest h m :
  represents Transform Initialize h m -> zlen m < 2 ^ 61 -> CRIPEMD160_Finalize h = Spec.ripemd160 m.
Proof.
  intros Hrep Hlen. unfold CRIPEMD160_Finalize, Spec.ripemd160. rewrite (finish_state _ _ _ _ m Hrep).
  unfold md_digest_state, full_chunks. rewrite md_pad_spec by assumption.
  rewrite rmd_absorb_fold. cbn [map concat]. rewrite !WriteLE32_encode, app_nil_r. reflexivity.
Qed.

(** [CRIPEMD160] computes RIPEMD-160 of the concatenation of what was
    written since construction or the last [Reset], however the caller cuts it. *)
Theorem CRIPEMD160_correct ds h m :
  represents Transform Initialize h m -> zlen (concat ds) < 2 ^ 61 ->
  CRIPEMD160_Finalize (fold_left CRIPEMD160_Write ds CRIPEMD160_new) = Spec.ripemd160 (concat ds) /\
  CRIPEMD160_Finalize (fold_left CRIPEMD160_Write ds (CRIPEMD160_Reset h)) = Spec.ripemd160 (concat ds).
Proof.
  intros Hrep Hlen. split; apply rmd_represents_digest; try assumption.
  - apply (writes_represent Transform Initialize _ []), init_represents.
  - apply (writes_represent Transform Initialize _ []). eapply reset_represents, Hrep.
Qed.

Lemma RIPEMD160_digest_length m : zlen (RIPEMD160_digest m) = 20.
Proof. reflexivity. Qed.

Lemma RIPEMD160_digest_bytes m : bytes_ok (RIPEMD160_digest m).
Proof. unfold RIPEMD160_digest, CRIPEMD160_Finalize. rewrite !bytes_ok_app. repeat split; apply WriteLE32_bytes. Qed.

Lemma CRIPEMD160_correct_witness :
  CRIPEMD160_Finalize (fold_left CRIPEMD160_Write [[97]; []; [98; 99]] CRIPEMD160_new) = Spec.ripemd160 [97; 98; 99] /\
  take 4 (Spec.ripemd160 [97; 98; 99]) = [0x8e; 0xb2; 0x08; 0xf7].
Proof.
  split; [|vm_compute; reflexivity].
  exact (proj1 (CRIPEMD160_correct [[97]; []; [98; 99]] CRIPEMD160_new [] (init_represents _ _) eq_refl)).
Defined.
