(* ===== verification/Hashes.v ===== *)
(** * Hash objects: [hash.h], [crypto/hmac_sha256], [crypto/rfc6979_hmac_sha256]

    The double and mixed hashers of [hash.h], HMAC-SHA256 and the RFC 6979
    generator, on top of the streaming hashers.  [divi_hashes] gives the script
    machine its hash functions. *)

From Stdlib Require Import ZArith Lia Bool.
From stdpp Require Import base option numbers list.
From S2P Require Import Prelude CryptoCommon BlockHasher Sha256 Sha1 Ripemd160 StackManager.

Open Scope Z_scope.

(** ** [CHash256], [CHash160] *)

Definition CHash256 : Type := Sha256.CSHA256.
Definition CHash256_new : CHash256 := CSHA256_new.
Definition CHash256_Write (h : CHash256) (data : list Z) : CHash256 := CSHA256_Write h data.
Definition CHash256_Reset (h : CHash256) : CHash256 := CSHA256_Reset h.

(** [sha] is finalized, reset (its buffer keeps the padding) and used again. *)
Definition CHash256_Finalize (h : CHash256) : list Z :=
  let buf := CSHA256_Finalize h in
  let h := hasher_finish Sha256.Transform WriteBE64 h in
  CSHA256_Finalize (CSHA256_Write (CSHA256_Reset h) buf).

Definition CHash160 : Type := Sha256.CSHA256.
Definition CHash160_new : CHash160 := CSHA256_new.
Definition CHash160_Write (h : CHash160) (data : list Z) : CHash160 := CSHA256_Write h data.
Definition CHash160_Reset (h : CHash160) : CHash160 := CSHA256_Reset h.
Definition CHash160_Finalize (h : CHash160) : list Z :=
  let buf := CSHA256_Finalize h in
  CRIPEMD160_Finalize (CRIPEMD160_Write CRIPEMD160_new buf).

(** [Hash(p1begin, p1end, ..., pnbegin, pnend)] for [n] ranges (an empty range
    writes zero bytes), and [Hash160]. *)
Definition Hash (ranges : list (list Z)) : list Z :=
  CHash256_Finalize (fold_left CHash256_Write ranges CHash256_new).
Definition Hash160 (vch : list Z) : list Z :=
  CHash160_Finalize (CHash160_Write CHash160_new vch).

(** [CHashWriter]: [nType] and [nVersion] only choose the serialization. *)
Record CHashWriter := mkHashWriter { hw_ctx : CHash256; hw_nType : Z; hw_nVersion : Z }.
Definition CHashWriter_new (nType nVersion : Z) : CHashWriter := mkHashWriter CHash256_new nType nVersion.
Definition CHashWriter_write (w : CHashWriter) (pch : list Z) : CHashWriter :=
  mkHashWriter (CHash256_Write (hw_ctx w) pch) (hw_nType w) (hw_nVersion w).
Definition CHashWriter_GetHash (w : CHashWriter) : list Z := CHash256_Finalize (hw_ctx w).

(** ** [CHMAC_SHA256] *)

Record CHMAC_SHA256 := mkHMAC { outer : Sha256.CSHA256; inner : Sha256.CSHA256 }.

(** The key block [rkey]. *)
Definition hmac_rkey (key : list Z) : list Z :=
  if zlen key <=? 64 then key ++ replicate (Z.to_nat (64 - zlen key)) 0
  else CSHA256_Finalize (CSHA256_Write CSHA256_new key) ++ replicate 32 0.

Definition CHMAC_SHA256_new (key : list Z) : CHMAC_SHA256 :=
  let rkey := hmac_rkey key in
  let rkey := map (fun b => Z.lxor b 0x5c) rkey in
  let outer := CSHA256_Write CSHA256_new rkey in
  let rkey := map (fun b => Z.lxor b (Z.lxor 0x5c 0x36)) rkey in
  let inner := CSHA256_Write CSHA256_new rkey in
  mkHMAC outer inner.
Definition CHMAC_SHA256_Write (h : CHMAC_SHA256) (data : list Z) : CHMAC_SHA256 :=
  mkHMAC (outer h) (CSHA256_Write (inner h) data).
Definition CHMAC_SHA256_Finalize (h : CHMAC_SHA256) : list Z :=
  let temp := CSHA256_Finalize (inner h) in
  CSHA256_Finalize (CSHA256_Write (outer h) temp).

(** [CHMAC_SHA256(key, keylen).Write(d1, ..) ... .Finalize(out)] *)
Definition hmac_of (key : list Z) (ds : list (list Z)) : list Z :=
  CHMAC_SHA256_Finalize (fold_left CHMAC_SHA256_Write ds (CHMAC_SHA256_new key)).

(** ** [RFC6979_HMAC_SHA256] *)

Record RFC6979_HMAC_SHA256 := mkRFC6979 { V : list Z; K : list Z; retry : bool }.

Definition RFC6979_new (key msg : list Z) : RFC6979_HMAC_SHA256 :=
  let V := replicate 32 0x01 in
  let K := replicate 32 0x00 in
  let K := hmac_of K [V; [0x00]; key; msg] in
  let V := hmac_of K [V] in
  let K := hmac_of K [V; [0x01]; key; msg] in
  let V := hmac_of K [V] in
  mkRFC6979 V K false.

(** [while (outputlen > 0)]: each round takes at least one byte, so [outputlen]
    rounds are enough. *)
Fixpoint Generate_loop (fuel : nat) (K V : list Z) (outputlen : Z) (output : list Z) : option (list Z * list Z) :=
  if outputlen <=? 0 then Some (output, V)
  else match fuel with
       | O => None
       | S fuel =>
           let V := hmac_of K [V] in
           let len := Z.min outputlen 32 in
           Generate_loop fuel K V (outputlen - len) (output ++ take (Z.to_nat len) V)
       end.

Definition Generate (g : RFC6979_HMAC_SHA256) (outputlen : Z) : option (list Z * RFC6979_HMAC_SHA256) :=
  let '(K, V) :=
    if retry g then let K := hmac_of (K g) [V g; [0x00]] in (K, hmac_of K [V g]) else (K g, V g) in
  match Generate_loop (Z.to_nat outputlen) K V outputlen [] with
  | None => None
  | Some (output, V) => Some (output, mkRFC6979 V K true)
  end.

(** ** The hash functions of the script machine *)

#[export] Instance divi_hashes : ScriptHashes := {|
  RIPEMD160 := RIPEMD160_digest;
  SHA1 := SHA1_digest;
  SHA256 := SHA256_digest;
  RIPEMD160_size := RIPEMD160_digest_length;
  SHA1_size := SHA1_digest_length;
  SHA256_size := SHA256_digest_length;
  RIPEMD160_bytes := RIPEMD160_digest_bytes;
  SHA1_bytes := SHA1_digest_bytes;
  SHA256_bytes := SHA256_digest_bytes
|}.

(** ** Correctness *)

Abbreviation sha_represents := (represents Sha256.Transform Sha256.Initialize).

Lemma sha_writes h m ds : sha_represents h m -> sha_represents (fold_left CSHA256_Write ds h) (m ++ concat ds).
Proof. apply writes_represent. Qed.

Lemma sha_new : sha_represents CSHA256_new [].
Proof. apply init_represents. Qed.

Lemma finish_represents h m : sha_represents h m -> exists p, sha_represents (hasher_finish Sha256.Transform WriteBE64 h) p.
Proof. intros H. eexists. unfold hasher_finish. apply write_represents, write_represents, H. Qed.

(** Reference hash functions on whole messages. *)
Definition sha256d (m : list Z) : list Z := Sha256.FIPS.sha256 (Sha256.FIPS.sha256 m).
Definition hash160 (m : list Z) : list Z := Ripemd160.Spec.ripemd160 (Sha256.FIPS.sha256 m).

Lemma sha256_zlen m : zlen (Sha256.FIPS.sha256 m) = 32.
Proof. reflexivity. Qed.

Lemma CHash256_represents h m :
  sha_represents h m -> zlen m < 2 ^ 61 -> CHash256_Finalize h = sha256d m.
Proof.
  intros H Hlen. unfold CHash256_Finalize. rewrite (Sha256.represents_digest h m H Hlen).
  destruct (finish_represents h m H) as [p Hp].
  apply Sha256.represents_digest; [|rewrite sha256_zlen; lia].
  apply (write_represents _ _ _ []). eapply reset_represents, Hp.
Qed.

Lemma CHash160_represents h m :
  sha_represents h m -> zlen m < 2 ^ 61 -> CHash160_Finalize h = hash160 m.
Proof.
  intros H Hlen. unfold CHash160_Finalize. rewrite (Sha256.represents_digest h m H Hlen).
  apply Ripemd160.rmd_represents_digest; [|rewrite sha256_zlen; lia].
  apply (write_represents _ _ _ []), init_represents.
Qed.

(** the hash objects of [hash.h] are the double SHA-256 and the RIPEMD-160
    of the SHA-256 of everything written, over any number of ranges; they agree
    with the digests the script operators use, although [CHash256] reuses one
    SHA-256 object whose buffer still holds the first padding. *)
Theorem hash_objects_correct ds :
  zlen (concat ds) < 2 ^ 61 ->
  Hash ds = sha256d (concat ds) /\ Hash160 (concat ds) = hash160 (concat ds) /\
  Hash ds = op_hash256 (concat ds) /\ Hash160 (concat ds) = op_hash160 (concat ds).
Proof.
  intros Hlen.
  assert (Hash ds = sha256d (concat ds)) as E1.
  { apply CHash256_represents; [|assumption]. apply (sha_writes _ []), sha_new. }
  assert (Hash160 (concat ds) = hash160 (concat ds)) as E2.
  { apply CHash160_represents; [|assumption]. apply (write_represents _ _ _ []), sha_new. }
  assert (forall m, zlen m < 2 ^ 61 -> SHA256_digest m = Sha256.FIPS.sha256 m) as E3.
  { intros m Hm. apply Sha256.represents_digest; [|exact Hm]. apply (write_represents _ _ _ []), sha_new. }
  assert (SHA256_digest (concat ds) = Sha256.FIPS.sha256 (concat ds)) as E4 by (apply E3, Hlen).
  rewrite E1, E2. repeat split; unfold op_hash256, op_hash160; cbn [SHA256 RIPEMD160 divi_hashes];
    rewrite E4.
  - rewrite E3 by (rewrite sha256_zlen; lia). reflexivity.
  - symmetry. apply Ripemd160.rmd_represents_digest; [|rewrite sha256_zlen; lia].
    apply (write_represents _ _ _ []), init_represents.
Qed.

Lemma hash_objects_correct_witness :
  Hash [[97]; [98; 99]] = sha256d [97; 98; 99] /\ take 2 (sha256d [97; 98; 99]) = [0x4f; 0x8b].
Proof.
  split; [|vm_compute; reflexivity].
  exact (proj1 (hash_objects_correct [[97]; [98; 99]] eq_refl)).
Defined.

(** *** HMAC *)

(** RFC 2104 with SHA-256 and its 64-byte block. *)
Definition rfc2104_key_block (key : list Z) : list Z :=
  let k := if 64 <? zlen key then Sha256.FIPS.sha256 key else key in
  k ++ replicate (Z.to_nat (64 - zlen k)) 0.
Definition rfc2104 (key m : list Z) : list Z :=
  let k := rfc2104_key_block key in
  let opad := map (fun b => Z.lxor b 0x5c) k in
  let ipad := map (fun b => Z.lxor b 0x36) k in
  Sha256.FIPS.sha256 (opad ++ Sha256.FIPS.sha256 (ipad ++ m)).

Lemma hmac_rkey_spec key :
  zlen key < 2 ^ 61 ->
  hmac_rkey key = rfc2104_key_block key.
Proof.
  intros Hk. unfold hmac_rkey, rfc2104_key_block. rewrite Z.leb_antisym. destruct (64 <? zlen key); cbn [negb]; [|reflexivity].
  rewrite (Sha256.represents_digest _ key); [reflexivity| |exact Hk].
  apply (write_represents _ _ _ []), sha_new.
Qed.

Lemma hmac_rkey_length key : length (hmac_rkey key) = 64%nat.
Proof.
  unfold hmac_rkey, zlen. destruct (Z.leb_spec (Z.of_nat (length key)) 64) as [H|H]; [|reflexivity].
  rewrite length_app, length_replicate. lia.
Qed.

Lemma hmac_correct_aux key ds :
  zlen key < 2 ^ 61 -> zlen (concat ds) < 2 ^ 60 -> hmac_of key ds = rfc2104 key (concat ds).
Proof.
  intros Hk Hd. unfold hmac_of.
  assert (forall ds h, fold_left CHMAC_SHA256_Write ds h = mkHMAC (outer h) (fold_left CSHA256_Write ds (inner h))) as Ef.
  { clear. induction ds as [|d ds IH]; intros h; [destruct h; reflexivity|]. apply IH. }
  rewrite Ef. unfold CHMAC_SHA256_Finalize, CHMAC_SHA256_new, rfc2104. cbn [outer inner].
  pose proof (hmac_rkey_length key) as Hl. rewrite <- (hmac_rkey_spec key Hk).
  set (k := hmac_rkey key) in *.
  rewrite map_map, (map_ext (fun x => Z.lxor (Z.lxor x 0x5c) (Z.lxor 0x5c 0x36)) (fun b => Z.lxor b 0x36)).
  2: { intros x. rewrite Z.lxor_assoc, <- (Z.lxor_assoc 0x5c 0x5c), Z.lxor_nilpotent, Z.lxor_0_l. reflexivity. }
  set (ik := map (fun b => Z.lxor b 0x36) k). set (ok := map (fun b => Z.lxor b 0x5c) k).
  assert (zlen ik = 64 /\ zlen ok = 64) as [Hi Ho] by (unfold zlen, ik, ok; rewrite !length_map; lia).
  rewrite (Sha256.represents_digest (fold_left CSHA256_Write ds (CSHA256_Write CSHA256_new ik)) (ik ++ concat ds)).
  - apply Sha256.represents_digest; [|rewrite zlen_app, sha256_zlen; lia].
    apply write_represents, (write_represents _ _ _ []), sha_new.
  - apply sha_writes, (write_represents _ _ _ []), sha_new.
  - rewrite zlen_app. lia.
Qed.

(** [CHMAC_SHA256] is HMAC of RFC 2104 over SHA-256, for keys shorter and
    longer than a block and however the message is cut into [Write]s. *)
Theorem CHMAC_SHA256_correct key ds :
  zlen key < 2 ^ 61 -> zlen (concat ds) < 2 ^ 60 ->
  CHMAC_SHA256_Finalize (fold_left CHMAC_SHA256_Write ds (CHMAC_SHA256_new key)) = rfc2104 key (concat ds).
Proof. apply hmac_correct_aux. Qed.

Lemma CHMAC_SHA256_correct_witness :
  CHMAC_SHA256_Finalize (fold_left CHMAC_SHA256_Write [[1]; [2; 3]] (CHMAC_SHA256_new (replicate 70 7))) =
  rfc2104 (replicate 70 7) [1; 2; 3].
Proof. apply (CHMAC_SHA256_correct (replicate 70 7) [[1]; [2; 3]]); reflexivity. Defined.

(** *** RFC 6979 *)

(** Section 3.2 of RFC 6979, steps b to g, with [key] and [msg] already encoded. *)
Definition rfc6979_init (key msg : list Z) : list Z * list Z :=
  let V0 := replicate 32 1 in
  let K0 := replicate 32 0 in
  let K1 := rfc2104 K0 (V0 ++ [0] ++ key ++ msg) in
  let V1 := rfc2104 K1 V0 in
  let K2 := rfc2104 K1 (V1 ++ [1] ++ key ++ msg) in
  (K2, rfc2104 K2 V1).

(** Step h: [V] is iterated and the values are concatenated; after each request
    [K] and [V] are renewed. *)
Definition rfc6979_block (K V : list Z) (i : nat) : list Z := Nat.iter i (rfc2104 K) V.
Definition rfc6979_stream (K V : list Z) (n : nat) : list Z :=
  concat (map (fun i => rfc6979_block K V (S i)) (seq 0 n)).
Definition rfc6979_renew (KV : list Z * list Z) : list Z * list Z :=
  let K := rfc2104 (fst KV) (snd KV ++ [0]) in (K, rfc2104 K (snd KV)).

Lemma hmac_step K V : length K = 32%nat -> length V = 32%nat -> hmac_of K [V] = rfc2104 K V.
Proof.
  intros HK HV. rewrite hmac_correct_aux by (unfold zlen; cbn [concat]; rewrite ?length_app; cbn; lia).
  cbn [concat]. rewrite app_nil_r. reflexivity.
Qed.

Lemma rfc2104_length K m : length (rfc2104 K m) = 32%nat.
Proof. reflexivity. Qed.

(** The number of 32-byte blocks of a request. *)
Definition blocks_for (n : Z) : nat := Z.to_nat ((n + 31) / 32).

Lemma Generate_loop_spec K : forall fuel V n output,
  length K = 32%nat -> length V = 32%nat -> 0 <= n -> (blocks_for n <= fuel)%nat ->
  Generate_loop fuel K V n output =
    Some (output ++ take (Z.to_nat n) (rfc6979_stream K V (blocks_for n)), rfc6979_block K V (blocks_for n)).
Proof.
  induction fuel as [|fuel IH]; intros V n output HK HV Hn Hf; cbn [Generate_loop].
  - destruct (Z.leb_spec n 0) as [H0|H0].
    + replace n with 0 by lia. cbn. rewrite app_nil_r. reflexivity.
    + exfalso. unfold blocks_for in Hf. assert (1 <= (n + 31) / 32) by (apply Z.div_le_lower_bound; lia). lia.
  - destruct (Z.leb_spec n 0) as [H0|H0].
    + replace n with 0 by lia. cbn. rewrite app_nil_r. reflexivity.
    + rewrite hmac_step by assumption.
      assert (blocks_for n = S (blocks_for (n - Z.min n 32))) as Eb.
      { unfold blocks_for. destruct (Z.le_gt_cases n 32).
        - rewrite Z.min_l, Z.sub_diag by lia. change ((0 + 31) / 32) with 0.
          replace ((n + 31) / 32) with 1; [reflexivity|]. apply (Z.div_unique _ _ _ (n - 1)); lia.
        - rewrite Z.min_r by lia. replace (n + 31) with (n - 32 + 31 + 1 * 32) by lia.
          rewrite Z.div_add by lia. pose proof (Z.div_pos (n - 32 + 31) 32). lia. }
      rewrite IH by (try assumption; try apply rfc2104_length; lia).
      rewrite Eb. f_equal. f_equal; [|unfold rfc6979_block; rewrite Nat.iter_succ_r; reflexivity].
      rewrite <- app_assoc. f_equal. unfold rfc6979_stream. cbn [seq map concat].
      rewrite <- seq_shift, map_map.
      rewrite (map_ext (fun x => rfc6979_block K V (S (S x))) (fun i => rfc6979_block K (rfc2104 K V) (S i)))
        by (intros i; unfold rfc6979_block; rewrite (Nat.iter_succ_r (S i)); reflexivity).
      change (rfc6979_block K V 1) with (rfc2104 K V).
      rewrite take_app, rfc2104_length. destruct (Z.le_gt_cases n 32).
      * rewrite Z.min_l, Z.sub_diag by lia. replace (Z.to_nat n - 32)%nat with 0%nat by lia. reflexivity.
      * rewrite Z.min_r by lia. f_equal; [|f_equal; lia].
        rewrite !take_ge; [reflexivity | rewrite rfc2104_length; lia ..].
Qed.

(** The answers to a sequence of requests. *)
Fixpoint rfc6979_answers (again : bool) (KV : list Z * list Z) (ns : list Z) : list (list Z) :=
  match ns with
  | [] => []
  | n :: ns =>
      let KV := if again then rfc6979_renew KV else KV in
      take (Z.to_nat n) (rfc6979_stream (fst KV) (snd KV) (blocks_for n)) ::
      rfc6979_answers true (fst KV, rfc6979_block (fst KV) (snd KV) (blocks_for n)) ns
  end.

Fixpoint Generate_all (g : RFC6979_HMAC_SHA256) (ns : list Z) : option (list (list Z)) :=
  match ns with
  | [] => Some []
  | n :: ns => match Generate g n with
               | None => None
               | Some (o, g) => match Generate_all g ns with None => None | Some os => Some (o :: os) end
               end
  end.

Lemma block_length K V i : length V = 32%nat -> length (rfc6979_block K V i) = 32%nat.
Proof. intros H. destruct i; [exact H | apply rfc2104_length]. Qed.

Lemma Generate_spec g n :
  length (K g) = 32%nat -> length (V g) = 32%nat -> 0 <= n ->
  let KV := if retry g then rfc6979_renew (K g, V g) else (K g, V g) in
  Generate g n = Some (take (Z.to_nat n) (rfc6979_stream (fst KV) (snd KV) (blocks_for n)),
                       mkRFC6979 (rfc6979_block (fst KV) (snd KV) (blocks_for n)) (fst KV) true) /\
  length (fst KV) = 32%nat /\ length (snd KV) = 32%nat.
Proof.
  intros HK HV Hn. unfold Generate.
  assert (blocks_for n <= Z.to_nat n)%nat as Hb.
  { unfold blocks_for. apply Z2Nat.inj_le; [apply Z.div_pos; lia | lia |].
    destruct (Z.eq_dec n 0) as [->|]; [discriminate | apply Z.div_le_upper_bound; lia]. }
  destruct (retry g); cbn [rfc6979_renew fst snd].
  - assert (hmac_of (K g) [V g; [0]] = rfc2104 (K g) (V g ++ [0])) as E.
    { rewrite hmac_correct_aux; [reflexivity| unfold zlen; rewrite HK; lia |].
      cbn [concat]. rewrite !zlen_app. unfold zlen. rewrite HV. cbn. lia. }
    rewrite E, hmac_step by (exact HV || apply rfc2104_length).
    rewrite Generate_loop_spec; [auto | apply rfc2104_length | apply rfc2104_length | lia | lia].
  - rewrite Generate_loop_spec; auto.
Qed.

Lemma Generate_all_spec ns : forall g,
  length (K g) = 32%nat -> length (V g) = 32%nat -> Forall (fun n => 0 <= n) ns ->
  Generate_all g ns = Some (rfc6979_answers (retry g) (K g, V g) ns).
Proof.
  induction ns as [|n ns IH]; intros g HK HV Hns; [reflexivity|]. inversion Hns; subst. cbn [Generate_all rfc6979_answers].
  destruct (Generate_spec g n HK HV) as (-> & HK' & HV'); [assumption|].
  rewrite IH; [reflexivity | exact HK' | apply block_length, HV' | assumption].
Qed.

Lemma RFC6979_new_spec key msg :
  zlen key + zlen msg < 2 ^ 59 ->
  let g := RFC6979_new key msg in (K g, V g) = rfc6979_init key msg /\ retry g = false.
Proof.
  intros Hlen. pose proof (zlen_nonneg key). pose proof (zlen_nonneg msg).
  assert (forall k v b, length k = 32%nat -> length v = 32%nat ->
            hmac_of k [v; [b]; key; msg] = rfc2104 k (v ++ [b] ++ key ++ msg)) as E.
  { intros k v b Hk Hv. rewrite hmac_correct_aux; [cbn [concat]; rewrite app_nil_r; reflexivity | unfold zlen; rewrite Hk; lia |].
    cbn [concat]. rewrite !zlen_app. unfold zlen in *. rewrite Hv. cbn [length]. lia. }
  unfold RFC6979_new, rfc6979_init. cbv zeta. cbn [K V retry]. split; [|reflexivity].
  rewrite (E (replicate 32 0) (replicate 32 1) 0) by reflexivity.
  rewrite (hmac_step _ (replicate 32 1)) by reflexivity.
  rewrite E by reflexivity. rewrite hmac_step by reflexivity. reflexivity.
Qed.

(** the RFC 6979 generator.  Seeded with [key] and [msg], any sequence of
    requests is answered as section 3.2 of the RFC prescribes: each answer is the
    prefix of the iterated HMAC blocks, and [K] and [V] are renewed between
    requests.  The filling loop always ends. *)
Theorem RFC6979_correct key msg ns :
  zlen key + zlen msg < 2 ^ 59 -> Forall (fun n => 0 <= n) ns ->
  Generate_all (RFC6979_new key msg) ns = Some (rfc6979_answers false (rfc6979_init key msg) ns).
Proof.
  intros Hlen Hns. destruct (RFC6979_new_spec key msg Hlen) as [E Er].
  rewrite <- E, <- Er. apply Generate_all_spec; [reflexivity | reflexivity | exact Hns].
Qed.

Lemma RFC6979_correct_witness :
  Generate_all (RFC6979_new [1; 2] [3]) [40; 32] = Some (rfc6979_answers false (rfc6979_init [1; 2] [3]) [40; 32]).
Proof. apply (RFC6979_correct [1; 2] [3] [40; 32]); [reflexivity | repeat constructor; lia]. Defined.
