(* ===== verification/Transaction.v ===== *)
(** * Transactions and blocks: [primitives/transaction.h], [primitives/block.h]

    The objects with their serialized form, the cached transaction hash and the
    predicates on them.  The wire format of a transaction and of a block is a
    bijection between the accepted byte strings and the objects. *)

From Stdlib Require Import ZArith Lia Bool.
From stdpp Require Import base option numbers list.
From S2P Require Import Prelude BaseUInt UInt256 Serialize BlockHasher Sha256 Hashes.

Open Scope Z_scope.
Open Scope outcome_scope.

Definition CAmount : Type := Z.
Definition COIN : CAmount := 100000000.

Definition uint256_null : base_uint := replicate 8 0.
Definition uint256_codec : codec base_uint := base_uint_codec 8.

Record COutPoint := mkOutPoint { prev_hash : base_uint; prev_n : Z }.
Record CTxIn := mkTxIn { prevout : COutPoint; scriptSig : list Z; nSequence : Z }.
Record CTxOut := mkTxOut { nValue : CAmount; scriptPubKey : list Z }.
Record CMutableTransaction := mkMutable { nVersion : Z; vin : list CTxIn; vout : list CTxOut; nLockTime : Z }.

#[global] Instance COutPoint_eq_dec : EqDecision COutPoint.
Proof. solve_decision. Defined.
#[global] Instance CTxIn_eq_dec : EqDecision CTxIn.
Proof. solve_decision. Defined.
#[global] Instance CTxOut_eq_dec : EqDecision CTxOut.
Proof. solve_decision. Defined.

(** ** Outpoints, inputs, outputs *)

Definition COutPoint_null : COutPoint := mkOutPoint uint256_null (u32 (-1)).
Definition COutPoint_IsNull (o : COutPoint) : bool := IsNull (prev_hash o) && (prev_n o =? u32 (-1)).
(** [operator<] *)
Definition COutPoint_lt (a b : COutPoint) : bool :=
  (CompareTo (prev_hash a) (prev_hash b) <? 0) ||
  (bool_decide (prev_hash a = prev_hash b) && (prev_n a <? prev_n b)).

Definition outpoint_codec : codec COutPoint :=
  object_codec (fun p => mkOutPoint p.1 p.2) (fun o => (prev_hash o, prev_n o)) (pair_codec uint256_codec (uint_codec 4)).

Definition SEQUENCE_FINAL : Z := 0xffffffff.
Definition CTxIn_IsFinal (i : CTxIn) : bool := nSequence i =? SEQUENCE_FINAL.

Definition txin_codec : codec CTxIn :=
  object_codec (fun p => mkTxIn p.1 p.2.1 p.2.2) (fun i => (prevout i, (scriptSig i, nSequence i)))
    (pair_codec outpoint_codec (pair_codec bytes_codec (uint_codec 4))).

Definition CTxOut_null : CTxOut := mkTxOut (-1) [].
Definition CTxOut_IsNull (o : CTxOut) : bool := nValue o =? -1.
Definition CTxOut_empty : CTxOut := mkTxOut 0 [].
Definition CTxOut_IsEmpty (o : CTxOut) : bool := (nValue o =? 0) && (zlen (scriptPubKey o) =? 0).

Definition txout_codec : codec CTxOut :=
  object_codec (fun p => mkTxOut p.1 p.2) (fun o => (nValue o, scriptPubKey o)) (pair_codec (int_codec 8) bytes_codec).

(** ** Transactions *)

(** Sizes of the objects in memory on the 64-bit platforms. *)
Definition sizeof_CTxIn : Z := 72.
Definition sizeof_CTxOut : Z := 32.
Definition sizeof_CTransaction : Z := 96.

Definition mutable_codec : codec CMutableTransaction :=
  object_codec (fun p => mkMutable p.1 p.2.1 p.2.2.1 p.2.2.2)
    (fun t => (nVersion t, (vin t, (vout t, nLockTime t))))
    (pair_codec (int_codec 4)
      (pair_codec (vector_codec sizeof_CTxIn txin_codec)
        (pair_codec (vector_codec sizeof_CTxOut txout_codec) (uint_codec 4)))).

(** [SER_GETHASH], and the default of [PROTOCOL_VERSION]; they do not enter the hash. *)
Definition SER_GETHASH : Z := 4.
Definition PROTOCOL_VERSION : Z := 70915.

(** [SerializeHash]: a [CHashWriter] fed with the serialized object. *)
Definition SerializeHash {A} (c : codec A) (x : A) : base_uint :=
  of_bytes (CHashWriter_GetHash (CHashWriter_write (CHashWriter_new SER_GETHASH PROTOCOL_VERSION) (Serialize c x))).

Definition CMutableTransaction_GetHash (t : CMutableTransaction) : base_uint := SerializeHash mutable_codec t.

(** The immutable transaction caches its hash. *)
Record CTransaction := mkTransaction { tx_hash : base_uint; tx_body : CMutableTransaction }.

(** [UpdateHash] *)
Definition UpdateHash (t : CTransaction) : CTransaction := mkTransaction (CMutableTransaction_GetHash (tx_body t)) (tx_body t).

(** [CTransaction(const CMutableTransaction&)] *)
Definition CTransaction_of (t : CMutableTransaction) : CTransaction := UpdateHash (mkTransaction uint256_null t).

Definition transaction_codec : codec CTransaction := object_codec CTransaction_of tx_body mutable_codec.

Definition CTransaction_IsNull (t : CMutableTransaction) : bool := (zlen (vin t) =? 0) && (zlen (vout t) =? 0).

Definition IsCoinBase (t : CMutableTransaction) : bool :=
  match vin t with [i] => COutPoint_IsNull (prevout i) | _ => false end.

Definition IsCoinStake (t : CMutableTransaction) : bool :=
  match vin t, vout t with
  | i :: _, o :: _ :: _ => negb (COutPoint_IsNull (prevout i)) && CTxOut_IsEmpty o
  | _, _ => false
  end.

(** The scripts of the inputs cleared. *)
Definition without_sigs (t : CMutableTransaction) : CMutableTransaction :=
  mkMutable (nVersion t) (map (fun i => mkTxIn (prevout i) [] (nSequence i)) (vin t)) (vout t) (nLockTime t).

Definition GetBareTxid (t : CTransaction) : base_uint :=
  if IsCoinBase (tx_body t) then tx_hash t else CMutableTransaction_GetHash (without_sigs (tx_body t)).

(** The sum of the outputs; signed overflow is undefined behaviour. *)
Fixpoint value_out_loop (nValueOut : CAmount) (vout : list CTxOut) : outcome Empty_set CAmount :=
  match vout with
  | [] => Ret nValueOut
  | o :: vout =>
      if nValue o <? 0 then Throw
      else if 2 ^ 63 <=? nValueOut + nValue o then Undef
      else if nValueOut + nValue o <? nValueOut then Throw
      else value_out_loop (nValueOut + nValue o) vout
  end.

Definition GetValueOut (t : CMutableTransaction) : outcome Empty_set CAmount := value_out_loop 0 (vout t).

(** ** Blocks *)

Record CBlockHeader := mkHeader {
  hdr_nVersion : Z; hashPrevBlock : base_uint; hashMerkleRoot : base_uint;
  nTime : Z; nBits : Z; nNonce : Z; nAccumulatorCheckpoint : base_uint
}.

(** [READWRITE(nAccumulatorCheckpoint)] only from version 4 on; a header that is
    read starts from [SetNull()]. *)
Definition header_codec : codec CBlockHeader :=
  object_codec
    (fun p => let '(v, (hp, (hm, (t, (b, (n, acc)))))) := p in mkHeader v hp hm t b n acc)
    (fun h => (hdr_nVersion h, (hashPrevBlock h, (hashMerkleRoot h, (nTime h, (nBits h, (nNonce h, nAccumulatorCheckpoint h)))))))
    (seq_codec (int_codec 4) (fun nVersion =>
      pair_codec uint256_codec (pair_codec uint256_codec (pair_codec (uint_codec 4) (pair_codec (uint_codec 4)
        (pair_codec (uint_codec 4) (when_codec (3 <? nVersion) uint256_codec uint256_null))))))).

Record CBlock := mkBlock { blk_header : CBlockHeader; vtx : list CTransaction; vchBlockSig : list Z }.

(** [vtx.size() > 1 && vtx[1].IsCoinStake()] *)
Definition IsProofOfStake (vtx : list CTransaction) : bool :=
  match vtx with _ :: t :: _ => IsCoinStake (tx_body t) | _ => false end.

Definition block_codec : codec CBlock :=
  object_codec
    (fun p => let '((h, vtx), sig) := p in mkBlock h vtx sig)
    (fun b => ((blk_header b, vtx b), vchBlockSig b))
    (seq_codec (pair_codec header_codec (vector_codec sizeof_CTransaction transaction_codec))
      (fun p => when_codec (IsProofOfStake p.2) bytes_codec [])).

(** [GetProofOfStake()] *)
Definition GetProofOfStake (b : CBlock) : outcome Empty_set (COutPoint * Z) :=
  if IsProofOfStake (vtx b) then
    let* t := oaccess (vtx b !! 1%nat) in
    let* i := oaccess (vin (tx_body t) !! 0%nat) in
    Ret (prevout i, nTime (blk_header b))
  else Ret (COutPoint_null, 0).

(** ** The wire formats are bijections *)

Definition outpoint_ok (o : COutPoint) : Prop := blob_ok 8 (prev_hash o) /\ uint_range 4 (prev_n o).
Definition txin_ok (i : CTxIn) : Prop := outpoint_ok (prevout i) /\ bytes_fit (scriptSig i) /\ uint_range 4 (nSequence i).
Definition txout_ok (o : CTxOut) : Prop := int_range 8 (nValue o) /\ bytes_fit (scriptPubKey o).
Definition mutable_ok (t : CMutableTransaction) : Prop :=
  int_range 4 (nVersion t) /\ vector_fits txin_ok (vin t) /\ vector_fits txout_ok (vout t) /\ uint_range 4 (nLockTime t).
(** The cached hash is the hash of the body. *)
Definition transaction_ok (t : CTransaction) : Prop := mutable_ok (tx_body t) /\ tx_hash t = CMutableTransaction_GetHash (tx_body t).

Lemma outpoint_lawful : lawful outpoint_codec outpoint_ok.
Proof.
  apply (object_lawful _ _ _ (fun p => blob_ok 8 p.1 /\ uint_range 4 p.2)).
  - intros [h n] H. exact (conj H eq_refl).
  - intros [h n] H. exact (conj H eq_refl).
  - apply pair_lawful; [apply base_uint_lawful|apply uint_lawful].
Qed.

Lemma txin_lawful : lawful txin_codec txin_ok.
Proof.
  apply (object_lawful _ _ _ (fun p => outpoint_ok p.1 /\ (bytes_fit p.2.1 /\ uint_range 4 p.2.2))).
  - intros [o s q] H. exact (conj H eq_refl).
  - intros [o [s q]] H. exact (conj H eq_refl).
  - apply (pair_lawful _ _ _ (fun p => bytes_fit p.1 /\ uint_range 4 p.2)); [apply outpoint_lawful|].
    apply pair_lawful; [apply bytes_lawful|apply uint_lawful].
Qed.

Lemma txout_lawful : lawful txout_codec txout_ok.
Proof.
  apply (object_lawful _ _ _ (fun p => int_range 8 p.1 /\ bytes_fit p.2)).
  - intros [v s] H. exact (conj H eq_refl).
  - intros [v s] H. exact (conj H eq_refl).
  - apply pair_lawful; [apply int_lawful; lia|apply bytes_lawful].
Qed.

Lemma mutable_lawful : lawful mutable_codec mutable_ok.
Proof.
  apply (object_lawful _ _ _ (fun p => int_range 4 p.1 /\ (vector_fits txin_ok p.2.1 /\
    (vector_fits txout_ok p.2.2.1 /\ uint_range 4 p.2.2.2)))).
  - intros [v i o l] H. exact (conj H eq_refl).
  - intros [v [i [o l]]] H. exact (conj H eq_refl).
  - apply (pair_lawful _ _ _ (fun p => vector_fits txin_ok p.1 /\ (vector_fits txout_ok p.2.1 /\ uint_range 4 p.2.2)));
      [apply int_lawful; lia|].
    apply (pair_lawful _ _ _ (fun p => vector_fits txout_ok p.1 /\ uint_range 4 p.2));
      [apply vector_lawful; [apply txin_lawful|unfold sizeof_CTxIn; lia]|].
    apply pair_lawful; [apply vector_lawful; [apply txout_lawful|unfold sizeof_CTxOut; lia]|apply uint_lawful].
Qed.

Lemma transaction_lawful : lawful transaction_codec transaction_ok.
Proof.
  apply (object_lawful _ _ _ mutable_ok).
  - intros [h b] [Hb Hh]. cbn [tx_body tx_hash] in *. split; [exact Hb|]. unfold CTransaction_of, UpdateHash.
    cbn [tx_body]. rewrite <- Hh. reflexivity.
  - intros b Hb. unfold transaction_ok, CTransaction_of, UpdateHash. cbn [tx_body tx_hash]. auto.
  - apply mutable_lawful.
Qed.

Definition header_ok (h : CBlockHeader) : Prop :=
  int_range 4 (hdr_nVersion h) /\ blob_ok 8 (hashPrevBlock h) /\ blob_ok 8 (hashMerkleRoot h) /\
  uint_range 4 (nTime h) /\ uint_range 4 (nBits h) /\ uint_range 4 (nNonce h) /\
  (if 3 <? hdr_nVersion h then blob_ok 8 (nAccumulatorCheckpoint h) else nAccumulatorCheckpoint h = uint256_null).

Lemma header_lawful : lawful header_codec header_ok.
Proof.
  set (tail v := fun acc => if 3 <? v then blob_ok 8 acc else acc = uint256_null).
  apply (object_lawful _ _ _ (fun p => int_range 4 p.1 /\ (blob_ok 8 p.2.1 /\ (blob_ok 8 p.2.2.1 /\
    (uint_range 4 p.2.2.2.1 /\ (uint_range 4 p.2.2.2.2.1 /\ (uint_range 4 p.2.2.2.2.2.1 /\ tail p.1 p.2.2.2.2.2.2))))))).
  - intros [] H. exact (conj H eq_refl).
  - intros [v [hp [hm [t [b [n acc]]]]]] H. exact (conj H eq_refl).
  - assert (Hin : forall v, lawful (pair_codec uint256_codec (pair_codec uint256_codec (pair_codec (uint_codec 4)
      (pair_codec (uint_codec 4) (pair_codec (uint_codec 4) (when_codec (3 <? v) uint256_codec uint256_null))))))
      (fun p => blob_ok 8 p.1 /\ (blob_ok 8 p.2.1 /\ (uint_range 4 p.2.2.1 /\ (uint_range 4 p.2.2.2.1 /\
        (uint_range 4 p.2.2.2.2.1 /\ tail v p.2.2.2.2.2)))))).
    { intros v.
      apply (pair_lawful _ _ _ (fun p => blob_ok 8 p.1 /\ (uint_range 4 p.2.1 /\ (uint_range 4 p.2.2.1 /\
        (uint_range 4 p.2.2.2.1 /\ tail v p.2.2.2.2))))); [apply base_uint_lawful|].
      apply (pair_lawful _ _ _ (fun p => uint_range 4 p.1 /\ (uint_range 4 p.2.1 /\
        (uint_range 4 p.2.2.1 /\ tail v p.2.2.2)))); [apply base_uint_lawful|].
      apply (pair_lawful _ _ _ (fun p => uint_range 4 p.1 /\ (uint_range 4 p.2.1 /\ tail v p.2.2))); [apply uint_lawful|].
      apply (pair_lawful _ _ _ (fun p => uint_range 4 p.1 /\ tail v p.2)); [apply uint_lawful|].
      apply (pair_lawful _ _ _ (tail v)); [apply uint_lawful|]. apply when_lawful, base_uint_lawful. }
    apply (seq_lawful _ _ _ (fun v p => blob_ok 8 p.1 /\ (blob_ok 8 p.2.1 /\ (uint_range 4 p.2.2.1 /\
      (uint_range 4 p.2.2.2.1 /\ (uint_range 4 p.2.2.2.2.1 /\ tail v p.2.2.2.2.2)))))).
    + apply int_lawful. lia.
    + intros v _. apply Hin.
    + intros v. apply (law_total (Hin v)).
Qed.

(** A block signature only on proof-of-stake blocks. *)
Definition block_ok (b : CBlock) : Prop :=
  header_ok (blk_header b) /\ vector_fits transaction_ok (vtx b) /\
  (if IsProofOfStake (vtx b) then bytes_fit (vchBlockSig b) else vchBlockSig b = []).

Lemma block_lawful : lawful block_codec block_ok.
Proof.
  apply (object_lawful _ _ _ (fun p => (header_ok p.1.1 /\ vector_fits transaction_ok p.1.2) /\
    (if IsProofOfStake p.1.2 then bytes_fit p.2 else p.2 = []))).
  - intros [h v s] [Hh [Hv Hs]]. exact (conj (conj (conj Hh Hv) Hs) eq_refl).
  - intros [[h v] s] [[Hh Hv] Hs]. exact (conj (conj Hh (conj Hv Hs)) eq_refl).
  - apply (seq_lawful _ _ (fun p => header_ok p.1 /\ vector_fits transaction_ok p.2)
      (fun p s => if IsProofOfStake p.2 then bytes_fit s else s = [])).
    + apply pair_lawful; [apply header_lawful|].
      apply vector_lawful; [apply transaction_lawful|unfold sizeof_CTransaction; lia].
    + intros p _. apply when_lawful, bytes_lawful.
    + intros p. apply (law_total (when_lawful _ _ _ _ bytes_lawful)).
Qed.

(** the wire format of transactions is a bijection.  A transaction whose
    fields fit is read back from its serialization, with its hash recomputed;
    conversely a byte string that is accepted is exactly the serialization of the
    transaction it was read as, so no two encodings give the same transaction;
    reading any bytes ends in a transaction or an exception, and
    [GetSerializeSize] is the length of the serialization. *)
Theorem transaction_bijection t rest inp : mutable_ok t -> bytes_ok inp ->
  Unserialize transaction_codec (Serialize transaction_codec (CTransaction_of t) ++ rest) = Ret (CTransaction_of t, rest) /\
  GetSerializeSize transaction_codec (CTransaction_of t) = zlen (Serialize transaction_codec (CTransaction_of t)) /\
  match Unserialize transaction_codec inp with
  | Ret (t', rest') =>
      tx_hash t' = CMutableTransaction_GetHash (tx_body t') /\ inp = Serialize transaction_codec t' ++ rest'
  | Throw => True
  | _ => False
  end.
Proof.
  intros Ht Hok. assert (transaction_ok (CTransaction_of t)) as Htx.
  { unfold transaction_ok, CTransaction_of, UpdateHash. cbn [tx_body tx_hash]. auto. }
  split; [apply (law_roundtrip transaction_lawful), Htx|]. split; [apply (law_size transaction_lawful), Htx|].
  destruct (Unserialize transaction_codec inp) as [[t' r]|[]| |] eqn:E; auto.
  - destruct (law_canonical transaction_lawful _ _ _ Hok E) as [[_ Hh] ->]. auto.
  - exact (law_total transaction_lawful inp E).
Qed.

(** the same for blocks, whose header carries the accumulator checkpoint
    from version 4 on and which carry a block signature exactly when they are
    proof-of-stake blocks. *)
Theorem block_bijection b rest inp : block_ok b -> bytes_ok inp ->
  Unserialize block_codec (Serialize block_codec b ++ rest) = Ret (b, rest) /\
  GetSerializeSize block_codec b = zlen (Serialize block_codec b) /\
  match Unserialize block_codec inp with
  | Ret (b', rest') => block_ok b' /\ inp = Serialize block_codec b' ++ rest'
  | Throw => True
  | _ => False
  end.
Proof.
  intros Hb Hok.
  split; [apply (law_roundtrip block_lawful), Hb|]. split; [apply (law_size block_lawful), Hb|].
  destruct (Unserialize block_codec inp) as [[b' r]|[]| |] eqn:E; auto.
  - exact (law_canonical block_lawful _ _ _ Hok E).
  - exact (law_total block_lawful inp E).
Qed.

Definition sample_txin (n : Z) : CTxIn := mkTxIn (mkOutPoint (of_uint64 8 n) 0) [81] SEQUENCE_FINAL.
Definition sample_tx (n v : Z) : CMutableTransaction := mkMutable 1 [sample_txin n] [CTxOut_empty; mkTxOut v [82]] 0.

Lemma sample_tx_ok n v : 0 <= n < 2 ^ 64 -> 0 <= v < 2 ^ 63 -> mutable_ok (sample_tx n v).
Proof.
  intros Hn Hv. assert (Hb : forall b, 0 <= b < 256 -> bytes_fit [b]).
  { intros b Hb. split; [repeat constructor; unfold is_byte; lia|]. unfold MAX_SIZE. change (zlen [b]) with 1. lia. }
  unfold mutable_ok, sample_tx, int_range, uint_range. cbn [nVersion vin vout nLockTime].
  change (2 ^ (8 * Z.of_nat 4)) with (2 ^ 32). change (2 ^ (8 * Z.of_nat 4 - 1)) with (2 ^ 31).
  assert (Hin : txin_ok (sample_txin n)).
  { destruct (of_uint64_spec 8 n) as (_ & H1 & H2); [lia|lia|].
    split; [split; [split; assumption|unfold uint_range; cbn; lia]|]. split; [apply Hb; lia|].
    unfold uint_range, sample_txin, SEQUENCE_FINAL. cbn [nSequence]. change (2 ^ (8 * Z.of_nat 4)) with (2 ^ 32). lia. }
  assert (Hout : forall x s, 0 <= x < 2 ^ 63 -> bytes_fit s -> txout_ok (mkTxOut x s)).
  { intros x s Hx Hs. split; [|exact Hs]. unfold int_range. cbn [nValue].
    change (2 ^ (8 * Z.of_nat 8 - 1)) with (2 ^ 63). lia. }
  assert (bytes_fit []) by (split; [constructor|vm_compute; discriminate]).
  split; [lia|]. split; [split; [auto|vm_compute; discriminate]|].
  split; [|lia]. split; [|vm_compute; discriminate]. constructor; [apply Hout; [lia|assumption]|].
  constructor; [apply Hout; [lia|apply Hb; lia]|constructor].
Qed.

Lemma transaction_bijection_witness :
  Unserialize transaction_codec (Serialize transaction_codec (CTransaction_of (sample_tx 7 1000)) ++ [1]) =
  Ret (CTransaction_of (sample_tx 7 1000), [1]).
Proof.
  exact (proj1 (transaction_bijection (sample_tx 7 1000) [1] [] (sample_tx_ok 7 1000 ltac:(lia) ltac:(lia)) bytes_ok_nil)).
Defined.

Definition sample_block : CBlock :=
  mkBlock (mkHeader 4 (of_uint64 8 1) (of_uint64 8 2) 1600000000 0x1d00ffff 0 (of_uint64 8 3))
          [CTransaction_of (sample_tx 5 10); CTransaction_of (sample_tx 6 20)] [48; 1; 2].

Lemma sample_block_ok : block_ok sample_block.
Proof.
  assert (Hu : forall n, 0 <= n < 2 ^ 64 -> blob_ok 8 (of_uint64 8 n)).
  { intros n Hn. destruct (of_uint64_spec 8 n) as (_ & H1 & H2); [lia|lia|]. split; assumption. }
  assert (Ht : forall n v, 0 <= n < 2 ^ 64 -> 0 <= v < 2 ^ 63 -> transaction_ok (CTransaction_of (sample_tx n v))).
  { intros n v Hn Hv. unfold transaction_ok, CTransaction_of, UpdateHash. cbn [tx_body tx_hash].
    split; [apply sample_tx_ok; assumption|reflexivity]. }
  split; [|split].
  - unfold header_ok, sample_block, uint_range, int_range. cbn [blk_header hdr_nVersion hashPrevBlock hashMerkleRoot nTime nBits nNonce nAccumulatorCheckpoint].
    change (2 ^ (8 * Z.of_nat 4)) with (2 ^ 32). change (2 ^ (8 * Z.of_nat 4 - 1)) with (2 ^ 31).
    change (3 <? 4) with true. cbv iota. repeat (split; [first [lia | apply Hu; lia]|]). apply Hu; lia.
  - split; [|vm_compute; discriminate]. constructor; [apply Ht; lia|]. constructor; [apply Ht; lia|constructor].
  - change (IsProofOfStake (vtx sample_block)) with true. cbv iota.
    split; [apply (bool_decide_unpack (bytes_ok _)); vm_compute; exact I|vm_compute; discriminate].
Qed.

Lemma block_bijection_witness :
  Unserialize block_codec (Serialize block_codec sample_block ++ []) = Ret (sample_block, []) /\
  IsProofOfStake (vtx sample_block) = true.
Proof.
  split; [|reflexivity]. exact (proj1 (block_bijection sample_block [] [] sample_block_ok bytes_ok_nil)).
Defined.
