(* ===== verification/Merkle.v ===== *)
(** * Merkle trees of blocks: [primitives/block.cpp]

    [vMerkleTree] holds the levels of the tree one behind the other, leaves
    first; an odd level repeats its last hash.  The root, the branches and the
    detection of repeated transactions are related to the tree defined by
    levels. *)

From Stdlib Require Import ZArith Lia Bool.
From stdpp Require Import base option numbers list.
From S2P Require Import Prelude BaseUInt UInt256 Hashes Transaction.

Open Scope Z_scope.
Open Scope outcome_scope.

Abbreviation io := (outcome Empty_set).

Section Merkle.
(** The hash of two children, [Hash(BEGIN(a), END(a), BEGIN(b), END(b))]. *)
Variable H : base_uint -> base_uint -> base_uint.

(** [for (int i = 0; i < nSize; i += 2)] *)
Fixpoint merkle_level (fuel : nat) (vMerkleTree : list base_uint) (j nSize i : nat) (mutated : bool) :
    io (list base_uint * bool) :=
  if (nSize <=? i)%nat then Ret (vMerkleTree, mutated)
  else
    match fuel with
    | O => Undef
    | S fuel =>
        let i2 := Nat.min (i + 1) (nSize - 1) in
        let* a := oaccess (vMerkleTree !! (j + i)%nat) in
        let* b := oaccess (vMerkleTree !! (j + i2)%nat) in
        let mutated := mutated || ((i2 =? i + 1)%nat && (i2 + 1 =? nSize)%nat && bool_decide (a = b)) in
        merkle_level fuel (vMerkleTree ++ [H a b]) j nSize (i + 2) mutated
    end.

(** [for (int nSize = vtx.size(); nSize > 1; nSize = (nSize + 1) / 2)] *)
Fixpoint merkle_loop (fuel : nat) (vMerkleTree : list base_uint) (j nSize : nat) (mutated : bool) :
    io (list base_uint * bool) :=
  if (nSize <=? 1)%nat then Ret (vMerkleTree, mutated)
  else
    match fuel with
    | O => Undef
    | S fuel =>
        let* '(vMerkleTree, mutated) := merkle_level nSize vMerkleTree j nSize 0 mutated in
        merkle_loop fuel vMerkleTree (j + nSize) ((nSize + 1) / 2) mutated
    end.

(** The transaction hashes as leaves: the tree, [*fMutated] and the root. *)
Definition BuildMerkleTree (leaves : list base_uint) : io (list base_uint * bool * base_uint) :=
  let* '(vMerkleTree, mutated) := merkle_loop (length leaves) leaves 0 (length leaves) false in
  Ret (vMerkleTree, mutated, default uint256_null (last vMerkleTree)).

(** [int i = std::min(nIndex^1, nSize-1)] *)
Fixpoint branch_loop (fuel : nat) (vMerkleTree : list base_uint) (j nSize nIndex : nat) : io (list base_uint) :=
  if (nSize <=? 1)%nat then Ret []
  else
    match fuel with
    | O => Undef
    | S fuel =>
        let i := Nat.min (Nat.lxor nIndex 1) (nSize - 1) in
        let* h := oaccess (vMerkleTree !! (j + i)%nat) in
        let* hs := branch_loop fuel vMerkleTree (j + nSize) ((nSize + 1) / 2) (nIndex / 2) in
        Ret (h :: hs)
    end.

(** The tree is built first when it is empty. *)
Definition GetMerkleBranch (leaves vMerkleTree : list base_uint) (nIndex : nat) : io (list base_uint) :=
  let* vMerkleTree :=
    match vMerkleTree with
    | [] => let* '(tree, _, _) := BuildMerkleTree leaves in Ret tree
    | _ => Ret vMerkleTree
    end in
  branch_loop (length leaves) vMerkleTree 0 (length leaves) nIndex.

Fixpoint check_branch (hash : base_uint) (vMerkleBranch : list base_uint) (nIndex : Z) : base_uint :=
  match vMerkleBranch with
  | [] => hash
  | it :: vMerkleBranch =>
      let hash := if Z.land nIndex 1 =? 0 then H hash it else H it hash in
      check_branch hash vMerkleBranch (Z.shiftr nIndex 1)
  end.

Definition CheckMerkleBranch (hash : base_uint) (vMerkleBranch : list base_uint) (nIndex : Z) : base_uint :=
  if nIndex =? -1 then uint256_null else check_branch hash vMerkleBranch nIndex.

(** ** The tree by levels *)

Fixpoint next_level (l : list base_uint) : list base_uint :=
  match l with
  | [] => []
  | [a] => [H a a]
  | a :: b :: l => H a b :: next_level l
  end.

(** The level ends in two equal hashes. *)
Fixpoint ends_repeated (l : list base_uint) : bool :=
  match l with
  | [a; b] => bool_decide (a = b)
  | _ :: _ :: l => ends_repeated l
  | _ => false
  end.

Fixpoint levels (fuel : nat) (l : list base_uint) : list (list base_uint) :=
  match fuel with
  | O => [l]
  | S fuel => if (length l <=? 1)%nat then [l] else l :: levels fuel (next_level l)
  end.

Definition merkle_levels (l : list base_uint) : list (list base_uint) := levels (length l) l.
Definition merkle_root (l : list base_uint) : base_uint := default uint256_null (last (concat (merkle_levels l))).

(** The pairs of children that are hashed on the way to the root. *)
Fixpoint pairs_of (l : list base_uint) : list (base_uint * base_uint) :=
  match l with
  | [] => []
  | [a] => [(a, a)]
  | a :: b :: l => (a, b) :: pairs_of l
  end.
Definition hashed_pairs (l : list base_uint) : list (base_uint * base_uint) :=
  flat_map pairs_of (List.filter (fun k => 2 <=? length k)%nat (merkle_levels l)).
(** No pair of the first list has the hash of another pair of the second. *)
Definition coll_free (ps qs : list (base_uint * base_uint)) : Prop :=
  forall p q, p ∈ ps -> q ∈ qs -> H p.1 p.2 = H q.1 q.2 -> p = q.

(** Some level of at least two hashes ends in a repetition. *)
Definition merkle_mutated (l : list base_uint) : bool := existsb ends_repeated (merkle_levels l).

Lemma length_next_level l : length (next_level l) = ((length l + 1) / 2)%nat.
Proof.
  enough (forall n l, (length l <= n)%nat -> length (next_level l) = ((length l + 1) / 2)%nat) as G by (apply (G (length l)); lia).
  clear l. intros n. induction n as [|n IH]; intros [|a [|b l]] Hl; try reflexivity; [simpl in Hl; lia|].
  cbn [next_level length]. rewrite IH by (simpl in Hl; lia).
  replace (S (S (length l)) + 1)%nat with (length l + 1 + 1 * 2)%nat by lia. rewrite Nat.div_add by lia. lia.
Qed.

Lemma half_smaller n : (2 <= n)%nat -> ((n + 1) / 2 < n)%nat.
Proof. intros Hn. apply Nat.Div0.div_lt_upper_bound. lia. Qed.

Lemma levels_fuel f1 : forall f2 l, (length l <= S f1)%nat -> (length l <= S f2)%nat -> levels f1 l = levels f2 l.
Proof.
  assert (forall l f, (length l <= 1)%nat -> levels f l = [l]) as Hs.
  { intros l [|f] Hl; [reflexivity|]. cbn [levels]. replace (length l <=? 1)%nat with true; [reflexivity|]. symmetry. apply Nat.leb_le, Hl. }
  induction f1 as [|f1 IH]; intros f2 l H1 H2.
  - rewrite !Hs by lia. reflexivity.
  - destruct f2 as [|f2]; [rewrite !Hs by lia; reflexivity|]. cbn [levels].
    destruct (Nat.leb_spec (length l) 1); [reflexivity|]. f_equal.
    pose proof (half_smaller (length l)). apply IH; rewrite length_next_level; lia.
Qed.

Lemma merkle_levels_step l : (2 <= length l)%nat -> merkle_levels l = l :: merkle_levels (next_level l).
Proof.
  intros Hl. unfold merkle_levels. destruct (length l) as [|n] eqn:E; [lia|]. cbn [levels]. rewrite E.
  replace (S n <=? 1)%nat with false by (symmetry; apply Nat.leb_gt; lia). f_equal.
  pose proof (half_smaller (S n)) as Hh. apply levels_fuel; rewrite length_next_level, E; lia.
Qed.

Lemma merkle_levels_small l : (length l <= 1)%nat -> merkle_levels l = [l].
Proof. destruct l as [|a [|b l]]; simpl; intros; [reflexivity..|lia]. Qed.

(** ** Building *)

Lemma lookup_mid {A} (pre l out : list A) i : (i < length l)%nat -> (pre ++ l ++ out) !! (length pre + i)%nat = l !! i.
Proof. intros Hi. rewrite lookup_app_r by lia. rewrite Nat.add_comm, Nat.add_sub. apply lookup_app_l, Hi. Qed.

Lemma merkle_level_spec fuel : forall pre l out i mutated, (length l <= fuel + i)%nat ->
  merkle_level fuel (pre ++ l ++ out) (length pre) (length l) i mutated =
  Ret (pre ++ l ++ out ++ next_level (drop i l), mutated || ends_repeated (drop i l)).
Proof.
  induction fuel as [|fuel IH]; intros pre l out i mutated Hf; cbn [merkle_level];
    destruct (Nat.leb_spec (length l) i) as [Hi|Hi]; try lia;
    try (rewrite drop_ge by lia; cbn [next_level ends_repeated]; rewrite app_nil_r, orb_false_r; reflexivity).
  cbn zeta. set (i2 := Nat.min (i + 1) (length l - 1)). rewrite !lookup_mid by lia.
  destruct (lookup_lt_is_Some_2 l i Hi) as [a Ha]. rewrite Ha. cbn [oaccess obind].
  rewrite (drop_S _ _ _ Ha). destruct (lookup_lt_is_Some_2 l i2) as [b Hb]; [lia|]. rewrite Hb. cbn [oaccess obind].
  replace ((pre ++ l ++ out) ++ [H a b]) with (pre ++ l ++ (out ++ [H a b])) by (rewrite <- !app_assoc; reflexivity).
  rewrite IH by lia. destruct (Nat.eq_dec (i + 1)%nat (length l)) as [E|E].
  - replace (i2 =? i + 1)%nat with false by (symmetry; apply Nat.eqb_neq; lia). cbn [andb]. rewrite orb_false_r.
    assert (i2 = i) as Ei by lia. rewrite Ei, Ha in Hb. injection Hb as <-.
    rewrite !drop_ge by lia. cbn [next_level ends_repeated]. rewrite app_nil_r. reflexivity.
  - assert (i2 = S i) as Ei by lia. rewrite Ei in *. rewrite (drop_S _ _ _ Hb). rewrite Nat.add_1_r, Nat.eqb_refl. cbn [andb].
    replace (i + 2)%nat with (S (S i)) by lia. rewrite <- !app_assoc. cbn [next_level app].
    destruct (drop (S (S i)) l) as [|c rest] eqn:Ed; cbn [ends_repeated].
    + assert (length l = S (S i)) as -> by (apply (f_equal length) in Ed; rewrite length_drop in Ed; simpl in Ed; lia).
      rewrite Nat.add_1_r, Nat.eqb_refl. cbn [andb]. rewrite orb_false_r. reflexivity.
    + assert (length l <> S (S i)) by (apply (f_equal length) in Ed; rewrite length_drop in Ed; simpl in Ed; lia).
      replace (S i + 1 =? length l)%nat with false by (symmetry; apply Nat.eqb_neq; lia). cbn [andb].
      rewrite orb_false_r. reflexivity.
Qed.

Lemma ends_repeated_small l : (length l <= 1)%nat -> ends_repeated l = false.
Proof. destruct l as [|a [|b l]]; simpl; intros; [reflexivity..|lia]. Qed.

Lemma merkle_loop_spec fuel : forall pre l mutated, (length l <= S fuel)%nat ->
  merkle_loop fuel (pre ++ l) (length pre) (length l) mutated =
  Ret (pre ++ concat (merkle_levels l), mutated || merkle_mutated l).
Proof.
  assert (Hsmall : forall pre l mutated, (length l <= 1)%nat ->
    Ret (pre ++ l, mutated) = Ret (pre ++ concat (merkle_levels l), mutated || merkle_mutated l) :> io _).
  { intros pre l mutated Hl. unfold merkle_mutated. rewrite merkle_levels_small by assumption. cbn [concat existsb].
    rewrite ends_repeated_small, app_nil_r, orb_false_r by assumption. reflexivity. }
  induction fuel as [|fuel IH]; intros pre l mutated Hf; cbn [merkle_loop];
    destruct (Nat.leb_spec (length l) 1) as [Hl|Hl]; try (apply Hsmall; assumption); [lia|].
  rewrite <- (app_nil_r l) at 2. rewrite merkle_level_spec by lia. cbn [obind drop].
  rewrite app_nil_l, app_assoc, <- length_next_level. rewrite <- (length_app pre l).
  pose proof (half_smaller (length l) ltac:(lia)) as Hh. rewrite IH by (rewrite length_next_level; lia).
  unfold merkle_mutated. rewrite (merkle_levels_step l) by lia. cbn [concat existsb]. rewrite <- app_assoc, orb_assoc. reflexivity.
Qed.

Lemma BuildMerkleTree_spec leaves :
  BuildMerkleTree leaves = Ret (concat (merkle_levels leaves), merkle_mutated leaves, merkle_root leaves).
Proof.
  unfold BuildMerkleTree.
  pose proof (merkle_loop_spec (length leaves) [] leaves false ltac:(lia)) as E. cbn [app length orb] in E. rewrite E. reflexivity.
Qed.

(** The root of a level is the root of the next one. *)
Lemma concat_levels_not_nil l : l <> [] -> concat (merkle_levels l) <> [].
Proof.
  intros Hl. destruct (Nat.le_gt_cases (length l) 1).
  - rewrite merkle_levels_small by assumption. cbn [concat]. rewrite app_nil_r. assumption.
  - rewrite merkle_levels_step by lia. cbn [concat]. intros E. apply app_eq_nil in E as [E _]. contradiction.
Qed.

Lemma last_app_ne {A} (l k : list A) : k <> [] -> last (l ++ k) = last k.
Proof. intros Hk. rewrite last_app. destruct (last k) eqn:E; [reflexivity|]. apply last_None in E. contradiction. Qed.

Lemma merkle_root_step l : (2 <= length l)%nat -> merkle_root l = merkle_root (next_level l).
Proof.
  intros Hl. unfold merkle_root. rewrite merkle_levels_step by assumption. cbn [concat].
  rewrite last_app_ne; [reflexivity|]. apply concat_levels_not_nil.
  destruct l as [|a [|b l]]; [simpl in Hl; lia..|discriminate].
Qed.

Lemma merkle_root_single a : merkle_root [a] = a.
Proof. reflexivity. Qed.

(** ** Branches *)

Lemma lxor_even k : Nat.lxor (2 * k) 1 = (2 * k + 1)%nat.
Proof.
  symmetry. apply Nat.add_nocarry_lxor. change 1%nat with (Nat.ones 1). rewrite Nat.land_ones. change (2 ^ 1)%nat with 2%nat.
  rewrite Nat.mul_comm. apply Nat.Div0.mod_mul.
Qed.

Lemma lxor_odd k : Nat.lxor (2 * k + 1) 1 = (2 * k)%nat.
Proof. rewrite <- lxor_even, Nat.lxor_assoc, Nat.lxor_nilpotent, Nat.lxor_0_r. reflexivity. Qed.

Lemma next_level_pair l k a : l !! (2 * k)%nat = Some a ->
  next_level l !! k = Some (H a (default a (l !! (2 * k + 1)%nat))).
Proof.
  revert l. induction k as [|k IH]; intros l Ha.
  - destruct l as [|x [|y l]]; [discriminate|..]; injection Ha as ->; reflexivity.
  - replace (2 * S k)%nat with (S (S (2 * k))) in * by lia. replace (S (S (2 * k)) + 1)%nat with (S (S (2 * k + 1))) by lia.
    destruct l as [|x [|y l]]; [discriminate..|]. cbn [lookup list_lookup] in Ha |- *. cbn [next_level]. apply IH, Ha.
Qed.

(** A hash, its sibling on the branch, and their parent. *)
Lemma parent_of l i a : l !! i = Some a ->
  exists s, l !! Nat.min (Nat.lxor i 1) (length l - 1) = Some s /\
    next_level l !! (i / 2)%nat = Some (if Z.land (Z.of_nat i) 1 =? 0 then H a s else H s a).
Proof.
  intros Ha. pose proof (lookup_lt_Some _ _ _ Ha) as Hi. change 1 with (Z.ones 1). rewrite Z.land_ones by lia. change (2 ^ 1) with 2.
  destruct (Nat.Even_or_Odd i) as [[k ->]|[k ->]].
  - rewrite lxor_even. replace (2 * k / 2)%nat with k by (rewrite Nat.mul_comm, Nat.div_mul; lia).
    replace (Z.of_nat (2 * k) mod 2) with 0 by (rewrite Nat2Z.inj_mul, Z.mul_comm, Z.mod_mul; lia). cbn [Z.eqb].
    rewrite (next_level_pair l k a Ha). destruct (l !! (2 * k + 1)%nat) as [s|] eqn:Hs.
    + exists s. split; [|reflexivity]. apply lookup_lt_Some in Hs as Hl. rewrite Nat.min_l by lia. exact Hs.
    + exists a. split; [|reflexivity]. apply lookup_ge_None in Hs. rewrite Nat.min_r by lia. rewrite <- Ha. f_equal. lia.
  - rewrite lxor_odd. replace ((2 * k + 1) / 2)%nat with k by (rewrite Nat.add_comm, Nat.mul_comm, Nat.div_add by lia; reflexivity).
    replace (Z.of_nat (2 * k + 1) mod 2) with 1
      by (rewrite Nat2Z.inj_add, Nat2Z.inj_mul, Z.add_comm, Z.mul_comm, Z.mod_add by lia; reflexivity). cbn [Z.eqb].
    destruct (lookup_lt_is_Some_2 l (2 * k)%nat) as [s Hs]; [lia|]. exists s. rewrite Nat.min_l by lia. split; [exact Hs|].
    rewrite (next_level_pair l k s Hs), Ha. reflexivity.
Qed.

Lemma branch_loop_spec fuel : forall pre l i a, (length l <= S fuel)%nat -> l !! i = Some a ->
  exists branch, branch_loop fuel (pre ++ concat (merkle_levels l)) (length pre) (length l) i = Ret branch /\
    check_branch a branch (Z.of_nat i) = merkle_root l.
Proof.
  assert (Hsmall : forall l i a, (length l <= 1)%nat -> l !! i = Some a -> check_branch a [] (Z.of_nat i) = merkle_root l).
  { intros [|x [|y l]] [|i] a Hl Ha; simpl in Hl; try lia; try discriminate. injection Ha as ->. reflexivity. }
  induction fuel as [|fuel IH]; intros pre l i a Hf Ha; cbn [branch_loop];
    destruct (Nat.leb_spec (length l) 1) as [Hl|Hl]; try (exists []; split; [reflexivity|apply Hsmall; assumption]); [lia|].
  cbn zeta. destruct (parent_of l i a Ha) as (s & Hs & Hp).
  rewrite (merkle_levels_step l) by lia. cbn [concat]. rewrite lookup_mid by (apply lookup_lt_Some in Hs; exact Hs).
  rewrite Hs. cbn [oaccess obind]. pose proof (half_smaller (length l) ltac:(lia)).
  destruct (IH (pre ++ l) (next_level l) (i / 2)%nat _ ltac:(rewrite length_next_level; lia) Hp) as (branch & Hb & Hc).
  rewrite length_app, length_next_level, <- app_assoc in Hb. rewrite Hb. cbn [obind]. exists (s :: branch).
  split; [reflexivity|]. cbn [check_branch]. rewrite (merkle_root_step l) by lia. rewrite <- Hc. f_equal.
  rewrite Z.shiftr_div_pow2, Nat2Z.inj_div by lia. reflexivity.
Qed.

(** ** Repeated transactions *)

Lemma coll_free_incl ps qs ps' qs' : coll_free ps qs -> (forall p, p ∈ ps' -> p ∈ ps) -> (forall q, q ∈ qs' -> q ∈ qs) -> coll_free ps' qs'.
Proof. intros Hc H1 H2 p q Hp Hq. apply Hc; auto. Qed.

Lemma next_level_pairs l : next_level l = map (fun p => H p.1 p.2) (pairs_of l).
Proof.
  enough (forall n l, (length l <= n)%nat -> next_level l = map (fun p => H p.1 p.2) (pairs_of l)) as G by (apply (G (length l)); lia).
  clear l. intros n. induction n as [|n IH]; intros [|a [|b l]] Hl; try reflexivity; [simpl in Hl; lia|]. cbn [next_level pairs_of map]. rewrite IH by (simpl in Hl; lia). reflexivity.
Qed.

(** The pairs of a level tell the level, but for a repetition at its end. *)
Lemma pairs_of_inj (l1 : list base_uint) : forall l2, pairs_of l1 = pairs_of l2 ->
  l1 = l2 \/ (ends_repeated l1 = true /\ length l1 = S (length l2)) \/ (ends_repeated l2 = true /\ length l2 = S (length l1)).
Proof.
  enough (G : forall n l1 l2, (length l1 <= n)%nat -> pairs_of l1 = pairs_of l2 ->
    l1 = l2 \/ (ends_repeated l1 = true /\ length l1 = S (length l2)) \/ (ends_repeated l2 = true /\ length l2 = S (length l1)))
    by (intros l2; apply (G (length l1)); lia).
  clear l1. intros n. induction n as [|n IH]; intros l1 l2 Hn E.
  { destruct l1; [|simpl in Hn; lia]. destruct l2 as [|a [|b l2]]; [auto|discriminate..]. }
  assert (Hends : forall x y l, l <> [] -> ends_repeated (x :: y :: l) = ends_repeated l) by (intros x y [|z l] Hl; [contradiction|reflexivity]).
  assert (Hnil : forall l, pairs_of l = [] -> l = []) by (intros [|? [|? ?]]; [reflexivity|discriminate..]).
  destruct l1 as [|a [|b l1]], l2 as [|c [|d l2]]; try discriminate; [auto|..]; cbn [pairs_of] in E; injection E; intros; subst; auto.
  - assert (l2 = []) as -> by auto. right. right. cbn. rewrite bool_decide_true by reflexivity. auto.
  - assert (l1 = []) as -> by auto. right. left. cbn. rewrite bool_decide_true by reflexivity. auto.
  - destruct (IH l1 l2 ltac:(simpl in Hn; lia) ltac:(assumption)) as [->|[[Hr Hl]|[Hr Hl]]]; auto.
    + right. left. cbn [length]. rewrite Hends by (intros ->; discriminate). auto.
    + right. right. cbn [length]. rewrite Hends by (intros ->; discriminate). auto.
Qed.

Lemma next_level_inj (l1 l2 : list base_uint) : coll_free (pairs_of l1) (pairs_of l2) -> next_level l1 = next_level l2 ->
  l1 = l2 \/ (ends_repeated l1 = true /\ length l1 = S (length l2)) \/ (ends_repeated l2 = true /\ length l2 = S (length l1)).
Proof.
  intros Hc E. apply pairs_of_inj. rewrite !next_level_pairs in E. revert Hc E. generalize (pairs_of l1) (pairs_of l2).
  intros ps. induction ps as [|p ps IH]; intros [|q qs] Hc E; try discriminate; [reflexivity|]. cbn [map] in E. injection E as E1 E2.
  f_equal; [apply Hc; [left|left|exact E1]|]. apply IH; [|exact E2]. apply (coll_free_incl _ _ _ _ Hc); intros; right; assumption.
Qed.

Lemma hashed_pairs_step l : (2 <= length l)%nat -> hashed_pairs l = pairs_of l ++ hashed_pairs (next_level l).
Proof. intros Hl. unfold hashed_pairs. rewrite (merkle_levels_step l Hl). cbn [List.filter]. rewrite (proj2 (Nat.leb_le _ _) Hl). reflexivity. Qed.

(** Two lists of leaves with trees of the same height and the same root are
    equal, unless one of the trees is flagged, when no pair that is hashed in one
    tree collides with a pair of the other. *)
Lemma merkle_root_binding fuel : forall l1 l2, (length l1 <= S fuel)%nat -> coll_free (hashed_pairs l1) (hashed_pairs l2) ->
  l1 <> [] -> l2 <> [] -> length (merkle_levels l1) = length (merkle_levels l2) -> merkle_root l1 = merkle_root l2 ->
  l1 = l2 \/ merkle_mutated l1 = true \/ merkle_mutated l2 = true.
Proof.
  assert (Hpos : forall l, (0 < length (merkle_levels l))%nat).
  { intros l. destruct (Nat.le_gt_cases (length l) 1); [rewrite merkle_levels_small by assumption|rewrite merkle_levels_step by lia]; simpl; lia. }
  assert (Hne : forall l, (2 <= length l)%nat -> next_level l <> []).
  { intros [|a [|b l]] Hl; [simpl in Hl; lia..|discriminate]. }
  assert (Hsmall : forall l1 l2, (length l1 <= 1)%nat -> l1 <> [] -> l2 <> [] ->
    length (merkle_levels l1) = length (merkle_levels l2) -> merkle_root l1 = merkle_root l2 -> l1 = l2).
  { intros l1 l2 Hl N1 N2 Hh Hr. rewrite (merkle_levels_small l1) in Hh by assumption.
    destruct l2 as [|c [|d l2]]; [contradiction| |rewrite merkle_levels_step in Hh by (simpl; lia)].
    - destruct l1 as [|a [|b l1]]; [contradiction| |simpl in Hl; lia]. rewrite !merkle_root_single in Hr. subst a. reflexivity.
    - specialize (Hpos (next_level (c :: d :: l2))). cbn [length] in Hh. lia. }
  induction fuel as [|fuel IH]; intros l1 l2 Hf Hc N1 N2 Hh Hr; [left; apply Hsmall; auto|].
  destruct (Nat.le_gt_cases (length l1) 1) as [|L1]; [left; apply Hsmall; auto|].
  destruct (Nat.le_gt_cases (length l2) 1) as [|L2]; [left; symmetry; apply Hsmall; auto|].
  rewrite (merkle_root_step l1), (merkle_root_step l2) in Hr by lia.
  rewrite (merkle_levels_step l1), (merkle_levels_step l2) in Hh by lia. cbn [length] in Hh.
  rewrite (hashed_pairs_step l1), (hashed_pairs_step l2) in Hc by lia.
  pose proof (half_smaller (length l1) ltac:(lia)) as Hhalf.
  assert (Hmut : forall l, (2 <= length l)%nat -> merkle_mutated l = ends_repeated l || merkle_mutated (next_level l)).
  { intros l Hl. unfold merkle_mutated. rewrite merkle_levels_step by assumption. reflexivity. }
  rewrite (Hmut l1), (Hmut l2) by lia.
  destruct (IH (next_level l1) (next_level l2) ltac:(rewrite length_next_level; lia)) as [E|[E|E]]; auto.
  - apply (coll_free_incl _ _ _ _ Hc); intros; apply elem_of_app; right; assumption.
  - apply next_level_inj in E as [->|[[Hx _]|[Hx _]]]; [auto|rewrite Hx; auto..|].
    apply (coll_free_incl _ _ _ _ Hc); intros; apply elem_of_app; left; assumption.
  - rewrite E, orb_true_r. auto.
  - rewrite E, orb_true_r. auto.
Qed.
(** A check of it. *)
Lemma coll_free_bool ps qs : forallb (fun p => let h := H p.1 p.2 in forallb (fun q => bool_decide (p = q) || negb (bool_decide (h = H q.1 q.2))) qs) ps = true -> coll_free ps qs.
Proof.
  intros Hb p q Hp Hq E. rewrite forallb_forall in Hb. apply list_elem_of_In, Hb in Hp. cbv zeta in Hp. rewrite forallb_forall in Hp. apply list_elem_of_In, Hp in Hq.
  apply orb_true_iff in Hq as [Hq|Hq]; [by apply bool_decide_eq_true in Hq|]. by rewrite bool_decide_eq_true_2 in Hq.
Qed.
End Merkle.

(** [Hash(BEGIN(a), END(a), BEGIN(b), END(b))] *)
Definition hash_children (a b : base_uint) : base_uint := of_bytes (Hash [bytes_of a; bytes_of b]).

(** C34: [BuildMerkleTree] never reads outside of its vector and returns the
    root of the tree by levels and whether some level ends in two equal hashes;
    and the root binds the transactions: two non-empty lists with trees of the
    same height and the same root are equal, or one of them is reported as
    mutated, provided that, of the pairs that are hashed in building these two
    trees, none of the one has the hash of a different pair of the other. *)
Theorem merkle_tree_binding l1 l2 :
  l1 <> [] -> l2 <> [] -> length (merkle_levels hash_children l1) = length (merkle_levels hash_children l2) ->
  exists tree1 mutated1 root1 tree2 mutated2 root2,
    BuildMerkleTree hash_children l1 = Ret (tree1, mutated1, root1) /\
    BuildMerkleTree hash_children l2 = Ret (tree2, mutated2, root2) /\
    tree1 = concat (merkle_levels hash_children l1) /\ root1 = merkle_root hash_children l1 /\
    mutated1 = existsb ends_repeated (merkle_levels hash_children l1) /\
    (coll_free hash_children (hashed_pairs hash_children l1) (hashed_pairs hash_children l2) ->
     root1 = root2 -> l1 = l2 \/ mutated1 = true \/ mutated2 = true).
Proof.
  intros N1 N2 Hh. do 6 eexists. split; [apply BuildMerkleTree_spec|]. split; [apply BuildMerkleTree_spec|].
  split; [reflexivity|]. split; [reflexivity|]. split; [reflexivity|]. intros Hc Hr.
  apply (merkle_root_binding hash_children (length l1)); auto.
Qed.

(** the branch [GetMerkleBranch] returns for a transaction leads
    [CheckMerkleBranch] from the transaction's hash to the merkle root, whether
    the tree was built before or not. *)
Theorem merkle_branch_correct leaves i a : leaves !! i = Some a ->
  exists tree mutated root branch,
    BuildMerkleTree hash_children leaves = Ret (tree, mutated, root) /\
    GetMerkleBranch hash_children leaves [] i = Ret branch /\
    GetMerkleBranch hash_children leaves tree i = Ret branch /\
    CheckMerkleBranch hash_children a branch (Z.of_nat i) = root.
Proof.
  intros Ha. destruct (branch_loop_spec hash_children (length leaves) [] leaves i a ltac:(lia) Ha) as (branch & Hb & Hc).
  cbn [app length] in Hb. assert (leaves <> []) as Hne by (intros ->; discriminate).
  pose proof (concat_levels_not_nil hash_children leaves Hne) as Ht.
  do 3 eexists. exists branch. split; [apply BuildMerkleTree_spec|]. unfold GetMerkleBranch. split; [|split].
  - rewrite BuildMerkleTree_spec. exact Hb.
  - destruct (concat (merkle_levels hash_children leaves)) eqn:E; [contradiction|]. exact Hb.
  - unfold CheckMerkleBranch. destruct (Z.eqb_spec (Z.of_nat i) (-1)); [lia|exact Hc].
Qed.

Definition sample_leaves : list base_uint := map (of_uint64 8) [1; 2; 3; 4; 5].

(** Three transactions, and the same with the last one repeated: the roots are
    equal, the pairs do not collide, and the second list is reported. *)
Definition three_leaves : list base_uint := map (of_uint64 8) [1; 2; 3].
Definition doubled_leaves : list base_uint := three_leaves ++ [of_uint64 8 3].

Lemma merkle_tree_binding_witness :
  exists tree1 mutated1 tree2 root,
    BuildMerkleTree hash_children three_leaves = Ret (tree1, mutated1, root) /\
    BuildMerkleTree hash_children doubled_leaves = Ret (tree2, true, root).
Proof.
  destruct (merkle_tree_binding three_leaves doubled_leaves) as (t1 & m1 & r1 & t2 & m2 & r2 & H1 & H2 & _ & _ & H5 & H6); [discriminate|discriminate|vm_compute; reflexivity|].
  assert (r1 = r2) as Hr.
  { assert (match BuildMerkleTree hash_children three_leaves, BuildMerkleTree hash_children doubled_leaves with Ret (_, _, a), Ret (_, _, b) => bool_decide (a = b) | _, _ => false end = true) as E by (vm_compute; reflexivity).
    rewrite H1, H2 in E. by apply bool_decide_eq_true in E. }
  assert (m1 = false) as Hm1 by (rewrite H5; vm_compute; reflexivity).
  destruct H6 as [E|[E|E]]; [apply coll_free_bool; vm_compute; reflexivity | exact Hr | discriminate E | congruence |].
  exists t1, m1, t2, r1. split; [exact H1|]. rewrite H2, E, Hr. reflexivity.
Defined.

Lemma merkle_branch_correct_witness :
  exists tree mutated root branch,
    BuildMerkleTree hash_children sample_leaves = Ret (tree, mutated, root) /\
    GetMerkleBranch hash_children sample_leaves [] 4 = Ret branch /\ CheckMerkleBranch hash_children (of_uint64 8 5) branch 4 = root.
Proof.
  destruct (merkle_branch_correct sample_leaves 4 (of_uint64 8 5) eq_refl) as (t & m & r & b & H1 & H2 & _ & H3).
  exists t, m, r, b. auto.
Defined.
