(* ===== verification/Coins.v ===== *)
(** * Unspent outputs of a transaction: [coins.h], [coins.cpp], [undo.h]

    [CCoins] holds the outputs of one transaction that are still unspent; a
    spent output is null, and null outputs at the end are dropped.  [Spend]
    records what is needed to restore the output. *)

From Stdlib Require Import ZArith Lia Bool.
From stdpp Require Import base option numbers list.
From S2P Require Import Prelude BaseUInt Opcodes ScriptNum Script Serialize Transaction.

Open Scope Z_scope.
Open Scope outcome_scope.

Record CCoins := mkCoins {
  fCoinBase : bool; fCoinStake : bool; coins_vout : list CTxOut; coins_nHeight : Z; coins_nVersion : Z
}.

#[global] Instance CCoins_eq_dec : EqDecision CCoins.
Proof. solve_decision. Defined.

Definition with_vout (c : CCoins) (v : list CTxOut) : CCoins :=
  mkCoins (fCoinBase c) (fCoinStake c) v (coins_nHeight c) (coins_nVersion c).

(** The default constructor, and [Clear()]. *)
Definition CCoins_empty : CCoins := mkCoins false false [] 0 0.
Definition Clear (c : CCoins) : CCoins := CCoins_empty.

(** [while (vout.size() > 0 && vout.back().IsNull()) vout.pop_back();] *)
Fixpoint pop_nulls (back_first : list CTxOut) : list CTxOut :=
  match back_first with
  | o :: l => if CTxOut_IsNull o then pop_nulls l else back_first
  | [] => []
  end.

Definition drop_nulls (v : list CTxOut) : list CTxOut := rev (pop_nulls (rev v)).
Definition Cleanup (c : CCoins) : CCoins := with_vout c (drop_nulls (coins_vout c)).

Definition clear_unspendable (o : CTxOut) : CTxOut := if IsUnspendable (scriptPubKey o) then CTxOut_null else o.
Definition ClearUnspendable (c : CCoins) : CCoins := Cleanup (with_vout c (map clear_unspendable (coins_vout c))).

Definition FromTx (tx : CMutableTransaction) (nHeightIn : Z) : CCoins :=
  ClearUnspendable (mkCoins (IsCoinBase tx) (IsCoinStake tx) (vout tx) nHeightIn (nVersion tx)).

Definition IsAvailable (c : CCoins) (nPos : nat) : bool :=
  match coins_vout c !! nPos with Some o => negb (CTxOut_IsNull o) | None => false end.

Definition IsPruned (c : CCoins) : bool := forallb CTxOut_IsNull (coins_vout c).

(** [operator==]: pruned objects are all equal. *)
Definition coins_eqb (a b : CCoins) : bool := (IsPruned a && IsPruned b) || bool_decide (a = b).

(** ** Undo information *)

Record CTxInUndo := mkUndo {
  undo_txout : CTxOut; undo_fCoinBase : bool; undo_fCoinStake : bool; undo_nHeight : Z; undo_nVersion : Z
}.

Definition CTxInUndo_empty : CTxInUndo := mkUndo CTxOut_null false false 0 0.
Definition CTxInUndo_of (o : CTxOut) : CTxInUndo := mkUndo o false false 0 0.

(** The coins after the call, the returned flag and [undo]. *)
Definition Spend (c : CCoins) (nPos : nat) : CCoins * (bool * CTxInUndo) :=
  match coins_vout c !! nPos with
  | None => (c, (false, CTxInUndo_empty))
  | Some o =>
      if CTxOut_IsNull o then (c, (false, CTxInUndo_empty))
      else
        let undo := CTxInUndo_of o in
        let c := Cleanup (with_vout c (<[nPos := CTxOut_null]> (coins_vout c))) in
        let undo :=
          if (length (coins_vout c) =? 0)%nat
          then mkUndo (undo_txout undo) (fCoinBase c) (fCoinStake c) (coins_nHeight c) (coins_nVersion c)
          else undo in
        (c, (true, undo))
  end.

(** [UpdateCoinsForRestoredInputs]: the coins and the new [fClean]. *)
Definition UpdateCoinsForRestoredInputs (n : nat) (undo : CTxInUndo) (coins : CCoins) (fClean : bool) : CCoins * bool :=
  let '(coins, fClean) :=
    if negb (undo_nHeight undo =? 0) then
      let fClean := fClean && IsPruned coins in
      let coins := Clear coins in
      (mkCoins (undo_fCoinBase undo) (fCoinStake coins) (coins_vout coins) (undo_nHeight undo) (undo_nVersion undo), fClean)
    else (coins, fClean && negb (IsPruned coins)) in
  let fClean := fClean && negb (IsAvailable coins n) in
  let v := coins_vout coins in
  let v := if (length v <? n + 1)%nat then v ++ replicate (n + 1 - length v) CTxOut_null else v in
  (with_vout coins (<[n := undo_txout undo]> v), fClean).

(** ** The compact mask: [CalcMaskSize] and the header code *)

(** Availability of the outputs of mask byte [b]. *)
Definition mask_byte_used (v : list CTxOut) (b : nat) : bool :=
  existsb (fun i => match v !! (2 + b * 8 + i)%nat with Some o => negb (CTxOut_IsNull o) | None => false end) (seq 0 8).

(** [for (unsigned int b = 0; 2 + b * 8 < vout.size(); b++)] *)
Fixpoint mask_loop (fuel : nat) (v : list CTxOut) (b nLastUsedByte nNonzeroBytes : nat) : nat * nat :=
  match fuel with
  | O => (nLastUsedByte, nNonzeroBytes)
  | S fuel =>
      if (2 + b * 8 <? length v)%nat then
        if mask_byte_used v b then mask_loop fuel v (b + 1) (b + 1) (nNonzeroBytes + 1)
        else mask_loop fuel v (b + 1) nLastUsedByte nNonzeroBytes
      else (nLastUsedByte, nNonzeroBytes)
  end.

(** [nBytes] and [nNonzeroBytes], started at zero. *)
Definition CalcMaskSize (c : CCoins) : nat * nat := mask_loop (length (coins_vout c)) (coins_vout c) 0 0 0.

(** [nCode] as [Serialize] ([factor = 16]) and [GetSerializeSize] ([factor = 8])
    compute it. *)
Definition header_code (factor : Z) (c : CCoins) : Z :=
  let nMaskCode := Z.of_nat (CalcMaskSize c).2 in
  let fFirst := IsAvailable c 0 in
  let fSecond := IsAvailable c 1 in
  factor * (nMaskCode - (if fFirst || fSecond then 0 else 1)) + (if fCoinBase c then 1 else 0) +
    (if fCoinStake c then 2 else 0) + (if fFirst then 4 else 0) + (if fSecond then 8 else 0).

(** ** Null outputs *)

Lemma pop_nulls_split l : exists p, l = p ++ pop_nulls l /\ Forall (fun o => CTxOut_IsNull o = true) p /\
  (forall o, head (pop_nulls l) = Some o -> CTxOut_IsNull o = false).
Proof.
  induction l as [|o l (p & Hp & Hall & Hh)]; [exists []; repeat split; [constructor|discriminate]|]. cbn [pop_nulls].
  destruct (CTxOut_IsNull o) eqn:E.
  - exists (o :: p). rewrite Hp at 1. repeat split; auto.
  - exists []. repeat split; [constructor|]. intros o' H. injection H as <-. exact E.
Qed.

Lemma drop_nulls_split v : exists p, v = drop_nulls v ++ p /\ Forall (fun o => CTxOut_IsNull o = true) p /\
  (forall o, last (drop_nulls v) = Some o -> CTxOut_IsNull o = false).
Proof.
  destruct (pop_nulls_split (rev v)) as (p & Hp & Hall & Hh). exists (rev p). unfold drop_nulls. split; [|split].
  - rewrite <- rev_app_distr, <- Hp, rev_involutive. reflexivity.
  - apply Forall_rev, Hall.
  - intros o Ho. apply Hh.
    destruct (pop_nulls (rev v)) as [|x l]; [discriminate|]. cbn [rev] in Ho. rewrite last_snoc in Ho. exact Ho.
Qed.

Lemma drop_nulls_id v o : last v = Some o -> CTxOut_IsNull o = false -> drop_nulls v = v.
Proof.
  intros Hl Ho. destruct (drop_nulls_split v) as (p & Hp & Hall & _). destruct p as [|x p] using rev_ind.
  - rewrite app_nil_r in Hp. auto.
  - rewrite Hp, app_assoc, last_snoc in Hl. injection Hl as ->. apply Forall_app in Hall as [_ Hx].
    apply Forall_cons in Hx as [Hx _]. congruence.
Qed.

Lemma drop_nulls_idem v : drop_nulls (drop_nulls v) = drop_nulls v.
Proof.
  destruct (drop_nulls_split v) as (p & _ & _ & Hl). destruct (last (drop_nulls v)) as [o|] eqn:E.
  - apply (drop_nulls_id _ o E), Hl. reflexivity.
  - apply last_None in E. rewrite E. reflexivity.
Qed.

Lemma drop_nulls_all v : forallb CTxOut_IsNull v = true -> drop_nulls v = [].
Proof.
  intros H. destruct (drop_nulls_split v) as (p & Hp & _ & Hl). destruct (last (drop_nulls v)) as [o|] eqn:E.
  - pose proof (Hl o eq_refl) as Ho. apply last_Some in E as [l' E]. rewrite Hp, E in H.
    rewrite !forallb_app in H. cbn [forallb] in H. rewrite Ho in H. rewrite !andb_false_r in H. discriminate.
  - apply last_None in E. exact E.
Qed.

(** Coins without null outputs at the end. *)
Definition clean (c : CCoins) : Prop := drop_nulls (coins_vout c) = coins_vout c.

Lemma Cleanup_clean c : clean (Cleanup c).
Proof. unfold clean, Cleanup. cbn. apply drop_nulls_idem. Qed.

Lemma Cleanup_id c : clean c -> Cleanup c = c.
Proof. unfold clean, Cleanup, with_vout. intros ->. destruct c. reflexivity. Qed.

Lemma clean_pruned c : clean c -> IsPruned c = (length (coins_vout c) =? 0)%nat.
Proof.
  unfold clean, IsPruned. intros H. destruct (coins_vout c) as [|o v] eqn:E; [reflexivity|].
  destruct (forallb CTxOut_IsNull (o :: v)) eqn:F; [|reflexivity]. apply drop_nulls_all in F. congruence.
Qed.

Lemma IsPruned_Cleanup c : IsPruned (Cleanup c) = IsPruned c.
Proof.
  unfold IsPruned, Cleanup. cbn. destruct (drop_nulls_split (coins_vout c)) as (p & Hp & Hall & _).
  rewrite Hp at 2. rewrite forallb_app. replace (forallb CTxOut_IsNull p) with true; [now rewrite andb_true_r|].
  symmetry. apply forallb_forall. rewrite Forall_forall in Hall. intros o Ho. apply Hall, list_elem_of_In, Ho.
Qed.

(** ** Restoring a spent output *)

(** A null output carries no script. *)
Definition nulls_plain (v : list CTxOut) : Prop := Forall (fun o => CTxOut_IsNull o = true -> o = CTxOut_null) v.

(** The same unspent outputs with the same metadata, except that a coinstake
    flag may have been dropped. *)
Record restores (a b : CCoins) : Prop := mkRestores {
  re_coinbase : fCoinBase a = fCoinBase b;
  re_vout : coins_vout a = coins_vout b;
  re_height : coins_nHeight a = coins_nHeight b;
  re_version : coins_nVersion a = coins_nVersion b;
  re_stake : fCoinStake a = true -> fCoinStake b = true
}.

Lemma restores_exact a b : restores a b -> fCoinStake b = false -> a = b.
Proof.
  destruct a, b. intros [H1 H2 H3 H4 H5] Hb. cbn in *. subst. destruct fCoinStake0; [specialize (H5 eq_refl); discriminate|reflexivity].
Qed.

Lemma restores_pruned a b : restores a b -> IsPruned a = IsPruned b.
Proof. intros H. unfold IsPruned. rewrite (re_vout _ _ H). reflexivity. Qed.

#[export] Instance restores_preorder : PreOrder restores.
Proof.
  split; [intros a; constructor; auto|]. intros a b c [H1 H2 H3 H4 H5] [G1 G2 G3 G4 G5]. constructor; try congruence. auto.
Qed.

Lemma nulls_replicate p : nulls_plain p -> Forall (fun o => CTxOut_IsNull o = true) p -> p = replicate (length p) CTxOut_null.
Proof.
  intros Hn Ha. induction p as [|o p IH]; [reflexivity|]. apply Forall_cons in Hn as [H1 Hn], Ha as [H2 Ha].
  cbn [length replicate]. rewrite (H1 H2), <- IH by assumption. reflexivity.
Qed.

(** Resizing the cleaned vector far enough gives the vector with the hole. *)
Lemma resize_hole v n o : drop_nulls v = v -> nulls_plain v -> v !! n = Some o -> CTxOut_IsNull o = false ->
  let v1 := <[n := CTxOut_null]> v in
  let v2 := drop_nulls v1 in
  (if (length v2 <? n + 1)%nat then v2 ++ replicate (n + 1 - length v2) CTxOut_null else v2) = v1.
Proof.
  intros Hc Hp Hn Ho v1 v2. pose proof (lookup_lt_Some _ _ _ Hn) as Hlt.
  assert (Hl1 : length v1 = length v) by apply length_insert.
  destruct (Nat.eq_dec (S n) (length v)) as [Hlast|Hne].
  - destruct (drop_nulls_split v1) as (p & Hs & Hall & _). fold v2 in Hs.
    assert (nulls_plain v1) as Hp1 by (apply Forall_insert; [exact Hp|auto]).
    assert (p = replicate (length p) CTxOut_null) as Hrep.
    { apply nulls_replicate; [|exact Hall]. rewrite Hs in Hp1. apply Forall_app in Hp1. tauto. }
    apply (f_equal length) in Hs as Hlen. rewrite length_app in Hlen.
    destruct (Nat.ltb_spec (length v2) (n + 1)).
    + etransitivity; [|symmetry; exact Hs]. rewrite Hrep. do 2 f_equal. lia.
    + etransitivity; [|symmetry; exact Hs]. destruct p; [now rewrite app_nil_r|simpl in Hlen; lia].
  - destruct (last v) as [x|] eqn:E; [|apply last_None in E; subst v; discriminate].
    assert (last v1 = Some x) as E1.
    { rewrite last_lookup in E |- *. rewrite Hl1. unfold v1. rewrite list_lookup_insert_ne by lia. exact E. }
    destruct (drop_nulls_split v) as (_ & _ & _ & Hl). rewrite Hc in Hl.
    assert (v2 = v1) as -> by (apply (drop_nulls_id v1 x E1), Hl, E).
    destruct (Nat.ltb_spec (length v1) (n + 1)); [lia|reflexivity].
Qed.

Lemma spend_available c n : IsAvailable c n = true -> exists o, coins_vout c !! n = Some o /\ CTxOut_IsNull o = false /\
  let c' := Cleanup (with_vout c (<[n := CTxOut_null]> (coins_vout c))) in
  Spend c n = (c', (true, if IsPruned c' then mkUndo o (fCoinBase c) (fCoinStake c) (coins_nHeight c) (coins_nVersion c)
                          else CTxInUndo_of o)).
Proof.
  unfold IsAvailable, Spend. destruct (coins_vout c !! n) as [o|]; [|discriminate]. intros Ho. apply negb_true_iff in Ho.
  exists o. rewrite Ho. do 2 (split; [reflexivity|]). cbn zeta.
  rewrite (clean_pruned _ (Cleanup_clean _)). reflexivity.
Qed.

(** The output [Spend] removed is not available afterwards. *)
Lemma spent_unavailable c n : (n < length (coins_vout c))%nat ->
  IsAvailable (Cleanup (with_vout c (<[n := CTxOut_null]> (coins_vout c)))) n = false.
Proof.
  intros Hn. unfold IsAvailable. cbn [Cleanup with_vout coins_vout].
  destruct (drop_nulls_split (<[n:=CTxOut_null]> (coins_vout c))) as (p & Hs & _).
  destruct (drop_nulls _ !! n) as [x|] eqn:Ex; [|reflexivity].
  assert (<[n:=CTxOut_null]> (coins_vout c) !! n = Some x) as Ex' by (rewrite Hs; apply lookup_app_l_Some, Ex).
  rewrite list_lookup_insert_eq in Ex' by exact Hn. injection Ex' as <-. reflexivity.
Qed.

(** Other outputs stay available. *)
Lemma Spend_keeps c n m : m <> n -> IsAvailable c m = true -> IsAvailable (Spend c n).1 m = true.
Proof.
  intros Hne Hm. destruct (IsAvailable c n) eqn:Hn.
  - destruct (spend_available c n Hn) as (o & _ & _ & ->). unfold IsAvailable in *. cbn [fst Cleanup with_vout coins_vout].
    destruct (coins_vout c !! m) as [x|] eqn:Ex; [|discriminate].
    destruct (drop_nulls_split (<[n:=CTxOut_null]> (coins_vout c))) as (p & Hs & Hp & _).
    assert (<[n:=CTxOut_null]> (coins_vout c) !! m = Some x) as Ex' by (rewrite list_lookup_insert_ne by auto; exact Ex).
    rewrite Hs in Ex'. apply lookup_app_Some in Ex' as [->|[_ Ex']]; [exact Hm|].
    rewrite Forall_lookup in Hp. rewrite (Hp _ _ Ex') in Hm. discriminate.
  - unfold IsAvailable in Hn. unfold Spend. destruct (coins_vout c !! n) as [o|]; [|exact Hm].
    apply negb_false_iff in Hn. rewrite Hn. exact Hm.
Qed.

(** Whatever outputs are left, undoing a [Spend] on coins [d] that show what
    [Spend] left behind gives the coins back. *)
Lemma spend_restore c n d : clean c -> nulls_plain (coins_vout c) -> IsAvailable c n = true ->
  (IsPruned (Spend c n).1 = true -> coins_nHeight c <> 0) ->
  clean d -> (if IsPruned (Spend c n).1 then IsPruned d = true else restores d (Spend c n).1) ->
  exists c2, UpdateCoinsForRestoredInputs n (Spend c n).2.2 d true = (c2, true) /\ restores c2 c.
Proof.
  intros Hc Hp Ha Hr Hd Heq. destruct (spend_available c n Ha) as (o & Hn & Ho & Hsp). cbn zeta in Hsp.
  pose proof (lookup_lt_Some _ _ _ Hn) as Hlt. pose proof (spent_unavailable c n Hlt) as Hun.
  rewrite Hsp in *. cbn [fst snd] in *. clear Hsp.
  pose proof (resize_hole (coins_vout c) n o Hc Hp Hn Ho) as Hres. cbn zeta in Hres.
  assert (Hback : <[n:=o]> (<[n:=CTxOut_null]> (coins_vout c)) = coins_vout c).
  { rewrite list_insert_insert_eq. apply list_insert_id. exact Hn. }
  set (c' := Cleanup _) in *. unfold UpdateCoinsForRestoredInputs.
  destruct (IsPruned c') eqn:E0; cbn [undo_txout undo_nHeight undo_fCoinBase undo_nVersion CTxInUndo_of].
  - rewrite (proj2 (Z.eqb_neq _ _) (Hr eq_refl)), Heq.
    cbn [negb andb Clear CCoins_empty coins_vout fCoinStake with_vout fCoinBase coins_nHeight coins_nVersion].
    rewrite (clean_pruned c' (Cleanup_clean _)) in E0. apply Nat.eqb_eq, length_zero_iff_nil in E0.
    cbn [Cleanup with_vout coins_vout c'] in E0. rewrite E0 in Hres. rewrite Hres, Hback.
    eexists. split; [reflexivity|]. constructor; cbn; auto. discriminate.
  - cbn [Z.eqb negb]. destruct Heq as [H1 H2 H3 H4 H5]. unfold IsPruned, IsAvailable in *. rewrite H2, E0, Hun.
    cbn [negb andb]. change (coins_vout c') with (drop_nulls (<[n:=CTxOut_null]> (coins_vout c))). rewrite Hres, Hback.
    eexists. split; [reflexivity|]. constructor; cbn; auto.
Qed.

Lemma Spend_frame c n : let c' := (Spend c n).1 in
  fCoinBase c' = fCoinBase c /\ fCoinStake c' = fCoinStake c /\ coins_nHeight c' = coins_nHeight c /\
  coins_nVersion c' = coins_nVersion c /\ (clean c -> clean c') /\
  (nulls_plain (coins_vout c) -> nulls_plain (coins_vout c')).
Proof.
  unfold Spend. destruct (coins_vout c !! n) as [o|]; [|cbn; auto 10]. destruct (CTxOut_IsNull o); [cbn; auto 10|].
  cbn zeta. cbn [fst]. do 4 (split; [reflexivity|]). split; [intros _; apply Cleanup_clean|]. intros Hp.
  cbn [Cleanup with_vout coins_vout].
  destruct (drop_nulls_split (<[n:=CTxOut_null]> (coins_vout c))) as (p & Hs & _).
  assert (nulls_plain (<[n:=CTxOut_null]> (coins_vout c))) as Hi by (apply Forall_insert; [exact Hp|auto]).
  unfold nulls_plain in *. rewrite Hs in Hi. apply Forall_app in Hi. tauto.
Qed.

Lemma available_not_pruned c n : IsAvailable c n = true -> IsPruned c = false.
Proof.
  unfold IsAvailable, IsPruned. destruct (coins_vout c !! n) as [o|] eqn:E; [|discriminate]. intros Ho.
  destruct (forallb _ _) eqn:F; [|reflexivity]. rewrite forallb_forall in F.
  apply list_elem_of_lookup_2, list_elem_of_In in E. rewrite (F o E) in Ho. discriminate.
Qed.

(** ** Clearing unspendable outputs *)

Lemma clear_unspendable_idem o : clear_unspendable (clear_unspendable o) = clear_unspendable o.
Proof. unfold clear_unspendable. destruct (IsUnspendable (scriptPubKey o)) eqn:E; [destruct (IsUnspendable _); reflexivity|rewrite E; reflexivity]. Qed.

Lemma ClearUnspendable_idem c : ClearUnspendable (ClearUnspendable c) = ClearUnspendable c.
Proof.
  unfold ClearUnspendable at 1. cbn [ClearUnspendable Cleanup with_vout coins_vout fCoinBase fCoinStake coins_nHeight coins_nVersion].
  set (v := map clear_unspendable (coins_vout c)).
  assert (map clear_unspendable (drop_nulls v) = drop_nulls v) as ->.
  { destruct (drop_nulls_split v) as (p & Hs & _).
    assert (map clear_unspendable v = v) as Hv.
    { unfold v. rewrite map_map. apply map_ext. intros o. apply clear_unspendable_idem. }
    rewrite Hs, map_app in Hv at 1. rewrite Hs in Hv at 2.
    apply app_inj_1 in Hv as [Hv _]; [exact Hv|apply length_map]. }
  unfold Cleanup, with_vout. cbn [coins_vout fCoinBase fCoinStake coins_nHeight coins_nVersion].
  rewrite drop_nulls_idem. reflexivity.
Qed.

Lemma ClearUnspendable_pruned c : IsPruned c = true -> IsPruned (ClearUnspendable c) = true.
Proof.
  unfold ClearUnspendable. rewrite IsPruned_Cleanup. unfold IsPruned. cbn [with_vout coins_vout]. rewrite !forallb_forall.
  intros Hc o Ho. apply in_map_iff in Ho as (x & <- & Hx). unfold clear_unspendable. destruct (IsUnspendable _); [reflexivity|auto].
Qed.

(** [GetSerializeSize] measures another header code than [Serialize] writes; with
    eight mask bytes in use the two need a different number of bytes. *)
Lemma size_code_differs :
  let c := mkCoins false false (mkTxOut 1 [81] :: replicate 70 (mkTxOut 1 [81])) 1 1 in
  GetSizeOfVarInt 32 (header_code 8 c) = Ret 1 /\ GetSizeOfVarInt 32 (header_code 16 c) = Ret 2.
Proof. vm_compute. auto. Qed.
