(* ===== verification/CoinsCache.v ===== *)
(** * The coins view and its caches: [coins.h], [coins.cpp], [txdb.cpp]

    Caches are stacked on the coin database.  Reading through a cache fills it and
    the caches below, [ModifyCoins] hands out a mutable entry that is cleaned up
    when its [CCoinsModifier] is destroyed, and [Flush] pushes the changed entries
    one level down.  The stack refines one map from transaction ids to unspent
    outputs: what a level shows does not depend on what is cached where. *)

From Stdlib Require Import ZArith Lia Bool.
From stdpp Require Import base option numbers list gmap.
From S2P Require Import Prelude BaseUInt Serialize Transaction Coins.

Open Scope Z_scope.
Open Scope outcome_scope.

Abbreviation io := (outcome Empty_set).

(** [flags]: the bits [DIRTY] and [FRESH]. *)
Record CCoinsCacheEntry := mkEntry { entry_coins : CCoins; DIRTY : bool; FRESH : bool }.
Abbreviation CCoinsMap := (gmap (list Z) CCoinsCacheEntry).

Record CCoinsViewCache := mkCache { cacheCoins : CCoinsMap; cache_hashBlock : base_uint; hasModifier : bool }.

(** The records of the coin database and its best block. *)
Record CCoinsViewDB := mkDB { db_coins : gmap (list Z) CCoins; db_hashBlock : base_uint }.

(** A view with everything behind its [base] pointer. *)
Inductive CCoinsView :=
| ViewDB (d : CCoinsViewDB)
| ViewCache (c : CCoinsViewCache) (base : CCoinsView).

Definition with_cache (c : CCoinsViewCache) (m : CCoinsMap) : CCoinsViewCache := mkCache m (cache_hashBlock c) (hasModifier c).
Definition with_modifier (c : CCoinsViewCache) (b : bool) : CCoinsViewCache := mkCache (cacheCoins c) (cache_hashBlock c) b.

(** [CCoinsViewCache(CCoinsView* baseIn)] *)
Definition new_cache (base : CCoinsView) : CCoinsView := ViewCache (mkCache ∅ uint256_null false) base.

(** ** Reading *)

(** [FetchCoins], with [GetCoins] of the database at the bottom: the view after
    the call and the entry's coins. *)
Fixpoint FetchCoins (v : CCoinsView) (txid : list Z) : CCoinsView * option CCoins :=
  match v with
  | ViewDB d => (v, db_coins d !! txid)
  | ViewCache c base =>
      match cacheCoins c !! txid with
      | Some e => (v, Some (entry_coins e))
      | None =>
          let '(base, r) := FetchCoins base txid in
          match r with
          | None => (ViewCache c base, None)
          | Some tmp =>
              (ViewCache (with_cache c (<[txid := mkEntry tmp false (IsPruned tmp)]> (cacheCoins c))) base, Some tmp)
          end
      end
  end.

Definition GetCoins (v : CCoinsView) (txid : list Z) : CCoinsView * option CCoins := FetchCoins v txid.
Definition AccessCoins (v : CCoinsView) (txid : list Z) : CCoinsView * option CCoins := FetchCoins v txid.

(** Of a cache; the database only looks for the record. *)
Definition HaveCoins (v : CCoinsView) (txid : list Z) : CCoinsView * bool :=
  let '(v', r) := FetchCoins v txid in
  match v with
  | ViewDB _ => (v', match r with Some _ => true | None => false end)
  | ViewCache _ _ => (v', match r with Some c => negb (length (coins_vout c) =? 0)%nat | None => false end)
  end.

(** [hashBlock == uint256(0)] *)
Fixpoint GetBestBlock (v : CCoinsView) : CCoinsView * base_uint :=
  match v with
  | ViewDB d => (v, db_hashBlock d)
  | ViewCache c base =>
      if bool_decide (cache_hashBlock c = uint256_null) then
        let '(base, h) := GetBestBlock base in (ViewCache (mkCache (cacheCoins c) h (hasModifier c)) base, h)
      else (v, cache_hashBlock c)
  end.

Definition SetBestBlock (c : CCoinsViewCache) (h : base_uint) : CCoinsViewCache := mkCache (cacheCoins c) h (hasModifier c).

(** ** Modifying *)

(** [ModifyCoins]: the entry exists afterwards and is dirty. *)
Definition ModifyCoins (c : CCoinsViewCache) (base : CCoinsView) (txid : list Z) : io (CCoinsViewCache * CCoinsView) :=
  oassert (negb (hasModifier c)) ;;;
  let '(e, base) :=
    match cacheCoins c !! txid with
    | Some e => (e, base)
    | None =>
        let '(base, r) := GetCoins base txid in
        match r with
        | None => (mkEntry (Clear CCoins_empty) false true, base)
        | Some coins => (mkEntry coins false (IsPruned coins), base)
        end
    end in
  let e := mkEntry (entry_coins e) true (FRESH e) in
  Ret (with_modifier (with_cache c (<[txid := e]> (cacheCoins c))) true, base).

(** [~CCoinsModifier] *)
Definition ReleaseModifier (c : CCoinsViewCache) (txid : list Z) : io CCoinsViewCache :=
  oassert (hasModifier c) ;;;
  let c := with_modifier c false in
  let* e := oaccess (cacheCoins c !! txid) in
  let e := mkEntry (Cleanup (entry_coins e)) (DIRTY e) (FRESH e) in
  Ret (with_cache c (if FRESH e && IsPruned (entry_coins e) then delete txid (cacheCoins c) else <[txid := e]> (cacheCoins c))).

(** [cache.ModifyCoins(txid)->f()]: the modifier lives for the statement. *)
Definition modify {R : Type} (v : CCoinsView) (txid : list Z) (f : CCoins -> CCoins * R) : io (CCoinsView * R) :=
  match v with
  | ViewDB _ => Undef
  | ViewCache c base =>
      let* '(c, base) := ModifyCoins c base txid in
      let* e := oaccess (cacheCoins c !! txid) in
      let '(coins, r) := f (entry_coins e) in
      let c := with_cache c (<[txid := mkEntry coins (DIRTY e) (FRESH e)]> (cacheCoins c)) in
      let* c := ReleaseModifier c txid in
      Ret (ViewCache c base, r)
  end.

(** ** Writing back *)

(** One entry of the child in [CCoinsViewCache::BatchWrite]. *)
Definition write_entry (m : CCoinsMap) (p : list Z * CCoinsCacheEntry) : io CCoinsMap :=
  let '(txid, e) := p in
  if DIRTY e then
    match m !! txid with
    | None =>
        if IsPruned (entry_coins e) then Ret m
        else oassert (FRESH e) ;;; Ret (<[txid := mkEntry (entry_coins e) true true]> m)
    | Some us =>
        if FRESH us && IsPruned (entry_coins e) then Ret (delete txid m)
        else Ret (<[txid := mkEntry (entry_coins e) true (FRESH us)]> m)
    end
  else Ret m.

Fixpoint write_entries (m : CCoinsMap) (l : list (list Z * CCoinsCacheEntry)) : io CCoinsMap :=
  match l with
  | [] => Ret m
  | p :: l => let* m := write_entry m p in write_entries m l
  end.

(** [BatchWriteCoins] for the dirty entries of the child.  The database keeps the
    coins themselves; what their bytes keep of them is [stored_coins] of [CoinsDisk],
    all but the upper bits of a version below zero. *)
Definition write_record (m : gmap (list Z) CCoins) (p : list Z * CCoinsCacheEntry) : gmap (list Z) CCoins :=
  let '(txid, e) := p in
  if DIRTY e then (if IsPruned (entry_coins e) then delete txid m else <[txid := entry_coins e]> m) else m.

Definition BatchWrite (v : CCoinsView) (mapCoins : CCoinsMap) (hashBlockIn : base_uint) : io CCoinsView :=
  match v with
  | ViewDB d =>
      Ret (ViewDB (mkDB (fold_left write_record (map_to_list mapCoins) (db_coins d))
        (if bool_decide (hashBlockIn = uint256_null) then db_hashBlock d else hashBlockIn)))
  | ViewCache c base =>
      oassert (negb (hasModifier c)) ;;;
      let* m := write_entries (cacheCoins c) (map_to_list mapCoins) in
      Ret (ViewCache (mkCache m hashBlockIn (hasModifier c)) base)
  end.

Definition Flush (v : CCoinsView) : io CCoinsView :=
  match v with
  | ViewDB _ => Undef
  | ViewCache c base =>
      let* base := BatchWrite base (cacheCoins c) (cache_hashBlock c) in
      Ret (ViewCache (with_cache c ∅) base)
  end.

(** ** What a view shows *)

(** The record found by looking through the caches. *)
Fixpoint view (v : CCoinsView) (txid : list Z) : option CCoins :=
  match v with
  | ViewDB d => db_coins d !! txid
  | ViewCache c base =>
      match cacheCoins c !! txid with Some e => Some (entry_coins e) | None => view base txid end
  end.

(** A record without unspent outputs is as good as none. *)
Definition unspent (r : option CCoins) : option CCoins :=
  match r with Some c => if IsPruned c then None else Some c | None => None end.

Definition coins_at (v : CCoinsView) (txid : list Z) : option CCoins := unspent (view v txid).

(** The entry is in the top cache; everything is in the database. *)
Definition cached (v : CCoinsView) (txid : list Z) : Prop :=
  match v with ViewDB _ => True | ViewCache c _ => is_Some (cacheCoins c !! txid) end.

(** What a cache entry says about the view below. *)
Record entry_ok (base : CCoinsView) (txid : list Z) (e : CCoinsCacheEntry) : Prop := mkEntryOk {
  eo_clean : clean (entry_coins e);
  eo_fresh : FRESH e = true -> coins_at base txid = None;
  eo_same : DIRTY e = false -> view base txid = Some (entry_coins e);
  eo_cached : FRESH e = false -> cached base txid
}.

Fixpoint view_ok (v : CCoinsView) : Prop :=
  match v with
  | ViewDB d => map_Forall (fun _ c => clean c /\ IsPruned c = false) (db_coins d)
  | ViewCache c base =>
      view_ok base /\ hasModifier c = false /\ map_Forall (entry_ok base) (cacheCoins c)
  end.

(** Two views that show the same, the second with at least as much cached. *)
Record extends (v v' : CCoinsView) : Prop := mkExtends {
  ex_view : forall k, view v' k = view v k;
  ex_cached : forall k, cached v k -> cached v' k
}.

Lemma extends_refl v : extends v v.
Proof. constructor; auto. Qed.

Lemma entry_ok_extends base base' k e : extends base base' -> entry_ok base k e -> entry_ok base' k e.
Proof.
  intros [Hv Hc] [H1 H2 H3 H4]. constructor; auto; unfold coins_at in *; rewrite Hv; auto.
Qed.

Lemma view_ok_base c base base' : extends base base' -> view_ok base' -> view_ok (ViewCache c base) -> view_ok (ViewCache c base').
Proof.
  intros Hx Hb (_ & Hm & Hall). split; [exact Hb|]. split; [exact Hm|].
  intros k e He. apply (entry_ok_extends base); [exact Hx|]. apply Hall, He.
Qed.

Lemma view_clean v k c : view_ok v -> view v k = Some c -> clean c.
Proof.
  induction v as [d|ca base IH]; cbn [view view_ok].
  - intros H Hk. apply (H k c Hk).
  - intros (Hb & _ & Hall) Hk. destruct (cacheCoins ca !! k) as [e|] eqn:E; [|apply IH; assumption].
    injection Hk as <-. apply (Hall k e E).
Qed.

Lemma FetchCoins_spec v k : view_ok v ->
  let '(v', r) := FetchCoins v k in
  r = view v k /\ view_ok v' /\ extends v v' /\ (is_Some r -> cached v' k) /\
  match v, v' with ViewDB d, ViewDB d' => d = d' | ViewCache c _, ViewCache c' _ => hasModifier c' = hasModifier c | _, _ => False end.
Proof.
  induction v as [d|c base IH]; cbn [FetchCoins view].
  - intros H. split; [reflexivity|]. split; [exact H|]. split; [apply extends_refl|]. split; [intros; exact I|reflexivity].
  - intros (Hb & Hm & Hall). destruct (cacheCoins c !! k) as [e|] eqn:E.
    + split; [reflexivity|]. split; [exact (conj Hb (conj Hm Hall))|]. split; [apply extends_refl|].
      split; [|reflexivity]. intros _. cbn. rewrite E. eauto.
    + specialize (IH Hb). destruct (FetchCoins base k) as [base' r]. destruct IH as (-> & Hb' & Hx & Hca & _).
      assert (Hall' : map_Forall (entry_ok base') (cacheCoins c)).
      { intros k' e He. apply (entry_ok_extends base); [exact Hx|apply Hall, He]. }
      destruct (view base k) as [tmp|] eqn:Ev.
      * split; [reflexivity|]. split; [|split; [|split; [|reflexivity]]].
        -- split; [exact Hb'|]. split; [exact Hm|]. cbn [cacheCoins with_cache]. apply map_Forall_insert_2; [|exact Hall'].
           constructor; cbn [entry_coins FRESH DIRTY].
           ++ apply (view_clean base k); [exact Hb|exact Ev].
           ++ intros Hp. unfold coins_at. rewrite (ex_view _ _ Hx), Ev. cbn. rewrite Hp. reflexivity.
           ++ intros _. rewrite (ex_view _ _ Hx). exact Ev.
           ++ intros _. apply Hca. eauto.
        -- constructor.
           ++ intros k'. cbn [view cacheCoins with_cache]. destruct (decide (k = k')) as [<-|Hne].
              ** rewrite lookup_insert_eq, E. auto.
              ** rewrite lookup_insert_ne by assumption. rewrite (ex_view _ _ Hx). reflexivity.
           ++ intros k' [e He]. cbn [cached cacheCoins with_cache]. destruct (decide (k = k')) as [<-|Hne]; [congruence|].
              rewrite lookup_insert_ne by assumption. eauto.
        -- intros _. cbn. rewrite lookup_insert_eq. eauto.
      * split; [reflexivity|]. split; [|split; [|split; [|reflexivity]]].
        -- exact (conj Hb' (conj Hm Hall')).
        -- constructor; [|auto]. intros k'. cbn [view]. destruct (cacheCoins c !! k'); [reflexivity|apply (ex_view _ _ Hx)].
        -- intros [? ?]; discriminate.
Qed.

(** [ModifyCoins] yields a dirty entry with the coins the view shows, or cleared
    ones. *)
Lemma ModifyCoins_spec c base k : view_ok (ViewCache c base) ->
  exists e base', ModifyCoins c base k = Ret (with_modifier (with_cache c (<[k := e]> (cacheCoins c))) true, base') /\
    DIRTY e = true /\ clean (entry_coins e) /\ unspent (Some (entry_coins e)) = coins_at (ViewCache c base) k /\
    (FRESH e = true -> coins_at base' k = None) /\ (FRESH e = false -> cached base' k) /\
    view_ok base' /\ extends base base'.
Proof.
  intros (Hb & Hm & Hall). unfold ModifyCoins. rewrite Hm. cbn [negb oassert obind].
  unfold coins_at at 1. cbn [view]. destruct (cacheCoins c !! k) as [e|] eqn:E.
  - exists (mkEntry (entry_coins e) true (FRESH e)), base. destruct (Hall k e E) as [H1 H2 H3 H4].
    split; [reflexivity|]. cbn [DIRTY FRESH entry_coins]. auto 10 using extends_refl.
  - pose proof (FetchCoins_spec base k Hb) as Hf. unfold GetCoins. destruct (FetchCoins base k) as [base' r].
    destruct Hf as (-> & Hb' & Hx & Hca & _). destruct (view base k) as [coins|] eqn:Ev.
    + exists (mkEntry coins true (IsPruned coins)), base'. split; [reflexivity|]. cbn [DIRTY FRESH entry_coins].
      split; [reflexivity|]. split; [apply (view_clean base k); assumption|]. split; [reflexivity|].
      split; [|split; [intros _; apply Hca; eauto|auto]].
      intros Hp. unfold coins_at. rewrite (ex_view _ _ Hx), Ev. cbn. rewrite Hp. reflexivity.
    + exists (mkEntry (Clear CCoins_empty) true true), base'. split; [reflexivity|]. cbn [DIRTY FRESH entry_coins].
      split; [reflexivity|]. split; [reflexivity|]. split; [reflexivity|].
      split; [|split; [discriminate|auto]]. intros _. unfold coins_at. rewrite (ex_view _ _ Hx), Ev. reflexivity.
Qed.

Lemma modify_spec {R} c base k (f : CCoins -> CCoins * R) : view_ok (ViewCache c base) ->
  exists c0 c' base', clean c0 /\ unspent (Some c0) = coins_at (ViewCache c base) k /\
    modify (ViewCache c base) k f = Ret (ViewCache c' base', (f c0).2) /\
    view_ok (ViewCache c' base') /\ extends base base' /\
    coins_at (ViewCache c' base') k = unspent (Some (Cleanup (f c0).1)) /\
    (forall k', k' <> k -> view (ViewCache c' base') k' = view (ViewCache c base) k').
Proof.
  intros Hok. destruct (ModifyCoins_spec c base k Hok) as (e & base' & Hmod & Hd & Hcl & Hsame & Hfr & Hca & Hb' & Hx).
  destruct Hok as (Hb & Hm & Hall). exists (entry_coins e).
  unfold modify. rewrite Hmod. cbn [obind cacheCoins with_cache with_modifier]. rewrite lookup_insert_eq. cbn [oaccess obind].
  destruct (f (entry_coins e)) as [coins r] eqn:Ef. cbn [fst snd].
  unfold ReleaseModifier. cbn [hasModifier with_cache with_modifier cacheCoins oassert obind].
  rewrite lookup_insert_eq. cbn [oaccess obind entry_coins DIRTY FRESH]. rewrite !insert_insert_eq, delete_insert_eq.
  set (m' := if FRESH e && IsPruned (Cleanup coins) then _ else _).
  exists (mkCache m' (cache_hashBlock c) false), base'.
  split; [exact Hcl|]. split; [exact Hsame|]. split; [reflexivity|].
  assert (Hall' : map_Forall (entry_ok base') (cacheCoins c)).
  { intros k' e' He. apply (entry_ok_extends base); [exact Hx|apply Hall, He]. }
  split; [|split; [exact Hx|split]].
  - split; [exact Hb'|]. split; [reflexivity|]. cbn [cacheCoins]. unfold m'.
    destruct (FRESH e && IsPruned (Cleanup coins)); [apply map_Forall_delete, Hall'|].
    apply map_Forall_insert_2; [|exact Hall']. constructor; cbn [entry_coins FRESH DIRTY]; auto; [apply Cleanup_clean|congruence].
  - unfold coins_at. cbn [view cacheCoins]. unfold m'. destruct (FRESH e && IsPruned (Cleanup coins)) eqn:E.
    + rewrite lookup_delete_eq. apply andb_true_iff in E as [E1 E2]. cbn [unspent]. rewrite E2. apply Hfr, E1.
    + rewrite lookup_insert_eq. reflexivity.
  - intros k' Hne. cbn [view cacheCoins]. unfold m'.
    assert ((if FRESH e && IsPruned (Cleanup coins) then delete k (cacheCoins c)
      else <[k:=mkEntry (Cleanup coins) (DIRTY e) (FRESH e)]> (cacheCoins c)) !! k' = cacheCoins c !! k') as ->.
    { destruct (FRESH e && _); [apply lookup_delete_ne|apply lookup_insert_ne]; auto. }
    destruct (cacheCoins c !! k'); [reflexivity|apply (ex_view _ _ Hx)].
Qed.

(** ** Writing back *)

(** The effect of a child's entry on the entry of the parent. *)
Definition merged (us : option CCoinsCacheEntry) (e : CCoinsCacheEntry) : option CCoinsCacheEntry :=
  if DIRTY e then
    match us with
    | None => if IsPruned (entry_coins e) then None else Some (mkEntry (entry_coins e) true true)
    | Some u => if FRESH u && IsPruned (entry_coins e) then None else Some (mkEntry (entry_coins e) true (FRESH u))
    end
  else us.

(** The assertion of [BatchWrite]. *)
Definition mergeable (us : option CCoinsCacheEntry) (e : CCoinsCacheEntry) : Prop :=
  us = None -> DIRTY e = true -> IsPruned (entry_coins e) = false -> FRESH e = true.

Lemma write_entry_spec m k e : mergeable (m !! k) e ->
  exists m', write_entry m (k, e) = Ret m' /\ m' !! k = merged (m !! k) e /\ forall k', k' <> k -> m' !! k' = m !! k'.
Proof.
  unfold write_entry, merged, mergeable. intros Hok. destruct (DIRTY e); [|eauto].
  destruct (m !! k) as [us|] eqn:E.
  - destruct (FRESH us && IsPruned (entry_coins e)); eexists; (split; [reflexivity|]).
    + split; [apply lookup_delete_eq|]. intros. apply lookup_delete_ne. auto.
    + split; [apply lookup_insert_eq|]. intros. apply lookup_insert_ne. auto.
  - destruct (IsPruned (entry_coins e)) eqn:Ep; [eauto|]. rewrite Hok by reflexivity. cbn [oassert obind].
    eexists. split; [reflexivity|]. split; [apply lookup_insert_eq|]. intros. apply lookup_insert_ne. auto.
Qed.

(** In whatever order the child's entries come. *)
Lemma write_entries_spec l : forall m, NoDup l.*1 -> (forall k e, (k, e) ∈ l -> mergeable (m !! k) e) ->
  exists m', write_entries m l = Ret m' /\
    (forall k e, (k, e) ∈ l -> m' !! k = merged (m !! k) e) /\ (forall k, k ∉ l.*1 -> m' !! k = m !! k).
Proof.
  induction l as [|[k e] l IH]; intros m Hnd Hok; cbn [write_entries].
  - exists m. split; [reflexivity|]. split; [intros ? ? H; apply not_elem_of_nil in H; contradiction|auto].
  - cbn in Hnd. apply NoDup_cons in Hnd as [Hk Hnd].
    destruct (write_entry_spec m k e (Hok k e ltac:(left))) as (m1 & -> & H1 & H2). cbn [obind].
    assert (Hne : forall k' e', (k', e') ∈ l -> k' <> k).
    { intros k' e' He ->. apply Hk. apply list_elem_of_fmap. exists (k, e'). auto. }
    destruct (IH m1 Hnd) as (m' & -> & H3 & H4).
    { intros k' e' He. rewrite H2 by (eapply Hne, He). apply Hok. right. exact He. }
    exists m'. split; [reflexivity|]. split.
    + intros k' e' He. apply elem_of_cons in He as [[= -> ->]|He].
      * rewrite H4 by exact Hk. exact H1.
      * rewrite (H3 k' e' He), H2 by (eapply Hne, He). reflexivity.
    + intros k' Hk'. cbn in Hk'. apply not_elem_of_cons in Hk' as [Hk1 Hk2]. rewrite H4, H2 by auto. reflexivity.
Qed.

Lemma write_records_spec l : forall m, NoDup l.*1 ->
  (forall k e, (k, e) ∈ l -> fold_left write_record l m !! k =
     if DIRTY e then (if IsPruned (entry_coins e) then None else Some (entry_coins e)) else m !! k) /\
  (forall k, k ∉ l.*1 -> fold_left write_record l m !! k = m !! k).
Proof.
  induction l as [|[k e] l IH]; intros m Hnd; cbn [fold_left].
  - split; [intros ? ? H; apply not_elem_of_nil in H; contradiction|auto].
  - cbn in Hnd. apply NoDup_cons in Hnd as [Hk Hnd]. destruct (IH (write_record m (k, e)) Hnd) as [H1 H2].
    assert (Hself : write_record m (k, e) !! k = if DIRTY e then (if IsPruned (entry_coins e) then None else Some (entry_coins e)) else m !! k).
    { cbn. destruct (DIRTY e); [|reflexivity]. destruct (IsPruned _); [apply lookup_delete_eq|apply lookup_insert_eq]. }
    assert (Hother : forall k', k' <> k -> write_record m (k, e) !! k' = m !! k').
    { intros k' Hne. cbn. destruct (DIRTY e); [|reflexivity]. destruct (IsPruned _); [apply lookup_delete_ne|apply lookup_insert_ne]; auto. }
    split.
    + intros k' e' He. apply elem_of_cons in He as [[= -> ->]|He].
      * rewrite H2 by exact Hk. exact Hself.
      * rewrite (H1 k' e' He), Hother; [reflexivity|]. intros ->. apply Hk, list_elem_of_fmap. exists (k, e'). auto.
    + intros k' Hk'. cbn in Hk'. apply not_elem_of_cons in Hk' as [Hk1 Hk2]. rewrite H2, Hother by auto. reflexivity.
Qed.

(** The child's entries over the parent's cache: the merged cache is consistent
    with what lies below and shows what the child showed. *)
Lemma merged_ok (p : CCoinsViewCache) g k e us :
  cacheCoins p !! k = us -> (forall u, us = Some u -> entry_ok g k u) -> entry_ok (ViewCache p g) k e ->
  mergeable us e /\
  (forall u, merged us e = Some u -> entry_ok g k u) /\
  unspent (match merged us e with Some u => Some (entry_coins u) | None => view g k end) = unspent (Some (entry_coins e)).
Proof.
  intros Hus Hu [H1 H2 H3 H4]. unfold coins_at in H2. cbn [view cached] in *. rewrite Hus in *.
  unfold mergeable, merged. destruct (DIRTY e) eqn:Ed.
  - destruct us as [u|].
    + specialize (Hu u eq_refl). destruct Hu as [U1 U2 U3 U4].
      split; [discriminate|]. destruct (FRESH u && IsPruned (entry_coins e)) eqn:E.
      * apply andb_true_iff in E as [E1 E2]. split; [discriminate|]. cbn [unspent]. rewrite E2. apply U2, E1.
      * split; [|reflexivity]. intros u' Hu'. injection Hu' as <-. constructor; cbn [entry_coins FRESH DIRTY]; auto. discriminate.
    + assert (Hfr : FRESH e = true) by (destruct (FRESH e); [reflexivity|destruct (H4 eq_refl); discriminate]).
      split; [auto|]. specialize (H2 Hfr). destruct (IsPruned (entry_coins e)) eqn:Ep.
      * split; [discriminate|]. cbn [unspent]. rewrite Ep. exact H2.
      * split; [|reflexivity]. intros u Hu'. injection Hu' as <-. constructor; cbn [entry_coins FRESH DIRTY]; auto; discriminate.
  - split; [discriminate|]. split; [exact Hu|]. specialize (H3 eq_refl).
    destruct us as [u|]; [injection H3 as ->; reflexivity|rewrite H3; reflexivity].
Qed.

Lemma BatchWrite_spec c base h : view_ok (ViewCache c base) ->
  exists base', BatchWrite base (cacheCoins c) h = Ret base' /\ view_ok base' /\
    (forall k, coins_at base' k = coins_at (ViewCache c base) k).
Proof.
  intros (Hb & Hm & Hall). set (l := map_to_list (cacheCoins c)).
  assert (Hnd : NoDup l.*1) by apply NoDup_fst_map_to_list.
  assert (Hin : forall k e, (k, e) ∈ l <-> cacheCoins c !! k = Some e) by (intros; apply elem_of_map_to_list).
  assert (Hout : forall k, cacheCoins c !! k = None -> k ∉ l.*1).
  { intros k Hk Hel. apply list_elem_of_fmap in Hel as ([k' e] & -> & Hel). apply Hin in Hel. cbn in Hk. congruence. }
  destruct base as [d|p g]; cbn [BatchWrite].
  - eexists. split; [reflexivity|]. destruct (write_records_spec l (db_coins d) Hnd) as [W1 W2].
    assert (Hlk : forall k, fold_left write_record l (db_coins d) !! k = coins_at (ViewCache c (ViewDB d)) k).
    { intros k. unfold coins_at. cbn [view]. destruct (cacheCoins c !! k) as [e|] eqn:E.
      - rewrite (W1 k e) by (apply Hin, E). destruct (Hall k e E) as [_ _ E3 _]. cbn [view] in E3.
        destruct (DIRTY e); cbn [unspent]; [destruct (IsPruned _); reflexivity|]. rewrite (E3 eq_refl).
        destruct (Hb k _ (E3 eq_refl)) as [_ ->]. reflexivity.
      - rewrite W2 by apply Hout, E. destruct (db_coins d !! k) as [x|] eqn:Ex; [|reflexivity].
        cbn [unspent]. destruct (Hb k x Ex) as [_ ->]. reflexivity. }
    assert (Hcl : forall k x, coins_at (ViewCache c (ViewDB d)) k = Some x -> clean x /\ IsPruned x = false).
    { intros k x. unfold coins_at. destruct (view (ViewCache c (ViewDB d)) k) as [y|] eqn:Ey; [|discriminate].
      cbn [unspent]. destruct (IsPruned y) eqn:Ep; [discriminate|]. intros [= <-]. split; [|exact Ep].
      apply (view_clean (ViewCache c (ViewDB d)) k); [exact (conj Hb (conj Hm Hall))|exact Ey]. }
    split.
    + intros k x Hx. cbn [db_coins] in Hx. fold l in Hx. rewrite Hlk in Hx. apply (Hcl k x Hx).
    + intros k. unfold coins_at at 1. cbn [view db_coins]. fold l. rewrite Hlk.
      destruct (coins_at _ k) as [x|] eqn:E; [|reflexivity]. cbn [unspent]. destruct (Hcl k x E) as [_ ->]. reflexivity.
  - destruct Hb as (Hg & Hmp & Hallp). rewrite Hmp. cbn [negb oassert obind]. fold l.
    assert (Hmg : forall k e, cacheCoins c !! k = Some e -> mergeable (cacheCoins p !! k) e /\
      (forall u, merged (cacheCoins p !! k) e = Some u -> entry_ok g k u) /\
      unspent (match merged (cacheCoins p !! k) e with Some u => Some (entry_coins u) | None => view g k end) =
      unspent (Some (entry_coins e))).
    { intros k e He. apply (merged_ok p g k e); [reflexivity|intros u Hu; apply Hallp, Hu|apply Hall, He]. }
    destruct (write_entries_spec l (cacheCoins p) Hnd) as (m' & -> & W1 & W2).
    { intros k e He. apply Hmg, Hin, He. }
    cbn [obind]. eexists. split; [reflexivity|]. split.
    + split; [exact Hg|]. split; [reflexivity|]. intros k u Hu. cbn [cacheCoins] in Hu.
      destruct (cacheCoins c !! k) as [e|] eqn:E.
      * rewrite (W1 k e) in Hu by (apply Hin, E). apply (Hmg k e E), Hu.
      * rewrite W2 in Hu by apply Hout, E. apply Hallp, Hu.
    + intros k. unfold coins_at. cbn [view cacheCoins]. destruct (cacheCoins c !! k) as [e|] eqn:E.
      * rewrite (W1 k e) by (apply Hin, E). apply (Hmg k e E).
      * rewrite W2 by apply Hout, E. reflexivity.
Qed.

Lemma Flush_spec c base : view_ok (ViewCache c base) ->
  exists base', Flush (ViewCache c base) = Ret (ViewCache (with_cache c ∅) base') /\
    view_ok (ViewCache (with_cache c ∅) base') /\
    (forall k, coins_at base' k = coins_at (ViewCache c base) k) /\
    (forall k, coins_at (ViewCache (with_cache c ∅) base') k = coins_at (ViewCache c base) k).
Proof.
  intros Hok. destruct (BatchWrite_spec c base (cache_hashBlock c) Hok) as (base' & Hw & Hb' & Hc).
  exists base'. unfold Flush. rewrite Hw. cbn [obind]. split; [reflexivity|]. split.
  - destruct Hok as (_ & Hm & _). split; [exact Hb'|]. split; [exact Hm|]. apply map_Forall_empty.
  - split; [exact Hc|]. intros k. rewrite <- Hc. unfold coins_at. cbn [view with_cache cacheCoins]. rewrite lookup_empty. reflexivity.
Qed.

Lemma GetBestBlock_spec v : view_ok v -> view_ok (GetBestBlock v).1 /\ extends v (GetBestBlock v).1.
Proof.
  induction v as [d|c base IH]; cbn [GetBestBlock]; [intros H; split; [exact H|apply extends_refl]|].
  intros Hok. destruct (bool_decide _); [|split; [exact Hok|apply extends_refl]].
  destruct Hok as (Hb & Hm & Hall). destruct (IH Hb) as [Hb' Hx]. destruct (GetBestBlock base) as [base' h]. cbn [fst] in *. split.
  - split; [exact Hb'|]. split; [exact Hm|]. intros k e He. apply (entry_ok_extends base); [exact Hx|apply Hall, He].
  - constructor; [|auto]. intros k. cbn [view cacheCoins]. destruct (cacheCoins c !! k); [reflexivity|apply (ex_view _ _ Hx)].
Qed.

(** ** The state machine of a stack of views *)

(** The calls on the top view; a cache can be put on top and be discarded. *)
Inductive coins_step : CCoinsView -> CCoinsView -> Prop :=
| step_fetch v k : coins_step v (FetchCoins v k).1
| step_best v : coins_step v (GetBestBlock v).1
| step_set_best c base h : coins_step (ViewCache c base) (ViewCache (SetBestBlock c h) base)
| step_modify (R : Type) v k (f : CCoins -> CCoins * R) v' r : modify v k f = Ret (v', r) -> coins_step v v'
| step_flush v v' : Flush v = Ret v' -> coins_step v v'
| step_push v : coins_step v (new_cache v)
| step_pop c base : coins_step (ViewCache c base) base.

(** A database of cleaned-up, not fully spent records. *)
Definition db_ok (d : CCoinsViewDB) : Prop := map_Forall (fun _ c => clean c /\ IsPruned c = false) (db_coins d).

Lemma coins_step_ok v v' : coins_step v v' -> view_ok v -> view_ok v'.
Proof.
  intros Hs Hok. destruct Hs as [v k|v|c base h|R v k f v' r Hm|v v' Hf|v|c base].
  - pose proof (FetchCoins_spec v k Hok) as H. destruct (FetchCoins v k). tauto.
  - apply GetBestBlock_spec, Hok.
  - exact Hok.
  - destruct v as [d|c base]; [discriminate|]. destruct (modify_spec c base k f Hok) as (c0 & c' & b' & _ & _ & E & H & _).
    rewrite E in Hm. injection Hm as <- <-. exact H.
  - destruct v as [d|c base]; [discriminate|]. destruct (Flush_spec c base Hok) as (b' & E & H & _).
    rewrite E in Hf. injection Hf as <-. exact H.
  - split; [exact Hok|]. split; [reflexivity|]. apply map_Forall_empty.
  - apply Hok.
Qed.

Lemma reachable_ok d v : db_ok d -> rtc coins_step (ViewDB d) v -> view_ok v.
Proof.
  intros Hd Hr. apply rtc_ind_r with (P := view_ok) in Hr; [exact Hr|exact Hd|]. intros x y _ Hs Hx. eapply coins_step_ok; eauto.
Qed.

Lemma HaveCoins_spec c base k : view_ok (ViewCache c base) ->
  (HaveCoins (ViewCache c base) k).2 = bool_decide (is_Some (coins_at (ViewCache c base) k)).
Proof.
  intros Hok. unfold HaveCoins. pose proof (FetchCoins_spec (ViewCache c base) k Hok) as H.
  destruct (FetchCoins (ViewCache c base) k) as [v' r]. destruct H as (-> & _). unfold coins_at.
  destruct (view (ViewCache c base) k) as [x|] eqn:E; cbn [snd unspent]; [|symmetry; apply bool_decide_eq_false; intros [? ?]; discriminate].
  rewrite (clean_pruned x) by (apply (view_clean (ViewCache c base) k); assumption).
  destruct (length (coins_vout x) =? 0)%nat; cbn [negb]; symmetry;
    [apply bool_decide_eq_false; intros [? ?]; discriminate|apply bool_decide_eq_true; eauto].
Qed.

(** C35: a stack of caches behaves as one map of unspent outputs.  In every
    state reached from a database by any sequence of calls, caches put on top and
    flushed or discarded: reading returns what the map holds and changes nothing;
    [HaveCoins] tells whether the transaction has unspent outputs; a modification
    succeeds, sees the current coins (or fully spent ones) and changes the map at
    that transaction only; and [Flush] never fails its assertion, leaves the map
    as it is and makes the view below show it. *)
Theorem coins_cache_refines d c base k (R : Type) (f : CCoins -> CCoins * R) :
  db_ok d -> rtc coins_step (ViewDB d) (ViewCache c base) ->
  let v := ViewCache c base in
  (unspent (GetCoins v k).2 = coins_at v k /\ forall k', coins_at (GetCoins v k).1 k' = coins_at v k') /\
  (HaveCoins v k).2 = bool_decide (is_Some (coins_at v k)) /\
  (exists c0 v', unspent (Some c0) = coins_at v k /\ modify v k f = Ret (v', (f c0).2) /\
     coins_at v' k = unspent (Some (Cleanup (f c0).1)) /\ forall k', k' <> k -> coins_at v' k' = coins_at v k') /\
  (exists c' base', Flush v = Ret (ViewCache c' base') /\
     forall k', coins_at base' k' = coins_at v k' /\ coins_at (ViewCache c' base') k' = coins_at v k').
Proof.
  intros Hd Hr. pose proof (reachable_ok d _ Hd Hr) as Hok. cbn zeta. split; [|split; [|split]].
  - pose proof (FetchCoins_spec (ViewCache c base) k Hok) as H. unfold GetCoins.
    destruct (FetchCoins (ViewCache c base) k) as [v' r]. destruct H as (-> & _ & Hx & _). cbn [fst snd].
    split; [reflexivity|]. intros k'. unfold coins_at. rewrite (ex_view _ _ Hx). reflexivity.
  - apply HaveCoins_spec, Hok.
  - destruct (modify_spec c base k f Hok) as (c0 & c' & b' & _ & H1 & H2 & _ & _ & H3 & H4).
    exists c0, (ViewCache c' b'). split; [exact H1|]. split; [exact H2|]. split; [exact H3|].
    intros k' Hne. unfold coins_at. rewrite H4 by assumption. reflexivity.
  - destruct (Flush_spec c base Hok) as (b' & H1 & _ & H2 & H3). exists (with_cache c ∅), b'. split; [exact H1|]. auto.
Qed.

Definition sample_coins : CCoins := mkCoins false false [mkTxOut 5 [81]; mkTxOut 7 [82]] 100 1.
Definition sample_db : CCoinsViewDB := mkDB {[ [1] := sample_coins ]} (of_uint64 8 11).

Lemma sample_db_ok : db_ok sample_db.
Proof. apply map_Forall_singleton. split; vm_compute; reflexivity. Qed.

Lemma coins_cache_refines_witness :
  exists v', modify (new_cache (ViewDB sample_db)) [1] (fun c => Spend c 1) = Ret (v', (true, CTxInUndo_of (mkTxOut 7 [82]))) /\
    coins_at v' [1] = Some (mkCoins false false [mkTxOut 5 [81]] 100 1).
Proof.
  destruct (coins_cache_refines sample_db (mkCache ∅ uint256_null false) (ViewDB sample_db) [1] _ (fun c => Spend c 1)
    sample_db_ok (rtc_once _ _ (step_push (ViewDB sample_db)))) as (_ & _ & (c0 & v' & H1 & H2 & H3 & _) & _).
  assert (coins_at (ViewCache (mkCache ∅ uint256_null false) (ViewDB sample_db)) [1] = Some sample_coins) as E by (vm_compute; reflexivity).
  rewrite E in H1. cbn [unspent] in H1. destruct (IsPruned c0); [discriminate|]. injection H1 as ->.
  exists v'. split; [exact H2|]. rewrite H3. vm_compute. reflexivity.
Defined.

(** A cache whose best block was never set or read passes the null hash down:
    the view below then shows the best block of the view under it. *)
Lemma flush_null_best_block :
  let parent := ViewCache (mkCache ∅ (of_uint64 8 22) false) (ViewDB sample_db) in
  (GetBestBlock parent).2 = of_uint64 8 22 /\
  match Flush (new_cache parent) with
  | Ret (ViewCache _ parent') => (GetBestBlock parent').2 = of_uint64 8 11
  | _ => False
  end.
Proof. split; vm_compute; reflexivity. Qed.
