(* ===== verification/CoinsUpdate.v ===== *)
(** * Connecting and disconnecting transactions: [UtxoCheckingAndUpdating.cpp]

    The functions are written against the interface [CoinsStore], which is what a
    coins view promises about [ModifyCoins]; the stack of caches implements it.
    Disconnecting a transaction that was just connected restores the unspent
    outputs, except for the coinstake flag of transactions that were spent
    completely. *)

From Stdlib Require Import ZArith Lia Bool.
From stdpp Require Import base option numbers list gmap.
From S2P Require Import Prelude BaseUInt UInt256 Opcodes ScriptNum Script Serialize Transaction Coins CoinsCache.

Open Scope Z_scope.
Open Scope outcome_scope.

(** What the clients of a coins view rely on. *)
Class CoinsStore (S : Type) := {
  store_ok : S -> Prop;
  store_coins : S -> list Z -> option CCoins;
  store_modify : forall (R : Type), S -> list Z -> (CCoins -> CCoins * R) -> io (S * R);
  store_modify_spec : forall (R : Type) s k (f : CCoins -> CCoins * R), store_ok s ->
    exists c0 s', clean c0 /\ unspent (Some c0) = store_coins s k /\
      store_modify R s k f = Ret (s', (f c0).2) /\ store_ok s' /\
      store_coins s' k = unspent (Some (Cleanup (f c0).1)) /\
      (forall k', k' <> k -> store_coins s' k' = store_coins s k')
}.

(** A cache on top of any stack. *)
Definition cache_ok (v : CCoinsView) : Prop := view_ok v /\ match v with ViewCache _ _ => True | ViewDB _ => False end.

#[global, refine] Instance cache_store : CoinsStore CCoinsView := {
  store_ok := cache_ok;
  store_coins := coins_at;
  store_modify := fun R v k f => modify v k f
}.
Proof.
  intros R [d|c base] k f [Hok Hc]; [contradiction|].
  destruct (modify_spec c base k f Hok) as (c0 & c' & b' & H0 & H1 & H2 & H3 & _ & H4 & H5).
  exists c0, (ViewCache c' b'). split; [exact H0|]. split; [exact H1|]. split; [exact H2|]. split; [split; [exact H3|exact I]|].
  split; [exact H4|]. intros k' Hne. unfold coins_at. rewrite H5 by assumption. reflexivity.
Defined.

Inductive TxReversalStatus := ABORT_NO_OTHER_ERRORS | ABORT_WITH_OTHER_ERRORS | CONTINUE_WITH_ERRORS | OK.

Section Update.
Context {S : Type} `{CoinsStore S}.

(** [BOOST_FOREACH (const CTxIn& txin, tx.vin)] with [assert(ret)]: the view and
    [txundo.vprevout]. *)
Fixpoint spend_inputs (inputs : S) (ins : list CTxIn) : io (S * list CTxInUndo) :=
  match ins with
  | [] => Ret (inputs, [])
  | txin :: ins =>
      let* '(inputs, res) := store_modify _ inputs (prev_hash (prevout txin))
        (fun c => Spend c (Z.to_nat (prev_n (prevout txin)))) in
      oassert (fst res) ;;;
      let* '(inputs, undos) := spend_inputs inputs ins in
      Ret (inputs, snd res :: undos)
  end.

Definition UpdateCoinsWithTransaction (tx : CTransaction) (inputs : S) (nHeight : Z) : io (S * list CTxInUndo) :=
  let* '(inputs, undos) := if negb (IsCoinBase (tx_body tx)) then spend_inputs inputs (vin (tx_body tx)) else Ret (inputs, []) in
  let* '(inputs, _) := store_modify unit inputs (tx_hash tx) (fun _ => (FromTx (tx_body tx) nHeight, tt)) in
  Ret (inputs, undos).

(** The entry is compared with the transaction and cleared. *)
Definition remove_outputs (tx : CMutableTransaction) (blockHeight : Z) (outs : CCoins) : CCoins * bool :=
  let outs := ClearUnspendable outs in
  let outsBlock := FromTx tx blockHeight in
  let outs :=
    if coins_nVersion outsBlock <? 0
    then mkCoins (fCoinBase outs) (fCoinStake outs) (coins_vout outs) (coins_nHeight outs) (coins_nVersion outsBlock)
    else outs in
  (Clear outs, coins_eqb outs outsBlock).

Definition RemoveTxOutputsFromCache (tx : CMutableTransaction) (hash : base_uint) (blockHeight : Z) (view : S) : io (S * bool) :=
  store_modify bool view hash (remove_outputs tx blockHeight).

(** [for (unsigned int txInputIndex = tx.vin.size(); txInputIndex-- > 0;)], over
    the inputs and their undo data in reverse. *)
Fixpoint restore_inputs (l : list (CTxIn * CTxInUndo)) (inputs : S) (fClean : bool) : io (S * bool) :=
  match l with
  | [] => Ret (inputs, fClean)
  | (txin, undo) :: l =>
      let* '(inputs, fClean) := store_modify bool inputs (prev_hash (prevout txin))
        (fun coins => UpdateCoinsForRestoredInputs (Z.to_nat (prev_n (prevout txin))) undo coins fClean) in
      restore_inputs l inputs fClean
  end.

Definition UpdateCoinsReversingTransaction (tx : CMutableTransaction) (hash : base_uint) (blockHeight : Z) (inputs : S)
    (txundo : option (list CTxInUndo)) : io (S * TxReversalStatus) :=
  let* '(inputs, fClean) := RemoveTxOutputsFromCache tx hash blockHeight inputs in
  if IsCoinBase tx then Ret (inputs, if fClean then OK else CONTINUE_WITH_ERRORS)
  else
    let* vprevout := oaccess txundo in
    if negb (length vprevout =? length (vin tx))%nat
    then Ret (inputs, if fClean then ABORT_NO_OTHER_ERRORS else ABORT_WITH_OTHER_ERRORS)
    else
      let* '(inputs, fClean) := restore_inputs (rev (combine (vin tx) vprevout)) inputs fClean in
      Ret (inputs, if fClean then OK else CONTINUE_WITH_ERRORS).

(** ** Disconnecting undoes connecting *)

(** Outpoints of the inputs, as [Spend] addresses them. *)
Definition spends (txin : CTxIn) : list Z * nat := (prev_hash (prevout txin), Z.to_nat (prev_n (prevout txin))).

(** The output is there; [nHeight = 0] marks undo data without metadata. *)
Definition spendable (s : S) (p : list Z * nat) : Prop :=
  exists c, store_coins s p.1 = Some c /\ IsAvailable c p.2 = true /\ nulls_plain (coins_vout c) /\ coins_nHeight c <> 0.

(** Each transaction's unspent outputs are those of the other store, up to lost
    coinstake flags. *)
Definition store_restores (s s' : S) : Prop := forall k, option_Forall2 restores (store_coins s k) (store_coins s' k).

Lemma store_entry s k c : store_ok s -> store_coins s k = Some c -> clean c /\ IsPruned c = false.
Proof.
  intros Hok Hk. destruct (store_modify_spec unit s k (fun c => (c, tt)) Hok) as (c0 & _ & Hc & Hu & _).
  rewrite Hk in Hu. cbn [unspent] in Hu. destruct (IsPruned c0) eqn:E; [discriminate|]. injection Hu as ->. auto.
Qed.

Lemma spend_step s k n : store_ok s -> spendable s (k, n) ->
  exists c s', store_coins s k = Some c /\ clean c /\
    store_modify _ s k (fun c => Spend c n) = Ret (s', (true, (Spend c n).2.2)) /\ store_ok s' /\
    store_coins s' k = unspent (Some (Spend c n).1) /\ (forall k', k' <> k -> store_coins s' k' = store_coins s k').
Proof.
  intros Hok (c & Hk & Ha & Hp & Hh). cbn [fst snd] in *.
  destruct (store_entry s k c Hok Hk) as [Hcl Hpr].
  destruct (store_modify_spec _ s k (fun c => Spend c n) Hok) as (c0 & s' & Hc0 & Hu & Hm & Hok' & Hk' & Ho').
  rewrite Hk in Hu. cbn [unspent] in Hu. destruct (IsPruned c0); [discriminate|]. injection Hu as ->.
  exists c, s'. destruct (spend_available c n Ha) as (o & _ & _ & Hsp). destruct (Spend_frame c n) as (_ & _ & _ & _ & Hcl' & _).
  rewrite Hsp in Hm, Hcl', Hk' |- *. cbn [fst snd] in *. rewrite (Cleanup_id _ (Hcl' Hcl)) in Hk'. auto 10.
Qed.

Lemma spend_step_keeps s s' k n c p : store_coins s k = Some c ->
  store_coins s' k = unspent (Some (Spend c n).1) -> (forall k', k' <> k -> store_coins s' k' = store_coins s k') ->
  p <> (k, n) -> spendable s p -> spendable s' p.
Proof.
  destruct p as [k2 m]. intros Hk Hk' Ho Hne (c2 & H2 & Ha & Hp & Hh). cbn [fst snd] in *. unfold spendable. cbn [fst snd].
  destruct (decide (k2 = k)) as [->|Hkne]; [|exists c2; rewrite Ho by assumption; auto].
  rewrite Hk in H2. injection H2 as <-. assert (m <> n) as Hmn by congruence.
  pose proof (Spend_keeps c n m Hmn Ha) as Ha'. destruct (Spend_frame c n) as (_ & _ & Fh & _ & _ & Fp).
  exists (Spend c n).1. rewrite Hk'. cbn [unspent]. rewrite (available_not_pruned _ _ Ha'), Fh. auto.
Qed.

Lemma restore_step s s' s2 k n c : store_ok s2 -> spendable s (k, n) -> store_coins s k = Some c -> clean c ->
  store_coins s' k = unspent (Some (Spend c n).1) -> (forall k', k' <> k -> store_coins s' k' = store_coins s k') ->
  store_restores s2 s' ->
  exists s3, store_modify bool s2 k (fun d => UpdateCoinsForRestoredInputs n (Spend c n).2.2 d true) = Ret (s3, true) /\
    store_ok s3 /\ store_restores s3 s.
Proof.
  intros Hok (c1 & H1 & Ha & Hp & Hh) Hk Hcl Hk' Ho Hr. cbn [fst snd] in *. rewrite Hk in H1. injection H1 as <-.
  destruct (store_modify_spec _ s2 k (fun d => UpdateCoinsForRestoredInputs n (Spend c n).2.2 d true) Hok)
    as (d & s3 & Hd & Hu & Hm & Hok3 & Hk3 & Ho3).
  specialize (Hr k) as Hrk. rewrite <- Hu, Hk' in Hrk. cbn [unspent] in Hrk.
  destruct (spend_restore c n d Hcl Hp Ha (fun _ => Hh) Hd) as (c2 & Hup & Hc2).
  { destruct (IsPruned (Spend c n).1), (IsPruned d); inversion Hrk; auto. }
  exists s3. rewrite Hm, Hup. split; [reflexivity|]. split; [exact Hok3|]. intros k'.
  destruct (decide (k' = k)) as [->|Hne].
  - rewrite Hk3, Hup, Hk. cbn [fst unspent]. rewrite IsPruned_Cleanup, (restores_pruned _ _ Hc2), (available_not_pruned _ _ Ha).
    constructor. rewrite Cleanup_id; [exact Hc2|]. unfold clean. rewrite (re_vout _ _ Hc2). exact Hcl.
  - rewrite Ho3 by assumption. rewrite <- (Ho k' Hne). apply Hr.
Qed.

Lemma restore_inputs_app l1 : forall l2 s b,
  restore_inputs (l1 ++ l2) s b = let* '(s, b) := restore_inputs l1 s b in restore_inputs l2 s b.
Proof.
  induction l1 as [|[t u] l1 IH]; intros l2 s b; cbn [restore_inputs app obind]; [reflexivity|].
  destruct (store_modify _ _ _ _) as [[s' b']|e| |]; cbn [obind]; [apply IH|reflexivity..].
Qed.

(** Spending the inputs succeeds, touches only the transactions they spend, and is
    undone by the undo data on every store that agrees with the result. *)
Lemma spend_inputs_restored ins : forall s, store_ok s -> NoDup (map spends ins) -> Forall (fun i => spendable s (spends i)) ins ->
  exists s1 undos, spend_inputs s ins = Ret (s1, undos) /\ store_ok s1 /\ length undos = length ins /\
    (forall k, Forall (fun i => prev_hash (prevout i) <> k) ins -> store_coins s1 k = store_coins s k) /\
    forall s2, store_ok s2 -> store_restores s2 s1 ->
      exists s3, restore_inputs (rev (combine ins undos)) s2 true = Ret (s3, true) /\ store_ok s3 /\ store_restores s3 s.
Proof.
  induction ins as [|i ins IH]; intros s Hok Hnd Hall; cbn [spend_inputs].
  - exists s, []. do 3 (split; [auto|]). split; [auto|]. intros s2 Hok2 Hr. exists s2. cbn. auto.
  - apply NoDup_cons in Hnd as [Hi Hnd]. apply Forall_cons in Hall as [Hsp Hall].
    destruct (spend_step s _ _ Hok Hsp) as (c & s' & Hk & Hcl & Hm & Hok' & Hk' & Ho').
    destruct (IH s' Hok' Hnd) as (s1 & undos & Hs1 & Hok1 & Hlen & Hframe & Hback).
    { rewrite Forall_forall in Hall |- *. intros j Hj. apply (spend_step_keeps s s' _ _ c _ Hk Hk' Ho'); [|auto].
      intros He. apply Hi. change (spends j = spends i) in He. rewrite <- He. apply list_elem_of_In, in_map, list_elem_of_In, Hj. }
    exists s1, ((Spend c (spends i).2).2.2 :: undos). change (Z.to_nat (prev_n (prevout i))) with (spends i).2.
    change (prev_hash (prevout i)) with (spends i).1. cbn [spends fst snd] in *. rewrite Hm. cbn [obind fst snd oassert]. rewrite Hs1.
    split; [reflexivity|]. split; [exact Hok1|]. split; [cbn [length]; congruence|]. split.
    + intros k Hf. apply Forall_cons in Hf as [Hik Hf]. rewrite (Hframe k Hf), Ho' by congruence. reflexivity.
    + intros s2 Hok2 Hr. destruct (Hback s2 Hok2 Hr) as (s3 & Hre & Hok3 & Hr3). cbn [combine rev].
      rewrite restore_inputs_app, Hre. cbn [obind restore_inputs].
      destruct (restore_step s s' s3 _ _ c Hok3 Hsp Hk Hcl Hk' Ho' Hr3) as (s4 & Hm4 & Hok4 & Hr4).
      exists s4. rewrite Hm4. auto.
Qed.

(** The outputs a transaction added are recognised and removed. *)
Lemma remove_outputs_spec tx h c0 : clean c0 -> unspent (Some c0) = unspent (Some (FromTx tx h)) ->
  (remove_outputs tx h c0) = (CCoins_empty, true).
Proof.
  intros Hcl Hu. unfold remove_outputs, Clear. f_equal. unfold coins_eqb. cbn [unspent] in Hu.
  destruct (IsPruned (FromTx tx h)) eqn:Ef.
  - assert (IsPruned c0 = true) as H0 by (destruct (IsPruned c0); congruence). apply ClearUnspendable_pruned in H0.
    apply orb_true_iff. left. rewrite andb_true_r. destruct (coins_nVersion _ <? 0); exact H0.
  - assert (c0 = FromTx tx h) as -> by (destruct (IsPruned c0); congruence).
    assert (ClearUnspendable (FromTx tx h) = FromTx tx h) as -> by (unfold FromTx; apply ClearUnspendable_idem).
    apply orb_true_iff. right. apply bool_decide_eq_true. destruct (coins_nVersion _ <? 0); [destruct (FromTx tx h)|]; reflexivity.
Qed.

Lemma add_remove s tx hash h : store_ok s -> store_coins s hash = None ->
  exists s1 s2, store_modify unit s hash (fun _ => (FromTx tx h, tt)) = Ret (s1, tt) /\
    RemoveTxOutputsFromCache tx hash h s1 = Ret (s2, true) /\ store_ok s2 /\ store_restores s2 s.
Proof.
  intros Hok Hn. destruct (store_modify_spec unit s hash (fun _ => (FromTx tx h, tt)) Hok) as (c0 & s1 & _ & _ & Hm & Hok1 & Hk1 & Ho1).
  cbn [fst snd] in *. rewrite Cleanup_id in Hk1 by apply Cleanup_clean.
  destruct (store_modify_spec bool s1 hash (remove_outputs tx h) Hok1) as (c1 & s2 & Hcl & Hu & Hm2 & Hok2 & Hk2 & Ho2).
  rewrite Hk1 in Hu. rewrite (remove_outputs_spec tx h c1 Hcl Hu) in Hm2, Hk2.
  exists s1, s2. split; [exact Hm|]. split; [exact Hm2|]. split; [exact Hok2|]. intros k.
  destruct (decide (k = hash)) as [->|Hne]; [rewrite Hk2, Hn; constructor|]. rewrite Ho2, Ho1 by assumption.
  destruct (store_coins s k); constructor. reflexivity.
Qed.

(** Disconnecting a transaction that was just connected succeeds with status
    [OK] and gives every transaction its unspent outputs and metadata back, up to
    coinstake flags that undo data does not restore; where the spent transactions
    are no coinstakes the unspent outputs are exactly those before.  The
    transaction is new, and its inputs, unless it is a coinbase, are distinct
    available outputs of transactions in blocks after the genesis block.  It holds
    for every implementation of the coins view interface. *)
Theorem disconnect_undoes_connect s tx nHeight :
  store_ok s -> store_coins s (tx_hash tx) = None ->
  (IsCoinBase (tx_body tx) = false ->
     NoDup (map spends (vin (tx_body tx))) /\ Forall (fun i => spendable s (spends i)) (vin (tx_body tx))) ->
  exists s1 undos s2,
    UpdateCoinsWithTransaction tx s nHeight = Ret (s1, undos) /\
    UpdateCoinsReversingTransaction (tx_body tx) (tx_hash tx) nHeight s1 (Some undos) = Ret (s2, OK) /\
    store_ok s2 /\ store_restores s2 s /\
    (forall k, (forall c, store_coins s k = Some c -> fCoinStake c = false) -> store_coins s2 k = store_coins s k).
Proof.
  intros Hok Hnew Hins. unfold UpdateCoinsWithTransaction, UpdateCoinsReversingTransaction.
  assert (Hexact : forall s2, store_restores s2 s -> forall k,
    (forall c, store_coins s k = Some c -> fCoinStake c = false) -> store_coins s2 k = store_coins s k).
  { intros s2 Hr k Hst. specialize (Hr k). inversion Hr as [a b Hab Ea Eb|Ea Eb]; [|reflexivity].
    f_equal. apply restores_exact; [exact Hab|apply Hst; auto]. }
  destruct (IsCoinBase (tx_body tx)); cbn [negb obind].
  - destruct (add_remove s (tx_body tx) (tx_hash tx) nHeight Hok Hnew) as (s1 & s2 & Hm & Hr & Hok2 & Hre).
    exists s1, [], s2. rewrite Hm. cbn [obind]. rewrite Hr. cbn [obind]. split; [reflexivity|]. split; [reflexivity|]. auto.
  - destruct (Hins eq_refl) as [Hnd Hall].
    destruct (spend_inputs_restored _ s Hok Hnd Hall) as (s1 & undos & Hs1 & Hok1 & Hlen & Hframe & Hback).
    assert (store_coins s1 (tx_hash tx) = None) as Hnew1.
    { rewrite Hframe; [exact Hnew|]. eapply Forall_impl; [exact Hall|]. intros i (c & Hc & _) He.
      cbn [spends fst] in Hc. congruence. }
    destruct (add_remove s1 (tx_body tx) (tx_hash tx) nHeight Hok1 Hnew1) as (s2 & s3 & Hm & Hr & Hok3 & Hre).
    destruct (Hback s3 Hok3 Hre) as (s4 & Hres & Hok4 & Hre4).
    exists s2, undos, s4. rewrite Hs1. cbn [obind]. rewrite Hm. cbn [obind]. rewrite Hr. cbn [obind oaccess].
    rewrite Hlen, Nat.eqb_refl. cbn [negb]. rewrite Hres. split; [reflexivity|]. split; [reflexivity|]. auto.
Qed.
End Update.

Definition sample_spend : CTransaction :=
  mkTransaction [9] (mkMutable 1 [mkTxIn (mkOutPoint [1] 1) [] SEQUENCE_FINAL; mkTxIn (mkOutPoint [1] 0) [] SEQUENCE_FINAL]
    [mkTxOut 12 [83]; mkTxOut 0 [106]] 0).

Lemma disconnect_undoes_connect_witness :
  exists s1 undos s2,
    UpdateCoinsWithTransaction sample_spend (new_cache (ViewDB sample_db)) 120 = Ret (s1, undos) /\
    UpdateCoinsReversingTransaction (tx_body sample_spend) (tx_hash sample_spend) 120 s1 (Some undos) = Ret (s2, OK) /\
    store_coins s2 [1] = Some sample_coins.
Proof.
  destruct (disconnect_undoes_connect (new_cache (ViewDB sample_db)) sample_spend 120) as (s1 & undos & s2 & H1 & H2 & _ & _ & H3).
  - split; [|exact I]. split; [apply sample_db_ok|]. split; [reflexivity|apply map_Forall_empty].
  - vm_compute. reflexivity.
  - intros _. split; [apply (bool_decide_unpack _); vm_compute; exact I|].
    repeat constructor; (exists sample_coins; split; [vm_compute; reflexivity|]; split; [reflexivity|]; split; [|discriminate]);
      repeat constructor; discriminate.
  - exists s1, undos, s2. split; [exact H1|]. split; [exact H2|]. rewrite H3; [vm_compute; reflexivity|].
    intros c Hc. vm_compute in Hc. injection Hc as <-. reflexivity.
Defined.

(** The coinstake flag of a transaction whose outputs were all spent does not come
    back. *)
Lemma coinstake_flag_lost :
  let c := mkCoins false true [CTxOut_null; mkTxOut 5 [81]] 100 1 in
  let '(c', (_, undo)) := Spend c 1 in
  undo_fCoinStake undo = true /\ fCoinStake (fst (UpdateCoinsForRestoredInputs 1 undo c' true)) = false.
Proof. vm_compute. auto. Qed.
