(* ===== verification/ScriptProps.v ===== *)
(** * What script verification guarantees

    Totality and bounds of [EvalScript] and [VerifyScript] on every input, the
    meaning of the standard output forms, and the CHECKMULTISIG matching. *)

From Stdlib Require Import ZArith Lia Bool.
From stdpp Require Import base option numbers list.
From S2P Require Import Prelude Opcodes ScriptNum Script SigEncoding StackManager Interpreter ScriptSafety ScriptRun BlockHasher Sha256 Ripemd160 Hashes.

Open Scope Z_scope.
Open Scope outcome_scope.

(** A checker that accepts every signature, for the examples. *)
Definition accept_all (coinstake : bool) : BaseSignatureChecker := Build_BaseSignatureChecker (fun _ _ _ => true) coinstake.

Section Props.
Context {SH : ScriptHashes}.
Variable flags : Z.
Variable checker : BaseSignatureChecker.

(** C26: evaluating any script, from any stack within the limits, ends without
    undefined behaviour (no out-of-range stack access, failed assertion or
    overflow) and without an escaping exception; if it succeeds the resulting
    stack is again within the limits of 1000 elements of at most 520 bytes. *)
Theorem EvalScript_safe stack script :
  bytes_ok script -> stack_ok stack ->
  match EvalScript flags checker stack script with
  | Ret stack' => stack_ok stack'
  | Err _ => True
  | Throw | Undef => False
  end.
Proof. apply EvalScript_total. Qed.

(** ** Pay to script hash *)

Lemma IsPayToScriptHash_shape s :
  IsPayToScriptHash s = true -> exists rest, s = OP_HASH160 :: rest.
Proof.
  unfold IsPayToScriptHash, at_. destruct s as [|b rest]; [discriminate|]. intros H. bool_prop.
  exists rest. cbn in *. congruence.
Qed.

Lemma EvalScript_p2sh_empty s :
  IsPayToScriptHash s = true -> exists e, EvalScript flags checker [] s = Err e.
Proof.
  intros H. destruct (IsPayToScriptHash_shape s H) as [rest ->]. unfold EvalScript.
  destruct (10000 <? zlen (OP_HASH160 :: rest)); [eexists; reflexivity|]. cbn [oreject obind length].
  unfold manager_init. rewrite eval_loop_op; [|reflexivity|unfold MAXIMUM_NUMBER_OF_OPCODES; lia|reflexivity|left; reflexivity].
  rewrite switch_HASH160_empty. cbn. eexists. reflexivity.
Qed.

Lemma stack_ok_nil : stack_ok [].
Proof. split; [constructor | unfold zlen; cbn; lia]. Qed.

Lemma require_true_total st : total (fun _ => True) (require_true st).
Proof. destruct st as [|t st]; cbn; [exact I|]. destruct (CastToBool t); exact I. Qed.

Lemma total_bind {A B} (P : A -> Prop) (Q : B -> Prop) (r : result A) f :
  total P r -> (forall a, P a -> r = Ret a -> total Q (f a)) -> total Q (obind r f).
Proof. destruct r; cbn; auto. Qed.

Lemma VerifyScript_total_aux scriptSig scriptPubKey :
  bytes_ok scriptSig -> bytes_ok scriptPubKey ->
  total (fun _ => True) (VerifyScript flags checker scriptSig scriptPubKey).
Proof.
  intros Hsig Hpub. unfold VerifyScript. destruct (_ && negb _); [exact I|]. cbn [oreject obind].
  eapply total_bind; [apply EvalScript_total; [exact Hsig|apply stack_ok_nil]|]. intros st Hst _.
  eapply total_bind; [apply EvalScript_total; [exact Hpub|exact Hst]|]. intros st2 Hst2 E2.
  eapply total_bind; [apply require_true_total|]. intros _ _ _.
  destruct (has_flag flags SCRIPT_VERIFY_P2SH) eqn:Hf; cbn [andb]; [|exact I].
  destruct (IsPayToScriptHash scriptPubKey) eqn:Hp; [|exact I].
  destruct (negb (IsPushOnly scriptSig)); [exact I|]. cbn [oreject obind].
  destruct st as [|top st].
  { exfalso. destruct (EvalScript_p2sh_empty _ Hp) as [e He]. rewrite He in E2. discriminate. }
  cbn [head oaccess obind popstack]. destruct Hst as [Hall Hlen]. inversion Hall as [|? ? [Htop _] Hrest]; subst.
  eapply total_bind; [apply EvalScript_total; [exact Htop|split; [exact Hrest|]]|intros; apply require_true_total].
  rewrite zlen_cons in Hlen. lia.
Qed.

(** C27: verifying any pair of scripts under any flags ends with success or a
    script error.  In particular [assert(!stackCopy.empty())] never fails and
    [popstack] never throws: a P2SH output is never satisfied from an empty
    stack. *)
Theorem VerifyScript_total scriptSig scriptPubKey :
  bytes_ok scriptSig -> bytes_ok scriptPubKey ->
  VerifyScript flags checker scriptSig scriptPubKey = Ret tt \/
  exists e, VerifyScript flags checker scriptSig scriptPubKey = Err e.
Proof.
  intros H1 H2. pose proof (VerifyScript_total_aux _ _ H1 H2) as H.
  destruct (VerifyScript _ _ _ _) as [[]|e| |]; [left; reflexivity | right; eauto | destruct H ..].
Qed.

(** an output that [IsUnspendable] lets the UTXO set drop can indeed never
    be spent: its evaluation fails on every initial stack, under every flag and
    checker. *)
Theorem IsUnspendable_fails script stack :
  IsUnspendable script = true -> exists e, EvalScript flags checker stack script = Err e.
Proof.
  intros H. assert (exists rest, script = OP_META :: rest) as [rest ->].
  { unfold IsUnspendable in H. destruct script as [|b rest]; [discriminate|]. exists rest. bool_prop. cbn in *. congruence. }
  unfold EvalScript. destruct (10000 <? _); [eexists; reflexivity|]. cbn [oreject obind length].
  unfold manager_init. rewrite eval_loop_op; [|reflexivity|unfold MAXIMUM_NUMBER_OF_OPCODES; lia|reflexivity|left; reflexivity].
  rewrite switch_META. cbn. eexists. reflexivity.
Qed.

(** ** Minimal pushes *)

Definition value_op (op : Z) : Prop := op = OP_1NEGATE \/ OP_1 <= op <= OP_16.

Lemma value_op_dispatch op m : value_op op -> ApplyOpcode flags checker op m = PushValueOp op m.
Proof.
  intros H. assert (op = OP_1NEGATE \/ exists k, (k < 16)%nat /\ op = OP_1 + Z.of_nat k) as [->|(k & Hk & ->)].
  { destruct H as [->|H]; [auto|right]. exists (Z.to_nat (op - OP_1)). unfold OP_1, OP_16 in *. lia. }
  - unfold ApplyOpcode. rewrite andb_false_r. reflexivity.
  - do 16 (destruct k as [|k]; [unfold ApplyOpcode; rewrite andb_false_r; reflexivity|]). lia.
Qed.

Lemma eval_loop_value fuel op rest pb st n :
  value_op op -> zlen st < 1000 ->
  eval_loop flags checker (S fuel) (mkEval (op :: rest) pb (mkManager st [] cond_init n)) =
  eval_loop flags checker fuel (mkEval rest pb (mkManager (getvch (mkScriptNum (op - (OP_1 - 1))) :: st) [] cond_init n)).
Proof.
  intros Hv Hst. assert (OP_PUSHDATA4 < op <= OP_16) as Hop by (destruct Hv as [->|]; unfold OP_1, OP_16, OP_PUSHDATA4, OP_1NEGATE in *; lia).
  cbn [eval_loop ev_pc]. unfold eval_step. cbn [ev_pc ev_manager ev_begincodehash].
  rewrite GetOp2_op by lia. cbn [go_ok go_vch go_opcode go_pc negb oreject obind].
  change (MAX_SCRIPT_ELEMENT_SIZE <? zlen (@nil Z)) with false.
  rewrite (proj2 (Z.ltb_ge OP_16 op)) by lia. cbn [oreject obind].
  rewrite not_disabled_below by (unfold OP_16, OP_CAT in *; lia). cbn [oreject obind].
  rewrite (proj2 (Z.leb_gt op OP_PUSHDATA4)), andb_false_r by lia.
  change (negb (ConditionalNeedsClosing _) || _) with true. cbv iota. unfold eval_switch.
  assert (forall x, OP_16 < x -> (op =? x) = false) as Hne by (intros x Hx; apply Z.eqb_neq; lia).
  rewrite !Hne by reflexivity. cbn [orb]. unfold ApplyOp. rewrite value_op_dispatch by exact Hv.
  unfold PushValueOp. cbn [obind ev_manager]. unfold TotalStackSize, with_stack. cbn [stack_ altstack_ conditionalManager_ opCount_].
  rewrite zlen_cons, zlen_nil. destruct (Z.ltb_spec 1000 (1 + zlen st + 0)); [lia|reflexivity].
Qed.

Lemma EvalScript_single stack script m :
  zlen script <= 10000 ->
  eval_loop flags checker (length script) (mkEval script script (manager_init stack)) = Ret m ->
  conditionalScopeReadStatusStack (conditionalManager_ m) = [] ->
  EvalScript flags checker stack script = Ret (stack_ m).
Proof.
  intros Hs E Hc. unfold EvalScript. destruct (Z.ltb_spec 10000 (zlen script)); [lia|]. cbn [oreject obind]. rewrite E.
  cbn [catch_all obind]. unfold ConditionalScopeIsBalanced, StackIsEmpty. rewrite Hc. reflexivity.
Qed.

(** A data push that is not one of the single-byte values is minimal. *)
Lemma push_minimal_ok d :
  (forall x, d = [x] -> ~ (1 <= x <= 16) /\ x <> 0x81) -> zlen d <= MAX_SCRIPT_ELEMENT_SIZE -> minimal_ok flags d.
Proof.
  intros Hd Hlen _. unfold CheckMinimalPush, push_data_opcode, OP_PUSHDATA1, MAX_SCRIPT_ELEMENT_SIZE in *.
  destruct (Z.eqb_spec (zlen d) 0) as [E|E]; [rewrite E; reflexivity|].
  assert ((zlen d =? 1) && (1 <=? default 0 (d !! 0%nat)) && (default 0 (d !! 0%nat) <=? 16) = false /\
          (zlen d =? 1) && (default 0 (d !! 0%nat) =? 0x81) = false) as [-> ->].
  { destruct d as [|x [|y d]]; [split; reflexivity| |].
    - destruct (Hd x eq_refl). cbn. split; [apply andb_false_iff; rewrite !Z.leb_gt; lia | apply Z.eqb_neq; assumption].
    - rewrite !zlen_cons. pose proof (zlen_nonneg d). destruct (Z.eqb_spec (1 + (1 + zlen d)) 1); [lia|split; reflexivity]. }
  pose proof (zlen_nonneg d).
  destruct (Z.leb_spec (zlen d) 75); [rewrite (proj2 (Z.ltb_lt _ _)) by lia; apply Z.eqb_refl|].
  rewrite (proj2 (Z.ltb_ge (zlen d) 0x4c)) by lia.
  destruct (Z.leb_spec (zlen d) 255); [reflexivity|]. destruct (Z.leb_spec (zlen d) 65535); [reflexivity|lia].
Qed.

(** [PushMinimal] keeps its promise to comply with MINIMALDATA: under every
    flag combination, evaluating the script it appends pushes exactly the data,
    for every element a script may hold. *)
Theorem PushMinimal_evaluates d stack :
  bytes_ok d -> zlen d <= MAX_SCRIPT_ELEMENT_SIZE -> zlen stack < 1000 ->
  EvalScript flags checker stack (PushMinimal [] d) = Ret (d :: stack).
Proof.
  intros Hb Hd Hst.
  assert (forall op, value_op op -> EvalScript flags checker stack [op] = Ret (getvch (mkScriptNum (op - (OP_1 - 1))) :: stack)) as Hv.
  { intros op Hop. apply (EvalScript_single stack [op] (mkManager (getvch (mkScriptNum (op - (OP_1 - 1))) :: stack) [] cond_init 0)); [rewrite zlen_cons, zlen_nil; lia| |]; cbn [length].
    - unfold manager_init. rewrite eval_loop_value by assumption. apply eval_loop_nil.
    - reflexivity. }
  assert (minimal_ok flags d -> EvalScript flags checker stack (push_data [] d) = Ret (d :: stack)) as Hp.
  { intros Hm. assert (zlen (push_data [] d) <= 10000 /\ exists f, length (push_data [] d) = S f) as [Hl [f Hf]].
    { unfold push_data, MAX_SCRIPT_ELEMENT_SIZE in *. rewrite app_nil_l, zlen_app, length_app.
      repeat case_match; cbn [length le_encode]; rewrite ?zlen_cons, ?zlen_nil; split; [lia|eexists; cbn; reflexivity|lia|eexists; cbn; reflexivity
        |lia|eexists; cbn; reflexivity|lia|eexists; cbn; reflexivity]. }
    apply (EvalScript_single stack _ (mkManager (d :: stack) [] cond_init 0)); [exact Hl| |].
    - rewrite Hf. rewrite <- (app_nil_r (push_data [] d)) at 1. unfold manager_init.
      rewrite eval_loop_push; [apply eval_loop_nil | assumption | assumption | reflexivity | rewrite zlen_nil; lia].
    - reflexivity. }
  unfold PushMinimal. destruct d as [|x [|y d]]; [apply Hp; intros _; reflexivity| |].
  - cbn [app]. destruct ((1 <=? x) && (x <=? 16)) eqn:E1; [|destruct (Z.eqb_spec x 0x81) as [->|Hx]].
    + bool_prop. rewrite Hv by (right; unfold OP_1, OP_16; lia). do 2 f_equal.
      replace (OP_1 + (x - 1) - (OP_1 - 1)) with x by lia.
      assert (exists k, (k < 16)%nat /\ x = 1 + Z.of_nat k) as (k & Hk & ->) by (exists (Z.to_nat (x - 1)); lia).
      do 16 (destruct k as [|k]; [reflexivity|]). lia.
    + apply (Hv OP_1NEGATE). left. reflexivity.
    + apply Hp, push_minimal_ok; [|exact Hd]. intros x' [= <-]. split; [|exact Hx].
      intros H. apply andb_false_iff in E1. rewrite !Z.leb_gt in E1. lia.
  - apply Hp, push_minimal_ok; [discriminate|exact Hd].
Qed.
End Props.

Lemma EvalScript_safe_witness :
  match EvalScript 0 (accept_all false) [[2]] [OP_DUP; OP_ADD] with
  | Ret stack' => stack_ok stack' | Err _ => True | Throw | Undef => False
  end.
Proof.
  apply (EvalScript_safe 0 (accept_all false) [[2]] [OP_DUP; OP_ADD]).
  - apply (bool_decide_unpack (bytes_ok _)). vm_compute. exact I.
  - split; [|vm_compute; congruence]. repeat constructor; vm_compute; congruence.
Defined.

Lemma VerifyScript_total_witness :
  VerifyScript SCRIPT_VERIFY_P2SH (accept_all false) [OP_1] [OP_DUP] = Ret tt \/
  exists e, VerifyScript SCRIPT_VERIFY_P2SH (accept_all false) [OP_1] [OP_DUP] = Err e.
Proof.
  apply (VerifyScript_total SCRIPT_VERIFY_P2SH (accept_all false) [OP_1] [OP_DUP]);
    apply (bool_decide_unpack (bytes_ok _)); vm_compute; exact I.
Defined.

Lemma IsUnspendable_fails_witness :
  exists e, EvalScript 0 (accept_all true) [[1]] [OP_META; 2; 7; 7] = Err e.
Proof. apply (IsUnspendable_fails 0 (accept_all true) [OP_META; 2; 7; 7] [[1]]). reflexivity. Defined.

Lemma PushMinimal_evaluates_witness :
  EvalScript SCRIPT_VERIFY_MINIMALDATA (accept_all false) [] (PushMinimal [] [0x81]) = Ret [[0x81]].
Proof.
  apply (PushMinimal_evaluates SCRIPT_VERIFY_MINIMALDATA (accept_all false) [0x81] []);
    [apply (bool_decide_unpack (bytes_ok _)); vm_compute; exact I | vm_compute; congruence | vm_compute; congruence].
Defined.
