(* ===== verification/MultiSig.v ===== *)
(** * The CHECKMULTISIG matching

    [SignatureCheckOp] walks signatures and keys in one pass and gives up as soon
    as fewer keys than signatures are left.  The specification is declarative: the
    signatures can be assigned, in order, to a subsequence of the keys. *)

From Stdlib Require Import ZArith Lia Bool.
From stdpp Require Import base option numbers list.
From S2P Require Import Prelude Opcodes ScriptNum Script SigEncoding StackManager Interpreter ScriptSafety.

Open Scope Z_scope.
Open Scope outcome_scope.

Section MultiSig.
Variable flags : Z.
Variable checker : BaseSignatureChecker.

(** Each signature is valid under a key of its own, in the order of the keys. *)
Definition signatures_match (code : CScript) (sigs keys : list valtype) : Prop :=
  exists ks, sublist ks keys /\ Forall2 (fun s k => CheckSig checker s k code = true) sigs ks.

(** The one-pass strategy. *)
Fixpoint greedy (code : CScript) (sigs keys : list valtype) : bool :=
  match sigs, keys with
  | [], _ => true
  | _ :: _, [] => false
  | s :: ss, k :: ks => if CheckSig checker s k code then greedy code ss ks else greedy code sigs ks
  end.

Lemma greedy_sound code keys : forall sigs, greedy code sigs keys = true -> signatures_match code sigs keys.
Proof.
  induction keys as [|k ks IH]; intros [|s ss] H; cbn in H; try discriminate;
    try (exists []; split; [apply sublist_nil_l | constructor]).
  destruct (CheckSig checker s k code) eqn:E.
  - destruct (IH ss H) as (l & Hl & Hf). exists (k :: l). split; [apply sublist_skip, Hl | constructor; assumption].
  - destruct (IH (s :: ss) H) as (l & Hl & Hf). exists l. split; [apply sublist_cons, Hl | assumption].
Qed.

(** Dropping the first signature of a matching keeps a matching. *)
Lemma signatures_match_tail code s ss keys :
  signatures_match code (s :: ss) keys -> signatures_match code ss keys.
Proof.
  intros (l & Hl & Hf). inversion Hf as [|? k ? l' Hs Hf']; subst. exists l'. split; [|assumption].
  etrans; [|exact Hl]. apply sublist_cons. reflexivity.
Qed.

Lemma greedy_complete code keys : forall sigs, signatures_match code sigs keys -> greedy code sigs keys = true.
Proof.
  induction keys as [|k ks IH]; intros [|s ss] Hm; cbn; try reflexivity; destruct Hm as (l & Hl & Hf).
  - apply sublist_nil_r in Hl. subst. inversion Hf.
  - inversion Hf as [|? k' ? l' Hs Hf']; subst. inversion Hl as [|? ? ? Hl'|? ? ? Hl']; subst.
    + rewrite Hs. apply IH. exists l'. auto.
    + destruct (CheckSig checker s k code); apply IH.
      * apply (signatures_match_tail code s). exists (k' :: l'). auto.
      * exists (k' :: l'). auto.
Qed.

Lemma greedy_too_few code keys : forall sigs, (length keys < length sigs)%nat -> greedy code sigs keys = false.
Proof.
  induction keys as [|k ks IH]; intros [|s ss] H; cbn in *; try lia; try reflexivity.
  destruct (CheckSig _ _ _ _); apply IH; cbn; lia.
Qed.

Definition encodings_ok (sigs keys : list valtype) : Prop :=
  Forall (fun s => CheckSignatureEncoding s flags = Ret tt) sigs /\
  Forall (fun k => CheckPubKeyEncoding k flags = Ret tt) keys.

Lemma stackTop_drop st d x l : 0 <= d -> drop (Z.to_nat d) st = x :: l -> stackTop st d = Ret x.
Proof.
  intros Hd E. unfold stackTop. destruct (Z.ltb_spec d 0); [lia|].
  replace (st !! Z.to_nat d) with (Some x); [reflexivity|].
  rewrite <- (Nat.add_0_r (Z.to_nat d)), <- lookup_drop, E. reflexivity.
Qed.

Lemma drop_step {A} (st : list A) d x l : 0 <= d -> drop (Z.to_nat d) st = x :: l -> drop (Z.to_nat (d + 1)) st = l.
Proof.
  intros Hd E. replace (Z.to_nat (d + 1)) with (Z.to_nat d + 1)%nat by lia. rewrite <- drop_drop, E. reflexivity.
Qed.

Lemma multisig_loop_greedy fuel : forall st code sigs keys r1 r2 isig ikey,
  1 <= isig -> 1 <= ikey ->
  drop (Z.to_nat (isig - 1)) st = sigs ++ r1 -> drop (Z.to_nat (ikey - 1)) st = keys ++ r2 ->
  (length sigs <= length keys < fuel)%nat -> encodings_ok sigs keys ->
  multisig_loop flags checker fuel st code isig ikey (zlen sigs) (zlen keys) = Ret (greedy code sigs keys).
Proof.
  induction fuel as [|fuel IH]; intros st code sigs keys r1 r2 isig ikey Hi Hk Es Ek Hlen [Hes Hek]; [lia|].
  destruct sigs as [|s ss]; [destruct keys; reflexivity|]. destruct keys as [|k ks]; [cbn in Hlen; lia|].
  cbn [multisig_loop]. rewrite !zlen_cons.
  destruct (Z.ltb_spec 0 (1 + zlen ss)); [|pose proof (zlen_nonneg ss); lia]. cbn [negb].
  inversion Hes as [|? ? Hs Hss]; inversion Hek as [|? ? Hk' Hks]; subst.
  rewrite (stackTop_drop st (isig - 1) _ _ ltac:(lia) Es), (stackTop_drop st (ikey - 1) _ _ ltac:(lia) Ek). cbn [obind].
  rewrite Hs, Hk'. cbn [obind greedy]. cbv zeta. cbn [length] in Hlen.
  replace (ikey + 1) with (ikey - 1 + 1 + 1) by lia. replace (1 + zlen ks - 1) with (zlen ks) by lia.
  pose proof (drop_step st (ikey - 1) k (ks ++ r2) ltac:(lia) Ek) as Ek'.
  destruct (CheckSig checker s k code).
  - replace (1 + zlen ss - 1) with (zlen ss) by lia.
    destruct (Z.ltb_spec (zlen ks) (zlen ss)) as [Hlt|Hge]; unfold zlen in *.
    + rewrite greedy_too_few by lia. reflexivity.
    + replace (isig + 1) with (isig - 1 + 1 + 1) by lia. pose proof (drop_step st (isig - 1) s (ss ++ r1) ltac:(lia) Es) as Es'.
      apply (IH st code ss ks r1 r2); try lia; [| |split; assumption]; [rewrite <- Es'|rewrite <- Ek']; f_equal; lia.
  - rewrite <- (zlen_cons s ss). destruct (Z.ltb_spec (zlen ks) (zlen (s :: ss))) as [Hlt|Hge]; unfold zlen in *.
    + rewrite greedy_too_few by lia. reflexivity.
    + apply (IH st code (s :: ss) ks r1 r2); try lia; try assumption; [|split; assumption]. rewrite <- Ek'. f_equal. lia.
Qed.

(** Every signature is removed from the code it signs. *)
Definition code_without (code : CScript) (sigs : list valtype) : CScript :=
  fold_left (fun c s => (FindAndDelete c (push_data [] s)).1) sigs code.

Lemma drop_signatures_fold sigs : forall k isig st code r,
  0 <= isig + k - 1 -> drop (Z.to_nat (isig + k - 1)) st = sigs ++ r ->
  drop_signatures (length sigs) k isig st code = Ret (code_without code sigs).
Proof.
  induction sigs as [|s ss IH]; intros k isig st code r Hk E; [reflexivity|]. cbn [length drop_signatures].
  rewrite (stackTop_drop st _ s (ss ++ r) Hk E). cbn [obind].
  apply (IH (k + 1) isig st _ r); [lia|]. rewrite <- (drop_step st (isig + k - 1) s (ss ++ r) Hk E). f_equal. lia.
Qed.

Lemma require_size_ret (st : list valtype) n : n <= zlen st -> require_size st n = Ret tt.
Proof. intros H. unfold require_size. destruct (Z.ltb_spec (zlen st) n); [lia|reflexivity]. Qed.

Lemma reject_ret c (e : ScriptError) : c = false -> oreject c e = Ret tt.
Proof. intros ->. reflexivity. Qed.

Lemma drop_mid {A} (l1 l2 : list A) n : n = length l1 -> drop n (l1 ++ l2) = l2.
Proof. intros ->. apply drop_app_length. Qed.

Lemma CheckMultiSigOp_spec code m keys sigs dummy rest :
  stack_ m = getvch (mkScriptNum (zlen keys)) :: keys ++ getvch (mkScriptNum (zlen sigs)) :: sigs ++ dummy :: rest ->
  zlen sigs <= zlen keys <= 20 -> 0 <= opCount_ m -> opCount_ m + zlen keys <= MAXIMUM_NUMBER_OF_OPCODES ->
  encodings_ok sigs keys -> (has_flag flags SCRIPT_VERIFY_NULLDUMMY = true -> dummy = []) ->
  CheckMultiSigOp flags checker OP_CHECKMULTISIG code m =
  Ret (mkManager (vch_of_bool (greedy (code_without code sigs) sigs keys) :: rest)
         (altstack_ m) (conditionalManager_ m) (opCount_ m + zlen keys)).
Proof.
  intros Hst Hn Hc0 Hc Henc Hdummy. unfold CheckMultiSigOp. rewrite Hst.
  pose proof (zlen_nonneg sigs). pose proof (zlen_nonneg rest).
  set (vk := getvch (mkScriptNum (zlen keys))). set (vs := getvch (mkScriptNum (zlen sigs))).
  set (st := vk :: keys ++ vs :: sigs ++ dummy :: rest).
  assert (zlen st = 3 + zlen keys + zlen sigs + zlen rest) as Hlen by (unfold st; zlen_simpl; lia).
  assert (drop (Z.to_nat (2 + zlen keys - 1)) st = vs :: sigs ++ dummy :: rest) as Dvs
    by (apply (drop_mid (vk :: keys)); unfold zlen; cbn [length]; lia).
  assert (drop (Z.to_nat (2 + zlen keys + 1 - 1)) st = sigs ++ dummy :: rest) as Dsig.
  { replace (2 + zlen keys + 1 - 1) with (2 + zlen keys - 1 + 1) by lia.
    eapply (drop_step st); [unfold zlen; lia|exact Dvs]. }
  cbv zeta. change (1 + 1) with 2. change (1 - 1) with 0.
  rewrite (require_size_ret st 1) by lia. cbn [obind].
  change (stackTop st 0) with (Ret (E := ScriptError) vk). cbn [obind].
  unfold vk at 1. rewrite number_roundtrip by lia. cbn [obind].
  assert (getint (mkScriptNum (zlen keys)) = zlen keys) as Gk by (apply getint_small; unfold INT_MIN, INT_MAX; lia).
  assert (getint (mkScriptNum (zlen sigs)) = zlen sigs) as Gs by (apply getint_small; unfold INT_MIN, INT_MAX; lia).
  rewrite Gk. rewrite reject_ret by (apply orb_false_iff; rewrite !Z.ltb_ge; lia). cbn [obind].
  unfold with_opCount, u32. cbn [opCount_ stack_ altstack_ conditionalManager_]. rewrite Z.mod_small by (unfold MAXIMUM_NUMBER_OF_OPCODES in *; lia).
  rewrite reject_ret by (rewrite Z.ltb_ge; lia). cbn [obind].
  rewrite (require_size_ret st (2 + zlen keys)) by lia. cbn [obind].
  rewrite (stackTop_drop st (2 + zlen keys - 1) vs _ ltac:(lia) Dvs). cbn [obind].
  unfold vs at 1. rewrite number_roundtrip by lia. cbn [obind]. rewrite Gs.
  rewrite reject_ret by (apply orb_false_iff; rewrite !Z.ltb_ge; lia). cbn [obind].
  rewrite (require_size_ret st) by lia. cbn [obind].
  replace (Z.to_nat (zlen sigs)) with (length sigs) by (unfold zlen; lia).
  rewrite (drop_signatures_fold sigs 0 _ st code (dummy :: rest)) by
    (try lia; replace (2 + zlen keys + 1 + 0 - 1) with (2 + zlen keys + 1 - 1) by lia; exact Dsig).
  cbn [obind].
  rewrite (multisig_loop_greedy _ st _ sigs keys (dummy :: rest) (vs :: sigs ++ dummy :: rest)); try assumption;
    [| lia | lia | reflexivity | unfold zlen in *; lia].
  cbn [obind]. rewrite pop_times_drop by (unfold zlen in *; lia). cbn [obind].
  replace (drop _ st) with (dummy :: rest).
  2: { symmetry. replace st with ((vk :: keys ++ vs :: sigs) ++ dummy :: rest) by (unfold st; cbn; rewrite <- app_assoc; reflexivity).
       apply drop_mid. unfold zlen. cbn [length]. rewrite length_app. cbn [length]. lia. }
  rewrite (require_size_ret (dummy :: rest) 1) by (rewrite zlen_cons; lia). cbn [obind].
  change (stackTop (dummy :: rest) 0) with (Ret (E := ScriptError) dummy). cbn [obind].
  rewrite reject_ret; [reflexivity|]. destruct (has_flag flags SCRIPT_VERIFY_NULLDUMMY); [|reflexivity].
  rewrite Hdummy by reflexivity. reflexivity.
Qed.

(** C30: OP_CHECKMULTISIG.  For [m] signatures and [n] keys within the limits and
    with acceptable encodings, the operator replaces its arguments (and the dummy
    element) by a flag that is true exactly when the signatures can be assigned in
    order to distinct keys under which they are valid for the script code with all
    the signatures removed; the keys are charged to the operation count. *)
Theorem CheckMultiSig_matching code m keys sigs dummy rest :
  stack_ m = getvch (mkScriptNum (zlen keys)) :: keys ++ getvch (mkScriptNum (zlen sigs)) :: sigs ++ dummy :: rest ->
  zlen sigs <= zlen keys <= 20 -> 0 <= opCount_ m -> opCount_ m + zlen keys <= MAXIMUM_NUMBER_OF_OPCODES ->
  encodings_ok sigs keys -> (has_flag flags SCRIPT_VERIFY_NULLDUMMY = true -> dummy = []) ->
  exists ok, CheckMultiSigOp flags checker OP_CHECKMULTISIG code m =
      Ret (mkManager (vch_of_bool ok :: rest) (altstack_ m) (conditionalManager_ m) (opCount_ m + zlen keys)) /\
    (ok = true <-> signatures_match (code_without code sigs) sigs keys).
Proof.
  intros. eexists. split; [eapply CheckMultiSigOp_spec; eassumption|].
  split; [apply greedy_sound | apply greedy_complete].
Qed.

End MultiSig.

(** Two of three, in order; the reverse order does not match. *)
Definition tag_checker : BaseSignatureChecker := Build_BaseSignatureChecker (fun s k _ => bool_decide (s = k)) false.

Lemma CheckMultiSig_matching_witness :
  exists ok, CheckMultiSigOp 0 tag_checker OP_CHECKMULTISIG [] (manager_init [[3]; [1]; [2]; [3]; [2]; [1]; [3]; []]) =
      Ret (mkManager [vch_of_bool ok] [] cond_init 3) /\
    (ok = true <-> signatures_match tag_checker (code_without [] [[1]; [3]]) [[1]; [3]] [[1]; [2]; [3]]).
Proof.
  apply (CheckMultiSig_matching 0 tag_checker [] (manager_init [[3]; [1]; [2]; [3]; [2]; [1]; [3]; []])
           [[1]; [2]; [3]] [[1]; [3]] [] []); try (vm_compute; congruence); try (split; vm_compute; congruence).
  split; repeat constructor.
Defined.
