(* ===== verification/StakingVault.v ===== *)
(** * Staking vaults: [script/StakingVaultScript.cpp]

    The vault output lets the owner's key spend freely and the vault manager's
    key spend only in a coinstake.  The recogniser is exact, and the evaluation
    of a vault script enforces the two ways to spend. *)

From Stdlib Require Import ZArith Lia Bool.
From stdpp Require Import base option numbers list.
From S2P Require Import Prelude Opcodes ScriptNum Script SigEncoding StackManager Interpreter ScriptSafety ScriptRun BlockHasher Sha256 Ripemd160 Hashes.

Open Scope Z_scope.
Open Scope outcome_scope.

(** The macro [STAKING_VAULT]; its arguments are the bytes that [<<] appends for
    a key hash (a push) or for a template opcode. *)
Definition STAKING_VAULT (ownerKeyHash vaultKeyHash : list Z) : CScript :=
  [OP_IF] ++ ownerKeyHash ++
  [OP_ELSE; OP_REQUIRE_COINSTAKE] ++ vaultKeyHash ++
  [OP_ENDIF; OP_OVER; OP_HASH160; OP_EQUALVERIFY; OP_CHECKSIG].

Definition CreateStakingVaultScript (ownerKeyHash vaultKeyHash : valtype) : CScript :=
  STAKING_VAULT (push_data [] ownerKeyHash) (push_data [] vaultKeyHash).

Definition GetStakingVaultScriptTemplate : CScript := STAKING_VAULT [OP_PUBKEYHASH] [OP_PUBKEYHASH].

(** [erase(begin()+i, begin()+j)] and [insert(begin()+i, b)]. *)
Definition erase (s : CScript) (i j : nat) : CScript := take i s ++ drop j s.
Definition insert (s : CScript) (i : nat) (b : Z) : CScript := take i s ++ b :: drop i s.

Definition IsStakingVaultScript (scriptPubKey : CScript) : bool :=
  let stakingVaultScriptSize := zlen GetStakingVaultScriptTemplate + 2 * 20 in
  if negb (zlen scriptPubKey =? stakingVaultScriptSize) then false
  else
    let copyScript := scriptPubKey in
    let keyPushSizeMatch := (nth 1 copyScript 0 =? 0x14) && (nth 24 copyScript 0 =? 0x14) in
    let copyScript := erase copyScript 24 45 in
    let copyScript := insert copyScript 24 OP_PUBKEYHASH in
    let copyScript := erase copyScript 1 22 in
    let copyScript := insert copyScript 1 OP_PUBKEYHASH in
    bool_decide (copyScript = GetStakingVaultScriptTemplate) && keyPushSizeMatch.

(** [None] is [return false] with the pair reset. *)
Definition GetStakingVaultPubkeyHashes (scriptPubKey : CScript) : option (valtype * valtype) :=
  if IsStakingVaultScript scriptPubKey
  then Some (take 20 (drop 2 scriptPubKey), take 20 (drop 25 scriptPubKey))
  else None.

(** ** The recogniser *)

Lemma push_20 h : length h = 20%nat -> push_data [] h = 0x14 :: h.
Proof.
  intros H. unfold push_data, zlen. rewrite H. reflexivity.
Qed.

Lemma list_20 (h : list Z) : length h = 20%nat ->
  exists a b c d e f g i j k l m n o p q r s t u, h = [a; b; c; d; e; f; g; i; j; k; l; m; n; o; p; q; r; s; t; u].
Proof. intros H. do 20 (destruct h as [|? h]; [discriminate|]). destruct h; [|discriminate]. repeat eexists. Qed.

Lemma vault_recognised o v :
  length o = 20%nat -> length v = 20%nat -> GetStakingVaultPubkeyHashes (CreateStakingVaultScript o v) = Some (o, v).
Proof.
  intros Ho Hv. unfold CreateStakingVaultScript. rewrite !push_20 by assumption.
  destruct (list_20 o Ho) as (? & ? & ? & ? & ? & ? & ? & ? & ? & ? & ? & ? & ? & ? & ? & ? & ? & ? & ? & ? & ->).
  destruct (list_20 v Hv) as (? & ? & ? & ? & ? & ? & ? & ? & ? & ? & ? & ? & ? & ? & ? & ? & ? & ? & ? & ? & ->).
  reflexivity.
Qed.

(** Cutting a script at the two key hashes. *)
Lemma split_50 (s : list Z) : length s = 50%nat ->
  exists a b o c d e v w, s = a :: b :: o ++ c :: d :: e :: v ++ w /\
    length o = 20%nat /\ length v = 20%nat /\ length w = 5%nat.
Proof.
  intros H. do 2 (destruct s as [|? s]; [discriminate|]).
  rewrite <- (take_drop 20 s). remember (take 20 s) as o. remember (drop 20 s) as s'.
  assert (length o = 20%nat) by (subst; rewrite length_take; simpl in H; lia).
  assert (length s' = 28%nat) as Hs' by (subst; rewrite length_drop; simpl in H; lia).
  do 3 (destruct s' as [|? s']; [discriminate|]).
  rewrite <- (take_drop 20 s'). do 8 eexists. split; [reflexivity|].
  rewrite length_take, length_drop. simpl in Hs'. lia.
Qed.

Lemma vault_shape s o v :
  GetStakingVaultPubkeyHashes s = Some (o, v) ->
  s = CreateStakingVaultScript o v /\ length o = 20%nat /\ length v = 20%nat.
Proof.
  unfold GetStakingVaultPubkeyHashes, IsStakingVaultScript.
  destruct (Z.eqb_spec (zlen s) (zlen GetStakingVaultScriptTemplate + 2 * 20)) as [Hlen|]; [|discriminate]. cbn [negb].
  change (zlen GetStakingVaultScriptTemplate + 2 * 20) with 50 in Hlen.
  destruct (split_50 s) as (a & b & o' & c & d & e & v' & w & -> & Ho & Hv & Hw); [unfold zlen in Hlen; lia|].
  destruct (list_20 o' Ho) as (? & ? & ? & ? & ? & ? & ? & ? & ? & ? & ? & ? & ? & ? & ? & ? & ? & ? & ? & ? & ->).
  destruct (list_20 v' Hv) as (? & ? & ? & ? & ? & ? & ? & ? & ? & ? & ? & ? & ? & ? & ? & ? & ? & ? & ? & ? & ->).
  do 5 (destruct w as [|? w]; [discriminate|]). destruct w; [|discriminate].
  match goal with |- context [bool_decide (?P)] => destruct (decide P) as [E|E];
    [rewrite (bool_decide_true P) by exact E | rewrite (bool_decide_false P) by exact E; discriminate] end.
  cbn in E. injection E as -> -> -> -> -> -> -> ->. cbn [nth app]. intros H.
  destruct (Z.eqb_spec b 20) as [->|]; [|discriminate]. destruct (Z.eqb_spec e 20) as [->|]; [|discriminate].
  injection H as <- <-. auto.
Qed.

(** the vault recogniser is exact: it accepts precisely the scripts that
    [CreateStakingVaultScript] builds from two 20-byte hashes, and returns those
    two hashes (owner first). *)
Theorem vault_roundtrip s o v :
  GetStakingVaultPubkeyHashes s = Some (o, v) <->
  s = CreateStakingVaultScript o v /\ length o = 20%nat /\ length v = 20%nat.
Proof.
  split; [apply vault_shape|]. intros (-> & Ho & Hv). apply vault_recognised; assumption.
Qed.

Lemma vault_roundtrip_example :
  GetStakingVaultPubkeyHashes (CreateStakingVaultScript (replicate 20 1) (replicate 20 2)) =
  Some (replicate 20 1, replicate 20 2).
Proof. vm_compute. reflexivity. Qed.

(** ** Spending a vault *)

Section Spend.
Context {SH : ScriptHashes}.
Variable flags : Z.
Variable checker : BaseSignatureChecker.

Abbreviation eval_loop := (eval_loop flags checker).
Abbreviation eval_switch := (eval_switch flags checker).

Ltac op_inv E s Es :=
  apply eval_loop_op_inv in E as (s & Es & E);
    [ | reflexivity | unfold MAXIMUM_NUMBER_OF_OPCODES; lia | reflexivity
      | first [left; reflexivity | right; unfold OP_IF, OP_ENDIF, OP_ELSE; lia] ].

(** The scopes that occur on the way. *)
Lemma open_scope b : OpenScope cond_init b = mkCond [b] (negb b).
Proof. reflexivity. Qed.
Lemma scope_closed f : CheckConditionalScopeStatus (mkCond [] f) = mkCond [] false.
Proof. reflexivity. Qed.
Lemma scope_skipped f : CheckConditionalScopeStatus (mkCond [negb true] f) = mkCond [false] true.
Proof. reflexivity. Qed.
Lemma scope_taken f : CheckConditionalScopeStatus (mkCond [negb false] f) = mkCond [true] false.
Proof. reflexivity. Qed.

Ltac cond_simpl E :=
  rewrite ?open_scope, ?scope_closed, ?scope_skipped, ?scope_taken in E;
  cbn [conditionalScopeNeedsClosing negb] in E.

Lemma switch_IF_empty pc pb alt n : eval_switch OP_IF pc pb (mkManager [] alt cond_init n) = Err SCRIPT_ERR_UNBALANCED_CONDITIONAL.
Proof. dispatch OP_IF. reflexivity. Qed.

Lemma switch_OVER_short pc pb a alt c n :
  eval_switch OP_OVER pc pb (mkManager [a] alt c n) = Err SCRIPT_ERR_INVALID_STACK_OPERATION.
Proof. dispatch OP_OVER. reflexivity. Qed.

Lemma switch_CHECKSIG_short pc pb a alt c n :
  eval_switch OP_CHECKSIG pc pb (mkManager [a] alt c n) = Err SCRIPT_ERR_INVALID_STACK_OPERATION.
Proof. dispatch OP_CHECKSIG. reflexivity. Qed.

(** The common tail [OP_OVER OP_HASH160 OP_EQUALVERIFY OP_CHECKSIG], run with the
    expected hash on top. *)
Definition vault_tail : CScript := [OP_OVER; OP_HASH160; OP_EQUALVERIFY; OP_CHECKSIG].

Lemma vault_tail_inv fuel pb h st n m :
  0 <= n <= 20 ->
  eval_loop (4 + fuel)%nat (mkEval vault_tail pb (mkManager (h :: st) [] (mkCond [] false) n)) = Ret m ->
  exists pubkey sig rest ok, st = pubkey :: sig :: rest /\ op_hash160 pubkey = h /\
    checksig_result flags checker sig pubkey pb = Ret ok /\ stack_ m = vch_of_bool ok :: rest.
Proof.
  intros Hn E. unfold vault_tail in E. cbn [Nat.add] in E.
  op_inv E s Es. destruct st as [|pubkey st]; [rewrite switch_OVER_short in Es; discriminate|].
  rewrite switch_OVER in Es. injection Es as <-.
  op_inv E s Es. rewrite switch_HASH160 in Es. injection Es as <-.
  op_inv E s Es. rewrite switch_EQUALVERIFY in Es.
  destruct (decide (h = op_hash160 pubkey)) as [Eh|Eh];
    [rewrite bool_decide_true in Es by exact Eh | rewrite bool_decide_false in Es by exact Eh; discriminate].
  injection Es as <-.
  op_inv E s Es. destruct st as [|sig rest]; [rewrite switch_CHECKSIG_short in Es; discriminate|].
  rewrite switch_CHECKSIG in Es. destruct (checksig_result flags checker sig pubkey pb) as [ok| | |] eqn:Ec; try discriminate.
  cbn [obind] in Es. injection Es as <-. rewrite eval_loop_nil in E. injection E as <-.
  exists pubkey, sig, rest, ok. auto.
Qed.

Lemma vault_script_split o v :
  CreateStakingVaultScript o v =
  OP_IF :: push_data [] o ++ OP_ELSE :: OP_REQUIRE_COINSTAKE :: push_data [] v ++ OP_ENDIF :: vault_tail.
Proof. reflexivity. Qed.

Lemma EvalScript_inv stack script st :
  EvalScript flags checker stack script = Ret st ->
  exists m, eval_loop (length script) (mkEval script script (manager_init stack)) = Ret m /\ stack_ m = st.
Proof.
  unfold EvalScript. destruct (10000 <? zlen script); [discriminate|]. cbn [oreject obind].
  destruct (Interpreter.eval_loop _ _ _ _) as [m| | |]; cbn [catch_all obind]; try discriminate.
  destruct (negb _); [discriminate|]. intros [= <-]. eauto.
Qed.

Lemma vault_length o v : length o = 20%nat -> length v = 20%nat -> length (CreateStakingVaultScript o v) = 50%nat.
Proof. intros Ho Hv. rewrite vault_script_split, !push_20 by assumption. simpl. rewrite !length_app. simpl. rewrite length_app. simpl. lia. Qed.

(** A successful evaluation took one of the two branches. *)
Lemma vault_eval_inv o v stack st :
  length o = 20%nat -> length v = 20%nat -> has_flag flags SCRIPT_REQUIRE_COINSTAKE = true ->
  EvalScript flags checker stack (CreateStakingVaultScript o v) = Ret st ->
  exists sel pubkey sig rest ok, stack = sel :: pubkey :: sig :: rest /\
    op_hash160 pubkey = (if CastToBool sel then o else v) /\
    (CastToBool sel = false -> CheckCoinstake checker = true) /\
    checksig_result flags checker sig pubkey (CreateStakingVaultScript o v) = Ret ok /\ st = vch_of_bool ok :: rest.
Proof.
  intros Ho Hv Hflag E. apply EvalScript_inv in E as (m & E & <-). rewrite vault_length in E by assumption.
  set (pb := CreateStakingVaultScript o v) in *.
  assert (zlen o <= MAX_SCRIPT_ELEMENT_SIZE /\ zlen v <= MAX_SCRIPT_ELEMENT_SIZE) as [Hzo Hzv]
    by (unfold zlen, MAX_SCRIPT_ELEMENT_SIZE; lia).
  unfold pb in E at 1. rewrite vault_script_split in E. unfold manager_init in E.
  op_inv E s Es. destruct stack as [|sel st]; [rewrite switch_IF_empty in Es; discriminate|].
  rewrite switch_IF in Es by reflexivity. injection Es as <-.
  rewrite open_scope in E. apply eval_loop_push_inv in E; [|exact Hzo].
  destruct (CastToBool sel) eqn:Hsel; cond_simpl E.
  - op_inv E s Es. rewrite switch_ELSE in Es. injection Es as <-. cond_simpl E.
    apply eval_loop_skip_inv in E;
      [|reflexivity|unfold MAXIMUM_NUMBER_OF_OPCODES; lia|reflexivity|reflexivity|right; reflexivity].
    apply eval_loop_push_inv in E; [|exact Hzv]. cond_simpl E.
    op_inv E s Es. rewrite switch_ENDIF in Es. injection Es as <-. cond_simpl E.
    apply (vault_tail_inv 40) in E as (pubkey & sig & rest & ok & -> & Hh & Hc & Hm); [|lia].
    exists sel, pubkey, sig, rest, ok. rewrite Hsel. repeat split; auto; discriminate.
  - op_inv E s Es. rewrite switch_ELSE in Es. injection Es as <-. cond_simpl E.
    op_inv E s Es. rewrite switch_REQUIRE_COINSTAKE, Hflag in Es.
    destruct (CheckCoinstake checker) eqn:Hcs; [|discriminate]. injection Es as <-.
    apply eval_loop_push_inv in E; [|exact Hzv]. cond_simpl E.
    op_inv E s Es. rewrite switch_ENDIF in Es. injection Es as <-. cond_simpl E.
    apply (vault_tail_inv 40) in E as (pubkey & sig & rest & ok & -> & Hh & Hc & Hm); [|lia].
    exists sel, pubkey, sig, rest, ok. rewrite Hsel. repeat split; auto.
Qed.
(** The matching completeness: what the two branches need is enough. *)
Ltac op_run :=
  rewrite eval_loop_op;
    [ | reflexivity | unfold MAXIMUM_NUMBER_OF_OPCODES; lia | reflexivity
      | first [left; reflexivity | right; unfold OP_IF, OP_ENDIF, OP_ELSE; lia] ].

Ltac round_ok :=
  cbn [obind]; rewrite after_round_ok;
    [ | unfold TotalStackSize; cbn [ev_manager stack_ altstack_]; rewrite ?zlen_cons, ?zlen_nil; lia ].

Lemma vault_tail_run fuel pb pubkey sig rest n ok :
  0 <= n <= 20 -> zlen rest <= 990 -> checksig_result flags checker sig pubkey pb = Ret ok ->
  eval_loop (4 + fuel)%nat
    (mkEval vault_tail pb (mkManager (op_hash160 pubkey :: pubkey :: sig :: rest) [] (mkCond [] false) n)) =
  Ret (mkManager (vch_of_bool ok :: rest) [] (mkCond [] false) (n + 1 + 1 + 1 + 1)).
Proof.
  intros Hn Hr Hc. unfold vault_tail. cbn [Nat.add].
  op_run. rewrite switch_OVER. round_ok. op_run. rewrite switch_HASH160. round_ok.
  op_run. rewrite switch_EQUALVERIFY, bool_decide_true by reflexivity. round_ok.
  op_run. rewrite switch_CHECKSIG, Hc. round_ok. apply eval_loop_nil.
Qed.

Lemma vault_eval_run o v sel pubkey sig rest ok :
  length o = 20%nat -> length v = 20%nat -> has_flag flags SCRIPT_REQUIRE_COINSTAKE = true ->
  zlen rest <= 990 ->
  op_hash160 pubkey = (if CastToBool sel then o else v) ->
  (CastToBool sel = false -> CheckCoinstake checker = true) ->
  checksig_result flags checker sig pubkey (CreateStakingVaultScript o v) = Ret ok ->
  EvalScript flags checker (sel :: pubkey :: sig :: rest) (CreateStakingVaultScript o v) = Ret (vch_of_bool ok :: rest).
Proof.
  intros Ho Hv Hflag Hr Hh Hcs Hc. unfold EvalScript. pose proof (vault_length o v Ho Hv) as Hlen.
  unfold zlen at 1. rewrite Hlen. cbn [Z.of_nat Z.ltb Z.compare]. change (10000 <? _) with false. cbn [oreject obind].
  set (pb := CreateStakingVaultScript o v) in *.
  assert (zlen o <= MAX_SCRIPT_ELEMENT_SIZE /\ zlen v <= MAX_SCRIPT_ELEMENT_SIZE) as [Hzo Hzv]
    by (unfold zlen, MAX_SCRIPT_ELEMENT_SIZE; lia).
  assert (minimal_ok flags o /\ minimal_ok flags v) as [Hmo Hmv] by (split; apply minimal_ok_20; unfold zlen; lia).
  unfold pb at 1. rewrite vault_script_split. unfold manager_init.
  op_run. rewrite switch_IF by reflexivity. round_ok. rewrite open_scope.
  destruct (CastToBool sel); cbn [negb].
  - rewrite eval_loop_push by (try assumption; try reflexivity; rewrite ?zlen_cons, ?zlen_nil; lia).
    op_run. rewrite switch_ELSE. round_ok. rewrite scope_skipped.
    rewrite eval_loop_skip by (try reflexivity; try (right; reflexivity); unfold MAXIMUM_NUMBER_OF_OPCODES; rewrite ?zlen_cons, ?zlen_nil; lia).
    rewrite eval_loop_push_skip by (try assumption; try reflexivity; rewrite ?zlen_cons, ?zlen_nil; lia).
    op_run. rewrite switch_ENDIF. round_ok. rewrite scope_closed, <- Hh.
    rewrite (vault_tail_run 40 pb pubkey sig rest _ ok) by (assumption || lia). reflexivity.
  - rewrite eval_loop_push_skip by (try assumption; try reflexivity; rewrite ?zlen_cons, ?zlen_nil; lia).
    op_run. rewrite switch_ELSE. round_ok. rewrite scope_taken.
    op_run. rewrite switch_REQUIRE_COINSTAKE, Hflag, Hcs by reflexivity. round_ok.
    rewrite eval_loop_push by (try assumption; try reflexivity; rewrite ?zlen_cons, ?zlen_nil; lia).
    op_run. rewrite switch_ENDIF. round_ok. rewrite scope_closed, <- Hh.
    rewrite (vault_tail_run 40 pb pubkey sig rest _ ok) by (assumption || lia). reflexivity.
Qed.

(** C28: a vault can only be spent in two ways.  Under the coinstake flag, which
    is mandatory, any evaluation that leaves a true value on top found a selector,
    a public key and a valid signature of it on the stack, and the key is either
    the owner's (selector true) or the vault manager's (selector false) in a
    transaction that is a coinstake. *)
Theorem vault_spend_sound o v stack st :
  length o = 20%nat -> length v = 20%nat -> has_flag flags SCRIPT_REQUIRE_COINSTAKE = true ->
  EvalScript flags checker stack (CreateStakingVaultScript o v) = Ret st -> require_true st = Ret tt ->
  exists sel pubkey sig rest, stack = sel :: pubkey :: sig :: rest /\
    checksig_result flags checker sig pubkey (CreateStakingVaultScript o v) = Ret true /\
    (if CastToBool sel then op_hash160 pubkey = o
     else op_hash160 pubkey = v /\ CheckCoinstake checker = true).
Proof.
  intros Ho Hv Hf E Ht. destruct (vault_eval_inv o v stack st Ho Hv Hf E) as (sel & pk & sig & rest & ok & -> & Hh & Hcs & Hc & ->).
  exists sel, pk, sig, rest. split; [reflexivity|]. destruct ok; [|discriminate]. split; [exact Hc|].
  destruct (CastToBool sel); auto.
Qed.

(** conversely both ways work: with a key of the right hash and, for the
    manager, a coinstake, the vault script evaluates to the outcome of the
    signature check and leaves the rest of the stack alone. *)
Theorem vault_spend_complete o v sel pubkey sig rest ok :
  length o = 20%nat -> length v = 20%nat -> has_flag flags SCRIPT_REQUIRE_COINSTAKE = true ->
  zlen rest <= 990 ->
  op_hash160 pubkey = (if CastToBool sel then o else v) ->
  (CastToBool sel = false -> CheckCoinstake checker = true) ->
  checksig_result flags checker sig pubkey (CreateStakingVaultScript o v) = Ret ok ->
  EvalScript flags checker (sel :: pubkey :: sig :: rest) (CreateStakingVaultScript o v) = Ret (vch_of_bool ok :: rest).
Proof. apply vault_eval_run. Qed.

End Spend.

(** A manager's spend in a coinstake, with the real hash functions. *)
Definition example_key : valtype := 2 :: replicate 32 7.
Definition example_checker : BaseSignatureChecker := Build_BaseSignatureChecker (fun sig _ _ => bool_decide (sig = [9])) true.

Lemma vault_spend_sound_witness :
  exists sel pubkey sig rest, [[]; example_key; [9]] = sel :: pubkey :: sig :: rest /\
    checksig_result SCRIPT_REQUIRE_COINSTAKE example_checker sig pubkey
      (CreateStakingVaultScript (replicate 20 1) (op_hash160 example_key)) = Ret true /\
    (if CastToBool sel then op_hash160 pubkey = replicate 20 1
     else op_hash160 pubkey = op_hash160 example_key /\ CheckCoinstake example_checker = true).
Proof.
  apply (vault_spend_sound SCRIPT_REQUIRE_COINSTAKE example_checker (replicate 20 1) (op_hash160 example_key)
           [[]; example_key; [9]] [[1]]); vm_compute; reflexivity.
Defined.

Lemma vault_spend_complete_witness :
  EvalScript SCRIPT_REQUIRE_COINSTAKE example_checker [[1]; example_key; [9]]
    (CreateStakingVaultScript (op_hash160 example_key) (replicate 20 1)) = Ret [[1]].
Proof.
  apply (vault_spend_complete SCRIPT_REQUIRE_COINSTAKE example_checker (op_hash160 example_key) (replicate 20 1)
           [1] example_key [9] [] true); try (vm_compute; reflexivity); vm_compute; discriminate.
Defined.
