(* ===== verification/Standard.v ===== *)
(** * Standard outputs: [script/standard.cpp], [pubkey.h]

    The classification of output scripts by template matching, the destinations
    it extracts, and the scripts built for destinations. *)

From Stdlib Require Import ZArith Lia Bool.
From stdpp Require Import base option numbers list.
From S2P Require Import Prelude Opcodes ScriptNum Script SigEncoding StackManager Interpreter ScriptSafety ScriptRun StakingVault BlockHasher Sha256 Ripemd160 Hashes.

Open Scope Z_scope.
Open Scope outcome_scope.

(** ** Public keys *)

Definition GetLen (chHeader : Z) : Z :=
  if (chHeader =? 2) || (chHeader =? 3) then 33
  else if (chHeader =? 4) || (chHeader =? 6) || (chHeader =? 7) then 65
  else 0.

(** [vch], the 65-byte array; bytes behind the key are whatever was there. *)
Record CPubKey := mkPubKey { pk_vch : list Z }.

Definition Invalidate (k : CPubKey) : CPubKey := mkPubKey (0xFF :: drop 1 (pk_vch k)).

Definition PubKey_Set (k : CPubKey) (data : valtype) : CPubKey :=
  let len := match data with [] => 0 | b :: _ => GetLen b end in
  if negb (len =? 0) && (len =? zlen data) then mkPubKey (data ++ drop (length data) (pk_vch k))
  else Invalidate k.

(** [CPubKey(vch)]: the array is uninitialised before [Set]. *)
Definition uninitialised : CPubKey := mkPubKey (replicate 65 0).
Definition CPubKey_of (data : valtype) : CPubKey := PubKey_Set uninitialised data.

Definition PubKey_size (k : CPubKey) : Z := GetLen (nth 0 (pk_vch k) 0).
Definition PubKey_bytes (k : CPubKey) : valtype := take (Z.to_nat (PubKey_size k)) (pk_vch k).
Definition PubKey_IsValid (k : CPubKey) : bool := 0 <? PubKey_size k.
Definition PubKey_IsCompressed (k : CPubKey) : bool := PubKey_size k =? 33.
Definition PubKey_GetID (k : CPubKey) : list Z := Hash160 (PubKey_bytes k).

(** ** Destinations *)

(** [boost::variant<CNoDestination, CKeyID, CScriptID>]; a [uint160] is its 20
    bytes. *)
Inductive CTxDestination := CNoDestination | CKeyID (id : list Z) | CScriptID (id : list Z).

#[export] Instance CTxDestination_eq_dec : EqDecision CTxDestination.
Proof. solve_decision. Defined.

(** [uint160(vch)] throws on a wrong size. *)
Definition uint160_of_vch (vch : valtype) : result (list Z) := if zlen vch =? 20 then Ret vch else Throw.

Inductive txnouttype := TX_NONSTANDARD | TX_PUBKEY | TX_PUBKEYHASH | TX_SCRIPTHASH | TX_VAULT | TX_MULTISIG | TX_NULL_DATA.

#[export] Instance txnouttype_eq_dec : EqDecision txnouttype.
Proof. solve_decision. Defined.

(** The multimap, in the order of its keys. *)
Definition mTemplates : list (txnouttype * CScript) :=
  [(TX_PUBKEY, [OP_PUBKEY; OP_CHECKSIG]);
   (TX_PUBKEYHASH, [OP_DUP; OP_HASH160; OP_PUBKEYHASH; OP_EQUALVERIFY; OP_CHECKSIG]);
   (TX_VAULT, GetStakingVaultScriptTemplate);
   (TX_MULTISIG, [OP_SMALLINTEGER; OP_PUBKEYS; OP_SMALLINTEGER; OP_CHECKMULTISIG])].

(** The inner [while (vch1.size() >= 33 && vch1.size() <= 65)]: the operation
    read last and the solutions. *)
Fixpoint pubkeys_loop (fuel : nat) (r1 : GetOp_result) (vSolutionsRet : list valtype) :
    result (GetOp_result * list valtype) :=
  if (33 <=? zlen (go_vch r1)) && (zlen (go_vch r1) <=? 65) then
    match fuel with
    | O => Undef
    | S fuel =>
        let vSolutionsRet := vSolutionsRet ++ [go_vch r1] in
        let r := GetOp2 (go_pc r1) in
        if negb (go_ok r) then Ret (r, vSolutionsRet) else pubkeys_loop fuel r vSolutionsRet
    end
  else Ret (r1, vSolutionsRet).

(** One round of the comparison for the two operations that were read:
    [None] is [break]. *)
Definition compare_op (r1 r2 : GetOp_result) (vSolutionsRet : list valtype) : result (option (list valtype)) :=
  let opcode1 := go_opcode r1 in
  let opcode2 := go_opcode r2 in
  let vch1 := go_vch r1 in
  if opcode2 =? OP_PUBKEY then
    Ret (if (zlen vch1 <? 33) || (65 <? zlen vch1) then None else Some (vSolutionsRet ++ [vch1]))
  else if opcode2 =? OP_PUBKEYHASH then
    Ret (if negb (zlen vch1 =? 20) then None else Some (vSolutionsRet ++ [vch1]))
  else if opcode2 =? OP_SMALLINTEGER then
    if (opcode1 =? OP_0) || ((OP_1 <=? opcode1) && (opcode1 <=? OP_16)) then
      let* n := DecodeOP_N opcode1 in Ret (Some (vSolutionsRet ++ [[u8 n]]))
    else Ret None
  else if negb (opcode1 =? opcode2) || negb (bool_decide (vch1 = go_vch r2)) then Ret None
  else Ret (Some vSolutionsRet).

(** [while (true)]: [Some] is a match.  Every round reads the template, so its
    length and one more round are enough. *)
Fixpoint match_template (fuel : nat) (pc1 pc2 : CScript) (vSolutionsRet : list valtype) : result (option (list valtype)) :=
  match fuel with
  | O => Undef
  | S fuel =>
      if bool_decide (pc1 = []) && bool_decide (pc2 = []) then Ret (Some vSolutionsRet)
      else
        let r1 := GetOp2 pc1 in
        if negb (go_ok r1) then Ret None
        else
          let r2 := GetOp2 pc2 in
          if negb (go_ok r2) then Ret None
          else
            if go_opcode r2 =? OP_PUBKEYS then
              let* '(r1, vSolutionsRet) := pubkeys_loop (S (length (go_pc r1))) r1 vSolutionsRet in
              let r2 := GetOp2 (go_pc r2) in
              if negb (go_ok r2) then Ret None
              else
                let* o := compare_op r1 r2 vSolutionsRet in
                match o with
                | None => Ret None
                | Some vSolutionsRet => match_template fuel (go_pc r1) (go_pc r2) vSolutionsRet
                end
            else
              let* o := compare_op r1 r2 vSolutionsRet in
              match o with
              | None => Ret None
              | Some vSolutionsRet => match_template fuel (go_pc r1) (go_pc r2) vSolutionsRet
              end
  end.

(** What the caller sees: the flag, [typeRet] and [vSolutionsRet]. *)
Record format_result := mkFormat { fr_ok : bool; fr_type : txnouttype; fr_solutions : list valtype }.

(** The additional checks for TX_MULTISIG on a match. *)
Definition multisig_consistent (vSolutions : list valtype) : result bool :=
  let* front := oaccess (head vSolutions) in
  let* m := oaccess (head front) in
  let* back := oaccess (last vSolutions) in
  let* n := oaccess (head back) in
  Ret (negb ((m <? 1) || (n <? 1) || (n <? m) || negb (u64 (zlen vSolutions - 2) =? n))).

Fixpoint scan_templates (templates : list (txnouttype * CScript)) (script1 : CScript) : result format_result :=
  match templates with
  | [] => Ret (mkFormat false TX_NONSTANDARD [])
  | (t, script2) :: templates =>
      let* o := match_template (S (length script2)) script1 script2 [] in
      match o with
      | Some vSolutionsRet =>
          if decide (t = TX_MULTISIG) then
            let* ok := multisig_consistent vSolutionsRet in
            Ret (mkFormat ok t vSolutionsRet)
          else Ret (mkFormat true t vSolutionsRet)
      | None => scan_templates templates script1
      end
  end.

(** [vSolutionsRet] is the caller's vector: the two shortcuts append to it, the
    template scan clears it. *)
Definition ExtractScriptPubKeyFormat (scriptPubKey : CScript) (vSolutionsRet : list valtype) : result format_result :=
  if IsPayToScriptHash scriptPubKey then
    Ret (mkFormat true TX_SCRIPTHASH (vSolutionsRet ++ [take 20 (drop 2 scriptPubKey)]))
  else if (1 <=? zlen scriptPubKey) && (nth 0 scriptPubKey 0 =? OP_META) && IsPushOnly (drop 1 scriptPubKey) then
    Ret (mkFormat true TX_NULL_DATA vSolutionsRet)
  else scan_templates mTemplates scriptPubKey.

Definition ScriptSigArgsExpected (t : txnouttype) (vSolutions : list valtype) : Z :=
  match t with
  | TX_NONSTANDARD | TX_NULL_DATA => -1
  | TX_PUBKEY => 1
  | TX_PUBKEYHASH => 2
  | TX_MULTISIG =>
      match vSolutions with
      | (b :: _) :: _ => b + 1
      | _ => -1
      end
  | TX_SCRIPTHASH => 1
  | TX_VAULT => 3
  end.

Definition IsStandard (scriptPubKey : CScript) (maximumMetadataBytes : Z) : result (bool * txnouttype) :=
  let* r := ExtractScriptPubKeyFormat scriptPubKey [] in
  let whichType := fr_type r in
  if negb (fr_ok r) then Ret (false, whichType)
  else if decide (whichType = TX_MULTISIG) then
    let* front := oaccess (head (fr_solutions r)) in
    let* m := oaccess (head front) in
    let* back := oaccess (last (fr_solutions r)) in
    let* n := oaccess (head back) in
    if (n <? 1) || (3 <? n) then Ret (false, whichType)
    else if (m <? 1) || (n <? m) then Ret (false, whichType)
    else Ret (bool_decide (whichType <> TX_NONSTANDARD), whichType)
  else if bool_decide (whichType = TX_NULL_DATA) && (maximumMetadataBytes <? zlen scriptPubKey) then Ret (false, whichType)
  else Ret (bool_decide (whichType <> TX_NONSTANDARD), whichType).

(** [None] is [return false]. *)
Definition ExtractDestination (scriptPubKey : CScript) : result (option CTxDestination) :=
  let* r := ExtractScriptPubKeyFormat scriptPubKey [] in
  if negb (fr_ok r) then Ret None
  else match fr_type r with
       | TX_PUBKEY =>
           let* s := oaccess (head (fr_solutions r)) in
           let pubKey := CPubKey_of s in
           Ret (if negb (PubKey_IsValid pubKey) then None else Some (CKeyID (PubKey_GetID pubKey)))
       | TX_PUBKEYHASH =>
           let* s := oaccess (head (fr_solutions r)) in
           let* h := uint160_of_vch s in Ret (Some (CKeyID h))
       | TX_SCRIPTHASH =>
           let* s := oaccess (head (fr_solutions r)) in
           let* h := uint160_of_vch s in Ret (Some (CScriptID h))
       | _ => Ret None
       end.

(** The loop of [ExtractDestinations] over the solutions [i] to the end index. *)
Fixpoint destinations_of (t : txnouttype) (sols : list valtype) (addressRet : list CTxDestination) :
    result (list CTxDestination) :=
  match sols with
  | [] => Ret addressRet
  | s :: sols =>
      if decide (t = TX_VAULT) then
        let* h := uint160_of_vch s in destinations_of t sols (addressRet ++ [CKeyID h])
      else
        let pubKey := CPubKey_of s in
        if negb (PubKey_IsValid pubKey) then destinations_of t sols addressRet
        else destinations_of t sols (addressRet ++ [CKeyID (PubKey_GetID pubKey)])
  end.

(** The flag, [typeRet], [addressRet] and [nRequiredRet] (unset when [None]). *)
Definition ExtractDestinations (scriptPubKey : CScript) :
    result (bool * txnouttype * list CTxDestination * option Z) :=
  let* r := ExtractScriptPubKeyFormat scriptPubKey [] in
  let typeRet := fr_type r in
  let vSolutions := fr_solutions r in
  if negb (fr_ok r) then Ret (false, typeRet, [], None)
  else if decide (typeRet = TX_NULL_DATA) then Ret (false, typeRet, [], None)
  else if bool_decide (typeRet = TX_MULTISIG) || bool_decide (typeRet = TX_VAULT) then
    let* nRequiredRet :=
      if decide (typeRet = TX_VAULT) then Ret 1
      else let* front := oaccess (head vSolutions) in oaccess (head front) in
    let solutionsStartIndex := if decide (typeRet = TX_VAULT) then 0 else 1 in
    let solutionsEndIndex := u32 (zlen vSolutions - solutionsStartIndex) in
    let* addressRet := destinations_of typeRet
      (drop (Z.to_nat solutionsStartIndex) (take (Z.to_nat solutionsEndIndex) vSolutions)) [] in
    Ret (negb (bool_decide (addressRet = [])), typeRet, addressRet, Some nRequiredRet)
  else
    let* o := ExtractDestination scriptPubKey in
    match o with
    | None => Ret (false, typeRet, [], Some 1)
    | Some address => Ret (true, typeRet, [address], Some 1)
    end.

(** ** Scripts for destinations *)

Definition GetScriptForDestination (dest : CTxDestination) : CScript :=
  match dest with
  | CNoDestination => []
  | CKeyID keyID => [OP_DUP; OP_HASH160] ++ push_data [] keyID ++ [OP_EQUALVERIFY; OP_CHECKSIG]
  | CScriptID scriptID => [OP_HASH160] ++ push_data [] scriptID ++ [OP_EQUAL]
  end.

Definition GetScriptForMultisig (nRequired : Z) (keys : list CPubKey) : result CScript :=
  let* op := EncodeOP_N nRequired in
  let* script := push_opcode [] op in
  let script := fold_left (fun s key => push_data s (PubKey_bytes key)) keys script in
  let* op := EncodeOP_N (zlen keys) in
  let* script := push_opcode script op in
  push_opcode script OP_CHECKMULTISIG.
