(* ===== verification/StandardProps.v ===== *)
(** * Properties of standard outputs

    Round trips between destinations and scripts, safety of the classification,
    and the meaning of the pay-to-key-hash and pay-to-script-hash forms when they
    are evaluated. *)

From Stdlib Require Import ZArith Lia Bool.
From stdpp Require Import base option numbers list.
From S2P Require Import Prelude Opcodes ScriptNum Script SigEncoding StackManager Interpreter ScriptSafety ScriptRun StakingVault BlockHasher Sha256 Ripemd160 Hashes Standard.

Open Scope Z_scope.
Open Scope outcome_scope.

(** ** Destinations *)

Lemma key_script_format h : length h = 20%nat ->
  ExtractScriptPubKeyFormat (GetScriptForDestination (CKeyID h)) [] = Ret (mkFormat true TX_PUBKEYHASH [h]).
Proof.
  intros H. unfold GetScriptForDestination. rewrite push_20 by assumption.
  destruct (list_20 h H) as (? & ? & ? & ? & ? & ? & ? & ? & ? & ? & ? & ? & ? & ? & ? & ? & ? & ? & ? & ? & ->).
  reflexivity.
Qed.

Lemma script_script_format h : length h = 20%nat ->
  ExtractScriptPubKeyFormat (GetScriptForDestination (CScriptID h)) [] = Ret (mkFormat true TX_SCRIPTHASH [h]).
Proof.
  intros H. unfold GetScriptForDestination. rewrite push_20 by assumption.
  destruct (list_20 h H) as (? & ? & ? & ? & ? & ? & ? & ? & ? & ? & ? & ? & ? & ? & ? & ? & ? & ? & ? & ? & ->).
  reflexivity.
Qed.

Lemma vault_script_format o v : length o = 20%nat -> length v = 20%nat ->
  ExtractScriptPubKeyFormat (CreateStakingVaultScript o v) [] = Ret (mkFormat true TX_VAULT [o; v]).
Proof.
  intros Ho Hv. unfold CreateStakingVaultScript. rewrite !push_20 by assumption.
  destruct (list_20 o Ho) as (? & ? & ? & ? & ? & ? & ? & ? & ? & ? & ? & ? & ? & ? & ? & ? & ? & ? & ? & ? & ->).
  destruct (list_20 v Hv) as (? & ? & ? & ? & ? & ? & ? & ? & ? & ? & ? & ? & ? & ? & ? & ? & ? & ? & ? & ? & ->).
  reflexivity.
Qed.

Definition dest_ok (d : CTxDestination) : Prop :=
  match d with CNoDestination => False | CKeyID h | CScriptID h => length h = 20%nat end.

(** the script built for a destination is standard and gives back the same
    destination; a staking vault is classified as a vault with the two key ids,
    owner first, one of which must sign. *)
Theorem destination_roundtrip d o v :
  dest_ok d -> length o = 20%nat -> length v = 20%nat ->
  ExtractDestination (GetScriptForDestination d) = Ret (Some d) /\
  ExtractDestinations (CreateStakingVaultScript o v) = Ret (true, TX_VAULT, [CKeyID o; CKeyID v], Some 1).
Proof.
  intros Hd Ho Hv. split.
  - unfold ExtractDestination. destruct d as [|h|h]; [destruct Hd| |]; cbn [dest_ok] in Hd;
      [rewrite key_script_format by exact Hd | rewrite script_script_format by exact Hd];
      cbn [obind fr_ok negb fr_type fr_solutions head oaccess]; unfold uint160_of_vch, zlen; rewrite Hd; reflexivity.
  - unfold ExtractDestinations. rewrite vault_script_format by assumption.
    assert (uint160_of_vch o = Ret o /\ uint160_of_vch v = Ret v) as [Eo Ev]
      by (unfold uint160_of_vch, zlen; rewrite Ho, Hv; auto).
    change (obind (Ret ?x) ?f) with (f x). cbn [fr_ok fr_type fr_solutions negb].
    change (drop _ (take _ [o; v])) with [o; v]. cbn [destinations_of].
    destruct (decide (TX_VAULT = TX_VAULT)) as [_|n]; [|destruct (n eq_refl)].
    rewrite Eo. cbn [obind]. rewrite Ev. reflexivity.
Qed.

Lemma destination_roundtrip_witness :
  ExtractDestination (GetScriptForDestination (CKeyID (replicate 20 3))) = Ret (Some (CKeyID (replicate 20 3))) /\
  ExtractDestinations (CreateStakingVaultScript (replicate 20 1) (replicate 20 2)) =
    Ret (true, TX_VAULT, [CKeyID (replicate 20 1); CKeyID (replicate 20 2)], Some 1).
Proof. apply (destination_roundtrip (CKeyID (replicate 20 3))); reflexivity. Defined.

(** ** Template matching *)

(** One round against a template opcode. *)
Lemma match_step fuel pc1 op2 pc2 sols :
  OP_PUSHDATA4 < op2 -> op2 <> OP_PUBKEYS ->
  match_template (S fuel) pc1 (op2 :: pc2) sols =
  if negb (go_ok (GetOp2 pc1)) then Ret None
  else let* o := compare_op (GetOp2 pc1) (mkGetOp true op2 [] pc2) sols in
       match o with None => Ret None | Some sols => match_template fuel (go_pc (GetOp2 pc1)) pc2 sols end.
Proof.
  intros Hop Hne. cbn [match_template].
  rewrite (bool_decide_false (op2 :: pc2 = [])), andb_false_r by discriminate.
  rewrite (GetOp2_op op2 pc2) by assumption. cbn [go_ok negb go_opcode go_pc].
  destruct (Z.eqb_spec op2 OP_PUBKEYS); [contradiction|]. reflexivity.
Qed.

Lemma match_step_pubkeys fuel pc1 op2 pc2 sols :
  OP_PUSHDATA4 < op2 ->
  match_template (S fuel) pc1 (OP_PUBKEYS :: op2 :: pc2) sols =
  if negb (go_ok (GetOp2 pc1)) then Ret None
  else let* '(r1, sols) := pubkeys_loop (S (length (go_pc (GetOp2 pc1)))) (GetOp2 pc1) sols in
       let* o := compare_op r1 (mkGetOp true op2 [] pc2) sols in
       match o with None => Ret None | Some sols => match_template fuel (go_pc r1) pc2 sols end.
Proof.
  intros Hop. cbn [match_template].
  rewrite (bool_decide_false (OP_PUBKEYS :: op2 :: pc2 = [])), andb_false_r by discriminate.
  rewrite (GetOp2_op OP_PUBKEYS) by reflexivity. cbn [go_ok negb go_opcode go_pc].
  rewrite (GetOp2_op op2 pc2) by assumption. reflexivity.
Qed.

Lemma match_end fuel pc1 sols :
  match_template (S fuel) pc1 [] sols = if bool_decide (pc1 = []) then Ret (Some sols) else Ret None.
Proof.
  cbn [match_template]. rewrite (bool_decide_true ([] = [])), andb_true_r by reflexivity.
  case_bool_decide; [reflexivity|]. destruct (negb (go_ok (GetOp2 pc1))); reflexivity.
Qed.

(** A small integer read against OP_SMALLINTEGER. *)
Definition small_op (op : Z) : Prop := op = OP_0 \/ OP_1 <= op <= OP_16.

Lemma compare_small r1 pc2 sols :
  compare_op r1 (mkGetOp true OP_SMALLINTEGER [] pc2) sols =
  if (go_opcode r1 =? OP_0) || ((OP_1 <=? go_opcode r1) && (go_opcode r1 <=? OP_16))
  then Ret (Some (sols ++ [[u8 (if go_opcode r1 =? OP_0 then 0 else go_opcode r1 - (OP_1 - 1))]]))
  else Ret None.
Proof.
  unfold compare_op. cbn [go_opcode go_vch]. change (OP_SMALLINTEGER =? OP_PUBKEY) with false.
  change (OP_SMALLINTEGER =? OP_PUBKEYHASH) with false. change (OP_SMALLINTEGER =? OP_SMALLINTEGER) with true. cbv iota.
  unfold DecodeOP_N. destruct (Z.eqb_spec (go_opcode r1) OP_0); cbn [orb]; [reflexivity|].
  destruct ((OP_1 <=? go_opcode r1) && (go_opcode r1 <=? OP_16)); reflexivity.
Qed.

(** ** Multisig scripts *)

Definition key_ok (k : CPubKey) : Prop := zlen (PubKey_bytes k) = 33 \/ zlen (PubKey_bytes k) = 65.

Definition push_keys (keys : list CPubKey) (rest : CScript) : CScript :=
  concat (map (fun k => push_data [] (PubKey_bytes k)) keys) ++ rest.

Lemma push_data_app s d : push_data s d = s ++ push_data [] d.
Proof. unfold push_data. rewrite app_nil_l. reflexivity. Qed.

Lemma fold_push_keys keys : forall s,
  fold_left (fun s key => push_data s (PubKey_bytes key)) keys s = s ++ push_keys keys [].
Proof.
  unfold push_keys. induction keys as [|k keys IH]; intros s; cbn [fold_left map concat].
  - rewrite !app_nil_r. reflexivity.
  - rewrite IH, push_data_app, <- !app_assoc. reflexivity.
Qed.

Lemma multisig_script_shape m keys :
  1 <= m <= 16 -> 1 <= zlen keys <= 16 ->
  GetScriptForMultisig m keys =
  Ret ((OP_1 + m - 1) :: push_keys keys [OP_1 + zlen keys - 1; OP_CHECKMULTISIG]).
Proof.
  intros Hm Hn. assert (forall n, 1 <= n <= 16 -> EncodeOP_N n = Ret (OP_1 + n - 1)) as He.
  { intros n H. unfold EncodeOP_N. rewrite (proj2 (Z.leb_le 0 n)), (proj2 (Z.leb_le n 16)) by lia. cbn [andb oassert obind].
    destruct (Z.eqb_spec n 0); [lia|reflexivity]. }
  assert (forall s n, 1 <= n <= 16 -> push_opcode s (OP_1 + n - 1) = Ret (s ++ [OP_1 + n - 1])) as Hp.
  { intros s n H. unfold push_opcode, OP_1. destruct (Z.ltb_spec (0x51 + n - 1) 0); [lia|].
    destruct (Z.ltb_spec 0xff (0x51 + n - 1)); [lia|reflexivity]. }
  unfold GetScriptForMultisig. rewrite He by assumption. cbn [obind]. rewrite Hp by assumption. cbn [obind app].
  rewrite fold_push_keys, He by assumption. cbn [obind]. rewrite Hp by assumption. cbn [obind].
  unfold push_opcode. cbn [OP_CHECKMULTISIG Z.ltb Z.compare orb]. unfold push_keys.
  rewrite app_nil_r, <- !app_assoc. reflexivity.
Qed.

(** Reading the keys back. *)
Lemma pubkeys_loop_push keys : forall fuel k rest sols,
  Forall key_ok (k :: keys) -> (length keys < fuel)%nat ->
  go_ok (GetOp2 rest) = true -> go_vch (GetOp2 rest) = [] ->
  pubkeys_loop fuel (mkGetOp true (push_data_opcode (PubKey_bytes k)) (PubKey_bytes k) (push_keys keys rest)) sols =
  Ret (GetOp2 rest, sols ++ map PubKey_bytes (k :: keys)).
Proof.
  induction keys as [|k' keys IH]; intros fuel k rest sols Hok Hf Hg Hv;
    inversion Hok as [|? ? Hk Hks]; subst; (destruct fuel as [|fuel]; [lia|]); cbn [pubkeys_loop go_vch go_pc];
    rewrite (proj2 (Z.leb_le 33 _)), (proj2 (Z.leb_le _ 65)) by (destruct Hk; lia); cbn [andb].
  - unfold push_keys. cbn [map concat app]. rewrite Hg. cbn [negb].
    destruct fuel; cbn [pubkeys_loop]; rewrite Hv; reflexivity.
  - inversion Hks as [|? ? Hk' _]; subst. unfold push_keys. cbn [map concat]. rewrite <- app_assoc.
    rewrite GetOp2_pushed by (destruct Hk'; lia). cbn [go_ok negb].
    rewrite (IH fuel k' rest) by (assumption || (simpl in Hf; lia)). cbn [map]. rewrite <- app_assoc. reflexivity.
Qed.

(** The first operation of a multisig script fits no other template. *)
Lemma compare_mismatch r1 op2 pc2 sols :
  op2 <> OP_PUBKEY -> op2 <> OP_PUBKEYHASH -> op2 <> OP_SMALLINTEGER -> go_opcode r1 <> op2 ->
  compare_op r1 (mkGetOp true op2 [] pc2) sols = Ret None.
Proof.
  intros H1 H2 H3 H. unfold compare_op. cbn [go_opcode go_vch].
  destruct (Z.eqb_spec op2 OP_PUBKEY); [contradiction|]. destruct (Z.eqb_spec op2 OP_PUBKEYHASH); [contradiction|].
  destruct (Z.eqb_spec op2 OP_SMALLINTEGER); [contradiction|].
  destruct (Z.eqb_spec (go_opcode r1) op2); [contradiction|reflexivity].
Qed.

Lemma compare_exact op pc1 pc2 sols :
  op <> OP_PUBKEY -> op <> OP_PUBKEYHASH -> op <> OP_SMALLINTEGER ->
  compare_op (mkGetOp true op [] pc1) (mkGetOp true op [] pc2) sols = Ret (Some sols).
Proof.
  intros H1 H2 H3. unfold compare_op. cbn [go_opcode go_vch].
  destruct (Z.eqb_spec op OP_PUBKEY); [contradiction|]. destruct (Z.eqb_spec op OP_PUBKEYHASH); [contradiction|].
  destruct (Z.eqb_spec op OP_SMALLINTEGER); [contradiction|]. rewrite Z.eqb_refl. reflexivity.
Qed.

Lemma compare_small_ok n pc1 pc2 sols : 1 <= n <= 16 ->
  compare_op (mkGetOp true (OP_1 + n - 1) [] pc1) (mkGetOp true OP_SMALLINTEGER [] pc2) sols = Ret (Some (sols ++ [[n]])).
Proof.
  intros Hn. rewrite compare_small. cbn [go_opcode]. unfold OP_0, OP_1, OP_16, u8.
  destruct (Z.eqb_spec (0x51 + n - 1) 0); [lia|]. rewrite (proj2 (Z.leb_le _ _)), (proj2 (Z.leb_le (0x51 + n - 1) _)) by lia.
  cbn [andb orb]. do 5 f_equal. rewrite Z.mod_small; lia.
Qed.

Lemma push_keys_length keys rest : (length keys <= length (push_keys keys rest))%nat.
Proof.
  unfold push_keys. rewrite length_app. induction keys as [|k keys IH]; cbn [map concat length]; [lia|].
  rewrite length_app. assert (1 <= length (push_data [] (PubKey_bytes k)))%nat; [|lia].
  unfold push_data. rewrite !length_app. repeat case_match; cbn [length]; lia.
Qed.

Lemma multisig_template m k keys :
  1 <= m <= 16 -> zlen (k :: keys) <= 16 -> Forall key_ok (k :: keys) ->
  match_template 5 ((OP_1 + m - 1) :: push_keys (k :: keys) [OP_1 + zlen (k :: keys) - 1; OP_CHECKMULTISIG])
    [OP_SMALLINTEGER; OP_PUBKEYS; OP_SMALLINTEGER; OP_CHECKMULTISIG] [] =
  Ret (Some ([m] :: map PubKey_bytes (k :: keys) ++ [[zlen (k :: keys)]])).
Proof.
  intros Hm Hn Hk. pose proof (zlen_nonneg keys). rewrite zlen_cons in Hn.
  rewrite match_step by (reflexivity || discriminate). rewrite GetOp2_op by (unfold OP_1, OP_PUSHDATA4; lia).
  cbn [go_ok negb]. rewrite compare_small_ok by assumption. cbn [obind go_pc app].
  rewrite match_step_pubkeys by reflexivity. set (rest := [OP_1 + _ - 1; OP_CHECKMULTISIG]).
  assert (GetOp2 rest = mkGetOp true (OP_1 + zlen (k :: keys) - 1) [] [OP_CHECKMULTISIG]) as Er
    by (apply GetOp2_op; rewrite zlen_cons; unfold OP_1, OP_PUSHDATA4; lia).
  assert (GetOp2 (push_keys (k :: keys) rest) =
    mkGetOp true (push_data_opcode (PubKey_bytes k)) (PubKey_bytes k) (push_keys keys rest)) as Ek.
  { unfold push_keys. cbn [map concat]. rewrite <- app_assoc. apply GetOp2_pushed. inversion Hk as [|? ? [H1|H1] _]; lia. }
  rewrite Ek. cbn [go_ok negb go_pc].
  rewrite pubkeys_loop_push; [|assumption| |rewrite Er; reflexivity|rewrite Er; reflexivity].
  2: { pose proof (push_keys_length keys rest). lia. }
  cbn [obind]. rewrite Er, compare_small_ok by (rewrite zlen_cons; lia). cbn [obind go_pc].
  rewrite match_step by (reflexivity || discriminate). rewrite GetOp2_op by reflexivity. cbn [go_ok negb].
  rewrite compare_exact by discriminate. cbn [obind go_pc]. rewrite match_end, bool_decide_true by reflexivity. reflexivity.
Qed.

(** the script of an m-of-n multisig destination is recognised as such, with
    [m], the keys in order and [n] as solutions, for all sizes [EncodeOP_N] can
    express. *)
Theorem multisig_roundtrip m keys :
  1 <= m <= zlen keys -> zlen keys <= 16 -> Forall key_ok keys ->
  exists script, GetScriptForMultisig m keys = Ret script /\
    ExtractScriptPubKeyFormat script [] =
      Ret (mkFormat true TX_MULTISIG ([m] :: map PubKey_bytes keys ++ [[zlen keys]])).
Proof.
  intros Hm Hn Hk. eexists. split; [apply multisig_script_shape; lia|].
  destruct keys as [|k keys]; [change (zlen (@nil CPubKey)) with 0 in Hm; lia|].
  set (script := _ :: _). unfold ExtractScriptPubKeyFormat.
  assert (forall op, OP_16 < op -> (OP_1 + m - 1 =? op) = false) as Hfirst.
  { intros op H. apply Z.eqb_neq. unfold OP_1, OP_16 in *. lia. }
  replace (IsPayToScriptHash script) with false.
  2: { symmetry. unfold IsPayToScriptHash, at_, script. cbn [nth]. rewrite Hfirst by reflexivity.
       rewrite andb_false_r. reflexivity. }
  replace (nth 0 script 0 =? OP_META) with false by (symmetry; apply Hfirst; reflexivity). rewrite andb_false_r. cbn [andb].
  unfold mTemplates, GetStakingVaultScriptTemplate, STAKING_VAULT. cbn [scan_templates app length].
  assert (GetOp2 script = mkGetOp true (OP_1 + m - 1) [] (tl script)) as Eg
    by (apply GetOp2_op; unfold OP_1, OP_PUSHDATA4; lia).
  assert (OP_1 + m - 1 <> OP_DUP /\ OP_1 + m - 1 <> OP_IF) as [Hd Hi] by (unfold OP_1, OP_DUP, OP_IF; lia).
  rewrite !(match_step _ script) by (reflexivity || discriminate). rewrite Eg. cbn [go_ok negb].
  change (compare_op _ (mkGetOp true OP_PUBKEY _ _) _) with (Ret (E := ScriptError) (@None (list valtype))). cbn [obind].
  rewrite (compare_mismatch _ OP_DUP) by (discriminate || exact Hd). cbn [obind].
  rewrite (compare_mismatch _ OP_IF) by (discriminate || exact Hi). cbn [obind].
  rewrite <- Eg. pose proof (multisig_template m k keys ltac:(lia) Hn Hk) as E.
  rewrite match_step in E by (reflexivity || discriminate). fold script in E. rewrite Eg in E. cbn [go_ok negb] in E.
  rewrite Eg, E. cbn [obind].
  destruct (decide (TX_MULTISIG = TX_MULTISIG)) as [_|n]; [|destruct (n eq_refl)].
  unfold multisig_consistent. cbn [head oaccess obind]. rewrite last_cons, last_snoc. cbn [oaccess obind head].
  replace (u64 _) with (zlen (k :: keys)).
  2: { unfold u64. zlen_simpl. unfold zlen. rewrite length_map. rewrite Z.mod_small by (unfold zlen in *; cbn [length] in *; lia). cbn [length]. lia. }
  rewrite Z.eqb_refl. destruct (Z.ltb_spec m 1); [lia|]. destruct (Z.ltb_spec (zlen (k :: keys)) 1); [lia|].
  destruct (Z.ltb_spec (zlen (k :: keys)) m); [lia|]. reflexivity.
Qed.

Definition example_pubkey : CPubKey := CPubKey_of example_key.

Lemma multisig_roundtrip_witness :
  exists script, GetScriptForMultisig 1 [example_pubkey; example_pubkey] = Ret script /\
    ExtractScriptPubKeyFormat script [] =
      Ret (mkFormat true TX_MULTISIG ([1] :: map PubKey_bytes [example_pubkey; example_pubkey] ++ [[2]])).
Proof.
  apply (multisig_roundtrip 1 [example_pubkey; example_pubkey]); [split; vm_compute; congruence | vm_compute; congruence |].
  repeat constructor.
Defined.

(** ** Safety of the classification *)

Lemma compare_op_safe r1 r2 sols : returns (fun _ => True) (compare_op r1 r2 sols).
Proof.
  unfold compare_op, DecodeOP_N. destruct (go_opcode r2 =? OP_PUBKEY); [exact I|].
  destruct (go_opcode r2 =? OP_PUBKEYHASH); [exact I|]. destruct (go_opcode r2 =? OP_SMALLINTEGER).
  - destruct (go_opcode r1 =? OP_0); cbn [orb]; [exact I|].
    destruct ((OP_1 <=? go_opcode r1) && (go_opcode r1 <=? OP_16)); exact I.
  - destruct (_ || _); exact I.
Qed.

Lemma pubkeys_loop_safe fuel : forall r1 sols,
  (length (go_pc r1) < fuel)%nat -> returns (fun _ => True) (pubkeys_loop fuel r1 sols).
Proof.
  induction fuel as [|fuel IH]; intros r1 sols H; cbn [pubkeys_loop]; (destruct (_ && _); [|exact I]); [lia|].
  destruct (negb (go_ok (GetOp2 (go_pc r1)))) eqn:E; [exact I|]. apply IH.
  destruct (go_pc r1) as [|b pc]; [discriminate|]. pose proof (GetOp2_shorter b pc). simpl in H. lia.
Qed.

Lemma match_template_safe fuel : forall pc1 pc2 sols,
  (length pc2 < fuel)%nat -> returns (fun _ => True) (match_template fuel pc1 pc2 sols).
Proof.
  induction fuel as [|fuel IH]; intros pc1 pc2 sols H; [lia|]. cbn [match_template].
  destruct (_ && _); [exact I|]. destruct (negb (go_ok (GetOp2 pc1))); [exact I|].
  destruct (negb (go_ok (GetOp2 pc2))) eqn:E2; [exact I|].
  assert (length (go_pc (GetOp2 pc2)) < fuel)%nat as Hpc2.
  { destruct pc2 as [|b pc2]; [discriminate|]. pose proof (GetOp2_shorter b pc2). simpl in H. lia. }
  destruct (go_opcode (GetOp2 pc2) =? OP_PUBKEYS).
  - eapply returns_bind; [apply pubkeys_loop_safe; lia|]. intros [r1 sols'] _.
    destruct (negb (go_ok (GetOp2 (go_pc (GetOp2 pc2))))) eqn:E3; [exact I|].
    eapply returns_bind; [apply compare_op_safe|]. intros [sols''|] _; [|exact I]. apply IH.
    destruct (go_pc (GetOp2 pc2)) as [|b pc3]; [discriminate|]. pose proof (GetOp2_shorter b pc3). simpl in Hpc2. lia.
  - eapply returns_bind; [apply compare_op_safe|]. intros [sols''|] _; [|exact I]. apply IH, Hpc2.
Qed.

Lemma pubkeys_loop_extends fuel : forall r1 sols r sols',
  pubkeys_loop fuel r1 sols = Ret (r, sols') -> exists ks, sols' = sols ++ ks.
Proof.
  induction fuel as [|fuel IH]; intros r1 sols r sols'; cbn [pubkeys_loop]; (destruct (_ && _); [|intros [= <- <-]; exists []; rewrite app_nil_r; reflexivity]);
    [discriminate|].
  destruct (negb _); [intros [= <- <-]; eauto|]. intros E. destruct (IH _ _ _ _ E) as [ks ->].
  exists ([go_vch r1] ++ ks). rewrite app_assoc. reflexivity.
Qed.

(** What a match leaves in the solutions. *)
Lemma match_step_inv fuel pc1 op2 pc2 sols sols' :
  OP_PUSHDATA4 < op2 -> op2 <> OP_PUBKEYS ->
  match_template (S fuel) pc1 (op2 :: pc2) sols = Ret (Some sols') ->
  exists r1 sols1, compare_op r1 (mkGetOp true op2 [] pc2) sols = Ret (Some sols1) /\
    match_template fuel (go_pc r1) pc2 sols1 = Ret (Some sols').
Proof.
  intros Hop Hne E. rewrite match_step in E by assumption. destruct (negb _); [discriminate|].
  destruct (compare_op _ _ sols) as [[sols1|]| | |] eqn:Ec; cbn [obind] in E; try discriminate. eauto.
Qed.

(** Opcodes of a template that add a solution. *)
Definition captures (op2 : Z) : bool := (op2 =? OP_PUBKEY) || (op2 =? OP_PUBKEYHASH) || (op2 =? OP_SMALLINTEGER).

Lemma compare_inv r1 op2 pc2 sols sols' :
  compare_op r1 (mkGetOp true op2 [] pc2) sols = Ret (Some sols') ->
  if captures op2
  then exists v, sols' = sols ++ [v] /\ (op2 = OP_PUBKEYHASH -> zlen v = 20) /\ (op2 = OP_SMALLINTEGER -> exists n, v = [n])
  else sols' = sols.
Proof.
  unfold compare_op, captures. cbn [go_opcode go_vch].
  destruct (Z.eqb_spec op2 OP_PUBKEY) as [->|]; cbn [orb].
  { case_match; intros [= <-]. eexists. repeat split; discriminate. }
  destruct (Z.eqb_spec op2 OP_PUBKEYHASH) as [->|]; cbn [orb].
  { destruct (Z.eqb_spec (zlen (go_vch r1)) 20); cbn [negb]; intros [= <-]. eexists. repeat split; [auto|discriminate]. }
  destruct (Z.eqb_spec op2 OP_SMALLINTEGER) as [->|].
  { case_match; [|discriminate]. destruct (DecodeOP_N _); cbn [obind]; try discriminate. intros [= <-].
    eexists. repeat split; [discriminate|eauto]. }
  case_match; [discriminate|]. intros [= <-]. reflexivity.
Qed.

(** One round of a match, by the template opcode. *)
Ltac template_step E :=
  apply match_step_inv in E as (? & ? & ?Hc & E); [|reflexivity|discriminate];
  match goal with H : compare_op _ (mkGetOp true ?op _ _) _ = _ |- _ =>
    apply compare_inv in H; let b := eval vm_compute in (captures op) in change (captures op) with b in H; cbv iota in H
  end.

Lemma pubkey_solutions s sols :
  match_template 3 s [OP_PUBKEY; OP_CHECKSIG] [] = Ret (Some sols) -> exists v, sols = [v].
Proof.
  intros E. template_step E. destruct Hc as (v & -> & _). template_step E. subst.
  rewrite match_end in E. case_match; inversion E. eauto.
Qed.

Lemma pubkeyhash_solutions s sols :
  match_template 6 s [OP_DUP; OP_HASH160; OP_PUBKEYHASH; OP_EQUALVERIFY; OP_CHECKSIG] [] = Ret (Some sols) ->
  exists v, sols = [v] /\ zlen v = 20.
Proof.
  intros E. template_step E. subst. template_step E. subst. template_step E. destruct Hc as (v & -> & Hv & _).
  template_step E. subst. template_step E. subst.
  rewrite match_end in E. case_match; inversion E. eauto.
Qed.

Lemma vault_solutions s sols :
  match_template 11 s GetStakingVaultScriptTemplate [] = Ret (Some sols) ->
  exists a b, sols = [a; b] /\ zlen a = 20 /\ zlen b = 20.
Proof.
  intros E. unfold GetStakingVaultScriptTemplate, STAKING_VAULT in E. cbn [app] in E.
  template_step E. subst. template_step E. destruct Hc as (a & -> & Ha & _).
  template_step E. subst. template_step E. subst. template_step E. destruct Hc as (b & -> & Hb & _).
  do 5 (template_step E; subst). rewrite match_end in E. case_match; inversion E. exists a, b. auto.
Qed.

Lemma multisig_solutions s sols :
  match_template 5 s [OP_SMALLINTEGER; OP_PUBKEYS; OP_SMALLINTEGER; OP_CHECKMULTISIG] [] = Ret (Some sols) ->
  exists m keys n, sols = [m] :: keys ++ [[n]].
Proof.
  intros E. template_step E. destruct Hc as (v & -> & _ & Hv). destruct (Hv eq_refl) as [m ->].
  rewrite match_step_pubkeys in E by reflexivity. destruct (negb _); [discriminate|].
  destruct (pubkeys_loop _ _ _) as [[r1 sols1]| | |] eqn:Ep; cbn [obind] in E; try discriminate.
  apply pubkeys_loop_extends in Ep as [ks ->].
  destruct (compare_op r1 _ _) as [[sols2|]| | |] eqn:Ec; cbn [obind] in E; try discriminate.
  apply compare_inv in Ec. change (captures OP_SMALLINTEGER) with true in Ec. cbv iota in Ec.
  destruct Ec as (w & -> & _ & Hw). destruct (Hw eq_refl) as [n ->].
  template_step E. subst. rewrite match_end in E. case_match; inversion E. exists m, ks, n. reflexivity.
Qed.

(** The solutions by type. *)
Definition format_ok (r : format_result) : Prop :=
  fr_ok r = true ->
  match fr_type r with
  | TX_NONSTANDARD => False
  | TX_PUBKEY => exists v, fr_solutions r = [v]
  | TX_PUBKEYHASH | TX_SCRIPTHASH => exists v, fr_solutions r = [v] /\ zlen v = 20
  | TX_VAULT => exists a b, fr_solutions r = [a; b] /\ zlen a = 20 /\ zlen b = 20
  | TX_MULTISIG => exists m keys n, fr_solutions r = [m] :: keys ++ [[n]] /\ 1 <= m <= n /\ u64 (zlen keys) = n
  | TX_NULL_DATA => fr_solutions r = []
  end.

Lemma multisig_consistent_ret m keys n :
  exists ok, multisig_consistent ([m] :: keys ++ [[n]]) = Ret ok /\ (ok = true -> 1 <= m <= n /\ u64 (zlen keys) = n).
Proof.
  unfold multisig_consistent. cbn [head oaccess obind]. rewrite last_cons, last_snoc. cbn [oaccess obind head].
  eexists. split; [reflexivity|]. intros H. bool_prop.
  replace (zlen ([m] :: keys ++ [[n]]) - 2) with (zlen keys) in * by (zlen_simpl; lia). auto.
Qed.

Lemma safe_template fuel pc1 pc2 {A} (Q : A -> Prop) (k : option (list valtype) -> result A) :
  (length pc2 < fuel)%nat ->
  (forall o, match_template fuel pc1 pc2 [] = Ret o -> returns Q (k o)) ->
  returns Q (let* o := match_template fuel pc1 pc2 [] in k o).
Proof.
  intros Hf Hk. pose proof (match_template_safe fuel pc1 pc2 [] Hf) as Hs.
  destruct (match_template fuel pc1 pc2 []) as [o| | |] eqn:E; cbn [obind] in *; [apply Hk; reflexivity | destruct Hs ..].
Qed.

Lemma Extract_returns s : returns format_ok (ExtractScriptPubKeyFormat s []).
Proof.
  unfold ExtractScriptPubKeyFormat. destruct (IsPayToScriptHash s) eqn:Hp.
  { cbn. intros _. eexists. split; [reflexivity|]. unfold IsPayToScriptHash in Hp. bool_prop.
    unfold zlen in *. rewrite length_take, length_drop. lia. }
  destruct (_ && IsPushOnly _); [cbn; intros _; reflexivity|].
  unfold mTemplates. cbn [scan_templates].
  apply safe_template; [cbn; lia|]. intros [sols|] E.
  { cbn. intros _. eapply pubkey_solutions, E. }
  apply safe_template; [cbn; lia|]. intros [sols|] E2.
  { cbn. intros _. eapply pubkeyhash_solutions, E2. }
  apply safe_template; [cbn; lia|]. intros [sols|] E3.
  { cbn. intros _. eapply vault_solutions, E3. }
  apply safe_template; [cbn; lia|]. intros [sols|] E4; [|cbn; discriminate].
  destruct (decide (TX_MULTISIG = TX_MULTISIG)) as [_|n]; [|destruct (n eq_refl)].
  destruct (multisig_solutions _ _ E4) as (m & keys & n & ->).
  destruct (multisig_consistent_ret m keys n) as (ok & -> & Hok). cbn. intros Ht. exists m, keys, n. auto.
Qed.

Lemma uint160_returns v : zlen v = 20 -> uint160_of_vch v = Ret v.
Proof. intros H. unfold uint160_of_vch. rewrite H. reflexivity. Qed.

Lemma ExtractDestination_returns s : returns (fun _ => True) (ExtractDestination s).
Proof.
  unfold ExtractDestination. eapply returns_bind; [apply Extract_returns|]. intros [ok t sols] Hr. cbn [fr_ok fr_type fr_solutions] in *.
  destruct ok; cbn [negb]; [|exact I]. specialize (Hr eq_refl). cbn in Hr.
  destruct t; try exact I; [destruct Hr as [v ->]; exact I | destruct Hr as (v & -> & Hv) ..];
    cbn [head oaccess obind]; rewrite uint160_returns by exact Hv; exact I.
Qed.

Lemma destinations_returns t sols : forall acc,
  (t = TX_VAULT -> Forall (fun v => zlen v = 20) sols) -> returns (fun _ => True) (destinations_of t sols acc).
Proof.
  induction sols as [|v sols IH]; intros acc H; cbn [destinations_of]; [exact I|].
  destruct (decide (t = TX_VAULT)) as [E|E].
  - specialize (H E). inversion H; subst. rewrite uint160_returns by assumption. cbn [obind]. apply IH. auto.
  - case_match; apply IH; intros; contradiction.
Qed.

Lemma ExtractDestinations_returns s : returns (fun _ => True) (ExtractDestinations s).
Proof.
  unfold ExtractDestinations. eapply returns_bind; [apply Extract_returns|]. intros [ok t sols] Hr. cbn [fr_ok fr_type fr_solutions] in *.
  destruct ok; cbn [negb]; [|exact I]. specialize (Hr eq_refl). cbn in Hr.
  assert (returns (fun _ => True) (let* o := ExtractDestination s in
     match o with None => Ret (false, t, [], Some 1) | Some address => Ret (true, t, [address], Some 1) end)) as Hd.
  { eapply returns_bind; [apply ExtractDestination_returns|]. intros [a|] _; exact I. }
  destruct t; try exact I; try exact Hd; cbn [decide].
  - destruct Hr as (a & b & -> & Ha & Hb). eapply (returns_bind (fun _ => True)); [exact I|]. intros nRequired _.
    eapply returns_bind; [apply destinations_returns; intros _|intros; exact I].
    cbn. repeat constructor; assumption.
  - destruct Hr as (m & keys & n & -> & _). eapply (returns_bind (fun _ => True)); [exact I|]. intros nRequired _.
    eapply returns_bind; [apply destinations_returns; discriminate|intros; exact I].
Qed.

Lemma IsStandard_returns s n : returns (fun _ => True) (IsStandard s n).
Proof.
  unfold IsStandard. eapply returns_bind; [apply Extract_returns|]. intros [ok t sols] Hr. cbn [fr_ok fr_type fr_solutions] in *.
  destruct ok; cbn [negb]; [|exact I]. specialize (Hr eq_refl). cbn in Hr.
  destruct (decide (t = TX_MULTISIG)) as [->|]; [|destruct (_ && _); exact I].
  destruct Hr as (m & keys & k & -> & _). cbn [head oaccess obind]. rewrite last_cons, last_snoc. cbn [oaccess obind head].
  destruct (_ || _); [exact I|]. destruct (_ || _); exact I.
Qed.

(** C32: classifying an arbitrary output script always returns: no template loop
    runs on, no [front()], [back()] or [[0]] is taken of an empty vector, no
    small-integer assertion fails and no [uint160] conversion throws; and a
    positive answer comes with solutions of the documented shape for its type. *)
Theorem classification_total s maximumMetadataBytes :
  (exists r, ExtractScriptPubKeyFormat s [] = Ret r /\ format_ok r) /\
  (exists b, IsStandard s maximumMetadataBytes = Ret b) /\
  (exists d, ExtractDestination s = Ret d) /\
  (exists d, ExtractDestinations s = Ret d).
Proof.
  pose proof (Extract_returns s) as H1. pose proof (IsStandard_returns s maximumMetadataBytes) as H2.
  pose proof (ExtractDestination_returns s) as H3. pose proof (ExtractDestinations_returns s) as H4.
  repeat split; [destruct (ExtractScriptPubKeyFormat s []) | destruct (IsStandard _ _) | destruct (ExtractDestination s)
    | destruct (ExtractDestinations s)]; cbn in *; try contradiction; eauto.
Qed.

(** ** What the standard scripts check *)

Section Semantics.
Variable flags : Z.
Variable checker : BaseSignatureChecker.

Abbreviation eval_loop := (eval_loop flags checker).

Ltac op_run :=
  rewrite eval_loop_op;
    [ | reflexivity | unfold MAXIMUM_NUMBER_OF_OPCODES; lia | reflexivity | left; reflexivity ].

Ltac round_ok :=
  cbn [obind]; rewrite after_round_ok;
    [ | unfold TotalStackSize; cbn [ev_manager stack_ altstack_]; rewrite ?zlen_cons, ?zlen_nil; lia ].

(** evaluating a pay-to-key-hash output on a key and a signature demands that
    the key hashes to the destination and then gives exactly the outcome of the
    signature check over the output script. *)
Theorem p2pkh_semantics h pubkey sig rest :
  length h = 20%nat -> zlen rest <= 990 ->
  let script := GetScriptForDestination (CKeyID h) in
  EvalScript flags checker (pubkey :: sig :: rest) script =
  if bool_decide (op_hash160 pubkey = h)
  then let* ok := catch_all (checksig_result flags checker sig pubkey script) in Ret (vch_of_bool ok :: rest)
  else Err SCRIPT_ERR_EQUALVERIFY.
Proof.
  intros Hh Hr script. unfold EvalScript.
  assert (length script = 25%nat) as Hlen
    by (unfold script, GetScriptForDestination; rewrite push_20 by exact Hh; cbn [length app]; rewrite length_app, Hh; reflexivity).
  unfold zlen at 1. rewrite Hlen. change (10000 <? Z.of_nat 25) with false. cbn [oreject obind].
  set (pb := script) at 2 3.
  change script with (OP_DUP :: OP_HASH160 :: push_data [] h ++ [OP_EQUALVERIFY; OP_CHECKSIG]) at 1.
  unfold manager_init. op_run. rewrite switch_DUP. round_ok. op_run. rewrite switch_HASH160. round_ok.
  rewrite eval_loop_push; [|unfold zlen, MAX_SCRIPT_ELEMENT_SIZE; lia | apply minimal_ok_20; unfold zlen; lia
    | reflexivity | rewrite ?zlen_cons, ?zlen_nil; lia].
  op_run. rewrite switch_EQUALVERIFY. destruct (bool_decide (op_hash160 pubkey = h)); [|reflexivity].
  round_ok. op_run. rewrite switch_CHECKSIG. fold pb.
  destruct (checksig_result flags checker sig pubkey pb) as [ok| | |]; try reflexivity.
  round_ok. rewrite eval_loop_nil. reflexivity.
Qed.

(** The redeem script's hash is compared, the rest of the stack kept. *)
Lemma p2sh_eval h top rest :
  length h = 20%nat -> zlen rest <= 990 ->
  EvalScript flags checker (top :: rest) (GetScriptForDestination (CScriptID h)) =
  Ret (vch_of_bool (bool_decide (op_hash160 top = h)) :: rest).
Proof.
  intros Hh Hr. set (script := GetScriptForDestination (CScriptID h)). unfold EvalScript.
  assert (length script = 23%nat) as Hlen
    by (unfold script, GetScriptForDestination; rewrite push_20 by exact Hh; cbn [length app]; rewrite length_app, Hh; reflexivity).
  unfold zlen at 1. rewrite Hlen. change (10000 <? Z.of_nat 23) with false. cbn [oreject obind].
  set (pb := script) at 2. change script with (OP_HASH160 :: push_data [] h ++ [OP_EQUAL]).
  unfold manager_init. op_run. rewrite switch_HASH160. round_ok.
  rewrite eval_loop_push; [|unfold zlen, MAX_SCRIPT_ELEMENT_SIZE; lia | apply minimal_ok_20; unfold zlen; lia
    | reflexivity | rewrite ?zlen_cons, ?zlen_nil; lia].
  op_run. rewrite switch_EQUAL. round_ok. rewrite eval_loop_nil. reflexivity.
Qed.

Lemma is_p2sh h : length h = 20%nat -> IsPayToScriptHash (GetScriptForDestination (CScriptID h)) = true.
Proof.
  intros H. unfold GetScriptForDestination. rewrite push_20 by assumption.
  destruct (list_20 h H) as (? & ? & ? & ? & ? & ? & ? & ? & ? & ? & ? & ? & ? & ? & ? & ? & ? & ? & ? & ? & ->).
  reflexivity.
Qed.

(** C29: spending a pay-to-script-hash output.  With the P2SH flag (mandatory), and
    for an input script that leaves [redeem] on top of a stack of ordinary size,
    verification succeeds exactly when the input is push-only, [redeem] hashes to
    the destination, and the redeem script run on the rest of the stack ends with
    a true top element. *)
Theorem p2sh_semantics h scriptSig redeem rest :
  length h = 20%nat -> has_flag flags SCRIPT_VERIFY_P2SH = true -> zlen rest <= 990 ->
  EvalScript flags checker [] scriptSig = Ret (redeem :: rest) ->
  (VerifyScript flags checker scriptSig (GetScriptForDestination (CScriptID h)) = Ret tt <->
   IsPushOnly scriptSig = true /\ op_hash160 redeem = h /\
   exists st, EvalScript flags checker rest redeem = Ret st /\ require_true st = Ret tt).
Proof.
  intros Hh Hf Hr Esig. unfold VerifyScript. rewrite Esig, Hf, is_p2sh by exact Hh. cbn [obind andb].
  rewrite p2sh_eval by assumption. cbn [obind head oaccess popstack]. cbn [require_true].
  destruct (IsPushOnly scriptSig); cbn [negb andb oreject obind].
  2: { destruct (has_flag flags SCRIPT_VERIFY_SIGPUSHONLY); cbn [andb oreject obind]; [split; [discriminate | intros [? _]; discriminate]|].
       destruct (negb (CastToBool _)); split; try discriminate; intros [? _]; discriminate. }
  rewrite andb_false_r. cbn [oreject obind].
  destruct (decide (op_hash160 redeem = h)) as [E|E];
    [rewrite bool_decide_true by exact E | rewrite bool_decide_false by exact E].
  2: { cbn. split; [discriminate | intros (_ & ? & _); contradiction]. }
  change (negb (CastToBool (vch_of_bool true))) with false. cbn [oreject obind].
  destruct (EvalScript flags checker rest redeem) as [st| | |]; cbn [obind];
    try (split; [discriminate | intros (_ & _ & ? & ? & _); discriminate]).
  split; [eauto 6 | intros (_ & _ & ? & [= <-] & ?); assumption].
Qed.
End Semantics.

Lemma p2pkh_semantics_witness :
  EvalScript 0 example_checker [example_key; [9]] (GetScriptForDestination (CKeyID (op_hash160 example_key))) = Ret [[1]].
Proof.
  rewrite (p2pkh_semantics 0 example_checker (op_hash160 example_key) example_key [9] []);
    [vm_compute; reflexivity | vm_compute; reflexivity | vm_compute; congruence].
Defined.

(** The redeem script OP_1. *)
Lemma p2sh_semantics_witness :
  VerifyScript SCRIPT_VERIFY_P2SH example_checker [1; OP_1] (GetScriptForDestination (CScriptID (op_hash160 [OP_1]))) = Ret tt.
Proof.
  apply (p2sh_semantics SCRIPT_VERIFY_P2SH example_checker (op_hash160 [OP_1]) [1; OP_1] [OP_1] []);
    try (vm_compute; congruence).
  repeat split; try (vm_compute; reflexivity). exists [[1]]. split; vm_compute; reflexivity.
Defined.
