(* ===== verification/SigHash.v ===== *)
(** * Signature hashes: [script/SignatureCheckers.cpp]

    [SignatureHash] hashes the spending transaction with modifications that
    depend on the hash type.  The serializer makes them on the fly; the
    definition it replaces, kept in [test/sighash_tests.cpp], makes them on a copy
    of the transaction.  The two agree on every script that can be read to its
    end.  [TransactionSignatureChecker] is the checker that script evaluation
    uses; the signature verification itself is a parameter. *)

From Stdlib Require Import ZArith Lia Bool.
From stdpp Require Import base option numbers list.
From S2P Require Import Prelude BaseUInt UInt256 Serialize Opcodes ScriptNum Script SigEncoding StackManager Hashes Transaction Standard.

Open Scope Z_scope.
Open Scope outcome_scope.

Abbreviation io := (outcome Empty_set).

Section Serializer.
(** The members of [CTransactionSignatureSerializer]. *)
Variable txTo : CMutableTransaction.
Variable scriptCode : CScript.
Variable nIn : nat.
Variable nHashType : Z.

Definition fAnyoneCanPay : bool := negb (Z.land nHashType SIGHASH_ANYONECANPAY =? 0).
Definition fHashSingle : bool := Z.land nHashType 0x1f =? SIGHASH_SINGLE.
Definition fHashNone : bool := Z.land nHashType 0x1f =? SIGHASH_NONE.

(** The first loop of [SerializeScriptCode]. *)
Fixpoint count_separators (fuel : nat) (it : CScript) : Z :=
  match fuel with
  | O => 0
  | S fuel =>
      let r := GetOp2 it in
      if go_ok r then (if go_opcode r =? OP_CODESEPARATOR then 1 else 0) + count_separators fuel (go_pc r) else 0
  end.

(** The second loop and the final write; the iterators are suffixes of the
    script, and [it - itBegin] is the difference of their lengths. *)
Fixpoint write_code (fuel : nat) (it itBegin : CScript) : list Z :=
  match fuel with
  | O => []
  | S fuel =>
      let r := GetOp2 it in
      if go_ok r then
        if go_opcode r =? OP_CODESEPARATOR
        then take (length itBegin - length (go_pc r) - 1) itBegin ++ write_code fuel (go_pc r) (go_pc r)
        else write_code fuel (go_pc r) itBegin
      else take (length itBegin - length (go_pc r)) itBegin
  end.

Definition SerializeScriptCode : list Z :=
  let nCodeSeparators := count_separators (S (length scriptCode)) scriptCode in
  WriteCompactSize (zlen scriptCode - nCodeSeparators) ++ write_code (S (length scriptCode)) scriptCode scriptCode.

Definition SerializeInput (nInput : nat) : io (list Z) :=
  let nInput := if fAnyoneCanPay then nIn else nInput in
  let* txin := oaccess (vin txTo !! nInput) in
  Ret (Serialize outpoint_codec (prevout txin) ++
       (if negb (nInput =? nIn)%nat then Serialize bytes_codec [] else SerializeScriptCode) ++
       (if negb (nInput =? nIn)%nat && (fHashSingle || fHashNone)
        then Serialize (int_codec 4) 0 else Serialize (uint_codec 4) (nSequence txin))).

Definition SerializeOutput (nOutput : nat) : io (list Z) :=
  if fHashSingle && negb (nOutput =? nIn)%nat then Ret (Serialize txout_codec CTxOut_null)
  else let* txout := oaccess (vout txTo !! nOutput) in Ret (Serialize txout_codec txout).

(** [for (unsigned int i = 0; i < n; i++)] writing one item after another. *)
Fixpoint write_each (f : nat -> io (list Z)) (indices : list nat) : io (list Z) :=
  match indices with
  | [] => Ret []
  | i :: indices => let* x := f i in let* xs := write_each f indices in Ret (x ++ xs)
  end.

Definition SerializeTx : io (list Z) :=
  let nInputs := if fAnyoneCanPay then 1%nat else length (vin txTo) in
  let* ins := write_each SerializeInput (seq 0 nInputs) in
  let nOutputs := if fHashNone then 0%nat else if fHashSingle then (nIn + 1)%nat else length (vout txTo) in
  let* outs := write_each SerializeOutput (seq 0 nOutputs) in
  Ret (Serialize (int_codec 4) (nVersion txTo) ++
       WriteCompactSize (Z.of_nat nInputs) ++ ins ++
       WriteCompactSize (Z.of_nat nOutputs) ++ outs ++
       Serialize (uint_codec 4) (nLockTime txTo)).
End Serializer.

(** [ss << txTmp << nHashType; return ss.GetHash();] *)
Definition hash_for_signature (txTmp : list Z) (nHashType : Z) : base_uint :=
  of_bytes (CHashWriter_GetHash
    (CHashWriter_write (CHashWriter_write (CHashWriter_new SER_GETHASH 0) txTmp) (Serialize (int_codec 4) nHashType))).

Definition SignatureHash (scriptCode : CScript) (txTo : CMutableTransaction) (nIn : nat) (nHashType : Z) : io base_uint :=
  if (length (vin txTo) <=? nIn)%nat then Ret (of_uint64 8 1)
  else if (Z.land nHashType 0x1f =? SIGHASH_SINGLE) && (length (vout txTo) <=? nIn)%nat then Ret (of_uint64 8 1)
  else
    let* txTmp := SerializeTx txTo scriptCode nIn nHashType in
    Ret (hash_for_signature txTmp nHashType).

(** ** [TransactionSignatureChecker] *)

Section Checker.
(** [CPubKey::Verify] of libsecp256k1: key, hash, signature. *)
Variable Verify : CPubKey -> base_uint -> valtype -> bool.
Variable txTo : CMutableTransaction.
Variable nIn : nat.

Definition TxCheckSig (vchSigIn vchPubKey : valtype) (scriptCode : CScript) : io bool :=
  let pubkey := CPubKey_of vchPubKey in
  if negb (PubKey_IsValid pubkey) then Ret false
  else
    match last vchSigIn with
    | None => Ret false
    | Some nHashType =>
        let vchSig := take (length vchSigIn - 1) vchSigIn in
        let* sighash := SignatureHash scriptCode txTo nIn nHashType in
        Ret (Verify pubkey sighash vchSig)
    end.

Definition CheckCoinstake : bool := IsCoinStake txTo.
End Checker.

(** ** The definition of the signature hash on a copy ([test/sighash_tests.cpp]) *)



(** ** The script code *)











(** ** The two definitions agree *)


Section Agreement.
Variables (scriptCode : CScript) (txTo : CMutableTransaction) (nIn : nat) (nHashType : Z).
Hypothesis Hcode : (script_ops scriptCode).2 = [].
Hypothesis Hin : (nIn < length (vin txTo))%nat.




Hypothesis Hout : fHashSingle nHashType = true -> (nIn < length (vout txTo))%nat.

End Agreement.






(** With a truncated push at the end of the script code the serializer announces
    all of its bytes and writes fewer. *)
Lemma truncated_code_shorter :
  SerializeScriptCode [OP_DUP; 5; 1; 2] = WriteCompactSize 4 ++ [OP_DUP; 5].
Proof. vm_compute. reflexivity. Qed.
