(* ===== verification/BlockIndex.v ===== *)
(** * Block index entries: [chain.h], [LotteryCoinstakes.h], [LotteryCoinstakes.cpp]

    [CBlockIndex] objects live on the heap and point to each other.  A pointer is
    a positive number, the null pointer is [None], and the heap is a finite map. *)

From Stdlib Require Import ZArith Lia Bool.
From stdpp Require Import base option numbers list gmap.
From S2P Require Import Prelude BaseUInt UInt256 Opcodes ScriptNum Script Serialize Transaction.

Open Scope Z_scope.
Open Scope outcome_scope.

Abbreviation io := (outcome Empty_set).

(** ** Lottery data *)

Abbreviation LotteryCoinstake := (list Z * list Z)%type.
Abbreviation LotteryCoinstakes := (list LotteryCoinstake).

(** [storage] is shared between copies and never changed in place. *)
Record LotteryCoinstakeData := mkLottery {
  storage : LotteryCoinstakes; heightOfDataStorage : Z; storageIsLocal : bool
}.

Definition LotteryCoinstakeData_empty : LotteryCoinstakeData := mkLottery [] 0 true.
Definition LotteryCoinstakeData_of (height : Z) (coinstakes : LotteryCoinstakes) : LotteryCoinstakeData :=
  mkLottery coinstakes height true.
Definition MarkAsShallowStorage (d : LotteryCoinstakeData) : LotteryCoinstakeData :=
  mkLottery (storage d) (heightOfDataStorage d) false.
Definition getShallowCopy (d : LotteryCoinstakeData) : LotteryCoinstakeData := MarkAsShallowStorage d.
Definition updateShallowDataStore (d other : LotteryCoinstakeData) : LotteryCoinstakeData :=
  if negb (storageIsLocal d) && storageIsLocal other && (heightOfDataStorage other =? heightOfDataStorage d)
  then mkLottery (storage other) (heightOfDataStorage d) (storageIsLocal d)
  else d.

(** ** Block index entries *)

Definition BLOCK_VALID_HEADER : Z := 1.
Definition BLOCK_VALID_TREE : Z := 2.
Definition BLOCK_VALID_TRANSACTIONS : Z := 3.
Definition BLOCK_VALID_CHAIN : Z := 4.
Definition BLOCK_VALID_SCRIPTS : Z := 5.
Definition BLOCK_VALID_MASK : Z :=
  Z.lor (Z.lor (Z.lor (Z.lor BLOCK_VALID_HEADER BLOCK_VALID_TREE) BLOCK_VALID_TRANSACTIONS) BLOCK_VALID_CHAIN) BLOCK_VALID_SCRIPTS.
Definition BLOCK_HAVE_DATA : Z := 8.
Definition BLOCK_HAVE_UNDO : Z := 16.
Definition BLOCK_FAILED_VALID : Z := 32.
Definition BLOCK_FAILED_CHILD : Z := 64.
Definition BLOCK_FAILED_MASK : Z := Z.lor BLOCK_FAILED_VALID BLOCK_FAILED_CHILD.

Definition BLOCK_PROOF_OF_STAKE : Z := 1.
Definition BLOCK_STAKE_ENTROPY : Z := 2.
Definition BLOCK_STAKE_MODIFIER : Z := 4.

Abbreviation ptr := positive.

Record CBlockIndex := mkIndex {
  phashBlock : base_uint;
  pprev : option ptr;
  pskip : option ptr;
  nHeight : Z;
  nStatus : Z;
  nFlags : Z;
  nStakeModifier : Z;
  bi_nTime : Z;
  bi_nBits : Z;
  vLotteryWinnersCoinstakes : LotteryCoinstakeData
}.

Abbreviation index_heap := (gmap positive CBlockIndex).

(** [p->] *)
Definition deref (heap : index_heap) (p : option ptr) : io CBlockIndex :=
  let* p := oaccess p in oaccess (heap !! p).

Definition with_status (b : CBlockIndex) (s : Z) : CBlockIndex :=
  mkIndex (phashBlock b) (pprev b) (pskip b) (nHeight b) s (nFlags b) (nStakeModifier b) (bi_nTime b) (bi_nBits b)
    (vLotteryWinnersCoinstakes b).
Definition with_flags (b : CBlockIndex) (f : Z) : CBlockIndex :=
  mkIndex (phashBlock b) (pprev b) (pskip b) (nHeight b) (nStatus b) f (nStakeModifier b) (bi_nTime b) (bi_nBits b)
    (vLotteryWinnersCoinstakes b).
Definition with_modifier_value (b : CBlockIndex) (m : Z) : CBlockIndex :=
  mkIndex (phashBlock b) (pprev b) (pskip b) (nHeight b) (nStatus b) (nFlags b) m (bi_nTime b) (bi_nBits b)
    (vLotteryWinnersCoinstakes b).
Definition with_skip (b : CBlockIndex) (s : option ptr) : CBlockIndex :=
  mkIndex (phashBlock b) (pprev b) s (nHeight b) (nStatus b) (nFlags b) (nStakeModifier b) (bi_nTime b) (bi_nBits b)
    (vLotteryWinnersCoinstakes b).
Definition with_lottery (b : CBlockIndex) (d : LotteryCoinstakeData) : CBlockIndex :=
  mkIndex (phashBlock b) (pprev b) (pskip b) (nHeight b) (nStatus b) (nFlags b) (nStakeModifier b) (bi_nTime b) (bi_nBits b) d.

Definition GetBlockHash (b : CBlockIndex) : base_uint := phashBlock b.
Definition GetBlockTime (b : CBlockIndex) : Z := bi_nTime b.

Definition index_IsProofOfStake (b : CBlockIndex) : bool := negb (Z.land (nFlags b) BLOCK_PROOF_OF_STAKE =? 0).
Definition index_IsProofOfWork (b : CBlockIndex) : bool := Z.land (nFlags b) BLOCK_PROOF_OF_STAKE =? 0.
Definition SetProofOfStake (b : CBlockIndex) : CBlockIndex := with_flags b (Z.lor (nFlags b) BLOCK_PROOF_OF_STAKE).

(** [GetBlockHash().Get64() & 1] *)
Definition GetStakeEntropyBit (b : CBlockIndex) : Z := Z.land (GetLow64 (GetBlockHash b)) 1.
Definition SetStakeEntropyBit (b : CBlockIndex) (nEntropyBit : Z) : CBlockIndex * bool :=
  if 1 <? nEntropyBit then (b, false)
  else (with_flags b (Z.lor (nFlags b) (if nEntropyBit =? 0 then 0 else BLOCK_STAKE_ENTROPY)), true).

Definition GeneratedStakeModifier (b : CBlockIndex) : bool := negb (Z.land (nFlags b) BLOCK_STAKE_MODIFIER =? 0).
Definition SetStakeModifier (b : CBlockIndex) (nModifier : Z) (fGeneratedStakeModifier : bool) : CBlockIndex :=
  let b := with_modifier_value b nModifier in
  if fGeneratedStakeModifier then with_flags b (Z.lor (nFlags b) BLOCK_STAKE_MODIFIER) else b.

(** [assert(!(nUpTo & ~BLOCK_VALID_MASK))] *)
Definition valid_level (nUpTo : Z) : bool := Z.land nUpTo (Z.lnot BLOCK_VALID_MASK) =? 0.

Definition index_IsValid (b : CBlockIndex) (nUpTo : Z) : io bool :=
  oassert (valid_level nUpTo) ;;;
  if negb (Z.land (nStatus b) BLOCK_FAILED_MASK =? 0) then Ret false
  else Ret (nUpTo <=? Z.land (nStatus b) BLOCK_VALID_MASK).

Definition RaiseValidity (b : CBlockIndex) (nUpTo : Z) : io (CBlockIndex * bool) :=
  oassert (valid_level nUpTo) ;;;
  if negb (Z.land (nStatus b) BLOCK_FAILED_MASK =? 0) then Ret (b, false)
  else if Z.land (nStatus b) BLOCK_VALID_MASK <? nUpTo
  then Ret (with_status b (Z.lor (Z.land (nStatus b) (Z.lnot BLOCK_VALID_MASK)) nUpTo), true)
  else Ret (b, false).

(** Raising the validity makes the entry valid at that level, keeps every level it
    had and the data and failure bits, and reports whether anything changed. *)
Lemma RaiseValidity_spec b nUpTo : 0 <= nUpTo <= 5 -> 0 <= nStatus b -> Z.land (nStatus b) BLOCK_FAILED_MASK = 0 ->
  exists b' changed, RaiseValidity b nUpTo = Ret (b', changed) /\ index_IsValid b' nUpTo = Ret true /\
    Z.land (nStatus b') BLOCK_VALID_MASK = Z.max (Z.land (nStatus b) BLOCK_VALID_MASK) nUpTo /\
    Z.land (nStatus b') (Z.lnot BLOCK_VALID_MASK) = Z.land (nStatus b) (Z.lnot BLOCK_VALID_MASK) /\
    (changed = false -> b' = b).
Proof.
  intros Hn Hs Hf. unfold RaiseValidity, index_IsValid. change BLOCK_VALID_MASK with 7 in *. change BLOCK_FAILED_MASK with 96 in *.
  assert (valid_level nUpTo = true) as ->.
  { unfold valid_level. change BLOCK_VALID_MASK with 7. assert (nUpTo = 0 \/ nUpTo = 1 \/ nUpTo = 2 \/ nUpTo = 3 \/ nUpTo = 4 \/ nUpTo = 5) as [->|[->|[->|[->|[->| ->]]]]] by lia; reflexivity. }
  assert (Hup : Z.land nUpTo 7 = nUpTo /\ Z.land nUpTo (Z.lnot 7) = 0 /\ Z.land nUpTo 96 = 0).
  { assert (nUpTo = 0 \/ nUpTo = 1 \/ nUpTo = 2 \/ nUpTo = 3 \/ nUpTo = 4 \/ nUpTo = 5) as [->|[->|[->|[->|[->| ->]]]]] by lia; auto. }
  destruct Hup as (H7 & H0 & H96). cbn [oassert obind]. rewrite Hf. cbn [Z.eqb negb].
  destruct (Z.ltb_spec (Z.land (nStatus b) 7) nUpTo) as [Hlt|Hge].
  - eexists _, true. split; [reflexivity|]. cbn [nStatus with_status].
    rewrite !Z.land_lor_distr_l, <- !Z.land_assoc. change (Z.land (Z.lnot 7) 96) with 96. change (Z.land (Z.lnot 7) 7) with 0.
    change (Z.land (Z.lnot 7) (Z.lnot 7)) with (Z.lnot 7).
    rewrite Hf, H7, H0, H96, Z.land_0_r, ?Z.lor_0_l, ?Z.lor_0_r. cbn [Z.eqb negb]. rewrite Z.leb_refl.
    split; [reflexivity|]. split; [lia|]. split; [reflexivity|discriminate].
  - eexists b, false. split; [reflexivity|]. rewrite Hf. cbn [Z.eqb negb]. rewrite (proj2 (Z.leb_le _ _)) by lia.
    split; [reflexivity|]. split; [lia|]. auto.
Qed.
