(* ===== verification/Chain.v ===== *)
(** * The block tree and the active chain: [chain.cpp], [chain.h]

    Ancestors are found with skip pointers, the active chain is an array indexed by
    height.  [GetAncestor] agrees with following [pprev], [SetTip] keeps the array
    equal to the branch of the tip, [FindFork] and [LastCommonAncestor] find the
    last common block, and locators name ancestors down to the genesis block. *)

From Stdlib Require Import ZArith Lia Bool.
From stdpp Require Import base option numbers list gmap.
From S2P Require Import Prelude BaseUInt UInt256 Transaction BlockIndex.

Open Scope Z_scope.
Open Scope outcome_scope.

(** ** Skip heights *)

Definition InvertLowestOne (n : Z) : Z := Z.land n (n - 1).

Definition GetSkipHeight (height : Z) : Z :=
  if height <? 2 then 0
  else if negb (Z.land height 1 =? 0) then InvertLowestOne (InvertLowestOne (height - 1)) + 1
  else InvertLowestOne height.

(** [vChain]; [resize] appends null pointers. *)
Abbreviation CChain := (list (option ptr)).

Section Heap.
Variable heap : index_heap.

(** [while (heightWalk > height)] *)
Fixpoint ancestor_loop (fuel : nat) (pindexWalk : option ptr) (heightWalk height : Z) : io (option ptr) :=
  if heightWalk >? height then
    match fuel with
    | O => Undef
    | S fuel =>
        let heightSkip := GetSkipHeight heightWalk in
        let heightSkipPrev := GetSkipHeight (heightWalk - 1) in
        let* b := deref heap pindexWalk in
        if (heightSkip =? height) ||
           ((heightSkip >? height) && negb ((heightSkipPrev <? heightSkip - 2) && (heightSkipPrev >=? height)))
        then ancestor_loop fuel (pskip b) heightSkip height
        else ancestor_loop fuel (pprev b) (heightWalk - 1) height
    end
  else Ret pindexWalk.

Definition GetAncestor (this : option ptr) (height : Z) : io (option ptr) :=
  let* b := deref heap this in
  if (height >? nHeight b) || (height <? 0) then Ret None
  else ancestor_loop (Z.to_nat (nHeight b - height)) this (nHeight b) height.

(** The new skip pointer of an entry. *)
Definition BuildSkip (b : CBlockIndex) : io CBlockIndex :=
  match pprev b with
  | None => Ret b
  | Some p => let* s := GetAncestor (Some p) (GetSkipHeight (nHeight b)) in Ret (with_skip b s)
  end.

(** ** The last common ancestor *)

(** [while (pa != pb && pa && pb)] *)
Fixpoint common_loop (fuel : nat) (pa pb : option ptr) : io (option ptr * option ptr) :=
  if negb (bool_decide (pa = pb)) && match pa, pb with Some _, Some _ => true | _, _ => false end then
    match fuel with
    | O => Undef
    | S fuel =>
        let* a := deref heap pa in
        let* b := deref heap pb in
        common_loop fuel (pprev a) (pprev b)
    end
  else Ret (pa, pb).

Definition LastCommonAncestor (pa pb : option ptr) : io (option ptr) :=
  let* a := deref heap pa in
  let* b := deref heap pb in
  let* '(pa, pb) :=
    if nHeight a >? nHeight b then let* pa := GetAncestor pa (nHeight b) in Ret (pa, pb)
    else if nHeight b >? nHeight a then let* pb := GetAncestor pb (nHeight a) in Ret (pa, pb)
    else Ret (pa, pb) in
  let* '(pa, pb) := common_loop (S (Z.to_nat (Z.min (nHeight a) (nHeight b)))) pa pb in
  oassert (bool_decide (pa = pb)) ;;;
  Ret pa.

(** ** The active chain *)

Definition chain_at (c : CChain) (nHeight : Z) : option ptr :=
  if (nHeight <? 0) || (nHeight >=? zlen c) then None else mjoin (c !! Z.to_nat nHeight).

Definition chain_Height (c : CChain) : Z := zlen c - 1.
Definition chain_Tip (c : CChain) : option ptr := mjoin (last c).
Definition chain_Genesis (c : CChain) : option ptr := mjoin (head c).

Definition Contains (c : CChain) (pindex : option ptr) : io bool :=
  let* b := deref heap pindex in Ret (bool_decide (chain_at c (nHeight b) = pindex)).

Definition chain_Next (c : CChain) (pindex : option ptr) : io (option ptr) :=
  let* b := deref heap pindex in
  let* inside := Contains c pindex in
  Ret (if inside then chain_at c (nHeight b + 1) else None).

(** [vChain.resize(n)] *)
Definition chain_resize (c : CChain) (n : nat) : CChain := take n c ++ replicate (n - length c) None.

(** [while (pindex && vChain[pindex->nHeight] != pindex)] *)
Fixpoint settip_loop (fuel : nat) (vChain : CChain) (pindex : option ptr) : io CChain :=
  match pindex with
  | None => Ret vChain
  | Some _ =>
      let* b := deref heap pindex in
      oassert (0 <=? nHeight b) ;;;
      let* here := oaccess (vChain !! Z.to_nat (nHeight b)) in
      if bool_decide (here = pindex) then Ret vChain
      else match fuel with
           | O => Undef
           | S fuel => settip_loop fuel (<[Z.to_nat (nHeight b) := pindex]> vChain) (pprev b)
           end
  end.

Definition SetTip (vChain : CChain) (pindex : option ptr) : io CChain :=
  match pindex with
  | None => Ret []
  | Some _ =>
      let* b := deref heap pindex in
      settip_loop (Z.to_nat (nHeight b + 1)) (chain_resize vChain (Z.to_nat (nHeight b + 1))) pindex
  end.

(** [while (pindex && !Contains(pindex))] *)
Fixpoint fork_loop (fuel : nat) (c : CChain) (pindex : option ptr) : io (option ptr) :=
  match pindex with
  | None => Ret None
  | Some _ =>
      let* inside := Contains c pindex in
      if inside then Ret pindex
      else match fuel with
           | O => Undef
           | S fuel => let* b := deref heap pindex in fork_loop fuel c (pprev b)
           end
  end.

Definition FindFork (c : CChain) (pindex : option ptr) : io (option ptr) :=
  let* b := deref heap pindex in
  let* pindex := if nHeight b >? chain_Height c then GetAncestor pindex (chain_Height c) else Ret pindex in
  fork_loop (Z.to_nat (nHeight b + 1)) c pindex.

(** The loop of [GetLocator]: the hashes from [pindex] on, when [have] entries are
    listed already. *)
Fixpoint locator_loop (fuel : nat) (c : CChain) (pindex : option ptr) (nStep : Z) (have : Z) : io (list base_uint) :=
  match pindex with
  | None => Ret []
  | Some _ =>
      let* b := deref heap pindex in
      let have := have + 1 in
      if nHeight b =? 0 then Ret [GetBlockHash b]
      else match fuel with
           | O => Undef
           | S fuel =>
               let h := Z.max (nHeight b - nStep) 0 in
               let* inside := Contains c pindex in
               let* pindex := if inside then Ret (chain_at c h) else GetAncestor pindex h in
               let nStep := if have >? 10 then nStep * 2 else nStep in
               let* rest := locator_loop fuel c pindex nStep have in
               Ret (GetBlockHash b :: rest)
           end
  end.

Definition GetLocator (c : CChain) (pindex : option ptr) : io (list base_uint) :=
  let pindex := match pindex with None => chain_Tip c | Some _ => pindex end in
  match pindex with
  | None => Ret []
  | Some _ => let* b := deref heap pindex in locator_loop (Z.to_nat (nHeight b)) c pindex 1 0
  end.
End Heap.

(** ** Skip heights lie below *)

Lemma InvertLowestOne_bounds n : 0 <= n -> 0 <= InvertLowestOne n <= Z.max 0 (n - 1).
Proof.
  intros Hn. unfold InvertLowestOne. destruct (Z.eq_dec n 0) as [->|Hne]; [rewrite Z.land_0_l; lia|].
  assert (0 <= Z.land n (n - 1)) as H0 by (apply (proj2 (Z.land_nonneg _ _)); lia). split; [exact H0|].
  assert (0 <= Z.ldiff (n - 1) n) as H1 by (apply (proj2 (Z.ldiff_nonneg _ _)); lia).
  pose proof (Z.add_lor_land (Z.land (n - 1) n) (Z.ldiff (n - 1) n)) as Hs.
  assert (Z.lor (Z.land (n - 1) n) (Z.ldiff (n - 1) n) = n - 1) as E1.
  { apply Z.bits_inj'. intros i _. rewrite Z.lor_spec, Z.land_spec, Z.ldiff_spec.
    destruct (Z.testbit (n - 1) i), (Z.testbit n i); reflexivity. }
  assert (Z.land (Z.land (n - 1) n) (Z.ldiff (n - 1) n) = 0) as E2.
  { apply Z.bits_inj'. intros i _. rewrite !Z.land_spec, Z.ldiff_spec, Z.bits_0.
    destruct (Z.testbit (n - 1) i), (Z.testbit n i); reflexivity. }
  rewrite E1, E2, (Z.land_comm (n - 1) n) in Hs. lia.
Qed.

Lemma GetSkipHeight_bounds h : 1 <= h -> 0 <= GetSkipHeight h <= h - 1.
Proof.
  intros Hh. unfold GetSkipHeight. destruct (Z.ltb_spec h 2); [lia|].
  destruct (negb _).
  - pose proof (InvertLowestOne_bounds (h - 1) ltac:(lia)) as H1.
    pose proof (InvertLowestOne_bounds (InvertLowestOne (h - 1)) ltac:(lia)) as H2. lia.
  - pose proof (InvertLowestOne_bounds h ltac:(lia)). lia.
Qed.

(** ** Following [pprev] *)

Section Ancestors.
Variable heap : index_heap.

Fixpoint up (n : nat) (p : ptr) : option ptr :=
  match n with
  | O => Some p
  | S n => (heap !! p ≫= pprev) ≫= up n
  end.

(** The ancestor at a height, by following [pprev]. *)
Definition ancestor (p : ptr) (h : Z) : option ptr :=
  b ← heap !! p; if (0 <=? h) && (h <=? nHeight b) then up (Z.to_nat (nHeight b - h)) p else None.

(** The block is in the heap, at this height. *)
Definition at_height (p : ptr) (h : Z) : Prop := exists b, heap !! p = Some b /\ nHeight b = h.

Record entry_linked (p : ptr) (b : CBlockIndex) : Prop := mkLinked {
  li_height : 0 <= nHeight b;
  li_prev : match pprev b with None => nHeight b = 0 | Some q => at_height q (nHeight b - 1) end;
  li_skip : 0 < nHeight b -> pskip b = ancestor p (GetSkipHeight (nHeight b))
}.

Definition index_ok : Prop := map_Forall entry_linked heap.

Hypothesis Hok : index_ok.

Lemma up_height n : forall p h, at_height p h -> Z.of_nat n <= h ->
  exists q, up n p = Some q /\ at_height q (h - Z.of_nat n).
Proof.
  induction n as [|n IH]; intros p h (b & Hb & Hh) Hle; cbn [up].
  - exists p. split; [reflexivity|]. exists b. split; [exact Hb|lia].
  - rewrite Hb. cbn [mbind option_bind]. destruct (Hok p b Hb) as [_ Hp _].
    destruct (pprev b) as [q|] eqn:E; [|lia]. cbn [mbind option_bind].
    destruct (IH q (nHeight b - 1) Hp) as (r & Hr & Hr'); [lia|]. exists r. split; [exact Hr|].
    replace (h - Z.of_nat (S n)) with (nHeight b - 1 - Z.of_nat n) by lia. exact Hr'.
Qed.

Lemma up_add n : forall m p, up (n + m) p = up n p ≫= up m.
Proof.
  induction n as [|n IH]; intros m p; [reflexivity|]. cbn [up Nat.add]. destruct (heap !! p) as [b|]; [|reflexivity].
  cbn [mbind option_bind]. destruct (pprev b) as [q|]; [|reflexivity]. apply IH.
Qed.

Lemma at_height_nonneg p h : at_height p h -> 0 <= h.
Proof. intros (b & Hb & <-). apply (Hok p b Hb). Qed.

Lemma at_height_inj p h h' : at_height p h -> at_height p h' -> h = h'.
Proof. intros (b & Hb & <-) (b' & Hb' & <-). congruence. Qed.

Lemma ancestor_spec p h k : at_height p h -> 0 <= k <= h ->
  exists q, ancestor p k = Some q /\ at_height q k /\ up (Z.to_nat (h - k)) p = Some q.
Proof.
  intros Hp Hk. destruct (up_height (Z.to_nat (h - k)) p h Hp ltac:(lia)) as (q & Hq & Hq').
  replace (h - Z.of_nat (Z.to_nat (h - k))) with k in Hq' by lia. exists q. split; [|auto].
  destruct Hp as (b & Hb & <-). unfold ancestor. rewrite Hb. cbn [mbind option_bind].
  rewrite (proj2 (Z.leb_le 0 k)), (proj2 (Z.leb_le k _)) by lia. exact Hq.
Qed.

Lemma ancestor_self p h : at_height p h -> ancestor p h = Some p.
Proof.
  intros Hp. pose proof (at_height_nonneg p h Hp). destruct (ancestor_spec p h h Hp ltac:(lia)) as (q & -> & _ & Hq).
  rewrite Z.sub_diag in Hq. change (Z.to_nat 0) with 0%nat in Hq. cbn [up] in Hq. congruence.
Qed.

Lemma ancestor_trans p h q k j : at_height p h -> 0 <= j <= k -> k <= h -> ancestor p k = Some q -> ancestor q j = ancestor p j.
Proof.
  intros Hp Hj Hk Hq. destruct (ancestor_spec p h k Hp ltac:(lia)) as (q' & E & Hq' & Hu). rewrite Hq in E. injection E as <-.
  destruct (ancestor_spec q k j Hq' Hj) as (r & -> & _ & Hr). destruct (ancestor_spec p h j Hp ltac:(lia)) as (r' & -> & _ & Hr').
  replace (Z.to_nat (h - j)) with (Z.to_nat (h - k) + Z.to_nat (k - j))%nat in Hr' by lia.
  rewrite up_add, Hu in Hr'. cbn [mbind option_bind] in Hr'. congruence.
Qed.

Lemma ancestor_None p h k : at_height p h -> k < 0 \/ h < k -> ancestor p k = None.
Proof.
  intros (b & Hb & <-) Hk. unfold ancestor. rewrite Hb. cbn [mbind option_bind].
  destruct (Z.leb_spec 0 k), (Z.leb_spec k (nHeight b)); cbn; (reflexivity || lia).
Qed.

Lemma ancestor_prev p b : heap !! p = Some b -> 0 < nHeight b -> pprev b = ancestor p (nHeight b - 1).
Proof.
  intros Hb Hh. destruct (ancestor_spec p (nHeight b) (nHeight b - 1)) as (q & -> & _ & Hu); [exists b; auto|lia|].
  replace (Z.to_nat (nHeight b - (nHeight b - 1))) with 1%nat in Hu by lia. cbn [up] in Hu. rewrite Hb in Hu.
  cbn [mbind option_bind] in Hu. destruct (pprev b); [exact Hu|discriminate].
Qed.

Lemma deref_at p h : at_height p h -> exists b, heap !! p = Some b /\ nHeight b = h /\ deref heap (Some p) = Ret b.
Proof. intros (b & Hb & Hh). exists b. cbn. rewrite Hb. auto. Qed.

Lemma ancestor_loop_spec fuel : forall p h height, at_height p h -> 0 <= height <= h -> h - height <= Z.of_nat fuel ->
  ancestor_loop heap fuel (Some p) h height = Ret (ancestor p height).
Proof.
  induction fuel as [|fuel IH]; intros p h height Hp Hr Hf; cbn [ancestor_loop].
  - destruct (Z.gtb_spec h height); [lia|]. replace height with h by lia. rewrite (ancestor_self p h Hp). reflexivity.
  - destruct (Z.gtb_spec h height); [|replace height with h by lia; rewrite (ancestor_self p h Hp); reflexivity].
    destruct (deref_at p h Hp) as (b & Hb & Hh & ->). cbn [obind].
    pose proof (GetSkipHeight_bounds h ltac:(lia)) as Hs.
    destruct ((GetSkipHeight h =? height) || _) eqn:E.
    + assert (height <= GetSkipHeight h).
      { apply orb_true_iff in E as [E|E]; [lia|]. apply andb_true_iff in E as [E _]. destruct (Z.gtb_spec (GetSkipHeight h) height); [lia|discriminate]. }
      destruct (Hok p b Hb) as [_ _ Hskip]. rewrite Hh in Hskip. rewrite Hskip by lia.
      destruct (ancestor_spec p h (GetSkipHeight h) Hp ltac:(lia)) as (q & Hq & Hq' & _). rewrite Hq, IH by (assumption || lia).
      f_equal. apply (ancestor_trans p h q (GetSkipHeight h)); (assumption || lia).
    + rewrite (ancestor_prev p b Hb) by lia. rewrite Hh.
      destruct (ancestor_spec p h (h - 1) Hp ltac:(lia)) as (q & Hq & Hq' & _). rewrite Hq, IH by (assumption || lia).
      f_equal. apply (ancestor_trans p h q (h - 1)); (assumption || lia).
Qed.

Lemma GetAncestor_spec p h height : at_height p h -> GetAncestor heap (Some p) height = Ret (ancestor p height).
Proof.
  intros Hp. unfold GetAncestor. destruct (deref_at p h Hp) as (b & Hb & Hh & ->). cbn [obind]. rewrite Hh.
  destruct (Z.gtb_spec height h); [rewrite (ancestor_None p h) by (auto; lia); reflexivity|].
  destruct (Z.ltb_spec height 0); [rewrite (ancestor_None p h) by (auto; lia); reflexivity|]. cbn [orb].
  apply ancestor_loop_spec; (assumption || lia).
Qed.
End Ancestors.

(** ** Adding a block *)

(** A new entry of [AddToBlockIndex] on top of an existing one: [pprev], [nHeight]
    and [BuildSkip()].  The height is not wrapped: no chain reaches 2^31 blocks. *)
Definition link_new (heap : index_heap) (b : CBlockIndex) (prev : ptr) : io CBlockIndex :=
  let* a := deref heap (Some prev) in
  BuildSkip heap (mkIndex (phashBlock b) (Some prev) (pskip b) (nHeight a + 1) (nStatus b) (nFlags b) (nStakeModifier b)
    (bi_nTime b) (bi_nBits b) (vLotteryWinnersCoinstakes b)).

Section Grow.
Variable heap : index_heap.
Hypothesis Hok : index_ok heap.
Variables (p : ptr) (b : CBlockIndex).
Hypothesis Hfresh : heap !! p = None.

Lemma at_height_insert x h : at_height heap x h -> at_height (<[p := b]> heap) x h.
Proof.
  intros (c & Hc & Hh). exists c. rewrite lookup_insert_ne; [auto|]. congruence.
Qed.

Lemma up_insert n : forall x h, at_height heap x h -> up (<[p := b]> heap) n x = up heap n x.
Proof.
  induction n as [|n IH]; intros x h (c & Hc & Hh); [reflexivity|]. cbn [up].
  rewrite lookup_insert_ne by congruence. rewrite Hc. cbn [mbind option_bind]. destruct (Hok x c Hc) as [_ Hp _].
  destruct (pprev c) as [y|]; [|reflexivity]. apply (IH y _ Hp).
Qed.

Lemma ancestor_insert x h k : at_height heap x h -> ancestor (<[p := b]> heap) x k = ancestor heap x k.
Proof.
  intros Hx. pose proof (up_insert (Z.to_nat (h - k)) x h Hx) as Hu. destruct Hx as (c & Hc & <-).
  unfold ancestor. rewrite lookup_insert_ne by congruence. rewrite Hc. cbn [mbind option_bind]. rewrite Hu. reflexivity.
Qed.

Lemma index_insert q : pprev b = Some q -> at_height heap q (nHeight b - 1) ->
  pskip b = ancestor heap q (GetSkipHeight (nHeight b)) -> index_ok (<[p := b]> heap).
Proof.
  intros Hp Hq Hs. pose proof (at_height_nonneg heap Hok q _ Hq) as H0. apply map_Forall_insert_2.
  - constructor; [lia|rewrite Hp; apply at_height_insert, Hq|]. intros _. rewrite Hs.
    pose proof (GetSkipHeight_bounds (nHeight b) ltac:(lia)) as Hb.
    unfold ancestor at 2. rewrite lookup_insert_eq. cbn [mbind option_bind].
    rewrite (proj2 (Z.leb_le 0 _)), (proj2 (Z.leb_le _ (nHeight b))) by lia. cbn [andb].
    destruct (ancestor_spec heap Hok q _ (GetSkipHeight (nHeight b)) Hq ltac:(lia)) as (r & -> & _ & Hr).
    replace (Z.to_nat (nHeight b - GetSkipHeight (nHeight b))) with (S (Z.to_nat (nHeight b - 1 - GetSkipHeight (nHeight b)))) by lia.
    cbn [up]. rewrite lookup_insert_eq. cbn [mbind option_bind]. rewrite Hp. cbn [mbind option_bind].
    rewrite (up_insert _ q _ Hq). auto.
  - intros x c Hc. destruct (Hok x c Hc) as [L1 L2 L3]. assert (at_height heap x (nHeight c)) as Hx by (exists c; auto). constructor.
    + exact L1.
    + destruct (pprev c); [apply at_height_insert|]; exact L2.
    + intros H. rewrite (ancestor_insert x (nHeight c)) by exact Hx. auto.
Qed.
End Grow.

Lemma link_new_spec heap b q h : index_ok heap -> at_height heap q h ->
  exists b', link_new heap b q = Ret b' /\ pprev b' = Some q /\ nHeight b' = h + 1 /\
    pskip b' = ancestor heap q (GetSkipHeight (h + 1)).
Proof.
  intros Hok Hq. unfold link_new. destruct (deref_at heap q h Hq) as (a & Ha & Hh & ->). cbn [obind BuildSkip pprev nHeight].
  rewrite (GetAncestor_spec heap Hok q h _ Hq), Hh. cbn [obind]. eexists. split; [reflexivity|]. cbn. auto.
Qed.

(** ** The active chain *)

(** The array is the branch that ends in [t]. *)
Definition chain_for (heap : index_heap) (c : CChain) (t : ptr) : Prop :=
  exists h, at_height heap t h /\ zlen c = h + 1 /\ forall k, chain_at c k = ancestor heap t k.

Definition chain_ok (heap : index_heap) (c : CChain) : Prop := c = [] \/ exists t, chain_for heap c t.

Lemma chain_at_lookup c k : 0 <= k -> chain_at c k = mjoin (c !! Z.to_nat k).
Proof.
  intros Hk. unfold chain_at. destruct (Z.ltb_spec k 0); [lia|]. cbn [orb]. rewrite Z.geb_leb.
  destruct (Z.leb_spec (zlen c) k) as [Hz|]; [|reflexivity]. rewrite (lookup_ge_None_2 c); [reflexivity|]. unfold zlen in Hz. lia.
Qed.

Lemma chain_at_resize c n k : 0 <= k < Z.of_nat n -> chain_at (chain_resize c n) k = chain_at c k.
Proof.
  intros Hk. rewrite !chain_at_lookup by lia. unfold chain_resize.
  destruct (decide (Z.to_nat k < length c)%nat) as [Hl|Hl].
  - rewrite lookup_app_l by (rewrite length_take; lia). rewrite lookup_take_lt by lia. reflexivity.
  - rewrite lookup_app_r by (rewrite length_take; lia). rewrite (lookup_ge_None_2 c) by lia.
    rewrite length_take. destruct (replicate _ None !! _) as [x|] eqn:E; [|reflexivity].
    apply lookup_replicate in E as [-> _]. reflexivity.
Qed.

Section Tip.
Variable heap : index_heap.
Hypothesis Hok : index_ok heap.

Lemma chain_shared c q k p h : chain_ok heap c -> at_height heap p h -> 0 <= k <= h -> ancestor heap p k = Some q ->
  chain_at c k = Some q -> forall j, 0 <= j <= k -> chain_at c j = ancestor heap p j.
Proof.
  intros [->|(t & ht & Ht & Hlen & Hc)] Hp Hk Hq Hin j Hj.
  - rewrite chain_at_lookup in Hin by lia. discriminate.
  - rewrite Hc in *. assert (k <= ht).
    { destruct (Z.le_gt_cases k ht); [assumption|]. rewrite (ancestor_None heap t ht) in Hin by (auto; lia). discriminate. }
    rewrite <- (ancestor_trans heap Hok t ht q k j), <- (ancestor_trans heap Hok p h q k j) by (assumption || lia). reflexivity.
Qed.

Lemma settip_loop_spec p h c : at_height heap p h -> chain_ok heap c ->
  forall fuel v k q, zlen v = h + 1 -> 0 <= k <= h -> ancestor heap p k = Some q -> k < Z.of_nat fuel ->
    (forall j, k < j <= h -> chain_at v j = ancestor heap p j) -> (forall j, 0 <= j <= k -> chain_at v j = chain_at c j) ->
    exists c', settip_loop heap fuel v (Some q) = Ret c' /\ zlen c' = h + 1 /\
      forall j, 0 <= j <= h -> chain_at c' j = ancestor heap p j.
Proof.
  intros Hp Hc. induction fuel as [|fuel IH]; intros v k q Hv Hk Hq Hf Hhi Hlo; [lia|]. cbn [settip_loop].
  destruct (ancestor_spec heap Hok p h k Hp Hk) as (q' & E & Hqk & _). rewrite Hq in E. injection E as <-.
  destruct (deref_at heap q k Hqk) as (b & Hb & Hh & ->). cbn [obind]. rewrite Hh, (proj2 (Z.leb_le 0 k)) by lia. cbn [oassert obind].
  destruct (lookup_lt_is_Some_2 v (Z.to_nat k)) as [here Hhere]; [unfold zlen in Hv; lia|]. rewrite Hhere. cbn [oaccess obind].
  case_bool_decide as Heq.
  - exists v. split; [reflexivity|]. split; [exact Hv|]. intros j Hj. destruct (Z.le_gt_cases j k); [|apply Hhi; lia].
    rewrite Hlo by lia. apply (chain_shared c q k p h); auto; try lia. rewrite <- Hlo by lia.
    rewrite chain_at_lookup, Hhere by lia. subst here. reflexivity.
  - assert (Hv' : zlen (<[Z.to_nat k := Some q]> v) = h + 1) by (unfold zlen in *; rewrite length_insert; exact Hv).
    assert (Hhi' : forall j, k - 1 < j <= h -> chain_at (<[Z.to_nat k := Some q]> v) j = ancestor heap p j).
    { intros j Hj. rewrite chain_at_lookup by lia. destruct (Z.eq_dec j k) as [->|Hne].
      - rewrite list_lookup_insert_eq by (unfold zlen in Hv; lia). auto.
      - rewrite list_lookup_insert_ne by lia. rewrite <- chain_at_lookup by lia. apply Hhi. lia. }
    destruct (Z.eq_dec k 0) as [->|Hk0].
    + destruct (Hok q b Hb) as [_ Hpv _]. destruct (pprev b) as [x|].
      { exfalso. pose proof (at_height_nonneg heap Hok _ _ Hpv). lia. }
      exists (<[Z.to_nat 0 := Some q]> v). split; [destruct fuel; reflexivity|]. split; [exact Hv'|]. intros j Hj. apply Hhi'. lia.
    + rewrite (ancestor_prev heap Hok q b Hb) by lia. rewrite Hh.
      rewrite (ancestor_trans heap Hok p h q k (k - 1)) by (assumption || lia).
      destruct (ancestor_spec heap Hok p h (k - 1) Hp ltac:(lia)) as (x & Hx & _). rewrite Hx.
      apply (IH _ (k - 1)); [exact Hv'|lia|exact Hx|lia|exact Hhi'|].
      intros j Hj. rewrite chain_at_lookup by lia. rewrite list_lookup_insert_ne by lia.
      rewrite <- chain_at_lookup by lia. apply Hlo. lia.
Qed.

Lemma SetTip_spec c p h : at_height heap p h -> chain_ok heap c ->
  exists c', SetTip heap c (Some p) = Ret c' /\ chain_for heap c' p.
Proof.
  intros Hp Hc. pose proof (at_height_nonneg heap Hok p h Hp) as H0. unfold SetTip.
  destruct (deref_at heap p h Hp) as (b & Hb & Hh & ->). cbn [obind]. rewrite Hh.
  destruct (settip_loop_spec p h c Hp Hc (Z.to_nat (h + 1)) (chain_resize c (Z.to_nat (h + 1))) h p) as (c' & E & Hlen & Hat).
  - unfold zlen, chain_resize. rewrite length_app, length_take, length_replicate. lia.
  - lia.
  - apply (ancestor_self heap Hok p h Hp).
  - lia.
  - lia.
  - intros j Hj. apply chain_at_resize. lia.
  - exists c'. split; [exact E|]. exists h. split; [exact Hp|]. split; [exact Hlen|]. intros k.
    destruct (decide (0 <= k <= h)) as [Hk|Hk]; [apply Hat, Hk|]. rewrite (ancestor_None heap p h) by (auto; lia).
    unfold chain_at. destruct (Z.ltb_spec k 0); [reflexivity|]. rewrite Z.geb_leb, (proj2 (Z.leb_le _ _)) by lia. reflexivity.
Qed.
End Tip.

(** ** Fork points *)

(** The highest block on both branches, [None] when they share none. *)
Definition last_common (heap : index_heap) (p t : ptr) (r : option ptr) : Prop :=
  match r with
  | Some q => exists k, ancestor heap p k = Some q /\ ancestor heap t k = Some q /\
      forall j x, k < j -> ancestor heap p j = Some x -> ancestor heap t j <> Some x
  | None => forall j x, ancestor heap p j = Some x -> ancestor heap t j <> Some x
  end.

Section Forks.
Variable heap : index_heap.
Hypothesis Hok : index_ok heap.

Lemma ancestor_range p h k x : at_height heap p h -> ancestor heap p k = Some x -> 0 <= k <= h.
Proof.
  intros Hp Hx. destruct (decide (0 <= k <= h)) as [|Hk]; [assumption|].
  rewrite (ancestor_None heap p h) in Hx by (auto; lia). discriminate.
Qed.

Lemma Contains_spec c t q k : chain_for heap c t -> at_height heap q k ->
  Contains heap c (Some q) = Ret (bool_decide (ancestor heap t k = Some q)).
Proof.
  intros (ht & _ & _ & Hc) Hq. unfold Contains. destruct (deref_at heap q k Hq) as (b & _ & Hh & ->). cbn [obind].
  rewrite Hh, Hc. reflexivity.
Qed.

(** Going down one block from height [k] on the branch of [p]. *)
Lemma prev_on_branch p h q k b : at_height heap p h -> 0 <= k <= h -> ancestor heap p k = Some q -> heap !! q = Some b ->
  pprev b = (if k =? 0 then None else ancestor heap p (k - 1)) /\ nHeight b = k.
Proof.
  intros Hp Hk Hq Hb. destruct (ancestor_spec heap Hok p h k Hp Hk) as (q' & E & (b' & Hb' & Hh) & _).
  rewrite Hq in E. injection E as <-. rewrite Hb in Hb'. injection Hb' as <-. split; [|exact Hh].
  destruct (Z.eqb_spec k 0) as [->|Hne].
  - destruct (Hok q b Hb) as [_ Hpv _]. destruct (pprev b) as [x|]; [|reflexivity].
    pose proof (at_height_nonneg heap Hok _ _ Hpv). lia.
  - rewrite (ancestor_prev heap Hok q b Hb) by lia. rewrite Hh. apply (ancestor_trans heap Hok p h q k); (assumption || lia).
Qed.

Lemma fork_loop_spec c t p h : chain_for heap c t -> at_height heap p h ->
  forall fuel k q, 0 <= k <= h -> ancestor heap p k = Some q -> k < Z.of_nat fuel ->
    (forall j x, k < j -> ancestor heap p j = Some x -> ancestor heap t j <> Some x) ->
    exists r, fork_loop heap fuel c (Some q) = Ret r /\ last_common heap p t r.
Proof.
  intros Hc Hp. induction fuel as [|fuel IH]; intros k q Hk Hq Hf Hhi; [lia|]. cbn [fork_loop].
  destruct (ancestor_spec heap Hok p h k Hp Hk) as (q' & E & Hqk & _). rewrite Hq in E. injection E as <-.
  rewrite (Contains_spec c t q k Hc Hqk). cbn [obind]. case_bool_decide as Hin; [exists (Some q); split; [reflexivity|exists k; auto]|].
  destruct (deref_at heap q k Hqk) as (b & Hb & _ & ->). cbn [obind].
  destruct (prev_on_branch p h q k b Hp Hk Hq Hb) as [-> _].
  assert (Hhi' : forall j x, k - 1 < j -> ancestor heap p j = Some x -> ancestor heap t j <> Some x).
  { intros j x Hj Hx. destruct (Z.eq_dec j k) as [->|]; [|apply Hhi; auto; lia]. rewrite Hq in Hx. injection Hx as <-. exact Hin. }
  destruct (Z.eqb_spec k 0) as [->|Hne].
  - exists None. split; [destruct fuel; reflexivity|]. intros j x Hx. pose proof (ancestor_range p h j x Hp Hx). apply Hhi'; auto; lia.
  - destruct (ancestor_spec heap Hok p h (k - 1) Hp ltac:(lia)) as (x & Hx & _). rewrite Hx.
    apply (IH (k - 1) x); auto; lia.
Qed.

Lemma FindFork_spec c t p h : chain_for heap c t -> at_height heap p h ->
  exists r, FindFork heap c (Some p) = Ret r /\ last_common heap p t r.
Proof.
  intros Hc Hp. pose proof Hc as (ht & Ht & Hlen & Hat). unfold FindFork, chain_Height. rewrite Hlen.
  destruct (deref_at heap p h Hp) as (b & Hb & Hh & ->). cbn [obind]. rewrite Hh.
  pose proof (at_height_nonneg heap Hok t ht Ht). pose proof (at_height_nonneg heap Hok p h Hp).
  replace (ht + 1 - 1) with ht by lia. destruct (Z.gtb_spec h ht).
  - rewrite (GetAncestor_spec heap Hok p h ht Hp). cbn [obind].
    destruct (ancestor_spec heap Hok p h ht Hp ltac:(lia)) as (q & Hq & _). rewrite Hq.
    apply (fork_loop_spec c t p h Hc Hp _ ht); [lia|exact Hq|lia|].
    intros j x Hj _ Hx. pose proof (ancestor_range t ht j x Ht Hx). lia.
  - cbn [obind]. apply (fork_loop_spec c t p h Hc Hp _ h); [lia|apply (ancestor_self heap Hok), Hp|lia|].
    intros j x Hj Hx. pose proof (ancestor_range p h j x Hp Hx). lia.
Qed.

Lemma common_loop_spec p t hp ht : at_height heap p hp -> at_height heap t ht ->
  forall fuel k q r, 0 <= k <= Z.min hp ht -> ancestor heap p k = Some q -> ancestor heap t k = Some r -> k < Z.of_nat fuel ->
    (forall j x, k < j -> ancestor heap p j = Some x -> ancestor heap t j <> Some x) ->
    exists x, common_loop heap fuel (Some q) (Some r) = Ret (x, x) /\ last_common heap p t x.
Proof.
  intros Hp Ht. induction fuel as [|fuel IH]; intros k q r Hk Hq Hr Hf Hhi; [lia|]. cbn [common_loop].
  case_bool_decide as Heq; cbn [negb andb].
  - injection Heq as ->. exists (Some r). split; [reflexivity|]. exists k. auto.
  - destruct (ancestor_spec heap Hok p hp k Hp ltac:(lia)) as (q' & E & Hqk & _). rewrite Hq in E. injection E as <-.
    destruct (ancestor_spec heap Hok t ht k Ht ltac:(lia)) as (r' & E & Hrk & _). rewrite Hr in E. injection E as <-.
    destruct (deref_at heap q k Hqk) as (a & Ha & _ & ->). destruct (deref_at heap r k Hrk) as (b & Hb & _ & ->). cbn [obind].
    destruct (prev_on_branch p hp q k a Hp ltac:(lia) Hq Ha) as [-> _].
    destruct (prev_on_branch t ht r k b Ht ltac:(lia) Hr Hb) as [-> _].
    assert (Hhi' : forall j x, k - 1 < j -> ancestor heap p j = Some x -> ancestor heap t j <> Some x).
    { intros j x Hj Hx. destruct (Z.eq_dec j k) as [->|]; [|apply Hhi; auto; lia]. congruence. }
    destruct (Z.eqb_spec k 0) as [->|Hne].
    + exists None. split; [destruct fuel; reflexivity|]. intros j x Hx. pose proof (ancestor_range p hp j x Hp Hx). apply Hhi'; auto; lia.
    + destruct (ancestor_spec heap Hok p hp (k - 1) Hp ltac:(lia)) as (x & Hx & _).
      destruct (ancestor_spec heap Hok t ht (k - 1) Ht ltac:(lia)) as (y & Hy & _). rewrite Hx, Hy.
      apply (IH (k - 1)); auto; lia.
Qed.

Lemma LastCommonAncestor_spec p t hp ht : at_height heap p hp -> at_height heap t ht ->
  exists r, LastCommonAncestor heap (Some p) (Some t) = Ret r /\ last_common heap p t r.
Proof.
  intros Hp Ht. unfold LastCommonAncestor.
  destruct (deref_at heap p hp Hp) as (a & Ha & Hha & ->). destruct (deref_at heap t ht Ht) as (b & Hb & Hhb & ->).
  cbn [obind]. rewrite Hha, Hhb.
  pose proof (at_height_nonneg heap Hok t ht Ht). pose proof (at_height_nonneg heap Hok p hp Hp).
  destruct (ancestor_spec heap Hok p hp (Z.min hp ht) Hp ltac:(lia)) as (q & Hq & _).
  destruct (ancestor_spec heap Hok t ht (Z.min hp ht) Ht ltac:(lia)) as (r & Hr & _).
  assert ((if hp >? ht then let* pa := GetAncestor heap (Some p) ht in Ret (pa, Some t)
    else if ht >? hp then let* pb := GetAncestor heap (Some t) hp in Ret (Some p, pb) else Ret (Some p, Some t)) =
    (Ret (Some q, Some r) : io (option ptr * option ptr))) as ->.
  { rewrite (GetAncestor_spec heap Hok p hp ht Hp), (GetAncestor_spec heap Hok t ht hp Ht). cbn [obind].
    pose proof (ancestor_self heap Hok p hp Hp). pose proof (ancestor_self heap Hok t ht Ht).
    destruct (Z.gtb_spec hp ht); [replace (Z.min hp ht) with ht in * by lia; congruence|].
    destruct (Z.gtb_spec ht hp); [replace (Z.min hp ht) with hp in * by lia; congruence|].
    replace ht with hp in * by lia. replace (Z.min hp hp) with hp in * by lia. congruence. }
  cbn [obind]. destruct (common_loop_spec p t hp ht Hp Ht (S (Z.to_nat (Z.min hp ht))) (Z.min hp ht) q r) as (x & -> & Hx); auto; try lia.
  - intros j y Hj Hy Hz. pose proof (ancestor_range p hp j y Hp Hy). pose proof (ancestor_range t ht j y Ht Hz). lia.
  - cbn [obind]. rewrite bool_decide_eq_true_2 by reflexivity. cbn [oassert obind]. eauto.
Qed.
End Forks.

(** ** Locators *)

(** The heights a locator lists: steps of one, then doubling steps. *)
Fixpoint locator_heights (fuel : nat) (h nStep have : Z) : list Z :=
  if h =? 0 then [0]
  else match fuel with
       | O => []
       | S fuel => h :: locator_heights fuel (Z.max (h - nStep) 0) (if have + 1 >? 10 then nStep * 2 else nStep) (have + 1)
       end.

Definition block_hash_at (heap : index_heap) (p : ptr) (k : Z) : base_uint :=
  match ancestor heap p k ≫= (fun q => heap !! q) with Some b => GetBlockHash b | None => uint256_null end.

Lemma locator_loop_spec heap c p h : index_ok heap -> chain_ok heap c -> at_height heap p h ->
  forall fuel k q nStep have, 0 <= k <= h -> ancestor heap p k = Some q -> 1 <= nStep -> k <= Z.of_nat fuel ->
    locator_loop heap fuel c (Some q) nStep have = Ret (map (block_hash_at heap p) (locator_heights fuel k nStep have)).
Proof.
  intros Hok Hc Hp. induction fuel as [|fuel IH]; intros k q nStep have Hk Hq Hs Hf; cbn [locator_loop locator_heights].
  all: destruct (ancestor_spec heap Hok p h k Hp Hk) as (q' & E & Hqk & _); rewrite Hq in E; injection E as <-.
  all: destruct (deref_at heap q k Hqk) as (b & Hb & Hh & ->); cbn [obind]; rewrite Hh.
  all: assert (Hhash : block_hash_at heap p k = GetBlockHash b) by (unfold block_hash_at; rewrite Hq; cbn [mbind option_bind]; rewrite Hb; reflexivity).
  all: destruct (Z.eqb_spec k 0) as [->|Hne]; [cbn [map]; rewrite Hhash; reflexivity|].
  1: lia.
  unfold Contains. destruct (deref_at heap q k Hqk) as (b2 & Hb2 & Hh2 & ->). cbn [obind]. rewrite Hh2.
  set (k' := Z.max (k - nStep) 0). assert (0 <= k' < k) as Hk' by lia.
  assert ((if bool_decide (chain_at c k = Some q) then Ret (chain_at c k') else GetAncestor heap (Some q) k') =
    (Ret (ancestor heap p k') : io (option ptr))) as ->.
  { case_bool_decide as Hin.
    - rewrite (chain_shared heap Hok c q k p h Hc Hp Hk Hq Hin k') by lia. reflexivity.
    - rewrite (GetAncestor_spec heap Hok q k k' Hqk). f_equal. apply (ancestor_trans heap Hok p h q k); (assumption || lia). }
  cbn [obind]. destruct (ancestor_spec heap Hok p h k' Hp ltac:(lia)) as (x & Hx & _). rewrite Hx.
  rewrite (IH k' x); [|lia|exact Hx|destruct (have + 1 >? 10); lia|lia]. cbn [obind map]. rewrite Hhash. reflexivity.
Qed.

Lemma locator_heights_desc fuel : forall h nStep have, 0 <= h <= Z.of_nat fuel -> 1 <= nStep ->
  exists l, locator_heights fuel h nStep have = l ++ [0] /\ Forall (fun k => 0 < k <= h) l /\ (0 < h -> head l = Some h).
Proof.
  induction fuel as [|fuel IH]; intros h nStep have Hh Hs; cbn [locator_heights].
  - replace h with 0 by lia. exists []. repeat split; [constructor|lia].
  - destruct (Z.eqb_spec h 0) as [->|Hne]; [exists []; repeat split; [constructor|lia]|].
    destruct (IH (Z.max (h - nStep) 0) (if have + 1 >? 10 then nStep * 2 else nStep) (have + 1)) as (l & -> & Hl & _);
      [lia|destruct (have + 1 >? 10); lia|]. exists (h :: l). split; [reflexivity|]. split; [|reflexivity].
    constructor; [lia|]. eapply Forall_impl; [exact Hl|]. cbn. lia.
Qed.

(** Once steps double, [m] more entries reach back [2 ^ m - 1] steps. *)
Lemma locator_doubling m : forall fuel h nStep have, 0 <= h -> 1 <= nStep -> 10 <= have -> h <= nStep * (2 ^ Z.of_nat m - 1) ->
  (length (locator_heights fuel h nStep have) <= m + 1)%nat.
Proof.
  induction m as [|m IH]; intros fuel h nStep have Hh Hs Hv Hb.
  - replace h with 0 by (cbn in Hb; lia). destruct fuel; cbn; lia.
  - destruct fuel as [|fuel]; cbn [locator_heights]; destruct (h =? 0); cbn [length]; try lia.
    destruct (Z.gtb_spec (have + 1) 10); [|lia].
    rewrite Nat2Z.inj_succ, Z.pow_succ_r in Hb by lia.
    specialize (IH fuel (Z.max (h - nStep) 0) (nStep * 2) (have + 1) ltac:(lia) ltac:(lia) ltac:(lia)). 
    assert (1 <= 2 ^ Z.of_nat m) by (pose proof (Z.pow_pos_nonneg 2 (Z.of_nat m)); lia).
    specialize (IH ltac:(nia)). lia.
Qed.

Lemma locator_length m : forall n fuel h have, 0 <= h <= 2 ^ Z.of_nat m - 1 -> 10 - Z.of_nat n <= have ->
  (length (locator_heights fuel h 1 have) <= n + m + 1)%nat.
Proof.
  induction n as [|n IH]; intros fuel h have Hh Hv.
  - apply (locator_doubling m fuel h 1 have); lia.
  - destruct fuel as [|fuel]; cbn [locator_heights]; destruct (h =? 0); cbn [length]; try lia.
    destruct (Z.gtb_spec (have + 1) 10).
    + assert (length (locator_heights fuel (Z.max (h - 1) 0) (1 * 2) (have + 1)) <= m + 1)%nat; [|lia].
      apply locator_doubling; lia.
    + specialize (IH fuel (Z.max (h - 1) 0) (have + 1) ltac:(lia) ltac:(lia)). lia.
Qed.

(** ** The block tree as it grows *)

(** Entries are added on top of existing ones, the tip moves to any entry. *)
Inductive chain_step : index_heap * CChain -> index_heap * CChain -> Prop :=
| step_genesis p b c : pprev b = None -> nHeight b = 0 -> chain_step (∅, c) ({[ p := b ]}, c)
| step_add heap c p q b b' : heap !! p = None -> link_new heap b q = Ret b' -> chain_step (heap, c) (<[p := b']> heap, c)
| step_tip heap c p c' : SetTip heap c p = Ret c' -> chain_step (heap, c) (heap, c').

Lemma chain_for_insert heap c t p b : index_ok heap -> heap !! p = None -> chain_for heap c t -> chain_for (<[p := b]> heap) c t.
Proof.
  intros Hok Hp (h & Ht & Hlen & Hat). exists h. split; [apply at_height_insert; assumption|]. split; [exact Hlen|].
  intros k. rewrite (ancestor_insert heap Hok p b Hp t h) by exact Ht. apply Hat.
Qed.

Lemma chain_ok_step s s' : chain_step s s' -> index_ok s.1 /\ chain_ok s.1 s.2 -> index_ok s'.1 /\ chain_ok s'.1 s'.2.
Proof.
  intros Hs [Hok Hc]. destruct Hs as [p b c Hp Hh|heap c p q b b' Hp Hl|heap c p c' Ht]; cbn [fst snd] in *.
  - split.
    + apply map_Forall_singleton. constructor; [lia|rewrite Hp; exact Hh|lia].
    + destruct Hc as [->|(t & h & (x & Hx & _) & _)]; [left; reflexivity|]. rewrite lookup_empty in Hx. discriminate.
  - destruct (heap !! q) as [a|] eqn:Hq.
    + destruct (link_new_spec heap b q (nHeight a) Hok) as (b2 & E & Hp2 & Hh2 & Hs2); [exists a; auto|].
      rewrite Hl in E. injection E as <-. split.
      * apply (index_insert heap Hok p b' Hp q Hp2); rewrite Hh2; [|exact Hs2]. exists a. split; [exact Hq|lia].
      * destruct Hc as [->|(t & Ht)]; [left; reflexivity|right; exists t; apply chain_for_insert; assumption].
    + unfold link_new in Hl. cbn in Hl. rewrite Hq in Hl. discriminate.
  - split; [exact Hok|]. destruct p as [p|]; [|cbn in Ht; injection Ht as <-; left; reflexivity].
    destruct (heap !! p) as [b|] eqn:Hp; [|cbn in Ht; rewrite Hp in Ht; discriminate].
    destruct (SetTip_spec heap Hok c p (nHeight b)) as (c2 & E & Hc2); [exists b; auto|exact Hc|].
    rewrite Ht in E. injection E as <-. right. eauto.
Qed.

Definition chain_reachable (heap : index_heap) (c : CChain) : Prop := rtc chain_step (∅, []) (heap, c).

Lemma chain_reachable_ok heap c : chain_reachable heap c -> index_ok heap /\ chain_ok heap c.
Proof.
  intros H. change (index_ok (heap, c).1 /\ chain_ok (heap, c).1 (heap, c).2).
  revert H. unfold chain_reachable. generalize (heap, c). intros s Hs.
  refine (rtc_ind_r (R:=chain_step) (fun s => index_ok s.1 /\ chain_ok s.1 s.2) (∅, []) _ _ s Hs).
  - split; [apply map_Forall_empty|left; reflexivity].
  - intros y z _ Hyz H. apply (chain_ok_step y z Hyz H).
Qed.

(** C36: In every block tree built by adding entries with [BuildSkip] and moving
    the tip with [SetTip], in any order and with any reorganisations: the skip-list
    search [GetAncestor] returns the ancestor that following [pprev] gives and null
    outside the branch, without dereferencing a null pointer; a further entry can be
    linked; [SetTip] returns and makes the array exactly the branch of the new tip. *)
Theorem chain_invariant heap c p b : chain_reachable heap c -> heap !! p = Some b ->
  (forall height, GetAncestor heap (Some p) height = Ret (ancestor heap p height)) /\
  (forall e, exists e', link_new heap e p = Ret e' /\ nHeight e' = nHeight b + 1) /\
  (exists c', SetTip heap c (Some p) = Ret c' /\ zlen c' = nHeight b + 1 /\ forall k, chain_at c' k = ancestor heap p k).
Proof.
  intros Hr Hb. destruct (chain_reachable_ok heap c Hr) as [Hok Hc].
  assert (Hp : at_height heap p (nHeight b)) by (exists b; auto). split; [|split].
  - intros height. apply (GetAncestor_spec heap Hok p (nHeight b)), Hp.
  - intros e. destruct (link_new_spec heap e p (nHeight b) Hok Hp) as (e' & E & _ & H & _). eauto.
  - destruct (SetTip_spec heap Hok c p (nHeight b) Hp Hc) as (c' & E & h & Hh & Hlen & Hat). exists c'.
    rewrite (at_height_inj heap p _ _ Hp Hh). auto.
Qed.

(** [LastCommonAncestor] of two blocks and [FindFork] of a block and the
    active chain return the highest block on both branches, null when there is
    none; the assertion in the former holds and both loops end. *)
Theorem fork_points heap c p b t : chain_reachable heap c -> heap !! p = Some b -> is_Some (heap !! t) ->
  (exists r, LastCommonAncestor heap (Some p) (Some t) = Ret r /\ last_common heap p t r) /\
  (exists r, FindFork heap c (Some p) = Ret r /\
     ((c = [] /\ r = None) \/ exists tip, chain_Tip c = Some tip /\ last_common heap p tip r)).
Proof.
  intros Hr Hb [a Ha]. destruct (chain_reachable_ok heap c Hr) as [Hok Hc].
  assert (Hp : at_height heap p (nHeight b)) by (exists b; auto). assert (Ht : at_height heap t (nHeight a)) by (exists a; auto).
  split; [exact (LastCommonAncestor_spec heap Hok p t _ _ Hp Ht)|]. pose proof (at_height_nonneg heap Hok p _ Hp) as H0.
  destruct Hc as [->|(tip & Htip)].
  - exists None. split; [|auto]. unfold FindFork. cbn [deref oaccess obind]. rewrite Hb. cbn [oaccess obind].
    change (chain_Height []) with (-1). destruct (Z.gtb_spec (nHeight b) (-1)); [|lia].
    rewrite (GetAncestor_spec heap Hok p (nHeight b)) by exact Hp. rewrite (ancestor_None heap p (nHeight b)) by (auto; lia).
    cbn [obind]. destruct (Z.to_nat _); reflexivity.
  - destruct (FindFork_spec heap Hok c tip p _ Htip Hp) as (r & E & Hl). exists r. split; [exact E|]. right. exists tip.
    split; [|exact Hl]. destruct Htip as (h & Hh & Hlen & Hat). pose proof (at_height_nonneg heap Hok tip h Hh).
    specialize (Hat h). rewrite (ancestor_self heap Hok tip h Hh), chain_at_lookup in Hat by lia.
    unfold chain_Tip. rewrite last_lookup. replace (pred (length c)) with (Z.to_nat h) by (unfold zlen in Hlen; lia). exact Hat.
Qed.

(** A locator of a block lists the hashes of the block itself and of ancestors
    at falling heights down to the genesis block, at most eleven more than the
    binary length of its height, whether or not the block is on the active chain. *)
Theorem locator_correct heap c p b : chain_reachable heap c -> heap !! p = Some b ->
  exists l, GetLocator heap c (Some p) = Ret (map (block_hash_at heap p) (l ++ [0])) /\
    Forall (fun k => 0 < k <= nHeight b) l /\ (0 < nHeight b -> head l = Some (nHeight b)) /\
    (Z.of_nat (length (l ++ [0])) <= Z.log2 (nHeight b) + 12).
Proof.
  intros Hr Hb. destruct (chain_reachable_ok heap c Hr) as [Hok Hc].
  assert (Hp : at_height heap p (nHeight b)) by (exists b; auto). pose proof (at_height_nonneg heap Hok p _ Hp) as H0.
  destruct (locator_heights_desc (Z.to_nat (nHeight b)) (nHeight b) 1 0) as (l & El & Hl & Hhd); [lia|lia|].
  exists l. split; [|split; [exact Hl|split; [exact Hhd|]]].
  - unfold GetLocator. cbn [deref oaccess obind]. rewrite Hb. cbn [oaccess obind]. rewrite <- El.
    apply (locator_loop_spec heap c p (nHeight b) Hok Hc Hp); [lia|apply (ancestor_self heap Hok), Hp|lia|lia].
  - rewrite <- El. pose proof (Z.log2_nonneg (nHeight b)).
    destruct (Z.eq_dec (nHeight b) 0) as [E|Hne]; [rewrite E; vm_compute; discriminate|].
    pose proof (Z.log2_spec (nHeight b) ltac:(lia)) as [_ Hlog].
    pose proof (locator_length (Z.to_nat (Z.log2 (nHeight b) + 1)) 10 (Z.to_nat (nHeight b)) (nHeight b) 0) as Hlen.
    rewrite Z2Nat.id in Hlen by lia. replace (Z.log2 (nHeight b) + 1) with (Z.succ (Z.log2 (nHeight b))) in Hlen by lia.
    specialize (Hlen ltac:(lia) ltac:(lia)). lia.
Qed.

Definition sample_entry (n : Z) : CBlockIndex := mkIndex (of_uint64 8 n) None None 0 0 0 0 (1000 + n) 0 LotteryCoinstakeData_empty.

(** A genesis block, a block on it and two competing blocks above; the tip was on
    one of them. *)
Definition sample_linked (n h : Z) (prev skip : ptr) : CBlockIndex :=
  mkIndex (of_uint64 8 n) (Some prev) (Some skip) h 0 0 0 (1000 + n) 0 LotteryCoinstakeData_empty.

Definition sample_tree : index_heap :=
  <[4%positive := sample_linked 4 2 2 1]> (<[3%positive := sample_linked 3 2 2 1]>
    (<[2%positive := sample_linked 2 1 1 1]> {[ 1%positive := sample_entry 1 ]})).

Lemma sample_tree_reachable : chain_reachable sample_tree [Some 1%positive; Some 2%positive; Some 3%positive].
Proof.
  unfold chain_reachable.
  eapply rtc_l; [apply (step_genesis 1 (sample_entry 1)); reflexivity|].
  eapply rtc_l; [apply (step_add _ _ 2 1 (sample_entry 2) (sample_linked 2 1 1 1)); vm_compute; reflexivity|].
  eapply rtc_l; [apply (step_add _ _ 3 2 (sample_entry 3) (sample_linked 3 2 2 1)); vm_compute; reflexivity|].
  eapply rtc_l; [apply (step_tip _ _ (Some 3%positive)); vm_compute; reflexivity|].
  eapply rtc_l; [apply (step_add _ _ 4 2 (sample_entry 4) (sample_linked 4 2 2 1)); vm_compute; reflexivity|].
  apply rtc_refl.
Qed.

Lemma chain_invariant_witness :
  GetAncestor sample_tree (Some 4%positive) 0 = Ret (Some 1%positive) /\
  exists c', SetTip sample_tree [Some 1%positive; Some 2%positive; Some 3%positive] (Some 4%positive) = Ret c' /\ chain_at c' 2 = Some 4%positive.
Proof.
  destruct (chain_invariant sample_tree _ 4 (sample_linked 4 2 2 1) sample_tree_reachable) as (H1 & _ & c' & H2 & _ & H3);
    [vm_compute; reflexivity|]. split; [rewrite H1; vm_compute; reflexivity|].
  exists c'. split; [exact H2|]. rewrite H3. vm_compute. reflexivity.
Defined.

Lemma fork_points_witness : exists r, FindFork sample_tree [Some 1%positive; Some 2%positive; Some 3%positive] (Some 4%positive) = Ret r /\
  last_common sample_tree 4 3 r.
Proof.
  destruct (fork_points sample_tree _ 4 (sample_linked 4 2 2 1) 3 sample_tree_reachable) as (_ & r & H1 & H2);
    [vm_compute; reflexivity|vm_compute; eauto|]. exists r. split; [exact H1|].
  destruct H2 as [[H _]|(tip & H & Hl)]; [discriminate|]. injection H as <-. exact Hl.
Defined.

Lemma locator_correct_witness : exists l,
  GetLocator sample_tree [Some 1%positive; Some 2%positive; Some 3%positive] (Some 4%positive) = Ret (map (block_hash_at sample_tree 4) (l ++ [0])) /\
  head l = Some 2.
Proof.
  destruct (locator_correct sample_tree _ 4 (sample_linked 4 2 2 1) sample_tree_reachable) as (l & H1 & _ & H2 & _);
    [vm_compute; reflexivity|]. exists l. split; [exact H1|]. apply H2. reflexivity.
Defined.
