(* ===== verification/Subsidy.v ===== *)
(** * Block rewards and superblocks: [LegacyBlockSubsidies.cpp],
      [SuperblockHeightValidator.cpp], [BlockSubsidyProvider.cpp], [BlockRewards.cpp],
      spork values of [spork.h] and [spork.cpp]

    Treasury, charity and lottery shares accumulate block by block and are paid at
    superblock heights.  A superblock pays exactly the sum of the shares of the
    blocks since the previous superblock, across subsidy intervals and across the
    change of the superblock schedule. *)

From Stdlib Require Import ZArith Lia Bool.
From stdpp Require Import base option numbers list.
From S2P Require Import Prelude Transaction.

Open Scope Z_scope.
Open Scope outcome_scope.

Abbreviation io := (outcome Empty_set).

(** ** Chain parameters *)

(** The members of [CChainParams] the rewards depend on. *)
Record RewardParams := mkRewardParams {
  premineAmt : CAmount;
  SubsidyHalvingInterval : Z;
  LAST_POW_BLOCK : Z;
  GetLotteryBlockStartBlock : Z;
  GetLotteryBlockCycle : Z;
  GetTreasuryPaymentsStartBlock : Z;
  GetTreasuryPaymentsCycle : Z
}.

Definition main_params : RewardParams := mkRewardParams (617222416 * COIN) (60 * 24 * 365) 100 101 (60 * 24 * 7) 101 (60 * 24 * 7 + 1).

(** ** Multi-value sporks *)

Record BlockPaymentSporkValue := mkPaymentSpork {
  nStakePercent : Z; nMasternodePercent : Z; nTreasuryPercent : Z; nProposalsPercent : Z; nCharityPercent : Z;
  payment_activation : Z
}.
Record BlockSubsiditySporkValue := mkSubsiditySpork { nBlockSubsidity : Z; subsidity_activation : Z }.
Record LotteryTicketMinValueSporkValue := mkTicketSpork { nEntryTicketValue : Z; ticket_activation : Z }.
Record TxFeeSporkValue := mkFeeSpork {
  nTxValueMultiplier : Z; nTxSizeMultiplier : Z; nMaxFee : Z; nMinFeePerKb : Z; fee_activation : Z
}.

Definition BlockPaymentSporkValue_default : BlockPaymentSporkValue := mkPaymentSpork 0 0 0 0 0 0.
Definition BlockSubsiditySporkValue_default : BlockSubsiditySporkValue := mkSubsiditySpork (-1) 0.
Definition LotteryTicketMinValueSporkValue_default : LotteryTicketMinValueSporkValue := mkTicketSpork 0 0.
Definition TxFeeSporkValue_default : TxFeeSporkValue := mkFeeSpork (-1) (-1) (-1) (-1) 0.

Definition payment_IsValid (v : BlockPaymentSporkValue) : bool :=
  (payment_activation v >? 0) &&
  (nStakePercent v + nMasternodePercent v + nTreasuryPercent v + nProposalsPercent v + nCharityPercent v =? 100).
Definition subsidity_IsValid (v : BlockSubsiditySporkValue) : bool := (subsidity_activation v >? 0) && (nBlockSubsidity v >=? 0).
Definition ticket_IsValid (v : LotteryTicketMinValueSporkValue) : bool := (ticket_activation v >? 0) && (nEntryTicketValue v >? 0).

(** [FromString] and [ToString] between the tokens of the string and the value. *)
Definition payment_FromValues (l : list Z) : BlockPaymentSporkValue :=
  match l with
  | [a; b; c; d; e; f] => mkPaymentSpork a b c d e f
  | _ => BlockPaymentSporkValue_default
  end.
Definition payment_ToValues (v : BlockPaymentSporkValue) : list Z :=
  [nStakePercent v; nMasternodePercent v; nTreasuryPercent v; nProposalsPercent v; nCharityPercent v; payment_activation v].
Definition subsidity_FromValues (l : list Z) : BlockSubsiditySporkValue :=
  match l with [a; b] => mkSubsiditySpork a b | _ => BlockSubsiditySporkValue_default end.
Definition subsidity_ToValues (v : BlockSubsiditySporkValue) : list Z := [nBlockSubsidity v; subsidity_activation v].
Definition ticket_FromValues (l : list Z) : LotteryTicketMinValueSporkValue :=
  match l with [a; b] => mkTicketSpork a b | _ => LotteryTicketMinValueSporkValue_default end.
Definition ticket_ToValues (v : LotteryTicketMinValueSporkValue) : list Z := [nEntryTicketValue v; ticket_activation v].
Definition fee_FromValues (l : list Z) : TxFeeSporkValue :=
  match l with
  | [a; b; c; d; e; _] => mkFeeSpork a b c d e
  | _ => TxFeeSporkValue_default
  end.
Definition fee_ToValues (v : TxFeeSporkValue) : list Z :=
  [nTxValueMultiplier v; nTxSizeMultiplier v; nMaxFee v; nMinFeePerKb v; fee_activation v].

(** [GetActiveMultiValueSpork]: the last entry whose height and signing time have
    passed. *)
Fixpoint active_index {T} (activation : T -> Z) (nHeight nBlockTime : Z) (vSporks : list (T * Z)) (found : option T) : option T :=
  match vSporks with
  | [] => found
  | (v, t) :: vSporks =>
      active_index activation nHeight nBlockTime vSporks
        (if (nHeight >=? activation v) && (t <? nBlockTime) then Some v else found)
  end.
Definition GetActiveMultiValueSpork {T} (activation : T -> Z) (dflt : T) (vSporks : list (T * Z)) (nHeight nBlockTime : Z) : T :=
  default dflt (active_index activation nHeight nBlockTime vSporks None).

(** The multi-value entries of [mapSporksActive], parsed and with their signing
    times, and the time of the block at a height ([GetAdjustedTime()] above the tip). *)
Record SporkState := mkSporks {
  block_payments : option (list (BlockPaymentSporkValue * Z));
  block_value : option (list (BlockSubsiditySporkValue * Z));
  ticket_value : option (list (LotteryTicketMinValueSporkValue * Z));
  spork_time : Z -> Z
}.

Definition no_sporks : SporkState := mkSporks None None None (fun _ => 0).

(** ** Rewards *)

Record CBlockRewards := mkRewards {
  nStakeReward : CAmount; nMasternodeReward : CAmount; nTreasuryReward : CAmount; nCharityReward : CAmount;
  nLotteryReward : CAmount; nProposalsReward : CAmount
}.

Definition rewards_total (r : CBlockRewards) : CAmount :=
  nStakeReward r + nMasternodeReward r + nTreasuryReward r + nCharityReward r + nLotteryReward r + nProposalsReward r.

Section Rewards.
Variable params : RewardParams.
Variable sporks : SporkState.

(** C++ division truncates; heights are not negative here. *)
Definition BlockSubsidy (nHeight : Z) : CAmount :=
  if nHeight =? 0 then 50 * COIN
  else if nHeight =? 1 then premineAmt params
  else Z.max (1250 - 100 * Z.max (Z.quot nHeight (SubsidyHalvingInterval params) - 1) 0) 250 * COIN.

(** The block value spork in force at a height, if it is. *)
Definition value_spork (nHeight : Z) : option Z :=
  match block_value sporks with
  | None => None
  | Some v =>
      let activeSpork := GetActiveMultiValueSpork subsidity_activation BlockSubsiditySporkValue_default v nHeight (spork_time sporks nHeight) in
      if subsidity_IsValid activeSpork && (Z.rem (subsidity_activation activeSpork) (SubsidyHalvingInterval params) =? 0)
      then Some (nBlockSubsidity activeSpork) else None
  end.

Definition Legacy_GetFullBlockValue (nHeight : Z) : CAmount :=
  match value_spork nHeight with
  | Some v => v * COIN
  | None => BlockSubsidy nHeight
  end.

Definition payment_spork (nHeight : Z) : option BlockPaymentSporkValue :=
  match block_payments sporks with
  | None => None
  | Some v =>
      let activeSpork := GetActiveMultiValueSpork payment_activation BlockPaymentSporkValue_default v nHeight (spork_time sporks nHeight) in
      if payment_IsValid activeSpork && (Z.rem (payment_activation activeSpork) (SubsidyHalvingInterval params) =? 0)
      then Some activeSpork else None
  end.

(** The two lambdas named [helper]. *)
Definition split_subsidy (nSubsidy nLotteryPart : CAmount) (stake masternode treasury proposals charity : Z) : CBlockRewards :=
  let helper percentage := Z.quot (nSubsidy * percentage) 100 in
  mkRewards (helper stake) (helper masternode) (helper treasury) (helper charity) nLotteryPart (helper proposals).

Definition Legacy_GetBlockSubsidity (nHeight : Z) : io CBlockRewards :=
  let nSubsidy := Legacy_GetFullBlockValue nHeight in
  if nHeight <=? LAST_POW_BLOCK params then Ret (mkRewards nSubsidy 0 0 0 0 0)
  else
    let nLotteryPart := if nHeight >=? GetLotteryBlockStartBlock params then 50 * COIN else 0 in
    oassert (nSubsidy >=? nLotteryPart) ;;;
    let nSubsidy := nSubsidy - nLotteryPart in
    Ret match payment_spork nHeight with
        | Some s => split_subsidy nSubsidy nLotteryPart (nStakePercent s) (nMasternodePercent s) (nTreasuryPercent s)
                      (nProposalsPercent s) (nCharityPercent s)
        | None => split_subsidy nSubsidy nLotteryPart 38 45 16 0 1
        end.

Definition Legacy_IsValidLotteryBlockHeight (nBlockHeight : Z) : bool :=
  (nBlockHeight >=? GetLotteryBlockStartBlock params) && (Z.rem nBlockHeight (GetLotteryBlockCycle params) =? 0).
Definition Legacy_IsValidTreasuryBlockHeight (nBlockHeight : Z) : bool :=
  (nBlockHeight >=? GetTreasuryPaymentsStartBlock params) && (Z.rem nBlockHeight (GetTreasuryPaymentsCycle params) =? 0).

(** ** Superblock heights *)

Definition transitionHeight : Z := GetLotteryBlockCycle params * GetTreasuryPaymentsCycle params.
Definition superblockCycleLength : Z := GetLotteryBlockCycle params.

Definition IsValidLotteryBlockHeight (nBlockHeight : Z) : bool :=
  if nBlockHeight <? transitionHeight then Legacy_IsValidLotteryBlockHeight nBlockHeight
  else Z.rem (nBlockHeight - transitionHeight) superblockCycleLength =? 0.
Definition IsValidTreasuryBlockHeight (nBlockHeight : Z) : bool :=
  if nBlockHeight <? transitionHeight then Legacy_IsValidTreasuryBlockHeight nBlockHeight
  else IsValidLotteryBlockHeight (nBlockHeight - 1).
Definition GetTreasuryBlockPaymentCycle (nBlockHeight : Z) : Z :=
  if nBlockHeight <? transitionHeight then GetTreasuryPaymentsCycle params
  else if nBlockHeight <=? transitionHeight + 1 then GetTreasuryPaymentsCycle params + 1 else superblockCycleLength.
Definition GetLotteryBlockPaymentCycle (nBlockHeight : Z) : Z :=
  if nBlockHeight <? transitionHeight then GetLotteryBlockCycle params else superblockCycleLength.

(** ** Superblock rewards *)

Definition updateTreasuryReward (nHeight : Z) (rewards : CBlockRewards) (isTreasuryBlock : bool) : io CBlockRewards :=
  let rewards :=
    if negb isTreasuryBlock
    then mkRewards (nStakeReward rewards) (nMasternodeReward rewards) 0 0 (nLotteryReward rewards) (nProposalsReward rewards)
    else rewards in
  let treasuryBlockCycleLength := GetTreasuryBlockPaymentCycle nHeight in
  let priorTreasuryBlockHeight := nHeight - treasuryBlockCycleLength in
  let* priorRewards := if isTreasuryBlock then Legacy_GetBlockSubsidity priorTreasuryBlockHeight else Ret rewards in
  let numberOfSubsidyIntervals := Z.quot nHeight (SubsidyHalvingInterval params) in
  let priorRewardWeight := numberOfSubsidyIntervals * SubsidyHalvingInterval params - priorTreasuryBlockHeight in
  let currentRewardWeight := nHeight - numberOfSubsidyIntervals * SubsidyHalvingInterval params in
  Ret (mkRewards (nStakeReward rewards) (nMasternodeReward rewards)
    (nTreasuryReward priorRewards * priorRewardWeight + nTreasuryReward rewards * currentRewardWeight)
    (nCharityReward priorRewards * priorRewardWeight + nCharityReward rewards * currentRewardWeight)
    (nLotteryReward rewards) (nProposalsReward rewards)).

Definition updateLotteryReward (nHeight : Z) (rewards : CBlockRewards) (isLotteryBlock : bool) : io CBlockRewards :=
  let rewards :=
    if negb isLotteryBlock
    then mkRewards (nStakeReward rewards) (nMasternodeReward rewards) (nTreasuryReward rewards) (nCharityReward rewards) 0
           (nProposalsReward rewards)
    else rewards in
  let lotteryBlockCycleLength := GetLotteryBlockPaymentCycle nHeight in
  let priorLotteryBlockHeight := nHeight - lotteryBlockCycleLength in
  let* priorRewards := if isLotteryBlock then Legacy_GetBlockSubsidity priorLotteryBlockHeight else Ret rewards in
  let numberOfSubsidyIntervals := Z.quot nHeight (SubsidyHalvingInterval params) in
  let priorRewardWeight := numberOfSubsidyIntervals * SubsidyHalvingInterval params - priorLotteryBlockHeight in
  let currentRewardWeight := nHeight - numberOfSubsidyIntervals * SubsidyHalvingInterval params in
  Ret (mkRewards (nStakeReward rewards) (nMasternodeReward rewards) (nTreasuryReward rewards) (nCharityReward rewards)
    (nLotteryReward priorRewards * priorRewardWeight + nLotteryReward rewards * currentRewardWeight)
    (nProposalsReward rewards)).

Definition GetBlockSubsidity (nHeight : Z) : io CBlockRewards :=
  let* rewards := Legacy_GetBlockSubsidity nHeight in
  let* rewards := updateTreasuryReward nHeight rewards (IsValidTreasuryBlockHeight nHeight) in
  updateLotteryReward nHeight rewards (IsValidLotteryBlockHeight nHeight).

Definition GetFullBlockValue (nHeight : Z) : io CAmount :=
  let* r := GetBlockSubsidity nHeight in Ret (rewards_total r).
End Rewards.

(** ** Sums over heights *)

(** [g lo + ... + g (lo + n - 1)] *)
Fixpoint sum_heights (g : Z -> Z) (lo : Z) (n : nat) : Z :=
  match n with O => 0 | S n => g lo + sum_heights g (lo + 1) n end.

Lemma sum_heights_const g c n : forall lo, (forall k, lo <= k < lo + Z.of_nat n -> g k = c) -> sum_heights g lo n = c * Z.of_nat n.
Proof.
  induction n as [|n IH]; intros lo Hc; cbn [sum_heights]; [lia|].
  rewrite (Hc lo) by lia. rewrite (IH (lo + 1)) by (intros; apply Hc; lia). lia.
Qed.

Lemma sum_heights_app g n : forall m lo, sum_heights g lo (n + m) = sum_heights g lo n + sum_heights g (lo + Z.of_nat n) m.
Proof.
  induction n as [|n IH]; intros m lo; cbn [sum_heights Nat.add]; [change (Z.of_nat 0) with 0; rewrite Z.add_0_r; reflexivity|].
  rewrite (IH m (lo + 1)). replace (lo + 1 + Z.of_nat n) with (lo + Z.of_nat (S n)) by lia. lia.
Qed.

(** A value that is constant on subsidy intervals, weighted by the lengths on both
    sides of the last interval boundary, is the sum over the cycle. *)
Lemma weighted_sum g H base h c : 0 < H -> 0 <= base -> base < h - c -> 0 < c <= H ->
  (forall k k', base < k -> base < k' -> k / H = k' / H -> g k = g k') ->
  g (h - c) * (h / H * H - (h - c)) + g h * (h - h / H * H) = sum_heights g (h - c) (Z.to_nat c).
Proof.
  intros HH Hb Hbase Hc Hg. set (N := h / H). assert (N * H <= h < (N + 1) * H) as HN.
  { unfold N. pose proof (Z.div_mod h H ltac:(lia)). pose proof (Z.mod_pos_bound h H HH). nia. }
  assert (Hin : forall k M, M * H <= k < (M + 1) * H -> k / H = M) by (intros k M Hk; symmetry; apply (Z.div_unique k H M (k - M * H)); lia).
  destruct (Z.le_gt_cases (N * H) (h - c)) as [Hsame|Hcross].
  - assert (Hall : forall k, h - c <= k <= h -> g k = g h).
    { intros k Hk. apply Hg; try lia. rewrite (Hin k N), (Hin h N) by lia. reflexivity. }
    rewrite (sum_heights_const g (g h)) by (intros; apply Hall; lia). rewrite (Hall (h - c)) by lia. nia.
  - replace (Z.to_nat c) with (Z.to_nat (N * H - (h - c)) + Z.to_nat (h - N * H))%nat by lia.
    rewrite sum_heights_app, Z2Nat.id by lia. replace (h - c + (N * H - (h - c))) with (N * H) by lia.
    rewrite (sum_heights_const g (g (h - c))), (sum_heights_const g (g h)).
    + rewrite !Z2Nat.id by lia. lia.
    + intros k Hk. apply Hg; try lia. rewrite (Hin k N), (Hin h N) by lia. reflexivity.
    + intros k Hk. apply Hg; try lia. rewrite (Hin k (N - 1)), (Hin (h - c) (N - 1)) by lia. reflexivity.
Qed.

(** ** Superblocks pay what accumulated *)

Record params_ok (params : RewardParams) : Prop := mkParamsOk {
  po_lottery : 1 < GetLotteryBlockCycle params;
  po_treasury : 1 < GetTreasuryPaymentsCycle params;
  po_lottery_fits : GetLotteryBlockCycle params <= SubsidyHalvingInterval params;
  po_treasury_fits : GetTreasuryPaymentsCycle params + 1 <= SubsidyHalvingInterval params;
  po_pow : 1 <= LAST_POW_BLOCK params;
  po_start : 0 <= GetLotteryBlockStartBlock params
}.

(** The sporks in force do not change within a subsidy interval and leave room for
    the lottery share. *)
Record sporks_steady (params : RewardParams) (sporks : SporkState) : Prop := mkSteady {
  ss_value : forall k k', 0 <= k -> 0 <= k' -> k / SubsidyHalvingInterval params = k' / SubsidyHalvingInterval params ->
    value_spork params sporks k = value_spork params sporks k';
  ss_payment : forall k k', 0 <= k -> 0 <= k' -> k / SubsidyHalvingInterval params = k' / SubsidyHalvingInterval params ->
    payment_spork params sporks k = payment_spork params sporks k';
  ss_floor : forall k v, value_spork params sporks k = Some v -> 50 <= v
}.

(** What one block adds to a reward that is paid later. *)
Definition share (params : RewardParams) (sporks : SporkState) (f : CBlockRewards -> Z) (k : Z) : Z :=
  match Legacy_GetBlockSubsidity params sporks k with Ret r => f r | _ => 0 end.

(** Blocks up to here have special rewards. *)
Definition bootstrap (params : RewardParams) : Z := Z.max (LAST_POW_BLOCK params) (GetLotteryBlockStartBlock params).

Section Superblocks.
Variable params : RewardParams.
Variable sporks : SporkState.
Hypothesis Hp : params_ok params.
Hypothesis Hs : sporks_steady params sporks.
Abbreviation interval := (SubsidyHalvingInterval params).

Lemma legacy_returns k : bootstrap params < k -> exists r, Legacy_GetBlockSubsidity params sporks k = Ret r.
Proof.
  destruct Hp. intros Hk. unfold bootstrap in Hk. unfold Legacy_GetBlockSubsidity.
  destruct (Z.leb_spec k (LAST_POW_BLOCK params)); [lia|]. rewrite !Z.geb_leb, (proj2 (Z.leb_le _ k)) by lia.
  assert (50 * COIN <= Legacy_GetFullBlockValue params sporks k) as Hv.
  { unfold Legacy_GetFullBlockValue. destruct (value_spork params sporks k) as [v|] eqn:E.
    - pose proof (ss_floor _ _ Hs k v E). change COIN with 100000000. lia.
    - unfold BlockSubsidy. destruct (Z.eqb_spec k 0), (Z.eqb_spec k 1); try lia. change COIN with 100000000. lia. }
  rewrite (proj2 (Z.leb_le _ _) Hv). cbn [oassert obind]. eauto.
Qed.

Lemma legacy_steady k k' : bootstrap params < k -> bootstrap params < k' -> k / interval = k' / interval ->
  Legacy_GetBlockSubsidity params sporks k = Legacy_GetBlockSubsidity params sporks k'.
Proof.
  destruct Hp. unfold bootstrap. intros Hk Hk' He. unfold Legacy_GetBlockSubsidity, Legacy_GetFullBlockValue.
  destruct (Z.leb_spec k (LAST_POW_BLOCK params)), (Z.leb_spec k' (LAST_POW_BLOCK params)); try lia.
  rewrite !Z.geb_leb, (proj2 (Z.leb_le (GetLotteryBlockStartBlock params) k)), (proj2 (Z.leb_le (GetLotteryBlockStartBlock params) k')) by lia.
  rewrite (ss_value _ _ Hs k k'), (ss_payment _ _ Hs k k') by (auto; lia).
  assert (BlockSubsidy params k = BlockSubsidy params k') as ->; [|reflexivity].
  unfold BlockSubsidy. destruct (Z.eqb_spec k 0), (Z.eqb_spec k 1), (Z.eqb_spec k' 0), (Z.eqb_spec k' 1); try lia.
  rewrite !Z.quot_div_nonneg, He by lia. reflexivity.
Qed.

Lemma share_weighted f h c : bootstrap params < h - c -> 0 < c <= interval ->
  share params sporks f (h - c) * (Z.quot h interval * interval - (h - c)) + share params sporks f h * (h - Z.quot h interval * interval) =
  sum_heights (share params sporks f) (h - c) (Z.to_nat c).
Proof.
  destruct Hp. intros Hb Hc. assert (0 <= bootstrap params) by (unfold bootstrap; lia).
  rewrite Z.quot_div_nonneg by lia. apply (weighted_sum _ interval (bootstrap params)); try lia.
  intros k k' Hk Hk' He. unfold share. rewrite (legacy_steady k k') by assumption. reflexivity.
Qed.

Lemma share_Ret f k r : Legacy_GetBlockSubsidity params sporks k = Ret r -> share params sporks f k = f r.
Proof. unfold share. intros ->. reflexivity. Qed.

Lemma treasury_cycle_bounds h : 0 < GetTreasuryBlockPaymentCycle params h <= interval.
Proof.
  destruct Hp. unfold GetTreasuryBlockPaymentCycle, superblockCycleLength. destruct (_ <? _); [lia|]. destruct (_ <=? _); lia.
Qed.

Lemma lottery_cycle_bounds h : 0 < GetLotteryBlockPaymentCycle params h <= interval.
Proof. destruct Hp. unfold GetLotteryBlockPaymentCycle, superblockCycleLength. destruct (_ <? _); lia. Qed.

Lemma update_treasury_spec h r : Legacy_GetBlockSubsidity params sporks h = Ret r ->
  bootstrap params < h - GetTreasuryBlockPaymentCycle params h ->
  updateTreasuryReward params sporks h r true =
    Ret (mkRewards (nStakeReward r) (nMasternodeReward r)
      (sum_heights (share params sporks nTreasuryReward) (h - GetTreasuryBlockPaymentCycle params h) (Z.to_nat (GetTreasuryBlockPaymentCycle params h)))
      (sum_heights (share params sporks nCharityReward) (h - GetTreasuryBlockPaymentCycle params h) (Z.to_nat (GetTreasuryBlockPaymentCycle params h)))
      (nLotteryReward r) (nProposalsReward r)).
Proof.
  intros Hr Hb. pose proof (treasury_cycle_bounds h) as Hc. unfold updateTreasuryReward. cbn [negb].
  destruct (legacy_returns _ Hb) as (q & Hq). rewrite Hq. cbn [obind].
  rewrite <- !share_weighted, !(share_Ret _ _ _ Hr), !(share_Ret _ _ _ Hq) by assumption. reflexivity.
Qed.

Lemma update_lottery_spec h r r0 : Legacy_GetBlockSubsidity params sporks h = Ret r0 -> nLotteryReward r = nLotteryReward r0 ->
  bootstrap params < h - GetLotteryBlockPaymentCycle params h ->
  updateLotteryReward params sporks h r true =
    Ret (mkRewards (nStakeReward r) (nMasternodeReward r) (nTreasuryReward r) (nCharityReward r)
      (sum_heights (share params sporks nLotteryReward) (h - GetLotteryBlockPaymentCycle params h) (Z.to_nat (GetLotteryBlockPaymentCycle params h)))
      (nProposalsReward r)).
Proof.
  intros Hr Hl Hb. pose proof (lottery_cycle_bounds h) as Hc. unfold updateLotteryReward. cbn [negb].
  destruct (legacy_returns _ Hb) as (q & Hq). rewrite Hq. cbn [obind].
  rewrite <- share_weighted, (share_Ret _ _ _ Hr), (share_Ret _ _ _ Hq), Hl by assumption. reflexivity.
Qed.
End Superblocks.

(** The reward of a superblock is the sum of the shares of the blocks since the
    previous one: away from the first blocks, [GetBlockSubsidity] returns, keeps the
    stake, masternode and proposal parts of the block, and its treasury and charity
    (lottery) part at a treasury (lottery) height is the sum over the blocks of the
    payment cycle of what each adds, also when the subsidy changes within the cycle;
    at other heights the part is zero. *)
Theorem superblock_pays_shares params sporks h : params_ok params -> sporks_steady params sporks ->
  bootstrap params < h - GetTreasuryBlockPaymentCycle params h -> bootstrap params < h - GetLotteryBlockPaymentCycle params h ->
  exists r r0, GetBlockSubsidity params sporks h = Ret r /\ Legacy_GetBlockSubsidity params sporks h = Ret r0 /\
    nStakeReward r = nStakeReward r0 /\ nMasternodeReward r = nMasternodeReward r0 /\ nProposalsReward r = nProposalsReward r0 /\
    (let c := GetTreasuryBlockPaymentCycle params h in
     let sum f := if IsValidTreasuryBlockHeight params h then sum_heights (share params sporks f) (h - c) (Z.to_nat c) else 0 in
     nTreasuryReward r = sum nTreasuryReward /\ nCharityReward r = sum nCharityReward) /\
    (let c := GetLotteryBlockPaymentCycle params h in
     nLotteryReward r = if IsValidLotteryBlockHeight params h then sum_heights (share params sporks nLotteryReward) (h - c) (Z.to_nat c) else 0).
Proof.
  intros Hp Hs Ht Hl. pose proof (treasury_cycle_bounds params Hp h) as Hc.
  destruct (legacy_returns params sporks Hp Hs h ltac:(lia)) as (r0 & Hr0).
  unfold GetBlockSubsidity. rewrite Hr0. cbn [obind].
  destruct (IsValidTreasuryBlockHeight params h), (IsValidLotteryBlockHeight params h).
  - rewrite (update_treasury_spec params sporks Hp Hs h r0 Hr0 Ht). cbn [obind].
    rewrite (update_lottery_spec params sporks Hp Hs h _ r0 Hr0) by auto. eexists _, _. cbn. auto 10.
  - rewrite (update_treasury_spec params sporks Hp Hs h r0 Hr0 Ht). cbn [obind updateLotteryReward negb].
    eexists _, _. split; [reflexivity|]. cbn. auto 10.
  - cbn [updateTreasuryReward negb obind]. cbn [nTreasuryReward nCharityReward].
    rewrite (update_lottery_spec params sporks Hp Hs h _ r0 Hr0) by auto. eexists _, _. cbn. auto 10.
  - cbn [updateTreasuryReward updateLotteryReward negb obind]. eexists _, _. split; [reflexivity|]. cbn. auto 10.
Qed.

(** ** The superblock schedule *)

Lemma no_multiple_between b x k : (b | x) -> x - b < k < x -> ~ (b | k).
Proof. intros [q ->] Hk [r ->]. assert (q - 1 < r < q); [nia|lia]. Qed.

Lemma rem_test a b : 0 < b -> (Z.rem a b =? 0) = true <-> (b | a).
Proof. intros Hb. rewrite Z.eqb_eq. apply Z.rem_divide. lia. Qed.

Lemma rem_test_false a b : 0 < b -> (Z.rem a b =? 0) = false <-> ~ (b | a).
Proof. intros Hb. rewrite <- rem_test by assumption. destruct (_ =? _); split; congruence. Qed.

Section Schedule.
Variable params : RewardParams.
Hypothesis Hp : params_ok params.
Abbreviation L := (GetLotteryBlockCycle params).
Abbreviation TC := (GetTreasuryPaymentsCycle params).
Abbreviation T := (transitionHeight params).

Lemma lottery_height_iff h : IsValidLotteryBlockHeight params h = true <->
  (h < T -> GetLotteryBlockStartBlock params <= h) /\ (L | h).
Proof.
  destruct Hp. unfold IsValidLotteryBlockHeight, Legacy_IsValidLotteryBlockHeight, superblockCycleLength.
  assert ((L | T)) as HT by (exists TC; unfold transitionHeight; lia).
  destruct (Z.ltb_spec h T).
  - rewrite andb_true_iff, rem_test, Z.geb_leb, Z.leb_le by lia. tauto.
  - rewrite rem_test by lia. split.
    + intros Hd. split; [lia|]. replace h with ((h - T) + T) by lia. apply Z.divide_add_r; assumption.
    + intros [_ Hd]. apply Z.divide_sub_r; assumption.
Qed.

Lemma treasury_height_iff h : IsValidTreasuryBlockHeight params h = true <->
  if h <? T then GetTreasuryPaymentsStartBlock params <= h /\ (TC | h) else T < h /\ (L | h - 1).
Proof.
  destruct Hp. unfold IsValidTreasuryBlockHeight, Legacy_IsValidTreasuryBlockHeight. destruct (Z.ltb_spec h T).
  - rewrite andb_true_iff, rem_test, Z.geb_leb, Z.leb_le by lia. reflexivity.
  - rewrite lottery_height_iff. split; [|intros [? ?]; split; [lia|assumption]]. intros [_ Hd]. split; [|exact Hd].
    destruct (Z.eq_dec h T) as [->|]; [|lia]. exfalso.
    assert ((L | 1)) as H1 by (replace 1 with (T - (T - 1)) by lia; apply Z.divide_sub_r; [exists TC; unfold transitionHeight; lia|exact Hd]).
    apply Z.divide_1_r_nonneg in H1; lia.
Qed.

Lemma lottery_previous h : IsValidLotteryBlockHeight params h = true ->
  GetLotteryBlockStartBlock params <= h - GetLotteryBlockPaymentCycle params h ->
  IsValidLotteryBlockHeight params (h - GetLotteryBlockPaymentCycle params h) = true /\
  forall k, h - GetLotteryBlockPaymentCycle params h < k < h -> IsValidLotteryBlockHeight params k = false.
Proof.
  assert (GetLotteryBlockPaymentCycle params h = L) as -> by (unfold GetLotteryBlockPaymentCycle; destruct (_ <? _); reflexivity).
  rewrite lottery_height_iff. intros [_ Hd] Hst. split.
  - rewrite lottery_height_iff. split; [lia|]. apply Z.divide_sub_r; [exact Hd|apply Z.divide_refl].
  - intros k Hk. apply not_true_iff_false. rewrite lottery_height_iff. intros [_ Hk']. revert Hk'. apply (no_multiple_between L h); assumption.
Qed.

Lemma treasury_previous h : IsValidTreasuryBlockHeight params h = true ->
  GetTreasuryPaymentsStartBlock params <= h - GetTreasuryBlockPaymentCycle params h ->
  IsValidTreasuryBlockHeight params (h - GetTreasuryBlockPaymentCycle params h) = true /\
  forall k, h - GetTreasuryBlockPaymentCycle params h < k < h -> IsValidTreasuryBlockHeight params k = false.
Proof.
  destruct Hp. assert ((TC | T)) as HTC by (exists L; unfold transitionHeight; lia).
  assert ((L | T)) as HL by (exists TC; unfold transitionHeight; lia). assert (0 < T) by (unfold transitionHeight; nia).
  unfold GetTreasuryBlockPaymentCycle, superblockCycleLength. rewrite treasury_height_iff. destruct (Z.ltb_spec h T).
  - intros [_ Hd] Hst. split.
    + rewrite treasury_height_iff. destruct (Z.ltb_spec (h - TC) T); [|lia]. split; [lia|]. apply Z.divide_sub_r; [exact Hd|apply Z.divide_refl].
    + intros k Hk. apply not_true_iff_false. rewrite treasury_height_iff. destruct (Z.ltb_spec k T); [|lia].
      intros [_ Hk']. revert Hk'. apply (no_multiple_between TC h); assumption.
  - intros [Hgt Hd]. destruct (Z.leb_spec h (T + 1)); intros Hst.
    + assert (h = T + 1) as -> by lia. replace (T + 1 - (TC + 1)) with (T - TC) in * by lia. split.
      * rewrite treasury_height_iff. destruct (Z.ltb_spec (T - TC) T); [|lia]. split; [lia|]. apply Z.divide_sub_r; [exact HTC|apply Z.divide_refl].
      * intros k Hk. apply not_true_iff_false. rewrite treasury_height_iff. destruct (Z.ltb_spec k T); [|lia].
        intros [_ Hk']. revert Hk'. apply (no_multiple_between TC T); [assumption|lia].
    + assert (L <= h - 1 - T).
      { assert ((L | h - 1 - T)) as Hdd by (apply Z.divide_sub_r; assumption). apply Z.divide_pos_le in Hdd; lia. }
      split.
      * rewrite treasury_height_iff. destruct (Z.ltb_spec (h - L) T); [lia|]. split; [lia|].
        replace (h - L - 1) with (h - 1 - L) by lia. apply Z.divide_sub_r; [exact Hd|apply Z.divide_refl].
      * intros k Hk. apply not_true_iff_false. rewrite treasury_height_iff. destruct (Z.ltb_spec k T); [lia|].
        intros [_ Hk']. revert Hk'. apply (no_multiple_between L (h - 1)); [assumption|lia].
Qed.

Lemma schedules_disjoint h : Z.gcd L TC = 1 -> 0 < GetTreasuryPaymentsStartBlock params ->
  IsValidTreasuryBlockHeight params h = true -> IsValidLotteryBlockHeight params h = false.
Proof.
  destruct Hp. intros Hg Hst. rewrite treasury_height_iff. intros Ht. apply not_true_iff_false. rewrite lottery_height_iff.
  intros [_ HdL]. destruct (Z.ltb_spec h T).
  - destruct Ht as [Hge HdT]. destruct HdL as [q ->]. rewrite Z.mul_comm in HdT. apply Z.gauss in HdT; [|rewrite Z.gcd_comm; exact Hg].
    destruct HdT as [r ->]. unfold transitionHeight in *. replace (r * TC * L) with (r * (L * TC)) in * by ring.
    assert (0 < L * TC) by nia. set (m := L * TC) in *. assert (0 < r) by nia. nia.
  - destruct Ht as [_ Hd]. assert ((L | 1)) as H1 by (replace 1 with (h - (h - 1)) by lia; apply Z.divide_sub_r; assumption).
    apply Z.divide_1_r_nonneg in H1; lia.
Qed.
End Schedule.

(** The payment cycle of a superblock reaches back exactly to the previous
    superblock of its kind, before, at and after the change of the schedule: the
    height one cycle earlier is a superblock height and none lies between.  With
    coprime cycles no height is both a treasury and a lottery height. *)
Theorem superblock_schedule params h : params_ok params ->
  Z.gcd (GetLotteryBlockCycle params) (GetTreasuryPaymentsCycle params) = 1 -> 0 < GetTreasuryPaymentsStartBlock params ->
  (IsValidLotteryBlockHeight params h = true -> GetLotteryBlockStartBlock params <= h - GetLotteryBlockPaymentCycle params h ->
     IsValidLotteryBlockHeight params (h - GetLotteryBlockPaymentCycle params h) = true /\
     forall k, h - GetLotteryBlockPaymentCycle params h < k < h -> IsValidLotteryBlockHeight params k = false) /\
  (IsValidTreasuryBlockHeight params h = true -> GetTreasuryPaymentsStartBlock params <= h - GetTreasuryBlockPaymentCycle params h ->
     IsValidTreasuryBlockHeight params (h - GetTreasuryBlockPaymentCycle params h) = true /\
     forall k, h - GetTreasuryBlockPaymentCycle params h < k < h -> IsValidTreasuryBlockHeight params k = false) /\
  (IsValidTreasuryBlockHeight params h = true -> IsValidLotteryBlockHeight params h = false).
Proof.
  intros Hp Hg Hst. split; [exact (lottery_previous params Hp h)|]. split; [exact (treasury_previous params Hp h)|].
  exact (schedules_disjoint params Hp h Hg Hst).
Qed.

Lemma main_params_ok : params_ok main_params.
Proof. constructor; cbn; lia. Qed.

Lemma no_sporks_steady params : sporks_steady params no_sporks.
Proof. constructor; try reflexivity. discriminate. Qed.

(** A treasury superblock of the main chain whose cycle contains the end of a
    subsidy interval. *)
Definition sample_height : Z := 10081 * 105.

Lemma superblock_pays_shares_witness :
  let c := GetTreasuryBlockPaymentCycle main_params sample_height in
  exists r, GetBlockSubsidity main_params no_sporks sample_height = Ret r /\
    nTreasuryReward r = sum_heights (share main_params no_sporks nTreasuryReward) (sample_height - c) (Z.to_nat c) /\ nLotteryReward r = 0.
Proof.
  destruct (superblock_pays_shares main_params no_sporks sample_height main_params_ok (no_sporks_steady main_params))
    as (r & r0 & H1 & _ & _ & _ & _ & [H2 _] & H3); [vm_compute; reflexivity|vm_compute; reflexivity|].
  cbv zeta in *. assert (IsValidTreasuryBlockHeight main_params sample_height = true) as E1 by (vm_compute; reflexivity).
  assert (IsValidLotteryBlockHeight main_params sample_height = false) as E2 by (vm_compute; reflexivity).
  rewrite E1 in H2. rewrite E2 in H3. exists r. split; [exact H1|]. split; [exact H2|exact H3].
Defined.

Lemma superblock_schedule_witness : IsValidTreasuryBlockHeight main_params (10080 * 10081 - 10081) = true.
Proof.
  destruct (superblock_schedule main_params (10080 * 10081 + 1) main_params_ok) as (_ & H & _);
    [vm_compute; reflexivity|vm_compute; reflexivity|].
  apply (H ltac:(vm_compute; reflexivity) ltac:(vm_compute; discriminate)).
Defined.

(** [TxFeeSporkValue::FromString] wants six numbers where [ToString] writes five:
    the printed value reads back as the default. *)
Lemma fee_spork_unreadable v : fee_FromValues (fee_ToValues v) = TxFeeSporkValue_default.
Proof. reflexivity. Qed.

Lemma other_sporks_readable p s t :
  payment_FromValues (payment_ToValues p) = p /\ subsidity_FromValues (subsidity_ToValues s) = s /\
  ticket_FromValues (ticket_ToValues t) = t.
Proof. destruct p, s, t. auto. Qed.
