(* ===== verification/Lottery.v ===== *)
(** * The lottery: [LotteryWinnersCalculator.cpp], [BlockIndexLotteryUpdater.cpp],
      [ForkActivation.cpp]

    Every block that mints enough enters its coinstake; the block index carries the
    best eleven since the last lottery block.  Updating the list block by block
    gives the eleven best scores of the whole cycle; since the uniform-winners fork
    no payee wins twice while another one that entered goes without. *)

From Stdlib Require Import ZArith Lia Bool Sorted.
From stdpp Require Import base option numbers list gmap.
From S2P Require Import Prelude BaseUInt UInt256 Opcodes ScriptNum Script CryptoCommon BlockHasher Sha256 Hashes Serialize Transaction BlockIndex Chain Subsidy.

Open Scope Z_scope.
Open Scope outcome_scope.

Abbreviation io := (outcome Empty_set).

(** ** Forks activated by block time *)

Inductive Fork := TestByTimestamp | HardenedStakeModifier | UniformLotteryWinners.

Definition unixTimestampForDec31stMidnight : Z := 1609459199.

Definition ACTIVATION_TIMES (f : Fork) : Z :=
  match f with
  | TestByTimestamp => 1000000000
  | HardenedStakeModifier => unixTimestampForDec31stMidnight
  | UniformLotteryWinners => unixTimestampForDec31stMidnight
  end.

(** [ActivationState(pi).IsActive(f)]; [manualOverrides] is empty. *)
Definition IsActive (nTime : Z) (f : Fork) : bool := nTime >=? ACTIVATION_TIMES f.

(** ** Scores *)

(** [ss << hashCoinbaseTx << hashLastLotteryBlock] *)
Definition CalculateLotteryScore (hashCoinbaseTx hashLastLotteryBlock : list Z) : list Z :=
  SerializeHash (pair_codec uint256_codec uint256_codec) (hashCoinbaseTx, hashLastLotteryBlock).

Record RankAwareScore := mkRanked { score : base_uint; rank : nat; isDuplicateScript : bool }.
Abbreviation RankedScoreAwareCoinstakes := (gmap (list Z) RankAwareScore).

(** The loop over the coinstakes; [emplace] keeps an existing entry. *)
Fixpoint compute_ranked (lastLotteryBlockHash : base_uint) (m : RankedScoreAwareCoinstakes) (paymentScripts : list (list Z))
    (coinstakes : LotteryCoinstakes) : RankedScoreAwareCoinstakes :=
  match coinstakes with
  | [] => m
  | (hash, script) :: coinstakes =>
      let rankedScore := mkRanked (CalculateLotteryScore hash lastLotteryBlockHash) (size m) (bool_decide (script ∈ paymentScripts)) in
      compute_ranked lastLotteryBlockHash (match m !! hash with Some _ => m | None => <[hash := rankedScore]> m end)
        (script :: paymentScripts) coinstakes
  end.

Definition computeRankedScoreAwareCoinstakes (lastLotteryBlockHash : base_uint) (updatedCoinstakes : LotteryCoinstakes) :
    RankedScoreAwareCoinstakes := compute_ranked lastLotteryBlockHash ∅ [] updatedCoinstakes.

(** [find(hash)->second] for a coinstake of the list, which is in the map. *)
Definition ranked_find (m : RankedScoreAwareCoinstakes) (c : LotteryCoinstake) : RankAwareScore :=
  default (mkRanked uint256_null 0 false) (m !! c.1).

(** [std::stable_sort]: every element goes behind the earlier ones that are not
    worse. *)
Fixpoint insert_after {A} (comp : A -> A -> bool) (x : A) (l : list A) : list A :=
  match l with
  | [] => [x]
  | y :: l => if comp x y then x :: y :: l else y :: insert_after comp x l
  end.
Definition stable_sort {A} (comp : A -> A -> bool) (l : list A) : list A := fold_left (fun acc x => insert_after comp x acc) l [].

Definition SortCoinstakesByScore (m : RankedScoreAwareCoinstakes) (updatedCoinstakes : LotteryCoinstakes) : LotteryCoinstakes :=
  if (1 <? size m)%nat
  then stable_sort (fun lhs rhs => CompareTo (score (ranked_find m lhs)) (score (ranked_find m rhs)) >? 0) updatedCoinstakes
  else updatedCoinstakes.

(** [find_if(rbegin, rend)] and [erase] of what it finds, on the reversed list. *)
Fixpoint erase_first {A} (p : A -> bool) (l : list A) : option (list A) :=
  match l with
  | [] => None
  | x :: l => if p x then Some l else match erase_first p l with Some l => Some (x :: l) | None => None end
  end.

Definition TopElevenBestCoinstakesNeedUpdating (trimDuplicates : bool) (m : RankedScoreAwareCoinstakes)
    (updatedCoinstakes : LotteryCoinstakes) : io (LotteryCoinstakes * bool) :=
  let shouldUpdateCoinstakeData := (0 <? size m)%nat in
  let* shouldUpdateCoinstakeData :=
    if (1 <? size m)%nat
    then let* back := oaccess (last updatedCoinstakes) in Ret (negb (rank (ranked_find m back) =? 11)%nat)
    else Ret shouldUpdateCoinstakeData in
  if (11 <? length updatedCoinstakes)%nat then
    match (if negb trimDuplicates then None else erase_first (fun c => isDuplicateScript (ranked_find m c)) (rev updatedCoinstakes)) with
    | Some rest => Ret (rev rest, true)
    | None => Ret (removelast updatedCoinstakes, shouldUpdateCoinstakeData)
    end
  else Ret (updatedCoinstakes, shouldUpdateCoinstakeData).

(** ** Entering a coinstake *)

Section Calculator.
Variable params : RewardParams.
Variable sporks : SporkState.
Variable startOfLotteryBlocks : Z.
Variable heap : index_heap.
Variable activeChain : CChain.

Definition minimumCoinstakeForTicket (nHeight : Z) : Z :=
  let nMinStakeValue := 10000 in
  match ticket_value sporks with
  | None => nMinStakeValue
  | Some v =>
      let activeSpork := GetActiveMultiValueSpork ticket_activation LotteryTicketMinValueSporkValue_default v nHeight (spork_time sporks nHeight) in
      if ticket_IsValid activeSpork then nEntryTicketValue activeSpork else nMinStakeValue
  end.

(** [std::accumulate] over the outputs that pay [payee]; the sum is not wrapped, since
    the outputs of a checked transaction stay in range together. *)
Definition paid_to (payee : list Z) (vout : list CTxOut) : CAmount :=
  fold_left (fun accum out => if bool_decide (scriptPubKey out = payee) then accum + nValue out else accum) vout 0.

Definition IsCoinstakeValidForLottery (tx : CMutableTransaction) (nHeight : Z) : io bool :=
  let* nAmount :=
    if IsCoinBase tx then let* o := oaccess (vout tx !! 0%nat) in Ret (nValue o)
    else let* o := oaccess (vout tx !! 1%nat) in Ret (paid_to (scriptPubKey o) (vout tx)) in
  Ret (nAmount >? minimumCoinstakeForTicket nHeight * COIN).

Definition nLastLotteryHeight (blockHeight : Z) : Z :=
  let lotteryBlockPaymentCycle := GetLotteryBlockPaymentCycle params blockHeight in
  Z.max startOfLotteryBlocks (lotteryBlockPaymentCycle * Z.quot (blockHeight - 1) lotteryBlockPaymentCycle).

Definition GetLastLotteryBlockIndexBeforeHeight (blockHeight : Z) : option ptr :=
  chain_at activeChain (nLastLotteryHeight blockHeight).

(** The loop over the last three lotteries. *)
Fixpoint veto_loop (cycles : nat) (paymentScript : list Z) (height cycle : Z) : io bool :=
  match cycles with
  | O => Ret false
  | S cycles =>
      match chain_at activeChain (height - 1) with
      | None => Ret false
      | Some p =>
          let* b := deref heap (Some p) in
          if existsb (fun c => bool_decide (c.2 = paymentScript)) (storage (vLotteryWinnersCoinstakes b)) then Ret true
          else veto_loop cycles paymentScript (height - cycle) cycle
      end
  end.

Definition IsPaymentScriptVetoed (paymentScript : list Z) (blockHeight : Z) : io bool :=
  veto_loop 3 paymentScript (nLastLotteryHeight blockHeight) (GetLotteryBlockPaymentCycle params blockHeight).

Definition UpdateCoinstakes (nextBlockHeight : Z) (updatedCoinstakes : LotteryCoinstakes) : io (LotteryCoinstakes * bool) :=
  let* lastLotteryBlockIndex := deref heap (GetLastLotteryBlockIndexBeforeHeight nextBlockHeight) in
  let active := IsActive (bi_nTime lastLotteryBlockIndex) UniformLotteryWinners in
  let* vetoed :=
    if active then let* back := oaccess (last updatedCoinstakes) in IsPaymentScriptVetoed back.2 nextBlockHeight else Ret false in
  if vetoed then Ret (updatedCoinstakes, false)
  else
    let m := computeRankedScoreAwareCoinstakes (GetBlockHash lastLotteryBlockIndex) updatedCoinstakes in
    TopElevenBestCoinstakesNeedUpdating active m (SortCoinstakesByScore m updatedCoinstakes).

(** The coinstake a minting transaction enters. *)
Definition entered_coinstake (tx : CTransaction) : io LotteryCoinstake :=
  let* o := oaccess (vout (tx_body tx) !! (if IsCoinBase (tx_body tx) then 0 else 1)%nat) in
  Ret (tx_hash tx, scriptPubKey o).

Definition CalculateUpdatedLotteryWinners (coinMintTransaction : CTransaction) (previous : LotteryCoinstakeData) (nHeight : Z) :
    io LotteryCoinstakeData :=
  if nHeight <=? 0 then Ret LotteryCoinstakeData_empty
  else if IsValidLotteryBlockHeight params nHeight then Ret (LotteryCoinstakeData_of nHeight [])
  else if nHeight <=? startOfLotteryBlocks then Ret (getShallowCopy previous)
  else
    let* valid := IsCoinstakeValidForLottery (tx_body coinMintTransaction) nHeight in
    if negb valid then Ret (getShallowCopy previous)
    else
      let* entry := entered_coinstake coinMintTransaction in
      let* '(updatedCoinstakes, update) := UpdateCoinstakes nHeight (storage previous ++ [entry]) in
      Ret (if update then LotteryCoinstakeData_of nHeight updatedCoinstakes else getShallowCopy previous).

(** [UpdateBlockIndexLotteryWinners]: the lottery data of a new block index entry. *)
Definition UpdateBlockIndexLotteryWinners (vtx : list CTransaction) (newest : CBlockIndex) : io CBlockIndex :=
  let* previous :=
    match pprev newest with
    | None => Ret LotteryCoinstakeData_empty
    | Some p => let* b := deref heap (Some p) in Ret (vLotteryWinnersCoinstakes b)
    end in
  let* coinMintingTransaction := oaccess (vtx !! (if nHeight newest >? LAST_POW_BLOCK params then 1 else 0)%nat) in
  let* d := CalculateUpdatedLotteryWinners coinMintingTransaction previous (nHeight newest) in
  Ret (with_lottery newest d).
End Calculator.

(** ** Sorting by descending key *)

Section Sorting.
Context {A : Type} (key : A -> Z).

Definition better (x y : A) : bool := key x >? key y.
Definition descending (l : list A) : Prop := StronglySorted (fun x y => key y <= key x) l.

Lemma insert_after_ext (comp : A -> A -> bool) x l : (forall y, y ∈ l -> comp x y = better x y) ->
  insert_after comp x l = insert_after better x l.
Proof.
  induction l as [|y l IH]; intros H; [reflexivity|]. cbn. rewrite H by left. rewrite IH; [reflexivity|].
  intros z Hz. apply H. right. exact Hz.
Qed.

Lemma insert_after_split x l : exists l1 l2, l = l1 ++ l2 /\ insert_after better x l = l1 ++ x :: l2.
Proof.
  induction l as [|y l (l1 & l2 & E & IH)]; [exists [], []; auto|]. cbn. destruct (better x y).
  - exists [], (y :: l). auto.
  - exists (y :: l1), l2. rewrite E at 1. rewrite IH. auto.
Qed.

Lemma insert_after_perm x l : insert_after better x l ≡ₚ x :: l.
Proof. destruct (insert_after_split x l) as (l1 & l2 & -> & ->). symmetry. apply Permutation_middle. Qed.

Lemma stable_sort_perm_better l : stable_sort better l ≡ₚ l.
Proof.
  induction l as [|x l IH] using rev_ind; [reflexivity|]. unfold stable_sort. rewrite fold_left_app. cbn [fold_left].
  rewrite insert_after_perm. fold (stable_sort better l). rewrite IH. apply Permutation_cons_append.
Qed.

Lemma stable_sort_ext (comp : A -> A -> bool) l : (forall x y, x ∈ l -> y ∈ l -> comp x y = better x y) ->
  stable_sort comp l = stable_sort better l.
Proof.
  induction l as [|x l IH] using rev_ind; intros H; [reflexivity|]. unfold stable_sort. rewrite !fold_left_app. cbn [fold_left].
  fold (stable_sort comp l). fold (stable_sort better l). rewrite IH.
  - apply insert_after_ext. intros y Hy. rewrite stable_sort_perm_better in Hy. apply H; apply elem_of_app; [right; left|left; exact Hy].
  - intros y z Hy Hz. apply H; apply elem_of_app; left; assumption.
Qed.

Lemma insert_after_descending x l : descending l -> descending (insert_after better x l).
Proof.
  induction 1 as [|y l Hl IH Hy]; cbn; [constructor; constructor|]. unfold better at 1. destruct (Z.gtb_spec (key x) (key y)).
  - constructor; [constructor; assumption|]. constructor; [lia|]. eapply Forall_impl; [exact Hy|]. cbn. lia.
  - constructor; [exact IH|]. rewrite insert_after_perm. constructor; [lia|exact Hy].
Qed.

Lemma descending_app l1 l2 : descending (l1 ++ l2) <->
  descending l1 /\ descending l2 /\ forall x y, x ∈ l1 -> y ∈ l2 -> key y <= key x.
Proof.
  unfold descending. induction l1 as [|a l1 IH]; cbn.
  - split; [intros H; split; [constructor|]; split; [exact H|]; intros x y Hx; apply not_elem_of_nil in Hx; contradiction|tauto].
  - split.
    + intros H. inversion H as [|? ? H1 H2]; subst. apply IH in H1 as (S1 & S2 & S3). apply Forall_app in H2 as [H2 H3].
      split; [constructor; assumption|]. split; [exact S2|]. intros x y Hx Hy. apply elem_of_cons in Hx as [->|Hx]; [|auto].
      rewrite Forall_forall in H3. apply H3, Hy.
    + intros (H1 & H2 & H3). inversion H1 as [|? ? S1 S2]; subst. constructor.
      * apply IH. split; [exact S1|]. split; [exact H2|]. intros x y Hx Hy. apply H3; [right; exact Hx|exact Hy].
      * apply Forall_app. split; [exact S2|]. apply Forall_forall. intros y Hy. apply H3; [left|exact Hy].
Qed.

Lemma insert_after_last x l : (forall y, y ∈ l -> key x <= key y) -> insert_after better x l = l ++ [x].
Proof.
  induction l as [|y l IH]; intros H; [reflexivity|]. cbn. unfold better at 1. destruct (Z.gtb_spec (key x) (key y)).
  - specialize (H y ltac:(left)). lia.
  - rewrite IH; [reflexivity|]. intros z Hz. apply H. right. exact Hz.
Qed.

Lemma stable_sort_descending l : descending (stable_sort better l).
Proof.
  induction l as [|x l IH] using rev_ind; [constructor|]. unfold stable_sort. rewrite fold_left_app. cbn [fold_left].
  apply insert_after_descending, IH.
Qed.

Lemma stable_sort_id l : descending l -> stable_sort better l = l.
Proof.
  induction l as [|x l IH] using rev_ind; intros H; [reflexivity|]. apply descending_app in H as (H1 & _ & H3).
  unfold stable_sort. rewrite fold_left_app. cbn [fold_left]. fold (stable_sort better l). rewrite IH by exact H1.
  apply insert_after_last. intros y Hy. apply H3; [exact Hy|left].
Qed.

Lemma stable_sort_snoc l x : stable_sort better (l ++ [x]) = insert_after better x (stable_sort better l).
Proof. unfold stable_sort. rewrite fold_left_app. reflexivity. Qed.

(** Only the best [n] matter for the best [n] of a longer list. *)
Lemma take_insert_after n : forall x l, take n (insert_after better x (take n l)) = take n (insert_after better x l).
Proof.
  induction n as [|n IH]; intros x l; [reflexivity|]. destruct l as [|y l]; [reflexivity|]. cbn [take insert_after].
  destruct (better x y); cbn [take]; [|rewrite IH; reflexivity]. f_equal. destruct n as [|n]; [reflexivity|].
  cbn [take]. rewrite take_take, Nat.min_l by lia. reflexivity.
Qed.

Lemma descending_take n l : descending l -> descending (take n l).
Proof. intros H. rewrite <- (take_drop n l) in H. apply descending_app in H. tauto. Qed.
End Sorting.

Lemma erase_first_spec {A} (p : A -> bool) l :
  match erase_first p l with
  | Some r => exists a x b, l = a ++ x :: b /\ r = a ++ b /\ p x = true
  | None => forall x, x ∈ l -> p x = false
  end.
Proof.
  induction l as [|y l IH]; cbn; [intros x Hx; apply not_elem_of_nil in Hx; contradiction|]. destruct (p y) eqn:E.
  - exists [], y, l. auto.
  - destruct (erase_first p l) as [r|].
    + destruct IH as (a & x & b & -> & -> & Hx). exists (y :: a), x, b. auto.
    + intros x Hx. apply elem_of_cons in Hx as [->|Hx]; [exact E|apply IH, Hx].
Qed.

(** ** Ranks *)

Lemma compute_ranked_spec last l : forall m scripts, NoDup l.*1 -> (forall c, c ∈ l -> m !! c.1 = None) ->
  size (compute_ranked last m scripts l) = (size m + length l)%nat /\
  (forall (h : list Z) r, m !! h = Some r -> compute_ranked last m scripts l !! h = Some r) /\
  (forall i (c : LotteryCoinstake), l !! i = Some c -> compute_ranked last m scripts l !! c.1 =
     Some (mkRanked (CalculateLotteryScore c.1 last) (size m + i) (bool_decide (c.2 ∈ scripts \/ c.2 ∈ (take i l).*2)))).
Proof.
  induction l as [|[h s] l IH]; intros m scripts Hnd Hfresh; cbn [compute_ranked].
  - rewrite Nat.add_0_r. split; [reflexivity|]. split; [auto|]. intros i c Hc. rewrite lookup_nil in Hc. discriminate.
  - cbn in Hnd. apply NoDup_cons in Hnd as [Hh Hnd]. pose proof (Hfresh (h, s) ltac:(left)) as Hm. cbn in Hm. rewrite Hm.
    set (r := mkRanked _ _ _). destruct (IH (<[h := r]> m) (s :: scripts) Hnd) as (H1 & H2 & H3).
    { intros c Hc. rewrite lookup_insert_ne; [apply Hfresh; right; exact Hc|]. intros ->. apply Hh, list_elem_of_fmap. eauto. }
    rewrite map_size_insert_None in H1, H3 by exact Hm. split; [cbn [length]; lia|]. split.
    + intros h' r' Hr'. apply H2. rewrite lookup_insert_ne; [exact Hr'|intros ->; rewrite Hr' in Hm; discriminate].
    + intros [|i] c Hc; cbn [lookup list_lookup] in Hc.
      * injection Hc as <-. cbn [fst snd]. rewrite (H2 h r) by apply lookup_insert_eq. unfold r. rewrite Nat.add_0_r. do 2 f_equal.
        apply bool_decide_ext. cbn [take fmap list_fmap]. rewrite elem_of_nil. tauto.
      * rewrite (H3 i c Hc). do 2 f_equal; [lia|]. apply bool_decide_ext. cbn [take]. rewrite fmap_cons, !elem_of_cons. cbn. tauto.
Qed.

Lemma score_wf h last : wf (CalculateLotteryScore h last) /\ length (CalculateLotteryScore h last) = 8%nat.
Proof.
  unfold CalculateLotteryScore, SerializeHash. set (w := CHashWriter_write _ _).
  destruct (of_bytes_spec 8 (CHashWriter_GetHash w)) as (H1 & H2 & _); [| |auto].
  - unfold CHashWriter_GetHash, CHash256_Finalize, CSHA256_Finalize. rewrite !bytes_ok_app. repeat split; apply WriteBE32_bytes.
  - reflexivity.
Qed.

Definition score_value (last : base_uint) (c : LotteryCoinstake) : Z := value (CalculateLotteryScore c.1 last).

(** ** One more coinstake *)

Section Entry.
Variable last_hash : list Z.
Abbreviation key := (score_value last_hash).
Variable prev : LotteryCoinstakes.
Variable x : LotteryCoinstake.
Hypothesis Hnd : NoDup (prev ++ [x]).*1.
Hypothesis Hdesc : descending key prev.
Hypothesis Hlen : (length prev <= 11)%nat.

Abbreviation m := (computeRankedScoreAwareCoinstakes last_hash (prev ++ [x])).
Abbreviation sorted := (insert_after (better key) x prev).

Lemma ranked_size : size m = S (length prev).
Proof.
  unfold computeRankedScoreAwareCoinstakes. destruct (compute_ranked_spec last_hash (prev ++ [x]) ∅ [] Hnd) as (-> & _); [intros; apply lookup_empty|].
  rewrite map_size_empty, length_app. cbn. lia.
Qed.

Lemma ranked_at i c : (prev ++ [x]) !! i = Some c ->
  ranked_find m c = mkRanked (CalculateLotteryScore c.1 last_hash) i (bool_decide (c.2 ∈ (take i (prev ++ [x])).*2)).
Proof.
  intros Hi. unfold ranked_find, computeRankedScoreAwareCoinstakes.
  destruct (compute_ranked_spec last_hash (prev ++ [x]) ∅ [] Hnd) as (_ & _ & H3); [intros; apply lookup_empty|].
  rewrite (H3 i c Hi). rewrite map_size_empty. change (default ?d (Some ?y)) with y.
  f_equal. apply bool_decide_ext. rewrite elem_of_nil. tauto.
Qed.

Lemma sort_spec : SortCoinstakesByScore m (prev ++ [x]) = sorted.
Proof.
  unfold SortCoinstakesByScore. rewrite ranked_size. destruct (Nat.ltb_spec 1 (S (length prev))).
  - rewrite (stable_sort_ext key), stable_sort_snoc, (stable_sort_id key prev Hdesc); [reflexivity|].
    intros y z Hy Hz. apply list_elem_of_lookup in Hy as [i Hi], Hz as [j Hj].
    rewrite (ranked_at i y Hi), (ranked_at j z Hj). cbn [score]. destruct (score_wf y.1 last_hash), (score_wf z.1 last_hash).
    rewrite CompareTo_spec by congruence. unfold better, score_value.
    destruct (Z.compare_spec (value (CalculateLotteryScore y.1 last_hash)) (value (CalculateLotteryScore z.1 last_hash)));
      destruct (Z.gtb_spec (value (CalculateLotteryScore y.1 last_hash)) (value (CalculateLotteryScore z.1 last_hash))); cbn; (reflexivity || lia).
  - destruct prev; [reflexivity|cbn in *; lia].
Qed.

Lemma sorted_length : length sorted = S (length prev).
Proof. rewrite insert_after_perm. reflexivity. Qed.

Lemma x_not_in_prev : x ∉ prev.
Proof.
  intros Hx. rewrite fmap_app in Hnd. apply NoDup_app in Hnd as (_ & Hd & _). apply (Hd x.1); [apply list_elem_of_fmap; eauto|left].
Qed.

(** The flag computed from the rank of the last coinstake tells whether the list
    changed. *)
Lemma should_update : exists b,
  (if (1 <? size m)%nat
   then let* back := oaccess (last sorted) in Ret (negb (rank (ranked_find m back) =? 11)%nat)
   else Ret (0 <? size m)%nat) = (Ret b : io bool) /\
  (b = false -> length prev = 11%nat /\ sorted = prev ++ [x]).
Proof.
  rewrite ranked_size. destruct (Nat.ltb_spec 1 (S (length prev))); [|exists true; split; [reflexivity|discriminate]].
  destruct (last sorted) as [back|] eqn:El; [|apply last_None in El; pose proof sorted_length as Hs; rewrite El in Hs; discriminate].
  cbn [oaccess obind]. eexists. split; [reflexivity|]. intros Hb. apply negb_false_iff, Nat.eqb_eq in Hb.
  assert (back ∈ prev ++ [x]) as Hin.
  { rewrite last_lookup in El. apply list_elem_of_lookup_2 in El. rewrite insert_after_perm in El. rewrite <- Permutation_cons_append. exact El. }
  apply list_elem_of_lookup in Hin as [i Hi]. rewrite (ranked_at i back Hi) in Hb. cbn [rank] in Hb. subst i.
  assert (length prev = 11%nat) as H11 by (apply lookup_lt_Some in Hi; rewrite length_app in Hi; cbn in Hi; lia).
  split; [exact H11|]. rewrite lookup_app_r, H11 in Hi by lia. cbn in Hi. injection Hi as <-.
  destruct (insert_after_split key x prev) as (l1 & l2 & E & Es). rewrite Es in El |- *. destruct l2 as [|y l2] using rev_ind.
  - rewrite app_nil_r in E. subst. reflexivity.
  - clear IHl2. rewrite app_comm_cons, app_assoc, last_snoc in El. injection El as ->. exfalso. apply x_not_in_prev. rewrite E.
    apply elem_of_app. right. apply elem_of_app. right. left.
Qed.

(** Without the fork: the best eleven of the list and the new coinstake. *)
Lemma top_legacy : exists u b, TopElevenBestCoinstakesNeedUpdating false m sorted = Ret (u, b) /\
  (if b then u else prev) = take 11 sorted.
Proof.
  unfold TopElevenBestCoinstakesNeedUpdating. destruct should_update as (b & -> & Hb). cbn [obind negb]. rewrite sorted_length.
  assert (Hrl : forall l : LotteryCoinstakes, length l = 12%nat -> removelast l = take 11 l).
  { intros l Hl. rewrite removelast_firstn_len, Hl. reflexivity. }
  destruct (Nat.ltb_spec 11 (S (length prev))).
  - eexists _, b. split; [reflexivity|]. rewrite Hrl by (rewrite sorted_length; lia). destruct b; [reflexivity|].
    destruct (Hb eq_refl) as [H11 ->]. rewrite take_app_le, take_ge by lia. reflexivity.
  - eexists _, b. split; [reflexivity|]. rewrite take_ge by (rewrite sorted_length; lia). destruct b; [reflexivity|].
    destruct (Hb eq_refl). lia.
Qed.

(** With the fork: either nothing is dropped, or a repeated payee is dropped, or
    all payees differ and the worst coinstake is dropped. *)
Lemma top_uniform : exists u b, TopElevenBestCoinstakesNeedUpdating true m sorted = Ret (u, b) /\
  let w := if b then u else prev in
  ((length prev < 11)%nat /\ w = sorted) \/
  (length prev = 11%nat /\ exists a f c, sorted = a ++ f :: c /\ w = a ++ c /\
     ((exists i, (prev ++ [x]) !! i = Some f /\ f.2 ∈ (take i (prev ++ [x])).*2) \/ NoDup (prev ++ [x]).*2)).
Proof.
  unfold TopElevenBestCoinstakesNeedUpdating. destruct should_update as (b & -> & Hb). cbn [obind negb]. rewrite sorted_length.
  destruct (Nat.ltb_spec 11 (S (length prev))).
  - pose proof (erase_first_spec (fun c => isDuplicateScript (ranked_find m c)) (rev sorted)) as He.
    destruct (erase_first _ (rev sorted)) as [rest|].
    + destruct He as (a & f & c & Er & -> & Hf). eexists _, true. split; [reflexivity|]. right. split; [lia|].
      exists (rev c), f, (rev a). apply (f_equal (@rev _)) in Er. rewrite rev_involutive, rev_app_distr in Er. cbn in Er.
      rewrite <- app_assoc in Er. split; [exact Er|]. split; [apply rev_app_distr|]. left.
      assert (f ∈ prev ++ [x]) as Hin by (rewrite <- Permutation_cons_append, <- (insert_after_perm key), Er; apply elem_of_app; right; left).
      apply list_elem_of_lookup in Hin as [i Hi]. exists i. split; [exact Hi|]. rewrite (ranked_at i f Hi) in Hf. cbn in Hf.
      apply bool_decide_eq_true in Hf. exact Hf.
    + assert (Hall : NoDup (prev ++ [x]).*2).
      { apply NoDup_alt. intros i j s Hi Hj. rewrite list_lookup_fmap in Hi, Hj.
        destruct ((prev ++ [x]) !! i) as [ci|] eqn:Ei; [|discriminate]. destruct ((prev ++ [x]) !! j) as [cj|] eqn:Ej; [|discriminate].
        cbn in Hi, Hj. assert (Hno : forall i j ci cj, (prev ++ [x]) !! i = Some ci -> (prev ++ [x]) !! j = Some cj -> ci.2 = cj.2 -> ~ (i < j)%nat).
        { clear i j ci cj Ei Ej Hi Hj. intros i j ci cj Hci Hcj Hs Hlt. specialize (He cj). rewrite (ranked_at j cj Hcj) in He. cbn in He.
          rewrite bool_decide_eq_false in He. apply He.
          - rewrite list_elem_of_In, <- in_rev, <- list_elem_of_In, insert_after_perm, Permutation_cons_append. eapply list_elem_of_lookup_2, Hcj.
          - rewrite <- Hs. apply list_elem_of_fmap. exists ci. split; [reflexivity|].
            apply (list_elem_of_lookup_2 _ i). rewrite lookup_take_lt by exact Hlt. exact Hci. }
        assert (ci.2 = cj.2) by congruence. pose proof (Hno i j ci cj Ei Ej ltac:(congruence)).
        pose proof (Hno j i cj ci Ej Ei ltac:(congruence)). lia. }
      eexists _, b. split; [reflexivity|]. right. split; [lia|].
      assert (sorted <> []) as Hne by (intros E0; pose proof sorted_length as Hs; rewrite E0 in Hs; discriminate).
      exists (removelast sorted), (List.last sorted x), []. split; [apply app_removelast_last, Hne|]. rewrite app_nil_r. split; [|auto].
      destruct b; [reflexivity|]. destruct (Hb eq_refl) as [_ ->]. rewrite removelast_last. reflexivity.
  - eexists _, b. split; [reflexivity|]. left. destruct b; [split; [lia|reflexivity]|]. destruct (Hb eq_refl). lia.
Qed.
End Entry.

(** ** A lottery cycle *)

Section Cycle.
Variable params : RewardParams.
Variable sporks : SporkState.
Variable startOfLotteryBlocks : Z.
Variable heap : index_heap.
Variable activeChain : CChain.

(** The lottery data after the blocks from height [h] on, given what they mint. *)
Fixpoint lottery_run (h : Z) (d : LotteryCoinstakeData) (mints : list CTransaction) : io LotteryCoinstakeData :=
  match mints with
  | [] => Ret d
  | tx :: mints =>
      let* d := CalculateUpdatedLotteryWinners params sporks startOfLotteryBlocks heap activeChain tx d h in
      lottery_run (h + 1) d mints
  end.

Definition ret_or {A} (d : A) (x : io A) : A := match x with Ret a => a | _ => d end.

Definition vetoed (h : Z) (c : LotteryCoinstake) : bool := ret_or false (IsPaymentScriptVetoed params startOfLotteryBlocks heap activeChain c.2 h).

(** The coinstakes entered from height [h] on. *)
Fixpoint entries (veto : bool) (h : Z) (mints : list CTransaction) : LotteryCoinstakes :=
  match mints with
  | [] => []
  | tx :: mints =>
      let c := ret_or ([], []) (entered_coinstake tx) in
      if ret_or false (IsCoinstakeValidForLottery sporks (tx_body tx) h) && negb (veto && vetoed h c)
      then c :: entries veto (h + 1) mints else entries veto (h + 1) mints
  end.

(** A coinbase pays, a coinstake has its empty output and pays. *)
Definition mint_ok (tx : CTransaction) : Prop := is_Some (vout (tx_body tx) !! (if IsCoinBase (tx_body tx) then 0 else 1)%nat).

Hypothesis Hp : params_ok params.
Hypothesis Hchain : chain_reachable heap activeChain.
Variables (h0 : Z) (p0 : ptr) (b0 : CBlockIndex).
Hypothesis Hh0 : (GetLotteryBlockCycle params | h0).
Hypothesis Hpos : 0 <= h0.
Hypothesis Hstart : startOfLotteryBlocks <= h0.
Hypothesis Hat : chain_at activeChain h0 = Some p0.
Hypothesis Hb0 : heap !! p0 = Some b0.

Abbreviation active := (IsActive (bi_nTime b0) UniformLotteryWinners).
Abbreviation key := (score_value (GetBlockHash b0)).

Definition within (h : Z) : Prop := h0 < h < h0 + GetLotteryBlockCycle params.

Lemma within_cycle h : within h -> IsValidLotteryBlockHeight params h = false /\
  nLastLotteryHeight params startOfLotteryBlocks h = h0 /\ GetLotteryBlockPaymentCycle params h = GetLotteryBlockCycle params.
Proof.
  intros Hh. unfold within in Hh. destruct Hp.
  assert (Hc : GetLotteryBlockPaymentCycle params h = GetLotteryBlockCycle params).
  { unfold GetLotteryBlockPaymentCycle, superblockCycleLength. destruct (_ <? _); reflexivity. }
  split; [|split; [|exact Hc]].
  - apply not_true_iff_false. rewrite lottery_height_iff by exact Hp. intros [_ Hd]. revert Hd.
    apply (no_multiple_between _ (h0 + GetLotteryBlockCycle params)); [|lia]. apply Z.divide_add_r; [exact Hh0|apply Z.divide_refl].
  - unfold nLastLotteryHeight. rewrite Hc. destruct Hh0 as [q ->]. rewrite Z.quot_div_nonneg by lia.
    rewrite <- (Z.div_unique (h - 1) (GetLotteryBlockCycle params) q (h - 1 - q * GetLotteryBlockCycle params)) by lia. lia.
Qed.

(** Every pointer of the active chain is valid. *)
Lemma chain_deref h p : chain_at activeChain h = Some p -> exists b, deref heap (Some p) = Ret b.
Proof.
  intros Hc. destruct (chain_reachable_ok heap activeChain Hchain) as [Hok Hcok].
  destruct Hcok as [->|(t & ht & Ht & _ & Hall)].
  - unfold chain_at in Hc. destruct (_ || _); [discriminate|]. rewrite lookup_nil in Hc. discriminate.
  - rewrite Hall in Hc. pose proof (ancestor_range heap t ht h p Ht Hc) as Hr.
    destruct (ancestor_spec heap Hok t ht h Ht Hr) as (q & E & (b & Hb & _) & _). rewrite Hc in E. injection E as <-.
    exists b. cbn. rewrite Hb. reflexivity.
Qed.

Lemma veto_returns script h : exists b, IsPaymentScriptVetoed params startOfLotteryBlocks heap activeChain script h = Ret b.
Proof.
  unfold IsPaymentScriptVetoed. generalize (nLastLotteryHeight params startOfLotteryBlocks h), (GetLotteryBlockPaymentCycle params h).
  generalize 3%nat. induction n as [|n IH]; intros a c; cbn [veto_loop]; [eauto|].
  destruct (chain_at activeChain (a - 1)) as [p|] eqn:E; [|eauto]. destruct (chain_deref _ _ E) as [b ->]. cbn [obind].
  destruct (existsb _ _); [eauto|apply IH].
Qed.

Lemma eligible_returns tx h : mint_ok tx -> exists b (c : LotteryCoinstake),
  IsCoinstakeValidForLottery sporks (tx_body tx) h = Ret b /\ entered_coinstake tx = Ret c /\ c.1 = tx_hash tx.
Proof.
  intros [o Ho]. unfold IsCoinstakeValidForLottery, entered_coinstake. rewrite Ho. cbn [oaccess obind].
  destruct (IsCoinBase (tx_body tx)); rewrite Ho; cbn [oaccess obind]; eexists _, _; cbn; auto.
Qed.

(** One block of the cycle. *)
Lemma calculate_spec tx d h : within h -> mint_ok tx -> (length (storage d) <= 11)%nat -> descending key (storage d) ->
  NoDup ((storage d).*1 ++ [tx_hash tx]) ->
  exists d' (c : LotteryCoinstake), CalculateUpdatedLotteryWinners params sporks startOfLotteryBlocks heap activeChain tx d h = Ret d' /\
    c.1 = tx_hash tx /\
    entries active h [tx] = (if ret_or false (IsCoinstakeValidForLottery sporks (tx_body tx) h) && negb (active && vetoed h c) then [c] else []) /\
    match entries active h [tx] with
    | [] => storage d' = storage d
    | _ => exists u b, TopElevenBestCoinstakesNeedUpdating active (computeRankedScoreAwareCoinstakes (GetBlockHash b0) (storage d ++ [c]))
             (insert_after (better key) c (storage d)) = Ret (u, b) /\ storage d' = if b then u else storage d
    end.
Proof.
  intros Hh Hm Hlen Hd Hnd. destruct (within_cycle h Hh) as (Hv & Hl & Hc). unfold within in Hh.
  destruct (eligible_returns tx h Hm) as (elig & c & He & Hent & Hc1).
  unfold CalculateUpdatedLotteryWinners. destruct (Z.leb_spec h 0); [lia|]. rewrite Hv. destruct (Z.leb_spec h startOfLotteryBlocks); [lia|].
  cbn [entries]. rewrite He, Hent. cbn [obind ret_or]. destruct elig; cbn [negb andb]; [|exists (getShallowCopy d), c; auto].
  assert (Hnd' : NoDup (storage d ++ [c]).*1) by (rewrite fmap_app; cbn; rewrite Hc1; exact Hnd).
  unfold UpdateCoinstakes, GetLastLotteryBlockIndexBeforeHeight. rewrite Hl, Hat. cbn [deref oaccess obind]. rewrite Hb0. cbn [oaccess obind].
  rewrite last_snoc. unfold vetoed. destruct (veto_returns c.2 h) as [vb Hvb]. cbn [oaccess obind].
  destruct active eqn:Ea; cbn [andb].
  - rewrite Hvb. cbn [obind ret_or]. destruct vb; cbn [negb obind]; [exists (getShallowCopy d), c; rewrite Hvb; auto|].
    cbv zeta. rewrite sort_spec by assumption. destruct (top_uniform (GetBlockHash b0) (storage d) c) as (u & b & Ht & _); [assumption..|]. rewrite Ht. cbn [obind].
    eexists _, c. split; [reflexivity|]. split; [exact Hc1|]. rewrite Hvb. split; [reflexivity|]. exists u, b. split; [exact Ht|]. destruct b; reflexivity.
  - cbn [obind negb]. cbv zeta. rewrite sort_spec by assumption. destruct (top_legacy (GetBlockHash b0) (storage d) c) as (u & b & Ht & _); [assumption..|]. rewrite Ht.
    cbn [obind]. eexists _, c. split; [reflexivity|]. split; [exact Hc1|]. split; [reflexivity|]. exists u, b. split; [exact Ht|]. destruct b; reflexivity.
Qed.

Lemma entries_cons veto h tx mints : entries veto h (tx :: mints) = entries veto h [tx] ++ entries veto (h + 1) mints.
Proof. cbn [entries]. destruct (_ && _); reflexivity. Qed.

Lemma nodup_sub (w E : LotteryCoinstakes) (l : list (list Z)) : w ⊆+ E -> NoDup (E.*1 ++ l) -> NoDup (w.*1 ++ l).
Proof.
  intros (k & Hk)%submseteq_Permutation Hnd. rewrite Hk, fmap_app, <- app_assoc, (Permutation_app_comm k.*1), app_assoc in Hnd.
  apply NoDup_app in Hnd. tauto.
Qed.

(** The hypotheses on one block from those on a run. *)
Lemma run_nodup (E : LotteryCoinstakes) tx mints d h : storage d ⊆+ E -> NoDup (E.*1 ++ map tx_hash (tx :: mints)) ->
  NoDup ((storage d).*1 ++ [tx_hash tx]) /\
  forall c : LotteryCoinstake, c.1 = tx_hash tx -> NoDup ((E ++ (if h : bool then [c] else [])).*1 ++ map tx_hash mints).
Proof.
  intros Hs Hnd. cbn [map] in Hnd. split.
  - apply (nodup_sub _ E _ Hs). rewrite cons_middle, app_assoc in Hnd. apply NoDup_app in Hnd. tauto.
  - intros c Hc. rewrite fmap_app, <- app_assoc. destruct h; cbn; [rewrite Hc; exact Hnd|].
    apply NoDup_app in Hnd as (H1 & H2 & H3). apply NoDup_cons in H3 as [_ H3]. apply NoDup_app. split; [exact H1|]. split; [|exact H3].
    intros y Hy Hin. apply (H2 y Hy). right. exact Hin.
Qed.

(** Without the fork. *)
Lemma legacy_run mints : forall h d E, active = false -> h0 < h -> h + zlen mints <= h0 + GetLotteryBlockCycle params ->
  Forall mint_ok mints -> NoDup (E.*1 ++ map tx_hash mints) -> storage d = take 11 (stable_sort (better key) E) ->
  exists d', lottery_run h d mints = Ret d' /\
    storage d' = take 11 (stable_sort (better key) (E ++ entries active h mints)).
Proof.
  induction mints as [|tx mints IH]; intros h d E Ha Hh Hz Hm Hnd Hd; cbn [lottery_run].
  - exists d. rewrite app_nil_r. auto.
  - apply Forall_cons in Hm as [Htx Hm]. unfold zlen in Hz. cbn [length] in Hz.
    assert (Hsub : storage d ⊆+ E).
    { rewrite Hd. rewrite <- (stable_sort_perm_better key E) at 2. rewrite <- (take_drop 11 (stable_sort (better key) E)) at 2.
      apply submseteq_inserts_r. reflexivity. }
    assert (Hlen : (length (storage d) <= 11)%nat) by (rewrite Hd, length_take; lia).
    assert (Hds : descending key (storage d)) by (rewrite Hd; apply descending_take, stable_sort_descending).
    destruct (calculate_spec tx d h) as (d1 & c & -> & Hc1 & Hent & Hres); [unfold within; lia|exact Htx|exact Hlen|exact Hds|apply (run_nodup E tx mints d true Hsub Hnd)|].
    cbn [obind]. rewrite entries_cons, app_assoc.
    apply (IH (h + 1) d1 (E ++ entries active h [tx])); [exact Ha|lia|unfold zlen; lia|exact Hm| |].
    + rewrite Hent. apply (run_nodup E tx mints d _ Hsub Hnd). exact Hc1.
    + rewrite Hent in Hres |- *. destruct (_ && _); [|rewrite app_nil_r, Hres; exact Hd].
      destruct Hres as (u & b & Htop & ->). rewrite Ha in Htop.
      destruct (top_legacy (GetBlockHash b0) (storage d) c) as (u' & b' & Htop' & Hres'); [|assumption..|].
      * rewrite fmap_app. cbn. rewrite Hc1. apply (run_nodup E tx mints d true Hsub Hnd).
      * rewrite Htop in Htop'. injection Htop' as <- <-. rewrite Hres', stable_sort_snoc, Hd. apply take_insert_after.
Qed.

(** With the fork: of the coinstakes entered so far, the winners are at most eleven,
    best first; nobody was dropped while there was room; and a payee appears twice
    only if every payee that entered appears. *)
Record fair (w E : LotteryCoinstakes) : Prop := mkFair {
  fa_entered : w ⊆+ E;
  fa_eleven : (length w <= 11)%nat;
  fa_best : descending key w;
  fa_room : (length w < 11)%nat -> forall e, e ∈ E -> e ∈ w;
  fa_payees : (forall e, e ∈ E -> e.2 ∈ w.*2) \/ NoDup w.*2
}.

Lemma nodup_scripts_sub (w E : LotteryCoinstakes) : w ⊆+ E -> NoDup E.*2 -> NoDup w.*2.
Proof. intros (k & Hk)%submseteq_Permutation Hnd. rewrite Hk, fmap_app in Hnd. apply NoDup_app in Hnd. tauto. Qed.

Lemma fair_grow w E x : (length w < 11)%nat -> fair w E -> fair (insert_after (better key) x w) (E ++ [x]).
Proof.
  intros Hl [F1 F2 F3 F4 F5].
  assert (Hall : forall e, e ∈ E ++ [x] -> e ∈ insert_after (better key) x w).
  { intros e He. rewrite insert_after_perm. apply elem_of_app in He as [He|He%list_elem_of_singleton]; [right; auto|subst; left]. }
  constructor; [|rewrite insert_after_perm; cbn; lia|apply insert_after_descending, F3|auto|].
  - rewrite insert_after_perm, <- Permutation_cons_append. apply submseteq_skip, F1.
  - left. intros e He. apply list_elem_of_fmap. exists e. auto.
Qed.

Lemma fair_replace w E x a f c : length w = 11%nat -> NoDup (w ++ [x]).*1 -> fair w E ->
  insert_after (better key) x w = a ++ f :: c ->
  ((exists i, (w ++ [x]) !! i = Some f /\ f.2 ∈ (take i (w ++ [x])).*2) \/ NoDup (w ++ [x]).*2) -> fair (a ++ c) (E ++ [x]).
Proof.
  intros Hl Hnd [F1 F2 F3 F4 F5] Es Hdup.
  assert (Hperm : w ++ [x] ≡ₚ f :: a ++ c) by (rewrite <- Permutation_cons_append, <- (insert_after_perm key), Es; symmetry; apply Permutation_middle).
  assert (Hsub : a ++ c ⊆+ w ++ [x]) by (rewrite Hperm; apply submseteq_cons; reflexivity).
  assert (Hlen : length (a ++ c) = 11%nat) by (apply Permutation_length in Hperm; rewrite length_app in Hperm; cbn in Hperm; lia).
  assert (Hdesc : descending key (a ++ c)).
  { pose proof (insert_after_descending key x w F3) as Hd. rewrite Es in Hd. apply descending_app in Hd as (D1 & D2 & D3).
    inversion D2 as [|? ? D4 D5]; subst. apply descending_app. split; [exact D1|]. split; [exact D4|]. intros y z Hy Hz. apply D3; [exact Hy|right; exact Hz]. }
  constructor; [|lia|exact Hdesc|lia|].
  - rewrite Hsub. apply submseteq_skips_r, F1.
  - destruct Hdup as [(i & Hi & Hf)|Hno]; [|right; exact (nodup_scripts_sub _ _ Hsub Hno)].
    apply list_elem_of_fmap in Hf as (g & Hg & (j & Hj)%list_elem_of_lookup). apply lookup_take_Some in Hj as [Hj Hji].
    destruct F5 as [Hcov|Hw].
    + left. assert (Hkeep : forall y, y ∈ w ++ [x] -> y.2 ∈ (a ++ c).*2).
      { assert (Hne : forall y, y ∈ w ++ [x] -> y <> f -> y.2 ∈ (a ++ c).*2).
        { intros y Hy Hyf. rewrite Hperm in Hy. apply elem_of_cons in Hy as [->|Hy]; [congruence|]. apply list_elem_of_fmap. eauto. }
        intros y Hy. destruct (decide (y = f)) as [->|Hyf]; [|auto]. rewrite Hg. apply Hne; [eapply list_elem_of_lookup_2, Hj|].
        intros ->. apply (NoDup_fmap_1 fst) in Hnd. pose proof (NoDup_lookup _ _ _ _ Hnd Hi Hj). lia. }
      intros e He. apply elem_of_app in He as [He|He]; [|apply Hkeep, elem_of_app; auto].
      apply Hcov, list_elem_of_fmap in He as (y & -> & Hy). apply Hkeep, elem_of_app. auto.
    + right. assert (i = length w) as ->.
      { destruct (decide (i < length w)%nat) as [Hlt|]; [|apply lookup_lt_Some in Hi; rewrite length_app in Hi; cbn in Hi; lia].
        rewrite lookup_app_l in Hi, Hj by lia. exfalso.
        assert (w.*2 !! i = w.*2 !! j) as Heq by (rewrite !list_lookup_fmap, Hi, Hj; cbn; congruence).
        assert (w.*2 !! j = Some g.2) as Hjs by (rewrite list_lookup_fmap, Hj; reflexivity). rewrite Hjs in Heq.
        pose proof (NoDup_lookup _ _ _ _ Hw Heq Hjs). lia. }
      rewrite lookup_app_r, Nat.sub_diag in Hi by lia. injection Hi as <-.
      rewrite <- Permutation_cons_append in Hperm. apply Permutation_cons_inv in Hperm. rewrite <- Hperm. exact Hw.
Qed.

Lemma uniform_run mints : forall h d E, active = true -> h0 < h -> h + zlen mints <= h0 + GetLotteryBlockCycle params ->
  Forall mint_ok mints -> NoDup (E.*1 ++ map tx_hash mints) -> fair (storage d) E ->
  exists d', lottery_run h d mints = Ret d' /\ fair (storage d') (E ++ entries active h mints).
Proof.
  induction mints as [|tx mints IH]; intros h d E Ha Hh Hz Hm Hnd Hf; cbn [lottery_run].
  - exists d. rewrite app_nil_r. auto.
  - apply Forall_cons in Hm as [Htx Hm]. unfold zlen in Hz. cbn [length] in Hz. pose proof Hf as [F1 F2 F3 F4 F5].
    destruct (run_nodup E tx mints d true F1 Hnd) as [Hnd1 _].
    destruct (calculate_spec tx d h) as (d1 & c & -> & Hc1 & Hent & Hres); [unfold within; lia|exact Htx|exact F2|exact F3|exact Hnd1|].
    cbn [obind]. rewrite entries_cons, app_assoc.
    apply (IH (h + 1) d1 (E ++ entries active h [tx])); [exact Ha|lia|unfold zlen; lia|exact Hm| |].
    + rewrite Hent. apply (run_nodup E tx mints d _ F1 Hnd). exact Hc1.
    + rewrite Hent in Hres |- *. destruct (_ && _); [|rewrite app_nil_r, Hres; exact Hf].
      destruct Hres as (u & b & Htop & ->). rewrite Ha in Htop.
      assert (Hndc : NoDup (storage d ++ [c]).*1) by (rewrite fmap_app; cbn; rewrite Hc1; exact Hnd1).
      destruct (top_uniform (GetBlockHash b0) (storage d) c) as (u' & b' & Htop' & Hcases); [assumption..|].
      rewrite Htop in Htop'. injection Htop' as <- <-. cbv zeta in Hcases.
      destruct Hcases as [[Hlt ->]|(H11 & a & f & k & Es & -> & Hd)]; [apply fair_grow; assumption|].
      apply (fair_replace (storage d) E c a f k); assumption.
Qed.
End Cycle.

(** C37: Without the uniform-winners fork, the winners the block index carries after
    any number of blocks of a lottery cycle are the first eleven of all coinstakes
    entered since the lottery block, sorted by descending score with ties in order
    of entry: the block-by-block update loses nothing.  The update returns on every
    block. *)
Theorem lottery_best_eleven params sporks start heap c h0 p0 b0 mints :
  params_ok params -> chain_reachable heap c -> (GetLotteryBlockCycle params | h0) -> 0 <= h0 -> start <= h0 ->
  chain_at c h0 = Some p0 -> heap !! p0 = Some b0 -> IsActive (bi_nTime b0) UniformLotteryWinners = false ->
  zlen mints < GetLotteryBlockCycle params -> Forall mint_ok mints -> NoDup (map tx_hash mints) ->
  exists d, lottery_run params sporks start heap c (h0 + 1) (LotteryCoinstakeData_of h0 []) mints = Ret d /\
    storage d = take 11 (stable_sort (better (score_value (GetBlockHash b0))) (entries params sporks start heap c false (h0 + 1) mints)).
Proof.
  intros Hp Hc Hh0 H0 Hs Hat Hb Ha Hz Hm Hnd.
  destruct (legacy_run params sporks start heap c Hp Hc h0 p0 b0 Hh0 H0 Hs Hat Hb mints (h0 + 1) (LotteryCoinstakeData_of h0 []) [] Ha)
    as (d & E & Hd); [lia|lia|exact Hm|exact Hnd|reflexivity|]. exists d. rewrite Ha in Hd. auto.
Qed.

(** With the uniform-winners fork, after any number of blocks of a lottery
    cycle the winners are at most eleven of the coinstakes entered and not vetoed,
    best scores first; while there are fewer than eleven nobody is left out; and a
    payee wins more than once only if every payee that entered wins. *)
Theorem lottery_uniform params sporks start heap c h0 p0 b0 mints :
  params_ok params -> chain_reachable heap c -> (GetLotteryBlockCycle params | h0) -> 0 <= h0 -> start <= h0 ->
  chain_at c h0 = Some p0 -> heap !! p0 = Some b0 -> IsActive (bi_nTime b0) UniformLotteryWinners = true ->
  zlen mints < GetLotteryBlockCycle params -> Forall mint_ok mints -> NoDup (map tx_hash mints) ->
  exists d, lottery_run params sporks start heap c (h0 + 1) (LotteryCoinstakeData_of h0 []) mints = Ret d /\
    fair b0 (storage d) (entries params sporks start heap c true (h0 + 1) mints).
Proof.
  intros Hp Hc Hh0 H0 Hs Hat Hb Ha Hz Hm Hnd.
  destruct (uniform_run params sporks start heap c Hp Hc h0 p0 b0 Hh0 H0 Hs Hat Hb mints (h0 + 1) (LotteryCoinstakeData_of h0 []) [] Ha)
    as (d & E & Hd); [lia|lia|exact Hm|exact Hnd| |].
  - constructor; cbn; [reflexivity|lia|constructor|intros _ e He; apply not_elem_of_nil in He; contradiction|right; constructor].
  - exists d. rewrite Ha in Hd. auto.
Qed.

Definition sample_mint (n : Z) (script : list Z) : CTransaction :=
  mkTransaction (of_uint64 8 n) (mkMutable 1 [mkTxIn (mkOutPoint (of_uint64 8 n) 0) [] SEQUENCE_FINAL]
    [CTxOut_empty; mkTxOut (20000 * COIN) script] 0).

Definition sample_mints : list CTransaction := [sample_mint 1 [81]; sample_mint 2 [82]; sample_mint 3 [81]].

Definition lottery_block (nTime : Z) : CBlockIndex := mkIndex (of_uint64 8 9) None None 0 0 0 0 nTime 0 LotteryCoinstakeData_empty.

Lemma lottery_block_reachable nTime : chain_reachable {[ 1%positive := lottery_block nTime ]} [Some 1%positive].
Proof.
  unfold chain_reachable. eapply rtc_l; [apply (step_genesis 1 (lottery_block nTime)); reflexivity|].
  eapply rtc_l; [apply (step_tip _ _ (Some 1%positive)); reflexivity|apply rtc_refl].
Qed.

Lemma sample_mints_ok : Forall mint_ok sample_mints.
Proof. repeat constructor; vm_compute; eauto. Qed.

Lemma lottery_best_eleven_witness :
  exists d, lottery_run main_params no_sporks 0 {[ 1%positive := lottery_block 1500000000 ]} [Some 1%positive] 1 (LotteryCoinstakeData_of 0 []) sample_mints = Ret d /\
    length (storage d) = 3%nat.
Proof.
  destruct (lottery_best_eleven main_params no_sporks 0 {[ 1%positive := lottery_block 1500000000 ]} [Some 1%positive] 0 1
    (lottery_block 1500000000) sample_mints main_params_ok (lottery_block_reachable _)) as (d & H1 & H2);
    [apply Z.divide_0_r|lia|lia|reflexivity|reflexivity|reflexivity|reflexivity|exact sample_mints_ok| |].
  - apply (bool_decide_unpack _). vm_compute. exact I.
  - exists d. split; [exact H1|]. rewrite H2, length_take, stable_sort_perm_better. vm_compute. reflexivity.
Defined.

Lemma lottery_uniform_witness :
  exists d, lottery_run main_params no_sporks 0 {[ 1%positive := lottery_block 1700000000 ]} [Some 1%positive] 1 (LotteryCoinstakeData_of 0 []) sample_mints = Ret d /\
    (length (storage d) <= 11)%nat.
Proof.
  destruct (lottery_uniform main_params no_sporks 0 {[ 1%positive := lottery_block 1700000000 ]} [Some 1%positive] 0 1
    (lottery_block 1700000000) sample_mints main_params_ok (lottery_block_reachable _)) as (d & H1 & H2);
    [apply Z.divide_0_r|lia|lia|reflexivity|reflexivity|reflexivity|reflexivity|exact sample_mints_ok| |].
  - apply (bool_decide_unpack _). vm_compute. exact I.
  - exists d. split; [exact H1|apply H2].
Defined.
