(* ===== verification/Base58.v ===== *)
(** * Base58: [base58data.cpp], [base58address.cpp]

    Strings are lists of character codes.  Encoding and decoding convert between
    bases 256 and 58 in place, in vectors whose sizes are estimated from rounded
    logarithms; the estimates suffice, and decoding inverts encoding. *)

From Stdlib Require Import ZArith Lia Bool.
From stdpp Require Import base option numbers list.
From S2P Require Import Prelude BaseUInt UInt256 Opcodes ScriptNum Script CryptoCommon BlockHasher Sha256 Hashes Standard.

Open Scope Z_scope.
Open Scope outcome_scope.

Abbreviation io := (outcome Empty_set).

(** ["123456789ABCDEFGHJKLMNPQRSTUVWXYZabcdefghijkmnopqrstuvwxyz"] *)
Definition pszBase58 : list Z :=
  [49;50;51;52;53;54;55;56;57;65;66;67;68;69;70;71;72;74;75;76;77;78;80;81;82;83;84;85;86;87;88;89;90;
   97;98;99;100;101;102;103;104;105;106;107;109;110;111;112;113;114;115;116;117;118;119;120;121;122].

Definition isspace (c : Z) : bool := (c =? 32) || ((9 <=? c) && (c <=? 13)).

Fixpoint index_of (c : Z) (l : list Z) : option Z :=
  match l with
  | [] => None
  | x :: l => if x =? c then Some 0 else match index_of c l with Some i => Some (i + 1) | None => None end
  end.

(** [strchr(pszBase58, c) - pszBase58] *)
Definition base58_digit (c : Z) : option Z := index_of c pszBase58.

Fixpoint skip_while (p : Z -> bool) (l : list Z) : list Z :=
  match l with x :: l' => if p x then skip_while p l' else l | [] => [] end.

(** Number of leading elements. *)
Fixpoint count_while (p : Z -> bool) (l : list Z) : nat :=
  match l with x :: l => if p x then S (count_while p l) else O | [] => O end.

(** The inner loops: [carry += mul * digit] from the last digit on, over the digits
    in reverse, with what is left in [carry]. *)
Fixpoint mul_add (base mul carry : Z) (digits : list Z) : list Z * Z :=
  match digits with
  | [] => ([], carry)
  | d :: digits =>
      let carry := carry + mul * d in
      let '(digits, rest) := mul_add base mul (carry / base) digits in
      (carry mod base :: digits, rest)
  end.

(** One round on the big-endian vector, with [assert(carry == 0)]. *)
Definition push_digit (base mul c : Z) (v : list Z) : io (list Z) :=
  let '(l, carry) := mul_add base mul c (rev v) in
  oassert (carry =? 0) ;;;
  Ret (rev l).

(** [while ( *psz && !isspace( *psz))]: [None] when a character is no digit, else
    the vector and the rest of the string. *)
Fixpoint decode_chars (psz b256 : list Z) : io (option (list Z * list Z)) :=
  match psz with
  | [] => Ret (Some (b256, []))
  | c :: psz' =>
      if isspace c then Ret (Some (b256, psz))
      else match base58_digit c with
           | None => Ret None
           | Some d => let* b256 := push_digit 256 58 d b256 in decode_chars psz' b256
           end
  end.

Definition DecodeBase58 (psz : list Z) : io (option (list Z)) :=
  let psz := skip_while isspace psz in
  let zeroes := count_while (Z.eqb 49) psz in
  let psz := skip_while (Z.eqb 49) psz in
  let b256 := replicate (length psz * 733 / 1000 + 1) 0 in
  let* r := decode_chars psz b256 in
  match r with
  | None => Ret None
  | Some (b256, psz) =>
      match skip_while isspace psz with
      | _ :: _ => Ret None
      | [] => Ret (Some (replicate zeroes 0 ++ skip_while (Z.eqb 0) b256))
      end
  end.

Fixpoint encode_bytes (bytes b58 : list Z) : io (list Z) :=
  match bytes with
  | [] => Ret b58
  | c :: bytes => let* b58 := push_digit 58 256 c b58 in encode_bytes bytes b58
  end.

(** [pszBase58[ *(it++)]] *)
Fixpoint base58_chars (digits : list Z) : io (list Z) :=
  match digits with
  | [] => Ret []
  | d :: digits =>
      let* c := oaccess (pszBase58 !! Z.to_nat d) in
      let* rest := base58_chars digits in
      Ret (c :: rest)
  end.

Definition EncodeBase58 (vch : list Z) : io (list Z) :=
  let zeroes := count_while (Z.eqb 0) vch in
  let rest := skip_while (Z.eqb 0) vch in
  let* b58 := encode_bytes rest (replicate (length rest * 138 / 100 + 1) 0) in
  let* str := base58_chars (skip_while (Z.eqb 0) b58) in
  Ret (replicate zeroes 49 ++ str).

(** The first four bytes of [Hash(vch.begin(), vch.end())]. *)
Definition checksum (vch : list Z) : list Z := take 4 (Hash [vch]).

Definition EncodeBase58Check (vchIn : list Z) : io (list Z) := EncodeBase58 (vchIn ++ checksum vchIn).

Definition DecodeBase58Check (psz : list Z) : io (option (list Z)) :=
  let* r := DecodeBase58 psz in
  match r with
  | None => Ret None
  | Some vchRet =>
      if zlen vchRet <? 4 then Ret None
      else
        let n := (length vchRet - 4)%nat in
        Ret (if bool_decide (checksum (take n vchRet) = drop n vchRet) then Some (take n vchRet) else None)
  end.

(** ** Addresses *)

Record CBase58Data := mkBase58Data { vchVersion : list Z; vchData : list Z }.

Definition CBase58Data_empty : CBase58Data := mkBase58Data [] [].

Definition SetString (psz : list Z) (nVersionBytes : Z) : io (CBase58Data * bool) :=
  let* r := DecodeBase58Check psz in
  match r with
  | Some vchTemp =>
      if zlen vchTemp <? nVersionBytes then Ret (CBase58Data_empty, false)
      else Ret (mkBase58Data (take (Z.to_nat nVersionBytes) vchTemp) (drop (Z.to_nat nVersionBytes) vchTemp), true)
  | None => Ret (CBase58Data_empty, false)
  end.

Definition CBase58Data_ToString (d : CBase58Data) : io (list Z) := EncodeBase58Check (vchVersion d ++ vchData d).

(** [Params().Base58Prefix] of the two kinds of addresses and of private keys. *)
Record AddressPrefixes := mkPrefixes { PUBKEY_ADDRESS : list Z; SCRIPT_ADDRESS : list Z; SECRET_KEY : list Z }.

Definition main_prefixes : AddressPrefixes := mkPrefixes [30] [13] [212].
Definition test_prefixes : AddressPrefixes := mkPrefixes [139] [19] [239].

(** [CKey]: 32 bytes, with a flag for compressed public keys. *)
Record CKey := mkKey { fValid : bool; fCompressed : bool; keydata : list Z }.

(** [CKey()], whose [keydata] is 32 bytes. *)
Definition CKey_new : CKey := mkKey false false (replicate 32 0).

Section Addresses.
Variable prefixes : AddressPrefixes.

(** [CBitcoinAddress::Set]: nothing changes for [CNoDestination]. *)
Definition address_Set (d : CBase58Data) (dest : CTxDestination) : CBase58Data * bool :=
  match dest with
  | CKeyID id => (mkBase58Data (PUBKEY_ADDRESS prefixes) id, true)
  | CScriptID id => (mkBase58Data (SCRIPT_ADDRESS prefixes) id, true)
  | CNoDestination => (d, false)
  end.

Definition address_IsValid (d : CBase58Data) : bool :=
  (zlen (vchData d) =? 20) && (bool_decide (vchVersion d = PUBKEY_ADDRESS prefixes) || bool_decide (vchVersion d = SCRIPT_ADDRESS prefixes)).

Definition address_Get (d : CBase58Data) : CTxDestination :=
  if negb (address_IsValid d) then CNoDestination
  else if bool_decide (vchVersion d = PUBKEY_ADDRESS prefixes) then CKeyID (vchData d)
  else if bool_decide (vchVersion d = SCRIPT_ADDRESS prefixes) then CScriptID (vchData d)
  else CNoDestination.

Definition address_GetKeyID (d : CBase58Data) : option (list Z) :=
  if negb (address_IsValid d) || negb (bool_decide (vchVersion d = PUBKEY_ADDRESS prefixes)) then None else Some (vchData d).

Definition address_IsScript (d : CBase58Data) : bool :=
  address_IsValid d && bool_decide (vchVersion d = SCRIPT_ADDRESS prefixes).

(** [CKey::Check]: whether the curve library accepts the 32 bytes. *)
Variable Check : list Z -> bool.

Definition CKey_Set (k : CKey) (data : list Z) (fCompressedIn : bool) : CKey :=
  if negb (zlen data =? 32) then mkKey false (fCompressed k) (keydata k)
  else if Check data then mkKey true fCompressedIn data
  else mkKey false (fCompressed k) (keydata k).

(** [CBitcoinSecret::SetKey], [GetKey], [IsValid], [SetString]. *)
Definition secret_SetKey (k : CKey) : io CBase58Data :=
  oassert (fValid k) ;;;
  Ret (mkBase58Data (SECRET_KEY prefixes) (keydata k ++ if fCompressed k then [1] else [])).

Definition secret_GetKey (d : CBase58Data) : io CKey :=
  oassert (32 <=? zlen (vchData d)) ;;;
  Ret (CKey_Set CKey_new (take 32 (vchData d)) ((32 <? zlen (vchData d)) && bool_decide (vchData d !! 32%nat = Some 1))).

Definition secret_IsValid (d : CBase58Data) : bool :=
  ((zlen (vchData d) =? 32) || ((zlen (vchData d) =? 33) && bool_decide (vchData d !! 32%nat = Some 1))) &&
  bool_decide (vchVersion d = SECRET_KEY prefixes).

Definition secret_SetString (psz : list Z) : io (CBase58Data * bool) :=
  let* '(d, ok) := SetString psz 1 in Ret (d, ok && secret_IsValid d).
End Addresses.

(** ** Positional notation *)

(** The number whose digits in base [b], most significant first, follow [acc]. *)
Definition horner (b acc : Z) (ds : list Z) : Z := fold_left (fun a d => a * b + d) ds acc.

Abbreviation digits_of b := (Forall (fun d => 0 <= d < b)).

Lemma pow_zlen_cons b (d : Z) ds : b ^ zlen (d :: ds) = b * b ^ zlen ds.
Proof. rewrite zlen_cons, Z.pow_add_r; [by rewrite Z.pow_1_r | lia | unfold zlen; lia]. Qed.

Lemma horner_app b acc xs ys : horner b acc (xs ++ ys) = horner b (horner b acc xs) ys.
Proof. apply fold_left_app. Qed.

Lemma horner_acc b acc ds : horner b acc ds = acc * b ^ zlen ds + horner b 0 ds.
Proof.
  revert acc. induction ds as [|d ds IH]; intros acc; [unfold zlen; cbn; lia|].
  change (horner b acc (d :: ds)) with (horner b (acc * b + d) ds).
  change (horner b 0 (d :: ds)) with (horner b d ds). rewrite IH, (IH d), pow_zlen_cons. nia.
Qed.

Lemma horner_bounds b ds : 0 < b -> digits_of b ds -> 0 <= horner b 0 ds < b ^ zlen ds.
Proof.
  intros Hb. induction 1 as [|d ds Hd _ IH]; [unfold zlen; cbn; lia|].
  change (horner b 0 (d :: ds)) with (horner b d ds).
  rewrite horner_acc, pow_zlen_cons. nia.
Qed.

Lemma horner_zeros b n : horner b 0 (replicate n 0) = 0.
Proof. unfold horner. induction n; [done|]. exact IHn. Qed.

(** The loop of [push_digit] adds and carries. *)
Lemma mul_add_spec base mul carry v :
  0 < base -> 0 <= mul -> 0 <= carry -> digits_of base v ->
  let '(l, rest) := mul_add base mul carry v in
  horner base 0 (rev l) + base ^ zlen v * rest = mul * horner base 0 (rev v) + carry /\
  0 <= rest /\ length l = length v /\ digits_of base l.
Proof.
  intros Hb Hm Hc Hv. revert carry Hc. induction Hv as [|d v Hd Hv IH]; intros carry Hc.
  { unfold zlen; cbn. repeat split; try done; lia. }
  cbn [mul_add]. specialize (IH ((carry + mul * d) / base)).
  destruct (mul_add base mul _ v) as [l rest]. destruct IH as (E & Hr & Hl & Hlr).
  { apply Z.div_pos; nia. }
  cbn [rev]. rewrite !horner_app. cbn. rewrite pow_zlen_cons.
  pose proof (Z.div_mod (carry + mul * d) base ltac:(lia)).
  pose proof (Z.mod_pos_bound (carry + mul * d) base ltac:(lia)).
  split; [nia | split; [done | split; [by rewrite Hl | constructor; [lia | done]]]].
Qed.

Lemma Forall_rev_Z (P : Z -> Prop) l : Forall P l -> Forall P (rev l).
Proof. rewrite !Forall_forall. intros Hp x Hx. apply Hp. rewrite list_elem_of_In in *. by apply in_rev. Qed.

Lemma push_digit_spec base mul c v :
  0 < base -> 0 <= mul -> 0 <= c -> digits_of base v ->
  horner base 0 v * mul + c < base ^ zlen v ->
  exists w, push_digit base mul c v = Ret w /\ horner base 0 w = horner base 0 v * mul + c /\
    length w = length v /\ digits_of base w.
Proof.
  intros Hb Hm Hc Hv Hfit. unfold push_digit.
  pose proof (mul_add_spec base mul c (rev v) Hb Hm Hc (Forall_rev_Z _ _ Hv)) as Hs.
  destruct (mul_add base mul c (rev v)) as [l rest]. destruct Hs as (E & Hr & Hl & Hlr).
  rewrite rev_involutive in E. replace (zlen (rev v)) with (zlen v) in E by (unfold zlen; by rewrite length_rev).
  pose proof (horner_bounds base (rev l) Hb (Forall_rev_Z _ _ Hlr)) as [Hn _].
  assert (rest = 0) as -> by nia.
  exists (rev l). rewrite length_rev, Hl, length_rev. repeat split; [lia | by apply Forall_rev_Z].
Qed.

(** Converting a whole string of digits of base [mul], when the result fits. *)
Lemma push_all_spec base mul ds v :
  0 < base -> 0 < mul -> digits_of mul ds -> digits_of base v ->
  (horner base 0 v + 1) * mul ^ zlen ds <= base ^ zlen v ->
  exists w, foldl (fun acc d => let* v := acc in push_digit base mul d v) (Ret v) ds = Ret w /\
    horner base 0 w = horner mul (horner base 0 v) ds /\ length w = length v /\ digits_of base w.
Proof.
  intros Hb Hm Hds. revert v. induction Hds as [|d ds Hd Hds IH]; intros v Hv Hfit; [by exists v|].
  rewrite pow_zlen_cons in Hfit.
  assert (0 < mul ^ zlen ds) by (apply Z.pow_pos_nonneg; [lia | unfold zlen; lia]).
  pose proof (horner_bounds base v Hb Hv).
  destruct (push_digit_spec base mul d v) as (w & E & Ew & Hl & Hw); [lia.. | done | nia |].
  destruct (IH w Hw) as (w' & E' & Ew' & Hl' & Hw').
  { rewrite Ew. replace (zlen w) with (zlen v) by (unfold zlen; by rewrite Hl). nia. }
  exists w'. cbn. rewrite E. cbn in E'. rewrite E', Ew', Ew, Hl', Hl. done.
Qed.

Lemma push_all_encode bytes acc :
  foldl (fun acc d => let* v := acc in push_digit 58 256 d v) acc bytes = let* v := acc in encode_bytes bytes v.
Proof.
  revert acc. induction bytes as [|c bytes IH]; intros acc; cbn; [by destruct acc|]. rewrite IH. by destruct acc.
Qed.

(** Leading zeros aside, digits are determined by their number. *)
Lemma horner_inj b xs ys :
  0 < b -> digits_of b xs -> digits_of b ys -> length xs = length ys -> horner b 0 xs = horner b 0 ys -> xs = ys.
Proof.
  intros Hb Hx. revert ys. induction Hx as [|x xs Hx Hxs IH]; intros [|y ys] Hy Hl E; try done.
  apply Forall_cons in Hy as [Hy Hys]. injection Hl as Hl.
  change (horner b x xs = horner b y ys) in E. rewrite (horner_acc b x), (horner_acc b y) in E.
  pose proof (horner_bounds b xs Hb Hxs). pose proof (horner_bounds b ys Hb Hys).
  replace (zlen ys) with (zlen xs) in * by (unfold zlen; by rewrite Hl).
  assert (x = y) as -> by nia. f_equal. apply IH; [done.. | lia].
Qed.

Lemma skip_zeros_app n xs : skip_while (Z.eqb 0) (replicate n 0 ++ xs) = skip_while (Z.eqb 0) xs.
Proof. induction n; [done|]. exact IHn. Qed.

Lemma horner_skip_inj b xs ys :
  0 < b -> digits_of b xs -> digits_of b ys -> horner b 0 xs = horner b 0 ys ->
  skip_while (Z.eqb 0) xs = skip_while (Z.eqb 0) ys.
Proof.
  intros Hb Hx Hy E. set (pad n (l : list Z) := replicate n 0 ++ l).
  rewrite <-(skip_zeros_app (length ys) xs), <-(skip_zeros_app (length xs) ys). f_equal.
  assert (Hpad : forall n l, digits_of b l -> digits_of b (replicate n 0 ++ l)).
  { intros n l Hl. apply Forall_app_2; [apply Forall_replicate; lia | done]. }
  apply (horner_inj b); [done | by apply Hpad.. | rewrite !length_app, !length_replicate; lia |].
  by rewrite !horner_app, !horner_zeros.
Qed.

Section RunUp.
Variables (p : Z -> bool) (x : Z).
Hypothesis p_only : forall y, p y = true <-> x = y.

(** A run of [x]s is counted and skipped. *)
Lemma run_split l : l = replicate (count_while p l) x ++ skip_while p l.
Proof.
  induction l as [|y l IH]; cbn; [done|]. destruct (p y) eqn:E; [|done].
  apply p_only in E as ->. cbn. by rewrite <-IH.
Qed.

Lemma skip_head l y : head (skip_while p l) = Some y -> p y = false.
Proof. induction l as [|z l IH]; cbn; [done|]. destruct (p z) eqn:E; [done|]. cbn. congruence. Qed.

Lemma run_build n l :
  (forall y, head l = Some y -> p y = false) ->
  count_while p (replicate n x ++ l) = n /\ skip_while p (replicate n x ++ l) = l.
Proof.
  intros Hh. assert (Hx : p x = true) by by apply p_only.
  induction n as [|n [IH1 IH2]]; cbn; [|by rewrite Hx, IH1, IH2].
  destruct l as [|y l]; [done|]. cbn. by rewrite (Hh y eq_refl).
Qed.
End RunUp.

Lemma eqb_only x y : (x =? y) = true <-> x = y.
Proof. apply Z.eqb_eq. Qed.

Lemma horner_skip_zeros b l : horner b 0 (skip_while (Z.eqb 0) l) = horner b 0 l.
Proof. rewrite (run_split (Z.eqb 0) 0 (eqb_only 0) l) at 2. by rewrite horner_app, horner_zeros. Qed.

Lemma Forall_skip_while (P : Z -> Prop) p l : Forall P l -> Forall P (skip_while p l).
Proof. induction 1; cbn; [constructor|]. destruct (p x); [done | by constructor]. Qed.

(** ** Characters *)

Lemma index_of_Some c l i : index_of c l = Some i -> 0 <= i < zlen l /\ l !! Z.to_nat i = Some c.
Proof.
  revert i. induction l as [|x l IH]; intros i; cbn; [done|]. rewrite zlen_cons. pose proof (zlen_nonneg l).
  destruct (x =? c) eqn:E; [intros [= <-]; apply Z.eqb_eq in E as ->; split; [lia | done]|].
  destruct (index_of c l) as [j|]; [|done]. intros [= <-]. destruct (IH j eq_refl) as [Hj El].
  split; [lia|]. by rewrite Z.add_comm, Z2Nat.inj_add by lia.
Qed.

Lemma index_of_lookup c l i : NoDup l -> l !! i = Some c -> index_of c l = Some (Z.of_nat i).
Proof.
  intros Hn. revert i. induction Hn as [|x l Hx Hn IH]; intros [|i]; cbn; try done.
  - intros [= ->]. by rewrite Z.eqb_refl.
  - intros E. destruct (x =? c) eqn:Exc.
    + apply Z.eqb_eq in Exc as ->. by apply list_elem_of_lookup_2 in E.
    + rewrite (IH i E). f_equal. lia.
Qed.

(** What [strchr] finds in [pszBase58]. *)
Abbreviation denotes := (Forall2 (fun c d => base58_digit c = Some d)).

Lemma denotes_chars cs ds : denotes cs ds -> base58_chars ds = Ret cs /\ digits_of 58 ds.
Proof.
  induction 1 as [|c d cs ds E _ [IH Hds]]; [done|]. apply index_of_Some in E as [Hd El].
  cbn. rewrite El, IH. split; [done|]. by constructor.
Qed.

Lemma chars_denote ds : digits_of 58 ds -> exists cs, denotes cs ds.
Proof.
  induction 1 as [|d ds Hd _ [cs IH]]; [by exists []|].
  destruct (lookup_lt_is_Some_2 pszBase58 (Z.to_nat d)) as [c Hc]; [change (length pszBase58) with 58%nat; lia|].
  exists (c :: cs). constructor; [|done]. unfold base58_digit.
  rewrite (index_of_lookup c pszBase58 (Z.to_nat d)); [f_equal; lia | apply (bool_decide_unpack _); vm_compute; done | done].
Qed.

Lemma chars_known cs : Forall (fun c => c ∈ pszBase58) cs -> exists ds, denotes cs ds.
Proof.
  induction 1 as [|c cs Hc _ [ds IH]]; [by exists []|]. apply list_elem_of_lookup_1 in Hc as [i Hi].
  exists (Z.of_nat i :: ds). constructor; [|done].
  apply index_of_lookup; [apply (bool_decide_unpack _); vm_compute; done | done].
Qed.

Lemma known_head cs ds :
  denotes cs ds -> (forall c, head cs = Some c -> (49 =? c) = false) -> forall d, head ds = Some d -> (0 =? d) = false.
Proof.
  intros [|c d cs' ds' E _] Hc; [done|]. intros d' [= <-]. specialize (Hc c eq_refl).
  apply Z.eqb_neq. intros <-. apply index_of_Some in E as [_ [= <-]]. done.
Qed.

Lemma denotes_head cs ds c : denotes cs ds -> (forall d, head ds = Some d -> (0 =? d) = false) -> head cs = Some c -> (49 =? c) = false.
Proof.
  intros [|c' d cs' ds' E _] Hd; [done|]. intros [= ->]. specialize (Hd d eq_refl).
  apply Z.eqb_neq. intros <-. by injection E as <-.
Qed.

Lemma denotes_not_space cs ds : denotes cs ds -> skip_while isspace cs = cs.
Proof.
  intros [|c d cs' ds' E _]; [done|]. cbn. replace (isspace c) with false; [done|].
  apply index_of_Some in E as [_ E]. apply list_elem_of_lookup_2 in E. symmetry. apply not_true_iff_false.
  assert (Hall : Forall (fun c => isspace c <> true) pszBase58) by (apply (bool_decide_unpack _); vm_compute; done).
  rewrite Forall_forall in Hall. by apply Hall.
Qed.

Lemma denotes_cons_not_space c cs d ds : denotes (c :: cs) (d :: ds) -> isspace c = false.
Proof.
  intros Hd. apply denotes_not_space in Hd. cbn in Hd. destruct (isspace c); [|done].
  exfalso. assert (Hl : (length (skip_while isspace cs) <= length cs)%nat).
  { clear. induction cs as [|x cs IH]; cbn; [done|]. destruct (isspace x); cbn; lia. }
  rewrite Hd in Hl. cbn in Hl. lia.
Qed.

Lemma push_all_decode cs ds acc :
  denotes cs ds ->
  (let* v := acc in decode_chars cs v) =
  let* v := foldl (fun acc d => let* v := acc in push_digit 256 58 d v) acc ds in Ret (Some (v, [])).
Proof.
  intros Hd. revert acc. induction Hd as [|c d cs ds E Hd IH]; intros acc; [done|].
  cbn [decode_chars foldl]. rewrite (denotes_cons_not_space c cs d ds), E, <-IH by by constructor. by destruct acc.
Qed.

(** ** The estimates of the sizes *)

(** [log(a) / log(b)], rounded up to [p / q], gives enough digits. *)
Lemma estimate_fits a b (p q n : nat) :
  0 < a -> 0 < b -> (0 < q)%nat -> a ^ Z.of_nat q <= b ^ Z.of_nat p ->
  a ^ Z.of_nat n <= b ^ Z.of_nat (n * p / q + 1).
Proof.
  intros Ha Hb Hq Hle. apply (Z.pow_le_mono_l_iff _ _ (Z.of_nat q)); [apply Z.pow_nonneg; lia | apply Z.pow_nonneg; lia | lia |].
  rewrite <-!Z.pow_mul_r, (Z.mul_comm (Z.of_nat n)), Z.pow_mul_r by lia.
  trans ((b ^ Z.of_nat p) ^ Z.of_nat n).
  - apply Z.pow_le_mono_l. split; [apply Z.pow_nonneg; lia | done].
  - rewrite <-Z.pow_mul_r by lia. apply Z.pow_le_mono_r; [done|].
    pose proof (Nat.div_mod (n * p) q ltac:(lia)). pose proof (Nat.mod_upper_bound (n * p) q ltac:(lia)). nia.
Qed.

Lemma decode_fits n : 58 ^ Z.of_nat n <= 256 ^ Z.of_nat (n * 733 / 1000 + 1).
Proof. apply estimate_fits; [lia.. |]. apply Z.leb_le. vm_compute. done. Qed.

Lemma encode_fits n : 256 ^ Z.of_nat n <= 58 ^ Z.of_nat (n * 138 / 100 + 1).
Proof. apply estimate_fits; [lia.. |]. apply Z.leb_le. vm_compute. done. Qed.

Lemma convert_spec base mul ds k :
  0 < base -> 0 < mul -> digits_of mul ds -> mul ^ zlen ds <= base ^ Z.of_nat k ->
  exists w, foldl (fun acc d => let* v := acc in push_digit base mul d v) (Ret (replicate k 0)) ds = Ret w /\
    horner base 0 w = horner mul 0 ds /\ digits_of base w.
Proof.
  intros Hb Hm Hds Hfit. destruct (push_all_spec base mul ds (replicate k 0)) as (w & E & Ew & _ & Hw); [done.. | | |].
  - apply Forall_replicate. lia.
  - rewrite horner_zeros. unfold zlen at 2. rewrite length_replicate. lia.
  - exists w. by rewrite horner_zeros in Ew.
Qed.

(** The two conversions agree on the number, leading zeros and ones correspond. *)
Lemma EncodeBase58_spec bs :
  digits_of 256 bs ->
  exists cs ds, EncodeBase58 bs = Ret (replicate (count_while (Z.eqb 0) bs) 49 ++ cs) /\ denotes cs ds /\
    (forall d, head ds = Some d -> (0 =? d) = false) /\ horner 58 0 ds = horner 256 0 bs.
Proof.
  intros Hbs. unfold EncodeBase58. set (rest := skip_while (Z.eqb 0) bs).
  assert (Hr : digits_of 256 rest) by by apply Forall_skip_while.
  destruct (convert_spec 58 256 rest (length rest * 138 / 100 + 1)) as (w & E & Ew & Hw); [done.. | apply encode_fits |].
  rewrite push_all_encode in E. cbn [obind] in E. rewrite E. cbn [obind].
  destruct (chars_denote (skip_while (Z.eqb 0) w)) as [cs Hcs]; [by apply Forall_skip_while|].
  destruct (denotes_chars _ _ Hcs) as [-> _]. exists cs, (skip_while (Z.eqb 0) w).
  split; [done|]. split; [done|]. split; [apply skip_head|].
  rewrite horner_skip_zeros, Ew. apply horner_skip_zeros.
Qed.

Lemma denotes_ones n cs : (forall c, head cs = Some c -> (49 =? c) = false) ->
  count_while (Z.eqb 49) (replicate n 49 ++ cs) = n /\ skip_while (Z.eqb 49) (replicate n 49 ++ cs) = cs.
Proof. apply run_build, eqb_only. Qed.

Lemma DecodeBase58_spec n cs ds :
  denotes cs ds -> (forall d, head ds = Some d -> (0 =? d) = false) ->
  exists bs, DecodeBase58 (replicate n 49 ++ cs) = Ret (Some (replicate n 0 ++ bs)) /\
    (forall b, head bs = Some b -> (0 =? b) = false) /\ digits_of 256 bs /\ horner 256 0 bs = horner 58 0 ds.
Proof.
  intros Hd Hh. unfold DecodeBase58.
  assert (skip_while isspace (replicate n 49 ++ cs) = replicate n 49 ++ cs) as ->.
  { apply (denotes_not_space _ (replicate n 0 ++ ds)). apply Forall2_app; [|done].
    clear. induction n; cbn; constructor; [by vm_compute | done]. }
  destruct (denotes_ones n cs (fun c => denotes_head cs ds c Hd Hh)) as [-> ->].
  destruct (denotes_chars _ _ Hd) as [_ Hds].
  destruct (convert_spec 256 58 ds (length cs * 733 / 1000 + 1)) as (w & E & Ew & Hw); [done.. | |].
  { rewrite (Forall2_length _ _ _ Hd). apply decode_fits. }
  pose proof (push_all_decode cs ds (Ret (replicate (length cs * 733 / 1000 + 1) 0)) Hd) as Hdec.
  rewrite E in Hdec. cbn [obind] in Hdec |- *. rewrite Hdec. cbn [obind skip_while].
  eexists. split; [done|]. split; [apply skip_head|]. split; [by apply Forall_skip_while|].
  by rewrite horner_skip_zeros.
Qed.

Lemma skip_id l : (forall d, head l = Some d -> (0 =? d) = false) -> skip_while (Z.eqb 0) l = l.
Proof. destruct l as [|d l]; [done|]. intros Hh. cbn [skip_while]. by rewrite (Hh d eq_refl). Qed.

Lemma decode_encode bs : digits_of 256 bs -> (let* s := EncodeBase58 bs in DecodeBase58 s) = Ret (Some bs).
Proof.
  intros Hbs. destruct (EncodeBase58_spec bs Hbs) as (cs & ds & -> & Hd & Hh & Ev). cbn.
  destruct (DecodeBase58_spec (count_while (Z.eqb 0) bs) cs ds Hd Hh) as (bs' & -> & Hh' & Hbs' & Ev').
  do 2 f_equal. rewrite (run_split (Z.eqb 0) 0 (eqb_only 0) bs) at 2. f_equal.
  rewrite <-(skip_id bs' Hh'). apply (horner_skip_inj 256); [done.. | congruence].
Qed.

Lemma encode_decode s :
  Forall (fun c => c ∈ pszBase58) s ->
  exists bs, DecodeBase58 s = Ret (Some bs) /\ bytes_ok bs /\ EncodeBase58 bs = Ret s.
Proof.
  intros Hs. set (n := count_while (Z.eqb 49) s). set (cs := skip_while (Z.eqb 49) s).
  assert (Es : s = replicate n 49 ++ cs) by apply run_split, eqb_only.
  destruct (chars_known cs) as [ds Hds]; [by apply Forall_skip_while|].
  assert (Hh : forall d, head ds = Some d -> (0 =? d) = false).
  { apply (known_head cs ds Hds). apply skip_head. }
  destruct (DecodeBase58_spec n cs ds Hds Hh) as (bs & E & Hb & Hbs & Ev).
  assert (Hall : digits_of 256 (replicate n 0 ++ bs)).
  { apply Forall_app_2; [apply Forall_replicate; lia | done]. }
  exists (replicate n 0 ++ bs). rewrite Es. split; [done|]. split; [done|].
  destruct (EncodeBase58_spec _ Hall) as (cs' & ds' & -> & Hd' & Hh' & Ev').
  destruct (run_build (Z.eqb 0) 0 (eqb_only 0) n bs Hb) as [-> _]. do 2 f_equal.
  assert (ds' = ds) as ->.
  { rewrite <-(skip_id ds Hh), <-(skip_id ds' Hh').
    apply (horner_skip_inj 58); [done | by eapply denotes_chars.. |].
    rewrite Ev', horner_app, horner_zeros. congruence. }
  apply denotes_chars in Hds as [E1 _]. apply denotes_chars in Hd' as [E2 _]. congruence.
Qed.

Lemma decode_chars_total psz v :
  digits_of 256 v -> (horner 256 0 v + 1) * 58 ^ zlen psz <= 256 ^ zlen v ->
  exists r, decode_chars psz v = Ret r.
Proof.
  revert v. induction psz as [|c psz IH]; intros v Hv Hfit; cbn [decode_chars]; [by eexists|].
  destruct (isspace c); [by eexists|]. destruct (base58_digit c) as [d|] eqn:Ed; [|by eexists].
  apply index_of_Some in Ed as [Hd _]. change (zlen pszBase58) with 58 in Hd. rewrite pow_zlen_cons in Hfit.
  assert (0 < 58 ^ zlen psz) by (apply Z.pow_pos_nonneg; [lia | unfold zlen; lia]).
  pose proof (horner_bounds 256 v ltac:(lia) Hv).
  destruct (push_digit_spec 256 58 d v) as (w & -> & Ew & Hl & Hw); [lia.. | done | nia |].
  apply IH; [done|]. rewrite Ew. replace (zlen w) with (zlen v) by (unfold zlen; by rewrite Hl). nia.
Qed.

(** The vector [b256] is always long enough: no string fails [assert(carry == 0)]. *)
Lemma DecodeBase58_total psz : exists r, DecodeBase58 psz = Ret r.
Proof.
  unfold DecodeBase58. set (s := skip_while _ (skip_while _ psz)).
  destruct (decode_chars_total s (replicate (length s * 733 / 1000 + 1) 0)) as [r ->].
  - apply Forall_replicate. lia.
  - rewrite horner_zeros. unfold zlen at 2. rewrite length_replicate. pose proof (decode_fits (length s)). unfold zlen. lia.
  - cbn [obind]. destruct r as [[b rest]|]; [|by eexists]. destruct (skip_while isspace rest); by eexists.
Qed.

(** base 58 is a bijection between byte vectors and strings over its
    alphabet: both conversions return (the vectors allocated from the estimates
    138/100 and 733/1000 never overflow, so that no assertion fails, for decoding
    on any string at all), decoding inverts encoding, leading zero bytes included,
    and every string over the alphabet is the encoding of what it decodes to. *)
Theorem base58_bijection :
  (forall bs, bytes_ok bs -> exists s, EncodeBase58 bs = Ret s /\ DecodeBase58 s = Ret (Some bs)) /\
  (forall s, Forall (fun c => c ∈ pszBase58) s ->
     exists bs, DecodeBase58 s = Ret (Some bs) /\ bytes_ok bs /\ EncodeBase58 bs = Ret s) /\
  (forall psz, exists r, DecodeBase58 psz = Ret r).
Proof.
  split; [|split; [exact encode_decode | exact DecodeBase58_total]].
  intros bs Hbs. pose proof (decode_encode bs Hbs) as E.
  destruct (EncodeBase58_spec bs Hbs) as (cs & ds & Ee & _). rewrite Ee in *. by eexists.
Qed.

(** ** Checksums and addresses *)

Lemma checksum_shape vch : length (checksum vch) = 4%nat /\ bytes_ok (checksum vch).
Proof.
  split; [reflexivity|]. unfold checksum, Hash, CHash256_Finalize, bytes_ok. apply Forall_take.
  unfold CSHA256_Finalize. change (Forall is_byte) with bytes_ok. rewrite !bytes_ok_app. repeat split; apply WriteBE32_bytes.
Qed.

Lemma check_roundtrip bs : bytes_ok bs -> (let* s := EncodeBase58Check bs in DecodeBase58Check s) = Ret (Some bs).
Proof.
  intros Hbs. destruct (checksum_shape bs) as [Hl Hc].
  pose proof (decode_encode (bs ++ checksum bs)) as E. unfold EncodeBase58Check.
  destruct (EncodeBase58_spec (bs ++ checksum bs)) as (cs & ds & Ee & _); [by apply bytes_ok_app|].
  rewrite Ee in E |- *. cbn [obind] in E |- *. unfold DecodeBase58Check. rewrite E by by apply bytes_ok_app. cbn [obind].
  rewrite zlen_app. unfold zlen. rewrite Hl.
  destruct (Z.ltb_spec (Z.of_nat (length bs) + Z.of_nat 4) 4); [lia|].
  rewrite length_app, Hl, Nat.add_sub, take_app_length, drop_app_length. by rewrite bool_decide_true.
Qed.

Lemma data_roundtrip d :
  bytes_ok (vchVersion d ++ vchData d) -> zlen (vchVersion d) = 1 ->
  (let* s := CBase58Data_ToString d in SetString s 1) = Ret (d, true).
Proof.
  intros Hb Hv. pose proof (check_roundtrip _ Hb) as E. unfold CBase58Data_ToString.
  destruct (EncodeBase58Check _) as [s| | |]; try done. cbn [obind] in E |- *. unfold SetString. rewrite E. cbn [obind].
  rewrite zlen_app, Hv. destruct (Z.ltb_spec (1 + zlen (vchData d)) 1); [unfold zlen in *; lia|].
  change (Z.to_nat 1) with 1%nat. replace 1%nat with (length (vchVersion d)) by (unfold zlen in Hv; lia).
  rewrite take_app_length, drop_app_length. by destruct d.
Qed.

(** What the chain parameters provide: three distinct one-byte versions. *)
Definition prefixes_ok (p : AddressPrefixes) : Prop :=
  Forall (fun v => bytes_ok v /\ zlen v = 1) [PUBKEY_ADDRESS p; SCRIPT_ADDRESS p; SECRET_KEY p] /\
  NoDup [PUBKEY_ADDRESS p; SCRIPT_ADDRESS p; SECRET_KEY p].

Definition destination_ok (dest : CTxDestination) : Prop :=
  match dest with CNoDestination => False | CKeyID id | CScriptID id => zlen id = 20 /\ bytes_ok id end.

Lemma prefixes_split p : prefixes_ok p ->
  (bytes_ok (PUBKEY_ADDRESS p) /\ zlen (PUBKEY_ADDRESS p) = 1) /\ (bytes_ok (SCRIPT_ADDRESS p) /\ zlen (SCRIPT_ADDRESS p) = 1) /\
  (bytes_ok (SECRET_KEY p) /\ zlen (SECRET_KEY p) = 1) /\ SCRIPT_ADDRESS p <> PUBKEY_ADDRESS p.
Proof.
  intros [Hf Hn]. rewrite !Forall_cons in Hf. destruct Hf as (? & ? & ? & _).
  apply NoDup_cons in Hn as [Hn _]. repeat split; try tauto. intros E. apply Hn. rewrite E. by left.
Qed.

Lemma data_string v data :
  bytes_ok v -> zlen v = 1 -> bytes_ok data ->
  exists s, CBase58Data_ToString (mkBase58Data v data) = Ret s /\ SetString s 1 = Ret (mkBase58Data v data, true).
Proof.
  intros Hv Hl Hd. pose proof (data_roundtrip (mkBase58Data v data)) as E. cbn in E. rewrite bytes_ok_app in E.
  specialize (E (conj Hv Hd) Hl). destruct (CBase58Data_ToString _) as [s| | |]; try done. by exists s.
Qed.

Lemma address_part p dest d0 :
  prefixes_ok p -> destination_ok dest ->
  exists s d, CBase58Data_ToString (fst (address_Set p d0 dest)) = Ret s /\ SetString s 1 = Ret (d, true) /\
    address_IsValid p d = true /\ address_Get p d = dest /\
    address_GetKeyID p d = match dest with CKeyID id => Some id | _ => None end /\
    address_IsScript p d = match dest with CScriptID _ => true | _ => false end.
Proof.
  intros Hp Hd. destruct (prefixes_split p Hp) as ([Hb1 Hl1] & [Hb2 Hl2] & _ & Hne).
  destruct dest as [|id|id]; [done|..]; destruct Hd as [Hid Hbid]; cbn [address_Set fst].
  - destruct (data_string _ _ Hb1 Hl1 Hbid) as (s & Es & Et). exists s, (mkBase58Data (PUBKEY_ADDRESS p) id).
    split; [done|]. split; [done|]. unfold address_Get, address_GetKeyID, address_IsScript, address_IsValid. cbn [vchVersion vchData].
    rewrite Hid, bool_decide_true, (bool_decide_false (_ = SCRIPT_ADDRESS p)); [done | congruence | done].
  - destruct (data_string _ _ Hb2 Hl2 Hbid) as (s & Es & Et). exists s, (mkBase58Data (SCRIPT_ADDRESS p) id).
    split; [done|]. split; [done|]. unfold address_Get, address_GetKeyID, address_IsScript, address_IsValid. cbn [vchVersion vchData].
    rewrite Hid, (bool_decide_false (_ = PUBKEY_ADDRESS p)), bool_decide_true; [done | done | congruence].
Qed.

Lemma secret_part p (Check : list Z -> bool) k :
  prefixes_ok p -> fValid k = true -> zlen (keydata k) = 32 -> bytes_ok (keydata k) -> Check (keydata k) = true ->
  exists d s, secret_SetKey p k = Ret d /\ CBase58Data_ToString d = Ret s /\
    secret_SetString p s = Ret (d, true) /\ secret_GetKey Check d = Ret k.
Proof.
  intros Hp Hv Hlen Hb Hc. destruct (prefixes_split p Hp) as (_ & _ & [Hb3 Hl3] & _).
  destruct k as [v compressed data]. cbn in *. subst v.
  assert (Hn : length data = 32%nat) by (unfold zlen in Hlen; lia).
  set (tail := if compressed then [1] else []).
  assert (Htail : bytes_ok tail) by (destruct compressed; [by repeat constructor | constructor]).
  destruct (data_string (SECRET_KEY p) (data ++ tail) Hb3 Hl3) as (s & Es & Et); [by apply bytes_ok_app|].
  exists (mkBase58Data (SECRET_KEY p) (data ++ tail)), s. split; [done|]. split; [done|].
  unfold secret_SetString, secret_GetKey. rewrite Et. cbn [obind vchData].
  assert (Elk : (data ++ tail) !! 32%nat = if compressed then Some 1 else None).
  { rewrite lookup_app_r by lia. rewrite Hn. by destruct compressed. }
  unfold secret_IsValid. cbn [vchData vchVersion]. rewrite zlen_app, Hlen, Elk, (bool_decide_true (SECRET_KEY p = _)) by done.
  rewrite (take_app_le _ _ 32), take_ge by lia. unfold CKey_Set. rewrite Hlen, Hc.
  by destruct compressed.
Qed.

(** writing a destination as an address and reading the address back, as
    [CBitcoinAddress] does, gives a valid address of the same destination, of its
    kind and with its 160 bits; and a valid private key, written as
    [CBitcoinSecret] does, reads back as the same key with its compression. *)
Theorem address_roundtrip p (Check : list Z -> bool) :
  prefixes_ok p ->
  (forall dest d0, destination_ok dest ->
     exists s d, CBase58Data_ToString (fst (address_Set p d0 dest)) = Ret s /\ SetString s 1 = Ret (d, true) /\
       address_IsValid p d = true /\ address_Get p d = dest /\
       address_GetKeyID p d = match dest with CKeyID id => Some id | _ => None end /\
       address_IsScript p d = match dest with CScriptID _ => true | _ => false end) /\
  (forall k, fValid k = true -> zlen (keydata k) = 32 -> bytes_ok (keydata k) -> Check (keydata k) = true ->
     exists d s, secret_SetKey p k = Ret d /\ CBase58Data_ToString d = Ret s /\
       secret_SetString p s = Ret (d, true) /\ secret_GetKey Check d = Ret k).
Proof. intros Hp. split; intros; [by apply address_part | by apply secret_part]. Qed.

Lemma address_roundtrip_witness :
  (exists s d, CBase58Data_ToString (mkBase58Data [30] (replicate 20 7)) = Ret s /\ SetString s 1 = Ret (d, true) /\
     address_Get main_prefixes d = CKeyID (replicate 20 7)) /\
  (exists d s, secret_SetKey main_prefixes (mkKey true true (replicate 32 9)) = Ret d /\
     CBase58Data_ToString d = Ret s /\ secret_SetString main_prefixes s = Ret (d, true)).
Proof.
  assert (Hp : prefixes_ok main_prefixes) by (split; [by repeat constructor | apply (bool_decide_eq_true_1 _); reflexivity]).
  destruct (address_roundtrip main_prefixes (fun _ => true) Hp) as [Ha Hs]. split.
  - destruct (Ha (CKeyID (replicate 20 7)) CBase58Data_empty) as (s & d & E1 & E2 & _ & E3 & _).
    { split; [reflexivity|]. by repeat constructor. }
    exists s, d. exact (conj E1 (conj E2 E3)).
  - destruct (Hs (mkKey true true (replicate 32 9))) as (d & s & E1 & E2 & E3 & _); [reflexivity | reflexivity | | reflexivity |].
    { by repeat constructor. }
    exists d, s. exact (conj E1 (conj E2 E3)).
Defined.
