(* ===== verification/MasternodeVotes.v ===== *)
(** * Votes for masternode payees: [MasternodePayeeData.cpp], [masternode-payments.cpp]

    Masternodes vote, in [mnw] messages, for the script a future block has to pay.
    Votes are stored by their hash and tallied per block; the tally decides what a
    block is expected to pay.  The masternode list itself (who is known, ranked
    high enough and has signed) is a parameter. *)

From Stdlib Require Import ZArith Lia Bool.
From stdpp Require Import base option numbers list gmap.
From S2P Require Import Prelude BaseUInt UInt256 Serialize Hashes Transaction BlockIndex Chain Subsidy.

Open Scope Z_scope.
Open Scope outcome_scope.

Definition MNPAYMENTS_SIGNATURES_REQUIRED : Z := 6.
Definition MNPAYMENTS_SIGNATURES_TOTAL : Z := 10.
Definition blockDepthUpToWhichToRequestMNWinners : Z := 200.

(** ** The tally of one block *)

Record CMasternodePayee := mkPayee { payee_script : list Z; nVotes : Z }.

(** [voters] is a set, kept here as the list of its members. *)
Record CMasternodeBlockPayees := mkBlockPayees {
  payees_height : Z;
  vecPayments : list CMasternodePayee;
  voters : list COutPoint
}.

Definition CMasternodeBlockPayees_new (nBlockHeightIn : Z) : CMasternodeBlockPayees := mkBlockPayees nBlockHeightIn [] [].

(** The loop of [CountVote]: the first payee with the script gets the vote, else a
    new payee is appended. *)
Fixpoint count_vote (payeeIn : list Z) (vecPayments : list CMasternodePayee) : list CMasternodePayee :=
  match vecPayments with
  | [] => [mkPayee payeeIn 1]
  | p :: rest =>
      if bool_decide (payee_script p = payeeIn) then mkPayee (payee_script p) (nVotes p + 1) :: rest
      else p :: count_vote payeeIn rest
  end.

Definition CountVote (b : CMasternodeBlockPayees) (voter : COutPoint) (payeeIn : list Z) : io CMasternodeBlockPayees :=
  oassert (negb (bool_decide (voter ∈ voters b))) ;;;
  Ret (mkBlockPayees (payees_height b) (count_vote payeeIn (vecPayments b)) (voters b ++ [voter])).

Definition payees_CanVote (b : CMasternodeBlockPayees) (voter : COutPoint) : bool := negb (bool_decide (voter ∈ voters b)).

Definition GetPayee (b : CMasternodeBlockPayees) : option (list Z) :=
  let '(payee, n) :=
    fold_left (fun '(payee, n) p => if nVotes p >? n then (payee_script p, nVotes p) else (payee, n)) (vecPayments b) ([], -1) in
  if n >? -1 then Some payee else None.

Definition HasPayeeWithVotes (b : CMasternodeBlockPayees) (payee : list Z) (nVotesReq : Z) : bool :=
  existsb (fun p => (nVotes p >=? nVotesReq) && bool_decide (payee_script p = payee)) (vecPayments b).

(** [nMaxSignatures] *)
Definition max_signatures (vecPayments : list CMasternodePayee) : Z :=
  fold_left (fun n p => if (nVotes p >=? n) && (nVotes p >=? MNPAYMENTS_SIGNATURES_REQUIRED) then nVotes p else n) vecPayments 0.

(** An output pays [script] at least [required]. *)
Definition pays (tx : CMutableTransaction) (script : list Z) (required : CAmount) : bool :=
  existsb (fun out => bool_decide (script = scriptPubKey out) && (nValue out >=? required)) (vout tx).

Definition payees_IsTransactionValid (GetBlockSubsidity : Z -> io CBlockRewards) (b : CMasternodeBlockPayees) (txNew : CMutableTransaction) : io bool :=
  let* rewards := GetBlockSubsidity (payees_height b) in
  let requiredMasternodePayment := nMasternodeReward rewards in
  Ret (if max_signatures (vecPayments b) <? MNPAYMENTS_SIGNATURES_REQUIRED then true
       else existsb (fun p => (nVotes p >=? MNPAYMENTS_SIGNATURES_REQUIRED) && pays txNew (payee_script p) requiredMasternodePayment)
              (vecPayments b)).

(** ** The votes *)

Record CMasternodePaymentWinner := mkWinner {
  vinMasternode : CTxIn; winner_seedHash : list Z; winner_height : Z; winner_payee : list Z; winner_signature : list Z
}.

Definition winner_GetHash (w : CMasternodePaymentWinner) : list Z :=
  let ss := CHashWriter_new SER_GETHASH PROTOCOL_VERSION in
  let ss := CHashWriter_write ss (Serialize bytes_codec (winner_payee w)) in
  let ss := CHashWriter_write ss (Serialize (int_codec 4) (winner_height w)) in
  let ss := CHashWriter_write ss (Serialize outpoint_codec (prevout (vinMasternode w))) in
  of_bytes (CHashWriter_GetHash ss).

Definition GetScoreHash (w : CMasternodePaymentWinner) : io (list Z) :=
  oassert (negb (IsNull (winner_seedHash w))) ;;; Ret (winner_seedHash w).

Definition with_seedHash (w : CMasternodePaymentWinner) (h : list Z) : CMasternodePaymentWinner :=
  mkWinner (vinMasternode w) h (winner_height w) (winner_payee w) (winner_signature w).

Record PaymentData := mkPaymentData {
  mapMasternodePayeeVotes : gmap (list Z) CMasternodePaymentWinner;
  mapMasternodeBlocks : gmap (list Z) CMasternodeBlockPayees;
  mapSeenSyncMNW : gmap (list Z) Z
}.

Definition GetPayeesForScoreHash (s : PaymentData) (hash : list Z) : option CMasternodeBlockPayees := mapMasternodeBlocks s !! hash.
Definition GetPaymentWinnerForHash (s : PaymentData) (hash : list Z) : option CMasternodePaymentWinner := mapMasternodePayeeVotes s !! hash.

Definition CanVote (s : PaymentData) (outMasternode : COutPoint) (seedHash : list Z) : bool :=
  match GetPayeesForScoreHash s seedHash with None => true | Some payees => payees_CanVote payees outMasternode end.

Definition GetBlockPayee (s : PaymentData) (seedHash : list Z) : option (list Z) :=
  match GetPayeesForScoreHash s seedHash with Some payees => GetPayee payees | None => None end.

Definition IsTransactionValid (GetBlockSubsidity : Z -> io CBlockRewards) (s : PaymentData) (txNew : CMutableTransaction) (seedHash : list Z) : io bool :=
  match GetPayeesForScoreHash s seedHash with
  | Some payees => payees_IsTransactionValid GetBlockSubsidity payees txNew
  | None => Ret true
  end.

(** The vote is stored before it is counted. *)
Definition AddWinningMasternode (s : PaymentData) (winnerIn : CMasternodePaymentWinner) : io (PaymentData * bool) :=
  match GetPaymentWinnerForHash s (winner_GetHash winnerIn) with
  | Some _ => Ret (s, false)
  | None =>
      let* score := GetScoreHash winnerIn in
      let payees := default (CMasternodeBlockPayees_new (winner_height winnerIn)) (GetPayeesForScoreHash s score) in
      let* payees := CountVote payees (prevout (vinMasternode winnerIn)) (winner_payee winnerIn) in
      Ret (mkPaymentData (<[winner_GetHash winnerIn := winnerIn]> (mapMasternodePayeeVotes s))
             (<[score := payees]> (mapMasternodeBlocks s)) (mapSeenSyncMNW s), true)
  end.

(** [PruneOldMasternodeWinnerData]: the loop over the stored votes.  It only
    erases, so that the order of the map does not matter. *)
Fixpoint prune_loop (nHeight : Z) (all : list (list Z * CMasternodePaymentWinner)) (s : PaymentData) : io PaymentData :=
  match all with
  | [] => Ret s
  | (h, winner) :: all =>
      if nHeight - winner_height winner >? 1000 then
        let* score := GetScoreHash winner in
        prune_loop nHeight all
          (mkPaymentData (delete h (mapMasternodePayeeVotes s)) (delete score (mapMasternodeBlocks s)) (delete h (mapSeenSyncMNW s)))
      else prune_loop nHeight all s
  end.

Definition PruneOldMasternodeWinnerData (nHeight : Z) (s : PaymentData) : io PaymentData :=
  prune_loop nHeight (map_to_list (mapMasternodePayeeVotes s)) s.

(** ** Messages and own votes *)

Section Payments.
Variable heap : index_heap.

Definition GetBlockHashForScoring (pindex : option ptr) (offset : Z) : io (option (list Z)) :=
  match pindex with
  | None => Ret None
  | Some p =>
      let* b := deref heap (Some p) in
      let* a := GetAncestor heap (Some p) (nHeight b + offset - 101) in
      match a with
      | None => Ret None
      | Some q => let* c := deref heap (Some q) in Ret (Some (GetBlockHash c))
      end
  end.

(** [GetBlockHashForScoring(hash, nBlockHeight)], relative to the tip. *)
Definition GetBlockHashForScoring_at (activeChain : CChain) (nBlockHeight : Z) : io (option (list Z)) :=
  match chain_Tip activeChain with
  | None => Ret None
  | Some p => let* b := deref heap (Some p) in GetBlockHashForScoring (Some p) (nBlockHeight - nHeight b)
  end.

Definition ComputeScoreHash (activeChain : CChain) (w : CMasternodePaymentWinner) : io (CMasternodePaymentWinner * bool) :=
  let* h := GetBlockHashForScoring_at activeChain (winner_height w) in
  Ret (match h with Some h => (with_seedHash w h, true) | None => (with_seedHash w uint256_null, false) end).

(** The masternode list: who is known, may vote as he does, and has signed. *)
Variable Find : CTxIn -> bool.
Variable CheckMasternodeWinnerValidity : CMasternodePaymentWinner -> bool.
Variable CheckMasternodeWinnerSignature : CMasternodePaymentWinner -> bool.
Variable IsSynced : bool.

(** What a message makes the node do besides the change of the maps. *)
Inductive vote_effect := RecordMasternodeWinnerUpdate (hash : list Z) | AskForMN (vin : CTxIn) | Misbehaving (score : Z) | Relay (hash : list Z).

(** The branch ["mnw"] of [ProcessMessageMasternodePayments]. *)
Definition process_mnw (activeChain : CChain) (peer_too_old : bool) (s : PaymentData) (winner : CMasternodePaymentWinner) :
    io (PaymentData * list vote_effect) :=
  if peer_too_old then Ret (s, [])
  else
    let chainTipHeight := chain_Height activeChain in
    match GetPaymentWinnerForHash s (winner_GetHash winner) with
    | Some _ => Ret (s, [RecordMasternodeWinnerUpdate (winner_GetHash winner)])
    | None =>
        let nFirstBlock := chainTipHeight - blockDepthUpToWhichToRequestMNWinners in
        if (winner_height winner <? nFirstBlock) || (winner_height winner >? chainTipHeight + 20) then Ret (s, [])
        else
          let* '(winner, computed) := ComputeScoreHash activeChain winner in
          if negb computed then Ret (s, [])
          else if negb (Find (vinMasternode winner)) then Ret (s, [AskForMN (vinMasternode winner)])
          else if negb (CheckMasternodeWinnerValidity winner) then Ret (s, [])
          else
            let* score := GetScoreHash winner in
            if negb (CanVote s (prevout (vinMasternode winner)) score) then Ret (s, [])
            else if negb (CheckMasternodeWinnerSignature winner) then
              Ret (s, (if IsSynced then [Misbehaving 20] else []) ++ [AskForMN (vinMasternode winner)])
            else
              let* '(s, added) := AddWinningMasternode s winner in
              Ret (s, if added then [Relay (winner_GetHash winner); RecordMasternodeWinnerUpdate (winner_GetHash winner)] else [])
    end.

(** [VoteForMasternodePayee], for a node that is a masternode of rank at most
    ten: [payee] is the head of the node's own payment queue, empty if there is
    none, [sign] what the node's key produces. *)
Variable GetNextMasternodePayeeInQueueForPayment : option ptr -> Z -> list Z.
Variable SignMasternodeWinner : CMasternodePaymentWinner -> option (list Z).

Definition numberOfBlocksIntoTheFutureToVoteOn : Z := 10.

Definition VoteForMasternodePayee (rank_ok : list Z -> bool) (own_vin : CTxIn) (pindex : ptr) (lastProcessBlockHeight : Z) (s : PaymentData) :
    io (PaymentData * Z * option (list Z)) :=
  let* b := deref heap (Some pindex) in
  let nBlockHeight := nHeight b + numberOfBlocksIntoTheFutureToVoteOn in
  let* seedHash := GetBlockHashForScoring (Some pindex) numberOfBlocksIntoTheFutureToVoteOn in
  match seedHash with
  | None => Ret (s, lastProcessBlockHeight, None)
  | Some seedHash =>
      if negb (rank_ok seedHash) then Ret (s, lastProcessBlockHeight, None)
      else if nBlockHeight <=? lastProcessBlockHeight then Ret (s, lastProcessBlockHeight, None)
      else
        let payee := GetNextMasternodePayeeInQueueForPayment (Some pindex) numberOfBlocksIntoTheFutureToVoteOn in
        let newWinner := mkWinner own_vin seedHash nBlockHeight payee [] in
        if CanVote s (prevout own_vin) seedHash then
          match SignMasternodeWinner newWinner with
          | None => Ret (s, lastProcessBlockHeight, None)
          | Some sig =>
              let newWinner := mkWinner own_vin seedHash nBlockHeight payee sig in
              let* '(s, added) := AddWinningMasternode s newWinner in
              Ret (if added then (s, nBlockHeight, Some (winner_GetHash newWinner)) else (s, lastProcessBlockHeight, None))
          end
        else Ret (s, lastProcessBlockHeight, None)
  end.

(** [CMasternodePayments::FillBlockPayee] *)
Definition masternode_FillBlockPayee (s : PaymentData) (pindexPrev : option ptr) (txNew : CMutableTransaction) (rewards : CBlockRewards) :
    io CMutableTransaction :=
  let* seedHash := GetBlockHashForScoring pindexPrev 1 in
  match seedHash with
  | None => Ret txNew
  | Some seedHash =>
      let payee := match GetBlockPayee s seedHash with
                   | Some payee => payee
                   | None => GetNextMasternodePayeeInQueueForPayment pindexPrev 1
                   end in
      let hasPayment := match GetBlockPayee s seedHash with Some _ => true | None => negb (bool_decide (payee = [])) end in
      Ret (if hasPayment
           then mkMutable (nVersion txNew) (vin txNew) (vout txNew ++ [mkTxOut (nMasternodeReward rewards) payee]) (nLockTime txNew)
           else txNew)
  end.
End Payments.

(** ** What a tally counts *)

Definition tally (votes : list (COutPoint * list Z)) : list CMasternodePayee :=
  fold_left (fun acc v => count_vote v.2 acc) votes [].

Definition votes_for (script : list Z) (votes : list (COutPoint * list Z)) : Z :=
  zlen (filter (fun v => v.2 = script) votes).

(** The payees of a block are the tally of votes cast by distinct masternodes. *)
Definition tally_of (votes : list (COutPoint * list Z)) (b : CMasternodeBlockPayees) : Prop :=
  NoDup votes.*1 /\ voters b = votes.*1 /\ vecPayments b = tally votes.

Lemma votes_for_snoc script votes v :
  votes_for script (votes ++ [v]) = votes_for script votes + if bool_decide (v.2 = script) then 1 else 0.
Proof.
  unfold votes_for. rewrite filter_app, zlen_app. f_equal. rewrite filter_cons, filter_nil.
  case_bool_decide; destruct (decide (v.2 = script)); done.
Qed.

Lemma tally_snoc votes v : tally (votes ++ [v]) = count_vote v.2 (tally votes).
Proof. unfold tally. by rewrite fold_left_app. Qed.

Lemma count_vote_scripts s ps :
  (s ∈ (payee_script <$> ps) -> payee_script <$> count_vote s ps = payee_script <$> ps) /\
  (s ∉ (payee_script <$> ps) -> count_vote s ps = ps ++ [mkPayee s 1]).
Proof.
  induction ps as [|p ps [IH1 IH2]]; cbn; [split; [by intros ?%not_elem_of_nil | done]|].
  rewrite !not_elem_of_cons, elem_of_cons. case_bool_decide as E; subst; cbn; split; try done; try tauto.
  - intros [?|?]; [congruence|]. by rewrite IH1.
  - intros [_ ?]. by rewrite IH2.
Qed.

Lemma count_vote_lookup s ps p :
  NoDup (payee_script <$> ps) -> p ∈ count_vote s ps ->
  (payee_script p <> s /\ p ∈ ps) \/
  (payee_script p = s /\ (((s ∉ (payee_script <$> ps)) /\ nVotes p = 1) \/ exists q, q ∈ ps /\ payee_script q = s /\ nVotes p = nVotes q + 1)).
Proof.
  induction ps as [|q ps IH]; cbn.
  - intros _ ->%list_elem_of_singleton. right. split; [done|]. left. split; [apply not_elem_of_nil | done].
  - intros [Hq Hn]%NoDup_cons. case_bool_decide as E.
    + intros [->|Hp]%elem_of_cons; cbn.
      * right. split; [done|]. right. exists q. split; [by left | done].
      * left. split; [|by right]. intros Es. apply Hq. rewrite E, <-Es. by apply list_elem_of_fmap_2.
    + intros [->|Hp]%elem_of_cons; [left; split; [done | by left]|].
      destruct (IH Hn Hp) as [[? ?]|[Es [[? ?]|(q' & ? & ? & ?)]]].
      * left. split; [done | by right].
      * right. split; [done|]. left. split; [|done]. rewrite not_elem_of_cons. split; [congruence | done].
      * right. split; [done|]. right. exists q'. split; [by right | done].
Qed.

(** Every script voted for has one entry, with the number of its votes. *)
Lemma tally_spec votes :
  NoDup (payee_script <$> tally votes) /\ (forall s, s ∈ (payee_script <$> tally votes) <-> s ∈ votes.*2) /\
  (forall p, p ∈ tally votes -> nVotes p = votes_for (payee_script p) votes).
Proof.
  induction votes as [|[v s] votes (Hn & Hs & Hc)] using rev_ind.
  { cbn. split; [constructor|]. split; [done|]. by intros p ?%not_elem_of_nil. }
  rewrite tally_snoc. cbn [snd]. destruct (count_vote_scripts s (tally votes)) as [Hold Hnew].
  assert (Hs' : forall s0, s0 ∈ (votes ++ [(v, s)]).*2 <-> s0 ∈ votes.*2 \/ s0 = s).
  { intros s0. rewrite fmap_app, elem_of_app. cbn. by rewrite list_elem_of_singleton. }
  assert (Hzero : s ∉ votes.*2 -> votes_for s votes = 0).
  { intros Hno. unfold votes_for. destruct (filter _ votes) as [|x l] eqn:E; [done|].
    assert (x ∈ filter (fun v => v.2 = s) votes) as Hx by (rewrite E; by left).
    apply list_elem_of_filter in Hx as [Hx Hxv]. destruct Hno. rewrite <-Hx. by apply list_elem_of_fmap_2. }
  split; [|split].
  - destruct (decide (s ∈ (payee_script <$> tally votes))) as [Hin|Hin]; [by rewrite Hold|].
    rewrite Hnew, fmap_app by done. apply NoDup_app. split; [done|]. split; [|apply NoDup_singleton].
    intros x Hx ->%list_elem_of_singleton. done.
  - intros s0. rewrite Hs'. destruct (decide (s ∈ (payee_script <$> tally votes))) as [Hin|Hin].
    + rewrite Hold, Hs by done. split; [tauto|]. intros [?| ->]; [done | by apply Hs].
    + rewrite Hnew, fmap_app, elem_of_app, Hs by done. cbn. by rewrite list_elem_of_singleton.
  - intros p Hp. rewrite votes_for_snoc. cbn [snd].
    destruct (count_vote_lookup s (tally votes) p Hn Hp) as [[Hne Hin]|[-> [[Hno E]|(q & Hq & Eq & E)]]].
    + rewrite bool_decide_false by congruence. rewrite (Hc p Hin). lia.
    + rewrite bool_decide_true by done. rewrite Hzero by (by rewrite <-Hs). lia.
    + rewrite bool_decide_true, E, (Hc q Hq), Eq by done. done.
Qed.

(** Votes for different scripts are different votes. *)
Lemma votes_for_disjoint s s' votes : s <> s' -> votes_for s votes + votes_for s' votes <= zlen votes.
Proof.
  intros Hne. induction votes as [|v votes IH] using rev_ind; [done|].
  rewrite !votes_for_snoc, zlen_app. change (zlen [v]) with 1. repeat case_bool_decide; try lia. congruence.
Qed.

Lemma best_payee ps : forall s n,
  let '(s', n') := fold_left (fun '(payee, n) p => if nVotes p >? n then (payee_script p, nVotes p) else (payee, n)) ps (s, n) in
  n <= n' /\ (forall p, p ∈ ps -> nVotes p <= n') /\
  ((s' = s /\ n' = n) \/ exists p, p ∈ ps /\ s' = payee_script p /\ n' = nVotes p).
Proof.
  induction ps as [|p ps IH]; intros s n; cbn [fold_left].
  { split; [lia|]. split; [by intros p ?%not_elem_of_nil | by left]. }
  set (acc := if nVotes p >? n then _ else _). specialize (IH acc.1 acc.2).
  replace (acc.1, acc.2) with acc in IH by by destruct acc.
  destruct (fold_left _ ps acc) as [s' n']. destruct IH as (Hle & Hall & Hor).
  assert (Hacc : n <= acc.2 /\ nVotes p <= acc.2 /\ ((acc.1 = s /\ acc.2 = n) \/ acc.1 = payee_script p /\ acc.2 = nVotes p)).
  { unfold acc. destruct (Z.gtb_spec (nVotes p) n); cbn; (split; [lia|]; split; [lia|]); [by right | by left]. }
  destruct Hacc as (H1 & H2 & H3). split; [lia|]. split.
  - intros q [->|Hq]%elem_of_cons; [lia | by apply Hall].
  - destruct Hor as [[-> ->]|(q & Hq & -> & ->)]; [|right; exists q; split; [by right | done]].
    destruct H3 as [?|[-> ->]]; [by left|]. right. exists p. split; [by left | done].
Qed.

Lemma max_signatures_small ps :
  max_signatures ps < MNPAYMENTS_SIGNATURES_REQUIRED <-> forall p, p ∈ ps -> nVotes p < MNPAYMENTS_SIGNATURES_REQUIRED.
Proof.
  unfold max_signatures, MNPAYMENTS_SIGNATURES_REQUIRED.
  enough (Hgen : forall n, fold_left (fun n p => if (nVotes p >=? n) && (nVotes p >=? 6) then nVotes p else n) ps n < 6 <->
    n < 6 /\ forall p, p ∈ ps -> nVotes p < 6) by (rewrite Hgen; split; [tauto | split; [lia | done]]).
  induction ps as [|p ps IH]; intros n; cbn [fold_left]; [split; [by intros ?; split; [|intros ? ?%not_elem_of_nil] | tauto]|].
  rewrite IH. setoid_rewrite elem_of_cons.
  destruct (Z.geb_spec (nVotes p) n), (Z.geb_spec (nVotes p) 6); cbn [andb]; split; intros [Hn Hall];
    (split; [try lia | intros q]); try (intros [->|Hq]; [lia | by apply Hall]); try (intros Hq; apply Hall; by right);
    try (pose proof (Hall p (or_introl eq_refl)); lia).
Qed.

(** The required number of votes is a majority of those that may vote. *)
Lemma majority votes p q :
  zlen votes <= MNPAYMENTS_SIGNATURES_TOTAL -> p ∈ tally votes -> q ∈ tally votes ->
  MNPAYMENTS_SIGNATURES_REQUIRED <= nVotes p -> payee_script p <> payee_script q -> nVotes q < nVotes p.
Proof.
  unfold MNPAYMENTS_SIGNATURES_REQUIRED, MNPAYMENTS_SIGNATURES_TOTAL. intros Hl Hp Hq H6 Hne.
  destruct (tally_spec votes) as (_ & _ & Hc). rewrite (Hc p Hp), (Hc q Hq) in *.
  pose proof (votes_for_disjoint _ _ votes Hne). lia.
Qed.

Lemma decided_payee votes b p :
  tally_of votes b -> zlen votes <= MNPAYMENTS_SIGNATURES_TOTAL -> p ∈ tally votes -> MNPAYMENTS_SIGNATURES_REQUIRED <= nVotes p ->
  GetPayee b = Some (payee_script p).
Proof.
  intros (_ & _ & Hv) Hl Hp H6. unfold GetPayee. rewrite Hv.
  pose proof (best_payee (tally votes) [] (-1)) as Hb. destruct (fold_left _ (tally votes) _) as [s n].
  destruct Hb as (_ & Hall & Hor). pose proof (Hall p Hp) as Hpn. unfold MNPAYMENTS_SIGNATURES_REQUIRED in *.
  destruct (Z.gtb_spec n (-1)); [|lia]. f_equal. destruct Hor as [[_ ->]|(q & Hq & -> & ->)]; [lia|].
  destruct (decide (payee_script p = payee_script q)) as [E|Hne]; [done|].
  pose proof (majority votes p q Hl Hp Hq H6 Hne). lia.
Qed.

(** Without a decision every block is accepted, with one exactly the blocks that
    pay it. *)
Lemma decided_valid subsidies votes b r tx :
  tally_of votes b -> zlen votes <= MNPAYMENTS_SIGNATURES_TOTAL -> subsidies (payees_height b) = Ret r ->
  ((forall p, p ∈ tally votes -> nVotes p < MNPAYMENTS_SIGNATURES_REQUIRED) -> payees_IsTransactionValid subsidies b tx = Ret true) /\
  (forall p, p ∈ tally votes -> MNPAYMENTS_SIGNATURES_REQUIRED <= nVotes p ->
     payees_IsTransactionValid subsidies b tx = Ret (pays tx (payee_script p) (nMasternodeReward r))).
Proof.
  intros (_ & _ & Hv) Hl Hr. unfold payees_IsTransactionValid. rewrite Hr, Hv. cbn [obind]. split.
  - intros Hall%max_signatures_small. by rewrite (proj2 (Z.ltb_lt _ _) Hall).
  - intros p Hp H6. destruct (Z.ltb_spec (max_signatures (tally votes)) MNPAYMENTS_SIGNATURES_REQUIRED) as [Hs|_].
    { pose proof (proj1 (max_signatures_small _) Hs p Hp). lia. }
    f_equal. apply eq_true_iff_eq. rewrite existsb_exists. split.
    + intros (q & Hq%list_elem_of_In & [H6' Hpay]%andb_true_iff). rewrite Z.geb_leb, Z.leb_le in H6'.
      destruct (decide (payee_script p = payee_script q)) as [->|Hne]; [done|].
      pose proof (majority votes p q Hl Hp Hq H6 Hne). pose proof (majority votes q p Hl Hq Hp H6' (not_eq_sym Hne)). lia.
    + intros Hpay. exists p. split; [by apply list_elem_of_In|]. by rewrite Z.geb_leb, (proj2 (Z.leb_le _ _) H6), Hpay.
Qed.

(** Paying what [GetPayee] names is always accepted. *)
Lemma paid_accepted subsidies b r tx script :
  subsidies (payees_height b) = Ret r -> GetPayee b = Some script -> pays tx script (nMasternodeReward r) = true ->
  payees_IsTransactionValid subsidies b tx = Ret true.
Proof.
  intros Hr Hg Hpay. unfold payees_IsTransactionValid. rewrite Hr. cbn [obind].
  destruct (Z.ltb_spec (max_signatures (vecPayments b)) MNPAYMENTS_SIGNATURES_REQUIRED) as [_|Hs]; [done|].
  unfold GetPayee in Hg. pose proof (best_payee (vecPayments b) [] (-1)) as Hb.
  destruct (fold_left _ (vecPayments b) _) as [s n]. destruct Hb as (_ & Hall & Hor).
  destruct (Z.gtb_spec n (-1)); [|done]. injection Hg as ->.
  destruct Hor as [[_ ->]|(q & Hq & -> & ->)]; [lia|]. f_equal. apply existsb_exists.
  exists q. split; [by apply list_elem_of_In|]. rewrite Hpay, andb_true_r, Z.geb_leb, Z.leb_le.
  apply Znot_gt_le. intros Hlt. assert (max_signatures (vecPayments b) < MNPAYMENTS_SIGNATURES_REQUIRED); [|lia].
  apply max_signatures_small. intros p Hp. pose proof (Hall p Hp). lia.
Qed.

(** Without a payee there is no decision. *)
Lemma undecided_accepted subsidies b r tx :
  subsidies (payees_height b) = Ret r -> GetPayee b = None -> payees_IsTransactionValid subsidies b tx = Ret true.
Proof.
  intros Hr Hg. unfold payees_IsTransactionValid. rewrite Hr. cbn [obind]. unfold GetPayee in Hg.
  pose proof (best_payee (vecPayments b) [] (-1)) as Hb. destruct (fold_left _ (vecPayments b) _) as [s n].
  destruct Hb as (_ & Hall & _). destruct (Z.gtb_spec n (-1)); [done|].
  assert (Hs : max_signatures (vecPayments b) < MNPAYMENTS_SIGNATURES_REQUIRED).
  { apply max_signatures_small. intros p Hp. pose proof (Hall p Hp). unfold MNPAYMENTS_SIGNATURES_REQUIRED. lia. }
  by rewrite (proj2 (Z.ltb_lt _ _) Hs).
Qed.

(** ** Reachable states *)

Section Reachable.
(** Block hashes identify heights and are not null. *)
Variable height_of : list Z -> Z.

Definition index_fits (heap : index_heap) : Prop :=
  index_ok heap /\ map_Forall (fun _ b => height_of (phashBlock b) = nHeight b /\ IsNull (phashBlock b) = false) heap.

Record votes_ok (s : PaymentData) : Prop := mkVotesOk {
  winners_scored : map_Forall (fun _ w => IsNull (winner_seedHash w) = false) (mapMasternodePayeeVotes s);
  blocks_tallied : map_Forall (fun h b => payees_height b = height_of h + 101 /\ exists votes, tally_of votes b) (mapMasternodeBlocks s)
}.

Definition PaymentData_empty : PaymentData := mkPaymentData ∅ ∅ ∅.

Lemma empty_ok : votes_ok PaymentData_empty.
Proof. split; apply map_Forall_empty. Qed.

Lemma CountVote_tally votes b voter payee :
  tally_of votes b -> payees_CanVote b voter = true ->
  exists b', CountVote b voter payee = Ret b' /\ payees_height b' = payees_height b /\ tally_of (votes ++ [(voter, payee)]) b'.
Proof.
  intros (Hn & Hvs & Hps) Hcan. unfold CountVote, payees_CanVote in *. rewrite Hcan. cbn [oassert obind].
  eexists. split; [done|]. split; [done|]. apply negb_true_iff, bool_decide_eq_false in Hcan.
  unfold tally_of. cbn [voters vecPayments]. rewrite tally_snoc, Hps, Hvs, fmap_app. cbn. split; [|done].
  apply NoDup_app. split; [done|]. split; [|apply NoDup_singleton].
  intros x Hx ->%list_elem_of_singleton. apply Hcan. by rewrite Hvs.
Qed.

Lemma AddWinning_ok s w :
  votes_ok s -> IsNull (winner_seedHash w) = false -> height_of (winner_seedHash w) = winner_height w - 101 ->
  CanVote s (prevout (vinMasternode w)) (winner_seedHash w) = true ->
  exists s' added, AddWinningMasternode s w = Ret (s', added) /\ votes_ok s'.
Proof.
  intros Hs Hnull Hheight Hcan. unfold AddWinningMasternode, CanVote, GetScoreHash in *. rewrite Hnull. cbn [negb oassert obind].
  destruct (GetPaymentWinnerForHash s _); [by exists s, false|].
  destruct Hs as [Hw Hb]. set (b0 := default _ _).
  assert (payees_height b0 = height_of (winner_seedHash w) + 101 /\ exists votes, tally_of votes b0) as [Hh0 [votes Ht]].
  { unfold b0. destruct (GetPayeesForScoreHash s _) as [b|] eqn:E; cbn; [by apply (Hb _ b) in E|].
    split; [lia|]. exists []. split; [constructor | done]. }
  assert (payees_CanVote b0 (prevout (vinMasternode w)) = true) as Hc.
  { unfold b0. destruct (GetPayeesForScoreHash s _) as [b|]; [done|]. cbn. unfold payees_CanVote. by rewrite bool_decide_false by apply not_elem_of_nil. }
  destruct (CountVote_tally votes b0 _ (winner_payee w) Ht Hc) as (b' & E & Hh & Ht'). rewrite E. cbn [obind].
  eexists _, true. split; [done|]. split; cbn; apply map_Forall_insert_2; try done. split; [congruence | eauto].
Qed.

Lemma prune_ok nHeight all s :
  votes_ok s -> Forall (fun hw => IsNull (winner_seedHash hw.2) = false) all ->
  exists s', prune_loop nHeight all s = Ret s' /\ votes_ok s'.
Proof.
  intros Hs Hall. revert s Hs. induction Hall as [|[h w] all Hw _ IH]; intros s [Hws Hbs]; cbn [prune_loop]; [by exists s|].
  destruct (nHeight - winner_height w >? 1000); [|by apply IH].
  unfold GetScoreHash. cbn in Hw. rewrite Hw. cbn [negb oassert obind]. apply IH. by split; apply map_Forall_delete.
Qed.

Lemma Prune_ok nHeight s : votes_ok s -> exists s', PruneOldMasternodeWinnerData nHeight s = Ret s' /\ votes_ok s'.
Proof.
  intros Hs. apply prune_ok; [done|]. destruct Hs as [Hw _]. apply Forall_forall. intros [h w] Hin%elem_of_map_to_list.
  exact (Hw h w Hin).
Qed.

Lemma scoring_hash heap p b offset :
  index_fits heap -> heap !! p = Some b ->
  exists r, GetBlockHashForScoring heap (Some p) offset = Ret r /\
    forall h, r = Some h -> IsNull h = false /\ height_of h = nHeight b + offset - 101.
Proof.
  intros [Hok Hf] Hb. unfold GetBlockHashForScoring. cbn [deref oaccess obind]. rewrite Hb. cbn [oaccess obind].
  assert (Hat : at_height heap p (nHeight b)) by by exists b.
  rewrite (GetAncestor_spec heap Hok p (nHeight b)) by done. cbn [obind].
  destruct (ancestor heap p _) as [q|] eqn:Ea; [|by exists None].
  pose proof (ancestor_range heap p _ _ q Hat Ea) as Hk.
  destruct (ancestor_spec heap Hok p (nHeight b) (nHeight b + offset - 101) Hat Hk) as (q' & Eq' & Hq' & _).
  rewrite Ea in Eq'. injection Eq' as <-. destruct Hq' as (c & Hc & Hch).
  cbn [deref oaccess obind]. rewrite Hc. cbn [oaccess obind]. eexists. split; [done|]. intros h [= <-].
  destruct (Hf q c Hc) as [H1 H2]. unfold GetBlockHash. split; [done | lia].
Qed.

Lemma tip_entry heap c p : index_ok heap -> chain_ok heap c -> chain_Tip c = Some p -> is_Some (heap !! p).
Proof.
  intros Hok [->|(t & h & Ht & Hl & Hat)] Et; [done|]. pose proof (at_height_nonneg heap Hok t h Ht).
  specialize (Hat h). rewrite (ancestor_self heap Hok t h Ht), chain_at_lookup in Hat by lia.
  unfold chain_Tip in Et. rewrite last_lookup in Et. replace (pred (length c)) with (Z.to_nat h) in Et by (unfold zlen in Hl; lia).
  destruct Ht as (b & Hb & _). assert (t = p) as -> by congruence. by exists b.
Qed.

Lemma process_mnw_ok heap find valid signed synced c old s w :
  index_fits heap -> chain_ok heap c -> votes_ok s ->
  exists s' effects, process_mnw heap find valid signed synced c old s w = Ret (s', effects) /\ votes_ok s'.
Proof.
  intros Hf Hc Hs. unfold process_mnw. destruct old; [by eauto|].
  destruct (GetPaymentWinnerForHash s _); [by eauto|]. destruct (_ || _); [by eauto|].
  assert (exists r, GetBlockHashForScoring_at heap c (winner_height w) = Ret r /\
    forall h, r = Some h -> IsNull h = false /\ height_of h = winner_height w - 101) as (r & Er & Hr).
  { unfold GetBlockHashForScoring_at. destruct (chain_Tip c) as [p|] eqn:Et; [|by exists None].
    destruct (tip_entry heap c p (proj1 Hf) Hc Et) as (b & Hb). cbn [deref oaccess obind]. rewrite Hb. cbn [oaccess obind].
    destruct (scoring_hash heap p b (winner_height w - nHeight b) Hf Hb) as (r & E & Hr). exists r. split; [done|].
    intros h Eh. destruct (Hr h Eh). split; [done | lia]. }
  unfold ComputeScoreHash. rewrite Er. cbn [obind]. destruct r as [h|]; cbn [negb]; [|by eauto].
  destruct (Hr h eq_refl) as [Hnull Hh]. set (w' := with_seedHash w h).
  destruct (negb (find _)); [by eauto|]. destruct (negb (valid _)); [by eauto|].
  unfold GetScoreHash. change (winner_seedHash w') with h. rewrite Hnull. cbn [negb oassert obind].
  destruct (CanVote s _ h) eqn:Ecan; cbn [negb]; [|by eauto]. destruct (negb (signed _)); [by eauto|].
  destruct (AddWinning_ok s w' Hs Hnull Hh Ecan) as (s' & added & E & Hs'). rewrite E. cbn [obind]. by eauto.
Qed.

Lemma Vote_ok heap queue sign rank_ok own p b last s :
  index_fits heap -> heap !! p = Some b -> votes_ok s ->
  exists s' last' sent, VoteForMasternodePayee heap queue sign rank_ok own p last s = Ret (s', last', sent) /\ votes_ok s'.
Proof.
  intros Hf Hb Hs. unfold VoteForMasternodePayee. cbn [deref oaccess obind]. rewrite Hb. cbn [oaccess obind].
  destruct (scoring_hash heap p b numberOfBlocksIntoTheFutureToVoteOn Hf Hb) as (r & -> & Hr). cbn [obind].
  destruct r as [h|]; [|by eauto]. destruct (Hr h eq_refl) as [Hnull Hh].
  destruct (negb (rank_ok h)); [by eauto|]. destruct (_ <=? _); [by eauto|].
  destruct (CanVote s _ h) eqn:Ecan; [|by eauto]. destruct (sign _) as [sig|]; [|by eauto].
  destruct (AddWinning_ok s (mkWinner own h (nHeight b + numberOfBlocksIntoTheFutureToVoteOn)
    (queue (Some p) numberOfBlocksIntoTheFutureToVoteOn) sig) Hs Hnull Hh Ecan) as (s' & added & E & Hs').
  rewrite E. cbn [obind]. destruct added; by eauto.
Qed.

(** Messages, the node's own votes and pruning, in any order, over any block
    trees. *)
Inductive votes_step : PaymentData -> PaymentData -> Prop :=
| step_mnw heap find valid signed synced c old s w s' effects :
    index_fits heap -> chain_ok heap c ->
    process_mnw heap find valid signed synced c old s w = Ret (s', effects) -> votes_step s s'
| step_vote heap queue sign rank_ok own p last s s' last' sent :
    index_fits heap -> is_Some (heap !! p) ->
    VoteForMasternodePayee heap queue sign rank_ok own p last s = Ret (s', last', sent) -> votes_step s s'
| step_prune nHeight s s' : PruneOldMasternodeWinnerData nHeight s = Ret s' -> votes_step s s'.

Definition votes_reachable (s : PaymentData) : Prop := rtc votes_step PaymentData_empty s.

Lemma reachable_votes_ok s : votes_reachable s -> votes_ok s.
Proof.
  apply (rtc_ind_r votes_ok); [apply empty_ok|]. intros s1 s2 _ Hstep IH.
  destruct Hstep as [heap find valid signed synced c old s0 w s2 effects Hf Hc E | heap queue sign rank own p last s0 s2 last2 sent Hf [b Hb] E | n s0 s2 E].
  - destruct (process_mnw_ok heap find valid signed synced c old s0 w Hf Hc IH) as (s3 & e1 & E1 & Hok). rewrite E1 in E. by injection E as <- _.
  - destruct (Vote_ok heap queue sign rank own p b last s0 Hf Hb IH) as (s3 & l1 & e1 & E1 & Hok). rewrite E1 in E. by injection E as <- _ _.
  - destruct (Prune_ok n s0 IH) as (s3 & E1 & Hok). rewrite E1 in E. by injection E as <-.
Qed.
End Reachable.

(** Votes counted one after the other. *)
Fixpoint count_votes (b : CMasternodeBlockPayees) (votes : list (COutPoint * list Z)) : io CMasternodeBlockPayees :=
  match votes with
  | [] => Ret b
  | (voter, payee) :: votes => let* b := CountVote b voter payee in count_votes b votes
  end.

Lemma count_votes_tally votes : forall done b,
  tally_of done b -> NoDup (done ++ votes).*1 ->
  exists b', count_votes b votes = Ret b' /\ payees_height b' = payees_height b /\ tally_of (done ++ votes) b'.
Proof.
  induction votes as [|[v s] votes IH]; intros past b Ht Hn; cbn [count_votes]; [rewrite app_nil_r; by eauto|].
  destruct (CountVote_tally past b v s Ht) as (b1 & -> & Hh & Ht1).
  { unfold payees_CanVote. destruct Ht as (_ & -> & _). rewrite bool_decide_false; [done|]. intros Hv.
    rewrite fmap_app in Hn. apply NoDup_app in Hn as (_ & Hdis & _). apply (Hdis v Hv). by left. }
  cbn [obind]. destruct (IH (past ++ [(v, s)]) b1 Ht1) as (b2 & -> & Hh2 & Ht2); [by rewrite <-app_assoc|].
  exists b2. rewrite <-app_assoc in Ht2. split; [done|]. split; [congruence | done].
Qed.

Lemma tally_entry votes script : 0 < votes_for script votes -> exists p, p ∈ tally votes /\ payee_script p = script /\ nVotes p = votes_for script votes.
Proof.
  intros Hpos. destruct (tally_spec votes) as (_ & Hs & Hc).
  assert (script ∈ votes.*2) as Hin.
  { unfold votes_for in Hpos. destruct (filter _ votes) as [|x l] eqn:E; [done|].
    assert (x ∈ filter (fun v => v.2 = script) votes) as Hx by (rewrite E; by left).
    apply list_elem_of_filter in Hx as [<- Hx]. by apply list_elem_of_fmap_2. }
  apply Hs, list_elem_of_fmap_1 in Hin as (p & -> & Hp). exists p. by rewrite (Hc p Hp).
Qed.

(** C38: whatever messages, own votes and pruning a node processes, in any order
    and over changing block trees, no assertion on votes fails: the handlers of
    votes, of messages and of pruning return in every reachable state; and every
    tally counts votes of distinct masternodes, for the height its score hash
    stands for, each script once with the number of its votes. *)
Theorem masternode_votes_safe height_of s : votes_reachable height_of s ->
  (forall heap find valid signed synced c old w, index_fits height_of heap -> chain_ok heap c ->
     exists s' effects, process_mnw heap find valid signed synced c old s w = Ret (s', effects)) /\
  (forall heap queue sign rank_ok own p last, index_fits height_of heap -> is_Some (heap !! p) ->
     exists r, VoteForMasternodePayee heap queue sign rank_ok own p last s = Ret r) /\
  (forall nHeight, exists s', PruneOldMasternodeWinnerData nHeight s = Ret s') /\
  (forall h b, GetPayeesForScoreHash s h = Some b -> payees_height b = height_of h + 101 /\
     exists votes, NoDup votes.*1 /\ voters b = votes.*1 /\ NoDup (payee_script <$> vecPayments b) /\
       (forall script, script ∈ votes.*2 <-> script ∈ (payee_script <$> vecPayments b)) /\
       forall p, p ∈ vecPayments b -> nVotes p = votes_for (payee_script p) votes).
Proof.
  intros Hok%reachable_votes_ok. split; [|split; [|split]].
  - intros heap find valid signed synced c old w Hf Hc.
    destruct (process_mnw_ok height_of heap find valid signed synced c old s w Hf Hc Hok) as (s' & e & E & _). by eauto.
  - intros heap queue sign rank own p last Hf [b Hb].
    destruct (Vote_ok height_of heap queue sign rank own p b last s Hf Hb Hok) as (s' & l & e & E & _). by eauto.
  - intros n. destruct (Prune_ok height_of n s Hok) as (s' & E & _). by eauto.
  - intros h b Hb. destruct (blocks_tallied _ _ Hok h b Hb) as [Hh (votes & Hn & Hv & Hp)]. split; [done|].
    exists votes. rewrite Hp. destruct (tally_spec votes) as (Hd & Hs & Hc). repeat split; try done; apply Hs.
Qed.

(** C39: counting the votes of at most ten distinct masternodes never fails; no
    script then gets the six required votes unless it is the one that [GetPayee]
    names, and a block transaction is valid exactly when it pays that script at
    least the masternode reward of the height; without such a script, any
    transaction is. *)
Theorem masternode_payee_decided subsidies h r votes :
  NoDup votes.*1 -> zlen votes <= MNPAYMENTS_SIGNATURES_TOTAL -> subsidies h = Ret r ->
  exists b, count_votes (CMasternodeBlockPayees_new h) votes = Ret b /\
    ((forall script, votes_for script votes < MNPAYMENTS_SIGNATURES_REQUIRED) -> forall tx, payees_IsTransactionValid subsidies b tx = Ret true) /\
    (forall script, MNPAYMENTS_SIGNATURES_REQUIRED <= votes_for script votes ->
       GetPayee b = Some script /\ HasPayeeWithVotes b script MNPAYMENTS_SIGNATURES_REQUIRED = true /\
       forall tx, payees_IsTransactionValid subsidies b tx = Ret (pays tx script (nMasternodeReward r))).
Proof.
  intros Hn Hl Hr. destruct (count_votes_tally votes [] (CMasternodeBlockPayees_new h)) as (b & E & Hh & Ht); [|done|].
  { split; [constructor | done]. }
  cbn in Hh. rewrite <-Hh in Hr. exists b. split; [done|]. split.
  - intros Hall tx. apply (decided_valid subsidies votes b r tx Ht Hl Hr).
    intros p Hp. destruct (tally_spec votes) as (_ & _ & Hc). rewrite (Hc p Hp). apply Hall.
  - intros script H6. destruct (tally_entry votes script) as (p & Hp & <- & Ep); [unfold MNPAYMENTS_SIGNATURES_REQUIRED in H6; lia|].
    rewrite <-Ep in H6. split; [by apply (decided_payee votes)|]. split.
    + unfold HasPayeeWithVotes. destruct Ht as (_ & _ & ->). apply existsb_exists. exists p. split; [by apply list_elem_of_In|].
      by rewrite Z.geb_leb, (proj2 (Z.leb_le _ _) H6), bool_decide_true.
    + intros tx. by apply (decided_valid subsidies votes b r tx Ht Hl Hr).
Qed.

Definition sample_votes : list (COutPoint * list Z) :=
  (fun n => (mkOutPoint [n] 0, if n <? 7 then [81] else [82])) <$> seqZ 0 10.

Lemma masternode_payee_decided_witness : exists b,
  count_votes (CMasternodeBlockPayees_new 5000) sample_votes = Ret b /\ GetPayee b = Some [81] /\
  payees_IsTransactionValid (fun _ => Ret (mkRewards 1 500 1 1 1 1)) b (mkMutable 1 [] [mkTxOut 500 [81]] 0) = Ret true.
Proof.
  destruct (masternode_payee_decided (fun _ => Ret (mkRewards 1 500 1 1 1 1)) 5000 (mkRewards 1 500 1 1 1 1) sample_votes)
    as (b & E & _ & Hd); [apply (bool_decide_eq_true_1 _); vm_compute; reflexivity | vm_compute; discriminate | reflexivity |].
  destruct (Hd [81]) as (Hg & _ & Hv); [vm_compute; discriminate|]. exists b. split; [exact E|]. split; [exact Hg|].
  rewrite Hv. vm_compute. reflexivity.
Defined.

(** On a three-block tree, from the empty state. *)
Definition sample_height_of (h : list Z) : Z := Z.min 2 (default 1 (head h) - 1).

Lemma masternode_votes_safe_witness :
  exists s' effects, process_mnw sample_tree (fun _ => true) (fun _ => true) (fun _ => true) true
    [Some 1%positive; Some 2%positive; Some 3%positive] false PaymentData_empty (mkWinner (mkTxIn COutPoint_null [] 0) [] 2 [81] []) = Ret (s', effects).
Proof.
  destruct (chain_reachable_ok _ _ sample_tree_reachable) as [Hok Hc].
  refine (proj1 (masternode_votes_safe sample_height_of PaymentData_empty (rtc_refl _ _)) _ _ _ _ _ _ _ _ _ Hc).
  split; [exact Hok|]. apply (bool_decide_eq_true_1 _). vm_compute. reflexivity.
Defined.
