(* ===== verification/Incentives.v ===== *)
(** * Block incentives: [BlockIncentivesPopulator.cpp]

    Which outputs a minted block must have besides the stake: treasury and charity
    payments at treasury heights, the lottery at lottery heights, a masternode
    payment otherwise.  What the node adds when it mints is what it accepts when it
    validates, and is within the value the block may mint. *)

From Stdlib Require Import ZArith Lia Bool.
From stdpp Require Import base option numbers list gmap.
From S2P Require Import Prelude BaseUInt UInt256 Opcodes ScriptNum Script Standard Base58 Transaction BlockIndex Chain Subsidy MasternodeVotes.

Open Scope Z_scope.
Open Scope outcome_scope.

(** ["DPhJsztbZafDc1YeyrRqSjmKjkmLJpQpUn"] *)
Definition TREASURY_PAYMENT_ADDRESS : list Z :=
  [68;80;104;74;115;122;116;98;90;97;102;68;99;49;89;101;121;114;82;113;83;106;109;75;106;107;109;76;74;112;81;112;85;110].
(** ["DPujt2XAdHyRcZNB5ySZBBVKjzY2uXZGYq"] *)
Definition CHARITY_PAYMENT_ADDRESS : list Z :=
  [68;80;117;106;116;50;88;65;100;72;121;82;99;90;78;66;53;121;83;90;66;66;86;75;106;122;89;50;117;88;90;71;89;113].
(** ["xw7G6toCcLr2J7ZK8zTfVRhAPiNc8AyxCd"] *)
Definition TREASURY_PAYMENT_ADDRESS_TESTNET : list Z :=
  [120;119;55;71;54;116;111;67;99;76;114;50;74;55;90;75;56;122;84;102;86;82;104;65;80;105;78;99;56;65;121;120;67;100].
(** ["y8zytdJziDeXcdk48Wv7LH6FgnF4zDiXM5"] *)
Definition CHARITY_PAYMENT_ADDRESS_TESTNET : list Z :=
  [121;56;122;121;116;100;74;122;105;68;101;88;99;100;107;52;56;87;118;55;76;72;54;70;103;110;70;52;122;68;105;88;77;53].

(** [CBitcoinAddress(strAddress)] *)
Definition CBitcoinAddress_of (strAddress : list Z) : io CBase58Data :=
  let* '(d, _) := SetString strAddress 1 in Ret d.

Definition TreasuryPaymentAddress (main : bool) : io CBase58Data :=
  CBitcoinAddress_of (if main then TREASURY_PAYMENT_ADDRESS else TREASURY_PAYMENT_ADDRESS_TESTNET).
Definition CharityPaymentAddress (main : bool) : io CBase58Data :=
  CBitcoinAddress_of (if main then CHARITY_PAYMENT_ADDRESS else CHARITY_PAYMENT_ADDRESS_TESTNET).

(** [std::find(tx.vout, CTxOut(amount, script)) != end] *)
Definition verifyPayment (tx : CMutableTransaction) (scriptPayment : list Z) (amount : CAmount) : bool :=
  bool_decide (mkTxOut amount scriptPayment ∈ vout tx).

(** The two prizes. *)
Definition nBigReward (rewards : CBlockRewards) : CAmount := Z.quot (nLotteryReward rewards) 2.
Definition nSmallReward (rewards : CBlockRewards) : CAmount := Z.quot (nBigReward rewards) 10.
Definition prize (rewards : CBlockRewards) (i : nat) : CAmount := if (i =? 0)%nat then nBigReward rewards else nSmallReward rewards.

Definition IsValidLotteryPayment (rewards : CBlockRewards) (tx : CMutableTransaction) (winners : LotteryCoinstakes) : bool :=
  forallb id (imap (fun i (c : LotteryCoinstake) => verifyPayment tx c.2 (prize rewards i)) winners).

Section Populator.
Variable main : bool.
Variable prefixes : AddressPrefixes.
Variable params : RewardParams.
Variable sporks : SporkState.
Variable heap : index_heap.

Definition IsValidTreasuryPayment (rewards : CBlockRewards) (tx : CMutableTransaction) : io bool :=
  let* treasury := TreasuryPaymentAddress main in
  if negb (verifyPayment tx (GetScriptForDestination (address_Get prefixes treasury)) (nTreasuryReward rewards)) then Ret false
  else
    let* charity := CharityPaymentAddress main in
    Ret (verifyPayment tx (GetScriptForDestination (address_Get prefixes charity)) (nCharityReward rewards)).

(** [tx.vout.emplace_back] *)
Definition add_outputs (tx : CMutableTransaction) (outs : list CTxOut) : CMutableTransaction :=
  mkMutable (nVersion tx) (vin tx) (vout tx ++ outs) (nLockTime tx).

Definition FillTreasuryPayment (tx : CMutableTransaction) (nHeight : Z) : io CMutableTransaction :=
  let* rewards := GetBlockSubsidity params sporks nHeight in
  let* treasury := TreasuryPaymentAddress main in
  let* charity := CharityPaymentAddress main in
  Ret (add_outputs tx [mkTxOut (nTreasuryReward rewards) (GetScriptForDestination (address_Get prefixes treasury));
                       mkTxOut (nCharityReward rewards) (GetScriptForDestination (address_Get prefixes charity))]).

Definition FillLotteryPayment (tx : CMutableTransaction) (rewards : CBlockRewards) (currentBlockIndex : option ptr) : io CMutableTransaction :=
  let* b := deref heap currentBlockIndex in
  Ret (add_outputs tx (imap (fun i (c : LotteryCoinstake) => mkTxOut (prize rewards i) c.2) (storage (vLotteryWinnersCoinstakes b)))).

(** The masternode side: votes, the node's own queue, whether it is synchronised,
    the option [-override_mnpayee] and the enforcement spork. *)
Variable votes : PaymentData.
Variable queue : option ptr -> Z -> list Z.
Variable IsSynced override_mnpayee enforcement : bool.

Definition FillBlockPayee (txNew : CMutableTransaction) (payments : CBlockRewards) (chainTip : option ptr) : io CMutableTransaction :=
  let* b := deref heap chainTip in
  if IsValidTreasuryBlockHeight params (nHeight b + 1) then FillTreasuryPayment txNew (nHeight b + 1)
  else if IsValidLotteryBlockHeight params (nHeight b + 1) then FillLotteryPayment txNew payments chainTip
  else masternode_FillBlockPayee heap queue votes chainTip txNew payments.

Definition IsBlockValueValid (nExpectedValue : CBlockRewards) (nMinted : CAmount) (nHeight : Z) : bool :=
  let nExpectedMintCombined := nStakeReward nExpectedValue + nMasternodeReward nExpectedValue in
  let nExpectedMintCombined :=
    if IsValidTreasuryBlockHeight params nHeight then nExpectedMintCombined + (nTreasuryReward nExpectedValue + nCharityReward nExpectedValue)
    else if IsValidLotteryBlockHeight params nHeight then nExpectedMintCombined + nLotteryReward nExpectedValue
    else nExpectedMintCombined in
  negb (nMinted >? nExpectedMintCombined).

Definition HasValidMasternodePayee (txNew : CMutableTransaction) (pindex : option ptr) : io bool :=
  if negb IsSynced then Ret true
  else
    let* b := deref heap pindex in
    if nHeight b <=? 100 then Ret true
    else
      let* seedHash := GetBlockHashForScoring heap pindex 0 in
      match seedHash with
      | None => Ret false
      | Some seedHash =>
          let* valid := IsTransactionValid (GetBlockSubsidity params sporks) votes txNew seedHash in
          Ret (if valid || override_mnpayee then true else negb enforcement)
      end.

Definition HasValidPayees (txNew : CMutableTransaction) (pindex : option ptr) : io bool :=
  let* b := deref heap pindex in
  let blockHeight := nHeight b in
  if IsValidTreasuryBlockHeight params blockHeight then
    let* rewards := GetBlockSubsidity params sporks blockHeight in IsValidTreasuryPayment rewards txNew
  else if IsValidLotteryBlockHeight params blockHeight then
    let* rewards := GetBlockSubsidity params sporks blockHeight in
    let* prev := deref heap (pprev b) in
    Ret (IsValidLotteryPayment rewards txNew (storage (vLotteryWinnersCoinstakes prev)))
  else HasValidMasternodePayee txNew pindex.
End Populator.

(** ** What is filled in is valid *)

Lemma CBitcoinAddress_total s : exists d, CBitcoinAddress_of s = Ret d.
Proof.
  unfold CBitcoinAddress_of, SetString, DecodeBase58Check. destruct (DecodeBase58_total s) as [r ->]. cbn [obind].
  destruct r as [v|]; [|by eexists]. destruct (zlen v <? 4); [by eexists|]. cbn [obind].
  case_bool_decide; [|by eexists]. destruct (_ <? _); by eexists.
Qed.

(** The four payment addresses are addresses of keys on their networks. *)
Lemma payment_addresses_valid :
  Forall (fun '(p, s) => exists d id, CBitcoinAddress_of s = Ret d /\ address_Get p d = CKeyID id)
    [(main_prefixes, TREASURY_PAYMENT_ADDRESS); (main_prefixes, CHARITY_PAYMENT_ADDRESS);
     (test_prefixes, TREASURY_PAYMENT_ADDRESS_TESTNET); (test_prefixes, CHARITY_PAYMENT_ADDRESS_TESTNET)].
Proof.
  assert (Hone : forall p s, match CBitcoinAddress_of s with Ret d => match address_Get p d with CKeyID _ => true | _ => false end | _ => false end = true ->
    exists d id, CBitcoinAddress_of s = Ret d /\ address_Get p d = CKeyID id).
  { intros p s. destruct (CBitcoinAddress_of s) as [d| | |]; try done. destruct (address_Get p d) as [|id|] eqn:E; try done. by eauto. }
  repeat constructor; apply Hone; vm_compute; reflexivity.
Qed.

Section Filled.
Variables (main : bool) (prefixes : AddressPrefixes) (params : RewardParams) (sporks : SporkState) (heap : index_heap).

Lemma verify_added tx outs o : o ∈ outs -> verifyPayment (add_outputs tx outs) (scriptPubKey o) (nValue o) = true.
Proof. intros Ho. apply bool_decide_eq_true. cbn. apply elem_of_app. right. by destruct o. Qed.

Lemma treasury_filled tx h r :
  GetBlockSubsidity params sporks h = Ret r ->
  exists outs, FillTreasuryPayment main prefixes params sporks tx h = Ret (add_outputs tx outs) /\
    IsValidTreasuryPayment main prefixes r (add_outputs tx outs) = Ret true /\
    fold_right Z.add 0 (nValue <$> outs) = nTreasuryReward r + nCharityReward r.
Proof.
  intros Hr. unfold FillTreasuryPayment, IsValidTreasuryPayment, TreasuryPaymentAddress, CharityPaymentAddress. rewrite Hr. cbn [obind].
  destruct (CBitcoinAddress_total (if main then TREASURY_PAYMENT_ADDRESS else TREASURY_PAYMENT_ADDRESS_TESTNET)) as [t ->].
  destruct (CBitcoinAddress_total (if main then CHARITY_PAYMENT_ADDRESS else CHARITY_PAYMENT_ADDRESS_TESTNET)) as [c ->]. cbn [obind].
  set (o1 := mkTxOut (nTreasuryReward r) _). set (o2 := mkTxOut (nCharityReward r) _).
  exists [o1; o2]. split; [done|]. split; [|cbn; lia].
  assert (verifyPayment (add_outputs tx [o1; o2]) (GetScriptForDestination (address_Get prefixes t)) (nTreasuryReward r) = true) as ->
    by (apply (verify_added tx [o1; o2] o1); by left).
  assert (verifyPayment (add_outputs tx [o1; o2]) (GetScriptForDestination (address_Get prefixes c)) (nCharityReward r) = true) as ->
    by (apply (verify_added tx [o1; o2] o2); by right; left).
  done.
Qed.

Definition prizes (r : CBlockRewards) (winners : LotteryCoinstakes) : list CTxOut :=
  imap (fun i (c : LotteryCoinstake) => mkTxOut (prize r i) c.2) winners.

Lemma lottery_filled tx r winners : IsValidLotteryPayment r (add_outputs tx (prizes r winners)) winners = true.
Proof.
  apply forallb_forall. intros x Hx. apply list_elem_of_In, list_elem_of_lookup_1 in Hx as [i Hi].
  rewrite list_lookup_imap in Hi. destruct (winners !! i) as [c|] eqn:Ec; [|done]. injection Hi as <-.
  apply (verify_added tx (prizes r winners) (mkTxOut (prize r i) c.2)).
  apply (list_elem_of_lookup_2 _ i). unfold prizes. by rewrite list_lookup_imap, Ec.
Qed.

Lemma equal_prizes (winners : LotteryCoinstakes) v : forall g : nat -> CAmount, (forall i, g i = v) ->
  fold_right Z.add 0 (nValue <$> imap (fun i (c : LotteryCoinstake) => mkTxOut (g i) c.2) winners) = zlen winners * v.
Proof.
  induction winners as [|c winners IH]; intros g Hg; [done|]. rewrite imap_cons. cbn [fmap list_fmap fold_right nValue].
  change (list_fmap _ _ nValue) with (fmap (M := list) nValue). rewrite Hg, zlen_cons.
  change ((λ i x, mkTxOut (g i) x.2) ∘ S) with (fun i (c : LotteryCoinstake) => mkTxOut ((g ∘ S) i) c.2).
  rewrite (IH (g ∘ S)); [lia|]. intros i. apply Hg.
Qed.

(** One half and ten twentieths. *)
Lemma prizes_value r winners :
  (length winners <= 11)%nat -> 0 <= nLotteryReward r -> 0 <= fold_right Z.add 0 (nValue <$> prizes r winners) <= nLotteryReward r.
Proof.
  intros Hl Hr. destruct winners as [|c winners]; [cbn; lia|]. unfold prizes. rewrite imap_cons. cbn [fmap list_fmap fold_right nValue prize Nat.eqb].
  change ((λ i x, mkTxOut (prize r i) x.2) ∘ S) with (fun i (c : LotteryCoinstake) => mkTxOut ((prize r ∘ S) i) c.2).
  change (list_fmap _ _ nValue) with (fmap (M := list) nValue). rewrite (equal_prizes winners (nSmallReward r)) by done. cbn in Hl. unfold nSmallReward, nBigReward, prize.
  pose proof (Z.quot_rem' (nLotteryReward r) 2). pose proof (Z.rem_bound_pos (nLotteryReward r) 2 Hr ltac:(lia)).
  set (big := Z.quot (nLotteryReward r) 2) in *. assert (Hb : 0 <= big) by (apply Z.quot_pos; lia).
  pose proof (Z.quot_rem' big 10). pose proof (Z.rem_bound_pos big 10 Hb ltac:(lia)). unfold zlen.
  assert (0 <= Z.quot big 10) by (apply Z.quot_pos; lia).
  change (Z.quot (nLotteryReward r) 2) with big. nia.
Qed.
End Filled.

Section Masternode.
Variables (params : RewardParams) (sporks : SporkState) (heap : index_heap) (height_of : list Z -> Z).
Hypothesis Hfits : index_fits height_of heap.
Variables (p q : ptr) (b c : CBlockIndex).
Hypothesis Hp : heap !! p = Some b.
Hypothesis Hq : heap !! q = Some c.
Hypothesis Hprev : pprev c = Some p.

Lemma child_height : nHeight c = nHeight b + 1.
Proof.
  pose proof (li_prev _ _ _ (proj1 Hfits q c Hq)) as Hl. rewrite Hprev in Hl. destruct Hl as (b' & Hb' & Hh). 
  rewrite Hp in Hb'. injection Hb' as <-. lia.
Qed.

(** Minting on the tip and validating on top of it use the same score hash. *)
Lemma same_score : GetBlockHashForScoring heap (Some p) 1 = GetBlockHashForScoring heap (Some q) 0.
Proof.
  pose proof (proj1 Hfits) as Hok. pose proof child_height as Hh.
  assert (Hatp : at_height heap p (nHeight b)) by by exists b. assert (Hatq : at_height heap q (nHeight c)) by by exists c.
  pose proof (at_height_nonneg heap Hok p _ Hatp).
  unfold GetBlockHashForScoring. cbn [deref oaccess obind]. rewrite Hp, Hq. cbn [oaccess obind].
  rewrite (GetAncestor_spec heap Hok p _ _ Hatp), (GetAncestor_spec heap Hok q _ _ Hatq). cbn [obind].
  replace (nHeight c + 0 - 101) with (nHeight b + 1 - 101) by lia. set (k := nHeight b + 1 - 101).
  destruct (Z.ltb_spec k 0).
  - by rewrite (ancestor_None heap p (nHeight b)), (ancestor_None heap q (nHeight c)) by (done || lia).
  - rewrite (ancestor_trans heap Hok q (nHeight c) p (nHeight b) k); [done | done | lia | lia |].
    pose proof (ancestor_prev heap Hok q c Hq ltac:(lia)) as Ha. rewrite Hprev in Ha.
    by replace (nHeight c - 1) with (nHeight b) in Ha by lia.
Qed.

Lemma scored_above : 100 < nHeight c -> GetBlockHashForScoring heap (Some q) 0 <> Ret None.
Proof.
  pose proof (proj1 Hfits) as Hok. intros Hh. assert (Hatq : at_height heap q (nHeight c)) by by exists c.
  unfold GetBlockHashForScoring. cbn [deref oaccess obind]. rewrite Hq. cbn [oaccess obind].
  rewrite (GetAncestor_spec heap Hok q _ _ Hatq). cbn [obind].
  destruct (ancestor_spec heap Hok q (nHeight c) (nHeight c + 0 - 101) Hatq ltac:(lia)) as (x & -> & (d & Hd & _) & _).
  cbn [deref oaccess obind]. by rewrite Hd.
Qed.

Lemma masternode_filled votes queue synced override enforcement tx r :
  votes_ok height_of votes -> GetBlockSubsidity params sporks (nHeight c) = Ret r -> 0 <= nMasternodeReward r ->
  exists outs, masternode_FillBlockPayee heap queue votes (Some p) tx r = Ret (add_outputs tx outs) /\
    HasValidMasternodePayee params sporks heap votes synced override enforcement (add_outputs tx outs) (Some q) = Ret true /\
    0 <= fold_right Z.add 0 (nValue <$> outs) <= nMasternodeReward r.
Proof.
  intros Hv Hr Hpos. destruct (scoring_hash height_of heap q c 0 Hfits Hq) as (h & Eh & Hh).
  unfold masternode_FillBlockPayee. rewrite same_score, Eh. cbn [obind].
  assert (Hnone : add_outputs tx [] = tx) by (unfold add_outputs; rewrite app_nil_r; by destruct tx).
  unfold HasValidMasternodePayee. cbn [deref oaccess obind]. rewrite Hq. cbn [oaccess obind]. rewrite Eh. cbn [obind].
  destruct h as [h|].
  2:{ exists []. rewrite Hnone. split; [done|]. split; [|cbn; lia]. destruct synced; cbn [negb]; [|done].
      destruct (Z.leb_spec (nHeight c) 100); [done|]. exfalso. by apply scored_above. }
  destruct (Hh h eq_refl) as [_ Hheight]. set (o := fun s => mkTxOut (nMasternodeReward r) s).
  assert (Hacc : forall outs, (forall s, GetBlockPayee votes h = Some s -> outs = [o s]) ->
    IsTransactionValid (GetBlockSubsidity params sporks) votes (add_outputs tx outs) h = Ret true).
  { intros outs Ho. unfold IsTransactionValid, GetBlockPayee in *. destruct (GetPayeesForScoreHash votes h) as [bp|] eqn:Ebp; [|done].
    destruct (blocks_tallied _ _ Hv h bp Ebp) as [Hbh _].
    assert (Hbr : GetBlockSubsidity params sporks (payees_height bp) = Ret r) by (rewrite <-Hr; f_equal; lia).
    destruct (GetPayee bp) as [s|] eqn:Eg.
    - rewrite (Ho s eq_refl). apply (paid_accepted _ bp r _ s Hbr Eg). unfold pays. apply existsb_exists. exists (o s).
      cbn. rewrite in_app_iff, bool_decide_true, Z.geb_leb, Z.leb_refl by done. split; [right; by left | done].
    - by apply (undecided_accepted _ bp r). }
  set (payee := match GetBlockPayee votes h with Some s => s | None => queue (Some p) 1 end).
  set (has := match GetBlockPayee votes h with Some _ => true | None => negb (bool_decide (payee = [])) end).
  exists (if has then [o payee] else []). split; [|split].
  - destruct has; [done | by rewrite Hnone].
  - rewrite Hacc; [cbn [obind orb]; destruct synced; cbn [negb]; [destruct (_ <=? 100)|]; done|].
    intros s Es. subst has payee. by rewrite Es.
  - destruct has; cbn; lia.
Qed.
End Masternode.

(** C40: what [FillBlockPayee] adds to the coinstake of a block minted on the tip
    makes [HasValidPayees] accept the block on top of the tip: treasury and
    charity payments, the lottery prizes of the tip's winners, or the payment of
    the masternode voted for (or of the node's own choice), whatever votes were
    processed; and together with the stake reward it stays within the value that
    [IsBlockValueValid] allows. *)
Theorem minted_block_accepted main prefixes params sporks heap height_of votes queue synced override enforcement p q b c tx r :
  index_fits height_of heap -> heap !! p = Some b -> heap !! q = Some c -> pprev c = Some p ->
  votes_reachable height_of votes -> GetBlockSubsidity params sporks (nHeight c) = Ret r ->
  (length (storage (vLotteryWinnersCoinstakes b)) <= 11)%nat -> 0 <= nMasternodeReward r -> 0 <= nLotteryReward r ->
  exists outs, FillBlockPayee main prefixes params sporks heap votes queue tx r (Some p) = Ret (add_outputs tx outs) /\
    HasValidPayees main prefixes params sporks heap votes synced override enforcement (add_outputs tx outs) (Some q) = Ret true /\
    IsBlockValueValid params r (nStakeReward r + fold_right Z.add 0 (nValue <$> outs)) (nHeight c) = true.
Proof.
  intros Hf Hp Hq Hprev Hv%reachable_votes_ok Hr Hw Hm Hlot.
  pose proof (child_height heap height_of Hf p q b c Hp Hq Hprev) as Hh.
  assert (Hle : forall m e, m <= e -> negb (m >? e) = true) by (intros m e ?; apply negb_true_iff; rewrite Z.gtb_ltb; apply Z.ltb_ge; lia).
  unfold FillBlockPayee, HasValidPayees, IsBlockValueValid. cbn [deref oaccess obind]. rewrite Hp, Hq. cbn [oaccess obind].
  rewrite <-Hh. destruct (IsValidTreasuryBlockHeight params (nHeight c)); [|destruct (IsValidLotteryBlockHeight params (nHeight c))].
  - destruct (treasury_filled main prefixes params sporks tx (nHeight c) r Hr) as (outs & E & Hok & Hsum).
    exists outs. rewrite Hr. cbn [obind]. split; [done|]. split; [done|]. apply Hle. lia.
  - exists (prizes r (storage (vLotteryWinnersCoinstakes b))). rewrite Hr, Hprev. cbn [obind]. unfold FillLotteryPayment.
    cbn [deref oaccess obind]. rewrite Hp. cbn [oaccess obind]. rewrite lottery_filled.
    split; [done|]. split; [done|]. apply Hle. pose proof (prizes_value r _ Hw Hlot). lia.
  - destruct (masternode_filled params sporks heap height_of Hf p q b c Hp Hq Hprev votes queue synced override enforcement tx r Hv Hr Hm)
      as (outs & E & Hok & Hsum). exists outs. split; [done|]. split; [done|]. apply Hle. lia.
Qed.

(** Lotteries at every second height. *)
Definition sample_params : RewardParams := mkRewardParams (617222416 * COIN) (60 * 24 * 365) 1 1 3 1 2.

Definition sample_winner : LotteryCoinstake := (of_uint64 8 5, [81]).

Definition winner_entry (n : Z) : CBlockIndex := mkIndex (of_uint64 8 n) None None 0 0 0 0 0 0 (LotteryCoinstakeData_of 1 [sample_winner]).

Definition sample_parent : CBlockIndex := mkIndex (of_uint64 8 2) (Some 1%positive) (Some 1%positive) 1 0 0 0 0 0 (LotteryCoinstakeData_of 1 [sample_winner]).
Definition sample_child : CBlockIndex := mkIndex (of_uint64 8 3) (Some 2%positive) (Some 1%positive) 2 0 0 0 0 0 (LotteryCoinstakeData_of 1 [sample_winner]).
Definition sample_heap : index_heap := <[3%positive := sample_child]> (<[2%positive := sample_parent]> {[ 1%positive := winner_entry 1 ]}).

Lemma sample_heap_fits : index_fits sample_height_of sample_heap.
Proof.
  split; [|apply (bool_decide_eq_true_1 _); vm_compute; reflexivity].
  eapply (chain_reachable_ok sample_heap []). unfold chain_reachable.
  eapply rtc_l; [apply (step_genesis 1 (winner_entry 1)); reflexivity|].
  eapply rtc_l; [apply (step_add _ _ 2 1 (winner_entry 2) sample_parent); vm_compute; reflexivity|].
  eapply rtc_l; [apply (step_add _ _ 3 2 (winner_entry 3) sample_child); vm_compute; reflexivity|].
  apply rtc_refl.
Qed.

Lemma minted_block_accepted_witness : exists r outs,
  GetBlockSubsidity sample_params no_sporks 2 = Ret r /\
  FillBlockPayee true main_prefixes sample_params no_sporks sample_heap PaymentData_empty (fun _ _ => []) (mkMutable 1 [] [] 0) r (Some 2%positive)
    = Ret (add_outputs (mkMutable 1 [] [] 0) outs) /\
  HasValidPayees true main_prefixes sample_params no_sporks sample_heap PaymentData_empty true false true
    (add_outputs (mkMutable 1 [] [] 0) outs) (Some 3%positive) = Ret true.
Proof.
  destruct (GetBlockSubsidity sample_params no_sporks 2) as [r| | |] eqn:Er; [|vm_compute in Er; discriminate Er..].
  assert (Er' := Er). vm_compute in Er'. injection Er' as Er'.
  destruct (minted_block_accepted true main_prefixes sample_params no_sporks sample_heap sample_height_of PaymentData_empty (fun _ _ => []) true false true
    2%positive 3%positive sample_parent sample_child (mkMutable 1 [] [] 0) r) as (outs & E1 & E2 & _);
    [exact sample_heap_fits | reflexivity | reflexivity | reflexivity | apply rtc_refl | exact Er | cbn; lia
    | rewrite <-Er'; cbn; lia | rewrite <-Er'; cbn; lia |].
  exists r, outs. split; [reflexivity|]. split; [exact E1 | exact E2].
Defined.
