(* ===== verification/Pow.v ===== *)
(** * Difficulty: [pow.cpp] and the trust of a block ([chain.cpp])

    The target of the next block, the check of a proof of work and the work a
    block stands for, on the 256-bit integers of [uint256.h].  [x *= n] with a
    64-bit [n] is the operator for [uint32_t], to which [n] is converted. *)

From Stdlib Require Import ZArith Lia Bool.
From stdpp Require Import base option numbers list gmap.
From S2P Require Import Prelude BaseUInt UInt256 Transaction BlockIndex Chain.

Open Scope Z_scope.
Open Scope outcome_scope.

Record WorkParams := mkWorkParams {
  ProofOfWorkLimit : list Z;
  RetargetDifficulty : bool;
  work_LAST_POW_BLOCK : Z;
  TargetSpacing : Z
}.

(** [~uint256(0) >> 20], one minute. *)
Definition main_work : WorkParams := mkWorkParams (op_shr (op_not (of_uint64 8 0)) 20) true 100 60.

(** [uint256().SetCompact(nBits)] *)
Definition target_of (nBits : Z) : list Z := (SetCompact nBits).1.1.

(** [bnNew *= n] and [bnNew /= n] with a signed 64-bit [n]. *)
Definition mul_int64 (x : list Z) (n : Z) : list Z := op_mul32 x (u32 n).
Definition div_int64 (x : list Z) (n : Z) : io (list Z) := op_div x (of_uint64 8 (u64 n)).

Section Work.
Variable params : WorkParams.
Variable heap : index_heap.

(** The branch for proof of stake. *)
Definition next_stake_target (last : CBlockIndex) : io Z :=
  let bnTargetLimit := op_shr (op_not (of_uint64 8 0)) 24 in
  let nTargetSpacing := 60 in
  let nTargetTimespan := 60 * 40 in
  let* nActualSpacing :=
    if negb (nHeight last =? 0)
    then let* prev := deref heap (pprev last) in Ret (GetBlockTime last - GetBlockTime prev)
    else Ret 0 in
  let nActualSpacing := if nActualSpacing <? 0 then 1 else nActualSpacing in
  let bnNew := target_of (bi_nBits last) in
  let nInterval := Z.quot nTargetTimespan nTargetSpacing in
  let bnNew := mul_int64 bnNew ((nInterval - 1) * nTargetSpacing + nActualSpacing + nActualSpacing) in
  let* bnNew := div_int64 bnNew ((nInterval + 1) * nTargetSpacing) in
  let bnNew := if (CompareTo bnNew (of_uint64 8 0) <=? 0) || (0 <? CompareTo bnNew bnTargetLimit) then bnTargetLimit else bnNew in
  GetCompact bnNew false.

(** The locals of the loop over the last blocks. *)
Record gravity := mkGravity {
  CountBlocks : Z; PastDifficultyAverage : list Z; PastDifficultyAveragePrev : list Z;
  nActualTimespan : Z; LastBlockTime : Z
}.

Definition gravity_start : gravity := mkGravity 0 (of_uint64 8 0) (of_uint64 8 0) 0 0.

Definition gravity_step (g : gravity) (b : CBlockIndex) : io gravity :=
  let count := CountBlocks g + 1 in
  let* '(avg, prev) :=
    if count <=? 24 then
      let* avg := if count =? 1 then Ret (target_of (bi_nBits b))
                  else div_int64 (op_add (mul_int64 (PastDifficultyAveragePrev g) count) (target_of (bi_nBits b))) (count + 1) in
      Ret (avg, avg)
    else Ret (PastDifficultyAverage g, PastDifficultyAveragePrev g) in
  let span := if LastBlockTime g >? 0 then nActualTimespan g + (LastBlockTime g - GetBlockTime b) else nActualTimespan g in
  Ret (mkGravity count avg prev span (GetBlockTime b)).

(** [for (i = 1; BlockReading && BlockReading->nHeight > 0; i++)], left when [i > 24];
    [rounds] counts the rounds up to there. *)
Fixpoint gravity_loop (rounds : nat) (BlockReading : option ptr) (g : gravity) : io gravity :=
  match BlockReading with
  | None => Ret g
  | Some _ =>
      let* b := deref heap BlockReading in
      if nHeight b >? 0 then
        match rounds with
        | O => Ret g
        | S rounds =>
            let* g := gravity_step g b in
            match pprev b with
            | None => Ret g
            | Some _ => gravity_loop rounds (pprev b) g
            end
        end
      else Ret g
  end.

Definition next_work_target (pindexLast : option ptr) : io Z :=
  let* g := gravity_loop 24 pindexLast gravity_start in
  let bnNew := PastDifficultyAverage g in
  let _nTargetTimespan := CountBlocks g * TargetSpacing params in
  let span := if nActualTimespan g <? Z.quot _nTargetTimespan 3 then Z.quot _nTargetTimespan 3 else nActualTimespan g in
  let span := if span >? _nTargetTimespan * 3 then _nTargetTimespan * 3 else span in
  let bnNew := mul_int64 bnNew span in
  let* bnNew := div_int64 bnNew _nTargetTimespan in
  let bnNew := if 0 <? CompareTo bnNew (ProofOfWorkLimit params) then ProofOfWorkLimit params else bnNew in
  GetCompact bnNew false.

Definition GetNextWorkRequired (pindexLast : option ptr) : io Z :=
  match pindexLast with
  | None => GetCompact (ProofOfWorkLimit params) false
  | Some p =>
      let* last := deref heap (Some p) in
      if (nHeight last =? 0) || (nHeight last <? 24) then GetCompact (ProofOfWorkLimit params) false
      else if negb (RetargetDifficulty params) then Ret (bi_nBits last)
      else if nHeight last >? work_LAST_POW_BLOCK params then next_stake_target last
      else next_work_target (Some p)
  end.

Definition CheckProofOfWork (hash : list Z) (nBits : Z) : bool :=
  let '(bnTarget, fNegative, fOverflow) := SetCompact nBits in
  if fNegative || EqualTo bnTarget 0 || fOverflow || (0 <? CompareTo bnTarget (ProofOfWorkLimit params)) then false
  else negb (0 <? CompareTo hash bnTarget).
End Work.

Definition GetBlockProof (nBits : Z) : io (list Z) :=
  let '(bnTarget, fNegative, fOverflow) := SetCompact nBits in
  if fNegative || fOverflow || EqualTo bnTarget 0 then Ret (of_uint64 8 0)
  else let* q := op_div (op_not bnTarget) (op_add bnTarget (of_uint64 8 1)) in Ret (op_add q (of_uint64 8 1)).

(** [CBlockIndex::GetBlockTrust] *)
Definition GetBlockTrust (b : CBlockIndex) : io (list Z) :=
  let bnTarget := target_of (bi_nBits b) in
  if CompareTo bnTarget (of_uint64 8 0) <=? 0 then Ret (of_uint64 8 0)
  else if index_IsProofOfStake b then op_div (op_shl (of_uint64 8 1) 256) (op_add bnTarget (of_uint64 8 1))
  else
    let* bnPoWTrust := op_div (op_shr (op_not (of_uint64 8 0)) 20) (op_add bnTarget (of_uint64 8 1)) in
    Ret (if 0 <? CompareTo bnPoWTrust (of_uint64 8 1) then bnPoWTrust else of_uint64 8 1).

(** ** 256-bit integers and the numbers they hold *)

Definition is256 (x : list Z) (v : Z) : Prop := wf x /\ length x = 8%nat /\ value x = v.

Lemma is256_self x : wf x -> length x = 8%nat -> is256 x (value x).
Proof. by split. Qed.

Lemma modulus_8 x : length x = 8%nat -> modulus x = 2 ^ 256.
Proof. intros Hl. unfold modulus, zlen. by rewrite Hl. Qed.

Lemma is256_range x v : is256 x v -> 0 <= v < 2 ^ 256.
Proof. intros (Hw & Hl & <-). rewrite <-(modulus_8 x Hl). by apply value_bound. Qed.

Lemma is256_small n : 0 <= n < 2 ^ 64 -> is256 (of_uint64 8 n) n.
Proof. intros Hn. destruct (of_uint64_spec 8 n) as (? & ? & ?); [lia | done | by split]. Qed.

Lemma is256_add x y v w : is256 x v -> is256 y w -> is256 (op_add x y) ((v + w) mod 2 ^ 256).
Proof.
  intros (Hx & Lx & <-) (Hy & Ly & <-). destruct (op_add_spec x y) as (E & ? & ?); [congruence | done.. |].
  split; [done|]. split; [congruence|]. by rewrite E, modulus_8.
Qed.

Lemma is256_mul x v n : is256 x v -> is256 (mul_int64 x n) ((v * u32 n) mod 2 ^ 256).
Proof.
  intros (Hx & Lx & <-). destruct (op_mul32_spec x (u32 n)) as (E & ? & ?); [done | apply Z.mod_pos_bound; lia |].
  unfold mul_int64. split; [done|]. split; [congruence|]. by rewrite E, modulus_8.
Qed.

Lemma is256_not x v : is256 x v -> is256 (op_not x) (2 ^ 256 - 1 - v).
Proof.
  intros (Hx & Lx & <-). destruct (op_not_spec x Hx) as (E & ? & ?). split; [done|]. split; [congruence|]. by rewrite E, modulus_8.
Qed.

Lemma is256_shr x v s : 0 <= s -> is256 x v -> is256 (op_shr x s) (v / 2 ^ s).
Proof.
  intros Hs (Hx & Lx & <-). destruct (op_shr_shape x s Hs Hx) as [? ?]. split; [done|]. split; [congruence|]. by apply op_shr_spec.
Qed.

Lemma is256_div x y v w : is256 x v -> is256 y w -> w <> 0 -> exists q, op_div x y = Ret q /\ is256 q (v / w).
Proof.
  intros (Hx & Lx & <-) (Hy & Ly & <-) Hne. pose proof (op_div_spec x y ltac:(congruence) Hx Hy) as Hd.
  destruct (op_div x y) as [q| | |]; try done. destruct Hd as (_ & E & Hq & Lq). exists q. split; [done|]. split; [done|].
  split; [congruence | done].
Qed.

Lemma is256_div_int64 x v n : is256 x v -> 0 < n < 2 ^ 63 -> exists q, div_int64 x n = Ret q /\ is256 q (v / n).
Proof.
  intros Hx Hn. unfold div_int64, u64. rewrite Z.mod_small by lia. apply is256_div; [done | apply is256_small; lia | lia].
Qed.

Lemma is256_gt x y v w : is256 x v -> is256 y w -> (0 <? CompareTo x y) = (w <? v).
Proof.
  intros (Hx & Lx & <-) (Hy & Ly & <-). rewrite CompareTo_spec by (done || congruence).
  destruct (Z.compare_spec (value x) (value y)); destruct (Z.ltb_spec (value y) (value x)); try done; lia.
Qed.

Lemma is256_le x y v w : is256 x v -> is256 y w -> (CompareTo x y <=? 0) = (v <=? w).
Proof.
  intros (Hx & Lx & <-) (Hy & Ly & <-). rewrite CompareTo_spec by (done || congruence).
  destruct (Z.compare_spec (value x) (value y)); destruct (Z.leb_spec (value x) (value y)); try done; lia.
Qed.

Lemma is256_zero x v : is256 x v -> EqualTo x 0 = (v =? 0).
Proof. intros (Hx & Lx & <-). apply EqualTo_spec; [done | lia | lia]. Qed.

(** What a target given in [nBits] stands for. *)
Lemma compact_reads nBits : 0 <= nBits < 2 ^ 32 ->
  exists x neg ovf, SetCompact nBits = (x, neg, ovf) /\ is256 x (compact_value (nBits mod 2 ^ 23) (nBits / 2 ^ 24) mod 2 ^ 256) /\
    neg = negb (compact_value (nBits mod 2 ^ 23) (nBits / 2 ^ 24) =? 0) && Z.testbit nBits 23 /\
    ovf = (2 ^ 256 <=? compact_value (nBits mod 2 ^ 23) (nBits / 2 ^ 24)).
Proof.
  intros Hn. pose proof (Z.mod_pos_bound nBits (2 ^ 24) ltac:(lia)) as Hm.
  pose proof (SetCompact_spec (nBits mod 2 ^ 24) (nBits / 2 ^ 24) Hm ltac:(apply Z.div_pos; lia)) as Hs.
  replace (nBits mod 2 ^ 24 + nBits / 2 ^ 24 * 2 ^ 24) with nBits in Hs by (rewrite (Z.div_mod nBits (2 ^ 24)) at 1; lia).
  assert (nBits mod 2 ^ 24 mod 2 ^ 23 = nBits mod 2 ^ 23) as Hmm.
  { change (2 ^ 24) with (2 ^ 23 * 2). rewrite Z.rem_mul_r by lia. rewrite (Z.mul_comm (2 ^ 23)), Z.mod_add, Z.mod_mod by lia. reflexivity. }
  rewrite Hmm, <-testbit_top, Z.mod_pow2_bits_low in Hs by lia.
  destruct (SetCompact nBits) as [[x neg] ovf]. destruct Hs as (Hw & Hl & Hv & Hneg & Hovf). exists x, neg, ovf. by repeat split.
Qed.

(** The compact form of a target rounds it down, by less than [2 ^ -15] of it. *)
Definition rounds_down (v w : Z) : Prop := 0 <= w <= v /\ (v - w) * 2 ^ 15 <= v.

Lemma compact_writes x v : is256 x v ->
  exists c, GetCompact x false = Ret c /\ 0 <= c < 2 ^ 32 /\
    exists y w, SetCompact c = (y, false, false) /\ is256 y w /\ rounds_down v w.
Proof.
  intros (Hw & Hl & <-). pose proof (is256_range x (value x) (is256_self x Hw Hl)) as Hb.
  destruct (GetCompact_spec x Hw Hl) as (E & m & Hcan & Hget). exists (m + E * 2 ^ 24). split; [done|].
  pose proof (canonical_value (value x) E m ltac:(lia) Hcan) as (Hle & Hpos & Herr & _).
  pose proof Hcan as (HE & H0 & H1 & Hm).
  pose proof (SetCompact_spec m E ltac:(lia) ltac:(lia)) as Hset.
  destruct (SetCompact (m + E * 2 ^ 24)) as [[y neg] ovf]. rewrite (Z.mod_small m) in Hset by lia.
  destruct Hset as (Hwy & Hly & Hvy & -> & ->). split; [lia|].
  exists y, (compact_value m E). rewrite (proj2 (Z.leb_gt (2 ^ 256) _)) by lia. rewrite (proj2 (Z.leb_gt (2 ^ 23) m)) by lia.
  rewrite andb_false_r. split; [done|]. split; [|by split].
  split; [done|]. split; [done|]. rewrite Hvy. apply Z.mod_small. lia.
Qed.

(** ** The next target *)

(** [nBits] and [nTime] are 32-bit members. *)
Definition fields_ok (b : CBlockIndex) : Prop := 0 <= bi_nBits b < 2 ^ 32 /\ 0 <= bi_nTime b < 2 ^ 32.

Definition stake_limit : Z := 2 ^ 232 - 1.

Lemma stake_limit_is : is256 (op_shr (op_not (of_uint64 8 0)) 24) stake_limit.
Proof. apply (is256_shr _ (2 ^ 256 - 1 - 0)); [lia|]. apply is256_not, is256_small. lia. Qed.

(** The target a compact form stands for. *)
Definition target (nBits : Z) : Z := value (target_of nBits).

Lemma target_is nBits : 0 <= nBits < 2 ^ 32 -> is256 (target_of nBits) (target nBits).
Proof. intros Hn. destruct (compact_reads nBits Hn) as (x & neg & ovf & E & (Hw & Hl & _) & _). unfold target, target_of. rewrite E. by split. Qed.

(** The spacing as the code takes it, and the new target before it is limited. *)
Definition spacing (last prev : CBlockIndex) : Z :=
  if GetBlockTime last - GetBlockTime prev <? 0 then 1 else GetBlockTime last - GetBlockTime prev.

Definition retarget (T s : Z) : Z := (T * u32 (2340 + s + s)) mod 2 ^ 256 / 2460.

Definition limited (T limit : Z) : Z := if (T <=? 0) || (limit <? T) then limit else T.

Lemma limited_range T limit : 0 < limit -> 0 < limited T limit <= limit.
Proof. intros Hl. unfold limited. destruct (Z.leb_spec T 0), (Z.ltb_spec limit T); cbn; lia. Qed.

Lemma next_stake_spec heap last prev :
  fields_ok last -> nHeight last <> 0 -> deref heap (pprev last) = Ret prev ->
  exists c, next_stake_target heap last = Ret c /\ 0 <= c < 2 ^ 32 /\
    exists y w, SetCompact c = (y, false, false) /\ is256 y w /\
      rounds_down (limited (retarget (target (bi_nBits last)) (spacing last prev)) stake_limit) w.
Proof.
  intros [Hbits _] Hh Hprev. unfold next_stake_target. rewrite (proj2 (Z.eqb_neq _ _) Hh), Hprev. cbn [negb obind].
  change (if GetBlockTime last - GetBlockTime prev <? 0 then 1 else GetBlockTime last - GetBlockTime prev) with (spacing last prev).
  change (Z.quot (60 * 40) 60) with 40. change ((40 - 1) * 60) with 2340. change ((40 + 1) * 60) with 2460.
  destruct (is256_div_int64 _ _ 2460 (is256_mul _ _ (2340 + spacing last prev + spacing last prev) (target_is _ Hbits))) as (q & -> & Hq); [lia|].
  cbn [obind]. rewrite (is256_le _ _ _ 0 Hq (is256_small 0 ltac:(lia))), (is256_gt _ _ _ _ Hq stake_limit_is).
  apply compact_writes. fold (retarget (target (bi_nBits last)) (spacing last prev)). unfold limited.
  destruct (_ || _); [exact stake_limit_is | exact Hq].
Qed.

(** ** The average over the last blocks *)

Record gravity_ok (g : gravity) : Prop := mkGravityOk {
  go_count : 0 <= CountBlocks g <= 24;
  go_avg : is256 (PastDifficultyAverage g) (value (PastDifficultyAverage g));
  go_prev : is256 (PastDifficultyAveragePrev g) (value (PastDifficultyAveragePrev g))
}.

Lemma is256_value x v : is256 x v -> is256 x (value x).
Proof. intros (? & ? & _). by split. Qed.

Lemma gravity_step_ok g b :
  gravity_ok g -> CountBlocks g < 24 -> fields_ok b ->
  exists g', gravity_step g b = Ret g' /\ gravity_ok g' /\ CountBlocks g' = CountBlocks g + 1.
Proof.
  intros [Hc Ha Hp] Hlt [Hb _]. unfold gravity_step. destruct (Z.leb_spec (CountBlocks g + 1) 24); [|lia].
  destruct (Z.eqb_spec (CountBlocks g + 1) 1); cbn [obind].
  - eexists. split; [done|]. split; [|done]. split; cbn; [lia | by eapply is256_value, target_is..].
  - destruct (is256_div_int64 (op_add (mul_int64 (PastDifficultyAveragePrev g) (CountBlocks g + 1)) (target_of (bi_nBits b))) _ (CountBlocks g + 1 + 1)
      (is256_add _ _ _ _ (is256_mul _ _ _ Hp) (target_is _ Hb))) as (q & -> & Hq); [lia|].
    cbn [obind]. eexists. split; [done|]. split; [|done]. split; cbn; [lia | by eapply is256_value..].
Qed.

Lemma gravity_step_count g b g' : gravity_step g b = Ret g' -> CountBlocks g' = CountBlocks g + 1.
Proof.
  unfold gravity_step. set (r := if CountBlocks g + 1 <=? 24 then _ else _). destruct r as [[avg prev]| | |]; cbn; [|done..].
  by intros [= <-].
Qed.

Lemma gravity_count_mono heap rounds : forall p g g', gravity_loop heap rounds p g = Ret g' -> CountBlocks g <= CountBlocks g'.
Proof.
  induction rounds as [|rounds IH]; intros [p|] g g'; cbn [gravity_loop]; try (by intros [= <-]).
  - destruct (deref heap (Some p)) as [b| | |]; cbn [obind]; try done. destruct (_ >? _); by intros [= <-].
  - destruct (deref heap (Some p)) as [b| | |]; cbn [obind]; try done. destruct (_ >? _); [|by intros [= <-]].
    destruct (gravity_step g b) as [g1| | |] eqn:E; cbn [obind]; try done. apply gravity_step_count in E.
    destruct (pprev b); [intros E2%IH; lia | intros [= <-]; lia].
Qed.

Lemma gravity_loop_ok heap (Hf : map_Forall (fun _ => fields_ok) heap) (Hok : index_ok heap) rounds : forall p b g,
  heap !! p = Some b -> gravity_ok g -> CountBlocks g + Z.of_nat rounds <= 24 ->
  exists g', gravity_loop heap rounds (Some p) g = Ret g' /\ gravity_ok g' /\ (0 < nHeight b -> (0 < rounds)%nat -> 0 < CountBlocks g').
Proof.
  induction rounds as [|rounds IH]; intros p b g Hb Hg Hr; cbn [gravity_loop deref oaccess obind]; rewrite Hb; cbn [oaccess obind];
    (destruct (Z.gtb_spec (nHeight b) 0); [|exists g; split; [done|]; split; [done | lia]]).
  - exists g. split; [done|]. split; [done | lia].
  - destruct (gravity_step_ok g b Hg ltac:(lia) (Hf p b Hb)) as (g1 & -> & Hg1 & Hc1). cbn [obind].
    pose proof (li_prev _ _ _ (Hok p b Hb)) as Hprev. destruct (pprev b) as [q|].
    + destruct Hprev as (c & Hcq & _). destruct (IH q c g1 Hcq Hg1 ltac:(lia)) as (g2 & E & Hg2 & _).
      exists g2. split; [done|]. split; [done|]. intros _ _. destruct Hg as [Hc0 _ _].
      assert (CountBlocks g1 <= CountBlocks g2) by (by eapply gravity_count_mono). lia.
    + exists g1. split; [done|]. split; [done|]. destruct Hg. lia.
Qed.

Record work_ok (params : WorkParams) : Prop := mkWorkOk {
  wo_limit : is256 (ProofOfWorkLimit params) (value (ProofOfWorkLimit params));
  wo_spacing : 0 < TargetSpacing params < 2 ^ 32
}.

Lemma rounds_down_pos v w : 0 < v -> rounds_down v w -> 0 < w.
Proof. unfold rounds_down. lia. Qed.

Lemma next_work_spec params heap p b :
  work_ok params -> index_ok heap -> map_Forall (fun _ => fields_ok) heap -> heap !! p = Some b -> 0 < nHeight b ->
  exists c, next_work_target params heap (Some p) = Ret c /\
    exists y w, SetCompact c = (y, false, false) /\ is256 y w /\ w <= value (ProofOfWorkLimit params).
Proof.
  intros [Hlim Hsp] Hok Hf Hb Hh. unfold next_work_target.
  destruct (gravity_loop_ok heap Hf Hok 24 p b gravity_start Hb) as (g & -> & [Hc Ha _] & Hpos); [|done|].
  { split; [cbn; lia | exact (is256_value _ _ (is256_small 0 ltac:(lia)))..]. }
  cbn [obind]. specialize (Hpos Hh ltac:(lia)). set (span := if _ >? _ then _ else _).
  destruct (is256_div_int64 _ _ (CountBlocks g * TargetSpacing params) (is256_mul _ _ span Ha)) as (q & -> & Hq); [nia|].
  cbn [obind]. rewrite (is256_gt _ _ _ _ Hq Hlim). set (N := (value (PastDifficultyAverage g) * u32 span) mod 2 ^ 256 / (CountBlocks g * TargetSpacing params)) in *.
  assert (Hres : is256 (if value (ProofOfWorkLimit params) <? N then ProofOfWorkLimit params else q)
    (if value (ProofOfWorkLimit params) <? N then value (ProofOfWorkLimit params) else N)) by (destruct (value (ProofOfWorkLimit params) <? N); [exact Hlim | exact Hq]).
  destruct (compact_writes _ _ Hres) as (c & E & _ & y & w & Es & Hy & Hw). exists c. split; [done|]. exists y, w.
  split; [done|]. split; [done|]. destruct Hw as [Hw _]. destruct (Z.ltb_spec (value (ProofOfWorkLimit params)) N); lia.
Qed.

Lemma retarget_exact T s : 0 <= T <= stake_limit -> 0 <= s < 2 ^ 22 -> retarget T s = T * (2340 + 2 * s) / 2460.
Proof.
  unfold stake_limit, retarget, u32. intros HT Hs. rewrite (Z.mod_small (2340 + s + s)) by lia. rewrite Z.mod_small by nia. f_equal. nia.
Qed.

(** C24: the difficulty of the next block.  [GetNextWorkRequired] returns for every
    block of a block tree (no assertion of [GetCompact] fails, nothing is divided
    by zero) a compact target without sign or overflow, at most the limit of the
    kind of block.  For proof of stake the target is positive and is, up to the
    rounding of the compact form, [T * (2340 + 2 * s) / 2460] for the last target
    [T] and spacing [s], limited to [2 ^ 232 - 1]: it grows for spacings above 60
    seconds, shrinks below, and stays where it is at 60. *)
Theorem next_work_required params heap p b :
  work_ok params -> index_ok heap -> map_Forall (fun _ => fields_ok) heap -> heap !! p = Some b ->
  RetargetDifficulty params = true ->
  let stake := (24 <=? nHeight b) && (work_LAST_POW_BLOCK params <? nHeight b) in
  exists c y w, GetNextWorkRequired params heap (Some p) = Ret c /\ SetCompact c = (y, false, false) /\ is256 y w /\
    (if stake then
       exists prev, deref heap (pprev b) = Ret prev /\ 0 < w <= stake_limit /\
         rounds_down (limited (retarget (target (bi_nBits b)) (spacing b prev)) stake_limit) w /\
         (0 < target (bi_nBits b) <= stake_limit -> spacing b prev < 2 ^ 22 ->
          let T := target (bi_nBits b) in
          let s := spacing b prev in
          retarget T s = T * (2340 + 2 * s) / 2460 /\ (s = 60 -> limited (retarget T s) stake_limit = T) /\
          (60 <= s -> T <= limited (retarget T s) stake_limit) /\ (s <= 60 -> 2 <= T -> limited (retarget T s) stake_limit <= T))
     else w <= value (ProofOfWorkLimit params)).
Proof.
  intros Hw Hok Hf Hb Hre stake. pose proof (li_height _ _ _ (Hok p b Hb)) as Hh0. pose proof (li_prev _ _ _ (Hok p b Hb)) as Hprev.
  unfold GetNextWorkRequired. cbn [deref oaccess obind]. rewrite Hb, Hre. cbn [oaccess obind negb].
  unfold stake. destruct (Z.leb_spec 24 (nHeight b)) as [H24|H24]; cbn [andb].
  2:{ replace ((nHeight b =? 0) || (nHeight b <? 24)) with true by (symmetry; apply orb_true_iff; right; by apply Z.ltb_lt).
      destruct (compact_writes _ _ (wo_limit _ Hw)) as (c & E & _ & y & w & Es & Hy & [[_ Hle] _]). by exists c, y, w. }
  rewrite (proj2 (Z.eqb_neq _ _)), (proj2 (Z.ltb_ge _ _)) by lia. cbn [orb]. rewrite Z.gtb_ltb.
  destruct (Z.ltb_spec (work_LAST_POW_BLOCK params) (nHeight b)) as [Hpos|_].
  2:{ destruct (next_work_spec params heap p b Hw Hok Hf Hb ltac:(lia)) as (c & E & y & w & Es & Hy & Hle). by exists c, y, w. }
  destruct (pprev b) as [q|] eqn:Ep; [|lia]. destruct Hprev as (prev & Hq & _).
  assert (Hd : deref heap (pprev b) = Ret prev) by (rewrite Ep; cbn [deref oaccess obind]; by rewrite Hq).
  destruct (next_stake_spec heap b prev (Hf p b Hb) ltac:(lia) Hd) as (c & E & _ & y & w & Es & Hy & Hr).
  exists c, y, w. split; [done|]. split; [done|]. split; [done|]. exists prev. rewrite Ep in Hd. split; [done|].
  pose proof (limited_range (retarget (target (bi_nBits b)) (spacing b prev)) stake_limit eq_refl) as Hl.
  split; [pose proof (rounds_down_pos _ _ (proj1 Hl) Hr); destruct Hr as [? _]; lia|]. split; [done|].
  intros HT Hs. set (T := target (bi_nBits b)) in *. set (s := spacing b prev) in *. assert (Hs0 : 0 <= s) by (unfold s, spacing; destruct (Z.ltb_spec (GetBlockTime b - GetBlockTime prev) 0); lia).
  rewrite (retarget_exact T s) by lia. split; [done|]. unfold limited. clearbody T s. clear -HT Hs Hs0.
  pose proof (Z.div_mod (T * (2340 + 2 * s)) 2460 ltac:(lia)). pose proof (Z.mod_pos_bound (T * (2340 + 2 * s)) 2460 ltac:(lia)).
  set (N := T * (2340 + 2 * s) / 2460) in *.
  destruct (Z.leb_spec N 0), (Z.ltb_spec stake_limit N); cbn [orb]; repeat split; intros; nia.
Qed.

(** ** Work *)

(** A compact target without sign that fits and is not zero. *)
Definition compact_valid (nBits : Z) : Prop :=
  let v := compact_value (nBits mod 2 ^ 23) (nBits / 2 ^ 24) in 0 < v < 2 ^ 256 /\ Z.testbit nBits 23 = false.

Lemma compact_nonneg nBits : 0 <= nBits -> 0 <= compact_value (nBits mod 2 ^ 23) (nBits / 2 ^ 24).
Proof.
  intros Hn. pose proof (Z.mod_pos_bound nBits (2 ^ 23) ltac:(lia)). unfold compact_value. destruct (Z.leb_spec (nBits / 2 ^ 24) 3).
  - apply Z.div_pos; [lia | apply Z.pow_pos_nonneg; lia].
  - apply Z.mul_nonneg_nonneg; [lia | apply Z.pow_nonneg; lia].
Qed.

(** All bits set is no compact number. *)
Lemma compact_not_max nBits : 0 <= nBits -> compact_value (nBits mod 2 ^ 23) (nBits / 2 ^ 24) <> 2 ^ 256 - 1.
Proof.
  intros Hn. pose proof (Z.mod_pos_bound nBits (2 ^ 23) ltac:(lia)) as Hm. unfold compact_value.
  destruct (Z.leb_spec (nBits / 2 ^ 24) 3) as [H|H].
  - assert (nBits mod 2 ^ 23 / 256 ^ (3 - nBits / 2 ^ 24) <= nBits mod 2 ^ 23); [|lia].
    apply Z.div_le_upper_bound; [apply Z.pow_pos_nonneg; lia|].
    assert (1 <= 256 ^ (3 - nBits / 2 ^ 24)) by (apply (Z.pow_le_mono_r 256 0); lia). nia.
  - replace (nBits / 2 ^ 24 - 3) with (1 + (nBits / 2 ^ 24 - 4)) by lia. rewrite Z.pow_add_r by lia. intros E.
    assert (Hmod : (2 ^ 256 - 1) mod 256 = 0).
    { rewrite <-E. change (256 ^ 1) with 256. rewrite Z.mul_comm, <-Z.mul_assoc, Z.mul_comm. apply Z.mod_mul. lia. }
    vm_compute in Hmod. discriminate.
Qed.

Lemma compact_cases nBits : 0 <= nBits < 2 ^ 32 ->
  exists x neg ovf, SetCompact nBits = (x, neg, ovf) /\ exists w, is256 x w /\
    (compact_valid nBits -> neg = false /\ ovf = false /\ w = compact_value (nBits mod 2 ^ 23) (nBits / 2 ^ 24) /\ w + 1 < 2 ^ 256 /\ 0 < w) /\
    (~ compact_valid nBits -> neg || ovf || (w =? 0) = true).
Proof.
  intros Hn. destruct (compact_reads nBits Hn) as (x & neg & ovf & E & Hx & -> & ->). pose proof (compact_nonneg nBits ltac:(lia)) as H0.
  pose proof (compact_not_max nBits ltac:(lia)) as Hmax. unfold compact_valid. set (v := compact_value _ _) in *.
  exists x, (negb (v =? 0) && Z.testbit nBits 23), (2 ^ 256 <=? v). split; [done|]. exists (v mod 2 ^ 256). split; [done|]. split.
  - intros [Hv ->]. rewrite andb_false_r, (proj2 (Z.leb_gt _ _)), Z.mod_small by lia. repeat split; lia.
  - intros Hno. destruct (Z.leb_spec (2 ^ 256) v); [by rewrite orb_true_r|]. rewrite Z.mod_small by lia.
    destruct (Z.eqb_spec v 0); [by rewrite !orb_true_r|]. destruct (Z.testbit nBits 23); [done|]. exfalso. apply Hno. split; [lia | done].
Qed.

(** [CheckProofOfWork] accepts exactly the hashes that are at most a valid
    target within the limit, and [GetBlockProof] is exactly the expected number of
    hashes [2 ^ 256 / (target + 1)] for a valid target and zero otherwise, although
    [2 ^ 256] is not representable. *)
Theorem block_work params nBits hash h :
  work_ok params -> 0 <= nBits < 2 ^ 32 -> is256 hash h ->
  let v := compact_value (nBits mod 2 ^ 23) (nBits / 2 ^ 24) in
  (CheckProofOfWork params hash nBits = true <-> compact_valid nBits /\ v <= value (ProofOfWorkLimit params) /\ h <= v) /\
  exists x w, GetBlockProof nBits = Ret x /\ is256 x w /\
    (compact_valid nBits -> w = 2 ^ 256 / (v + 1)) /\ (~ compact_valid nBits -> w = 0).
Proof.
  intros [Hlim _] Hn Hh v. destruct (compact_cases nBits Hn) as (x & neg & ovf & E & w & Hx & Hyes & Hno).
  unfold CheckProofOfWork, GetBlockProof. rewrite E, !(is256_zero x w Hx), (is256_gt _ _ _ _ Hx Hlim), (is256_gt _ _ _ _ Hh Hx).
  assert (Hdec : compact_valid nBits \/ ~ compact_valid nBits).
  { unfold compact_valid. set (u := compact_value _ _). destruct (decide (0 < u < 2 ^ 256)), (Z.testbit nBits 23); intuition congruence. }
  destruct Hdec as [Hv|Hv].
  - destruct (Hyes Hv) as (-> & -> & Ew & Hw1 & Hw0). fold v in Ew. rewrite (proj2 (Z.eqb_neq w 0)) by lia. cbn [orb].
    split.
    + destruct (Z.ltb_spec (value (ProofOfWorkLimit params)) w); [split; [done | lia]|]. rewrite negb_true_iff, Z.ltb_ge. subst w. tauto.
    + pose proof (is256_add _ _ _ _ Hx (is256_small 1 ltac:(lia))) as H1. rewrite Z.mod_small in H1 by lia.
      destruct (is256_div _ _ _ _ (is256_not _ _ Hx) H1) as (q & -> & Hq); [lia|]. cbn [obind].
      pose proof (is256_add _ _ _ _ Hq (is256_small 1 ltac:(lia))) as H2.
      assert (Eq : (2 ^ 256 - 1 - w) / (w + 1) + 1 = 2 ^ 256 / (w + 1)).
      { replace (2 ^ 256) with (2 ^ 256 - 1 - w + 1 * (w + 1)) at 2 by lia. by rewrite Z.div_add by lia. }
      assert (Hub : 2 ^ 256 / (w + 1) < 2 ^ 256) by (apply Z.div_lt; lia).
      assert (0 <= 2 ^ 256 / (w + 1)) by (apply Z.div_pos; lia).
      rewrite Eq, Z.mod_small in H2 by lia. eexists _, _. split; [done|]. split; [exact H2|]. subst w. tauto.
  - specialize (Hno Hv). split.
    + replace (neg || (w =? 0) || ovf) with true by (rewrite <-Hno; destruct neg, ovf, (w =? 0); done). cbn [orb]. split; [done | tauto].
    + rewrite Hno. eexists _, 0. split; [done|]. split; [apply is256_small; lia | tauto].
Qed.

(** A proof-of-stake block has no trust: [uint256(1) << 256] is zero. *)
Lemma stake_trust_zero b :
  0 <= bi_nBits b < 2 ^ 32 -> index_IsProofOfStake b = true -> target (bi_nBits b) + 1 < 2 ^ 256 ->
  exists x, GetBlockTrust b = Ret x /\ is256 x 0.
Proof.
  intros Hb Hs Ht. pose proof (target_is _ Hb) as Hx. unfold GetBlockTrust.
  rewrite (is256_le _ _ _ 0 Hx (is256_small 0 ltac:(lia))), Hs. destruct (Z.leb_spec (target (bi_nBits b)) 0).
  { exists (of_uint64 8 0). split; [done | apply is256_small; lia]. }
  pose proof (is256_add _ _ _ _ Hx (is256_small 1 ltac:(lia))) as H1. rewrite Z.mod_small in H1 by lia.
  assert (H0 : is256 (op_shl (of_uint64 8 1) 256) 0).
  { assert (op_shl (of_uint64 8 1) 256 = of_uint64 8 0) as -> by (vm_compute; reflexivity). apply is256_small. lia. }
  destruct (is256_div _ _ _ _ H0 H1) as (q & E & Hq); [lia|]. exists q. split; [done|]. by rewrite Z.div_0_l in Hq by lia.
Qed.

(** The main network, on a chain of 26 blocks one minute apart with the target
    [0x1d00ffff]. *)
Definition minute_chain (last : positive) : index_heap :=
  list_to_map (map (fun n : positive =>
    (n, mkIndex (of_uint64 8 (Zpos n)) (if (n =? 1)%positive then None else Some (Pos.pred n))
          (if (n =? 1)%positive then None else Some (Z.to_pos (GetSkipHeight (Zpos n - 1) + 1)))
          (Zpos n - 1) 0 0 0 (60 * Zpos n) 0x1d00ffff LotteryCoinstakeData_empty))
    (map Z.to_pos (seqZ 1 (Zpos last)))).

(** Checking a concrete block tree. *)
Definition linkedb (heap : index_heap) (p : ptr) (b : CBlockIndex) : bool :=
  (0 <=? nHeight b) &&
  match pprev b with
  | None => nHeight b =? 0
  | Some q => match heap !! q with Some c => nHeight c =? nHeight b - 1 | None => false end
  end &&
  ((nHeight b <=? 0) || bool_decide (pskip b = ancestor heap p (GetSkipHeight (nHeight b)))).

Lemma linkedb_ok heap : Forall (fun pb => linkedb heap pb.1 pb.2 = true) (map_to_list heap) -> index_ok heap.
Proof.
  intros Hall p b Hb. rewrite Forall_forall in Hall. specialize (Hall (p, b) (proj2 (elem_of_map_to_list _ _ _) Hb)).
  unfold linkedb in Hall. cbn in Hall. rewrite !andb_true_iff, orb_true_iff, bool_decide_eq_true in Hall. destruct Hall as [[H1 H2] H3].
  split; [lia | | intros Hpos; destruct H3; [lia | done]].
  destruct (pprev b) as [q|]; [|lia]. destruct (heap !! q) as [c|] eqn:E; [|done]. exists c. split; [done | lia].
Qed.

Lemma main_work_ok : work_ok main_work.
Proof.
  split; [|done]. apply (is256_value _ ((2 ^ 256 - 1 - 0) / 2 ^ 20)). apply is256_shr; [lia|]. apply is256_not, is256_small. lia.
Qed.

Definition early_work : WorkParams := mkWorkParams (ProofOfWorkLimit main_work) true 10 60.

Lemma next_work_required_witness :
  exists c y w, GetNextWorkRequired early_work (minute_chain 26) (Some 26%positive) = Ret c /\ SetCompact c = (y, false, false) /\
    is256 y w /\ 0 < w <= stake_limit.
Proof.
  destruct (next_work_required early_work (minute_chain 26) 26 (default (sample_entry 0) (minute_chain 26 !! 26%positive)))
    as (c & y & w & E1 & E2 & E3 & E4).
  - split; [exact (wo_limit _ main_work_ok) | done].
  - apply linkedb_ok. apply (bool_decide_eq_true_1 _). vm_compute. reflexivity.
  - intros p b Hb. assert (Hall : Forall (fun pb : ptr * CBlockIndex => 0 <= bi_nBits pb.2 < 2 ^ 32 /\ 0 <= bi_nTime pb.2 < 2 ^ 32)
      (map_to_list (minute_chain 26))) by (apply (bool_decide_eq_true_1 _); vm_compute; reflexivity).
    exact (proj1 (Forall_forall _ _) Hall (p, b) (proj2 (elem_of_map_to_list _ _ _) Hb)).
  - vm_compute. reflexivity.
  - reflexivity.
  - replace (_ && _) with true in E4 by (vm_compute; reflexivity). destruct E4 as (prev & _ & Hw & _).
    exists c, y, w. split; [exact E1|]. split; [exact E2|]. split; [exact E3 | exact Hw].
Defined.

Lemma block_work_witness : exists x w, GetBlockProof 0x1d00ffff = Ret x /\ is256 x w /\ w = 2 ^ 256 / (0xffff * 256 ^ 26 + 1).
Proof.
  assert (Hz : is256 (of_uint64 8 0) 0) by (apply is256_small; lia).
  destruct (proj2 (block_work main_work 0x1d00ffff _ 0 main_work_ok ltac:(lia) Hz)) as (x & w & E & Hx & Hv & _).
  exists x, w. split; [exact E|]. split; [exact Hx|]. rewrite Hv; [vm_compute; reflexivity|].
  split; [split; vm_compute; reflexivity | reflexivity].
Defined.
