(* ===== verification/StakeModifier.v ===== *)
(** * Stake modifiers: [kernel.cpp], [StakeModifierIntervalHelpers.h],
    [PoSStakeModifierService.cpp], [LegacyPoSStakeModifierService.cpp]

    A stake modifier collects one bit from each of up to 64 recent blocks.  It is
    recomputed when a minute has passed and carried on otherwise; the services
    look up the modifier that a proof of stake has to use.  [mapBlockIndex] maps
    block hashes to index entries. *)

From Stdlib Require Import ZArith Lia Bool Sorted.
From stdpp Require Import base option numbers list gmap.
From S2P Require Import Prelude BaseUInt UInt256 Serialize CryptoCommon BlockHasher Sha256 Hashes Transaction BlockIndex Chain Subsidy Lottery.

Open Scope Z_scope.
Open Scope outcome_scope.

Abbreviation BlockMap := (gmap (list Z) positive).

Definition MODIFIER_INTERVAL_RATIO : Z := 3.
Definition MODIFIER_INTERVAL : Z := 60.

Definition GetStakeModifierSelectionIntervalSection (nSection : Z) : io Z :=
  oassert ((nSection >=? 0) && (nSection <? 64)) ;;;
  Ret (Z.quot (MODIFIER_INTERVAL * 63) (63 + (63 - nSection) * (MODIFIER_INTERVAL_RATIO - 1))).

Fixpoint selection_interval (sections : list Z) (nSelectionInterval : Z) : io Z :=
  match sections with
  | [] => Ret nSelectionInterval
  | n :: sections =>
      let* s := GetStakeModifierSelectionIntervalSection n in selection_interval sections (nSelectionInterval + s)
  end.

Definition GetStakeModifierSelectionInterval : io Z := selection_interval (seqZ 0 64) 0.

(** [Hash(ss.begin(), ss.end())] of a hash and a 64-bit number. *)
Definition hash_with (h : list Z) (n : Z) : list Z :=
  of_bytes (Hash [Serialize uint256_codec h ++ Serialize (uint_codec 8) n]).

(** The same through a [CHashWriter]. *)
Definition writer_hash (h : list Z) (n : Z) : list Z :=
  of_bytes (CHashWriter_GetHash (CHashWriter_write (CHashWriter_write (CHashWriter_new SER_GETHASH 0) (Serialize uint256_codec h))
    (Serialize (uint_codec 8) n))).

(** Pairs of time and hash, by time and then by hash. *)
Definition timestamp_lt (a b : Z * list Z) : bool :=
  (a.1 <? b.1) || ((a.1 =? b.1) && (CompareTo a.2 b.2 <? 0)).

(** [StakingData] *)
Record StakingData := mkStakingData {
  nBits_ : Z;
  blockTimeOfFirstConfirmationBlock_ : Z;
  blockHashOfFirstConfirmationBlock_ : list Z;
  utxoBeingStaked_ : COutPoint;
  utxoValue_ : CAmount;
  blockHashOfChainTipBlock_ : list Z
}.

Section Kernel.
Variable heap : index_heap.
Variable mapBlockIndex : BlockMap.
(** [uint64_t("stakemodifier")], the address of the string literal. *)
Variable stakemodifier_literal : Z.

(** [while (pindex && pindex->pprev && !pindex->GeneratedStakeModifier())] *)
Fixpoint last_generated (fuel : nat) (pindex : option ptr) : io (option ptr) :=
  match pindex with
  | None => Ret None
  | Some _ =>
      let* b := deref heap pindex in
      match pprev b with
      | Some _ =>
          if GeneratedStakeModifier b then Ret pindex
          else match fuel with O => Undef | S fuel => last_generated fuel (pprev b) end
      | None => Ret pindex
      end
  end.

Definition GetLastBlockIndexWithGeneratedStakeModifier (pindex : option ptr) : io (option ptr) :=
  match pindex with
  | None => Ret None
  | Some _ => let* b := deref heap pindex in last_generated (Z.to_nat (nHeight b)) pindex
  end.

(** The selection hash of a candidate. *)
Definition selection_hash (b : CBlockIndex) (nStakeModifierPrev : Z) : list Z :=
  let hashProof := if index_IsProofOfStake b then of_uint64 8 0 else GetBlockHash b in
  let hashSelection := hash_with hashProof nStakeModifierPrev in
  if index_IsProofOfStake b then op_shr hashSelection 32 else hashSelection.

(** The loop of [SelectBlockFromCandidates]; [best] holds [hashBest] and
    [*pindexSelected] once [fSelected] is set, and [None] is the error return. *)
Fixpoint select_loop (candidates : list (Z * list Z)) (mapSelectedBlocks : gmap (list Z) positive) (nSelectionIntervalStop nStakeModifierPrev : Z)
    (best : option (list Z * ptr)) : io (option (option (list Z * ptr))) :=
  match candidates with
  | [] => Ret (Some best)
  | item :: candidates =>
      match mapBlockIndex !! item.2 with
      | None => Ret None
      | Some p =>
          let* b := deref heap (Some p) in
          if match best with Some _ => true | None => false end && (GetBlockTime b >? nSelectionIntervalStop) then Ret (Some best)
          else if bool_decide (is_Some (mapSelectedBlocks !! (GetBlockHash b : list Z)))
          then select_loop candidates mapSelectedBlocks nSelectionIntervalStop nStakeModifierPrev best
          else
            let hashSelection := selection_hash b nStakeModifierPrev in
            let best :=
              match best with
              | Some (hashBest, q) => if CompareTo hashSelection hashBest <? 0 then Some (hashSelection, p) else Some (hashBest, q)
              | None => Some (hashSelection, p)
              end in
            select_loop candidates mapSelectedBlocks nSelectionIntervalStop nStakeModifierPrev best
      end
  end.

(** The selected entry, or [None] when [false] is returned. *)
Definition SelectBlockFromCandidates (vSortedByTimestamp : list (Z * list Z)) (mapSelectedBlocks : gmap (list Z) positive)
    (nSelectionIntervalStop nStakeModifierPrev : Z) : io (option ptr) :=
  let* r := select_loop vSortedByTimestamp mapSelectedBlocks nSelectionIntervalStop nStakeModifierPrev None in
  Ret (match r with Some (Some (_, p)) => Some p | _ => None end).

(** [while (pindex && pindex->GetBlockTime() >= nSelectionIntervalStart)], in the
    order of [push_back]. *)
Fixpoint recent_blocks (fuel : nat) (pindex : option ptr) (nSelectionIntervalStart : Z) : io (list (Z * list Z)) :=
  match pindex with
  | None => Ret []
  | Some _ =>
      let* b := deref heap pindex in
      if GetBlockTime b >=? nSelectionIntervalStart then
        match fuel with
        | O => Undef
        | S fuel =>
            let* rest := recent_blocks fuel (pprev b) nSelectionIntervalStart in
            Ret ((GetBlockTime b, GetBlockHash b) :: rest)
        end
      else Ret []
  end.

(** The candidates and [nSelectionIntervalStop]. *)
Definition GetRecentBlocksSortedByIncreasingTimestamp (pindexPrev : option ptr) : io (list (Z * list Z) * Z) :=
  let* nSelectionInterval := GetStakeModifierSelectionInterval in
  let* b := deref heap pindexPrev in
  let nSelectionIntervalStart := Z.quot (GetBlockTime b) MODIFIER_INTERVAL * MODIFIER_INTERVAL - nSelectionInterval in
  let* l := recent_blocks (S (Z.to_nat (nHeight b))) pindexPrev nSelectionIntervalStart in
  Ret (stable_sort timestamp_lt (rev l), nSelectionIntervalStart).

(** The rounds from [nRound] on, [None] when no block can be selected. *)
Fixpoint selection_rounds (rounds : nat) (nRound : Z) (vSortedByTimestamp : list (Z * list Z)) (mapSelectedBlocks : gmap (list Z) positive)
    (nSelectionIntervalStop nStakeModifier nStakeModifierNew : Z) : io (option Z) :=
  match rounds with
  | O => Ret (Some nStakeModifierNew)
  | S rounds =>
      let* section := GetStakeModifierSelectionIntervalSection nRound in
      let nSelectionIntervalStop := nSelectionIntervalStop + section in
      let* selected := SelectBlockFromCandidates vSortedByTimestamp mapSelectedBlocks nSelectionIntervalStop nStakeModifier in
      match selected with
      | None => Ret None
      | Some p =>
          let* b := deref heap (Some p) in
          selection_rounds rounds (nRound + 1) vSortedByTimestamp (<[(GetBlockHash b : list Z) := p]> mapSelectedBlocks) nSelectionIntervalStop nStakeModifier
            (Z.lor nStakeModifierNew (u64 (Z.shiftl (GetStakeEntropyBit b) nRound)))
      end
  end.

(** The result, [nStakeModifier] and [fGeneratedStakeModifier]. *)
Definition ComputeNextStakeModifier (pindexPrev : option ptr) : io (bool * Z * bool) :=
  match pindexPrev with
  | None => Ret (true, 0, true)
  | Some p =>
      let* prev := deref heap (Some p) in
      if nHeight prev =? 0 then Ret (true, stakemodifier_literal, true)
      else
        let* last := GetLastBlockIndexWithGeneratedStakeModifier (Some p) in
        match last with
        | None => Ret (false, 0, false)
        | Some l =>
            let* lb := deref heap (Some l) in
            if negb (GeneratedStakeModifier lb) then Ret (false, 0, false)
            else if Z.quot (GetBlockTime lb) MODIFIER_INTERVAL >=? Z.quot (GetBlockTime prev) MODIFIER_INTERVAL
            then Ret (true, nStakeModifier lb, false)
            else
              let* '(vSortedByTimestamp, nSelectionIntervalStop) := GetRecentBlocksSortedByIncreasingTimestamp (Some p) in
              let* new := selection_rounds (Nat.min 64 (length vSortedByTimestamp)) 0 vSortedByTimestamp ∅ nSelectionIntervalStop (nStakeModifier lb) 0 in
              match new with
              | None => Ret (false, nStakeModifier lb, false)
              | Some nStakeModifierNew =>
                  Ret (true, if IsActive (bi_nTime prev) HardenedStakeModifier
                             then GetLow64 (writer_hash (GetBlockHash prev) nStakeModifierNew) else nStakeModifierNew, true)
              end
        end
  end.

(** [GetStakeModifierChecksum], from the checksum of the previous block (absent
    for the genesis block), and [hashProofOfStake]. *)
Definition GetStakeModifierChecksum (prevChecksum : option Z) (hashProofOfStake : list Z) (b : CBlockIndex) : Z :=
  let bytes := match prevChecksum with Some c => Serialize (uint_codec 4) c | None => [] end ++
    Serialize (uint_codec 4) (nFlags b) ++ Serialize uint256_codec hashProofOfStake ++ Serialize (uint_codec 8) (nStakeModifier b) in
  u32 (GetLow64 (op_shr (of_bytes (Hash [bytes])) (256 - 32))).

(** [SetStakeModifiersForNewBlockIndex]: failures are only logged. *)
Definition SetStakeModifiersForNewBlockIndex (pindexNew : CBlockIndex) : io CBlockIndex :=
  let* '(_, nStakeModifier, fGeneratedStakeModifier) := ComputeNextStakeModifier (pprev pindexNew) in
  Ret (SetStakeModifier pindexNew nStakeModifier fGeneratedStakeModifier).

(** ** The services *)

(** [while (nominalChainTip && !nominalChainTip->GeneratedStakeModifier())] *)
Fixpoint walk_generated (fuel : nat) (pindex : option ptr) : io (option ptr) :=
  match pindex with
  | None => Ret None
  | Some _ =>
      let* b := deref heap pindex in
      if GeneratedStakeModifier b then Ret pindex
      else match fuel with O => Undef | S fuel => walk_generated fuel (pprev b) end
  end.

Variable activeChain : CChain.

(** The loop of [GetKernelStakeModifier]. *)
Fixpoint kernel_loop (fuel : nat) (fromTime selected window : Z) (pindex : CBlockIndex) (pindexNext : option ptr) : io Z :=
  if selected <? fromTime + window then
    match pindexNext with
    | None => Ret (if GeneratedStakeModifier pindex then nStakeModifier pindex else 0)
    | Some _ =>
        match fuel with
        | O => Undef
        | S fuel =>
            let* b := deref heap pindexNext in
            kernel_loop fuel fromTime (if GeneratedStakeModifier b then GetBlockTime b else selected) window b
              (chain_at activeChain (nHeight b + 1))
        end
    end
  else Ret (nStakeModifier pindex).

Definition GetKernelStakeModifier (hashBlockFrom : list Z) : io Z :=
  let* p := oaccess (mapBlockIndex !! hashBlockFrom) in
  let* from := deref heap (Some p) in
  let* window := GetStakeModifierSelectionInterval in
  kernel_loop (length activeChain) (GetBlockTime from) (GetBlockTime from) window from (chain_at activeChain (nHeight from + 1)).

Definition Legacy_getStakeModifier (d : StakingData) : io (Z * bool) :=
  match mapBlockIndex !! blockHashOfFirstConfirmationBlock_ d with
  | None => Ret (0, false)
  | Some _ => let* m := GetKernelStakeModifier (blockHashOfFirstConfirmationBlock_ d) in Ret (m, true)
  end.

Definition getStakeModifier (d : StakingData) : io (Z * bool) :=
  match mapBlockIndex !! blockHashOfChainTipBlock_ d with
  | None => Ret (0, false)
  | Some p =>
      let* tip := deref heap (Some p) in
      if IsActive (bi_nTime tip) HardenedStakeModifier then
        let* r := walk_generated (S (Z.to_nat (nHeight tip))) (Some p) in
        match r with
        | None => Ret (0, false)
        | Some q => let* b := deref heap (Some q) in Ret (if GeneratedStakeModifier b then (nStakeModifier b, true) else (0, false))
        end
      else Legacy_getStakeModifier d
  end.
End Kernel.

(** ** Adding a block to the index *)

(** [CBlockIndex(block)] *)
Definition CBlockIndex_of (hash : list Z) (nTime nBits : Z) (vtx : list CTransaction) : CBlockIndex :=
  let b := mkIndex hash None None 0 0 0 0 nTime nBits LotteryCoinstakeData_empty in
  if IsProofOfStake vtx then SetProofOfStake b else b.

Section AddBlock.
Variable params : RewardParams.
Variable sporks : SporkState.
Variable stakemodifier_literal : Z.
Variable activeChain : CChain.

(** [AddToBlockIndex], with the address [pindexNew] of the new object.  The sums of
    work and trust, [pnext], [hashProofOfStake] and the bookkeeping of the best header
    and of changed entries are left out. *)
Definition AddToBlockIndex (heap : index_heap) (mapBlockIndex : BlockMap) (pindexNew : ptr) (hash hashPrevBlock : list Z) (nTime nBits : Z)
    (vtx : list CTransaction) : io (index_heap * BlockMap * ptr) :=
  match mapBlockIndex !! hash with
  | Some p => Ret (heap, mapBlockIndex, p)
  | None =>
      let b := CBlockIndex_of hash nTime nBits vtx in
      let heap := <[pindexNew := b]> heap in
      let mapBlockIndex := <[hash := pindexNew]> mapBlockIndex in
      let* b :=
        match mapBlockIndex !! hashPrevBlock with
        | None => Ret b
        | Some q =>
            let* b := link_new heap b q in
            let '(b, _) := SetStakeEntropyBit b (GetStakeEntropyBit b) in
            SetStakeModifiersForNewBlockIndex heap mapBlockIndex stakemodifier_literal b
        end in
      let* '(b, _) := RaiseValidity b BLOCK_VALID_TREE in
      let* b := UpdateBlockIndexLotteryWinners params sporks (GetLotteryBlockStartBlock params) heap activeChain vtx b in
      Ret (<[pindexNew := b]> heap, mapBlockIndex, pindexNew)
  end.
End AddBlock.

(** ** Selecting candidates *)

Lemma insert_after_perm_any {A} (comp : A -> A -> bool) x l : insert_after comp x l ≡ₚ x :: l.
Proof.
  induction l as [|y l IH]; cbn; [done|]. destruct (comp x y); [done|]. rewrite IH. apply Permutation_swap.
Qed.

Lemma stable_sort_perm_any {A} (comp : A -> A -> bool) l : stable_sort comp l ≡ₚ l.
Proof.
  induction l as [|x l IH] using rev_ind; [done|]. unfold stable_sort. rewrite fold_left_app. cbn [fold_left].
  rewrite insert_after_perm_any. fold (stable_sort comp l). rewrite IH. apply Permutation_cons_append.
Qed.

Abbreviation by_time := (StronglySorted (fun a b : Z * list Z => a.1 <= b.1)).

Lemma insert_by_time x l : by_time l -> by_time (insert_after timestamp_lt x l).
Proof.
  induction 1 as [|y l Hl IH Hy]; cbn; [by repeat constructor|]. unfold timestamp_lt at 1. rewrite Forall_forall in Hy.
  destruct (Z.ltb_spec x.1 y.1); cbn [orb]; [|destruct (Z.eqb_spec x.1 y.1); cbn [andb]; [destruct (CompareTo x.2 y.2 <? 0)|]].
  1, 2: constructor; [constructor; [done | by apply Forall_forall] | constructor; [lia|]; apply Forall_forall; intros z Hz; specialize (Hy z Hz); lia].
  all: constructor; [done|]; apply Forall_forall; intros z Hz; rewrite (insert_after_perm_any timestamp_lt x l) in Hz;
    apply elem_of_cons in Hz as [->|Hz]; [lia | by apply Hy].
Qed.

Lemma sorted_by_time l : by_time (stable_sort timestamp_lt l).
Proof.
  induction l as [|x l IH] using rev_ind; [constructor|]. unfold stable_sort. rewrite fold_left_app. cbn [fold_left]. by apply insert_by_time.
Qed.

Section Selection.
Variable heap : index_heap.
Variable mapBlockIndex : BlockMap.

(** The map knows exactly the entries of the heap. *)
Definition map_ok : Prop := forall h p, mapBlockIndex !! h = Some p <-> exists b, heap !! p = Some b /\ phashBlock b = h.

Definition known (item : Z * list Z) (p : ptr) (b : CBlockIndex) : Prop :=
  mapBlockIndex !! item.2 = Some p /\ heap !! p = Some b /\ GetBlockHash b = item.2 /\ GetBlockTime b = item.1.

Abbreviation all_known := (Forall (fun item => exists p b, known item p b)).

(** The number a candidate is chosen by. *)
Definition selection_value (prev : Z) (b : CBlockIndex) : Z := value (selection_hash b prev).

(** The double hash as a number. *)
Lemma hash_limbs chunks : wf (of_bytes (Hash chunks)) /\ length (of_bytes (Hash chunks)) = 8%nat.
Proof.
  edestruct (of_bytes_spec 8) as (? & ? & _); [| |split; eassumption].
  - unfold Hash, CHash256_Finalize, CSHA256_Finalize. rewrite !bytes_ok_app. repeat split; apply WriteBE32_bytes.
  - reflexivity.
Qed.

Lemma selection_wf prev b : wf (selection_hash b prev) /\ length (selection_hash b prev) = 8%nat.
Proof.
  unfold selection_hash. set (h := hash_with _ _).
  assert (Hh : wf h /\ length h = 8%nat) by apply hash_limbs.
  destruct (index_IsProofOfStake b); [|done]. destruct (op_shr_shape h 32 ltac:(lia) (proj1 Hh)) as [? ?]. split; [done | by rewrite <-(proj2 Hh)].
Qed.

Lemma selection_less prev b c : (CompareTo (selection_hash b prev) (selection_hash c prev) <? 0) = (selection_value prev b <? selection_value prev c).
Proof.
  destruct (selection_wf prev b) as [? ?], (selection_wf prev c) as [? ?]. rewrite CompareTo_spec by (done || congruence).
  unfold selection_value. destruct (Z.compare_spec (value (selection_hash b prev)) (value (selection_hash c prev)));
    destruct (Z.ltb_spec (value (selection_hash b prev)) (value (selection_hash c prev))); try done; lia.
Qed.

(** The best candidate so far. *)
Definition best_of (prev : Z) (best : option (CBlockIndex * ptr)) : option (list Z * ptr) :=
  match best with Some (b, p) => Some (selection_hash b prev, p) | None => None end.

(** Of the candidates not selected before and within the time limit, the one with
    the least hash is taken; beyond the limit only when there is no other. *)
Lemma select_loop_spec selected stop prev cands : all_known cands -> by_time cands -> forall best,
  exists r, select_loop heap mapBlockIndex cands selected stop prev (best_of prev best) = Ret (Some (best_of prev r)) /\
    (r = None -> best = None /\ Forall (fun item => is_Some (selected !! item.2)) cands) /\
    (r = best \/ exists item p b, r = Some (b, p) /\ item ∈ cands /\ known item p b /\ selected !! item.2 = None) /\
    (forall b p, r = Some (b, p) ->
       (forall c q, best = Some (c, q) -> selection_value prev b <= selection_value prev c) /\
       (forall item q c, item ∈ cands -> known item q c -> selected !! item.2 = None -> item.1 <= stop ->
          selection_value prev b <= selection_value prev c)).
Proof.
  intros Hk Hs. induction Hs as [|item cands Hs IH Hle]; intros best.
  { exists best. cbn. split; [done|]. split; [done|]. split; [by left|]. intros b p ->. split; [by intros c q [= -> ->]|]. by intros ? ? ? ?%not_elem_of_nil. }
  apply Forall_cons in Hk as [(p & b & Hm & Hb & Hh & Ht) Hk]. specialize (IH Hk). cbn [select_loop]. rewrite Hm.
  cbn [deref oaccess obind]. rewrite Hb. cbn [oaccess obind]. rewrite Ht, Hh.
  assert (Hknown : forall q c, known item q c -> q = p /\ c = b) by (intros q c (Hm' & Hc' & _); split; congruence).
  destruct (match best_of prev best with Some _ => true | None => false end && (item.1 >? stop)) eqn:Estop.
  { destruct best as [[c q]|]; [|done]. cbn in Estop. rewrite Z.gtb_ltb, Z.ltb_lt in Estop. exists (Some (c, q)). split; [done|]. split; [done|]. split; [by left|].
    intros b0 p0 [= -> ->]. split; [by intros ? ? [= -> ->]|]. intros it q0 c0 [->|Hin]%elem_of_cons _ _ Hit; [lia|].
    rewrite Forall_forall in Hle. specialize (Hle it Hin). lia. }
  case_bool_decide as Hsel.
  - destruct (IH best) as (r & E & Hn & Hor & Hmin). exists r. split; [done|]. split; [|split].
    + intros Hr. destruct (Hn Hr) as [? ?]. split; [done|]. by constructor.
    + destruct Hor as [?|(it & p1 & b1 & ? & ? & ?)]; [by left|]. right. exists it, p1, b1. split; [done|]. split; [by right | done].
    + intros b1 p1 Hr. destruct (Hmin b1 p1 Hr) as [H1 H2]. split; [done|].
      intros it q c [->|Hin]%elem_of_cons Hkn Hno Hit; [destruct Hsel as [? Hsel]; congruence | by apply (H2 it q c)].
  - apply eq_None_not_Some in Hsel. set (best' := match best with Some (c, q) => if selection_value prev b <? selection_value prev c then Some (b, p) else best | None => Some (b, p) end).
    assert (Ebest : match best_of prev best with
      | Some (hashBest, q) => if CompareTo (selection_hash b prev) hashBest <? 0 then Some (selection_hash b prev, p) else Some (hashBest, q)
      | None => Some (selection_hash b prev, p) end = best_of prev best').
    { unfold best'. destruct best as [[c q]|]; [|done]. cbn [best_of]. rewrite selection_less. by destruct (_ <? _). }
    rewrite Ebest. destruct (IH best') as (r & E & Hn & Hor & Hmin). exists r. split; [done|].
    assert (Hb' : exists c q, best' = Some (c, q) /\ selection_value prev c <= selection_value prev b /\ (forall c0 q0, best = Some (c0, q0) -> selection_value prev c <= selection_value prev c0)
      /\ (best' = best \/ c = b /\ q = p)).
    { unfold best'. destruct best as [[c q]|]; [destruct (Z.ltb_spec (selection_value prev b) (selection_value prev c))|].
      - exists b, p. repeat split; [lia | intros ? ? [= <- <-]; lia | by right].
      - exists c, q. repeat split; [lia | by intros ? ? [= <- <-] | by left].
      - exists b, p. repeat split; [lia | done | by right]. }
    destruct Hb' as (c & q & Eb' & Hcb & Hc0 & Hwho). split; [|split].
    + intros Hr. destruct (Hn Hr) as [Hbad _]. congruence.
    + destruct Hor as [->|(it & p1 & b1 & ? & ? & ?)]; [|right; exists it, p1, b1; split; [done|]; split; [by right | done]].
      destruct Hwho as [->|[-> ->]]; [by left|]. right. exists item, p, b. split; [done|]. split; [by left|]. by split.
    + intros b1 p1 Hr. destruct (Hmin b1 p1 Hr) as [H1 H2]. specialize (H1 c q Eb'). split; [intros c0 q0 Hb0; specialize (Hc0 c0 q0 Hb0); lia|].
      intros it q0 c1 [->|Hin]%elem_of_cons Hkn Hno Hit; [destruct (Hknown q0 c1 Hkn) as [-> ->]; lia | by apply (H2 it q0 c1)].
Qed.
End Selection.

Section Compute.
Variable heap : index_heap.
Variable mapBlockIndex : BlockMap.
Hypothesis Hok : index_ok heap.
Hypothesis Hmap : map_ok heap mapBlockIndex.

Abbreviation known_at item k := (exists p b, known heap mapBlockIndex item p b /\ nHeight b <= k).

Lemma entry_known p b : heap !! p = Some b -> known heap mapBlockIndex (GetBlockTime b, GetBlockHash b) p b.
Proof. intros Hb. split; [|done]. cbn. apply Hmap. by exists b. Qed.

Lemma recent_spec start fuel : forall p b, heap !! p = Some b -> nHeight b < Z.of_nat fuel ->
  exists l, recent_blocks heap fuel (Some p) start = Ret l /\ NoDup l.*2 /\ Forall (fun item => known_at item (nHeight b)) l.
Proof.
  induction fuel as [|fuel IH]; intros p b Hb Hf; [pose proof (li_height _ _ _ (Hok p b Hb)); lia|].
  cbn [recent_blocks deref oaccess obind]. rewrite Hb. cbn [oaccess obind].
  destruct (_ >=? _); [|exists []; split; [done|]; split; constructor].
  assert (exists l, recent_blocks heap fuel (pprev b) start = Ret l /\ NoDup l.*2 /\ Forall (fun item => known_at item (nHeight b - 1)) l) as (l & -> & Hn & Hl).
  { pose proof (li_prev _ _ _ (Hok p b Hb)) as Hp. destruct (pprev b) as [q|].
    - destruct Hp as (c & Hc & Hh). destruct (IH q c Hc ltac:(lia)) as (l & E & Hn & Hl). exists l. rewrite Hh in Hl. done.
    - exists []. split; [by destruct fuel|]. split; constructor. }
  cbn [obind]. eexists. split; [done|]. split.
  - cbn. constructor; [|done]. intros (item & Eh & Hin)%list_elem_of_fmap_1. rewrite Forall_forall in Hl.
    destruct (Hl item Hin) as (q & c & (Hm & Hc & _) & Hle). rewrite <-Eh in Hm.
    destruct (entry_known p b Hb) as (Hm' & _). cbn in Hm'. assert (q = p) as -> by congruence. assert (c = b) as -> by congruence. lia.
  - constructor; [exists p, b; split; [by apply entry_known | lia]|].
    eapply Forall_impl; [exact Hl|]. intros item (q & c & Hk & Hle). exists q, c. split; [done | lia].
Qed.

Lemma section_returns n : 0 <= n < 64 -> exists s, GetStakeModifierSelectionIntervalSection n = Ret s.
Proof.
  intros Hn. unfold GetStakeModifierSelectionIntervalSection.
  rewrite Z.geb_leb, (proj2 (Z.leb_le 0 n)), (proj2 (Z.ltb_lt n 64)) by lia.
  by eexists.
Qed.

(** There is always a candidate left. *)
Lemma rounds_spec cands prev : Forall (fun item => exists p b, known heap mapBlockIndex item p b) cands -> by_time cands -> NoDup cands.*2 ->
  forall rounds n selected stop new, 0 <= n -> n + Z.of_nat rounds <= 64 ->
    (size selected + rounds <= length cands)%nat -> (forall h, is_Some (selected !! h) -> h ∈ cands.*2) ->
  exists m, selection_rounds heap mapBlockIndex rounds n cands selected stop prev new = Ret (Some m).
Proof.
  intros Hk Hs Hnd. induction rounds as [|rounds IH]; intros n selected stop new Hn Hr Hsize Hsub; cbn [selection_rounds]; [by eexists|].
  destruct (section_returns n ltac:(lia)) as (s & ->). cbn [obind]. unfold SelectBlockFromCandidates.
  destruct (select_loop_spec heap mapBlockIndex selected (stop + s) prev cands Hk Hs None) as (r & E & Hnone & Hor & _).
  cbn [best_of] in E. rewrite E. cbn [obind]. destruct r as [[b p]|]; cbn [best_of].
  - destruct Hor as [?|(item & p1 & b1 & [= -> ->] & Hin & (Hm & Hb & Hh & _) & Hno)]; [done|].
    cbn [deref oaccess obind]. rewrite Hb. cbn [oaccess obind]. rewrite Hh. apply IH; [lia | lia | |].
    + rewrite map_size_insert_None by done. lia.
    + intros h [<-|[Hne Hsome]]%lookup_insert_is_Some; [by apply list_elem_of_fmap_2 | by apply Hsub].
  - exfalso. destruct (Hnone eq_refl) as [_ Hall]. rewrite Forall_forall in Hall.
    assert (length cands.*2 <= size selected)%nat; [|rewrite length_fmap in *; lia].
    rewrite <-size_dom. rewrite <-(size_list_to_set (C := gset (list Z)) cands.*2) by done. apply subseteq_size.
    intros h Hh. apply elem_of_list_to_set in Hh. apply list_elem_of_fmap_1 in Hh as (item & -> & Hin). apply elem_of_dom. by apply Hall.
Qed.

(** The modifier a block stands for: its own if it generated one, else that of the
    block before. *)
Inductive carries : ptr -> Z -> Prop :=
| carries_here p b : heap !! p = Some b -> GeneratedStakeModifier b = true -> carries p (nStakeModifier b)
| carries_prev p b q m : heap !! p = Some b -> GeneratedStakeModifier b = false -> pprev b = Some q -> carries q m -> carries p m.

Lemma carries_walk p m : carries p m -> forall fuel b, heap !! p = Some b -> nHeight b <= Z.of_nat fuel ->
  exists q c, heap !! q = Some c /\ GeneratedStakeModifier c = true /\ nStakeModifier c = m /\
    last_generated heap fuel (Some p) = Ret (Some q) /\ walk_generated heap (S fuel) (Some p) = Ret (Some q).
Proof.
  induction 1 as [p b Hb Hg|p b q m Hb Hg Hq Hm IH]; intros fuel b' Hb' Hf; assert (b' = b) as -> by congruence.
  - exists p, b. split; [done|]. split; [done|]. split; [done|].
    destruct fuel; cbn [last_generated walk_generated deref oaccess obind]; rewrite Hb; cbn [oaccess obind]; rewrite Hg; (split; [by destruct (pprev b) | done]).
  - pose proof (li_prev _ _ _ (Hok p b Hb)) as Hp. rewrite Hq in Hp. destruct Hp as (c & Hc & Hh).
    pose proof (li_height _ _ _ (Hok q c Hc)). destruct fuel as [|fuel]; [lia|].
    destruct (IH fuel c Hc ltac:(lia)) as (r & d & Hd & Hgd & Hmd & E1 & E2). exists r, d. split; [done|]. split; [done|]. split; [done|]. split.
    + cbn [last_generated deref oaccess obind]. rewrite Hb. cbn [oaccess obind]. by rewrite Hq, Hg.
    + cbn [walk_generated deref oaccess obind]. rewrite Hb. cbn [oaccess obind]. rewrite Hg, Hq. exact E2.
Qed.

Lemma interval_returns : exists n, GetStakeModifierSelectionInterval = Ret n.
Proof. eexists. vm_compute. reflexivity. Qed.

Lemma recent_sorted p b : heap !! p = Some b ->
  exists l stop, GetRecentBlocksSortedByIncreasingTimestamp heap (Some p) = Ret (l, stop) /\ by_time l /\ NoDup l.*2 /\
    Forall (fun item => exists q c, known heap mapBlockIndex item q c) l.
Proof.
  intros Hb. unfold GetRecentBlocksSortedByIncreasingTimestamp. destruct interval_returns as (n & ->).
  cbn [deref oaccess obind]. rewrite Hb. cbn [oaccess obind].
  destruct (recent_spec (Z.quot (GetBlockTime b) MODIFIER_INTERVAL * MODIFIER_INTERVAL - n) (S (Z.to_nat (nHeight b))) p b Hb) as (l & -> & Hn & Hl).
  { pose proof (li_height _ _ _ (Hok p b Hb)). lia. }
  cbn [obind]. assert (Hperm : stable_sort timestamp_lt (rev l) ≡ₚ l).
  { rewrite stable_sort_perm_any. symmetry. apply Permutation_rev. }
  eexists _, _. split; [done|]. split; [apply sorted_by_time|]. split; [by rewrite Hperm|]. rewrite Hperm.
  eapply Forall_impl; [exact Hl|]. intros item (q & c & Hk & _). by exists q, c.
Qed.

(** The error returns are not reached: a new modifier is generated, or the one
    carried by the previous block goes on. *)
Lemma compute_spec literal p b m : heap !! p = Some b -> (nHeight b <> 0 -> carries p m) ->
  exists m' gen, ComputeNextStakeModifier heap mapBlockIndex literal (Some p) = Ret (true, m', gen) /\
    (gen = false -> nHeight b <> 0 /\ m' = m).
Proof.
  intros Hb Hc. unfold ComputeNextStakeModifier. cbn [deref oaccess obind]. rewrite Hb. cbn [oaccess obind].
  destruct (Z.eqb_spec (nHeight b) 0) as [E0|Hne]; [by exists literal, true|]. specialize (Hc Hne).
  unfold GetLastBlockIndexWithGeneratedStakeModifier. cbn [deref oaccess obind]. rewrite Hb. cbn [oaccess obind].
  pose proof (li_height _ _ _ (Hok p b Hb)).
  destruct (carries_walk p m Hc (Z.to_nat (nHeight b)) b Hb ltac:(lia)) as (q & c & Hq & Hg & Hm & -> & _).
  cbn [deref oaccess obind]. rewrite Hq. cbn [oaccess obind]. rewrite Hg. cbn [negb].
  destruct (_ >=? _); [exists (nStakeModifier c), false; by subst m|].
  destruct (recent_sorted p b Hb) as (l & stop & -> & Hs & Hn & Hk). cbn [obind].
  destruct (rounds_spec l (nStakeModifier c) Hk Hs Hn (Nat.min 64 (length l)) 0 ∅ stop 0) as (new & ->);
    [lia | lia | rewrite map_size_empty; lia | intros h [? Hx]; by rewrite lookup_empty in Hx |].
  cbn [obind]. by eexists _, true.
Qed.

(** With the hardened modifier, the service finds what the tip carries. *)
Lemma service_spec chain d p b m :
  mapBlockIndex !! blockHashOfChainTipBlock_ d = Some p -> heap !! p = Some b -> IsActive (bi_nTime b) HardenedStakeModifier = true ->
  carries p m -> getStakeModifier heap mapBlockIndex chain d = Ret (m, true).
Proof.
  intros Hd Hb Ha Hc. unfold getStakeModifier. rewrite Hd. cbn [deref oaccess obind]. rewrite Hb. cbn [oaccess obind]. rewrite Ha.
  pose proof (li_height _ _ _ (Hok p b Hb)).
  destruct (carries_walk p m Hc (Z.to_nat (nHeight b)) b Hb ltac:(lia)) as (q & c & Hq & Hg & <- & _ & ->).
  cbn [deref oaccess obind]. rewrite Hq. cbn [oaccess obind]. by rewrite Hg.
Qed.
End Compute.

(** ** The block index as it grows *)

Record tree_ok (heap : index_heap) (mapBlockIndex : BlockMap) : Prop := mkTreeOk {
  to_index : index_ok heap;
  to_map : map_ok heap mapBlockIndex;
  to_modifier : forall p b, heap !! p = Some b -> 0 < nHeight b -> carries heap p (nStakeModifier b)
}.

Lemma carries_mono heap p b x m : heap !! p = None -> carries heap x m -> carries (<[p := b]> heap) x m.
Proof.
  intros Hp. induction 1 as [x c Hc Hg|x c q m Hc Hg Hq _ IH].
  - apply carries_here; [|done]. rewrite lookup_insert_ne; [done | congruence].
  - apply (carries_prev _ x c q); [|done..]. rewrite lookup_insert_ne; [done | congruence].
Qed.

Lemma root_insert heap p b : index_ok heap -> heap !! p = None -> pprev b = None -> nHeight b = 0 -> index_ok (<[p := b]> heap).
Proof.
  intros Hok Hp Hprev Hh. apply map_Forall_insert_2.
  - split; [lia | by rewrite Hprev | lia].
  - intros x c Hc. destruct (Hok x c Hc) as [L1 L2 L3]. split; [done | |].
    + destruct (pprev c); [by apply at_height_insert | done].
    + intros Hpos. rewrite (ancestor_insert heap Hok p b Hp x (nHeight c)); [by apply L3 | by exists c].
Qed.

Lemma map_insert_ok heap m p b : map_ok heap m -> heap !! p = None -> m !! (phashBlock b : list Z) = None ->
  map_ok (<[p := b]> heap) (<[(phashBlock b : list Z) := p]> m).
Proof.
  intros Hm Hp Hh h x. destruct (decide (h = phashBlock b)) as [->|Hne].
  - rewrite lookup_insert_eq. split.
    + intros [= <-]. exists b. by rewrite lookup_insert_eq.
    + intros (c & Hc & Eh). destruct (decide (x = p)) as [->|Hx]; [done|]. rewrite lookup_insert_ne in Hc by done.
      assert (m !! (phashBlock b : list Z) = Some x) by (apply Hm; by exists c). congruence.
  - rewrite lookup_insert_ne by done. rewrite (Hm h x). split; intros (c & Hc & Eh); exists c; (split; [|done]).
    + rewrite lookup_insert_ne; [done | congruence].
    + destruct (decide (x = p)) as [->|Hx]; [rewrite lookup_insert_eq in Hc; congruence | by rewrite lookup_insert_ne in Hc].
Qed.

Lemma map_replace_ok heap m p b b' : map_ok (<[p := b]> heap) m -> phashBlock b' = phashBlock b -> map_ok (<[p := b']> heap) m.
Proof.
  intros Hm Eh h x. rewrite (Hm h x). destruct (decide (x = p)) as [->|Hx].
  - rewrite !lookup_insert_eq. split; intros (c & [= <-] & Ec); eexists; (split; [done | congruence]).
  - by rewrite !lookup_insert_ne.
Qed.

(** The later changes of a new entry keep what matters here. *)
Definition same_place (b b' : CBlockIndex) : Prop :=
  phashBlock b' = phashBlock b /\ pprev b' = pprev b /\ pskip b' = pskip b /\ nHeight b' = nHeight b /\
  GeneratedStakeModifier b' = GeneratedStakeModifier b /\ nStakeModifier b' = nStakeModifier b.

Lemma raise_same b n b' c : RaiseValidity b n = Ret (b', c) -> same_place b b'.
Proof.
  unfold RaiseValidity. destruct (valid_level n); cbn [oassert obind]; [|done].
  destruct (negb _); [intros [= <- _]; done|]. destruct (_ <? _); intros [= <- _]; done.
Qed.

Lemma lottery_same params sporks start heap chain vtx b b' :
  UpdateBlockIndexLotteryWinners params sporks start heap chain vtx b = Ret b' -> same_place b b'.
Proof.
  unfold UpdateBlockIndexLotteryWinners. intros E. apply obind_ret_inv in E as (prev & _ & E). apply obind_ret_inv in E as (tx & _ & E).
  apply obind_ret_inv in E as (d & _ & E). by injection E as <-.
Qed.

Lemma same_trans a b c : same_place a b -> same_place b c -> same_place a c.
Proof. intros (? & ? & ? & ? & ? & ?) (? & ? & ? & ? & ? & ?). repeat split; congruence. Qed.

(** A new entry has no modifier flag before its modifier is set. *)
Lemma fresh_flags hash nTime nBits vtx heap q b :
  link_new heap (CBlockIndex_of hash nTime nBits vtx) q = Ret b ->
  GeneratedStakeModifier (SetStakeEntropyBit b (GetStakeEntropyBit b)).1 = false /\ phashBlock b = hash.
Proof.
  intros E. unfold link_new in E. apply obind_ret_inv in E as (a & _ & E). unfold BuildSkip in E. cbn [pprev] in E.
  apply obind_ret_inv in E as (s & _ & E). injection E as <-. split; [|by destruct (IsProofOfStake vtx) eqn:Ei; unfold CBlockIndex_of; rewrite Ei].
  unfold SetStakeEntropyBit, GeneratedStakeModifier, CBlockIndex_of. set (e := GetStakeEntropyBit _).
  destruct (1 <? e); [|destruct (e =? 0)]; destruct (IsProofOfStake vtx); reflexivity.
Qed.

Lemma set_modifier b m gen : GeneratedStakeModifier b = false ->
  GeneratedStakeModifier (SetStakeModifier b m gen) = gen /\ nStakeModifier (SetStakeModifier b m gen) = m /\
  phashBlock (SetStakeModifier b m gen) = phashBlock b /\ pprev (SetStakeModifier b m gen) = pprev b /\
  pskip (SetStakeModifier b m gen) = pskip b /\ nHeight (SetStakeModifier b m gen) = nHeight b.
Proof.
  intros Hf. destruct gen; [|done]. split; [|done]. unfold GeneratedStakeModifier, SetStakeModifier, BLOCK_STAKE_MODIFIER. cbn.
  apply negb_true_iff, Z.eqb_neq. intros E. apply (f_equal (fun z => Z.testbit z 2)) in E.
  rewrite Z.land_spec, Z.lor_spec, Z.bits_0 in E. change (Z.testbit 4 2) with true in E. by rewrite orb_true_r in E.
Qed.

(** Linking a new entry and setting its modifier. *)
Lemma linked_modifier heap m literal p hash nTime nBits vtx q a :
  tree_ok heap m -> heap !! p = None -> m !! hash = None -> heap !! q = Some a ->
  let raw := CBlockIndex_of hash nTime nBits vtx in
  exists b1 b3, link_new (<[p := raw]> heap) raw q = Ret b1 /\
    SetStakeModifiersForNewBlockIndex (<[p := raw]> heap) (<[hash := p]> m) literal (SetStakeEntropyBit b1 (GetStakeEntropyBit b1)).1 = Ret b3 /\
    index_ok (<[p := b3]> heap) /\ phashBlock b3 = hash /\ pprev b3 = Some q /\ nHeight b3 = nHeight a + 1 /\
    (GeneratedStakeModifier b3 = false -> 0 < nHeight a /\ nStakeModifier b3 = nStakeModifier a).
Proof.
  intros [Hok Hm Hc] Hp Hh Hq raw.
  assert (Hraw : phashBlock raw = hash /\ pprev raw = None /\ nHeight raw = 0) by (unfold raw, CBlockIndex_of; by destruct (IsProofOfStake vtx)).
  destruct Hraw as (Hrh & Hrp & Hr0).
  assert (Hok1 : index_ok (<[p := raw]> heap)) by by apply root_insert.
  assert (Hm1 : map_ok (<[p := raw]> heap) (<[hash := p]> m)) by (rewrite <-Hrh in Hh |- *; by apply map_insert_ok).
  assert (Hqp : q <> p) by congruence. assert (Hq1 : <[p := raw]> heap !! q = Some a) by by rewrite lookup_insert_ne.
  destruct (link_new_spec (<[p := raw]> heap) raw q (nHeight a) Hok1) as (b1 & E1 & Hp1 & Hh1 & Hs1); [by exists a|].
  destruct (fresh_flags hash nTime nBits vtx _ q b1 E1) as [Hf1 Hph1].
  set (b2 := (SetStakeEntropyBit b1 (GetStakeEntropyBit b1)).1) in *.
  assert (H2 : phashBlock b2 = phashBlock b1 /\ pprev b2 = pprev b1 /\ pskip b2 = pskip b1 /\ nHeight b2 = nHeight b1).
  { unfold b2, SetStakeEntropyBit. by destruct (1 <? _). }
  destruct H2 as (H21 & H22 & H23 & H24).
  destruct (compute_spec (<[p := raw]> heap) (<[hash := p]> m) Hok1 Hm1 literal q a (nStakeModifier a) Hq1) as (m' & gen & E3 & Hgen).
  { intros Hne. apply carries_mono; [done|]. pose proof (li_height _ _ _ (Hok q a Hq)). apply Hc; [done | lia]. }
  assert (Hq0 : at_height heap q (nHeight a)) by by exists a.
  destruct (set_modifier b2 m' gen Hf1) as (S1 & S2 & S3 & S4 & S5 & S6). exists b1, (SetStakeModifier b2 m' gen). split; [done|].
  split; [fold b2; unfold SetStakeModifiersForNewBlockIndex; rewrite H22, Hp1, E3; done|].
  split; [|split; [congruence|split; [congruence|split; [congruence|]]]].
  - apply (index_insert heap Hok p _ Hp q); [congruence | |].
    + replace (nHeight _ - 1) with (nHeight a) by lia. done.
    + rewrite S5, S6, H23, H24, Hs1, Hh1. by apply (ancestor_insert heap Hok p raw Hp q (nHeight a)).
  - rewrite S1, S2. intros ->. destruct (Hgen eq_refl). pose proof (li_height _ _ _ (Hok q a Hq)). split; [lia | done].
Qed.

Lemma add_ok params sporks literal chain heap m p hash prev nTime nBits vtx heap' m' x :
  tree_ok heap m -> heap !! p = None -> prev <> hash ->
  AddToBlockIndex params sporks literal chain heap m p hash prev nTime nBits vtx = Ret (heap', m', x) -> tree_ok heap' m'.
Proof.
  intros Ht Hp Hne. unfold AddToBlockIndex. destruct (m !! hash) as [y|] eqn:Hh; [by intros [= <- <- _]|].
  set (raw := CBlockIndex_of hash nTime nBits vtx). rewrite lookup_insert_ne by done. intros E.
  apply obind_ret_inv in E as (b & Eb & E). apply obind_ret_inv in E as ([b4 c] & E4 & E). apply obind_ret_inv in E as (e & E5 & E).
  injection E as <- <- _. rewrite insert_insert_eq.
  pose proof (same_trans _ _ _ (raise_same _ _ _ _ E4) (lottery_same _ _ _ _ _ _ _ _ E5)) as (S1 & S2 & S3 & S4 & S5 & S6).
  assert (Hraw : phashBlock raw = hash /\ pprev raw = None /\ nHeight raw = 0) by (unfold raw, CBlockIndex_of; by destruct (IsProofOfStake vtx)).
  destruct Hraw as (Hrh & Hrp & Hr0). destruct Ht as [Hok Hm Hc].
  assert (Hm1 : map_ok (<[p := raw]> heap) (<[hash := p]> m)) by (rewrite <-Hrh in Hh |- *; by apply map_insert_ok).
  destruct (m !! prev) as [q|] eqn:Hq.
  - apply Hm in Hq as (a & Hqa & _).
    destruct (linked_modifier heap m literal p hash nTime nBits vtx q a (mkTreeOk _ _ Hok Hm Hc) Hp Hh Hqa)
      as (b1 & b3 & E1 & E3 & Hok3 & Hph3 & Hp3 & Hh3 & Hg3).
    fold raw in E1, E3. rewrite E1 in Eb. cbn [obind] in Eb. destruct (SetStakeEntropyBit b1 (GetStakeEntropyBit b1)) as [b2 ?].
    cbn [fst] in E3. rewrite E3 in Eb. injection Eb as <-.
    split.
    + apply (index_insert heap Hok p e Hp q); [congruence | replace (nHeight e - 1) with (nHeight a) by lia; by exists a |].
      pose proof (li_skip _ _ _ (Hok3 p b3 (lookup_insert_eq _ _ _))) as Hs. pose proof (li_height _ _ _ (Hok q a Hqa)).
      rewrite S3, S4, Hs by lia. rewrite Hh3. pose proof (GetSkipHeight_bounds (nHeight a + 1) ltac:(lia)).
      rewrite <-(ancestor_insert heap Hok p b3 Hp q (nHeight a)) by by exists a.
      symmetry. apply (ancestor_trans (<[p := b3]> heap) Hok3 p (nHeight a + 1) q (nHeight a)); [by exists b3; rewrite lookup_insert_eq | lia | lia |].
      pose proof (ancestor_prev (<[p := b3]> heap) Hok3 p b3 (lookup_insert_eq _ _ _) ltac:(lia)) as Ha.
      rewrite Hp3 in Ha. by replace (nHeight b3 - 1) with (nHeight a) in Ha by lia.
    + apply (map_replace_ok heap _ p raw e Hm1). congruence.
    + intros y b Hb Hpos. destruct (decide (y = p)) as [->|Hy].
      * rewrite lookup_insert_eq in Hb. injection Hb as <-. destruct (GeneratedStakeModifier e) eqn:Eg.
        -- apply carries_here; [by rewrite lookup_insert_eq | done].
        -- destruct (Hg3 (eq_sym S5)) as [Ha Hsm]. rewrite S6, Hsm. apply (carries_prev _ p e q); [by rewrite lookup_insert_eq | congruence | congruence |].
           apply carries_mono; [done|]. by apply Hc.
      * rewrite lookup_insert_ne in Hb by done. apply carries_mono; [done|]. by apply Hc.
  - injection Eb as <-. split.
    + apply root_insert; [done | done | congruence | congruence].
    + apply (map_replace_ok heap _ p raw e Hm1). congruence.
    + intros y b Hb Hpos. destruct (decide (y = p)) as [->|Hy].
      * rewrite lookup_insert_eq in Hb. injection Hb as <-. lia.
      * rewrite lookup_insert_ne in Hb by done. apply carries_mono; [done|]. by apply Hc.
Qed.

Inductive index_step (literal : Z) : index_heap * BlockMap -> index_heap * BlockMap -> Prop :=
| index_add params sporks chain heap m p hash prev nTime nBits vtx heap' m' x :
    heap !! p = None -> prev <> hash ->
    AddToBlockIndex params sporks literal chain heap m p hash prev nTime nBits vtx = Ret (heap', m', x) ->
    index_step literal (heap, m) (heap', m').

Definition index_reachable (literal : Z) (heap : index_heap) (m : BlockMap) : Prop := rtc (index_step literal) (∅, ∅) (heap, m).

Lemma reachable_tree_ok literal heap m : index_reachable literal heap m -> tree_ok heap m.
Proof.
  intros Hr. change (tree_ok (heap, m).1 (heap, m).2). revert Hr. unfold index_reachable. generalize (heap, m). intros s Hs.
  refine (rtc_ind_r (R:=index_step literal) (fun s => tree_ok s.1 s.2) (∅, ∅) _ _ s Hs).
  - split; [apply map_Forall_empty | | done]. intros h p. cbn [fst snd]. split; [by rewrite lookup_empty|]. intros (b & Hb & _). by rewrite lookup_empty in Hb.
  - intros y z _ [params sporks chain h0 m0 p hash prev nTime nBits vtx h1 m1 x Hp Hne E] Ht. by eapply add_ok.
Qed.

(** C23: in every block index that [AddToBlockIndex] builds, whatever the order of
    the blocks and their times, [ComputeNextStakeModifier] succeeds on top of every
    block (there is always a generated modifier and a candidate to select in each
    round), a modifier that is not newly generated is that of the block before, and
    since the hardened modifier the service gives for a tip exactly the modifier the
    tip carries. *)
Theorem stake_modifiers_carried literal heap m p b :
  index_reachable literal heap m -> heap !! p = Some b ->
  (exists m' gen, ComputeNextStakeModifier heap m literal (Some p) = Ret (true, m', gen) /\
     (gen = false -> 0 < nHeight b /\ m' = nStakeModifier b)) /\
  (0 < nHeight b -> IsActive (bi_nTime b) HardenedStakeModifier = true -> forall chain d,
     blockHashOfChainTipBlock_ d = phashBlock b -> getStakeModifier heap m chain d = Ret (nStakeModifier b, true)).
Proof.
  intros [Hok Hm Hc]%reachable_tree_ok Hb. pose proof (li_height _ _ _ (Hok p b Hb)). split.
  - destruct (compute_spec heap m Hok Hm literal p b (nStakeModifier b) Hb) as (m' & gen & E & Hg).
    { intros Hne. apply Hc; [done | lia]. }
    exists m', gen. split; [done|]. intros Hf. destruct (Hg Hf). split; [lia | done].
  - intros Hpos Ha chain d Hd. apply (service_spec heap m Hok chain d p b); [|done..|by apply Hc].
    rewrite Hd. apply Hm. by exists b.
Qed.

(** a round of the selection takes, of the recent blocks that earlier rounds
    have not taken, one whose selection hash is least among those up to the time
    limit; it fails only if all of them are taken. *)
Theorem candidate_selection literal heap m p b selected stop prev :
  index_reachable literal heap m -> heap !! p = Some b ->
  exists l start r, GetRecentBlocksSortedByIncreasingTimestamp heap (Some p) = Ret (l, start) /\ by_time l /\ NoDup l.*2 /\
    SelectBlockFromCandidates heap m l selected stop prev = Ret r /\
    match r with
    | None => Forall (fun item => is_Some (selected !! item.2)) l
    | Some q => exists item c, item ∈ l /\ known heap m item q c /\ selected !! item.2 = None /\
        forall item' q' c', item' ∈ l -> known heap m item' q' c' -> selected !! item'.2 = None -> item'.1 <= stop ->
          selection_value prev c <= selection_value prev c'
    end.
Proof.
  intros [Hok Hm Hc]%reachable_tree_ok Hb. destruct (recent_sorted heap m Hok Hm p b Hb) as (l & start & E & Hs & Hn & Hk).
  destruct (select_loop_spec heap m selected stop prev l Hk Hs None) as (r & Er & Hnone & Hor & Hmin). cbn [best_of] in Er.
  exists l, start, (match r with Some (_, q) => Some q | None => None end). split; [done|]. split; [done|]. split; [done|].
  unfold SelectBlockFromCandidates. rewrite Er. cbn [obind]. split; [by destruct r as [[c q]|]|].
  destruct r as [[c q]|]; [|by apply Hnone].
  destruct Hor as [?|(item & q1 & c1 & [= -> ->] & Hin & Hkn & Hno)]; [done|]. exists item, c1.
  split; [done|]. split; [done|]. split; [done|]. by apply (Hmin c1 q1).
Qed.

(** A genesis block, and two blocks on it a minute apart. *)
Definition coinbase_only : list CTransaction := [CTransaction_of (mkMutable 1 [mkTxIn COutPoint_null [] 0] [CTxOut_empty] 0)].

Definition ret_index (r : io (index_heap * BlockMap * ptr)) : index_heap * BlockMap :=
  match r with Ret (h, m, _) => (h, m) | _ => (∅, ∅) end.

Definition add_sample (s : index_heap * BlockMap) (n : Z) : index_heap * BlockMap :=
  ret_index (AddToBlockIndex main_params no_sporks 77 [] s.1 s.2 (Z.to_pos n) (of_uint64 8 n) (of_uint64 8 (n - 1)) (1609459200 + 60 * n) 0 coinbase_only).

Definition sample_index : index_heap * BlockMap := add_sample (add_sample (add_sample (∅, ∅) 1) 2) 3.


Definition is_ret {A} (r : io A) : bool := match r with Ret _ => true | _ => false end.

Lemma add_sample_step s n :
  s.1 !! Z.to_pos n = None -> of_uint64 8 (n - 1) <> of_uint64 8 n ->
  is_ret (AddToBlockIndex main_params no_sporks 77 [] s.1 s.2 (Z.to_pos n) (of_uint64 8 n) (of_uint64 8 (n - 1)) (1609459200 + 60 * n) 0 coinbase_only) = true ->
  index_step 77 s (add_sample s n).
Proof.
  unfold add_sample. destruct s as [heap m]. intros Hp Hne E.
  destruct (AddToBlockIndex _ _ _ _ _ _ _ _ _ _ _ _) as [[[h1 m1] x]| | |] eqn:Ea; [|done..].
  by eapply index_add.
Qed.

Lemma sample_reachable : index_reachable 77 sample_index.1 sample_index.2.
Proof.
  unfold index_reachable. rewrite <-surjective_pairing.
  apply rtc_l with (add_sample (∅, ∅) 1); [|apply rtc_l with (add_sample (add_sample (∅, ∅) 1) 2); [|apply rtc_once]].
  all: apply add_sample_step; [vm_compute; reflexivity | intros E; by vm_compute in E | vm_compute; reflexivity].
Qed.

Definition sample_tip : option CBlockIndex := (sample_index.1 : index_heap) !! (3%positive : ptr).

Lemma stake_modifiers_carried_witness :
  match sample_tip with
  | Some b => (exists m' gen, ComputeNextStakeModifier sample_index.1 sample_index.2 77 (Some 3%positive) = Ret (true, m', gen) /\
      (gen = false -> 0 < nHeight b /\ m' = nStakeModifier b)) /\
      forall chain d, blockHashOfChainTipBlock_ d = phashBlock b ->
        getStakeModifier sample_index.1 sample_index.2 chain d = Ret (nStakeModifier b, true)
  | None => False end.
Proof.
  assert (Ea : match sample_tip with Some b => (0 <? nHeight b) && IsActive (bi_nTime b) HardenedStakeModifier | None => false end = true)
    by (vm_compute; reflexivity).
  destruct sample_tip as [b|] eqn:E; [|done]. apply andb_prop in Ea as [Hp Ha].
  destruct (stake_modifiers_carried 77 _ _ _ b sample_reachable E) as [H1 H2].
  split; [exact H1 | apply H2; [by apply Z.ltb_lt | exact Ha]].
Defined.

Lemma candidate_selection_witness :
  match sample_tip with
  | Some b => exists l start r, GetRecentBlocksSortedByIncreasingTimestamp sample_index.1 (Some 3%positive) = Ret (l, start) /\
      SelectBlockFromCandidates sample_index.1 sample_index.2 l ∅ 2000000000 5 = Ret (Some r)
  | None => False end.
Proof.
  destruct sample_tip as [b|] eqn:E; [|by vm_compute in E].
  destruct (candidate_selection 77 _ _ _ b ∅ 2000000000 5 sample_reachable E) as (l & start & r & Hl & _ & _ & Hs & Hr).
  exists l, start. destruct r as [q|]; [by exists q|]. exfalso.
  assert (El : match GetRecentBlocksSortedByIncreasingTimestamp sample_index.1 (Some 3%positive) with Ret ((_ :: _)%list, _) => true | _ => false end = true)
    by (vm_compute; reflexivity).
  rewrite Hl in El. destruct l as [|x l]; [done|]. apply Forall_inv in Hr. rewrite lookup_empty in Hr. by destruct Hr.
Defined.
