(* ===== verification/ProofOfStake.v ===== *)
(** * Proofs of stake: [ProofOfStakeCalculator.cpp], [ProofOfStakeGenerator.cpp]

    An unspent output may mint at a timestamp when the hash of the stake modifier,
    the output and the timestamp is below the target of the block, scaled by the
    coin age.  The generator searches the timestamps of a drift window for one
    that hits and verifies the timestamp of a block it is given.  The service for
    stake modifiers and the calculator are the interfaces of the code. *)

From Stdlib Require Import ZArith Lia Bool.
From stdpp Require Import base option numbers list gmap.
From S2P Require Import Prelude BaseUInt UInt256 Serialize CryptoCommon BlockHasher Sha256 Hashes Transaction BlockIndex Chain Subsidy Lottery Pow StakeModifier.

Open Scope Z_scope.
Open Scope outcome_scope.

Definition MAXIMUM_COIN_AGE_WEIGHT_FOR_STAKING : Z := 60 * 60 * 24 * 7 - 60 * 60.
(** [I_ProofOfStakeGenerator::nHashDrift] *)
Definition nHashDrift : nat := 45.

Definition stakeHash (stakeModifier hashproofTimestamp : Z) (prevout : COutPoint) (coinstakeStartTime : Z) : list Z :=
  of_bytes (Hash [Serialize (uint_codec 8) stakeModifier ++ Serialize (uint_codec 4) coinstakeStartTime ++
    Serialize (uint_codec 4) (prev_n prevout) ++ Serialize uint256_codec (prev_hash prevout) ++ Serialize (uint_codec 4) hashproofTimestamp]).

Definition stakeTargetHit (hashProofOfStake : list Z) (nValueIn : CAmount) (bnTargetPerCoinDay : list Z) (nTimeWeight : Z) : io bool :=
  let* x := div_int64 (mul_int64 (of_uint64 8 (u64 nValueIn)) nTimeWeight) COIN in
  let* bnCoinDayWeight := div_int64 x 400 in
  let '(target, fits) := MultiplyBy bnTargetPerCoinDay bnCoinDayWeight in
  if negb fits then Ret true else Ret (CompareTo hashProofOfStake target <? 0).

(** [I_ProofOfStakeCalculator]: whether the stake hits at a timestamp, and the
    proof; [checkOnly] keeps the proof it is given. *)
Class I_ProofOfStakeCalculator (C : Type) :=
  computeProofOfStakeAndCheckItMeetsTarget : C -> Z -> list Z -> bool -> io (bool * list Z).

Record ProofOfStakeCalculator := mkCalculator {
  utxoToStake_ : COutPoint; calculator_utxoValue_ : CAmount; stakeModifier_ : Z;
  targetPerCoinDay_ : list Z; coinstakeStartTime_ : Z
}.

Definition ProofOfStakeCalculator_of (stakingData : StakingData) (stakeModifier : Z) : ProofOfStakeCalculator :=
  mkCalculator (utxoBeingStaked_ stakingData) (utxoValue_ stakingData) stakeModifier (SetCompact (nBits_ stakingData)).1.1
    (blockTimeOfFirstConfirmationBlock_ stakingData).

Definition compute_proof (c : ProofOfStakeCalculator) (hashproofTimestamp : Z) (computedProofOfStake : list Z) (checkOnly : bool) : io (bool * list Z) :=
  let proof := if negb checkOnly then stakeHash (stakeModifier_ c) hashproofTimestamp (utxoToStake_ c) (coinstakeStartTime_ c)
               else computedProofOfStake in
  let coinAgeWeightOfUtxo := Z.min (u32 (hashproofTimestamp - coinstakeStartTime_ c)) MAXIMUM_COIN_AGE_WEIGHT_FOR_STAKING in
  let* hit := stakeTargetHit proof (calculator_utxoValue_ c) (targetPerCoinDay_ c) coinAgeWeightOfUtxo in
  Ret (hit, proof).

#[export] Instance calculator_interface : I_ProofOfStakeCalculator ProofOfStakeCalculator := compute_proof.

(** The loop of [CreateHashProofForProofOfStake], with the rounds left. *)
Fixpoint search_hashproof {C : Type} `{I_ProofOfStakeCalculator C} (rounds : nat) (calculator : C) (hashproof : list Z)
    (hashproofTimestamp : Z) : io (bool * Z) :=
  match rounds with
  | O => Ret (false, hashproofTimestamp)
  | S rounds =>
      let* '(hit, hashproof) := computeProofOfStakeAndCheckItMeetsTarget calculator hashproofTimestamp hashproof false in
      if negb hit then search_hashproof rounds calculator hashproof (u32 (hashproofTimestamp - 1)) else Ret (true, hashproofTimestamp)
  end.

Definition CreateHashProofForProofOfStake {C : Type} `{I_ProofOfStakeCalculator C} (calculator : C) (hashproofTimestamp : Z) : io (bool * Z) :=
  search_hashproof nHashDrift calculator (of_uint64 8 0) hashproofTimestamp.

(** [HashproofCreationResult] *)
Inductive HashproofCreationResult := FAILED_SETUP | FAILED_GENERATION | SUCCESS (timestamp : Z).

Section Generator.
(** [stakeModifierService_.getStakeModifier] and [minimumCoinAgeForStaking_]. *)
Variable service : StakingData -> io (Z * bool).
Variable minimumCoinAgeForStaking_ : Z.

Definition ProofOfStakeTimeRequirementsAreMet (coinstakeStartTime hashproofTimestamp : Z) : bool :=
  if hashproofTimestamp <? coinstakeStartTime then false
  else if u32 (coinstakeStartTime + minimumCoinAgeForStaking_) >? hashproofTimestamp then false
  else true.

Definition CreateProofOfStakeCalculator (stakingData : StakingData) (initialHashproofTimestamp : Z) : io (option ProofOfStakeCalculator) :=
  if negb (ProofOfStakeTimeRequirementsAreMet (blockTimeOfFirstConfirmationBlock_ stakingData) initialHashproofTimestamp) then Ret None else
  let* '(modifier, found) := service stakingData in
  if negb found then Ret None else Ret (Some (ProofOfStakeCalculator_of stakingData modifier)).

Definition ComputeAndVerifyProofOfStake (stakingData : StakingData) (hashproofTimestamp : Z) (hashProofOfStake : list Z) : io (bool * list Z) :=
  let* calculator := CreateProofOfStakeCalculator stakingData hashproofTimestamp in
  match calculator with
  | None => Ret (false, hashProofOfStake)
  | Some calculator => computeProofOfStakeAndCheckItMeetsTarget calculator hashproofTimestamp hashProofOfStake false
  end.

Definition CreateHashproofTimestamp (stakingData : StakingData) (initialTimestamp : Z) : io HashproofCreationResult :=
  let* calculator := CreateProofOfStakeCalculator stakingData initialTimestamp in
  match calculator with
  | None => Ret FAILED_SETUP
  | Some calculator =>
      let* '(found, hashproofTimestamp) := CreateHashProofForProofOfStake calculator initialTimestamp in
      if negb found then Ret FAILED_GENERATION else Ret (SUCCESS hashproofTimestamp)
  end.
End Generator.

(** ** The target *)

(** The weight of a coin: its value in whole coins and days, as the code rounds it. *)
Definition coin_weight (value age : Z) : Z := value * age / COIN / 400.

Lemma target_hit hash v T w :
  is256 hash (value hash) -> is256 T (value T) -> 0 <= v < 2 ^ 63 -> 0 <= w < 2 ^ 32 ->
  stakeTargetHit hash v T w = Ret (value hash <? value T * coin_weight v w).
Proof.
  intros Hh HT Hv Hw. unfold stakeTargetHit.
  assert (Ev : u64 v = v) by (unfold u64; rewrite Z.mod_small; lia). rewrite Ev.
  pose proof (is256_mul _ _ w (is256_small v ltac:(lia))) as Hm.
  replace (u32 w) with w in Hm by (unfold u32; rewrite Z.mod_small; lia). rewrite Z.mod_small in Hm by nia.
  destruct (is256_div_int64 _ _ COIN Hm ltac:(unfold COIN; lia)) as (q & -> & Hq). cbn [obind].
  destruct (is256_div_int64 _ _ 400 Hq ltac:(lia)) as (r & -> & Hr). cbn [obind].
  fold (coin_weight v w) in Hr. destruct HT as (wT & lT & _), Hr as (wr & lr & Er).
  destruct (MultiplyBy_spec T r ltac:(congruence) ltac:(lia) wT wr) as (P1 & P2 & P3 & P4).
  rewrite (modulus_8 T lT), Er in P1, P2.
  destruct (MultiplyBy T r) as [t fits]. cbn [fst snd] in P1, P2, P3, P4. subst fits.
  pose proof (is256_range _ _ Hh). destruct Hh as (wh & lh & _).
  destruct (Z.ltb_spec (value T * coin_weight v w) (2 ^ 256)) as [Hf|Hf]; cbn [negb]; f_equal.
  - rewrite Z.mod_small in P1 by (split; [|exact Hf]; apply Z.mul_nonneg_nonneg; [apply value_bound, wT | unfold coin_weight, COIN; apply Z.div_pos; [apply Z.div_pos|]; nia]).
    rewrite CompareTo_spec, P1 by (done || congruence). by destruct (Z.compare_spec (value hash) (value T * coin_weight v w)); destruct (Z.ltb_spec (value hash) (value T * coin_weight v w)); try lia.
  - symmetry. apply Z.ltb_lt. lia.
Qed.

(** ** Search and verification *)

Definition staking_data_ok (d : StakingData) : Prop :=
  0 <= nBits_ d < 2 ^ 32 /\ 0 <= blockTimeOfFirstConfirmationBlock_ d < 2 ^ 32 /\ 0 <= utxoValue_ d < 2 ^ 63.

(** The proof of a timestamp, and the target it has to be below. *)
Definition stake_proof (d : StakingData) (modifier t : Z) : list Z :=
  stakeHash modifier t (utxoBeingStaked_ d) (blockTimeOfFirstConfirmationBlock_ d).

Definition stake_weight (d : StakingData) (t : Z) : Z :=
  coin_weight (utxoValue_ d) (Z.min (u32 (t - blockTimeOfFirstConfirmationBlock_ d)) MAXIMUM_COIN_AGE_WEIGHT_FOR_STAKING).

Definition hits (d : StakingData) (modifier t : Z) : bool :=
  value (stake_proof d modifier t) <? target (nBits_ d) * stake_weight d t.

Lemma stake_proof_256 d modifier t : is256 (stake_proof d modifier t) (value (stake_proof d modifier t)).
Proof.
  unfold stake_proof, stakeHash. match goal with |- context [Hash ?l] => pose proof (hash_limbs l) as [Hw Hl]; revert Hw Hl; generalize (Hash l) end.
  intros bytes Hw Hl. by apply is256_self.
Qed.

Lemma compute_proof_spec d modifier t h :
  staking_data_ok d ->
  compute_proof (ProofOfStakeCalculator_of d modifier) t h false = Ret (hits d modifier t, stake_proof d modifier t).
Proof.
  intros (Hb & Hs & Hv). unfold compute_proof, ProofOfStakeCalculator_of. cbn [negb stakeModifier_ utxoToStake_ coinstakeStartTime_ calculator_utxoValue_ targetPerCoinDay_].
  fold (stake_proof d modifier t). assert (0 <= u32 (t - blockTimeOfFirstConfirmationBlock_ d)) by (apply Z.mod_pos_bound; lia).
  pose proof (stake_proof_256 d modifier t) as Hp. unfold hits, stake_weight. revert Hp. generalize (stake_proof d modifier t). intros proof Hp.
  rewrite target_hit; [unfold target, target_of; by cbn [obind] | exact Hp | apply target_is, Hb | exact Hv | unfold MAXIMUM_COIN_AGE_WEIGHT_FOR_STAKING; lia].
Qed.

Definition found_first (d : StakingData) (modifier t0 n : Z) (found : bool) (t : Z) : Prop :=
  if found then exists i, 0 <= i < n /\ t = u32 (t0 - i) /\ hits d modifier t = true /\ forall j, 0 <= j < i -> hits d modifier (u32 (t0 - j)) = false
  else forall j, 0 <= j < n -> hits d modifier (u32 (t0 - j)) = false.

Lemma search_spec d modifier : staking_data_ok d -> forall rounds t0 h, 0 <= t0 < 2 ^ 32 ->
  exists found t, search_hashproof rounds (ProofOfStakeCalculator_of d modifier) h t0 = Ret (found, t) /\
    found_first d modifier t0 (Z.of_nat rounds) found t.
Proof.
  intros Hd. induction rounds as [|rounds IH]; intros t0 h Ht.
  { exists false, t0. split; [done|]. intros j Hj. lia. }
  assert (E0 : u32 (t0 - 0) = t0) by (unfold u32; rewrite Z.sub_0_r, Z.mod_small; lia).
  cbn [search_hashproof].
  change (computeProofOfStakeAndCheckItMeetsTarget (ProofOfStakeCalculator_of d modifier) t0 h false)
    with (compute_proof (ProofOfStakeCalculator_of d modifier) t0 h false). rewrite compute_proof_spec by exact Hd. cbn [obind].
  destruct (hits d modifier t0) eqn:Eh; cbn [negb].
  { exists true, t0. split; [done|]. exists 0. rewrite E0. split; [lia|]. split; [done|]. split; [done|]. intros j Hj. lia. }
  destruct (IH (u32 (t0 - 1)) (stake_proof d modifier t0)) as (found & t & -> & Hf); [apply Z.mod_pos_bound; lia|].
  assert (Es : forall j, u32 (u32 (t0 - 1) - j) = u32 (t0 - (j + 1))).
  { intros j. unfold u32. rewrite Zminus_mod_idemp_l. f_equal. lia. }
  assert (Hstep : forall n, (forall j, 0 <= j < n -> hits d modifier (u32 (u32 (t0 - 1) - j)) = false) ->
    forall j, 0 <= j < n + 1 -> hits d modifier (u32 (t0 - j)) = false).
  { intros n Hn j Hj. destruct (Z.eq_dec j 0) as [->|Hne]; [by rewrite E0|].
    replace j with (j - 1 + 1) by lia. rewrite <-Es. apply Hn. lia. }
  exists found, t. split; [done|]. unfold found_first in Hf |- *. rewrite Nat2Z.inj_succ. destruct found.
  - destruct Hf as (i & Hi & -> & Hh & Hno). exists (i + 1). rewrite <-Es. split; [lia|]. split; [done|]. split; [done|].
    intros j Hj. by apply (Hstep i).
  - intros j Hj. apply (Hstep (Z.of_nat rounds)); [done | lia].
Qed.

Section Verification.
Variable service : StakingData -> io (Z * bool).
Variable minimumCoinAgeForStaking_ : Z.
Hypothesis minimum_age : 0 <= minimumCoinAgeForStaking_ < 2 ^ 32.

Lemma verify_spec d modifier found t h :
  staking_data_ok d -> service d = Ret (modifier, found) ->
  ComputeAndVerifyProofOfStake service minimumCoinAgeForStaking_ d t h =
  if ProofOfStakeTimeRequirementsAreMet minimumCoinAgeForStaking_ (blockTimeOfFirstConfirmationBlock_ d) t && found
  then Ret (hits d modifier t, stake_proof d modifier t) else Ret (false, h).
Proof.
  intros Hd Hs. unfold ComputeAndVerifyProofOfStake, CreateProofOfStakeCalculator.
  destruct (ProofOfStakeTimeRequirementsAreMet _ _ t); cbn [negb andb obind]; [|done].
  rewrite Hs. cbn [obind]. destruct found; cbn [negb obind]; [|done]. by apply compute_proof_spec.
Qed.

(** C21: a proof of stake is accepted exactly when the block is not older than the
    staked coin, the coin has the minimum age (in 32-bit arithmetic), there is a
    stake modifier for it, and the hash is, as an integer, below the target of
    [nBits] times the coin's weight: its value times its age, capped at a week
    less an hour, in units of 400 coin seconds. *)
Theorem stake_verification d modifier found t h :
  staking_data_ok d -> service d = Ret (modifier, found) -> 0 <= t < 2 ^ 32 ->
  exists b h', ComputeAndVerifyProofOfStake service minimumCoinAgeForStaking_ d t h = Ret (b, h') /\
    (b = true <-> blockTimeOfFirstConfirmationBlock_ d <= t /\ u32 (blockTimeOfFirstConfirmationBlock_ d + minimumCoinAgeForStaking_) <= t /\
      found = true /\ value (stake_proof d modifier t) <
        target (nBits_ d) * (utxoValue_ d * Z.min (t - blockTimeOfFirstConfirmationBlock_ d) 601200 / COIN / 400)).
Proof.
  intros Hd Hs Ht. rewrite (verify_spec d modifier found t h Hd Hs). unfold ProofOfStakeTimeRequirementsAreMet.
  destruct (Z.ltb_spec t (blockTimeOfFirstConfirmationBlock_ d)); [exists false, h; split; [done|]; split; [done | lia]|].
  destruct (Z.gtb_spec (u32 (blockTimeOfFirstConfirmationBlock_ d + minimumCoinAgeForStaking_)) t); [exists false, h; split; [done|]; split; [done | lia]|].
  destruct found; cbn [andb]; [|exists false, h; split; [done|]; split; [done | by intros (_ & _ & ? & _)]].
  eexists _, _. split; [reflexivity|]. unfold hits, stake_weight, coin_weight, MAXIMUM_COIN_AGE_WEIGHT_FOR_STAKING.
  destruct Hd as (_ & Hb & _). replace (u32 (t - blockTimeOfFirstConfirmationBlock_ d)) with (t - blockTimeOfFirstConfirmationBlock_ d)
    by (unfold u32; rewrite Z.mod_small; lia).
  rewrite Z.ltb_lt. change (60 * 60 * 24 * 7 - 60 * 60) with 601200. tauto.
Qed.

(** C25: the search for a timestamp tries the 45 seconds up to the one it is given
    and finds the latest of them whose proof is below the target, or reports that
    none is; the block it leads to is accepted by the verification whenever the
    coin had the minimum age at the start of that window. *)
Theorem timestamp_search d modifier t0 :
  staking_data_ok d -> service d = Ret (modifier, true) -> 0 <= t0 < 2 ^ 32 ->
  ProofOfStakeTimeRequirementsAreMet minimumCoinAgeForStaking_ (blockTimeOfFirstConfirmationBlock_ d) t0 = true ->
  match CreateHashproofTimestamp service minimumCoinAgeForStaking_ d t0 with
  | Ret FAILED_GENERATION => forall j, 0 <= j < 45 -> hits d modifier (u32 (t0 - j)) = false
  | Ret (SUCCESS t) => (exists i, 0 <= i < 45 /\ t = u32 (t0 - i) /\ hits d modifier t = true /\
        forall j, 0 <= j < i -> hits d modifier (u32 (t0 - j)) = false) /\
      (blockTimeOfFirstConfirmationBlock_ d + minimumCoinAgeForStaking_ + 44 <= t0 -> forall h,
        ComputeAndVerifyProofOfStake service minimumCoinAgeForStaking_ d t h = Ret (true, stake_proof d modifier t))
  | _ => False
  end.
Proof.
  intros Hd Hs Ht Hm. unfold CreateHashproofTimestamp, CreateProofOfStakeCalculator. rewrite Hm, Hs. cbn [negb obind].
  unfold CreateHashProofForProofOfStake.
  destruct (search_spec d modifier Hd nHashDrift t0 (of_uint64 8 0) Ht) as (found & t & -> & Hf). cbn [obind].
  destruct found; cbn [negb]; [|exact Hf]. split; [exact Hf|]. intros Hage h. destruct Hf as (i & Hi & -> & Hh & _).
  change (Z.of_nat nHashDrift) with 45 in Hi. rewrite (verify_spec d modifier true _ h Hd Hs), Hh.
  destruct Hd as (_ & Hb & _). unfold ProofOfStakeTimeRequirementsAreMet.
  replace (u32 (t0 - i)) with (t0 - i) by (unfold u32; rewrite Z.mod_small; lia).
  replace (u32 (blockTimeOfFirstConfirmationBlock_ d + minimumCoinAgeForStaking_)) with (blockTimeOfFirstConfirmationBlock_ d + minimumCoinAgeForStaking_)
    by (unfold u32; rewrite Z.mod_small; lia).
  rewrite (proj2 (Z.ltb_ge _ _)) by lia.
  destruct (Z.gtb_spec (blockTimeOfFirstConfirmationBlock_ d + minimumCoinAgeForStaking_) (t0 - i)); [lia | done].
Qed.
End Verification.

(** A stake of 400 coins, and a service that knows its modifier. *)
Definition sample_stake : StakingData := mkStakingData 0x1f080000 1600000000 (of_uint64 8 1) COutPoint_null (400 * COIN) (of_uint64 8 2).
Definition sample_service (_ : StakingData) : io (Z * bool) := Ret (1, true).

Lemma sample_stake_ok : staking_data_ok sample_stake.
Proof. unfold staking_data_ok, sample_stake, COIN. cbn [nBits_ blockTimeOfFirstConfirmationBlock_ utxoValue_]. lia. Qed.

Lemma stake_verification_witness :
  exists b h', ComputeAndVerifyProofOfStake sample_service 3600 sample_stake 1600007200 [] = Ret (b, h') /\
    (b = true <-> 1600000000 <= 1600007200 /\ u32 (1600000000 + 3600) <= 1600007200 /\ true = true /\
      value (stake_proof sample_stake 1 1600007200) < target 0x1f080000 * (400 * COIN * Z.min (1600007200 - 1600000000) 601200 / COIN / 400)).
Proof. apply (stake_verification sample_service 3600 ltac:(lia) sample_stake 1 true); [exact sample_stake_ok | reflexivity | lia]. Defined.

Lemma timestamp_search_witness :
  exists t, CreateHashproofTimestamp sample_service 3600 sample_stake 1600003700 = Ret (SUCCESS t) /\
    forall h, ComputeAndVerifyProofOfStake sample_service 3600 sample_stake t h = Ret (true, stake_proof sample_stake 1 t).
Proof.
  assert (E : match CreateHashproofTimestamp sample_service 3600 sample_stake 1600003700 with Ret (SUCCESS _) => true | _ => false end = true)
    by (vm_compute; reflexivity).
  pose proof (timestamp_search sample_service 3600 ltac:(lia) sample_stake 1 1600003700 sample_stake_ok eq_refl ltac:(lia) eq_refl) as H.
  destruct (CreateHashproofTimestamp _ _ _ _) as [[| |t]| | |]; try discriminate E.
  exists t. split; [reflexivity|]. apply (proj2 H). cbv. discriminate.
Defined.

(** The minimum age is checked only for the timestamp the search starts from: a
    coin that just has it may be given a timestamp that the verification refuses. *)
Lemma searched_timestamp_too_young :
  CreateHashproofTimestamp sample_service 3600 sample_stake 1600003600 = Ret (SUCCESS 1600003598) /\
  ComputeAndVerifyProofOfStake sample_service 3600 sample_stake 1600003598 [] = Ret (false, []).
Proof. split; vm_compute; reflexivity. Qed.
