(* ===== verification/Validation.v ===== *)
(** * Checks on transactions: [main.cpp], [UtxoCheckingAndUpdating.cpp],
    [TransactionOpCounting.cpp], [ValidationState.cpp], [scriptCheck.cpp],
    [coins.cpp], [kernel.cpp]

    [CheckTransaction] needs no context; [CheckInputs] compares a transaction with
    the unspent outputs a coins view shows, and [CheckCoinstakeForVaults] protects
    staked vaults.  Reading a view fills its caches, so the functions return it. *)

From Stdlib Require Import ZArith Lia Bool String.
From stdpp Require Import base option numbers list gmap.
From S2P Require Import Prelude BaseUInt UInt256 Serialize Opcodes ScriptNum Script StackManager Interpreter Transaction Standard Coins CoinsCache ScriptProps StakingVault Hashes SigHash CoinsUpdate BlockIndex Subsidy.

Open Scope Z_scope.
Open Scope outcome_scope.

(** ** [CValidationState] *)

Inductive mode_state := MODE_VALID | MODE_INVALID | MODE_ERROR.

Record CValidationState := mkState {
  mode : mode_state; nDoS : Z; strRejectReason : string; chRejectCode : Z; corruptionPossible : bool
}.

Definition CValidationState_new : CValidationState := mkState MODE_VALID 0 EmptyString 0 false.

Definition REJECT_INVALID : Z := 0x10.
Definition REJECT_NONSTANDARD : Z := 0x40.

(** The state after the call; the result is the argument [ret]. *)
Definition DoS (s : CValidationState) (level : Z) (chRejectCodeIn : Z) (strRejectReasonIn : string) (corruptionIn : bool) : CValidationState :=
  match mode s with
  | MODE_ERROR => mkState MODE_ERROR (nDoS s) strRejectReasonIn chRejectCodeIn corruptionIn
  | _ => mkState MODE_INVALID (nDoS s + level) strRejectReasonIn chRejectCodeIn corruptionIn
  end.

Definition Invalid (s : CValidationState) (code : Z) (reason : string) : CValidationState := DoS s 0 code reason false.

Definition Error (s : CValidationState) (reason : string) : CValidationState :=
  mkState MODE_ERROR (nDoS s) (match mode s with MODE_VALID => reason | _ => strRejectReason s end) (chRejectCode s) (corruptionPossible s).

Definition IsValid (s : CValidationState) : bool := match mode s with MODE_VALID => true | _ => false end.
Definition IsInvalid (s : CValidationState) : bool := match mode s with MODE_INVALID => true | _ => false end.

(** [state.DoS(level, error(...), REJECT_INVALID, reason)] *)
Definition dos (s : CValidationState) (level : Z) (reason : string) : bool * CValidationState :=
  (false, DoS s level REJECT_INVALID reason false).

(** ** Amounts *)

Definition MoneyRange (nValueOut maxMoneyInOutput : CAmount) : bool := (0 <=? nValueOut) && (nValueOut <=? maxMoneyInOutput).

(** Signed 64-bit addition; overflow is undefined behaviour. *)
Definition amount_add (a b : CAmount) : io CAmount :=
  oassert ((- 2 ^ 63 <=? a + b) && (a + b <? 2 ^ 63)) ;;; Ret (a + b).

(** ** [CheckTransaction] *)

Definition MAX_STANDARD_TX_SIZE : Z := 100000.

Section CheckTransaction.
Variable maxMoneyAllowedInOutput : CAmount.

Fixpoint check_outputs (tx : CMutableTransaction) (outs : list CTxOut) (nValueOut : CAmount) (state : CValidationState) : io (bool * CValidationState) :=
  match outs with
  | [] => Ret (true, state)
  | txout :: outs =>
      if CTxOut_IsEmpty txout && negb (IsCoinBase tx) && negb (IsCoinStake tx) then Ret (false, DoS state 100 0 EmptyString false)
      else if negb (MoneyRange (nValue txout) maxMoneyAllowedInOutput) then Ret (dos state 100 "bad-txns-vout-negative-or-toolarge")
      else
        let* nValueOut := amount_add nValueOut (nValue txout) in
        if negb (MoneyRange nValueOut maxMoneyAllowedInOutput) then Ret (dos state 100 "bad-txns-txouttotal-toolarge")
        else check_outputs tx outs nValueOut state
  end.

(** Whether an outpoint occurs twice, with the set of those seen. *)
Fixpoint duplicate_inputs (ins : list CTxIn) (vInOutPoints : list COutPoint) : bool :=
  match ins with
  | [] => false
  | txin :: ins => bool_decide (prevout txin ∈ vInOutPoints) || duplicate_inputs ins (prevout txin :: vInOutPoints)
  end.

Definition CheckTransaction (tx : CMutableTransaction) (state : CValidationState) : io (bool * CValidationState) :=
  match vin tx with
  | [] => Ret (dos state 10 "bad-txns-vin-empty")
  | i0 :: _ =>
      match vout tx with
      | [] => Ret (dos state 10 "bad-txns-vout-empty")
      | _ :: _ =>
          if GetSerializeSize mutable_codec tx >? MAX_STANDARD_TX_SIZE then Ret (dos state 100 "bad-txns-oversize") else
          let* '(ok, state) := check_outputs tx (vout tx) 0 state in
          if negb ok then Ret (false, state)
          else if duplicate_inputs (vin tx) [] then Ret (dos state 100 "bad-txns-inputs-duplicate")
          else if IsCoinBase tx && ((zlen (scriptSig i0) <? 2) || (zlen (scriptSig i0) >? 150)) then Ret (dos state 100 "bad-cb-length")
          else Ret (true, state)
      end
  end.
End CheckTransaction.

(** ** Reading the view *)

Definition GetOutputFor (v : CCoinsView) (input : CTxIn) : io (CCoinsView * CTxOut) :=
  let '(v, coins) := AccessCoins v (prev_hash (prevout input)) in
  let* coins := oaccess coins in
  oassert (IsAvailable coins (Z.to_nat (prev_n (prevout input)))) ;;;
  let* o := oaccess (coins_vout coins !! Z.to_nat (prev_n (prevout input))) in
  Ret (v, o).

Fixpoint value_in (v : CCoinsView) (ins : list CTxIn) (nResult : CAmount) : io (CCoinsView * CAmount) :=
  match ins with
  | [] => Ret (v, nResult)
  | i :: ins =>
      let* '(v, o) := GetOutputFor v i in
      let* nResult := amount_add nResult (nValue o) in
      value_in v ins nResult
  end.

Definition GetValueIn (v : CCoinsView) (tx : CMutableTransaction) : io (CCoinsView * CAmount) :=
  if IsCoinBase tx then Ret (v, 0) else value_in v (vin tx) 0.

Fixpoint have_inputs (v : CCoinsView) (ins : list CTxIn) : CCoinsView * bool :=
  match ins with
  | [] => (v, true)
  | i :: ins =>
      let '(v, coins) := AccessCoins v (prev_hash (prevout i)) in
      match coins with
      | Some coins => if IsAvailable coins (Z.to_nat (prev_n (prevout i))) then have_inputs v ins else (v, false)
      | None => (v, false)
      end
  end.

Definition HaveInputs (v : CCoinsView) (tx : CMutableTransaction) : CCoinsView * bool :=
  if negb (IsCoinBase tx) then have_inputs v (vin tx) else (v, true).

(** ** Signature operations *)

(** The counts raise no script error. *)
Definition counted {A : Type} (m : outcome ScriptError A) : io A :=
  match m with Ret a => Ret a | Throw => Throw | _ => Undef end.

Fixpoint add_sigops (scripts : list CScript) (nSigOps : Z) : io Z :=
  match scripts with
  | [] => Ret nSigOps
  | s :: scripts => let* n := counted (GetSigOpCount s false) in add_sigops scripts (u32 (nSigOps + n))
  end.

Definition GetLegacySigOpCount (tx : CMutableTransaction) : io Z :=
  let* n := add_sigops (map scriptSig (vin tx)) 0 in add_sigops (map scriptPubKey (vout tx)) n.

Fixpoint add_p2sh_sigops (v : CCoinsView) (ins : list CTxIn) (nSigOps : Z) : io (CCoinsView * Z) :=
  match ins with
  | [] => Ret (v, nSigOps)
  | i :: ins =>
      let* '(v, prevout) := GetOutputFor v i in
      let* nSigOps :=
        if IsPayToScriptHash (scriptPubKey prevout)
        then let* n := counted (GetSigOpCount_p2sh (scriptPubKey prevout) (scriptSig i)) in Ret (u32 (nSigOps + n))
        else Ret nSigOps in
      add_p2sh_sigops v ins nSigOps
  end.

Definition GetP2SHSigOpCount (v : CCoinsView) (tx : CMutableTransaction) : io (CCoinsView * Z) :=
  if IsCoinBase tx then Ret (v, 0) else add_p2sh_sigops v (vin tx) 0.

(** ** Script checks *)

Definition MANDATORY_SCRIPT_VERIFY_FLAGS : Z :=
  Z.lor (Z.lor SCRIPT_VERIFY_P2SH SCRIPT_VERIFY_DERSIG) SCRIPT_REQUIRE_COINSTAKE.
Definition POS_SCRIPT_VERIFY_FLAGS : Z :=
  Z.lor (Z.lor (Z.lor (Z.lor MANDATORY_SCRIPT_VERIFY_FLAGS SCRIPT_VERIFY_DERSIG) SCRIPT_VERIFY_STRICTENC) SCRIPT_VERIFY_MINIMALDATA) SCRIPT_VERIFY_NULLDUMMY.
Definition STANDARD_SCRIPT_VERIFY_FLAGS : Z := Z.lor POS_SCRIPT_VERIFY_FLAGS SCRIPT_VERIFY_DISCOURAGE_UPGRADABLE_NOPS.
Definition STANDARD_NOT_MANDATORY_VERIFY_FLAGS : Z := Z.ldiff STANDARD_SCRIPT_VERIFY_FLAGS MANDATORY_SCRIPT_VERIFY_FLAGS.

(** [CScriptCheck] *)
Record CScriptCheck := mkCheck { check_scriptPubKey : CScript; ptxTo : CMutableTransaction; check_nIn : nat; check_nFlags : Z; cacheStore : bool }.

Definition CScriptCheck_of (txFromIn : CCoins) (txToIn : CMutableTransaction) (nInIn : nat) (nFlagsIn : Z) (cacheIn : bool) : io CScriptCheck :=
  let* i := oaccess (vin txToIn !! nInIn) in
  let* o := oaccess (coins_vout txFromIn !! Z.to_nat (prev_n (prevout i))) in
  Ret (mkCheck (scriptPubKey o) txToIn nInIn nFlagsIn cacheIn).

Section Checks.
Context {SH : ScriptHashes}.
(** [CPubKey::Verify] of libsecp256k1: key, hash, signature.  The signature cache
    holds only what it accepted and is not modelled. *)
Variable Verify : CPubKey -> base_uint -> valtype -> bool.

Definition TransactionSignatureChecker (txTo : CMutableTransaction) (nIn : nat) : BaseSignatureChecker := {|
  StackManager.CheckSig := fun vchSig vchPubKey scriptCode =>
    match TxCheckSig Verify txTo nIn vchSig vchPubKey scriptCode with Ret b => b | _ => false end;
  StackManager.CheckCoinstake := SigHash.CheckCoinstake txTo |}.

(** [CScriptCheck::operator()()] *)
Definition run_check (c : CScriptCheck) : io bool :=
  let* i := oaccess (vin (ptxTo c) !! check_nIn c) in
  match VerifyScript (check_nFlags c) (TransactionSignatureChecker (ptxTo c) (check_nIn c)) (scriptSig i) (check_scriptPubKey c) with
  | Ret _ => Ret true
  | Err _ => Ret false
  | Throw => Throw
  | Undef => Undef
  end.

(** ** [CheckInputs] *)

(** [Params().MaxMoneyOut()], [Params().COINBASE_MATURITY()] and the block index. *)
Variables (maxMoneyAllowedInOutput COINBASE_MATURITY : Z).
Variable heap : index_heap.
Variable blockIndexMap : gmap (list Z) positive.

(** The loop over the inputs. *)
Fixpoint check_values (v : CCoinsView) (ins : list CTxIn) (nSpendHeight : Z) (nValueIn : CAmount) (state : CValidationState)
    : io (CCoinsView * (bool * CValidationState) * CAmount) :=
  match ins with
  | [] => Ret (v, (true, state), nValueIn)
  | i :: ins =>
      let '(v, coins) := AccessCoins v (prev_hash (prevout i)) in
      let* coins := oaccess coins in
      if (fCoinBase coins || fCoinStake coins) && (nSpendHeight - coins_nHeight coins <? COINBASE_MATURITY)
      then Ret (v, (false, Invalid state REJECT_INVALID "bad-txns-premature-spend-of-coinbase"), nValueIn)
      else
        let* o := oaccess (coins_vout coins !! Z.to_nat (prev_n (prevout i))) in
        let* nValueIn := amount_add nValueIn (nValue o) in
        if negb (MoneyRange (nValue o) maxMoneyAllowedInOutput) || negb (MoneyRange nValueIn maxMoneyAllowedInOutput)
        then Ret (v, dos state 100 "bad-txns-inputvalues-outofrange", nValueIn)
        else check_values v ins nSpendHeight nValueIn state
  end.

(** The loop over the scripts: they are queued when there is a queue. *)
Fixpoint check_scripts (v : CCoinsView) (tx : CMutableTransaction) (indices : list nat) (flags : Z) (cacheStore : bool)
    (pvChecks : option (list CScriptCheck)) (state : CValidationState) : io (CCoinsView * (bool * CValidationState) * option (list CScriptCheck)) :=
  match indices with
  | [] => Ret (v, (true, state), pvChecks)
  | n :: indices =>
      let* i := oaccess (vin tx !! n) in
      let '(v, coins) := AccessCoins v (prev_hash (prevout i)) in
      let* coins := oaccess coins in
      let* check := CScriptCheck_of coins tx n flags cacheStore in
      match pvChecks with
      | Some queue => check_scripts v tx indices flags cacheStore (Some (queue ++ [check])) state
      | None =>
          let* ok := run_check check in
          if negb ok then
            let* nonmandatory :=
              if has_flag flags STANDARD_NOT_MANDATORY_VERIFY_FLAGS then
                let* check := CScriptCheck_of coins tx n (Z.ldiff flags STANDARD_NOT_MANDATORY_VERIFY_FLAGS) cacheStore in run_check check
              else Ret false in
            if nonmandatory then Ret (v, (false, Invalid state REJECT_NONSTANDARD "non-mandatory-script-verify-flag"), None)
            else Ret (v, dos state 100 "mandatory-script-verify-flag-failed", None)
          else check_scripts v tx indices flags cacheStore None state
      end
  end.

(** The part for user transactions: what goes in and what comes out, and the fee. *)
Definition tally_fees (tx : CMutableTransaction) (state : CValidationState) (nValueIn nFees : CAmount) : io ((bool * CValidationState) * CAmount) :=
  if negb (IsCoinStake tx) then
    let* out := GetValueOut tx in
    if nValueIn <? out then Ret (dos state 100 "bad-txns-in-belowout", nFees)
    else
      let nTxFee := nValueIn - out in
      if nTxFee <? 0 then Ret (dos state 100 "bad-txns-fee-negative", nFees)
      else
        let* nFees := amount_add nFees nTxFee in
        if negb (MoneyRange nFees maxMoneyAllowedInOutput) then Ret (dos state 100 "bad-txns-fee-outofrange", nFees)
        else Ret ((true, state), nFees)
  else Ret ((true, state), nFees).

(** The results of [CheckInputs]: the view, the return value and the state, the
    reference parameters [nFees] and [nValueIn], and the queue of checks. *)
Record InputsResult := mkInputs {
  ci_view : CCoinsView; ci_result : bool * CValidationState; ci_nFees : CAmount; ci_nValueIn : CAmount; ci_checks : option (list CScriptCheck)
}.

Definition CheckInputs (tx : CMutableTransaction) (state : CValidationState) (inputs : CCoinsView) (nFees nValueIn : CAmount)
    (fScriptChecks : bool) (flags : Z) (cacheStore : bool) (pvChecks : option (list CScriptCheck)) (connectBlockDoS : bool) : io InputsResult :=
  if IsCoinBase tx then Ret (mkInputs inputs (true, state) nFees nValueIn pvChecks) else
  let '(inputs, have) := HaveInputs inputs tx in
  if negb have then
    Ret (mkInputs inputs (if connectBlockDoS then dos state 100 "bad-txns-inputs-missingorspent" else (false, Invalid state 0 EmptyString))
      nFees nValueIn pvChecks)
  else
    let '(inputs, best) := GetBestBlock inputs in
    let* pindexPrev := deref heap (blockIndexMap !! (best : list Z)) in
    let nSpendHeight := nHeight pindexPrev + 1 in
    let* '(inputs, (ok, state), nValueIn) := check_values inputs (vin tx) nSpendHeight nValueIn state in
    if negb ok then Ret (mkInputs inputs (ok, state) nFees nValueIn pvChecks) else
    let* '((ok, state), nFees) := tally_fees tx state nValueIn nFees in
    if negb ok then Ret (mkInputs inputs (ok, state) nFees nValueIn pvChecks) else
    if fScriptChecks then
      let* '(inputs, r, pvChecks) := check_scripts inputs tx (seq 0 (length (vin tx))) flags cacheStore pvChecks state in
      Ret (mkInputs inputs r nFees nValueIn pvChecks)
    else Ret (mkInputs inputs (true, state) nFees nValueIn pvChecks).
End Checks.

(** ** [CheckCoinstakeForVaults] *)

Definition MIN_FOR_SPLITTING : CAmount := 10000 * COIN.

(** The loop over the inputs: [None] is the early return, otherwise the value and
    the vault script that was found. *)
Fixpoint vault_inputs (v : CCoinsView) (ins : list CTxIn) (nValueIn : CAmount) (vaultScript : option CScript)
    : io (CCoinsView * option (CAmount * option CScript)) :=
  match ins with
  | [] => Ret (v, Some (nValueIn, vaultScript))
  | i :: ins =>
      let* '(v, prevOut) := GetOutputFor v i in
      let* nValueIn := amount_add nValueIn (nValue prevOut) in
      if negb (IsStakingVaultScript (scriptPubKey prevOut)) then vault_inputs v ins nValueIn vaultScript
      else
        match vaultScript with
        | Some s => if negb (bool_decide (s = scriptPubKey prevOut)) then Ret (v, None) else vault_inputs v ins nValueIn vaultScript
        | None => vault_inputs v ins nValueIn (Some (scriptPubKey prevOut))
        end
  end.

Definition CheckCoinstakeForVaults (tx : CMutableTransaction) (expectedRewards : CBlockRewards) (v : CCoinsView) : io (CCoinsView * bool) :=
  if negb (IsCoinStake tx) then Ret (v, true) else
  let* '(v, found) := vault_inputs v (vin tx) 0 None in
  match found with
  | None => Ret (v, false)
  | Some (_, None) => Ret (v, true)
  | Some (nValueIn, Some vaultScript) =>
      oassert (2 <=? zlen (vout tx)) ;;;
      let* rewardOut := oaccess (vout tx !! 1%nat) in
      if negb (bool_decide (scriptPubKey rewardOut = vaultScript)) then Ret (v, false) else
      let actualOutput := nValue rewardOut in
      let* actualOutput :=
        match vout tx !! 2%nat with
        | Some out2 =>
            if (actualOutput >=? MIN_FOR_SPLITTING) && (nValue out2 >=? MIN_FOR_SPLITTING) && bool_decide (scriptPubKey out2 = vaultScript)
            then amount_add actualOutput (nValue out2) else Ret actualOutput
        | None => Ret actualOutput
        end in
      let* expectedOutput := amount_add nValueIn (nStakeReward expectedRewards) in
      Ret (v, negb (actualOutput <? expectedOutput))
  end.

(** ** Reading changes nothing that a view shows *)

Definition is_cache (v : CCoinsView) : bool := match v with ViewCache _ _ => true | ViewDB _ => false end.

(** [v'] shows what [v] shows, coins and best block. *)
Definition reads (v v' : CCoinsView) : Prop :=
  view_ok v' /\ extends v v' /\ (GetBestBlock v').2 = (GetBestBlock v).2 /\ is_cache v' = is_cache v.

Lemma reads_refl v : view_ok v -> reads v v.
Proof. split; [done|]. split; [apply extends_refl | done]. Qed.

Lemma reads_trans v1 v2 v3 : reads v1 v2 -> reads v2 v3 -> reads v1 v3.
Proof.
  intros [_ [[V1 C1] [B1 K1]]] [H2 [[V2 C2] [B2 K2]]]. split; [done|]. split; [|split; congruence]. constructor; [intros k; by rewrite V2, V1 | auto].
Qed.

Lemma FetchCoins_best v k : (GetBestBlock (FetchCoins v k).1).2 = (GetBestBlock v).2.
Proof.
  induction v as [d|c base IH]; [done|]. cbn [FetchCoins]. destruct (cacheCoins c !! k); [done|].
  destruct (FetchCoins base k) as [base' r]. cbn [fst] in IH.
  destruct r; cbn [fst GetBestBlock with_cache cache_hashBlock]; destruct (bool_decide _); try done;
    destruct (GetBestBlock base'), (GetBestBlock base); cbn [snd] in *; done.
Qed.

Lemma GetBestBlock_twice v : (GetBestBlock (GetBestBlock v).1).2 = (GetBestBlock v).2.
Proof.
  induction v as [d|c base IH]; [done|]. cbn [GetBestBlock]. destruct (bool_decide (cache_hashBlock c = uint256_null)) eqn:E.
  - destruct (GetBestBlock base) as [base' h]. cbn [fst snd GetBestBlock cache_hashBlock] in *.
    destruct (bool_decide (h = uint256_null)); [|done]. destruct (GetBestBlock base'). done.
  - cbn [fst snd GetBestBlock]. by rewrite E.
Qed.

Lemma GetBestBlock_reads v : view_ok v -> reads v (GetBestBlock v).1.
Proof.
  intros H. destruct (GetBestBlock_spec v H). split; [done|]. split; [done|]. split; [apply GetBestBlock_twice|].
  destruct v as [d|c base]; [done|]. cbn [GetBestBlock]. destruct (bool_decide _); [by destruct (GetBestBlock base) | done].
Qed.

Lemma reads_coins v v' k : reads v v' -> coins_at v' k = coins_at v k.
Proof. intros [_ [[V _] _]]. unfold coins_at. by rewrite V. Qed.

(** The unspent output an input refers to. *)
Definition output_at (v : CCoinsView) (i : CTxIn) : option CTxOut :=
  match coins_at v (prev_hash (prevout i)) with
  | Some c => if IsAvailable c (Z.to_nat (prev_n (prevout i))) then coins_vout c !! Z.to_nat (prev_n (prevout i)) else None
  | None => None
  end.

Lemma reads_output v v' i : reads v v' -> output_at v' i = output_at v i.
Proof. intros H. unfold output_at. by rewrite (reads_coins v v' _ H). Qed.

Lemma AccessCoins_spec v k : view_ok v -> exists v', AccessCoins v k = (v', view v k) /\ reads v v'.
Proof.
  intros Hok. pose proof (FetchCoins_spec v k Hok) as H. pose proof (FetchCoins_best v k) as Hb. unfold AccessCoins.
  destruct (FetchCoins v k) as [v' r]. destruct H as (-> & H1 & H2 & _ & Hk). exists v'. split; [done|]. split; [done|]. split; [done|].
  split; [done|]. by destruct v, v'.
Qed.

Lemma output_available v i o : output_at v i = Some o ->
  exists c, view v (prev_hash (prevout i)) = Some c /\ coins_at v (prev_hash (prevout i)) = Some c /\
    IsAvailable c (Z.to_nat (prev_n (prevout i))) = true /\ coins_vout c !! Z.to_nat (prev_n (prevout i)) = Some o.
Proof.
  unfold output_at, coins_at, unspent. destruct (view v _) as [c|]; [|done]. destruct (IsPruned c); [done|].
  destruct (IsAvailable c _) eqn:E; [|done]. intros Ho. by exists c.
Qed.

Lemma output_unavailable v i c : output_at v i = None -> view v (prev_hash (prevout i)) = Some c ->
  IsAvailable c (Z.to_nat (prev_n (prevout i))) = false.
Proof.
  unfold output_at, coins_at, unspent. intros H Hv. rewrite Hv in H.
  destruct (IsAvailable c _) eqn:E; [|done]. rewrite (available_not_pruned c _ E), E in H.
  unfold IsAvailable in E. by rewrite H in E.
Qed.

Lemma GetOutputFor_spec v i o : view_ok v -> output_at v i = Some o -> exists v', GetOutputFor v i = Ret (v', o) /\ reads v v'.
Proof.
  intros Hok Ho. destruct (output_available v i o Ho) as (c & Hv & _ & Ha & Hl). unfold GetOutputFor.
  destruct (AccessCoins_spec v (prev_hash (prevout i)) Hok) as (v' & E & Hr). exists v'. rewrite E, Hv. cbn [oaccess obind].
  rewrite Ha. cbn [oassert obind]. by rewrite Hl.
Qed.

Lemma GetOutputFor_missing v i : view_ok v -> output_at v i = None -> GetOutputFor v i = Undef.
Proof.
  intros Hok Ho. unfold GetOutputFor. destruct (AccessCoins_spec v (prev_hash (prevout i)) Hok) as (v' & E & _). rewrite E.
  destruct (view v _) as [c|] eqn:Ev; [|done]. cbn [oaccess obind]. by rewrite (output_unavailable v i c Ho Ev).
Qed.

Lemma have_inputs_spec ins : forall v, view_ok v ->
  exists v', have_inputs v ins = (v', forallb (fun i => bool_decide (is_Some (output_at v i))) ins) /\ reads v v'.
Proof.
  induction ins as [|i ins IH]; intros v Hok; [exists v; split; [done | by apply reads_refl]|]. cbn [have_inputs forallb].
  destruct (AccessCoins_spec v (prev_hash (prevout i)) Hok) as (v1 & -> & Hr).
  destruct (output_at v i) as [o|] eqn:Eo.
  - destruct (output_available v i o Eo) as (c & -> & _ & -> & _). rewrite bool_decide_eq_true_2 by eauto. cbn [andb].
    destruct (IH v1 (proj1 Hr)) as (v2 & -> & Hr2). exists v2. split; [|by eapply reads_trans].
    f_equal. clear -Hr. induction ins as [|j ins IH]; [done|]. cbn [forallb]. by rewrite (reads_output v v1 j Hr), IH.
  - rewrite bool_decide_eq_false_2 by (intros [? ?]; done). cbn [andb]. exists v1. split; [|done].
    destruct (view v _) as [c|] eqn:Ev; [|done]. by rewrite (output_unavailable v i c Eo Ev).
Qed.

(** The outputs the inputs refer to; there is one for every input exactly when the
    view has the inputs. *)
Lemma have_outputs v ins : forallb (fun i => bool_decide (is_Some (output_at v i))) ins = true <->
  exists outs, Forall2 (fun i o => output_at v i = Some o) ins outs.
Proof.
  split.
  - induction ins as [|i ins IH]; [by exists []|]. cbn [forallb]. rewrite andb_true_iff, bool_decide_eq_true.
    intros [[o Ho] Hr]. destruct (IH Hr) as [outs H]. exists (o :: outs). by constructor.
  - intros [outs H]. induction H as [|i o ins outs Ho _ IH]; [done|]. cbn [forallb]. rewrite IH, bool_decide_eq_true_2 by eauto. done.
Qed.

Definition total_value (outs : list CTxOut) : CAmount := foldr (fun o s => nValue o + s) 0 outs.

(** The check failed and said so in the state. *)
Definition rejected (s : CValidationState) (r : bool * CValidationState) : Prop :=
  r.1 = false /\ exists level code reason, r.2 = DoS s level code reason false.

Lemma dos_rejected s level reason : rejected s (dos s level reason).
Proof. split; [done | by exists level, REJECT_INVALID, reason]. Qed.

Lemma MoneyRange_iff n m : MoneyRange n m = true <-> 0 <= n <= m.
Proof. unfold MoneyRange. rewrite andb_true_iff, !Z.leb_le. done. Qed.

Lemma amount_add_ok a b : - 2 ^ 63 <= a + b < 2 ^ 63 -> amount_add a b = Ret (a + b).
Proof. intros H. unfold amount_add. by rewrite (proj2 (Z.leb_le _ _)), (proj2 (Z.ltb_lt _ _)) by lia. Qed.

Definition moderate (o : CTxOut) : Prop := - 2 ^ 62 <= nValue o < 2 ^ 62.

Section Values.
Context {SH : ScriptHashes}.
Variables (maxMoney maturity : Z).
Hypothesis max_moderate : 0 <= maxMoney < 2 ^ 62.

(** The input spends an output of a coinbase or coinstake too early. *)
Definition immature (v : CCoinsView) (nSpendHeight : Z) (i : CTxIn) : bool :=
  match coins_at v (prev_hash (prevout i)) with
  | Some c => (fCoinBase c || fCoinStake c) && (nSpendHeight - coins_nHeight c <? maturity)
  | None => false
  end.

Definition in_range (o : CTxOut) : bool := MoneyRange (nValue o) maxMoney.

Lemma total_nonneg outs : forallb in_range outs = true -> 0 <= total_value outs.
Proof.
  induction outs as [|o outs IH]; [done|]. cbn [forallb]. rewrite andb_true_iff. intros [Ho Hr].
  apply MoneyRange_iff in Ho. specialize (IH Hr). unfold total_value in *. cbn [foldr]. lia.
Qed.

Lemma check_values_spec h st ins outs : forall v acc, view_ok v -> Forall2 (fun i o => output_at v i = Some o) ins outs ->
  Forall moderate outs -> 0 <= acc <= maxMoney ->
  exists v' r acc', check_values maxMoney maturity v ins h acc st = Ret (v', r, acc') /\ reads v v' /\
    if forallb (fun i => negb (immature v h i)) ins && forallb in_range outs && (acc + total_value outs <=? maxMoney)
    then r = (true, st) /\ acc' = acc + total_value outs else rejected st r.
Proof.
  intros v acc Hok H. revert v acc Hok H. revert outs. induction ins as [|i ins IH]; intros outs v acc Hok H Hf Hacc.
  { inversion H; subst outs. exists v, (true, st), acc. split; [done|]. split; [by apply reads_refl|]. cbn. rewrite (proj2 (Z.leb_le _ _)) by lia. split; [done | lia]. }
  apply Forall2_cons_inv_l in H as (o & outs' & Ho & H & ->). apply Forall_cons in Hf as [Hm Hf]. unfold moderate in Hm.
  destruct (output_available v i o Ho) as (c & Hv & Hc & _ & Hl). cbn [check_values].
  destruct (AccessCoins_spec v (prev_hash (prevout i)) Hok) as (v1 & -> & Hr). rewrite Hv. cbn [oaccess obind forallb].
  assert (Ei : immature v h i = (fCoinBase c || fCoinStake c) && (h - coins_nHeight c <? maturity)) by (unfold immature; by rewrite Hc).
  rewrite Ei. destruct ((fCoinBase c || fCoinStake c) && (h - coins_nHeight c <? maturity)); cbn [negb andb].
  { eexists _, _, _. split; [reflexivity|]. split; [done|]. split; [done|]. by eexists _, _, _. }
  rewrite Hl. cbn [oaccess obind]. rewrite amount_add_ok by lia. cbn [obind total_value foldr]. fold (total_value outs').
  unfold in_range at 1. destruct (MoneyRange (nValue o) maxMoney) eqn:E1; cbn [negb orb andb].
  2: { rewrite andb_false_r. cbn [andb]. eexists _, _, _. split; [reflexivity|]. split; [done | apply dos_rejected]. }
  apply MoneyRange_iff in E1. destruct (MoneyRange (acc + nValue o) maxMoney) eqn:E2; cbn [negb].
  - apply MoneyRange_iff in E2. destruct (IH outs' v1 (acc + nValue o) (proj1 Hr)) as (v2 & r & acc' & -> & Hr2 & Hcase); [|done|lia|].
    { eapply Forall2_impl; [exact H|]. intros j x Hx. cbn beta in Hx. by rewrite (reads_output v v1 j Hr). }
    exists v2, r, acc'. split; [done|]. split; [by eapply reads_trans|]. rewrite Z.add_assoc.
    replace (forallb (fun i => negb (immature v h i)) ins) with (forallb (fun i => negb (immature v1 h i)) ins); [exact Hcase|].
    clear -Hr. induction ins as [|j ins IH]; [done|]. cbn [forallb]. rewrite IH. unfold immature. by rewrite (reads_coins v v1 _ Hr).
  - assert (Hlt : maxMoney < acc + nValue o). { destruct (Z.le_gt_cases (acc + nValue o) maxMoney); [|lia]. by rewrite (proj2 (MoneyRange_iff _ _)) in E2 by lia. }
    eexists _, _, _. split; [reflexivity|]. split; [done|].
    destruct (forallb in_range outs') eqn:Eo; [|rewrite andb_false_r; apply dos_rejected].
    apply total_nonneg in Eo. rewrite (proj2 (Z.leb_gt _ _)) by lia. rewrite andb_false_r. apply dos_rejected.
Qed.
End Values.

Section Scripts.
Context {SH : ScriptHashes}.
Variable Verify : CPubKey -> base_uint -> valtype -> bool.
Variables (tx : CMutableTransaction) (flags : Z) (cache : bool).

(** The checks of the inputs from the [k]-th on. *)
Definition checks_of (k : nat) (outs : list CTxOut) : list CScriptCheck :=
  imap (fun j o => mkCheck (scriptPubKey o) tx (k + j) flags cache) outs.

Lemma checks_of_cons k o outs : checks_of k (o :: outs) = mkCheck (scriptPubKey o) tx k flags cache :: checks_of (S k) outs.
Proof.
  unfold checks_of. cbn [imap]. rewrite Nat.add_0_r. f_equal. apply imap_ext. intros j x _. cbn. by rewrite Nat.add_succ_r.
Qed.

Definition passes (c : CScriptCheck) : bool := match run_check Verify c with Ret b => b | _ => false end.

Definition readable (c : CScriptCheck) : Prop :=
  bytes_ok (check_scriptPubKey c) /\ exists i, vin (ptxTo c) !! check_nIn c = Some i /\ bytes_ok (scriptSig i).

Lemma run_check_total c : readable c -> run_check Verify c = Ret (passes c).
Proof.
  intros [Hp (i & Hi & Hs)]. unfold passes, run_check. rewrite Hi. cbn [oaccess obind].
  pose proof (VerifyScript_total_aux (check_nFlags c) (TransactionSignatureChecker Verify (ptxTo c) (check_nIn c)) _ _ Hs Hp) as H.
  by destruct (VerifyScript _ _ _ _).
Qed.

Lemma scripts_step k v o outs : view_ok v -> Forall2 (fun i o => output_at v i = Some o) (drop k (vin tx)) (o :: outs) ->
  exists i v' c, vin tx !! k = Some i /\ AccessCoins v (prev_hash (prevout i)) = (v', Some c) /\ reads v v' /\
    (forall f, CScriptCheck_of c tx k f cache = Ret (mkCheck (scriptPubKey o) tx k f cache)) /\
    Forall2 (fun i o => output_at v' i = Some o) (drop (S k) (vin tx)) outs.
Proof.
  intros Hok H. destruct (drop k (vin tx)) as [|i rest] eqn:E; [by inversion H|]. apply Forall2_cons in H as [Ho H].
  assert (Hi : vin tx !! k = Some i) by (rewrite <-(Nat.add_0_r k), <-lookup_drop, E; done).
  assert (drop (S k) (vin tx) = rest) as -> by (by apply drop_S in Hi; rewrite E in Hi; injection Hi).
  destruct (output_available v i o Ho) as (c & Hv & _ & _ & Hl). destruct (AccessCoins_spec v (prev_hash (prevout i)) Hok) as (v' & Ea & Hr).
  exists i, v', c. split; [done|]. split; [by rewrite Ea, Hv|]. split; [done|]. split.
  - intros f. unfold CScriptCheck_of. rewrite Hi. cbn [oaccess obind]. by rewrite Hl.
  - eapply Forall2_impl; [exact H|]. intros j x Hx. cbn beta in Hx. by rewrite (reads_output v v' j Hr).
Qed.

Lemma scripts_queued st outs : forall k v queue, view_ok v -> Forall2 (fun i o => output_at v i = Some o) (drop k (vin tx)) outs ->
  exists v', check_scripts Verify v tx (seq k (length outs)) flags cache (Some queue) st = Ret (v', (true, st), Some (queue ++ checks_of k outs)) /\
    reads v v'.
Proof.
  induction outs as [|o outs IH]; intros k v queue Hok H.
  { exists v. split; [by rewrite app_nil_r | by apply reads_refl]. }
  destruct (scripts_step k v o outs Hok H) as (i & v1 & c & Hi & Ea & Hr & Hc & H'). cbn [length seq check_scripts].
  rewrite Hi. cbn [oaccess obind]. rewrite Ea. cbn [oaccess obind]. rewrite Hc. cbn [obind].
  destruct (IH (S k) v1 (queue ++ [mkCheck (scriptPubKey o) tx k flags cache]) (proj1 Hr) H') as (v2 & -> & Hr2).
  exists v2. split; [by rewrite checks_of_cons, <-app_assoc | by eapply reads_trans].
Qed.

Lemma scripts_run st outs : forall k v, view_ok v -> Forall2 (fun i o => output_at v i = Some o) (drop k (vin tx)) outs ->
  Forall readable (checks_of k outs) ->
  exists v' r, check_scripts Verify v tx (seq k (length outs)) flags cache None st = Ret (v', r, None) /\ reads v v' /\
    if forallb passes (checks_of k outs) then r = (true, st) else rejected st r.
Proof.
  induction outs as [|o outs IH]; intros k v Hok H Hrd.
  { exists v, (true, st). split; [done|]. split; [by apply reads_refl | done]. }
  destruct (scripts_step k v o outs Hok H) as (i & v1 & c & Hi & Ea & Hr & Hc & H'). rewrite checks_of_cons in Hrd |- *.
  apply Forall_cons in Hrd as [Hr0 Hrd]. cbn [length seq check_scripts forallb]. rewrite Hi. cbn [oaccess obind]. rewrite Ea. cbn [oaccess obind].
  rewrite Hc. cbn [obind]. rewrite (run_check_total _ Hr0). cbn [obind].
  destruct (passes (mkCheck (scriptPubKey o) tx k flags cache)); cbn [negb andb].
  - destruct (IH (S k) v1 (proj1 Hr) H' Hrd) as (v2 & r & -> & Hr2 & Hcase). exists v2, r. split; [done|]. split; [by eapply reads_trans | done].
  - destruct (has_flag flags STANDARD_NOT_MANDATORY_VERIFY_FLAGS).
    + rewrite Hc. cbn [obind]. assert (Hr1 : readable (mkCheck (scriptPubKey o) tx k (Z.ldiff flags STANDARD_NOT_MANDATORY_VERIFY_FLAGS) cache)) by exact Hr0.
      rewrite (run_check_total _ Hr1). cbn [obind]. destruct (passes _); eexists _, _; (split; [reflexivity|]); (split; [done|]);
        [by split; [|eexists _, _, _] | apply dos_rejected].
    + cbn [obind]. eexists _, _. split; [reflexivity|]. split; [done | apply dos_rejected].
Qed.
End Scripts.

(** ** [CheckInputs] accepts exactly the spends the view allows *)

Section Inputs.
Context {SH : ScriptHashes}.
Variable Verify : CPubKey -> base_uint -> valtype -> bool.
Variables (maxMoney maturity : Z).
Variable heap : index_heap.
Variable blockIndexMap : gmap (list Z) positive.
Hypothesis max_moderate : 0 <= maxMoney < 2 ^ 62.

Definition spend_allowed (v : CCoinsView) (height : Z) (tx : CMutableTransaction) (outs : list CTxOut) (out : CAmount) : bool :=
  forallb (fun i => negb (immature maturity v height i)) (vin tx) && forallb (in_range maxMoney) outs && (total_value outs <=? maxMoney) &&
  (IsCoinStake tx || (out <=? total_value outs)).

Definition fees_of (tx : CMutableTransaction) (outs : list CTxOut) (out : CAmount) : CAmount :=
  if IsCoinStake tx then 0 else total_value outs - out.

(** The scripts: queued, run at once, or skipped. *)
Definition scripts_pass (checks : list CScriptCheck) (fScriptChecks : bool) (queue : option (list CScriptCheck)) : bool :=
  match queue with Some _ => true | None => negb fScriptChecks || forallb (passes Verify) checks end.

Lemma value_out_bounds l : forall acc r, value_out_loop acc l = Ret r -> 0 <= acc -> acc <= r < 2 ^ 63 \/ l = [].
Proof.
  induction l as [|o l IH]; intros acc r; [by right|]. cbn [value_out_loop]. intros E Hacc. left.
  destruct (Z.ltb_spec (nValue o) 0); [done|]. destruct (Z.leb_spec (2 ^ 63) (acc + nValue o)); [done|].
  destruct (Z.ltb_spec (acc + nValue o) acc); [done|]. destruct (IH _ _ E ltac:(lia)) as [?| ->]; [lia|]. injection E as <-. lia.
Qed.

Lemma GetValueOut_bounds tx out : GetValueOut tx = Ret out -> 0 <= out < 2 ^ 63.
Proof. intros E. destruct (value_out_bounds _ _ _ E ltac:(lia)) as [?|Hn]; [lia|]. unfold GetValueOut in E. rewrite Hn in E. injection E as <-. lia. Qed.

Lemma tally_fees_spec tx st total out : GetValueOut tx = Ret out -> 0 <= total <= maxMoney ->
  tally_fees maxMoney tx st total 0 =
  if IsCoinStake tx || (out <=? total) then Ret ((true, st), if IsCoinStake tx then 0 else total - out) else Ret (dos st 100 "bad-txns-in-belowout", 0).
Proof.
  intros Hout Ht. pose proof (GetValueOut_bounds tx out Hout). unfold tally_fees. destruct (IsCoinStake tx); cbn [negb orb]; [done|].
  rewrite Hout. cbn [obind]. destruct (Z.ltb_spec total out); [by rewrite (proj2 (Z.leb_gt _ _))|].
  rewrite (proj2 (Z.leb_le _ _)), (proj2 (Z.ltb_ge _ _)), amount_add_ok by lia. cbn [obind].
  rewrite (proj2 (MoneyRange_iff (0 + (total - out)) maxMoney)) by lia. cbn [negb]. by rewrite Z.add_0_l.
Qed.

Lemma CheckInputs_spec v tx st p b out fScriptChecks flags cache queue dosFlag :
  view_ok v -> IsCoinBase tx = false ->
  blockIndexMap !! ((GetBestBlock v).2 : list Z) = Some p -> heap !! p = Some b ->
  GetValueOut tx = Ret out ->
  Forall (fun i => bytes_ok (scriptSig i) /\ forall o, output_at v i = Some o -> moderate o /\ bytes_ok (scriptPubKey o)) (vin tx) ->
  exists r, CheckInputs Verify maxMoney maturity heap blockIndexMap tx st v 0 0 fScriptChecks flags cache queue dosFlag = Ret r /\
    reads v (ci_view r) /\
    match mapM (output_at v) (vin tx) with
    | Some outs =>
        if spend_allowed v (nHeight b + 1) tx outs out && scripts_pass (checks_of tx flags cache 0 outs) fScriptChecks queue
        then ci_result r = (true, st) /\ ci_nValueIn r = total_value outs /\ ci_nFees r = fees_of tx outs out /\
          ci_checks r = option_map (fun q => if fScriptChecks then q ++ checks_of tx flags cache 0 outs else q) queue
        else rejected st (ci_result r)
    | None => rejected st (ci_result r)
    end.
Proof.
  intros Hok Hcb Hp Hb Hout Hins. unfold CheckInputs. rewrite Hcb. unfold HaveInputs. rewrite Hcb. cbn [negb].
  destruct (have_inputs_spec (vin tx) v Hok) as (v1 & -> & Hr1).
  destruct (mapM (output_at v) (vin tx)) as [outs|] eqn:Em.
  2: { destruct (forallb _ (vin tx)) eqn:Ef.
       - apply have_outputs in Ef as [outs Ho]. apply mapM_Some in Ho. congruence.
       - cbn [negb]. eexists. split; [reflexivity|]. split; [done|]. cbn [ci_result]. destruct dosFlag; [apply dos_rejected|]. split; [done|]. by eexists _, _, _. }
  apply mapM_Some in Em as Hall. rewrite (proj2 (have_outputs v (vin tx)) (ex_intro _ outs Hall)). cbn [negb].
  pose proof (GetBestBlock_reads v1 (proj1 Hr1)) as Hr2. destruct (GetBestBlock v1) as [v2 best] eqn:Ebest. cbn [fst] in Hr2.
  assert (best = (GetBestBlock v).2) as ->. { destruct Hr1 as (_ & _ & <- & _). by rewrite Ebest. }
  rewrite Hp. unfold deref. cbn [oaccess obind]. rewrite Hb. cbn [oaccess obind].
  assert (Hr12 : reads v v2) by (by eapply reads_trans).
  assert (Hm : Forall moderate outs).
  { clear -Hall Hins. induction Hall as [|i o l k Ho _ IH]; constructor; apply Forall_cons in Hins as [[_ Hi] Hins]; [by apply Hi | by apply IH]. }
  assert (Hall2 : Forall2 (fun i o => output_at v2 i = Some o) (vin tx) outs).
  { eapply Forall2_impl; [exact Hall|]. intros j x Hx. cbn beta in Hx. by rewrite (reads_output v v2 j Hr12). }
  destruct (check_values_spec maxMoney maturity max_moderate (nHeight b + 1) st (vin tx) outs v2 0 (proj1 Hr12) Hall2 Hm ltac:(lia))
    as (v3 & r & acc & -> & Hr3 & Hcase). cbn [obind].
  assert (Hr13 : reads v v3) by (by eapply reads_trans).
  assert (Eim : forallb (fun i => negb (immature maturity v2 (nHeight b + 1) i)) (vin tx) = forallb (fun i => negb (immature maturity v (nHeight b + 1) i)) (vin tx)).
  { clear -Hr12. induction (vin tx) as [|j ins IH]; [done|]. cbn [forallb]. rewrite IH. unfold immature. by rewrite (reads_coins v v2 _ Hr12). }
  rewrite Eim, Z.add_0_l in Hcase. unfold spend_allowed.
  destruct (forallb (fun i => negb (immature maturity v (nHeight b + 1) i)) (vin tx) && forallb (in_range maxMoney) outs && (total_value outs <=? maxMoney)) eqn:Eval; cbn [andb].
  2: { destruct r as [ok st']. pose proof Hcase as [Hf _]. cbn [fst] in Hf. subst ok. cbn [negb]. eexists. split; [reflexivity|]. by split. }
  destruct Hcase as [-> ->]. cbn [negb]. apply andb_prop in Eval as [Eval Etot]. apply Z.leb_le in Etot.
  apply andb_prop in Eval as [_ Erange]. apply (total_nonneg maxMoney) in Erange. pose proof (GetValueOut_bounds tx out Hout) as Hob.
  rewrite (tally_fees_spec tx st (total_value outs) out Hout ltac:(lia)). unfold fees_of.
  destruct (IsCoinStake tx || (out <=? total_value outs)); cbn [obind negb andb].
  2: { eexists. split; [reflexivity|]. split; [done | apply dos_rejected]. }
  destruct fScriptChecks; cbn [scripts_pass negb orb].
  2: { eexists. split; [reflexivity|]. split; [done|]. by destruct queue. }
  assert (Hall3 : Forall2 (fun i o => output_at v3 i = Some o) (drop 0 (vin tx)) outs).
  { rewrite drop_0. eapply Forall2_impl; [exact Hall|]. intros j x Hx. cbn beta in Hx. by rewrite (reads_output v v3 j Hr13). }
  rewrite (Forall2_length _ _ _ Hall). destruct queue as [q|].
  - destruct (scripts_queued Verify tx flags cache st outs 0 v3 q (proj1 Hr13) Hall3) as (v4 & -> & Hr4). cbn [obind].
    eexists. split; [reflexivity|]. split; [by eapply reads_trans | done].
  - destruct (scripts_run Verify tx flags cache st outs 0 v3 (proj1 Hr13) Hall3) as (v4 & r & -> & Hr4 & Hs).
    { apply Forall_lookup. intros j c Hj. unfold checks_of in Hj. rewrite list_lookup_imap in Hj.
      destruct (outs !! j) as [o|] eqn:Eo; [|done]. injection Hj as <-. destruct (Forall2_lookup_r _ _ _ _ _ Hall Eo) as (i & Hi & Ho).
      rewrite Forall_lookup in Hins. destruct (Hins j i Hi) as [Hs Hio]. split; [by apply Hio|]. exists i. by split. }
    cbn [obind]. eexists. split; [reflexivity|]. split; [by eapply reads_trans|]. cbn [ci_result ci_nValueIn ci_nFees ci_checks].
    cbn [scripts_pass negb orb]. destruct (forallb (passes Verify) (checks_of tx flags cache 0 outs)); [|done]. by subst r.
Qed.
End Inputs.

(** ** [CheckTransaction] *)

Section Transactions.
Variable maxMoney : CAmount.
Hypothesis max_moderate : 0 <= maxMoney < 2 ^ 62.

(** Signed 64-bit values, as the transaction format has them. *)
Definition output_values (tx : CMutableTransaction) : Prop := Forall (fun o => - 2 ^ 63 <= nValue o < 2 ^ 63) (vout tx).

Definition outputs_valid (tx : CMutableTransaction) (outs : list CTxOut) (acc : CAmount) : Prop :=
  (IsCoinBase tx = false -> IsCoinStake tx = false -> Forall (fun o => CTxOut_IsEmpty o = false) outs) /\
  Forall (fun o => 0 <= nValue o) outs /\ acc + total_value outs <= maxMoney.

Lemma total_value_nonneg outs : Forall (fun o => 0 <= nValue o) outs -> 0 <= total_value outs.
Proof. induction 1 as [|o outs Ho _ IH]; [done|]. unfold total_value in *. cbn [foldr]. lia. Qed.

Lemma check_outputs_spec tx st outs : forall acc, 0 <= acc <= maxMoney ->
  exists r, check_outputs maxMoney tx outs acc st = Ret r /\
    (r = (true, st) /\ outputs_valid tx outs acc \/ rejected st r /\ ~ outputs_valid tx outs acc).
Proof.
  induction outs as [|o outs IH]; intros acc Hacc.
  { exists (true, st). split; [done|]. left. split; [done|]. split; [constructor|]. split; [constructor | cbn; lia]. }
  cbn [check_outputs]. destruct (CTxOut_IsEmpty o && negb (IsCoinBase tx) && negb (IsCoinStake tx)) eqn:Ee.
  { eexists. split; [reflexivity|]. right. split; [split; [done | by eexists _, _, _]|]. intros [He _].
    apply andb_prop in Ee as [[E1 E2%negb_true_iff]%andb_prop E3%negb_true_iff]. specialize (He E2 E3). apply Forall_cons in He as [He _]. congruence. }
  destruct (MoneyRange (nValue o) maxMoney) eqn:E1; cbn [negb].
  2: { eexists. split; [reflexivity|]. right. split; [apply dos_rejected|]. intros (_ & [H0 Hn]%Forall_cons & Ht). apply total_value_nonneg in Hn.
       cbn [total_value foldr] in Ht. fold (total_value outs) in Ht. by rewrite (proj2 (MoneyRange_iff _ _)) in E1 by lia. }
  apply MoneyRange_iff in E1. rewrite amount_add_ok by lia. cbn [obind]. destruct (MoneyRange (acc + nValue o) maxMoney) eqn:E2; cbn [negb].
  2: { eexists. split; [reflexivity|]. right. split; [apply dos_rejected|]. intros (_ & [H0 Hn]%Forall_cons & Ht). apply total_value_nonneg in Hn.
       cbn [total_value foldr] in Ht. fold (total_value outs) in Ht. by rewrite (proj2 (MoneyRange_iff _ _)) in E2 by lia. }
  apply MoneyRange_iff in E2. destruct (IH (acc + nValue o) ltac:(lia)) as (r & -> & Hr). exists r. split; [done|].
  assert (Hiff : outputs_valid tx (o :: outs) acc <-> outputs_valid tx outs (acc + nValue o)).
  { unfold outputs_valid. rewrite !Forall_cons. cbn [total_value foldr]. fold (total_value outs). rewrite Z.add_assoc. split.
    - intros (He & [_ Hn] & Ht). split; [|done]. intros H1 H2. by apply (He H1 H2).
    - intros (He & Hn & Ht). split; [|by split; [split; [lia|]|]]. intros H1 H2. split; [|by apply He].
      rewrite H1, H2 in Ee. cbn [negb] in Ee. by rewrite !andb_true_r in Ee. }
  by rewrite Hiff.
Qed.

Lemma duplicate_inputs_spec ins : forall seen, NoDup seen ->
  (duplicate_inputs ins seen = false <-> NoDup (map prevout ins) /\ forall p, p ∈ map prevout ins -> p ∉ seen).
Proof.
  induction ins as [|i ins IH]; intros seen Hs; cbn [duplicate_inputs map].
  { split; [|done]. intros _. split; [constructor|]. intros p Hp. by apply elem_of_nil in Hp. }
  rewrite orb_false_iff, bool_decide_eq_false, NoDup_cons. split.
  - intros [Hi Hd]. apply IH in Hd as [Hnd Hd]; [|by constructor]. split.
    + split; [|done]. intros Hin. apply (Hd _ Hin). left.
    + intros p [->|Hp]%elem_of_cons; [done|]. intros Hq. apply (Hd p Hp). by right.
  - intros [[Hi Hnd] Hd]. split; [apply Hd; left|]. apply IH.
    + constructor; [apply Hd; left | done].
    + split; [done|]. intros p Hp [->|Hq]%elem_of_cons; [done|]. by apply (Hd p); [right|].
Qed.

(** What a transaction has to satisfy without any context. *)
Record tx_valid (tx : CMutableTransaction) : Prop := mkValid {
  tv_vin : vin tx <> []; tv_vout : vout tx <> [];
  tv_size : GetSerializeSize mutable_codec tx <= 100000;
  tv_outputs : outputs_valid tx (vout tx) 0;
  tv_inputs : NoDup (map prevout (vin tx));
  tv_coinbase : IsCoinBase tx = true -> exists i, head (vin tx) = Some i /\ 2 <= zlen (scriptSig i) <= 150
}.

Lemma CheckTransaction_spec tx st :
  exists r, CheckTransaction maxMoney tx st = Ret r /\ (r = (true, st) /\ tx_valid tx \/ rejected st r /\ ~ tx_valid tx).
Proof.
  unfold CheckTransaction. destruct (vin tx) as [|i0 ins] eqn:Ei.
  { eexists. split; [reflexivity|]. right. split; [apply dos_rejected|]. intros [H _ _ _ _ _]. congruence. }
  destruct (vout tx) as [|o0 outs] eqn:Eo.
  { eexists. split; [reflexivity|]. right. split; [apply dos_rejected|]. intros [_ H _ _ _ _]. congruence. }
  unfold MAX_STANDARD_TX_SIZE. destruct (Z.gtb_spec (GetSerializeSize mutable_codec tx) 100000).
  { eexists. split; [reflexivity|]. right. split; [apply dos_rejected|]. intros [_ _ H0 _ _ _]. lia. }
  destruct (check_outputs_spec tx st (o0 :: outs) 0 ltac:(lia)) as (r & -> & [[-> Hv]|[Hr Hn]]); cbn [obind].
  2: { destruct r as [ok st']. pose proof Hr as [Hf _]. cbn [fst] in Hf. subst ok. cbn [negb]. eexists. split; [reflexivity|]. right. split; [done|].
       intros [_ _ _ H0 _ _]. rewrite Eo in H0. done. }
  cbn [negb]. pose proof (duplicate_inputs_spec (i0 :: ins) [] ltac:(constructor)) as Hd.
  destruct (duplicate_inputs (i0 :: ins) []).
  { eexists. split; [reflexivity|]. right. split; [apply dos_rejected|]. intros [_ _ _ _ H0 _]. rewrite Ei in H0.
    enough (true = false) by done. apply Hd. split; [done|]. intros p _ Hp. by apply elem_of_nil in Hp. }
  destruct (proj1 Hd eq_refl) as [Hnd _]. destruct (IsCoinBase tx && ((zlen (scriptSig i0) <? 2) || (zlen (scriptSig i0) >? 150))) eqn:Ec.
  { eexists. split; [reflexivity|]. right. split; [apply dos_rejected|]. intros [_ _ _ _ _ H0]. apply andb_prop in Ec as [Hc Hl].
    destruct (H0 Hc) as (i & Hi & Hb). rewrite Ei in Hi. injection Hi as <-.
    apply orb_true_iff in Hl as [Hl%Z.ltb_lt|Hl]; [lia|]. destruct (Z.gtb_spec (zlen (scriptSig i0)) 150); [lia | done]. }
  eexists. split; [reflexivity|]. left. split; [done|]. constructor; rewrite ?Ei, ?Eo; try done.
  intros Hc. rewrite Hc in Ec. cbn [andb] in Ec. apply orb_false_iff in Ec as [E1%Z.ltb_ge E2]. exists i0. split; [done|].
  destruct (Z.gtb_spec (zlen (scriptSig i0)) 150); [done | lia].
Qed.

(** The outputs of a valid transaction add up. *)
Lemma value_out_sum l : forall acc, Forall (fun o => 0 <= nValue o) l -> 0 <= acc -> acc + total_value l < 2 ^ 63 ->
  value_out_loop acc l = Ret (acc + total_value l).
Proof.
  induction l as [|o l IH]; intros acc H Hacc Hs; cbn [value_out_loop total_value foldr] in *; [by rewrite Z.add_0_r|].
  fold (total_value l) in *. apply Forall_cons in H as [Ho H]. pose proof (total_value_nonneg l H).
  rewrite (proj2 (Z.ltb_ge _ _)), (proj2 (Z.leb_gt _ _)), (proj2 (Z.ltb_ge _ _)) by lia. rewrite IH by (done || lia). f_equal. lia.
Qed.

Lemma valid_value_out tx : tx_valid tx -> GetValueOut tx = Ret (total_value (vout tx)) /\ 0 <= total_value (vout tx) <= maxMoney.
Proof.
  intros [_ _ _ (_ & Hn & Ht) _ _]. pose proof (total_value_nonneg _ Hn). unfold GetValueOut. rewrite value_out_sum by (done || lia).
  rewrite Z.add_0_l. split; [done | lia].
Qed.
End Transactions.

(** ** [CheckCoinstakeForVaults] *)

Section Vaults.
Variable maxMoney : CAmount.
Hypothesis max_moderate : 0 <= maxMoney < 2 ^ 62.

(** The vault scripts among the outputs that are spent. *)
Definition vault_scripts (outs : list CTxOut) : list CScript := filter (fun s => IsStakingVaultScript s = true) (map scriptPubKey outs).

(** All vault scripts, with the one found so far, are the one returned. *)
Definition one_vault (cur : option CScript) (vaults : list CScript) (s : option CScript) : Prop :=
  match cur with Some c => s = Some c | None => s = head vaults end /\ Forall (fun x => s = Some x) vaults.

Lemma vault_inputs_spec ins outs : forall v acc cur, view_ok v -> Forall2 (fun i o => output_at v i = Some o) ins outs ->
  Forall (fun o => 0 <= nValue o) outs -> 0 <= acc -> acc + total_value outs <= maxMoney ->
  exists v' r, vault_inputs v ins acc cur = Ret (v', r) /\ reads v v' /\
    match r with
    | Some (total, s) => total = acc + total_value outs /\ one_vault cur (vault_scripts outs) s
    | None => forall s, ~ one_vault cur (vault_scripts outs) s
    end.
Proof.
  intros v acc cur Hok H. revert v acc cur Hok H. revert outs. induction ins as [|i ins IH]; intros outs v acc cur Hok H Hn Hacc Ht.
  { inversion H; subst outs. exists v, (Some (acc, cur)). split; [done|]. split; [by apply reads_refl|]. split; [cbn; lia|].
    split; [by destruct cur | constructor]. }
  apply Forall2_cons_inv_l in H as (o & outs' & Ho & H & ->). apply Forall_cons in Hn as [H0 Hn].
  cbn [total_value foldr] in Ht. fold (total_value outs') in Ht. pose proof (total_value_nonneg _ Hn) as Hp. cbn [vault_inputs].
  destruct (GetOutputFor_spec v i o Hok Ho) as (v1 & -> & Hr). cbn [obind]. rewrite amount_add_ok by lia. cbn [obind].
  assert (H1 : Forall2 (fun i o => output_at v1 i = Some o) ins outs').
  { eapply Forall2_impl; [exact H|]. intros j x Hx. cbn beta in Hx. by rewrite (reads_output v v1 j Hr). }
  assert (Hstep : forall cur', exists v' r, vault_inputs v1 ins (acc + nValue o) cur' = Ret (v', r) /\ reads v v' /\
    match r with
    | Some (total, s) => total = acc + (nValue o + total_value outs') /\ one_vault cur' (vault_scripts outs') s
    | None => forall s, ~ one_vault cur' (vault_scripts outs') s end).
  { intros cur'. destruct (IH outs' v1 (acc + nValue o) cur' (proj1 Hr) H1 Hn ltac:(lia) ltac:(lia)) as (v2 & r & -> & Hr2 & Hc).
    exists v2, r. split; [done|]. split; [by eapply reads_trans|]. rewrite Z.add_assoc. exact Hc. }
  cbn [total_value foldr]. fold (total_value outs'). unfold vault_scripts. cbn [map]. destruct (IsStakingVaultScript (scriptPubKey o)) eqn:Ev; cbn [negb].
  2: { rewrite filter_cons_False by congruence. apply Hstep. }
  rewrite filter_cons_True by done. fold (vault_scripts outs'). destruct cur as [c|].
  - destruct (decide (c = scriptPubKey o)) as [->|Hne]; [rewrite bool_decide_eq_true_2 by done | rewrite bool_decide_eq_false_2 by done]; cbn [negb].
    + destruct (Hstep (Some (scriptPubKey o))) as (v2 & r & -> & Hr2 & Hc). exists v2, r. split; [done|]. split; [done|].
      destruct r as [[total s]|]; [|intros s [Hs1 Hs2]; apply (Hc s); apply Forall_cons in Hs2 as [_ Hs2]; by split].
      destruct Hc as [-> [Hs1 Hs2]]. split; [done|]. split; [done|]. by constructor.
    + exists v1, None. split; [done|]. split; [done|]. intros s [-> Hs]. apply Forall_cons in Hs as [[= He] _]. done.
  - destruct (Hstep (Some (scriptPubKey o))) as (v2 & r & -> & Hr2 & Hc). exists v2, r. split; [done|]. split; [done|].
    destruct r as [[total s]|]; [|intros s [Hs1 Hs2]; apply (Hc s); apply Forall_cons in Hs2 as [_ Hs2]; by split].
    destruct Hc as [-> [Hs1 Hs2]]. split; [done|]. split; [done|]. by constructor.
Qed.

(** What the coinstake pays back to a script: its first output, and the second when
    both pay to the script and have the minimum for splitting. *)
Definition paid_back (outs : list CTxOut) (s : CScript) : CAmount :=
  match outs with
  | _ :: o1 :: rest =>
      if bool_decide (scriptPubKey o1 = s) then
        match rest with
        | o2 :: _ => if (10000 * COIN <=? nValue o1) && (10000 * COIN <=? nValue o2) && bool_decide (scriptPubKey o2 = s)
                     then nValue o1 + nValue o2 else nValue o1
        | [] => nValue o1
        end
      else -1
  | _ => -1
  end.

Lemma CheckCoinstakeForVaults_spec v tx rewards spent :
  view_ok v -> IsCoinStake tx = true -> mapM (output_at v) (vin tx) = Some spent ->
  Forall (fun o => 0 <= nValue o) spent -> total_value spent <= maxMoney ->
  Forall (fun o => 0 <= nValue o <= maxMoney) (vout tx) -> 0 <= nStakeReward rewards <= maxMoney ->
  exists v' ok, CheckCoinstakeForVaults tx rewards v = Ret (v', ok) /\ reads v v' /\
    (ok = true <-> exists s, one_vault None (vault_scripts spent) s /\
       match s with Some s => total_value spent + nStakeReward rewards <= paid_back (vout tx) s | None => True end).
Proof.
  intros Hok Hcs Hsp%mapM_Some Hn Ht Hout Hrew. unfold CheckCoinstakeForVaults. rewrite Hcs. cbn [negb].
  destruct (vault_inputs_spec _ _ v 0 None Hok Hsp Hn ltac:(lia) ltac:(lia)) as (v' & r & -> & Hr & Hc). cbn [obind].
  destruct r as [[total s]|]; cbn [one_vault] in Hc.
  2: { exists v', false. split; [done|]. split; [done|]. split; [done|]. intros (s & Hs & _). by destruct (Hc s). }
  destruct Hc as [-> Hs]. rewrite Z.add_0_l. destruct s as [s|].
  2: { exists v', true. split; [done|]. split; [done|]. split; [|done]. intros _. by exists None. }
  pose proof (total_value_nonneg _ Hn) as Hp.
  assert (Huniq : forall s', one_vault None (vault_scripts spent) s' -> s' = Some s). { intros s' [-> _]. by destruct Hs as [-> _]. }
  destruct (vout tx) as [|o0 [|o1 rest]] eqn:Eo; [by unfold IsCoinStake in Hcs; rewrite Eo in Hcs; destruct (vin tx) ..|].
  apply Forall_cons in Hout as [_ Hout]. apply Forall_cons in Hout as [H1 Hout].
  rewrite (proj2 (Z.leb_le 2 (zlen (o0 :: o1 :: rest)))) by (unfold zlen; cbn [length]; lia). cbn [oassert obind].
  change ((o0 :: o1 :: rest) !! 1%nat) with (Some o1). assert (E2 : (o0 :: o1 :: rest) !! 2%nat = head rest) by (by destruct rest). rewrite E2. cbn [oaccess obind]. destruct (bool_decide (scriptPubKey o1 = s)) eqn:E1; cbn [negb].
  2: { exists v', false. split; [done|]. split; [done|]. split; [done|]. intros (s' & Hs' & Hle). rewrite (Huniq s' Hs') in Hle. cbn [paid_back] in Hle. rewrite E1 in Hle. lia. }
  unfold MIN_FOR_SPLITTING. set (act := match head rest with Some _ => _ | None => _ end).
  assert (Hact : exists a, act = Ret a /\ a = paid_back (o0 :: o1 :: rest) s /\ 0 <= a).
  { unfold act. cbn [paid_back]. rewrite E1. destruct rest as [|o2 rest]; cbn [head]; [exists (nValue o1); split; [done | split; [done | lia]]|]. apply Forall_cons in Hout as [H2 _].
    rewrite !Z.geb_leb. destruct (_ && _ && _); [rewrite amount_add_ok by lia|]; eexists; (split; [reflexivity|]); split; (done || lia). }
  destruct Hact as (a & -> & Ea & _). cbn [obind]. rewrite amount_add_ok by lia. cbn [obind].
  eexists _, _. split; [reflexivity|]. split; [done|]. rewrite negb_true_iff, Z.ltb_ge. split.
  - intros Hle. exists (Some s). split; [done|]. by rewrite <-Ea.
  - intros (s' & Hs' & Hle). rewrite (Huniq s' Hs') in Hle. by rewrite Ea.
Qed.
End Vaults.

(** ** The checks on a coins view *)

Section Claims.
Context {SH : ScriptHashes}.
Variable Verify : CPubKey -> base_uint -> valtype -> bool.
Variables (maxMoney maturity : Z).
Variable heap : index_heap.
Variable blockIndexMap : gmap (list Z) positive.
Hypothesis max_moderate : 0 <= maxMoney < 2 ^ 62.

(** A transaction paying [out] may spend [outs] in a block of the given height. *)
Record spend_rules (v : CCoinsView) (height : Z) (tx : CMutableTransaction) (out : CAmount) (outs : list CTxOut) : Prop := mkRules {
  sr_unspent : Forall2 (fun i o => output_at v i = Some o) (vin tx) outs;
  sr_mature : Forall (fun i => immature maturity v height i = false) (vin tx);
  sr_range : Forall (fun o => 0 <= nValue o <= maxMoney) outs;
  sr_total : total_value outs <= maxMoney;
  sr_covered : IsCoinStake tx = false -> out <= total_value outs
}.

Lemma spend_allowed_iff v height tx out outs : mapM (output_at v) (vin tx) = Some outs ->
  (spend_allowed maxMoney maturity v height tx outs out = true <-> spend_rules v height tx out outs).
Proof.
  intros Hall%mapM_Some. unfold spend_allowed. rewrite !andb_true_iff, Z.leb_le, orb_true_iff, Z.leb_le, !forallb_forall.
  assert (H1 : (forall i, In i (vin tx) -> negb (immature maturity v height i) = true) <-> Forall (fun i => immature maturity v height i = false) (vin tx)).
  { rewrite Forall_forall. split; intros H i Hi; [apply negb_true_iff, H; by apply list_elem_of_In | rewrite H; [done | by apply list_elem_of_In]]. }
  assert (H2 : (forall o, In o outs -> in_range maxMoney o = true) <-> Forall (fun o => 0 <= nValue o <= maxMoney) outs).
  { rewrite Forall_forall. split; intros H o Ho; [apply MoneyRange_iff, H; by apply list_elem_of_In | apply MoneyRange_iff, H; by apply list_elem_of_In]. }
  rewrite H1, H2. split.
  - intros [[[? ?] ?] Hc]. constructor; try done. intros Hs. destruct Hc; [congruence | done].
  - intros [? ? ? ? Hc]. split; [done|]. destruct (IsCoinStake tx); [by left | right; by apply Hc].
Qed.

(** C9: in every state of the coins views, [CheckInputs] accepts a transaction
    exactly when each input refers to an unspent output, no coinbase or coinstake
    is spent before it matured, the values and their sum are in the range of money,
    a user transaction does not pay out more than it takes in, and, when the
    scripts are run at once, all of them succeed; with a queue it adds one check
    for each input.  It reports the value spent and the fee.  A refused transaction
    leaves the reason in the state.  Nothing the view shows changes. *)
Theorem CheckInputs_exact d v tx st p b out fScriptChecks flags cache queue dosFlag :
  db_ok d -> rtc coins_step (ViewDB d) v -> IsCoinBase tx = false ->
  blockIndexMap !! ((GetBestBlock v).2 : list Z) = Some p -> heap !! p = Some b ->
  GetValueOut tx = Ret out ->
  Forall (fun i => bytes_ok (scriptSig i) /\ forall o, output_at v i = Some o -> moderate o /\ bytes_ok (scriptPubKey o)) (vin tx) ->
  exists r, CheckInputs Verify maxMoney maturity heap blockIndexMap tx st v 0 0 fScriptChecks flags cache queue dosFlag = Ret r /\
    (forall k, coins_at (ci_view r) k = coins_at v k) /\
    ((ci_result r).1 = true <-> exists outs, spend_rules v (nHeight b + 1) tx out outs /\
       (queue = None -> fScriptChecks = true -> Forall (fun c => run_check Verify c = Ret true) (checks_of tx flags cache 0 outs))) /\
    ((ci_result r).1 = false -> rejected st (ci_result r)) /\
    ((ci_result r).1 = true -> exists outs, Forall2 (fun i o => output_at v i = Some o) (vin tx) outs /\
       ci_nValueIn r = total_value outs /\ ci_nFees r = fees_of tx outs out /\ (ci_result r).2 = st /\
       ci_checks r = option_map (fun q => if fScriptChecks then q ++ checks_of tx flags cache 0 outs else q) queue).
Proof.
  intros Hd Hv Hcb Hp Hb Hout Hins. pose proof (reachable_ok d v Hd Hv) as Hok.
  destruct (CheckInputs_spec Verify maxMoney maturity heap blockIndexMap max_moderate v tx st p b out fScriptChecks flags cache queue dosFlag Hok Hcb Hp Hb Hout Hins)
    as (r & E & Hr & Hcase). exists r. split; [done|]. split; [intros k; by apply reads_coins|].
  destruct (mapM (output_at v) (vin tx)) as [outs|] eqn:Em.
  2: { split; [|split; [done|]]; destruct Hcase as [Hf _]; rewrite Hf; [|done]. split; [done|]. intros (outs & [Hall _ _ _ _] & _).
       apply mapM_Some in Hall. congruence. }
  pose proof Em as Hall%mapM_Some.
  assert (Hruns : forall c, c ∈ checks_of tx flags cache 0 outs -> run_check Verify c = Ret (passes Verify c)).
  { intros c Hc. apply run_check_total. unfold checks_of in Hc. apply elem_of_lookup_imap in Hc as (j & o & -> & Ho).
    destruct (Forall2_lookup_r _ _ _ _ _ Hall Ho) as (i & Hi & Hio). rewrite Forall_lookup in Hins. destruct (Hins j i Hi) as [Hs Hio'].
    split; [by apply Hio'|]. exists i. by split. }
  assert (Hscripts : scripts_pass Verify (checks_of tx flags cache 0 outs) fScriptChecks queue = true <->
    (queue = None -> fScriptChecks = true -> Forall (fun c => run_check Verify c = Ret true) (checks_of tx flags cache 0 outs))).
  { unfold scripts_pass. destruct queue; [split; [by intros _ ?|done]|]. destruct fScriptChecks; cbn [negb orb]; [|split; [by intros _ _ ?|done]].
    rewrite forallb_forall, Forall_forall. split.
    - intros H _ _ c Hc. rewrite (Hruns c Hc). f_equal. by apply H, list_elem_of_In.
    - intros H c Hc%list_elem_of_In. specialize (H eq_refl eq_refl c Hc). rewrite (Hruns c Hc) in H. by injection H. }
  destruct (spend_allowed _ _ _ _ _ _ _ && _) eqn:Ea.
  - destruct Hcase as (Hres & Hvi & Hfe & Hch). rewrite Hres. cbn [fst snd]. apply andb_prop in Ea as [E1%(spend_allowed_iff _ _ _ _ _ Em) E2]. pose proof (proj1 Hscripts E2).
    split; [split; [intros _; by exists outs | done]|]. split; [done|]. intros _. by exists outs.
  - destruct Hcase as [Hf Hrej]. rewrite Hf. split; [|split; done]. split; [done|]. intros (outs' & Hrules & Hrun).
    pose proof (sr_unspent _ _ _ _ _ Hrules) as Hall'. apply mapM_Some in Hall'. assert (outs' = outs) as -> by congruence.
    apply (spend_allowed_iff _ _ _ _ _ Em) in Hrules. pose proof (proj2 Hscripts Hrun) as Hp'. by rewrite Hrules, Hp' in Ea.
Qed.

(** C22: a coinstake that spends staking vaults is accepted only if all the vaults
    it spends have one script and its outputs pay the value of all its inputs and
    the stake reward back to that script, in the first output or split over the
    first two of at least 10000 coins each; a coinstake that spends no vault is
    always accepted.  The vault's funds cannot be moved elsewhere by staking. *)
Theorem vault_stake_protected d v tx rewards spent :
  db_ok d -> rtc coins_step (ViewDB d) v -> IsCoinStake tx = true ->
  Forall2 (fun i o => output_at v i = Some o) (vin tx) spent ->
  Forall (fun o => 0 <= nValue o) spent -> total_value spent <= maxMoney ->
  Forall (fun o => 0 <= nValue o <= maxMoney) (vout tx) -> 0 <= nStakeReward rewards <= maxMoney ->
  exists v' ok, CheckCoinstakeForVaults tx rewards v = Ret (v', ok) /\ (forall k, coins_at v' k = coins_at v k) /\
    (ok = true <-> forall o, o ∈ spent -> IsStakingVaultScript (scriptPubKey o) = true ->
       Forall (fun o' => IsStakingVaultScript (scriptPubKey o') = true -> scriptPubKey o' = scriptPubKey o) spent /\
       total_value spent + nStakeReward rewards <= paid_back (vout tx) (scriptPubKey o)).
Proof.
  intros Hd Hv Hcs Hsp Hn Ht Hout Hrew. apply mapM_Some in Hsp.
  destruct (CheckCoinstakeForVaults_spec maxMoney max_moderate v tx rewards spent (reachable_ok d v Hd Hv) Hcs Hsp Hn Ht Hout Hrew) as (v' & ok & E & Hr & Hiff).
  exists v', ok. split; [done|]. split; [intros k; by apply reads_coins|]. rewrite Hiff.
  assert (Hin : forall s, s ∈ vault_scripts spent <-> exists o, o ∈ spent /\ IsStakingVaultScript (scriptPubKey o) = true /\ s = scriptPubKey o).
  { intros s. unfold vault_scripts. rewrite list_elem_of_filter, list_elem_of_fmap. split; [intros (Hs & o & -> & Ho) | intros (o & Ho & Hs & ->)]; eauto. }
  split.
  - intros (s & [Hhead Hall] & Hpaid) o Ho Hvault. rewrite Forall_forall in Hall. assert (Es : s = Some (scriptPubKey o)) by (apply Hall, Hin; eauto).
    subst s. rewrite Es in Hpaid. split; [|exact Hpaid]. apply Forall_forall. intros o' Ho' Hv'. specialize (Hall (scriptPubKey o') (proj2 (Hin _) ltac:(eauto))). congruence.
  - intros H. exists (head (vault_scripts spent)). destruct (vault_scripts spent) as [|s rest]; cbn [head]; [split; [split; [done | constructor] | done]|].
    assert (Hs : s ∈ s :: rest) by left. apply Hin in Hs as (o & Ho & Hv' & ->). destruct (H o Ho Hv') as [Hsame Hpaid]. split; [|done].
    split; [done|]. apply Forall_forall. intros x Hx. apply Hin in Hx as (o' & Ho' & Hv'' & ->). rewrite Forall_forall in Hsame. by rewrite (Hsame o' Ho' Hv'').
Qed.
End Claims.

(** An index of one block, and a transaction spending the sample coins with
    scripts that always succeed. *)
Definition sample_heap : index_heap := {[ 1%positive := mkIndex (of_uint64 8 11) None None 119 0 0 0 0 0 LotteryCoinstakeData_empty ]}.
Definition sample_block_map : gmap (list Z) positive := {[ (of_uint64 8 11 : list Z) := 1%positive ]}.
Definition no_signatures (_ : CPubKey) (_ : base_uint) (_ : valtype) : bool := false.

Lemma CheckInputs_exact_witness :
  exists r, CheckInputs no_signatures (10 * COIN) 20 sample_heap sample_block_map (tx_body sample_spend) CValidationState_new
      (new_cache (ViewDB sample_db)) 0 0 true MANDATORY_SCRIPT_VERIFY_FLAGS false None true = Ret r /\
    (ci_result r).1 = true.
Proof.
  destruct (CheckInputs_exact no_signatures (10 * COIN) 20 sample_heap sample_block_map ltac:(unfold COIN; lia) sample_db (new_cache (ViewDB sample_db))
    (tx_body sample_spend) CValidationState_new 1%positive (mkIndex (of_uint64 8 11) None None 119 0 0 0 0 0 LotteryCoinstakeData_empty) 12
    true MANDATORY_SCRIPT_VERIFY_FLAGS false None true sample_db_ok (rtc_once _ _ (step_push (ViewDB sample_db))))
    as (r & E & _ & Hiff & _); [vm_compute; reflexivity.. | | ].
  - assert (Hm : forall n s, 0 <= n < 100 -> 0 <= s < 256 -> moderate (mkTxOut n [s]) /\ bytes_ok [s]).
    { intros n s Hn Hs. split; [unfold moderate; cbn [nValue]; lia | by apply Forall_singleton]. }
    constructor; [|constructor; [|constructor]]; (split; [constructor|]; intros o Ho; vm_compute in Ho; injection Ho as <-; apply Hm; lia).
  - exists r. split; [exact E|]. apply Hiff. exists [mkTxOut 7 [82]; mkTxOut 5 [81]]. split.
    + constructor; [repeat constructor; vm_compute; reflexivity | repeat constructor; vm_compute; reflexivity | | vm_compute; discriminate |].
      * repeat constructor; vm_compute; discriminate.
      * intros _. vm_compute. discriminate.
    + intros _ _. repeat constructor; vm_compute; reflexivity.
Defined.

Definition sample_vault_script : CScript := CreateStakingVaultScript (repeat 1 20) (repeat 2 20).
Definition vault_db : CCoinsViewDB :=
  mkDB {[ [2] := mkCoins false true [CTxOut_null; mkTxOut (20000 * COIN) sample_vault_script] 50 1 ]} (of_uint64 8 11).
Definition vault_stake : CMutableTransaction :=
  mkMutable 1 [mkTxIn (mkOutPoint [2] 1) [] SEQUENCE_FINAL] [CTxOut_empty; mkTxOut (10000 * COIN) sample_vault_script; mkTxOut (10456 * COIN) sample_vault_script] 0.

Lemma vault_stake_protected_witness :
  exists v', CheckCoinstakeForVaults vault_stake (mkRewards (456 * COIN) 0 0 0 0 0) (new_cache (ViewDB vault_db)) = Ret (v', true).
Proof.
  destruct (vault_stake_protected (2 ^ 60) ltac:(lia) vault_db (new_cache (ViewDB vault_db)) vault_stake (mkRewards (456 * COIN) 0 0 0 0 0)
    [mkTxOut (20000 * COIN) sample_vault_script]) as (v' & ok & E & _ & Hiff).
  - apply map_Forall_singleton. split; vm_compute; reflexivity.
  - apply rtc_once, step_push.
  - reflexivity.
  - constructor; [vm_compute; reflexivity | constructor].
  - constructor; [vm_compute; discriminate | constructor].
  - vm_compute. discriminate.
  - repeat constructor; vm_compute; discriminate.
  - vm_compute. split; discriminate.
  - exists v'. rewrite E. do 2 f_equal. apply Hiff. intros o Ho _. apply list_elem_of_singleton in Ho as ->. split.
    + constructor; [done | constructor].
    + vm_compute. discriminate.
Defined.
