(* ===== verification/IndexUpdates.v ===== *)
(** * The address, spent and transaction indexes: [IndexDatabaseUpdateCollector.cpp],
    [IndexDatabaseUpdates.cpp], [addressindex.h], [spentindex.h], [txdb.cpp]

    While a block is connected or disconnected its changes to the indexes are
    collected and then written in one batch.  The keys and values are records; the
    database is a map for each index, and a batch that is written succeeds. *)

From Stdlib Require Import ZArith Lia Bool.
From stdpp Require Import base option numbers list gmap.
From S2P Require Import Prelude BaseUInt UInt256 Serialize Opcodes ScriptNum Script Standard Transaction Coins CoinsCache StakingVault Validation.

Open Scope Z_scope.
Open Scope outcome_scope.

(** ** Keys and values *)

Record CAddressIndexKey := mkAddressKey {
  ak_type : Z; ak_hashBytes : list Z; ak_blockHeight : Z; ak_txindex : Z; ak_txhash : list Z; ak_index : Z; ak_spending : bool
}.
Record CAddressUnspentKey := mkUnspentKey { uk_type : Z; uk_hashBytes : list Z; uk_txhash : list Z; uk_index : Z }.
Record CAddressUnspentValue := mkUnspentValue { satoshis : CAmount; uv_script : CScript; uv_blockHeight : Z }.
Record CSpentIndexKey := mkSpentKey { sk_txid : list Z; sk_outputIndex : Z }.
Record CSpentIndexValue := mkSpentValue {
  sv_txid : list Z; sv_inputIndex : Z; sv_blockHeight : Z; sv_satoshis : CAmount; sv_addressType : Z; sv_addressHash : list Z
}.
Record CDiskTxPos := mkDiskTxPos { pos_nFile : Z; pos_nPos : Z; nTxOffset : Z }.
Record TxIndexEntry := mkTxIndexEntry { entry_txid : list Z; bareTxid : list Z; diskPos : CDiskTxPos }.

#[global] Instance CAddressIndexKey_eq_dec : EqDecision CAddressIndexKey.
Proof. solve_decision. Defined.
#[global] Instance CAddressIndexKey_countable : Countable CAddressIndexKey.
Proof.
  refine (inj_countable' (fun k => (ak_type k, ak_hashBytes k, ak_blockHeight k, ak_txindex k, ak_txhash k, ak_index k, ak_spending k))
    (fun '(t, h, b, i, x, n, s) => mkAddressKey t h b i x n s) _). by intros [].
Defined.
#[global] Instance CAddressUnspentKey_eq_dec : EqDecision CAddressUnspentKey.
Proof. solve_decision. Defined.
#[global] Instance CAddressUnspentKey_countable : Countable CAddressUnspentKey.
Proof.
  refine (inj_countable' (fun k => (uk_type k, uk_hashBytes k, uk_txhash k, uk_index k)) (fun '(t, h, x, n) => mkUnspentKey t h x n) _). by intros [].
Defined.
#[global] Instance CSpentIndexKey_eq_dec : EqDecision CSpentIndexKey.
Proof. solve_decision. Defined.
#[global] Instance CSpentIndexKey_countable : Countable CSpentIndexKey.
Proof. refine (inj_countable' (fun k => (sk_txid k, sk_outputIndex k)) (fun '(x, n) => mkSpentKey x n) _). by intros []. Defined.

(** The default constructors; a null value erases its key. *)
Definition CAddressUnspentValue_null : CAddressUnspentValue := mkUnspentValue (-1) [] 0.
Definition CAddressUnspentValue_IsNull (v : CAddressUnspentValue) : bool := satoshis v =? -1.
Definition CSpentIndexValue_null : CSpentIndexValue := mkSpentValue uint256_null 0 0 0 0 (repeat 0 20).
Definition CSpentIndexValue_IsNull (v : CSpentIndexValue) : bool := IsNull (sv_txid v).

Record IndexDatabaseUpdates := mkUpdates {
  addressIndex : list (CAddressIndexKey * CAmount); addressUnspentIndex : list (CAddressUnspentKey * CAddressUnspentValue);
  spentIndex : list (CSpentIndexKey * CSpentIndexValue); txLocationData : list TxIndexEntry
}.

Definition IndexDatabaseUpdates_new : IndexDatabaseUpdates := mkUpdates [] [] [] [].

Definition push_address (u : IndexDatabaseUpdates) (k : CAddressIndexKey) (x : CAmount) : IndexDatabaseUpdates :=
  mkUpdates (addressIndex u ++ [(k, x)]) (addressUnspentIndex u) (spentIndex u) (txLocationData u).
Definition push_unspent (u : IndexDatabaseUpdates) (k : CAddressUnspentKey) (x : CAddressUnspentValue) : IndexDatabaseUpdates :=
  mkUpdates (addressIndex u) (addressUnspentIndex u ++ [(k, x)]) (spentIndex u) (txLocationData u).
Definition push_spent (u : IndexDatabaseUpdates) (k : CSpentIndexKey) (x : CSpentIndexValue) : IndexDatabaseUpdates :=
  mkUpdates (addressIndex u) (addressUnspentIndex u) (spentIndex u ++ [(k, x)]) (txLocationData u).
Definition push_location (u : IndexDatabaseUpdates) (e : TxIndexEntry) : IndexDatabaseUpdates :=
  mkUpdates (addressIndex u) (addressUnspentIndex u) (spentIndex u) (txLocationData u ++ [e]).

(** [TransactionLocationReference]; the height is converted to [unsigned]. *)
Record TransactionLocationReference := mkTxRef { ref_hash : list Z; ref_blockHeight : Z; ref_transactionIndex : Z }.

Definition TransactionLocationReference_of (tx : CTransaction) (blockheightValue transactionIndexValue : Z) : TransactionLocationReference :=
  mkTxRef (tx_hash tx) (u32 blockheightValue) transactionIndexValue.

(** ** Collecting *)

(** Hash bytes and address type; a [uint160] is its 20 bytes. *)
Definition ComputeHashbytesAndAddressTypeForScript (script : CScript) : list Z * Z :=
  if IsStakingVaultScript script then (take 20 (drop 2 script), 3)
  else if IsPayToScriptHash script then (take 20 (drop 2 script), 2)
  else if IsPayToPublicKeyHash script then (take 20 (drop 3 script), 1)
  else (repeat 0 20, 0).

Section Collect.
Variables fAddressIndex fSpentIndex : bool.
Variable ref : TransactionLocationReference.

(** The index entries of an input or output of the transaction at hand. *)
Definition address_key (script : CScript) (n : nat) (spending : bool) : CAddressIndexKey :=
  let '(hashBytes, addressType) := ComputeHashbytesAndAddressTypeForScript script in
  mkAddressKey addressType hashBytes (i32 (ref_blockHeight ref)) (u32 (ref_transactionIndex ref)) (ref_hash ref) (Z.of_nat n) spending.
Definition unspent_key (script : CScript) (txhash : list Z) (n : Z) : CAddressUnspentKey :=
  let '(hashBytes, addressType) := ComputeHashbytesAndAddressTypeForScript script in mkUnspentKey addressType hashBytes txhash n.
Definition unspent_value (o : CTxOut) : CAddressUnspentValue := mkUnspentValue (nValue o) (scriptPubKey o) (i32 (ref_blockHeight ref)).
Definition indexed (script : CScript) : bool := 0 <? (ComputeHashbytesAndAddressTypeForScript script).2.

(** The bodies of the loops. *)
Definition spend_input (input : CTxIn) (prevout : CTxOut) (j : nat) (u : IndexDatabaseUpdates) : IndexDatabaseUpdates :=
  let '(hashBytes, addressType) := ComputeHashbytesAndAddressTypeForScript (scriptPubKey prevout) in
  let out := Transaction.prevout input in
  let u :=
    if fAddressIndex && (0 <? addressType) then
      push_unspent (push_address u (address_key (scriptPubKey prevout) j true) (nValue prevout * -1))
        (unspent_key (scriptPubKey prevout) (prev_hash out) (prev_n out)) CAddressUnspentValue_null
    else u in
  if fSpentIndex then
    push_spent u (mkSpentKey (prev_hash out) (prev_n out))
      (mkSpentValue (ref_hash ref) (Z.of_nat j) (i32 (ref_blockHeight ref)) (nValue prevout) addressType hashBytes)
  else u.

Definition receive_output (out : CTxOut) (k : nat) (u : IndexDatabaseUpdates) : IndexDatabaseUpdates :=
  if indexed (scriptPubKey out) then
    push_unspent (push_address u (address_key (scriptPubKey out) k false) (nValue out))
      (unspent_key (scriptPubKey out) (ref_hash ref) (Z.of_nat k)) (unspent_value out)
  else u.

Definition unspend_input (input : CTxIn) (prevout : CTxOut) (j : nat) (u : IndexDatabaseUpdates) : IndexDatabaseUpdates :=
  if indexed (scriptPubKey prevout) then
    push_unspent (push_address u (address_key (scriptPubKey prevout) j true) (nValue prevout * -1))
      (unspent_key (scriptPubKey prevout) (prev_hash (Transaction.prevout input)) (prev_n (Transaction.prevout input))) (unspent_value prevout)
  else u.

Definition unreceive_output (out : CTxOut) (k : nat) (u : IndexDatabaseUpdates) : IndexDatabaseUpdates :=
  if indexed (scriptPubKey out) then
    push_unspent (push_address u (address_key (scriptPubKey out) k false) (nValue out))
      (unspent_key (scriptPubKey out) (ref_hash ref) (Z.of_nat k)) CAddressUnspentValue_null
  else u.

Fixpoint collect_spends (v : CCoinsView) (ins : list CTxIn) (j : nat) (u : IndexDatabaseUpdates) : io (CCoinsView * IndexDatabaseUpdates) :=
  match ins with
  | [] => Ret (v, u)
  | input :: ins => let* '(v, prevout) := GetOutputFor v input in collect_spends v ins (S j) (spend_input input prevout j u)
  end.

(** [Spending::CollectUpdatesFromInputs] *)
Definition CollectUpdatesFromInputs (tx : CTransaction) (v : CCoinsView) (u : IndexDatabaseUpdates) : io (CCoinsView * IndexDatabaseUpdates) :=
  if IsCoinBase (tx_body tx) then Ret (v, u)
  else if fAddressIndex || fSpentIndex then collect_spends v (vin (tx_body tx)) 0 u else Ret (v, u).

(** [Spending::CollectUpdatesFromOutputs] *)
Definition CollectUpdatesFromOutputs (tx : CTransaction) (u : IndexDatabaseUpdates) : IndexDatabaseUpdates :=
  if fAddressIndex then fold_left (fun u '(k, out) => receive_output out k u) (imap pair (vout (tx_body tx))) u else u.

(** The inputs with their indexes, last first. *)
Fixpoint unspend_inputs (v : CCoinsView) (ins : list (nat * CTxIn)) (u : IndexDatabaseUpdates) : io (CCoinsView * IndexDatabaseUpdates) :=
  match ins with
  | [] => Ret (v, u)
  | (j, input) :: ins =>
      let* '(v, u) :=
        if fAddressIndex then let* '(v, prevout) := GetOutputFor v input in Ret (v, unspend_input input prevout j u) else Ret (v, u) in
      let u := if fSpentIndex then push_spent u (mkSpentKey (prev_hash (prevout input)) (prev_n (prevout input))) CSpentIndexValue_null else u in
      unspend_inputs v ins u
  end.

(** [ReverseSpending::CollectUpdatesFromInputs] *)
Definition ReverseUpdatesFromInputs (tx : CTransaction) (v : CCoinsView) (u : IndexDatabaseUpdates) : io (CCoinsView * IndexDatabaseUpdates) :=
  if IsCoinBase (tx_body tx) then Ret (v, u) else unspend_inputs v (rev (imap pair (vin (tx_body tx)))) u.

(** [ReverseSpending::CollectUpdatesFromOutputs] *)
Definition ReverseUpdatesFromOutputs (tx : CTransaction) (u : IndexDatabaseUpdates) : IndexDatabaseUpdates :=
  if negb fAddressIndex then u
  else fold_left (fun u '(k, out) => unreceive_output out k u) (rev (imap pair (vout (tx_body tx)))) u.

Definition RecordTransaction (tx : CTransaction) (v : CCoinsView) (u : IndexDatabaseUpdates) : io (CCoinsView * IndexDatabaseUpdates) :=
  let* '(v, u) := CollectUpdatesFromInputs tx v u in Ret (v, CollectUpdatesFromOutputs tx u).

Definition ReverseTransaction (tx : CTransaction) (v : CCoinsView) (u : IndexDatabaseUpdates) : io (CCoinsView * IndexDatabaseUpdates) :=
  ReverseUpdatesFromInputs tx v (ReverseUpdatesFromOutputs tx u).
End Collect.

(** ** The database *)

Record CBlockTreeDB := mkTree {
  db_address : gmap CAddressIndexKey CAmount; db_unspent : gmap CAddressUnspentKey CAddressUnspentValue;
  db_spent : gmap CSpentIndexKey CSpentIndexValue; db_tx : gmap (list Z) CDiskTxPos; db_baretx : gmap (list Z) CDiskTxPos
}.

Definition WriteTxIndex (db : CBlockTreeDB) (vect : list TxIndexEntry) : CBlockTreeDB :=
  mkTree (db_address db) (db_unspent db) (db_spent db)
    (fold_left (fun m e => <[entry_txid e := diskPos e]> m) vect (db_tx db)) (fold_left (fun m e => <[bareTxid e := diskPos e]> m) vect (db_baretx db)).
Definition WriteAddressIndex (db : CBlockTreeDB) (vect : list (CAddressIndexKey * CAmount)) : CBlockTreeDB :=
  mkTree (fold_left (fun m p => <[p.1 := p.2]> m) vect (db_address db)) (db_unspent db) (db_spent db) (db_tx db) (db_baretx db).
Definition EraseAddressIndex (db : CBlockTreeDB) (vect : list (CAddressIndexKey * CAmount)) : CBlockTreeDB :=
  mkTree (fold_left (fun m p => delete p.1 m) vect (db_address db)) (db_unspent db) (db_spent db) (db_tx db) (db_baretx db).
Definition UpdateAddressUnspentIndex (db : CBlockTreeDB) (vect : list (CAddressUnspentKey * CAddressUnspentValue)) : CBlockTreeDB :=
  mkTree (db_address db)
    (fold_left (fun m p => if CAddressUnspentValue_IsNull p.2 then delete p.1 m else <[p.1 := p.2]> m) vect (db_unspent db))
    (db_spent db) (db_tx db) (db_baretx db).
Definition UpdateSpentIndex (db : CBlockTreeDB) (vect : list (CSpentIndexKey * CSpentIndexValue)) : CBlockTreeDB :=
  mkTree (db_address db) (db_unspent db)
    (fold_left (fun m p => if CSpentIndexValue_IsNull p.2 then delete p.1 m else <[p.1 := p.2]> m) vect (db_spent db)) (db_tx db) (db_baretx db).

(** [UpdateDBIndicesForNewBlock] of [main.cpp]. *)
Definition UpdateDBIndicesForNewBlock (fTxIndex fAddressIndex fSpentIndex : bool) (u : IndexDatabaseUpdates) (db : CBlockTreeDB) : CBlockTreeDB :=
  let db := if fTxIndex then WriteTxIndex db (txLocationData u) else db in
  let db := if fAddressIndex then UpdateAddressUnspentIndex (WriteAddressIndex db (addressIndex u)) (addressUnspentIndex u) else db in
  if fSpentIndex then UpdateSpentIndex db (spentIndex u) else db.

(** [ApplyDisconnectionUpdateIndexToDBs] of [ActiveChainManager.cpp]. *)
Definition ApplyDisconnectionUpdateIndexToDBs (addressIndexingIsEnabled_ : bool) (u : IndexDatabaseUpdates) (db : CBlockTreeDB) : CBlockTreeDB :=
  if addressIndexingIsEnabled_ then UpdateAddressUnspentIndex (EraseAddressIndex db (addressIndex u)) (addressUnspentIndex u) else db.

(** ** Batches *)

Section Batch.
Context {K V : Type} `{Countable K}.
Variable null : V -> bool.

Definition apply_batch (l : list (K * V)) (m : gmap K V) : gmap K V :=
  fold_left (fun m p => if null p.2 then delete p.1 m else <[p.1 := p.2]> m) l m.

Lemma batch_app l1 l2 m : apply_batch (l1 ++ l2) m = apply_batch l2 (apply_batch l1 m).
Proof. apply fold_left_app. Qed.

Lemma batch_other l m k : k ∉ l.*1 -> apply_batch l m !! k = m !! k.
Proof.
  revert m. induction l as [|[k' x] l IH]; intros m Hk; [done|]. cbn [fmap list_fmap] in Hk. apply not_elem_of_cons in Hk as [Hne Hk].
  cbn [apply_batch fold_left fst snd]. fold (apply_batch l). rewrite (IH _ Hk). destruct (null x); [by rewrite lookup_delete_ne | by rewrite lookup_insert_ne].
Qed.

(** A key all of whose entries in the batch are the same. *)
Lemma batch_key l m k x : k ∈ l.*1 -> (forall y, (k, y) ∈ l -> y = x) -> apply_batch l m !! k = if null x then None else Some x.
Proof.
  revert m. induction l as [|[k' y] l IH]; intros m Hk Hx; [by apply elem_of_nil in Hk|]. cbn [apply_batch fold_left fst snd]. fold (apply_batch l).
  destruct (decide (k ∈ l.*1)) as [Hin|Hout]; [apply IH; [done | intros z Hz; apply Hx; by right]|].
  cbn [fmap list_fmap fst] in Hk. apply elem_of_cons in Hk as [->|]; [|done]. assert (y = x) as -> by (apply Hx; left).
  fold (apply_batch l (if null x then delete k' m else <[k' := x]> m)). rewrite (batch_other l _ _ Hout). destruct (null x); [apply lookup_delete_eq | apply lookup_insert_eq].
Qed.
End Batch.

(** Collecting appends the entries of each step. *)
Lemma collect_appends {A B} (proj : IndexDatabaseUpdates -> list B) (g : A -> IndexDatabaseUpdates -> IndexDatabaseUpdates) (f : A -> list B) :
  (forall x u, proj (g x u) = proj u ++ f x) -> forall l u, proj (fold_left (fun u x => g x u) l u) = proj u ++ concat (map f l).
Proof.
  intros Hg l. induction l as [|x l IH]; intros u; cbn [fold_left map concat]; [by rewrite app_nil_r|]. by rewrite IH, Hg, app_assoc.
Qed.

Section Reverse.
Variable fSpentIndex : bool.
Variable ref : TransactionLocationReference.

(** The entries of an input with the output it spends, and of an output. *)
Definition input_key (x : nat * (CTxIn * CTxOut)) : CAddressUnspentKey :=
  unspent_key (scriptPubKey x.2.2) (prev_hash (prevout x.2.1)) (prev_n (prevout x.2.1)).
Definition output_key (x : nat * CTxOut) : CAddressUnspentKey := unspent_key (scriptPubKey x.2) (ref_hash ref) (Z.of_nat x.1).
Definition when {A} (b : bool) (x : A) : list A := if b then [x] else [].

Lemma collect_spends_spec u ins : forall outs v j, view_ok v -> Forall2 (fun i o => output_at v i = Some o) ins outs ->
  exists v', collect_spends true fSpentIndex ref v ins j u =
    Ret (v', fold_left (fun u x => spend_input true fSpentIndex ref x.2.1 x.2.2 x.1 u) (imap (fun n p => (j + n, p)%nat) (zip ins outs)) u) /\ reads v v'.
Proof.
  revert u. induction ins as [|i ins IH]; intros u outs v j Hok H; [exists v; inversion H; split; [done | by apply reads_refl]|].
  apply Forall2_cons_inv_l in H as (o & outs' & Ho & H & ->). cbn [collect_spends zip_with imap fold_left].
  destruct (GetOutputFor_spec v i o Hok Ho) as (v1 & -> & Hr). cbn [obind].
  destruct (IH (spend_input true fSpentIndex ref i o j u) outs' v1 (S j) (proj1 Hr)) as (v2 & -> & Hr2).
  { eapply Forall2_impl; [exact H|]. intros a b Hab. cbn beta in Hab. by rewrite (reads_output v v1 a Hr). }
  exists v2. split; [|by eapply reads_trans]. do 2 f_equal. rewrite Nat.add_0_r. cbn [fst snd]. f_equal.
  apply imap_ext. intros n x _. cbn. f_equal. lia.
Qed.

Lemma unspend_inputs_collects l : forall v u, view_ok v -> Forall (fun x => output_at v x.2.1 = Some x.2.2) l ->
  exists v', unspend_inputs true fSpentIndex ref v (map (fun x => (x.1, x.2.1)) l) u =
    Ret (v', fold_left (fun u x =>
      let u := unspend_input ref x.2.1 x.2.2 x.1 u in
      if fSpentIndex then push_spent u (mkSpentKey (prev_hash (prevout x.2.1)) (prev_n (prevout x.2.1))) CSpentIndexValue_null else u) l u) /\ reads v v'.
Proof.
  induction l as [|[j [i o]] l IH]; intros v u Hok H; [exists v; split; [done | by apply reads_refl]|].
  apply Forall_cons in H as [Ho H]. cbn [fst snd] in Ho. cbn [map unspend_inputs fst snd fold_left].
  destruct (GetOutputFor_spec v i o Hok Ho) as (v1 & -> & Hr). cbn [obind].
  match goal with |- context [unspend_inputs _ _ _ _ _ ?w] => destruct (IH v1 w (proj1 Hr)) as (v2 & -> & Hr2) end.
  { eapply Forall_impl; [exact H|]. intros x Hx. cbn beta in Hx. by rewrite (reads_output v v1 _ Hr). }
  exists v2. split; [done | by eapply reads_trans].
Qed.
End Reverse.

Section Roundtrip.
Variable fSpentIndex : bool.
Variable ref : TransactionLocationReference.
Variable tx : CTransaction.
(** The outputs that the inputs spend. *)
Variable spent : list CTxOut.

Definition spends_outputs (v : CCoinsView) : Prop :=
  IsCoinBase (tx_body tx) = false -> Forall2 (fun i o => output_at v i = Some o) (vin (tx_body tx)) spent.

Definition inputs_l : list (nat * (CTxIn * CTxOut)) := if IsCoinBase (tx_body tx) then [] else imap pair (zip (vin (tx_body tx)) spent).
Definition outputs_l : list (nat * CTxOut) := imap pair (vout (tx_body tx)).

Definition input_entries (value : CTxOut -> CAddressUnspentValue) (x : nat * (CTxIn * CTxOut)) : list (CAddressUnspentKey * CAddressUnspentValue) :=
  when (indexed (scriptPubKey x.2.2)) (input_key x, value x.2.2).
Definition output_entries (value : CTxOut -> CAddressUnspentValue) (x : nat * CTxOut) : list (CAddressUnspentKey * CAddressUnspentValue) :=
  when (indexed (scriptPubKey x.2)) (output_key ref x, value x.2).
Definition input_address (x : nat * (CTxIn * CTxOut)) : list (CAddressIndexKey * CAmount) :=
  when (indexed (scriptPubKey x.2.2)) (address_key ref (scriptPubKey x.2.2) x.1 true, nValue x.2.2 * -1).
Definition output_address (x : nat * CTxOut) : list (CAddressIndexKey * CAmount) :=
  when (indexed (scriptPubKey x.2)) (address_key ref (scriptPubKey x.2) x.1 false, nValue x.2).

Lemma spend_input_entries x u : addressUnspentIndex (spend_input true fSpentIndex ref x.2.1 x.2.2 x.1 u) =
    addressUnspentIndex u ++ input_entries (fun _ => CAddressUnspentValue_null) x /\
  addressIndex (spend_input true fSpentIndex ref x.2.1 x.2.2 x.1 u) = addressIndex u ++ input_address x.
Proof.
  unfold spend_input, input_entries, input_address, indexed, input_key.
  destruct (ComputeHashbytesAndAddressTypeForScript (scriptPubKey x.2.2)) as [h t]. cbn [snd andb when].
  destruct (0 <? t), fSpentIndex; cbn; rewrite ?app_nil_r; done.
Qed.

Lemma receive_output_entries x u : addressUnspentIndex (receive_output ref x.2 x.1 u) = addressUnspentIndex u ++ output_entries (unspent_value ref) x /\
  addressIndex (receive_output ref x.2 x.1 u) = addressIndex u ++ output_address x.
Proof. unfold receive_output, output_entries, output_address. destruct (indexed _); cbn; rewrite ?app_nil_r; done. Qed.

Lemma unreceive_output_entries x u : addressUnspentIndex (unreceive_output ref x.2 x.1 u) = addressUnspentIndex u ++ output_entries (fun _ => CAddressUnspentValue_null) x /\
  addressIndex (unreceive_output ref x.2 x.1 u) = addressIndex u ++ output_address x.
Proof. unfold unreceive_output, output_entries, output_address. destruct (indexed _); cbn; rewrite ?app_nil_r; done. Qed.

Lemma outputs_collect (g : CTxOut -> nat -> IndexDatabaseUpdates -> IndexDatabaseUpdates) {B} (proj : IndexDatabaseUpdates -> list B) f l u :
  (forall x u, proj (g x.2 x.1 u) = proj u ++ f x) -> proj (fold_left (fun u '(k, out) => g out k u) l u) = proj u ++ concat (map f l).
Proof.
  intros Hg. rewrite <-(collect_appends proj (fun x => g x.2 x.1) f Hg l u). f_equal. revert u. induction l as [|[k o] l IH]; intros u; [done|]. cbn [fold_left fst snd]. apply IH.
Qed.

Lemma record_spec v u : view_ok v -> spends_outputs v ->
  exists v' u', RecordTransaction true fSpentIndex ref tx v u = Ret (v', u') /\ reads v v' /\
    addressUnspentIndex u' = (addressUnspentIndex u ++ concat (map (input_entries (fun _ => CAddressUnspentValue_null)) inputs_l)) ++ concat (map (output_entries (unspent_value ref)) outputs_l) /\
    addressIndex u' = (addressIndex u ++ concat (map input_address inputs_l)) ++ concat (map output_address outputs_l).
Proof.
  intros Hok Hsp. unfold RecordTransaction, CollectUpdatesFromInputs, CollectUpdatesFromOutputs, inputs_l. cbn [orb].
  assert (Hin : exists v' u', (if IsCoinBase (tx_body tx) then Ret (v, u) else collect_spends true fSpentIndex ref v (vin (tx_body tx)) 0 u) = Ret (v', u') /\ reads v v' /\
    addressUnspentIndex u' = addressUnspentIndex u ++ concat (map (input_entries (fun _ => CAddressUnspentValue_null)) inputs_l) /\
    addressIndex u' = addressIndex u ++ concat (map input_address inputs_l)).
  { unfold inputs_l, spends_outputs in *. destruct (IsCoinBase (tx_body tx)); [exists v, u; split; [done|]; split; [by apply reads_refl|]; by rewrite !app_nil_r|].
    destruct (collect_spends_spec fSpentIndex ref u _ spent v 0 Hok (Hsp eq_refl)) as (v' & -> & Hr). eexists _, _. split; [reflexivity|]. split; [done|].
    change (fun n p => ((0 + n)%nat, p)) with (@pair nat (CTxIn * CTxOut)).
    split; [apply (collect_appends addressUnspentIndex (fun x => spend_input true fSpentIndex ref x.2.1 x.2.2 x.1)) | apply (collect_appends addressIndex (fun x => spend_input true fSpentIndex ref x.2.1 x.2.2 x.1))];
      intros x w; apply spend_input_entries. }
  destruct Hin as (v' & u' & -> & Hr & E1 & E2). cbn [obind]. eexists _, _. split; [reflexivity|]. split; [done|]. fold inputs_l. rewrite <-E1, <-E2.
  split; [apply (outputs_collect (receive_output ref) addressUnspentIndex) | apply (outputs_collect (receive_output ref) addressIndex)]; intros x w; apply receive_output_entries.
Qed.

Lemma reverse_spec v u : view_ok v -> spends_outputs v ->
  exists v' u', ReverseTransaction true fSpentIndex ref tx v u = Ret (v', u') /\ reads v v' /\
    addressUnspentIndex u' = (addressUnspentIndex u ++ concat (map (output_entries (fun _ => CAddressUnspentValue_null)) (rev outputs_l))) ++
      concat (map (input_entries (unspent_value ref)) (rev inputs_l)) /\
    addressIndex u' = (addressIndex u ++ concat (map output_address (rev outputs_l))) ++ concat (map input_address (rev inputs_l)).
Proof.
  intros Hok Hsp. unfold ReverseTransaction, ReverseUpdatesFromInputs, ReverseUpdatesFromOutputs. cbn [negb]. fold outputs_l.
  set (u1 := fold_left _ _ u).
  assert (E1 : addressUnspentIndex u1 = addressUnspentIndex u ++ concat (map (output_entries (fun _ => CAddressUnspentValue_null)) (rev outputs_l))).
  { apply (outputs_collect (unreceive_output ref) addressUnspentIndex). intros x w. apply unreceive_output_entries. }
  assert (E2 : addressIndex u1 = addressIndex u ++ concat (map output_address (rev outputs_l))).
  { apply (outputs_collect (unreceive_output ref) addressIndex). intros x w. apply unreceive_output_entries. }
  rewrite <-E1, <-E2. clearbody u1. clear E1 E2. unfold inputs_l, spends_outputs in *.
  destruct (IsCoinBase (tx_body tx)). { exists v, u1. split; [done|]. split; [by apply reads_refl|]. cbn. by rewrite !app_nil_r. }
  specialize (Hsp eq_refl). set (l := rev (imap pair (zip (vin (tx_body tx)) spent))).
  assert (El : rev (imap pair (vin (tx_body tx))) = map (fun x => (x.1, x.2.1)) l).
  { unfold l. rewrite map_rev. f_equal. apply list_eq. intros n. change (map ?f ?x) with (f <$> x). rewrite list_lookup_fmap, !list_lookup_imap.
    pose proof (Forall2_length _ _ _ Hsp) as Hlen. destruct (vin (tx_body tx) !! n) as [i|] eqn:Ei.
    - destruct (Forall2_lookup_l _ _ _ _ _ Hsp Ei) as (o & Ho & _). rewrite (proj2 (lookup_zip_with_Some pair _ _ n (i, o))); [done|]. by exists i, o.
    - rewrite (proj2 (lookup_zip_with_None pair _ _ n)) by (by left). done. }
  rewrite El. destruct (unspend_inputs_collects fSpentIndex ref l v u1 Hok) as (v' & -> & Hr).
  { unfold l. apply Forall_rev. apply Forall_lookup. intros n [m [i o]] Hn. rewrite list_lookup_imap in Hn. apply fmap_Some in Hn as ([i' o'] & Hz & [= -> -> ->]).
    apply lookup_zip_with_Some in Hz as (i2 & o2 & [= -> ->] & Hi & Ho). exact (Forall2_lookup_lr _ _ _ _ _ _ Hsp Hi Ho). }
  eexists _, _. split; [reflexivity|]. split; [done|].
  set (g := fun (x : nat * (CTxIn * CTxOut)) u => let u := unspend_input ref x.2.1 x.2.2 x.1 u in
    if fSpentIndex then push_spent u (mkSpentKey (prev_hash (prevout x.2.1)) (prev_n (prevout x.2.1))) CSpentIndexValue_null else u).
  change (fold_left _ l u1) with (fold_left (fun u x => g x u) l u1).
  split; [apply (collect_appends addressUnspentIndex g) | apply (collect_appends addressIndex g)];
    intros x w; unfold g, unspend_input, input_entries, input_address, input_key; destruct (indexed _), fSpentIndex; cbn; by rewrite ?app_nil_r.
Qed.
End Roundtrip.

(** ** Disconnecting a transaction undoes its index entries *)

Lemma entries_in {A K V} (b : A -> bool) (key : A -> K) (value : A -> V) (l : list A) k y :
  (k, y) ∈ concat (map (fun x => when (b x) (key x, value x)) l) <-> exists x, x ∈ l /\ b x = true /\ k = key x /\ y = value x.
Proof.
  induction l as [|x l IH]; cbn [map concat].
  { split; [intros H; by apply elem_of_nil in H | intros (x & Hx & _); by apply elem_of_nil in Hx]. }
  rewrite elem_of_app, IH. unfold when. split.
  - intros [H|(z & Hz & H)]; [|exists z; split; [by right | done]]. destruct (b x) eqn:E; [|by apply elem_of_nil in H].
    apply list_elem_of_singleton in H. injection H as -> ->. exists x. split; [left | done].
  - intros (z & [->|Hz]%elem_of_cons & Hb & -> & ->); [left; rewrite Hb; left | right; by exists z].
Qed.

Lemma keys_in {K V} (l : list (K * V)) k : k ∈ l.*1 <-> exists y, (k, y) ∈ l.
Proof.
  rewrite list_elem_of_fmap. split; [intros ([k' y] & -> & H); by exists y | intros [y H]; by exists (k, y)].
Qed.

Lemma available_value v i o : output_at v i = Some o -> nValue o <> -1.
Proof.
  intros H. destruct (output_available v i o H) as (c & _ & _ & Ha & Hl). unfold IsAvailable in Ha. rewrite Hl in Ha.
  unfold CTxOut_IsNull in Ha. apply negb_true_iff, Z.eqb_neq in Ha. done.
Qed.

Lemma elem_of_rev {A} (x : A) l : x ∈ rev l <-> x ∈ l.
Proof. rewrite !list_elem_of_In. symmetry. apply in_rev. Qed.

Definition unspent_null (x : CAddressUnspentValue) : bool := CAddressUnspentValue_IsNull x.

(** What an unspent entry says apart from its height. *)
Definition amount_of (x : option CAddressUnspentValue) : option (CAmount * CScript) := option_map (fun x => (satoshis x, uv_script x)) x.

Section Undo.
Variable ref : TransactionLocationReference.
Variable tx : CTransaction.
Variable spent : list CTxOut.
Variable v : CCoinsView.
Hypothesis Hsp : spends_outputs tx spent v.

Lemma inputs_output x : x ∈ inputs_l tx spent -> output_at v x.2.1 = Some x.2.2.
Proof.
  unfold inputs_l, spends_outputs in *. destruct (IsCoinBase (tx_body tx)); [intros H; by apply elem_of_nil in H|]. specialize (Hsp eq_refl).
  intros (n & [i o] & -> & Hn)%elem_of_lookup_imap. apply lookup_zip_with_Some in Hn as (i' & o' & [= -> ->] & Hi & Ho).
  exact (Forall2_lookup_lr _ _ _ _ _ _ Hsp Hi Ho).
Qed.

Lemma same_key_output x y : x ∈ inputs_l tx spent -> y ∈ inputs_l tx spent -> input_key x = input_key y -> x.2.2 = y.2.2.
Proof.
  intros Hx%inputs_output Hy%inputs_output. unfold input_key, unspent_key.
  destruct (ComputeHashbytesAndAddressTypeForScript (scriptPubKey x.2.2)) as [h1 t1], (ComputeHashbytesAndAddressTypeForScript (scriptPubKey y.2.2)) as [h2 t2].
  intros [= _ _ Eh En]. unfold output_at in Hx, Hy. rewrite Eh, En in Hx. congruence.
Qed.

(** The batch of the disconnection, after that of the connection. *)
Lemma unspent_batches (m : gmap CAddressUnspentKey CAddressUnspentValue) k :
  let connect := concat (map (input_entries (fun _ => CAddressUnspentValue_null)) (inputs_l tx spent)) ++ concat (map (output_entries ref (unspent_value ref)) (outputs_l tx)) in
  let disconnect := concat (map (output_entries ref (fun _ => CAddressUnspentValue_null)) (rev (outputs_l tx))) ++
    concat (map (input_entries (unspent_value ref)) (rev (inputs_l tx spent))) in
  let m' := apply_batch unspent_null disconnect (apply_batch unspent_null connect m) in
  (exists x, x ∈ inputs_l tx spent /\ indexed (scriptPubKey x.2.2) = true /\ k = input_key x /\ m' !! k = Some (unspent_value ref x.2.2)) \/
  (exists x, x ∈ outputs_l tx /\ indexed (scriptPubKey x.2) = true /\ k = output_key ref x /\ m' !! k = None) \/ m' !! k = m !! k.
Proof.
  cbn zeta. set (ins := concat (map (input_entries (unspent_value ref)) (rev (inputs_l tx spent)))).
  set (outs := concat (map (output_entries ref (fun _ => CAddressUnspentValue_null)) (rev (outputs_l tx)))).
  rewrite !batch_app. destruct (decide (k ∈ ins.*1)) as [Hk|Hk].
  - left. apply keys_in in Hk as [y Hy]. pose proof Hy as (x & Hx & Hb & -> & ->)%entries_in. rewrite elem_of_rev in Hx. exists x. split; [done|]. split; [done|]. split; [done|].
    rewrite (batch_key unspent_null ins _ _ (unspent_value ref x.2.2)).
    + unfold unspent_null, CAddressUnspentValue_IsNull, unspent_value. cbn [satoshis]. by rewrite (proj2 (Z.eqb_neq _ _) (available_value _ _ _ (inputs_output x Hx))).
    + apply keys_in. eauto.
    + intros z (x' & Hx' & _ & Ek & ->)%entries_in. rewrite elem_of_rev in Hx'. by rewrite (same_key_output x x' Hx Hx' Ek).
  - rewrite (batch_other _ ins _ k Hk). destruct (decide (k ∈ outs.*1)) as [Ho|Ho].
    + right. left. apply keys_in in Ho as [y Hy]. pose proof Hy as (x & Hx & Hb & -> & ->)%entries_in. rewrite elem_of_rev in Hx. exists x. split; [done|]. split; [done|]. split; [done|].
      rewrite (batch_key unspent_null outs _ _ CAddressUnspentValue_null); [done | apply keys_in; eauto|]. by intros z (x' & _ & _ & _ & ->)%entries_in.
    + right. right. rewrite (batch_other _ outs _ k Ho). rewrite batch_other, batch_other; [done| |].
      * intros [y (x & Hx & Hb & -> & ->)%entries_in]%keys_in. apply Hk, keys_in. exists (unspent_value ref x.2.2). apply entries_in. exists x. split; [by rewrite elem_of_rev | done].
      * intros [y (x & Hx & Hb & -> & ->)%entries_in]%keys_in. apply Ho, keys_in. exists CAddressUnspentValue_null. apply entries_in. exists x. split; [by rewrite elem_of_rev | done].
Qed.
End Undo.

(** The batches of the database functions. *)
Lemma unspent_update db l : db_unspent (UpdateAddressUnspentIndex db l) = apply_batch unspent_null l (db_unspent db).
Proof. reflexivity. Qed.

Lemma erased_lookup l : forall (m : gmap CAddressIndexKey CAmount) k,
  fold_left (fun m (p : CAddressIndexKey * CAmount) => delete p.1 m) l m !! k = if bool_decide (k ∈ l.*1) then None else m !! k.
Proof.
  induction l as [|[k' x] l IH]; intros m k; [done|]. cbn [fold_left fst fmap list_fmap]. rewrite IH.
  destruct (decide (k ∈ l.*1)) as [H|H]; [rewrite !bool_decide_eq_true_2; [done | by right | done]|]. rewrite (bool_decide_eq_false_2 _ H).
  destruct (decide (k = k')) as [->|Hne]; [rewrite bool_decide_eq_true_2 by left; apply lookup_delete_eq|].
  rewrite bool_decide_eq_false_2 by (intros [?|?]%elem_of_cons; done). by apply lookup_delete_ne.
Qed.

Lemma written_lookup l : forall (m : gmap CAddressIndexKey CAmount) k, k ∉ l.*1 ->
  fold_left (fun m (p : CAddressIndexKey * CAmount) => <[p.1 := p.2]> m) l m !! k = m !! k.
Proof.
  induction l as [|[k' x] l IH]; intros m k Hk; [done|]. cbn [fold_left fst snd]. cbn [fmap list_fmap fst] in Hk. apply not_elem_of_cons in Hk as [Hne Hk].
  rewrite (IH _ _ Hk). by apply lookup_insert_ne.
Qed.

(** The database knows the outputs the transaction spends, and nothing of it yet. *)
Record index_consistent (ref : TransactionLocationReference) (tx : CTransaction) (spent : list CTxOut) (db : CBlockTreeDB) : Prop := mkConsistent {
  ic_inputs : forall x, x ∈ inputs_l tx spent -> indexed (scriptPubKey x.2.2) = true ->
    exists h, db_unspent db !! input_key x = Some (mkUnspentValue (nValue x.2.2) (scriptPubKey x.2.2) h);
  ic_outputs : forall x, x ∈ outputs_l tx -> db_unspent db !! output_key ref x = None;
  ic_address : forall script n spending, db_address db !! address_key ref script n spending = None
}.

(** writing the index entries of a transaction when its block is connected and
    those of its reversal when the block is disconnected gives the address index
    back exactly, and for every address the same unspent outputs with the same
    amounts and scripts.  The reversal reads the outputs from a view that shows
    them again. *)
Theorem address_index_reversed fTx fSpent ref tx spent v v' db :
  view_ok v -> view_ok v' -> spends_outputs tx spent v -> spends_outputs tx spent v' -> index_consistent ref tx spent db ->
  exists v1 u1 v2 u2,
    RecordTransaction true fSpent ref tx v IndexDatabaseUpdates_new = Ret (v1, u1) /\
    ReverseTransaction true fSpent ref tx v' IndexDatabaseUpdates_new = Ret (v2, u2) /\
    let db' := ApplyDisconnectionUpdateIndexToDBs true u2 (UpdateDBIndicesForNewBlock fTx true fSpent u1 db) in
    db_address db' = db_address db /\ forall k, amount_of (db_unspent db' !! k) = amount_of (db_unspent db !! k).
Proof.
  intros Hok Hok' Hsp Hsp' [Hin Hout Haddr].
  destruct (record_spec fSpent ref tx spent v IndexDatabaseUpdates_new Hok Hsp) as (v1 & u1 & E1 & _ & U1 & A1).
  destruct (reverse_spec fSpent ref tx spent v' IndexDatabaseUpdates_new Hok' Hsp') as (v2 & u2 & E2 & _ & U2 & A2).
  exists v1, u1, v2, u2. split; [done|]. split; [done|]. cbn zeta. cbn [addressUnspentIndex addressIndex IndexDatabaseUpdates_new app] in U1, U2, A1, A2. split.
  - apply map_eq. intros k. unfold ApplyDisconnectionUpdateIndexToDBs, UpdateDBIndicesForNewBlock.
    destruct fTx, fSpent; cbn [db_address UpdateAddressUnspentIndex EraseAddressIndex WriteAddressIndex WriteTxIndex UpdateSpentIndex]; rewrite erased_lookup.
    all: assert (Hkeys : forall k, k ∈ (addressIndex u2).*1 <-> k ∈ (addressIndex u1).*1) by
      (intros k'; rewrite A1, A2, !fmap_app, !elem_of_app, !keys_in; unfold input_address, output_address; setoid_rewrite entries_in; setoid_rewrite elem_of_rev; tauto).
    all: case_bool_decide as Hk; [|rewrite written_lookup by (by rewrite <-Hkeys); done].
    all: rewrite A2, fmap_app, elem_of_app, !keys_in in Hk; destruct Hk as [[y Hy]|[y Hy]]; unfold input_address, output_address in Hy;
      apply entries_in in Hy as (x & _ & _ & -> & _); symmetry; apply Haddr.
  - intros k. destruct (unspent_batches ref tx spent v Hsp (db_unspent db) k) as [(x & Hx & Hb & -> & Hl)|[(x & Hx & Hb & -> & Hl)|Hl]].
    all: rewrite <-U1, <-U2 in Hl; unfold ApplyDisconnectionUpdateIndexToDBs, UpdateDBIndicesForNewBlock; destruct fTx, fSpent; cbn [db_unspent WriteTxIndex UpdateSpentIndex EraseAddressIndex];
      rewrite !unspent_update; cbn [db_unspent WriteTxIndex UpdateSpentIndex EraseAddressIndex WriteAddressIndex]; rewrite !unspent_update;
      cbn [db_unspent WriteTxIndex UpdateSpentIndex EraseAddressIndex WriteAddressIndex]; rewrite Hl.
    all: first [by destruct (Hin x Hx Hb) as [h ->] | by rewrite (Hout x Hx) | done].
Qed.

(** A payment from a key to a vault, and the database before it. *)
Definition sample_key_script : CScript := [118; 169; 20] ++ repeat 1 20 ++ [136; 172].
Definition sample_key_db : CCoinsViewDB := mkDB {[ [3] := mkCoins false false [mkTxOut 900 sample_key_script] 50 1 ]} (of_uint64 8 11).
Definition sample_payment : CTransaction :=
  mkTransaction [9] (mkMutable 1 [mkTxIn (mkOutPoint [3] 0) [] SEQUENCE_FINAL] [mkTxOut 890 sample_vault_script] 0).
Definition sample_tree : CBlockTreeDB :=
  mkTree ∅ {[ mkUnspentKey 1 (repeat 1 20) [3] 0 := mkUnspentValue 900 sample_key_script 50 ]} ∅ ∅ ∅.

Definition sample_ref : TransactionLocationReference := TransactionLocationReference_of sample_payment 120 1.

Lemma address_index_reversed_witness :
  exists v1 u1 v2 u2,
    RecordTransaction true true sample_ref sample_payment (new_cache (ViewDB sample_key_db)) IndexDatabaseUpdates_new = Ret (v1, u1) /\
    ReverseTransaction true true sample_ref sample_payment (ViewDB sample_key_db) IndexDatabaseUpdates_new = Ret (v2, u2) /\
    db_address (ApplyDisconnectionUpdateIndexToDBs true u2 (UpdateDBIndicesForNewBlock true true true u1 sample_tree)) = ∅.
Proof.
  assert (Hdb : view_ok (ViewDB sample_key_db)) by (apply map_Forall_singleton; split; vm_compute; reflexivity).
  destruct (address_index_reversed true true sample_ref sample_payment [mkTxOut 900 sample_key_script] (new_cache (ViewDB sample_key_db)) (ViewDB sample_key_db) sample_tree)
    as (v1 & u1 & v2 & u2 & E1 & E2 & Ha & _).
  - split; [exact Hdb|]. split; [reflexivity|]. apply map_Forall_empty.
  - exact Hdb.
  - intros _. constructor; [vm_compute; reflexivity | constructor].
  - intros _. constructor; [vm_compute; reflexivity | constructor].
  - constructor.
    + intros x Hx _. assert (Hl : inputs_l sample_payment [mkTxOut 900 sample_key_script] = [(0%nat, (mkTxIn (mkOutPoint [3] 0) [] SEQUENCE_FINAL, mkTxOut 900 sample_key_script))]) by reflexivity.
      rewrite Hl in Hx. apply list_elem_of_singleton in Hx as ->. exists 50. vm_compute. reflexivity.
    + intros x Hx. assert (Hl : outputs_l sample_payment = [(0%nat, mkTxOut 890 sample_vault_script)]) by reflexivity.
      rewrite Hl in Hx. apply list_elem_of_singleton in Hx as ->. vm_compute. reflexivity.
    + intros script n spending. apply lookup_empty.
  - exists v1, u1, v2, u2. split; [exact E1|]. split; [exact E2|]. exact Ha.
Defined.

Definition reversed_sample : CBlockTreeDB :=
  match RecordTransaction true true sample_ref sample_payment (ViewDB sample_key_db) IndexDatabaseUpdates_new,
        ReverseTransaction true true sample_ref sample_payment (ViewDB sample_key_db) IndexDatabaseUpdates_new with
  | Ret (_, u1), Ret (_, u2) => ApplyDisconnectionUpdateIndexToDBs true u2 (UpdateDBIndicesForNewBlock true true true u1 sample_tree)
  | _, _ => sample_tree
  end.

(** The height that comes back is that of the block that was disconnected, not that
    of the block the output is in. *)
Lemma unspent_height_lost :
  db_unspent sample_tree !! mkUnspentKey 1 (repeat 1 20) [3] 0 = Some (mkUnspentValue 900 sample_key_script 50) /\
  db_unspent reversed_sample !! mkUnspentKey 1 (repeat 1 20) [3] 0 = Some (mkUnspentValue 900 sample_key_script 120).
Proof. split; vm_compute; reflexivity. Qed.

(** The spent index keeps the entry of the disconnected transaction. *)
Lemma spent_entry_kept : db_spent sample_tree = ∅ /\ is_Some (db_spent reversed_sample !! mkSpentKey [3] 0).
Proof. split; [done|]. vm_compute. eauto. Qed.
