(* ===== verification/ConnectBlock.v ===== *)
(** * Connecting and disconnecting blocks: [BlockTransactionChecker.cpp],
    [TransactionInputChecker.cpp], [ActiveChainManager.cpp], [main.cpp]

    The transactions of a block are checked and applied one after the other: the
    coins view, the undo data, the money supply, the queue of script checks and the
    index entries are threaded through.  [ConnectBlock] then compares what was
    minted with the subsidy.  Disconnecting applies the undo data in reverse. *)

From Stdlib Require Import ZArith Lia Bool String.
From stdpp Require Import base option numbers list gmap.
From S2P Require Import Prelude BaseUInt UInt256 Serialize Opcodes ScriptNum Script StackManager Interpreter Transaction Standard Coins CoinsCache CoinsUpdate Hashes SigHash BlockIndex Subsidy Validation IndexUpdates.

Open Scope Z_scope.
Open Scope outcome_scope.

Definition MAX_BLOCK_SIZE_CURRENT : Z := 2000000.
Definition MAX_BLOCK_SIGOPS_CURRENT : Z := MAX_BLOCK_SIZE_CURRENT / 50.

(** The members of the checkers and the fields of [pindex] they change. *)
Record BlockCheck := mkBlockCheck {
  bc_view : CCoinsView;
  bc_state : CValidationState;
  nMoneySupply : CAmount;
  nMint : CAmount;
  nSigOps : Z;
  vtxundo : list (list CTxInUndo);
  bc_updates : IndexDatabaseUpdates;
  vChecks : list CScriptCheck;
  (** the queue behind [multiThreadedScriptChecker] *)
  queued : list CScriptCheck;
  nextTxOffset : Z
}.

Section Check.
Context {SH : ScriptHashes}.
Variable Verify : CPubKey -> base_uint -> valtype -> bool.
Variables (maxMoney maturity : Z).
Variable heap : index_heap.
Variable blockIndexMap : gmap (list Z) positive.
(** [fScriptChecks], [nScriptCheckThreads != 0], the index options, [fJustCheck]. *)
Variables fScriptChecks parallel fAddressIndex fSpentIndex fJustCheck : bool.
(** [pindex->nHeight], [pindex->GetBlockPos()] and [nExpectedMint] *)
Variables (nHeight nFile nDataPos : Z) (nExpectedMint : CBlockRewards).

Definition too_many_sigops (s : CValidationState) : bool * CValidationState := dos s 100 "bad-blk-sigops".

(** [TotalSigOpsAreBelowMaximum] *)
Definition TotalSigOpsAreBelowMaximum (tx : CTransaction) (s : BlockCheck) : io (bool * BlockCheck) :=
  let* n := GetLegacySigOpCount (tx_body tx) in
  let total := u32 (nSigOps s + n) in
  let fail v total := (false, mkBlockCheck v (too_many_sigops (bc_state s)).2 (nMoneySupply s) (nMint s) total (vtxundo s) (bc_updates s) (vChecks s) (queued s) (nextTxOffset s)) in
  if total >? MAX_BLOCK_SIGOPS_CURRENT then Ret (fail (bc_view s) total)
  else if negb (IsCoinBase (tx_body tx)) then
    let* '(v, n) := GetP2SHSigOpCount (bc_view s) (tx_body tx) in
    let total := u32 (total + n) in
    if total >? MAX_BLOCK_SIGOPS_CURRENT then Ret (fail v total)
    else Ret (true, mkBlockCheck v (bc_state s) (nMoneySupply s) (nMint s) total (vtxundo s) (bc_updates s) (vChecks s) (queued s) (nextTxOffset s))
  else Ret (true, mkBlockCheck (bc_view s) (bc_state s) (nMoneySupply s) (nMint s) total (vtxundo s) (bc_updates s) (vChecks s) (queued s) (nextTxOffset s)).

Definition CheckInputsAndUpdateCoinSupplyRecords (tx : CTransaction) (s : BlockCheck) : io (bool * BlockCheck) :=
  oassert (bool_decide (vChecks s = [])) ;;;
  let* r := CheckInputs Verify maxMoney maturity heap blockIndexMap (tx_body tx) (bc_state s) (bc_view s) 0 0 fScriptChecks
    MANDATORY_SCRIPT_VERIFY_FLAGS fJustCheck (if parallel then Some (vChecks s) else None) true in
  let checks := default (vChecks s) (ci_checks r) in
  if negb (ci_result r).1
  then Ret (false, mkBlockCheck (ci_view r) (ci_result r).2 (nMoneySupply s) (nMint s) (nSigOps s) (vtxundo s) (bc_updates s) [] (queued s) (nextTxOffset s))
  else
    let* out := GetValueOut (tx_body tx) in
    let* mintingMinusBurn := amount_add out (- ci_nValueIn r) in
    let* supply := amount_add (nMoneySupply s) mintingMinusBurn in
    let* minted := amount_add mintingMinusBurn (ci_nFees r) in
    let* mint := amount_add (nMint s) minted in
    Ret (true, mkBlockCheck (ci_view r) (ci_result r).2 supply mint (nSigOps s) (vtxundo s) (bc_updates s) checks (queued s) (nextTxOffset s)).

(** Only a queue takes the checks; they are there only if scripts are checked. *)
Definition ScheduleBackgroundThreadScriptChecking (s : BlockCheck) : BlockCheck :=
  mkBlockCheck (bc_view s) (bc_state s) (nMoneySupply s) (nMint s) (nSigOps s) (vtxundo s) (bc_updates s) []
    (if fScriptChecks && parallel then queued s ++ vChecks s else queued s) (nextTxOffset s).

(** [RecordTxLocationData] *)
Definition RecordTxLocationData (tx : CTransaction) (u : IndexDatabaseUpdates) (offset : Z) : IndexDatabaseUpdates * Z :=
  (push_location u (mkTxIndexEntry (tx_hash tx) (GetBareTxid tx) (mkDiskTxPos nFile nDataPos offset)),
   u32 (offset + GetSerializeSize transaction_codec tx)).

(** The body of the loop of [BlockTransactionChecker::Check]. *)
Definition check_transaction (tx : CTransaction) (i : nat) (s : BlockCheck) : io (bool * BlockCheck) :=
  let txLocationRef := TransactionLocationReference_of tx nHeight (Z.of_nat i) in
  let* '(ok, s) := TotalSigOpsAreBelowMaximum tx s in
  if negb ok then Ret (false, s) else
  let* '(ok, s) := CheckInputsAndUpdateCoinSupplyRecords tx s in
  if negb ok then Ret (false, s) else
  let s := if negb (IsCoinBase (tx_body tx)) then ScheduleBackgroundThreadScriptChecking s else s in
  let* '(v, ok) := CheckCoinstakeForVaults (tx_body tx) nExpectedMint (bc_view s) in
  if negb ok then
    Ret (false, mkBlockCheck v (dos (bc_state s) 100 "bad-coinstake-vault-spend").2 (nMoneySupply s) (nMint s) (nSigOps s) (vtxundo s) (bc_updates s) (vChecks s) (queued s) (nextTxOffset s))
  else
    let* '(v, u) := RecordTransaction fAddressIndex fSpentIndex txLocationRef tx v (bc_updates s) in
    let* '(v, undos) := UpdateCoinsWithTransaction tx v nHeight in
    let undoIndex := (if (0 <? i)%nat then i - 1 else 0)%nat in
    oassert (IsCoinBase (tx_body tx) || (undoIndex <? length (vtxundo s))%nat) ;;;
    let '(u, offset) := RecordTxLocationData tx u (nextTxOffset s) in
    Ret (true, mkBlockCheck v (bc_state s) (nMoneySupply s) (nMint s) (nSigOps s) (alter (fun l => l ++ undos) undoIndex (vtxundo s)) u (vChecks s) (queued s) offset).

Fixpoint check_loop (txs : list CTransaction) (i : nat) (s : BlockCheck) : io (bool * BlockCheck) :=
  match txs with
  | [] => Ret (true, s)
  | tx :: txs =>
      let* '(ok, s) := check_transaction tx i s in
      if negb ok then Ret (false, s) else check_loop txs (S i) s
  end.

(** The constructor and [Check]; [blockundo_(block.vtx.size() - 1)]. *)
Definition BlockTransactionChecker_Check (vtx : list CTransaction) (nMoneySupplyPrev : CAmount) (view : CCoinsView) (state : CValidationState) : io (bool * BlockCheck) :=
  check_loop vtx 0 (mkBlockCheck view state nMoneySupplyPrev 0 0 (replicate (length vtx - 1) []) IndexDatabaseUpdates_new [] [] (GetSizeOfCompactSize (zlen vtx))).

(** The worker threads run every queued check, in any order. *)
Fixpoint WaitForScriptsToBeChecked (checks : list CScriptCheck) : io bool :=
  match checks with
  | [] => Ret true
  | c :: checks => let* ok := run_check Verify c in let* rest := WaitForScriptsToBeChecked checks in Ret (ok && rest)
  end.
End Check.

(** ** [ConnectBlock] *)

(** [BlockIncentivesPopulator] as [ConnectBlock] uses it. *)
Class I_BlockIncentivesPopulator := {
  IsBlockValueValid : CBlockRewards -> CAmount -> Z -> bool;
  HasValidPayees : CMutableTransaction -> option ptr -> io bool
}.

Definition CalculateFees (isProofOfWork : bool) (nMoneySupplyPrev supply mint : CAmount) (nExpectedMint : CBlockRewards) : io CBlockRewards :=
  let* minted := amount_add supply (- nMoneySupplyPrev) in
  let* nFees := amount_add mint (- minted) in
  if isProofOfWork then
    let* stake := amount_add (nStakeReward nExpectedMint) nFees in
    Ret (mkRewards stake (nMasternodeReward nExpectedMint) (nTreasuryReward nExpectedMint) (nCharityReward nExpectedMint) (nLotteryReward nExpectedMint) (nProposalsReward nExpectedMint))
  else Ret nExpectedMint.

Section Connect.
Context {SH : ScriptHashes}.
Context {incentives : I_BlockIncentivesPopulator}.
Variable Verify : CPubKey -> base_uint -> valtype -> bool.
(** [Params()]: [MaxMoneyOut], [COINBASE_MATURITY], [LAST_POW_BLOCK], [HashGenesisBlock]. *)
Variables (maxMoney maturity LAST_POW_BLOCK : Z) (HashGenesisBlock : list Z).
Variable heap : index_heap.
Variable blockIndexMap : gmap (list Z) positive.
(** [GetTotalBlocksEstimate()], [nScriptCheckThreads != 0] and the options. *)
Variables (blocksToSkipChecksFor : Z) (parallel fTxIndex fAddressIndex fSpentIndex fVerifyingBlocks : bool).
(** [GetBlockSubsidity] *)
Variable subsidy : Z -> io CBlockRewards.

Definition VerifyBestBlockIsAtPreviousBlock (pindex : CBlockIndex) (view : CCoinsView) : io CCoinsView :=
  let* hashPrevBlock := match pprev pindex with None => Ret (of_uint64 8 0) | Some p => let* b := deref heap (Some p) in Ret (phashBlock b) end in
  let '(view, best) := GetBestBlock view in
  oassert (bool_decide (hashPrevBlock = best)) ;;; Ret view.

Fixpoint check_bip30 (txs : list CTransaction) (view : CCoinsView) (state : CValidationState) : CCoinsView * (bool * CValidationState) :=
  match txs with
  | [] => (view, (true, state))
  | tx :: txs =>
      let '(view, coins) := AccessCoins view (tx_hash tx) in
      match coins with
      | Some c => if negb (IsPruned c) then (view, dos state 100 "bad-txns-BIP30") else check_bip30 txs view state
      | None => check_bip30 txs view state
      end
  end.

Definition CheckEnforcedPoSBlocksAndBIP30 (block : CBlock) (state : CValidationState) (nHeight : Z) (view : CCoinsView) : CCoinsView * (bool * CValidationState) :=
  if (nHeight <=? LAST_POW_BLOCK) && IsProofOfStake (vtx block) then (view, dos state 100 "PoS-early")
  else if (nHeight >? LAST_POW_BLOCK) && negb (IsProofOfStake (vtx block)) then (view, dos state 100 "PoW-ended")
  else check_bip30 (vtx block) view state.

Definition CheckMintTotalsAndBlockPayees (block : CBlock) (pindex : option ptr) (nHeight : Z) (nExpectedMint : CBlockRewards) (mint : CAmount) (state : CValidationState)
    : io (bool * CValidationState) :=
  let* coinbaseTx := oaccess (vtx block !! (if nHeight >? LAST_POW_BLOCK then 1%nat else 0%nat)) in
  if negb (IsBlockValueValid nExpectedMint mint nHeight) then Ret (dos state 100 "bad-cb-amount") else
  let* valid := HasValidPayees (tx_body coinbaseTx) pindex in
  if negb valid then Ret (dos state 0 "bad-cb-payee") else Ret (true, state).

(** What [ConnectBlock] leaves: the view, the state, the money supply and the minted
    amount of [pindex], the undo data and the database. *)
Record Connected := mkConnected {
  cn_view : CCoinsView; cn_state : CValidationState; cn_supply : CAmount; cn_mint : CAmount; cn_undo : list (list CTxInUndo); cn_db : CBlockTreeDB
}.

Definition SetViewBestBlock (v : CCoinsView) (h : list Z) : CCoinsView :=
  match v with ViewCache c base => ViewCache (SetBestBlock c h) base | ViewDB d => ViewDB d end.

(** With [fAlreadyChecked]; [prevSupply] and [prevCheckpoint] are fields of
    [pindex->pprev], the hash of the block is [GetHash()].  Undo data and indexes
    are written without an I/O error. *)
Definition ConnectBlock (block : CBlock) (hash : list Z) (state : CValidationState) (pindex : ptr) (prevSupply : CAmount) (prevCheckpoint : list Z)
    (nFile nDataPos : Z) (view : CCoinsView) (db : CBlockTreeDB) (fJustCheck : bool) : io (bool * Connected) :=
  let* b := deref heap (Some pindex) in
  let* view := VerifyBestBlockIsAtPreviousBlock b view in
  if bool_decide (hash = HashGenesisBlock) then
    Ret (true, mkConnected (if fJustCheck then view else SetViewBestBlock view (phashBlock b)) state 0 0 [] db)
  else
    let '(view, (ok, state)) := CheckEnforcedPoSBlocksAndBIP30 block state (nHeight b) view in
    if negb ok then Ret (false, mkConnected view state 0 0 [] db) else
    let* nExpectedMint := subsidy (nHeight b) in
    let* '(ok, s) := BlockTransactionChecker_Check Verify maxMoney maturity heap blockIndexMap (blocksToSkipChecksFor <=? nHeight b) parallel
      fAddressIndex fSpentIndex fJustCheck (nHeight b) nFile nDataPos nExpectedMint (vtx block) prevSupply view state in
    let result st := mkConnected (bc_view s) st (nMoneySupply s) (nMint s) (vtxundo s) db in
    if negb ok then Ret (false, result (bc_state s)) else
    let* nExpectedMint := CalculateFees (negb (IsProofOfStake (vtx block))) prevSupply (nMoneySupply s) (nMint s) nExpectedMint in
    let* '(ok, state) := CheckMintTotalsAndBlockPayees block (Some pindex) (nHeight b) nExpectedMint (nMint s) (bc_state s) in
    if negb ok then Ret (false, result state) else
    if negb fVerifyingBlocks && negb (bool_decide ((nAccumulatorCheckpoint (blk_header block) : list Z) = prevCheckpoint))
    then Ret (false, result (DoS state 100 0 EmptyString false)) else
    let* ok := WaitForScriptsToBeChecked Verify (queued s) in
    if negb ok then Ret (false, result (DoS state 100 0 EmptyString false)) else
    if fJustCheck then Ret (true, result state) else
    Ret (true, mkConnected (SetViewBestBlock (bc_view s) (phashBlock b)) state (nMoneySupply s) (nMint s) (vtxundo s)
      (UpdateDBIndicesForNewBlock fTxIndex fAddressIndex fSpentIndex (bc_updates s) db)).

(** ** [DisconnectBlock] *)

(** The status of a transaction's reversal: whether to go on, and [fClean]. *)
Definition CheckTxReversalStatus (status : TxReversalStatus) (fClean : bool) : bool * bool :=
  match status with
  | ABORT_NO_OTHER_ERRORS => (false, fClean)
  | ABORT_WITH_OTHER_ERRORS => (false, false)
  | CONTINUE_WITH_ERRORS => (true, false)
  | OK => (true, fClean)
  end.

(** The loop over the transactions with their positions, last first. *)
Fixpoint disconnect_loop (txs : list (nat * CTransaction)) (undo : list (list CTxInUndo)) (nHeight : Z) (tolerant : bool) (view : CCoinsView)
    (fClean : bool) (u : IndexDatabaseUpdates) : io (CCoinsView * bool * bool * IndexDatabaseUpdates) :=
  match txs with
  | [] => Ret (view, true, fClean, u)
  | (i, tx) :: txs =>
      let ref := TransactionLocationReference_of tx nHeight (Z.of_nat i) in
      let* txundo := (if (0 <? i)%nat then let* l := oaccess (undo !! (i - 1)%nat) in Ret (Some l) else Ret None) in
      let* '(view, status) := UpdateCoinsReversingTransaction (tx_body tx) (ref_hash ref) (i32 (ref_blockHeight ref)) view txundo in
      let '(continue, fClean) := CheckTxReversalStatus status fClean in
      if negb continue then Ret (view, false, fClean, u) else
      let* '(view, u) := if negb tolerant then ReverseTransaction fAddressIndex fSpentIndex ref tx view u else Ret (view, u) in
      disconnect_loop txs undo nHeight tolerant view fClean u
  end.

(** With the undo data as read from disk ([None] when that fails); [pfClean] is
    given when [tolerant].  The result is the return value and [*pfClean]. *)
Definition DisconnectBlock (block : CBlock) (blockUndo : option (list (list CTxInUndo))) (pindex : ptr) (view : CCoinsView) (tolerant : bool)
    (db : CBlockTreeDB) : io (CCoinsView * bool * bool * CBlockTreeDB) :=
  let* b := deref heap (Some pindex) in
  let '(view, best) := GetBestBlock view in
  oassert (bool_decide (phashBlock b = best)) ;;;
  match blockUndo with
  | None => Ret (view, false, false, db)
  | Some undo =>
      if negb (length undo + 1 =? length (vtx block))%nat then Ret (view, false, false, db) else
      let* '(view, continue, fClean, u) := disconnect_loop (rev (imap pair (vtx block))) undo (nHeight b) tolerant view true IndexDatabaseUpdates_new in
      if negb continue then Ret (view, false, false, db) else
      let* prev := deref heap (pprev b) in
      let view := SetViewBestBlock view (phashBlock prev) in
      if negb tolerant then Ret (view, fClean, false, ApplyDisconnectionUpdateIndexToDBs fAddressIndex u db)
      else Ret (view, true, fClean, db)
  end.
End Connect.
