(* ===== verification/Supply.v ===== *)
(** * The money supply

    The value of all unspent outputs that a coins view shows, and how connecting
    transactions and blocks changes it: by what the transactions pay out less what
    they take in, and therefore, for a connected block, by no more than the subsidy
    of its height. *)

From Stdlib Require Import ZArith Lia Bool String.
From stdpp Require Import base option numbers list gmap.
From S2P Require Import Prelude BaseUInt UInt256 Serialize Opcodes ScriptNum Script StackManager Interpreter Transaction Standard Coins CoinsCache CoinsUpdate Hashes SigHash BlockIndex Chain Subsidy Base58 MasternodeVotes Incentives Validation IndexUpdates ConnectBlock.

Open Scope Z_scope.
Open Scope outcome_scope.

(** ** The value of coins *)

Definition value_of (o : CTxOut) : CAmount := if CTxOut_IsNull o then 0 else nValue o.
Definition vout_value (l : list CTxOut) : CAmount := foldr (fun o s => value_of o + s) 0 l.
Definition coins_value (c : CCoins) : CAmount := vout_value (coins_vout c).

Lemma vout_value_cons o l : vout_value (o :: l) = value_of o + vout_value l.
Proof. reflexivity. Qed.

Lemma vout_value_app l1 l2 : vout_value (l1 ++ l2) = vout_value l1 + vout_value l2.
Proof. induction l1 as [|o l1 IH]; [done|]. rewrite <-app_comm_cons, !vout_value_cons, IH. lia. Qed.

Lemma vout_value_nulls l : Forall (fun o => CTxOut_IsNull o = true) l -> vout_value l = 0.
Proof. induction 1 as [|o l Ho _ IH]; [done|]. rewrite vout_value_cons, IH. unfold value_of. by rewrite Ho. Qed.

Lemma drop_nulls_value l : vout_value (drop_nulls l) = vout_value l.
Proof. destruct (drop_nulls_split l) as (p & Hp & Hn & _). rewrite Hp at 2. rewrite vout_value_app, (vout_value_nulls p Hn). lia. Qed.

Lemma vout_value_insert l n o x : l !! n = Some o -> vout_value (<[n := x]> l) = vout_value l - value_of o + value_of x.
Proof.
  revert n. induction l as [|y l IH]; intros [|n] H; try done.
  - injection H as ->. change (<[0%nat := x]> (o :: l)) with (x :: l). rewrite !vout_value_cons. lia.
  - change (<[S n := x]> (y :: l)) with (y :: <[n := x]> l). rewrite !vout_value_cons, (IH n H). lia.
Qed.

Lemma spend_value c n o : coins_vout c !! n = Some o -> CTxOut_IsNull o = false ->
  coins_value (Spend c n).1 = coins_value c - nValue o /\ (Spend c n).2.1 = true.
Proof.
  intros Hn Ho. unfold Spend. rewrite Hn, Ho. cbn zeta. cbn [fst snd]. split; [|done]. unfold coins_value. cbn [Cleanup with_vout coins_vout].
  rewrite drop_nulls_value, (vout_value_insert _ n o) by done. unfold value_of at 1 2. rewrite Ho. cbn. lia.
Qed.

Lemma pruned_value c : IsPruned c = true -> coins_value c = 0.
Proof.
  unfold IsPruned, coins_value. intros H. apply vout_value_nulls, Forall_forall. intros o Ho. rewrite forallb_forall in H. apply H. by apply list_elem_of_In.
Qed.

(** Of the outputs of a transaction, those that enter the unspent outputs. *)
Definition burnt (outs : list CTxOut) : CAmount := foldr (fun o s => (if IsUnspendable (scriptPubKey o) then nValue o else 0) + s) 0 outs.

Lemma burnt_nonneg outs : Forall (fun o => 0 <= nValue o) outs -> 0 <= burnt outs.
Proof. induction 1 as [|o l Ho _ IH]; [done|]. unfold burnt in *. cbn [foldr]. destruct (IsUnspendable _); lia. Qed.

Lemma FromTx_value tx h : Forall (fun o => 0 <= nValue o) (vout tx) -> coins_value (FromTx tx h) = total_value (vout tx) - burnt (vout tx).
Proof.
  intros H. unfold coins_value, FromTx, ClearUnspendable. cbn [Cleanup with_vout coins_vout]. rewrite drop_nulls_value.
  induction H as [|o l Ho _ IH]; [done|]. unfold vout_value, total_value, burnt in *. cbn [map foldr]. rewrite IH. unfold clear_unspendable at 1.
  destruct (IsUnspendable (scriptPubKey o)); unfold value_of; [cbn; lia|]. unfold CTxOut_IsNull. rewrite (proj2 (Z.eqb_neq _ _)) by lia. lia.
Qed.

(** ** The value of all unspent outputs *)

Definition utxo_total (m : gmap (list Z) CCoins) : CAmount := map_fold (fun _ c s => coins_value c + s) 0 m.

Lemma utxo_total_insert (m : gmap (list Z) CCoins) k c : m !! k = None -> utxo_total (<[k := c]> m) = coins_value c + utxo_total m.
Proof. intros H. unfold utxo_total. rewrite map_fold_insert_L; [done | | done]. intros. lia. Qed.

Lemma utxo_total_delete (m : gmap (list Z) CCoins) k c : m !! k = Some c -> utxo_total m = coins_value c + utxo_total (delete k m).
Proof. intros H. unfold utxo_total. rewrite (map_fold_delete_L _ _ k c); [done | | done]. intros. lia. Qed.

(** The entry of one transaction replaced. *)
Definition set_coins (m : gmap (list Z) CCoins) (k : list Z) (r : option CCoins) : gmap (list Z) CCoins :=
  match r with Some c => <[k := c]> (delete k m) | None => delete k m end.

Definition value_at (r : option CCoins) : CAmount := match r with Some c => coins_value c | None => 0 end.

Lemma set_coins_lookup m k r k' : set_coins m k r !! k' = if bool_decide (k' = k) then r else m !! k'.
Proof.
  unfold set_coins. case_bool_decide as H; destruct r as [c|].
  - subst. apply lookup_insert_eq.
  - subst. apply lookup_delete_eq.
  - rewrite lookup_insert_ne, lookup_delete_ne by congruence. done.
  - by rewrite lookup_delete_ne by congruence.
Qed.

Lemma set_coins_total m k r : utxo_total (set_coins m k r) = utxo_total m - value_at (m !! k) + value_at r.
Proof.
  assert (E : utxo_total m = value_at (m !! k) + utxo_total (delete k m)).
  { destruct (m !! k) as [c|] eqn:E; [by apply utxo_total_delete|]. rewrite delete_id by done. cbn. lia. }
  rewrite E. unfold set_coins. destruct r as [c|]; cbn [value_at]; [|lia]. rewrite utxo_total_insert by apply lookup_delete_eq. lia.
Qed.

Lemma unspent_value_at c : value_at (unspent (Some c)) = coins_value c.
Proof. cbn [unspent]. destruct (IsPruned c) eqn:E; [|done]. cbn. symmetry. by apply pruned_value. Qed.

(** The view shows exactly the unspent outputs of [m]. *)
Definition shows (v : CCoinsView) (m : gmap (list Z) CCoins) : Prop := forall k, coins_at v k = m !! k.

Lemma shows_reads v v' m : reads v v' -> shows v m -> shows v' m.
Proof. intros Hr Hs k. by rewrite (reads_coins v v' k Hr). Qed.

(** ** Spending and adding outputs *)

Lemma FetchCoins_cache c base k : exists c' base', (FetchCoins (ViewCache c base) k).1 = ViewCache c' base'.
Proof.
  cbn [FetchCoins]. destruct (cacheCoins c !! k); [by eexists _, _|]. destruct (FetchCoins base k) as [b r]. destruct r; by eexists _, _.
Qed.

Lemma reads_best v v' : reads v v' -> (GetBestBlock v').2 = (GetBestBlock v).2.
Proof. by intros (_ & _ & H & _). Qed.

(** Modifying coins does not touch the best block. *)
Lemma modify_best {R} v k (f : CCoins -> CCoins * R) v' r : modify v k f = Ret (v', r) -> (GetBestBlock v').2 = (GetBestBlock v).2.
Proof.
  destruct v as [d|c base]; [done|]. unfold modify, ModifyCoins, ReleaseModifier.
  destruct (negb (hasModifier c)); cbn [oassert obind]; [|done].
  assert (Hb : forall e b, (match cacheCoins c !! k with
      | Some e => (e, base)
      | None => let '(base, r) := GetCoins base k in
          match r with None => (mkEntry (Clear CCoins_empty) false true, base) | Some coins => (mkEntry coins false (IsPruned coins), base) end
      end) = (e, b) -> (GetBestBlock b).2 = (GetBestBlock base).2).
  { intros e b. destruct (cacheCoins c !! k); [by intros [= _ <-]|]. pose proof (FetchCoins_best base k) as H. unfold GetCoins. destruct (FetchCoins base k) as [b' [x|]];
      by intros [= _ <-]. }
  destruct (match cacheCoins c !! k with Some _ => _ | None => _ end) as [e b] eqn:E. specialize (Hb e b eq_refl). cbn [obind].
  cbn [with_modifier with_cache cacheCoins]. rewrite lookup_insert_eq. cbn [oaccess obind]. destruct (f _) as [coins x]. cbn [hasModifier oassert obind with_modifier with_cache cacheCoins].
  rewrite lookup_insert_eq. cbn [oaccess obind]. intros [= <- <-]. cbn [GetBestBlock with_cache with_modifier cache_hashBlock].
  destruct (bool_decide _); [|done]. destruct (GetBestBlock b), (GetBestBlock base). done.
Qed.

Definition best (v : CCoinsView) : list Z := (GetBestBlock v).2.

Lemma store_modify_shows {R} v k (f : CCoins -> CCoins * R) m : cache_ok v -> shows v m ->
  exists c0 v', unspent (Some c0) = m !! k /\ store_modify R v k f = Ret (v', (f c0).2) /\ cache_ok v' /\ best v' = best v /\
    shows v' (set_coins m k (unspent (Some (Cleanup (f c0).1)))).
Proof.
  intros Hok Hs. destruct (@store_modify_spec CCoinsView cache_store R v k f Hok) as (c0 & v' & _ & Hu & Hm & Hok' & Hk & Ho).
  exists c0, v'. split; [by rewrite Hu; apply Hs|]. split; [done|]. split; [done|]. split; [by apply (modify_best v k f v' (f c0).2)|].
  intros k'. rewrite set_coins_lookup. case_bool_decide as E; [by subst | rewrite <-Hs; by apply Ho].
Qed.

(** An output in the map. *)
Definition output_in (m : gmap (list Z) CCoins) (i : CTxIn) : option CTxOut :=
  match m !! (prev_hash (prevout i) : list Z) with
  | Some c => if IsAvailable c (Z.to_nat (prev_n (prevout i))) then coins_vout c !! Z.to_nat (prev_n (prevout i)) else None
  | None => None
  end.

Lemma shows_output v m i : shows v m -> output_at v i = output_in m i.
Proof. intros Hs. unfold output_at, output_in. by rewrite Hs. Qed.

Lemma Cleanup_value c : coins_value (Cleanup c) = coins_value c.
Proof. unfold coins_value. apply drop_nulls_value. Qed.

Lemma unspent_available c n : IsAvailable c n = true -> unspent (Some c) = Some c.
Proof. intros H. cbn. by rewrite (available_not_pruned c n H). Qed.

(** Spending one output of [m]. *)
Lemma spend_one v m i o : cache_ok v -> shows v m -> output_in m i = Some o ->
  exists v' undo m', store_modify _ v (prev_hash (prevout i)) (fun c => Spend c (Z.to_nat (prev_n (prevout i)))) = Ret (v', (true, undo)) /\
    cache_ok v' /\ best v' = best v /\ shows v' m' /\ utxo_total m' = utxo_total m - nValue o /\
    (forall k, m !! k = None -> m' !! k = None) /\
    (forall j x, output_in m j = Some x -> spends j <> spends i -> output_in m' j = Some x).
Proof.
  intros Hok Hs Ho. unfold output_in in Ho. destruct (m !! (prev_hash (prevout i) : list Z)) as [c|] eqn:Em; [|done].
  destruct (IsAvailable c (Z.to_nat (prev_n (prevout i)))) eqn:Ea; [|done].
  destruct (store_modify_shows v (prev_hash (prevout i)) (fun c => Spend c (Z.to_nat (prev_n (prevout i)))) m Hok Hs) as (c0 & v' & Hu & Hm & Hok' & Hb & Hs').
  rewrite Em in Hu. assert (c0 = c) as -> by (cbn in Hu; destruct (IsPruned c0); [done | by injection Hu]).
  assert (Hnull : CTxOut_IsNull o = false) by (unfold IsAvailable in Ea; rewrite Ho in Ea; by apply negb_true_iff).
  destruct (spend_value c _ o Ho Hnull) as [Hval Htrue]. destruct (Spend c (Z.to_nat (prev_n (prevout i)))) as [c' [b undo]] eqn:Esp. cbn [fst snd] in Hval, Htrue, Hm, Hs'. subst b.
  exists v', undo, (set_coins m (prev_hash (prevout i)) (unspent (Some (Cleanup c')))). split; [done|]. split; [done|]. split; [done|]. split; [done|]. split; [|split].
  - rewrite set_coins_total, Em, unspent_value_at, Cleanup_value, Hval. cbn [value_at]. lia.
  - intros k Hk. rewrite set_coins_lookup. rewrite bool_decide_eq_false_2; [done | congruence].
  - intros j x Hj Hne. unfold output_in in *. rewrite set_coins_lookup. case_bool_decide as Eh; [|done]. rewrite Eh, Em in Hj.
    destruct (IsAvailable c (Z.to_nat (prev_n (prevout j)))) eqn:Eaj; [|done].
    assert (Hn : Z.to_nat (prev_n (prevout j)) <> Z.to_nat (prev_n (prevout i))) by (intros E; apply Hne; unfold spends; congruence).
    destruct (spend_available c _ Ea) as (o' & _ & _ & Hsp). cbn zeta in Hsp. rewrite Esp in Hsp. injection Hsp as -> _.
    rewrite (Cleanup_id _ (Cleanup_clean _)).
    pose proof (Spend_keeps c _ _ Hn Eaj) as Hk. rewrite Esp in Hk. cbn [fst] in Hk. rewrite (unspent_available _ _ Hk), Hk.
    cbn [Cleanup with_vout coins_vout]. set (vo := <[Z.to_nat (prev_n (prevout i)):=CTxOut_null]> (coins_vout c)) in *.
    assert (Hvo : vo !! Z.to_nat (prev_n (prevout j)) = Some x) by (unfold vo; rewrite list_lookup_insert_ne by auto; done).
    unfold IsAvailable in Hk. cbn [Cleanup with_vout coins_vout] in Hk. destruct (drop_nulls vo !! Z.to_nat (prev_n (prevout j))) as [y|] eqn:Ey; [|done].
    destruct (drop_nulls_split vo) as (p & Hp & _). rewrite Hp in Hvo. rewrite (lookup_app_l_Some _ _ _ _ Ey) in Hvo. done.
Qed.

Lemma spend_all ins : forall outs v m, cache_ok v -> shows v m -> Forall2 (fun i o => output_in m i = Some o) ins outs -> NoDup (map spends ins) ->
  exists v' undos m', CoinsUpdate.spend_inputs v ins = Ret (v', undos) /\ cache_ok v' /\ best v' = best v /\ shows v' m' /\
    utxo_total m' = utxo_total m - total_value outs /\ (forall k, m !! k = None -> m' !! k = None).
Proof.
  induction ins as [|i ins IH]; intros outs v m Hok Hs H Hnd.
  { inversion H; subst. exists v, [], m. do 4 (split; [done|]). split; [cbn; lia | done]. }
  apply Forall2_cons_inv_l in H as (o & outs' & Ho & H & ->). cbn [map] in Hnd. apply NoDup_cons in Hnd as [Hi Hnd].
  destruct (spend_one v m i o Hok Hs Ho) as (v1 & undo & m1 & E1 & Hok1 & Hb1 & Hs1 & Ht1 & Hn1 & Hk1).
  destruct (IH outs' v1 m1 Hok1 Hs1) as (v2 & undos & m2 & E2 & Hok2 & Hb2 & Hs2 & Ht2 & Hn2); [|done|].
  { apply Forall2_same_length_lookup. split; [by apply Forall2_length in H|]. intros n j x Hj Hx. apply Hk1; [exact (Forall2_lookup_lr _ _ _ _ _ _ H Hj Hx)|].
    intros Es. apply Hi. rewrite <-Es. apply list_elem_of_lookup. exists n. change (map spends ins) with (spends <$> ins). by rewrite list_lookup_fmap, Hj. }
  exists v2, (undo :: undos), m2. cbn [CoinsUpdate.spend_inputs]. rewrite E1. cbn [obind fst snd oassert]. rewrite E2. cbn [obind].
  split; [done|]. split; [done|]. split; [congruence|]. split; [done|]. split; [|auto]. rewrite Ht2, Ht1. unfold total_value. cbn [foldr]. lia.
Qed.

(** Connecting one transaction. *)
Lemma update_shows v m tx h outs :
  cache_ok v -> shows v m -> m !! tx_hash tx = None -> Forall (fun o => 0 <= nValue o) (vout (tx_body tx)) ->
  (IsCoinBase (tx_body tx) = true /\ outs = [] \/
   IsCoinBase (tx_body tx) = false /\ Forall2 (fun i o => output_in m i = Some o) (vin (tx_body tx)) outs /\ NoDup (map spends (vin (tx_body tx)))) ->
  exists v' undos m', UpdateCoinsWithTransaction tx v h = Ret (v', undos) /\ cache_ok v' /\ best v' = best v /\ shows v' m' /\
    utxo_total m' = utxo_total m - total_value outs + total_value (vout (tx_body tx)) - burnt (vout (tx_body tx)) /\
    (forall k, m !! k = None -> k <> tx_hash tx -> m' !! k = None).
Proof.
  intros Hok Hs Hnew Hn Hins. unfold UpdateCoinsWithTransaction.
  assert (Hsp : exists v1 undos m1, (if negb (IsCoinBase (tx_body tx)) then CoinsUpdate.spend_inputs v (vin (tx_body tx)) else Ret (v, [])) = Ret (v1, undos) /\
    cache_ok v1 /\ best v1 = best v /\ shows v1 m1 /\ utxo_total m1 = utxo_total m - total_value outs /\ (forall k, m !! k = None -> m1 !! k = None)).
  { destruct Hins as [[-> ->]|(-> & H & Hnd)]; cbn [negb]; [|by apply spend_all]. exists v, [], m. do 4 (split; [done|]). split; [cbn; lia | done]. }
  destruct Hsp as (v1 & undos & m1 & -> & Hok1 & Hb1 & Hs1 & Ht1 & Hn1). cbn [obind].
  destruct (store_modify_shows v1 (tx_hash tx) (fun _ => (FromTx (tx_body tx) h, tt)) m1 Hok1 Hs1) as (c0 & v2 & _ & -> & Hok2 & Hb2 & Hs2). cbn [obind fst snd] in *.
  eexists v2, undos, _. split; [reflexivity|]. split; [done|]. split; [congruence|]. split; [exact Hs2|]. split.
  - rewrite set_coins_total, (Hn1 _ Hnew), unspent_value_at, Cleanup_value, FromTx_value, Ht1 by done. cbn [value_at]. lia.
  - intros k Hk Hne. rewrite set_coins_lookup, bool_decide_eq_false_2 by done. by apply Hn1.
Qed.

(** ** The checks only read *)

(** If the computation returns, its result satisfies [P]. *)
Definition yields {A} (P : A -> Prop) (m : io A) : Prop := match m with Ret a => P a | _ => True end.

Lemma yields_bind {A B} (P : A -> Prop) (Q : B -> Prop) (m : io A) f : yields P m -> (forall a, P a -> yields Q (f a)) -> yields Q (obind m f).
Proof. destruct m; simpl; auto. Qed.

Lemma yields_any {A B} (Q : B -> Prop) (m : io A) f : (forall a, m = Ret a -> yields Q (f a)) -> yields Q (obind m f).
Proof. destruct m; simpl; auto. Qed.

Lemma yields_ret {A} (P : A -> Prop) m a : yields P m -> m = Ret a -> P a.
Proof. by intros H ->. Qed.

Section Reading.
Context {SH : ScriptHashes}.

Lemma GetOutputFor_reads v i : view_ok v -> yields (fun r => reads v r.1) (GetOutputFor v i).
Proof.
  intros Hok. destruct (output_at v i) as [o|] eqn:E.
  - destruct (GetOutputFor_spec v i o Hok E) as (v' & -> & Hr). exact Hr.
  - by rewrite (GetOutputFor_missing v i Hok E).
Qed.

Lemma p2sh_reads ins : forall v n, view_ok v -> yields (fun r => reads v r.1) (add_p2sh_sigops v ins n).
Proof.
  induction ins as [|i ins IH]; intros v n Hok; [by apply reads_refl|]. cbn [add_p2sh_sigops].
  eapply yields_bind; [by apply GetOutputFor_reads|]. intros [v1 o] Hr. cbn [fst] in Hr. apply yields_any. intros n' _.
  pose proof (IH v1 n' (proj1 Hr)) as H. destruct (add_p2sh_sigops v1 ins n') as [[v2 k]| | |]; try done. cbn in *. by eapply reads_trans.
Qed.

Lemma vault_reads ins : forall v n s, view_ok v -> yields (fun r => reads v r.1) (vault_inputs v ins n s).
Proof.
  induction ins as [|i ins IH]; intros v n s Hok; [by apply reads_refl|]. cbn [vault_inputs].
  eapply yields_bind; [by apply GetOutputFor_reads|]. intros [v1 o] Hr. cbn [fst] in Hr. apply yields_any. intros n' _.
  assert (Hrec : forall s', yields (fun r => reads v r.1) (vault_inputs v1 ins n' s')).
  { intros s'. pose proof (IH v1 n' s' (proj1 Hr)) as H. destruct (vault_inputs v1 ins n' s') as [[v2 k]| | |]; try done. cbn in *. by eapply reads_trans. }
  destruct (negb _); [done|]. destruct s; [|done]. by destruct (negb _).
Qed.

Lemma CheckCoinstakeForVaults_reads tx r v : view_ok v -> yields (fun r => reads v r.1) (CheckCoinstakeForVaults tx r v).
Proof.
  intros Hok. unfold CheckCoinstakeForVaults. destruct (negb _); [by apply reads_refl|].
  eapply yields_bind; [by apply vault_reads|]. intros [v1 [[n [s|]]|]] Hr; try done.
  do 2 (apply yields_any; intros ? _). destruct (negb _); [done|]. do 2 (apply yields_any; intros ? _). exact Hr.
Qed.

Lemma collect_spends_reads a b ref ins : forall v j u, view_ok v -> yields (fun r => reads v r.1) (collect_spends a b ref v ins j u).
Proof.
  induction ins as [|i ins IH]; intros v j u Hok; [by apply reads_refl|]. cbn [collect_spends].
  eapply yields_bind; [by apply GetOutputFor_reads|]. intros [v1 o] Hr. cbn [fst] in Hr.
  pose proof (IH v1 (S j) (spend_input a b ref i o j u) (proj1 Hr)) as H. destruct (collect_spends a b ref v1 ins (S j) _) as [[v2 k]| | |]; try done. cbn in *. by eapply reads_trans.
Qed.

Lemma RecordTransaction_reads a b ref tx v u : view_ok v -> yields (fun r => reads v r.1) (RecordTransaction a b ref tx v u).
Proof.
  intros Hok. unfold RecordTransaction, CollectUpdatesFromInputs. eapply (yields_bind (fun r => reads v r.1)); [|by intros [v1 u1] Hr].
  destruct (IsCoinBase _); [by apply reads_refl|]. destruct (a || b); [by apply collect_spends_reads | by apply reads_refl].
Qed.

Variable Verify : CPubKey -> base_uint -> valtype -> bool.

Lemma check_scripts_reads tx flags cache st indices : forall v q, view_ok v ->
  yields (fun '(v', r, _) => reads v v' /\ (r.1 = true -> r.2 = st)) (check_scripts Verify v tx indices flags cache q st).
Proof.
  induction indices as [|n l IH]; intros v q Hok; [split; [by apply reads_refl | done]|]. cbn [check_scripts].
  apply yields_any. intros i _. destruct (AccessCoins_spec v (prev_hash (prevout i)) Hok) as (v1 & -> & Hr).
  apply yields_any. intros c _. apply yields_any. intros check _.
  assert (Hrec : forall q', yields (fun '(v', r, _) => reads v v' /\ (r.1 = true -> r.2 = st)) (check_scripts Verify v1 tx l flags cache q' st)).
  { intros q'. pose proof (IH v1 q' (proj1 Hr)) as H. destruct (check_scripts Verify v1 tx l flags cache q' st) as [[[v2 r] k]| | |]; try done.
    destruct H as [H1 H2]. split; [by eapply reads_trans | done]. }
  destruct q as [queue|]; [apply Hrec|]. apply yields_any. intros ok _. destruct (negb ok); [|apply Hrec].
  apply yields_any. intros [] _; by split.
Qed.

Variables (maxMoney maturity : Z).

Lemma reads_immature v v' h i : reads v v' -> immature maturity v' h i = immature maturity v h i.
Proof. intros Hr. unfold immature. by rewrite (reads_coins v v' _ Hr). Qed.

Lemma check_values_reads h st ins : forall outs v acc, view_ok v -> Forall2 (fun i o => output_at v i = Some o) ins outs ->
  yields (fun '(v', r, acc') => reads v v' /\ (r.1 = true -> r.2 = st /\ acc' = acc + total_value outs /\ Forall (fun o => 0 <= nValue o <= maxMoney) outs /\
      Forall (fun i => immature maturity v h i = false) ins))
    (check_values maxMoney maturity v ins h acc st).
Proof.
  induction ins as [|i ins IH]; intros outs v acc Hok H.
  { inversion H; subst. split; [by apply reads_refl|]. intros _. split; [done|]. split; [cbn; lia | split; constructor]. }
  apply Forall2_cons_inv_l in H as (o & outs' & Ho & H & ->). cbn [check_values].
  destruct (output_available v i o Ho) as (c & Hv & Hc & _ & Hl).
  assert (Ei : immature maturity v h i = (fCoinBase c || fCoinStake c) && (h - coins_nHeight c <? maturity)) by (unfold immature; by rewrite Hc). destruct (AccessCoins_spec v (prev_hash (prevout i)) Hok) as (v1 & -> & Hr).
  rewrite Hv. cbn [oaccess obind]. rewrite <-Ei. destruct (immature maturity v h i) eqn:Em; [by split|]. rewrite Hl. cbn [oaccess obind]. apply yields_any. intros n En.
  unfold amount_add in En. destruct (_ && _) in En; cbn [oassert obind] in En; [|done]. injection En as <-.
  destruct (MoneyRange (nValue o) maxMoney) eqn:E1; cbn [negb orb]; [|by split]. destruct (MoneyRange (acc + nValue o) maxMoney); cbn [negb]; [|by split].
  pose proof (IH outs' v1 (acc + nValue o) (proj1 Hr)) as Hrec.
  destruct (check_values maxMoney maturity v1 ins h (acc + nValue o) st) as [[[v2 r] acc']| | |]; try done. destruct Hrec as [H1 H2].
  { eapply Forall2_impl; [exact H|]. intros j x Hx. cbn beta in Hx. by rewrite (reads_output v v1 j Hr). }
  split; [by eapply reads_trans|]. intros Hok'. destruct (H2 Hok') as (? & -> & Hall & Hmat). split; [done|]. split; [unfold total_value; cbn [foldr]; lia|].
  split; [constructor; [by apply MoneyRange_iff | done]|]. constructor; [done|]. eapply Forall_impl; [exact Hmat|]. intros j Hj. cbn beta in Hj. by rewrite <-(reads_immature v v1 h j Hr).
Qed.
End Reading.

(** A cache stays one. *)
Lemma reads_cache v v' : reads v v' -> cache_ok v -> cache_ok v'.
Proof. intros (H & _ & _ & Hk) [_ Hc]. split; [done|]. by destruct v, v'. Qed.

(** ** One transaction of a block *)

(** A coinbase spends nothing. *)
Definition spends_in (v : CCoinsView) (tx : CMutableTransaction) (outs : list CTxOut) : Prop :=
  if IsCoinBase tx then outs = [] else Forall2 (fun i o => output_at v i = Some o) (vin tx) outs.

(** What an accepted transaction takes in and leaves as a fee. *)
Record accepted (v : CCoinsView) (tx : CMutableTransaction) (out nValueIn nFees : CAmount) (outs : list CTxOut) : Prop := mkAccepted {
  ac_spends : spends_in v tx outs;
  ac_in : nValueIn = total_value outs;
  ac_range : Forall (fun o => 0 <= nValue o) outs;
  ac_fees : nFees = if IsCoinBase tx || IsCoinStake tx then 0 else nValueIn - out;
  ac_nonneg : 0 <= nFees
}.

Lemma coinbase_no_stake tx : IsCoinBase tx = true -> IsCoinStake tx = false.
Proof.
  unfold IsCoinBase, IsCoinStake. destruct (vin tx) as [|i [|j l]]; try done. intros ->. by destruct (vout tx) as [|o [|o' l]].
Qed.

Section Steps.
Context {SH : ScriptHashes}.
Variable Verify : CPubKey -> base_uint -> valtype -> bool.
Variables (maxMoney maturity : Z).
Variable heap : index_heap.
Variable blockIndexMap : gmap (list Z) positive.

(** No coinbase or coinstake is spent early. *)
Definition matured (v : CCoinsView) (tx : CMutableTransaction) : Prop :=
  IsCoinBase tx = true \/ exists p bi, blockIndexMap !! (best v : list Z) = Some p /\ heap !! p = Some bi /\
    Forall (fun i => immature maturity v (nHeight bi + 1) i = false) (vin tx).

Lemma CheckInputs_yields tx st v out f flags cache q dosFlag :
  view_ok v -> GetValueOut tx = Ret out ->
  yields (fun r => reads v (ci_view r) /\ ((ci_result r).1 = true -> (ci_result r).2 = st /\ matured v tx /\ exists outs, accepted v tx out (ci_nValueIn r) (ci_nFees r) outs))
    (CheckInputs Verify maxMoney maturity heap blockIndexMap tx st v 0 0 f flags cache q dosFlag).
Proof.
  intros Hok Hout. unfold CheckInputs. destruct (IsCoinBase tx) eqn:Ecb.
  { split; [by apply reads_refl|]. intros _. split; [done|]. split; [by left|]. exists []. constructor; unfold spends_in; rewrite ?Ecb; try done. }
  unfold HaveInputs. rewrite Ecb. cbn [negb]. destruct (have_inputs_spec (vin tx) v Hok) as (v1 & -> & Hr1).
  destruct (forallb _ (vin tx)) eqn:Eh; cbn [negb]; [|split; [done | by destruct dosFlag]]. apply have_outputs in Eh as [outs Hall].
  pose proof (GetBestBlock_reads v1 (proj1 Hr1)) as Hr2. pose proof (reads_best _ _ Hr1) as Hb. destruct (GetBestBlock v1) as [v2 b]. cbn [fst snd] in Hr2, Hb. subst b.
  assert (Hr12 : reads v v2) by (by eapply reads_trans). apply yields_any. intros bi Hbi.
  eapply yields_bind; [apply (check_values_reads maxMoney maturity _ st (vin tx) outs v2 0 (proj1 Hr12))|].
  { eapply Forall2_impl; [exact Hall|]. intros j x Hx. cbn beta in Hx. by rewrite (reads_output v v2 j Hr12). }
  intros [[v3 [ok st']] acc] [Hr3 Hvals]. cbn [fst snd] in Hvals. assert (Hr13 : reads v v3) by (by eapply reads_trans).
  destruct ok; cbn [negb]; [|by split]. destruct (Hvals eq_refl) as (-> & -> & Hrange & Himm). clear Hvals. rewrite Z.add_0_l.
  assert (Hmat : matured v tx).
  { right. unfold deref in Hbi. fold (best v) in Hbi. destruct (blockIndexMap !! (best v : list Z)) as [p|]; [|done]. cbn [oaccess obind] in Hbi.
    destruct (heap !! p) as [bi'|] eqn:Ep; [|done]. injection Hbi as ->. exists p, bi. do 2 (split; [done|]).
    eapply Forall_impl; [exact Himm|]. intros j Hj. cbn beta in Hj. by rewrite <-(reads_immature maturity v v2 _ j Hr12). }
  assert (Hf : yields (fun '((ok, st'), fees) => ok = true -> st' = st /\ fees = (if IsCoinStake tx then 0 else total_value outs - out) /\ 0 <= fees) (tally_fees maxMoney tx st (total_value outs) 0)).
  { unfold tally_fees. destruct (IsCoinStake tx); cbn [negb]; [done|]. rewrite Hout. cbn [obind]. destruct (Z.ltb_spec (total_value outs) out); [done|].
    destruct (Z.ltb_spec (total_value outs - out) 0); [done|]. apply yields_any. intros n En. unfold amount_add in En.
    destruct (_ && _) in En; cbn [oassert obind] in En; [|done]. injection En as <-. destruct (negb _); [done|]. cbn. intros _. rewrite Z.add_0_l. split; [done|]. split; [done | lia]. }
  eapply yields_bind; [exact Hf|]. intros [[ok st'] fees] Hfees. destruct ok; cbn [negb]; [|by split]. destruct (Hfees eq_refl) as (-> & Ef & Hpos).
  assert (Hacc : accepted v tx out (total_value outs) fees outs).
  { constructor; unfold spends_in; rewrite ?Ecb; try done. eapply Forall_impl; [exact Hrange|]. intros o Ho. cbn beta in Ho. lia. }
  destruct f; [|split; [done|]; intros _; split; [done|]; split; [done|]; by exists outs].
  eapply yields_bind; [by apply check_scripts_reads, Hr13|]. intros [[v4 r] q'] [Hr4 Hst]. split; [by eapply reads_trans|]. cbn [ci_result ci_nValueIn ci_nFees].
  intros Ht. split; [by apply Hst|]. split; [done|]. by exists outs.
Qed.

Variables fScriptChecks parallel fAddressIndex fSpentIndex fJustCheck : bool.
Variables (nHeight nFile nDataPos : Z) (nExpectedMint : CBlockRewards).

Lemma TotalSigOps_yields tx s : view_ok (bc_view s) ->
  yields (fun r => reads (bc_view s) (bc_view r.2) /\ nMoneySupply r.2 = nMoneySupply s /\ nMint r.2 = nMint s /\ vtxundo r.2 = vtxundo s)
    (TotalSigOpsAreBelowMaximum tx s).
Proof.
  intros Hok. unfold TotalSigOpsAreBelowMaximum. apply yields_any. intros n _. destruct (_ >? _); [by split; [apply reads_refl|]|].
  destruct (negb _); [|by split; [apply reads_refl|]]. unfold GetP2SHSigOpCount.
  eapply (yields_bind (fun r => reads (bc_view s) r.1)); [destruct (IsCoinBase _); [by apply reads_refl | by apply p2sh_reads]|].
  intros [v k] Hr. by destruct (_ >? _).
Qed.

Lemma coin_supply_step tx s out :
  view_ok (bc_view s) -> GetValueOut (tx_body tx) = Ret out ->
  yields (fun r => r.1 = true -> exists outs fees, accepted (bc_view s) (tx_body tx) out (total_value outs) fees outs /\
      matured (bc_view s) (tx_body tx) /\ vtxundo r.2 = vtxundo s /\ reads (bc_view s) (bc_view r.2) /\ nMoneySupply r.2 = nMoneySupply s + (out - total_value outs) /\ nMint r.2 = nMint s + (out - total_value outs) + fees)
    (CheckInputsAndUpdateCoinSupplyRecords Verify maxMoney maturity heap blockIndexMap fScriptChecks parallel fJustCheck tx s).
Proof.
  intros Hok Hout. unfold CheckInputsAndUpdateCoinSupplyRecords. destruct (bool_decide _); cbn [oassert obind]; [|exact I].
  eapply yields_bind; [by apply CheckInputs_yields|]. intros r [Hr Hacc]. destruct ((ci_result r).1); cbn [negb]; [|done].
  destruct (Hacc eq_refl) as (_ & Hmat & outs & Ha). rewrite Hout. cbn [obind].
  assert (Hadd : forall a b, yields (fun c => c = a + b) (amount_add a b)).
  { intros a b'. unfold amount_add. by destruct (_ && _). }
  eapply yields_bind; [apply Hadd|]. intros minting Emin. eapply yields_bind; [apply Hadd|]. intros supply Esup.
  eapply yields_bind; [apply Hadd|]. intros minted Emt. eapply yields_bind; [apply Hadd|]. intros mint Em. intros _.
  exists outs, (ci_nFees r). pose proof Ha as [_ Ein _ _ _]. rewrite Ein in Emin, Ha. split; [exact Ha|]. split; [exact Hmat|]. split; [done|]. split; [exact Hr|]. cbn [snd bc_view nMoneySupply nMint]. cbn beta in *. split; lia.
Qed.

(** How [check_transaction] changes the view and the undo data. *)
Record applied (tx : CTransaction) (i : nat) (s s' : BlockCheck) : Prop := mkApplied {
  ap_matured : matured (bc_view s) (tx_body tx);
  ap_update : exists v undos, reads (bc_view s) v /\ UpdateCoinsWithTransaction tx v nHeight = Ret (bc_view s', undos) /\
    vtxundo s' = alter (fun l => l ++ undos) (i - 1)%nat (vtxundo s);
  ap_index : IsCoinBase (tx_body tx) = true \/ (i - 1 < length (vtxundo s))%nat
}.

(** A transaction that was checked and applied. *)
Lemma check_transaction_step tx i s m out :
  cache_ok (bc_view s) -> shows (bc_view s) m -> m !! (tx_hash tx : list Z) = None ->
  GetValueOut (tx_body tx) = Ret out -> out = total_value (vout (tx_body tx)) -> Forall (fun o => 0 <= nValue o) (vout (tx_body tx)) ->
  NoDup (map spends (vin (tx_body tx))) ->
  yields (fun r => r.1 = true -> exists outs fees m', accepted (bc_view s) (tx_body tx) out (total_value outs) fees outs /\
      cache_ok (bc_view r.2) /\ best (bc_view r.2) = best (bc_view s) /\ shows (bc_view r.2) m' /\
      nMoneySupply r.2 = nMoneySupply s + (out - total_value outs) /\ nMint r.2 = nMint s + (out - total_value outs) + fees /\
      utxo_total m' = utxo_total m + (out - total_value outs) - burnt (vout (tx_body tx)) /\
      (forall k, m !! k = None -> k <> tx_hash tx -> m' !! k = None) /\ applied tx i s r.2)
    (check_transaction Verify maxMoney maturity heap blockIndexMap fScriptChecks parallel fAddressIndex fSpentIndex fJustCheck nHeight nFile nDataPos nExpectedMint tx i s).
Proof.
  intros Hok Hs Hnew Hout Eout Hpos Hnd. unfold check_transaction.
  eapply yields_bind; [by apply TotalSigOps_yields, Hok|]. intros [ok s1] (Hr1 & Es1 & Em1 & Eu1). cbn [fst snd] in *. destruct ok; cbn [negb]; [|done].
  eapply yields_bind; [apply (coin_supply_step tx s1 out (proj1 Hr1) Hout)|]. intros [ok s2] Hcs. cbn [fst snd] in Hcs. destruct ok; cbn [negb]; [|done].
  destruct (Hcs eq_refl) as (outs & fees & Ha & Hmat & Eu2 & Hr2 & Es2 & Em2). clear Hcs. set (s3 := if negb _ then _ else _).
  assert (H3 : bc_view s3 = bc_view s2 /\ nMoneySupply s3 = nMoneySupply s2 /\ nMint s3 = nMint s2 /\ vtxundo s3 = vtxundo s2) by (unfold s3; by destruct (negb _)).
  destruct H3 as (E3v & E3s & E3m & E3u). clearbody s3. rewrite <-E3v in Hr2. assert (Hr : reads (bc_view s) (bc_view s3)) by (by eapply reads_trans).
  eapply yields_bind; [by apply CheckCoinstakeForVaults_reads, Hr|]. intros [v4 ok] Hr4. cbn [fst] in Hr4. destruct ok; cbn [negb]; [|done].
  eapply yields_bind; [by apply RecordTransaction_reads, Hr4|]. intros [v5 u] Hr5. cbn [fst] in Hr5.
  assert (Hr05 : reads (bc_view s) v5) by (eapply reads_trans; [exact Hr|]; by eapply reads_trans).
  assert (Hsp : spends_in (bc_view s) (tx_body tx) outs).
  { pose proof (ac_spends _ _ _ _ _ _ Ha) as H. unfold spends_in in *. destruct (IsCoinBase _); [done|]. eapply Forall2_impl; [exact H|].
    intros j x Hx. cbn beta in Hx. by rewrite <-(reads_output _ _ j Hr1). }
  assert (Hins : IsCoinBase (tx_body tx) = true /\ outs = [] \/
    IsCoinBase (tx_body tx) = false /\ Forall2 (fun i o => output_in m i = Some o) (vin (tx_body tx)) outs /\ NoDup (map spends (vin (tx_body tx)))).
  { unfold spends_in in Hsp. destruct (IsCoinBase (tx_body tx)); [by left|]. right. split; [done|]. split; [|done].
    eapply Forall2_impl; [exact Hsp|]. intros j x Hx. cbn beta in Hx. by rewrite <-(shows_output (bc_view s) m j Hs). }
  destruct (update_shows v5 m tx nHeight outs (reads_cache _ _ Hr05 Hok) (shows_reads _ _ _ Hr05 Hs) Hnew Hpos Hins) as (v6 & undos & m' & Eup & Hok6 & Hb6 & Hs6 & Ht6 & Hn6).
  rewrite Eup. cbn [obind]. assert (Eu3 : vtxundo s3 = vtxundo s) by congruence. rewrite Eu3.
  replace (if (0 <? i)%nat then i - 1 else 0)%nat with (i - 1)%nat by (destruct (Nat.ltb_spec 0 i); lia).
  match goal with |- yields _ (obind (oassert ?b) _) => destruct b eqn:Eix end; cbn [oassert obind]; [|exact I]. intros _.
  exists outs, fees, m'. cbn [snd nMint nMoneySupply bc_view]. destruct Ha as [_ ? ? ? ?]. split; [by constructor|]. split; [done|].
  split; [rewrite Hb6; apply (reads_best _ _ Hr05)|]. split; [done|]. split; [lia|]. split; [lia|]. split; [lia|]. split; [done|].
  constructor; cbn [bc_view vtxundo].
  - destruct Hmat as [Hcb|(p & bi & Hp & Hbi & Him)]; [by left|]. right. exists p, bi. unfold best in *. rewrite <-(reads_best _ _ Hr1). do 2 (split; [done|]).
    eapply Forall_impl; [exact Him|]. intros j Hj. cbn beta in Hj. by rewrite <-(reads_immature maturity _ _ _ j Hr1).
  - by exists v5, undos.
  - apply orb_true_iff in Eix as [->|Hl]; [by left | right; by apply Nat.ltb_lt].
Qed.
End Steps.

(** ** The transactions of a block *)

(** Valid without context, with the outpoint indexes unsigned. *)
Definition tx_fine (maxMoney : CAmount) (tx : CTransaction) : Prop :=
  tx_valid maxMoney (tx_body tx) /\ Forall (fun i => 0 <= prev_n (prevout i)) (vin (tx_body tx)).

Lemma distinct_spends ins : NoDup (map prevout ins) -> Forall (fun i => 0 <= prev_n (prevout i)) ins -> NoDup (map spends ins).
Proof.
  induction ins as [|i ins IH]; intros Hnd Hp; [constructor|]. cbn [map] in *. apply NoDup_cons in Hnd as [Hi Hnd]. apply Forall_cons in Hp as [Hp0 Hp].
  constructor; [|by apply IH]. intros (j & Ej & Hj)%list_elem_of_fmap. apply Hi. rewrite Forall_forall in Hp. specialize (Hp j Hj).
  unfold spends in Ej. injection Ej as Eh En. apply list_elem_of_fmap. exists j. split; [|done].
  destruct (prevout i) as [h n], (prevout j) as [h' n']. cbn [prev_hash prev_n] in *. f_equal; [done | lia].
Qed.

Definition block_burnt (txs : list CTransaction) : CAmount := foldr (fun tx s => burnt (vout (tx_body tx)) + s) 0 txs.

Section Loop.
Context {SH : ScriptHashes}.
Variable Verify : CPubKey -> base_uint -> valtype -> bool.
Variables (maxMoney maturity : Z).
Hypothesis max_moderate : 0 <= maxMoney < 2 ^ 62.
Variable heap : index_heap.
Variable blockIndexMap : gmap (list Z) positive.
Variables fScriptChecks parallel fAddressIndex fSpentIndex fJustCheck : bool.
Variables (nHeight nFile nDataPos : Z) (nExpectedMint : CBlockRewards).

Lemma check_loop_supply txs : forall i s m,
  cache_ok (bc_view s) -> shows (bc_view s) m -> Forall (tx_fine maxMoney) txs -> NoDup (map (fun tx => tx_hash tx : list Z) txs) ->
  Forall (fun tx => m !! (tx_hash tx : list Z) = None) txs ->
  yields (fun r => r.1 = true -> exists fees m', 0 <= fees /\ cache_ok (bc_view r.2) /\ shows (bc_view r.2) m' /\
      utxo_total m' + block_burnt txs = utxo_total m + (nMoneySupply r.2 - nMoneySupply s) /\
      nMint r.2 - nMint s = (nMoneySupply r.2 - nMoneySupply s) + fees)
    (check_loop Verify maxMoney maturity heap blockIndexMap fScriptChecks parallel fAddressIndex fSpentIndex fJustCheck nHeight nFile nDataPos nExpectedMint txs i s).
Proof.
  induction txs as [|tx txs IH]; intros i s m Hok Hs Hfine Hnd Hnew.
  { intros _. exists 0, m. split; [lia|]. split; [done|]. split; [done|]. cbn. lia. }
  apply Forall_cons in Hfine as [[Hval Hpn] Hfine]. cbn [map] in Hnd. apply NoDup_cons in Hnd as [Hh Hnd]. apply Forall_cons in Hnew as [Hnew Hrest].
  cbn [check_loop]. destruct (valid_value_out maxMoney max_moderate (tx_body tx) Hval) as [Hout _].
  assert (Hpos : Forall (fun o => 0 <= nValue o) (vout (tx_body tx))) by apply Hval.
  eapply yields_bind; [apply (check_transaction_step _ _ _ _ _ _ _ _ _ _ _ _ _ _ tx i s m _ Hok Hs Hnew Hout eq_refl Hpos)|].
  { apply distinct_spends; [apply Hval | done]. }
  intros [ok s1] H1. cbn [fst snd] in H1. destruct ok; cbn [negb]; [|done].
  destruct (H1 eq_refl) as (outs & fees & m1 & Ha & Hok1 & _ & Hs1 & Es1 & Em1 & Et1 & Hn1 & _). clear H1.
  assert (Hrest1 : Forall (fun tx => m1 !! (tx_hash tx : list Z) = None) txs).
  { apply Forall_forall. intros tx' Hin. rewrite Forall_forall in Hrest. apply Hn1; [by apply Hrest|]. intros E. apply Hh. apply list_elem_of_fmap. by exists tx'. }
  pose proof (IH (S i) s1 m1 Hok1 Hs1 Hfine Hnd Hrest1) as Hrec.
  destruct (check_loop _ _ _ _ _ _ _ _ _ _ _ _ _ _ txs (S i) s1) as [[ok s2]| | |]; try done. cbn [yields fst snd] in *. intros Ht.
  destruct (Hrec Ht) as (fees' & m' & Hf & Hok2 & Hs2 & Et2 & Em2). exists (fees + fees'), m'. pose proof (ac_nonneg _ _ _ _ _ _ Ha).
  split; [lia|]. split; [done|]. split; [done|]. unfold block_burnt in *. cbn [foldr]. lia.
Qed.
End Loop.

(** ** A block *)

Lemma bip30_fresh txs : forall v st, view_ok v ->
  let r := check_bip30 txs v st in reads v r.1 /\ (r.2.1 = true -> Forall (fun tx => coins_at v (tx_hash tx) = None) txs).
Proof.
  induction txs as [|tx txs IH]; intros v st Hok; [split; [by apply reads_refl | intros _; constructor]|]. cbn [check_bip30]. cbn zeta.
  destruct (AccessCoins_spec v (tx_hash tx) Hok) as (v1 & -> & Hr). destruct (IH v1 st (proj1 Hr)) as [Hr2 Hf].
  assert (Hrest : (check_bip30 txs v1 st).2.1 = true -> Forall (fun tx => coins_at v (tx_hash tx) = None) txs).
  { intros H. eapply Forall_impl; [by apply Hf|]. intros t Ht. cbn beta in Ht. by rewrite <-(reads_coins v v1 _ Hr). }
  destruct (view v (tx_hash tx)) as [c|] eqn:Ev.
  - destruct (IsPruned c) eqn:Ep; cbn [negb]; [|by split]. split; [by eapply reads_trans|]. intros H. constructor; [|by apply Hrest].
    unfold coins_at. rewrite Ev. cbn. by rewrite Ep.
  - split; [by eapply reads_trans|]. intros H. constructor; [|by apply Hrest]. unfold coins_at. by rewrite Ev.
Qed.

Lemma SetViewBestBlock_coins v h k : coins_at (SetViewBestBlock v h) k = coins_at v k.
Proof. by destruct v. Qed.

(** What [IsBlockValueValid] lets a block at this height mint. *)
Definition mintable (params : RewardParams) (r : CBlockRewards) (height : Z) : CAmount :=
  nStakeReward r + nMasternodeReward r +
  (if IsValidTreasuryBlockHeight params height then nTreasuryReward r + nCharityReward r
   else if IsValidLotteryBlockHeight params height then nLotteryReward r else 0).

Lemma value_valid_bound params r mint height : Incentives.IsBlockValueValid params r mint height = true -> mint <= mintable params r height.
Proof.
  unfold Incentives.IsBlockValueValid, mintable. rewrite negb_true_iff. intros H.
  destruct (IsValidTreasuryBlockHeight params height); [|destruct (IsValidLotteryBlockHeight params height)];
    destruct (Z.gtb_spec mint (nStakeReward r + nMasternodeReward r + (nTreasuryReward r + nCharityReward r)));
    destruct (Z.gtb_spec mint (nStakeReward r + nMasternodeReward r + nLotteryReward r));
    destruct (Z.gtb_spec mint (nStakeReward r + nMasternodeReward r)); try done; lia.
Qed.

(** The members of [BlockIncentivesPopulator] and its two methods. *)
Definition BlockIncentivesPopulator (main : bool) (prefixes : AddressPrefixes) (params : RewardParams) (sporks : SporkState) (heap : index_heap)
    (votes : PaymentData) (IsSynced override_mnpayee enforcement : bool) : I_BlockIncentivesPopulator := {|
  ConnectBlock.IsBlockValueValid := Incentives.IsBlockValueValid params;
  ConnectBlock.HasValidPayees := Incentives.HasValidPayees main prefixes params sporks heap votes IsSynced override_mnpayee enforcement |}.

Section Block.
Context {SH : ScriptHashes}.
Variables (main : bool) (prefixes : AddressPrefixes) (params : RewardParams) (sporks : SporkState) (votes : PaymentData).
Variables (IsSynced override_mnpayee enforcement : bool).
Variable Verify : CPubKey -> base_uint -> valtype -> bool.
Variables (maxMoney maturity LAST_POW_BLOCK : Z) (genesis : list Z).
Hypothesis max_moderate : 0 <= maxMoney < 2 ^ 62.
Variable heap : index_heap.
Variable blockIndexMap : gmap (list Z) positive.
Variables (skip : Z) (parallel fTxIndex fAddressIndex fSpentIndex fVerifyingBlocks : bool).

(** C1: connecting a block changes the value of all unspent outputs by what it adds
    to the money supply, less outputs that can never be spent, and that is at most
    the subsidy of its height: the stake and masternode rewards, with the treasury
    and charity payments or the lottery at their heights.  It holds before and
    after the end of proof of work, for every view that the coins database and its
    caches can show, with all fees and burnt coins taken into account. *)
Theorem block_supply_bounded d c base m block hash st pindex b prevSupply prevCheckpoint nFile nDataPos db fJustCheck cn :
  db_ok d -> rtc coins_step (ViewDB d) (ViewCache c base) -> shows (ViewCache c base) m ->
  heap !! pindex = Some b -> hash <> genesis ->
  Forall (tx_fine maxMoney) (vtx block) -> NoDup (map (fun tx => tx_hash tx : list Z) (vtx block)) ->
  ConnectBlock (incentives := BlockIncentivesPopulator main prefixes params sporks heap votes IsSynced override_mnpayee enforcement)
    Verify maxMoney maturity LAST_POW_BLOCK genesis heap blockIndexMap skip parallel fTxIndex fAddressIndex fSpentIndex fVerifyingBlocks
    (GetBlockSubsidity params sporks) block hash st pindex prevSupply prevCheckpoint nFile nDataPos (ViewCache c base) db fJustCheck = Ret (true, cn) ->
  exists m' r, GetBlockSubsidity params sporks (nHeight b) = Ret r /\ shows (cn_view cn) m' /\
    utxo_total m' + block_burnt (vtx block) = utxo_total m + (cn_supply cn - prevSupply) /\
    cn_supply cn - prevSupply <= mintable params r (nHeight b).
Proof.
  intros Hd Hv Hs Hb Hgen Hfine Hnd. pose proof (reachable_ok d _ Hd Hv) as Hok.
  assert (Hc : cache_ok (ViewCache c base)) by (by split). revert Hok Hc Hs. generalize (ViewCache c base). clear Hv. intros v Hok Hc Hs. clear c base.
  intros E. pattern cn. match goal with |- ?P cn => refine (yields_ret (fun r => r.1 = true -> P r.2) _ (true, cn) _ E eq_refl) end. clear E cn. cbn beta. unfold ConnectBlock, deref at 1. cbn [oaccess obind]. rewrite Hb. cbn [oaccess obind].
  eapply (yields_bind (fun v' => reads v v')).
  { unfold VerifyBestBlockIsAtPreviousBlock. apply yields_any. intros ph _. pose proof (GetBestBlock_reads v Hok) as Hr. destruct (GetBestBlock v) as [v1 h]. by destruct (bool_decide _). }
  intros v1 Hr1. rewrite bool_decide_eq_false_2 by done.
  assert (Hbip : let r := CheckEnforcedPoSBlocksAndBIP30 LAST_POW_BLOCK block st (nHeight b) v1 in
    reads v1 r.1 /\ (r.2.1 = true -> Forall (fun tx => coins_at v1 (tx_hash tx) = None) (vtx block))).
  { unfold CheckEnforcedPoSBlocksAndBIP30. destruct (_ && _); [by split; [apply reads_refl, Hr1|]|]. destruct (_ && _); [by split; [apply reads_refl, Hr1|]|]. apply bip30_fresh, Hr1. }
  destruct (CheckEnforcedPoSBlocksAndBIP30 LAST_POW_BLOCK block st (nHeight b) v1) as [v2 [ok st2]]. cbn [fst snd] in Hbip. destruct Hbip as [Hr2 Hfresh].
  destruct ok; cbn [negb]; [|done]. specialize (Hfresh eq_refl). assert (Hr : reads v v2) by (by eapply reads_trans).
  apply yields_any. intros r Hsub.
  eapply yields_bind; [unfold BlockTransactionChecker_Check; eapply (check_loop_supply Verify maxMoney maturity max_moderate heap blockIndexMap _ _ _ _ _ _ _ _ _ (vtx block) 0 _ m)|]; cbn [bc_view].
  { by eapply reads_cache. }
  { by eapply shows_reads. }
  { done. }
  { done. }
  { apply Forall_forall. intros tx Htx. rewrite Forall_forall in Hfresh. rewrite <-(Hs (tx_hash tx)), <-(reads_coins v v1 _ Hr1). by apply Hfresh. }
  intros [ok s] Hloop. cbn [fst snd] in Hloop. destruct ok; cbn [negb]; [|done]. destruct (Hloop eq_refl) as (fees & m' & Hf & _ & Hs' & Et & Em). clear Hloop. cbn [nMoneySupply nMint] in Et, Em.
  assert (Hadd : forall a b, yields (fun c => c = a + b) (amount_add a b)). { intros x y. unfold amount_add. by destruct (_ && _). }
  eapply (yields_bind (fun r' => forall h, mintable params r' h = mintable params r h + (if IsProofOfStake (vtx block) then 0 else nMint s - (nMoneySupply s - prevSupply)))).
  { unfold CalculateFees. eapply yields_bind; [apply Hadd|]. intros minted ->. eapply yields_bind; [apply Hadd|]. intros nf ->.
    destruct (IsProofOfStake (vtx block)); cbn [negb]; [intros h; lia|]. eapply yields_bind; [apply Hadd|]. intros stake ->. intros h. unfold mintable. cbn [nStakeReward nMasternodeReward nTreasuryReward nCharityReward nLotteryReward]. lia. }
  intros r' Hr'. eapply (yields_bind (fun x => x.1 = true -> nMint s <= mintable params r' (nHeight b))).
  { unfold CheckMintTotalsAndBlockPayees. apply yields_any. intros cb _. cbn [ConnectBlock.IsBlockValueValid BlockIncentivesPopulator].
    destruct (Incentives.IsBlockValueValid params r' (nMint s) (nHeight b)) eqn:Ev; cbn [negb]; [|done]. apply yields_any. intros valid _.
    destruct (negb valid); [done|]. intros _. by apply value_valid_bound. }
  intros [ok st3] Hmint. destruct ok; cbn [negb]; [|done]. specialize (Hmint eq_refl). rewrite Hr' in Hmint.
  assert (Hgoal : forall v', (forall k, coins_at v' k = coins_at (bc_view s) k) -> exists m' r0, GetBlockSubsidity params sporks (nHeight b) = Ret r0 /\ shows v' m' /\
    utxo_total m' + block_burnt (vtx block) = utxo_total m + (nMoneySupply s - prevSupply) /\ nMoneySupply s - prevSupply <= mintable params r0 (nHeight b)).
  { intros v' Hv'. exists m', r. split; [done|]. split; [intros k; by rewrite Hv'|]. split; [lia|]. destruct (IsProofOfStake (vtx block)); lia. }
  destruct (_ && _); [done|]. apply yields_any. intros ok _. destruct (negb ok); [done|]. destruct fJustCheck; intros _; cbn [snd cn_view cn_supply]; apply Hgoal; [done|].
  intros k. apply SetViewBestBlock_coins.
Qed.
End Block.

(** ** A block with a coinbase and a payment *)

Lemma shows_db d : db_ok d -> shows (new_cache (ViewDB d)) (db_coins d).
Proof.
  intros Hd k. unfold coins_at. cbn [new_cache view cacheCoins]. rewrite lookup_empty. destruct (db_coins d !! k) as [c|] eqn:E; [|done].
  destruct (Hd k c E) as [_ Hp]. cbn. by rewrite Hp.
Qed.

Definition sample_coinbase : CTransaction :=
  mkTransaction [8] (mkMutable 1 [mkTxIn COutPoint_null [1; 2; 3] SEQUENCE_FINAL] [mkTxOut (50 * COIN) [81]] 0).
Definition sample_block : CBlock := mkBlock (mkHeader 4 (of_uint64 8 11) uint256_null 0 0 0 uint256_null) [sample_coinbase; sample_spend] [].
Definition two_blocks : index_heap :=
  {[ 1%positive := mkIndex (of_uint64 8 11) None None 119 0 0 0 0 0 LotteryCoinstakeData_empty;
     2%positive := mkIndex (of_uint64 8 12) (Some 1%positive) None 120 0 0 0 0 0 LotteryCoinstakeData_empty ]}.

Definition connect_sample : io (bool * Connected) :=
  ConnectBlock (incentives := BlockIncentivesPopulator true main_prefixes sample_params no_sporks two_blocks PaymentData_empty false false false)
    no_signatures (10 ^ 9 * COIN) 20 1000 (of_uint64 8 1) two_blocks sample_block_map 0 true true true true true
    (GetBlockSubsidity sample_params no_sporks) sample_block (of_uint64 8 12) CValidationState_new 2%positive 7 (of_uint64 8 0) 0 0
    (new_cache (ViewDB sample_db)) (mkTree ∅ ∅ ∅ ∅ ∅) false.

Lemma sample_txs_fine : Forall (tx_fine (10 ^ 9 * COIN)) (vtx sample_block).
Proof.
  constructor; [|constructor; [|constructor]]; (split; [|repeat constructor; vm_compute; discriminate]).
  - constructor; [done | done | vm_compute; discriminate | | apply (bool_decide_unpack _); vm_compute; exact I |].
    + split; [|split; [repeat constructor; vm_compute; discriminate | vm_compute; discriminate]]. intros E. vm_compute in E. discriminate.
    + intros _. eexists. split; [reflexivity|]. vm_compute. split; discriminate.
  - constructor; [done | done | vm_compute; discriminate | | apply (bool_decide_unpack _); vm_compute; exact I |].
    + split; [|split; [repeat constructor; vm_compute; discriminate | vm_compute; discriminate]]. intros _ _. repeat constructor.
    + intros E. vm_compute in E. discriminate.
Qed.

Lemma block_supply_bounded_witness :
  exists cn m' r, connect_sample = Ret (true, cn) /\ GetBlockSubsidity sample_params no_sporks 120 = Ret r /\ shows (cn_view cn) m' /\
    utxo_total m' + block_burnt (vtx sample_block) = utxo_total (db_coins sample_db) + (cn_supply cn - 7) /\
    cn_supply cn - 7 <= mintable sample_params r 120.
Proof.
  assert (E : match connect_sample with Ret (b, _) => b | _ => false end = true) by (vm_compute; reflexivity).
  destruct connect_sample as [[b cn]| | |] eqn:Ec; try discriminate E. subst b. unfold connect_sample in Ec.
  destruct (block_supply_bounded true main_prefixes sample_params no_sporks PaymentData_empty false false false no_signatures (10 ^ 9 * COIN) 20 1000 (of_uint64 8 1)
    ltac:(unfold COIN; lia) two_blocks sample_block_map 0 true true true true true sample_db (mkCache ∅ uint256_null false) (ViewDB sample_db) (db_coins sample_db)
    sample_block (of_uint64 8 12) CValidationState_new 2%positive (mkIndex (of_uint64 8 12) (Some 1%positive) None 120 0 0 0 0 0 LotteryCoinstakeData_empty)
    7 (of_uint64 8 0) 0 0 (mkTree ∅ ∅ ∅ ∅ ∅) false cn) as (m' & r & H1 & H2 & H3 & H4).
  - exact sample_db_ok.
  - apply rtc_once, (step_push (ViewDB sample_db)).
  - apply shows_db, sample_db_ok.
  - reflexivity.
  - intros H. vm_compute in H. discriminate.
  - exact sample_txs_fine.
  - apply (bool_decide_unpack _). vm_compute. exact I.
  - exact Ec.
  - exists cn, m', r. split; [reflexivity|]. split; [exact H1|]. split; [exact H2|]. split; [exact H3 | exact H4].
Defined.

(** ** A missing input *)

(** The signature operations of the inputs are counted before [CheckInputs] looks
    whether the view has the inputs, and [GetOutputFor] asserts that it has: a block
    with a transaction that spends an output which is not there is not rejected, the
    assertion fails. *)
Lemma missing_input_asserts tx s i n :
  view_ok (bc_view s) -> IsCoinBase (tx_body tx) = false -> head (vin (tx_body tx)) = Some i -> output_at (bc_view s) i = None ->
  GetLegacySigOpCount (tx_body tx) = Ret n -> u32 (nSigOps s + n) <= 40000 ->
  TotalSigOpsAreBelowMaximum tx s = Undef.
Proof.
  intros Hok Hcb Hi Ho Hn Hle. unfold TotalSigOpsAreBelowMaximum. rewrite Hn. cbn [obind]. change MAX_BLOCK_SIGOPS_CURRENT with 40000.
  destruct (Z.gtb_spec (u32 (nSigOps s + n)) 40000); [lia|]. rewrite Hcb. cbn [negb]. unfold GetP2SHSigOpCount. rewrite Hcb.
  destruct (vin (tx_body tx)) as [|j ins]; [done|]. injection Hi as ->. cbn [add_p2sh_sigops]. by rewrite (GetOutputFor_missing _ _ Hok Ho).
Qed.

Lemma double_spend_asserts :
  check_loop no_signatures (10 ^ 9 * COIN) 20 two_blocks sample_block_map false true true true true 120 0 0 (mkRewards 0 0 0 0 0 0)
    [sample_spend; sample_spend] 1 (mkBlockCheck (new_cache (ViewDB sample_db)) CValidationState_new 0 0 0 [[]; []] IndexDatabaseUpdates_new [] [] 1) = Undef.
Proof. vm_compute. reflexivity. Qed.
