(* ===== verification/BlockChecks.v ===== *)
(** * Checks on blocks: [main.cpp], [wallet.cpp], [checkpoints.cpp], [chain.h],
    [primitives/block.cpp]

    [CheckBlock] needs no context; the contextual checks compare a block with the
    block before it and the checkpoints.  The block hash before version 4 is
    HashQuark, third-party code and a parameter. *)

From Stdlib Require Import ZArith Lia Bool String.
From stdpp Require Import base option numbers list sorting gmap.
From S2P Require Import Prelude BaseUInt UInt256 Serialize Opcodes ScriptNum Script ScriptProps StackManager Interpreter Hashes Transaction Merkle SigHash Coins CoinsCache Standard BlockIndex Chain Pow Validation.

Open Scope Z_scope.
Open Scope outcome_scope.

Definition MAX_BLOCK_SIZE_LEGACY : Z := 1000000.
Definition MAX_BLOCK_SIGOPS_LEGACY : Z := MAX_BLOCK_SIZE_LEGACY / 50.
Definition MAX_BLOCK_SIZE : Z := 2000000.
Definition REJECT_OBSOLETE : Z := 0x11.
Definition REJECT_CHECKPOINT : Z := 0x43.
Definition MaxFutureBlockDrift : Z := 180.
Definition LOCKTIME_THRESHOLD : Z := 500000000.

(** [state.DoS(level, error(...), code, reason, corruption)] *)
Definition refuse (s : CValidationState) (level code : Z) (reason : string) (corruption : bool) : io (bool * CValidationState) :=
  Ret (false, DoS s level code reason corruption).

Section CheckBlock.
(** [HashQuark], [Params()], [MaxMoneyOut], [GetAdjustedTime()]. *)
Variable HashQuark : list Z -> list Z.
Variable params : WorkParams.
Variable maxMoney : CAmount.
Variable GetAdjustedTime : Z.

(** [CBlockHeader::GetHash]; the members lie in memory as they are written. *)
Definition header_GetHash (h : CBlockHeader) : list Z :=
  if hdr_nVersion h <? 4 then HashQuark (Serialize header_codec h) else of_bytes (Hash [Serialize header_codec h]).

Fixpoint check_transactions (txs : list CTransaction) (state : CValidationState) : io (bool * CValidationState) :=
  match txs with
  | [] => Ret (true, state)
  | tx :: txs =>
      let* '(ok, state) := CheckTransaction maxMoney (tx_body tx) state in
      if negb ok then Ret (false, state) else check_transactions txs state
  end.

Fixpoint block_sigops (txs : list CTransaction) (nSigOps : Z) : io Z :=
  match txs with
  | [] => Ret nSigOps
  | tx :: txs => let* n := GetLegacySigOpCount (tx_body tx) in block_sigops txs (u32 (nSigOps + n))
  end.

(** The first transaction, and only it, is a coinbase. *)
Definition coinbase_missing (txs : list CTransaction) : bool := match txs with [] => true | tx :: _ => negb (IsCoinBase (tx_body tx)) end.
Definition coinbase_multiple (txs : list CTransaction) : bool := existsb (fun tx => IsCoinBase (tx_body tx)) (drop 1 txs).

(** [block.vtx[0].vout.size() != 1 || !block.vtx[0].vout[0].IsEmpty()] *)
Definition coinbase_pays (txs : list CTransaction) : bool :=
  match txs with
  | tx :: _ => match vout (tx_body tx) with [o] => negb (CTxOut_IsEmpty o) | _ => true end
  | [] => true
  end.
Definition coinstake_multiple (txs : list CTransaction) : bool := existsb (fun tx => IsCoinStake (tx_body tx)) (drop 2 txs).

Definition CheckBlock (block : CBlock) (state : CValidationState) (fCheckMerkleRoot : bool) : io (bool * CValidationState) :=
  let stake := IsProofOfStake (vtx block) in
  if negb stake && negb (CheckProofOfWork params (header_GetHash (blk_header block)) (nBits (blk_header block)))
  then refuse state 150 REJECT_INVALID "bad-header: high-hash" true else
  if nTime (blk_header block) >? GetAdjustedTime + (if stake then MaxFutureBlockDrift else 7200)
  then Ret (false, Invalid state REJECT_INVALID "time-too-new") else
  let* '(mutated, hashMerkleRoot2) :=
    (if fCheckMerkleRoot
     then let* '(_, mutated, root) := BuildMerkleTree hash_children (map tx_hash (vtx block)) in Ret (mutated, root)
     else Ret (false, hashMerkleRoot (blk_header block))) in
  if negb (bool_decide ((hashMerkleRoot (blk_header block) : list Z) = hashMerkleRoot2))
  then refuse state 100 REJECT_INVALID "bad-txnmrklroot" true else
  if mutated then refuse state 100 REJECT_INVALID "bad-txns-duplicate" true else
  if (zlen (vtx block) =? 0) || (zlen (vtx block) >? MAX_BLOCK_SIZE) || (GetSerializeSize block_codec block >? MAX_BLOCK_SIZE)
  then refuse state 100 REJECT_INVALID "bad-blk-length" false else
  if coinbase_missing (vtx block) then refuse state 100 REJECT_INVALID "bad-cb-missing" false else
  if coinbase_multiple (vtx block) then refuse state 100 REJECT_INVALID "bad-cb-multiple" false else
  if stake && coinbase_pays (vtx block) then refuse state 100 0 EmptyString false else
  if stake && coinstake_multiple (vtx block) then refuse state 100 0 EmptyString false else
  let* '(ok, state) := check_transactions (vtx block) state in
  if negb ok then Ret (false, state) else
  let* nSigOps := block_sigops (vtx block) 0 in
  if nSigOps >? MAX_BLOCK_SIGOPS_LEGACY then refuse state 100 REJECT_INVALID "bad-blk-sigops" true else
  Ret (true, state).
End CheckBlock.

(** ** Finality and the median time *)

(** [nBlockHeight] and [nBlockTime] are given; zero stands for the tip and now. *)
Definition IsFinalTx (tx : CMutableTransaction) (activeHeight adjustedTime nBlockHeight nBlockTime : Z) : bool :=
  if nLockTime tx =? 0 then true else
  let nBlockHeight := if nBlockHeight =? 0 then activeHeight else nBlockHeight in
  let nBlockTime := if nBlockTime =? 0 then adjustedTime else nBlockTime in
  if nLockTime tx <? (if nLockTime tx <? LOCKTIME_THRESHOLD then nBlockHeight else nBlockTime) then true
  else forallb CTxIn_IsFinal (vin tx).

Definition nMedianTimeSpan : nat := 11.

Section Index.
Variable heap : index_heap.

(** [for (int i = 0; i < nMedianTimeSpan && pindex; i++, pindex = pindex->pprev)] *)
Fixpoint median_times (rounds : nat) (pindex : option ptr) : io (list Z) :=
  match rounds, pindex with
  | O, _ => Ret []
  | _, None => Ret []
  | S rounds, Some _ =>
      let* b := deref heap pindex in
      let* l := median_times rounds (pprev b) in
      Ret (l ++ [GetBlockTime b])
  end.

Definition GetMedianTimePast (pindex : ptr) : io Z :=
  let* l := median_times nMedianTimeSpan (Some pindex) in
  oaccess (merge_sort Z.le l !! (length l / 2)%nat).

(** ** Checkpoints *)

(** The checkpoints in increasing height; [fEnabled]. *)
Variable checkpoints : list (Z * list Z).
Variable fEnabled : bool.

Definition checkpoint_at (nHeight : Z) : option (list Z) := snd <$> find (fun c => c.1 =? nHeight) checkpoints.

Definition Checkpoints_CheckBlock (nHeight : Z) (hash : list Z) (fMatchesCheckpoint : bool) : bool :=
  if negb fEnabled then true else
  match checkpoint_at nHeight with
  | None => negb fMatchesCheckpoint
  | Some h => bool_decide (hash = h)
  end.

Definition GetTotalBlocksEstimate : Z :=
  if negb fEnabled then 0 else match last checkpoints with None => 0 | Some c => c.1 end.

Definition GetLastCheckpoint (mapBlockIndex : gmap (list Z) ptr) : option ptr :=
  if negb fEnabled then None else
  (fix scan (l : list (Z * list Z)) := match l with [] => None | c :: l => match mapBlockIndex !! c.2 with Some p => Some p | None => scan l end end) (rev checkpoints).

(** ** The contextual checks *)

Variable HashQuark : list Z -> list Z.
Variable HashGenesisBlock : list Z.
Variables (activeHeight nMaxReorgDepth : Z).
Variable mapBlockIndex : gmap (list Z) ptr.

Definition ContextualCheckBlockHeader (block : CBlockHeader) (state : CValidationState) (pindexPrev : option ptr) : io (bool * CValidationState) :=
  let hash := header_GetHash HashQuark block in
  if bool_decide (hash = HashGenesisBlock) then Ret (true, state) else
  let* p := oaccess pindexPrev in
  let* prev := deref heap pindexPrev in
  let height := nHeight prev + 1 in
  if activeHeight - height >=? nMaxReorgDepth then refuse state 1 0 EmptyString false else
  let* past := GetMedianTimePast p in
  if nTime block <=? past then Ret (false, Invalid state REJECT_INVALID "time-too-old") else
  if negb (Checkpoints_CheckBlock height hash false) then refuse state 100 REJECT_CHECKPOINT "checkpoint mismatch" false else
  let* early :=
    match GetLastCheckpoint mapBlockIndex with
    | Some q => let* c := deref heap (Some q) in Ret (height <? nHeight c)
    | None => Ret false
    end in
  if early then refuse state 0 0 EmptyString false else
  if hdr_nVersion block <? 3 then Ret (false, Invalid state REJECT_OBSOLETE "bad-version") else
  Ret (true, state).

(** [script.size() < expect.size() || !std::equal(...)] *)
Definition script_begins (script expect : CScript) : bool := bool_decide (take (length expect) script = expect).

Definition ContextualCheckBlock (adjustedTime : Z) (block : CBlock) (state : CValidationState) (pindexPrev : option ptr) : io (bool * CValidationState) :=
  let* height := match pindexPrev with None => Ret 0 | Some _ => let* prev := deref heap pindexPrev in Ret (nHeight prev + 1) end in
  if negb (forallb (fun tx => IsFinalTx (tx_body tx) activeHeight adjustedTime height (nTime (blk_header block))) (vtx block))
  then refuse state 10 REJECT_INVALID "bad-txns-nonfinal" false else
  if 0 <? height then
    let expect := push_int64 [] height in
    let* tx := oaccess (vtx block !! 0%nat) in
    let* i := oaccess (vin (tx_body tx) !! 0%nat) in
    if negb (script_begins (scriptSig i) expect) then refuse state 100 REJECT_INVALID "bad-cb-height" false else Ret (true, state)
  else Ret (true, state).
End Index.

(** ** Signature operations are counted without failure *)

Lemma legacy_count_returns fuel : forall n last pc, (length pc <= fuel)%nat -> exists k, GetSigOpCount_loop fuel false n last pc = Ret k.
Proof.
  induction fuel as [|fuel IH]; intros n last [|x pc] Hl; cbn [length] in Hl; try lia; [by exists n | by exists n|].
  cbn [GetSigOpCount_loop]. destruct (negb _); [by exists n|]. pose proof (GetOp2_shorter x pc).
  destruct (_ || _); cbn [obind]; [apply IH; lia|]. destruct (_ || _); cbn [obind andb]; apply IH; lia.
Qed.

Lemma add_sigops_returns l : forall n, exists k, add_sigops l n = Ret k.
Proof.
  induction l as [|s l IH]; intros n; [by exists n|]. cbn [add_sigops]. unfold GetSigOpCount.
  destruct (legacy_count_returns (length s) 0 OP_INVALIDOPCODE s) as [k ->]; [done|]. cbn [counted obind]. apply IH.
Qed.

Lemma block_sigops_returns txs : forall n, exists k, block_sigops txs n = Ret k.
Proof.
  induction txs as [|tx txs IH]; intros n; [by exists n|]. cbn [block_sigops]. unfold GetLegacySigOpCount.
  destruct (add_sigops_returns (map scriptSig (vin (tx_body tx))) 0) as [a ->]. cbn [obind].
  destruct (add_sigops_returns (map scriptPubKey (vout (tx_body tx))) a) as [b ->]. cbn [obind]. apply IH.
Qed.

(** ** [CheckBlock] *)

Section Valid.
Variable HashQuark : list Z -> list Z.
Variable params : WorkParams.
Variable maxMoney : CAmount.
Variable GetAdjustedTime : Z.
Hypothesis max_moderate : 0 <= maxMoney < 2 ^ 62.

(** The header commits to the transactions. *)
Definition committed (block : CBlock) : Prop :=
  (hashMerkleRoot (blk_header block) : list Z) = merkle_root hash_children (map tx_hash (vtx block)) /\
  merkle_mutated hash_children (map tx_hash (vtx block)) = false.

Definition in_time (block : CBlock) : Prop :=
  nTime (blk_header block) <= GetAdjustedTime + (if IsProofOfStake (vtx block) then MaxFutureBlockDrift else 7200).

(** The shape of a proof-of-stake block: an empty coinbase, one coinstake. *)
Definition stake_shape (txs : list CTransaction) : Prop :=
  exists cb cs rest o, txs = cb :: cs :: rest /\ vout (tx_body cb) = [o] /\ CTxOut_IsEmpty o = true /\
    Forall (fun tx => IsCoinStake (tx_body tx) = false) rest.

Record block_valid (block : CBlock) : Prop := mkBlockValid {
  bv_work : IsProofOfStake (vtx block) = false -> CheckProofOfWork params (header_GetHash HashQuark (blk_header block)) (nBits (blk_header block)) = true;
  bv_time : in_time block;
  bv_committed : committed block;
  bv_size : zlen (vtx block) <= MAX_BLOCK_SIZE /\ GetSerializeSize block_codec block <= MAX_BLOCK_SIZE;
  bv_coinbase : exists cb rest, vtx block = cb :: rest /\ IsCoinBase (tx_body cb) = true /\ Forall (fun tx => IsCoinBase (tx_body tx) = false) rest;
  bv_stake : IsProofOfStake (vtx block) = true -> stake_shape (vtx block);
  bv_transactions : Forall (fun tx => tx_valid maxMoney (tx_body tx)) (vtx block);
  bv_sigops : exists n, block_sigops (vtx block) 0 = Ret n /\ n <= MAX_BLOCK_SIGOPS_LEGACY
}.

Lemma check_transactions_spec txs st :
  exists r, check_transactions maxMoney txs st = Ret r /\
    (r = (true, st) /\ Forall (fun tx => tx_valid maxMoney (tx_body tx)) txs \/ rejected st r /\ ~ Forall (fun tx => tx_valid maxMoney (tx_body tx)) txs).
Proof.
  induction txs as [|tx txs IH]; [exists (true, st); split; [done | by left]|]. cbn [check_transactions].
  destruct (CheckTransaction_spec maxMoney max_moderate (tx_body tx) st) as ([ok st'] & -> & [[[= -> ->] Hv]|[[Hf Hr] Hn]]); cbn [obind].
  - cbn [negb]. destruct IH as (r & -> & H). exists r. split; [done|]. rewrite Forall_cons. destruct H as [[-> H]|[H Hn]]; [left; auto | right; split; [done | tauto]].
  - cbn [fst] in Hf. subst ok. exists (false, st'). split; [done|]. right. split; [by split|]. rewrite Forall_cons. tauto.
Qed.

Lemma not_existsb {A} (f : A -> bool) l : existsb f l = false <-> Forall (fun x => f x = false) l.
Proof.
  rewrite Forall_forall. split.
  - intros H x Hx. destruct (f x) eqn:E; [|done]. assert (existsb f l = true) as H'; [|congruence]. apply existsb_exists. exists x. split; [by apply list_elem_of_In | done].
  - intros H. destruct (existsb f l) eqn:E; [|done]. apply existsb_exists in E as (x & Hx & Ex). apply list_elem_of_In in Hx. rewrite (H x Hx) in Ex. done.
Qed.

Lemma stake_shape_iff txs : IsProofOfStake txs = true ->
  (coinbase_pays txs = false /\ coinstake_multiple txs = false <-> stake_shape txs).
Proof.
  unfold coinbase_pays, coinstake_multiple, stake_shape. destruct txs as [|cb [|cs rest]]; try done. intros _. cbn [drop]. rewrite not_existsb. split.
  - intros [Hp Hr]. destruct (vout (tx_body cb)) as [|o [|]] eqn:Eo; try done. exists cb, cs, rest, o. repeat split; [done | by apply negb_false_iff | done].
  - intros (cb' & cs' & rest' & o & [= <- <- <-] & Ho & He & Hr). rewrite Ho, He. done.
Qed.

(** The outcome of a refused check. *)
Definition refused (st : CValidationState) (block : CBlock) (r : bool * CValidationState) : Prop :=
  r.1 = false /\ ~ block_valid block /\ exists level code reason corruption, r.2 = DoS st level code reason corruption /\
    (corruption = false -> in_time block -> committed block).

Lemma refuse_spec st block level code reason corruption :
  ~ block_valid block -> (corruption = false -> in_time block -> committed block) ->
  exists r, refuse st level code reason corruption = Ret r /\ (r = (true, st) /\ block_valid block \/ refused st block r).
Proof. intros H1 H2. eexists. split; [reflexivity|]. right. split; [done|]. split; [done|]. by exists level, code, reason, corruption. Qed.

Lemma CheckBlock_spec block st :
  exists r, CheckBlock HashQuark params maxMoney GetAdjustedTime block st true = Ret r /\
    (r = (true, st) /\ block_valid block \/ refused st block r).
Proof.
  unfold CheckBlock. rewrite BuildMerkleTree_spec. cbn [obind].
  destruct (negb (IsProofOfStake (vtx block)) && negb (CheckProofOfWork _ _ _)) eqn:E1.
  { apply refuse_spec; [|done]. intros [H _ _ _ _ _ _ _]. apply andb_prop in E1 as [E1%negb_true_iff E2%negb_true_iff]. rewrite (H E1) in E2. done. }
  destruct (Z.gtb_spec (nTime (blk_header block)) (GetAdjustedTime + (if IsProofOfStake (vtx block) then MaxFutureBlockDrift else 7200))) as [E2|E2].
  { eexists. split; [reflexivity|]. right. split; [done|]. split; [intros [_ H _ _ _ _ _ _]; unfold in_time in H; lia|].
    exists 0, REJECT_INVALID, "time-too-new"%string, false. split; [done|]. unfold in_time. lia. }
  destruct (bool_decide _) eqn:E3; cbn [negb].
  2: { apply refuse_spec; [|done]. intros [_ _ [H _] _ _ _ _ _]. apply bool_decide_eq_false in E3. done. }
  apply bool_decide_eq_true in E3. destruct (merkle_mutated hash_children (map tx_hash (vtx block))) eqn:E4.
  { apply refuse_spec; [|done]. intros [_ _ [_ H] _ _ _ _ _]. congruence. }
  assert (Hcom : committed block) by (by split).
  destruct ((zlen (vtx block) =? 0) || (zlen (vtx block) >? MAX_BLOCK_SIZE) || _) eqn:E5.
  { apply refuse_spec; [|done]. intros [_ _ _ [H1 H2] (cb & rest & Hv & _) _ _ _]. rewrite Hv in *. rewrite zlen_cons in *. pose proof (zlen_nonneg rest).
    apply orb_true_iff in E5 as [[E5%Z.eqb_eq|E5]%orb_true_iff|E5]; lia. }
  apply orb_false_iff in E5 as [[E5 E6]%orb_false_iff E7]. apply Z.eqb_neq in E5.
  destruct (coinbase_missing (vtx block)) eqn:E8.
  { apply refuse_spec; [|done]. intros [_ _ _ _ (cb & rest & Hv & Hcb & _) _ _ _]. rewrite Hv in E8. cbn in E8. by rewrite Hcb in E8. }
  destruct (coinbase_multiple (vtx block)) eqn:E9.
  { apply refuse_spec; [|done]. intros [_ _ _ _ (cb & rest & Hv & _ & Hr) _ _ _]. rewrite Hv in E9. change (existsb (fun tx => IsCoinBase (tx_body tx)) rest = true) in E9.
    by rewrite (proj2 (not_existsb _ _) Hr) in E9. }
  destruct (IsProofOfStake (vtx block) && coinbase_pays (vtx block)) eqn:E10.
  { apply refuse_spec; [|done]. intros [_ _ _ _ _ H _ _]. apply andb_prop in E10 as [Es Ep]. destruct (proj2 (stake_shape_iff _ Es) (H Es)) as [Hp _]. congruence. }
  destruct (IsProofOfStake (vtx block) && coinstake_multiple (vtx block)) eqn:E11.
  { apply refuse_spec; [|done]. intros [_ _ _ _ _ H _ _]. apply andb_prop in E11 as [Es Ep]. destruct (proj2 (stake_shape_iff _ Es) (H Es)) as [_ Hp]. congruence. }
  destruct (check_transactions_spec (vtx block) st) as ([ok st'] & -> & [[[= -> ->] Hv]|[[Hf (level & code & reason & Hr)] Hn]]); cbn [obind negb].
  2: { cbn [fst snd] in *. subst ok. cbn [negb]. eexists. split; [reflexivity|]. right. split; [done|]. split; [by intros [_ _ _ _ _ _ H _]|].
       exists level, code, reason, false. split; done. }
  destruct (block_sigops_returns (vtx block) 0) as [n En]. rewrite En. cbn [obind].
  destruct (Z.gtb_spec n MAX_BLOCK_SIGOPS_LEGACY) as [E12|E12].
  { apply refuse_spec; [|done]. intros [_ _ _ _ _ _ _ (n' & En' & Hn')]. rewrite En in En'. injection En' as <-. lia. }
  eexists. split; [reflexivity|]. left. split; [done|]. constructor; try done.
  - intros Hs. rewrite Hs in E1. cbn [negb andb] in E1. by apply negb_false_iff in E1.
  - lia.
  - destruct (vtx block) as [|cb rest]; [done|]. exists cb, rest. split; [done|]. cbn in E8. split; [by apply negb_false_iff in E8|]. by apply not_existsb in E9.
  - intros Hs. rewrite Hs in E10, E11. by apply stake_shape_iff.
  - by exists n.
Qed.

(** C6: [CheckBlock] accepts exactly the valid blocks: work or stake, a time not too
    far ahead, the transactions its header commits to, the size, one coinbase at
    the start, the shape of a proof of stake, valid transactions, and few enough
    signature operations.  When it refuses a block in time without reporting
    possible corruption, the transactions are the committed ones, so that the
    header can be marked invalid for good. *)
Theorem CheckBlock_exact block st :
  exists r, CheckBlock HashQuark params maxMoney GetAdjustedTime block st true = Ret r /\
    (r = (true, st) /\ block_valid block \/ refused st block r).
Proof. apply CheckBlock_spec. Qed.
End Valid.

(** ** The median time never decreases *)

Definition below (m : Z) (l : list Z) : nat := length (filter (fun x => x < m) l).
Definition median (l : list Z) : option Z := merge_sort Z.le l !! (length l / 2)%nat.

#[local] Instance Z_le_total : Total Z.le.
Proof. intros x y. lia. Qed.

Lemma below_perm m l1 l2 : Permutation l1 l2 -> below m l1 = below m l2.
Proof. intros H. unfold below. by rewrite H. Qed.

Lemma below_app m l1 l2 : below m (l1 ++ l2) = (below m l1 + below m l2)%nat.
Proof. unfold below. by rewrite filter_app, length_app. Qed.

Lemma below_none x l : List.Forall (Z.le x) l -> below x l = 0%nat.
Proof. induction 1 as [|y l Hy _ IH]; [done|]. unfold below in *. rewrite filter_cons_False by lia. done. Qed.

(** In a sorted list, position [i] tells how many elements are below a bound. *)
Lemma sorted_below l i x : StronglySorted Z.le l -> l !! i = Some x -> (below x l <= i)%nat.
Proof.
  revert i. induction l as [|y l IH]; intros i Hs Hi; [done|]. apply StronglySorted_inv in Hs as [Hs Hall].
  assert (Hl : below x (y :: l) = (below x [y] + below x l)%nat) by apply (below_app x [y] l). rewrite Hl. destruct i as [|i].
  - injection Hi as ->. assert (below x [x] = 0)%nat as -> by (unfold below; rewrite filter_cons_False by lia; done).
    by rewrite (below_none _ _ Hall).
  - specialize (IH i Hs Hi). unfold below at 1. rewrite filter_cons, filter_nil. case_decide; cbn [length]; lia.
Qed.

Lemma sorted_above l i x m : StronglySorted Z.le l -> l !! i = Some x -> (below m l <= i)%nat -> m <= x.
Proof.
  revert i. induction l as [|y l IH]; intros i Hs Hi Hb; [done|]. apply StronglySorted_inv in Hs as [Hs Hall].
  assert (Hl : below m (y :: l) = (below m [y] + below m l)%nat) by apply (below_app m [y] l). rewrite Hl in Hb. unfold below at 1 in Hb. rewrite filter_cons, filter_nil in Hb.
  destruct i as [|i].
  - injection Hi as ->. case_decide; cbn [length] in Hb; lia.
  - cbn in Hi. case_decide as Ey; cbn [length] in Hb; [apply (IH i Hs Hi); lia|].
    rewrite List.Forall_forall in Hall. assert (In x l) as Hx by (by apply list_elem_of_In, (list_elem_of_lookup_2 _ _ _ Hi)). specialize (Hall x Hx). lia.
Qed.

Lemma median_below l m : median l = Some m -> (below m l <= length l / 2)%nat.
Proof.
  unfold median. intros H. rewrite <-(below_perm m _ _ (merge_sort_Permutation Z.le l)). apply sorted_below; [apply (StronglySorted_merge_sort Z.le)| done].
Qed.

Lemma median_above l m x : median l = Some x -> (below m l <= length l / 2)%nat -> m <= x.
Proof.
  unfold median. intros H. rewrite <-(below_perm m _ _ (merge_sort_Permutation Z.le l)). apply sorted_above; [apply (StronglySorted_merge_sort Z.le) | done].
Qed.

Lemma median_some l : l <> [] -> exists x, median l = Some x.
Proof.
  intros H. apply lookup_lt_is_Some. rewrite (Permutation_length (merge_sort_Permutation Z.le l)). destruct l as [|y l]; [done|]. apply Nat.div_lt; cbn [length]; lia.
Qed.

Section Times.
Variable heap : index_heap.
Hypothesis Hok : index_ok heap.

Definition known_or_null (p : option ptr) : Prop := match p with None => True | Some q => is_Some (heap !! q) end.

Lemma parent_known p b : heap !! p = Some b -> known_or_null (pprev b).
Proof. intros Hb. destruct (Hok p b Hb) as [_ Hp _]. destruct (pprev b) as [q|]; [|done]. destruct Hp as (c & Hc & _). by exists c. Qed.

Lemma median_times_returns n : forall p, known_or_null p -> exists l, median_times heap n p = Ret l.
Proof.
  induction n as [|n IH]; intros [p|] Hp; cbn [median_times]; try by exists [].
  destruct Hp as [b Hb]. unfold deref. cbn [oaccess obind]. rewrite Hb. cbn [oaccess obind]. destruct (IH (pprev b) (parent_known p b Hb)) as [l ->]. by exists (l ++ [GetBlockTime b]).
Qed.

(** One round less leaves out the oldest time, if it was reached. *)
Lemma median_times_shorter n : forall p l, median_times heap (S n) p = Ret l ->
  exists l', median_times heap n p = Ret l' /\ ((l = l' /\ (length l <= n)%nat) \/ exists y, l = y :: l').
Proof.
  induction n as [|n IH]; intros [p|] l E; cbn [median_times] in E.
  - exists []. split; [done|]. destruct (deref heap (Some p)) as [b| | |]; try done. cbn [obind] in E. injection E as <-. right. by exists (GetBlockTime b).
  - injection E as <-. exists []. split; [done | by left].
  - destruct (deref heap (Some p)) as [b| | |] eqn:Eb; try done. cbn [obind] in E. change (match pprev b with Some _ => _ | None => Ret [] end) with (median_times heap (S n) (pprev b)) in E.
    destruct (median_times heap (S n) (pprev b)) as [l1| | |] eqn:E1; try done. cbn [obind] in E. injection E as <-.
    destruct (IH (pprev b) l1 E1) as (l' & El & H). cbn [median_times]. rewrite Eb. cbn [obind]. rewrite El. cbn [obind]. eexists. split; [reflexivity|].
    destruct H as [[-> Hl]|[y ->]]; [left; split; [done|]; rewrite length_app; cbn [length]; lia | right; by exists y].
  - injection E as <-. exists []. split; [done|]. left. cbn [length]. split; [done | lia].
Qed.

Lemma median_times_cons n p b l : heap !! p = Some b -> median_times heap (S n) (Some p) = Ret l -> exists l', median_times heap n (pprev b) = Ret l' /\ l = l' ++ [GetBlockTime b].
Proof.
  intros Hb. cbn [median_times]. unfold deref. cbn [oaccess obind]. rewrite Hb. cbn [oaccess obind]. destruct (median_times heap n (pprev b)) as [l'| | |]; try done. cbn [obind]. intros [= <-]. by exists l'.
Qed.

Lemma median_time_of p b : heap !! p = Some b -> exists l m, median_times heap nMedianTimeSpan (Some p) = Ret l /\ median l = Some m /\ GetMedianTimePast heap p = Ret m.
Proof.
  intros Hb. destruct (median_times_returns nMedianTimeSpan (Some p)) as [l El]; [by exists b|]. exists l.
  destruct (median_times_cons _ _ _ _ Hb El) as (l' & _ & ->). destruct (median_some (l' ++ [GetBlockTime b])) as [m Hm]; [by destruct l'|].
  exists m. split; [done|]. split; [done|]. unfold GetMedianTimePast. rewrite El. cbn [obind]. fold (median (l' ++ [GetBlockTime b])). by rewrite Hm.
Qed.

(** A block later than the median of the blocks before it. *)
Lemma median_time_step p q c : heap !! q = Some c -> pprev c = Some p ->
  exists m m', GetMedianTimePast heap p = Ret m /\ GetMedianTimePast heap q = Ret m' /\ (m < bi_nTime c -> m <= m').
Proof.
  intros Hc Hp. pose proof (parent_known q c Hc) as Hk. rewrite Hp in Hk. destruct Hk as [b Hb].
  destruct (median_time_of p b Hb) as (l & m & El & Hm & Egm). destruct (median_time_of q c Hc) as (l2 & m' & El2 & Hm' & Egm').
  exists m, m'. split; [done|]. split; [done|]. intros Ht. unfold nMedianTimeSpan in *.
  destruct (median_times_cons _ _ _ _ Hc El2) as (l10 & E10 & ->). rewrite Hp in E10.
  destruct (median_times_shorter _ _ _ El) as (l' & El' & Hl). rewrite E10 in El'. injection El' as <-.
  apply (median_above _ _ _ Hm'). rewrite below_app, length_app. apply median_below in Hm.
  assert (below m [GetBlockTime c] = 0)%nat as -> by (unfold below, GetBlockTime; rewrite filter_cons_False by lia; done). cbn [length].
  destruct Hl as [[-> Hlen]|[y ->]].
  - rewrite Nat.add_0_r. etransitivity; [exact Hm|]. apply Nat.Div0.div_le_mono. lia.
  - change (y :: l10) with ([y] ++ l10) in Hm. rewrite below_app, length_app in Hm. cbn [length] in Hm. rewrite (Nat.add_comm (length l10) 1). lia.
Qed.
End Times.

(** Every block is later than the median time of the block before it, as
    [ContextualCheckBlockHeader] demands. *)
Definition headers_timely (heap : index_heap) : Prop :=
  forall q c p, heap !! q = Some c -> pprev c = Some p -> forall m, GetMedianTimePast heap p = Ret m -> m < bi_nTime c.

Lemma median_ancestor heap q c k p : index_ok heap -> headers_timely heap -> heap !! q = Some c -> ancestor heap q k = Some p ->
  exists m m', GetMedianTimePast heap p = Ret m /\ GetMedianTimePast heap q = Ret m' /\ m <= m'.
Proof.
  intros Hok Ht Hc Ha.
  assert (Hup : forall n q c, heap !! q = Some c -> up heap n q = Some p -> exists m m', GetMedianTimePast heap p = Ret m /\ GetMedianTimePast heap q = Ret m' /\ m <= m').
  { clear q c k Hc Ha. induction n as [|n IH]; intros q c Hc Hu; cbn [up] in Hu.
    - injection Hu as ->. destruct (median_time_of heap Hok p c Hc) as (_ & m & _ & _ & E). exists m, m. split; [done|]. split; [done | lia].
    - rewrite Hc in Hu. cbn [mbind option_bind] in Hu. destruct (pprev c) as [r|] eqn:Er; [|done]. cbn [mbind option_bind] in Hu.
      pose proof (parent_known heap Hok q c Hc) as Hk. rewrite Er in Hk. destruct Hk as [b Hb]. destruct (IH r b Hb Hu) as (m & m1 & Em & Em1 & Hle).
      destruct (median_time_step heap Hok r q c Hc Er) as (m1' & m' & Em1' & Em' & Hstep). rewrite Em1 in Em1'. injection Em1' as <-.
      exists m, m'. split; [done|]. split; [done|]. specialize (Hstep (Ht q c r Hc Er m1 Em1)). lia. }
  unfold ancestor in Ha. rewrite Hc in Ha. cbn [mbind option_bind] in Ha. destruct (_ && _) in Ha; [|done]. exact (Hup _ q c Hc Ha).
Qed.

(** a header is accepted on top of a block only with a time after the median
    of the times of that block and the ten before it; in every index of such
    blocks the median is defined for every block (nothing is read outside of the
    window) and never decreases from a block to its descendants, although the
    times themselves may. *)
Theorem median_time_monotone heap checkpoints fEnabled HashQuark genesis activeHeight maxReorg mapBlockIndex :
  index_ok heap ->
  (forall hdr st st' p, ContextualCheckBlockHeader heap checkpoints fEnabled HashQuark genesis activeHeight maxReorg mapBlockIndex hdr st (Some p) = Ret (true, st') ->
     header_GetHash HashQuark hdr <> genesis -> exists m, GetMedianTimePast heap p = Ret m /\ m < nTime hdr) /\
  (headers_timely heap -> forall q c k p, heap !! q = Some c -> ancestor heap q k = Some p ->
     exists m m', GetMedianTimePast heap p = Ret m /\ GetMedianTimePast heap q = Ret m' /\ m <= m').
Proof.
  intros Hok. split.
  - intros hdr st st' p E Hg. unfold ContextualCheckBlockHeader in E. rewrite bool_decide_eq_false_2 in E by done. cbn [oaccess obind] in E.
    destruct (deref heap (Some p)) as [prev| | |]; try done. cbn [obind] in E. destruct (_ >=? _); [done|].
    destruct (GetMedianTimePast heap p) as [m| | |]; try done. cbn [obind] in E. destruct (Z.leb_spec (nTime hdr) m); [done|]. by exists m.
  - intros Ht q c k p Hc Ha. by apply (median_ancestor heap q c k p).
Qed.

(** ** The height in the coinbase *)

Lemma push_height_op h rest : 1 <= h <= 16 -> GetOp2 (push_int64 [] h ++ rest) = mkGetOp true (h + 80) [] rest.
Proof.
  intros Hh. unfold push_int64. rewrite (proj2 (andb_true_iff _ _)) by lia. rewrite orb_true_r. cbn [app].
  assert (E : u8 (h + (OP_1 - 1)) = h + 80) by (unfold u8, OP_1; rewrite Z.mod_small by lia; lia). rewrite E. unfold GetOp2, OP_PUSHDATA4.
  by rewrite (proj2 (Z.leb_gt _ _)) by lia.
Qed.

Lemma push_height_data h rest : 16 < h < 2 ^ 31 -> GetOp2 (push_int64 [] h ++ rest) = mkGetOp true (push_data_opcode (serialize h)) (serialize h) rest.
Proof.
  intros Hh. unfold push_int64. replace ((h =? -1) || (1 <=? h) && (h <=? 16)) with false by lia. rewrite (proj2 (Z.eqb_neq _ _)) by lia.
  apply GetOp2_pushed. pose proof (serialize_length h). lia.
Qed.


(** The serialized height determines where it ends and what it is. *)
Lemma push_height_inj h1 h2 r1 r2 : 0 < h1 < 2 ^ 31 -> 0 < h2 < 2 ^ 31 -> push_int64 [] h1 ++ r1 = push_int64 [] h2 ++ r2 -> h1 = h2.
Proof.
  intros H1 H2 E. apply (f_equal GetOp2) in E.
  assert (Hlow : forall h, push_data_opcode (serialize h) <= 9).
  { intros h. pose proof (serialize_length h). unfold push_data_opcode, OP_PUSHDATA1. by rewrite (proj2 (Z.ltb_lt _ _)) by lia. }
  assert (Hser : forall a b, 0 < a < 2 ^ 31 -> 0 < b < 2 ^ 31 -> serialize a = serialize b -> a = b).
  { intros a b Ha Hb Es. pose proof (number_roundtrip a false ltac:(lia)) as Ea. pose proof (number_roundtrip b false ltac:(lia)) as Eb.
    unfold getvch in *. cbn [m_value] in *. rewrite Es, Eb in Ea. by injection Ea. }
  destruct (decide (h1 <= 16)) as [L1|L1], (decide (h2 <= 16)) as [L2|L2];
    rewrite ?(push_height_op h1), ?(push_height_op h2), ?(push_height_data h1), ?(push_height_data h2) in E by lia; injection E; clear E; intros.
  - lia.
  - specialize (Hlow h2). lia.
  - specialize (Hlow h1). lia.
  - match goal with Hs : serialize _ = serialize _ |- _ => by apply Hser end.
Qed.

(** blocks that [ContextualCheckBlock] accepts at different heights have
    different coinbase transactions, because the script of the first input starts
    with the height; this is what keeps the hashes of coinbase transactions apart.
    Of every accepted block all transactions are final at its height and time. *)
Theorem coinbase_heights_differ heap height adjusted block1 block2 st1 st2 r1 r2 p1 p2 b1 b2 :
  heap !! p1 = Some b1 -> heap !! p2 = Some b2 -> 0 <= nHeight b1 < 2 ^ 31 - 1 -> 0 <= nHeight b2 < 2 ^ 31 - 1 ->
  ContextualCheckBlock heap height adjusted block1 st1 (Some p1) = Ret (true, r1) ->
  ContextualCheckBlock heap height adjusted block2 st2 (Some p2) = Ret (true, r2) ->
  (nHeight b1 <> nHeight b2 -> fmap tx_body (head (vtx block1)) <> fmap tx_body (head (vtx block2))) /\
  Forall (fun tx => IsFinalTx (tx_body tx) height adjusted (nHeight b1 + 1) (nTime (blk_header block1)) = true) (vtx block1).
Proof.
  intros Hb1 Hb2 Hh1 Hh2 E1 E2.
  assert (Hinv : forall p b block st r, heap !! p = Some b -> 0 <= nHeight b -> ContextualCheckBlock heap height adjusted block st (Some p) = Ret (true, r) ->
    forallb (fun tx => IsFinalTx (tx_body tx) height adjusted (nHeight b + 1) (nTime (blk_header block))) (vtx block) = true /\
    exists tx i rest, head (vtx block) = Some tx /\ head (vin (tx_body tx)) = Some i /\ scriptSig i = push_int64 [] (nHeight b + 1) ++ rest).
  { intros p b block st r Hb Hh E. unfold ContextualCheckBlock, deref in E. cbn [oaccess obind] in E. rewrite Hb in E. cbn [oaccess obind] in E.
    destruct (forallb _ _); cbn [negb] in E; [|done]. split; [done|]. destruct (Z.ltb_spec 0 (nHeight b + 1)); [|lia].
    destruct (vtx block) as [|tx txs]; cbn in E; [done|]. destruct (vin (tx_body tx)) as [|i ins] eqn:Ei; cbn in E; [done|].
    unfold script_begins in E. destruct (bool_decide _) eqn:Es; cbn [negb] in E; [|done]. apply bool_decide_eq_true in Es.
    exists tx, i, (drop (length (push_int64 [] (nHeight b + 1))) (scriptSig i)). rewrite Ei. split; [done|]. split; [done|]. etransitivity; [symmetry; apply (take_drop (length (push_int64 [] (nHeight b + 1))))|]. by rewrite Es. }
  destruct (Hinv p1 b1 block1 st1 r1 Hb1 ltac:(lia) E1) as (Hf & tx1 & i1 & s1 & Ht1 & Hi1 & Hs1).
  destruct (Hinv p2 b2 block2 st2 r2 Hb2 ltac:(lia) E2) as (_ & tx2 & i2 & s2 & Ht2 & Hi2 & Hs2). split.
  - intros Hne E. rewrite Ht1, Ht2 in E. cbn in E. injection E as E. rewrite E, Hi2 in Hi1. injection Hi1 as <-. rewrite Hs1 in Hs2.
    apply push_height_inj in Hs2; lia.
  - apply Forall_forall. intros tx Htx. rewrite forallb_forall in Hf. apply Hf. by apply list_elem_of_In.
Qed.

(** ** Samples *)

Definition height_coinbase (h : Z) : CTransaction :=
  CTransaction_of (mkMutable 1 [mkTxIn COutPoint_null (push_int64 [] h ++ [81]) SEQUENCE_FINAL] [CTxOut_empty] 0).
Definition staked_txs (h : Z) : list CTransaction := [height_coinbase h; CTransaction_of (sample_tx 5 10)].
Definition staked_block (h : Z) : CBlock :=
  mkBlock (mkHeader 4 (of_uint64 8 11) (merkle_root hash_children (map tx_hash (staked_txs h))) 1600000000 0 0 uint256_null) (staked_txs h) [48].

Lemma CheckBlock_exact_witness : block_valid (fun _ => []) main_work (10 ^ 9 * COIN) 1600000000 (staked_block 120).
Proof.
  destruct (CheckBlock_exact (fun _ => []) main_work (10 ^ 9 * COIN) 1600000000 ltac:(unfold COIN; lia) (staked_block 120) CValidationState_new) as (r & E & [[_ H]|[Hf _]]); [exact H|].
  assert (Ht : match CheckBlock (fun _ => []) main_work (10 ^ 9 * COIN) 1600000000 (staked_block 120) CValidationState_new true with Ret (b, _) => b | _ => false end = true) by (vm_compute; reflexivity).
  rewrite E in Ht. destruct r as [b st]. cbn [fst] in Hf. congruence.
Defined.

Lemma sample_tree_timely : headers_timely sample_tree.
Proof.
  intros q c p Hq Hp m Hm. unfold sample_tree in Hq.
  apply lookup_insert_Some in Hq as [[<- <-]|[_ Hq]]; [injection Hp as <-; vm_compute in Hm; injection Hm as <-; reflexivity|].
  apply lookup_insert_Some in Hq as [[<- <-]|[_ Hq]]; [injection Hp as <-; vm_compute in Hm; injection Hm as <-; reflexivity|].
  apply lookup_insert_Some in Hq as [[<- <-]|[_ Hq]]; [injection Hp as <-; vm_compute in Hm; injection Hm as <-; reflexivity|].
  apply lookup_singleton_Some in Hq as [<- <-]. discriminate.
Qed.

Lemma median_time_monotone_witness : exists m m',
  GetMedianTimePast sample_tree 2 = Ret m /\ GetMedianTimePast sample_tree 4 = Ret m' /\ m <= m'.
Proof.
  apply (proj2 (median_time_monotone sample_tree [] true (fun _ => []) [] 0 100 ∅ (proj1 (chain_reachable_ok _ _ sample_tree_reachable)))
    sample_tree_timely 4%positive (sample_linked 4 2 2 1) 1); vm_compute; reflexivity.
Defined.

Definition checked_heap : index_heap :=
  {[ 1%positive := mkIndex (of_uint64 8 11) None None 119 0 0 0 0 0 LotteryCoinstakeData_empty;
     2%positive := mkIndex (of_uint64 8 12) (Some 1%positive) None 120 0 0 0 0 0 LotteryCoinstakeData_empty ]}.

Lemma coinbase_heights_differ_witness :
  fmap tx_body (head (vtx (staked_block 120))) <> fmap tx_body (head (vtx (staked_block 121))).
Proof.
  destruct (coinbase_heights_differ checked_heap 120 1600000000 (staked_block 120) (staked_block 121) CValidationState_new CValidationState_new
    CValidationState_new CValidationState_new 1 2
    (mkIndex (of_uint64 8 11) None None 119 0 0 0 0 0 LotteryCoinstakeData_empty) (mkIndex (of_uint64 8 12) (Some 1%positive) None 120 0 0 0 0 0 LotteryCoinstakeData_empty)) as [H _];
    [vm_compute; reflexivity | vm_compute; reflexivity | cbn; lia | cbn; lia | vm_compute; reflexivity | vm_compute; reflexivity|].
  apply H. cbn. lia.
Defined.
