(* ===== verification/BlockSigning.v ===== *)
(** * Block signatures: [BlockSigning.cpp]

    The minter of a proof-of-stake block signs its hash with the key that the
    second output of the coinstake pays, or with the manager's key of a vault.
    The keys and the signature algorithms (secp256k1) are parameters. *)

From Stdlib Require Import ZArith Lia Bool String.
From stdpp Require Import base option numbers list gmap.
From S2P Require Import Prelude BaseUInt UInt256 Serialize Opcodes ScriptNum Script ScriptProps StackManager Interpreter Hashes Transaction StakingVault Standard StandardProps BlockChecks.

Open Scope Z_scope.
Open Scope outcome_scope.

Section Signing.
Context {SH : ScriptHashes}.
(** [CKey] with [GetPubKey], [SignCompact], [Sign]; [CPubKey::RecoverCompact] and
    [Verify]; the block hash. *)
Variable CKey : Type.
Variable GetPubKey : CKey -> CPubKey.
Variables (SignCompact Sign : CKey -> list Z -> option (list Z)).
Variable RecoverCompact : list Z -> list Z -> option CPubKey.
Variable Verify : CPubKey -> list Z -> list Z -> bool.
Variable HashQuark : list Z -> list Z.
(** [keystore.GetKey] *)
Variable GetKey : list Z -> option CKey.

Definition GetHash (block : CBlock) : list Z := header_GetHash HashQuark (blk_header block).

(** The signature is the new [vchBlockSig]. *)
Definition sign_with (sign : CKey -> list Z -> option (list Z)) (keyID : list Z) (block : CBlock) : bool * list Z :=
  match GetKey keyID with
  | None => (false, vchBlockSig block)
  | Some key => match sign key (GetHash block) with Some sig => (true, sig) | None => (false, vchBlockSig block) end
  end.

(** The loop over the outputs of the coinbase. *)
Fixpoint sign_outputs (outs : list CTxOut) (block : CBlock) : result (bool * list Z) :=
  match outs with
  | [] => Ret (false, vchBlockSig block)
  | txout :: outs =>
      let* r := ExtractScriptPubKeyFormat (scriptPubKey txout) [] in
      if negb (fr_ok r) then sign_outputs outs block
      else
        match fr_type r with
        | TX_PUBKEY =>
            let* key := oaccess (fr_solutions r !! 0%nat) in
            let* keyID := uint160_of_vch key in
            Ret (sign_with SignCompact keyID block)
        | _ => sign_outputs outs block
        end
  end.

Definition stake_output (block : CBlock) : result CTxOut :=
  let* tx := oaccess (vtx block !! 1%nat) in oaccess (vout (tx_body tx) !! 1%nat).

Definition SignBlock (block : CBlock) : result (bool * list Z) :=
  if negb (IsProofOfStake (vtx block)) then
    let* tx := oaccess (vtx block !! 0%nat) in sign_outputs (vout (tx_body tx)) block
  else
    let* txout := stake_output block in
    let* r := ExtractScriptPubKeyFormat (scriptPubKey txout) [] in
    if negb (fr_ok r) then Ret (false, vchBlockSig block) else
    match fr_type r with
    | TX_PUBKEYHASH =>
        let* h := oaccess (fr_solutions r !! 0%nat) in
        let* keyID := uint160_of_vch h in Ret (sign_with SignCompact keyID block)
    | TX_PUBKEY =>
        let* key := oaccess (fr_solutions r !! 0%nat) in Ret (sign_with Sign (PubKey_GetID (CPubKey_of key)) block)
    | TX_VAULT =>
        let* h := oaccess (fr_solutions r !! 1%nat) in
        let* keyID := uint160_of_vch h in Ret (sign_with SignCompact keyID block)
    | _ => Ret (false, vchBlockSig block)
    end.

Definition recovers (keyID : list Z) (block : CBlock) : bool :=
  match RecoverCompact (GetHash block) (vchBlockSig block) with
  | None => false
  | Some k => bool_decide (keyID = PubKey_GetID k)
  end.

Definition CheckBlockSignature (block : CBlock) : result bool :=
  if negb (IsProofOfStake (vtx block)) then Ret (zlen (vchBlockSig block) =? 0) else
  let* txout := stake_output block in
  let* r := ExtractScriptPubKeyFormat (scriptPubKey txout) [] in
  if negb (fr_ok r) then Ret false else
  if zlen (vchBlockSig block) =? 0 then Ret false else
  match fr_type r with
  | TX_PUBKEY =>
      let* key := oaccess (fr_solutions r !! 0%nat) in
      if negb (PubKey_IsValid (CPubKey_of key)) then Ret false
      else Ret (Verify (CPubKey_of key) (GetHash block) (vchBlockSig block))
  | TX_PUBKEYHASH =>
      let* h := oaccess (fr_solutions r !! 0%nat) in
      let* keyID := uint160_of_vch h in Ret (recovers keyID block)
  | TX_VAULT =>
      let* h := oaccess (fr_solutions r !! 1%nat) in
      let* keyID := uint160_of_vch h in Ret (recovers keyID block)
  | _ => Ret false
  end.

Definition with_sig (block : CBlock) (sig : list Z) : CBlock := mkBlock (blk_header block) (vtx block) sig.

(** Compact signatures reveal the key, others verify, and neither is empty. *)
Hypothesis recover_signed : forall k h sig, SignCompact k h = Some sig -> sig <> [] /\ RecoverCompact h sig = Some (GetPubKey k).
Hypothesis verify_signed : forall k h sig, Sign k h = Some sig -> sig <> [] /\ Verify (GetPubKey k) h sig = true.
(** The key store finds keys by the hash of the public key. *)
Hypothesis store_keys : forall id k, GetKey id = Some k -> PubKey_GetID (GetPubKey k) = id.

Lemma sign_with_spec sign keyID block sig : sign_with sign keyID block = (true, sig) -> exists k, GetKey keyID = Some k /\ sign k (GetHash block) = Some sig.
Proof. unfold sign_with. destruct (GetKey keyID) as [k|]; [|done]. destruct (sign k _) as [s|] eqn:E; [|done]. intros [= <-]. by exists k. Qed.

Lemma recovers_signed keyID block sig : sign_with SignCompact keyID block = (true, sig) -> recovers keyID (with_sig block sig) = true /\ zlen sig <> 0.
Proof.
  intros (k & Hk & Hs)%sign_with_spec. destruct (recover_signed _ _ _ Hs) as [Hne Hr]. unfold recovers. cbn [vchBlockSig with_sig]. split.
  - change (GetHash (with_sig block sig)) with (GetHash block). rewrite Hr. apply bool_decide_eq_true. symmetry. by apply store_keys.
  - destruct sig as [|x s]; [done|]. rewrite zlen_cons. pose proof (zlen_nonneg s). lia.
Qed.

Lemma stake_output_there block : IsProofOfStake (vtx block) = true -> exists o, stake_output block = Ret o.
Proof.
  unfold stake_output, IsProofOfStake. destruct (vtx block) as [|a [|t l]]; [done | done|]. unfold IsCoinStake.
  destruct (vin (tx_body t)); [done|]. destruct (vout (tx_body t)) as [|o0 [|o l']] eqn:E; [done | done|]. intros _. exists o. cbn. by rewrite E.
Qed.

(** The second output of the coinstake is to this public key. *)
Definition pays_pubkey (block : CBlock) (key : valtype) : Prop :=
  exists o, stake_output block = Ret o /\ ExtractScriptPubKeyFormat (scriptPubKey o) [] = Ret (mkFormat true TX_PUBKEY [key]).

(** checking the signature of any block ends in an answer, and the signature
    that [SignBlock] makes for a proof-of-stake block is accepted, for coins paid
    to a key, to the hash of a key and to a vault, whose manager signs.  The key
    store's key for the hash of a public key is the one with that public key. *)
Theorem signed_block_checks block :
  (exists b, CheckBlockSignature block = Ret b) /\
  (IsProofOfStake (vtx block) = true -> forall sig, SignBlock block = Ret (true, sig) ->
     (forall key k, pays_pubkey block key -> GetKey (PubKey_GetID (CPubKey_of key)) = Some k -> PubKey_IsValid (CPubKey_of key) = true /\ GetPubKey k = CPubKey_of key) ->
     CheckBlockSignature (with_sig block sig) = Ret true).
Proof.
  split.
  - unfold CheckBlockSignature. destruct (IsProofOfStake (vtx block)) eqn:Es; cbn [negb]; [|by eexists].
    destruct (stake_output_there block Es) as [o ->]. cbn [obind]. pose proof (Extract_returns (scriptPubKey o)) as Hr.
    destruct (ExtractScriptPubKeyFormat _ _) as [r| | |]; try done. cbn [obind returns] in *. unfold format_ok in Hr. destruct (fr_ok r); cbn [negb]; [|by eexists].
    specialize (Hr eq_refl). destruct (zlen _ =? 0); [by eexists|]. destruct (fr_type r); try by eexists.
    + destruct Hr as (v & ->). cbn [lookup list_lookup oaccess obind]. destruct (negb _); by eexists.
    + destruct Hr as (v & -> & Hv). cbn [lookup list_lookup oaccess obind]. rewrite (uint160_returns v Hv). by eexists.
    + destruct Hr as (a & v & -> & _ & Hv). cbn [lookup list_lookup oaccess obind]. rewrite (uint160_returns v Hv). by eexists.
  - intros Hs sig E Hkey. unfold SignBlock, CheckBlockSignature in *. cbn [vtx with_sig vchBlockSig]. change (stake_output (with_sig block sig)) with (stake_output block).
    rewrite Hs in *. cbn [negb] in *. unfold pays_pubkey in Hkey. destruct (stake_output block) as [o| | |]; try done. cbn [obind] in *.
    pose proof (Extract_returns (scriptPubKey o)) as Hfm. assert (Hpays : forall key, ExtractScriptPubKeyFormat (scriptPubKey o) [] = Ret (mkFormat true TX_PUBKEY [key]) ->
      exists o', Ret o = Ret o' :> result CTxOut /\ ExtractScriptPubKeyFormat (scriptPubKey o') [] = Ret (mkFormat true TX_PUBKEY [key])) by (intros key Hk; by exists o).
    destruct (ExtractScriptPubKeyFormat (scriptPubKey o) []) as [[okr ty sols]| | |] eqn:Er; try done. cbn [obind fr_ok fr_type fr_solutions returns] in *. unfold format_ok in Hfm. cbn [fr_ok fr_type fr_solutions] in Hfm.
    destruct okr; cbn [negb] in *; [|done]. specialize (Hfm eq_refl).
    assert (Hcompact : forall id, sign_with SignCompact id block = (true, sig) -> (if zlen sig =? 0 then Ret false else Ret (recovers id (with_sig block sig)) : result bool) = Ret true).
    { intros id [Hr Hl]%recovers_signed. by rewrite (proj2 (Z.eqb_neq _ _) Hl), Hr. }
    destruct ty; try done.
    + destruct Hfm as [key ->]. cbn [lookup list_lookup oaccess obind] in *. injection E as E. apply sign_with_spec in E as (k & Hk & Hsg).
      destruct (verify_signed _ _ _ Hsg) as [Hne Hv]. destruct (Hkey key k (Hpays key eq_refl) Hk) as [Hval Hpub]. rewrite Hval. cbn [negb].
      destruct sig as [|x s]; [done|]. rewrite zlen_cons, (proj2 (Z.eqb_neq _ _)) by (pose proof (zlen_nonneg s); lia). rewrite <-Hpub.
      change (GetHash (with_sig block (x :: s))) with (GetHash block). by rewrite Hv.
    + destruct (oaccess (sols !! 0%nat)) as [h| | |]; try done. cbn [obind] in *. destruct (uint160_of_vch h) as [id| | |]; try done. cbn [obind] in *.
      injection E as E. by apply Hcompact.
    + destruct (oaccess (sols !! 1%nat)) as [h| | |]; try done. cbn [obind] in *. destruct (uint160_of_vch h) as [id| | |]; try done. cbn [obind] in *.
      injection E as E. by apply Hcompact.
Qed.

(** For a proof-of-work block with an output to a public key, signing throws: the
    key is taken for its 20-byte hash. *)
Lemma work_signing_throws block tx out outs key :
  IsProofOfStake (vtx block) = false -> head (vtx block) = Some tx -> vout (tx_body tx) = out :: outs ->
  ExtractScriptPubKeyFormat (scriptPubKey out) [] = Ret (mkFormat true TX_PUBKEY [key]) -> zlen key = 33 -> SignBlock block = Throw.
Proof.
  intros Hs Ht Ho He Hk. unfold SignBlock. rewrite Hs. cbn [negb]. destruct (vtx block) as [|t l]; [done|]. injection Ht as ->. cbn [lookup list_lookup oaccess obind].
  rewrite Ho. cbn [sign_outputs]. rewrite He. cbn [obind fr_ok negb fr_type fr_solutions lookup list_lookup oaccess]. unfold uint160_of_vch. by rewrite Hk.
Qed.
End Signing.

(** A store with one key, whose signatures carry the public key. *)
Definition toy_pubkey (k : unit) : CPubKey := CPubKey_of (2 :: repeat 7 32).
Definition toy_sign (k : unit) (h : list Z) : option (list Z) := Some [1].
Definition toy_recover (h sig : list Z) : option CPubKey := Some (toy_pubkey tt).
Definition toy_verify (k : CPubKey) (h sig : list Z) : bool := bool_decide (PubKey_bytes k = PubKey_bytes (toy_pubkey tt)).
Definition toy_id : list Z := PubKey_GetID (toy_pubkey tt).
Definition toy_store (id : list Z) : option unit := if bool_decide (id = toy_id) then Some tt else None.

Definition vault_stake : CMutableTransaction :=
  mkMutable 1 [sample_txin 5] [CTxOut_empty; mkTxOut 10 (CreateStakingVaultScript (repeat 3 20) toy_id)] 0.
Definition vault_stake_block : CBlock :=
  mkBlock (mkHeader 4 (of_uint64 8 11) (of_uint64 8 1) 1600000000 0 0 uint256_null) [height_coinbase 120; CTransaction_of vault_stake] [].

Lemma toy_store_key id k : toy_store id = Some k -> PubKey_GetID (toy_pubkey k) = id.
Proof. unfold toy_store. destruct (bool_decide _) eqn:E; [|done]. apply bool_decide_eq_true in E. rewrite E. intros _. by destruct k. Qed.

Lemma vault_not_pubkey key : ~ pays_pubkey vault_stake_block key.
Proof.
  intros (o & Ho & He). assert (Hv : length toy_id = 20%nat) by (vm_compute; reflexivity).
  assert (Ho' : stake_output vault_stake_block = Ret (mkTxOut 10 (CreateStakingVaultScript (repeat 3 20) toy_id))) by reflexivity.
  assert (Es : scriptPubKey o = CreateStakingVaultScript (repeat 3 20) toy_id) by (rewrite Ho' in Ho; injection Ho as <-; reflexivity).
  rewrite Es in He. pose proof (vault_script_format (repeat 3 20) toy_id eq_refl Hv) as Hf. congruence.
Qed.

Lemma signed_block_checks_witness :
  CheckBlockSignature toy_recover toy_verify (fun _ => []) (with_sig vault_stake_block [1]) = Ret true.
Proof.
  refine (proj2 (signed_block_checks unit toy_pubkey toy_sign toy_sign toy_recover toy_verify (fun _ => []) toy_store _ _ toy_store_key vault_stake_block) _ [1] _ _).
  - intros k h sig E. injection E as <-. by destruct k.
  - intros k h sig E. injection E as <-. split; [done|]. apply bool_decide_eq_true. by destruct k.
  - reflexivity.
  - vm_compute. reflexivity.
  - intros key k H. destruct (vault_not_pubkey key H).
Defined.
