(* ===== verification/Bip9.v ===== *)
(** * Version bits: [versionbits.cpp], [BIP9Deployment.h],
    [CachedBIP9ActivationStateTracker.cpp], [BIP9ActivationManager.cpp]

    A deployment goes through the states of BIP 9, period by period.  The states
    are computed backwards over the block index and cached; the caches agree with
    the state defined by recursion over the periods.  The member [nVersion] of the
    index entries, which only this component reads, is a second map. *)

From Stdlib Require Import ZArith Lia Bool String.
From stdpp Require Import base option numbers list gmap strings.
From S2P Require Import Prelude BaseUInt UInt256 BlockIndex Chain BlockChecks Lottery.

Open Scope Z_scope.
Open Scope outcome_scope.

Definition VERSIONBITS_TOP_BITS : Z := 0x20000000.
Definition VERSIONBITS_TOP_MASK : Z := - 0x20000000.
Definition ALWAYS_ACTIVE : Z := -1.
Definition MAX_VERSION_BITS_DEPLOYMENTS : nat := 1.
Definition MAXIMUM_SIMULTANEOUS_DEPLOYMENTS : Z := 29.

Inductive ThresholdState := DEFINED | STARTED | LOCKED_IN | ACTIVE | FAILED.

#[global] Instance ThresholdState_eq_dec : EqDecision ThresholdState.
Proof. solve_decision. Defined.

Record BIP9Deployment := mkDeployment { deploymentName : string; bit : Z; nStartTime : Z; nTimeout : Z; nPeriod : Z; threshold : Z }.

(** [ThresholdConditionCache]; the null pointer is a key too. *)
Abbreviation ThresholdConditionCache := (gmap (option ptr) ThresholdState).

Section Checker.
Variable heap : index_heap.
Variable nVersion : ptr -> Z.
Variable bip : BIP9Deployment.

Definition Mask : Z := u32 (Z.shiftl 1 (bit bip)).

(** [Condition] and [bipIsSignaledFor] *)
Definition Condition (pindex : ptr) : bool :=
  (Z.land (nVersion pindex) VERSIONBITS_TOP_MASK =? VERSIONBITS_TOP_BITS) && negb (Z.land (nVersion pindex) Mask =? 0).

(** [x % nPeriod]; division by zero is undefined. *)
Definition rem_period (x : Z) : io Z := oassert (negb (nPeriod bip =? 0)) ;;; Ret (Z.rem x (nPeriod bip)).

(** The last block of the period before that of the block after [pindexPrev]. *)
Definition period_end (pindexPrev : option ptr) : io (option ptr) :=
  match pindexPrev with
  | None => Ret None
  | Some p =>
      let* b := deref heap (Some p) in
      let* r := rem_period (nHeight b + 1) in
      GetAncestor heap (Some p) (nHeight b - r)
  end.

(** [while (cache.count(pindexPrev) == 0)]; [vToCompute] from its back. *)
Fixpoint walk_back (fuel : nat) (pindexPrev : option ptr) (cache : ThresholdConditionCache) (vToCompute : list ptr) :
    io (option ptr * ThresholdConditionCache * list ptr) :=
  match cache !! pindexPrev with
  | Some _ => Ret (pindexPrev, cache, vToCompute)
  | None =>
      match pindexPrev with
      | None => Ret (None, <[None := DEFINED]> cache, vToCompute)
      | Some p =>
          let* m := GetMedianTimePast heap p in
          if m <? nStartTime bip then Ret (Some p, <[Some p := DEFINED]> cache, vToCompute)
          else
            match fuel with
            | O => Undef
            | S fuel =>
                let* b := deref heap (Some p) in
                let* q := GetAncestor heap (Some p) (nHeight b - nPeriod bip) in
                walk_back fuel q cache (p :: vToCompute)
            end
      end
  end.

(** [for (int i = 0; i < nPeriod; i++)] *)
Fixpoint count_signals (rounds : nat) (pindexCount : option ptr) (count : Z) : io Z :=
  match rounds with
  | O => Ret count
  | S rounds =>
      let* p := oaccess pindexCount in
      let count := if Condition p then count + 1 else count in
      let* b := deref heap pindexCount in
      count_signals rounds (pprev b) count
  end.

Definition next_state (state : ThresholdState) (pindexPrev : ptr) : io ThresholdState :=
  match state with
  | DEFINED =>
      let* m := GetMedianTimePast heap pindexPrev in
      Ret (if m >=? nTimeout bip then FAILED else if m >=? nStartTime bip then STARTED else state)
  | STARTED =>
      let* m := GetMedianTimePast heap pindexPrev in
      if m >=? nTimeout bip then Ret FAILED
      else
        let* count := count_signals (Z.to_nat (nPeriod bip)) (Some pindexPrev) 0 in
        Ret (if count >=? threshold bip then LOCKED_IN else state)
  | LOCKED_IN => Ret ACTIVE
  | FAILED | ACTIVE => Ret state
  end.

(** [while (!vToCompute.empty())] *)
Fixpoint walk_forward (vToCompute : list ptr) (state : ThresholdState) (cache : ThresholdConditionCache) : io (ThresholdState * ThresholdConditionCache) :=
  match vToCompute with
  | [] => Ret (state, cache)
  | p :: vToCompute =>
      let* stateNext := next_state state p in
      walk_forward vToCompute stateNext (<[Some p := stateNext]> cache)
  end.

(** The walk goes down by a positive number of blocks in every round. *)
Definition walk_fuel (p : option ptr) : nat := match p ≫= (fun p => heap !! p) with Some b => S (Z.to_nat (nHeight b)) | None => 1%nat end.

Definition UpdateCacheState (pindexPrev : option ptr) (cache : ThresholdConditionCache) : io (ThresholdState * ThresholdConditionCache) :=
  if nStartTime bip =? ALWAYS_ACTIVE then Ret (ACTIVE, cache) else
  let* pindexPrev := period_end pindexPrev in
  let* '(known, cache, vToCompute) := walk_back (walk_fuel pindexPrev) pindexPrev cache [] in
  let* state := oaccess (cache !! known) in
  walk_forward vToCompute state cache.

(** [while (previousPeriodParent != nullptr && UpdateCacheState(...) == initialState)] *)
Fixpoint back_to_change (fuel : nat) (pindexPrev : ptr) (initialState : ThresholdState) (cache : ThresholdConditionCache) : io (ptr * ThresholdConditionCache) :=
  let* b := deref heap (Some pindexPrev) in
  let* previousPeriodParent := GetAncestor heap (Some pindexPrev) (nHeight b - nPeriod bip) in
  match previousPeriodParent with
  | None => Ret (pindexPrev, cache)
  | Some q =>
      let* '(state, cache) := UpdateCacheState (Some q) cache in
      if negb (bool_decide (state = initialState)) then Ret (pindexPrev, cache) else
      match fuel with O => Undef | S fuel => back_to_change fuel q initialState cache end
  end.

Definition StartingHeightOfBlockIndexState (pindexPrev : option ptr) (cache : ThresholdConditionCache) : io (Z * ThresholdConditionCache) :=
  if nStartTime bip =? ALWAYS_ACTIVE then Ret (0, cache) else
  let* '(initialState, cache) := UpdateCacheState pindexPrev cache in
  if bool_decide (initialState = DEFINED) then Ret (0, cache) else
  let* p := oaccess pindexPrev in
  let* e := period_end (Some p) in
  let* e := oaccess e in
  let* '(q, cache) := back_to_change (walk_fuel (Some e)) e initialState cache in
  let* b := deref heap (Some q) in
  Ret (nHeight b + 1, cache).

(** ** The statistics of the current period *)

Record BIP9Stats := mkStats { st_period : Z; st_threshold : Z; st_elapsed : Z; st_count : Z; st_possible : bool }.

Fixpoint count_elapsed (fuel : nat) (endHeight : Z) (currentIndex : option ptr) (count : Z) : io Z :=
  let* b := deref heap currentIndex in
  if endHeight =? nHeight b then Ret count else
  match fuel with
  | O => Undef
  | S fuel =>
      let* p := oaccess currentIndex in
      count_elapsed fuel endHeight (pprev b) (if Condition p then count + 1 else count)
  end.

Definition GetStateStatisticsFor (pindex : option ptr) : io BIP9Stats :=
  match pindex with
  | None => Ret (mkStats (nPeriod bip) (threshold bip) 0 0 false)
  | Some p =>
      let* b := deref heap (Some p) in
      let* endOfPrev := period_end (Some p) in
      let* e := deref heap endOfPrev in
      let elapsed := nHeight b - nHeight e in
      let* count := count_elapsed (Z.to_nat elapsed) (nHeight e) (Some p) 0 in
      Ret (mkStats (nPeriod bip) (threshold bip) elapsed count (nPeriod bip - threshold bip >=? elapsed - count))
  end.

(** ** The states by recursion over the periods *)

(** How many of the [n] blocks up to [p] signal. *)
Definition signals (n : nat) (p : ptr) : nat :=
  length (List.filter (fun k => match up heap k p with Some q => Condition q | None => false end) (seq 0 n)).
Definition locked (p : ptr) : bool := Z.of_nat (signals (Z.to_nat (nPeriod bip)) p) >=? threshold bip.

Definition median_of (p : ptr) : Z := match GetMedianTimePast heap p with Ret m => m | _ => 0 end.

(** BIP 9: the state after a period that ends with [p], from the state before. *)
Definition transition (state : ThresholdState) (p : ptr) : ThresholdState :=
  match state with
  | DEFINED => if median_of p >=? nTimeout bip then FAILED else if median_of p >=? nStartTime bip then STARTED else DEFINED
  | STARTED => if median_of p >=? nTimeout bip then FAILED else if locked p then LOCKED_IN else STARTED
  | LOCKED_IN => ACTIVE
  | ACTIVE => ACTIVE
  | FAILED => FAILED
  end.
End Checker.

(** One block of every period, the one [off] blocks after its first, decides the
    state from that of the period before; the first period starts as [DEFINED]. *)
Section Periods.
Variable heap : index_heap.
Variable P off : Z.
Variable step : ThresholdState -> ptr -> ThresholdState.

Fixpoint state_at (i : nat) (p : ptr) : ThresholdState :=
  step match i with
       | O => DEFINED
       | S j => match ancestor heap p (Z.of_nat j * P + off) with Some q => state_at j q | None => DEFINED end
       end p.

Definition state_of (p : option ptr) : ThresholdState :=
  match p with
  | None => DEFINED
  | Some p => match heap !! p with Some b => state_at (Z.to_nat (nHeight b / P)) p | None => DEFINED end
  end.

(** The deciding block of the period [i]. *)
Definition point (i : Z) (p : ptr) : Prop := 0 <= i /\ at_height heap p (i * P + off).
Definition is_point (p : option ptr) : Prop := match p with None => True | Some p => exists i, point i p end.
Definition prior (p : ptr) : option ptr := b ← heap !! p; ancestor heap p (nHeight b - P).

Hypothesis Hok : index_ok heap.
Hypothesis HP : 0 < P.
Hypothesis Hoff : 0 <= off < P.

Lemma point_height i p : point i p -> exists b, heap !! p = Some b /\ nHeight b = i * P + off /\ 0 <= i.
Proof. intros [Hi (b & Hb & Hh)]. by exists b. Qed.

Lemma prior_point i p : point i p -> (i = 0 /\ prior p = None) \/ (0 < i /\ exists q, prior p = Some q /\ point (i - 1) q).
Proof using Hok HP Hoff.
  intros Hp. destruct (point_height i p Hp) as (b & Hb & Hh & Hi). unfold prior. rewrite Hb. cbn [mbind option_bind].
  destruct (decide (i = 0)) as [->|Hne].
  - left. split; [done|]. apply (ancestor_None heap p (nHeight b)); [by exists b | left; lia].
  - right. split; [lia|]. destruct (ancestor_spec heap Hok p (nHeight b) (nHeight b - P)) as (q & -> & Hq & _); [by exists b | nia|].
    exists q. split; [done|]. split; [lia|]. replace ((i - 1) * P + off) with (nHeight b - P) by lia. done.
Qed.

Lemma prior_is_point p : is_point (Some p) -> is_point (prior p).
Proof using Hok HP Hoff. intros [i Hp]. destruct (prior_point i p Hp) as [[_ ->]|(_ & q & -> & Hq)]; [done|]. by exists (i - 1). Qed.

Lemma state_step p : is_point (Some p) -> state_of (Some p) = step (state_of (prior p)) p.
Proof using Hok HP Hoff.
  intros [i Hp]. destruct (point_height i p Hp) as (b & Hb & Hh & Hi). cbn [state_of]. rewrite Hb.
  assert (nHeight b / P = i) as -> by (rewrite Hh, Z.div_add_l, (Z.div_small off) by lia; lia).
  destruct (prior_point i p Hp) as [[-> ->]|(H0 & q & Eq & Hq)]; [done|]. rewrite Eq.
  destruct (point_height _ _ Hq) as (c & Hc & Hhc & _). cbn [state_of]. rewrite Hc.
  assert (nHeight c / P = i - 1) as -> by (rewrite Hhc, Z.div_add_l, (Z.div_small off) by lia; lia).
  destruct (Z.to_nat i) as [|j] eqn:Ej; [lia|]. cbn [state_at]. unfold prior in Eq. rewrite Hb in Eq. cbn [mbind option_bind] in Eq.
  replace (Z.of_nat j * P + off) with (nHeight b - P) by nia. rewrite Eq. by replace (Z.to_nat (i - 1)) with j by lia.
Qed.

(** Induction from the first period on. *)
Lemma point_ind (Q : option ptr -> Prop) : Q None -> (forall p, is_point (Some p) -> Q (prior p) -> Q (Some p)) -> forall p, is_point p -> Q p.
Proof using Hok HP Hoff.
  intros H0 Hs [p|] Hp; [|done]. destruct Hp as [i Hp]. assert (0 <= i) as Hi by apply Hp. revert p Hp.
  refine (Zlt_0_ind (fun i => forall p, point i p -> Q (Some p)) _ i Hi). clear i Hi. intros i IH _ p Hp.
  apply Hs; [by exists i|]. destruct (prior_point i p Hp) as [[_ ->]|(Hi & q & -> & Hq)]; [done|]. apply (IH (i - 1)); [lia | done].
Qed.

(** ** Caches *)

Definition sound (cache : ThresholdConditionCache) : Prop := forall p s, cache !! p = Some s -> is_point p /\ state_of p = s.

Lemma sound_insert cache p s : sound cache -> is_point p -> state_of p = s -> sound (<[p := s]> cache).
Proof. intros Hs Hp <- q t Hq. apply lookup_insert_Some in Hq as [[<- <-]|[_ Hq]]; [done|]. by apply Hs. Qed.

Lemma sound_empty : sound ∅.
Proof. intros p s Hp. by rewrite lookup_empty in Hp. Qed.

(** The blocks between a known one and the one asked for, the earliest first. *)
Fixpoint pending (p : option ptr) (l : list ptr) : Prop :=
  match l with
  | [] => True
  | q :: l => is_point (Some q) /\ prior q = p /\ pending (Some q) l
  end.
Definition reached_end (p : option ptr) (l : list ptr) : option ptr := List.fold_left (fun _ q => Some q) l p.

Lemma target_cons p q l : reached_end p (q :: l) = reached_end (Some q) l.
Proof. done. Qed.
End Periods.

(** The state of a block whose parent is [p], that of the last complete period
    of its branch. *)
Definition last_end (heap : index_heap) (bip : BIP9Deployment) (p : option ptr) : option ptr :=
  p ← p; b ← heap !! p; ancestor heap p ((nHeight b + 1) / nPeriod bip * nPeriod bip - 1).
Definition bip9_state (heap : index_heap) (nVersion : ptr -> Z) (bip : BIP9Deployment) (p : option ptr) : ThresholdState :=
  state_of heap (nPeriod bip) (nPeriod bip - 1) (transition heap nVersion bip) (last_end heap bip p).

Section Early.
Variable heap : index_heap.
Variable P off start : Z.
Variable step : ThresholdState -> ptr -> ThresholdState.
Hypothesis Hok : index_ok heap.
Hypothesis Htimely : headers_timely heap.
Hypothesis HP : 0 < P.
Hypothesis Hoff : 0 <= off < P.
Hypothesis Hstep : forall p, median_of heap p < start -> step DEFINED p = DEFINED.

Lemma median_returns p h : at_height heap p h -> GetMedianTimePast heap p = Ret (median_of heap p).
Proof. intros (b & Hb & _). unfold median_of. by destruct (median_time_of heap Hok p b Hb) as (_ & m & _ & _ & ->). Qed.

Lemma median_of_ancestor p h k q : at_height heap p h -> ancestor heap p k = Some q -> median_of heap q <= median_of heap p.
Proof.
  intros (b & Hb & _) Hq. unfold median_of. by destruct (median_ancestor heap p b k q Hok Htimely Hb Hq) as (m & m' & -> & -> & Hle).
Qed.

(** No period that ends before the start time is a started one. *)
Lemma early_defined p : is_point heap P off p -> match p with Some q => median_of heap q < start | None => True end -> state_of heap P off step p = DEFINED.
Proof.
  revert p. refine (point_ind heap P off Hok HP Hoff
    (fun p => match p with Some q => median_of heap q < start | None => True end -> state_of heap P off step p = DEFINED) _ _); [done|].
  intros p Hp IH Hm. rewrite (state_step heap P off step Hok HP Hoff p Hp), IH; [by apply Hstep|].
  destruct Hp as [i Hp]. destruct (prior_point heap P off Hok HP Hoff i p Hp) as [[_ ->]|(Hi & q & Eq & Hq)]; [done|]. rewrite Eq.
  destruct (point_height heap P off i p Hp) as (b & Hb & Hh & _). unfold prior in Eq. rewrite Hb in Eq. cbn [mbind option_bind] in Eq.
  pose proof (median_of_ancestor p (nHeight b) _ q (ex_intro _ b (conj Hb eq_refl)) Eq). lia.
Qed.
End Early.

(** ** Counting signals *)

Lemma filter_shift (f : nat -> bool) l : length (List.filter f (List.map S l)) = length (List.filter (fun k => f (S k)) l).
Proof. induction l as [|k l IH]; [done|]. cbn [List.map List.filter]. destruct (f (S k)); cbn [length]; by rewrite IH. Qed.

Lemma signals_S heap nVersion bip n p b : heap !! p = Some b ->
  signals heap nVersion bip (S n) p = ((if Condition nVersion bip p then 1 else 0) + match pprev b with Some q => signals heap nVersion bip n q | None => 0 end)%nat.
Proof.
  intros Hb. unfold signals. cbn [seq List.filter up]. rewrite <- seq_shift.
  assert (forall f : nat -> bool, (forall k, f (S k) = match pprev b with Some q => match up heap k q with Some x => Condition nVersion bip x | None => false end | None => false end) ->
    length (List.filter f (List.map S (seq 0 n))) = match pprev b with Some q => signals heap nVersion bip n q | None => 0%nat end) as Hf.
  { intros f Hf. rewrite filter_shift. destruct (pprev b) as [q|].
    - unfold signals. f_equal. apply List.filter_ext. intros k. by rewrite Hf.
    - assert (forall l, List.filter (fun k => f (S k)) l = []) as ->; [|done]. intros l. induction l as [|k l IH]; [done|]. cbn [List.filter]. by rewrite Hf. }
  specialize (Hf (fun k => match up heap k p with Some q => Condition nVersion bip q | None => false end)).
  unfold signals in Hf. destruct (Condition nVersion bip p); cbn [length]; rewrite Hf; try done; intros k; cbn [up]; rewrite Hb; cbn [mbind option_bind]; by destruct (pprev b).
Qed.

Lemma signals_bound heap nVersion bip n p : (signals heap nVersion bip n p <= n)%nat.
Proof. unfold signals. etransitivity; [apply List.filter_length_le|]. by rewrite length_seq. Qed.

(** The loop counts the signals of the blocks it visits, if there are as many. *)
Lemma count_signals_spec heap nVersion bip n : index_ok heap -> forall p h c, at_height heap p h -> Z.of_nat n <= h + 1 ->
  count_signals heap nVersion bip n (Some p) c = Ret (c + Z.of_nat (signals heap nVersion bip n p)).
Proof.
  intros Hok. induction n as [|n IH]; intros p h c (b & Hb & Hh) Hn; [cbn; f_equal; lia|].
  cbn [count_signals oaccess obind]. unfold deref. cbn [oaccess obind]. rewrite Hb. cbn [oaccess obind]. rewrite (signals_S _ _ _ _ _ _ Hb).
  destruct (Hok p b Hb) as [_ Hp _]. destruct (pprev b) as [q|].
  - rewrite (IH q (h - 1)); [f_equal; destruct (Condition nVersion bip p); lia | destruct Hp as (d & Hd & Hhd); exists d; split; [done | lia] | lia].
  - destruct n; [|lia]. cbn [count_signals]. f_equal. destruct (Condition nVersion bip p); lia.
Qed.

(** * The checker computes the states of BIP 9 *)

Section CheckerCorrect.
Variable heap : index_heap.
Variable nVersion : ptr -> Z.
Variable bip : BIP9Deployment.
Hypothesis Hok : index_ok heap.
Hypothesis Htimely : headers_timely heap.
Hypothesis HP : 0 < nPeriod bip.
Hypothesis Htimes : nStartTime bip <= nTimeout bip.

Abbreviation off := (nPeriod bip - 1).
Abbreviation step := (transition heap nVersion bip).
Abbreviation state := (state_of heap (nPeriod bip) off step).
Abbreviation is_end := (is_point heap (nPeriod bip) off).
Abbreviation sound := (sound heap (nPeriod bip) off step).
Abbreviation pending := (pending heap (nPeriod bip) off).

Lemma end_off : 0 <= off < nPeriod bip.
Proof using HP. lia. Qed.

Lemma end_height p : is_end (Some p) -> exists b, heap !! p = Some b /\ nPeriod bip - 1 <= nHeight b /\ (nHeight b + 1) mod nPeriod bip = 0.
Proof.
  intros [i Hp]. destruct (point_height _ _ _ i p Hp) as (b & Hb & Hh & Hi). exists b. split; [done|]. split; [nia|].
  rewrite Hh. replace (i * nPeriod bip + off + 1) with ((i + 1) * nPeriod bip) by lia. by apply Z.mod_mul, Z.neq_sym, Z.lt_neq.
Qed.

Lemma median_end p : is_end (Some p) -> GetMedianTimePast heap p = Ret (median_of heap p).
Proof. intros Hp. destruct (end_height p Hp) as (b & Hb & _). apply (median_returns heap Hok p (nHeight b)). by exists b. Qed.

(** [GetAncestor(nHeight - nPeriod)] *)
Lemma end_prior_ancestor p b : heap !! p = Some b -> GetAncestor heap (Some p) (nHeight b - nPeriod bip) = Ret (prior heap (nPeriod bip) p).
Proof.
  intros Hb. rewrite (GetAncestor_spec heap Hok p (nHeight b)) by (by exists b). unfold prior. by rewrite Hb.
Qed.

Lemma walk_back_spec fuel : forall p cache l, sound cache -> is_end p -> pending p l ->
  match p with Some q => forall b, heap !! q = Some b -> nHeight b < Z.of_nat fuel | None => True end ->
  exists q cache' l', walk_back heap bip fuel p cache l = Ret (q, cache', l') /\ sound cache' /\ cache ⊆ cache' /\
    is_end q /\ pending q l' /\ cache' !! q = Some (state q) /\ reached_end q l' = reached_end p l.
Proof.
  induction fuel as [|fuel IH]; intros p cache l Hs Hp Hl Hf.
  all: cbn [walk_back]; destruct (cache !! p) as [s|] eqn:Ec;
    [destruct (Hs p s Ec) as [_ <-]; exists p, cache, l; done|].
  all: destruct p as [p|];
    [|exists None, (<[None := DEFINED]> cache), l; split_and!; try done; [by apply sound_insert | by apply insert_subseteq | by rewrite lookup_insert_eq]].
  all: rewrite (median_end p Hp); cbn [obind]; destruct (Z.ltb_spec (median_of heap p) (nStartTime bip)) as [Hm|Hm];
    [assert (state (Some p) = DEFINED) as Hd by
       (apply (early_defined heap (nPeriod bip) off (nStartTime bip) step Hok Htimely HP end_off); [|done..];
        intros q Hq; cbn [transition]; rewrite !Z.geb_leb, !(proj2 (Z.leb_gt _ _)) by lia; done);
     exists (Some p), (<[Some p := DEFINED]> cache), l; split_and!; try done;
       [by apply sound_insert | by apply insert_subseteq | rewrite lookup_insert_eq; by rewrite Hd]|].
  all: destruct (end_height p Hp) as (b & Hb & Hh & _); specialize (Hf b Hb).
  1: lia.
  unfold deref. cbn [oaccess obind]. rewrite Hb. cbn [oaccess obind]. rewrite (end_prior_ancestor p b Hb). cbn [obind].
  destruct (IH (prior heap (nPeriod bip) p) cache (p :: l)) as (q & cache' & l' & E & H); try done.
  - by apply (prior_is_point heap _ off Hok HP end_off).
  - destruct (prior heap (nPeriod bip) p) as [q|] eqn:Eq; [|done]. intros c Hc. unfold prior in Eq. rewrite Hb in Eq. cbn [mbind option_bind] in Eq.
    pose proof (ancestor_range heap p (nHeight b) _ q (ex_intro _ b (conj Hb eq_refl)) Eq) as Hr.
    destruct (ancestor_spec heap Hok p (nHeight b) _ (ex_intro _ b (conj Hb eq_refl)) Hr) as (q' & E & (c' & Hc' & Hh') & _). rewrite Eq in E. injection E as <-.
    rewrite Hc in Hc'. injection Hc' as <-. lia.
  - rewrite E. by exists q, cache', l'.
Qed.

Lemma next_state_spec s p : is_end (Some p) -> next_state heap nVersion bip s p = Ret (step s p).
Proof using Hok HP.
  intros Hp. pose proof (median_end p Hp) as Em. destruct (end_height p Hp) as (b & Hb & Hh & _).
  destruct s; cbn [next_state transition]; try done; rewrite Em; cbn [obind]; [done|].
  destruct (_ >=? _); [done|]. rewrite (count_signals_spec _ _ _ _ Hok p (nHeight b)); [done | by exists b | lia].
Qed.

Lemma walk_forward_spec l : forall p cache, sound cache -> is_end p -> pending p l ->
  exists cache', walk_forward heap nVersion bip l (state p) cache = Ret (state (reached_end p l), cache') /\ sound cache' /\ forall q s, cache !! q = Some s -> cache' !! q = Some s.
Proof using Hok HP.
  induction l as [|q l IH]; intros p cache Hs Hp Hl; [by exists cache|]. destruct Hl as (Hq & <- & Hl).
  cbn [walk_forward]. rewrite (next_state_spec _ _ Hq). cbn [obind].
  rewrite <- (state_step heap (nPeriod bip) off step Hok HP end_off q Hq).
  destruct (IH (Some q) (<[Some q := state (Some q)]> cache)) as (cache' & E & Hs' & Hle); [by apply sound_insert | done | done|].
  exists cache'. split; [exact E|]. split; [done|]. intros r s Hr. apply Hle. destruct (decide (r = Some q)) as [->|Hne].
  - rewrite lookup_insert_eq. by destruct (Hs _ _ Hr) as [_ <-].
  - by rewrite lookup_insert_ne.
Qed.

Lemma period_end_spec p h : at_height heap p h -> period_end heap bip (Some p) = Ret (last_end heap bip (Some p)).
Proof using Hok HP.
  intros (b & Hb & Hh). cbn [period_end]. unfold deref, rem_period. cbn [oaccess obind]. rewrite Hb. cbn [oaccess obind].
  assert (0 <= nHeight b) by (apply (at_height_nonneg heap Hok p); by exists b).
  rewrite (proj2 (Z.eqb_neq (nPeriod bip) 0)) by lia. cbn [negb oassert obind]. rewrite (GetAncestor_spec heap Hok p (nHeight b)) by (by exists b).
  cbn [last_end mbind option_bind]. rewrite Hb. cbn [mbind option_bind]. f_equal. f_equal. rewrite Z.rem_mod_nonneg by lia.
  pose proof (Z.div_mod (nHeight b + 1) (nPeriod bip) ltac:(lia)). lia.
Qed.

Lemma last_end_point p : known_or_null heap p -> is_end (last_end heap bip p).
Proof using Hok HP.
  destruct p as [p|]; [|done]. intros [b Hb]. cbn [last_end mbind option_bind]. rewrite Hb. cbn [mbind option_bind].
  assert (0 <= nHeight b) by (apply (at_height_nonneg heap Hok p); by exists b).
  destruct (decide (nHeight b + 1 < nPeriod bip)) as [Hlt|Hge].
  - rewrite Z.div_small by lia. rewrite (ancestor_None heap p (nHeight b)); [done | by exists b | left; lia].
  - pose proof (Z.div_mod (nHeight b + 1) (nPeriod bip) ltac:(lia)). pose proof (Z.mod_pos_bound (nHeight b + 1) (nPeriod bip) HP).
    assert (1 <= (nHeight b + 1) / nPeriod bip) by (apply Z.div_le_lower_bound; lia).
    destruct (ancestor_spec heap Hok p (nHeight b) ((nHeight b + 1) / nPeriod bip * nPeriod bip - 1)) as (q & -> & Hq & _); [by exists b | nia|].
    exists ((nHeight b + 1) / nPeriod bip - 1). split; [lia|]. replace (_ * nPeriod bip + off) with ((nHeight b + 1) / nPeriod bip * nPeriod bip - 1) by lia. done.
Qed.

(** [UpdateCacheState] on a cache of true states. *)
Lemma UpdateCacheState_spec p cache : nStartTime bip <> ALWAYS_ACTIVE -> known_or_null heap p -> sound cache ->
  exists cache', UpdateCacheState heap nVersion bip p cache = Ret (bip9_state heap nVersion bip p, cache') /\ sound cache'.
Proof.
  intros Ha Hp Hs. pose proof (last_end_point p Hp) as He. unfold UpdateCacheState. rewrite (proj2 (Z.eqb_neq _ _) Ha).
  assert (period_end heap bip p = Ret (last_end heap bip p)) as ->.
  { destruct p as [p|]; [|done]. destruct Hp as [b Hb]. apply (period_end_spec p (nHeight b)). by exists b. }
  cbn [obind]. destruct (walk_back_spec (walk_fuel heap (last_end heap bip p)) (last_end heap bip p) cache [] Hs He I) as (q & c1 & l & -> & Hs1 & _ & Hq & Hl & Hk & Ht).
  { destruct (last_end heap bip p) as [e|] eqn:Ee; [|done]. intros b Hb. unfold walk_fuel. cbn [mbind option_bind]. rewrite Hb.
    destruct (end_height e He) as (b' & Hb' & Hh & _). rewrite Hb in Hb'. injection Hb' as <-. lia. }
  cbn [obind]. rewrite Hk. cbn [oaccess obind]. destruct (walk_forward_spec l q c1 Hs1 Hq Hl) as (c2 & -> & Hs2 & _).
  exists c2. rewrite Ht. done.
Qed.

(** ** The states along a branch *)

Section Branch.
Variable p : ptr.
Variable h : Z.
Hypothesis Hp : at_height heap p h.

(** The last block of the period [i], counted from one, and the state after it. *)
Definition end_of (i : Z) : option ptr := ancestor heap p (i * nPeriod bip - 1).
Definition state_in (i : Z) : ThresholdState := state (end_of i).

Lemma end_of_point i : 1 <= i -> i * nPeriod bip - 1 <= h ->
  exists q, end_of i = Some q /\ is_end (Some q) /\ at_height heap q (i * nPeriod bip - 1) /\ prior heap (nPeriod bip) q = end_of (i - 1).
Proof using Hok HP Hp.
  intros Hi Hh. destruct (ancestor_spec heap Hok p h (i * nPeriod bip - 1) Hp) as (q & Eq & Hq & _); [nia|]. exists q. split; [done|].
  split; [exists (i - 1); split; [lia|]; by replace ((i - 1) * nPeriod bip + off) with (i * nPeriod bip - 1) by lia|]. split; [done|].
  destruct Hq as (b & Hb & Hhb). unfold prior. rewrite Hb. cbn [mbind option_bind]. rewrite Hhb. unfold end_of.
  replace ((i - 1) * nPeriod bip - 1) with (i * nPeriod bip - 1 - nPeriod bip) by lia. destruct (decide (i = 1)) as [->|Hne].
  - rewrite (ancestor_None heap p h) by (done || lia). apply (ancestor_None heap q (nHeight b)); [by exists b | lia].
  - apply (ancestor_trans heap Hok p h q (i * nPeriod bip - 1)); (done || nia).
Qed.

Lemma state_in_first : state_in 0 = DEFINED.
Proof using Hok Hp. unfold state_in, end_of. rewrite (ancestor_None heap p h); [done..|]. by left. Qed.

Lemma state_in_step i : 1 <= i -> i * nPeriod bip - 1 <= h -> exists q, end_of i = Some q /\ state_in i = step (state_in (i - 1)) q.
Proof using Hok HP Hp.
  intros Hi Hh. destruct (end_of_point i Hi Hh) as (q & Eq & Hq & _ & Hpr). exists q. split; [done|]. unfold state_in. rewrite Eq, <- Hpr.
  by apply (state_step heap (nPeriod bip) off step Hok HP end_off).
Qed.

(** The state of the child of the block at a height. *)
Lemma bip9_state_in k : -1 <= k <= h -> bip9_state heap nVersion bip (ancestor heap p k) = state_in ((k + 1) / nPeriod bip).
Proof using Hok HP Hp.
  intros Hk. unfold bip9_state, state_in, end_of. f_equal. destruct (decide (k = -1)) as [->|Hne].
  - rewrite (ancestor_None heap p h) by (done || lia). cbn [last_end mbind option_bind]. rewrite Z.div_small by lia.
    by rewrite (ancestor_None heap p h) by (done || lia).
  - destruct (ancestor_spec heap Hok p h k Hp) as (q & Eq & (b & Hb & Hhb) & _); [lia|]. rewrite Eq. cbn [last_end mbind option_bind]. rewrite Hb. cbn [mbind option_bind]. rewrite Hhb.
    pose proof (Z.div_mod (k + 1) (nPeriod bip) ltac:(lia)). pose proof (Z.mod_pos_bound (k + 1) (nPeriod bip) HP).
    destruct (decide (k + 1 < nPeriod bip)) as [Hlt|Hge].
    + rewrite Z.div_small by lia. rewrite (ancestor_None heap p h), (ancestor_None heap q k); [done | by exists b | lia | done | lia].
    + assert (1 <= (k + 1) / nPeriod bip) by (apply Z.div_le_lower_bound; lia).
      apply (ancestor_trans heap Hok p h q k); [done | nia | lia | done].
Qed.

(** Nothing leaves a final state. *)
Lemma final_stays i j : 0 <= i <= j -> j * nPeriod bip - 1 <= h -> state_in i = ACTIVE \/ state_in i = FAILED -> state_in j = state_in i.
Proof using Hok HP Hp.
  intros Hij Hj Hf. assert (forall n, i + Z.of_nat n <= j -> state_in (i + Z.of_nat n) = state_in i) as Hn.
  { induction n as [|n IH]; intros Hn; [by rewrite Z.add_0_r|]. destruct (state_in_step (i + Z.of_nat (S n))) as (q & _ & ->); [lia | nia|].
    replace (i + Z.of_nat (S n) - 1) with (i + Z.of_nat n) by lia. rewrite IH by lia. destruct Hf as [E|E]; rewrite E; done. }
  specialize (Hn (Z.to_nat (j - i))). rewrite Z2Nat.id in Hn by lia. replace (i + (j - i)) with j in Hn by lia. apply Hn. lia.
Qed.

Lemma end_median i j q r : 1 <= i <= j -> j * nPeriod bip - 1 <= h -> end_of i = Some q -> end_of j = Some r -> median_of heap q <= median_of heap r.
Proof using Hok HP Hp Htimely.
  intros Hij Hj Hq Hr. destruct (end_of_point j) as (r' & E & _ & Hhr & _); [lia..|]. rewrite Hr in E. injection E as <-.
  apply (median_of_ancestor heap Hok Htimely r (j * nPeriod bip - 1) (i * nPeriod bip - 1)); [done|].
  rewrite <- Hq. unfold end_of. apply (ancestor_trans heap Hok p h r (j * nPeriod bip - 1)); (done || nia).
Qed.

(** The state tells what the ends of periods passed. *)
Definition reached (i : Z) : Prop :=
  match state_in i with
  | STARTED => exists q, 1 <= i /\ end_of i = Some q /\ nStartTime bip <= median_of heap q
  | LOCKED_IN => exists q, 1 <= i /\ end_of i = Some q /\ nStartTime bip <= median_of heap q < nTimeout bip /\ threshold bip <= Z.of_nat (signals heap nVersion bip (Z.to_nat (nPeriod bip)) q)
  | ACTIVE => exists j q, 1 <= j < i /\ end_of j = Some q /\ nStartTime bip <= median_of heap q < nTimeout bip /\ threshold bip <= Z.of_nat (signals heap nVersion bip (Z.to_nat (nPeriod bip)) q)
  | _ => True
  end.

Lemma reached_at n : Z.of_nat n * nPeriod bip - 1 <= h -> reached (Z.of_nat n).
Proof using Hok HP Hp Htimely.
  induction n as [|n IH]; intros Hn; [unfold reached; change (Z.of_nat 0) with 0; by rewrite state_in_first|].
  destruct (state_in_step (Z.of_nat (S n))) as (q & Eq & E); [lia..|]. specialize (IH ltac:(nia)). replace (Z.of_nat (S n) - 1) with (Z.of_nat n) in E by lia.
  unfold reached in *. rewrite E. destruct (state_in (Z.of_nat n)); cbn [transition]; try done.
  - destruct (Z.geb_spec (median_of heap q) (nTimeout bip)); [done|]. destruct (Z.geb_spec (median_of heap q) (nStartTime bip)); [|done]. exists q. split; [lia | done].
  - destruct (Z.geb_spec (median_of heap q) (nTimeout bip)); [done|]. destruct IH as (r & Hr & Er & Hm).
    pose proof (end_median (Z.of_nat n) (Z.of_nat (S n)) r q ltac:(lia) Hn Er Eq) as Hle. unfold locked.
    destruct (Z.geb_spec (Z.of_nat (signals heap nVersion bip (Z.to_nat (nPeriod bip)) q)) (threshold bip)); exists q; (split; [lia|]); (split; [done|]); [|lia]. split; lia.
  - destruct IH as (r & Hr & H). exists (Z.of_nat n), r. split; [lia | done].
  - destruct IH as (j & r & Hr & H). exists j, r. split; [lia | done].
Qed.

Lemma back_to_change_spec fuel : forall i e cache, nStartTime bip <> ALWAYS_ACTIVE -> 1 <= i <= Z.of_nat fuel + 1 -> i * nPeriod bip - 1 <= h -> end_of i = Some e -> state_in i <> DEFINED -> sound cache ->
  exists j q cache', back_to_change heap nVersion bip fuel e (state_in i) cache = Ret (q, cache') /\ sound cache' /\ 1 <= j <= i /\ end_of j = Some q /\
    state_in (j - 1) <> state_in i /\ forall k, j <= k <= i -> state_in k = state_in i.
Proof using Hok HP Hp Htimely Htimes.
  induction fuel as [|fuel IH]; intros i e cache Ha Hi Hh He Hd Hs.
  all: destruct (end_of_point i) as (e' & Ee & _ & (b & Hb & Hhb) & Hpr); [lia..|]; rewrite He in Ee; injection Ee as <-.
  all: cbn [back_to_change]; unfold deref; cbn [oaccess obind]; rewrite Hb; cbn [oaccess obind]; rewrite (end_prior_ancestor e b Hb), Hpr; cbn [obind].
  all: destruct (decide (i = 1)) as [->|Hne].
  1, 3: replace (1 - 1) with 0 by lia; assert (end_of 0 = None) as -> by (apply (ancestor_None heap p h); (done || lia));
    exists 1, e, cache; split_and!; try done; [lia.. | change (1 - 1) with 0; rewrite state_in_first; congruence | intros k Hk; by replace k with 1 by lia].
  1: lia.
  destruct (end_of_point (i - 1)) as (q & Eq & _ & Hq & _); [lia | nia|]. rewrite Eq.
  destruct (UpdateCacheState_spec (Some q) cache Ha) as (c1 & -> & Hs1); [by destruct Hq as (d & Hd' & _); exists d | done|]. cbn [obind].
  assert (bip9_state heap nVersion bip (Some q) = state_in (i - 1)) as ->.
  { rewrite <- Eq. unfold end_of. rewrite (bip9_state_in ((i - 1) * nPeriod bip - 1)) by nia. f_equal.
    replace ((i - 1) * nPeriod bip - 1 + 1) with ((i - 1) * nPeriod bip) by lia. apply Z.div_mul. lia. }
  destruct (decide (state_in (i - 1) = state_in i)) as [Es|Es].
  - rewrite bool_decide_eq_true_2 by done. cbn [negb]. rewrite <- Es.
    destruct (IH (i - 1) q c1) as (j & r & c2 & E & Hs2 & Hj & Er & Hne' & Hall); try done; [lia | nia | by rewrite Es|].
    exists j, r, c2. split_and!; try done; [lia..|]. intros k Hk. destruct (decide (k = i)) as [->|]; [done|]. apply Hall. lia.
  - rewrite bool_decide_eq_false_2 by done. cbn [negb]. exists i, e, c1. split_and!; try done; [lia..|]. intros k Hk. by replace k with i by lia.
Qed.

Lemma StartingHeight_spec cache : nStartTime bip <> ALWAYS_ACTIVE -> sound cache ->
  exists h0 cache', StartingHeightOfBlockIndexState heap nVersion bip (Some p) cache = Ret (h0, cache') /\ sound cache' /\
    let s := bip9_state heap nVersion bip (Some p) in
    (s = DEFINED -> h0 = 0) /\
    (s <> DEFINED -> 0 < h0 <= h + 1 /\ bip9_state heap nVersion bip (ancestor heap p (h0 - 2)) <> s /\
       forall k, h0 - 1 <= k <= h -> bip9_state heap nVersion bip (ancestor heap p k) = s).
Proof using Hok HP Hp Htimely Htimes.
  intros Ha Hs. unfold StartingHeightOfBlockIndexState. rewrite (proj2 (Z.eqb_neq _ _) Ha).
  assert (known_or_null heap (Some p)) as Hkn by (destruct Hp as (b & Hb & _); by exists b).
  destruct (UpdateCacheState_spec (Some p) cache Ha Hkn Hs) as (c1 & -> & Hs1). cbn [obind].
  pose proof (at_height_nonneg heap Hok p h Hp) as H0. set (n := (h + 1) / nPeriod bip).
  assert (bip9_state heap nVersion bip (Some p) = state_in n) as Es by (rewrite <- (ancestor_self heap Hok p h Hp); apply bip9_state_in; lia).
  cbv zeta. rewrite Es. pose proof (Z.div_mod (h + 1) (nPeriod bip) ltac:(lia)) as Hdm. fold n in Hdm. pose proof (Z.mod_pos_bound (h + 1) (nPeriod bip) HP).
  destruct (decide (state_in n = DEFINED)) as [Ed|Ed].
  { rewrite bool_decide_eq_true_2 by done. exists 0, c1. split_and!; try done. }
  rewrite bool_decide_eq_false_2 by done. cbn [oaccess obind]. rewrite (period_end_spec p h Hp). cbn [obind].
  assert (1 <= n) as Hn.
  { destruct (decide (n = 0)) as [Hn|Hn]; [by rewrite Hn, state_in_first in Ed|]. assert (0 <= n) by (apply Z.div_pos; lia). lia. }
  destruct (end_of_point n Hn) as (e & Ee & Hpe & (b & Hb & Hhb) & _); [lia|].
  assert (last_end heap bip (Some p) = Some e) as ->.
  { destruct Hp as (d & Hd & Hhd). cbn [last_end mbind option_bind]. rewrite Hd. cbn [mbind option_bind]. rewrite Hhd. exact Ee. }
  cbn [oaccess obind]. destruct (back_to_change_spec (walk_fuel heap (Some e)) n e c1 Ha) as (j & q & c2 & E & Hs2 & Hj & Eq & Hne & Hall); try done.
  { unfold walk_fuel. cbn [mbind option_bind]. rewrite Hb. nia. }
  { lia. }
  rewrite E. cbn [obind]. destruct (end_of_point j) as (q' & Eq' & _ & (d & Hd & Hhd) & _); [lia | nia|]. rewrite Eq in Eq'. injection Eq' as <-.
  unfold deref. cbn [oaccess obind]. rewrite Hd. cbn [oaccess obind]. exists (nHeight d + 1), c2. rewrite Hhd.
  split; [done|]. split; [done|]. split; [done|]. intros _. split; [nia|]. split.
  - rewrite bip9_state_in by nia. replace ((_ + 1 - 2 + 1) / nPeriod bip) with (j - 1); [done|]. apply (Z.div_unique _ _ _ (nPeriod bip - 1)); lia.
  - intros k Hk. rewrite bip9_state_in by nia. apply Hall. split; [apply Z.div_le_lower_bound; lia | apply Z.div_le_mono; lia].
Qed.
End Branch.

(** C8: [UpdateCacheState] never fails on a tree of timely headers: from any
    cache of true states it returns the state that BIP 9 defines by recursion over
    the periods of the branch, and leaves such a cache; and
    [StartingHeightOfBlockIndexState] returns the height since when that state
    holds: the block below it has another state, all blocks from it on this one. *)
Theorem versionbits_correct p cache : nStartTime bip <> ALWAYS_ACTIVE -> known_or_null heap p -> sound cache ->
  (exists cache', UpdateCacheState heap nVersion bip p cache = Ret (bip9_state heap nVersion bip p, cache') /\ sound cache') /\
  (forall q h, p = Some q -> at_height heap q h ->
     exists h0 cache', StartingHeightOfBlockIndexState heap nVersion bip (Some q) cache = Ret (h0, cache') /\ sound cache' /\
       (bip9_state heap nVersion bip p = DEFINED -> h0 = 0) /\
       (bip9_state heap nVersion bip p <> DEFINED ->
          0 < h0 <= h + 1 /\ bip9_state heap nVersion bip (ancestor heap q (h0 - 2)) <> bip9_state heap nVersion bip p /\
          forall k, h0 - 1 <= k <= h -> bip9_state heap nVersion bip (ancestor heap q k) = bip9_state heap nVersion bip p)).
Proof.
  intros Ha Hp Hs. split; [by apply UpdateCacheState_spec|]. intros q h -> Hq. by destruct (StartingHeight_spec q h Hq cache Ha Hs) as (h0 & c & H); exists h0, c.
Qed.

(** A deployment is reported active only for a branch with a whole period of
    which at least [threshold] blocks signal and which ended, in median time, after
    the start and before the timeout, at least one period earlier; and then every
    later block of the branch finds it active, whatever the caches. *)
Theorem activation_locked_in p h cache cache' : nStartTime bip <> ALWAYS_ACTIVE -> at_height heap p h -> sound cache ->
  UpdateCacheState heap nVersion bip (Some p) cache = Ret (ACTIVE, cache') ->
  (exists q k, ancestor heap p k = Some q /\ k + nPeriod bip <= h /\ (k + 1) mod nPeriod bip = 0 /\ nStartTime bip <= median_of heap q < nTimeout bip /\
     threshold bip <= Z.of_nat (signals heap nVersion bip (Z.to_nat (nPeriod bip)) q)) /\
  (forall r hr cache2, at_height heap r hr -> ancestor heap r h = Some p -> sound cache2 ->
     exists cache3, UpdateCacheState heap nVersion bip (Some r) cache2 = Ret (ACTIVE, cache3) /\ sound cache3).
Proof.
  intros Ha Hp Hs E. assert (forall r hr, at_height heap r hr -> known_or_null heap (Some r)) as Hkn by (intros r hr (b & Hb & _); by exists b).
  pose proof (at_height_nonneg heap Hok p h Hp) as H0.
  destruct (UpdateCacheState_spec (Some p) cache Ha (Hkn p h Hp) Hs) as (c1 & E1 & _). rewrite E1 in E. injection E as Est _.
  pose proof (Z.div_mod (h + 1) (nPeriod bip) ltac:(lia)) as Hdm. pose proof (Z.mod_pos_bound (h + 1) (nPeriod bip) HP). pose proof (Z.div_pos (h + 1) (nPeriod bip) ltac:(lia) HP) as Hn.
  split.
  - rewrite <- (ancestor_self heap Hok p h Hp), (bip9_state_in p h Hp h) in Est by lia.
    pose proof (reached_at p h Hp (Z.to_nat ((h + 1) / nPeriod bip)) ltac:(rewrite Z2Nat.id; lia)) as Hr. rewrite Z2Nat.id in Hr by lia.
    unfold reached in Hr. rewrite Est in Hr. destruct Hr as (j & q & Hj & Eq & Hm & Hsig). exists q, (j * nPeriod bip - 1). split; [done|]. split; [nia|].
    split; [|done]. replace (j * nPeriod bip - 1 + 1) with (j * nPeriod bip) by lia. apply Z.mod_mul. lia.
  - intros r hr c2 Hr Hanc Hs2. destruct (UpdateCacheState_spec (Some r) c2 Ha (Hkn r hr Hr) Hs2) as (c3 & E3 & Hs3). exists c3. rewrite E3. split; [|done]. do 2 f_equal.
    pose proof (ancestor_range heap r hr h p Hr Hanc) as Hle. rewrite <- Hanc, (bip9_state_in r hr Hr h) in Est by lia.
    rewrite <- (ancestor_self heap Hok r hr Hr), (bip9_state_in r hr Hr hr), <- Est by lia. pose proof (Z.div_mod (hr + 1) (nPeriod bip) ltac:(lia)).
    pose proof (Z.mod_pos_bound (hr + 1) (nPeriod bip) HP).
    apply (final_stays r hr Hr); [split; [done | apply Z.div_le_mono; lia] | nia | by left].
Qed.
End CheckerCorrect.

(** ** The cache per deployment *)

(** [VersionBitsCache::caches], an array indexed by the bit of the deployment. *)
Definition VersionBitsCache : Type := list ThresholdConditionCache.
Definition VersionBitsCache_new : VersionBitsCache := replicate MAX_VERSION_BITS_DEPLOYMENTS ∅.
Definition VersionBitsCache_Clear (c : VersionBitsCache) : VersionBitsCache := List.map (fun _ => ∅) c.

Definition with_bit_cache {A} (c : VersionBitsCache) (b : Z) (f : ThresholdConditionCache -> io (A * ThresholdConditionCache)) : io (A * VersionBitsCache) :=
  let* cache := oaccess (if b <? 0 then None else c !! Z.to_nat b) in
  let* '(x, cache) := f cache in
  Ret (x, <[Z.to_nat b := cache]> c).

Definition VersionBitsState heap nVersion (pindexPrev : option ptr) (bip : BIP9Deployment) (c : VersionBitsCache) : io (ThresholdState * VersionBitsCache) :=
  with_bit_cache c (bit bip) (UpdateCacheState heap nVersion bip pindexPrev).
Definition VersionBitsStateSinceHeight heap nVersion (pindexPrev : option ptr) (bip : BIP9Deployment) (c : VersionBitsCache) : io (Z * VersionBitsCache) :=
  with_bit_cache c (bit bip) (StartingHeightOfBlockIndexState heap nVersion bip pindexPrev).

(** The array has room for the deployment of bit 0 only. *)
Lemma version_bits_out_of_bounds heap nVersion p bip : 1 <= bit bip -> VersionBitsState heap nVersion p bip VersionBitsCache_new = Undef.
Proof.
  intros Hb. unfold VersionBitsState, with_bit_cache. rewrite (proj2 (Z.ltb_ge (bit bip) 0)) by lia.
  by destruct (Z.to_nat (bit bip)) as [|n] eqn:E; [lia|].
Qed.

(** In the first period there is no end of the previous one to count from. *)
Lemma first_period_statistics heap nVersion bip p b : index_ok heap -> heap !! p = Some b -> nHeight b + 1 < nPeriod bip ->
  GetStateStatisticsFor heap nVersion bip (Some p) = Undef.
Proof.
  intros Hok Hb Hh. assert (0 <= nHeight b) by (apply (at_height_nonneg heap Hok p); by exists b).
  unfold GetStateStatisticsFor. unfold deref at 1. cbn [oaccess obind]. rewrite Hb. cbn [oaccess obind].
  rewrite (period_end_spec heap bip Hok ltac:(lia) p (nHeight b)) by (by exists b). cbn [last_end mbind option_bind]. rewrite Hb. cbn [mbind option_bind].
  rewrite Z.div_small by lia. by rewrite (ancestor_None heap p (nHeight b)) by ((by exists b) || lia).
Qed.

(** * Examples *)

(** [index_ok] and [headers_timely], decided. *)
Definition entry_linkedb (heap : index_heap) (p : ptr) (b : CBlockIndex) : bool :=
  (0 <=? nHeight b) &&
  match pprev b with
  | None => nHeight b =? 0
  | Some q => match heap !! q with Some c => nHeight c =? nHeight b - 1 | None => false end
  end && (negb (0 <? nHeight b) || bool_decide (pskip b = ancestor heap p (GetSkipHeight (nHeight b)))).
Definition timelyb (heap : index_heap) (b : CBlockIndex) : bool :=
  match pprev b with Some q => match GetMedianTimePast heap q with Ret m => m <? bi_nTime b | _ => true end | None => true end.

Lemma entry_linkedb_ok heap : forallb (fun '(p, b) => entry_linkedb heap p b) (map_to_list heap) = true -> index_ok heap.
Proof.
  intros H p b Hb. rewrite forallb_forall in H. specialize (H (p, b)). cbv beta iota in H.
  assert (entry_linkedb heap p b = true) as E by (apply H, list_elem_of_In, elem_of_map_to_list; done). unfold entry_linkedb in E.
  apply andb_true_iff in E as [E E3]. apply andb_true_iff in E as [E1 E2]. split; [lia | |].
  - destruct (pprev b) as [q|]; [|lia]. destruct (heap !! q) as [c|] eqn:Ec; [|done]. exists c. split; [done | lia].
  - intros Hh. apply orb_true_iff in E3 as [E3|E3]; [lia | by apply bool_decide_eq_true in E3].
Qed.

Lemma timelyb_ok heap : forallb (fun '(_, b) => timelyb heap b) (map_to_list heap) = true -> headers_timely heap.
Proof.
  intros H q c p Hc Hp m Hm. rewrite forallb_forall in H. specialize (H (q, c)). cbv beta iota in H.
  assert (timelyb heap c = true) as E by (apply H, list_elem_of_In, elem_of_map_to_list; done). unfold timelyb in E. rewrite Hp, Hm in E. lia.
Qed.

(** A line of blocks a minute apart, of heights up to [n]. *)
Definition line_block (h : nat) : ptr * CBlockIndex :=
  (Pos.of_nat (S h),
   mkIndex [] (match h with O => None | S k => Some (Pos.of_nat (S k)) end)
     (match h with O => None | _ => Some (Pos.of_nat (S (Z.to_nat (GetSkipHeight (Z.of_nat h))))) end)
     (Z.of_nat h) 0 0 0 (60 * Z.of_nat h) 0 LotteryCoinstakeData_empty).
Definition block_line (n : nat) : index_heap := list_to_map (List.map line_block (seq 0 (S n))).

(** The third and the fourth block signal bit 1. *)
Definition line_version (p : ptr) : Z := if (p =? 3)%positive || (p =? 4)%positive then 0x20000002 else 0x20000000.
Definition line_bip : BIP9Deployment := mkDeployment "sample" 1 60 10000 2 2.

Lemma line_ok : index_ok (block_line 8) /\ headers_timely (block_line 8).
Proof. split; [apply entry_linkedb_ok | apply timelyb_ok]; vm_compute; reflexivity. Qed.

Lemma versionbits_correct_witness : exists cache', UpdateCacheState (block_line 8) line_version line_bip (Some 4%positive) ∅ = Ret (LOCKED_IN, cache').
Proof.
  destruct (versionbits_correct (block_line 8) line_version line_bip (proj1 line_ok) (proj2 line_ok) ltac:(reflexivity) ltac:(discriminate) (Some 4%positive) ∅)
    as [(c & E & _) _]; [discriminate | vm_compute; by eexists | apply sound_empty|].
  exists c. rewrite E. f_equal.
Defined.

Lemma activation_locked_in_witness : exists cache', UpdateCacheState (block_line 8) line_version line_bip (Some 8%positive) ∅ = Ret (ACTIVE, cache').
Proof.
  destruct (activation_locked_in (block_line 8) line_version line_bip (proj1 line_ok) (proj2 line_ok) ltac:(reflexivity) ltac:(discriminate) 6 5 ∅
    match UpdateCacheState (block_line 8) line_version line_bip (Some 6%positive) ∅ with Ret (_, c) => c | _ => ∅ end) as [_ H];
    [discriminate | eexists; split; vm_compute; reflexivity | apply sound_empty | vm_compute; reflexivity|].
  destruct (H 8%positive 7 ∅) as (c & E & _); [eexists; split; vm_compute; reflexivity | vm_compute; reflexivity | apply sound_empty|]. by exists c.
Defined.
