(* ===== verification/Bip9Tracker.v ===== *)
(** * Activation of deployments: [CachedBIP9ActivationStateTracker.cpp],
    [BIP9ActivationManager.cpp], [BIP9ActivationFeatureContainer.cpp]

    The tracker decides the state of a period at the first block of the period, and
    caches only the blocks at which the state changes; asking it after an update
    gives the state by recursion over the periods, whatever was asked before.  The
    manager keeps one tracker and one cache per deployment. *)

From Stdlib Require Import ZArith Lia Bool String.
From stdpp Require Import base option numbers list gmap strings.
From S2P Require Import Prelude BaseUInt UInt256 BlockIndex Chain BlockChecks Lottery Bip9.

Open Scope Z_scope.
Open Scope outcome_scope.

Section Tracker.
Variable heap : index_heap.
Variable nVersion : ptr -> Z.
Variable bip : BIP9Deployment.

Definition bipIsViable : bool := negb ((nStartTime bip >? nTimeout bip) || (nPeriod bip <? threshold bip)).

Definition bipIsSignaledFor (p : ptr) : bool :=
  (Z.land (nVersion p) VERSIONBITS_TOP_MASK =? VERSIONBITS_TOP_BITS) && negb (Z.land (nVersion p) (Z.shiftl 1 (bit bip)) =? 0).

(** [while(endingBlockIndex && blocksCounted < bip_.nPeriod)] *)
Fixpoint signals_back (rounds : nat) (endingBlockIndex : option ptr) (count : Z) : io Z :=
  match rounds, endingBlockIndex with
  | S rounds, Some p =>
      let* b := deref heap (Some p) in
      signals_back rounds (pprev b) (count + (if bipIsSignaledFor p then 1 else 0))
  | _, _ => Ret count
  end.
Definition enoughBipSignalsToLockIn (endingBlockIndex : option ptr) : io bool :=
  let* count := signals_back (Z.to_nat (nPeriod bip)) endingBlockIndex 0 in
  Ret (count >=? threshold bip).

Definition getMostRecentStartingBlock (shallowBlockIndex : option ptr) : io (option ptr) :=
  match shallowBlockIndex with
  | Some p =>
      let* b := deref heap (Some p) in
      let* heightOffset := rem_period bip (nHeight b) in
      GetAncestor heap (Some p) (nHeight b - heightOffset)
  | None => Ret None
  end.

Definition computeStateTransition (lastKnownState : ThresholdState) (blockIndex : ptr) : io ThresholdState :=
  match lastKnownState with
  | DEFINED =>
      let* m := GetMedianTimePast heap blockIndex in
      Ret (if m >=? nTimeout bip then FAILED else if m >=? nStartTime bip then STARTED else DEFINED)
  | STARTED =>
      let* m := GetMedianTimePast heap blockIndex in
      if m >=? nTimeout bip then Ret FAILED
      else
        let* b := deref heap (Some blockIndex) in
        let* enough := enoughBipSignalsToLockIn (pprev b) in
        Ret (if enough then LOCKED_IN else STARTED)
  | LOCKED_IN => Ret ACTIVE
  | FAILED | ACTIVE => Ret lastKnownState
  end.

(** [thresholdCache_[p]]; a missing key is inserted as [DEFINED]. *)
Definition cache_at (cache : ThresholdConditionCache) (p : option ptr) : ThresholdState * ThresholdConditionCache :=
  match cache !! p with Some s => (s, cache) | None => (DEFINED, <[p := DEFINED]> cache) end.

(** [getStartingBlocksForPeriodsPreceedingBlockIndex]: the vector with its back
    [current] apart, the rest from the back. *)
Fixpoint getStartingBlocks (fuel : nat) (current : option ptr) (rest : list (option ptr)) (cache : ThresholdConditionCache) :
    io (option ptr * list (option ptr) * ThresholdConditionCache) :=
  match current with
  | None => Ret (current, rest, cache)
  | Some p =>
      match cache !! current with
      | Some _ => Ret (current, rest, cache)
      | None =>
          let* b := deref heap current in
          let* predecesor := GetAncestor heap current (nHeight b - nPeriod bip) in
          match predecesor with
          | None => Ret (None, current :: rest, <[None := DEFINED]> cache)
          | Some q =>
              let* m := GetMedianTimePast heap q in
              if m <? nStartTime bip then
                match cache !! predecesor with
                | Some _ => Ret (predecesor, current :: rest, cache)
                | None => Ret (predecesor, current :: rest, <[predecesor := DEFINED]> cache)
                end
              else match fuel with O => Undef | S fuel => getStartingBlocks fuel predecesor (current :: rest) cache end
          end
      end
  end.

(** The loop of [update] over the vector from its back. *)
Fixpoint update_periods (blocks : list (option ptr)) (lastKnownState : ThresholdState) (cache : ThresholdConditionCache) : io ThresholdConditionCache :=
  match blocks with
  | [] => Ret cache
  | it :: blocks =>
      if negb bipIsViable then Ret (if bool_decide (lastKnownState = FAILED) then cache else <[it := FAILED]> cache)
      else
        let* p := oaccess it in
        let* state := computeStateTransition lastKnownState p in
        update_periods blocks state (if bool_decide (lastKnownState = state) then cache else <[it := state]> cache)
  end.

(** [update], which returns true. *)
Definition update (shallowBlockIndex : option ptr) (cache : ThresholdConditionCache) : io ThresholdConditionCache :=
  if nStartTime bip =? ALWAYS_ACTIVE then Ret cache else
  let* shallowBlockIndex := getMostRecentStartingBlock shallowBlockIndex in
  let* '(lastBlockWithCachedState, blocks, cache) := getStartingBlocks (walk_fuel heap shallowBlockIndex) shallowBlockIndex [] cache in
  match List.last blocks None with
  | None => Ret cache
  | Some _ =>
      let '(lastKnownState, cache) := cache_at cache lastBlockWithCachedState in
      update_periods blocks lastKnownState cache
  end.

Definition getLastCachedStatePriorToBlockIndex (shallowBlockIndex : option ptr) (cache : ThresholdConditionCache) : io (ThresholdState * ThresholdConditionCache) :=
  if nStartTime bip =? ALWAYS_ACTIVE then Ret (ACTIVE, cache)
  else if negb bipIsViable then Ret (FAILED, cache)
  else
    match shallowBlockIndex with
    | None => Ret (DEFINED, cache)
    | Some _ =>
        let* shallowBlockIndex := getMostRecentStartingBlock shallowBlockIndex in
        let* '(back, _, cache) := getStartingBlocks (walk_fuel heap shallowBlockIndex) shallowBlockIndex [] cache in
        Ret (cache_at cache back)
    end.

(** ** The state by recursion over the periods *)

(** What the first block of a period makes of the state of the period before. *)
Definition start_transition (state : ThresholdState) (p : ptr) : ThresholdState :=
  match state with
  | DEFINED => if median_of heap p >=? nTimeout bip then FAILED else if median_of heap p >=? nStartTime bip then STARTED else DEFINED
  | STARTED =>
      if median_of heap p >=? nTimeout bip then FAILED
      else if match (heap !! p) ≫= pprev with Some q => Z.of_nat (signals heap nVersion bip (Z.to_nat (nPeriod bip)) q) | None => 0 end >=? threshold bip then LOCKED_IN
      else STARTED
  | LOCKED_IN => ACTIVE
  | ACTIVE => ACTIVE
  | FAILED => FAILED
  end.

Definition period_start (p : option ptr) : option ptr :=
  p ← p; b ← heap !! p; ancestor heap p (nHeight b / nPeriod bip * nPeriod bip).

Definition tracked_state (p : option ptr) : ThresholdState :=
  if nStartTime bip =? ALWAYS_ACTIVE then ACTIVE
  else if negb bipIsViable then FAILED
  else state_of heap (nPeriod bip) 0 start_transition (period_start p).
End Tracker.

Section TrackerCorrect.
Variable heap : index_heap.
Variable nVersion : ptr -> Z.
Variable bip : BIP9Deployment.
Hypothesis Hok : index_ok heap.
Hypothesis Htimely : headers_timely heap.
Hypothesis HP : 0 < nPeriod bip.
Hypothesis Hbit : 0 <= bit bip < 31.

Abbreviation step := (start_transition heap nVersion bip).
Abbreviation state := (state_of heap (nPeriod bip) 0 step).
Abbreviation is_start := (is_point heap (nPeriod bip) 0).
Abbreviation sound := (sound heap (nPeriod bip) 0 step).
Abbreviation pending := (pending heap (nPeriod bip) 0).
Abbreviation prior := (prior heap (nPeriod bip)).

Lemma start_off : 0 <= 0 < nPeriod bip.
Proof. lia. Qed.

Lemma start_height p : is_start (Some p) -> exists b, heap !! p = Some b /\ 0 <= nHeight b.
Proof. intros [i Hp]. destruct (point_height _ _ _ i p Hp) as (b & Hb & Hh & Hi). exists b. split; [done | nia]. Qed.

Lemma median_start p : is_start (Some p) -> GetMedianTimePast heap p = Ret (median_of heap p).
Proof. intros Hp. destruct (start_height p Hp) as (b & Hb & _). apply (median_returns heap Hok p (nHeight b)). by exists b. Qed.

Lemma signaled_condition p : bipIsSignaledFor nVersion bip p = Condition nVersion bip p.
Proof.
  unfold bipIsSignaledFor, Condition, Mask. replace (u32 (Z.shiftl 1 (bit bip))) with (Z.shiftl 1 (bit bip)); [done|].
  rewrite Z.shiftl_1_l. unfold u32. rewrite Z.mod_small; [done|]. split; [apply Z.pow_nonneg; lia|]. apply Z.pow_lt_mono_r; lia.
Qed.

Lemma signals_back_spec n : forall p c, known_or_null heap p ->
  signals_back heap nVersion bip n p c = Ret (c + match p with Some q => Z.of_nat (signals heap nVersion bip n q) | None => 0 end).
Proof.
  induction n as [|n IH]; intros [p|] c Hp; cbn [signals_back]; try (f_equal; cbn; lia). destruct Hp as [b Hb]. unfold deref. cbn [oaccess obind].
  rewrite Hb. cbn [oaccess obind]. rewrite (IH (pprev b)) by (by apply (parent_known heap Hok p)). rewrite (signals_S heap nVersion bip n p b Hb), signaled_condition.
  f_equal. destruct (Condition nVersion bip p), (pprev b); lia.
Qed.

Lemma computeStateTransition_spec s p : is_start (Some p) -> computeStateTransition heap nVersion bip s p = Ret (step s p).
Proof.
  intros Hp. pose proof (median_start p Hp) as Em. destruct (start_height p Hp) as (b & Hb & _).
  destruct s; cbn [computeStateTransition start_transition]; try done; rewrite Em; cbn [obind]; [done|].
  destruct (_ >=? _); [done|]. unfold deref. cbn [oaccess obind]. rewrite Hb. cbn [oaccess obind mbind option_bind]. unfold enoughBipSignalsToLockIn.
  by rewrite (signals_back_spec _ (pprev b)) by (by apply (parent_known heap Hok p)).
Qed.

Lemma period_start_spec p b : heap !! p = Some b ->
  getMostRecentStartingBlock heap bip (Some p) = Ret (period_start heap bip (Some p)) /\ exists s, period_start heap bip (Some p) = Some s /\ is_start (Some s).
Proof.
  intros Hb. assert (at_height heap p (nHeight b)) as Hp by (by exists b). pose proof (at_height_nonneg heap Hok p _ Hp).
  cbn [period_start getMostRecentStartingBlock mbind option_bind]. unfold deref, rem_period. cbn [oaccess obind]. rewrite Hb. cbn [oaccess obind mbind option_bind].
  rewrite (proj2 (Z.eqb_neq (nPeriod bip) 0)) by lia. cbn [negb oassert obind]. rewrite (GetAncestor_spec heap Hok p (nHeight b) _ Hp).
  pose proof (Z.div_mod (nHeight b) (nPeriod bip) ltac:(lia)). pose proof (Z.mod_pos_bound (nHeight b) (nPeriod bip) HP). pose proof (Z.div_pos (nHeight b) (nPeriod bip) ltac:(lia) HP).
  rewrite Z.rem_mod_nonneg by lia. replace (nHeight b - nHeight b mod nPeriod bip) with (nHeight b / nPeriod bip * nPeriod bip) by lia. split; [done|].
  destruct (ancestor_spec heap Hok p (nHeight b) (nHeight b / nPeriod bip * nPeriod bip) Hp) as (s & -> & Hs & _); [nia|]. exists s. split; [done|].
  exists (nHeight b / nPeriod bip). split; [done|]. by rewrite Z.add_0_r.
Qed.

Lemma start_prior_ancestor p b : heap !! p = Some b -> GetAncestor heap (Some p) (nHeight b - nPeriod bip) = Ret (prior p).
Proof. intros Hb. rewrite (GetAncestor_spec heap Hok p (nHeight b)) by (by exists b). unfold Bip9.prior. by rewrite Hb. Qed.

Lemma prior_height p q b c : heap !! p = Some b -> prior p = Some q -> heap !! q = Some c -> nHeight c = nHeight b - nPeriod bip.
Proof.
  intros Hb Hq Hc. unfold Bip9.prior in Hq. rewrite Hb in Hq. cbn [mbind option_bind] in Hq. assert (at_height heap p (nHeight b)) as Hp by (by exists b).
  pose proof (ancestor_range heap p _ _ q Hp Hq) as Hr. destruct (ancestor_spec heap Hok p _ _ Hp Hr) as (q' & E & (c' & Hc' & Hh) & _).
  rewrite Hq in E. injection E as <-. congruence.
Qed.

(** ** What the caches tell *)

Section Viable.
Hypothesis Hviable : nStartTime bip <= nTimeout bip.

Definition early (p : option ptr) : Prop := match p with Some q => median_of heap q < nStartTime bip | None => True end.

Lemma early_start p : is_start p -> early p -> state p = DEFINED.
Proof.
  apply (early_defined heap (nPeriod bip) 0 (nStartTime bip) step Hok Htimely HP start_off). intros q Hq. cbn [start_transition].
  by rewrite !Z.geb_leb, !(proj2 (Z.leb_gt _ _)) by lia.
Qed.

Lemma early_prior p : is_start (Some p) -> early (Some p) -> early (prior p).
Proof.
  intros Hp He. destruct (start_height p Hp) as (b & Hb & _). destruct (prior p) as [q|] eqn:Eq; [|done]. unfold Bip9.prior in Eq. rewrite Hb in Eq. cbn [mbind option_bind] in Eq.
  pose proof (median_of_ancestor heap Hok Htimely p (nHeight b) _ q (ex_intro _ b (conj Hb eq_refl)) Eq). cbn [early] in *. lia.
Qed.

(** The first cached block below, if one asks from [p], has the state [s]. *)
Inductive covers (cache : ThresholdConditionCache) : option ptr -> ThresholdState -> Prop :=
  | covers_hit p s : cache !! p = Some s -> covers cache p s
  | covers_back p s : cache !! Some p = None -> covers cache (prior p) s -> covers cache (Some p) s.

Lemma covers_early cache p s : sound cache -> covers cache p s -> is_start p -> early p -> s = DEFINED.
Proof.
  intros Hs Hc. induction Hc as [p s Hc|p s _ _ IH]; intros Hp He.
  - destruct (Hs p s Hc) as [_ <-]. by apply early_start.
  - apply IH; [by apply (prior_is_point heap _ 0 Hok HP start_off) | by apply early_prior].
Qed.

Definition height_of (p : option ptr) : Z := match p ≫= (fun q => heap !! q) with Some b => nHeight b | None => -1 end.

Lemma height_prior p : is_start (Some p) -> height_of (prior p) < height_of (Some p).
Proof.
  intros Hp. destruct (start_height p Hp) as (b & Hb & H0). unfold height_of at 2. cbn [mbind option_bind]. rewrite Hb.
  destruct (prior p) as [q|] eqn:Eq; [|cbn; lia]. unfold height_of. cbn [mbind option_bind]. destruct (heap !! q) as [c|] eqn:Ec; [|lia].
  pose proof (prior_height p q b c Hb Eq Ec). lia.
Qed.

Lemma pending_above k l : pending k l -> Forall (fun x => height_of k < height_of (Some x)) l.
Proof.
  revert k. induction l as [|x l IH]; intros k Hl; [done|]. destruct Hl as (Hx & <- & Hl). pose proof (height_prior x Hx) as H. constructor; [done|].
  eapply Forall_impl; [exact (IH (Some x) Hl)|]. cbn beta. intros y Hy. lia.
Qed.

Lemma not_cached_insert k s l cache : pending k l -> Forall (fun x => cache !! Some x = None) l -> Forall (fun x => (<[k := s]> cache : ThresholdConditionCache) !! Some x = None) l.
Proof.
  intros Hl Hc. apply pending_above in Hl. eapply Forall_impl; [exact (proj2 (Forall_and _ _) (conj Hl Hc))|]. cbn beta. intros x [Hx Hn].
  rewrite lookup_insert_ne; [done|]. intros E. rewrite E in Hx. lia.
Qed.

(** ** The walk to the last cached block *)

Lemma getStartingBlocks_spec fuel : forall p l cache, sound cache -> is_start (Some p) -> pending (Some p) l -> Forall (fun x => cache !! Some x = None) l ->
  height_of (Some p) < Z.of_nat fuel ->
  exists q l' cache', getStartingBlocks heap bip fuel (Some p) (List.map Some l) cache = Ret (q, List.map Some l', cache') /\ sound cache' /\
    is_start q /\ pending q l' /\ cache' !! q = Some (state q) /\ reached_end q l' = reached_end (Some p) l /\ Forall (fun x => cache' !! Some x = None) l' /\
    forall s, covers cache (Some p) s -> state q = s.
Proof.
  induction fuel as [|fuel IH]; intros p l cache Hs Hp Hl Hn Hf; destruct (start_height p Hp) as (b & Hb & H0);
    unfold height_of in Hf; cbn [mbind option_bind] in Hf; rewrite Hb in Hf; [lia|].
  cbn [getStartingBlocks]. destruct (cache !! Some p) as [s|] eqn:Ec.
  { destruct (Hs _ _ Ec) as [_ <-]. exists (Some p), l, cache. split_and!; try done. intros s Hc. inversion Hc; congruence. }
  unfold deref. cbn [oaccess obind]. rewrite Hb. cbn [oaccess obind]. rewrite (start_prior_ancestor p b Hb). cbn [obind].
  assert (pending (prior p) (p :: l)) as Hl' by done. assert (Forall (fun x => cache !! Some x = None) (p :: l)) as Hn' by (by constructor).
  pose proof (prior_is_point heap _ 0 Hok HP start_off p Hp) as Hpr. pose proof (height_prior p Hp) as Hh.
  assert (forall s, covers cache (Some p) s -> covers cache (prior p) s) as Hback by (intros s Hc; inversion Hc; congruence).
  destruct (prior p) as [q|] eqn:Eq.
  2:{ exists None, (p :: l), (<[None := DEFINED]> cache). split_and!; try done; [by apply sound_insert | by rewrite lookup_insert_eq | by apply not_cached_insert|].
      intros s Hc. symmetry. by apply (covers_early cache None s Hs (Hback s Hc)). }
  rewrite (median_start q Hpr). cbn [obind]. destruct (Z.ltb_spec (median_of heap q) (nStartTime bip)) as [Hm|Hm].
  - assert (state (Some q) = DEFINED) as Hd by (by apply early_start).
    assert (forall s, covers cache (Some p) s -> state (Some q) = s) as Hcov by (intros s Hc; rewrite Hd; symmetry; by apply (covers_early cache (Some q) s Hs (Hback s Hc))).
    destruct (cache !! Some q) as [s|] eqn:Ecq.
    + exists (Some q), (p :: l), cache. split_and!; try done. destruct (Hs _ _ Ecq) as [_ <-]. done.
    + exists (Some q), (p :: l), (<[Some q := DEFINED]> cache). split_and!; try done; [by apply sound_insert | by rewrite lookup_insert_eq, Hd | by apply not_cached_insert].
  - destruct (IH q (p :: l) cache Hs Hpr Hl' Hn') as (r & l' & c & E & Hs' & Hr & Hl2 & Hk & Ht & Hn2 & Hc2).
    { unfold height_of at 2 in Hh. cbn [mbind option_bind] in Hh. rewrite Hb in Hh. lia. }
    exists r, l', c. split_and!; try done. intros s Hc. by apply Hc2, Hback.
Qed.

Lemma update_periods_spec l : bipIsViable bip = true -> forall k cache, sound cache -> pending k l -> covers cache k (state k) -> Forall (fun x => cache !! Some x = None) l ->
  exists cache', update_periods heap nVersion bip (List.map Some l) (state k) cache = Ret cache' /\ sound cache' /\ covers cache' (reached_end k l) (state (reached_end k l)).
Proof.
  intros Hv. induction l as [|x l IH]; intros k cache Hs Hl Hc Hn; [by exists cache|]. destruct Hl as (Hx & <- & Hl). apply Forall_cons in Hn as [Hn Hn'].
  cbn [List.map update_periods]. rewrite Hv. cbn [negb oaccess obind]. rewrite (computeStateTransition_spec _ _ Hx). cbn [obind].
  rewrite <- (state_step heap (nPeriod bip) 0 step Hok HP start_off x Hx). rewrite target_cons.
  destruct (decide (state (prior x) = state (Some x))) as [E|E].
  - rewrite bool_decide_eq_true_2 by done. apply IH; try done. apply covers_back; [done|]. by rewrite <- E.
  - rewrite bool_decide_eq_false_2 by done. apply IH; try done; [by apply sound_insert | apply covers_hit; apply lookup_insert_eq | by apply not_cached_insert].
Qed.
End Viable.

Lemma getStartingBlocks_total fuel : forall p l cache, is_start (Some p) -> height_of (Some p) < Z.of_nat fuel -> exists r, getStartingBlocks heap bip fuel (Some p) l cache = Ret r.
Proof.
  induction fuel as [|fuel IH]; intros p l cache Hp Hf; destruct (start_height p Hp) as (b & Hb & H0);
    unfold height_of in Hf; cbn [mbind option_bind] in Hf; rewrite Hb in Hf; [lia|].
  cbn [getStartingBlocks]. destruct (cache !! Some p); [by eexists|]. unfold deref. cbn [oaccess obind]. rewrite Hb. cbn [oaccess obind]. rewrite (start_prior_ancestor p b Hb). cbn [obind].
  pose proof (prior_is_point heap _ 0 Hok HP start_off p Hp) as Hpr. pose proof (height_prior p Hp) as Hh. destruct (prior p) as [q|]; [|by eexists].
  rewrite (median_start q Hpr). cbn [obind]. destruct (_ <? _); [destruct (cache !! Some q); by eexists|]. apply IH; [done|].
  unfold height_of at 2 in Hh. cbn [mbind option_bind] in Hh. rewrite Hb in Hh. lia.
Qed.

Lemma walk_fuel_enough p : is_start (Some p) -> height_of (Some p) < Z.of_nat (walk_fuel heap (Some p)).
Proof. intros Hp. destruct (start_height p Hp) as (b & Hb & H0). unfold height_of, walk_fuel. cbn [mbind option_bind]. rewrite Hb. lia. Qed.

(** The cache is used by a deployment of which the times and counts make sense only. *)
Definition tracker_sound (cache : ThresholdConditionCache) : Prop := nStartTime bip <> ALWAYS_ACTIVE -> bipIsViable bip = true -> sound cache.

Lemma viable_times : bipIsViable bip = true -> nStartTime bip <= nTimeout bip.
Proof. unfold bipIsViable. destruct (Z.gtb_spec (nStartTime bip) (nTimeout bip)); [done | lia]. Qed.

Lemma target_some k x l : exists y, reached_end k (x :: l) = Some y.
Proof. revert x. induction l as [|y l IH]; intros x; [by exists x|]. destruct (IH y) as [z Hz]. by exists z. Qed.

Lemma last_target l : match List.last (List.map Some l) None with None => l = [] | Some x => forall k, reached_end k l = Some x end.
Proof.
  induction l as [|x [|y l] IH]; [done | done|]. change (List.last (List.map Some (x :: y :: l)) None) with (List.last (List.map Some (y :: l)) None).
  revert IH. destruct (List.last (List.map Some (y :: l)) None) as [z|]; [|done]. intros IH k. exact (IH (Some x)).
Qed.

Lemma update_spec p cache : known_or_null heap p -> tracker_sound cache ->
  exists cache', update heap nVersion bip p cache = Ret cache' /\ tracker_sound cache' /\
    (nStartTime bip <> ALWAYS_ACTIVE -> bipIsViable bip = true -> forall q, p = Some q -> covers cache' (period_start heap bip p) (state (period_start heap bip p))).
Proof.
  intros Hp Hs. unfold update. destruct (Z.eqb_spec (nStartTime bip) ALWAYS_ACTIVE) as [Ha|Ha]; [by exists cache|].
  destruct p as [p|]; [|by exists cache]. destruct Hp as [b Hb]. destruct (period_start_spec p b Hb) as (-> & x & -> & Hx). cbn [obind].
  pose proof (walk_fuel_enough x Hx) as Hf. destruct (bipIsViable bip) eqn:Hv.
  - pose proof (viable_times Hv) as Ht. specialize (Hs Ha Hv).
    destruct (getStartingBlocks_spec Ht _ x [] cache Hs Hx I (Forall_nil_2 _) Hf) as (q & l & c & E & Hs1 & Hq & Hl & Hk & Htg & Hn & _).
    cbn [List.map] in E. rewrite E. cbn [obind]. pose proof (last_target l) as Hlast. change (reached_end (Some x) []) with (Some x) in Htg. destruct (List.last (List.map Some l) None) as [y|].
    + unfold cache_at. rewrite Hk. destruct (update_periods_spec l Hv q c Hs1 Hl (covers_hit c q _ Hk) Hn) as (c' & -> & Hs2 & Hcov). exists c'. rewrite Htg in Hcov. split_and!; [done | by intros _ _ | by intros _ _ _ _].
    + subst l. cbn in Htg. subst q. exists c. split; [done|]. split; [by intros _ _|]. intros _ _ _ _. by apply covers_hit.
  - destruct (getStartingBlocks_total _ x [] cache Hx Hf) as [[[q l] c] ->]. cbn [obind]. unfold tracker_sound. destruct (List.last l None) eqn:El.
    + destruct (cache_at c q) as [s c']. destruct l as [|it l]; [done|]. cbn [update_periods]. rewrite Hv. cbn [negb]. eexists. split; [done|]. split; intros; congruence.
    + exists c. split; [done|]. split; intros; congruence.
Qed.

Lemma getLast_spec p cache : known_or_null heap p -> tracker_sound cache ->
  (nStartTime bip <> ALWAYS_ACTIVE -> bipIsViable bip = true -> forall q, p = Some q -> covers cache (period_start heap bip p) (state (period_start heap bip p))) ->
  exists cache', getLastCachedStatePriorToBlockIndex heap bip p cache = Ret (tracked_state heap nVersion bip p, cache') /\ tracker_sound cache'.
Proof.
  intros Hp Hs Hc. unfold getLastCachedStatePriorToBlockIndex, tracked_state. destruct (Z.eqb_spec (nStartTime bip) ALWAYS_ACTIVE) as [Ha|Ha]; [by exists cache|].
  destruct (bipIsViable bip) eqn:Hv; cbn [negb]; [|by exists cache]. destruct p as [p|]; [|by exists cache]. specialize (Hc Ha eq_refl p eq_refl).
  destruct Hp as [b Hb]. destruct (period_start_spec p b Hb) as (-> & x & Ex & Hx). cbn [obind]. rewrite Ex in *.
  pose proof (viable_times Hv) as Ht. pose proof (Hs Ha Hv) as Hs'.
  destruct (getStartingBlocks_spec Ht _ x [] cache Hs' Hx I (Forall_nil_2 _) (walk_fuel_enough x Hx)) as (q & l & c & E & Hs1 & Hq & Hl & Hk & Htg & Hn & Hcov).
  cbn [List.map] in E. rewrite E. cbn [obind]. unfold cache_at. rewrite Hk, (Hcov _ Hc). exists c. split; [done | by intros _ _].
Qed.
End TrackerCorrect.

(** On a tree of timely headers, [update] and the question after it never
    fail, whatever was asked before: the answer is the state of BIP 9 by recursion
    over the periods of the branch, decided at their first blocks (failed if the
    deployment makes no sense, active if it always is), and the cache that only
    holds the changes stays true. *)
Theorem tracker_correct heap nVersion bip p cache : index_ok heap -> headers_timely heap -> 0 < nPeriod bip -> 0 <= bit bip < 31 ->
  known_or_null heap p -> tracker_sound heap nVersion bip cache ->
  exists cache1 cache2, update heap nVersion bip p cache = Ret cache1 /\ tracker_sound heap nVersion bip cache1 /\
    getLastCachedStatePriorToBlockIndex heap bip p cache1 = Ret (tracked_state heap nVersion bip p, cache2) /\ tracker_sound heap nVersion bip cache2.
Proof.
  intros Hok Ht HP Hbit Hp Hs. destruct (update_spec heap nVersion bip Hok Ht HP Hbit p cache Hp Hs) as (c1 & E1 & Hs1 & Hc).
  destruct (getLast_spec heap nVersion bip Hok Ht HP Hbit p c1 Hp Hs1 Hc) as (c2 & E2 & Hs2). by exists c1, c2.
Qed.

(** ** The tree grows *)

Section Growth.
Variable heap heap' : index_heap.
Variable nVersion nVersion' : ptr -> Z.
Variable bip : BIP9Deployment.
Hypothesis Hok : index_ok heap.
Hypothesis Hok' : index_ok heap'.
Hypothesis Hsub : heap ⊆ heap'.
Hypothesis Hversion : forall p, is_Some (heap !! p) -> nVersion' p = nVersion p.

Lemma grown p b : heap !! p = Some b -> heap' !! p = Some b.
Proof. intros Hb. exact (lookup_weaken _ _ _ _ Hb Hsub). Qed.

Lemma up_grown n : forall p, is_Some (heap !! p) -> up heap' n p = up heap n p.
Proof.
  induction n as [|n IH]; intros p [b Hb]; [done|]. cbn [up]. rewrite Hb, (grown p b Hb). cbn [mbind option_bind].
  pose proof (parent_known heap Hok p b Hb) as Hk. destruct (pprev b) as [q|]; [|done]. cbn [mbind option_bind]. by apply IH.
Qed.

Lemma ancestor_grown p k : is_Some (heap !! p) -> ancestor heap' p k = ancestor heap p k.
Proof. intros Hp. pose proof Hp as [b Hb]. unfold ancestor. rewrite Hb, (grown p b Hb). cbn [mbind option_bind]. by rewrite up_grown. Qed.

Lemma median_times_grown n : forall p, known_or_null heap p -> median_times heap' n p = median_times heap n p.
Proof.
  induction n as [|n IH]; intros [p|] Hp; cbn [median_times]; try done. destruct Hp as [b Hb]. unfold deref. cbn [oaccess obind]. rewrite Hb, (grown p b Hb).
  cbn [oaccess obind]. by rewrite (IH (pprev b)) by (by apply (parent_known heap Hok p)).
Qed.

Lemma median_of_grown p : is_Some (heap !! p) -> median_of heap' p = median_of heap p.
Proof. intros Hp. unfold median_of, GetMedianTimePast. by rewrite (median_times_grown nMedianTimeSpan (Some p)). Qed.

Lemma up_known n : forall p q, is_Some (heap !! p) -> up heap n p = Some q -> is_Some (heap !! q).
Proof.
  induction n as [|n IH]; intros p q Hp Hq; cbn [up] in Hq; [congruence|]. destruct Hp as [b Hb]. rewrite Hb in Hq. cbn [mbind option_bind] in Hq.
  pose proof (parent_known heap Hok p b Hb) as Hk. destruct (pprev b) as [r|]; [|done]. exact (IH r q Hk Hq).
Qed.

Lemma signals_grown n p : is_Some (heap !! p) -> signals heap' nVersion' bip n p = signals heap nVersion bip n p.
Proof.
  intros Hp. unfold signals. f_equal. apply List.filter_ext. intros k. rewrite (up_grown k p Hp). destruct (up heap k p) as [q|] eqn:E; [|done].
  unfold Condition. by rewrite (Hversion q (up_known k p q Hp E)).
Qed.

Lemma start_transition_grown s p : is_Some (heap !! p) -> start_transition heap' nVersion' bip s p = start_transition heap nVersion bip s p.
Proof.
  intros Hp. pose proof Hp as [b Hb]. unfold start_transition. rewrite (median_of_grown p Hp), Hb, (grown p b Hb). cbn [mbind option_bind].
  pose proof (parent_known heap Hok p b Hb) as Hk. destruct (pprev b) as [r|]; [|done]. by rewrite (signals_grown _ r Hk).
Qed.

Lemma state_at_grown i : forall p, is_Some (heap !! p) ->
  state_at heap' (nPeriod bip) 0 (start_transition heap' nVersion' bip) i p = state_at heap (nPeriod bip) 0 (start_transition heap nVersion bip) i p.
Proof.
  induction i as [|i IH]; intros p Hp; cbn [state_at]; rewrite (start_transition_grown _ p Hp); [done|]. f_equal. rewrite (ancestor_grown p _ Hp).
  destruct (ancestor heap p (Z.of_nat i * nPeriod bip + 0)) as [q|] eqn:E; [|done]. apply IH. unfold ancestor in E. destruct Hp as [b Hb]. rewrite Hb in E. cbn [mbind option_bind] in E.
  destruct (_ && _) in E; [|done]. exact (up_known _ p q (ex_intro _ b Hb) E).
Qed.

Lemma tracker_sound_grown cache : tracker_sound heap nVersion bip cache -> tracker_sound heap' nVersion' bip cache.
Proof.
  intros Hs Ha Hv p s Hp. destruct (Hs Ha Hv p s Hp) as [Hpt <-]. destruct p as [p|]; [|done]. cbn [is_point] in Hpt. destruct Hpt as (i & Hi & b & Hb & Hh).
  split; [exists i; split; [done|]; exists b; split; [by apply grown | done]|]. cbn [state_of]. rewrite Hb, (grown p b Hb). apply state_at_grown. by exists b.
Qed.
End Growth.

(** * [BIP9ActivationManager] *)

(** The trackers refer to the deployment and the cache of an index. *)
Record BIP9ActivationManager := mkManager {
  thresholdCaches : list ThresholdConditionCache;
  bip9ActivationTrackers : list nat;
  knownBIPs : list BIP9Deployment;
  bitfieldOfBipsInUse : Z;
  bipIndexByName : gmap string nat
}.
Definition BIP9ActivationManager_new : BIP9ActivationManager := mkManager [] [] [] 0 ∅.

(** [ActivationTrackerFactory::create] returns a new tracker, never null. *)
Definition ActivationTrackerFactory_create (bip : BIP9Deployment) : bool := true.

Definition addBIP (create : BIP9Deployment -> bool) (bip : BIP9Deployment) (m : BIP9ActivationManager) : io BIP9ActivationManager :=
  if bit bip >=? MAXIMUM_SIMULTANEOUS_DEPLOYMENTS then Ret m else
  oassert (0 <=? bit bip) ;;;
  let bipMask := u32 (Z.shiftl 1 (bit bip)) in
  if Z.land bipMask (bitfieldOfBipsInUse m) =? 0 then
    let names := match bipIndexByName m !! deploymentName bip with
                 | Some _ => bipIndexByName m
                 | None => <[deploymentName bip := length (knownBIPs m)]> (bipIndexByName m)
                 end in
    if create bip then
      Ret (mkManager (thresholdCaches m ++ [∅]) (bip9ActivationTrackers m ++ [length (knownBIPs m)]) (knownBIPs m ++ [bip])
             (Z.lor (bitfieldOfBipsInUse m) bipMask) names)
    else Ret (mkManager (thresholdCaches m) (bip9ActivationTrackers m) (knownBIPs m) (bitfieldOfBipsInUse m) (delete (deploymentName bip) names))
  else Ret m.

Definition networkEnabledBIP (heap : index_heap) (nVersion : ptr -> Z) (m : BIP9ActivationManager) (bipName : string) (chainTip : option ptr) : io (bool * BIP9ActivationManager) :=
  match bipIndexByName m !! bipName with
  | None => Ret (false, m)
  | Some i =>
      let* t := oaccess (bip9ActivationTrackers m !! i) in
      let* bip := oaccess (knownBIPs m !! t) in
      let* cache := oaccess (thresholdCaches m !! t) in
      let* cache := update heap nVersion bip chainTip cache in
      let* '(result, cache) := getLastCachedStatePriorToBlockIndex heap bip chainTip cache in
      Ret (bool_decide (result = ACTIVE),
           mkManager (<[t := cache]> (thresholdCaches m)) (bip9ActivationTrackers m) (knownBIPs m) (bitfieldOfBipsInUse m) (bipIndexByName m))
  end.

Inductive BIPStatus := UNKNOWN_BIP | IN_PROGRESS.
Definition getBIPStatus (m : BIP9ActivationManager) (bipName : string) : BIPStatus :=
  match List.find (fun b => bool_decide (deploymentName b = bipName)) (knownBIPs m) with None => UNKNOWN_BIP | Some _ => IN_PROGRESS end.

(** The tree and the manager: deployments are added, the manager is asked, the
    tree grows. *)
Inductive manager_step : index_heap * (ptr -> Z) * BIP9ActivationManager -> index_heap * (ptr -> Z) * BIP9ActivationManager -> Prop :=
  | step_add heap nVersion m m' bip : addBIP ActivationTrackerFactory_create bip m = Ret m' -> manager_step (heap, nVersion, m) (heap, nVersion, m')
  | step_ask heap nVersion m m' name tip r : known_or_null heap tip -> networkEnabledBIP heap nVersion m name tip = Ret (r, m') -> manager_step (heap, nVersion, m) (heap, nVersion, m')
  | step_grow heap heap' nVersion nVersion' m : index_ok heap' -> headers_timely heap' -> heap ⊆ heap' -> (forall p, is_Some (heap !! p) -> nVersion' p = nVersion p) ->
      manager_step (heap, nVersion, m) (heap', nVersion', m).

(** What the manager promises: a deployment is enabled when the first one of the
    name is active at the tip. *)
Definition enabled heap nVersion (known : list BIP9Deployment) (name : string) (tip : option ptr) : bool :=
  match List.find (fun b => bool_decide (deploymentName b = name)) known with
  | Some bip => bool_decide (tracked_state heap nVersion bip tip = ACTIVE)
  | None => false
  end.

Record manager_ok (heap : index_heap) (nVersion : ptr -> Z) (m : BIP9ActivationManager) : Prop := mkManagerOk {
  mo_tree : index_ok heap;
  mo_timely : headers_timely heap;
  mo_caches_length : length (thresholdCaches m) = length (knownBIPs m);
  mo_trackers : bip9ActivationTrackers m = seq 0 (length (knownBIPs m));
  mo_bips : Forall (fun b => 0 <= bit b < MAXIMUM_SIMULTANEOUS_DEPLOYMENTS) (knownBIPs m);
  mo_bits : forall k, 0 <= k -> Z.testbit (bitfieldOfBipsInUse m) k = true <-> k ∈ List.map bit (knownBIPs m);
  mo_distinct : NoDup (List.map bit (knownBIPs m));
  mo_names : forall name, bipIndexByName m !! name = fst <$> list_find (fun b => deploymentName b = name) (knownBIPs m);
  mo_caches : forall i b c, knownBIPs m !! i = Some b -> thresholdCaches m !! i = Some c -> 0 < nPeriod b -> tracker_sound heap nVersion b c
}.

Lemma find_list_find name l : List.find (fun b => bool_decide (deploymentName b = name)) l = snd <$> list_find (fun b => deploymentName b = name) l.
Proof.
  induction l as [|b l IH]; [done|]. cbn [List.find list_find]. case_bool_decide as E; [by rewrite decide_True|]. rewrite decide_False, IH by done.
  by destruct (list_find _ l) as [[i x]|].
Qed.

Lemma named_at name l i b : list_find (fun b => deploymentName b = name) l = Some (i, b) -> l !! i = Some b.
Proof. intros H. by apply list_find_Some in H as (H & _). Qed.

Lemma mask_bit b k : 0 <= b < 32 -> 0 <= k -> Z.testbit (u32 (Z.shiftl 1 b)) k = (k =? b).
Proof.
  intros Hb Hk. rewrite Z.shiftl_1_l. unfold u32. rewrite Z.mod_small by (split; [apply Z.pow_nonneg; lia | apply Z.pow_lt_mono_r; lia]).
  rewrite Z.pow2_bits_eqb by lia. apply Z.eqb_sym.
Qed.

Lemma mask_free f b : 0 <= b < 32 -> Z.land (u32 (Z.shiftl 1 b)) f = 0 <-> Z.testbit f b = false.
Proof.
  intros Hb. split.
  - intros E. assert (Z.testbit (Z.land (u32 (Z.shiftl 1 b)) f) b = false) as H by (rewrite E; apply Z.bits_0). rewrite Z.land_spec, mask_bit, Z.eqb_refl in H by lia. done.
  - intros E. apply Z.bits_inj'. intros k Hk. rewrite Z.land_spec, mask_bit, Z.bits_0 by lia. destruct (Z.eqb_spec k b) as [->|]; [by rewrite E | done].
Qed.

Lemma addBIP_ok heap nVersion bip m m' : manager_ok heap nVersion m -> addBIP ActivationTrackerFactory_create bip m = Ret m' -> manager_ok heap nVersion m'.
Proof.
  intros [Ht Htm Hlen Htr Hb Hf Hd Hn Hc] E. unfold addBIP in E. destruct (Z.geb_spec (bit bip) MAXIMUM_SIMULTANEOUS_DEPLOYMENTS) as [Hge|Hlt]; [by injection E as <-|].
  unfold MAXIMUM_SIMULTANEOUS_DEPLOYMENTS in Hlt. destruct (Z.leb_spec 0 (bit bip)) as [H0|]; [|done]. cbn [oassert obind] in E.
  destruct (Z.eqb_spec (Z.land (u32 (Z.shiftl 1 (bit bip))) (bitfieldOfBipsInUse m)) 0) as [Em|]; [|by injection E as <-].
  apply mask_free in Em; [|lia]. assert (bit bip ∉ List.map bit (knownBIPs m)) as Hfree by (rewrite <- Hf by done; by rewrite Em).
  cbn [ActivationTrackerFactory_create] in E. injection E as <-. split; cbn [thresholdCaches bip9ActivationTrackers knownBIPs bitfieldOfBipsInUse bipIndexByName]; try done.
  - rewrite !length_app. cbn [length]. lia.
  - by rewrite Htr, length_app, Nat.add_comm, seq_S.
  - apply Forall_app. split; [done|]. constructor; [|done]. by unfold MAXIMUM_SIMULTANEOUS_DEPLOYMENTS.
  - intros k Hk. rewrite Z.lor_spec, mask_bit, orb_true_iff, Z.eqb_eq, map_app, elem_of_app, Hf by lia. cbn [List.map]. rewrite list_elem_of_singleton. done.
  - rewrite map_app. apply NoDup_app. split; [done|]. split; [|apply NoDup_singleton]. cbn [List.map]. intros x Hx E. apply list_elem_of_singleton in E as ->. done.
  - intros name. rewrite Hn. destruct (list_find (fun b => deploymentName b = deploymentName bip) (knownBIPs m)) as [[i b]|] eqn:Eb; cbn [fmap option_fmap option_map fst].
    + rewrite Hn. destruct (list_find (fun b => deploymentName b = name) (knownBIPs m)) as [[j c]|] eqn:Ec.
      * by rewrite (list_find_app_l _ _ _ _ _ Ec).
      * rewrite (list_find_app_r _ _ _ Ec). cbn [list_find]. rewrite decide_False; [done|]. intros <-. congruence.
    + destruct (decide (deploymentName bip = name)) as [<-|Hne].
      * rewrite lookup_insert_eq, (list_find_app_r _ _ _ Eb). cbn [list_find]. rewrite decide_True by done. cbn. by f_equal.
      * rewrite lookup_insert_ne, Hn by done. destruct (list_find (fun b => deploymentName b = name) (knownBIPs m)) as [[j c]|] eqn:Ec.
        -- by rewrite (list_find_app_l _ _ _ _ _ Ec).
        -- rewrite (list_find_app_r _ _ _ Ec). cbn [list_find]. by rewrite decide_False.
  - intros i b c Hi Hci. apply lookup_app_Some in Hi as [Hi|[Hi Hib]].
    + apply (Hc i b c Hi). rewrite lookup_app_l in Hci; [done|]. rewrite Hlen. by apply lookup_lt_Some in Hi.
    + apply list_lookup_singleton_Some in Hib as [Hz <-]. rewrite lookup_app_r in Hci by lia. rewrite Hlen, Hz in Hci. injection Hci as <-. intros _ _ _. apply sound_empty.
Qed.

(** The tracker divides by the period, unless the deployment is always active. *)
Definition askable (b : BIP9Deployment) : Prop := 0 < nPeriod b \/ nStartTime b = ALWAYS_ACTIVE.

Definition named (known : list BIP9Deployment) (name : string) : option BIP9Deployment := List.find (fun b => bool_decide (deploymentName b = name)) known.

(** Where asking leads, by the deployment of the name. *)
Lemma networkEnabledBIP_step heap nVersion m name tip : manager_ok heap nVersion m ->
  (named (knownBIPs m) name = None /\ networkEnabledBIP heap nVersion m name tip = Ret (false, m)) \/
  exists i b c, named (knownBIPs m) name = Some b /\ knownBIPs m !! i = Some b /\ thresholdCaches m !! i = Some c /\
    networkEnabledBIP heap nVersion m name tip =
      let* cache := update heap nVersion b tip c in
      let* '(result, cache) := getLastCachedStatePriorToBlockIndex heap b tip cache in
      Ret (bool_decide (result = ACTIVE), mkManager (<[i := cache]> (thresholdCaches m)) (bip9ActivationTrackers m) (knownBIPs m) (bitfieldOfBipsInUse m) (bipIndexByName m)).
Proof.
  intros [Ht Htm Hlen Htr Hb Hf Hd Hn Hc]. unfold networkEnabledBIP, named. rewrite Hn, find_list_find.
  destruct (list_find (fun b => deploymentName b = name) (knownBIPs m)) as [[i b]|] eqn:Ef; cbn [fmap option_fmap option_map fst snd]; [right|by left].
  pose proof (named_at _ _ _ _ Ef) as Hi. pose proof (lookup_lt_Some _ _ _ Hi) as Hl. destruct (lookup_lt_is_Some_2 (thresholdCaches m) i ltac:(lia)) as [c Hci]. exists i, b, c.
  rewrite Htr, lookup_seq_lt by done. cbn [oaccess obind Nat.add]. rewrite Hi. cbn [oaccess obind]. by rewrite Hci.
Qed.

(** Writing a cache back. *)
Lemma cache_written heap nVersion m i b cache : manager_ok heap nVersion m -> knownBIPs m !! i = Some b -> (0 < nPeriod b -> tracker_sound heap nVersion b cache) ->
  manager_ok heap nVersion (mkManager (<[i := cache]> (thresholdCaches m)) (bip9ActivationTrackers m) (knownBIPs m) (bitfieldOfBipsInUse m) (bipIndexByName m)).
Proof.
  intros [Ht Htm Hlen Htr Hb Hf Hd Hn Hc] Hi Hs. pose proof (lookup_lt_Some _ _ _ Hi) as Hl. split; cbn [thresholdCaches bip9ActivationTrackers knownBIPs bitfieldOfBipsInUse bipIndexByName]; try done; [by rewrite length_insert|].
  intros j b' c' Hj Hcj HP. destruct (decide (i = j)) as [<-|Hne].
  - rewrite list_lookup_insert_eq in Hcj by lia. injection Hcj as <-. assert (b' = b) as -> by congruence. by apply Hs.
  - rewrite list_lookup_insert_ne in Hcj by done. by apply (Hc j).
Qed.

(** Asking for a deployment with a period gives the promised answer and keeps the
    caches true. *)
Lemma networkEnabledBIP_ok heap nVersion m name tip : manager_ok heap nVersion m -> known_or_null heap tip -> (forall b, named (knownBIPs m) name = Some b -> askable b) ->
  exists m', networkEnabledBIP heap nVersion m name tip = Ret (enabled heap nVersion (knownBIPs m) name tip, m') /\ manager_ok heap nVersion m'.
Proof.
  intros Hm Hk HP. unfold enabled. fold (named (knownBIPs m) name). destruct (networkEnabledBIP_step heap nVersion m name tip Hm) as [[-> ->]|(i & b & c & En & Hi & Hci & ->)]; [by exists m|].
  rewrite En. destruct (decide (nStartTime b = ALWAYS_ACTIVE)) as [Ha|Ha].
  - unfold update, getLastCachedStatePriorToBlockIndex, tracked_state. rewrite (proj2 (Z.eqb_eq _ _) Ha). cbn [obind]. eexists. split; [done|]. apply (cache_written _ _ _ _ b); [done..|]. intros _ H. by destruct H.
  - destruct (HP b En) as [HPb|]; [|done]. pose proof (proj1 (Forall_lookup _ _) (mo_bips _ _ _ Hm) i b Hi) as Hbit. cbv beta in Hbit. unfold MAXIMUM_SIMULTANEOUS_DEPLOYMENTS in Hbit.
    destruct (update_spec heap nVersion b (mo_tree _ _ _ Hm) (mo_timely _ _ _ Hm) HPb ltac:(lia) tip c Hk (mo_caches _ _ _ Hm i b c Hi Hci HPb)) as (c1 & -> & Hs1 & Hcov). cbn [obind].
    destruct (getLast_spec heap nVersion b (mo_tree _ _ _ Hm) (mo_timely _ _ _ Hm) HPb ltac:(lia) tip c1 Hk Hs1 Hcov) as (c2 & -> & Hs2). cbn [obind].
    eexists. split; [done|]. by eapply cache_written.
Qed.

(** Asking, whatever the period, if it returns. *)
Lemma networkEnabledBIP_keeps heap nVersion m name tip r m' : manager_ok heap nVersion m -> known_or_null heap tip -> networkEnabledBIP heap nVersion m name tip = Ret (r, m') -> manager_ok heap nVersion m'.
Proof.
  intros Hm Hk E. assert (Hd : (forall b, named (knownBIPs m) name = Some b -> askable b) \/ ~ (forall b, named (knownBIPs m) name = Some b -> askable b)).
  { destruct (named (knownBIPs m) name) as [b|]; [|by left]. destruct (decide (0 < nPeriod b)) as [H|H]; [left; intros b' [= <-]; by left|]. destruct (decide (nStartTime b = ALWAYS_ACTIVE)) as [Ha|Ha]; [left; intros b' [= <-]; by right|]. right. intros Hx. by destruct (Hx b eq_refl). }
  destruct Hd as [HP|HP].
  - destruct (networkEnabledBIP_ok heap nVersion m name tip Hm Hk HP) as (m2 & E2 & Hm2). rewrite E in E2. by injection E2 as -> ->.
  - destruct (networkEnabledBIP_step heap nVersion m name tip Hm) as [[_ E2]|(i & b & c & En & Hi & Hci & E2)]; rewrite E2 in E; [by injection E as _ <-|].
    apply obind_ret_inv in E as (c1 & _ & E). apply obind_ret_inv in E as ([res c2] & _ & E). injection E as _ <-. apply (cache_written _ _ _ _ b); [done..|]. intros H. exfalso. apply HP. intros b' Hb'. left. congruence.
Qed.

(** A period of zero divides by zero at every tip. *)
Lemma zero_period_undefined heap nVersion m name p b : manager_ok heap nVersion m -> is_Some (heap !! p) -> named (knownBIPs m) name = Some b -> nPeriod b = 0 -> nStartTime b <> ALWAYS_ACTIVE ->
  networkEnabledBIP heap nVersion m name (Some p) = Undef.
Proof.
  intros Hm [e He] En H0 Ha. destruct (networkEnabledBIP_step heap nVersion m name (Some p) Hm) as [[En' _]|(i & b' & c & En' & _ & _ & ->)]; [congruence|]. assert (b' = b) as -> by congruence.
  unfold update. rewrite (proj2 (Z.eqb_neq _ _) Ha). unfold getMostRecentStartingBlock, deref. cbn [oaccess obind]. rewrite He. cbn [oaccess obind]. unfold rem_period. by rewrite H0.
Qed.

Lemma manager_step_ok s s' : manager_step s s' -> manager_ok (fst (fst s)) (snd (fst s)) (snd s) -> manager_ok (fst (fst s')) (snd (fst s')) (snd s').
Proof.
  intros [h v m m' bip E|h v m m' name tip r Hk E|h h' v v' m Hok Ht Hsub Hv] Hm; cbn [fst snd] in *.
  - exact (addBIP_ok h v bip m m' Hm E).
  - by apply (networkEnabledBIP_keeps h v m name tip r).
  - destruct Hm as [Ht0 Htm Hlen Htr Hb Hf Hd Hn Hc]. split; try done. intros i b c Hi Hci HP. by apply (tracker_sound_grown h h' v v' b Ht0 Hsub Hv), (Hc i b c).
Qed.

(** C7: However deployments of whatever period were added, the manager asked and the
    tree extended, asking for a name whose first deployment has a positive period or
    is always active, or that has none, does not fail and tells whether that
    deployment is active at the tip; asking for one with a period of zero that is not always active divides
    by zero at every tip; at
    most 29 deployments are known and no two of them share a bit. *)
Theorem manager_correct heap0 nVersion0 heap nVersion m : index_ok heap0 -> headers_timely heap0 ->
  rtc manager_step (heap0, nVersion0, BIP9ActivationManager_new) (heap, nVersion, m) ->
  (forall name tip, known_or_null heap tip -> (forall b, named (knownBIPs m) name = Some b -> askable b) ->
    exists m', networkEnabledBIP heap nVersion m name tip = Ret (enabled heap nVersion (knownBIPs m) name tip, m')) /\
  (forall name p b, is_Some (heap !! p) -> named (knownBIPs m) name = Some b -> nPeriod b = 0 -> nStartTime b <> ALWAYS_ACTIVE -> networkEnabledBIP heap nVersion m name (Some p) = Undef) /\
  NoDup (List.map bit (knownBIPs m)) /\ (length (knownBIPs m) <= 29)%nat.
Proof.
  intros Hok Ht Hr. assert (manager_ok heap nVersion m) as Hm.
  { assert (forall s s', rtc manager_step s s' -> manager_ok (fst (fst s)) (snd (fst s)) (snd s) -> manager_ok (fst (fst s')) (snd (fst s')) (snd s')) as Hrtc.
    { intros s s' H. induction H as [s|s s1 s2 H1 _ IH]; [done|]. intros Hs. by apply IH, (manager_step_ok s). }
    apply (Hrtc _ _ Hr). split; cbn; try done; [intros k Hk; rewrite Z.bits_0; split; [done | by intros H%elem_of_nil] | apply NoDup_nil_2]. }
  split; [|split; [|split; [apply Hm|]]].
  - intros name tip Hk HP. destruct (networkEnabledBIP_ok heap nVersion m name tip Hm Hk HP) as (m' & E & _). by exists m'.
  - intros name p b Hp En H0 Ha. by apply (zero_period_undefined heap nVersion m name p b).
  - destruct Hm as [_ _ _ _ Hb _ Hd _ _]. rewrite <- (length_map bit). change 29%nat with (length (seqZ 0 29)). apply submseteq_length, NoDup_submseteq; [done|]. intros x Hx.
    apply list_elem_of_In, in_map_iff in Hx as (b & <- & Hin). apply elem_of_seqZ. rewrite Forall_forall in Hb. assert (0 <= bit b < MAXIMUM_SIMULTANEOUS_DEPLOYMENTS) as Hr' by (apply Hb; by apply list_elem_of_In).
    unfold MAXIMUM_SIMULTANEOUS_DEPLOYMENTS in Hr'. lia.
Qed.

(** * Examples *)

Lemma line_14_ok : index_ok (block_line 14) /\ headers_timely (block_line 14).
Proof. split; [apply entry_linkedb_ok | apply timelyb_ok]; vm_compute; reflexivity. Qed.

(** The tracker takes the time of the first block of the period, the checker that
    of the block before it. *)
Lemma tracker_checker_differ (bip := mkDeployment "sample" 1 480 10000 13 2) :
  tracked_state (block_line 14) line_version bip (Some 14%positive) = STARTED /\ bip9_state (block_line 14) line_version bip (Some 13%positive) = DEFINED.
Proof. split; vm_compute; reflexivity. Qed.

(** The deployment of the default constructor makes the tracker divide by zero. *)
Definition BIP9Deployment_default : BIP9Deployment := mkDeployment "invalid" 0 1 0 0 1.
Lemma default_deployment_divides_by_zero heap nVersion p b cache : heap !! p = Some b -> update heap nVersion BIP9Deployment_default (Some p) cache = Undef.
Proof. intros Hb. unfold update, getMostRecentStartingBlock, deref. cbn [oaccess obind]. by rewrite Hb. Qed.

Lemma tracker_correct_witness : exists cache1 cache2, update (block_line 8) line_version line_bip (Some 7%positive) ∅ = Ret cache1 /\
  getLastCachedStatePriorToBlockIndex (block_line 8) line_bip (Some 7%positive) cache1 = Ret (ACTIVE, cache2).
Proof.
  destruct (tracker_correct (block_line 8) line_version line_bip (Some 7%positive) ∅ (proj1 line_ok) (proj2 line_ok)) as (c1 & c2 & E1 & _ & E2 & _);
    [reflexivity | by cbn | vm_compute; by eexists | intros _ _; apply sound_empty|].
  exists c1, c2. split; [exact E1|]. rewrite E2. f_equal.
Defined.

(** A deployment with a period, and the default one beside it. *)
Definition line_default : BIP9Deployment := mkDeployment "invalid" 7 1 0 0 1.
Definition line_manager : BIP9ActivationManager :=
  match (let* m := addBIP ActivationTrackerFactory_create line_bip BIP9ActivationManager_new in addBIP ActivationTrackerFactory_create line_default m) with Ret m => m | _ => BIP9ActivationManager_new end.
Definition line_manager_before : BIP9ActivationManager :=
  match addBIP ActivationTrackerFactory_create line_bip BIP9ActivationManager_new with Ret m => m | _ => BIP9ActivationManager_new end.

Lemma manager_correct_witness : (exists m', networkEnabledBIP (block_line 8) line_version line_manager "sample" (Some 7%positive) = Ret (true, m')) /\
  networkEnabledBIP (block_line 8) line_version line_manager "invalid" (Some 7%positive) = Undef.
Proof.
  destruct (manager_correct (block_line 8) line_version (block_line 8) line_version line_manager (proj1 line_ok) (proj2 line_ok)) as (H & H0 & _).
  - eapply rtc_l; [apply (step_add _ _ _ line_manager_before line_bip); vm_compute; reflexivity|]. apply rtc_once, (step_add _ _ _ _ line_default). vm_compute. reflexivity.
  - split; [|apply (H0 _ _ line_default); [vm_compute; by eexists | reflexivity | reflexivity | discriminate]].
    destruct (H "sample"%string (Some 7%positive)) as [m' E]; [vm_compute; by eexists | intros b [= <-]; left; reflexivity|]. exists m'. rewrite E. f_equal.
Defined.
