(* ===== verification/Disconnect.v ===== *)
(** * Disconnecting a block undoes connecting it

    The undo data that [ConnectBlock] collects takes [DisconnectBlock] back to the
    unspent outputs before the block, for whole blocks with transactions that
    spend each other's outputs.  The argument goes through the transactions
    backwards and carries the equivalence of coins views up to coinstake flags. *)

From Stdlib Require Import ZArith Lia Bool String.
From stdpp Require Import base option numbers list gmap.
From S2P Require Import Prelude BaseUInt UInt256 Serialize Opcodes ScriptNum Script StackManager Interpreter Transaction Merkle Standard Coins CoinsCache CoinsUpdate Hashes SigHash BlockIndex Chain Subsidy Base58 MasternodeVotes Incentives Pow Validation IndexUpdates ConnectBlock Supply BlockChecks.

Open Scope Z_scope.
Open Scope outcome_scope.

(** ** Coins of blocks after the genesis block *)

Definition sane_coins (c : CCoins) : Prop := nulls_plain (coins_vout c) /\ coins_nHeight c <> 0.
(** What every view shows: spent outputs are null, and the genesis block has no
    unspent outputs. *)
Definition sane (v : CCoinsView) : Prop := forall k c, coins_at v k = Some c -> sane_coins c.
(** The same unspent outputs, up to lost coinstake flags. *)
Definition agree (v v' : CCoinsView) : Prop := forall k, option_Forall2 restores (coins_at v k) (coins_at v' k).

Lemma agree_refl v : agree v v.
Proof. intros k. destruct (coins_at v k); constructor. reflexivity. Qed.

Lemma agree_sane v v' : agree v v' -> sane v' -> sane v.
Proof.
  intros Ha Hs k c Hk. specialize (Ha k). rewrite Hk in Ha. inversion Ha as [x y Hr Ex Ey|]; subst. symmetry in Ey.
  destruct (Hs k y Ey) as [H1 H2]. unfold sane_coins. by rewrite (re_vout _ _ Hr), (re_height _ _ Hr).
Qed.

Lemma agree_exact v v' k : agree v v' -> (forall c, coins_at v' k = Some c -> fCoinStake c = false) -> coins_at v k = coins_at v' k.
Proof.
  intros Ha Hf. specialize (Ha k). inversion Ha as [a b Hab Ea Eb|Ea Eb]; [|done]. f_equal. apply restores_exact; [done | by apply Hf].
Qed.

Lemma reads_sane v v' : reads v v' -> sane v -> sane v'.
Proof. intros Hr Hs k c Hk. apply (Hs k). by rewrite <-(reads_coins v v' k Hr). Qed.

Lemma Cleanup_plain c : nulls_plain (coins_vout c) -> nulls_plain (coins_vout (Cleanup c)).
Proof.
  cbn [Cleanup with_vout coins_vout]. destruct (drop_nulls_split (coins_vout c)) as (p & Hs & _). unfold nulls_plain. intros H. rewrite Hs in H.
  by apply Forall_app in H as [H _].
Qed.

Lemma FromTx_sane tx h : h <> 0 -> Forall (fun o => 0 <= nValue o) (vout tx) -> sane_coins (FromTx tx h).
Proof.
  intros Hh H. split; [|done]. unfold FromTx, ClearUnspendable. apply Cleanup_plain. cbn [with_vout coins_vout]. unfold nulls_plain.
  apply Forall_forall. intros o (x & -> & Hx)%list_elem_of_fmap. unfold clear_unspendable. destruct (IsUnspendable _); [done|].
  rewrite Forall_forall in H. specialize (H x Hx). unfold CTxOut_IsNull. intros E%Z.eqb_eq. lia.
Qed.

(** An entry that one modification changed. *)
Lemma modify_sane {R} v k (f : CCoins -> CCoins * R) v' r :
  cache_ok v -> @store_modify CCoinsView cache_store R v k f = Ret (v', r) -> sane v ->
  (forall c, unspent (Some c) = coins_at v k -> (f c).2 = r -> IsPruned (f c).1 = false -> sane_coins (f c).1) -> sane v'.
Proof.
  intros Hok Hm Hs Hf. destruct (@store_modify_spec CCoinsView cache_store R v k f Hok) as (c0 & v2 & _ & Hu & Hm2 & _ & Hk & Ho).
  change (@store_coins CCoinsView cache_store) with coins_at in *.
  rewrite Hm in Hm2. injection Hm2 as -> ->. intros k' c Hc. destruct (decide (k' = k)) as [->|Hne]; [|apply (Hs k' c); by rewrite <-(Ho k' Hne)].
  rewrite Hk in Hc. cbn [unspent] in Hc. rewrite IsPruned_Cleanup in Hc.
  destruct (IsPruned (f c0).1) eqn:Ep; [done|]. injection Hc as <-. destruct (Hf c0 Hu eq_refl Ep) as [H1 H2]. split; [by apply Cleanup_plain | done].
Qed.

(** ** One transaction *)

Lemma spend_inputs_sane ins : forall v v' undos, cache_ok v -> sane v ->
  CoinsUpdate.spend_inputs v ins = Ret (v', undos) -> sane v'.
Proof.
  induction ins as [|i ins IH]; intros v v' undos Hok Hs E; cbn [CoinsUpdate.spend_inputs] in E; [by injection E as <- _|].
  destruct (store_modify _ v _ _) as [[v1 [b u]]| | |] eqn:Em; try done. cbn [obind fst snd] in E. destruct b; cbn [oassert obind] in E; [|done].
  destruct (CoinsUpdate.spend_inputs v1 ins) as [[v2 us]| | |] eqn:E2; try done. injection E as <- _.
  destruct (@store_modify_spec CCoinsView cache_store _ v (prev_hash (prevout i)) (fun c => Spend c (Z.to_nat (prev_n (prevout i)))) Hok) as (c0 & v3 & _ & _ & Hm & Hok1 & _).
  rewrite Em in Hm. injection Hm as -> _. apply (IH v3 v2 us); [exact Hok1| |done].
  eapply modify_sane; [exact Hok | exact Em | exact Hs |]. intros c Hu Hr Hp. destruct (Spend_frame c (Z.to_nat (prev_n (prevout i)))) as (_ & _ & Fh & _ & _ & Fp).
  cbn [unspent] in Hu. destruct (IsPruned c) eqn:Ep; [|symmetry in Hu; destruct (Hs _ _ Hu) as [H1 H2]; split; [by apply Fp | by rewrite Fh]].
  exfalso. unfold Spend in Hr. destruct (coins_vout c !! Z.to_nat (prev_n (prevout i))) as [o|] eqn:Eo; [|done].
  unfold IsPruned in Ep. rewrite forallb_forall in Ep. rewrite (Ep o) in Hr by (by apply list_elem_of_In, (list_elem_of_lookup_2 _ _ _ Eo)). done.
Qed.

(** Restoring inputs changes only the transactions they name. *)
Lemma restore_inputs_frame l : forall v b v' b' k, cache_ok v -> restore_inputs l v b = Ret (v', b') ->
  Forall (fun x => prev_hash (prevout x.1) <> k) l -> coins_at v' k = coins_at v k.
Proof.
  induction l as [|[i u] l IH]; intros v b v' b' k Hok E Hf; cbn [restore_inputs] in E; [by injection E as <- _|].
  apply Forall_cons in Hf as [Hi Hf]. cbn [fst] in Hi.
  destruct (@store_modify_spec CCoinsView cache_store bool v (prev_hash (prevout i))
    (fun coins => UpdateCoinsForRestoredInputs (Z.to_nat (prev_n (prevout i))) u coins b) Hok) as (c0 & v1 & _ & _ & Hm & Hok1 & _ & Ho).
  rewrite Hm in E. cbn [obind] in E. rewrite (IH _ _ _ _ k Hok1 E Hf). apply Ho. congruence.
Qed.

Definition untouched (tx : CMutableTransaction) (k : list Z) : Prop :=
  IsCoinBase tx = true \/ Forall (fun i => prev_hash (prevout i) <> k) (vin tx).

(** The inputs of [tx] are distinct unspent outputs that the view shows. *)
Definition inputs_there (v : CCoinsView) (tx : CMutableTransaction) : Prop :=
  IsCoinBase tx = false -> NoDup (map spends (vin tx)) /\ Forall (fun i => is_Some (output_at v i)) (vin tx).

Lemma there_spendable v i : sane v -> is_Some (output_at v i) -> @spendable CCoinsView cache_store v (spends i).
Proof.
  intros Hs [o Ho]. destruct (output_available v i o Ho) as (c & _ & Hc & Ha & _). destruct (Hs _ _ Hc) as [H1 H2]. by exists c.
Qed.

(** The removal of the outputs of a transaction that were shown as it added them. *)
Lemma remove_added v tx hash h : cache_ok v -> coins_at v hash = unspent (Some (FromTx tx h)) ->
  exists v', RemoveTxOutputsFromCache tx hash h v = Ret (v', true) /\ cache_ok v' /\ coins_at v' hash = None /\
    forall k, k <> hash -> coins_at v' k = coins_at v k.
Proof.
  intros Hok Hk. destruct (@store_modify_spec CCoinsView cache_store bool v hash (remove_outputs tx h) Hok) as (c1 & v' & Hcl & Hu & Hm & Hok' & Hk' & Ho).
  assert (Hu' : unspent (Some c1) = unspent (Some (FromTx tx h))) by (rewrite Hu; exact Hk).
  rewrite (remove_outputs_spec tx h c1 Hcl Hu') in Hm, Hk'. exists v'. split; [exact Hm|]. split; [exact Hok'|]. split; [exact Hk' | exact Ho].
Qed.

(** What connecting a transaction does to the view, and that it can be undone on
    every view that agrees with the result and has the added outputs as they were
    added. *)
Lemma connect_transaction v tx h v1 undos :
  cache_ok v -> sane v -> coins_at v (tx_hash tx) = None -> h <> 0 -> Forall (fun o => 0 <= nValue o) (vout (tx_body tx)) -> inputs_there v (tx_body tx) ->
  UpdateCoinsWithTransaction tx v h = Ret (v1, undos) ->
  cache_ok v1 /\ sane v1 /\ coins_at v1 (tx_hash tx) = unspent (Some (FromTx (tx_body tx) h)) /\
  (forall k, k <> tx_hash tx -> untouched (tx_body tx) k -> coins_at v1 k = coins_at v k) /\
  (forall k, k <> tx_hash tx -> coins_at v k = None -> coins_at v1 k = None) /\
  (IsCoinBase (tx_body tx) = true -> undos = []) /\
  forall v1' txundo, cache_ok v1' -> agree v1' v1 -> coins_at v1' (tx_hash tx) = coins_at v1 (tx_hash tx) ->
    (IsCoinBase (tx_body tx) = false -> txundo = Some undos) ->
    exists v2, UpdateCoinsReversingTransaction (tx_body tx) (tx_hash tx) h v1' txundo = Ret (v2, OK) /\ cache_ok v2 /\ agree v2 v /\
      forall k, k <> tx_hash tx -> untouched (tx_body tx) k -> coins_at v2 k = coins_at v1' k.
Proof.
  intros Hok Hs Hnew Hh Hpos Hins E. unfold UpdateCoinsWithTransaction in E.
  assert (Hsp : exists w us, (if negb (IsCoinBase (tx_body tx)) then CoinsUpdate.spend_inputs v (vin (tx_body tx)) else Ret (v, [])) = Ret (w, us) /\
    cache_ok w /\ sane w /\ (IsCoinBase (tx_body tx) = true -> us = []) /\ (IsCoinBase (tx_body tx) = false -> length us = length (vin (tx_body tx))) /\ (forall k, untouched (tx_body tx) k -> coins_at w k = coins_at v k) /\
    (forall k, coins_at v k = None -> untouched (tx_body tx) k) /\
    forall w', cache_ok w' -> agree w' w -> exists w2, (if IsCoinBase (tx_body tx) then Ret (w', true) else restore_inputs (rev (combine (vin (tx_body tx)) us)) w' true) = Ret (w2, true) /\
      cache_ok w2 /\ agree w2 v).
  { destruct (IsCoinBase (tx_body tx)) eqn:Ecb; cbn [negb].
    { exists v, []. repeat (split; [done|]). split; [intros k _; by left|]. intros w' Hw Ha. by exists w'. }
    destruct (Hins Ecb) as [Hnd Hall]. pose proof (Forall_impl _ _ _ Hall (fun i => there_spendable v i Hs)) as Hsp.
    destruct (@spend_inputs_restored CCoinsView cache_store _ v Hok Hnd Hsp) as (w & us & Ew & Hokw & Hlen & Hframe & Hback).
    exists w, us. split; [done|]. split; [done|]. split; [exact (spend_inputs_sane _ _ _ _ Hok Hs Ew)|]. split; [done|]. split; [done|].
    split; [intros k [?|Hk]; [congruence | by apply Hframe]|]. split; [|done]. intros k Hk. right. eapply Forall_impl; [exact Hsp|].
    intros i (c & Hc & _) Ei. cbn [spends fst] in Hc. change (@store_coins CCoinsView cache_store) with coins_at in Hc. congruence. }
  destruct Hsp as (w & us & Ew & Hokw & Hsw & Hcb & Hlen & Hframe & Hnone & Hback). rewrite Ew in E. cbn [obind] in E.
  destruct (@store_modify_spec CCoinsView cache_store unit w (tx_hash tx) (fun _ => (FromTx (tx_body tx) h, tt)) Hokw) as (c0 & w1 & _ & _ & Hm & Hok1 & Hk1 & Ho1).
  rewrite Hm in E. cbn [obind fst snd] in E. injection E as <- <-. cbn [fst] in Hk1. rewrite Cleanup_id in Hk1 by apply Cleanup_clean.
  change (@store_coins CCoinsView cache_store) with coins_at in Hk1, Ho1.
  split; [done|]. split.
  { eapply modify_sane; [exact Hokw | exact Hm | done|]. intros c _ _ _. by apply FromTx_sane. }
  split; [done|]. split; [intros k Hne Hu; rewrite Ho1 by done; by apply Hframe|].
  split; [intros k Hne Hk; rewrite Ho1, Hframe by auto; done|]. split; [done|].
  intros v1' txundo Hok' Ha Hh' Hundo. unfold UpdateCoinsReversingTransaction.
  destruct (remove_added v1' (tx_body tx) (tx_hash tx) h Hok') as (v2 & -> & Hok2 & Hn2 & Hf2); [congruence|]. cbn [obind].
  assert (Ha2 : agree v2 w).
  { intros k. destruct (decide (k = tx_hash tx)) as [->|Hne]; [rewrite Hn2, Hframe, Hnew by auto; constructor|]. rewrite Hf2 by done. rewrite <-(Ho1 k Hne). apply Ha. }
  destruct (Hback v2 Hok2 Ha2) as (v3 & E3 & Hok3 & Ha3). destruct (IsCoinBase (tx_body tx)) eqn:Ecb.
  - injection E3 as <-. exists v2. split; [done|]. split; [done|]. split; [done|]. intros k Hne _. by apply Hf2.
  - rewrite (Hundo eq_refl). cbn [oaccess obind]. rewrite (Hlen eq_refl), Nat.eqb_refl. cbn [negb]. rewrite E3. cbn [obind]. exists v3.
    split; [done|]. split; [done|]. split; [done|]. intros k Hne [?|Hu]; [congruence|]. rewrite <-(Hf2 k Hne).
    apply (restore_inputs_frame _ _ _ _ _ k Hok2 E3), Forall_rev, Forall_forall. intros [i u] Hi. rewrite Forall_forall in Hu. apply Hu.
    apply list_elem_of_In. apply list_elem_of_In, in_combine_l in Hi. done.
Qed.

(** ** The index entries of a reversal can be collected *)

Lemma restores_output v v' i : agree v v' -> output_at v i = output_at v' i.
Proof.
  intros Ha. unfold output_at. specialize (Ha (prev_hash (prevout i))). inversion Ha as [a b Hab Ea Eb|Ea Eb]; [|done].
  unfold IsAvailable. by rewrite (re_vout _ _ Hab).
Qed.

Lemma unspend_inputs_returns fAddress fSpent ref l : forall v u, view_ok v -> Forall (fun x => is_Some (output_at v x.2)) l ->
  exists v' u', unspend_inputs fAddress fSpent ref v l u = Ret (v', u') /\ reads v v'.
Proof.
  induction l as [|[j i] l IH]; intros v u Hok H; [exists v, u; split; [done | by apply reads_refl]|].
  apply Forall_cons in H as [[o Ho] H]. cbn [unspend_inputs snd] in *. destruct fAddress.
  - destruct (GetOutputFor_spec v i o Hok Ho) as (v1 & -> & Hr). cbn [obind].
    match goal with |- context [unspend_inputs _ _ _ _ _ ?w] => destruct (IH v1 w (proj1 Hr)) as (v2 & u2 & E & Hr2) end.
    { eapply Forall_impl; [exact H|]. intros x Hx. cbn beta in Hx. by rewrite (reads_output v v1 _ Hr). }
    exists v2, u2. split; [done | by eapply reads_trans].
  - cbn [obind]. apply IH; done.
Qed.

Lemma ReverseTransaction_returns fAddress fSpent ref tx v u : view_ok v ->
  (IsCoinBase (tx_body tx) = false -> Forall (fun i => is_Some (output_at v i)) (vin (tx_body tx))) ->
  exists v' u', ReverseTransaction fAddress fSpent ref tx v u = Ret (v', u') /\ reads v v'.
Proof.
  intros Hok H. unfold ReverseTransaction, ReverseUpdatesFromInputs. destruct (IsCoinBase _); [eexists _, _; split; [done | by apply reads_refl]|].
  apply unspend_inputs_returns; [done|]. apply Forall_rev, Forall_lookup. intros n [m i] Hn. rewrite list_lookup_imap in Hn.
  apply fmap_Some in Hn as (i' & Hi & [= -> ->]). exact (proj1 (Forall_lookup _ _) (H eq_refl) _ _ Hi).
Qed.

(** ** The transactions of a block *)

Lemma disconnect_loop_app fAddress fSpent undo h tolerant l1 : forall l2 v c u v' c' u',
  disconnect_loop fAddress fSpent l1 undo h tolerant v c u = Ret (v', true, c', u') ->
  disconnect_loop fAddress fSpent (l1 ++ l2) undo h tolerant v c u = disconnect_loop fAddress fSpent l2 undo h tolerant v' c' u'.
Proof.
  induction l1 as [|[i tx] l1 IH]; intros l2 v c u v' c' u' E; cbn [disconnect_loop app] in *; [by injection E as -> -> ->|].
  destruct (if (0 <? i)%nat then _ else _) as [tu| | |]; try done. cbn [obind] in *.
  destruct (UpdateCoinsReversingTransaction _ _ _ _ _) as [[w st]| | |]; try done. cbn [obind] in *.
  destruct (CheckTxReversalStatus st c) as [[] c2]; cbn [negb] in *; [|done].
  destruct (if negb tolerant then _ else _) as [[w2 u2]| | |]; try done. cbn [obind] in *. by apply IH.
Qed.

(** A coinstake output that this block created. *)
Definition fresh_stake (v : CCoinsView) (h : Z) (k : list Z) : Prop :=
  exists c, coins_at v k = Some c /\ fCoinStake c = true /\ coins_nHeight c = h.

Lemma fresh_stake_untouched maturity heap blockIndexMap v tx h k p bi :
  0 < maturity -> matured maturity heap blockIndexMap v tx -> blockIndexMap !! (best v : list Z) = Some p -> heap !! p = Some bi -> nHeight bi + 1 = h ->
  fresh_stake v h k -> untouched tx k.
Proof.
  intros Hm [Hcb|(p' & bi' & Hp' & Hbi' & Him)] Hp Hbi Hh (c & Hk & Hs & Hc); [by left|]. right. simplify_eq. eapply Forall_impl; [exact Him|].
  intros i Hi <-. unfold immature in Hi. rewrite Hk, Hs, Hc, orb_true_r in Hi. cbn [andb] in Hi. apply Z.ltb_ge in Hi. lia.
Qed.

Section Loop.
Context {SH : ScriptHashes}.
Variable Verify : CPubKey -> base_uint -> valtype -> bool.
Variables (maxMoney maturity : Z).
Hypothesis max_moderate : 0 <= maxMoney < 2 ^ 62.
Hypothesis maturity_pos : 0 < maturity.
Variable heap : index_heap.
Variable blockIndexMap : gmap (list Z) positive.
Variables fScriptChecks parallel fAddressIndex fSpentIndex fJustCheck : bool.
Variables (nHeight nFile nDataPos : Z) (nExpectedMint : CBlockRewards).
Hypothesis height_int : 0 < nHeight < 2 ^ 31.
(** The entry of the block before. *)
Variables (prev : positive) (prev_entry : CBlockIndex).
Hypothesis prev_known : heap !! prev = Some prev_entry.
Hypothesis prev_height : BlockIndex.nHeight prev_entry + 1 = nHeight.

Definition positions (i : nat) (txs : list CTransaction) : list (nat * CTransaction) := imap (fun n tx => ((i + n)%nat, tx)) txs.

Lemma positions_cons i tx txs : positions i (tx :: txs) = (i, tx) :: positions (S i) txs.
Proof.
  unfold positions. rewrite imap_cons, Nat.add_0_r. f_equal. apply imap_ext. intros n x _. cbn. f_equal. lia.
Qed.

(** Undo data is still missing for the transactions from position [i] on. *)
Definition undo_ready (i : nat) (txs : list CTransaction) (undo : list (list CTxInUndo)) : Prop :=
  forall j, (0 < j)%nat -> (i <= j < i + length txs)%nat -> undo !! (j - 1)%nat = Some [].

Definition hashes (txs : list CTransaction) : list (list Z) := map (fun tx => tx_hash tx : list Z) txs.

(** The effect of the transactions and how the loop of [DisconnectBlock] undoes it. *)
Record undone_by (i : nat) (txs : list CTransaction) (s s' : BlockCheck) : Prop := mkUndone {
  ub_ok : cache_ok (bc_view s'); ub_sane : sane (bc_view s'); ub_length : length (vtxundo s') = length (vtxundo s);
  ub_earlier : forall j, (S j < i)%nat -> vtxundo s' !! j = vtxundo s !! j;
  ub_frame : forall k, k ∉ hashes txs -> Forall (fun tx => untouched (tx_body tx) k) txs -> coins_at (bc_view s') k = coins_at (bc_view s) k;
  ub_stakes : forall k, fresh_stake (bc_view s) nHeight k -> k ∉ hashes txs -> Forall (fun tx => untouched (tx_body tx) k) txs;
  ub_back : forall tolerant v c u, cache_ok v -> agree v (bc_view s') ->
    Forall (fun tx => IsCoinStake (tx_body tx) = true -> coins_at v (tx_hash tx) = coins_at (bc_view s') (tx_hash tx)) txs ->
    exists v2 u2, disconnect_loop fAddressIndex fSpentIndex (rev (positions i txs)) (vtxundo s') nHeight tolerant v c u = Ret (v2, true, c, u2) /\
      cache_ok v2 /\ agree v2 (bc_view s) /\
      forall k, k ∉ hashes txs -> Forall (fun tx => untouched (tx_body tx) k) txs -> coins_at v2 k = coins_at v k
}.

(** One round of the loop of [DisconnectBlock]. *)
Lemma disconnect_one i tx undo tolerant v1 v2 c u txundo :
  (if (0 <? i)%nat then let* l := oaccess (undo !! (i - 1)%nat) in Ret (Some l) else Ret None : io (option (list CTxInUndo))) = Ret txundo ->
  UpdateCoinsReversingTransaction (tx_body tx) (tx_hash tx) nHeight v1 txundo = Ret (v2, OK) -> cache_ok v2 ->
  (IsCoinBase (tx_body tx) = false -> Forall (fun i => is_Some (output_at v2 i)) (vin (tx_body tx))) ->
  exists v3 u3, disconnect_loop fAddressIndex fSpentIndex [(i, tx)] undo nHeight tolerant v1 c u = Ret (v3, true, c, u3) /\ reads v2 v3.
Proof.
  intros Etu Erev Hok Hout. cbn [disconnect_loop]. rewrite Etu. cbn [obind].
  assert (Eh : i32 (ref_blockHeight (TransactionLocationReference_of tx nHeight (Z.of_nat i))) = nHeight).
  { cbn [ref_blockHeight TransactionLocationReference_of]. unfold u32, i32. rewrite (Z.mod_small nHeight), Z.mod_small by lia. lia. }
  rewrite Eh. cbn [ref_hash TransactionLocationReference_of]. rewrite Erev. cbn [obind CheckTxReversalStatus negb]. destruct tolerant; cbn [negb].
  - exists v2, u. split; [done|]. by apply reads_refl, Hok.
  - match goal with |- context [ReverseTransaction ?a ?b ?r ?t ?w ?x] => destruct (ReverseTransaction_returns a b r t w x (proj1 Hok) Hout) as (v3 & u3 & -> & Hr) end.
    cbn [obind]. by exists v3, u3.
Qed.

(** A transaction before the others. *)
Lemma undone_step i tx txs s s1 s2 :
  cache_ok (bc_view s) -> sane (bc_view s) -> coins_at (bc_view s) (tx_hash tx) = None -> Forall (fun o => 0 <= nValue o) (vout (tx_body tx)) ->
  inputs_there (bc_view s) (tx_body tx) -> blockIndexMap !! (best (bc_view s) : list Z) = Some prev ->
  undo_ready i (tx :: txs) (vtxundo s) -> (i = 0%nat -> IsCoinBase (tx_body tx) = true) -> (tx_hash tx : list Z) ∉ hashes txs ->
  applied maturity heap blockIndexMap nHeight tx i s s1 ->
  sane (bc_view s1) /\ undo_ready (S i) txs (vtxundo s1) /\
  (undone_by (S i) txs s1 s2 -> undone_by i (tx :: txs) s s2).
Proof.
  intros Hok Hs Hnew Hpos Hins Hbest Hready Hfirst Hh [Hmat (w & undos & Hr & Eup & Eundo) _].
  assert (Hinsw : inputs_there w (tx_body tx)).
  { intros Ecb. destruct (Hins Ecb) as [H1 H2]. split; [done|]. eapply Forall_impl; [exact H2|]. intros j Hj. cbn beta in Hj. by rewrite (reads_output _ _ j Hr). }
  destruct (connect_transaction w tx nHeight (bc_view s1) undos) as (Hok1 & Hs1 & Hadd & Hframe & Hnone & Hcb & Hback); try done.
  { by eapply reads_cache. } { by eapply reads_sane. } { by rewrite (reads_coins _ _ _ Hr). } { lia. }
  split; [done|]. split.
  { intros j Hj Hij. rewrite Eundo. destruct (decide (i = 0%nat)) as [->|Hi].
    - rewrite (Hcb (Hfirst eq_refl)). destruct (decide (j = 1%nat)) as [->|Hj1].
      + pose proof (Hready 1%nat ltac:(lia) ltac:(cbn [length]; lia)) as H1. change (0 - 1)%nat with (1 - 1)%nat. by rewrite list_lookup_alter_eq, H1.
      + rewrite list_lookup_alter_ne by lia. apply Hready; cbn [length]; lia.
    - rewrite list_lookup_alter_ne by lia. apply Hready; cbn [length]; lia. }
  intros [Bok Bsane Blen Bearly Bframe Bstakes Bback].
  assert (Hframe' : forall k, k ∉ hashes (tx :: txs) -> Forall (fun t => untouched (tx_body t) k) (tx :: txs) -> coins_at (bc_view s1) k = coins_at (bc_view s) k).
  { intros k Hk Hu. apply Forall_cons in Hu as [Hu _]. rewrite Hframe, (reads_coins _ _ _ Hr); [done | | done]. intros ->. apply Hk. left. }
  constructor; [done | done | | | | |].
  - rewrite Blen, Eundo, length_alter. done.
  - intros j Hj. rewrite Bearly, Eundo by lia. apply list_lookup_alter_ne. lia.
  - intros k Hk Hu. rewrite Bframe; [by apply Hframe' | |]; [|by apply Forall_cons in Hu as [_ Hu]]. intros H. apply Hk. by right.
  - intros k Hk Hn. assert (Hu : untouched (tx_body tx) k) by (by eapply fresh_stake_untouched).
    constructor; [done|]. apply Bstakes; [|intros H; apply Hn; by right].
    destruct Hk as (c & Hk & Hc). exists c. split; [|done]. rewrite Hframe, (reads_coins _ _ _ Hr); [done | | done]. intros ->. congruence.
  - intros tolerant v c u Hv Ha Hst. apply Forall_cons in Hst as [Hst Hsts]. rewrite positions_cons. cbn [rev].
    destruct (Bback tolerant v c u Hv Ha Hsts) as (v2 & u2 & E2 & Hok2 & Ha2 & Hf2).
    assert (Hexact : coins_at v2 (tx_hash tx) = coins_at (bc_view s1) (tx_hash tx)).
    { destruct (IsCoinStake (tx_body tx)) eqn:Est.
      - destruct (coins_at (bc_view s1) (tx_hash tx)) as [cs|] eqn:Ec.
        + assert (Hfs : fresh_stake (bc_view s1) nHeight (tx_hash tx)).
          { exists cs. split; [done|]. cbn [unspent] in Hadd. destruct (IsPruned _); [done|]. injection Hadd as ->. split; [exact Est | done]. }
          pose proof (Bstakes _ Hfs Hh) as Hu. rewrite (Hf2 _ Hh Hu), (Hst eq_refl), (Bframe _ Hh Hu). done.
        + specialize (Ha2 (tx_hash tx)). rewrite Ec in Ha2. by inversion Ha2.
      - apply (agree_exact v2 (bc_view s1)); [done|]. intros cs Ec. rewrite Hadd in Ec. cbn [unspent] in Ec. destruct (IsPruned _); [done|]. by injection Ec as <-. }
    rewrite (disconnect_loop_app _ _ _ _ _ _ [(i, tx)] _ _ _ _ _ _ E2).
    set (txundo := if (0 <? i)%nat then Some undos else None).
    destruct (Hback v2 txundo Hok2 Ha2 Hexact) as (v3 & Erev & Hok3 & Ha3 & Hf3).
    { intros Ecb. unfold txundo. destruct i; [by rewrite Hfirst in Ecb | done]. }
    assert (Ha3' : agree v3 (bc_view s)) by (intros k; rewrite <-(reads_coins _ _ _ Hr); apply Ha3).
    destruct (disconnect_one i tx (vtxundo s2) tolerant v2 v3 c u2 txundo) as (v4 & u4 & E4 & Hr4); [|done|done| |].
    { unfold txundo. destruct (Nat.ltb_spec 0 i) as [Hi|Hi]; [|done]. rewrite Bearly, Eundo by lia.
      rewrite list_lookup_alter_eq, (Hready i) by (cbn [length]; lia). done. }
    { intros Ecb. destruct (Hins Ecb) as [_ Hall]. eapply Forall_impl; [exact Hall|]. intros j Hj. cbn beta in Hj. by rewrite (restores_output v3 (bc_view s) j Ha3'). }
    exists v4, u4. split; [exact E4|]. split; [by eapply reads_cache|]. split; [intros k; rewrite (reads_coins _ _ _ Hr4); apply Ha3'|].
    intros k Hk Hu. apply Forall_cons in Hu as [Hu Hus]. rewrite (reads_coins _ _ _ Hr4), Hf3; [| intros ->; apply Hk; left | done].
    apply Hf2; [|done]. intros H. apply Hk. by right.
Qed.

Lemma check_loop_undone txs : forall i s m,
  cache_ok (bc_view s) -> sane (bc_view s) -> shows (bc_view s) m -> Forall (tx_fine maxMoney) txs -> NoDup (hashes txs) ->
  Forall (fun tx => m !! (tx_hash tx : list Z) = None) txs -> blockIndexMap !! (best (bc_view s) : list Z) = Some prev ->
  undo_ready i txs (vtxundo s) -> (i = 0%nat -> forall tx, head txs = Some tx -> IsCoinBase (tx_body tx) = true) ->
  yields (fun r => r.1 = true -> undone_by i txs s r.2)
    (check_loop Verify maxMoney maturity heap blockIndexMap fScriptChecks parallel fAddressIndex fSpentIndex fJustCheck nHeight nFile nDataPos nExpectedMint txs i s).
Proof.
  induction txs as [|tx txs IH]; intros i s m Hok Hsane Hs Hfine Hnd Hnew Hbest Hready Hfirst.
  { intros _. constructor; try done. intros tolerant v c u Hv Ha _. by exists v, u. }
  apply Forall_cons in Hfine as [[Hval Hpn] Hfine]. cbn [hashes map] in Hnd. apply NoDup_cons in Hnd as [Hh Hnd]. apply Forall_cons in Hnew as [Hnew Hrest].
  cbn [check_loop]. destruct (valid_value_out maxMoney max_moderate (tx_body tx) Hval) as [Hout _].
  assert (Hpos : Forall (fun o => 0 <= nValue o) (vout (tx_body tx))) by apply Hval.
  assert (Hndi : NoDup (map spends (vin (tx_body tx)))) by (apply distinct_spends; [apply Hval | done]).
  eapply yields_bind; [apply (check_transaction_step _ _ _ _ _ _ _ _ _ _ _ _ _ _ tx i s m _ Hok Hs Hnew Hout eq_refl Hpos Hndi)|].
  intros [ok s1] H1. cbn [fst snd] in H1. destruct ok; cbn [negb]; [|done].
  destruct (H1 eq_refl) as (outs & fees & m1 & Ha & Hok1 & Hb1 & Hs1 & _ & _ & _ & Hn1 & Happ). clear H1.
  assert (Hins : inputs_there (bc_view s) (tx_body tx)).
  { intros Ecb. split; [done|]. pose proof (ac_spends _ _ _ _ _ _ Ha) as Hsp. unfold spends_in in Hsp. rewrite Ecb in Hsp.
    apply Forall_lookup. intros n x Hx. destruct (Forall2_lookup_l _ _ _ _ _ Hsp Hx) as (o & _ & Ho). by exists o. }
  assert (Hcb : i = 0%nat -> IsCoinBase (tx_body tx) = true) by (intros ->; by apply Hfirst).
  assert (Hnewv : coins_at (bc_view s) (tx_hash tx) = None) by (by rewrite Hs).
  destruct (undone_step i tx txs s s1 s1 Hok Hsane Hnewv Hpos Hins Hbest Hready Hcb Hh Happ) as (Hsane1 & Hready1 & _).
  assert (Hrest1 : Forall (fun tx => m1 !! (tx_hash tx : list Z) = None) txs).
  { apply Forall_forall. intros tx' Hin. rewrite Forall_forall in Hrest. apply Hn1; [by apply Hrest|]. intros E. apply Hh. apply list_elem_of_fmap. by exists tx'. }
  rewrite <-Hb1 in Hbest.
  pose proof (IH (S i) s1 m1 Hok1 Hsane1 Hs1 Hfine Hnd Hrest1 Hbest Hready1 ltac:(done)) as Hrec.
  destruct (check_loop _ _ _ _ _ _ _ _ _ _ _ _ _ _ txs (S i) s1) as [[ok s2]| | |]; try done. cbn [yields fst snd] in *. intros Ht.
  rewrite Hb1 in Hbest. by apply (undone_step i tx txs s s1 s2 Hok Hsane Hnewv Hpos Hins Hbest Hready Hcb Hh Happ), Hrec.
Qed.
End Loop.

(** ** A block *)

Lemma SetViewBestBlock_ok v h : cache_ok v -> cache_ok (SetViewBestBlock v h).
Proof. destruct v as [d|c base]; [by intros [_ ?]|]. intros [Hv _]. split; [|done]. exact Hv. Qed.

Lemma SetViewBestBlock_best v h : cache_ok v -> h <> uint256_null -> GetBestBlock (SetViewBestBlock v h) = (SetViewBestBlock v h, h).
Proof. destruct v as [d|c base]; [by intros [_ ?]|]. intros _ Hh. cbn. by rewrite bool_decide_eq_false_2. Qed.

Section Block.
Context {SH : ScriptHashes}.
Context {incentives : I_BlockIncentivesPopulator}.
Variable Verify : CPubKey -> base_uint -> valtype -> bool.
Variables (HashQuark : list Z -> list Z) (work : WorkParams) (adjusted : Z).
Variables (maxMoney maturity LAST_POW_BLOCK : Z) (genesis : list Z).
Hypothesis max_moderate : 0 <= maxMoney < 2 ^ 62.
Hypothesis maturity_pos : 0 < maturity.
Variable heap : index_heap.
Variable blockIndexMap : gmap (list Z) positive.
Variables (skip : Z) (parallel fTxIndex fAddressIndex fSpentIndex fVerifyingBlocks : bool).
Variable subsidy : Z -> io CBlockRewards.

(** The entry of the block and the one before it, as [AddToBlockIndex] links them. *)
Record linked_block (pindex : ptr) (b : CBlockIndex) (p : ptr) (prev : CBlockIndex) : Prop := mkLinkedBlock {
  lb_entry : heap !! pindex = Some b; lb_prev : pprev b = Some p; lb_prev_entry : heap !! p = Some prev;
  lb_known : blockIndexMap !! (phashBlock prev : list Z) = Some p; lb_height : nHeight prev + 1 = nHeight b; lb_int : 0 < nHeight b < 2 ^ 31;
  lb_hash : phashBlock b <> uint256_null; lb_prev_hash : phashBlock prev <> uint256_null
}.

(** C2: a block that [CheckBlock] accepts and [ConnectBlock] connects can be
    disconnected with the undo data that connecting it collected: [DisconnectBlock]
    reports no error, no inconsistency and no undefined behaviour, in both of its
    modes, the best block is the one before again, and every transaction has its
    unspent outputs back, up to coinstake flags, for whole blocks whose
    transactions may spend each other's outputs.  The views stay sane, so the
    theorem applies to the next block. *)
Theorem block_disconnect_restores d c base m block hash st0 st pindex b p prev prevSupply prevCheckpoint nFile nDataPos db cn :
  db_ok d -> rtc coins_step (ViewDB d) (ViewCache c base) -> shows (ViewCache c base) m -> sane (ViewCache c base) ->
  linked_block pindex b p prev -> hash <> genesis ->
  CheckBlock HashQuark work maxMoney adjusted block st0 true = Ret (true, st0) ->
  Forall (fun tx => Forall (fun i => 0 <= prev_n (prevout i)) (vin (tx_body tx))) (vtx block) -> NoDup (hashes (vtx block)) ->
  ConnectBlock Verify maxMoney maturity LAST_POW_BLOCK genesis heap blockIndexMap skip parallel fTxIndex fAddressIndex fSpentIndex fVerifyingBlocks
    subsidy block hash st pindex prevSupply prevCheckpoint nFile nDataPos (ViewCache c base) db false = Ret (true, cn) ->
  sane (cn_view cn) /\
  forall tolerant db1, exists v' db2,
    DisconnectBlock heap fAddressIndex fSpentIndex block (Some (cn_undo cn)) pindex (cn_view cn) tolerant db1 = Ret (v', true, tolerant, db2) /\
    agree v' (ViewCache c base) /\ best v' = phashBlock prev /\
    forall k, (forall x, coins_at (ViewCache c base) k = Some x -> fCoinStake x = false) -> coins_at v' k = coins_at (ViewCache c base) k.
Proof.
  intros Hd Hv Hs Hsane [Hb Hp Hpe Hkn Hht Hint Hnull Hpnull] Hgen Hcheck Hpn Hnd. pose proof (reachable_ok d _ Hd Hv) as Hok.
  assert (Hc : cache_ok (ViewCache c base)) by (by split). revert Hok Hc Hs Hsane. generalize (ViewCache c base). clear Hv. intros v Hok Hc Hs Hsane. clear c base.
  destruct (CheckBlock_spec HashQuark work maxMoney adjusted max_moderate block st0) as (r0 & Er0 & [[_ Hvalid]|[Hf _]]); [|rewrite Hcheck in Er0; injection Er0 as <-; done].
  clear r0 Er0 Hcheck. destruct Hvalid as [_ _ _ _ (cb & rest & Evtx & Hcb & _) _ Htxs _].
  assert (Hfine : Forall (tx_fine maxMoney) (vtx block)) by (by apply Forall_and).
  intros E. pattern cn. match goal with |- ?P cn => refine (yields_ret (fun r => r.1 = true -> P r.2) _ (true, cn) _ E eq_refl) end. clear E cn. cbn beta. unfold ConnectBlock, deref at 1. cbn [oaccess obind]. rewrite Hb. cbn [oaccess obind].
  eapply (yields_bind (fun v' => reads v v' /\ best v = phashBlock prev)).
  { unfold VerifyBestBlockIsAtPreviousBlock. rewrite Hp. unfold deref. cbn [oaccess obind]. rewrite Hpe. cbn [oaccess obind]. pose proof (GetBestBlock_reads v Hok) as Hr.
    fold (best v). unfold best. destruct (GetBestBlock v) as [v1 h]. cbn [fst snd] in *. destruct (bool_decide _) eqn:Eb; cbn [oassert obind]; [|done].
    apply bool_decide_eq_true in Eb. by split. }
  intros v1 [Hr1 Hbest]. rewrite bool_decide_eq_false_2 by done.
  assert (Hbip : let r := CheckEnforcedPoSBlocksAndBIP30 LAST_POW_BLOCK block st (nHeight b) v1 in
    reads v1 r.1 /\ (r.2.1 = true -> Forall (fun tx => coins_at v1 (tx_hash tx) = None) (vtx block))).
  { unfold CheckEnforcedPoSBlocksAndBIP30. destruct (_ && _); [by split; [apply reads_refl, Hr1|]|]. destruct (_ && _); [by split; [apply reads_refl, Hr1|]|]. apply bip30_fresh, Hr1. }
  destruct (CheckEnforcedPoSBlocksAndBIP30 LAST_POW_BLOCK block st (nHeight b) v1) as [v2 [ok st2]]. cbn [fst snd] in Hbip. destruct Hbip as [Hr2 Hfresh].
  destruct ok; cbn [negb]; [|done]. specialize (Hfresh eq_refl). assert (Hr : reads v v2) by (by eapply reads_trans).
  apply yields_any. intros r Hsub.
  eapply yields_bind; [unfold BlockTransactionChecker_Check; eapply (check_loop_undone Verify maxMoney maturity max_moderate maturity_pos heap blockIndexMap _ _ _ _ _ _ _ _ _ Hint p prev Hpe Hht (vtx block) 0 _ m)|]; cbn [bc_view vtxundo].
  { by eapply reads_cache. } { by eapply reads_sane. } { by eapply shows_reads. } { done. } { done. }
  { apply Forall_forall. intros tx Htx. rewrite Forall_forall in Hfresh. rewrite <-(Hs (tx_hash tx)), <-(reads_coins v v1 _ Hr1). by apply Hfresh. }
  { unfold best in *. rewrite (reads_best _ _ Hr), Hbest. done. }
  { intros j Hj Hl. apply lookup_replicate_2. lia. }
  { intros _ tx Htx. rewrite Evtx in Htx. by injection Htx as <-. }
  intros [ok s] Hloop. cbn [fst snd] in Hloop. destruct ok; cbn [negb]; [|done].
  destruct (Hloop eq_refl) as [Bok Bsane Blen _ _ _ Bback]. clear Hloop. cbn [bc_view vtxundo] in *.
  apply yields_any. intros r' _. apply yields_any. intros [ok3 st3] _. destruct (negb ok3); [done|]. destruct (_ && _); [done|]. apply yields_any. intros ok4 _. destruct (negb ok4); [done|].
  intros _. cbn [snd cn_view cn_undo]. split.
  { intros k x Hx. rewrite SetViewBestBlock_coins in Hx. by apply (Bsane k). }
  intros tolerant db1. unfold DisconnectBlock, deref at 1. cbn [oaccess obind]. rewrite Hb. cbn [oaccess obind]. rewrite SetViewBestBlock_best by done.
  rewrite bool_decide_eq_true_2 by done. cbn [oassert obind]. rewrite Blen, length_replicate.
  assert (El : (length (vtx block) - 1 + 1 =? length (vtx block))%nat = true) by (rewrite Evtx; apply Nat.eqb_eq; cbn [length]; lia). rewrite El. cbn [negb].
  set (w := SetViewBestBlock (bc_view s) (phashBlock b)).
  destruct (Bback tolerant w true IndexDatabaseUpdates_new) as (v3 & u3 & E3 & Hok3 & Ha3 & _).
  { by apply SetViewBestBlock_ok. }
  { intros k. unfold w. rewrite SetViewBestBlock_coins. apply agree_refl. }
  { apply Forall_forall. intros tx _ _. unfold w. apply SetViewBestBlock_coins. }
  assert (Epos : positions 0 (vtx block) = imap pair (vtx block)) by done. rewrite Epos in E3. rewrite E3. cbn [obind negb]. rewrite Hp. unfold deref. cbn [oaccess obind]. rewrite Hpe. cbn [oaccess obind].
  assert (Hagree : agree (SetViewBestBlock v3 (phashBlock prev)) v).
  { intros k. rewrite SetViewBestBlock_coins, <-(reads_coins _ _ k Hr). apply Ha3. }
  assert (Hres : best (SetViewBestBlock v3 (phashBlock prev)) = phashBlock prev) by (unfold best; by rewrite SetViewBestBlock_best).
  destruct tolerant; cbn [negb]; (eexists _, _; split; [reflexivity|]; split; [exact Hagree|]; split; [exact Hres|]); intros k Hk; by apply agree_exact.
Qed.
End Block.

(** ** A block that is connected and disconnected *)

Definition mined_block : CBlock :=
  mkBlock (mkHeader 3 (of_uint64 8 11) (merkle_root hash_children (map tx_hash [sample_coinbase; sample_spend])) 1600000000 0x1d00ffff 0 uint256_null)
    [sample_coinbase; sample_spend] [].
(** The hash of the block. *)
Definition mined_hash (_ : list Z) : list Z := of_uint64 8 12.

#[local] Instance sample_incentives : I_BlockIncentivesPopulator :=
  BlockIncentivesPopulator true main_prefixes sample_params no_sporks two_blocks PaymentData_empty false false false.

Definition connect_mined : io (bool * Connected) :=
  ConnectBlock no_signatures (10 ^ 9 * COIN) 20 1000 (of_uint64 8 1) two_blocks sample_block_map 0 true true true true true
    (GetBlockSubsidity sample_params no_sporks) mined_block (of_uint64 8 12) CValidationState_new 2%positive 7 (of_uint64 8 0) 0 0
    (new_cache (ViewDB sample_db)) (mkTree ∅ ∅ ∅ ∅ ∅) false.

Lemma sample_sane : sane (new_cache (ViewDB sample_db)).
Proof.
  intros k c Hk. rewrite (shows_db sample_db sample_db_ok k) in Hk. unfold sample_db in Hk. cbn [db_coins] in Hk. apply lookup_singleton_Some in Hk as [_ <-].
  split; [|done]. repeat constructor; done.
Qed.

Lemma block_disconnect_restores_witness :
  exists cn v' db2, connect_mined = Ret (true, cn) /\
    DisconnectBlock two_blocks true true mined_block (Some (cn_undo cn)) 2%positive (cn_view cn) false (mkTree ∅ ∅ ∅ ∅ ∅) = Ret (v', true, false, db2) /\
    coins_at v' [1] = Some sample_coins /\ best v' = of_uint64 8 11.
Proof.
  assert (E : match connect_mined with Ret (b, _) => b | _ => false end = true) by (vm_compute; reflexivity).
  destruct connect_mined as [[b cn]| | |] eqn:Ec; try discriminate E. subst b. unfold connect_mined in Ec.
  destruct (block_disconnect_restores no_signatures mined_hash main_work 1600000000 (10 ^ 9 * COIN) 20 1000 (of_uint64 8 1) ltac:(unfold COIN; lia) ltac:(lia)
    two_blocks sample_block_map 0 true true true true true (GetBlockSubsidity sample_params no_sporks) sample_db (mkCache ∅ uint256_null false) (ViewDB sample_db) (db_coins sample_db)
    mined_block (of_uint64 8 12) CValidationState_new CValidationState_new 2%positive
    (mkIndex (of_uint64 8 12) (Some 1%positive) None 120 0 0 0 0 0 LotteryCoinstakeData_empty) 1%positive (mkIndex (of_uint64 8 11) None None 119 0 0 0 0 0 LotteryCoinstakeData_empty)
    7 (of_uint64 8 0) 0 0 (mkTree ∅ ∅ ∅ ∅ ∅) cn) as (_ & H).
  - exact sample_db_ok.
  - apply rtc_once, (step_push (ViewDB sample_db)).
  - apply shows_db, sample_db_ok.
  - exact sample_sane.
  - constructor; [reflexivity | reflexivity | reflexivity | vm_compute; reflexivity | reflexivity | cbn; lia | |]; intros H; vm_compute in H; discriminate.
  - intros H. vm_compute in H. discriminate.
  - vm_compute. reflexivity.
  - repeat constructor; vm_compute; discriminate.
  - apply (bool_decide_unpack _). vm_compute. exact I.
  - exact Ec.
  - destruct (H false (mkTree ∅ ∅ ∅ ∅ ∅)) as (v' & db2 & H1 & _ & H2 & H3). exists cn, v', db2. split; [reflexivity|]. split; [exact H1|].
    split; [|exact H2]. assert (E0 : coins_at (new_cache (ViewDB sample_db)) [1] = Some sample_coins) by (vm_compute; reflexivity).
    unfold new_cache in E0. rewrite H3; [exact E0|]. intros x Hx. rewrite E0 in Hx. injection Hx as <-. reflexivity.
Defined.
