(* ===== verification/BestChain.v ===== *)
(** * The choice of the best chain: [main.cpp]

    [FindMostWorkChain], [ActivateBestChain] with [ConnectTip] and [DisconnectTip],
    [InvalidateBlock], [ReconsiderBlock], [ReceivedBlockTransactions] over the block
    tree, the set of candidates and the active chain.  What connecting a block does
    to the unspent outputs is an interface here ([ConnectBlock.v] and [Disconnect.v]
    are about it); the memory pool, the wallets and the peers that are told about
    the blocks do not influence the choice and are left out. *)

From Stdlib Require Import ZArith Lia Bool String.
From stdpp Require Import base option numbers list gmap.
From S2P Require Import Prelude BaseUInt UInt256 BlockIndex Chain Lottery Validation.

Open Scope Z_scope.
Open Scope outcome_scope.

(** The outcome of reading a block, connecting it and writing the state: [Refused]
    carries the validation state, [WriteFailed] and [Connects] the new coins. *)
Inductive connection {Coins : Type} :=
  | ReadFailed
  | Refused (state : CValidationState)
  | WriteFailed (c : Coins)
  | Connects (c : Coins).
Arguments connection : clear implicits.

Inductive disconnection {Coins : Type} :=
  | DisconnectFailed
  | DisconnectWriteFailed (c : Coins)
  | Disconnects (c : Coins).
Arguments disconnection : clear implicits.

(** What the choice of the chain asks of the unspent outputs. *)
Class ChainState (Coins : Type) := {
  connect : ptr -> Coins -> io (connection Coins);
  disconnect : ptr -> Coins -> io (disconnection Coins)
}.

Record node (Coins : Type) := mkNode {
  blocks : index_heap;
  nTx : gmap ptr Z;
  nChainTx : gmap ptr Z;
  nSequenceId : gmap ptr Z;
  chainActive : CChain;
  setBlockIndexCandidates : gset ptr;
  mapBlocksUnlinked : list (ptr * ptr);
  pindexBestInvalid : option ptr;
  nBlockSequenceId : Z;
  pindexBestForkTip : option ptr;
  pindexBestForkBase : option ptr;
  fLargeWorkForkFound : bool;
  fLargeWorkInvalidChainFound : bool;
  pcoinsTip : Coins
}.
Arguments mkNode {_}. Arguments blocks {_}. Arguments nTx {_}. Arguments nChainTx {_}. Arguments nSequenceId {_}. Arguments chainActive {_}.
Arguments setBlockIndexCandidates {_}. Arguments mapBlocksUnlinked {_}. Arguments pindexBestInvalid {_}. Arguments nBlockSequenceId {_}.
Arguments pindexBestForkTip {_}. Arguments pindexBestForkBase {_}. Arguments fLargeWorkForkFound {_}. Arguments fLargeWorkInvalidChainFound {_}.
Arguments pcoinsTip {_}.

Section BestChain.
Context {Coins : Type} {CS : ChainState Coins}.
(** [nChainWork] and [GetBlockProof] of the entries, [IsInitialBlockDownload()]. *)
Variable nChainWork : ptr -> Z.
Variable GetBlockProof : ptr -> Z.
Variable IsInitialBlockDownload : CChain -> bool.

Abbreviation Node := (node Coins).

(** ** Assignments *)

Definition with_blocks (s : Node) (h : index_heap) : Node :=
  mkNode h (nTx s) (nChainTx s) (nSequenceId s) (chainActive s) (setBlockIndexCandidates s) (mapBlocksUnlinked s) (pindexBestInvalid s) (nBlockSequenceId s)
    (pindexBestForkTip s) (pindexBestForkBase s) (fLargeWorkForkFound s) (fLargeWorkInvalidChainFound s) (pcoinsTip s).
Definition with_counts (s : Node) (tx chain seq : gmap ptr Z) (next : Z) : Node :=
  mkNode (blocks s) tx chain seq (chainActive s) (setBlockIndexCandidates s) (mapBlocksUnlinked s) (pindexBestInvalid s) next
    (pindexBestForkTip s) (pindexBestForkBase s) (fLargeWorkForkFound s) (fLargeWorkInvalidChainFound s) (pcoinsTip s).
Definition with_chain (s : Node) (c : CChain) : Node :=
  mkNode (blocks s) (nTx s) (nChainTx s) (nSequenceId s) c (setBlockIndexCandidates s) (mapBlocksUnlinked s) (pindexBestInvalid s) (nBlockSequenceId s)
    (pindexBestForkTip s) (pindexBestForkBase s) (fLargeWorkForkFound s) (fLargeWorkInvalidChainFound s) (pcoinsTip s).
Definition with_candidates (s : Node) (c : gset ptr) : Node :=
  mkNode (blocks s) (nTx s) (nChainTx s) (nSequenceId s) (chainActive s) c (mapBlocksUnlinked s) (pindexBestInvalid s) (nBlockSequenceId s)
    (pindexBestForkTip s) (pindexBestForkBase s) (fLargeWorkForkFound s) (fLargeWorkInvalidChainFound s) (pcoinsTip s).
Definition with_unlinked (s : Node) (u : list (ptr * ptr)) : Node :=
  mkNode (blocks s) (nTx s) (nChainTx s) (nSequenceId s) (chainActive s) (setBlockIndexCandidates s) u (pindexBestInvalid s) (nBlockSequenceId s)
    (pindexBestForkTip s) (pindexBestForkBase s) (fLargeWorkForkFound s) (fLargeWorkInvalidChainFound s) (pcoinsTip s).
Definition with_best_invalid (s : Node) (p : option ptr) : Node :=
  mkNode (blocks s) (nTx s) (nChainTx s) (nSequenceId s) (chainActive s) (setBlockIndexCandidates s) (mapBlocksUnlinked s) p (nBlockSequenceId s)
    (pindexBestForkTip s) (pindexBestForkBase s) (fLargeWorkForkFound s) (fLargeWorkInvalidChainFound s) (pcoinsTip s).
Definition with_fork (s : Node) (tip base : option ptr) (large invalid : bool) : Node :=
  mkNode (blocks s) (nTx s) (nChainTx s) (nSequenceId s) (chainActive s) (setBlockIndexCandidates s) (mapBlocksUnlinked s) (pindexBestInvalid s) (nBlockSequenceId s)
    tip base large invalid (pcoinsTip s).
Definition with_coins (s : Node) (c : Coins) : Node :=
  mkNode (blocks s) (nTx s) (nChainTx s) (nSequenceId s) (chainActive s) (setBlockIndexCandidates s) (mapBlocksUnlinked s) (pindexBestInvalid s) (nBlockSequenceId s)
    (pindexBestForkTip s) (pindexBestForkBase s) (fLargeWorkForkFound s) (fLargeWorkInvalidChainFound s) c.

Definition erase_candidate (s : Node) (p : ptr) : Node := with_candidates s (setBlockIndexCandidates s ∖ {[p]}).
Definition insert_candidate (s : Node) (p : ptr) : Node := with_candidates s (setBlockIndexCandidates s ∪ {[p]}).

(** [p->nStatus = f(p->nStatus)] *)
Definition set_status (s : Node) (p : ptr) (f : Z -> Z) : io Node :=
  let* b := deref (blocks s) (Some p) in
  Ret (with_blocks s (<[p := with_status b (f (nStatus b))]> (blocks s))).
Definition mark (s : Node) (p : ptr) (flag : Z) : io Node := set_status s p (fun x => Z.lor x flag).

Definition failed (b : CBlockIndex) : bool := negb (Z.land (nStatus b) BLOCK_FAILED_MASK =? 0).
Definition has_data (b : CBlockIndex) : bool := negb (Z.land (nStatus b) BLOCK_HAVE_DATA =? 0).
Definition chain_tx (s : Node) (p : ptr) : Z := default 0 (nChainTx s !! p).
Definition sequence (s : Node) (p : ptr) : Z := default 0 (nSequenceId s !! p).

(** ** The order of the candidates: [CBlockIndexWorkComparator] *)

Definition work_less (s : Node) (pa pb : ptr) : bool :=
  if nChainWork pa >? nChainWork pb then false
  else if nChainWork pa <? nChainWork pb then true
  else if sequence s pa <? sequence s pb then false
  else if sequence s pa >? sequence s pb then true
  else (pb <? pa)%positive.

(** The greatest and the least element of the set. *)
Definition greatest (s : Node) (l : list ptr) : option ptr :=
  fold_right (fun p m => match m with Some q => if work_less s q p then Some p else m | None => Some p end) None l.
Definition least (s : Node) (l : list ptr) : option ptr :=
  fold_right (fun p m => match m with Some q => if work_less s p q then Some p else m | None => Some p end) None l.

(** ** Fork warnings *)

Definition CheckForkWarningConditions (s : Node) : io Node :=
  if IsInitialBlockDownload (chainActive s) then Ret s else
  let* forkTip := match pindexBestForkTip s with
                  | Some p => let* b := deref (blocks s) (Some p) in Ret (if chain_Height (chainActive s) - nHeight b >=? 72 then None else Some p)
                  | None => Ret None
                  end in
  let* invalidLonger := match forkTip, pindexBestInvalid s with
                        | None, Some i => let* t := oaccess (chain_Tip (chainActive s)) in Ret (nChainWork i >? (nChainWork t + GetBlockProof t * 6) mod 2 ^ 256)
                        | _, _ => Ret false
                        end in
  match forkTip with
  | Some _ =>
      match pindexBestForkBase s with
      | Some base => Ret (with_fork s forkTip (Some base) true (fLargeWorkInvalidChainFound s))
      | None => Ret (with_fork s forkTip None (fLargeWorkForkFound s) true)
      end
  | None =>
      if invalidLonger then Ret (with_fork s forkTip (pindexBestForkBase s) (fLargeWorkForkFound s) true)
      else Ret (with_fork s forkTip (pindexBestForkBase s) false false)
  end.

(** [while (plonger && plonger->nHeight > pfork->nHeight)] *)
Fixpoint drop_longer (fuel : nat) (h : index_heap) (plonger : option ptr) (height : Z) : io (option ptr) :=
  match plonger with
  | None => Ret None
  | Some l =>
      let* b := deref h plonger in
      if nHeight b >? height then match fuel with O => Undef | S fuel => drop_longer fuel h (pprev b) height end
      else Ret plonger
  end.

(** [while (pfork && pfork != plonger)] *)
Fixpoint find_fork (fuel : nat) (h : index_heap) (pfork plonger : option ptr) : io (option ptr) :=
  match pfork with
  | None => Ret None
  | Some f =>
      if bool_decide (pfork = plonger) then Ret pfork else
      let* b := deref h pfork in
      let* plonger := drop_longer fuel h plonger (nHeight b) in
      if bool_decide (pfork = plonger) then Ret pfork else
      match fuel with O => Undef | S fuel => find_fork fuel h (pprev b) plonger end
  end.

Definition walk_length (h : index_heap) (p : option ptr) : nat := match p ≫= (fun p => h !! p) with Some b => S (Z.to_nat (nHeight b)) | None => O end.

Definition CheckForkWarningConditionsOnNewFork (s : Node) (pindexNewForkTip : ptr) : io Node :=
  let h := blocks s in
  let tip := chain_Tip (chainActive s) in
  let* pfork := find_fork (walk_length h (Some pindexNewForkTip) + walk_length h tip) h (Some pindexNewForkTip) tip in
  let* n := deref h (Some pindexNewForkTip) in
  let* s :=
    match pfork with
    | None => Ret s
    | Some f =>
        let* higher := match pindexBestForkTip s with None => Ret true | Some t => let* b := deref h (Some t) in Ret (nHeight n >? nHeight b) end in
        if higher && ((nChainWork pindexNewForkTip - nChainWork f) mod 2 ^ 256 >? (GetBlockProof f * 7) mod 2 ^ 256) &&
           (chain_Height (chainActive s) - nHeight n <? 72)
        then Ret (with_fork s (Some pindexNewForkTip) (Some f) (fLargeWorkForkFound s) (fLargeWorkInvalidChainFound s))
        else Ret s
    end in
  CheckForkWarningConditions s.

(** ** Invalid blocks *)

(** The tip is dereferenced by the log message. *)
Definition InvalidChainFound (s : Node) (pindexNew : ptr) : io Node :=
  let s := match pindexBestInvalid s with
           | None => with_best_invalid s (Some pindexNew)
           | Some i => if nChainWork pindexNew >? nChainWork i then with_best_invalid s (Some pindexNew) else s
           end in
  let* _ := oaccess (chain_Tip (chainActive s)) in
  CheckForkWarningConditions s.

Definition InvalidBlockFound (s : Node) (pindex : ptr) (state : CValidationState) : io Node :=
  if corruptionPossible state then Ret s else
  let* s := mark s pindex BLOCK_FAILED_VALID in
  InvalidChainFound (erase_candidate s pindex) pindex.

(** ** [FindMostWorkChain] *)

(** [while (pindexTest != pindexFailed)] *)
Fixpoint drop_candidate_chain (fuel : nat) (fFailedChain : bool) (pindexFailed pindexTest : ptr) (s : Node) : io Node :=
  if bool_decide (pindexTest = pindexFailed) then Ret s else
  match fuel with
  | O => Undef
  | S fuel =>
      let* b := deref (blocks s) (Some pindexFailed) in
      let* prev := oaccess (pprev b) in
      let* s := if fFailedChain then mark s pindexFailed BLOCK_FAILED_CHILD
                else Ret (with_unlinked s (mapBlocksUnlinked s ++ [(prev, pindexFailed)])) in
      drop_candidate_chain fuel fFailedChain prev pindexTest (erase_candidate s pindexFailed)
  end.

(** [while (pindexTest && !chainActive.Contains(pindexTest))]; the result is
    [fInvalidAncestor]. *)
Fixpoint test_candidate (fuel : nat) (pindexNew : ptr) (pindexTest : option ptr) (s : Node) : io (bool * Node) :=
  match pindexTest with
  | None => Ret (false, s)
  | Some t =>
      let* inside := Contains (blocks s) (chainActive s) pindexTest in
      if inside then Ret (false, s) else
      let* b := deref (blocks s) pindexTest in
      oassert (negb (chain_tx s t =? 0) || (nHeight b =? 0)) ;;;
      let fFailedChain := failed b in
      let fMissingData := negb (has_data b) in
      if fFailedChain || fMissingData then
        let s := if fFailedChain && match pindexBestInvalid s with None => true | Some i => nChainWork pindexNew >? nChainWork i end
                 then with_best_invalid s (Some pindexNew) else s in
        let* s := drop_candidate_chain (walk_length (blocks s) (Some pindexNew)) fFailedChain pindexNew t s in
        Ret (true, erase_candidate s t)
      else match fuel with O => Undef | S fuel => test_candidate fuel pindexNew (pprev b) s end
  end.

Fixpoint find_most_work (fuel : nat) (s : Node) : io (option ptr * Node) :=
  match greatest s (elements (setBlockIndexCandidates s)) with
  | None => Ret (None, s)
  | Some pindexNew =>
      let* '(fInvalidAncestor, s) := test_candidate (walk_length (blocks s) (Some pindexNew)) pindexNew (Some pindexNew) s in
      if negb fInvalidAncestor then Ret (Some pindexNew, s)
      else match fuel with O => Undef | S fuel => find_most_work fuel s end
  end.
Definition FindMostWorkChain (s : Node) : io (option ptr * Node) := find_most_work (size (setBlockIndexCandidates s)) s.

(** ** [PruneBlockIndexCandidates] *)

Fixpoint prune_candidates (fuel : nat) (tip : ptr) (s : Node) : Node :=
  match fuel, least s (elements (setBlockIndexCandidates s)) with
  | S fuel, Some it => if work_less s it tip then prune_candidates fuel tip (erase_candidate s it) else s
  | _, _ => s
  end.
Definition PruneBlockIndexCandidates (s : Node) : io Node :=
  let* tip := oaccess (chain_Tip (chainActive s)) in
  let s := prune_candidates (size (setBlockIndexCandidates s)) tip s in
  oassert (bool_decide (setBlockIndexCandidates s <> ∅)) ;;; Ret s.

(** ** One block more or less *)

(** The new tip is dereferenced by the log message. *)
Definition UpdateTip (s : Node) (pindexNew : option ptr) : io Node :=
  let* c := SetTip (blocks s) (chainActive s) pindexNew in
  let* _ := oaccess (chain_Tip c) in
  Ret (with_chain s c).

(** Returns false on a failure. *)
Definition DisconnectTip (s : Node) : io (bool * Node) :=
  let* pindexDelete := oaccess (chain_Tip (chainActive s)) in
  let* r := disconnect pindexDelete (pcoinsTip s) in
  match r with
  | DisconnectFailed => Ret (false, s)
  | DisconnectWriteFailed c => Ret (false, with_coins s c)
  | Disconnects c =>
      let* b := deref (blocks s) (Some pindexDelete) in
      let* s := UpdateTip (with_coins s c) (pprev b) in
      Ret (true, s)
  end.

(** The entry of a connected block: [WriteUndoDataToDisk]; the genesis block has no
    undo data. *)
Definition mark_connected (s : Node) (p : ptr) : io Node :=
  let* b := deref (blocks s) (Some p) in
  match pprev b with
  | None => Ret s
  | Some _ =>
      let b := with_status b (Z.lor (nStatus b) BLOCK_HAVE_UNDO) in
      let* '(b, _) := RaiseValidity b BLOCK_VALID_SCRIPTS in
      Ret (with_blocks s (<[p := b]> (blocks s)))
  end.

(** With the validation state that is left when it returns false. *)
Definition ConnectTip (s : Node) (pindexNew : ptr) : io (bool * CValidationState * Node) :=
  let* b := deref (blocks s) (Some pindexNew) in
  oassert (bool_decide (pprev b = chain_Tip (chainActive s))) ;;;
  let* r := connect pindexNew (pcoinsTip s) in
  match r with
  | ReadFailed => Ret (false, Error CValidationState_new "Failed to read block", s)
  | Refused state =>
      let* s := if IsInvalid state then InvalidBlockFound s pindexNew state else Ret s in
      Ret (false, state, s)
  | WriteFailed c => Ret (false, Error CValidationState_new "Failed to write", with_coins s c)
  | Connects c =>
      let* s := mark_connected s pindexNew in
      let* s := UpdateTip (with_coins s c) (Some pindexNew) in
      Ret (true, CValidationState_new, s)
  end.

(** ** [ActivateBestChainStep] *)

(** [while (chainActive.Tip() && chainActive.Tip() != pindexFork)] *)
Fixpoint disconnect_to (fuel : nat) (pindexFork : option ptr) (s : Node) : io (bool * Node) :=
  let tip := chain_Tip (chainActive s) in
  if bool_decide (tip = None) || bool_decide (tip = pindexFork) then Ret (true, s) else
  match fuel with
  | O => Undef
  | S fuel =>
      let* '(ok, s) := DisconnectTip s in
      if ok then disconnect_to fuel pindexFork s else Ret (false, s)
  end.

(** [while (pindexIter && pindexIter->nHeight != nHeight)]: the blocks from the
    lowest on. *)
Fixpoint blocks_to_connect (fuel : nat) (h : index_heap) (pindexIter : option ptr) (height : Z) (above : list ptr) : io (list ptr) :=
  match pindexIter with
  | None => Ret above
  | Some p =>
      let* b := deref h pindexIter in
      if nHeight b =? height then Ret above
      else match fuel with O => Undef | S fuel => blocks_to_connect fuel h (pprev b) height (p :: above) end
  end.

(** How connecting some blocks ended: all connected, better than before, an invalid
    block among these, a system error. *)
Inductive progress := AllConnected | BetterTip | InvalidFound (first : ptr) | SystemError.

Fixpoint connect_blocks (first : ptr) (toConnect : list ptr) (pindexOldTip : option ptr) (s : Node) : io (progress * Node) :=
  match toConnect with
  | [] => Ret (AllConnected, s)
  | p :: toConnect =>
      let* '(ok, state, s) := ConnectTip s p in
      if ok then
        let* s := PruneBlockIndexCandidates s in
        let* tip := oaccess (chain_Tip (chainActive s)) in
        if match pindexOldTip with None => true | Some o => nChainWork tip >? nChainWork o end then Ret (BetterTip, s)
        else connect_blocks first toConnect pindexOldTip s
      else if IsInvalid state then
        let* s := if corruptionPossible state then Ret s else InvalidChainFound s first in
        Ret (InvalidFound first, s)
      else Ret (SystemError, s)
  end.

(** [while (fContinue && nHeight != pindexMostWork->nHeight)] *)
Fixpoint connect_towards (fuel : nat) (pindexMostWork : ptr) (height : Z) (pindexOldTip : option ptr) (s : Node) : io (progress * Node) :=
  let* m := deref (blocks s) (Some pindexMostWork) in
  if height =? nHeight m then Ret (AllConnected, s) else
  match fuel with
  | O => Undef
  | S fuel =>
      let nTargetHeight := Z.min (height + 32) (nHeight m) in
      let* iter := GetAncestor (blocks s) (Some pindexMostWork) nTargetHeight in
      let* toConnect := blocks_to_connect (walk_length (blocks s) iter) (blocks s) iter height [] in
      let* '(r, s) := connect_blocks (default pindexMostWork (head toConnect)) toConnect pindexOldTip s in
      match r with
      | AllConnected => connect_towards fuel pindexMostWork nTargetHeight pindexOldTip s
      | _ => Ret (r, s)
      end
  end.

Definition ActivateBestChainStep (s : Node) (pindexMostWork : ptr) : io (bool * Node) :=
  let pindexOldTip := chain_Tip (chainActive s) in
  let* pindexFork := FindFork (blocks s) (chainActive s) (Some pindexMostWork) in
  let* '(ok, s) := disconnect_to (length (chainActive s)) pindexFork s in
  if negb ok then Ret (false, s) else
  let* height := match pindexFork with Some f => let* b := deref (blocks s) (Some f) in Ret (nHeight b) | None => Ret (-1) end in
  let* '(r, s) := connect_towards (walk_length (blocks s) (Some pindexMostWork)) pindexMostWork height pindexOldTip s in
  match r with
  | SystemError => Ret (false, s)
  | InvalidFound first => let* s := CheckForkWarningConditionsOnNewFork s first in Ret (true, s)
  | _ => let* s := CheckForkWarningConditions s in Ret (true, s)
  end.

(** Peers and listeners are notified in between; the periodic write of the state at
    the end succeeds. *)
Fixpoint ActivateBestChain (fuel : nat) (s : Node) : io (bool * Node) :=
  let* '(pindexMostWork, s) := FindMostWorkChain s in
  match pindexMostWork with
  | None => Ret (true, s)
  | Some m =>
      if bool_decide (chain_Tip (chainActive s) = Some m) then Ret (true, s) else
      let* '(ok, s) := ActivateBestChainStep s m in
      if negb ok then Ret (false, s)
      else if bool_decide (chain_Tip (chainActive s) = Some m) then Ret (true, s)
      else match fuel with O => Undef | S fuel => ActivateBestChain fuel s end
  end.

(** ** [InvalidateBlock] and [ReconsiderBlock] *)

(** [while (chainActive.Contains(pindex))] *)
Fixpoint disconnect_until (fuel : nat) (pindex : ptr) (s : Node) : io (bool * Node) :=
  let* inside := Contains (blocks s) (chainActive s) (Some pindex) in
  if negb inside then Ret (true, s) else
  match fuel with
  | O => Undef
  | S fuel =>
      let* pindexWalk := oaccess (chain_Tip (chainActive s)) in
      let* s := mark s pindexWalk BLOCK_FAILED_CHILD in
      let* '(ok, s) := DisconnectTip (erase_candidate s pindexWalk) in
      if ok then disconnect_until fuel pindex s else Ret (false, s)
  end.

(** The loop over [mapBlockIndex] that adds blocks to the candidates again. *)
Fixpoint readd_candidates (entries : list (ptr * CBlockIndex)) (s : Node) : io Node :=
  match entries with
  | [] => Ret s
  | (p, b) :: entries =>
      let* valid := index_IsValid b BLOCK_VALID_TRANSACTIONS in
      let* s := if valid && negb (chain_tx s p =? 0) then
                  let* tip := oaccess (chain_Tip (chainActive s)) in
                  Ret (if negb (work_less s p tip) then insert_candidate s p else s)
                else Ret s in
      readd_candidates entries s
  end.

Definition InvalidateBlock (s : Node) (pindex : ptr) : io (bool * Node) :=
  let* s := mark s pindex BLOCK_FAILED_VALID in
  let* '(ok, s) := disconnect_until (length (chainActive s)) pindex (erase_candidate s pindex) in
  if negb ok then Ret (false, s) else
  let* s := readd_candidates (map_to_list (blocks s)) s in
  let* s := InvalidChainFound s pindex in
  Ret (true, s).

Definition clear_failed (x : Z) : Z := Z.land x (Z.lnot BLOCK_FAILED_MASK).

(** The loop over [mapBlockIndex] that clears the descendants. *)
Fixpoint clear_descendants (entries : list ptr) (pindex : ptr) (height : Z) (s : Node) : io Node :=
  match entries with
  | [] => Ret s
  | p :: entries =>
      let* b := deref (blocks s) (Some p) in
      let* valid := index_IsValid b BLOCK_VALID_TRANSACTIONS in
      let* s :=
        if valid then Ret s else
        let* a := GetAncestor (blocks s) (Some p) height in
        if negb (bool_decide (a = Some pindex)) then Ret s else
        let* s := set_status s p clear_failed in
        let* b := deref (blocks s) (Some p) in
        let* valid := index_IsValid b BLOCK_VALID_TRANSACTIONS in
        let* s := if valid && negb (chain_tx s p =? 0) then
                    let* tip := oaccess (chain_Tip (chainActive s)) in
                    Ret (if work_less s tip p then insert_candidate s p else s)
                  else Ret s in
        Ret (if bool_decide (pindexBestInvalid s = Some p) then with_best_invalid s None else s) in
      clear_descendants entries pindex height s
  end.

(** [while (pindex != NULL)] *)
Fixpoint clear_ancestors (fuel : nat) (pindex : option ptr) (s : Node) : io Node :=
  match pindex with
  | None => Ret s
  | Some p =>
      let* b := deref (blocks s) pindex in
      let* s := if failed b then set_status s p clear_failed else Ret s in
      match fuel with O => Undef | S fuel => clear_ancestors fuel (pprev b) s end
  end.

Definition ReconsiderBlock (s : Node) (pindex : ptr) : io Node :=
  let* b := deref (blocks s) (Some pindex) in
  let* s := clear_descendants (List.map fst (map_to_list (blocks s))) pindex (nHeight b) s in
  clear_ancestors (walk_length (blocks s) (Some pindex)) (Some pindex) s.

(** ** [ReceivedBlockTransactions] *)

(** [while (!queue.empty())]; the blocks that waited for [p] are linked next. *)
Fixpoint link_blocks (fuel : nat) (queue : list ptr) (s : Node) : io Node :=
  match queue with
  | [] => Ret s
  | p :: queue =>
      match fuel with
      | O => Undef
      | S fuel =>
          let* b := deref (blocks s) (Some p) in
          let parent := match pprev b with Some q => chain_tx s q | None => 0 end in
          let s := with_counts s (nTx s) (<[p := u32 (parent + default 0 (nTx s !! p))]> (nChainTx s)) (<[p := nBlockSequenceId s]> (nSequenceId s))
                     (u32 (nBlockSequenceId s + 1)) in
          let s := match chain_Tip (chainActive s) with
                   | None => insert_candidate s p
                   | Some tip => if negb (work_less s p tip) then insert_candidate s p else s
                   end in
          let waiting := List.map snd (List.filter (fun e => bool_decide (fst e = p)) (mapBlocksUnlinked s)) in
          link_blocks fuel (queue ++ waiting) (with_unlinked s (List.filter (fun e => negb (bool_decide (fst e = p))) (mapBlocksUnlinked s)))
      end
  end.

(** Of a block of [count] transactions; the position on disk is left out. *)
Definition ReceivedBlockTransactions (s : Node) (pindexNew : ptr) (proofOfStake : bool) (count : Z) : io Node :=
  let* b := deref (blocks s) (Some pindexNew) in
  let b := if proofOfStake then SetProofOfStake b else b in
  let* '(b, _) := RaiseValidity (with_status b (Z.lor (nStatus b) BLOCK_HAVE_DATA)) BLOCK_VALID_TRANSACTIONS in
  let s := with_counts (with_blocks s (<[pindexNew := b]> (blocks s))) (<[pindexNew := count]> (nTx s)) (<[pindexNew := 0]> (nChainTx s)) (nSequenceId s) (nBlockSequenceId s) in
  match pprev b with
  | None => link_blocks (S (length (mapBlocksUnlinked s))) [pindexNew] s
  | Some q =>
      if negb (chain_tx s q =? 0) then link_blocks (S (length (mapBlocksUnlinked s))) [pindexNew] s
      else
        let* a := deref (blocks s) (Some q) in
        let* tree := index_IsValid a BLOCK_VALID_TREE in
        Ret (if tree then with_unlinked s (mapBlocksUnlinked s ++ [(q, pindexNew)]) else s)
  end.
End BestChain.

(** * The order of the candidates *)

Section Order.
Context {Coins : Type} {CS : ChainState Coins}.
Variable nChainWork : ptr -> Z.
Abbreviation less := (work_less (Coins := Coins) nChainWork).

Lemma work_less_iff s a b : less s a b = true <->
  nChainWork a < nChainWork b \/ nChainWork a = nChainWork b /\ (sequence s b < sequence s a \/ sequence s a = sequence s b /\ Zpos b < Zpos a).
Proof.
  unfold work_less. destruct (Z.gtb_spec (nChainWork a) (nChainWork b)); [split; [done | lia]|]. destruct (Z.ltb_spec (nChainWork a) (nChainWork b)); [split; [lia | done]|].
  destruct (Z.ltb_spec (sequence s a) (sequence s b)); [split; [done | lia]|]. destruct (Z.gtb_spec (sequence s a) (sequence s b)); [split; [lia | done]|].
  destruct (Pos.ltb_spec b a); split; lia || done.
Qed.

Lemma work_less_false s a b : less s a b = false <-> ~ (nChainWork a < nChainWork b \/ nChainWork a = nChainWork b /\ (sequence s b < sequence s a \/ sequence s a = sequence s b /\ Zpos b < Zpos a)).
Proof. rewrite <- work_less_iff. by destruct (less s a b). Qed.

Lemma less_irrefl s a : less s a a = false.
Proof. apply work_less_false. lia. Qed.

Lemma less_trans s a b c : less s a b = true -> less s b c = true -> less s a c = true.
Proof. rewrite !work_less_iff. lia. Qed.

Lemma not_less_trans s a b c : less s a b = false -> less s b c = false -> less s a c = false.
Proof. rewrite !work_less_false. lia. Qed.

Lemma less_not_less s a b c : less s a b = true -> less s c b = false -> less s a c = true.
Proof. rewrite work_less_iff, work_less_false, work_less_iff. lia. Qed.

Lemma less_asym s a b : less s a b = true -> less s b a = false.
Proof. rewrite work_less_iff, work_less_false. lia. Qed.

Lemma less_total s a b : less s a b = false -> less s b a = false -> a = b.
Proof. rewrite !work_less_false. intros H1 H2. assert (Zpos a = Zpos b) by lia. congruence. Qed.

Lemma greatest_spec s l : match greatest nChainWork s l with None => l = [] | Some m => m ∈ l /\ forall p, p ∈ l -> less s m p = false end.
Proof.
  induction l as [|x l IH]; [done|]. cbn [greatest fold_right]. fold (greatest nChainWork s l). destruct (greatest nChainWork s l) as [m|].
  - destruct IH as [Hm Hall]. destruct (less s m x) eqn:E.
    + split; [by left|]. intros p [->|Hp]%elem_of_cons; [apply less_irrefl|]. apply (not_less_trans s x m p); [by apply less_asym | by apply Hall].
    + split; [by right|]. intros p [->|Hp]%elem_of_cons; [done | by apply Hall].
  - subst l. split; [by left|]. intros p ->%list_elem_of_singleton. apply less_irrefl.
Qed.

Lemma least_spec s l : match least nChainWork s l with None => l = [] | Some m => m ∈ l /\ forall p, p ∈ l -> less s p m = false end.
Proof.
  induction l as [|x l IH]; [done|]. cbn [least fold_right]. fold (least nChainWork s l). destruct (least nChainWork s l) as [m|].
  - destruct IH as [Hm Hall]. destruct (less s x m) eqn:E.
    + split; [by left|]. intros p [->|Hp]%elem_of_cons; [apply less_irrefl|]. apply (not_less_trans s p m x); [by apply Hall | by apply less_asym].
    + split; [by right|]. intros p [->|Hp]%elem_of_cons; [done | by apply Hall].
  - subst l. split; [by left|]. intros p ->%list_elem_of_singleton. apply less_irrefl.
Qed.

(** The loop from the least candidate on removes those before the tip. *)
Lemma prune_loop_spec fuel : forall tip (s : node Coins), (size (setBlockIndexCandidates s) <= fuel)%nat ->
  exists c, prune_candidates nChainWork fuel tip s = with_candidates s c /\ forall p, p ∈ c <-> p ∈ setBlockIndexCandidates s /\ less s p tip = false.
Proof.
  induction fuel as [|fuel IH]; intros tip s Hf.
  - exists (setBlockIndexCandidates s). split; [by destruct s|]. assert (setBlockIndexCandidates s = ∅) as -> by (apply leibniz_equiv, size_empty_iff; lia). set_solver.
  - cbn [prune_candidates]. pose proof (least_spec s (elements (setBlockIndexCandidates s))) as Hl. destruct (least nChainWork s _) as [m|].
    + destruct Hl as [Hm Hall]. apply elem_of_elements in Hm. destruct (less s m tip) eqn:E.
      * destruct (IH tip (erase_candidate s m)) as (c & -> & Hc).
        { cbn [erase_candidate with_candidates setBlockIndexCandidates]. rewrite size_difference by set_solver. rewrite size_singleton. lia. }
        exists c. split; [done|]. intros p. rewrite Hc. cbn [erase_candidate with_candidates setBlockIndexCandidates]. change (less (erase_candidate s m) p tip) with (less s p tip).
        destruct (decide (p = m)) as [->|Hne]; [rewrite E; set_solver | set_solver].
      * exists (setBlockIndexCandidates s). split; [by destruct s|]. intros p. split; [|by intros []]. intros Hp. split; [done|].
        apply (not_less_trans s p m tip); [apply Hall; by apply elem_of_elements | done].
    + exists (setBlockIndexCandidates s). split; [by destruct s|]. intros p. rewrite <- elem_of_elements, Hl. split; [by intros H%elem_of_nil | by intros [H%elem_of_nil _]].
Qed.
End Order.
