(* ===== verification/BestChainProps.v ===== *)
(** * The best chain is active

    The state of the block tree, the candidates and the active chain stays
    consistent, so that after [ActivateBestChain] no block with all its transactions
    and no known failure has more work than the tip. *)

From Stdlib Require Import ZArith Lia Bool String.
From stdpp Require Import base option numbers list gmap.
From S2P Require Import Prelude BaseUInt UInt256 BlockIndex Chain Lottery Validation BlockChecks BestChain.

Open Scope Z_scope.
Open Scope outcome_scope.

(** ** The tree below the statuses *)

Definition links (b : CBlockIndex) : option ptr * option ptr * Z := (pprev b, pskip b, nHeight b).
Definition same_tree (h h' : index_heap) : Prop := links <$> h = links <$> h'.

Lemma same_tree_lookup h h' p b : same_tree h h' -> h !! p = Some b -> exists b', h' !! p = Some b' /\ pprev b' = pprev b /\ pskip b' = pskip b /\ nHeight b' = nHeight b.
Proof.
  intros Hs Hb. assert ((links <$> h) !! p = Some (links b)) as E by (by rewrite lookup_fmap, Hb). rewrite Hs, lookup_fmap in E.
  destruct (h' !! p) as [b'|]; [|done]. injection E as E1 E2 E3. by exists b'.
Qed.

#[global] Instance same_tree_equiv : Equivalence same_tree.
Proof. split; [done | by intros h h' | intros h1 h2 h3 H1 H2; by unfold same_tree in *; rewrite H1]. Qed.

Lemma same_tree_insert h p b b' : h !! p = Some b -> links b' = links b -> same_tree h (<[p := b']> h).
Proof. intros Hb E. unfold same_tree. rewrite fmap_insert, E. symmetry. apply insert_id. by rewrite lookup_fmap, Hb. Qed.

Lemma up_same h h' n : same_tree h h' -> forall p, up h' n p = up h n p.
Proof.
  intros Hs. induction n as [|n IH]; intros p; [done|]. cbn [up]. destruct (h !! p) as [b|] eqn:Eb.
  - destruct (same_tree_lookup h h' p b Hs Eb) as (b' & -> & E & _). cbn [mbind option_bind]. rewrite E. destruct (pprev b); [apply IH | done].
  - destruct (h' !! p) as [b'|] eqn:Eb'; [|done]. destruct (same_tree_lookup h' h p b' ltac:(by symmetry) Eb') as (b & E & _). congruence.
Qed.

Lemma ancestor_same h h' p k : same_tree h h' -> ancestor h' p k = ancestor h p k.
Proof.
  intros Hs. unfold ancestor. destruct (h !! p) as [b|] eqn:Eb.
  - destruct (same_tree_lookup h h' p b Hs Eb) as (b' & -> & _ & _ & E). cbn [mbind option_bind]. rewrite E. by rewrite (up_same h h' _ Hs).
  - destruct (h' !! p) as [b'|] eqn:Eb'; [|done]. destruct (same_tree_lookup h' h p b' ltac:(by symmetry) Eb') as (b & E & _). congruence.
Qed.

Lemma at_height_same h h' p k : same_tree h h' -> at_height h p k -> at_height h' p k.
Proof. intros Hs (b & Hb & Hk). destruct (same_tree_lookup h h' p b Hs Hb) as (b' & Hb' & _ & _ & E). exists b'. by rewrite E. Qed.

Lemma index_ok_same h h' : same_tree h h' -> index_ok h -> index_ok h'.
Proof.
  intros Hs Hok p b' Hb'. destruct (same_tree_lookup h' h p b' ltac:(by symmetry) Hb') as (b & Hb & E1 & E2 & E3). destruct (Hok p b Hb) as [L1 L2 L3].
  constructor; [lia | |].
  - rewrite <- E1. destruct (pprev b) as [q|]; [|lia]. rewrite <- E3. exact (at_height_same h h' q _ Hs L2).
  - rewrite <- E3, <- E2, (ancestor_same h h' _ _ Hs). exact L3.
Qed.

Lemma chain_for_same h h' c t : same_tree h h' -> chain_for h c t -> chain_for h' c t.
Proof.
  intros Hs (k & Hk & Hl & Ha). exists k. split; [exact (at_height_same h h' t k Hs Hk)|]. split; [done|]. intros j. by rewrite (ancestor_same h h' _ _ Hs).
Qed.

Lemma chain_for_tip h c t : index_ok h -> chain_for h c t -> chain_Tip c = Some t.
Proof.
  intros Hok (k & Hk & Hl & Ha). pose proof (at_height_nonneg h Hok t k Hk). specialize (Ha k). rewrite (ancestor_self h Hok t k Hk), chain_at_lookup in Ha by lia.
  unfold chain_Tip. rewrite last_lookup. unfold zlen in Hl. by replace (pred (length c)) with (Z.to_nat k) by lia.
Qed.

(** ** Branches *)

Definition on_path (h : index_heap) (p q : ptr) : Prop := exists k, ancestor h p k = Some q.

Lemma same_tree_path h h' p q : same_tree h h' -> on_path h' p q <-> on_path h p q.
Proof. intros Ht. unfold on_path. by setoid_rewrite (ancestor_same _ _ _ _ Ht). Qed.

Section Paths.
Variable h : index_heap.
Hypothesis Hok : index_ok h.

Lemma known_height p b : h !! p = Some b -> at_height h p (nHeight b).
Proof. intros Hb. by exists b. Qed.

Lemma on_path_self p b : h !! p = Some b -> on_path h p p.
Proof. intros Hb. exists (nHeight b). apply (ancestor_self h Hok). by exists b. Qed.

Lemma on_path_known p q : on_path h p q -> is_Some (h !! q).
Proof.
  intros [k Hk]. unfold ancestor in Hk. destruct (h !! p) as [b|] eqn:Eb; [|done]. assert (at_height h p (nHeight b)) as Hp by (by exists b).
  assert (ancestor h p k = Some q) as Hq by (unfold ancestor; by rewrite Eb). destruct (ancestor_spec h Hok p _ k Hp (ancestor_range h p _ k q Hp Hq)) as (q' & E & (c & Hc & _) & _).
  rewrite Hq in E. injection E as <-. by exists c.
Qed.

Lemma ancestor_at p hp k q : at_height h p hp -> ancestor h p k = Some q -> at_height h q k /\ 0 <= k <= hp.
Proof.
  intros Hp Hq. pose proof (ancestor_range h p hp k q Hp Hq) as Hr. destruct (ancestor_spec h Hok p hp k Hp Hr) as (q' & E & Hq' & _). rewrite Hq in E. injection E as <-. done.
Qed.

Lemma on_path_height p hp q k : at_height h p hp -> at_height h q k -> on_path h p q -> ancestor h p k = Some q.
Proof.
  intros Hp Hq [j Hj]. destruct (ancestor_at p hp j q Hp Hj) as [(b & Hb & Hh) _]. destruct Hq as (c & Hc & Hk). rewrite Hb in Hc. injection Hc as <-. congruence.
Qed.

Lemma on_path_trans p q r : on_path h p q -> on_path h q r -> on_path h p r.
Proof.
  intros [k Hk] [j Hj]. pose proof (on_path_known p q ltac:(by exists k)) as [c Hc]. unfold ancestor in Hk. destruct (h !! p) as [b|] eqn:Eb; [|done].
  assert (at_height h p (nHeight b)) as Hp by (by exists b). assert (ancestor h p k = Some q) as Hq by (unfold ancestor; by rewrite Eb).
  destruct (ancestor_at p _ k q Hp Hq) as [Hqk Hr]. destruct (ancestor_at q k j r Hqk Hj) as [_ Hr2]. exists j. rewrite <- Hj. symmetry. apply (ancestor_trans h Hok p (nHeight b) q k); (done || lia).
Qed.

Lemma on_path_parent p b q : h !! p = Some b -> pprev b = Some q -> on_path h p q.
Proof.
  intros Hb Hp. destruct (Hok p b Hb) as [L1 L2 _]. rewrite Hp in L2. pose proof (at_height_nonneg h Hok q _ L2). exists (nHeight b - 1).
  rewrite <- Hp. symmetry. apply (ancestor_prev h Hok p b Hb). lia.
Qed.

(** A block on the path is the end of it or on that of the parent. *)
Lemma on_path_inv p b q : h !! p = Some b -> on_path h p q -> q = p \/ exists r, pprev b = Some r /\ on_path h r q.
Proof.
  intros Hb [k Hk]. assert (at_height h p (nHeight b)) as Hp by (by exists b). destruct (ancestor_at p _ k q Hp Hk) as [_ Hr].
  destruct (decide (k = nHeight b)) as [->|Hne]; [left; rewrite (ancestor_self h Hok p _ Hp) in Hk; congruence|]. right.
  rewrite (ancestor_prev h Hok p b Hb) by lia. destruct (ancestor_spec h Hok p (nHeight b) (nHeight b - 1) Hp ltac:(lia)) as (r & Er & Hr' & _). exists r. split; [done|].
  exists k. rewrite <- Hk. apply (ancestor_trans h Hok p (nHeight b) r (nHeight b - 1)); (done || lia).
Qed.
End Paths.

(** ** One candidate less *)

Lemma minus_in (X : gset ptr) x p : p ∈ X -> p ∉ X ∖ {[x]} -> p = x.
Proof. intros H1 H2. destruct (decide (p = x)) as [|Hne]; [done|]. exfalso. set_solver. Qed.
Lemma minus_out (X : gset ptr) x : x ∉ X ∖ {[x]}.
Proof. set_solver. Qed.
Lemma minus_sub (X : gset ptr) x : X ∖ {[x]} ⊆ X.
Proof. set_solver. Qed.

(** ** Status bits *)

Definition received (b : CBlockIndex) : Prop := has_data b = true /\ BLOCK_VALID_TRANSACTIONS <= Z.land (nStatus b) BLOCK_VALID_MASK.

Lemma nz_true x : negb (x =? 0) = true <-> x <> 0.
Proof. destruct (Z.eqb_spec x 0); cbn; split; congruence. Qed.

Lemma failed_true b : failed b = true <-> Z.land (nStatus b) BLOCK_FAILED_MASK <> 0.
Proof. apply nz_true. Qed.
Lemma failed_false b : failed b = false <-> Z.land (nStatus b) BLOCK_FAILED_MASK = 0.
Proof. unfold failed. destruct (Z.eqb_spec (Z.land (nStatus b) BLOCK_FAILED_MASK) 0); cbn; split; congruence. Qed.

Lemma lor_nonzero a b : b <> 0 -> Z.lor a b <> 0.
Proof. intros Hb E. by apply Z.lor_eq_0_iff in E as [_ E]. Qed.

Lemma mark_failed b flag : flag = BLOCK_FAILED_VALID \/ flag = BLOCK_FAILED_CHILD -> failed (with_status b (Z.lor (nStatus b) flag)) = true.
Proof. intros Hf. apply failed_true. cbn [with_status nStatus]. rewrite Z.land_lor_distr_l. apply lor_nonzero. by destruct Hf as [-> | ->]. Qed.

Lemma mark_received b flag : flag = BLOCK_FAILED_VALID \/ flag = BLOCK_FAILED_CHILD \/ flag = BLOCK_HAVE_UNDO -> received b -> received (with_status b (Z.lor (nStatus b) flag)).
Proof.
  intros Hf [Hd Hl]. unfold received, has_data in *. cbn [with_status nStatus]. rewrite !Z.land_lor_distr_l. split.
  - apply nz_true in Hd. apply nz_true. intros E. by apply Z.lor_eq_0_iff in E as [E _].
  - replace (Z.land flag BLOCK_VALID_MASK) with 0 by (by destruct Hf as [->|[-> | ->]]). by rewrite Z.lor_0_r.
Qed.

Lemma undo_failed b : failed (with_status b (Z.lor (nStatus b) BLOCK_HAVE_UNDO)) = failed b.
Proof. unfold failed. cbn [with_status nStatus]. rewrite Z.land_lor_distr_l. change (Z.land BLOCK_HAVE_UNDO BLOCK_FAILED_MASK) with 0. by rewrite Z.lor_0_r. Qed.

Lemma clear_clean b : failed (with_status b (clear_failed (nStatus b))) = false.
Proof. apply failed_false. cbn [with_status nStatus]. unfold clear_failed. rewrite <- Z.land_assoc. change (Z.land (Z.lnot BLOCK_FAILED_MASK) BLOCK_FAILED_MASK) with 0. apply Z.land_0_r. Qed.

Lemma clear_received b : received b -> received (with_status b (clear_failed (nStatus b))).
Proof.
  intros [Hd Hl]. unfold received, has_data, clear_failed in *. cbn [with_status nStatus]. rewrite <- !Z.land_assoc.
  change (Z.land (Z.lnot BLOCK_FAILED_MASK) BLOCK_HAVE_DATA) with BLOCK_HAVE_DATA. change (Z.land (Z.lnot BLOCK_FAILED_MASK) BLOCK_VALID_MASK) with BLOCK_VALID_MASK. done.
Qed.

(** [RaiseValidity] changes the level only. *)
Lemma raise_status b n : 0 <= n <= 5 ->
  exists b' c, RaiseValidity b n = Ret (b', c) /\ links b' = links b /\ failed b' = failed b /\ (received b -> received b') /\
    (failed b = false -> 0 <= nStatus b -> n <= Z.land (nStatus b') BLOCK_VALID_MASK) /\ has_data b' = has_data b.
Proof.
  intros Hn. unfold RaiseValidity, valid_level.
  assert (Z.land n (Z.lnot BLOCK_VALID_MASK) = 0) as Hlev by (assert (n = 0 \/ n = 1 \/ n = 2 \/ n = 3 \/ n = 4 \/ n = 5) as [->|[->|[->|[->|[->| ->]]]]] by lia; reflexivity).
  rewrite Hlev. cbn [Z.eqb oassert obind]. destruct (negb (Z.land (nStatus b) BLOCK_FAILED_MASK =? 0)) eqn:Ef.
  { exists b, false. split_and!; try done. unfold failed. by rewrite Ef. }
  destruct (Z.ltb_spec (Z.land (nStatus b) BLOCK_VALID_MASK) n) as [Hlt|Hge].
  2:{ exists b, false. split_and!; try done. }
  assert (forall m, Z.land (Z.lnot BLOCK_VALID_MASK) m = m -> Z.land n m = 0 ->
    Z.land (Z.lor (Z.land (nStatus b) (Z.lnot BLOCK_VALID_MASK)) n) m = Z.land (nStatus b) m) as Hkeep.
  { intros m H1 H2. by rewrite Z.land_lor_distr_l, <- Z.land_assoc, H1, H2, Z.lor_0_r. }
  assert (Z.land n BLOCK_FAILED_MASK = 0 /\ Z.land n BLOCK_HAVE_DATA = 0 /\ Z.land n BLOCK_VALID_MASK = n) as (N1 & N2 & N3)
    by (assert (n = 0 \/ n = 1 \/ n = 2 \/ n = 3 \/ n = 4 \/ n = 5) as [->|[->|[->|[->|[->| ->]]]]] by lia; done).
  assert (Z.land (Z.lor (Z.land (nStatus b) (Z.lnot BLOCK_VALID_MASK)) n) BLOCK_VALID_MASK = n) as Hv.
  { rewrite Z.land_lor_distr_l, <- Z.land_assoc, N3. change (Z.land (Z.lnot BLOCK_VALID_MASK) BLOCK_VALID_MASK) with 0. by rewrite Z.land_0_r. }
  eexists _, true. split; [reflexivity|]. split; [done|]. unfold failed, received, has_data. cbn [with_status nStatus].
  rewrite !(Hkeep BLOCK_FAILED_MASK), !(Hkeep BLOCK_HAVE_DATA), !Hv by done. split_and!; try done. intros [Hd Hl]. split; [done | lia].
Qed.

(** * The invariant *)

(** What connecting and disconnecting promise.  The coins are those after a block
    ([holds]); on top of it each of its children ([child]) connects, or is refused
    for good, as its contents and its ancestors decide ([verdict]), unless the
    machine fails; and a block that was connected can be disconnected. *)
Class ChainStateLaws (Coins : Type) {CS : ChainState Coins} := {
  verdict : ptr -> bool;
  child : ptr -> ptr -> Prop;
  holds : ptr -> Coins -> Prop;
  connect_returns t p c : child t p -> holds t c -> exists r, connect p c = Ret r /\
    match r with
    | Connects c' => holds p c' /\ verdict p = true
    | Refused st => IsInvalid st = true -> corruptionPossible st = false /\ verdict p = false
    | _ => True
    end;
  disconnect_returns t p c : child t p -> holds p c -> exists r, disconnect p c = Ret r /\
    match r with Disconnects c' => holds t c' | _ => True end
}.

Section Invariant.
Context {Coins : Type} {CS : ChainState Coins} {Laws : ChainStateLaws Coins}.
Variable nChainWork : ptr -> Z.
Variable GetBlockProof : ptr -> Z.
Variable IsInitialBlockDownload : CChain -> bool.
Abbreviation Node := (node Coins).
Abbreviation less := (work_less (Coins := Coins) nChainWork).

Definition unfailed (s : Node) (p : ptr) : Prop := exists b, blocks s !! p = Some b /\ failed b = false.

(** All transactions of the branch are there and no block of it is known to fail. *)
Definition usable (s : Node) (p : ptr) : Prop := is_Some (blocks s !! p) /\ chain_tx s p <> 0 /\ forall q, on_path (blocks s) p q -> unfailed s q.
Definition good (s : Node) (p : ptr) : Prop := forall q, on_path (blocks s) p q -> verdict q = true.

(** There is a block [r], usable and free of failures to come, from which on every
    received block not marked itself is a candidate. *)
Definition reserve (s : Node) (r : ptr) : Prop :=
  usable s r /\ good s r /\ forall p, unfailed s p -> chain_tx s p <> 0 -> less s p r = false -> p ∈ setBlockIndexCandidates s.

Record consistent (s : Node) : Prop := mkConsistent {
  co_index : index_ok (blocks s);
  co_linked : forall p b, blocks s !! p = Some b -> chain_tx s p <> 0 -> received b /\ match pprev b with Some q => chain_tx s q <> 0 | None => True end;
  co_candidates : forall p, p ∈ setBlockIndexCandidates s -> is_Some (blocks s !! p) /\ chain_tx s p <> 0;
  co_forktip : known_or_null (blocks s) (pindexBestForkTip s);
  co_child : forall p b q, blocks s !! p = Some b -> pprev b = Some q -> child q p;
  co_genesis : exists g, forall p, at_height (blocks s) p 0 -> p = g;
  co_tip : exists t, chain_for (blocks s) (chainActive s) t /\ usable s t /\ good s t /\ holds t (pcoinsTip s);
  co_reserve : exists r, reserve s r
}.

Lemma clean_dec s p : unfailed s p \/ ~ unfailed s p.
Proof.
  unfold unfailed. destruct (blocks s !! p) as [b|]; [|right; by intros (b & Hb & _)]. destruct (failed b) eqn:E; [right; intros (c & Hc & Hf); congruence | left; by exists b].
Qed.

Lemma usable_clean s p : index_ok (blocks s) -> usable s p -> unfailed s p.
Proof. intros Hok ([b Hb] & _ & Hc). apply Hc. by apply (on_path_self _ Hok p b). Qed.

Lemma linked_path s p q : consistent s -> is_Some (blocks s !! p) -> chain_tx s p <> 0 -> on_path (blocks s) p q -> chain_tx s q <> 0.
Proof.
  intros Hc [b Hb] Htx [k Hk]. pose proof (co_index s Hc) as Hok. assert (at_height (blocks s) p (nHeight b)) as Hh by (by exists b). pose proof (ancestor_range _ p _ k q Hh Hk) as Hr.
  assert (forall n x, up (blocks s) n x = Some q -> chain_tx s x <> 0 -> chain_tx s q <> 0) as Hup.
  { induction n as [|n IH]; intros x Hx Ht; cbn [up] in Hx; [congruence|]. destruct (blocks s !! x) as [c|] eqn:Ec; [|done]. cbn [mbind option_bind] in Hx.
    destruct (pprev c) as [y|] eqn:Ey; [|done]. cbn [mbind option_bind] in Hx. apply (IH y Hx). destruct (co_linked s Hc x c Ec Ht) as [_ Hl]. by rewrite Ey in Hl. }
  destruct (ancestor_spec _ Hok p _ k Hh Hr) as (q' & E & _ & Hu). rewrite Hk in E. injection E as <-. by apply (Hup _ p Hu).
Qed.

Lemma usable_sub s p q : consistent s -> usable s p -> on_path (blocks s) p q -> usable s q.
Proof.
  intros Hc (Hp & Htx & Hcl) Hpq. pose proof (co_index s Hc) as Hok. split; [exact (on_path_known _ Hok p q Hpq)|].
  split; [by apply (linked_path s p q)|]. intros r Hr. apply Hcl. by apply (on_path_trans _ Hok p q r).
Qed.

Lemma good_sub s p q : index_ok (blocks s) -> good s p -> on_path (blocks s) p q -> good s q.
Proof. intros Hok Hg Hpq r Hr. apply Hg. by apply (on_path_trans _ Hok p q r). Qed.

(** ** Marking blocks *)

(** What the steps of [ActivateBestChain] do to the tree: only statuses change, and
    no failure is taken back. *)
Definition marks (s s' : Node) : Prop :=
  same_tree (blocks s) (blocks s') /\ nChainTx s' = nChainTx s /\ nSequenceId s' = nSequenceId s /\ (forall p, unfailed s' p -> unfailed s p).

Lemma marks_refl s : marks s s.
Proof. split; [done|]. done. Qed.

Lemma marks_trans s1 s2 s3 : marks s1 s2 -> marks s2 s3 -> marks s1 s3.
Proof. intros (A1 & A2 & A3 & A4) (B1 & B2 & B3 & B4). split; [by etransitivity|]. split; [congruence|]. split; [congruence | auto]. Qed.

Lemma marks_less s s' a b : marks s s' -> less s' a b = less s a b.
Proof. intros (_ & _ & E & _). unfold work_less, sequence. by rewrite E. Qed.

Lemma marks_path s s' p q : marks s s' -> on_path (blocks s') p q <-> on_path (blocks s) p q.
Proof. intros (Ht & _). by apply same_tree_path. Qed.

Lemma marks_usable s s' p : marks s s' -> usable s' p -> usable s p.
Proof.
  intros Hm ([b Hb] & Htx & Hc). pose proof Hm as (Ht & Hn & _ & Hcl). split.
  - destruct (same_tree_lookup _ _ p b ltac:(by symmetry) Hb) as (b' & Hb' & _). by exists b'.
  - split; [unfold chain_tx in *; by rewrite <- Hn|]. intros q Hq. apply Hcl, Hc. by apply (marks_path s s' p q Hm).
Qed.

(** Newly marked blocks lie above failed ones or fail themselves; only marked blocks
    leave the candidates. *)
Lemma marks_consistent s s' : consistent s -> marks s s' -> chainActive s' = chainActive s -> pcoinsTip s' = pcoinsTip s -> known_or_null (blocks s') (pindexBestForkTip s') ->
  (forall p b b', blocks s !! p = Some b -> blocks s' !! p = Some b' -> received b -> received b') ->
  (forall p, unfailed s p -> ~ unfailed s' p -> (exists q, on_path (blocks s) p q /\ ~ unfailed s q) \/ verdict p = false) ->
  setBlockIndexCandidates s' ⊆ setBlockIndexCandidates s ->
  (forall p, p ∈ setBlockIndexCandidates s -> p ∉ setBlockIndexCandidates s' -> ~ unfailed s' p) ->
  consistent s' /\ forall p, usable s p -> good s p -> usable s' p /\ good s' p.
Proof.
  intros Hc Hm Hch Hcn Hfk Hrec Hnew Hsub Hgone. pose proof (co_index s Hc) as Hok. pose proof Hm as (Ht & Hn & _ & Hcl).
  assert (forall p, chain_tx s' p = chain_tx s p) as Htx by (intros p; unfold chain_tx; by rewrite Hn).
  assert (forall p, usable s p -> good s p -> usable s' p /\ good s' p) as Hkeep.
  { intros p Hu Hg. split.
    - destruct Hu as ([b Hb] & Hpt & Hpc). split; [destruct (same_tree_lookup _ _ p b Ht Hb) as (b' & Hb' & _); by exists b'|]. split; [by rewrite Htx|].
      intros q Hq. apply (marks_path s s' p q Hm) in Hq. destruct (clean_dec s' q) as [|Hne]; [done|]. exfalso.
      destruct (Hnew q (Hpc q Hq) Hne) as [(r & Hr & Hnr)|Hv]; [apply Hnr, Hpc; by apply (on_path_trans _ Hok p q r)|]. rewrite (Hg q Hq) in Hv. done.
    - intros q Hq. apply Hg. by apply (marks_path s s' p q Hm). }
  split; [|exact Hkeep]. split.
  - exact (index_ok_same _ _ Ht Hok).
  - intros p b' Hb' Hp. rewrite Htx in Hp. destruct (same_tree_lookup _ _ p b' ltac:(by symmetry) Hb') as (b & Hb & E & _). destruct (co_linked s Hc p b Hb Hp) as [H1 H2].
    split; [exact (Hrec p b b' Hb Hb' H1)|]. rewrite <- E. destruct (pprev b) as [q|]; [by rewrite Htx | done].
  - intros p Hp. destruct (co_candidates s Hc p (Hsub p Hp)) as [[b Hb] Hpt]. rewrite Htx. split; [|done]. destruct (same_tree_lookup _ _ p b Ht Hb) as (b' & Hb' & _). by exists b'.
  - done.
  - intros p b' q Hb' Hq. destruct (same_tree_lookup _ _ p b' ltac:(by symmetry) Hb') as (b & Hb & E & _). rewrite <- E in Hq. exact (co_child s Hc p b q Hb Hq).
  - destruct (co_genesis s Hc) as (g & Hg). exists g. intros p Hp. apply Hg. exact (at_height_same _ _ _ _ (symmetry Ht) Hp).
  - destruct (co_tip s Hc) as (t & Hf & Hu & Hg & Hh). exists t. destruct (Hkeep t Hu Hg) as [H1 H2]. rewrite Hch, Hcn. split; [exact (chain_for_same _ _ _ t Ht Hf) | done].
  - destruct (co_reserve s Hc) as (r & Hu & Hg & Hall). exists r. destruct (Hkeep r Hu Hg) as [H1 H2]. split; [done|]. split; [done|]. intros p Hp Hpt Hl.
    rewrite Htx in Hpt. rewrite (marks_less s s' p r Hm) in Hl. pose proof (Hall p (Hcl p Hp) Hpt Hl) as Hin. destruct (decide (p ∈ setBlockIndexCandidates s')) as [|Hout]; [done|].
    exfalso. exact (Hgone p Hin Hout Hp).
Qed.

(** What the search for the best candidate leaves alone. *)
Definition searched (s s' : Node) : Prop :=
  marks s s' /\ chainActive s' = chainActive s /\ pcoinsTip s' = pcoinsTip s /\
  setBlockIndexCandidates s' ⊆ setBlockIndexCandidates s /\ consistent s'.

Lemma searched_refl s : consistent s -> searched s s.
Proof. intros Hc. split; [apply marks_refl | done]. Qed.

Lemma searched_trans s1 s2 s3 : searched s1 s2 -> searched s2 s3 -> searched s1 s3.
Proof.
  intros (A1 & A2 & A3 & A4 & _) (B1 & B2 & B3 & B4 & B5). split; [by eapply marks_trans|]. split; [congruence|]. split; [congruence|].
  split; [by etransitivity | done].
Qed.

(** Fields on which the invariant does not depend. *)
Lemma searched_other s s' : consistent s -> blocks s' = blocks s -> nChainTx s' = nChainTx s -> nSequenceId s' = nSequenceId s -> chainActive s' = chainActive s ->
  setBlockIndexCandidates s' = setBlockIndexCandidates s -> pcoinsTip s' = pcoinsTip s -> known_or_null (blocks s) (pindexBestForkTip s') -> searched s s'.
Proof.
  intros Hc E1 E2 E3 E4 E5 E6 E7. assert (forall p, unfailed s' p <-> unfailed s p) as Hcl by (intros p; unfold unfailed; by rewrite E1).
  assert (marks s s') as Hm by (split; [by rewrite E1|]; split; [done|]; split; [done|]; intros p; by apply Hcl). split; [done|]. split; [done|]. split; [done|].
  split; [by rewrite E5|]. apply (marks_consistent s s' Hc Hm E4 E6).
  - by rewrite E1.
  - intros p b b' Hb Hb'. rewrite E1 in Hb'. by simplify_eq.
  - intros p Hp Hn. by apply Hcl in Hp.
  - by rewrite E5.
  - intros p Hp. by rewrite E5.
Qed.

Lemma mark_erase s x b flag : consistent s -> blocks s !! x = Some b -> flag = BLOCK_FAILED_VALID \/ flag = BLOCK_FAILED_CHILD ->
  ((exists q, on_path (blocks s) x q /\ ~ unfailed s q) \/ verdict x = false) ->
  exists s', mark s x flag = Ret s' /\ searched s (erase_candidate s' x) /\ ~ unfailed (erase_candidate s' x) x /\ x ∉ setBlockIndexCandidates (erase_candidate s' x).
Proof.
  intros Hc Hb Hf Hx. unfold mark, set_status, deref. cbn [oaccess obind]. rewrite Hb. cbn [oaccess obind]. eexists. split; [reflexivity|].
  set (b' := with_status b (Z.lor (nStatus b) flag)). set (s' := erase_candidate (with_blocks s (<[x := b']> (blocks s))) x).
  assert (same_tree (blocks s) (blocks s')) as Ht by (by apply (same_tree_insert _ x b)).
  assert (~ unfailed s' x) as Hnx by (intros (c & Hcx & Hfc); cbn in Hcx; rewrite lookup_insert_eq in Hcx; injection Hcx as <-; pose proof (mark_failed b flag Hf); unfold b' in Hfc; congruence).
  assert (forall p, p <> x -> unfailed s' p <-> unfailed s p) as Hother by (intros p Hne; unfold unfailed; cbn; by rewrite lookup_insert_ne).
  assert (marks s s') as Hm.
  { split; [done|]. split; [done|]. split; [done|]. intros p Hp. destruct (decide (p = x)) as [->|Hne]; [done|]. by apply Hother. }
  assert (setBlockIndexCandidates s' = setBlockIndexCandidates s ∖ {[x]}) as Ecand by done.
  assert (consistent s') as Hc'.
  { apply (marks_consistent s s' Hc Hm eq_refl eq_refl).
    - pose proof (co_forktip s Hc) as Hk. cbn. destruct (pindexBestForkTip s) as [y|]; [|done]. destruct Hk as [c Hk]. destruct (same_tree_lookup _ _ y c Ht Hk) as (c' & Hc' & _). by exists c'.
    - intros p c c' Hcp Hcp' Hr. cbn in Hcp'. destruct (decide (p = x)) as [->|Hne]; [|rewrite lookup_insert_ne in Hcp' by done; congruence].
      rewrite lookup_insert_eq in Hcp'. injection Hcp' as <-. rewrite Hb in Hcp. injection Hcp as <-. apply mark_received; [destruct Hf; auto | done].
    - intros p Hp Hnp. destruct (decide (p = x)) as [->|Hne]; [done|]. exfalso. apply Hnp. by apply Hother.
    - rewrite Ecand. apply minus_sub.
    - intros p Hp Hnp. rewrite Ecand in Hnp. by rewrite (minus_in _ _ _ Hp Hnp). }
  split; [|split; [done | rewrite Ecand; apply minus_out]]. split; [done|]. split_and!; try done. rewrite Ecand. apply minus_sub.
Qed.

Lemma erase_failed s x : consistent s -> ~ unfailed s x -> searched s (erase_candidate s x).
Proof.
  intros Hc Hx. assert (marks s (erase_candidate s x)) as Hm by (split; done). split; [done|]. split_and!; try done; [apply minus_sub|].
  apply (marks_consistent s (erase_candidate s x) Hc Hm eq_refl eq_refl).
  - apply (co_forktip s Hc).
  - intros p b b' Hb Hb'. cbn in Hb'. by simplify_eq.
  - intros p Hp Hn. by exfalso.
  - apply minus_sub.
  - intros p Hp Hnp. by rewrite (minus_in _ _ _ Hp Hnp).
Qed.

(** ** [FindMostWorkChain] *)

Lemma drop_candidate_chain_spec fuel : forall x hx t ht s, consistent s -> at_height (blocks s) x hx -> at_height (blocks s) t ht -> on_path (blocks s) x t -> ~ unfailed s t ->
  hx - ht <= Z.of_nat fuel ->
  exists s', drop_candidate_chain fuel true x t s = Ret s' /\ searched s s' /\ (x <> t -> x ∉ setBlockIndexCandidates s').
Proof.
  induction fuel as [|fuel IH]; intros x hx t ht s Hc Hx Ht Hp Hf Hfuel; pose proof (co_index s Hc) as Hok.
  all: cbn [drop_candidate_chain]; destruct (decide (t = x)) as [->|Hne];
    [rewrite bool_decide_eq_true_2 by done; exists s; split; [done|]; split; [by apply searched_refl | done] | rewrite bool_decide_eq_false_2 by done].
  all: pose proof (on_path_height _ Hok x hx t ht Hx Ht Hp) as Ha; destruct (ancestor_at _ Hok x hx ht t Hx Ha) as [_ Hr].
  { exfalso. assert (hx = ht) as -> by lia. rewrite (ancestor_self _ Hok x ht Hx) in Ha. congruence. }
  destruct Hx as (b & Hb & Hhb). unfold deref. cbn [oaccess obind]. rewrite Hb. cbn [oaccess obind].
  destruct (on_path_inv _ Hok x b t Hb Hp) as [->|(y & Ey & Hyt)]; [done|]. rewrite Ey. cbn [oaccess obind].
  destruct (mark_erase s x b BLOCK_FAILED_CHILD Hc Hb) as (s1 & -> & Hs1 & Hnx & Hout); [by right | left; by exists t|]. cbn [obind].
  pose proof Hs1 as (Hm & _ & _ & _ & Hc1). pose proof Hm as (Htree & _).
  destruct (Hok x b Hb) as [_ L2 _]. rewrite Ey in L2.
  destruct (IH y (nHeight b - 1) t ht (erase_candidate s1 x) Hc1) as (s' & -> & Hs' & _).
  - by apply (at_height_same _ _ _ _ Htree).
  - by apply (at_height_same _ _ _ _ Htree).
  - by apply (marks_path _ _ _ _ Hm).
  - intros Hct. destruct Hm as (_ & _ & _ & Hcl). by apply Hf, Hcl.
  - lia.
  - exists s'. split; [done|]. split; [by eapply searched_trans|]. intros _ Hin. destruct Hs' as (_ & _ & _ & Hsub & _). by apply Hout, Hsub.
Qed.

Lemma active_usable s t k : consistent s -> chain_for (blocks s) (chainActive s) t -> chain_at (chainActive s) k <> None -> exists q, chain_at (chainActive s) k = Some q /\ on_path (blocks s) t q.
Proof. intros Hc (h & Ht & Hl & Ha) Hn. destruct (chain_at (chainActive s) k) as [q|] eqn:E; [|done]. exists q. split; [done|]. exists k. by rewrite <- Ha. Qed.

Lemma test_candidate_spec m hm s : consistent s -> at_height (blocks s) m hm -> m ∈ setBlockIndexCandidates s ->
  forall fuel k, -1 <= k <= hm -> k < Z.of_nat fuel -> (forall j q, k < j -> ancestor (blocks s) m j = Some q -> unfailed s q) ->
  (test_candidate nChainWork fuel m (ancestor (blocks s) m k) s = Ret (false, s) /\ usable s m) \/
  (exists s', test_candidate nChainWork fuel m (ancestor (blocks s) m k) s = Ret (true, s') /\ searched s s' /\ m ∉ setBlockIndexCandidates s').
Proof.
  intros Hc Hm Hin. pose proof (co_index s Hc) as Hok. destruct (co_candidates s Hc m Hin) as [Hkn Htx]. induction fuel as [|fuel IH]; intros k Hk Hf Habove; destruct (decide (k = -1)) as [->|Hne].
  1, 3: left; rewrite (ancestor_None _ m hm) by (done || lia); cbn [test_candidate]; (split; [done|]; split; [done|]; split; [done|]); intros q [j Hj];
    pose proof (ancestor_range _ m hm j q Hm Hj); apply (Habove j); [lia | done].
  1: lia.
  destruct (ancestor_spec _ Hok m hm k Hm ltac:(lia)) as (t & Et & Ht & _). rewrite Et. cbn [test_candidate].
  assert (on_path (blocks s) m t) as Hmt by (by exists k). destruct (co_tip s Hc) as (a & Hca & Hua & Hga & _).
  rewrite (Contains_spec _ _ a t k Hca Ht). cbn [obind]. case_bool_decide as Hinside.
  { left. split; [done|]. split; [done|]. split; [done|]. intros q [j Hj]. destruct (decide (k < j)) as [Hlt|Hge]; [by apply (Habove j)|].
    destruct Hua as (_ & _ & Hcl). apply Hcl. apply (on_path_trans _ Hok a t q); [by exists k|]. exists j. rewrite <- Hj. apply (ancestor_trans _ Hok m hm t k); (done || (pose proof (ancestor_range _ m hm j q Hm Hj); lia)). }
  destruct Ht as (b & Hb & Hhb). unfold deref. cbn [oaccess obind]. rewrite Hb. cbn [oaccess obind].
  pose proof (linked_path s m t Hc Hkn Htx Hmt) as Htt. rewrite (proj2 (Z.eqb_neq _ _) Htt). cbn [negb orb oassert obind].
  destruct (co_linked s Hc t b Hb Htt) as [[Hdata _] Hl]. rewrite Hdata. cbn [negb]. rewrite orb_false_r. destruct (failed b) eqn:Hfb; cbn [andb].
  - right. set (s0 := if _ : bool then with_best_invalid s (Some m) else s).
    assert (searched s s0) as Hs0 by (unfold s0; destruct (match pindexBestInvalid s with Some _ => _ | None => _ end); [apply searched_other; try done; apply (co_forktip s Hc) | by apply searched_refl]).
    assert (blocks s0 = blocks s) as Eb by (unfold s0; by destruct (match pindexBestInvalid s with Some _ => _ | None => _ end)).
    assert (~ unfailed s t) as Hnt by (intros (c & Hct & Hfc); congruence).
    assert (~ unfailed s0 t) as Hnt0 by (unfold unfailed; by rewrite Eb).
    destruct (drop_candidate_chain_spec (walk_length (blocks s0) (Some m)) m hm t k s0) as (s1 & E1 & Hs1 & Hout1); try done; [apply Hs0 | by rewrite Eb | rewrite Eb; by exists b | by rewrite Eb | |].
    { unfold walk_length. cbn [mbind option_bind]. rewrite Eb. destruct Hm as (bm & -> & <-). cbv iota beta. pose proof (li_height _ _ _ (Hok t b Hb)). lia. }
    rewrite E1. cbn [obind]. eexists. split; [reflexivity|].
    assert (~ unfailed s1 t) as Hnt1 by (intros H; destruct Hs1 as ((_ & _ & _ & Hcl) & _); by apply Hnt0, Hcl).
    pose proof (erase_failed s1 t ltac:(apply Hs1) Hnt1) as Hs2. split; [eapply searched_trans; [exact Hs0|]; eapply searched_trans; [exact Hs1 | exact Hs2]|].
    intros Hin2. destruct (decide (m = t)) as [->|Hmt']; [by apply minus_out in Hin2|]. apply Hout1; [done|]. exact (minus_sub _ _ _ Hin2).
  - assert (pprev b = ancestor (blocks s) m (k - 1)) as ->.
    { destruct (prev_on_branch _ Hok m hm t k b Hm ltac:(lia) Et Hb) as [-> _]. destruct (Z.eqb_spec k 0) as [->|]; [|done]. by rewrite (ancestor_None _ m hm) by (done || lia). }
    apply IH; [lia | lia|]. intros j q Hj Hq. destruct (decide (j = k)) as [->|]; [|apply (Habove j); (done || lia)]. rewrite Et in Hq. injection Hq as <-. by exists b.
Qed.

(** No usable block is better. *)
Definition most_work (s : Node) (m : ptr) : Prop := forall p, usable s p -> less s m p = false.

Lemma reserve_candidate s r : consistent s -> reserve s r -> r ∈ setBlockIndexCandidates s.
Proof. intros Hc (Hu & _ & Hall). apply Hall; [by apply usable_clean, Hu; apply (co_index s Hc) | apply Hu | apply less_irrefl]. Qed.

Lemma candidates_best s m : consistent s -> (forall p, p ∈ setBlockIndexCandidates s -> less s m p = false) -> most_work s m.
Proof.
  intros Hc Hall p Hp. destruct (co_reserve s Hc) as (r & Hr). pose proof (reserve_candidate s r Hc Hr) as Hin. destruct Hr as (_ & _ & Hres).
  destruct (less s p r) eqn:E.
  - pose proof (less_asym nChainWork s p r E) as E2. apply (not_less_trans nChainWork s m r p); [by apply Hall | done].
  - apply Hall, Hres; [by apply usable_clean, Hp; apply (co_index s Hc) | apply Hp | done].
Qed.

Lemma marks_best s s' m : marks s s' -> most_work s m -> most_work s' m.
Proof. intros Hm Hb p Hp. rewrite (marks_less s s' m p Hm). apply Hb. exact (marks_usable s s' p Hm Hp). Qed.

Lemma find_most_work_spec fuel : forall s, consistent s -> (size (setBlockIndexCandidates s) <= fuel)%nat ->
  exists m s', find_most_work nChainWork fuel s = Ret (Some m, s') /\ searched s s' /\ usable s' m /\ m ∈ setBlockIndexCandidates s' /\ most_work s' m.
Proof.
  induction fuel as [|fuel IH]; intros s Hc Hf; destruct (co_reserve s Hc) as (r & Hr); pose proof (reserve_candidate s r Hc Hr) as Hin.
  { exfalso. assert (size (setBlockIndexCandidates s) <> 0%nat); [|lia]. intros E. apply size_empty_iff, leibniz_equiv in E. rewrite E in Hin. by apply elem_of_empty in Hin. }
  cbn [find_most_work]. pose proof (greatest_spec nChainWork s (elements (setBlockIndexCandidates s))) as Hg.
  destruct (greatest nChainWork s _) as [m|]; [|by apply elem_of_elements in Hin; rewrite Hg in Hin; apply elem_of_nil in Hin].
  destruct Hg as [Hm Hmax]. apply elem_of_elements in Hm. destruct (co_candidates s Hc m Hm) as [[b Hb] _]. pose proof (co_index s Hc) as Hok.
  assert (at_height (blocks s) m (nHeight b)) as Hh by (by exists b). pose proof (at_height_nonneg _ Hok m _ Hh) as H0.
  assert (walk_length (blocks s) (Some m) = S (Z.to_nat (nHeight b))) as Ew by (unfold walk_length; cbn [mbind option_bind]; by rewrite Hb). rewrite Ew.
  pose proof (test_candidate_spec m (nHeight b) s Hc Hh Hm (S (Z.to_nat (nHeight b))) (nHeight b)) as Htest. rewrite (ancestor_self _ Hok m _ Hh) in Htest.
  destruct Htest as [[-> Hu]|(s1 & -> & Hs1 & Hout)].
  - lia.
  - lia.
  - intros j q Hj Hq. rewrite (ancestor_None _ m (nHeight b)) in Hq by (done || lia). done.
  - cbn [obind negb]. exists m, s. split; [done|]. split; [by apply searched_refl|]. split; [done|]. split; [done|].
    apply candidates_best; [done|]. intros p Hp. by apply Hmax, elem_of_elements.
  - cbn [obind negb]. pose proof Hs1 as (_ & _ & _ & Hsub & Hc1). destruct (IH s1 Hc1) as (m' & s' & -> & Hs' & H).
    + assert (size (setBlockIndexCandidates s1) < size (setBlockIndexCandidates s))%nat; [|lia]. apply subset_size. split; [done|]. intros Hsub2. by apply Hout, Hsub2.
    + exists m', s'. split; [done|]. split; [by eapply searched_trans | done].
Qed.

(** ** [PruneBlockIndexCandidates] *)

Lemma prune_spec (s : Node) t : consistent s -> chain_for (blocks s) (chainActive s) t ->
  exists c, PruneBlockIndexCandidates nChainWork s = Ret (with_candidates s c) /\ consistent (with_candidates s c).
Proof.
  intros Hc Ht. pose proof (co_index s Hc) as Hok. unfold PruneBlockIndexCandidates. rewrite (chain_for_tip _ _ t Hok Ht). cbn [oaccess obind].
  destruct (prune_loop_spec nChainWork (size (setBlockIndexCandidates s)) t s) as (c & -> & Hcand); [done|]. exists c.
  destruct (co_tip s Hc) as (t' & Ht' & Htu & Htg & Hth). assert (t' = t) as -> by (pose proof (chain_for_tip _ _ t' Hok Ht'); pose proof (chain_for_tip _ _ t Hok Ht); congruence).
  destruct (co_reserve s Hc) as (r & Hru & Hrg & Hres).
  assert (exists r', reserve (with_candidates s c) r') as (r' & Hr').
  { destruct (less s t r) eqn:E.
    - exists r. split; [exact Hru|]. split; [exact Hrg|]. intros p Hp Hpt Hl. apply Hcand. split; [by apply Hres|]. apply (not_less_trans nChainWork s p r t); [done | by apply less_asym].
    - exists t. split; [exact Htu|]. split; [exact Htg|]. intros p Hp Hpt Hl. apply Hcand. split; [|done]. apply Hres; [done | done|]. by apply (not_less_trans nChainWork s p t r). }
  assert (consistent (with_candidates s c)) as Hc'.
  { split; [exact (co_index s Hc) | exact (co_linked s Hc) | | exact (co_forktip s Hc) | exact (co_child s Hc) | exact (co_genesis s Hc) | exists t; exact (conj Ht (conj Htu (conj Htg Hth))) | by exists r'].
    intros p Hp. apply Hcand in Hp as [Hp _]. exact (co_candidates s Hc p Hp). }
  pose proof (reserve_candidate _ r' Hc' Hr') as Hin. rewrite bool_decide_eq_true_2; [done|]. intros E. rewrite E in Hin. by apply elem_of_empty in Hin.
Qed.

(** ** Fork warnings and invalid blocks *)

Lemma tip_of s : consistent s -> exists t, chain_Tip (chainActive s) = Some t /\ chain_for (blocks s) (chainActive s) t /\ usable s t /\ good s t /\ holds t (pcoinsTip s).
Proof. intros Hc. destruct (co_tip s Hc) as (t & Ht & H). exists t. split; [exact (chain_for_tip _ _ t (co_index s Hc) Ht) | done]. Qed.

Lemma CheckForkWarningConditions_spec s : consistent s -> exists s', CheckForkWarningConditions nChainWork GetBlockProof IsInitialBlockDownload s = Ret s' /\ searched s s'.
Proof.
  intros Hc. unfold CheckForkWarningConditions. destruct (IsInitialBlockDownload (chainActive s)); [exists s; split; [done | by apply searched_refl]|].
  pose proof (co_forktip s Hc) as Hk. destruct (tip_of s Hc) as (t & Et & _).
  assert (exists r, match pindexBestForkTip s with Some p => let* b := deref (blocks s) (Some p) in Ret (if chain_Height (chainActive s) - nHeight b >=? 72 then None else Some p) | None => Ret None end = Ret r /\
    known_or_null (blocks s) r) as (r & -> & Hr).
  { destruct (pindexBestForkTip s) as [p|]; [|by exists None]. destruct Hk as [b Hb]. unfold deref. cbn [oaccess obind]. rewrite Hb. cbn [oaccess obind].
    destruct (_ >=? 72); [by exists None|]. exists (Some p). split; [done | by exists b]. }
  cbn [obind]. assert (forall base large invalid, searched s (with_fork s r base large invalid)) as Hw by (intros base large invalid; by apply searched_other).
  assert (exists x, match r, pindexBestInvalid s with None, Some i => let* t := oaccess (chain_Tip (chainActive s)) in Ret (nChainWork i >? (nChainWork t + GetBlockProof t * 6) mod 2 ^ 256) | _, _ => Ret false end = Ret x) as (x & ->).
  { destruct r; [by eexists|]. destruct (pindexBestInvalid s); [|by eexists]. rewrite Et. cbn [oaccess obind]. by eexists. }
  cbn [obind]. destruct r as [p|]; [destruct (pindexBestForkBase s); eexists; (split; [reflexivity | apply Hw])|].
  destruct x; eexists; (split; [reflexivity | apply Hw]).
Qed.

Lemma InvalidChainFound_spec s p : consistent s -> exists s', InvalidChainFound nChainWork GetBlockProof IsInitialBlockDownload s p = Ret s' /\ searched s s'.
Proof.
  intros Hc. unfold InvalidChainFound. set (s1 := match pindexBestInvalid s with Some _ => _ | None => _ end).
  assert (searched s s1) as Hs1.
  { unfold s1. destruct (pindexBestInvalid s) as [i|]; [destruct (_ >? _)|]; try (by apply searched_refl); apply searched_other; try done; apply (co_forktip s Hc). }
  pose proof Hs1 as (_ & _ & _ & _ & Hc1). destruct (tip_of s1 Hc1) as (t & -> & _). cbn [oaccess obind]. destruct (CheckForkWarningConditions_spec s1 Hc1) as (s2 & -> & Hs2).
  exists s2. split; [done|]. by eapply searched_trans.
Qed.

Lemma InvalidBlockFound_spec s p b st : consistent s -> blocks s !! p = Some b -> corruptionPossible st = false -> verdict p = false ->
  exists s', InvalidBlockFound nChainWork GetBlockProof IsInitialBlockDownload s p st = Ret s' /\ searched s s' /\ ~ unfailed s' p.
Proof.
  intros Hc Hb Hcor Hv. unfold InvalidBlockFound. rewrite Hcor. destruct (mark_erase s p b BLOCK_FAILED_VALID Hc Hb) as (s1 & -> & Hs1 & Hn & _); [by left | by right|].
  cbn [obind]. destruct (InvalidChainFound_spec (erase_candidate s1 p) p) as (s2 & -> & Hs2); [apply Hs1|]. exists s2. split; [done|]. split; [by eapply searched_trans|].
  intros Hcl. apply Hn. destruct Hs2 as ((_ & _ & _ & Hcl2) & _). by apply Hcl2.
Qed.

Definition height_within (h : index_heap) (p : option ptr) (n : Z) : Prop := match p with Some q => forall b, h !! q = Some b -> nHeight b <= n | None => True end.

Lemma parent_within h p b n : index_ok h -> h !! p = Some b -> nHeight b <= n -> height_within h (pprev b) (n - 1).
Proof.
  intros Hok Hb Hn. destruct (Hok p b Hb) as [_ Hp _]. unfold height_within. destruct (pprev b) as [q|]; [|done]. destruct Hp as (c & Hc & Hh).
  intros c' Hc'. rewrite Hc in Hc'. injection Hc' as <-. lia.
Qed.

Lemma within_le h p n m : height_within h p n -> n <= m -> height_within h p m.
Proof. unfold height_within. destruct p as [q|]; [|done]. intros H Hle b Hb. specialize (H b Hb). lia. Qed.

Lemma drop_longer_spec h fuel : index_ok h -> forall l k n, known_or_null h l -> height_within h l n -> n - k <= Z.of_nat fuel -> -1 <= k ->
  exists r, drop_longer fuel h l k = Ret r /\ known_or_null h r /\ height_within h r n.
Proof.
  intros Hok. induction fuel as [|fuel IH]; intros [l|] k n Hl Hn Hf Hk; try (by exists None); destruct Hl as [b Hb]; pose proof (Hn b Hb) as Hbn;
    cbn [drop_longer]; unfold deref; cbn [oaccess obind]; rewrite Hb; cbn [oaccess obind].
  - destruct (Z.gtb_spec (nHeight b) k) as [Hgt|Hle]; [lia|]. exists (Some l). split; [done|]. split; [by exists b | done].
  - destruct (Z.gtb_spec (nHeight b) k) as [Hgt|Hle]; [|exists (Some l); split; [done|]; split; [by exists b | done]].
    destruct (IH (pprev b) k (n - 1)) as (r & -> & Hr & Hrn); [by apply (parent_known h Hok l) | by apply (parent_within h l b) | lia | done|].
    exists r. split; [done|]. split; [done|]. apply (within_le h r (n - 1)); [done | lia].
Qed.

Lemma find_fork_spec h fuel : index_ok h -> forall p l m n, known_or_null h p -> known_or_null h l -> height_within h p m -> height_within h l n ->
  0 <= n -> m + 1 + n <= Z.of_nat fuel -> exists r, find_fork fuel h p l = Ret r /\ known_or_null h r.
Proof.
  intros Hok. induction fuel as [|fuel IH]; intros [p|] l m n Hp Hl Hm Hn H0 Hf; try (by exists None); destruct Hp as [b Hb]; pose proof (Hm b Hb) as Hbm; pose proof (li_height _ _ _ (Hok p b Hb)); [lia|].
  cbn [find_fork]. case_bool_decide; [exists (Some p); split; [done | by exists b]|]. unfold deref. cbn [oaccess obind]. rewrite Hb. cbn [oaccess obind].
  destruct (drop_longer_spec h (S fuel) Hok l (nHeight b) n Hl Hn) as (l' & -> & Hl' & Hl2); [lia | lia|].
  cbn [obind]. case_bool_decide; [exists (Some p); split; [done | by exists b]|].
  apply (IH (pprev b) l' (m - 1) n); [by apply (parent_known h Hok p) | done | by apply (parent_within h p b) | done | done | lia].
Qed.

Lemma OnNewFork_spec s p b : consistent s -> blocks s !! p = Some b ->
  exists s', CheckForkWarningConditionsOnNewFork nChainWork GetBlockProof IsInitialBlockDownload s p = Ret s' /\ searched s s'.
Proof.
  intros Hc Hb. pose proof (co_index s Hc) as Hok. unfold CheckForkWarningConditionsOnNewFork. destruct (tip_of s Hc) as (t & -> & (ht & (bt & Hbt & Hht) & Hl & _) & _).
  pose proof (li_height _ _ _ (Hok p b Hb)) as Hp0. pose proof (li_height _ _ _ (Hok t bt Hbt)) as Ht0.
  destruct (find_fork_spec (blocks s) (walk_length (blocks s) (Some p) + walk_length (blocks s) (Some t)) Hok (Some p) (Some t) (nHeight b) (nHeight bt)) as (f & -> & Hf).
  - by exists b.
  - by exists bt.
  - intros c Hcb. rewrite Hb in Hcb. by injection Hcb as <-.
  - intros c Hcb. rewrite Hbt in Hcb. by injection Hcb as <-.
  - done.
  - unfold walk_length. cbn [mbind option_bind]. rewrite Hb, Hbt. lia.
  - cbn [obind]. unfold deref at 1. cbn [oaccess obind]. rewrite Hb. cbn [oaccess obind]. destruct f as [f|]; [|by apply CheckForkWarningConditions_spec].
    assert (exists x, match pindexBestForkTip s with None => Ret true | Some t => let* b' := deref (blocks s) (Some t) in Ret (nHeight b >? nHeight b') end = Ret x) as (x & ->).
    { pose proof (co_forktip s Hc) as Hk. destruct (pindexBestForkTip s) as [y|]; [|by eexists]. destruct Hk as [c Hk]. unfold deref. cbn [oaccess obind]. rewrite Hk. by eexists. }
    cbn [obind]. destruct (_ && _); [|by apply CheckForkWarningConditions_spec]. cbn [obind].
    assert (searched s (with_fork s (Some p) (Some f) (fLargeWorkForkFound s) (fLargeWorkInvalidChainFound s))) as Hs1 by (apply searched_other; try done; by exists b).
    destruct (CheckForkWarningConditions_spec _ ltac:(apply Hs1)) as (s2 & E2 & Hs2). exists s2. split; [exact E2|]. exact (searched_trans _ _ _ Hs1 Hs2).
Qed.


(** ** Connecting and disconnecting one block *)

(** The tree changes, but no block fails anew. *)
Definition keeps (s s' : Node) : Prop := marks s s' /\ (forall p, unfailed s p -> unfailed s' p) /\ consistent s'.

Lemma keeps_refl s : consistent s -> keeps s s.
Proof. intros Hc. split; [apply marks_refl | done]. Qed.

Lemma keeps_trans s1 s2 s3 : keeps s1 s2 -> keeps s2 s3 -> keeps s1 s3.
Proof. intros (A1 & A2 & _) (B1 & B2 & B3). split; [by eapply marks_trans|]. split; [auto | done]. Qed.

Lemma keeps_usable s s' p : keeps s s' -> usable s p -> usable s' p.
Proof.
  intros (Hm & Hcl & _) ([b Hb] & Htx & Hp). pose proof Hm as (Ht & Hn & _). split; [destruct (same_tree_lookup _ _ p b Ht Hb) as (b' & Hb' & _); by exists b'|].
  split; [unfold chain_tx in *; by rewrite Hn|]. intros q Hq. apply Hcl, Hp. by apply (marks_path s s' p q Hm).
Qed.

Definition is_tip (s : Node) (t : ptr) : Prop := chain_for (blocks s) (chainActive s) t.

(** Another tip on the same tree. *)
Lemma new_tip s c chain' t : consistent s -> chain_for (blocks s) chain' t -> usable s t -> good s t -> holds t c ->
  consistent (with_chain (with_coins s c) chain').
Proof.
  intros Hc Hf Hu Hg Hh. split; [exact (co_index s Hc) | exact (co_linked s Hc) | exact (co_candidates s Hc) | exact (co_forktip s Hc) | exact (co_child s Hc) | exact (co_genesis s Hc) | | exact (co_reserve s Hc)].
  exists t. exact (conj Hf (conj Hu (conj Hg Hh))).
Qed.

Lemma UpdateTip_spec s c p : consistent s -> usable s p -> good s p -> holds p c ->
  exists s', UpdateTip (with_coins s c) (Some p) = Ret s' /\ keeps s s' /\ is_tip s' p.
Proof.
  intros Hc Hu Hg Hh. pose proof (co_index s Hc) as Hok. destruct (tip_of s Hc) as (t & _ & Ht & _). destruct Hu as ([b Hb] & Hu). unfold UpdateTip. cbn [with_coins blocks chainActive].
  destruct (SetTip_spec _ Hok (chainActive s) p (nHeight b)) as (ch & -> & Hch); [by exists b | right; by exists t|]. cbn [obind].
  rewrite (chain_for_tip _ _ p Hok Hch). cbn [oaccess obind]. eexists. split; [reflexivity|].
  split; [|exact Hch]. split; [split; done|]. split; [done|]. apply (new_tip s c ch p Hc Hch); [split; [by exists b | done] | done | done].
Qed.

Lemma DisconnectTip_spec s t b q : consistent s -> is_tip s t -> blocks s !! t = Some b -> pprev b = Some q ->
  exists ok s', DisconnectTip s = Ret (ok, s') /\ (ok = true -> keeps s s' /\ is_tip s' q).
Proof.
  intros Hc Ht Hb Hq. pose proof (co_index s Hc) as Hok. destruct (tip_of s Hc) as (t' & Et & Ht' & Hu & Hg & Hh).
  assert (t' = t) as -> by (pose proof (chain_for_tip _ _ t Hok Ht); congruence). unfold DisconnectTip. rewrite Et. cbn [oaccess obind].
  destruct (disconnect_returns q t (pcoinsTip s)) as (r & -> & Hr); [by apply (co_child s Hc t b) | done|]. cbn [obind].
  destruct r as [|c|c]; [by exists false, s | by exists false, (with_coins s c)|]. unfold deref. cbn [oaccess obind]. rewrite Hb. cbn [oaccess obind]. rewrite Hq.
  assert (on_path (blocks s) t q) as Hp by (by apply (on_path_parent _ Hok t b)).
  destruct (UpdateTip_spec s c q Hc (usable_sub s t q Hc Hu Hp) (good_sub s t q Hok Hg Hp) Hr) as (s' & -> & H). by exists true, s'.
Qed.

Lemma mark_connected_spec s p b q : consistent s -> blocks s !! p = Some b -> pprev b = Some q ->
  exists s', mark_connected s p = Ret s' /\ searched s s' /\ keeps s s' /\ setBlockIndexCandidates s' = setBlockIndexCandidates s.
Proof.
  intros Hc Hb Hq. unfold mark_connected, deref. cbn [oaccess obind]. rewrite Hb. cbn [oaccess obind]. rewrite Hq.
  destruct (raise_status (with_status b (Z.lor (nStatus b) BLOCK_HAVE_UNDO)) BLOCK_VALID_SCRIPTS) as (b' & c & -> & Hl & Hf & Hr & _); [by unfold BLOCK_VALID_SCRIPTS|]. cbn [obind].
  rewrite undo_failed in Hf. eexists. split; [reflexivity|]. set (s' := with_blocks s (<[p := b']> (blocks s))).
  assert (forall x, unfailed s' x <-> unfailed s x) as Hcl.
  { intros x. unfold unfailed. cbn. destruct (decide (x = p)) as [->|Hne]; [|by rewrite lookup_insert_ne]. rewrite lookup_insert_eq, Hb. split; intros (d & Hd & Hfd); injection Hd as <-; eexists; (split; [reflexivity | congruence]). }
  assert (same_tree (blocks s) (blocks s')) as Ht by (by apply (same_tree_insert _ p b)).
  assert (marks s s') as Hm by (split; [done|]; split; [done|]; split; [done|]; intros x; by apply Hcl).
  assert (consistent s') as Hc'.
  { apply (marks_consistent s s' Hc Hm eq_refl eq_refl).
    - pose proof (co_forktip s Hc) as Hk. cbn. destruct (pindexBestForkTip s) as [y|]; [|done]. destruct Hk as [d Hk]. destruct (same_tree_lookup _ _ y d Ht Hk) as (d' & Hd' & _). by exists d'.
    - intros x d d' Hd Hd' Hrd. cbn in Hd'. destruct (decide (x = p)) as [->|Hne]; [|rewrite lookup_insert_ne in Hd' by done; congruence].
      rewrite lookup_insert_eq in Hd'. injection Hd' as <-. rewrite Hb in Hd. injection Hd as <-. apply Hr, mark_received; auto.
    - intros x Hx Hn. exfalso. by apply Hn, Hcl.
    - done.
    - done. }
  split; [split; [done|]; done|]. split; [|done]. split; [done|]. split; [intros x; by apply Hcl | done].
Qed.

Lemma keeps_good s s' p : keeps s s' -> good s p -> good s' p.
Proof. intros (Hm & _) Hg q Hq. apply Hg. by apply (marks_path s s' p q Hm). Qed.

Lemma ConnectTip_spec s t p b : consistent s -> is_tip s t -> blocks s !! p = Some b -> pprev b = Some t -> usable s p ->
  exists ok st s', ConnectTip nChainWork GetBlockProof IsInitialBlockDownload s p = Ret (ok, st, s') /\
    (ok = true -> keeps s s' /\ is_tip s' p) /\
    (ok = false -> IsInvalid st = true -> corruptionPossible st = false /\ searched s s' /\ ~ unfailed s' p).
Proof.
  intros Hc Ht Hb Hp Hu. pose proof (co_index s Hc) as Hok. destruct (tip_of s Hc) as (t' & Et & Ht' & Htu & Hg & Hh).
  assert (t' = t) as -> by (pose proof (chain_for_tip _ _ t Hok Ht); congruence). unfold ConnectTip, deref. cbn [oaccess obind]. rewrite Hb. cbn [oaccess obind].
  rewrite Hp, Et, bool_decide_eq_true_2 by done. cbn [oassert obind]. destruct (connect_returns t p (pcoinsTip s)) as (r & -> & Hr); [by apply (co_child s Hc p b) | done|]. cbn [obind].
  destruct r as [|st|c|c]; [by exists false, (Error CValidationState_new "Failed to read block"), s | | by exists false, (Error CValidationState_new "Failed to write"), (with_coins s c)|].
  - destruct (IsInvalid st) eqn:Ei; [|exists false, st, s; split; [done|]; split; [done | congruence]]. destruct (Hr eq_refl) as [Hcor Hv].
    destruct (InvalidBlockFound_spec s p b st Hc Hb Hcor Hv) as (s' & -> & Hs' & Hn). cbn [obind]. exists false, st, s'. split; [done|]. split; [done|]. done.
  - destruct Hr as [Hhp Hv]. destruct (mark_connected_spec s p b t Hc Hb Hp) as (s1 & -> & Hs1 & Hk1 & _). cbn [obind].
    assert (good s p) as Hgp by (intros q Hq; destruct (on_path_inv _ Hok p b q Hb Hq) as [->|(r & Er & Hrq)]; [done | rewrite Hp in Er; injection Er as <-; by apply Hg]).
    destruct (UpdateTip_spec s1 c p) as (s' & -> & Hk2 & Htip); [apply Hk1 | by apply (keeps_usable s) | by apply (keeps_good s) | done|]. cbn [obind].
    exists true, CValidationState_new, s'. split; [done|]. split; [|done]. intros _. split; [by eapply keeps_trans | done].
Qed.


(** ** The loops of [ActivateBestChainStep] *)

Lemma is_tip_unique s t t' : consistent s -> is_tip s t -> is_tip s t' -> t' = t.
Proof. intros Hc Ht Ht'. pose proof (chain_for_tip _ _ t (co_index s Hc) Ht). pose proof (chain_for_tip _ _ t' (co_index s Hc) Ht'). congruence. Qed.

Lemma tip_facts s t : consistent s -> is_tip s t -> chain_Tip (chainActive s) = Some t /\ usable s t /\ good s t.
Proof.
  intros Hc Ht. destruct (tip_of s Hc) as (t' & Et & Ht' & Hu & Hg & _). rewrite (is_tip_unique s t t' Hc Ht Ht') in *. done.
Qed.

Lemma disconnect_to_spec fuel : forall s t ht f hf, consistent s -> is_tip s t -> at_height (blocks s) t ht -> at_height (blocks s) f hf -> on_path (blocks s) t f -> ht - hf <= Z.of_nat fuel ->
  exists ok s', disconnect_to fuel (Some f) s = Ret (ok, s') /\ (ok = true -> keeps s s' /\ is_tip s' f).
Proof.
  induction fuel as [|fuel IH]; intros s t ht f hf Hc Ht Hht Hhf Hp Hfuel; pose proof (co_index s Hc) as Hok; destruct (tip_facts s t Hc Ht) as (Et & _);
    cbn [disconnect_to]; rewrite Et; (destruct (decide (t = f)) as [->|Hne];
      [rewrite (bool_decide_eq_true_2 (Some f = Some f)), orb_true_r by done; exists true, s; split; [done|]; intros _; split; [by apply keeps_refl | done]
      |rewrite (bool_decide_eq_false_2 (Some t = None)), (bool_decide_eq_false_2 (Some t = Some f)) by congruence; cbn [orb]]).
  all: pose proof (on_path_height _ Hok t ht f hf Hht Hhf Hp) as Ha; destruct (ancestor_at _ Hok t ht hf f Hht Ha) as [_ Hr].
  { exfalso. assert (ht = hf) as -> by lia. rewrite (ancestor_self _ Hok t hf Hht) in Ha. congruence. }
  destruct Hht as (b & Hb & Hhb). destruct (on_path_inv _ Hok t b f Hb Hp) as [->|(q & Eq & Hqf)]; [done|].
  destruct (DisconnectTip_spec s t b q Hc Ht Hb Eq) as (ok & s1 & -> & H1). cbn [obind]. destruct ok; [|by exists false, s1]. destruct (H1 eq_refl) as [Hk1 Htip1].
  pose proof Hk1 as (Hm1 & _ & Hc1). pose proof Hm1 as (Htree & _). destruct (Hok t b Hb) as [_ L2 _]. rewrite Eq in L2.
  destruct (IH s1 q (ht - 1) f hf Hc1 Htip1) as (ok & s' & -> & H2); [rewrite <- Hhb; by apply (at_height_same _ _ _ _ Htree) | by apply (at_height_same _ _ _ _ Htree) | by apply (marks_path _ _ _ _ Hm1) | lia|].
  exists ok, s'. split; [done|]. intros E. destruct (H2 E) as [Hk2 Htip2]. split; [by eapply keeps_trans | done].
Qed.

Lemma last_cons_default {A} (l : list A) : forall x d, List.last (x :: l) d = List.last l x.
Proof. induction l as [|y l IH]; intros x d; [done|]. change (List.last (x :: y :: l) d) with (List.last (y :: l) d). by rewrite !IH. Qed.

(** The blocks from above [t] on, each on top of the one before. *)
Fixpoint stacked (h : index_heap) (t : ptr) (l : list ptr) : Prop :=
  match l with [] => True | p :: l => (exists b, h !! p = Some b /\ pprev b = Some t) /\ stacked h p l end.

Lemma stacked_same h h' l : same_tree h h' -> forall t, stacked h t l -> stacked h' t l.
Proof.
  intros Hs. induction l as [|p l IH]; intros t; [done|]. intros [(b & Hb & Hp) Hl]. split; [|by apply IH]. destruct (same_tree_lookup h h' p b Hs Hb) as (b' & Hb' & E & _).
  exists b'. by rewrite E.
Qed.

Lemma blocks_to_connect_spec h m hm fuel : index_ok h -> at_height h m hm -> forall k j x above, 0 <= k <= j -> j <= hm -> ancestor h m j = Some x -> j - k <= Z.of_nat fuel ->
  stacked h x above -> Forall (on_path h m) above ->
  exists l t, blocks_to_connect fuel h (Some x) k above = Ret l /\ ancestor h m k = Some t /\ stacked h t l /\ Forall (on_path h m) l /\ List.last l t = List.last above x.
Proof.
  intros Hok Hm. induction fuel as [|fuel IH]; intros k j x above Hk Hj Hx Hf Hs Ha; destruct (ancestor_at h Hok m hm j x Hm Hx) as [(b & Hb & Hhb) _];
    cbn [blocks_to_connect]; unfold deref; cbn [oaccess obind]; rewrite Hb; cbn [oaccess obind]; rewrite Hhb.
  1: assert (k = j) as -> by lia.
  1: rewrite Z.eqb_refl; exists above, x; by split_and!.
  destruct (Z.eqb_spec j k) as [->|Hne]; [exists above, x; by split_and!|].
  destruct (prev_on_branch h Hok m hm x j b Hm ltac:(lia) Hx Hb) as [Ep _]. rewrite (proj2 (Z.eqb_neq j 0)) in Ep by lia.
  destruct (ancestor_spec h Hok m hm (j - 1) Hm ltac:(lia)) as (y & Ey & _). rewrite Ep, Ey.
  destruct (IH k (j - 1) y (x :: above)) as (l & t & E & Et & Hs' & Ha' & Hlast); [lia | lia | done | lia | split; [exists b; by rewrite Ep, Ey | done] | constructor; [by exists j | done] |].
  exists l, t. rewrite Hlast. split_and!; try done. apply last_cons_default.
Qed.

Definition better_than (old : option ptr) (t : ptr) : Prop := match old with Some o => nChainWork o < nChainWork t | None => True end.

(** How the connection of blocks of the branch of [m] ends. *)
Definition progressed (old : option ptr) (m : ptr) (s : Node) (r : progress) (s' : Node) (last : ptr) : Prop :=
  match r with
  | AllConnected => keeps s s' /\ is_tip s' last
  | BetterTip => keeps s s' /\ exists t, is_tip s' t /\ better_than old t
  | InvalidFound f => is_Some (blocks s !! f) /\ marks s s' /\ consistent s' /\ exists p, unfailed s p /\ ~ unfailed s' p
  | SystemError => True
  end.

Lemma connect_blocks_spec old m first l : forall t s, consistent s -> is_tip s t -> stacked (blocks s) t l -> Forall (on_path (blocks s) m) l -> usable s m -> is_Some (blocks s !! first) ->
  exists r s', connect_blocks nChainWork GetBlockProof IsInitialBlockDownload first l old s = Ret (r, s') /\ progressed old m s r s' (List.last l t).
Proof.
  induction l as [|p l IH]; intros t s Hc Ht Hs Ha Hu Hfirst.
  { exists AllConnected, s. split; [done|]. split; [by apply keeps_refl | done]. }
  destruct Hs as [(b & Hb & Hp) Hs]. apply Forall_cons in Ha as [Hmp Ha]. cbn [connect_blocks].
  destruct (ConnectTip_spec s t p b Hc Ht Hb Hp (usable_sub s m p Hc Hu Hmp)) as (ok & st & s1 & -> & Hyes & Hno). cbn [obind]. destruct ok.
  - destruct (Hyes eq_refl) as [Hk1 Htip1]. pose proof Hk1 as (Hm1 & _ & Hc1). destruct (prune_spec s1 p Hc1 Htip1) as (c & -> & Hc2). cbn [obind].
    assert (keeps s (with_candidates s1 c)) as Hk2 by (destruct Hk1 as (A & B & _); split; [exact A|]; split; [exact B | exact Hc2]).
    destruct (tip_facts s1 p Hc1 Htip1) as (Etip & _). cbn [with_candidates chainActive]. rewrite Etip. cbn [oaccess obind].
    destruct (match old with None => true | Some o => _ end) eqn:Ebetter.
    + exists BetterTip, (with_candidates s1 c). split; [done|]. split; [done|]. exists p. split; [exact Htip1|]. unfold better_than. destruct old as [o|]; [|done].
      destruct (Z.gtb_spec (nChainWork p) (nChainWork o)); [done | done].
    + destruct (IH p (with_candidates s1 c)) as (r & s' & E & Hr); [done | exact Htip1 | | | by apply (keeps_usable s) | |].
      * exact (stacked_same _ _ l ltac:(apply Hm1) p Hs).
      * eapply Forall_impl; [exact Ha|]. intros x Hx. by apply (marks_path s s1 m x Hm1).
      * destruct Hfirst as [bf Hbf]. destruct Hm1 as (Htree & _). destruct (same_tree_lookup _ _ first bf Htree Hbf) as (bf' & Hbf' & _). by exists bf'.
      * exists r, s'. split; [exact E|]. rewrite last_cons_default.
        destruct Hk2 as (A & B & _). destruct r; cbn [progressed] in *.
        -- destruct Hr as ((C & D & F) & G). split; [|done]. split; [by eapply marks_trans|]. split; [auto | done].
        -- destruct Hr as ((C & D & F) & G). split; [|done]. split; [by eapply marks_trans|]. split; [auto | done].
        -- destruct Hr as ([bf Hbf] & C & D & x & Hx & Hnx). split.
           { destruct A as (Htree & _). destruct (same_tree_lookup _ _ first0 bf ltac:(by symmetry) Hbf) as (bf' & Hbf' & _). by exists bf'. }
           split; [by eapply marks_trans|]. split; [done|]. exists x. split; [|done]. destruct A as (_ & _ & _ & Hcl). by apply Hcl.
        -- done.
  - destruct (IsInvalid st) eqn:Ei; [|by exists SystemError, s1]. destruct (Hno eq_refl eq_refl) as (-> & Hs1 & Hn). 
    destruct (InvalidChainFound_spec s1 first) as (s2 & -> & Hs2); [apply Hs1|]. cbn [obind]. exists (InvalidFound first), s2. split; [done|]. split; [done|].
    split; [eapply marks_trans; [apply Hs1 | apply Hs2]|]. split; [apply Hs2|]. exists p. split; [apply Hu, Hmp|]. intros Hcl. apply Hn. destruct Hs2 as ((_ & _ & _ & Hcl2) & _). by apply Hcl2.
Qed.


Lemma progressed_after old m s s1 r s' last : keeps s s1 -> progressed old m s1 r s' last -> progressed old m s r s' last.
Proof.
  intros (A & B & _) Hr. destruct r as [| |f|]; cbn [progressed] in *; [| | |done].
  - destruct Hr as ((C & D & F) & G). split; [|done]. split; [by eapply marks_trans|]. split; [auto | done].
  - destruct Hr as ((C & D & F) & G). split; [|done]. split; [by eapply marks_trans|]. split; [auto | done].
  - destruct Hr as ([bf Hbf] & C & D & x & Hx & Hnx). split.
    { destruct A as (Htree & _). destruct (same_tree_lookup _ _ f bf ltac:(by symmetry) Hbf) as (bf' & Hbf' & _). by exists bf'. }
    split; [by eapply marks_trans|]. split; [done|]. exists x. split; [|done]. destruct A as (_ & _ & _ & Hcl). by apply Hcl.
Qed.

Lemma connect_towards_spec old m hm fuel : forall k t s, consistent s -> is_tip s t -> at_height (blocks s) m hm -> usable s m -> 0 <= k <= hm ->
  ancestor (blocks s) m k = Some t -> hm - k <= Z.of_nat fuel ->
  exists r s', connect_towards nChainWork GetBlockProof IsInitialBlockDownload fuel m k old s = Ret (r, s') /\ progressed old m s r s' m.
Proof.
  induction fuel as [|fuel IH]; intros k t s Hc Ht Hm Hu Hk Ha Hf; pose proof (co_index s Hc) as Hok; pose proof Hm as (b & Hb & Hhb);
    cbn [connect_towards]; unfold deref; cbn [oaccess obind]; rewrite Hb; cbn [oaccess obind]; rewrite Hhb.
  all: destruct (Z.eqb_spec k hm) as [->|Hne];
    [rewrite (ancestor_self _ Hok m hm Hm) in Ha; injection Ha as <-; exists AllConnected, s; split; [done|]; split; [by apply keeps_refl | done]|].
  { lia. }
  set (target := Z.min (k + 32) hm). rewrite (GetAncestor_spec _ Hok m hm target Hm). cbn [obind].
  destruct (ancestor_spec _ Hok m hm target Hm ltac:(unfold target; lia)) as (x & Ex & (bx & Hbx & Hhx) & _). rewrite Ex.
  destruct (blocks_to_connect_spec (blocks s) m hm (walk_length (blocks s) (Some x)) Hok Hm k target x []) as (l & t' & -> & Et' & Hs & Hpath & Hlast); [unfold target; lia | unfold target; lia | done | | done | done |].
  { unfold walk_length. cbn [mbind option_bind]. rewrite Hbx. cbv iota beta. lia. }
  rewrite Ha in Et'. injection Et' as <-. cbn [obind].
  destruct (connect_blocks_spec old m (default m (head l)) l t s Hc Ht Hs Hpath Hu) as (r & s1 & -> & Hr).
  { destruct l as [|y l]; [by exists b|]. cbn [head default]. apply Forall_cons in Hpath as [Hy _]. exact (on_path_known _ Hok m y Hy). }
  cbn [obind]. rewrite Hlast in Hr. cbn [List.last] in Hr. destruct r as [| |f|]; [|by exists BetterTip, s1 | by exists (InvalidFound f), s1 | by exists SystemError, s1].
  destruct Hr as [Hk1 Htip1]. pose proof Hk1 as ((Htree & _) & _ & Hc1).
  destruct (IH target x s1 Hc1 Htip1) as (r & s' & -> & Hr); [by apply (at_height_same _ _ _ _ Htree) | by apply (keeps_usable s) | unfold target; lia | by rewrite (ancestor_same _ _ _ _ Htree) | unfold target; lia|].
  exists r, s'. split; [done|]. by apply (progressed_after old m s s1).
Qed.

(** One step reaches the candidate, or a better tip than before, or finds a block
    to fail. *)
Lemma ActivateBestChainStep_spec s t m : consistent s -> is_tip s t -> usable s m ->
  exists ok s', ActivateBestChainStep nChainWork GetBlockProof IsInitialBlockDownload s m = Ret (ok, s') /\
    (ok = true -> marks s s' /\ consistent s' /\ exists t', is_tip s' t' /\ (t' = m \/ nChainWork t < nChainWork t' \/ exists p, unfailed s p /\ ~ unfailed s' p)).
Proof.
  intros Hc Ht Hu. pose proof (co_index s Hc) as Hok. destruct (tip_facts s t Hc Ht) as (Et & Htu & _). pose proof Hu as ([b Hb] & _). pose proof Ht as (ht & Hht & Hlen & _).
  assert (at_height (blocks s) m (nHeight b)) as Hm by (by exists b). unfold ActivateBestChainStep.
  destruct (FindFork_spec _ Hok _ t m (nHeight b) Ht Hm) as (f & -> & Hfork). cbn [obind].
  assert (exists k f', f = Some f' /\ ancestor (blocks s) m k = Some f' /\ ancestor (blocks s) t k = Some f') as (k & f' & -> & Hfm & Hft).
  { destruct f as [f|]; [destruct Hfork as (k & H1 & H2 & _); by exists k, f|]. exfalso.
    pose proof (at_height_nonneg _ Hok m _ Hm). pose proof (at_height_nonneg _ Hok t _ Hht). destruct (co_genesis s Hc) as (g & Hg).
    destruct (ancestor_spec _ Hok m (nHeight b) 0 Hm ltac:(lia)) as (x & Ex & Hx & _). destruct (ancestor_spec _ Hok t ht 0 Hht ltac:(lia)) as (y & Ey & Hy & _).
    apply (Hfork 0 x Ex). by rewrite Ey, (Hg x Hx), (Hg y Hy). }
  destruct (ancestor_at _ Hok m (nHeight b) k f' Hm Hfm) as [Hfh Hkr].
  destruct (disconnect_to_spec (length (chainActive s)) s t ht f' k Hc Ht Hht Hfh ltac:(by exists k)) as (ok & s1 & -> & H1).
  { unfold zlen in Hlen. pose proof (at_height_nonneg _ Hok f' _ Hfh). lia. }
  cbn [obind]. destruct ok; [|by exists false, s1]. cbn [negb]. destruct (H1 eq_refl) as [Hk1 Htip1]. pose proof Hk1 as ((Htree & _) & _ & Hc1).
  pose proof (at_height_same _ _ _ _ Htree Hfh) as (bf & Hbf & Hhf). unfold deref at 1. cbn [oaccess obind]. rewrite Hbf. cbn [oaccess obind]. rewrite Hhf.
  pose proof (at_height_same _ _ _ _ Htree Hm) as Hm1.
  rewrite Et. destruct (connect_towards_spec (Some t) m (nHeight b) (walk_length (blocks s1) (Some m)) k f' s1 Hc1 Htip1 Hm1) as (r & s2 & -> & Hr);
    [by apply (keeps_usable s) | lia | by rewrite (ancestor_same _ _ _ _ Htree) | |].
  { destruct Hm1 as (bm & Hbm & Hhm). unfold walk_length. cbn [mbind option_bind]. rewrite Hbm, Hhm. cbv iota beta. lia. }
  cbn [obind]. apply (progressed_after _ _ s s1) in Hr; [|done].
  assert (forall s2 t2, marks s s2 -> consistent s2 -> is_tip s2 t2 -> (t2 = m \/ nChainWork t < nChainWork t2 \/ exists p, unfailed s p /\ ~ unfailed s2 p) ->
    exists ok s', (let* s3 := CheckForkWarningConditions nChainWork GetBlockProof IsInitialBlockDownload s2 in Ret (true, s3)) = Ret (ok, s') /\
      (ok = true -> marks s s' /\ consistent s' /\ exists t', is_tip s' t' /\ (t' = m \/ nChainWork t < nChainWork t' \/ exists p, unfailed s p /\ ~ unfailed s' p))) as Hend.
  { intros s3 t2 Hm3 Hc3 Ht3 Hgoal. destruct (CheckForkWarningConditions_spec s3 Hc3) as (s4 & -> & Hs4). cbn [obind]. exists true, s4. split; [done|]. intros _.
    destruct Hs4 as (Hm4 & Ech & _ & _ & Hc4). split; [by eapply marks_trans|]. split; [done|]. exists t2. split.
    - unfold is_tip. rewrite Ech. apply (chain_for_same (blocks s3)); [apply Hm4 | done].
    - destruct Hgoal as [->|[Hw|(p & Hp & Hnp)]]; [by left | by right; left|]. right; right. exists p. split; [done|]. intros Hcl. apply Hnp. destruct Hm4 as (_ & _ & _ & Hcl4). by apply Hcl4. }
  destruct r as [| |f|]; cbn [progressed] in Hr.
  - destruct Hr as ((A & _ & C) & D). apply (Hend s2 m); [done | done | done | by left].
  - destruct Hr as ((A & _ & C) & t2 & D & E). apply (Hend s2 t2); [done | done | done | right; by left].
  - destruct Hr as ([bfi Hbfi] & A & C & p & Hp & Hnp). pose proof A as (Htree2 & _). destruct (same_tree_lookup _ _ f bfi Htree2 Hbfi) as (bfi' & Hbfi' & _).
    destruct (OnNewFork_spec s2 f bfi' C Hbfi') as (s3 & -> & Hs3). cbn [obind]. exists true, s3. split; [done|]. intros _. destruct Hs3 as (Hm3 & _ & _ & _ & Hc3).
    split; [by eapply marks_trans|]. split; [done|]. destruct (tip_of s3 Hc3) as (t3 & _ & Ht3 & _). exists t3. split; [exact Ht3|]. right; right. exists p. split; [done|].
    intros Hcl. apply Hnp. destruct Hm3 as (_ & _ & _ & Hcl3). by apply Hcl3.
  - by exists false, s2.
Qed.


(** ** Termination *)

Definition clean_set (s : Node) : gset ptr := dom (filter (fun e => failed (snd e) = false) (blocks s)).
Definition all_blocks (s : Node) : gset ptr := dom (blocks s).
Definition above_tip (s : Node) (t : ptr) : gset ptr := filter (fun p => nChainWork t < nChainWork p) (all_blocks s).

(** Every step fails a block or raises the work of the tip. *)
Definition measure (s : Node) (t : ptr) : nat := size (clean_set s) * S (size (all_blocks s)) + size (above_tip s t).

Lemma elem_of_clean_set s p : p ∈ clean_set s <-> unfailed s p.
Proof.
  unfold clean_set, unfailed. rewrite elem_of_dom. split.
  - intros [b Hb]. apply map_lookup_filter_Some in Hb as [Hb Hf]. by exists b.
  - intros (b & Hb & Hf). exists b. by apply map_lookup_filter_Some.
Qed.

Lemma marks_all s s' : marks s s' -> all_blocks s' = all_blocks s.
Proof.
  intros (Ht & _). unfold all_blocks. apply leibniz_equiv. intros p. rewrite !elem_of_dom. split; intros [b Hb].
  - destruct (same_tree_lookup _ _ p b (symmetry Ht) Hb) as (b' & Hb' & _). by exists b'.
  - destruct (same_tree_lookup _ _ p b Ht Hb) as (b' & Hb' & _). by exists b'.
Qed.

Lemma marks_clean_set s s' : marks s s' -> clean_set s' ⊆ clean_set s.
Proof. intros (_ & _ & _ & Hcl) p. rewrite !elem_of_clean_set. apply Hcl. Qed.

Lemma above_bound s t : (size (above_tip s t) <= size (all_blocks s))%nat.
Proof. apply subseteq_size. intros p Hp. by apply elem_of_filter in Hp as [_ Hp]. Qed.

Lemma measure_less s s' t t' : marks s s' -> is_Some (blocks s !! t') ->
  nChainWork t < nChainWork t' \/ (exists p, unfailed s p /\ ~ unfailed s' p) -> (measure s' t' < measure s t)%nat.
Proof.
  intros Hm Hk Hor. pose proof (marks_clean_set s s' Hm) as Hsub. pose proof (marks_all s s' Hm) as Hall. unfold measure. rewrite Hall.
  assert (above_tip s' t' = above_tip s t') as -> by (unfold above_tip; by rewrite Hall).
  destruct (decide (clean_set s = clean_set s')) as [E|E].
  - destruct Hor as [Hw|(p & Hp & Hn)]; [|exfalso; apply Hn, elem_of_clean_set; rewrite <- E; by apply elem_of_clean_set]. rewrite E.
    assert (size (above_tip s t') < size (above_tip s t))%nat; [|lia]. apply subset_size. split.
    + intros p Hp. apply elem_of_filter in Hp as [Hp1 Hp2]. apply elem_of_filter. split; [lia | done].
    + intros Hsub2. assert (t' ∈ above_tip s t) as Hin by (apply elem_of_filter; split; [done | by apply elem_of_dom]). apply Hsub2, elem_of_filter in Hin as [Hin _]. lia.
  - assert (size (clean_set s') < size (clean_set s))%nat as Hlt.
    { apply subset_size. split; [done|]. intros Hsub2. apply E, leibniz_equiv. by apply (anti_symm (⊆)). }
    pose proof (above_bound s t'). nia.
Qed.

Lemma measure_marks s s' t : marks s s' -> (measure s' t <= measure s t)%nat.
Proof.
  intros Hm. unfold measure, above_tip. rewrite (marks_all s s' Hm). pose proof (subseteq_size _ _ (marks_clean_set s s' Hm)). nia.
Qed.

Lemma ActivateBestChain_spec fuel : forall s t, consistent s -> is_tip s t -> (measure s t < fuel)%nat ->
  exists ok s', ActivateBestChain nChainWork GetBlockProof IsInitialBlockDownload fuel s = Ret (ok, s') /\
    (ok = true -> marks s s' /\ consistent s' /\ exists t', is_tip s' t' /\ most_work s' t').
Proof.
  induction fuel as [|fuel IH]; intros s t Hc Ht Hf; [lia|]. cbn [ActivateBestChain].
  destruct (find_most_work_spec (size (setBlockIndexCandidates s)) s Hc (le_n _)) as (m & s1 & E1 & Hs1 & Hu & _ & Hbest). unfold FindMostWorkChain. rewrite E1. cbn [obind].
  pose proof Hs1 as (Hm1 & Ech & _ & _ & Hc1). assert (is_tip s1 t) as Ht1 by (unfold is_tip; rewrite Ech; apply (chain_for_same (blocks s)); [apply Hm1 | done]).
  destruct (tip_facts s1 t Hc1 Ht1) as (-> & _). case_bool_decide as Etm.
  { injection Etm as <-. exists true, s1. split; [done|]. intros _. split; [done|]. split; [done|]. by exists t. }
  destruct (ActivateBestChainStep_spec s1 t m Hc1 Ht1 Hu) as (ok & s2 & -> & H2). cbn [obind]. destruct ok; [|by exists false, s2]. cbn [negb].
  destruct (H2 eq_refl) as (Hm2 & Hc2 & t2 & Ht2 & Hprog). destruct (tip_facts s2 t2 Hc2 Ht2) as (-> & ([b2 Hb2] & _) & _). case_bool_decide as Etm2.
  { injection Etm2 as ->. exists true, s2. split; [done|]. intros _. split; [by eapply marks_trans|]. split; [done|]. exists m. split; [done|]. by apply (marks_best s1). }
  destruct Hprog as [->|Hprog]; [done|].
  destruct (IH s2 t2 Hc2 Ht2) as (ok & s3 & -> & H3).
  - pose proof (measure_marks s s1 t Hm1). assert (measure s2 t2 < measure s1 t)%nat; [|lia]. apply measure_less; [done | | done].
    destruct (same_tree_lookup _ _ t2 b2 (symmetry (proj1 Hm2)) Hb2) as (b1 & Hb1 & _). by exists b1.
  - exists ok, s3. split; [done|]. intros E. destruct (H3 E) as (Hm3 & Hc3 & H). split; [eapply marks_trans; [exact Hm1|]; by eapply marks_trans|]. done.
Qed.

Definition activation_rounds (s : Node) : nat := S (S (size (blocks s)) * S (size (blocks s))).

Lemma measure_bound s t : (measure s t < activation_rounds s)%nat.
Proof.
  unfold measure, activation_rounds. pose proof (above_bound s t). assert (size (all_blocks s) = size (blocks s)) as E by apply size_dom.
  assert (size (clean_set s) <= size (blocks s))%nat; [|nia]. rewrite <- E. apply subseteq_size. intros p Hp. apply elem_of_clean_set in Hp as (b & Hb & _). apply elem_of_dom. by exists b.
Qed.


(** ** [InvalidateBlock] *)

(** The invariant without what it says of failures. *)
Record framed (s : Node) : Prop := mkFramed {
  fr_index : index_ok (blocks s);
  fr_linked : forall p b, blocks s !! p = Some b -> chain_tx s p <> 0 -> received b /\ match pprev b with Some q => chain_tx s q <> 0 | None => True end;
  fr_candidates : forall p, p ∈ setBlockIndexCandidates s -> is_Some (blocks s !! p) /\ chain_tx s p <> 0;
  fr_forktip : known_or_null (blocks s) (pindexBestForkTip s);
  fr_child : forall p b q, blocks s !! p = Some b -> pprev b = Some q -> child q p;
  fr_genesis : exists g, forall p, at_height (blocks s) p 0 -> p = g
}.

Lemma consistent_framed s : consistent s -> framed s.
Proof. intros Hc. split; apply Hc. Qed.

Lemma framed_consistent s t : framed s -> is_tip s t -> usable s t -> good s t -> holds t (pcoinsTip s) -> (exists r, reserve s r) -> consistent s.
Proof. intros [H1 H2 H3 H4 H5 H6] Ht Hu Hg Hh Hr. split; try assumption. by exists t. Qed.

(** Statuses change but keep what was received. *)
Lemma framed_status s s' : framed s -> same_tree (blocks s) (blocks s') -> nChainTx s' = nChainTx s ->
  (forall p b b', blocks s !! p = Some b -> blocks s' !! p = Some b' -> received b -> received b') ->
  (forall p, p ∈ setBlockIndexCandidates s' -> is_Some (blocks s' !! p) /\ chain_tx s' p <> 0) -> pindexBestForkTip s' = pindexBestForkTip s -> framed s'.
Proof.
  intros Hf Ht Hn Hrec Hcand Efk. assert (forall p, chain_tx s' p = chain_tx s p) as Htx by (intros p; unfold chain_tx; by rewrite Hn). split.
  - exact (index_ok_same _ _ Ht (fr_index s Hf)).
  - intros p b' Hb' Hp. rewrite Htx in Hp. destruct (same_tree_lookup _ _ p b' (symmetry Ht) Hb') as (b & Hb & E & _). destruct (fr_linked s Hf p b Hb Hp) as [H1 H2].
    split; [exact (Hrec p b b' Hb Hb' H1)|]. rewrite <- E. destruct (pprev b) as [q|]; [by rewrite Htx | done].
  - done.
  - rewrite Efk. pose proof (fr_forktip s Hf) as Hk. destruct (pindexBestForkTip s) as [y|]; [|done]. destruct Hk as [d Hk]. destruct (same_tree_lookup _ _ y d Ht Hk) as (d' & Hd' & _). by exists d'.
  - intros p b' q Hb' Hq. destruct (same_tree_lookup _ _ p b' (symmetry Ht) Hb') as (b & Hb & E & _). rewrite <- E in Hq. exact (fr_child s Hf p b q Hb Hq).
  - destruct (fr_genesis s Hf) as (g & Hg). exists g. intros p Hp. apply Hg. exact (at_height_same _ _ _ _ (symmetry Ht) Hp).
Qed.

(** One status changes. *)
Lemma set_status_spec s x b f : framed s -> blocks s !! x = Some b -> (received b -> received (with_status b (f (nStatus b)))) ->
  exists s', set_status s x f = Ret s' /\ s' = with_blocks s (<[x := with_status b (f (nStatus b))]> (blocks s)) /\ framed s' /\ same_tree (blocks s) (blocks s') /\
    (forall p, p <> x -> unfailed s' p <-> unfailed s p).
Proof.
  intros Hf Hb Hr. unfold set_status, deref. cbn [oaccess obind]. rewrite Hb. cbn [oaccess obind]. eexists. split; [reflexivity|]. split; [reflexivity|].
  assert (same_tree (blocks s) (<[x := with_status b (f (nStatus b))]> (blocks s))) as Ht by (by apply (same_tree_insert _ x b)). split; [|split; [done|]].
  - apply (framed_status s); [done | done | done | | | done].
    + intros p c c' Hcp Hcp' Hrc. cbn in Hcp'. destruct (decide (p = x)) as [->|Hne]; [|rewrite lookup_insert_ne in Hcp' by done; congruence].
      rewrite lookup_insert_eq in Hcp'. injection Hcp' as <-. rewrite Hb in Hcp. injection Hcp as <-. by apply Hr.
    + intros p Hp. destruct (fr_candidates s Hf p Hp) as [[c Hc] Htx]. split; [|done]. destruct (same_tree_lookup _ _ p c Ht Hc) as (c' & Hc' & _). by exists c'.
  - intros p Hne. unfold unfailed. cbn. by rewrite lookup_insert_ne.
Qed.

Lemma framed_erase s x : framed s -> framed (erase_candidate s x).
Proof. intros [H1 H2 H3 H4 H5 H6]. split; try assumption. intros p Hp. apply H3. exact (minus_sub _ _ _ Hp). Qed.

(** Only blocks of which [x] is an ancestor are marked. *)
Definition marks_above (x : ptr) (s s' : Node) : Prop :=
  same_tree (blocks s) (blocks s') /\ nChainTx s' = nChainTx s /\ nSequenceId s' = nSequenceId s /\ (forall p, unfailed s' p -> unfailed s p) /\
  (forall p, unfailed s p -> ~ on_path (blocks s) p x -> unfailed s' p).

Lemma marks_above_trans x s1 s2 s3 : marks_above x s1 s2 -> marks_above x s2 s3 -> marks_above x s1 s3.
Proof.
  intros (A1 & A2 & A3 & A4 & A5) (B1 & B2 & B3 & B4 & B5). split; [by etransitivity|]. split; [congruence|]. split; [congruence|]. split; [auto|].
  intros p Hp Hn. apply B5; [by apply A5|]. by rewrite (same_tree_path _ _ _ _ A1).
Qed.

Lemma mark_above s x y b flag : framed s -> blocks s !! y = Some b -> on_path (blocks s) y x -> flag = BLOCK_FAILED_VALID \/ flag = BLOCK_FAILED_CHILD ->
  exists s', mark s y flag = Ret s' /\ framed (erase_candidate s' y) /\ marks_above x s (erase_candidate s' y) /\ chainActive (erase_candidate s' y) = chainActive s /\ pcoinsTip (erase_candidate s' y) = pcoinsTip s /\ ~ unfailed (erase_candidate s' y) y.
Proof.
  intros Hf Hb Hx Hfl. destruct (set_status_spec s y b (fun z => Z.lor z flag) Hf Hb) as (s' & E & Es & Hf' & Ht & Hcl); [apply mark_received; tauto|].
  exists s'. split; [exact E|]. split; [by apply framed_erase|]. assert (~ unfailed (erase_candidate s' y) y) as Hny.
  { intros (c & Hc & Hfc). rewrite Es in Hc. cbn in Hc. rewrite lookup_insert_eq in Hc. injection Hc as <-. pose proof (mark_failed b flag Hfl). congruence. }
  split; [|split; [by rewrite Es|]; split; [by rewrite Es | done]]. split; [done|]. split; [by rewrite Es|]. split; [by rewrite Es|]. split.
  - intros p Hp. destruct (decide (p = y)) as [->|Hne]; [done|]. by apply Hcl.
  - intros p Hp Hn. apply Hcl; [|done]. by intros ->.
Qed.

Lemma DisconnectTip_framed s t b q : framed s -> is_tip s t -> holds t (pcoinsTip s) -> blocks s !! t = Some b -> pprev b = Some q ->
  exists ok s', DisconnectTip s = Ret (ok, s') /\ (ok = true -> exists c chain', s' = with_chain (with_coins s c) chain' /\ is_tip s' q /\ holds q c).
Proof.
  intros Hf Ht Hh Hb Hq. pose proof (fr_index s Hf) as Hok. unfold DisconnectTip. rewrite (chain_for_tip _ _ t Hok Ht). cbn [oaccess obind].
  destruct (disconnect_returns q t (pcoinsTip s)) as (r & -> & Hr); [by apply (fr_child s Hf t b) | done|]. cbn [obind].
  destruct r as [|c|c]; [by exists false, s | by exists false, (with_coins s c)|]. unfold deref. cbn [oaccess obind]. rewrite Hb. cbn [oaccess obind]. rewrite Hq.
  destruct (Hok t b Hb) as [_ L2 _]. rewrite Hq in L2. unfold UpdateTip. cbn [with_coins blocks chainActive].
  destruct (SetTip_spec _ Hok (chainActive s) q (nHeight b - 1) L2) as (ch & -> & Hch); [right; by exists t|]. cbn [obind].
  rewrite (chain_for_tip _ _ q Hok Hch). cbn [oaccess obind]. eexists true, _. split; [reflexivity|]. intros _. by exists c, ch.
Qed.

Lemma framed_tip s c ch : framed s -> framed (with_chain (with_coins s c) ch).
Proof. intros [H1 H2 H3 H4 H5 H6]. by split. Qed.

Lemma disconnect_until_spec fuel : forall s t ht x hx bx q, framed s -> is_tip s t -> holds t (pcoinsTip s) -> at_height (blocks s) t ht -> blocks s !! x = Some bx -> nHeight bx = hx -> pprev bx = Some q ->
  ht - hx < Z.of_nat fuel ->
  exists ok s', disconnect_until fuel x s = Ret (ok, s') /\
    (ok = true -> framed s' /\ marks_above x s s' /\ exists t', is_tip s' t' /\ holds t' (pcoinsTip s') /\ on_path (blocks s) t t' /\ ~ on_path (blocks s) t' x).
Proof.
  induction fuel as [|fuel IH]; intros s t ht x hx bx q Hf Ht Hh Hht Hx Hhx Hq Hfuel; pose proof (fr_index s Hf) as Hok; assert (at_height (blocks s) x hx) as Hxh by (by exists bx).
  all: cbn [disconnect_until]; rewrite (Contains_spec _ _ t x hx Ht Hxh); cbn [obind]; case_bool_decide as Hin; cbn [negb].
  1: exfalso; destruct (ancestor_at _ Hok t ht hx x Hht Hin); lia.
  3: pose proof Ht as Ht0.
  1, 3: exists true, s; split; [done|]; intros _; split; [done|]; split; [split; done|]; exists t; split; [done|]; split; [done|]; pose proof Hht as (bt & Hbt & _);
    (split; [by apply (on_path_self _ Hok t bt)|]); intros Hp; apply Hin; by apply (on_path_height _ Hok t ht x hx).
  rewrite (chain_for_tip _ _ t Hok Ht). cbn [oaccess obind]. destruct Hht as (bt & Hbt & Hhbt).
  assert (on_path (blocks s) t x) as Htx by (by exists hx).
  destruct (mark_above s x t bt BLOCK_FAILED_CHILD Hf Hbt Htx) as (s1 & -> & Hf1 & Hm1 & Ech & Eco & _); [by right|]. cbn [obind]. pose proof Hm1 as (Htree & _).
  destruct (same_tree_lookup _ _ t bt Htree Hbt) as (bt1 & Hbt1 & Ep1 & _ & Eh1).
  assert (exists y, pprev bt = Some y) as (y & Ey).
  { destruct (on_path_inv _ Hok t bt x Hbt Htx) as [->|(y & Ey & _)]; [rewrite Hx in Hbt; injection Hbt as <-; by exists q | by exists y]. }
  destruct (DisconnectTip_framed (erase_candidate s1 t) t bt1 y Hf1) as (ok & s2 & -> & H2); [unfold is_tip; rewrite Ech; by apply (chain_for_same (blocks s)) | by rewrite Eco | done | by rewrite Ep1|].
  cbn [obind]. destruct ok; [|by exists false, s2]. destruct (H2 eq_refl) as (c & ch & -> & Ht2 & Hh2). set (s2 := with_chain (with_coins (erase_candidate s1 t) c) ch) in *.
  destruct (Hok t bt Hbt) as [_ L2 _]. rewrite Ey in L2. destruct (same_tree_lookup _ _ x bx Htree Hx) as (bx2 & Hbx2 & Epx & _ & Ehx).
  destruct (IH s2 y (nHeight bt - 1) x hx bx2 q) as (ok & s3 & -> & H3); [by apply framed_tip | done | done | exact (at_height_same _ _ _ _ Htree L2) | done | lia | by rewrite Epx | lia|].
  exists ok, s3. split; [done|]. intros E. destruct (H3 E) as (Hf3 & Hm3 & t' & Ht' & Hh' & Hp' & Hn'). split; [done|].
  assert (forall p r, on_path (blocks s2) p r <-> on_path (blocks s) p r) as Hpath by (intros p r; exact (same_tree_path _ _ p r Htree)).
  split; [by apply (marks_above_trans x s s2)|]. exists t'. split; [done|]. split; [done|]. split.
  - apply Hpath in Hp'. apply (on_path_trans _ Hok t y t'); [by apply (on_path_parent _ Hok t bt) | done].
  - by intros Hp; apply Hn', Hpath.
Qed.


Definition transactions_valid (b : CBlockIndex) : bool := negb (failed b) && (BLOCK_VALID_TRANSACTIONS <=? Z.land (nStatus b) BLOCK_VALID_MASK).

Lemma IsValid_transactions b : index_IsValid b BLOCK_VALID_TRANSACTIONS = Ret (transactions_valid b).
Proof. unfold index_IsValid, transactions_valid, failed. change (valid_level BLOCK_VALID_TRANSACTIONS) with true. cbn [oassert obind]. by destruct (Z.land (nStatus b) BLOCK_FAILED_MASK =? 0). Qed.

Lemma received_valid b : received b -> transactions_valid b = negb (failed b).
Proof. intros [_ Hl]. unfold transactions_valid. rewrite (proj2 (Z.leb_le _ _) Hl). apply andb_true_r. Qed.

Lemma readd_candidates_spec l : forall (s : Node) t, chain_Tip (chainActive s) = Some t ->
  exists c, readd_candidates nChainWork l s = Ret (with_candidates s c) /\
    forall p, p ∈ c <-> p ∈ setBlockIndexCandidates s \/ exists b, (p, b) ∈ l /\ transactions_valid b = true /\ chain_tx s p <> 0 /\ less s p t = false.
Proof.
  induction l as [|[x b] l IH]; intros s t Ht.
  { exists (setBlockIndexCandidates s). split; [by destruct s|]. intros p. split; [by left|]. intros [|(b & Hb & _)]; [done | by apply elem_of_nil in Hb]. }
  cbn [readd_candidates]. rewrite IsValid_transactions. cbn [obind].
  assert (forall c, (forall p, p ∈ c <-> p ∈ setBlockIndexCandidates s \/ p = x /\ transactions_valid b = true /\ chain_tx s x <> 0 /\ less s x t = false) ->
    exists c', readd_candidates nChainWork l (with_candidates s c) = Ret (with_candidates s c') /\
      forall p, p ∈ c' <-> p ∈ setBlockIndexCandidates s \/ exists b0, (p, b0) ∈ (x, b) :: l /\ transactions_valid b0 = true /\ chain_tx s p <> 0 /\ less s p t = false) as Hstep.
  { intros c Hc. destruct (IH (with_candidates s c) t Ht) as (c' & -> & Hc'). exists c'. split; [done|]. intros p. rewrite Hc'. cbn [with_candidates setBlockIndexCandidates]. rewrite Hc.
    change (chain_tx (with_candidates s c) p) with (chain_tx s p). change (less (with_candidates s c) p t) with (less s p t). split.
    - intros [[H0|(-> & H)]|(b0 & Hb0 & H)]; [by left | right; exists b; split; [by left | done] | right; exists b0; split; [by right | done]].
    - intros [H0|(b0 & Hb0 & H)]; [by left; left|]. apply elem_of_cons in Hb0 as [E|Hb0]; [|right; by exists b0]. injection E as -> ->. left; right. done. }
  destruct (transactions_valid b) eqn:Ev; cbn [andb].
  2:{ cbn [obind]. destruct (Hstep (setBlockIndexCandidates s)) as (c' & E & Hc'); [intros p; split; [by left|]; intros [H|H]; [done | by destruct H as (_ & H & _)]|]. exists c'. split; [|done]. rewrite <- E. by destruct s. }
  destruct (Z.eqb_spec (chain_tx s x) 0) as [E0|E0]; cbn [negb].
  { cbn [obind]. destruct (Hstep (setBlockIndexCandidates s)) as (c' & E & Hc'); [intros p; split; [by left|]; intros [H|H]; [done | by destruct H as (_ & _ & H & _)]|]. exists c'. split; [|done]. rewrite <- E. by destruct s. }
  rewrite Ht. cbn [oaccess obind]. destruct (less s x t) eqn:El; cbn [negb].
  - destruct (Hstep (setBlockIndexCandidates s)) as (c' & E & Hc'); [intros p; split; [by left|]; intros [H|H]; [done | by destruct H as (_ & _ & _ & H)]|]. exists c'. split; [|done]. rewrite <- E. by destruct s.
  - apply Hstep. intros p. rewrite elem_of_union, elem_of_singleton. split; [intros [H0|H0]; [by left | by subst p; right] | intros [H0|(-> & _)]; [by left | by right]].
Qed.

Lemma CheckForkWarningConditions_blocks (s : Node) s' : CheckForkWarningConditions nChainWork GetBlockProof IsInitialBlockDownload s = Ret s' -> blocks s' = blocks s.
Proof.
  unfold CheckForkWarningConditions. destruct (IsInitialBlockDownload _); [congruence|].
  destruct (match pindexBestForkTip s with Some _ => _ | None => _ end) as [r| | |]; try done. cbn [obind].
  destruct (match r with Some _ => _ | None => _ end) as [y| | |]; try done. cbn [obind]. destruct r; [destruct (pindexBestForkBase s) | destruct y]; by intros [= <-].
Qed.

Lemma InvalidChainFound_blocks (s : Node) p s' : InvalidChainFound nChainWork GetBlockProof IsInitialBlockDownload s p = Ret s' -> blocks s' = blocks s.
Proof.
  unfold InvalidChainFound. set (s1 := match pindexBestInvalid s with Some _ => _ | None => _ end).
  assert (blocks s1 = blocks s) as <- by (unfold s1; destruct (pindexBestInvalid s); [by destruct (_ >? _) | done]).
  destruct (oaccess _); try done. cbn [obind]. apply CheckForkWarningConditions_blocks.
Qed.

Lemma InvalidateBlock_spec (s : Node) x b q : consistent s -> blocks s !! x = Some b -> pprev b = Some q ->
  exists ok s', InvalidateBlock nChainWork GetBlockProof IsInitialBlockDownload s x = Ret (ok, s') /\
    (ok = true -> consistent s' /\ ~ unfailed s' x /\ marks_above x s s' /\ forall t, is_tip s' t -> ~ on_path (blocks s) t x).
Proof.
  intros Hc Hb Hq. pose proof (co_index s Hc) as Hok. destruct (tip_of s Hc) as (t & Et & Ht & Htu & Htg & Hth). pose proof Ht as (ht & Hht & Hlen & _). unfold InvalidateBlock.
  destruct (mark_above s x x b BLOCK_FAILED_VALID (consistent_framed s Hc) Hb) as (s1 & -> & Hf1 & Hm1 & Ech & Eco & Hn1); [by apply (on_path_self _ Hok x b) | by left|]. cbn [obind].
  pose proof Hm1 as (Htree & _). destruct (same_tree_lookup _ _ x b Htree Hb) as (b1 & Hb1 & Ep1 & _ & Eh1).
  destruct (disconnect_until_spec (length (chainActive s1)) (erase_candidate s1 x) t ht x (nHeight b1) b1 q Hf1) as (ok & s2 & -> & H2);
    [unfold is_tip; rewrite Ech; by apply (chain_for_same (blocks s)) | by rewrite Eco | by apply (at_height_same (blocks s)) | done | done | by rewrite Ep1 | |].
  { assert (chainActive s1 = chainActive s) as -> by (change (chainActive s1) with (chainActive (erase_candidate s1 x)); done). unfold zlen in Hlen. pose proof (li_height _ _ _ (Hok x b Hb)). rewrite Eh1. lia. }
  cbn [obind]. destruct ok; [|by exists false, s2]. cbn [negb]. destruct (H2 eq_refl) as (Hf2 & Hm2 & t2 & Ht2 & Hh2 & Hp2 & Hn2). clear H2.
  pose proof (marks_above_trans x s _ s2 Hm1 Hm2) as Hm. pose proof Hm as (Htree2 & Etx & Eseq & Hcl & Habove).
  apply (same_tree_path _ _ _ _ Htree) in Hp2. rewrite (same_tree_path _ _ _ _ Htree) in Hn2.
  assert (usable s t2) as Hu2 by (by apply (usable_sub s t)). assert (good s t2) as Hg2 by (by apply (good_sub s t)).
  pose proof (fr_index s2 Hf2) as Hok2. destruct (readd_candidates_spec (map_to_list (blocks s2)) s2 t2 (chain_for_tip _ _ t2 Hok2 Ht2)) as (c & -> & Hcand). cbn [obind].
  set (s3 := with_candidates s2 c). assert (framed s3) as Hf3.
  { destruct Hf2 as [F1 F2 F3 F4 F5 F6]. split; try assumption. intros p Hp. apply Hcand in Hp as [Hp|(bp & Hbp & _ & Htx & _)]; [by apply F3|]. split; [exists bp; by apply elem_of_map_to_list | done]. }
  assert (usable s3 t2) as Hu3.
  { destruct Hu2 as ([b2 Hb2] & Htx & Hpc). split; [destruct (same_tree_lookup _ _ t2 b2 Htree2 Hb2) as (b2' & Hb2' & _); by exists b2'|]. split; [unfold chain_tx in *; cbn; by rewrite Etx|].
    intros y Hy. apply (same_tree_path _ _ _ _ Htree2) in Hy. apply Habove; [by apply Hpc|]. intros Hyx. apply Hn2. by apply (on_path_trans _ Hok t2 y x). }
  assert (good s3 t2) as Hg3 by (intros y Hy; apply Hg2; by apply (same_tree_path _ _ _ _ Htree2)).
  assert (consistent s3) as Hc3.
  { apply (framed_consistent s3 t2); [done | done | done | done | done|]. exists t2. split; [done|]. split; [done|]. intros p (bp & Hbp & Hfp) Hpt Hl. apply Hcand. right. exists bp.
    split; [by apply elem_of_map_to_list|]. destruct (fr_linked s3 Hf3 p bp Hbp Hpt) as [Hrec _]. by rewrite (received_valid bp Hrec), Hfp. }
  destruct (InvalidChainFound_spec s3 x Hc3) as (s4 & E4 & Hs4). pose proof (InvalidChainFound_blocks _ _ _ E4) as Eb. rewrite E4. cbn [obind]. exists true, s4. split; [done|]. intros _.
  destruct Hs4 as ((Htree4 & Etx4 & Eseq4 & Hcl4) & Ech4 & _ & _ & Hc4). assert (forall p, unfailed s4 p <-> unfailed s2 p) as Hsame4 by (intros p; unfold unfailed; by rewrite Eb).
  split; [done|]. split; [intros Hx; apply Hn1; destruct Hm2 as (_ & _ & _ & Hcl2 & _); by apply Hcl2, Hsame4|]. split.
  - split; [by rewrite Eb|]. split; [by rewrite Etx4|]. split; [by rewrite Eseq4|]. split; [intros p Hp; apply Hcl; by apply Hsame4|]. intros p Hp Hn. apply Hsame4. by apply Habove.
  - intros t4 Ht4. unfold is_tip in Ht4. rewrite Ech4, Eb in Ht4. assert (t4 = t2) as -> by (apply (is_tip_unique s3 t2 t4 Hc3); done). done.
Qed.

(** ** [ReconsiderBlock] *)

Lemma clear_valid b : received b -> transactions_valid (with_status b (clear_failed (nStatus b))) = true.
Proof. intros Hr. rewrite (received_valid _ (clear_received b Hr)). by rewrite clear_clean. Qed.

(** What clearing flags leaves alone. *)
Definition cleared (s s' : Node) : Prop :=
  framed s' /\ same_tree (blocks s) (blocks s') /\ nChainTx s' = nChainTx s /\ nSequenceId s' = nSequenceId s /\ chainActive s' = chainActive s /\ pcoinsTip s' = pcoinsTip s /\
  setBlockIndexCandidates s ⊆ setBlockIndexCandidates s' /\ (forall p, unfailed s p -> unfailed s' p).

Lemma cleared_refl s : framed s -> cleared s s.
Proof. intros Hf. by split_and!. Qed.

Lemma cleared_trans s1 s2 s3 : cleared s1 s2 -> cleared s2 s3 -> cleared s1 s3.
Proof.
  intros (A1 & A2 & A3 & A4 & A5 & A6 & A7 & A8) (B1 & B2 & B3 & B4 & B5 & B6 & B7 & B8). split; [done|]. split; [by etransitivity|]. split; [congruence|]. split; [congruence|].
  split; [congruence|]. split; [congruence|]. split; [by etransitivity | auto].
Qed.

(** One flag is cleared, and perhaps the block becomes a candidate. *)
Lemma clear_one s x b c most_work : framed s -> blocks s !! x = Some b -> (c = setBlockIndexCandidates s \/ c = setBlockIndexCandidates s ∪ {[x]} /\ chain_tx s x <> 0) ->
  let s' := with_best_invalid (with_candidates (with_blocks s (<[x := with_status b (clear_failed (nStatus b))]> (blocks s))) c) most_work in
  cleared s s' /\ unfailed s' x /\ forall p, p <> x -> unfailed s' p -> unfailed s p.
Proof.
  clear GetBlockProof IsInitialBlockDownload nChainWork.
  intros Hf Hb Hc s'. destruct (set_status_spec s x b clear_failed Hf Hb (clear_received b)) as (s1 & _ & -> & Hf1 & Ht & Hcl).
  assert (unfailed s' x) as Hx by (exists (with_status b (clear_failed (nStatus b))); cbn; rewrite lookup_insert_eq; split; [done | apply clear_clean]).
  split; [|split; [done | intros p Hne Hp; by apply Hcl]].
  split; [|split; [exact Ht|]; split; [done|]; split; [done|]; split; [done|]; split; [done|]; split].
  - destruct Hf1 as [F1 F2 F3 F4 F5 F6]. split; try assumption. intros p Hp. destruct Hc as [-> |[-> Htx]]; [by apply F3|].
    cbn in Hp. apply elem_of_union in Hp as [Hp|Hp]; [by apply F3|]. apply elem_of_singleton in Hp as ->. split; [|done]. cbn. rewrite lookup_insert_eq. by eexists.
  - destruct Hc as [-> |[-> _]]; [done | intros p Hp; cbn; set_solver].
  - intros p Hp. destruct (decide (p = x)) as [->|Hne]; [done | by apply Hcl].
Qed.

Lemma clear_descendants_spec x hx t l : forall s, framed s -> chain_Tip (chainActive s) = Some t -> at_height (blocks s) x hx -> (forall y, y ∈ l -> is_Some (blocks s !! y)) ->
  exists s', clear_descendants nChainWork l x hx s = Ret s' /\ cleared s s' /\ (forall p, unfailed s' p -> unfailed s p \/ on_path (blocks s) p x) /\
    (forall y, y ∈ l -> on_path (blocks s) y x -> unfailed s' y) /\
    (forall y, ~ unfailed s y -> unfailed s' y -> chain_tx s y <> 0 -> less s t y = true -> y ∈ setBlockIndexCandidates s').
Proof.
  clear GetBlockProof IsInitialBlockDownload.
  induction l as [|y l IH]; intros s Hf Ht Hx Hl.
  { exists s. split; [done|]. split; [by apply cleared_refl|]. split; [by left|]. split; [by intros y H%elem_of_nil | done]. }
  pose proof (fr_index s Hf) as Hok. destruct (Hl y) as [b Hb]; [by left|]. cbn [clear_descendants]. unfold deref at 1. cbn [oaccess obind]. rewrite Hb. cbn [oaccess obind]. rewrite IsValid_transactions. cbn [obind].
  assert (at_height (blocks s) y (nHeight b)) as Hy by (by exists b).
  assert (on_path (blocks s) y x <-> ancestor (blocks s) y hx = Some x) as Hiff by (split; [by apply (on_path_height _ Hok y (nHeight b)) | by exists hx]).
  (* a round that does nothing *)
  assert (forall s1, s1 = s -> (on_path (blocks s) y x -> unfailed s y) -> exists s', clear_descendants nChainWork l x hx s1 = Ret s' /\ cleared s s' /\ (forall p, unfailed s' p -> unfailed s p \/ on_path (blocks s) p x) /\
    (forall z, z ∈ y :: l -> on_path (blocks s) z x -> unfailed s' z) /\ (forall z, ~ unfailed s z -> unfailed s' z -> chain_tx s z <> 0 -> less s t z = true -> z ∈ setBlockIndexCandidates s')) as Hskip.
  { intros s1 -> Hyc. destruct (IH s Hf Ht Hx) as (s' & -> & Hc & H1 & H2 & H3); [intros z Hz; apply Hl; by right|]. exists s'. split_and!; try done.
    intros z Hz Hzx. apply elem_of_cons in Hz as [->|Hz]; [|by apply H2]. destruct Hc as (_ & _ & _ & _ & _ & _ & _ & Hcl). by apply Hcl, Hyc. }
  destruct (transactions_valid b) eqn:Ev.
  { cbn [obind]. apply Hskip; [done|]. intros _. exists b. split; [done|]. unfold transactions_valid in Ev. apply andb_true_iff in Ev as [Ev _]. by destruct (failed b). }
  rewrite (GetAncestor_spec _ Hok y (nHeight b) hx Hy). cbn [obind]. case_bool_decide as Hanc; cbn [negb].
  2:{ cbn [obind]. apply Hskip; [done|]. intros Hp. by apply Hiff in Hp. }
  destruct (set_status_spec s y b clear_failed Hf Hb (clear_received b)) as (s1 & -> & Es1 & Hf1 & Htree & _). cbn [obind]. rewrite Es1. unfold deref at 1. cbn [with_blocks blocks oaccess obind]. rewrite lookup_insert_eq. cbn [oaccess obind].
  rewrite IsValid_transactions. cbn [obind]. set (h1 := <[y := with_status b (clear_failed (nStatus b))]> (blocks s)) in *. change (chain_tx (with_blocks s h1) y) with (chain_tx s y).
  set (add := transactions_valid (with_status b (clear_failed (nStatus b))) && negb (chain_tx s y =? 0) && less s t y).
  set (c := if add then setBlockIndexCandidates s ∪ {[y]} else setBlockIndexCandidates s).
  assert ((if transactions_valid (with_status b (clear_failed (nStatus b))) && negb (chain_tx s y =? 0)
           then let* tip := oaccess (chain_Tip (chainActive (with_blocks s h1))) in Ret (if less (with_blocks s h1) tip y then insert_candidate (with_blocks s h1) y else with_blocks s h1)
           else Ret (with_blocks s h1)) = Ret (with_candidates (with_blocks s h1) c)) as ->.
  { unfold c, add. destruct (transactions_valid _ && negb _); cbn [andb]; [|done]. cbn [with_blocks chainActive]. rewrite Ht. cbn [oaccess obind].
    change (less (with_blocks s h1) t y) with (less s t y). by destruct (less s t y). }
  cbn [obind]. set (s2 := if _ : bool then _ else _).
  assert (exists most_work, s2 = with_best_invalid (with_candidates (with_blocks s h1) c) most_work) as [most_work Es2].
  { unfold s2. case_bool_decide; [by exists None|]. by exists (pindexBestInvalid s). }
  assert (c = setBlockIndexCandidates s \/ c = setBlockIndexCandidates s ∪ {[y]} /\ chain_tx s y <> 0) as Hc.
  { unfold c. destruct add eqn:Ea; [right; split; [done|] | by left]. unfold add in Ea. apply andb_true_iff in Ea as [Ea _]. apply andb_true_iff in Ea as [_ Ea]. by apply nz_true. }
  destruct (clear_one s y b c most_work Hf Hb Hc) as (Hcs & Hcy & Hother). fold h1 in Hcs, Hcy, Hother. rewrite <- Es2 in Hcs, Hcy, Hother. clear Hskip.
  pose proof Hcs as (Hf2 & Htree2 & Etx & Eseq & Ech & Eco & Hsub & Hmono).
  destruct (IH s2 Hf2) as (s' & -> & Hcs' & H1 & H2 & H3); [by rewrite Ech | by apply (at_height_same (blocks s)) | |].
  { intros z Hz. destruct (Hl z) as [d Hd]; [by right|]. destruct (same_tree_lookup _ _ z d Htree2 Hd) as (d' & Hd' & _). by exists d'. }
  exists s'. split; [done|]. split; [by apply (cleared_trans s s2)|]. assert (forall p q, on_path (blocks s2) p q <-> on_path (blocks s) p q) as Hpath by (intros p q; exact (same_tree_path _ _ p q Htree2)).
  pose proof Hcs' as (_ & _ & _ & _ & _ & _ & Hsub' & Hmono'). split_and!.
  - intros p Hp. destruct (H1 p Hp) as [H|H]; [|right; by apply Hpath]. destruct (decide (p = y)) as [->|Hne]; [right; by apply Hiff | left; by apply Hother].
  - intros z Hz Hzx. apply elem_of_cons in Hz as [->|Hz]; [by apply Hmono'|]. apply H2; [done | by apply Hpath].
  - intros z Hn Hz Htx Hless. assert (chain_tx s2 z = chain_tx s z) as Etz by (unfold chain_tx; by rewrite Etx). assert (less s2 t z = less s t z) as Elz by (unfold work_less, sequence; by rewrite Eseq).
    destruct (decide (z = y)) as [->|Hne].
    + apply Hsub'. rewrite Es2. cbn [with_best_invalid with_candidates setBlockIndexCandidates]. unfold c, add. destruct (fr_linked s Hf y b Hb Htx) as [Hrec _].
      rewrite (clear_valid b Hrec), Hless. rewrite (proj2 (nz_true _) Htx). cbn [andb]. set_solver.
    + apply H3; [intros Hc2; by apply Hn, Hother | done | by rewrite Etz | by rewrite Elz].
Qed.

Lemma clear_ancestors_spec fuel : forall p s, framed s -> known_or_null (blocks s) p -> height_within (blocks s) p (Z.of_nat fuel - 1) ->
  exists s', clear_ancestors fuel p s = Ret s' /\ cleared s s' /\ (forall y, unfailed s' y -> unfailed s y \/ exists x, p = Some x /\ on_path (blocks s) x y) /\
    (forall x y, p = Some x -> on_path (blocks s) x y -> unfailed s' y).
Proof.
  clear GetBlockProof IsInitialBlockDownload nChainWork.
  induction fuel as [|fuel IH]; intros [x|] s Hf Hp Hh; pose proof (fr_index s Hf) as Hok;
    try (exists s; split; [done|]; split; [by apply cleared_refl|]; split; [by left | done]); destruct Hp as [b Hb]; pose proof (Hh b Hb) as Hbh; pose proof (li_height _ _ _ (Hok x b Hb)); [lia|].
  cbn [clear_ancestors]. unfold deref. cbn [oaccess obind]. rewrite Hb. cbn [oaccess obind].
  assert (exists s1, (if failed b then set_status s x clear_failed else Ret s) = Ret s1 /\ cleared s s1 /\ unfailed s1 x /\ (forall p, p <> x -> unfailed s1 p -> unfailed s p)) as (s1 & -> & Hc1 & Hx1 & Ho1).
  { destruct (failed b) eqn:Eb; [|exists s; split; [done|]; split; [by apply cleared_refl|]; split; [by exists b | done]].
    destruct (set_status_spec s x b clear_failed Hf Hb (clear_received b)) as (s1 & -> & Es1 & _). exists s1. split; [done|].
    destruct (clear_one s x b (setBlockIndexCandidates s) (pindexBestInvalid s) Hf Hb) as (A & B & C); [by left|].
    assert (with_best_invalid (with_candidates (with_blocks s (<[x:=with_status b (clear_failed (nStatus b))]> (blocks s))) (setBlockIndexCandidates s)) (pindexBestInvalid s) = s1) as E by (rewrite Es1; by destruct s).
    rewrite E in A, B, C. done. }
  cbn [obind]. pose proof Hc1 as (Hf1 & Htree1 & _). 
  destruct (IH (pprev b) s1 Hf1) as (s' & -> & Hc' & H1 & H2).
  { pose proof (parent_known _ Hok x b Hb) as Hk. destruct (pprev b) as [q|]; [|done]. destruct Hk as [d Hd]. destruct (same_tree_lookup _ _ q d Htree1 Hd) as (d' & Hd' & _). by exists d'. }
  { pose proof (parent_within _ x b (Z.of_nat (S fuel) - 1) Hok Hb ltac:(lia)) as Hw. unfold height_within in *. destruct (pprev b) as [q|]; [|done]. intros d Hd.
    destruct (same_tree_lookup _ _ q d (symmetry Htree1) Hd) as (d' & Hd' & _ & _ & E). specialize (Hw d' Hd'). lia. }
  exists s'. split; [done|]. split; [by apply (cleared_trans s s1)|]. pose proof Hc' as (_ & _ & _ & _ & _ & _ & _ & Hmono').
  assert (forall p q, on_path (blocks s1) p q <-> on_path (blocks s) p q) as Hpath by (intros p q; exact (same_tree_path _ _ p q Htree1)). split.
  - intros y Hy. destruct (H1 y Hy) as [H0|(q & Eq & Hq)].
    + destruct (decide (y = x)) as [->|Hne]; [right; exists x; split; [done|]; by apply (on_path_self _ Hok x b) | left; by apply Ho1].
    + right. exists x. split; [done|]. apply (on_path_trans _ Hok x q y); [by apply (on_path_parent _ Hok x b) | by apply Hpath].
  - intros x' y [= <-] Hy. destruct (on_path_inv _ Hok x b y Hb Hy) as [->|(q & Eq & Hq)]; [by apply Hmono' | apply (H2 q y Eq); by apply Hpath].
Qed.

(** Each block has more work than its parent. *)
Definition works_increase (s : Node) : Prop := forall p b q, blocks s !! p = Some b -> pprev b = Some q -> nChainWork q < nChainWork p.

Lemma up_work (s : Node) n : works_increase s -> forall p q, up (blocks s) n p = Some q -> q = p \/ nChainWork q < nChainWork p.
Proof.
  intros Hw. induction n as [|n IH]; intros p q Hq; cbn [up] in Hq; [left; congruence|]. destruct (blocks s !! p) as [b|] eqn:Eb; [|done]. cbn [mbind option_bind] in Hq.
  destruct (pprev b) as [y|] eqn:Ey; [|done]. cbn [mbind option_bind] in Hq. pose proof (Hw p b y Eb Ey). destruct (IH y q Hq) as [->|]; right; lia.
Qed.

Lemma path_work (s : Node) p q : index_ok (blocks s) -> works_increase s -> on_path (blocks s) p q -> q = p \/ nChainWork q < nChainWork p.
Proof.
  intros Hok Hw [k Hk]. pose proof Hk as Hk'. unfold ancestor in Hk'. destruct (blocks s !! p) as [b|] eqn:Eb; [|done]. assert (at_height (blocks s) p (nHeight b)) as Hp by (by exists b).
  destruct (ancestor_spec _ Hok p _ k Hp (ancestor_range _ p _ k q Hp Hk)) as (q' & E & _ & Hu). rewrite Hk in E. injection E as <-. by apply (up_work s _ Hw p q Hu).
Qed.

Lemma cleared_usable s s' p : cleared s s' -> usable s p -> usable s' p.
Proof.
  intros (_ & Ht & Etx & _ & _ & _ & _ & Hcl) ([b Hb] & Htx & Hp). split; [destruct (same_tree_lookup _ _ p b Ht Hb) as (b' & Hb' & _); by exists b'|].
  split; [unfold chain_tx in *; by rewrite Etx|]. intros q Hq. apply Hcl, Hp. by apply (same_tree_path _ _ _ _ Ht).
Qed.

Lemma greatest_of (s : Node) (a b c : ptr) : exists m, m ∈ [a; b; c] /\ less s m a = false /\ less s m b = false /\ less s m c = false.
Proof.
  clear GetBlockProof IsInitialBlockDownload.
  pose proof (greatest_spec nChainWork s [a; b; c]) as H. destruct (greatest nChainWork s [a; b; c]) as [m|]; [|done]. destruct H as [Hm H].
  exists m. split; [done|]. split_and!; apply H; set_solver.
Qed.

(** The flags of the branch are cleared; that its blocks are candidates again needs
    that the branch will not fail anew. *)
Lemma ReconsiderBlock_spec (s : Node) x : consistent s -> is_Some (blocks s !! x) -> chain_tx s x <> 0 -> good s x -> works_increase s ->
  exists s', ReconsiderBlock nChainWork s x = Ret s' /\ consistent s' /\ cleared s s' /\ usable s' x /\
    (forall p, unfailed s' p -> unfailed s p \/ on_path (blocks s) p x \/ on_path (blocks s) x p) /\ (forall p, is_Some (blocks s !! p) -> on_path (blocks s) p x -> unfailed s' p).
Proof.
  clear GetBlockProof IsInitialBlockDownload.
  intros Hc [b Hb] Htx Hg Hw. pose proof (co_index s Hc) as Hok. destruct (tip_of s Hc) as (t & Et & Htip & Htu & Htg & Hth). unfold ReconsiderBlock, deref. cbn [oaccess obind]. rewrite Hb. cbn [oaccess obind].
  assert (at_height (blocks s) x (nHeight b)) as Hx by (by exists b).
  destruct (clear_descendants_spec x (nHeight b) t (List.map fst (map_to_list (blocks s))) s (consistent_framed s Hc) Et Hx) as (s1 & -> & Hc1 & H1 & H2 & H3).
  { intros y Hy. apply list_elem_of_fmap in Hy as ([y' c] & -> & Hy). apply elem_of_map_to_list in Hy. by exists c. }
  cbn [obind]. pose proof Hc1 as (Hf1 & Ht1 & Etx1 & Eseq1 & Ech1 & Eco1 & Hsub1 & Hmono1). destruct (same_tree_lookup _ _ x b Ht1 Hb) as (b1 & Hb1 & _ & _ & Eh1).
  assert (forall p, is_Some (blocks s !! p) -> on_path (blocks s) p x -> unfailed s1 p) as Hcd.
  { intros p [c Hp] Hpx. apply H2; [|done]. apply list_elem_of_fmap. exists (p, c). split; [done|]. by apply elem_of_map_to_list. }
  destruct (clear_ancestors_spec (walk_length (blocks s1) (Some x)) (Some x) s1 Hf1) as (s' & -> & Hc2 & A1 & A2); [by exists b1| |].
  { intros c Hcx. unfold walk_length. cbn [mbind option_bind]. rewrite Hcx. pose proof (li_height _ _ _ (fr_index s1 Hf1 x c Hcx)). lia. }
  pose proof (cleared_trans s s1 s' Hc1 Hc2) as Hcs. exists s'. split; [done|].
  assert (forall p q, on_path (blocks s1) p q <-> on_path (blocks s) p q) as Hpath by (intros p q; exact (same_tree_path _ _ p q Ht1)).
  pose proof Hcs as (Hf' & Ht' & Etx' & Eseq' & Ech' & Eco' & Hsub' & Hmono'). pose proof Hc2 as (_ & _ & _ & _ & _ & _ & Hsub2 & Hmono2).
  assert (forall p q, less s' p q = less s p q) as Eless by (intros p q; unfold work_less, sequence; by rewrite Eseq').
  assert (forall p, chain_tx s' p = chain_tx s p) as Etxp by (intros p; unfold chain_tx; by rewrite Etx').
  assert (usable s' x) as Hux.
  { split; [destruct (same_tree_lookup _ _ x b Ht' Hb) as (b' & Hb' & _); by exists b'|]. split; [by rewrite Etxp|]. intros q Hq. apply (A2 x q eq_refl). apply Hpath. by apply (same_tree_path _ _ _ _ Ht'). }
  assert (forall p, good s p -> good s' p) as Hgood by (intros p Hp q Hq; apply Hp; by apply (same_tree_path _ _ _ _ Ht')).
  assert (consistent s') as Hc'.
  { apply (framed_consistent s' t Hf'); [unfold is_tip; rewrite Ech'; by apply (chain_for_same (blocks s)) | by apply (cleared_usable s) | by apply Hgood | by rewrite Eco' |].
    destruct (co_reserve s Hc) as (r & Hru & Hrg & Hr). destruct (greatest_of s r t x) as (m & Hm & L1 & L2 & L3). exists m.
    assert (usable s' m /\ good s' m) as [Hum Hgm].
    { apply elem_of_cons in Hm as [->|Hm]; [split; [by apply (cleared_usable s) | by apply Hgood]|]. apply elem_of_cons in Hm as [->|Hm]; [split; [by apply (cleared_usable s) | by apply Hgood]|].
      apply list_elem_of_singleton in Hm as ->. split; [done | by apply Hgood]. }
    split; [done|]. split; [done|]. intros p Hp Hpt Hl. rewrite Etxp in Hpt. rewrite Eless in Hl. destruct (clean_dec s p) as [Hcp|Hnp].
    - apply Hsub', (Hr p Hcp Hpt). by apply (not_less_trans nChainWork s p m r).
    - destruct (clean_dec s1 p) as [Hc1p|Hn1p].
      + apply Hsub2, H3; [done | done | done|]. destruct (less s t p) eqn:E; [done|]. exfalso. apply Hnp. pose proof (not_less_trans nChainWork s p m t Hl L2) as E2.
        rewrite (less_total nChainWork s p t E2 E). by apply usable_clean.
      + exfalso. destruct (A1 p Hp) as [|(y & [= <-] & Hy)]; [done|]. apply Hpath in Hy. destruct (path_work s x p Hok Hw Hy) as [->|Hlt].
        * apply Hn1p, Hcd; [by exists b | by apply (on_path_self _ Hok x b)].
        * pose proof (not_less_trans nChainWork s p m x Hl L3) as E. apply work_less_false in E. lia. }
  split; [done|]. split; [done|]. split; [done|]. split.
  - intros p Hp. destruct (A1 p Hp) as [H|(y & [= <-] & Hy)]; [|right; right; by apply Hpath]. destruct (H1 p H); auto.
  - intros p Hp Hpx. apply Hmono2. by apply Hcd.
Qed.

End Invariant.
