(* ===== verification/ChainSelection.v ===== *)
(** * What the choice of the best chain guarantees

    The theorems about [ActivateBestChain], [InvalidateBlock] and [ReconsiderBlock],
    with a small block tree on which they are instantiated. *)

From Stdlib Require Import ZArith Lia Bool String.
From stdpp Require Import base option numbers list gmap.
From S2P Require Import Prelude BaseUInt UInt256 BlockIndex Chain Lottery Validation BestChain BestChainProps.

Open Scope Z_scope.
Open Scope outcome_scope.

(** ** A block tree with two branches *)

Definition fork_tree : index_heap := <[5%positive := sample_linked 5 3 4 2]> sample_tree.

(** The coins are the block they belong to; a block with a false [verdict] is refused. *)
Definition parent_in (h : index_heap) (p : ptr) : option ptr := (h !! p) ≫= pprev.
Definition refusal : CValidationState := DoS CValidationState_new 100 REJECT_INVALID "bad" false.

Definition sample_connect (verdict : ptr -> bool) : ChainState ptr :=
  {| connect := fun p _ => Ret (if verdict p then Connects p else Refused refusal);
     disconnect := fun p _ => Ret (match parent_in fork_tree p with Some q => Disconnects q | None => DisconnectFailed end) |}.

#[refine] Definition sample_laws (v : ptr -> bool) : @ChainStateLaws ptr (sample_connect v) :=
  {| verdict := v; child := fun t p => parent_in fork_tree p = Some t; holds := fun t c => t = c |}.
Proof.
  - intros t p c Hp ->. cbn. destruct (v p) eqn:E; eexists; split; reflexivity || done.
  - intros t p c Hp ->. cbn. rewrite Hp. by eexists.
Defined.

(** Blocks 3 and 5 end the branches; the tip is block 3.  Nothing is marked
    ([Plain]), or the branch of block 5 was invalidated at block 4 ([Marked]), or so
    and block 5 was not received ([HeaderOnly]); block 4 alone then has more work
    than the tip; or block 5 was received and block 4 was not ([Late]). *)
Inductive sample_case := Plain | Marked | HeaderOnly | Late.

Definition sample_status (m : sample_case) (p : ptr) : Z :=
  match m, p with
  | Plain, _ => 11
  | Late, 4%positive => 2
  | Late, _ => 11
  | _, 4%positive => 11 + BLOCK_FAILED_VALID
  | Marked, 5%positive => 11 + BLOCK_FAILED_CHILD
  | HeaderOnly, 5%positive => 2 + BLOCK_FAILED_CHILD
  | _, _ => 11
  end.
Definition sample_blocks (m : sample_case) : index_heap := map_imap (fun p b => Some (with_status b (sample_status m p))) fork_tree.
Definition sample_counts (m : sample_case) : gmap ptr Z :=
  list_to_map ([(1%positive, 1); (2%positive, 2); (3%positive, 3)] ++ match m with Late => [] | HeaderOnly => [(4%positive, 3)] | _ => [(4%positive, 3); (5%positive, 4)] end).
Definition sample_work (m : sample_case) (p : ptr) : Z :=
  match p with 1%positive => 10 | 2%positive => 20 | 3%positive => 30 | 4%positive => match m with HeaderOnly => 35 | _ => 25 end | _ => 40 end.
Definition sample_node (m : sample_case) : node ptr :=
  mkNode (sample_blocks m) (match m with Late => <[5%positive := 1]> ((fun _ => 1) <$> sample_counts m) | _ => (fun _ => 1) <$> sample_counts m end) (sample_counts m) ∅ [Some 1%positive; Some 2%positive; Some 3%positive]
    (match m with Plain => {[3%positive; 5%positive]} | _ => {[3%positive]} end) (match m with Late => [(4%positive, 5%positive)] | _ => [] end) None 1 None None false false 3%positive.

Lemma fork_tree_reachable : chain_reachable fork_tree [Some 1%positive; Some 2%positive; Some 3%positive].
Proof.
  eapply rtc_r; [exact sample_tree_reachable|]. apply (step_add _ _ 5 4 (sample_entry 5) (sample_linked 5 3 4 2)); vm_compute; reflexivity.
Qed.

Lemma sample_same_tree m : same_tree fork_tree (sample_blocks m).
Proof. apply map_eq. intros p. unfold sample_blocks. rewrite !lookup_fmap, map_lookup_imap. by destruct (fork_tree !! p). Qed.

Lemma fork_tree_lookup p b : fork_tree !! p = Some b -> p = 1%positive \/ p = 2%positive \/ p = 3%positive \/ p = 4%positive \/ p = 5%positive.
Proof.
  unfold fork_tree, sample_tree. rewrite !lookup_insert_Some, lookup_singleton_Some. intuition congruence.
Qed.

Lemma sample_lookup m p b : sample_blocks m !! p = Some b -> p = 1%positive \/ p = 2%positive \/ p = 3%positive \/ p = 4%positive \/ p = 5%positive.
Proof. intros Hb. destruct (same_tree_lookup _ _ p b (symmetry (sample_same_tree m)) Hb) as (b' & Hb' & _). by apply (fork_tree_lookup p b'). Qed.

Lemma sample_index_ok m : index_ok (sample_blocks m).
Proof. apply (index_ok_same fork_tree); [apply sample_same_tree | exact (proj1 (chain_reachable_ok _ _ fork_tree_reachable))]. Qed.

(** The ancestors of the sample blocks. *)
Definition sample_branch (p : ptr) : list ptr := match p with 1%positive => [1] | 2%positive => [2; 1] | 3%positive => [3; 2; 1] | 4%positive => [4; 2; 1] | _ => [5; 4; 2; 1] end%positive.

Lemma fork_tree_path p b q : fork_tree !! p = Some b -> on_path fork_tree p q -> q ∈ sample_branch p.
Proof.
  pose proof (proj1 (chain_reachable_ok _ _ fork_tree_reachable)) as Hok.
  assert (forall x y l, fork_tree !! x = Some y -> (forall r, pprev y = Some r -> on_path fork_tree r q -> q ∈ l) -> on_path fork_tree x q -> q ∈ x :: l) as Hstep.
  { intros x y l Hx Hr Hp. destruct (on_path_inv _ Hok x y q Hx Hp) as [->|(r & Er & Hq)]; [by left | right; by apply (Hr r)]. }
  assert (on_path fork_tree 1 q -> q ∈ sample_branch 1) as H1 by (by eapply Hstep).
  assert (on_path fork_tree 2 q -> q ∈ sample_branch 2) as H2 by (eapply Hstep; [reflexivity|]; intros r [= <-]; exact H1).
  assert (on_path fork_tree 4 q -> q ∈ sample_branch 4) as H4 by (eapply Hstep; [reflexivity|]; intros r [= <-]; exact H2).
  intros Hb. destruct (fork_tree_lookup p b Hb) as [->|[->|[->|[->| ->]]]]; [done | done | | done |].
  - eapply Hstep; [reflexivity|]. intros r [= <-]. exact H2.
  - eapply Hstep; [reflexivity|]. intros r [= <-]. exact H4.
Qed.

Lemma sample_path m p q : is_Some (sample_blocks m !! p) -> on_path (sample_blocks m) p q -> q ∈ sample_branch p.
Proof.
  intros [b Hb] Hp. destruct (same_tree_lookup _ _ p b (symmetry (sample_same_tree m)) Hb) as (b' & Hb' & _). apply (fork_tree_path p b' q Hb').
  by apply (same_tree_path _ _ p q (sample_same_tree m)).
Qed.

(** The verdicts accept the active branch. *)
Lemma sample_consistent m v : v 1%positive = true -> v 2%positive = true -> v 3%positive = true ->
  @consistent ptr (sample_connect v) (sample_laws v) (sample_work m) (sample_node m).
Proof.
  intros V1 V2 V3. 
  assert (forall q, on_path (sample_blocks m) 3 q -> q = 3%positive \/ q = 2%positive \/ q = 1%positive) as H3.
  { intros q Hq. apply sample_path in Hq; [|destruct m; by eexists]. cbn in Hq. set_solver. }
  assert (@usable ptr (sample_node m) 3%positive) as Hu.
  { split; [destruct m; by eexists|]. split; [by destruct m|]. intros q Hq. destruct (H3 q Hq) as [->|[->| ->]]; destruct m; by eexists. }
  assert (@good ptr (sample_connect v) (sample_laws v) (sample_node m) 3%positive) as Hg by (intros q Hq; by destruct (H3 q Hq) as [->|[->| ->]]).
  split.
  - apply sample_index_ok.
  - intros p b Hb Htx. cbn [blocks sample_node] in Hb. destruct (sample_lookup m p b Hb) as [->|[->|[->|[->| ->]]]]; destruct m; vm_compute in Hb; injection Hb as <-; (exfalso; by apply Htx) || by vm_compute.
  - intros p Hp. destruct m; cbn in Hp; try (apply elem_of_singleton in Hp as ->; split; [by eexists | by vm_compute]).
    apply elem_of_union in Hp as [->%elem_of_singleton | ->%elem_of_singleton]; (split; [by eexists | by vm_compute]).
  - done.
  - intros p b q Hb Hq. cbn [blocks sample_node] in Hb. cbn. destruct (same_tree_lookup _ _ p b (symmetry (sample_same_tree m)) Hb) as (b' & Hb' & E & _). unfold parent_in. rewrite Hb'. cbn. congruence.
  - exists 1%positive. intros p (b & Hb & Hh). cbn [blocks sample_node] in Hb. destruct (sample_lookup m p b Hb) as [->|[->|[->|[->| ->]]]]; destruct m; vm_compute in Hb; injection Hb as <-; done.
  - exists 3%positive. split; [|done]. apply (chain_for_same fork_tree); [apply sample_same_tree|]. destruct (proj2 (chain_reachable_ok _ _ fork_tree_reachable)) as [H|(t & H)]; [done|].
    pose proof (chain_for_tip _ _ t (proj1 (chain_reachable_ok _ _ fork_tree_reachable)) H) as Ht. by injection Ht as <-.
  - exists 3%positive. split; [done|]. split; [done|]. intros p (b & Hb & Hf) Hx Hl. cbn [blocks sample_node] in Hb.
    destruct (sample_lookup m p b Hb) as [->|[->|[->|[->| ->]]]]; destruct m; vm_compute in Hb; injection Hb as <-; try discriminate Hl; try discriminate Hf; try (exfalso; by apply Hx); cbn; set_solver.
Qed.

(** ** The theorems *)

Section ChainSelection.
Context {Coins : Type} {CS : ChainState Coins} {Laws : ChainStateLaws Coins}.
Variables (nChainWork GetBlockProof : ptr -> Z) (IsInitialBlockDownload : CChain -> bool).
Abbreviation consistent := (consistent nChainWork).
Abbreviation most_work := (most_work nChainWork).
Abbreviation ActivateBestChain := (ActivateBestChain nChainWork GetBlockProof IsInitialBlockDownload).
Abbreviation InvalidateBlock := (InvalidateBlock nChainWork GetBlockProof IsInitialBlockDownload).

(** C3: from a consistent state [ActivateBestChain] ends; unless reading, connecting
    or writing failed the state is consistent again, no failure was forgotten, the
    active chain is the branch of a usable tip, and no block whose branch is
    completely received and free of known failures has more work (or as much work
    and an earlier sequence number) than the tip. *)
Theorem best_chain_active (s : node Coins) : consistent s ->
  exists ok s', ActivateBestChain (activation_rounds s) s = Ret (ok, s') /\
    (ok = true -> marks s s' /\ consistent s' /\ exists t, is_tip s' t /\ usable s' t /\ most_work s' t).
Proof.
  intros Hc. destruct (co_tip _ s Hc) as (t & Ht & _). destruct (ActivateBestChain_spec nChainWork GetBlockProof IsInitialBlockDownload (activation_rounds s) s t Hc Ht (measure_bound nChainWork s t)) as (ok & s' & E & H).
  exists ok, s'. split; [done|]. intros Hok. destruct (H Hok) as (Hm & Hc' & t' & Ht' & Hb). split; [done|]. split; [done|]. exists t'. split; [done|]. split; [|done].
  by apply (tip_facts nChainWork s' t').
Qed.

(** C5: [InvalidateBlock] on a block that is not the genesis block leaves a
    consistent state in which the block is marked, the blocks that are not above it
    keep their standing, and it is off the active chain; [ActivateBestChain] then
    ends, and, unless the machine fails, on a tip not above the block that has the
    most work of the usable blocks. *)
Theorem invalidated_block_abandoned (s : node Coins) x b q : consistent s -> blocks s !! x = Some b -> pprev b = Some q ->
  exists ok s1, InvalidateBlock s x = Ret (ok, s1) /\
    (ok = true -> consistent s1 /\ ~ unfailed s1 x /\ marks_above x s s1 /\ (forall t, is_tip s1 t -> ~ on_path (blocks s) t x) /\
      exists ok' s2, ActivateBestChain (activation_rounds s1) s1 = Ret (ok', s2) /\
        (ok' = true -> consistent s2 /\ exists t, is_tip s2 t /\ ~ on_path (blocks s) t x /\ most_work s2 t)).
Proof.
  intros Hc Hb Hq. destruct (InvalidateBlock_spec nChainWork GetBlockProof IsInitialBlockDownload s x b q Hc Hb Hq) as (ok & s1 & E & H).
  exists ok, s1. split; [done|]. intros Hok. destruct (H Hok) as (Hc1 & Hx & Hm & Hn). split; [done|]. split; [done|]. split; [done|]. split; [done|].
  destruct (co_tip _ s1 Hc1) as (t & Ht & _). destruct (ActivateBestChain_spec nChainWork GetBlockProof IsInitialBlockDownload (activation_rounds s1) s1 t Hc1 Ht (measure_bound nChainWork s1 t)) as (ok' & s2 & E2 & H2).
  exists ok', s2. split; [done|]. intros Hok'. destruct (H2 Hok') as (Hm2 & Hc2 & t2 & Ht2 & Hb2). split; [done|]. exists t2. split; [done|]. split; [|done]. intros Hp.
  destruct (tip_facts nChainWork s2 t2 Hc2 Ht2) as (_ & (_ & _ & Hcl) & _). apply Hx. destruct Hm2 as (Ht12 & _ & _ & Hcl12). apply Hcl12, Hcl. apply (same_tree_path _ _ _ _ Ht12). by apply (same_tree_path _ _ _ _ (proj1 Hm)).
Qed.

(** [ReconsiderBlock] on a received block whose branch would not fail anew
    clears the marks of its ancestors and of all its descendants and of no other
    block, forgets no candidate, and leaves a consistent state in which the block is
    usable. *)
Theorem reconsidered_block_usable (s : node Coins) x : consistent s -> is_Some (blocks s !! x) -> chain_tx s x <> 0 -> good s x ->
  (forall p b q, blocks s !! p = Some b -> pprev b = Some q -> nChainWork q < nChainWork p) ->
  exists s', ReconsiderBlock nChainWork s x = Ret s' /\ consistent s' /\ cleared s s' /\ usable s' x /\
    (forall p, unfailed s' p -> unfailed s p \/ on_path (blocks s) p x \/ on_path (blocks s) x p) /\ (forall p, is_Some (blocks s !! p) -> on_path (blocks s) p x -> unfailed s' p).
Proof. intros Hc Hx Htx Hg Hw. by apply ReconsiderBlock_spec. Qed.
End ChainSelection.

(** ** On the sample tree *)

Definition tip_of_run (r : io (bool * node ptr)) : option ptr := match r with Ret (true, s) => chain_Tip (chainActive s) | _ => None end.
Definition sample_activate (m : sample_case) (v : ptr -> bool) (s : node ptr) : io (bool * node ptr) :=
  @ActivateBestChain ptr (sample_connect v) (sample_work m) (fun _ => 5) (fun _ => false) (activation_rounds s) s.

(** The branch of block 5 has more work and is activated, unless block 5 fails. *)
Example sample_reorganised : tip_of_run (sample_activate Plain (fun _ => true) (sample_node Plain)) = Some 5%positive.
Proof. vm_compute. reflexivity. Qed.
Example sample_failed_reorganisation : tip_of_run (sample_activate Plain (fun p => negb (p =? 5)%positive) (sample_node Plain)) = Some 3%positive.
Proof. vm_compute. reflexivity. Qed.

Lemma best_chain_active_witness : exists s', sample_activate Plain (fun p => negb (p =? 5)%positive) (sample_node Plain) = Ret (true, s') /\
  exists t, @is_tip ptr s' t /\ @most_work ptr (sample_work Plain) s' t.
Proof.
  destruct (@best_chain_active ptr (sample_connect (fun p => negb (p =? 5)%positive)) (sample_laws _) (sample_work Plain) (fun _ => 5) (fun _ => false) (sample_node Plain)
    (sample_consistent Plain _ eq_refl eq_refl eq_refl)) as (ok & s' & E & H).
  assert (ok = true) as -> by (pose proof (f_equal tip_of_run E) as E2; destruct ok; [done | vm_compute in E2; discriminate E2]).
  exists s'. split; [exact E|]. destruct (H eq_refl) as (_ & _ & t & Ht & _ & Hb). by exists t.
Defined.

Lemma invalidated_block_abandoned_witness : exists s1 s2,
  @InvalidateBlock ptr (sample_connect (fun _ => true)) (sample_work Plain) (fun _ => 5) (fun _ => false) (sample_node Plain) 5%positive = Ret (true, s1) /\
  sample_activate Plain (fun _ => true) s1 = Ret (true, s2) /\ exists t, @is_tip ptr s2 t /\ @most_work ptr (sample_work Plain) s2 t.
Proof.
  destruct (@invalidated_block_abandoned ptr (sample_connect (fun _ => true)) (sample_laws _) (sample_work Plain) (fun _ => 5) (fun _ => false) (sample_node Plain) 5%positive
    (with_status (sample_linked 5 3 4 2) 11) 4%positive (sample_consistent Plain _ eq_refl eq_refl eq_refl) eq_refl eq_refl) as (ok & s1 & E & H).
  assert (ok = true) as -> by (pose proof (f_equal (fun r => match r with Ret (b, _) => Some b | _ => None end) E) as E2; destruct ok; [done | vm_compute in E2; discriminate E2]).
  destruct (H eq_refl) as (_ & _ & _ & _ & ok & s2 & E2 & H2). exists s1, s2. split; [exact E|].
  assert (ok = true) as ->.
  { destruct ok; [done|]. pose proof (f_equal (fun r => match r with Ret (_, s) => Some (match sample_activate Plain (fun _ => true) s with Ret (b, _) => b | _ => false end) | _ => None end) E) as E3.
    cbv beta iota in E3. unfold sample_activate in E3. rewrite E2 in E3. vm_compute in E3. discriminate E3. }
  split; [exact E2|]. destruct (H2 eq_refl) as (_ & t & Ht & _ & Hb). by exists t.
Defined.

Lemma reconsidered_block_usable_witness : exists s', @ReconsiderBlock ptr (sample_work Marked) (sample_node Marked) 5%positive = Ret s' /\ @usable ptr s' 5%positive.
Proof.
  destruct (@reconsidered_block_usable ptr (sample_connect (fun _ => true)) (sample_laws _) (sample_work Marked) (sample_node Marked) 5%positive (sample_consistent Marked _ eq_refl eq_refl eq_refl))
    as (s' & E & _ & _ & Hu & _).
  - by eexists.
  - discriminate.
  - done.
  - intros p b q Hb Hq. cbn [blocks sample_node] in Hb. destruct (sample_lookup Marked p b Hb) as [->|[->|[->|[->| ->]]]]; vm_compute in Hb; injection Hb as <-; (discriminate Hq || (injection Hq as <-; reflexivity)).
  - exists s'. split; [exact E | exact Hu].
Defined.

(** The ancestors of a reconsidered block do not become candidates: when the block
    itself was not received, an ancestor whose mark was cleared is usable and has more
    work than the tip, and is not activated. *)
Example reconsidered_ancestor_not_activated : exists s1 s2, @ReconsiderBlock ptr (sample_work HeaderOnly) (sample_node HeaderOnly) 5%positive = Ret s1 /\
  sample_activate HeaderOnly (fun _ => true) s1 = Ret (true, s2) /\ chain_Tip (chainActive s2) = Some 3%positive /\
  @unfailed ptr s2 4%positive /\ chain_tx s2 4%positive = 3 /\ @work_less ptr (sample_work HeaderOnly) s2 3%positive 4%positive = true.
Proof. eexists _, _. split; [vm_compute; reflexivity|]. split; [vm_compute; reflexivity|]. split; [reflexivity|]. split; [eexists; split; reflexivity|]. split; reflexivity. Qed.
