(* ===== verification/BlockReceipt.v ===== *)
(** * Received blocks are linked

    Blocks arrive in any order.  [ReceivedBlockTransactions] keeps the count of the
    transactions of a branch nonzero exactly when all its blocks were received, and
    makes the new branches candidates for the best chain. *)

From Stdlib Require Import ZArith Lia Bool String.
From stdpp Require Import base option numbers list gmap.
From S2P Require Import Prelude BaseUInt UInt256 BlockIndex Chain Lottery Validation BlockChecks BestChain BestChainProps ChainSelection.

Open Scope Z_scope.
Open Scope outcome_scope.

Section BlockReceipt.
Context {Coins : Type} {CS : ChainState Coins} {Laws : ChainStateLaws Coins}.
Variable nChainWork : ptr -> Z.
(** The most transactions of a block and the greatest height; the counts fit. *)
Variables most tallest : Z.
Hypothesis counts_fit : (tallest + 1) * most < 2 ^ 32.

Abbreviation Node := (node Coins).
Abbreviation less := (work_less (Coins := Coins) nChainWork).

Definition count (s : Node) (p : ptr) : Z := default 0 (nTx s !! p).

(** What is waited for: the blocks of [mapBlocksUnlinked], and those of the queue. *)
Record waiting_ok (queue : list ptr) (s : Node) : Prop := mkWaiting {
  wo_index : index_ok (blocks s);
  wo_counts : forall p b, blocks s !! p = Some b -> 0 <= count s p <= most /\ nHeight b <= tallest /\ 0 <= chain_tx s p <= (nHeight b + 1) * most;
  wo_linked : forall p b, blocks s !! p = Some b -> chain_tx s p <> 0 -> received b /\ count s p <> 0 /\ match pprev b with Some q => chain_tx s q <> 0 | None => True end;
  wo_queue : forall p, p ∈ queue -> exists b, blocks s !! p = Some b /\ received b /\ count s p <> 0 /\ chain_tx s p = 0 /\ match pprev b with Some q => chain_tx s q <> 0 | None => True end;
  wo_unlinked : forall q p, (q, p) ∈ mapBlocksUnlinked s -> exists b, blocks s !! p = Some b /\ pprev b = Some q /\ received b /\ count s p <> 0 /\ chain_tx s p = 0;
  wo_once : NoDup (queue ++ List.map snd (mapBlocksUnlinked s));
  wo_complete : forall p b, blocks s !! p = Some b -> count s p <> 0 -> chain_tx s p = 0 -> p ∈ queue \/ exists q, pprev b = Some q /\ chain_tx s q = 0 /\ (q, p) ∈ mapBlocksUnlinked s
}.

(** ** One block is linked *)

Definition linked (s : Node) (p : ptr) (parent : Z) : Node :=
  let s := with_counts s (nTx s) (<[p := u32 (parent + default 0 (nTx s !! p))]> (nChainTx s)) (<[p := nBlockSequenceId s]> (nSequenceId s)) (u32 (nBlockSequenceId s + 1)) in
  let s := match chain_Tip (chainActive s) with
           | None => insert_candidate s p
           | Some tip => if negb (work_less nChainWork s p tip) then insert_candidate s p else s
           end in
  with_unlinked s (List.filter (fun e => negb (bool_decide (fst e = p))) (mapBlocksUnlinked s)).
Definition freed (s : Node) (p : ptr) : list ptr := List.map snd (List.filter (fun e => bool_decide (fst e = p)) (mapBlocksUnlinked s)).

Lemma linked_fields (s : Node) p c : let s' := linked s p c in
  blocks s' = blocks s /\ nTx s' = nTx s /\ chainActive s' = chainActive s /\ pcoinsTip s' = pcoinsTip s /\ pindexBestForkTip s' = pindexBestForkTip s /\
  nChainTx s' = <[p := u32 (c + count s p)]> (nChainTx s) /\ nSequenceId s' = <[p := nBlockSequenceId s]> (nSequenceId s) /\
  mapBlocksUnlinked s' = List.filter (fun e => negb (bool_decide (fst e = p))) (mapBlocksUnlinked s) /\
  setBlockIndexCandidates s' = match chain_Tip (chainActive s) with
                               | Some t => if less s' p t then setBlockIndexCandidates s else setBlockIndexCandidates s ∪ {[p]}
                               | None => setBlockIndexCandidates s ∪ {[p]} end.
Proof.
  unfold linked. cbn [with_counts chainActive]. destruct (chain_Tip (chainActive s)) as [t|]; [|by split_and!].
  destruct (less _ p t) eqn:E; cbn [negb].
  - split_and!; try done. cbn [with_unlinked setBlockIndexCandidates with_counts]. revert E. unfold work_less, sequence. cbn [with_counts with_unlinked nSequenceId]. by intros ->.
  - split_and!; try done. cbn [with_unlinked setBlockIndexCandidates with_counts insert_candidate with_candidates]. revert E. unfold work_less, sequence.
    cbn [with_counts with_unlinked insert_candidate with_candidates nSequenceId]. by intros ->.
Qed.

Lemma freed_iff (s : Node) p y : y ∈ freed s p <-> (p, y) ∈ mapBlocksUnlinked s.
Proof.
  unfold freed. rewrite list_elem_of_fmap. setoid_rewrite list_elem_of_In. setoid_rewrite List.filter_In. split.
  - intros ([q z] & -> & Hin & Hq). apply bool_decide_eq_true in Hq as Hq. cbn in Hq. by subst q.
  - intros Hin. exists (p, y). split; [done|]. split; [done|]. by apply bool_decide_eq_true.
Qed.

Lemma kept_iff (l : list (ptr * ptr)) p e : e ∈ List.filter (fun e => negb (bool_decide (fst e = p))) l <-> e ∈ l /\ fst e <> p.
Proof. rewrite !list_elem_of_In, List.filter_In. rewrite negb_true_iff, bool_decide_eq_false. done. Qed.

(** The freed blocks join the queue, and no block waits twice. *)
Lemma split_once (l : list (ptr * ptr)) p (queue : list ptr) : NoDup (queue ++ List.map snd l) ->
  NoDup ((queue ++ List.map snd (List.filter (fun e => bool_decide (fst e = p)) l)) ++ List.map snd (List.filter (fun e => negb (bool_decide (fst e = p))) l)).
Proof.
  assert (List.map snd (List.filter (fun e => bool_decide (fst e = p)) l) ++ List.map snd (List.filter (fun e => negb (bool_decide (fst e = p))) l) ≡ₚ List.map snd l) as Hp.
  { induction l as [|[q y] l IH]; [done|]. cbn [List.filter fst]. case_bool_decide; cbn [negb List.map snd app]; [by rewrite IH|]. rewrite <- IH. by rewrite Permutation_middle. }
  intros Hn. rewrite <- app_assoc, Hp. done.
Qed.

Definition parent_count (s : Node) (b : CBlockIndex) : Z := match pprev b with Some q => chain_tx s q | None => 0 end.

Lemma chain_tx_insert (s s' : Node) p v q : nChainTx s' = <[p := v]> (nChainTx s) -> chain_tx s' q = if decide (q = p) then v else chain_tx s q.
Proof. intros E. unfold chain_tx. rewrite E. destruct (decide (q = p)) as [->|]; [by rewrite lookup_insert_eq | by rewrite lookup_insert_ne]. Qed.

(** The sum of a block and its parent's branch does not wrap. *)
Lemma linked_count queue (s : Node) p b : waiting_ok queue s -> blocks s !! p = Some b -> count s p <> 0 ->
  u32 (parent_count s b + count s p) = parent_count s b + count s p /\ 0 < parent_count s b + count s p <= (nHeight b + 1) * most.
Proof.
  intros Hw Hb Hn. destruct (wo_counts _ s Hw p b Hb) as (Hc & Hh & _). pose proof (li_height _ _ _ (wo_index _ s Hw p b Hb)) as Hh0.
  assert (0 <= parent_count s b <= nHeight b * most) as Hp.
  { unfold parent_count. destruct (wo_index _ s Hw p b Hb) as [_ L2 _]. destruct (pprev b) as [q|]; [|nia]. destruct L2 as (c & Hq & Eh).
    destruct (wo_counts _ s Hw q c Hq) as (_ & _ & Hcq). rewrite Eh in Hcq. by replace (nHeight b - 1 + 1) with (nHeight b) in Hcq by lia. }
  split; [|lia]. unfold u32. apply Z.mod_small. nia.
Qed.

Lemma link_step queue (s : Node) p b : waiting_ok (p :: queue) s -> blocks s !! p = Some b -> waiting_ok (queue ++ freed s p) (linked s p (parent_count s b)).
Proof.
  intros Hw Hb. destruct (wo_queue _ s Hw p ltac:(by left)) as (b' & Hb' & Hrec & Hn & Hz & Hpar). assert (b' = b) as -> by congruence. clear Hb'.
  destruct (linked_count _ s p b Hw Hb Hn) as [Ew Hrange]. destruct (linked_fields s p (parent_count s b)) as (Eb & Ent & Ech & Eco & Efk & Ect & Eseq & Eun & Ecand).
  set (s' := linked s p (parent_count s b)) in *. rewrite Ew in Ect. assert (forall q, chain_tx s' q = if decide (q = p) then parent_count s b + count s p else chain_tx s q) as Etx by (intros q; by apply chain_tx_insert).
  assert (forall q, count s' q = count s q) as Ecnt by (intros q; unfold count; by rewrite Ent).
  assert (forall q, chain_tx s q <> 0 -> chain_tx s' q <> 0) as Hkeep by (intros q Hq; rewrite Etx; destruct (decide (q = p)); [lia | done]).
  pose proof (wo_once _ s Hw) as Honce. split.
  - rewrite Eb. apply (wo_index _ s Hw).
  - intros q c Hq. rewrite Eb in Hq. rewrite Ecnt, Etx. destruct (wo_counts _ s Hw q c Hq) as (H1 & H2 & H3). destruct (decide (q = p)) as [->|]; [|done]. assert (c = b) as -> by congruence. lia.
  - intros q c Hq Ht. rewrite Eb in Hq. rewrite Ecnt. destruct (decide (q = p)) as [->|Hne].
    + assert (c = b) as -> by congruence. split; [done|]. split; [done|]. destruct (pprev b); [by apply Hkeep | done].
    + rewrite Etx, decide_False in Ht by done. destruct (wo_linked _ s Hw q c Hq Ht) as (H1 & H2 & H3). split; [done|]. split; [done|]. destruct (pprev c); [by apply Hkeep | done].
  - intros y [Hy|Hy]%elem_of_app.
    + destruct (wo_queue _ s Hw y ltac:(by right)) as (c & Hc & H1 & H2 & H3 & H4). exists c. rewrite Eb, Ecnt, Etx, decide_False.
      * split_and!; try done. destruct (pprev c); [by apply Hkeep | done].
      * intros ->. cbn in Honce. apply NoDup_cons in Honce as [Hnot _]. apply Hnot, elem_of_app. by left.
    + apply freed_iff in Hy. destruct (wo_unlinked _ s Hw p y Hy) as (c & Hc & H1 & H2 & H3 & H4). exists c. rewrite Eb, Ecnt, Etx, decide_False.
      * split_and!; try done. rewrite H1, Etx, decide_True by done. lia.
      * intros ->. cbn in Honce. apply NoDup_cons in Honce as [Hnot _]. apply Hnot, elem_of_app. right. apply list_elem_of_fmap. by exists (p, p).
  - intros q y Hy. rewrite Eun in Hy. apply kept_iff in Hy as [Hy Hq]. destruct (wo_unlinked _ s Hw q y Hy) as (c & Hc & H1 & H2 & H3 & H4). exists c. rewrite Eb, Ecnt, Etx, decide_False; [done|].
    intros ->. cbn in Honce. apply NoDup_cons in Honce as [Hnot _]. apply Hnot, elem_of_app. right. apply list_elem_of_fmap. by exists (q, p).
  - rewrite Eun. apply split_once. cbn in Honce. by apply NoDup_cons in Honce as [_ ?].
  - intros y c Hy Hcn Hct. rewrite Eb in Hy. rewrite Ecnt in Hcn. rewrite Etx in Hct. destruct (decide (y = p)) as [->|Hne]; [lia|].
    destruct (wo_complete _ s Hw y c Hy Hcn Hct) as [Hin|(q & H1 & H2 & H3)].
    + apply elem_of_cons in Hin as [|Hin]; [done|]. left. apply elem_of_app. by left.
    + destruct (decide (q = p)) as [->|Hqp]; [left; apply elem_of_app; right; by apply freed_iff|]. right. exists q. split; [done|]. rewrite Etx, decide_False by done. split; [done|].
      rewrite Eun. by apply kept_iff.
Qed.

(** ** All of them *)

(** The candidates up to a block [r], not before the tip. *)
Record candidates_ok (t r : ptr) (s : Node) : Prop := mkCandidates {
  cd_tip : chain_Tip (chainActive s) = Some t;
  cd_linked : forall p, p ∈ setBlockIndexCandidates s -> is_Some (blocks s !! p) /\ chain_tx s p <> 0;
  cd_least : less s r t = false;
  cd_tips : chain_tx s t <> 0 /\ chain_tx s r <> 0;
  cd_all : forall p, unfailed s p -> chain_tx s p <> 0 -> less s p r = false -> p ∈ setBlockIndexCandidates s
}.

Lemma less_insert (s s' : Node) p v a b : nSequenceId s' = <[p := v]> (nSequenceId s) -> a <> p -> b <> p -> less s' a b = less s a b.
Proof. intros E Ha Hb. unfold work_less, sequence. by rewrite E, !lookup_insert_ne. Qed.

Lemma candidates_step t r (s : Node) p b : candidates_ok t r s -> blocks s !! p = Some b -> chain_tx s p = 0 -> u32 (parent_count s b + count s p) <> 0 ->
  candidates_ok t r (linked s p (parent_count s b)).
Proof.
  intros [H1 H2 H3 [H4 H5] H6] Hb Hz Hu. destruct (linked_fields s p (parent_count s b)) as (Eb & _ & Ech & _ & _ & Ect & Eseq & _ & Ecand). rewrite H1 in Ecand.
  set (s' := linked s p (parent_count s b)) in *. assert (p <> t /\ p <> r) as [Hpt Hpr] by (split; intros ->; congruence).
  assert (forall q, chain_tx s' q = if decide (q = p) then u32 (parent_count s b + count s p) else chain_tx s q) as Etx by (intros q; by apply chain_tx_insert).
  assert (forall q, chain_tx s q <> 0 -> chain_tx s' q <> 0) as Hkeep by (intros q Hq; rewrite Etx; by destruct (decide (q = p))).
  assert (less s' r t = false) as Hrt by (rewrite (less_insert s s' p _ r t Eseq) by done; done).
  split; [by rewrite Ech | | done | by split; apply Hkeep |].
  - intros q Hq. rewrite Eb. assert (q ∈ setBlockIndexCandidates s \/ q = p) as [Hq'|Hqp]; [rewrite Ecand in Hq; destruct (less s' p t); [by left | set_solver] | |].
    + destruct (H2 q Hq') as [A B]. split; [done | by apply Hkeep].
    + rewrite Hqp. split; [by exists b|]. by rewrite Etx, decide_True.
  - intros q (c & Hc & Hfc) Hq Hl. rewrite Eb in Hc. rewrite Ecand. destruct (decide (q = p)) as [->|Hne].
    + rewrite (not_less_trans nChainWork s' p r t Hl Hrt). set_solver.
    + rewrite Etx, decide_False in Hq by done. rewrite (less_insert s s' p _ q r Eseq) in Hl by done.
      assert (q ∈ setBlockIndexCandidates s) as Hin by (apply H6; [by exists c | done | done]). destruct (less s' p t); [done | set_solver].
Qed.

(** What linking leaves alone. *)
Definition same_but_links (s s' : Node) : Prop :=
  blocks s' = blocks s /\ nTx s' = nTx s /\ chainActive s' = chainActive s /\ pcoinsTip s' = pcoinsTip s /\ pindexBestForkTip s' = pindexBestForkTip s /\
  (forall q, chain_tx s q <> 0 -> chain_tx s' q <> 0) /\ setBlockIndexCandidates s ⊆ setBlockIndexCandidates s'.

Lemma link_blocks_spec t r fuel : forall queue (s : Node), waiting_ok queue s -> candidates_ok t r s -> (length queue + length (mapBlocksUnlinked s) <= fuel)%nat ->
  exists s', link_blocks nChainWork fuel queue s = Ret s' /\ waiting_ok [] s' /\ candidates_ok t r s' /\ same_but_links s s'.
Proof.
  induction fuel as [|fuel IH]; intros [|p queue] s Hw Hc Hf; try (exists s; done); [cbn in Hf; lia|].
  destruct (wo_queue _ s Hw p ltac:(by left)) as (b & Hb & _ & Hn & Hz & _). cbn [link_blocks]. unfold deref. cbn [oaccess obind]. rewrite Hb. cbn [oaccess obind].
  destruct (linked_count _ s p b Hw Hb Hn) as [Eu Hr]. pose proof (linked_fields s p (parent_count s b)) as (Eb & Ent & Ech & Eco & Efk & Ect & Eseq & Eun & Ecand).
  destruct (IH (queue ++ freed s p) (linked s p (parent_count s b))) as (s' & E & Hw' & Hc' & (A1 & A2 & A3 & A4 & A5 & A6 & A7)).
  - by apply link_step.
  - apply candidates_step; [done | done | done | rewrite Eu; lia].
  - rewrite Eun. cbn in Hf. rewrite length_app. unfold freed. rewrite length_map.
    assert (length (List.filter (fun e : ptr * ptr => bool_decide (fst e = p)) (mapBlocksUnlinked s)) + length (List.filter (fun e : ptr * ptr => negb (bool_decide (fst e = p))) (mapBlocksUnlinked s)) = length (mapBlocksUnlinked s))%nat; [|lia].
    apply List.filter_length.
  - exists s'. split; [|split; [done|]; split; [done|]].
    + rewrite <- E. unfold linked, freed, parent_count. cbn [with_counts chainActive]. destruct (chain_Tip (chainActive s)); [destruct (negb _)|]; reflexivity.
    + split_and!; try congruence; [|etransitivity; [|exact A7]; rewrite Ecand; destruct (chain_Tip (chainActive s)); [destruct (less _ _ _)|]; set_solver].
      intros q Hq. apply A6. rewrite (chain_tx_insert s _ p _ q Ect). destruct (decide (q = p)); [rewrite Eu; lia | done].
Qed.

(** ** [ReceivedBlockTransactions] *)

(** The entry of the block is updated, its counts are set. *)
Definition noted (s : Node) (p : ptr) (b : CBlockIndex) (n : Z) : Node :=
  with_counts (with_blocks s (<[p := b]> (blocks s))) (<[p := n]> (nTx s)) (<[p := 0]> (nChainTx s)) (nSequenceId s) (nBlockSequenceId s).

Lemma noted_entry b (pos : bool) : failed b = false -> 0 <= nStatus b ->
  let b0 := if pos then SetProofOfStake b else b in
  exists b' c, RaiseValidity (with_status b0 (Z.lor (nStatus b0) BLOCK_HAVE_DATA)) BLOCK_VALID_TRANSACTIONS = Ret (b', c) /\ links b' = links b /\ failed b' = false /\ received b'.
Proof.
  intros Hf Hn b0. assert (nStatus b0 = nStatus b /\ links b0 = links b) as [E1 E2] by (by unfold b0; destruct pos). rewrite E1.
  set (b1 := with_status b0 (Z.lor (nStatus b) BLOCK_HAVE_DATA)). destruct (raise_status b1 BLOCK_VALID_TRANSACTIONS) as (b' & c & E & L & F & _ & H & D); [by vm_compute|].
  assert (failed b1 = false) as Hf1.
  { apply failed_false. cbn. rewrite Z.land_lor_distr_l. change (Z.land BLOCK_HAVE_DATA BLOCK_FAILED_MASK) with 0. rewrite Z.lor_0_r. by apply failed_false. }
  exists b', c. split; [exact E|]. split; [by rewrite L, <- E2|]. split; [by rewrite F|]. split.
  - rewrite D. unfold has_data. apply nz_true. cbn. rewrite Z.land_lor_distr_l. by apply lor_nonzero.
  - apply H; [done|]. cbn. apply Z.lor_nonneg. done.
Qed.

Section Noted.
Variables (s : Node) (p : ptr) (b b' : CBlockIndex) (n : Z).
Hypotheses (Hw : waiting_ok [] s) (Hb : blocks s !! p = Some b) (Hl : links b' = links b) (Hf : failed b = false) (Hf' : failed b' = false) (Hr : received b') (H0 : count s p = 0) (Hn : 0 < n <= most).
Let s1 := noted s p b' n.

Lemma noted_zero : chain_tx s p = 0.
Proof. destruct (Z.eq_dec (chain_tx s p) 0) as [|Hne]; [done|]. by destruct (wo_linked _ s Hw p b Hb Hne) as (_ & Hc & _). Qed.

Lemma noted_tree : same_tree (blocks s) (blocks s1).
Proof. by apply (same_tree_insert _ p b). Qed.

Lemma noted_chain_tx q : chain_tx s1 q = chain_tx s q.
Proof. rewrite (chain_tx_insert s s1 p 0 q eq_refl). destruct (decide (q = p)) as [->|]; [by rewrite noted_zero | done]. Qed.

Lemma noted_count q : count s1 q = if decide (q = p) then n else count s q.
Proof. unfold count. cbn. destruct (decide (q = p)) as [->|]; [by rewrite lookup_insert_eq | by rewrite lookup_insert_ne]. Qed.

Lemma noted_clean q : unfailed s1 q <-> unfailed s q.
Proof.
  unfold unfailed. cbn. destruct (decide (q = p)) as [->|]; [|by rewrite lookup_insert_ne]. rewrite lookup_insert_eq. split; intros _; [by exists b | by exists b'].
Qed.

Lemma noted_lookup q c : blocks s1 !! q = Some c -> q = p /\ c = b' \/ q <> p /\ blocks s !! q = Some c.
Proof. cbn. rewrite lookup_insert_Some. intuition. Qed.

Lemma noted_waiting queue u : (queue = [p] /\ u = [] /\ (forall q, pprev b = Some q -> chain_tx s q <> 0) \/ exists q, queue = [] /\ u = [(q, p)] /\ pprev b = Some q /\ chain_tx s q = 0) ->
  waiting_ok queue (with_unlinked s1 (mapBlocksUnlinked s ++ u)).
Proof.
  intros Hcase. pose proof Hl as Hl'. injection Hl' as E1 E2 E3. set (s2 := with_unlinked s1 _). assert (forall q, chain_tx s2 q = chain_tx s q) as Ectx by (intros q; exact (noted_chain_tx q)).
  assert (forall q, count s2 q = if decide (q = p) then n else count s q) as Ecnt by exact noted_count.
  assert (forall q, count s q <> 0 -> count s2 q <> 0) as Hcnt by (intros q Hq; rewrite Ecnt; destruct (decide (q = p)); [lia | done]).
  assert (p ∉ List.map snd (mapBlocksUnlinked s)) as Hnew.
  { intros H. apply list_elem_of_fmap in H as ([q y] & -> & H). destruct (wo_unlinked _ s Hw q _ H) as (c & _ & _ & _ & Hc & _). done. }
  split.
  - apply (index_ok_same (blocks s)); [apply noted_tree | apply (wo_index _ s Hw)].
  - intros q c Hq. rewrite Ectx, Ecnt. destruct (noted_lookup q c Hq) as [[-> ->]|[Hne Hq']]; [|rewrite decide_False by done; by apply (wo_counts _ s Hw)].
    rewrite decide_True by done. destruct (wo_counts _ s Hw p b Hb) as (_ & H2 & H3). rewrite E3. split; [lia | done].
  - intros q c Hq Ht. rewrite Ectx in Ht. destruct (noted_lookup q c Hq) as [[-> ->]|[Hne Hq']]; [by rewrite noted_zero in Ht|].
    destruct (wo_linked _ s Hw q c Hq' Ht) as (H1 & H2 & H3). split; [done|]. split; [by apply Hcnt|]. destruct (pprev c); [by rewrite Ectx | done].
  - intros q Hq. destruct Hcase as [(-> & -> & Hpar)|(r & -> & _)]; [|by apply elem_of_nil in Hq]. apply list_elem_of_singleton in Hq as ->. exists b'. cbn [blocks s2 with_unlinked s1 noted with_counts with_blocks]. rewrite lookup_insert_eq.
    split; [done|]. split; [done|]. rewrite Ecnt, decide_True, Ectx by done. split; [lia|]. split; [apply noted_zero|]. rewrite E1. destruct (pprev b); [rewrite Ectx; by apply Hpar | done].
  - intros q y Hy. cbn [s2 with_unlinked mapBlocksUnlinked] in Hy. apply elem_of_app in Hy as [Hy|Hy].
    + destruct (wo_unlinked _ s Hw q y Hy) as (c & Hc & H1 & H2 & H3 & H4). assert (y <> p) as Hne by (intros ->; done). exists c. rewrite Ectx. split; [cbn; by rewrite lookup_insert_ne|]. split_and!; auto.
    + destruct Hcase as [(_ & -> & _)|(r & _ & -> & Hp & Hz)]; [by apply elem_of_nil in Hy|]. apply list_elem_of_singleton in Hy. injection Hy as -> ->. exists b'. cbn [blocks s2 with_unlinked s1 noted with_counts with_blocks].
      rewrite lookup_insert_eq, Ectx, Ecnt, decide_True by done. split_and!; (done || lia || congruence || apply noted_zero).
  - cbn [s2 with_unlinked mapBlocksUnlinked]. rewrite List.map_app, app_assoc. pose proof (wo_once _ s Hw) as Ho. cbn in Ho. destruct Hcase as [(-> & -> & _)|(r & -> & -> & _)]; cbn.
    + rewrite app_nil_r. by apply NoDup_cons.
    + apply NoDup_app. split; [done|]. split; [|apply NoDup_singleton]. intros x Hx Hx'. apply list_elem_of_singleton in Hx' as ->. done.
  - intros y c Hy Hc Hz. rewrite Ectx in Hz. rewrite Ecnt in Hc. cbn [s2 with_unlinked mapBlocksUnlinked]. destruct (noted_lookup y c Hy) as [[-> ->]|[Hne Hy']].
    + destruct Hcase as [(-> & _)|(r & -> & -> & Hp & Hpz)]; [left; by left | right]. exists r. split; [congruence|]. rewrite Ectx. split; [done|]. apply elem_of_app. right. by left.
    + rewrite decide_False in Hc by done. destruct (wo_complete _ s Hw y c Hy' Hc Hz) as [H|(q & H1 & H2 & H3)]; [by apply elem_of_nil in H|]. right. exists q. rewrite Ectx. split; [done|]. split; [done|].
      apply elem_of_app. by left.
Qed.
End Noted.

Lemma received_consistent t r (s s1 s' : Node) : consistent nChainWork s -> is_tip s t -> usable s t -> good s t -> holds t (pcoinsTip s) -> usable s r -> good s r ->
  same_tree (blocks s) (blocks s1) -> (forall q, unfailed s1 q <-> unfailed s q) -> (forall q, chain_tx s1 q = chain_tx s q) -> chainActive s1 = chainActive s -> pcoinsTip s1 = pcoinsTip s ->
  pindexBestForkTip s1 = pindexBestForkTip s -> waiting_ok [] s' -> candidates_ok t r s' -> same_but_links s1 s' -> consistent nChainWork s'.
Proof.
  intros Hc Ht Htu Htg Hth Hru Hrg Htree Hcl Etx Ech Eco Efk Hw Hcd (A1 & A2 & A3 & A4 & A5 & A6 & A7).
  assert (same_tree (blocks s) (blocks s')) as Htree' by (by rewrite A1).
  assert (forall q, unfailed s' q <-> unfailed s q) as Hcl' by (intros q; rewrite <- Hcl; unfold unfailed; by rewrite A1).
  assert (forall q, usable s q -> usable s' q) as Hus.
  { intros q ([c Hq] & Hqt & Hqc). split; [destruct (same_tree_lookup _ _ q c Htree' Hq) as (c' & Hq' & _); by exists c'|]. split; [apply A6; by rewrite Etx|]. intros x Hx. apply Hcl', Hqc.
    by apply (same_tree_path _ _ _ _ Htree'). }
  assert (forall q, good s q -> good s' q) as Hgo by (intros q Hq x Hx; apply Hq; by apply (same_tree_path _ _ _ _ Htree')).
  apply (framed_consistent nChainWork s' t); [| unfold is_tip; rewrite A3, Ech; by apply (chain_for_same (blocks s)) | by apply Hus | by apply Hgo | by rewrite A4, Eco |].
  - split.
    + apply (wo_index _ s' Hw).
    + intros p b Hb Hp. destruct (wo_linked _ s' Hw p b Hb Hp) as (H1 & _ & H2). done.
    + apply (cd_linked t r s' Hcd).
    + rewrite A5, Efk. pose proof (co_forktip _ s Hc) as Hk. destruct (pindexBestForkTip s) as [y|]; [|done]. destruct Hk as [d Hk]. destruct (same_tree_lookup _ _ y d Htree' Hk) as (d' & Hd' & _). by exists d'.
    + intros p b q Hb Hq. destruct (same_tree_lookup _ _ p b (symmetry Htree') Hb) as (b0 & Hb0 & E & _). rewrite <- E in Hq. exact (co_child _ s Hc p b0 q Hb0 Hq).
    + destruct (co_genesis _ s Hc) as (g & Hg). exists g. intros p Hp. apply Hg. exact (at_height_same _ _ _ _ (symmetry Htree') Hp).
  - exists r. split; [by apply Hus|]. split; [by apply Hgo|]. apply (cd_all t r s' Hcd).
Qed.

Lemma ReceivedBlockTransactions_spec (s : Node) p b pos n : consistent nChainWork s -> waiting_ok [] s -> blocks s !! p = Some b -> failed b = false -> 0 <= nStatus b -> count s p = 0 -> 0 < n <= most ->
  (forall q a, pprev b = Some q -> blocks s !! q = Some a -> index_IsValid a BLOCK_VALID_TREE = Ret true) ->
  exists s', ReceivedBlockTransactions nChainWork s p pos n = Ret s' /\ consistent nChainWork s' /\ waiting_ok [] s' /\ same_tree (blocks s) (blocks s') /\ chainActive s' = chainActive s /\
    (forall q, count s' q = if decide (q = p) then n else count s q) /\ (forall q, unfailed s' q <-> unfailed s q).
Proof.
  intros Hc Hw Hb Hf Hst H0 Hn Hval. destruct (tip_of nChainWork s Hc) as (t & Et & Ht & Htu & Htg & Hth). destruct (co_reserve _ s Hc) as (r0 & Hr0u & Hr0g & Hr0).
  destruct (greatest_of nChainWork s r0 t t) as (r & Hr & L1 & L2 & _).
  assert (usable s r /\ good s r) as [Hru Hrg] by (apply elem_of_cons in Hr as [->|Hr]; [done|]; apply elem_of_cons in Hr as [->|Hr]; [done|]; by apply list_elem_of_singleton in Hr as ->).
  destruct (noted_entry b pos Hf Hst) as (b' & ch & Er & Hl & Hf' & Hrec). unfold ReceivedBlockTransactions, deref. cbn [oaccess obind]. rewrite Hb. cbn [oaccess obind]. rewrite Er. cbn [obind]. fold (noted s p b' n).
  set (s1 := noted s p b' n). pose proof (noted_tree s p b b' n Hb Hl) as Htree. fold s1 in Htree. pose proof (noted_chain_tx s p b b' n Hw Hb H0) as Etx. fold s1 in Etx.
  pose proof (noted_clean s p b b' n Hb Hf Hf') as Hcl. fold s1 in Hcl. pose proof (noted_count s p b' n) as Ecnt. fold s1 in Ecnt.
  assert (candidates_ok t r s1) as Hcd.
  { split; [done | | done | rewrite !Etx; split; [apply Htu | apply Hru] |].
    - intros q Hq. destruct (co_candidates _ s Hc q Hq) as [[c Hqc] Htx]. rewrite Etx. split; [|done]. destruct (same_tree_lookup _ _ q c Htree Hqc) as (c' & Hc' & _). by exists c'.
    - intros q Hq Hqt Hql. rewrite Etx in Hqt. apply Hcl in Hq. apply (Hr0 q Hq Hqt). by apply (not_less_trans nChainWork s q r r0). }
  pose proof (noted_waiting s p b b' n Hw Hb Hl Hrec H0 Hn) as Hwait. fold s1 in Hwait.
  assert (forall s', waiting_ok [] s' -> candidates_ok t r s' -> same_but_links s1 s' -> consistent nChainWork s' /\ waiting_ok [] s' /\ same_tree (blocks s) (blocks s') /\ chainActive s' = chainActive s /\
    (forall q, count s' q = if decide (q = p) then n else count s q) /\ (forall q, unfailed s' q <-> unfailed s q)) as Hend.
  { intros s' Hw' Hcd' Hsame. split; [by apply (received_consistent t r s s1 s')|]. destruct Hsame as (A1 & A2 & A3 & _). split; [done|]. split; [by rewrite A1|]. split; [by rewrite A3|].
    split; [intros q; unfold count; rewrite A2; apply Ecnt | intros q; rewrite <- Hcl; unfold unfailed; by rewrite A1]. }
  assert ((forall q, pprev b = Some q -> chain_tx s q <> 0) -> exists s', link_blocks nChainWork (S (length (mapBlocksUnlinked s1))) [p] s1 = Ret s' /\ waiting_ok [] s' /\ candidates_ok t r s' /\ same_but_links s1 s') as Hlink.
  { intros Hpar. apply link_blocks_spec; [|done | cbn; lia]. assert (s1 = with_unlinked s1 (mapBlocksUnlinked s ++ [])) as -> by (unfold s1, noted, with_unlinked; cbn; by rewrite app_nil_r).
    apply Hwait. left. done. }
  assert (pprev b' = pprev b) as Epb by (by injection Hl). rewrite Epb. destruct (pprev b) as [q|] eqn:Eq.
  - rewrite Etx. destruct (Z.eqb_spec (chain_tx s q) 0) as [Ez|Ez]; cbn [negb].
    + pose proof (parent_known _ (co_index _ s Hc) p b Hb) as Hk. rewrite Eq in Hk. destruct Hk as [a Ha]. assert (q <> p) as Hqp.
      { intros ->. destruct (co_index _ s Hc p b Hb) as [_ L _]. rewrite Eq in L. destruct L as (c & Hc' & E). rewrite Hb in Hc'. injection Hc' as <-. lia. }
      assert (blocks s1 !! q = Some a) as -> by (cbn; by rewrite lookup_insert_ne). cbn [oaccess obind]. rewrite (Hval q a eq_refl Ha). cbn [obind]. eexists. split; [reflexivity|]. apply Hend.
      * apply Hwait. right. by exists q.
      * by destruct Hcd.
      * by split_and!.
    + destruct Hlink as (s' & -> & H1 & H2 & H3); [by intros y [= <-]|]. exists s'. split; [done | by apply Hend].
  - destruct Hlink as (s' & -> & H1 & H2 & H3); [done|]. exists s'. split; [done | by apply Hend].
Qed.

(** The counts tell whether a branch is complete. *)
Lemma branch_counted (s : Node) p : consistent nChainWork s -> waiting_ok [] s -> is_Some (blocks s !! p) -> (chain_tx s p <> 0 <-> forall q, on_path (blocks s) p q -> count s q <> 0).
Proof.
  intros Hc Hw Hp. pose proof (co_index _ s Hc) as Hok. split.
  - intros Ht q Hq. destruct (on_path_known _ Hok p q Hq) as [c Hqc]. pose proof (linked_path nChainWork s p q Hc Hp Ht Hq) as Hqt. by destruct (wo_linked _ s Hw q c Hqc Hqt) as (_ & ? & _).
  - destruct Hp as [b Hb]. remember (Z.to_nat (nHeight b)) as m eqn:Em. revert p b Hb Em. induction m as [|m IH]; intros p b Hb Em Hall Hz; pose proof (li_height _ _ _ (Hok p b Hb));
      (destruct (wo_complete _ s Hw p b Hb) as [H1|(q & H1 & H2 & H3)]; [apply Hall; by apply (on_path_self _ Hok p b) | done | by apply elem_of_nil in H1|]).
    all: destruct (Hok p b Hb) as [_ L _]; rewrite H1 in L; destruct L as (c & Hqc & E); pose proof (li_height _ _ _ (Hok q c Hqc)); try lia.
    apply (IH q c Hqc); [lia | | done]. intros x Hx. apply Hall. apply (on_path_trans _ Hok p q x); [by apply (on_path_parent _ Hok p b) | done].
Qed.

(** C4: when a received block [p] is noted, in whatever order the blocks arrive, the
    state stays consistent and the counts right: the branch of a block has a nonzero
    count exactly when all its blocks were received; and after [ActivateBestChain],
    unless the machine fails, no block whose branch was completely received and has
    no known failure has more work than the tip. *)
Theorem received_block_linked (GetBlockProof : ptr -> Z) (IsInitialBlockDownload : CChain -> bool) (s : Node) p b pos n :
  consistent nChainWork s -> waiting_ok [] s -> blocks s !! p = Some b -> failed b = false -> 0 <= nStatus b -> count s p = 0 -> 0 < n <= most ->
  (forall q a, pprev b = Some q -> blocks s !! q = Some a -> index_IsValid a BLOCK_VALID_TREE = Ret true) ->
  exists s1, ReceivedBlockTransactions nChainWork s p pos n = Ret s1 /\ consistent nChainWork s1 /\ waiting_ok [] s1 /\ (forall q, unfailed s1 q <-> unfailed s q) /\
    (forall q, count s1 q = if decide (q = p) then n else count s q) /\
    (forall q, is_Some (blocks s1 !! q) -> (chain_tx s1 q <> 0 <-> forall r, on_path (blocks s1) q r -> count s1 r <> 0)) /\
    exists ok s2, ActivateBestChain nChainWork GetBlockProof IsInitialBlockDownload (activation_rounds s1) s1 = Ret (ok, s2) /\
      (ok = true -> exists t, is_tip s2 t /\
        forall q, is_Some (blocks s1 !! q) -> (forall r, on_path (blocks s1) q r -> count s1 r <> 0 /\ unfailed s2 r) -> less s2 t q = false).
Proof.
  intros Hc Hw Hb Hf Hst H0 Hn Hval. destruct (ReceivedBlockTransactions_spec s p b pos n Hc Hw Hb Hf Hst H0 Hn Hval) as (s1 & E & Hc1 & Hw1 & _ & _ & Hcnt & Hcl).
  exists s1. split; [done|]. split; [done|]. split; [done|]. split; [done|]. split; [done|]. split; [intros q Hq; by apply branch_counted|].
  destruct (co_tip _ s1 Hc1) as (t1 & Ht1 & _). destruct (ActivateBestChain_spec nChainWork GetBlockProof IsInitialBlockDownload (activation_rounds s1) s1 t1 Hc1 Ht1 (measure_bound nChainWork s1 t1)) as (ok & s2 & E2 & H2).
  exists ok, s2. split; [done|]. intros Hok. destruct (H2 Hok) as (Hm & Hc2 & t & Ht & Hbest). exists t. split; [done|]. intros q [c Hq] Hall. apply Hbest. pose proof Hm as (Htree & Etx & _).
  split; [destruct (same_tree_lookup _ _ q c Htree Hq) as (c' & Hc' & _); by exists c'|]. split.
  - unfold chain_tx. rewrite Etx. apply (branch_counted s1 q Hc1 Hw1); [by exists c|]. intros r Hr. by apply Hall.
  - intros r Hr. apply Hall. by apply (same_tree_path _ _ _ _ Htree).
Qed.
End BlockReceipt.

(** ** On the sample tree *)

Lemma sample_waiting : waiting_ok 10 3 [] (sample_node Late).
Proof.
  assert (forall p b, sample_blocks Late !! p = Some b -> p = 1%positive \/ p = 2%positive \/ p = 3%positive \/ p = 4%positive \/ p = 5%positive) as Hp by apply sample_lookup.
  split.
  - apply sample_index_ok.
  - intros p b Hb. cbn [blocks sample_node] in Hb. destruct (Hp p b Hb) as [->|[->|[->|[->| ->]]]]; vm_compute in Hb; injection Hb as <-; vm_compute; intuition discriminate.
  - intros p b Hb Htx. cbn [blocks sample_node] in Hb. destruct (Hp p b Hb) as [->|[->|[->|[->| ->]]]]; vm_compute in Hb; injection Hb as <-; (exfalso; by apply Htx) || (vm_compute; intuition discriminate).
  - intros p H. by apply elem_of_nil in H.
  - intros q p H. apply list_elem_of_singleton in H. injection H as -> ->. exists (with_status (sample_linked 5 3 4 2) 11). split; [reflexivity|]. vm_compute; intuition discriminate.
  - apply NoDup_singleton.
  - intros p b Hb Hn Hz. cbn [blocks sample_node] in Hb. destruct (Hp p b Hb) as [->|[->|[->|[->| ->]]]]; vm_compute in Hb; injection Hb as <-; (discriminate Hz || (exfalso; by apply Hn) || idtac).
    right. exists 4%positive. split; [done|]. split; [done|]. by left.
Qed.

Lemma received_block_linked_witness : exists s1 s2 t, @ReceivedBlockTransactions ptr (sample_work Late) (sample_node Late) 4%positive true 1 = Ret s1 /\
  sample_activate Late (fun _ => true) s1 = Ret (true, s2) /\ @is_tip ptr s2 t /\ chain_tx s1 5%positive <> 0.
Proof.
  destruct (@received_block_linked ptr (sample_connect (fun _ => true)) (sample_laws _) (sample_work Late) 10 3 ltac:(reflexivity) (fun _ => 5) (fun _ => false) (sample_node Late) 4%positive
    (with_status (sample_linked 4 2 2 1) 2) true 1 (sample_consistent Late _ eq_refl eq_refl eq_refl) sample_waiting eq_refl eq_refl ltac:(discriminate) eq_refl ltac:(lia))
    as (s1 & E & _ & _ & _ & _ & _ & ok & s2 & E2 & H).
  { intros q a [= <-] Ha. vm_compute in Ha. injection Ha as <-. reflexivity. }
  assert (ok = true) as ->.
  { destruct ok; [done|]. pose proof (f_equal (fun r => match r with Ret s => Some (match sample_activate Late (fun _ => true) s with Ret (b, _) => b | _ => false end) | _ => None end) E) as E3.
    cbv beta iota in E3. unfold sample_activate in E3. rewrite E2 in E3. vm_compute in E3. discriminate E3. }
  destruct (H eq_refl) as (t & Ht & _). exists s1, s2, t. split; [exact E|]. split; [exact E2|]. split; [exact Ht|].
  assert (match ReceivedBlockTransactions (sample_work Late) (sample_node Late) 4%positive true 1 with Ret s => chain_tx s 5%positive | _ => 0 end = 4) as E4 by (vm_compute; reflexivity).
  rewrite E in E4. rewrite E4. discriminate.
Defined.

(** Block 5 was received before block 4; when this arrives both are linked and block
    5 is activated. *)
Example late_block_activates : match @ReceivedBlockTransactions ptr (sample_work Late) (sample_node Late) 4%positive true 1 with
  Ret s => tip_of_run (sample_activate Late (fun _ => true) s) | _ => None end = Some 5%positive.
Proof. vm_compute. reflexivity. Qed.
