(* ===== verification/FeeEstimator.v ===== *)
(** * Fee rates, pool entries and the policy estimator

    [FeeRate.cpp], [FeeAndPriorityCalculator.cpp] and, of [txmempool.h] and
    [txmempool.cpp], [CTxMemPoolEntry], [CBlockAverage] and [CMinerPolicyEstimator].
    A [double] is a number of the binary64 format ([spec_float]), rounded to nearest
    even; the estimates file is left out. *)

From Stdlib Require Import ZArith Lia Bool Sorted SpecFloat.
From stdpp Require Import base option numbers list relations sorting.
From S2P Require Import Prelude BaseUInt UInt256 Serialize Transaction BlockIndex Validation.

Open Scope Z_scope.
Open Scope outcome_scope.

(** ** [double] *)

Definition double : Type := spec_float.
Definition double_of (x : Z) : double := binary_normalize 53 1024 x 0 false.
Definition dadd : double -> double -> double := SFadd 53 1024.
Definition dmul : double -> double -> double := SFmul 53 1024.
Definition ddiv : double -> double -> double := SFdiv 53 1024.

Definition AllowFreeThreshold : double := double_of (COIN * 1440 / 250).
Definition AllowFree (dPriority : double) : bool := SFltb AllowFreeThreshold dPriority.

(** Signed 64-bit multiplication. *)
Definition amount_mul (a b : Z) : io CAmount :=
  oassert ((- 2 ^ 63 <=? a * b) && (a * b <? 2 ^ 63)) ;;; Ret (a * b).

(** ** [CFeeRate] *)

(** [nSatoshisPerK] *)
Definition CFeeRate : Type := CAmount.
Definition FEE_INCREMENT_STEPSIZE : Z := 1000.

(** The division is unsigned, as [nSize] is. *)
Definition CFeeRate_of (nFeePaid : CAmount) (nSize : Z) : io CFeeRate :=
  if nSize >? 0 then let* p := amount_mul nFeePaid FEE_INCREMENT_STEPSIZE in Ret (i64 (u64 p / nSize)) else Ret 0.

Definition GetFee (r : CFeeRate) (nSize : Z) : CAmount :=
  let nFee := i64 (u64 (u64 r * nSize) / FEE_INCREMENT_STEPSIZE) in
  if (nFee =? 0) && (r >? 0) then r else nFee.
Definition GetFeePerK (r : CFeeRate) : CAmount := GetFee r 1000.

(** ** [FeeAndPriorityCalculator] *)

Fixpoint modified_size_loop (ins : list CTxIn) (nTxSize : Z) : Z :=
  match ins with
  | [] => nTxSize
  | i :: ins =>
      let offset := 41 + Z.min 110 (u32 (zlen (scriptSig i))) in
      modified_size_loop ins (if nTxSize >? offset then nTxSize - offset else nTxSize)
  end.
Definition CalculateModifiedSize (tx : CMutableTransaction) (nTxSize : Z) : Z :=
  modified_size_loop (vin tx) (if nTxSize =? 0 then u32 (GetSerializeSize mutable_codec tx) else nTxSize).
Definition ComputePriority (tx : CMutableTransaction) (dPriorityInputs : double) (nTxSize : Z) : double :=
  let nTxSize := CalculateModifiedSize tx nTxSize in
  if nTxSize =? 0 then double_of 0 else ddiv dPriorityInputs (double_of nTxSize).

Definition MinimumValueForNonDust (relay : CFeeRate) (txout : CTxOut) : io CAmount :=
  amount_mul 3 (GetFee relay (GetSerializeSize txout_codec txout + 148)).
Definition IsDust (relay : CFeeRate) (txout : CTxOut) : io bool :=
  let* m := MinimumValueForNonDust relay txout in Ret (nValue txout <? m).

(** ** [CTxMemPoolEntry] *)

Record CTxMemPoolEntry := mkPoolEntry {
  entry_tx : CTransaction; entry_nFee : CAmount; nTxSize : Z; nModSize : Z; entry_nTime : Z; dPriority : double; entry_nHeight : Z
}.

Definition CTxMemPoolEntry_of (tx : CTransaction) (nFee nTime : Z) (dPriority : double) (nHeight : Z) : CTxMemPoolEntry :=
  let size := GetSerializeSize transaction_codec tx in
  mkPoolEntry tx nFee size (CalculateModifiedSize (tx_body tx) (u32 size)) nTime dPriority nHeight.

Definition GetPriority (e : CTxMemPoolEntry) (currentHeight : Z) : io double :=
  let* out := GetValueOut (tx_body (entry_tx e)) in
  let* nValueIn := amount_add out (entry_nFee e) in
  let deltaPriority := ddiv (dmul (double_of (u32 (currentHeight - entry_nHeight e))) (double_of nValueIn)) (double_of (nModSize e)) in
  Ret (dadd (dPriority e) deltaPriority).

(** ** [CBlockAverage] *)

Record CBlockAverage := mkAverage { feeSamples : list CFeeRate; prioritySamples : list double }.
Definition CBlockAverage_new : CBlockAverage := mkAverage [] [].

(** [push_back] on a full buffer overwrites the oldest sample. *)
Definition circular_push {A} (l : list A) (x : A) : list A := let l := l ++ [x] in drop (length l - 100) l.
Definition RecordFee (a : CBlockAverage) (feeRate : CFeeRate) : CBlockAverage := mkAverage (circular_push (feeSamples a) feeRate) (prioritySamples a).
Definition RecordPriority (a : CBlockAverage) (priority : double) : CBlockAverage := mkAverage (feeSamples a) (circular_push (prioritySamples a) priority).

Definition fee_sane (fee minRelayFee : CFeeRate) : io bool :=
  if fee <? 0 then Ret false
  else let* limit := amount_mul (GetFeePerK minRelayFee) 10000 in Ret (negb (GetFeePerK fee >? limit)).
Definition priority_sane (priority : double) : bool := SFleb (double_of 0) priority.

(** ** [CMinerPolicyEstimator] *)

Record CMinerPolicyEstimator := mkEstimator {
  history : list CBlockAverage; sortedFeeSamples : list CFeeRate; sortedPrioritySamples : list double; nBestSeenHeight : Z
}.
Definition CMinerPolicyEstimator_new (nEntries : nat) : CMinerPolicyEstimator := mkEstimator (replicate nEntries CBlockAverage_new) [] [] 0.

Definition with_history (s : CMinerPolicyEstimator) (h : list CBlockAverage) : CMinerPolicyEstimator :=
  mkEstimator h (sortedFeeSamples s) (sortedPrioritySamples s) (nBestSeenHeight s).

Definition seenTxConfirm (s : CMinerPolicyEstimator) (feeRate minRelayFee : CFeeRate) (dPriority : double) (nBlocksAgo : nat) : io CMinerPolicyEstimator :=
  let nBlocksTruncated := Z.min (Z.of_nat nBlocksAgo) (zlen (history s) - 1) in
  oassert (0 <=? nBlocksTruncated) ;;;
  let bucket := Z.to_nat nBlocksTruncated in
  let sufficientFee := feeRate >? minRelayFee in
  let sufficientPriority := AllowFree dPriority in
  let* fees := if sufficientFee && negb sufficientPriority then fee_sane feeRate minRelayFee else Ret false in
  if fees then Ret (with_history s (alter (fun a => RecordFee a feeRate) bucket (history s)))
  else if sufficientPriority && negb sufficientFee && priority_sane dPriority
  then Ret (with_history s (alter (fun a => RecordPriority a dPriority) bucket (history s)))
  else Ret s.

(** [std::sort] with [std::greater] *)
Definition fee_greater (a b : CFeeRate) : Prop := b <= a.
Definition priority_greater (a b : double) : Prop := SFleb b a = true.
#[global] Instance fee_greater_dec : RelDecision fee_greater := fun a b => Z_le_dec b a.
#[global] Instance priority_greater_dec : RelDecision priority_greater.
Proof. intros a b. unfold priority_greater. apply _. Defined.

(** The samples of the buckets before the given one, and half of its own. *)
Definition estimate_index (sizes : list nat) (n : nat) : nat := (sum_list (take n sizes) + (default O (sizes !! n)) / 2)%nat.

Definition estimateFee (s : CMinerPolicyEstimator) (nBlocksToConfirm : Z) : CMinerPolicyEstimator * CFeeRate :=
  let n := nBlocksToConfirm - 1 in
  if (n <? 0) || (n >=? zlen (history s)) then (s, 0) else
  let s := if (length (sortedFeeSamples s) =? 0)%nat
           then mkEstimator (history s) (merge_sort fee_greater (concat (map feeSamples (history s)))) (sortedPrioritySamples s) (nBestSeenHeight s) else s in
  if (length (sortedFeeSamples s) <? 11)%nat then (s, 0) else
  let index := Nat.min (estimate_index (map (fun a => length (feeSamples a)) (history s)) (Z.to_nat n)) (length (sortedFeeSamples s) - 1) in
  (s, nth index (sortedFeeSamples s) 0).

Definition estimatePriority (s : CMinerPolicyEstimator) (nBlocksToConfirm : Z) : CMinerPolicyEstimator * double :=
  let n := nBlocksToConfirm - 1 in
  if (n <? 0) || (n >=? zlen (history s)) then (s, double_of (-1)) else
  let s := if (length (sortedPrioritySamples s) =? 0)%nat
           then mkEstimator (history s) (sortedFeeSamples s) (merge_sort priority_greater (concat (map prioritySamples (history s)))) (nBestSeenHeight s) else s in
  if (length (sortedPrioritySamples s) <? 11)%nat then (s, double_of (-1)) else
  let index := Nat.min (estimate_index (map (fun a => length (prioritySamples a)) (history s)) (Z.to_nat n)) (length (sortedPrioritySamples s) - 1) in
  (s, nth index (sortedPrioritySamples s) (double_of 0)).

Section SeenBlock.
(** [std::random_shuffle], for a block height and a bucket. *)
Variable random_shuffle : Z -> nat -> list CTxMemPoolEntry -> list CTxMemPoolEntry.

(** The loop over the entries; [at] throws out of range. *)
Fixpoint entries_by_confirmations (entries : list CTxMemPoolEntry) (nBlockHeight : Z) (buckets : list (list CTxMemPoolEntry)) : io (list (list CTxMemPoolEntry)) :=
  match entries with
  | [] => Ret buckets
  | e :: entries =>
      let delta := i32 (nBlockHeight - entry_nHeight e) in
      if delta <=? 0 then entries_by_confirmations entries nBlockHeight buckets else
      let delta := if delta - 1 >=? zlen buckets then zlen buckets else delta in
      if (1 <=? delta) && (delta <=? zlen buckets)
      then entries_by_confirmations entries nBlockHeight (alter (fun b => b ++ [e]) (Z.to_nat (delta - 1)) buckets)
      else Throw
  end.

Fixpoint confirm_entries (entries : list CTxMemPoolEntry) (minRelayFee : CFeeRate) (i : nat) (s : CMinerPolicyEstimator) : io CMinerPolicyEstimator :=
  match entries with
  | [] => Ret s
  | e :: entries =>
      let* feeRate := CFeeRate_of (entry_nFee e) (nTxSize e) in
      let* dPriority := GetPriority e (entry_nHeight e) in
      let* s := seenTxConfirm s feeRate minRelayFee dPriority i in
      confirm_entries entries minRelayFee i s
  end.

Fixpoint confirm_buckets (buckets : list (list CTxMemPoolEntry)) (nBlockHeight : Z) (minRelayFee : CFeeRate) (i : nat) (s : CMinerPolicyEstimator) : io CMinerPolicyEstimator :=
  match buckets with
  | [] => Ret s
  | e :: buckets =>
      let e := if (10 <? length e)%nat then take 10 (random_shuffle nBlockHeight i e) else e in
      let* s := confirm_entries e minRelayFee i s in
      confirm_buckets buckets nBlockHeight minRelayFee (S i) s
  end.

(** The loop that logs the estimates. *)
Fixpoint log_estimates (fuel : nat) (i : nat) (s : CMinerPolicyEstimator) : CMinerPolicyEstimator :=
  match fuel with
  | O => s
  | S fuel =>
      let s := match history s !! i with
               | Some a => if (0 <? length (feeSamples a) + length (prioritySamples a))%nat
                           then (estimatePriority (estimateFee s (Z.of_nat i + 1)).1 (Z.of_nat i + 1)).1 else s
               | None => s
               end in
      log_estimates fuel (S i) s
  end.

Definition seenBlock (s : CMinerPolicyEstimator) (entries : list CTxMemPoolEntry) (nBlockHeight : Z) (minRelayFee : CFeeRate) : io CMinerPolicyEstimator :=
  if nBlockHeight <=? nBestSeenHeight s then Ret s else
  let s := mkEstimator (history s) (sortedFeeSamples s) (sortedPrioritySamples s) nBlockHeight in
  let* buckets := entries_by_confirmations entries nBlockHeight (replicate (length (history s)) []) in
  let* s := confirm_buckets buckets nBlockHeight minRelayFee 0 s in
  let s := mkEstimator (history s) [] [] (nBestSeenHeight s) in
  Ret (log_estimates (length (history s)) 0 s).
End SeenBlock.

(** * The estimates *)

(** ** Sorted samples *)

#[global] Instance fee_greater_total : Total fee_greater.
Proof. intros a b. unfold fee_greater. lia. Qed.
#[global] Instance fee_greater_trans : Transitive fee_greater.
Proof. intros a b c. unfold fee_greater. lia. Qed.

Lemma sorted_nth (l : list Z) : StronglySorted fee_greater l -> forall i j, (i <= j < length l)%nat -> nth j l 0 <= nth i l 0.
Proof.
  induction 1 as [|x l Hs IH Hx]; intros i j Hij; [cbn in Hij; lia|]. destruct j as [|j]; [by replace i with O by lia|]. cbn [length] in Hij. destruct i as [|i]; cbn [nth].
  - rewrite List.Forall_forall in Hx. apply Hx, nth_In. lia.
  - apply IH. lia.
Qed.

Lemma sum_take_le (l : list nat) n m : (n <= m)%nat -> (sum_list (take n l) <= sum_list (take m l))%nat.
Proof.
  revert n m. induction l as [|x l IH]; intros [|n] [|m] Hnm; cbn; try lia. specialize (IH n m ltac:(lia)). lia.
Qed.

Lemma sum_take_S (l : list nat) n : sum_list (take (S n) l) = (sum_list (take n l) + default O (l !! n))%nat.
Proof.
  destruct (l !! n) as [x|] eqn:E; cbn [default].
  - rewrite (take_S_r l n x E), sum_list_with_app. cbn. unfold id. lia.
  - apply lookup_ge_None in E. rewrite !take_ge by lia. lia.
Qed.

(** Later targets take later samples. *)
Lemma estimate_index_mono sizes n m : (n <= m)%nat -> (estimate_index sizes n <= estimate_index sizes m)%nat.
Proof.
  intros Hnm. unfold estimate_index. destruct (decide (n = m)) as [->|Hne]; [lia|]. pose proof (sum_take_le sizes (S n) m ltac:(lia)) as H. rewrite sum_take_S in H.
  pose proof (Nat.div_le_upper_bound (default O (sizes !! n)) 2 (default O (sizes !! n)) ltac:(lia) ltac:(lia)). lia.
Qed.

(** ** The invariant *)

Definition all_fees (h : list CBlockAverage) : list CFeeRate := concat (map feeSamples h).

(** A cache of sorted samples is empty or of the samples of now. *)
Record estimator_ok (k : nat) (relay : CFeeRate) (s : CMinerPolicyEstimator) : Prop := mkEstimatorOk {
  eo_buckets : length (history s) = k;
  eo_cache : sortedFeeSamples s = [] \/ sortedFeeSamples s = merge_sort fee_greater (all_fees (history s));
  eo_samples : Forall (fun a => (length (feeSamples a) <= 100)%nat /\ Forall (fun r => relay < r /\ 0 <= r) (feeSamples a)) (history s)
}.

Definition fee_estimate (h : list CBlockAverage) (n : Z) : CFeeRate :=
  if (n <? 1) || (n >? zlen h) || (length (all_fees h) <? 11)%nat then 0
  else nth (Nat.min (estimate_index (map (fun a => length (feeSamples a)) h) (Z.to_nat (n - 1))) (length (all_fees h) - 1)) (merge_sort fee_greater (all_fees h)) 0.

Lemma estimateFee_spec k relay s n : estimator_ok k relay s ->
  (estimateFee s n).2 = fee_estimate (history s) n /\ estimator_ok k relay (estimateFee s n).1 /\ history (estimateFee s n).1 = history s.
Proof.
  intros [H1 H2 H3]. unfold estimateFee, fee_estimate. destruct (Z.ltb_spec (n - 1) 0); destruct (Z.ltb_spec n 1); try lia; [done|]. cbn [orb].
  destruct (Z.geb_spec (n - 1) (zlen (history s))); destruct (Z.gtb_spec n (zlen (history s))); try lia; [done|]. cbn [orb]. fold (all_fees (history s)).
  assert (length (merge_sort fee_greater (all_fees (history s))) = length (all_fees (history s))) as El by (apply Permutation_length, merge_sort_Permutation).
  set (s1 := if _ : bool then _ else s). assert (sortedFeeSamples s1 = merge_sort fee_greater (all_fees (history s)) /\ history s1 = history s) as [E1 E2].
  { unfold s1. destruct H2 as [-> | E]; [done|]. destruct (length (sortedFeeSamples s) =? 0)%nat eqn:Ez; [done|]. by rewrite E. }
  assert (estimator_ok k relay s1) as Hok by (split; rewrite ?E2; [done | right; by rewrite E1 | done]).
  rewrite E1, El, E2. destruct (length (all_fees (history s)) <? 11)%nat; [done|]. done.
Qed.

Lemma estimatePriority_ok k relay s n : estimator_ok k relay s -> estimator_ok k relay (estimatePriority s n).1 /\ history (estimatePriority s n).1 = history s.
Proof.
  intros [H1 H2 H3]. unfold estimatePriority. destruct ((n - 1 <? 0) || _); [done|]. destruct (length (sortedPrioritySamples s) =? 0)%nat; destruct (_ <? 11)%nat; done.
Qed.

Lemma log_estimates_ok k relay fuel : forall i s, estimator_ok k relay s -> estimator_ok k relay (log_estimates fuel i s) /\ history (log_estimates fuel i s) = history s.
Proof.
  induction fuel as [|fuel IH]; intros i s Hs; [done|]. cbn [log_estimates]. set (s1 := match _ with Some _ => _ | None => _ end).
  assert (estimator_ok k relay s1 /\ history s1 = history s) as [H1 E1].
  { unfold s1. destruct (history s !! i) as [a|]; [|done]. destruct (0 <? _)%nat; [|done]. destruct (estimateFee_spec k relay s (Z.of_nat i + 1) Hs) as (_ & H1 & E1).
    destruct (estimatePriority_ok k relay _ (Z.of_nat i + 1) H1) as [H2 E2]. split; [done|]. by rewrite E2. }
  destruct (IH (S i) s1 H1) as [H2 E2]. split; [done|]. by rewrite E2.
Qed.

(** ** A block is seen *)

Definition samples_ok (relay : CFeeRate) (a : CBlockAverage) : Prop := (length (feeSamples a) <= 100)%nat /\ Forall (fun r => relay < r /\ 0 <= r) (feeSamples a).

Lemma circular_push_spec {A} (P : A -> Prop) l x : Forall P l -> P x -> (length (circular_push l x) <= 100)%nat /\ Forall P (circular_push l x).
Proof.
  intros Hl Hx. unfold circular_push. split; [rewrite length_drop; lia|]. apply Forall_drop, Forall_app. split; [done | by constructor].
Qed.

Lemma Forall_alter' {A} (P : A -> Prop) f i l : Forall P l -> (forall x, P x -> P (f x)) -> Forall P (alter f i l).
Proof. intros Hl Hf. apply Forall_alter; [done|]. intros x _ Hx. by apply Hf. Qed.

Definition seen_so_far (k : nat) (relay : CFeeRate) (s : CMinerPolicyEstimator) : Prop := length (history s) = k /\ Forall (samples_ok relay) (history s).

Lemma seenTxConfirm_ok k relay s r p i s' : seen_so_far k relay s -> seenTxConfirm s r relay p i = Ret s' -> seen_so_far k relay s' /\ nBestSeenHeight s' = nBestSeenHeight s.
Proof.
  intros [Hk Hs]. unfold seenTxConfirm. destruct (0 <=? _); [|done]. cbn [oassert obind]. destruct (Z.gtb_spec r relay) as [Hr|Hr]; cbn [andb negb].
  - destruct (AllowFree p); cbn [negb andb obind].
    + by intros [= <-].
    + unfold fee_sane. destruct (Z.ltb_spec r 0) as [Hn|Hn]; cbn [obind]; [by intros [= <-]|].
      destruct (amount_mul _ _) as [m| | | ]; cbn [obind]; try done. destruct (negb _); intros [= <-]; [|done]. split; [|done]. split; [by cbn; rewrite length_alter|].
      apply Forall_alter'; [done|]. intros a [Ha1 Ha2]. by apply circular_push_spec.
  - cbn [obind]. destruct (AllowFree p); cbn [andb negb]; [|by intros [= <-]]. destruct (priority_sane p); intros [= <-]; [|done]. split; [|done]. split; [by cbn; rewrite length_alter|].
    apply Forall_alter'; [done|]. by intros a [Ha1 Ha2].
Qed.

Lemma confirm_entries_ok k relay l i : forall s s', seen_so_far k relay s -> confirm_entries l relay i s = Ret s' -> seen_so_far k relay s' /\ nBestSeenHeight s' = nBestSeenHeight s.
Proof.
  induction l as [|e l IH]; intros s s' Hs; cbn [confirm_entries]; [by intros [= <-]|]. destruct (CFeeRate_of _ _) as [r| | | ]; cbn [obind]; try done.
  destruct (GetPriority _ _) as [p| | | ]; cbn [obind]; try done. destruct (seenTxConfirm _ _ _ _ _) as [s1| | |] eqn:E1; cbn [obind]; try done.
  destruct (seenTxConfirm_ok k relay s r p i s1 Hs E1) as [Hs1 Eh]. intros E2. destruct (IH s1 s' Hs1 E2) as [H2 Eh2]. split; [done | congruence].
Qed.

Lemma confirm_buckets_ok shuffle k relay h l : forall i s s', seen_so_far k relay s -> confirm_buckets shuffle l h relay i s = Ret s' -> seen_so_far k relay s' /\ nBestSeenHeight s' = nBestSeenHeight s.
Proof.
  induction l as [|e l IH]; intros i s s' Hs; cbn [confirm_buckets]; [by intros [= <-]|]. destruct (confirm_entries _ _ _ _) as [s1| | |] eqn:E1; cbn [obind]; try done.
  destruct (confirm_entries_ok k relay _ i s s1 Hs E1) as [Hs1 Eh]. intros E2. destruct (IH (S i) s1 s' Hs1 E2) as [H2 Eh2]. split; [done | congruence].
Qed.

Lemma seenBlock_ok shuffle k relay s l h s' : estimator_ok k relay s -> seenBlock shuffle s l h relay = Ret s' -> estimator_ok k relay s'.
Proof.
  intros Hs. unfold seenBlock. destruct (h <=? _); [by intros [= <-]|]. destruct (entries_by_confirmations _ _ _) as [b| | | ]; cbn [obind]; try done.
  destruct (confirm_buckets _ _ _ _ _ _) as [s1| | |] eqn:E1; cbn [obind]; try done. intros [= <-].
  destruct (fun H => confirm_buckets_ok shuffle k relay h b 0 _ s1 H E1) as [[Hk Hf] _]; [split; apply Hs|]. apply log_estimates_ok. split; [done | by left | done].
Qed.

(** ** Every history of blocks and questions *)

Inductive estimator_step (shuffle : Z -> nat -> list CTxMemPoolEntry -> list CTxMemPoolEntry) (relay : CFeeRate) : CMinerPolicyEstimator -> CMinerPolicyEstimator -> Prop :=
  | step_seen s l h s' : seenBlock shuffle s l h relay = Ret s' -> estimator_step shuffle relay s s'
  | step_fee s n : estimator_step shuffle relay s (estimateFee s n).1
  | step_priority s n : estimator_step shuffle relay s (estimatePriority s n).1.

Lemma estimator_reachable_ok shuffle relay k s : rtc (estimator_step shuffle relay) (CMinerPolicyEstimator_new k) s -> estimator_ok k relay s.
Proof.
  intros H. refine (rtc_ind_r (R := estimator_step shuffle relay) (fun s => estimator_ok k relay s) (CMinerPolicyEstimator_new k) _ _ s H).
  - split; [apply length_replicate | by left |]. cbn. apply Forall_replicate. split; [cbn; lia | constructor].
  - intros s1 s2 _ Hst Hs1. destruct Hst as [s1 l h s2 E|s1 n|s1 n]; [by eapply seenBlock_ok | by apply estimateFee_spec | by apply estimatePriority_ok].
Qed.

Lemma fee_estimate_bounds k relay s n : estimator_ok k relay s -> fee_estimate (history s) n = 0 \/ relay < fee_estimate (history s) n /\ fee_estimate (history s) n ∈ all_fees (history s).
Proof.
  intros [_ _ H3]. unfold fee_estimate. destruct (_ || _ || _) eqn:E; [by left|]. right. apply orb_false_iff in E as [_ E]. apply Nat.ltb_ge in E.
  set (i := Nat.min _ _). assert (nth i (merge_sort fee_greater (all_fees (history s))) 0 ∈ all_fees (history s)) as Hin.
  { rewrite <- (merge_sort_Permutation fee_greater (all_fees (history s))) at 2. apply list_elem_of_In, nth_In. rewrite (Permutation_length (merge_sort_Permutation fee_greater (all_fees (history s)))). lia. }
  split; [|done]. apply list_elem_of_In, in_concat in Hin as (l & Hl & Hin). apply in_map_iff in Hl as (a & <- & Ha). rewrite List.Forall_forall in H3. destruct (H3 a Ha) as [_ Hf].
  rewrite List.Forall_forall in Hf. by apply Hf.
Qed.

Lemma fee_estimate_nonneg k relay s n : estimator_ok k relay s -> 0 <= fee_estimate (history s) n.
Proof.
  intros Hs. destruct (fee_estimate_bounds k relay s n Hs) as [-> | [_ Hin]]; [done|]. apply list_elem_of_In, in_concat in Hin as (l & Hl & Hin). apply in_map_iff in Hl as (a & <- & Ha).
  pose proof (eo_samples k relay s Hs) as H3. rewrite List.Forall_forall in H3. destruct (H3 a Ha) as [_ Hf]. rewrite List.Forall_forall in Hf. by destruct (Hf _ Hin).
Qed.

(** C20: whatever blocks were seen and whatever estimates were asked for before, the
    fee estimate for a longer confirmation target is never higher, an estimate is
    zero or one of the recorded fee rates above the relay fee, and asking for one
    estimate changes no other (the cached sorted samples are never stale). *)
Theorem fee_estimates_ordered shuffle relay k s : rtc (estimator_step shuffle relay) (CMinerPolicyEstimator_new k) s ->
  (forall n m, 1 <= n <= m -> 0 <= (estimateFee s m).2 <= (estimateFee s n).2) /\
  (forall n, (estimateFee s n).2 = 0 \/ relay < (estimateFee s n).2 /\ (estimateFee s n).2 ∈ all_fees (history s)) /\
  (forall n m, (estimateFee (estimateFee s m).1 n).2 = (estimateFee s n).2 /\ (estimateFee (estimatePriority s m).1 n).2 = (estimateFee s n).2).
Proof.
  intros Hr. pose proof (estimator_reachable_ok shuffle relay k s Hr) as Hs. assert (forall n, (estimateFee s n).2 = fee_estimate (history s) n) as E by (intros n; by apply (estimateFee_spec k relay)).
  split; [|split].
  - intros n m Hnm. rewrite !E. split; [by apply (fee_estimate_nonneg k relay)|]. destruct (Z.gtb_spec m (zlen (history s))) as [Hm|Hm].
    { unfold fee_estimate at 1. rewrite (proj2 (Z.gtb_lt m (zlen (history s)))) by lia. rewrite orb_true_r. cbn [orb]. by apply (fee_estimate_nonneg k relay). }
    unfold fee_estimate. destruct (Z.ltb_spec n 1); [lia|]. destruct (Z.ltb_spec m 1); [lia|]. destruct (Z.gtb_spec n (zlen (history s))); [lia|]. destruct (Z.gtb_spec m (zlen (history s))); [lia|]. cbn [orb].
    destruct (Nat.ltb_spec (length (all_fees (history s))) 11); [done|]. apply sorted_nth; [apply (StronglySorted_merge_sort fee_greater)|].
    rewrite (Permutation_length (merge_sort_Permutation fee_greater (all_fees (history s)))).
    pose proof (estimate_index_mono (map (fun a => length (feeSamples a)) (history s)) (Z.to_nat (n - 1)) (Z.to_nat (m - 1)) ltac:(lia)). lia.
  - intros n. rewrite E. by apply (fee_estimate_bounds k).
  - intros n m. rewrite E. destruct (estimateFee_spec k relay s m Hs) as (_ & H1 & E1). destruct (estimatePriority_ok k relay s m Hs) as [H2 E2]. split.
    + rewrite (proj1 (estimateFee_spec k relay _ n H1)). by rewrite E1.
    + rewrite (proj1 (estimateFee_spec k relay _ n H2)). by rewrite E2.
Qed.

(** ** Sample *)

(** Twelve entries of 1000 bytes; those of even fees entered one block before the
    block, the others two before. *)
Definition sample_pool_entry (fee : Z) : CTxMemPoolEntry :=
  mkPoolEntry (CTransaction_of (sample_tx fee 500)) (20000 + fee) 1000 900 0 (double_of 0) (99 - fee mod 2).
Definition sample_seen : io CMinerPolicyEstimator :=
  seenBlock (fun _ _ l => l) (CMinerPolicyEstimator_new 25) (map (fun n => sample_pool_entry (Z.of_nat n)) (seq 0 12)) 100 10000.
Definition sample_estimator : CMinerPolicyEstimator := match sample_seen with Ret s => s | _ => CMinerPolicyEstimator_new 25 end.

Lemma sample_seen_returns : sample_seen = Ret sample_estimator.
Proof. vm_compute. reflexivity. Qed.


Lemma fee_estimates_ordered_witness : (estimateFee sample_estimator 2).2 <= (estimateFee sample_estimator 1).2 /\ (estimateFee sample_estimator 2).2 = 20002.
Proof.
  destruct (fee_estimates_ordered (fun _ _ l => l) 10000 25 sample_estimator) as (H & _); [apply rtc_once; eapply step_seen; exact sample_seen_returns|].
  destruct (H 1 2 ltac:(lia)) as [_ H2]. split; [exact H2 | vm_compute; reflexivity].
Defined.

Example sample_estimates : map (fun n => (estimateFee sample_estimator n).2) [1; 2; 3; 26] = [20008; 20002; 20000; 0].
Proof. vm_compute. reflexivity. Qed.
(** A priority: 100 blocks, 20501 satoshis, 900 bytes. *)
Example sample_priority : GetPriority (sample_pool_entry 1) 198 = Ret (ddiv (double_of 2050100) (double_of 900)).
Proof. vm_compute. reflexivity. Qed.
