(* ===== verification/Mempool.v ===== *)
(** * The memory pool: [txmempool.h], [txmempool.cpp]

    A node of [mapTx] is named by its key; a pointer to a transaction or an entry of
    the pool is the key of the node it points into, and following it after the node
    was erased is undefined behaviour.  The sanity check, the locks and the files are
    left out. *)

From Stdlib Require Import ZArith Lia Bool Permutation.
From stdpp Require Import base option numbers list gmap sorting.
From S2P Require Import Prelude BaseUInt UInt256 Serialize Transaction Script Coins CoinsCache BlockIndex Validation IndexUpdates FeeEstimator.

Open Scope Z_scope.
Open Scope outcome_scope.

#[global] Instance COutPoint_countable : Countable COutPoint.
Proof. refine (inj_countable' (fun o => (prev_hash o : list Z, prev_n o)) (fun '(x, n) => mkOutPoint x n) _). by intros []. Defined.

(** ** Data *)

(** The transaction of the node [ptx] of [mapTx] and an index into its inputs. *)
Record CInPoint := mkInPoint { ptx : list Z; inpoint_n : Z }.

Record CMempoolAddressDelta := mkDelta { delta_time : Z; amount : CAmount; prevhash : list Z; delta_prevout : Z }.
Record CMempoolAddressDeltaKey := mkDeltaKey { dk_type : Z; addressBytes : list Z; dk_txhash : list Z; dk_index : Z; spending : Z }.
#[global] Instance CMempoolAddressDeltaKey_eq_dec : EqDecision CMempoolAddressDeltaKey.
Proof. solve_decision. Defined.
#[global] Instance CMempoolAddressDeltaKey_countable : Countable CMempoolAddressDeltaKey.
Proof. refine (inj_countable' (fun k => (dk_type k, addressBytes k, dk_txhash k, dk_index k, spending k)) (fun '(t, a, h, i, s) => mkDeltaKey t a h i s) _). by intros []. Defined.

Record CTxMemPool := mkPool {
  nTransactionsUpdated : Z;
  minerPolicyEstimator : CMinerPolicyEstimator;
  totalTxSize : Z;
  mapAddress : gmap CMempoolAddressDeltaKey CMempoolAddressDelta;
  mapAddressInserted : gmap (list Z) (list CMempoolAddressDeltaKey);
  mapSpent : gmap CSpentIndexKey CSpentIndexValue;
  mapSpentInserted : gmap (list Z) (list CSpentIndexKey);
  mapDeltas : gmap (list Z) (double * CAmount);
  mapBareTxid : gmap (list Z) (list Z);
  mapTx : gmap (list Z) CTxMemPoolEntry;
  mapNextTx : gmap COutPoint CInPoint
}.

Definition CTxMemPool_new : CTxMemPool := mkPool 0 (CMinerPolicyEstimator_new 25) 0 ∅ ∅ ∅ ∅ ∅ ∅ ∅ ∅.

Definition with_transactions (p : CTxMemPool) (updated total : Z) (bare : gmap (list Z) (list Z)) (txs : gmap (list Z) CTxMemPoolEntry) (next : gmap COutPoint CInPoint) : CTxMemPool :=
  mkPool updated (minerPolicyEstimator p) total (mapAddress p) (mapAddressInserted p) (mapSpent p) (mapSpentInserted p) (mapDeltas p) bare txs next.
Definition with_address (p : CTxMemPool) (a : gmap CMempoolAddressDeltaKey CMempoolAddressDelta) (i : gmap (list Z) (list CMempoolAddressDeltaKey)) : CTxMemPool :=
  mkPool (nTransactionsUpdated p) (minerPolicyEstimator p) (totalTxSize p) a i (mapSpent p) (mapSpentInserted p) (mapDeltas p) (mapBareTxid p) (mapTx p) (mapNextTx p).
Definition with_spent (p : CTxMemPool) (s : gmap CSpentIndexKey CSpentIndexValue) (i : gmap (list Z) (list CSpentIndexKey)) : CTxMemPool :=
  mkPool (nTransactionsUpdated p) (minerPolicyEstimator p) (totalTxSize p) (mapAddress p) (mapAddressInserted p) s i (mapDeltas p) (mapBareTxid p) (mapTx p) (mapNextTx p).
Definition with_deltas (p : CTxMemPool) (d : gmap (list Z) (double * CAmount)) : CTxMemPool :=
  mkPool (nTransactionsUpdated p) (minerPolicyEstimator p) (totalTxSize p) (mapAddress p) (mapAddressInserted p) (mapSpent p) (mapSpentInserted p) d (mapBareTxid p) (mapTx p) (mapNextTx p).
Definition with_estimator (p : CTxMemPool) (e : CMinerPolicyEstimator) : CTxMemPool :=
  mkPool (nTransactionsUpdated p) e (totalTxSize p) (mapAddress p) (mapAddressInserted p) (mapSpent p) (mapSpentInserted p) (mapDeltas p) (mapBareTxid p) (mapTx p) (mapNextTx p).

(** [std::map::insert]: a key that is there keeps its value. *)
Definition map_insert {K} `{Countable K} {V} (m : gmap K V) (k : K) (v : V) : gmap K V := match m !! k with Some _ => m | None => <[k := v]> m end.

(** [*it->second.ptx] *)
Definition deref_tx (p : CTxMemPool) (ptr : list Z) : io CTransaction := let* e := oaccess (mapTx p !! ptr) in Ret (entry_tx e).

(** ** The indices *)

(** The address of an output, if it is indexed. *)
Definition delta_address (script : CScript) : option (Z * list Z) :=
  if IsPayToScriptHash script then Some (2, take 20 (drop 2 script))
  else if IsPayToPublicKeyHash script then Some (1, take 20 (drop 3 script))
  else None.

Definition add_delta (p : CTxMemPool) (inserted : list CMempoolAddressDeltaKey) (k : CMempoolAddressDeltaKey) (d : CMempoolAddressDelta) : CTxMemPool * list CMempoolAddressDeltaKey :=
  (with_address p (map_insert (mapAddress p) k d) (mapAddressInserted p), inserted ++ [k]).

Fixpoint address_inputs (e : CTxMemPoolEntry) (ins : list CTxIn) (j : nat) (v : CCoinsView) (p : CTxMemPool) (inserted : list CMempoolAddressDeltaKey) : io (CTxMemPool * list CMempoolAddressDeltaKey) :=
  match ins with
  | [] => Ret (p, inserted)
  | input :: ins =>
      let* '(v, prevout) := GetOutputFor v input in
      let '(p, inserted) := match delta_address (scriptPubKey prevout) with
                            | Some (t, bytes) =>
                                add_delta p inserted (mkDeltaKey t bytes (tx_hash (entry_tx e)) (Z.of_nat j) 1)
                                  (mkDelta (entry_nTime e) (nValue prevout * -1) (prev_hash (Transaction.prevout input)) (prev_n (Transaction.prevout input)))
                            | None => (p, inserted)
                            end in
      address_inputs e ins (S j) v p inserted
  end.

Fixpoint address_outputs (e : CTxMemPoolEntry) (outs : list CTxOut) (k : nat) (p : CTxMemPool) (inserted : list CMempoolAddressDeltaKey) : CTxMemPool * list CMempoolAddressDeltaKey :=
  match outs with
  | [] => (p, inserted)
  | out :: outs =>
      let '(p, inserted) := match delta_address (scriptPubKey out) with
                            | Some (t, bytes) => add_delta p inserted (mkDeltaKey t bytes (tx_hash (entry_tx e)) (Z.of_nat k) 0) (mkDelta (entry_nTime e) (nValue out) uint256_null 0)
                            | None => (p, inserted)
                            end in
      address_outputs e outs (S k) p inserted
  end.

Definition addAddressIndex (p : CTxMemPool) (e : CTxMemPoolEntry) (v : CCoinsView) : io CTxMemPool :=
  let* '(p, inserted) := address_inputs e (vin (tx_body (entry_tx e))) 0 v p [] in
  let '(p, inserted) := address_outputs e (vout (tx_body (entry_tx e))) 0 p inserted in
  Ret (with_address p (mapAddress p) (map_insert (mapAddressInserted p) (tx_hash (entry_tx e)) inserted)).

Definition removeAddressIndex (p : CTxMemPool) (txhash : list Z) : CTxMemPool :=
  match mapAddressInserted p !! txhash with
  | Some keys => with_address p (foldl (fun m k => delete k m) (mapAddress p) keys) (delete txhash (mapAddressInserted p))
  | None => p
  end.

Definition delta_below (a b : CMempoolAddressDeltaKey) : bool :=
  if CompareTo (dk_txhash a) (dk_txhash b) =? 0 then if dk_index a =? dk_index b then spending a <=? spending b else dk_index a <? dk_index b
  else CompareTo (dk_txhash a) (dk_txhash b) <? 0.
Definition delta_order (a b : CMempoolAddressDeltaKey * CMempoolAddressDelta) : Prop := delta_below (fst a) (fst b) = true.
#[global] Instance delta_order_dec : RelDecision delta_order := fun a b => decide (delta_below (fst a) (fst b) = true).

(** The keys from the lower bound on that are of the address. *)
Definition getAddressIndex (p : CTxMemPool) (addresses : list (list Z * Z)) : list (CMempoolAddressDeltaKey * CMempoolAddressDelta) :=
  concat (map (fun a => merge_sort delta_order (List.filter (fun e => bool_decide (addressBytes (fst e) = fst a) && (dk_type (fst e) =? snd a)) (map_to_list (mapAddress p)))) addresses).

Fixpoint spent_inputs (e : CTxMemPoolEntry) (ins : list CTxIn) (j : nat) (v : CCoinsView) (p : CTxMemPool) (inserted : list CSpentIndexKey) : io (CTxMemPool * list CSpentIndexKey) :=
  match ins with
  | [] => Ret (p, inserted)
  | input :: ins =>
      let* '(v, prevout) := GetOutputFor v input in
      let '(addressType, addressHash) := match delta_address (scriptPubKey prevout) with Some a => a | None => (0, repeat 0 20) end in
      let key := mkSpentKey (prev_hash (Transaction.prevout input)) (prev_n (Transaction.prevout input)) in
      let value := mkSpentValue (tx_hash (entry_tx e)) (Z.of_nat j) (-1) (nValue prevout) addressType addressHash in
      spent_inputs e ins (S j) v (with_spent p (map_insert (mapSpent p) key value) (mapSpentInserted p)) (inserted ++ [key])
  end.

Definition addSpentIndex (p : CTxMemPool) (e : CTxMemPoolEntry) (v : CCoinsView) : io CTxMemPool :=
  let* '(p, inserted) := spent_inputs e (vin (tx_body (entry_tx e))) 0 v p [] in
  Ret (with_spent p (mapSpent p) (map_insert (mapSpentInserted p) (tx_hash (entry_tx e)) inserted)).

Definition getSpentIndex (p : CTxMemPool) (key : CSpentIndexKey) : option CSpentIndexValue := mapSpent p !! key.

Definition removeSpentIndex (p : CTxMemPool) (txhash : list Z) : CTxMemPool :=
  match mapSpentInserted p !! txhash with
  | Some keys => with_spent p (foldl (fun m k => delete k m) (mapSpent p) keys) (delete txhash (mapSpentInserted p))
  | None => p
  end.

(** ** Adding *)

Section Pool.
Variables fAddressIndex_ fSpentIndex_ : bool.
Variable minRelayFee : CFeeRate.
Variable random_shuffle : Z -> nat -> list CTxMemPoolEntry -> list CTxMemPoolEntry.
Variable fSanityCheck : bool.
Variable COINBASE_MATURITY : Z.

Definition next_of (tx : CTransaction) (hash : list Z) (next : gmap COutPoint CInPoint) : gmap COutPoint CInPoint :=
  foldl (fun m x => <[Transaction.prevout (snd x) := mkInPoint hash (Z.of_nat (fst x))]> m) next (imap pair (vin (tx_body tx))).

Definition addUnchecked (p : CTxMemPool) (hash : list Z) (entry : CTxMemPoolEntry) (view : CCoinsView) : io CTxMemPool :=
  let tx := entry_tx entry in
  let p := with_transactions p (u32 (nTransactionsUpdated p + 1)) (u64 (totalTxSize p + nTxSize entry)) (map_insert (mapBareTxid p) (GetBareTxid tx) hash)
             (<[hash := entry]> (mapTx p)) (next_of tx hash (mapNextTx p)) in
  let* p := if fAddressIndex_ then addAddressIndex p entry view else Ret p in
  if fSpentIndex_ then addSpentIndex p entry view else Ret p.

(** ** Removing *)

(** The transactions of the pool that spend an output of [hash]. *)
Fixpoint spenders (p : CTxMemPool) (hash : list Z) (outputs : list nat) : io (list (list Z)) :=
  match outputs with
  | [] => Ret []
  | i :: outputs =>
      match mapNextTx p !! mkOutPoint hash (Z.of_nat i) with
      | None => spenders p hash outputs
      | Some it => let* tx := deref_tx p (ptx it) in let* l := spenders p hash outputs in Ret ((tx_hash tx : list Z) :: l)
      end
  end.
Definition output_indices (tx : CTransaction) : list nat := seq 0 (length (vout (tx_body tx))).

(** [while (!txToRemove.empty())] *)
Fixpoint remove_loop (fuel : nat) (fRecursive : bool) (txToRemove : list (list Z)) (p : CTxMemPool) (removed : list CTransaction) : io (CTxMemPool * list CTransaction) :=
  match txToRemove with
  | [] => Ret (p, removed)
  | hash :: txToRemove =>
      match fuel with
      | O => Undef
      | S fuel =>
          match mapTx p !! hash with
          | None => remove_loop fuel fRecursive txToRemove p removed
          | Some e =>
              let p := removeSpentIndex (removeAddressIndex p hash) hash in
              let tx := entry_tx e in
              let* children := if fRecursive then spenders p hash (output_indices tx) else Ret [] in
              let p := with_transactions p (u32 (nTransactionsUpdated p + 1)) (u64 (totalTxSize p - nTxSize e)) (delete (GetBareTxid tx : list Z) (mapBareTxid p))
                         (delete hash (mapTx p)) (foldl (fun m i => delete (Transaction.prevout i) m) (mapNextTx p) (vin (tx_body tx))) in
              remove_loop fuel fRecursive (txToRemove ++ children) p (removed ++ [tx])
          end
      end
  end.

(** The rounds: one for each queued transaction and for each output in the pool. *)
Definition pool_sum (f : CTxMemPoolEntry -> Z) (m : gmap (list Z) CTxMemPoolEntry) : Z := foldr Z.add 0 (map (fun x => f (snd x)) (map_to_list m)).
Definition outputs_of (e : CTxMemPoolEntry) : Z := zlen (vout (tx_body (entry_tx e))).

Definition remove (p : CTxMemPool) (origTx : CTransaction) (removed : list CTransaction) (fRecursive : bool) : io (CTxMemPool * list CTransaction) :=
  let* children := if fRecursive && bool_decide (mapTx p !! (tx_hash origTx : list Z) = None) then spenders p (tx_hash origTx) (output_indices origTx) else Ret [] in
  remove_loop (S (length children) + Z.to_nat (pool_sum outputs_of (mapTx p))) fRecursive ((tx_hash origTx : list Z) :: children) p removed.

Definition lookup (p : CTxMemPool) (hash : list Z) : option CTransaction := entry_tx <$> mapTx p !! hash.
Definition lookupOutpoint (p : CTxMemPool) (hash : list Z) : option CTransaction := lookup p hash.
Definition lookupBareTxid (p : CTxMemPool) (btxid : list Z) : io (option CTransaction) :=
  match mapBareTxid p !! btxid with None => Ret None | Some ptr => let* tx := deref_tx p ptr in Ret (Some tx) end.
Definition pool_exists (p : CTxMemPool) (hash : list Z) : bool := bool_decide (is_Some (mapTx p !! hash)).
Definition existsBareTxid (p : CTxMemPool) (hash : list Z) : bool := bool_decide (is_Some (mapBareTxid p !! hash)).

(** In the order of [mapTx]. *)
Definition hash_order (a b : list Z * CTxMemPoolEntry) : Prop := CompareTo (fst a) (fst b) <= 0.
#[local] Instance hash_order_dec : RelDecision hash_order := fun a b => decide (CompareTo (fst a) (fst b) <= 0).
Definition pool_entries (p : CTxMemPool) : list (list Z * CTxMemPoolEntry) := merge_sort hash_order (map_to_list (mapTx p)).
Definition queryHashes (p : CTxMemPool) : list (list Z) := map fst (pool_entries p).

(** The loop over the inputs: does one spend coins that are missing or immature? *)
Fixpoint immature_spend (p : CTxMemPool) (ins : list CTxIn) (pcoins : CCoinsView) (nMemPoolHeight : Z) : io (bool * CCoinsView) :=
  match ins with
  | [] => Ret (false, pcoins)
  | txin :: ins =>
      match lookupOutpoint p (prev_hash (prevout txin)) with
      | Some _ => immature_spend p ins pcoins nMemPoolHeight
      | None =>
          let '(pcoins, coins) := AccessCoins pcoins (prev_hash (prevout txin)) in
          oassert (negb fSanityCheck || bool_decide (is_Some coins)) ;;;
          if match coins with
             | None => true
             | Some c => (Coins.fCoinBase c || Coins.fCoinStake c) && (u32 (nMemPoolHeight - Coins.coins_nHeight c) <? u32 COINBASE_MATURITY)
             end then Ret (true, pcoins) else immature_spend p ins pcoins nMemPoolHeight
      end
  end.

Fixpoint immature_transactions (p : CTxMemPool) (entries : list (list Z * CTxMemPoolEntry)) (pcoins : CCoinsView) (nMemPoolHeight : Z) : io (list CTransaction * CCoinsView) :=
  match entries with
  | [] => Ret ([], pcoins)
  | (_, e) :: entries =>
      let* '(b, pcoins) := immature_spend p (vin (tx_body (entry_tx e))) pcoins nMemPoolHeight in
      let* '(l, pcoins) := immature_transactions p entries pcoins nMemPoolHeight in
      Ret (if b then entry_tx e :: l else l, pcoins)
  end.

Fixpoint remove_all (p : CTxMemPool) (txs : list CTransaction) : io CTxMemPool :=
  match txs with
  | [] => Ret p
  | tx :: txs => let* '(p, _) := remove p tx [] true in remove_all p txs
  end.

Definition removeCoinbaseSpends (p : CTxMemPool) (pcoins : CCoinsView) (nMemPoolHeight : Z) : io (CTxMemPool * CCoinsView) :=
  let* '(transactionsToRemove, pcoins) := immature_transactions p (pool_entries p) pcoins nMemPoolHeight in
  let* p := remove_all p transactionsToRemove in
  Ret (p, pcoins).

Fixpoint remove_conflicts (p : CTxMemPool) (tx : CTransaction) (ins : list CTxIn) (removed : list CTransaction) : io (CTxMemPool * list CTransaction) :=
  match ins with
  | [] => Ret (p, removed)
  | txin :: ins =>
      match mapNextTx p !! prevout txin with
      | None => remove_conflicts p tx ins removed
      | Some it =>
          let* txConflict := deref_tx p (ptx it) in
          let* '(p, removed) := if bool_decide ((tx_hash txConflict : list Z) = tx_hash tx) then Ret (p, removed) else remove p txConflict removed true in
          remove_conflicts p tx ins removed
      end
  end.
Definition removeConflicts (p : CTxMemPool) (tx : CTransaction) (removed : list CTransaction) : io (CTxMemPool * list CTransaction) :=
  remove_conflicts p tx (vin (tx_body tx)) removed.

(** ** Prioritisation *)

Definition PrioritiseTransaction (p : CTxMemPool) (hash : list Z) (dPriorityDelta : double) (nFeeDelta : CAmount) : io CTxMemPool :=
  let deltas := default (double_of 0, 0) (mapDeltas p !! hash) in
  let* fee := amount_add (snd deltas) nFeeDelta in
  Ret (with_deltas p (<[hash := (dadd (fst deltas) dPriorityDelta, fee)]> (mapDeltas p))).

Definition ApplyDeltas (p : CTxMemPool) (hash : list Z) (dPriorityDelta : double) (nFeeDelta : CAmount) : io (double * CAmount) :=
  match mapDeltas p !! hash with
  | None => Ret (dPriorityDelta, nFeeDelta)
  | Some deltas => let* fee := amount_add nFeeDelta (snd deltas) in Ret (dadd dPriorityDelta (fst deltas), fee)
  end.

Definition ClearPrioritisation (p : CTxMemPool) (hash : list Z) : CTxMemPool := with_deltas p (delete hash (mapDeltas p)).

(** ** Blocks *)

Fixpoint remove_block_txs (p : CTxMemPool) (vtx : list CTransaction) (conflicts : list CTransaction) : io (CTxMemPool * list CTransaction) :=
  match vtx with
  | [] => Ret (p, conflicts)
  | tx :: vtx =>
      let* '(p, _) := remove p tx [] false in
      let* '(p, conflicts) := removeConflicts p tx conflicts in
      remove_block_txs (ClearPrioritisation p (tx_hash tx)) vtx conflicts
  end.

Definition removeForBlock (p : CTxMemPool) (vtx : list CTransaction) (nBlockHeight : Z) (conflicts : list CTransaction) : io (CTxMemPool * list CTransaction) :=
  let entries := omap (fun tx => mapTx p !! (tx_hash tx : list Z)) vtx in
  let* e := seenBlock random_shuffle (minerPolicyEstimator p) entries (i32 nBlockHeight) minRelayFee in
  remove_block_txs (with_estimator p e) vtx conflicts.

Definition pool_clear (p : CTxMemPool) : CTxMemPool := with_transactions p (u32 (nTransactionsUpdated p + 1)) 0 ∅ ∅ ∅.

Definition pool_estimateFee (p : CTxMemPool) (nBlocks : Z) : CTxMemPool * CFeeRate :=
  let '(e, r) := estimateFee (minerPolicyEstimator p) nBlocks in (with_estimator p e, r).
Definition pool_estimatePriority (p : CTxMemPool) (nBlocks : Z) : CTxMemPool * double :=
  let '(e, r) := estimatePriority (minerPolicyEstimator p) nBlocks in (with_estimator p e, r).
Definition AddTransactionsUpdated (p : CTxMemPool) (n : Z) : CTxMemPool :=
  with_transactions p (u32 (nTransactionsUpdated p + n)) (totalTxSize p) (mapBareTxid p) (mapTx p) (mapNextTx p).

(** ** Coins *)

Definition MEMPOOL_HEIGHT : Z := 0x7FFFFFFF.

(** The spent outputs of a transaction, in order. *)
Definition spent_outputs (p : CTxMemPool) (hashTx : list Z) : list Z :=
  merge_sort Z.le (map (fun e => prev_n (fst e)) (List.filter (fun e => bool_decide ((prev_hash (fst e) : list Z) = hashTx)) (map_to_list (mapNextTx p)))).
Definition pruneSpent (p : CTxMemPool) (hashTx : list Z) (coins : CCoins) : CCoins :=
  foldl (fun c n => fst (Spend c (Z.to_nat n))) coins (spent_outputs p hashTx).

(** [CCoinsViewMemPool] over a view. *)
Definition mempool_GetCoins (p : CTxMemPool) (base : CCoinsView) (txid : list Z) : CCoinsView * option CCoins :=
  match lookupOutpoint p txid with
  | Some tx => (base, Some (FromTx (tx_body tx) MEMPOOL_HEIGHT))
  | None => let '(base, c) := GetCoins base txid in (base, match c with Some c => if IsPruned c then None else Some c | None => None end)
  end.
Definition mempool_HaveCoins (p : CTxMemPool) (base : CCoinsView) (txid : list Z) : CCoinsView * bool :=
  match lookupOutpoint p txid with Some _ => (base, true) | None => HaveCoins base txid end.
End Pool.
