(* ===== verification/MempoolProps.v ===== *)
(** * The memory pool stays consistent

    [mapNextTx] is exactly the map of the spends of the pool, whatever is added and
    removed; removal takes the descendants and nothing else; blocks leave no conflict
    behind. *)

From Stdlib Require Import ZArith Lia Bool Permutation.
From stdpp Require Import base option numbers list gmap relations sorting.
From S2P Require Import Prelude BaseUInt UInt256 Serialize Transaction Script Coins CoinsCache BlockIndex Validation IndexUpdates FeeEstimator Mempool.

Open Scope Z_scope.
Open Scope outcome_scope.

Abbreviation ins_of e := (vin (tx_body (entry_tx e))).

(** ** Sums over the pool *)

Lemma foldr_add_perm l l' : l ≡ₚ l' -> foldr Z.add 0 l = foldr Z.add 0 l'.
Proof. induction 1; cbn; lia. Qed.

Lemma pool_sum_insert f m h e : m !! h = None -> pool_sum f (<[h := e]> m) = f e + pool_sum f m.
Proof. intros Hn. unfold pool_sum. rewrite (foldr_add_perm _ _ (fmap_Permutation _ _ _ (map_to_list_insert m h e Hn))). done. Qed.

Lemma pool_sum_delete f m h e : m !! h = Some e -> pool_sum f m = f e + pool_sum f (delete h m).
Proof. intros He. rewrite <- (pool_sum_insert f (delete h m) h e) by apply lookup_delete_eq. by rewrite insert_delete_eq, insert_id. Qed.

Lemma pool_sum_nonneg f m : (forall e, 0 <= f e) -> 0 <= pool_sum f m.
Proof. intros Hf. unfold pool_sum. induction (map_to_list m) as [|[h e] l IH]; cbn; [lia|]. specialize (Hf e). lia. Qed.

(** ** The invariant *)

Definition spends_at (p : CTxMemPool) (o : COutPoint) (h : list Z) (i : nat) : Prop := exists e inp, mapTx p !! h = Some e /\ ins_of e !! i = Some inp /\ prevout inp = o.

Record pool_ok (p : CTxMemPool) : Prop := mkPoolOk {
  po_hash : forall h e, mapTx p !! h = Some e -> (tx_hash (entry_tx e) : list Z) = h;
  po_next : forall o h i, mapNextTx p !! o = Some (mkInPoint h (Z.of_nat i)) <-> spends_at p o h i;
  po_index : forall o q, mapNextTx p !! o = Some q -> 0 <= inpoint_n q;
  po_bare : forall b h, mapBareTxid p !! b = Some h -> exists e, mapTx p !! h = Some e /\ (GetBareTxid (entry_tx e) : list Z) = b;
  po_size : totalTxSize p = u64 (pool_sum nTxSize (mapTx p))
}.

(** No output is spent twice in the pool. *)
Lemma pool_no_conflict p o h i h' i' : pool_ok p -> spends_at p o h i -> spends_at p o h' i' -> h' = h /\ i' = i.
Proof.
  intros Hp H1 H2. apply (po_next p Hp) in H1, H2. rewrite H1 in H2. injection H2 as E1 E2. split; [done | lia].
Qed.

Lemma next_some p o q : pool_ok p -> mapNextTx p !! o = Some q -> spends_at p o (ptx q) (Z.to_nat (inpoint_n q)).
Proof. intros Hp Hq. apply (po_next p Hp). pose proof (po_index p Hp o q Hq). rewrite Hq, Z2Nat.id by done. by destruct q. Qed.

Lemma next_known p o q : pool_ok p -> mapNextTx p !! o = Some q -> is_Some (mapTx p !! ptx q).
Proof. intros Hp Hq. destruct (next_some p o q Hp Hq) as (e & _ & He & _). by exists e. Qed.

Lemma pool_new_ok : pool_ok CTxMemPool_new.
Proof.
  split; try done.
  intros o h i. split; [done|]. by intros (e & inp & He & _).
Qed.

(** The fields the invariant is about. *)
Definition same_pool (p p' : CTxMemPool) : Prop :=
  mapTx p' = mapTx p /\ mapNextTx p' = mapNextTx p /\ mapBareTxid p' = mapBareTxid p /\ totalTxSize p' = totalTxSize p.

Lemma same_pool_ok p p' : same_pool p p' -> pool_ok p -> pool_ok p'.
Proof.
  intros (E1 & E2 & E3 & E4) [H1 H2 H3 H4 H5]. split; rewrite ?E1, ?E2, ?E3, ?E4; try done. intros o h i. rewrite H2. unfold spends_at. by rewrite E1.
Qed.

#[global] Instance same_pool_preorder : PreOrder same_pool.
Proof. split; [done|]. intros p1 p2 p3 (A1 & A2 & A3 & A4) (B1 & B2 & B3 & B4). split_and!; congruence. Qed.

Lemma removeAddressIndex_same p h : same_pool p (removeAddressIndex p h).
Proof. unfold removeAddressIndex. by destruct (mapAddressInserted p !! h). Qed.
Lemma removeSpentIndex_same p h : same_pool p (removeSpentIndex p h).
Proof. unfold removeSpentIndex. by destruct (mapSpentInserted p !! h). Qed.
Lemma unindexed_same p h : same_pool p (removeSpentIndex (removeAddressIndex p h) h).
Proof. etransitivity; [apply removeAddressIndex_same | apply removeSpentIndex_same]. Qed.

(** ** Adding *)

Lemma next_of_spec h : forall l k (next : gmap COutPoint CInPoint) o, NoDup (map prevout l) ->
  foldl (fun m x => <[prevout (snd x) := mkInPoint h (Z.of_nat (fst x))]> m) next (imap (fun i x => (k + i, x))%nat l) !! o =
  match list_find (fun i => prevout i = o) l with Some (i, _) => Some (mkInPoint h (Z.of_nat (k + i))) | None => next !! o end.
Proof.
  induction l as [|x l IH]; intros k next o Hn; [done|]. cbn [imap foldl fst snd map] in *. apply NoDup_cons in Hn as [Hx Hn].
  rewrite (imap_ext _ (fun i y => (S k + i, y))%nat) by (intros; cbn; f_equal; lia). rewrite (IH (S k) _ o Hn). cbn [list_find]. destruct (decide (prevout x = o)) as [<-|Hne].
  - destruct (list_find (fun i => prevout i = prevout x) l) as [[j y]|] eqn:E.
    + exfalso. apply list_find_Some in E as (Hj & Hy & _). apply Hx. rewrite <- Hy. apply list_elem_of_fmap. exists y. split; [done | by eapply list_elem_of_lookup_2].
    + rewrite lookup_insert_eq. do 2 f_equal; lia.
  - destruct (list_find (fun i => prevout i = o) l) as [[j y]|]; cbn; [do 3 f_equal; lia | by rewrite lookup_insert_ne].
Qed.

Lemma next_of_lookup tx h next o : NoDup (map prevout (vin (tx_body tx))) ->
  next_of tx h next !! o = match list_find (fun i => prevout i = o) (vin (tx_body tx)) with Some (i, _) => Some (mkInPoint h (Z.of_nat i)) | None => next !! o end.
Proof. intros Hn. unfold next_of. exact (next_of_spec h (vin (tx_body tx)) 0 next o Hn). Qed.

(** What [AcceptToMemoryPool] checks of a new transaction and the pool. *)
Definition admissible (p : CTxMemPool) (hash : list Z) (e : CTxMemPoolEntry) : Prop :=
  (tx_hash (entry_tx e) : list Z) = hash /\ mapTx p !! hash = None /\ NoDup (map prevout (ins_of e)) /\ (forall inp, inp ∈ ins_of e -> mapNextTx p !! prevout inp = None).

Lemma add_entry_ok p hash e updated : pool_ok p -> admissible p hash e ->
  pool_ok (with_transactions p updated (u64 (totalTxSize p + nTxSize e)) (map_insert (mapBareTxid p) (GetBareTxid (entry_tx e)) hash) (<[hash := e]> (mapTx p)) (next_of (entry_tx e) hash (mapNextTx p))).
Proof.
  intros Hp (Hh & Hnew & Hnd & Hfree). set (p' := with_transactions _ _ _ _ _ _).
  assert (forall o h i, spends_at p' o h i <-> (h = hash /\ exists inp, ins_of e !! i = Some inp /\ prevout inp = o) \/ (h <> hash /\ spends_at p o h i)) as Hsp.
  { intros o h i. unfold spends_at. cbn [p' with_transactions mapTx]. split.
    - intros (e' & inp & He & Hi & Ho). destruct (decide (h = hash)) as [->|Hne]; [rewrite lookup_insert_eq in He; injection He as <-; left; split; [done|]; by exists inp|]. rewrite lookup_insert_ne in He by done. right. split; [done|]. by exists e', inp.
    - intros [[-> (inp & Hi & Ho)]|[Hne (e' & inp & He & Hi & Ho)]]; [exists e, inp; by rewrite lookup_insert_eq | exists e', inp; by rewrite lookup_insert_ne]. }
  split.
  - intros h e' He. cbn in He. destruct (decide (h = hash)) as [->|Hne]; [rewrite lookup_insert_eq in He; by injection He as <-|]. rewrite lookup_insert_ne in He by done. by apply (po_hash p Hp).
  - intros o h i. rewrite Hsp. cbn [p' with_transactions mapNextTx]. rewrite next_of_lookup by done. destruct (list_find _ _) as [[j x]|] eqn:E.
    + apply list_find_Some in E as (Hj & Hx & _). split.
      * intros [= <- Hij]. left. split; [done|]. exists x. by replace i with j by lia.
      * intros [[-> (inp & Hi & Ho)]|[Hne Hs]].
        -- do 3 f_equal. rewrite NoDup_alt in Hnd. apply (Hnd j i (prevout x)); rewrite list_lookup_fmap; [by rewrite Hj | rewrite Hi; cbn; congruence].
        -- exfalso. apply (po_next p Hp) in Hs. rewrite <- Hx, Hfree in Hs; [done | by eapply list_elem_of_lookup_2].
    + apply list_find_None in E. rewrite (po_next p Hp). split.
      * intros Hs. destruct (decide (h = hash)) as [->|Hne]; [|by right]. destruct Hs as (e' & _ & He & _). congruence.
      * intros [[-> (inp & Hi & Ho)]|[Hne Hs]]; [|done]. exfalso. rewrite List.Forall_forall in E. apply (E inp); [apply list_elem_of_In; by eapply list_elem_of_lookup_2 | done].
  - intros o q Hq. cbn [p' with_transactions mapNextTx] in Hq. rewrite next_of_lookup in Hq by done. destruct (list_find _ _) as [[j x]|]; [injection Hq as <-; cbn; lia | by apply (po_index p Hp o)].
  - intros b h Hb. cbn [p' with_transactions mapBareTxid mapTx] in *. unfold map_insert in Hb. destruct (mapBareTxid p !! (GetBareTxid (entry_tx e) : list Z)) eqn:E.
    + destruct (po_bare p Hp b h Hb) as (e' & He & H). exists e'. rewrite lookup_insert_ne; [done | congruence].
    + destruct (decide (b = GetBareTxid (entry_tx e))) as [->|Hne].
      * rewrite lookup_insert_eq in Hb. injection Hb as <-. exists e. by rewrite lookup_insert_eq.
      * rewrite lookup_insert_ne in Hb by done. destruct (po_bare p Hp b h Hb) as (e' & He & H). exists e'. rewrite lookup_insert_ne; [done | congruence].
  - cbn [p' with_transactions totalTxSize mapTx]. rewrite pool_sum_insert by done. rewrite (po_size p Hp). unfold u64. rewrite Zplus_mod_idemp_l. f_equal. lia.
Qed.

(** ** Removing one entry *)

Definition drop_entry (p : CTxMemPool) (hash : list Z) (e : CTxMemPoolEntry) (updated : Z) : CTxMemPool :=
  with_transactions p updated (u64 (totalTxSize p - nTxSize e)) (delete (GetBareTxid (entry_tx e) : list Z) (mapBareTxid p)) (delete hash (mapTx p))
    (foldl (fun m i => delete (prevout i) m) (mapNextTx p) (ins_of e)).

Lemma delete_prevouts l : forall (next : gmap COutPoint CInPoint) o,
  foldl (fun m i => delete (prevout i) m) next l !! o = if bool_decide (o ∈ map prevout l) then None else next !! o.
Proof.
  induction l as [|x l IH]; intros next o; [done|]. cbn [foldl map]. rewrite IH. destruct (decide (o = prevout x)) as [->|Hne].
  - rewrite (bool_decide_eq_true_2 (prevout x ∈ prevout x :: map prevout l)) by (by left). rewrite lookup_delete_eq. by case_bool_decide.
  - rewrite lookup_delete_ne by done. destruct (decide (o ∈ map prevout l)); [rewrite !bool_decide_eq_true_2; [done | by right | done]|].
    rewrite !bool_decide_eq_false_2; [done | by intros [?|?]%elem_of_cons | done].
Qed.

Lemma drop_entry_ok p hash e updated : pool_ok p -> mapTx p !! hash = Some e -> pool_ok (drop_entry p hash e updated).
Proof.
  intros Hp He. set (p' := drop_entry p hash e updated).
  assert (forall o h i, spends_at p' o h i <-> h <> hash /\ spends_at p o h i) as Hsp.
  { intros o h i. unfold spends_at. cbn [p' drop_entry with_transactions mapTx]. split.
    - intros (e' & inp & He' & H). destruct (decide (h = hash)) as [->|Hne]; [by rewrite lookup_delete_eq in He'|]. rewrite lookup_delete_ne in He' by done. split; [done|]. by exists e', inp.
    - intros [Hne (e' & inp & He' & H)]. exists e', inp. by rewrite lookup_delete_ne. }
  split.
  - intros h e' He'. cbn in He'. apply lookup_delete_Some in He' as [_ He']. by apply (po_hash p Hp).
  - intros o h i. rewrite Hsp. cbn [p' drop_entry with_transactions mapNextTx]. rewrite delete_prevouts. case_bool_decide as Hin.
    + split; [done|]. intros [Hne Hs]. exfalso. apply list_elem_of_fmap in Hin as (inp & -> & Hin). apply list_elem_of_lookup_1 in Hin as [j Hj].
      assert (spends_at p (prevout inp) hash j) as Hs' by (by exists e, inp). by destruct (pool_no_conflict p _ h i hash j Hp Hs Hs') as [-> _].
    + rewrite (po_next p Hp). split; [|by intros []]. intros Hs. split; [|done]. intros ->. apply Hin. destruct Hs as (e' & inp & He' & Hi & <-). assert (e' = e) as -> by congruence.
      apply list_elem_of_fmap. exists inp. split; [done | by eapply list_elem_of_lookup_2].
  - intros o q Hq. cbn [p' drop_entry with_transactions mapNextTx] in Hq. rewrite delete_prevouts in Hq. case_bool_decide; [done|]. by apply (po_index p Hp o).
  - intros b h Hb. cbn [p' drop_entry with_transactions mapBareTxid mapTx] in *. apply lookup_delete_Some in Hb as [Hne Hb]. destruct (po_bare p Hp b h Hb) as (e' & He' & H). exists e'.
    rewrite lookup_delete_ne; [done|]. intros ->. congruence.
  - cbn [p' drop_entry with_transactions totalTxSize mapTx]. rewrite (po_size p Hp), (pool_sum_delete nTxSize (mapTx p) hash e He). unfold u64. rewrite Zminus_mod_idemp_l. f_equal. lia.
Qed.

(** ** Descendants *)

(** The pool transaction [c] spends an output of the transaction [h] of [n] outputs. *)
Definition spends_output (p : CTxMemPool) (h : list Z) (n : nat) (c : list Z) : Prop := exists i j, (i < n)%nat /\ spends_at p (mkOutPoint h (Z.of_nat i)) c j.
Definition child_of (p : CTxMemPool) (h c : list Z) : Prop := exists e, mapTx p !! h = Some e /\ spends_output p h (length (vout (tx_body (entry_tx e)))) c.

Lemma spenders_spec p h n l : pool_ok p -> (forall i, i ∈ l -> (i < n)%nat) ->
  exists r, spenders p h l = Ret r /\ (length r <= length l)%nat /\ (forall c, c ∈ r -> spends_output p h n c) /\
    (forall i c j, i ∈ l -> spends_at p (mkOutPoint h (Z.of_nat i)) c j -> c ∈ r).
Proof.
  intros Hp. induction l as [|i l IH]; intros Hl; cbn [spenders].
  { exists []. split; [done|]. split; [done|]. split; [by intros c H%elem_of_nil | by intros i c j H%elem_of_nil]. }
  destruct IH as (r & Er & Hlen & H1 & H2); [intros j Hj; apply Hl; by right|]. destruct (mapNextTx p !! mkOutPoint h (Z.of_nat i)) as [q|] eqn:Eq.
  - pose proof (next_some p _ q Hp Eq) as Hs. pose proof Hs as (e & inp & He & _). unfold deref_tx. rewrite He. cbn [oaccess obind]. rewrite Er. cbn [obind]. rewrite (po_hash p Hp _ e He).
    eexists. split; [reflexivity|]. split; [cbn; lia|]. split.
    + intros c [->|Hc]%elem_of_cons; [|by apply H1]. exists i, (Z.to_nat (inpoint_n q)). split; [apply Hl; by left | done].
    + intros k c j [->|Hk]%elem_of_cons Hc; [|right; by apply (H2 k c j)]. destruct (pool_no_conflict p _ _ _ c j Hp Hs Hc) as [-> _]. by left.
  - rewrite Er. exists r. split; [done|]. split; [cbn; lia|]. split; [done|]. intros k c j [->|Hk]%elem_of_cons Hc; [|by apply (H2 k c j)]. apply (po_next p Hp) in Hc. congruence.
Qed.

Lemma spenders_all p h tx : pool_ok p -> exists r, spenders p h (output_indices tx) = Ret r /\ (length r <= length (vout (tx_body tx)))%nat /\
  (forall c, c ∈ r <-> spends_output p h (length (vout (tx_body tx))) c).
Proof.
  intros Hp. destruct (spenders_spec p h (length (vout (tx_body tx))) (output_indices tx) Hp) as (r & Er & Hl & H1 & H2); [intros i Hi; by apply elem_of_seq in Hi as [_ Hi]|].
  exists r. split; [done|]. split; [unfold output_indices in Hl; by rewrite length_seq in Hl|]. intros c. split; [by apply H1|]. intros (i & j & Hi & Hs). apply (H2 i c j); [|done]. apply elem_of_seq. lia.
Qed.

(** ** Removal *)

(** The pool has lost entries, and nothing else. *)
Definition subpool (p p' : CTxMemPool) : Prop := forall h, mapTx p' !! h = mapTx p !! h \/ mapTx p' !! h = None.
Definition gone (p p' : CTxMemPool) (h : list Z) : Prop := is_Some (mapTx p !! h) /\ mapTx p' !! h = None.

#[global] Instance subpool_preorder : PreOrder subpool.
Proof.
  split; [by intros p h; left|]. intros p1 p2 p3 H1 H2 h. destruct (H2 h) as [-> | E]; [apply H1 | by right].
Qed.

Lemma subpool_lookup p p' h e : subpool p p' -> mapTx p' !! h = Some e -> mapTx p !! h = Some e.
Proof. intros Hs He. destruct (Hs h) as [E|E]; congruence. Qed.

Lemma subpool_spends p p' o h i : subpool p p' -> spends_at p' o h i -> spends_at p o h i.
Proof. intros Hs (e & inp & He & H). exists e, inp. split; [by apply (subpool_lookup p p') | done]. Qed.

Lemma subpool_next p p' o : pool_ok p -> pool_ok p' -> subpool p p' -> mapNextTx p !! o = None -> mapNextTx p' !! o = None.
Proof.
  intros Hp Hp' Hs Hn. destruct (mapNextTx p' !! o) as [q|] eqn:E; [|done]. apply next_some, (subpool_spends p), (po_next p Hp) in E; [congruence | done | done].
Qed.

Lemma subpool_children p p' h c : subpool p p' -> child_of p' h c -> child_of p h c.
Proof.
  intros Hs (e & He & i & j & Hi & Hsp). exists e. split; [by apply (subpool_lookup p p')|]. exists i, j. split; [done | by apply (subpool_spends p p')].
Qed.

Lemma gone_trans p1 p2 p3 h : subpool p1 p2 -> subpool p2 p3 -> gone p1 p3 h <-> gone p1 p2 h \/ gone p2 p3 h.
Proof.
  intros H1 H2. unfold gone. split.
  - intros [[e He] Hn]. destruct (H1 h) as [E|E]; [right; rewrite E; split; [by exists e | done] | left; split; [by exists e | done]].
  - intros [[Hs Hn]|[[e He] Hn]]; [split; [done|]; destruct (H2 h) as [E|E]; congruence | split; [exists e; by apply (subpool_lookup p1 p2) | done]].
Qed.

(** The removed transactions are listed, each once. *)
Definition listed (p p' : CTxMemPool) (l : list CTransaction) : Prop :=
  NoDup (map (fun tx => (tx_hash tx : list Z)) l) /\ forall tx, tx ∈ l <-> exists h e, mapTx p !! h = Some e /\ entry_tx e = tx /\ mapTx p' !! h = None.

(** What removing leaves alone. *)
Definition same_rest (p p' : CTxMemPool) : Prop := minerPolicyEstimator p' = minerPolicyEstimator p /\ mapDeltas p' = mapDeltas p.

Lemma unindexed_rest p h : same_rest p (removeSpentIndex (removeAddressIndex p h) h).
Proof.
  unfold removeSpentIndex, removeAddressIndex. destruct (mapAddressInserted p !! h); cbn [with_address mapSpentInserted]; by destruct (mapSpentInserted p !! h).
Qed.

Lemma remove_loop_spec rec fuel : forall queue p removed, pool_ok p -> (length queue + Z.to_nat (pool_sum outputs_of (mapTx p)) <= fuel)%nat ->
  exists p' l, remove_loop fuel rec queue p removed = Ret (p', removed ++ l) /\ pool_ok p' /\ subpool p p' /\ same_rest p p' /\ listed p p' l /\
    (forall h, h ∈ queue -> mapTx p' !! h = None) /\
    (forall h, gone p p' h -> exists q, q ∈ queue /\ if rec then rtc (child_of p) q h else h = q) /\
    (rec = true -> forall h c, gone p p' h -> child_of p h c -> mapTx p' !! c = None).
Proof.
  assert (forall p (removed : list CTransaction), pool_ok p -> exists p' l, Ret (E := Empty_set) (p, removed) = Ret (p', removed ++ l) /\ pool_ok p' /\ subpool p p' /\ same_rest p p' /\ listed p p' l /\
    (forall h : list Z, h ∈ [] -> mapTx p' !! h = None) /\ (forall h, gone p p' h -> exists q : list Z, q ∈ [] /\ if rec then rtc (child_of p) q h else h = q) /\
    (rec = true -> forall h c, gone p p' h -> child_of p h c -> mapTx p' !! c = None)) as Hnil.
  { intros p removed Hp. exists p, []. rewrite app_nil_r. assert (forall h, ~ gone p p h) as Hg by (intros h [[e He] Hn]; congruence).
    split; [done|]. split; [done|]. split; [done|]. split; [done|]. split; [split; [constructor|]; intros tx; split; [by intros H%elem_of_nil | intros (h & e & He & _ & Hn); congruence]|].
    split; [by intros h H%elem_of_nil|]. split; [intros h H; by apply Hg in H | intros _ h c H; by apply Hg in H]. }
  induction fuel as [|fuel IH]; intros [|q queue] p removed Hp Hf; try (cbn [remove_loop]; by apply Hnil); [cbn in Hf; lia|].
  cbn [remove_loop]. destruct (mapTx p !! q) as [e|] eqn:Ee.
  2:{ destruct (IH queue p removed Hp) as (p' & l & E & H1 & H2 & H3 & H4 & H5 & H6 & H7); [cbn in Hf; lia|]. exists p', l. split; [done|]. split; [done|]. split; [done|]. split; [done|]. split; [done|]. split.
      - intros h [->|Hh]%elem_of_cons; [|by apply H5]. destruct (H2 q) as [E2|E2]; congruence.
      - split; [|done]. intros h Hh. destruct (H6 h Hh) as (x & Hx & Hxh). exists x. split; [by right | done]. }
  pose proof (unindexed_same p q) as Hsame. pose proof (unindexed_rest p q) as Hrest. set (p0 := removeSpentIndex (removeAddressIndex p q) q) in *. pose proof (same_pool_ok p p0 Hsame Hp) as Hp0.
  destruct Hsame as (E1 & E2 & E3 & E4). assert (mapTx p0 !! q = Some e) as He0 by (by rewrite E1).
  destruct (spenders_all p0 q (entry_tx e) Hp0) as (r & Er & Hrl & Hr).
  assert (exists ch, (if rec then spenders p0 q (output_indices (entry_tx e)) else Ret []) = Ret ch /\ (length ch <= length (vout (tx_body (entry_tx e))))%nat /\
    (forall c, c ∈ ch -> rec = true /\ child_of p q c) /\ (rec = true -> forall c, child_of p q c -> c ∈ ch)) as (ch & Ech & Hchl & Hch1 & Hch2).
  { assert (forall c, spends_output p0 q (length (vout (tx_body (entry_tx e)))) c <-> child_of p q c) as Hiff.
    { intros c. unfold child_of, spends_output, spends_at. rewrite E1. split; [intros H; exists e; by split | intros (e' & He' & H); by replace e with e' by congruence]. }
    destruct rec; [exists r | exists []; split; [done|]; split; [cbn; lia|]; split; [by intros c H%elem_of_nil | done]]. split; [done|]. split; [done|]. split; [|intros _]; intros c; rewrite Hr, Hiff; [done|auto]. }
  rewrite Ech. cbn [obind]. fold (drop_entry p0 q e (u32 (nTransactionsUpdated p0 + 1))). set (p1 := drop_entry p0 q e _). pose proof (drop_entry_ok p0 q e (u32 (nTransactionsUpdated p0 + 1)) Hp0 He0) as Hp1. fold p1 in Hp1.
  assert (subpool p p1) as Hsub1.
  { intros h. cbn [p1 drop_entry with_transactions mapTx]. rewrite E1. destruct (decide (h = q)) as [->|Hne]; [right; apply lookup_delete_eq | left; by rewrite lookup_delete_ne]. }
  assert (forall h, gone p p1 h <-> h = q) as Hgone1.
  { intros h. unfold gone. cbn [p1 drop_entry with_transactions mapTx]. rewrite E1. split; [intros [[e' He'] Hn]; apply lookup_delete_None in Hn as [?|?]; congruence|]. intros ->. split; [by exists e | apply lookup_delete_eq]. }
  destruct (IH (queue ++ ch) p1 (removed ++ [entry_tx e]) Hp1) as (p' & l & E & H1 & H2 & H3 & [H4a H4b] & H5 & H6 & H7).
  { cbn [p1 drop_entry with_transactions mapTx]. rewrite E1. rewrite (pool_sum_delete outputs_of (mapTx p) q e Ee) in Hf. rewrite length_app. cbn in Hf.
    pose proof (pool_sum_nonneg outputs_of (delete q (mapTx p)) ltac:(intros; unfold outputs_of, zlen; lia)). unfold outputs_of at 1 in Hf. unfold zlen in Hf. lia. }
  pose proof (gone_trans p p1 p') as Hgt. exists p', (entry_tx e :: l). rewrite E, <- app_assoc. split; [done|]. split; [done|]. split; [by etransitivity|]. split.
  { destruct Hrest as [A1 A2], H3 as [B1 B2]. split; [by rewrite B1 | by rewrite B2]. }
  assert (forall h, gone p p' h <-> h = q \/ gone p1 p' h) as Hgone by (intros h; rewrite Hgt by done; by rewrite Hgone1).
  split.
  { split.
    - cbn [map]. constructor; [|done]. intros Hin. apply list_elem_of_fmap in Hin as (tx & Htx & Hin). rewrite (po_hash p Hp q e Ee) in Htx.
      apply H4b in Hin as (h & e' & He' & <- & _). rewrite (po_hash p1 Hp1 h e' He') in Htx. subst h. cbn in He'. by rewrite lookup_delete_eq in He'.
    - intros tx. split.
      + intros [->|Hin]%elem_of_cons; [exists q, e; split; [done|]; split; [done|]; apply Hgone; by left|]. apply H4b in Hin as (h & e' & He' & Et & Hn). exists h, e'. split; [by apply (subpool_lookup p p1) | done].
      + intros (h & e' & He' & <- & Hn). destruct (decide (h = q)) as [->|Hne]; [replace e' with e by congruence; by left | right]. apply H4b. exists h, e'. split; [|done]. cbn. by rewrite E1, lookup_delete_ne. }
  split.
  { intros h [->|Hh]%elem_of_cons; [|apply H5, elem_of_app; by left]. apply Hgone. by left. }
  split.
  - intros h Hh. apply Hgone in Hh as [->|Hh]; [exists q; split; [by left|]; destruct rec; [apply rtc_refl | done]|]. destruct (H6 h Hh) as (x & Hx & Hxh). apply elem_of_app in Hx as [Hx|Hx].
    + exists x. split; [by right|]. destruct rec; [|done]. eapply rtc_subrel; [|exact Hxh]. intros a b. by apply subpool_children.
    + destruct (Hch1 x Hx) as [-> Hc]. exists q. split; [by left|]. eapply rtc_l; [exact Hc|]. eapply rtc_subrel; [|exact Hxh]. intros a b. by apply subpool_children.
  - intros -> h c Hh Hc. apply Hgone in Hh as [->|Hh].
    + apply H5, elem_of_app. right. by apply Hch2.
    + destruct (decide (c = q)) as [->|Hne]; [apply Hgone; by left|]. apply (H7 eq_refl h c Hh). destruct Hc as (eh & Heh & i & j & Hi & (ec & inp & Hec & Hin)). destruct Hh as [[eh' Heh'] _].
      exists eh. assert (mapTx p1 !! h = Some eh) as Heh1 by (pose proof (subpool_lookup p p1 h eh' Hsub1 Heh'); congruence). split; [done|]. exists i, j. split; [done|]. exists ec, inp. split; [|done].
      cbn. rewrite E1. by rewrite lookup_delete_ne.
Qed.

(** The descendants of the removed entries are removed. *)
Definition closed (p p' : CTxMemPool) : Prop := forall h c, gone p p' h -> child_of p h c -> mapTx p' !! c = None.

Lemma closed_trans p1 p2 p3 : subpool p1 p2 -> subpool p2 p3 -> closed p1 p2 -> closed p2 p3 -> closed p1 p3.
Proof.
  intros S1 S2 C1 C2 h c Hg Hc. apply (gone_trans p1 p2 p3 h S1 S2) in Hg as [Hg|Hg].
  - pose proof (C1 h c Hg Hc) as Hn. destruct (S2 c) as [E|E]; congruence.
  - destruct (mapTx p2 !! c) as [ec|] eqn:Ec; [|destruct (S2 c) as [E|E]; congruence]. apply (C2 h c Hg). destruct Hg as [[eh Heh] _]. destruct Hc as (e & He & i & j & Hi & (e' & inp & He' & Hin)).
    pose proof (subpool_lookup p1 p2 h eh S1 Heh). pose proof (subpool_lookup p1 p2 c ec S1 Ec). exists e. split; [congruence|]. exists i, j. split; [done|]. exists e', inp. split; [congruence | done].
Qed.

Lemma closed_rtc p p' g h : closed p p' -> (is_Some (mapTx p !! g) -> mapTx p' !! g = None) -> rtc (child_of p) g h -> is_Some (mapTx p !! h) -> mapTx p' !! h = None.
Proof.
  intros Hc Hg Hr. induction Hr as [g|g c h Hgc Hr IH]; [done|]. apply IH. intros _. apply (Hc g c); [|done]. pose proof Hgc as (e & He & _). split; [by exists e|]. apply Hg. by exists e.
Qed.

Lemma listed_nil p : listed p p [].
Proof. split; [constructor|]. intros tx. split; [by intros H%elem_of_nil | intros (h & e & He & _ & Hn); congruence]. Qed.

Lemma listed_trans p1 p2 p3 l1 l2 : pool_ok p1 -> pool_ok p2 -> subpool p1 p2 -> subpool p2 p3 -> listed p1 p2 l1 -> listed p2 p3 l2 -> listed p1 p3 (l1 ++ l2).
Proof.
  intros O1 O2 S1 S2 [N1 L1] [N2 L2]. split.
  - rewrite map_app. apply NoDup_app. split; [done|]. split; [|done]. intros x Hx Hx'. apply list_elem_of_fmap in Hx as (t1 & -> & Ht1). apply list_elem_of_fmap in Hx' as (t2 & Et & Ht2).
    apply L1 in Ht1 as (h1 & e1 & He1 & <- & Hn1). apply L2 in Ht2 as (h2 & e2 & He2 & <- & Hn2). rewrite (po_hash p1 O1 h1 e1 He1), (po_hash p2 O2 h2 e2 He2) in Et. congruence.
  - intros tx. rewrite elem_of_app, L1, L2. split.
    + intros [(h & e & He & Et & Hn)|(h & e & He & Et & Hn)]; exists h, e; [split; [done|]; split; [done|]; destruct (S2 h); congruence | split; [by apply (subpool_lookup p1 p2) | done]].
    + intros (h & e & He & Et & Hn). destruct (mapTx p2 !! h) as [e2|] eqn:E2; [right | left; by exists h, e]. exists h, e. split; [|done]. rewrite <- He, E2. symmetry. by apply (subpool_lookup p1 p2).
Qed.

Lemma same_rest_trans p1 p2 p3 : same_rest p1 p2 -> same_rest p2 p3 -> same_rest p1 p3.
Proof. intros [A1 A2] [B1 B2]. split; congruence. Qed.

(** [origTx] and what spends its outputs, directly or not. *)
Definition descends (p : CTxMemPool) (origTx : CTransaction) (h : list Z) : Prop :=
  h = tx_hash origTx \/
  exists c, (if decide (mapTx p !! (tx_hash origTx : list Z) = None) then spends_output p (tx_hash origTx) (length (vout (tx_body origTx))) c else child_of p (tx_hash origTx) c) /\ rtc (child_of p) c h.

Lemma remove_recursive p tx removed : pool_ok p ->
  exists p' l, remove p tx removed true = Ret (p', removed ++ l) /\ pool_ok p' /\ subpool p p' /\ same_rest p p' /\ listed p p' l /\ closed p p' /\
    forall h, mapTx p' !! h = None <-> mapTx p !! h = None \/ descends p tx h.
Proof.
  intros Hp. unfold remove. cbn [andb]. set (b := bool_decide _).
  assert (exists ch, (if b then spenders p (tx_hash tx) (output_indices tx) else Ret []) = Ret ch /\
    forall c, c ∈ ch <-> b = true /\ spends_output p (tx_hash tx) (length (vout (tx_body tx))) c) as (ch & -> & Hch).
  { destruct b; [|exists []; split; [done|]; intros c; split; [by intros H%elem_of_nil | by intros [? _]]]. destruct (spenders_all p (tx_hash tx) tx Hp) as (r & Er & _ & Hr). exists r. split; [done|].
    intros c. rewrite Hr. split; [done | by intros []]. }
  cbn [obind]. destruct (remove_loop_spec true (S (length ch) + Z.to_nat (pool_sum outputs_of (mapTx p))) ((tx_hash tx : list Z) :: ch) p removed Hp ltac:(cbn; lia))
    as (p' & l & -> & H1 & H2 & H3 & H4 & H5 & H6 & H7). exists p', l. split; [done|]. split; [done|]. split; [done|]. split; [done|]. split; [done|]. specialize (H7 eq_refl). split; [exact H7|].
  intros h. split.
  - intros Hn. destruct (mapTx p !! h) as [e|] eqn:Ee; [right | by left]. destruct (H6 h) as (q & Hq & Hr); [split; [by exists e | done]|]. apply elem_of_cons in Hq as [->|Hq].
    + apply rtc_inv in Hr as [<-|(c & Hc & Hr)]; [by left|]. right. exists c. split; [|done]. destruct (decide _) as [Hd|]; [|done]. destruct Hc as (e' & He' & _). congruence.
    + apply Hch in Hq as [Hb Hq]. unfold b in Hb. apply bool_decide_eq_true in Hb. right. exists q. split; [by rewrite decide_True | done].
  - intros [Hn|[->|(c & Hc & Hr)]]; [destruct (H2 h); congruence | apply H5; by left|]. destruct (mapTx p !! h) as [e|] eqn:Ee; [|destruct (H2 h); congruence].
    apply (closed_rtc p p' c h H7); [|done | by exists e]. intros _. destruct (decide (mapTx p !! (tx_hash tx : list Z) = None)) as [Hd|Hd].
    + apply H5. right. apply Hch. split; [by apply bool_decide_eq_true | done].
    + apply (H7 (tx_hash tx) c); [|done]. split; [by apply not_eq_None_Some | apply H5; by left].
Qed.

Lemma remove_single p tx removed : pool_ok p ->
  exists p' l, remove p tx removed false = Ret (p', removed ++ l) /\ pool_ok p' /\ subpool p p' /\ same_rest p p' /\ forall h : list Z, mapTx p' !! h = None <-> mapTx p !! h = None \/ h = tx_hash tx.
Proof.
  intros Hp. unfold remove. cbn [andb obind]. destruct (remove_loop_spec false (S (length (@nil (list Z))) + Z.to_nat (pool_sum outputs_of (mapTx p))) [tx_hash tx : list Z] p removed Hp ltac:(cbn; lia))
    as (p' & l & -> & H1 & H2 & H3 & _ & H5 & H6 & _). exists p', l. split; [done|]. split; [done|]. split; [done|]. split; [done|].
  intros h. split.
  - intros Hn. destruct (mapTx p !! h) as [e|] eqn:Ee; [right | by left]. destruct (H6 h) as (q & Hq & ->); [split; [by exists e | done]|]. by apply list_elem_of_singleton in Hq.
  - intros [Hn | ->]; [destruct (H2 h); congruence | apply H5; by left].
Qed.

(** ** Conflicts *)

(** A transaction of the pool other than [tx] that spends an input of it. *)
Definition conflicts_with (p : CTxMemPool) (tx : CTransaction) (ins : list CTxIn) (c : list Z) : Prop := exists inp i, inp ∈ ins /\ spends_at p (prevout inp) c i /\ c <> tx_hash tx.

Lemma remove_conflicts_spec tx ins : forall p removed, pool_ok p ->
  exists p' l, remove_conflicts p tx ins removed = Ret (p', removed ++ l) /\ pool_ok p' /\ subpool p p' /\ same_rest p p' /\ listed p p' l /\ closed p p' /\
    (forall c, ~ conflicts_with p' tx ins c) /\ (forall h, gone p p' h -> exists c, conflicts_with p tx ins c /\ rtc (child_of p) c h).
Proof.
  assert (forall p p' removed ins x, pool_ok p -> pool_ok p' -> subpool p p' -> (forall c i, spends_at p' (prevout x) c i -> c = tx_hash tx) ->
    (exists p2 l, remove_conflicts p' tx ins removed = Ret (p2, removed ++ l) /\ pool_ok p2 /\ subpool p' p2 /\ same_rest p' p2 /\ listed p' p2 l /\ closed p' p2 /\
      (forall c, ~ conflicts_with p2 tx ins c) /\ (forall h, gone p' p2 h -> exists c, conflicts_with p' tx ins c /\ rtc (child_of p') c h)) ->
    exists p2 l, remove_conflicts p' tx ins removed = Ret (p2, removed ++ l) /\ pool_ok p2 /\ subpool p' p2 /\ same_rest p' p2 /\ listed p' p2 l /\ closed p' p2 /\
      (forall c, ~ conflicts_with p2 tx (x :: ins) c) /\ (forall h, gone p' p2 h -> exists c, conflicts_with p tx (x :: ins) c /\ rtc (child_of p) c h)) as Hstep.
  { intros p p' removed l x Hp Hp' Hs Hx (p2 & l2 & E & H1 & H2 & H3 & H4 & H5 & H6 & H7). exists p2, l2. split; [done|]. split; [done|]. split; [done|]. split; [done|]. split; [done|]. split; [done|]. split.
    - intros c (inp & i & Hin & Hsp & Hne). apply elem_of_cons in Hin as [->|Hin]; [|apply (H6 c); by exists inp, i]. apply Hne, (Hx c i). by apply (subpool_spends p' p2).
    - intros h Hh. destruct (H7 h Hh) as (c & (inp & i & Hin & Hsp & Hne) & Hr). exists c. split; [exists inp, i; split; [by right|]; split; [by apply (subpool_spends p p') | done]|].
      eapply rtc_subrel; [|exact Hr]. intros a b. by apply subpool_children. }
  induction ins as [|x ins IH]; intros p removed Hp; cbn [remove_conflicts].
  { exists p, []. rewrite app_nil_r. split; [done|]. split; [done|]. split; [done|]. split; [done|]. split; [apply listed_nil|]. assert (forall h, ~ gone p p h) as Hg by (intros h [[e He] Hn]; congruence).
    split; [intros h c Hh; by apply Hg in Hh|]. split; [intros c (inp & i & Hin & _); by apply elem_of_nil in Hin | intros h Hh; by apply Hg in Hh]. }
  destruct (mapNextTx p !! prevout x) as [q|] eqn:Eq.
  2:{ apply (Hstep p p removed ins x); [done | done | done | | by apply IH]. intros c i Hc. apply (po_next p Hp) in Hc. congruence. }
  pose proof (next_some p _ q Hp Eq) as Hs. pose proof Hs as (e & inp & He & Hi & Ho). unfold deref_tx. rewrite He. cbn [oaccess obind]. case_bool_decide as Hsame.
  { cbn [obind]. apply (Hstep p p removed ins x); [done | done | done | | by apply IH]. intros c i Hc. destruct (pool_no_conflict p _ _ _ c i Hp Hs Hc) as [-> _]. by rewrite <- Hsame, (po_hash p Hp _ e He). }
  destruct (remove_recursive p (entry_tx e) removed Hp) as (p1 & l1 & -> & Hp1 & Hs1 & Hr1 & Hl1 & Hc1 & Hd1). cbn [obind]. rewrite (po_hash p Hp _ e He) in Hsame.
  destruct (Hstep p p1 (removed ++ l1) ins x Hp Hp1 Hs1) as (p2 & l2 & E & H1 & H2 & H3 & H4 & H5 & H6 & H7); [| by apply IH |].
  - intros c i Hc. destruct (pool_no_conflict p _ _ _ c i Hp Hs (subpool_spends p p1 _ _ _ Hs1 Hc)) as [-> _]. exfalso. destruct Hc as (e' & _ & He' & _).
    assert (mapTx p1 !! ptx q = None) as Hn by (apply Hd1; right; left; by rewrite (po_hash p Hp _ e He)). congruence.
  - exists p2, (l1 ++ l2). rewrite E, <- app_assoc. split; [done|]. split; [done|]. split; [by etransitivity|]. split; [by eapply same_rest_trans|]. split; [by apply (listed_trans p p1 p2)|]. split; [by apply (closed_trans p p1 p2)|].
    split; [done|]. intros h Hh. apply (gone_trans p p1 p2 h Hs1 H2) in Hh as [[Hk Hn]|Hh]; [|by apply H7]. apply Hd1 in Hn as [Hn|[Hn|(c & Hc & Hr)]]; [destruct Hk; congruence | |].
    + rewrite (po_hash p Hp _ e He) in Hn. exists (ptx q). split; [exists x, (Z.to_nat (inpoint_n q)); split; [by left | done]|]. subst h. apply rtc_refl.
    + rewrite (po_hash p Hp _ e He) in Hc. rewrite decide_False in Hc by congruence. exists (ptx q). split; [exists x, (Z.to_nat (inpoint_n q)); split; [by left | done]|]. by eapply rtc_l.
Qed.

(** ** Blocks *)

Section PoolSteps.
Variables fAddressIndex_ fSpentIndex_ fSanityCheck : bool.
Variable minRelayFee : CFeeRate.
Variable random_shuffle : Z -> nat -> list CTxMemPoolEntry -> list CTxMemPoolEntry.
Variable COINBASE_MATURITY : Z.

(** Entries whose fee rate and priority can be computed. *)
Definition fits_int64 (x : Z) : Prop := - 2 ^ 63 <= x < 2 ^ 63.
Definition entry_sane (e : CTxMemPoolEntry) : Prop :=
  fits_int64 (entry_nFee e * FEE_INCREMENT_STEPSIZE) /\ exists out, GetValueOut (tx_body (entry_tx e)) = Ret out /\ fits_int64 (out + entry_nFee e).

Lemma amount_mul_returns a b : fits_int64 (a * b) -> amount_mul a b = Ret (a * b).
Proof. intros H. unfold amount_mul. destruct (Z.leb_spec (- 2 ^ 63) (a * b)); destruct (Z.ltb_spec (a * b) (2 ^ 63)); unfold fits_int64 in H; (done || lia). Qed.
Lemma amount_add_returns a b : fits_int64 (a + b) -> amount_add a b = Ret (a + b).
Proof. intros H. unfold amount_add. destruct (Z.leb_spec (- 2 ^ 63) (a + b)); destruct (Z.ltb_spec (a + b) (2 ^ 63)); unfold fits_int64 in H; (done || lia). Qed.

Lemma entries_by_confirmations_returns l h : forall b, b <> [] -> Forall (Forall entry_sane) b -> Forall entry_sane l ->
  exists b', entries_by_confirmations l h b = Ret b' /\ length b' = length b /\ Forall (Forall entry_sane) b'.
Proof.
  induction l as [|e l IH]; intros b Hb Hs Hl; cbn [entries_by_confirmations]; [by exists b|]. apply Forall_cons in Hl as [He Hl]. set (d := i32 (h - entry_nHeight e)).
  destruct (Z.leb_spec d 0); [by apply IH|]. set (d' := if d - 1 >=? zlen b then zlen b else d). assert (0 < zlen b) as Hz by (destruct b; [done | unfold zlen; cbn; lia]).
  assert (1 <= d' <= zlen b) as Hd by (unfold d'; destruct (Z.geb_spec (d - 1) (zlen b)); lia). rewrite (proj2 (Z.leb_le 1 d')), (proj2 (Z.leb_le d' (zlen b))) by lia. cbn [andb].
  destruct (IH (alter (fun b => b ++ [e]) (Z.to_nat (d' - 1)) b)) as (b' & E & Hl' & Hs'); [intros E; apply (f_equal length) in E; rewrite length_alter in E; cbn in E; destruct b; cbn in *; [done | lia] | | done |].
  - apply Forall_alter; [done|]. intros x _ Hx. apply Forall_app. split; [done | by constructor].
  - exists b'. split; [done|]. rewrite length_alter in Hl'. done.
Qed.

Lemma confirm_entries_returns l i : forall s, fits_int64 (GetFeePerK minRelayFee * 10000) -> history s <> [] -> Forall entry_sane l -> exists s', confirm_entries l minRelayFee i s = Ret s' /\ history s' <> [].
Proof.
  induction l as [|e l IH]; intros s Hr Hh Hl; cbn [confirm_entries]; [by exists s|]. apply Forall_cons in Hl as [(Hf & out & Ho & Hv) Hl].
  assert (exists r, CFeeRate_of (entry_nFee e) (nTxSize e) = Ret r) as [r ->] by (unfold CFeeRate_of; destruct (_ >? 0); [rewrite amount_mul_returns by done; cbn [obind]|]; by eexists).
  cbn [obind]. unfold GetPriority. rewrite Ho. cbn [obind]. rewrite amount_add_returns by done. cbn [obind]. set (pr := dadd _ _).
  assert (exists s1, seenTxConfirm s r minRelayFee pr i = Ret s1 /\ history s1 <> []) as (s1 & -> & Hh1).
  { unfold seenTxConfirm. assert (0 < zlen (history s)) as Hz by (destruct (history s); [done | unfold zlen; cbn; lia]). rewrite (proj2 (Z.leb_le 0 (Z.min (Z.of_nat i) (zlen (history s) - 1)))) by lia. cbn [oassert obind].
    assert (forall f, alter f (Z.to_nat (Z.min (Z.of_nat i) (zlen (history s) - 1))) (history s) <> []) as Ha.
    { intros f E. apply (f_equal length) in E. rewrite length_alter in E. destruct (history s); done. }
    assert (exists b, (if (r >? minRelayFee) && negb (AllowFree pr) then fee_sane r minRelayFee else Ret false) = Ret b) as [b ->].
    { destruct (_ && _); [|by eexists]. unfold fee_sane. destruct (r <? 0); [by eexists|]. rewrite amount_mul_returns by done. by eexists. }
    cbn [obind]. destruct b; [eexists; split; [reflexivity | apply Ha]|]. destruct (_ && _); [eexists; split; [reflexivity | apply Ha] | by exists s]. }
  cbn [obind]. by apply IH.
Qed.

Lemma seenBlock_returns s l h : (forall height i b, Permutation b (random_shuffle height i b)) -> fits_int64 (GetFeePerK minRelayFee * 10000) -> history s <> [] -> Forall entry_sane l ->
  exists s', seenBlock random_shuffle s l h minRelayFee = Ret s'.
Proof.
  intros Hsh Hr Hh Hl. unfold seenBlock. destruct (h <=? _); [by exists s|]. cbn [history].
  destruct (entries_by_confirmations_returns l h (replicate (length (history s)) [])) as (b & -> & _ & Hb); [by destruct (history s) | apply Forall_replicate; constructor | done|]. cbn [obind].
  set (s0 := mkEstimator _ _ _ _). assert (history s0 <> []) as Hh0 by done. clearbody s0. clear Hh.
  assert (exists s1, confirm_buckets random_shuffle b h minRelayFee 0 s0 = Ret s1) as [s1 ->]; [|by eexists].
  generalize 0%nat as i. revert s0 Hh0. induction Hb as [|e b He Hb IH]; intros s0 Hh0 i; cbn [confirm_buckets]; [by eexists|].
  set (e' := if _ : bool then _ else e). assert (Forall entry_sane e') as He'.
  { unfold e'. destruct (_ <? _)%nat; [|done]. apply Forall_take. by rewrite <- (Hsh h i e). }
  destruct (confirm_entries_returns e' i s0 Hr Hh0 He') as (s1 & -> & Hh1). cbn [obind]. by apply IH.
Qed.

(** No transaction of the pool is in the block or conflicts with one of it. *)
Definition block_settled (p : CTxMemPool) (tx : CTransaction) : Prop :=
  mapTx p !! (tx_hash tx : list Z) = None /\ (forall inp, inp ∈ vin (tx_body tx) -> mapNextTx p !! prevout inp = None) /\ mapDeltas p !! (tx_hash tx : list Z) = None.

Lemma settled_sub p p' tx : pool_ok p -> pool_ok p' -> subpool p p' -> (forall h, mapDeltas p !! h = None -> mapDeltas p' !! h = None) -> block_settled p tx -> block_settled p' tx.
Proof.
  intros Hp Hp' Hs Hd (H1 & H2 & H3). split; [destruct (Hs (tx_hash tx)); congruence|]. split; [|by apply Hd]. intros inp Hin. apply (subpool_next p p'); auto.
Qed.

Lemma remove_block_txs_spec vtx : forall p conflicts, pool_ok p ->
  exists p' l, remove_block_txs p vtx conflicts = Ret (p', conflicts ++ l) /\ pool_ok p' /\ subpool p p' /\ minerPolicyEstimator p' = minerPolicyEstimator p /\
    (forall h, mapDeltas p !! h = None -> mapDeltas p' !! h = None) /\ (forall tx, tx ∈ vtx -> block_settled p' tx) /\
    (forall h, gone p p' h -> (exists tx, tx ∈ vtx /\ h = tx_hash tx) \/ exists tx c, tx ∈ vtx /\ conflicts_with p tx (vin (tx_body tx)) c /\ rtc (child_of p) c h).
Proof.
  induction vtx as [|tx vtx IH]; intros p conflicts Hp; cbn [remove_block_txs].
  { exists p, []. rewrite app_nil_r. split; [done|]. split; [done|]. split; [done|]. split; [done|]. split; [done|]. split; [by intros tx H%elem_of_nil|]. intros h [[e He] Hn]. congruence. }
  destruct (remove_single p tx [] Hp) as (p1 & l1 & -> & Hp1 & Hs1 & [He1 Hd1] & Hg1). cbn [obind]. unfold removeConflicts.
  destruct (remove_conflicts_spec tx (vin (tx_body tx)) p1 conflicts Hp1) as (p2 & l2 & -> & Hp2 & Hs2 & [He2 Hd2] & _ & _ & Hnc & Hg2). cbn [obind].
  set (p3 := ClearPrioritisation p2 (tx_hash tx)). assert (pool_ok p3) as Hp3 by (apply (same_pool_ok p2); [by split_and! | done]).
  destruct (IH p3 (conflicts ++ l2) Hp3) as (p' & l & E & H1 & H2 & H3 & H4 & H5 & H6). exists p', (l2 ++ l). rewrite E, <- app_assoc. split; [done|]. split; [done|].
  assert (subpool p2 p') as Hs3 by exact H2. assert (subpool p1 p') as Hs1' by (by etransitivity). split; [by etransitivity|]. split; [by rewrite H3; cbn; rewrite He2, He1|].
  assert (mapTx p2 !! (tx_hash tx : list Z) = None) as Hn2 by (destruct (Hs2 (tx_hash tx)) as [Eq|Eq]; [rewrite Eq; apply Hg1; by right | done]).
  split.
  { intros h Hh. apply H4. cbn. destruct (decide (h = tx_hash tx)) as [->|Hne]; [apply lookup_delete_eq|]. rewrite lookup_delete_ne by done. by rewrite Hd2, Hd1. }
  split.
  - intros tx' [->|Hin]%elem_of_cons; [|by apply H5]. apply (settled_sub p3 p' tx Hp3 H1 H2 H4). split; [done|]. split; [|apply lookup_delete_eq]. intros inp Hin. destruct (mapNextTx p2 !! prevout inp) as [q|] eqn:Eq; [|done].
    exfalso. pose proof (next_some p2 _ q Hp2 Eq) as Hs. apply (Hnc (ptx q)). exists inp, (Z.to_nat (inpoint_n q)). split; [done|]. split; [done|]. intros Eh. destruct Hs as (e & _ & He & _). rewrite Eh in He. congruence.
  - intros h Hh. apply (gone_trans p p1 p' h Hs1 Hs1') in Hh as [[Hk Hn]|Hh].
    + apply Hg1 in Hn as [Hn|Hn]; [destruct Hk; congruence | left]. exists tx. split; [by left | done].
    + assert (forall a b, rtc (child_of p1) a b -> rtc (child_of p) a b) as Hr1 by (intros a b Hr; eapply rtc_subrel; [|exact Hr]; intros x y; by apply subpool_children).
      apply (gone_trans p1 p2 p' h Hs2 Hs3) in Hh as [Hh|Hh].
      * destruct (Hg2 h Hh) as (c & (inp & i & Hin & Hsp & Hne) & Hr). right. exists tx, c. split; [by left|]. split; [exists inp, i; split; [done|]; split; [by apply (subpool_spends p p1) | done]|]. by apply Hr1.
      * destruct (H6 h Hh) as [(t & Ht & Eh)|(t & c & Ht & (inp & i & Hin & Hsp & Hne) & Hr)]; [left; exists t; split; [by right | done] | right]. exists t, c. split; [by right|]. assert (subpool p p2) as Hs12 by (by etransitivity).
        split; [exists inp, i; split; [done|]; split; [by apply (subpool_spends p p2) | done]|]. eapply rtc_subrel; [|exact Hr]. intros x y Hxy. apply (subpool_children p p2); [done|]. exact Hxy.
Qed.
End PoolSteps.
