(* ===== verification/MempoolIndex.v ===== *)
(** * Every history of the memory pool

    The states reachable by adding admissible transactions, removing, connecting
    blocks and the rest: their consistency, what removal takes, and that the address
    and spent indices describe exactly the transactions of the pool. *)

From Stdlib Require Import ZArith Lia Bool Permutation.
From stdpp Require Import base option numbers list gmap relations sorting.
From S2P Require Import Prelude BaseUInt UInt256 Serialize Transaction Script Coins CoinsCache BlockIndex Validation IndexUpdates FeeEstimator Mempool MempoolProps.

Open Scope Z_scope.
Open Scope outcome_scope.

(** ** Properties that removal preserves *)

Definition drops (p : CTxMemPool) (q : list Z) (e : CTxMemPoolEntry) : CTxMemPool :=
  let p := removeSpentIndex (removeAddressIndex p q) q in drop_entry p q e (u32 (nTransactionsUpdated p + 1)).

Lemma drops_ok p q e : pool_ok p -> mapTx p !! q = Some e -> pool_ok (drops p q e).
Proof.
  intros Hp He. apply drop_entry_ok; [by apply (same_pool_ok p); [apply unindexed_same|]|]. destruct (unindexed_same p q) as (E & _). by rewrite E.
Qed.

Section Preserved.
Variable I : CTxMemPool -> Prop.
Hypothesis I_drop : forall p q e, pool_ok p -> I p -> mapTx p !! q = Some e -> I (drops p q e).
Hypothesis I_deltas : forall p d, I p -> I (with_deltas p d).

Lemma remove_loop_keeps rec fuel : forall queue p removed p' r, remove_loop fuel rec queue p removed = Ret (p', r) -> pool_ok p -> I p -> I p' /\ pool_ok p'.
Proof.
  induction fuel as [|fuel IH]; intros [|q queue] p removed p' r; cbn [remove_loop]; try (by intros [= <- _]); try done.
  destruct (mapTx p !! q) as [e|] eqn:Ee; [|by apply IH]. destruct (if rec then _ else _) as [ch| | |]; cbn [obind]; try done.
  intros E Hp Hi. apply (IH _ (drops p q e) _ p' r E); [by apply drops_ok | by apply I_drop].
Qed.

Lemma remove_keeps p tx removed rec p' r : remove p tx removed rec = Ret (p', r) -> pool_ok p -> I p -> I p' /\ pool_ok p'.
Proof. unfold remove. destruct (if _ && _ then _ else _) as [ch| | |]; cbn [obind]; try done. apply remove_loop_keeps. Qed.

Lemma remove_conflicts_keeps tx ins : forall p removed p' r, remove_conflicts p tx ins removed = Ret (p', r) -> pool_ok p -> I p -> I p' /\ pool_ok p'.
Proof.
  induction ins as [|x ins IH]; intros p removed p' r; cbn [remove_conflicts]; [by intros [= <- _]|]. destruct (mapNextTx p !! prevout x) as [q|]; [|by apply IH].
  destruct (deref_tx p (ptx q)) as [t| | |]; cbn [obind]; try done. destruct (bool_decide _); cbn [obind]; [by apply IH|].
  destruct (remove p t removed true) as [[p1 r1]| | |] eqn:E1; cbn [obind]; try done. intros E Hp Hi. destruct (remove_keeps _ _ _ _ _ _ E1 Hp Hi) as [H1 H2]. by apply (IH p1 r1 p' r).
Qed.

Lemma remove_all_keeps txs : forall p p', remove_all p txs = Ret p' -> pool_ok p -> I p -> I p' /\ pool_ok p'.
Proof.
  induction txs as [|tx txs IH]; intros p p'; cbn [remove_all]; [by intros [= <-]|]. destruct (remove p tx [] true) as [[p1 r1]| | |] eqn:E1; cbn [obind]; try done.
  intros E Hp Hi. destruct (remove_keeps _ _ _ _ _ _ E1 Hp Hi) as [H1 H2]. by apply (IH p1 p').
Qed.

Lemma remove_block_txs_keeps vtx : forall p conflicts p' r, remove_block_txs p vtx conflicts = Ret (p', r) -> pool_ok p -> I p -> I p' /\ pool_ok p'.
Proof.
  induction vtx as [|tx vtx IH]; intros p conflicts p' r; cbn [remove_block_txs]; [by intros [= <- _]|]. destruct (remove p tx [] false) as [[p1 r1]| | |] eqn:E1; cbn [obind]; try done.
  destruct (removeConflicts p1 tx conflicts) as [[p2 r2]| | |] eqn:E2; cbn [obind]; try done. intros E Hp Hi. destruct (remove_keeps _ _ _ _ _ _ E1 Hp Hi) as [H1 H2].
  destruct (remove_conflicts_keeps _ _ _ _ _ _ E2 H2 H1) as [H3 H4]. apply (IH _ _ p' r E); [by apply (same_pool_ok p2); [by split_and!|] | by apply I_deltas].
Qed.
End Preserved.

(** ** The indices *)

Definition outpoint_key (o : COutPoint) : CSpentIndexKey := mkSpentKey (prev_hash o) (prev_n o).
Definition key_of (i : CTxIn) : CSpentIndexKey := outpoint_key (prevout i).
#[global] Instance outpoint_key_inj : Inj (=) (=) outpoint_key.
Proof. intros [h n] [h' n'] [= -> ->]. done. Qed.

Definition in_point (v : CSpentIndexValue) : CInPoint := mkInPoint (sv_txid v) (sv_inputIndex v).

(** The spent index, for a pool that keeps one, and the address index. *)
Record spent_indexed (p : CTxMemPool) : Prop := mkSpentIndexed {
  ix_keys : forall h e, mapTx p !! h = Some e -> mapSpentInserted p !! h = Some (map key_of (ins_of e));
  ix_only : forall h ks, mapSpentInserted p !! h = Some ks -> is_Some (mapTx p !! h);
  ix_spent : forall o, mapNextTx p !! o = in_point <$> mapSpent p !! outpoint_key o
}.

Record address_indexed (p : CTxMemPool) : Prop := mkAddressIndexed {
  ax_keys : forall h ks, mapAddressInserted p !! h = Some ks -> is_Some (mapTx p !! h) /\ Forall (fun k => dk_txhash k = h) ks;
  ax_all : forall k, is_Some (mapAddress p !! k) -> exists ks, mapAddressInserted p !! dk_txhash k = Some ks /\ k ∈ ks
}.

Lemma delete_keys {K} `{Countable K} {V} l : forall (m : gmap K V) k, foldl (fun m k => delete k m) m l !! k = if bool_decide (k ∈ l) then None else m !! k.
Proof.
  induction l as [|x l IH]; intros m k; [done|]. cbn [foldl]. rewrite IH. destruct (decide (k = x)) as [->|Hne].
  - rewrite (bool_decide_eq_true_2 (x ∈ x :: l)) by (by left). rewrite lookup_delete_eq. by case_bool_decide.
  - rewrite lookup_delete_ne by done. destruct (decide (k ∈ l)); [rewrite !bool_decide_eq_true_2; [done | by right | done]|].
    rewrite !bool_decide_eq_false_2; [done | by intros [?|?]%elem_of_cons | done].
Qed.

Lemma removeSpentIndex_fields p q : mapAddress (removeSpentIndex p q) = mapAddress p /\ mapAddressInserted (removeSpentIndex p q) = mapAddressInserted p /\
  mapSpentInserted (removeSpentIndex p q) = delete q (mapSpentInserted p) /\
  mapSpent (removeSpentIndex p q) = foldl (fun m k => delete k m) (mapSpent p) (default [] (mapSpentInserted p !! q)).
Proof. unfold removeSpentIndex. destruct (mapSpentInserted p !! q) eqn:E; [done|]. split_and!; try done. symmetry. by apply delete_id. Qed.

Lemma removeAddressIndex_fields p q : mapSpent (removeAddressIndex p q) = mapSpent p /\ mapSpentInserted (removeAddressIndex p q) = mapSpentInserted p /\
  mapAddressInserted (removeAddressIndex p q) = delete q (mapAddressInserted p) /\
  mapAddress (removeAddressIndex p q) = foldl (fun m k => delete k m) (mapAddress p) (default [] (mapAddressInserted p !! q)).
Proof. unfold removeAddressIndex. destruct (mapAddressInserted p !! q) eqn:E; [done|]. split_and!; try done. symmetry. by apply delete_id. Qed.

Lemma drops_fields p q e : mapTx (drops p q e) = delete q (mapTx p) /\ mapNextTx (drops p q e) = foldl (fun m i => delete (prevout i) m) (mapNextTx p) (ins_of e) /\
  mapSpentInserted (drops p q e) = delete q (mapSpentInserted p) /\ mapSpent (drops p q e) = foldl (fun m k => delete k m) (mapSpent p) (default [] (mapSpentInserted p !! q)) /\
  mapAddressInserted (drops p q e) = delete q (mapAddressInserted p) /\ mapAddress (drops p q e) = foldl (fun m k => delete k m) (mapAddress p) (default [] (mapAddressInserted p !! q)).
Proof.
  unfold drops, drop_entry. cbn [with_transactions mapTx mapNextTx mapSpentInserted mapSpent mapAddressInserted mapAddress]. destruct (unindexed_same p q) as (-> & -> & _).
  destruct (removeSpentIndex_fields (removeAddressIndex p q) q) as (-> & -> & -> & ->). destruct (removeAddressIndex_fields p q) as (-> & -> & -> & ->). done.
Qed.

Lemma spent_indexed_drop p q e : pool_ok p -> spent_indexed p -> mapTx p !! q = Some e -> spent_indexed (drops p q e).
Proof.
  intros Hp [H1 H2 H3] He. destruct (drops_fields p q e) as (E1 & E2 & E3 & E4 & _). split.
  - intros h e' He'. rewrite E1 in He'. rewrite E3. apply lookup_delete_Some in He' as [Hne He']. rewrite lookup_delete_ne by done. by apply H1.
  - intros h ks Hks. rewrite E3 in Hks. rewrite E1. apply lookup_delete_Some in Hks as [Hne Hks]. rewrite lookup_delete_ne by done. by apply (H2 h ks).
  - intros o. rewrite E2, E4, delete_prevouts, (H1 q e He). cbn [default]. rewrite delete_keys. rewrite (bool_decide_ext (outpoint_key o ∈ map key_of (ins_of e)) (o ∈ map prevout (ins_of e))).
    + case_bool_decide; [done | apply H3].
    + rewrite !list_elem_of_fmap. split; intros (x & Hx & Hin); exists x; (split; [|done]); [by apply outpoint_key_inj | by rewrite Hx].
Qed.

Lemma address_indexed_drop p q e : pool_ok p -> address_indexed p -> mapTx p !! q = Some e -> address_indexed (drops p q e).
Proof.
  intros Hp [H1 H2] He. destruct (drops_fields p q e) as (E1 & _ & _ & _ & E5 & E6). split.
  - intros h ks Hks. rewrite E5 in Hks. rewrite E1. apply lookup_delete_Some in Hks as [Hne Hks]. rewrite lookup_delete_ne by done. by apply H1.
  - intros k Hk. rewrite E6, delete_keys in Hk. case_bool_decide as Hin; [by destruct Hk|]. destruct (H2 k Hk) as (ks & Hks & Hin'). exists ks. rewrite E5. split; [|done].
    destruct (decide (dk_txhash k = q)) as [Eq|Hne]; [|by rewrite lookup_delete_ne]. exfalso. apply Hin. rewrite <- Eq, Hks. done.
Qed.

(** ** Adding to the indices *)

Lemma spent_inputs_spec e ins : forall j v p inserted p' inserted', spent_inputs e ins j v p inserted = Ret (p', inserted') -> NoDup (map prevout ins) ->
  (forall inp, inp ∈ ins -> mapSpent p !! key_of inp = None) ->
  inserted' = inserted ++ map key_of ins /\ (exists m, p' = with_spent p m (mapSpentInserted p)) /\
  forall o, in_point <$> mapSpent p' !! outpoint_key o =
    match list_find (fun i => prevout i = o) ins with Some (i, _) => Some (mkInPoint (tx_hash (entry_tx e)) (Z.of_nat (j + i))) | None => in_point <$> mapSpent p !! outpoint_key o end.
Proof.
  induction ins as [|x ins IH]; intros j v p inserted p' inserted'; cbn [spent_inputs].
  { intros [= <- <-] _ _. rewrite app_nil_r. split; [done|]. split; [exists (mapSpent p); by destruct p | done]. }
  destruct (GetOutputFor v x) as [[v1 out]| | |]; cbn [obind]; try done. destruct (match delta_address (scriptPubKey out) with Some a => a | None => _ end) as [t bytes]. intros E Hn Hfree.
  cbn [map] in Hn. apply NoDup_cons in Hn as [Hx Hn]. assert (mapSpent p !! key_of x = None) as Hnone by (apply Hfree; by left). unfold map_insert in E. fold (outpoint_key (prevout x)) in E. fold (key_of x) in E. rewrite Hnone in E.
  apply IH in E as (-> & (m & ->) & Hm); [| done |].
  - rewrite <- app_assoc. split; [done|]. split; [by exists m|]. intros o. rewrite Hm. cbn [list_find]. destruct (decide (prevout x = o)) as [<-|Hne].
    + destruct (list_find (fun i => prevout i = prevout x) ins) as [[i y]|] eqn:El.
      * exfalso. apply list_find_Some in El as (Hi & Hy & _). apply Hx. rewrite <- Hy. apply list_elem_of_fmap. exists y. split; [done | by eapply list_elem_of_lookup_2].
      * cbn [with_spent mapSpent]. rewrite lookup_insert_eq. cbn. unfold in_point. cbn. by rewrite Nat.add_0_r.
    + destruct (list_find (fun i => prevout i = o) ins) as [[i y]|]; cbn.
      * do 2 f_equal. lia.
      * rewrite lookup_insert_ne; [done|]. intros Ek. apply outpoint_key_inj in Ek. done.
  - intros inp Hin. cbn [with_spent mapSpent]. rewrite lookup_insert_ne; [apply Hfree; by right|]. intros Ek. apply outpoint_key_inj in Ek. apply Hx. rewrite Ek. apply list_elem_of_fmap. by exists inp.
Qed.

(** What adding delta keys does. *)
Definition deltas_added (h : list Z) (p : CTxMemPool) (i : list CMempoolAddressDeltaKey) (p' : CTxMemPool) (i' : list CMempoolAddressDeltaKey) : Prop :=
  (exists m, p' = with_address p m (mapAddressInserted p)) /\ (forall k, is_Some (mapAddress p' !! k) -> is_Some (mapAddress p !! k) \/ k ∈ i') /\ i ⊆ i' /\
  (Forall (fun k => dk_txhash k = h) i -> Forall (fun k => dk_txhash k = h) i').

Lemma deltas_added_refl h p i : deltas_added h p i p i.
Proof. split; [exists (mapAddress p); by destruct p|]. split; [by left|]. done. Qed.

Lemma deltas_added_trans h p1 i1 p2 i2 p3 i3 : deltas_added h p1 i1 p2 i2 -> deltas_added h p2 i2 p3 i3 -> deltas_added h p1 i1 p3 i3.
Proof.
  intros ((m & ->) & A2 & A3 & A4) ((m' & ->) & B2 & B3 & B4). split; [by exists m'|]. split; [|split; [by etransitivity | auto]].
  intros k Hk. destruct (B2 k Hk) as [H|H]; [|by right]. destruct (A2 k H) as [H'|H']; [by left | right; by apply B3].
Qed.

Lemma add_delta_added h p i k d : dk_txhash k = h -> deltas_added h p i (fst (add_delta p i k d)) (snd (add_delta p i k d)).
Proof.
  intros Hk. cbn [add_delta fst snd]. split; [by eexists|]. split; [|split; [intros x Hx; apply elem_of_app; by left | intros Hi; apply Forall_app; split; [done | by constructor]]].
  intros x Hx. cbn [with_address mapAddress] in Hx. unfold map_insert in Hx. destruct (mapAddress p !! k); [by left|]. destruct (decide (x = k)) as [->|Hne]; [right; apply elem_of_app; right; by left|].
  rewrite lookup_insert_ne in Hx by done. by left.
Qed.

Lemma address_inputs_added e ins : forall j v p i p' i', address_inputs e ins j v p i = Ret (p', i') -> deltas_added (tx_hash (entry_tx e)) p i p' i'.
Proof.
  induction ins as [|x ins IH]; intros j v p i p' i'; cbn [address_inputs]; [intros [= <- <-]; apply deltas_added_refl|].
  destruct (GetOutputFor v x) as [[v1 out]| | |]; cbn [obind]; try done. destruct (delta_address _) as [[t bytes]|]; [|by apply IH].
  destruct (add_delta _ _ _ _) as [p1 i1] eqn:E. intros E2. apply IH in E2. eapply deltas_added_trans; [|exact E2]. pose proof (add_delta_added (tx_hash (entry_tx e)) p i) as H.
  match type of E with add_delta _ _ ?k ?d = _ => specialize (H k d eq_refl) end. by rewrite E in H.
Qed.

Lemma address_outputs_added e outs : forall k p i, deltas_added (tx_hash (entry_tx e)) p i (fst (address_outputs e outs k p i)) (snd (address_outputs e outs k p i)).
Proof.
  induction outs as [|x outs IH]; intros k p i; cbn [address_outputs]; [apply deltas_added_refl|]. destruct (delta_address _) as [[t bytes]|]; [|by apply IH].
  destruct (add_delta _ _ _ _) as [p1 i1] eqn:E. eapply deltas_added_trans; [|apply IH]. pose proof (add_delta_added (tx_hash (entry_tx e)) p i) as H.
  match type of E with add_delta _ _ ?k ?d = _ => specialize (H k d eq_refl) end. by rewrite E in H.
Qed.

(** The address index of a transaction that has none yet. *)
Lemma addAddressIndex_spec p e v p' : addAddressIndex p e v = Ret p' ->
  (exists m i, p' = with_address p m i) /\
  (is_Some (mapTx p !! (tx_hash (entry_tx e) : list Z)) -> mapAddressInserted p !! (tx_hash (entry_tx e) : list Z) = None -> address_indexed p -> address_indexed p').
Proof.
  unfold addAddressIndex. destruct (address_inputs _ _ _ _ _ _) as [[p1 i1]| | |] eqn:E1; cbn [obind]; try done. apply address_inputs_added in E1.
  pose proof (address_outputs_added e (vout (tx_body (entry_tx e))) 0 p1 i1) as E2. destruct (address_outputs _ _ _ _ _) as [p2 i2]. cbn [fst snd] in E2. pose proof (deltas_added_trans _ _ _ _ _ _ _ E1 E2) as ((m & ->) & H2 & _ & H4).
  intros [= <-]. cbn [with_address mapAddressInserted mapAddress] in *. split; [by eexists _, _|]. intros Htx Hnone [X1 X2]. unfold map_insert. rewrite Hnone. split.
  - intros h ks Hks. cbn [with_address mapAddressInserted mapTx] in *. destruct (decide (h = tx_hash (entry_tx e))) as [->|Hne].
    + rewrite lookup_insert_eq in Hks. injection Hks as <-. split; [done | apply H4; constructor].
    + rewrite lookup_insert_ne in Hks by done. by apply X1.
  - intros k Hk. cbn [with_address mapAddressInserted mapAddress] in *. destruct (H2 k Hk) as [H|H].
    + destruct (X2 k H) as (ks & Hks & Hin). exists ks. rewrite lookup_insert_ne; [done | congruence].
    + exists i2. pose proof (H4 ltac:(constructor)) as Hf. rewrite Forall_forall in Hf. rewrite (Hf k H). by rewrite lookup_insert_eq.
Qed.

Lemma addSpentIndex_spec p e v p' : addSpentIndex p e v = Ret p' -> NoDup (map prevout (ins_of e)) -> (forall inp, inp ∈ ins_of e -> mapSpent p !! key_of inp = None) ->
  (exists m i, p' = with_spent p m i) /\
  (mapSpentInserted p !! (tx_hash (entry_tx e) : list Z) = None -> mapSpentInserted p' = <[(tx_hash (entry_tx e) : list Z) := map key_of (ins_of e)]> (mapSpentInserted p)) /\
  forall o, in_point <$> mapSpent p' !! outpoint_key o =
    match list_find (fun i => prevout i = o) (ins_of e) with Some (i, _) => Some (mkInPoint (tx_hash (entry_tx e)) (Z.of_nat i)) | None => in_point <$> mapSpent p !! outpoint_key o end.
Proof.
  unfold addSpentIndex. destruct (spent_inputs _ _ _ _ _ _) as [[p1 i1]| | |] eqn:E1; cbn [obind]; try done. intros [= <-] Hn Hfree.
  apply spent_inputs_spec in E1 as (-> & (m & ->) & Hm); [|done|done]. split; [by eexists _, _|]. split; [|exact Hm]. intros Hnone. cbn [with_spent mapSpentInserted app]. unfold map_insert. by rewrite Hnone.
Qed.

Lemma addSpentIndex_form p e v p' : addSpentIndex p e v = Ret p' -> exists m i, p' = with_spent p m i.
Proof.
  unfold addSpentIndex. destruct (spent_inputs _ _ _ _ _ _) as [[p1 i1]| | |] eqn:E1; cbn [obind]; try done. intros [= <-].
  assert (forall ins j v p inserted p' inserted', spent_inputs e ins j v p inserted = Ret (p', inserted') -> exists m i, p' = with_spent p m i) as H.
  { induction ins as [|x ins IH]; intros j w q inserted q' inserted'; cbn [spent_inputs]; [intros [= <- <-]; exists (mapSpent q), (mapSpentInserted q); by destruct q|].
    destruct (GetOutputFor w x) as [[v1 out]| | |]; cbn [obind]; try done. destruct (match delta_address (scriptPubKey out) with Some a => a | None => _ end) as [t bytes].
    intros E. apply IH in E as (m & i & ->). by eexists _, _. }
  apply H in E1 as (m & i & ->). by eexists _, _.
Qed.

(** ** A transaction is added *)

Lemma addUnchecked_ok fA fS p hash e v p' : admissible p hash e -> addUnchecked fA fS p hash e v = Ret p' -> pool_ok p -> pool_ok p'.
Proof.
  intros Ha E Hp. pose proof (add_entry_ok p hash e (u32 (nTransactionsUpdated p + 1)) Hp Ha) as H1. unfold addUnchecked in E. cbv zeta in E. set (p1 := with_transactions _ _ _ _ _ _) in *.
  assert (exists p2, (if fA then addAddressIndex p1 e v else Ret p1) = Ret p2 /\ same_pool p1 p2) as (p2 & E2 & Hs2).
  { destruct fA; [|by exists p1]. destruct (addAddressIndex p1 e v) as [p2| | |] eqn:E2; try done. exists p2. split; [done|]. destruct (addAddressIndex_spec _ _ _ _ E2) as [(m & i & ->) _]. by split_and!. }
  rewrite E2 in E. cbn [obind] in E. apply (same_pool_ok p2); [|by apply (same_pool_ok p1)]. destruct fS; [|by injection E as <-]. destruct (addSpentIndex_form _ _ _ _ E) as (m & i & ->). by split_and!.
Qed.

Lemma addUnchecked_indexed fA p hash e v p' : admissible p hash e -> addUnchecked fA true p hash e v = Ret p' -> pool_ok p -> spent_indexed p -> address_indexed p -> spent_indexed p' /\ address_indexed p'.
Proof.
  intros (Hh & Hnew & Hnd & Hfree) E Hp [S1 S2 S3] [A1 A2]. unfold addUnchecked in E. cbv zeta in E. set (p1 := with_transactions _ _ _ _ _ _) in *.
  assert (address_indexed p1) as Ha1.
  { split; [|exact A2]. intros h ks Hks. destruct (A1 h ks Hks) as [[d Hd] H]. split; [|done]. cbn [p1 with_transactions mapTx]. destruct (decide (h = hash)) as [->|]; [by rewrite lookup_insert_eq; eexists | rewrite lookup_insert_ne; [by eexists | done]]. }
  assert (mapAddressInserted p !! hash = None) as HaN by (destruct (mapAddressInserted p !! hash) as [ks|] eqn:Ek; [destruct (A1 hash ks Ek) as [[d Hd] _]; congruence | done]).
  assert (mapSpentInserted p !! hash = None) as HsN by (destruct (mapSpentInserted p !! hash) as [ks|] eqn:Ek; [destruct (S2 hash ks Ek); congruence | done]).
  assert (exists p2, (if fA then addAddressIndex p1 e v else Ret p1) = Ret p2 /\ (exists m i, p2 = with_address p1 m i) /\ address_indexed p2) as (p2 & E2 & (m & i & ->) & Ha2).
  { destruct fA; [|exists p1; split; [done|]; split; [exists (mapAddress p), (mapAddressInserted p) | done]; done]. destruct (addAddressIndex p1 e v) as [p2| | |] eqn:E2; try done. exists p2. split; [done|].
    destruct (addAddressIndex_spec _ _ _ _ E2) as [Hf Ha]. split; [done|]. apply Ha; [| | done]; rewrite Hh; [cbn; rewrite lookup_insert_eq; by eexists | done]. }
  rewrite E2 in E. cbn [obind] in E. destruct (addSpentIndex_spec _ _ _ _ E Hnd) as ((m' & i' & ->) & Hi & Hm).
  { intros inp Hin. cbn [with_address p1 with_transactions mapSpent]. pose proof (S3 (prevout inp)) as H. rewrite (Hfree inp Hin) in H. fold (key_of inp) in H. by destruct (mapSpent p !! key_of inp). }
  rewrite Hh in Hi, Hm. specialize (Hi HsN). cbn [with_spent with_address p1 with_transactions mapSpentInserted mapSpent] in Hi, Hm. split.
  - split.
    + intros h e' He'. change (<[hash := e]> (mapTx p) !! h = Some e') in He'. cbn [with_spent mapSpentInserted]. rewrite Hi. destruct (decide (h = hash)) as [->|Hne].
      * rewrite lookup_insert_eq in He'. injection He' as <-. by rewrite lookup_insert_eq.
      * rewrite lookup_insert_ne in He' by done. rewrite lookup_insert_ne by done. by apply S1.
    + intros h ks Hks. change (is_Some (<[hash := e]> (mapTx p) !! h)). cbn [with_spent mapSpentInserted] in Hks. rewrite Hi in Hks. destruct (decide (h = hash)) as [->|Hne]; [rewrite lookup_insert_eq; by eexists|].
      rewrite lookup_insert_ne in Hks by done. rewrite lookup_insert_ne by done. by apply (S2 h ks).
    + intros o. cbn [with_spent with_address p1 with_transactions mapNextTx mapSpent]. rewrite Hm, next_of_lookup by done. destruct (list_find _ _) as [[j x]|]; [done | apply S3].
  - destruct Ha2 as [B1 B2]. split; [exact B1 | exact B2].
Qed.

(** ** Histories *)

Section Histories.
Variables fAddressIndex_ fSpentIndex_ fSanityCheck : bool.
Variable minRelayFee : CFeeRate.
Variable random_shuffle : Z -> nat -> list CTxMemPoolEntry -> list CTxMemPoolEntry.
Variable COINBASE_MATURITY : Z.

(** The calls that change the pool; [clears] tells whether [clear] is among them. *)
Inductive pool_step (clears : bool) : CTxMemPool -> CTxMemPool -> Prop :=
  | ps_add p hash e v p' : admissible p hash e -> addUnchecked fAddressIndex_ fSpentIndex_ p hash e v = Ret p' -> pool_step clears p p'
  | ps_remove p tx removed rec p' r : remove p tx removed rec = Ret (p', r) -> pool_step clears p p'
  | ps_conflicts p tx removed p' r : removeConflicts p tx removed = Ret (p', r) -> pool_step clears p p'
  | ps_block p vtx h conflicts p' r : removeForBlock minRelayFee random_shuffle p vtx h conflicts = Ret (p', r) -> pool_step clears p p'
  | ps_coinbase p pcoins h p' pcoins' : removeCoinbaseSpends fSanityCheck COINBASE_MATURITY p pcoins h = Ret (p', pcoins') -> pool_step clears p p'
  | ps_prioritise p hash d n p' : PrioritiseTransaction p hash d n = Ret p' -> pool_step clears p p'
  | ps_unprioritise p hash : pool_step clears p (ClearPrioritisation p hash)
  | ps_fee p n : pool_step clears p (fst (pool_estimateFee p n))
  | ps_priority p n : pool_step clears p (fst (pool_estimatePriority p n))
  | ps_updated p n : pool_step clears p (AddTransactionsUpdated p n)
  | ps_clear p : clears = true -> pool_step clears p (pool_clear p).

(** Any property of the transactions and indices that adding, dropping an entry and
    perhaps clearing preserve holds in every history. *)
Lemma histories (clears : bool) (I : CTxMemPool -> Prop) :
  I CTxMemPool_new ->
  (forall p hash e v p', admissible p hash e -> addUnchecked fAddressIndex_ fSpentIndex_ p hash e v = Ret p' -> pool_ok p -> I p -> I p') ->
  (forall p q e, pool_ok p -> I p -> mapTx p !! q = Some e -> I (drops p q e)) ->
  (forall p d, I p -> I (with_deltas p d)) -> (forall p e, I p -> I (with_estimator p e)) -> (forall p n, I p -> I (AddTransactionsUpdated p n)) ->
  (clears = true -> forall p, pool_ok p -> I p -> I (pool_clear p)) ->
  forall p, rtc (pool_step clears) CTxMemPool_new p -> pool_ok p /\ I p.
Proof.
  intros I0 Iadd Idrop Ideltas Iest Iupd Iclear p Hp. refine (rtc_ind_r (R := pool_step clears) (fun p => pool_ok p /\ I p) CTxMemPool_new _ _ p Hp); [split; [apply pool_new_ok | done]|].
  clear p Hp. intros p p' _ Hst [Hp Hi]. assert (I p' /\ pool_ok p') as []; [|done].
  destruct Hst as [p hash e v p' Ha E|p tx removed rec p' r E|p tx removed p' r E|p vtx h conflicts p' r E|p pcoins h p' pcoins' E|p hash d n p' E|p hash|p n|p n|p n|p Hc].
  - split; [by eapply Iadd | by eapply addUnchecked_ok].
  - by eapply (remove_keeps I).
  - by eapply (remove_conflicts_keeps I).
  - unfold removeForBlock in E. destruct (seenBlock _ _ _ _ _) as [m| | |]; cbn [obind] in E; try done.
    eapply (remove_block_txs_keeps I); [done | done | exact E | apply (same_pool_ok p); [by split_and! | done] | by apply Iest].
  - unfold removeCoinbaseSpends in E. destruct (immature_transactions _ _ _ _ _ _) as [[l pc]| | |]; cbn [obind] in E; try done. destruct (remove_all p l) as [p1| | |] eqn:E1; cbn [obind] in E; try done. injection E as <- _.
    by eapply (remove_all_keeps I).
  - unfold PrioritiseTransaction in E. destruct (amount_add _ _) as [f| | |]; cbn [obind] in E; try done. injection E as <-. split; [by apply Ideltas | by apply (same_pool_ok p); [split_and!|]].
  - split; [by apply Ideltas | by apply (same_pool_ok p); [split_and!|]].
  - unfold pool_estimateFee. destruct (estimateFee _ _) as [m r]. split; [by apply Iest | by apply (same_pool_ok p); [split_and!|]].
  - unfold pool_estimatePriority. destruct (estimatePriority _ _) as [m r]. split; [by apply Iest | by apply (same_pool_ok p); [split_and!|]].
  - split; [by apply Iupd | by apply (same_pool_ok p); [split_and!|]].
  - split; [by apply Iclear|]. split; try done. intros o h i. split; [done|]. by intros (e & inp & He & _).
Qed.

Lemma pool_reachable_ok clears p : rtc (pool_step clears) CTxMemPool_new p -> pool_ok p.
Proof. intros H. by apply (histories clears (fun _ => True)) in H as [H _]. Qed.

Lemma reachable_indexed p : fSpentIndex_ = true -> rtc (pool_step false) CTxMemPool_new p -> pool_ok p /\ spent_indexed p /\ address_indexed p.
Proof.
  intros Hf H. apply (histories false (fun p => spent_indexed p /\ address_indexed p)) in H; [done | | | | | | | done].
  - split; split; try done. by intros k [d Hd].
  - intros q hash e v q' Ha E Hq [H1 H2]. rewrite Hf in E. by apply (addUnchecked_indexed fAddressIndex_ q hash e v q').
  - intros q h e Hq [H1 H2] He. split; [by apply spent_indexed_drop | by apply address_indexed_drop].
  - intros q d [[S1 S2 S3] [A1 A2]]. by split.
  - intros q d [[S1 S2 S3] [A1 A2]]. by split.
  - intros q d [[S1 S2 S3] [A1 A2]]. by split.
Qed.

(** ** The theorems *)

(** C15: in every pool that admissible additions, removals, blocks and the other calls
    reach from the empty pool no output is spent twice, [mapNextTx] has exactly the
    inputs of the transactions, every entry is under its hash, the total is the sum
    of the sizes modulo 2^64; and removing anything, with or without descendants or
    conflicts, and looking up by bare id follow no dangling pointer and return. *)
Theorem pool_consistent p : rtc (pool_step true) CTxMemPool_new p ->
  pool_ok p /\ (forall o h i h' i', spends_at p o h i -> spends_at p o h' i' -> h' = h /\ i' = i) /\
  (forall tx removed rec, exists p' l, remove p tx removed rec = Ret (p', removed ++ l)) /\
  (forall tx removed, exists p' l, removeConflicts p tx removed = Ret (p', removed ++ l)) /\
  (forall b, exists r, lookupBareTxid p b = Ret r).
Proof.
  intros H. pose proof (pool_reachable_ok true p H) as Hp. split; [done|]. split; [intros o h i h' i'; by apply pool_no_conflict|]. split; [|split].
  - intros tx removed [|]; [destruct (remove_recursive p tx removed Hp) as (p' & l & E & _) | destruct (remove_single p tx removed Hp) as (p' & l & E & _)]; by exists p', l.
  - intros tx removed. destruct (remove_conflicts_spec tx (vin (tx_body tx)) p removed Hp) as (p' & l & E & _). by exists p', l.
  - intros b. unfold lookupBareTxid. destruct (mapBareTxid p !! b) as [h|] eqn:E; [|by eexists]. destruct (po_bare p Hp b h E) as (e & He & _). unfold deref_tx. rewrite He. by eexists.
Qed.

(** recursive removal takes exactly the transaction and the pool transactions that
    spend its outputs directly or indirectly (also when the transaction itself is not
    in the pool), reports each once, and leaves all others as they were. *)
Theorem removal_takes_descendants p tx removed : rtc (pool_step true) CTxMemPool_new p ->
  exists p' l, remove p tx removed true = Ret (p', removed ++ l) /\ pool_ok p' /\ NoDup (map (fun t => (tx_hash t : list Z)) l) /\
    (forall h e, mapTx p !! h = Some e -> (descends p tx h -> mapTx p' !! h = None /\ entry_tx e ∈ l) /\ (~ descends p tx h -> mapTx p' !! h = Some e /\ entry_tx e ∉ l)) /\
    (forall h, mapTx p !! h = None -> mapTx p' !! h = None).
Proof.
  intros H. pose proof (pool_reachable_ok true p H) as Hp. destruct (remove_recursive p tx removed Hp) as (p' & l & E & H1 & H2 & _ & [N L] & _ & H6). exists p', l. split; [done|]. split; [done|]. split; [done|]. split.
  - intros h e He. split; intros Hd.
    + assert (mapTx p' !! h = None) as Hn by (apply H6; by right). split; [done|]. apply L. by exists h, e.
    + assert (mapTx p' !! h = Some e) as He' by (destruct (H2 h) as [Eh|Eh]; [by rewrite Eh | apply H6 in Eh as [Eh|Eh]; [congruence | done]]). split; [done|]. intros Hin. apply L in Hin as (h' & e' & Hh' & Et & Hn).
      assert (h' = h) as -> by (rewrite <- (po_hash p Hp h' e' Hh'), <- (po_hash p Hp h e He); by rewrite Et). congruence.
  - intros h Hn. apply H6. by left.
Qed.

(** when a block is connected, none of its transactions stays in the pool, no
    pool transaction spends an output that the block spends, its prioritisations are
    forgotten, and what left the pool was in the block or descends from a
    transaction that conflicted with it. *)
Theorem block_leaves_no_conflict p vtx h conflicts : rtc (pool_step true) CTxMemPool_new p ->
  (forall height i b, Permutation b (random_shuffle height i b)) -> fits_int64 (GetFeePerK minRelayFee * 10000) -> history (minerPolicyEstimator p) <> [] ->
  (forall k e, mapTx p !! k = Some e -> entry_sane e) ->
  exists p' l, removeForBlock minRelayFee random_shuffle p vtx h conflicts = Ret (p', conflicts ++ l) /\ pool_ok p' /\ (forall tx, tx ∈ vtx -> block_settled p' tx) /\
    (forall (k : list Z) e, mapTx p !! k = Some e -> mapTx p' !! k = Some e \/
      (exists tx, tx ∈ vtx /\ k = tx_hash tx) \/ exists tx c, tx ∈ vtx /\ conflicts_with p tx (vin (tx_body tx)) c /\ rtc (child_of p) c k).
Proof.
  intros H Hsh Hr Hh He. pose proof (pool_reachable_ok true p H) as Hp. unfold removeForBlock.
  destruct (seenBlock_returns minRelayFee random_shuffle (minerPolicyEstimator p) (omap (fun tx => mapTx p !! (tx_hash tx : list Z)) vtx) (i32 h) Hsh Hr Hh) as [m ->].
  { apply Forall_forall. intros e Hin. apply list_elem_of_omap in Hin as (tx & _ & Hx). by apply (He _ e Hx). }
  cbn [obind]. destruct (remove_block_txs_spec vtx (with_estimator p m) conflicts) as (p' & l & -> & H1 & H2 & _ & _ & H5 & H6); [by apply (same_pool_ok p); [split_and!|]|].
  exists p', l. split; [done|]. split; [done|]. split; [done|]. intros k e Hk. destruct (H2 k) as [E|E]; [left; by rewrite E | right]. apply H6. split; [by exists e | done].
Qed.

(** in a pool that keeps the spent index and is never cleared, [getSpentIndex]
    tells of every output the pool transaction and input that spend it, and of no
    other output anything; and the address index has deltas of pool transactions
    only. *)
Theorem pool_indices_exact p : fSpentIndex_ = true -> rtc (pool_step false) CTxMemPool_new p ->
  (forall o h i, (exists v, getSpentIndex p (outpoint_key o) = Some v /\ sv_txid v = h /\ sv_inputIndex v = Z.of_nat i) <-> spends_at p o h i) /\
  (forall o, getSpentIndex p (outpoint_key o) = None <-> forall h i, ~ spends_at p o h i) /\
  (forall k, is_Some (mapAddress p !! k) -> is_Some (mapTx p !! dk_txhash k)).
Proof.
  intros Hf H. destruct (reachable_indexed p Hf H) as (Hp & [S1 S2 S3] & [A1 A2]). unfold getSpentIndex. split; [|split].
  - intros o h i. rewrite <- (po_next p Hp), S3. destruct (mapSpent p !! outpoint_key o) as [v|]; cbn; [|split; [by intros (v & [=] & _) | done]]. unfold in_point. split.
    + intros (v' & [= <-] & <- & ->). done.
    + intros [= <- <-]. by exists v.
  - intros o. split.
    + intros Hn h i Hs. apply (po_next p Hp) in Hs. rewrite S3, Hn in Hs. done.
    + intros Hno. destruct (mapSpent p !! outpoint_key o) as [v|] eqn:Ev; [|done]. exfalso. assert (mapNextTx p !! o = Some (in_point v)) as Hq by (by rewrite S3, Ev). exact (Hno _ _ (next_some p o _ Hp Hq)).
  - intros k Hk. destruct (A2 k Hk) as (ks & Hks & _). by destruct (A1 _ _ Hks).
Qed.
End Histories.

(** ** Samples *)

(** [first_tx] spends a coin, [second_tx] an output of [first_tx]; [rival_tx] spends
    the coin too. *)
Definition pool_tx (n : Z) (o : COutPoint) : CTransaction := mkTransaction (of_uint64 8 n) (mkMutable 1 [mkTxIn o [81] SEQUENCE_FINAL] [mkTxOut 500 [82]] 0).
Definition coin_outpoint : COutPoint := mkOutPoint (of_uint64 8 100) 0.
Definition first_tx : CTransaction := pool_tx 1 coin_outpoint.
Definition second_tx : CTransaction := pool_tx 2 (mkOutPoint (of_uint64 8 1) 0).
Definition rival_tx : CTransaction := pool_tx 3 coin_outpoint.
Definition pool_view : CCoinsView :=
  ViewDB (mkDB {[ (of_uint64 8 100 : list Z) := mkCoins false false [mkTxOut 600 [81]] 10 1; (of_uint64 8 1 : list Z) := mkCoins false false [mkTxOut 500 [82]] 11 1 ]} (of_uint64 8 11)).
Definition pool_entry (tx : CTransaction) : CTxMemPoolEntry := mkPoolEntry tx 100 90 50 1000 (double_of 0) 20.

Definition returned {A} (d : A) (r : io A) : A := match r with Ret x => x | _ => d end.
Definition one_pool : CTxMemPool := returned CTxMemPool_new (addUnchecked true true CTxMemPool_new (tx_hash first_tx) (pool_entry first_tx) pool_view).
Definition two_pool : CTxMemPool := returned CTxMemPool_new (addUnchecked true true one_pool (tx_hash second_tx) (pool_entry second_tx) pool_view).

Lemma one_pool_added : addUnchecked true true CTxMemPool_new (tx_hash first_tx) (pool_entry first_tx) pool_view = Ret one_pool.
Proof. vm_compute. reflexivity. Qed.
Lemma two_pool_added : addUnchecked true true one_pool (tx_hash second_tx) (pool_entry second_tx) pool_view = Ret two_pool.
Proof. vm_compute. reflexivity. Qed.

Lemma two_pool_reachable clears : rtc (pool_step true true false 10000 (fun _ _ l => l) 100 clears) CTxMemPool_new two_pool.
Proof.
  eapply rtc_l; [eapply ps_add; [|exact one_pool_added]|].
  { split; [done|]. split; [done|]. split; [apply NoDup_singleton|]. intros inp Hin. done. }
  apply rtc_once. eapply ps_add; [|exact two_pool_added].
  split; [done|]. split; [by vm_compute|]. split; [apply NoDup_singleton|]. intros inp Hin. apply list_elem_of_singleton in Hin as ->. by vm_compute.
Qed.

Lemma pool_consistent_witness : pool_ok two_pool /\ totalTxSize two_pool = 180.
Proof. destruct (pool_consistent true true false 10000 (fun _ _ l => l) 100 two_pool (two_pool_reachable true)) as [H _]. split; [exact H | vm_compute; reflexivity]. Defined.

Lemma removal_takes_descendants_witness : exists p' l, remove two_pool first_tx [] true = Ret (p', l) /\ mapTx p' !! (tx_hash second_tx : list Z) = None.
Proof.
  destruct (removal_takes_descendants true true false 10000 (fun _ _ l => l) 100 two_pool first_tx [] (two_pool_reachable true)) as (p' & l & E & _ & _ & H & _). exists p', l. split; [exact E|].
  destruct (H (tx_hash second_tx) (pool_entry second_tx)) as [Hd _]; [vm_compute; reflexivity|]. apply Hd. right. exists (tx_hash second_tx). split; [|apply rtc_refl].
  rewrite decide_False by (vm_compute; discriminate). exists (pool_entry first_tx). split; [vm_compute; reflexivity|]. exists 0%nat, 0%nat. split; [cbn; lia|].
  exists (pool_entry second_tx), (mkTxIn (mkOutPoint (of_uint64 8 1) 0) [81] SEQUENCE_FINAL). split; [vm_compute; reflexivity|]. split; reflexivity.
Defined.

Lemma two_pool_entries k e : mapTx two_pool !! k = Some e -> e = pool_entry first_tx \/ e = pool_entry second_tx.
Proof.
  assert (mapTx two_pool = <[(tx_hash second_tx : list Z) := pool_entry second_tx]> {[ (tx_hash first_tx : list Z) := pool_entry first_tx ]}) as -> by (vm_compute; reflexivity).
  intros [[_ <-]|[_ H]]%lookup_insert_Some; [by right|]. apply lookup_singleton_Some in H as [_ <-]. by left.
Qed.

Lemma block_leaves_no_conflict_witness : exists p' l, removeForBlock 10000 (fun _ _ l => l) two_pool [rival_tx] 21 [] = Ret (p', l) /\ block_settled p' rival_tx.
Proof.
  destruct (block_leaves_no_conflict true true false 10000 (fun _ _ l => l) 100 two_pool [rival_tx] 21 [] (two_pool_reachable true)) as (p' & l & E & _ & H & _).
  - reflexivity.
  - split; vm_compute; (discriminate || reflexivity).
  - vm_compute. discriminate.
  - intros k e He. destruct (two_pool_entries k e He) as [-> | ->]; (split; [split; vm_compute; (discriminate || reflexivity) | exists 500; split; [vm_compute; reflexivity | split; vm_compute; (discriminate || reflexivity)]]).
  - exists p', l. split; [exact E|]. apply H. by left.
Defined.

(** Both transactions leave for the block of the rival. *)
Example rival_block : match removeForBlock 10000 (fun _ _ l => l) two_pool [rival_tx] 21 [] with
  Ret (p', l) => map (fun t => (tx_hash t : list Z)) l = [tx_hash first_tx : list Z; tx_hash second_tx : list Z] /\ totalTxSize p' = 0 | _ => False end.
Proof. vm_compute. done. Qed.

Lemma pool_indices_exact_witness : exists v, getSpentIndex two_pool (outpoint_key coin_outpoint) = Some v /\ sv_txid v = tx_hash first_tx.
Proof.
  destruct (pool_indices_exact true true false 10000 (fun _ _ l => l) 100 two_pool eq_refl (two_pool_reachable false)) as (H & _).
  destruct (proj2 (H coin_outpoint (tx_hash first_tx) 0%nat)) as (v & Hv & Hx & _); [|exists v; split; [exact Hv | exact Hx]].
  exists (pool_entry first_tx), (mkTxIn coin_outpoint [81] SEQUENCE_FINAL). split; [vm_compute; reflexivity|]. split; reflexivity.
Defined.

(** [clear] keeps the index entries of the transactions it removes. *)
Example cleared_pool_still_indexed : mapTx (pool_clear two_pool) = ∅ /\ is_Some (getSpentIndex (pool_clear two_pool) (outpoint_key coin_outpoint)).
Proof. split; [reflexivity|]. vm_compute. by eexists. Qed.
