(* ===== verification/MerkleBlock.v ===== *)
(** * Partial merkle trees: [merkleblock.cpp], [merkleblock.h]

    A partial merkle tree proves to a light client that some transactions belong
    to a block: one bit for every node of the tree that is visited, depth first,
    and one hash for every node that is not descended into.  Here are the class
    with its traversals and its wire format; [MerkleBlockProps] proves them
    correct. *)

From Stdlib Require Import ZArith Lia Bool.
From stdpp Require Import base option numbers list.
From S2P Require Import Prelude BaseUInt UInt256 StackManager Hashes Serialize Transaction Merkle ConnectBlock.

Open Scope Z_scope.
Open Scope outcome_scope.

Record CPartialMerkleTree := mkPartialMerkleTree {
  nTransactions : Z;
  vBits : list bool;
  vHash : list base_uint;
  fBad : bool
}.

(** [(nTransactions + (1 << height) - 1) >> height]; the shift is undefined
    from 31 on. *)
Definition CalcTreeWidth (n : Z) (height : nat) : io Z :=
  if (31 <=? height)%nat then Undef
  else Ret (Z.shiftr (u32 (u32 (n + Z.shiftl 1 (Z.of_nat height)) - 1)) (Z.of_nat height)).

(** [while (CalcTreeWidth(nHeight) > 1) nHeight++;] *)
Fixpoint height_loop (fuel : nat) (n : Z) (nHeight : nat) : io nat :=
  match fuel with
  | O => Undef
  | S fuel =>
      let* w := CalcTreeWidth n nHeight in
      if 1 <? w then height_loop fuel n (S nHeight) else Ret nHeight
  end.

Definition tree_height (n : Z) : io nat := height_loop 32 n 0.

Section PartialTree.
(** [Hash(BEGIN(left), END(left), BEGIN(right), END(right))] *)
Variable H : base_uint -> base_uint -> base_uint.

Fixpoint CalcHash (n : Z) (height : nat) (pos : Z) (vTxid : list base_uint) : io base_uint :=
  match height with
  | O => oaccess (vTxid !! Z.to_nat pos)
  | S h =>
      let* hleft := CalcHash n h (u32 (pos * 2)) vTxid in
      let* w := CalcTreeWidth n h in
      let* hright :=
        if u32 (u32 (pos * 2) + 1) <? w then CalcHash n h (u32 (u32 (pos * 2) + 1)) vTxid else Ret hleft in
      Ret (H hleft hright)
  end.

(** [for (unsigned int p = pos << height; p < (pos + 1) << height && p < nTransactions; p++)] *)
Fixpoint parent_loop (fuel : nat) (p last n : Z) (vMatch : list bool) (fParentOfMatch : bool) : io bool :=
  if (p <? last) && (p <? n) then
    match fuel with
    | O => Undef
    | S fuel =>
        let* b := oaccess (vMatch !! Z.to_nat p) in
        parent_loop fuel (u32 (p + 1)) last n vMatch (fParentOfMatch || b)
    end
  else Ret fParentOfMatch.

Definition parent_of_match (n : Z) (height : nat) (pos : Z) (vMatch : list bool) : io bool :=
  parent_loop (Z.to_nat n) (u32 (Z.shiftl pos (Z.of_nat height))) (u32 (Z.shiftl (u32 (pos + 1)) (Z.of_nat height))) n vMatch false.

Definition push_bit (us : CPartialMerkleTree) (b : bool) : CPartialMerkleTree :=
  mkPartialMerkleTree (nTransactions us) (vBits us ++ [b]) (vHash us) (fBad us).
Definition push_hash (us : CPartialMerkleTree) (h : base_uint) : CPartialMerkleTree :=
  mkPartialMerkleTree (nTransactions us) (vBits us) (vHash us ++ [h]) (fBad us).
Definition set_bad (us : CPartialMerkleTree) : CPartialMerkleTree :=
  mkPartialMerkleTree (nTransactions us) (vBits us) (vHash us) true.

Fixpoint TraverseAndBuild (height : nat) (pos : Z) (vTxid : list base_uint) (vMatch : list bool)
    (us : CPartialMerkleTree) : io CPartialMerkleTree :=
  let* fParentOfMatch := parent_of_match (nTransactions us) height pos vMatch in
  let us := push_bit us fParentOfMatch in
  match height with
  | S h =>
      if negb fParentOfMatch then
        let* hash := CalcHash (nTransactions us) height pos vTxid in Ret (push_hash us hash)
      else
        let* us := TraverseAndBuild h (u32 (pos * 2)) vTxid vMatch us in
        let* w := CalcTreeWidth (nTransactions us) h in
        if u32 (u32 (pos * 2) + 1) <? w then TraverseAndBuild h (u32 (u32 (pos * 2) + 1)) vTxid vMatch us else Ret us
  | O => let* hash := CalcHash (nTransactions us) height pos vTxid in Ret (push_hash us hash)
  end.

(** The references [nBitsUsed], [nHashUsed], [vMatch] and the member [fBad]. *)
Record traversal := mkTraversal { tr_bits : Z; tr_hashes : Z; tr_match : list base_uint; tr_bad : bool }.

Fixpoint TraverseAndExtract (height : nat) (pos : Z) (us : CPartialMerkleTree) (st : traversal) : io (base_uint * traversal) :=
  let bad st := Ret (uint256_null, mkTraversal (tr_bits st) (tr_hashes st) (tr_match st) true) in
  if zlen (vBits us) <=? tr_bits st then bad st
  else
    let* fParentOfMatch := oaccess (vBits us !! Z.to_nat (tr_bits st)) in
    let st := mkTraversal (u32 (tr_bits st + 1)) (tr_hashes st) (tr_match st) (tr_bad st) in
    let leaf :=
      if zlen (vHash us) <=? tr_hashes st then bad st
      else
        let* hash := oaccess (vHash us !! Z.to_nat (tr_hashes st)) in
        let matched := match height with O => fParentOfMatch | _ => false end in
        Ret (hash, mkTraversal (tr_bits st) (u32 (tr_hashes st + 1))
                     (if matched then tr_match st ++ [hash] else tr_match st) (tr_bad st)) in
    match height with
    | S h =>
        if negb fParentOfMatch then leaf
        else
          let* '(hleft, st) := TraverseAndExtract h (u32 (pos * 2)) us st in
          let* w := CalcTreeWidth (nTransactions us) h in
          let* '(hright, st) :=
            if u32 (u32 (pos * 2) + 1) <? w then TraverseAndExtract h (u32 (u32 (pos * 2) + 1)) us st else Ret (hleft, st) in
          Ret (H hleft hright, st)
    | O => leaf
    end.

(** [CPartialMerkleTree(vTxid, vMatch)] *)
Definition CPartialMerkleTree_new (vTxid : list base_uint) (vMatch : list bool) : io CPartialMerkleTree :=
  let us := mkPartialMerkleTree (u32 (zlen vTxid)) [] [] false in
  let* nHeight := tree_height (nTransactions us) in
  TraverseAndBuild nHeight 0 vTxid vMatch us.

(** The root, the matches, and the tree with its [fBad]. *)
Definition ExtractMatches (us : CPartialMerkleTree) : io (base_uint * list base_uint * CPartialMerkleTree) :=
  if nTransactions us =? 0 then Ret (uint256_null, [], us)
  else if MAX_BLOCK_SIZE_CURRENT / 60 <? nTransactions us then Ret (uint256_null, [], us)
  else if nTransactions us <? zlen (vHash us) then Ret (uint256_null, [], us)
  else if zlen (vBits us) <? zlen (vHash us) then Ret (uint256_null, [], us)
  else
    let* nHeight := tree_height (nTransactions us) in
    let* '(hashMerkleRoot, st) := TraverseAndExtract nHeight 0 us (mkTraversal 0 0 [] (fBad us)) in
    let us' := if tr_bad st then set_bad us else us in
    if tr_bad st then Ret (uint256_null, tr_match st, us')
    else if negb (u32 (tr_bits st + 7) / 8 =? (zlen (vBits us) + 7) / 8) then Ret (uint256_null, tr_match st, us')
    else if negb (tr_hashes st =? zlen (vHash us)) then Ret (uint256_null, tr_match st, us')
    else Ret (hashMerkleRoot, tr_match st, us').
End PartialTree.

(** [CPartialMerkleTree()] *)
Definition CPartialMerkleTree_default : CPartialMerkleTree := mkPartialMerkleTree 0 [] [] true.

(** ** Flag bits as bytes *)

(** [vBytes[p / 8] |= vBits[p] << (p % 8)] *)
Fixpoint pack_loop (vBits : list bool) (p : nat) (vBytes : list Z) : list Z :=
  match vBits with
  | [] => vBytes
  | b :: vBits =>
      pack_loop vBits (S p) (alter (fun x => u8 (Z.lor x (Z.shiftl (Z.b2z b) (Z.of_nat (p mod 8))))) (p / 8)%nat vBytes)
  end.

Definition pack_bits (vBits : list bool) : list Z :=
  pack_loop vBits 0 (replicate ((length vBits + 7) / 8) 0).

(** [(vBytes[p / 8] & (1 << (p % 8))) != 0] for [p] below [vBytes.size() * 8] *)
Definition unpack_bits (vBytes : list Z) : list bool :=
  map (fun p => negb (Z.land (default 0 (vBytes !! (p / 8)%nat)) (Z.shiftl 1 (Z.of_nat (p mod 8))) =? 0)) (seq 0 (length vBytes * 8)).

(** [CPartialMerkleTree::SerializationOp] *)
Definition partial_tree_codec : codec CPartialMerkleTree :=
  object_codec
    (fun p => mkPartialMerkleTree p.1 (unpack_bits p.2.2) p.2.1 false)
    (fun us => (nTransactions us, (vHash us, pack_bits (vBits us))))
    (pair_codec (uint_codec 4) (pair_codec (vector_codec 32 (base_uint_codec 8)) bytes_codec)).

(** ** The tree by levels *)

(** The number of nodes at a height. *)
Definition width (n h : nat) : nat := ((n + 2 ^ h - 1) / 2 ^ h)%nat.

(** The leaves under a node. *)
Definition under {A} (h pos : nat) (l : list A) : list A := take (2 ^ h) (drop (pos * 2 ^ h) l).

Lemma pow2_pos h : (0 < 2 ^ h)%nat.
Proof. pose proof (Nat.pow_nonzero 2 h). lia. Qed.

Lemma width_step n h : ((width n h + 1) / 2)%nat = width n (S h).
Proof.
  unfold width. pose proof (pow2_pos h). rewrite Nat.pow_succ_r', (Nat.mul_comm 2), <- Nat.Div0.div_div. f_equal.
  replace (n + 2 ^ h * 2 - 1)%nat with (n + 2 ^ h - 1 + 1 * 2 ^ h)%nat by lia. rewrite Nat.div_add by lia. reflexivity.
Qed.

(** The nodes at a height are those with a leaf under them. *)
Lemma lt_width n h pos : (pos < width n h)%nat <-> (pos * 2 ^ h < n)%nat.
Proof.
  unfold width. pose proof (pow2_pos h) as Hp. set (q := (2 ^ h)%nat) in *.
  pose proof (Nat.Div0.div_mod (n + q - 1) q) as E. pose proof (Nat.mod_upper_bound (n + q - 1) q ltac:(lia)) as Hm.
  set (d := ((n + q - 1) / q)%nat) in *. set (m := ((n + q - 1) mod q)%nat) in *. clearbody d m. clearbody q.
  split; intros Hl; [|apply Nat.nle_gt; intros Hc].
  - pose proof (Nat.mul_le_mono_l (S pos) d q ltac:(lia)). lia.
  - pose proof (Nat.mul_le_mono_l d pos q Hc). lia.
Qed.

Lemma width_le n h : (width n h <= n)%nat.
Proof. apply Nat.nlt_ge. intros Hl. apply lt_width in Hl. pose proof (pow2_pos h). nia. Qed.

Lemma under_split {A} h pos (l : list A) : under (S h) pos l = under h (2 * pos) l ++ under h (2 * pos + 1) l.
Proof.
  unfold under. rewrite Nat.pow_succ_r'. set (q := (2 ^ h)%nat). replace (2 * q)%nat with (q + q)%nat by lia.
  rewrite <- take_take_drop, drop_drop. replace (pos * (q + q))%nat with (2 * pos * q)%nat by lia.
  replace (2 * pos * q + q)%nat with ((2 * pos + 1) * q)%nat by lia. reflexivity.
Qed.

Lemma under_nil {A} h pos (l : list A) : (width (length l) h <= pos)%nat -> under h pos l = [].
Proof.
  intros Hw. unfold under. rewrite drop_ge; [apply take_nil|]. apply Nat.nlt_ge. intros Hl. apply lt_width in Hl. lia.
Qed.

Lemma under_not_nil {A} h pos (l : list A) : (pos < width (length l) h)%nat -> (1 <= length (under h pos l))%nat.
Proof. intros Hw. apply lt_width in Hw. unfold under. pose proof (pow2_pos h). rewrite length_take, length_drop. lia. Qed.

Lemma under_map {A B} (f : A -> B) h pos l : under h pos (map f l) = map f (under h pos l).
Proof. unfold under. change (map f) with (fmap (M:=list) f). rewrite fmap_take, fmap_drop. reflexivity. Qed.

(** The right child, when it is there, adds its leaves. *)
Lemma under_right {A} h pos (l : list A) :
  under (S h) pos l = under h (2 * pos) l ++ (if (2 * pos + 1 <? width (length l) h)%nat then under h (2 * pos + 1) l else []).
Proof.
  rewrite under_split. destruct (Nat.ltb_spec (2 * pos + 1) (width (length l) h)); [reflexivity|].
  rewrite (under_nil h (2 * pos + 1)) by lia. reflexivity.
Qed.

(** ** Heights *)

Lemma pow2_Z h : Z.of_nat (2 ^ h) = 2 ^ Z.of_nat h.
Proof. rewrite Nat2Z.inj_pow. reflexivity. Qed.

Lemma pow2_le h k : (h <= k)%nat -> (2 ^ h <= 2 ^ k)%nat.
Proof. intros. apply Nat.pow_le_mono_r; lia. Qed.

Section Heights.
Variable n : nat.
Hypothesis Hn : Z.of_nat n <= 2 ^ 20.

Lemma CalcTreeWidth_spec h : (h <= 20)%nat -> CalcTreeWidth (Z.of_nat n) h = Ret (Z.of_nat (width n h)).
Proof.
  intros Hh. unfold CalcTreeWidth. destruct (Nat.leb_spec 31 h); [lia|]. f_equal.
  rewrite Z.shiftl_1_l, Z.shiftr_div_pow2 by lia. pose proof (pow2_pos h).
  assert (Hp' : 1 <= 2 ^ Z.of_nat h <= 2 ^ 20) by (split; [lia|apply Z.pow_le_mono_r; lia]).
  unfold u32. rewrite !Z.mod_small by (try rewrite Z.mod_small; lia). unfold width.
  rewrite Nat2Z.inj_div, pow2_Z. f_equal. rewrite <- pow2_Z. lia.
Qed.

Lemma width_small : (width n 20 <= 1)%nat.
Proof. apply Nat.nlt_ge. intros Hl. apply lt_width in Hl. apply inj_lt in Hl. rewrite Nat2Z.inj_mul, pow2_Z in Hl. lia. Qed.

Lemma height_loop_spec fuel : forall h, (h <= 20)%nat -> (20 - h < fuel)%nat -> (forall k, (k < h)%nat -> (1 < width n k)%nat) ->
  exists h', (h' <= 20)%nat /\ height_loop fuel (Z.of_nat n) h = Ret h' /\ (width n h' <= 1)%nat /\
    forall k, (k < h')%nat -> (1 < width n k)%nat.
Proof.
  induction fuel as [|fuel IH]; intros h Hh Hf Hk; [lia|]. cbn [height_loop]. rewrite CalcTreeWidth_spec by assumption. cbn [obind].
  destruct (Z.ltb_spec 1 (Z.of_nat (width n h))).
  - destruct (decide (h = 20%nat)) as [->|]; [pose proof width_small; lia|]. apply IH; [lia..|].
    intros k Hk'. destruct (decide (k = h)) as [->|]; [lia|apply Hk; lia].
  - exists h. split_and!; auto. lia.
Qed.

Lemma tree_height_spec : exists h, (h <= 20)%nat /\ tree_height (Z.of_nat n) = Ret h /\ (width n h <= 1)%nat /\
  forall k, (k < h)%nat -> (1 < width n k)%nat.
Proof. apply height_loop_spec; lia. Qed.
End Heights.

(** ** Flag bits *)

(** The bit a position of a vector of bytes stands for. *)
Definition bit_at (bytes : list Z) (q : nat) : bool := Z.testbit (default 0 (bytes !! (q / 8)%nat)) (Z.of_nat (q mod 8)).

Lemma land_single_bit x j : 0 <= j -> negb (Z.land x (Z.shiftl 1 j) =? 0) = Z.testbit x j.
Proof. intros Hj. rewrite land_bit by assumption. apply negb_involutive. Qed.

Lemma unpack_bits_spec bytes : unpack_bits bytes = map (bit_at bytes) (seq 0 (length bytes * 8)).
Proof. apply map_ext. intros q. unfold bit_at. apply land_single_bit. lia. Qed.

Lemma testbit_b2z_shift b k j : 0 <= k -> 0 <= j -> Z.testbit (Z.shiftl (Z.b2z b) k) j = b && (j =? k).
Proof.
  intros Hk Hj. destruct b; cbn [Z.b2z andb]; [|rewrite Z.shiftl_0_l, Z.bits_0; reflexivity].
  rewrite Z.shiftl_1_l, Z.pow2_bits_eqb by lia. apply Z.eqb_sym.
Qed.

Definition set_bit (b : bool) (p : nat) (bytes : list Z) : list Z :=
  alter (fun x => u8 (Z.lor x (Z.shiftl (Z.b2z b) (Z.of_nat (p mod 8))))) (p / 8)%nat bytes.

Lemma set_bit_at b p bytes q : (p < length bytes * 8)%nat ->
  bit_at (set_bit b p bytes) q = bit_at bytes q || (b && (q =? p)%nat).
Proof.
  intros Hp. unfold bit_at, set_bit. pose proof (Nat.div_mod p 8 ltac:(lia)) as Dp. pose proof (Nat.div_mod q 8 ltac:(lia)) as Dq.
  pose proof (Nat.mod_upper_bound p 8 ltac:(lia)). pose proof (Nat.mod_upper_bound q 8 ltac:(lia)).
  destruct (decide (p / 8 = q / 8)%nat) as [E|E].
  - rewrite E, list_lookup_alter_eq. destruct (lookup_lt_is_Some_2 bytes (q / 8)%nat) as [x Hx]; [lia|]. rewrite Hx. cbn [fmap option_fmap option_map default from_option id].
    change (default 0 (Some ?y)) with y.
    unfold u8. rewrite Z.mod_pow2_bits_low, Z.lor_spec, testbit_b2z_shift by lia. do 2 f_equal.
    destruct (Nat.eqb_spec q p), (Z.eqb_spec (Z.of_nat (q mod 8)) (Z.of_nat (p mod 8))); try reflexivity; [subst; lia|lia].
  - rewrite list_lookup_alter_ne by assumption. destruct (Nat.eqb_spec q p); [subst; lia|]. rewrite andb_false_r, orb_false_r. reflexivity.
Qed.

Lemma pack_loop_spec bits : forall p bytes, (p + length bits <= length bytes * 8)%nat -> bytes_ok bytes ->
  length (pack_loop bits p bytes) = length bytes /\ bytes_ok (pack_loop bits p bytes) /\
  forall q, bit_at (pack_loop bits p bytes) q = bit_at bytes q || ((p <=? q)%nat && default false (bits !! (q - p)%nat)).
Proof.
  induction bits as [|b bits IH]; intros p bytes Hp Hok; cbn [pack_loop].
  - split_and!; [reflexivity|exact Hok|]. intros q. rewrite lookup_nil, andb_false_r, orb_false_r. reflexivity.
  - fold (set_bit b p bytes). cbn [length] in Hp.
    assert (Hl : length (set_bit b p bytes) = length bytes) by apply length_alter.
    assert (Hs : bytes_ok (set_bit b p bytes)).
    { apply Forall_alter; [exact Hok|]. intros x _ _. unfold is_byte, u8. apply Z.mod_pos_bound. lia. }
    destruct (IH (S p) (set_bit b p bytes)) as (L & O & B); [lia|exact Hs|]. split_and!; [lia|exact O|].
    intros q. rewrite B, set_bit_at by lia. destruct (Nat.leb_spec (S p) q), (Nat.leb_spec p q), (Nat.eqb_spec q p); try lia;
      cbn [andb]; rewrite ?andb_false_r, ?andb_true_r, ?orb_false_r; try reflexivity.
    + replace (q - p)%nat with (S (q - S p)) by lia. reflexivity.
    + subst q. rewrite Nat.sub_diag. reflexivity.
Qed.

Lemma bit_at_zeros k q : bit_at (replicate k 0) q = false.
Proof.
  unfold bit_at. destruct (replicate k 0 !! (q / 8)%nat) as [x|] eqn:E; cbn; [|apply Z.bits_0].
  apply lookup_replicate in E as [-> _]. apply Z.bits_0.
Qed.

Lemma packed_size k : (k <= (k + 7) / 8 * 8)%nat.
Proof. pose proof (Nat.div_mod (k + 7) 8 ltac:(lia)). pose proof (Nat.mod_upper_bound (k + 7) 8 ltac:(lia)). lia. Qed.

Lemma pack_bits_spec bits : length (pack_bits bits) = ((length bits + 7) / 8)%nat /\ bytes_ok (pack_bits bits) /\
  forall q, bit_at (pack_bits bits) q = default false (bits !! q).
Proof.
  unfold pack_bits. destruct (pack_loop_spec bits 0 (replicate ((length bits + 7) / 8) 0)) as (L & O & B).
  - rewrite length_replicate. apply packed_size.
  - apply Forall_replicate. unfold is_byte. lia.
  - rewrite length_replicate in L. split_and!; [exact L|exact O|]. intros q. rewrite B, bit_at_zeros, Nat.sub_0_r. reflexivity.
Qed.

(** The bits come back with the padding of the last byte. *)
Lemma unpack_pack bits : unpack_bits (pack_bits bits) = bits ++ replicate ((length bits + 7) / 8 * 8 - length bits) false.
Proof.
  destruct (pack_bits_spec bits) as (L & _ & B). rewrite unpack_bits_spec, L. pose proof (packed_size (length bits)).
  apply list_eq. intros q. change (map (bit_at ?v)) with (fmap (M:=list) (bit_at v)). rewrite list_lookup_fmap.
  destruct (Nat.lt_ge_cases q ((length bits + 7) / 8 * 8)).
  - rewrite lookup_seq_lt by assumption. change (bit_at (pack_bits bits) <$> Some (0 + q)%nat) with (Some (bit_at (pack_bits bits) q)). rewrite B. destruct (bits !! q) as [b|] eqn:E.
    + rewrite lookup_app_l by (apply lookup_lt_Some in E; exact E). rewrite E. reflexivity.
    + apply lookup_ge_None in E. rewrite lookup_app_r, lookup_replicate_2 by lia. reflexivity.
  - rewrite lookup_seq_ge by assumption. symmetry. apply lookup_ge_None. rewrite length_app, length_replicate. lia.
Qed.

Lemma unpack_lookup bytes q : default false (unpack_bits bytes !! q) = bit_at bytes q.
Proof.
  rewrite unpack_bits_spec. change (map (bit_at bytes)) with (fmap (M:=list) (bit_at bytes)). rewrite list_lookup_fmap.
  destruct (Nat.lt_ge_cases q (length bytes * 8)); [rewrite lookup_seq_lt by assumption; reflexivity|].
  rewrite lookup_seq_ge by assumption. unfold bit_at. rewrite lookup_ge_None_2; [cbn; rewrite Z.bits_0; reflexivity|].
  apply Nat.div_le_lower_bound; lia.
Qed.

Lemma same_bits v1 v2 : length v1 = length v2 -> bytes_ok v1 -> bytes_ok v2 -> (forall q, bit_at v1 q = bit_at v2 q) -> v1 = v2.
Proof.
  intros Hl H1 H2 Hb. apply list_eq. intros i. destruct (Nat.lt_ge_cases i (length v1)).
  2:{ rewrite !lookup_ge_None_2 by lia. reflexivity. }
  destruct (lookup_lt_is_Some_2 v1 i) as [x Hx]; [lia|]. destruct (lookup_lt_is_Some_2 v2 i) as [y Hy]; [lia|].
  rewrite Hx, Hy. f_equal. pose proof (Forall_lookup_1 _ _ _ _ H1 Hx) as Bx. pose proof (Forall_lookup_1 _ _ _ _ H2 Hy) as By.
  unfold is_byte in Bx, By. change 256 with (2 ^ 8) in Bx, By. rewrite <- (Z.mod_small x (2 ^ 8)), <- (Z.mod_small y (2 ^ 8)) by lia.
  apply Z.bits_inj'. intros k Hk. destruct (Z.lt_ge_cases k 8); [|rewrite !Z.mod_pow2_bits_high by lia; reflexivity].
  rewrite !Z.mod_pow2_bits_low by lia. specialize (Hb (i * 8 + Z.to_nat k)%nat). unfold bit_at in Hb.
  rewrite Nat.add_comm, Nat.div_add, Nat.div_small, Nat.Div0.mod_add, Nat.mod_small, Nat.add_0_l, Hx, Hy, Z2Nat.id in Hb by lia.
  exact Hb.
Qed.

Lemma length_unpack bytes : length (unpack_bits bytes) = (length bytes * 8)%nat.
Proof. unfold unpack_bits. rewrite length_map, length_seq. reflexivity. Qed.

Lemma pack_unpack bytes : bytes_ok bytes -> pack_bits (unpack_bits bytes) = bytes.
Proof.
  intros Hb. destruct (pack_bits_spec (unpack_bits bytes)) as (L & O & B). apply same_bits; auto.
  - rewrite L, length_unpack. rewrite Nat.add_comm, Nat.div_add by lia. reflexivity.
  - intros q. rewrite B. apply unpack_lookup.
Qed.

(** The trees that are read back as they are: the bits fill whole bytes. *)
Definition partial_tree_ok (us : CPartialMerkleTree) : Prop :=
  uint_range 4 (nTransactions us) /\ vector_fits (blob_ok 8) (vHash us) /\ zlen (pack_bits (vBits us)) <= MAX_SIZE /\
  unpack_bits (pack_bits (vBits us)) = vBits us /\ fBad us = false.

Lemma partial_tree_lawful : lawful partial_tree_codec partial_tree_ok.
Proof.
  apply (object_lawful _ _ _ (fun p => uint_range 4 p.1 /\ (vector_fits (blob_ok 8) p.2.1 /\ bytes_fit p.2.2))).
  - intros us (Hn & Hh & Hs & Hb & Hbad). cbn [fst snd]. unfold bytes_fit. split_and!; auto; [apply pack_bits_spec|].
    rewrite Hb, <- Hbad. destruct us; reflexivity.
  - intros [n [hs bytes]] (Hn & Hh & Hb & Hs). unfold partial_tree_ok. cbn [fst snd nTransactions vBits vHash fBad] in *. rewrite pack_unpack by assumption.
    split_and!; auto; apply Hh.
  - apply (pair_lawful _ _ _ (fun p => vector_fits (blob_ok 8) p.1 /\ bytes_fit p.2)); [apply uint_lawful|].
    apply pair_lawful; [apply vector_lawful; [apply base_uint_lawful|lia]|apply bytes_lawful].
Qed.

(** What arrives of a tree that is sent. *)
Definition padded (us : CPartialMerkleTree) : CPartialMerkleTree :=
  mkPartialMerkleTree (nTransactions us) (unpack_bits (pack_bits (vBits us))) (vHash us) false.

Lemma partial_tree_sent us rest : uint_range 4 (nTransactions us) -> vector_fits (blob_ok 8) (vHash us) ->
  zlen (pack_bits (vBits us)) <= MAX_SIZE ->
  Unserialize partial_tree_codec (Serialize partial_tree_codec us ++ rest) = Ret (padded us, rest).
Proof.
  intros Hn Hh Hs. assert (Hp : pack_bits (vBits (padded us)) = pack_bits (vBits us)) by (apply pack_unpack, pack_bits_spec).
  replace (Serialize partial_tree_codec us) with (Serialize partial_tree_codec (padded us))
    by (cbn [Serialize partial_tree_codec object_codec]; rewrite Hp; reflexivity).
  apply (law_roundtrip partial_tree_lawful). unfold partial_tree_ok. rewrite Hp. auto.
Qed.
