(* ===== verification/MerkleBlockProps.v ===== *)
(** * Partial merkle trees: correctness

    The traversals of [MerkleBlock] are related to the tree by levels of [Merkle]:
    what is built is read back, and what is extracted from the bits and hashes of
    any peer belongs to the block whose root is computed. *)

From Stdlib Require Import ZArith Lia Bool.
From stdpp Require Import base option numbers list.
From S2P Require Import Prelude BaseUInt UInt256 StackManager Hashes Serialize Transaction Merkle ConnectBlock MerkleBlock.

Open Scope Z_scope.
Open Scope outcome_scope.

(** ** Hashes of nodes *)

Section Nodes.
Variable H : base_uint -> base_uint -> base_uint.

(** The hashes at a height. *)
Definition level (h : nat) (l : list base_uint) : list base_uint := Nat.iter h (next_level H) l.

Lemma length_level h l : length (level h l) = width (length l) h.
Proof.
  induction h as [|h IH]; [unfold width; change (2 ^ 0)%nat with 1%nat; rewrite Nat.div_1_r; change (level 0 l) with l; lia|].
  change (level (S h) l) with (next_level H (level h l)). rewrite length_next_level, IH. apply width_step.
Qed.

Lemma level_lookup h l pos : (pos < width (length l) h)%nat -> exists a, level h l !! pos = Some a.
Proof. intros Hp. apply lookup_lt_is_Some_2. rewrite length_level. exact Hp. Qed.

(** The levels above the first one of a single hash are not those of the tree. *)
Lemma level_root h l : (forall k, (k < h)%nat -> (1 < width (length l) k)%nat) -> merkle_root H (level h l) = merkle_root H l.
Proof.
  induction h as [|h IH]; intros Hk; [reflexivity|].
  rewrite <- IH by (intros k ?; apply Hk; lia). symmetry. apply merkle_root_step. rewrite length_level. specialize (Hk h ltac:(lia)). lia.
Qed.

Lemma root_lookup h l a : (forall k, (k < h)%nat -> (1 < width (length l) k)%nat) -> (width (length l) h <= 1)%nat ->
  level h l !! 0%nat = Some a -> a = merkle_root H l.
Proof.
  intros Hk Hw Ha. rewrite <- (level_root h l Hk). pose proof (length_level h l) as Hl.
  destruct (level h l) as [|x [|y k]]; [discriminate| |cbn in Hl; lia]. injection Ha as ->. reflexivity.
Qed.

(** A node, from its children. *)
Lemma level_children h l pos a : level (S h) l !! pos = Some a ->
  exists x y, level h l !! (2 * pos)%nat = Some x /\ a = H x y /\
    ((2 * pos + 1 < width (length l) h)%nat /\ level h l !! (2 * pos + 1)%nat = Some y \/
     (width (length l) h <= 2 * pos + 1)%nat /\ y = x).
Proof.
  intros Ha. assert (Hp : (2 * pos < width (length l) h)%nat).
  { apply lookup_lt_Some in Ha. rewrite length_level in Ha. apply lt_width in Ha. apply lt_width. rewrite Nat.pow_succ_r' in Ha. lia. }
  destruct (level_lookup h l (2 * pos) Hp) as [x Hx]. change (level (S h) l) with (next_level H (level h l)) in Ha.
  rewrite (next_level_pair H _ _ x Hx) in Ha. apply (inj Some) in Ha. exists x.
  destruct (level h l !! (2 * pos + 1)%nat) as [y|] eqn:Ey.
  - exists y. split; [assumption|]. split; [symmetry; exact Ha|]. left. split; [|reflexivity]. apply lookup_lt_Some in Ey. rewrite length_level in Ey. exact Ey.
  - exists x. split; [assumption|]. split; [symmetry; exact Ha|]. right. split; [|reflexivity]. apply lookup_ge_None in Ey. rewrite length_level in Ey. exact Ey.
Qed.

Context (n : nat) (Hn : Z.of_nat n <= 2 ^ 20).

Lemma child_pos h pos : (pos < width n (S h))%nat ->
  u32 (Z.of_nat pos * 2) = Z.of_nat (2 * pos) /\ u32 (u32 (Z.of_nat pos * 2) + 1) = Z.of_nat (2 * pos + 1) /\
  (2 * pos < width n h)%nat.
Proof.
  intros Hp. pose proof (width_le n (S h)). apply lt_width in Hp as Hq. rewrite Nat.pow_succ_r' in Hq.
  unfold u32. rewrite (Z.mod_small (Z.of_nat pos * 2)) by lia. rewrite Z.mod_small by lia. split_and!; [lia|lia|]. apply lt_width. lia.
Qed.

Lemma CalcHash_spec l : length l = n -> forall h pos a, (h <= 20)%nat -> level h l !! pos = Some a ->
  CalcHash H (Z.of_nat n) h (Z.of_nat pos) l = Ret a.
Proof.
  intros Hl. induction h as [|h IH]; intros pos a Hh Ha; cbn [CalcHash].
  { rewrite Nat2Z.id. change (level 0 l) with l in Ha. rewrite Ha. reflexivity. }
  apply lookup_lt_Some in Ha as Hp. rewrite length_level, Hl in Hp. destruct (child_pos h pos Hp) as (E1 & E2 & _).
  rewrite E2, E1. apply level_children in Ha as (x & y & Hx & -> & Hy). rewrite Hl in Hy.
  rewrite (IH _ x) by (assumption || lia). cbn [obind]. rewrite CalcTreeWidth_spec by lia. cbn [obind].
  destruct Hy as [[Hw Hy]|[Hw ->]].
  - rewrite (proj2 (Z.ltb_lt _ _)), (IH _ y) by (assumption || lia). reflexivity.
  - rewrite (proj2 (Z.ltb_ge _ _)) by lia. reflexivity.
Qed.

(** ** Building *)

Lemma parent_loop_spec (m : list bool) : length m = n -> forall fuel p last b, (p <= n)%nat -> (n - p <= fuel)%nat ->
  parent_loop fuel (Z.of_nat p) (Z.of_nat last) (Z.of_nat n) m b = Ret (b || existsb id (take (last - p) (drop p m))).
Proof.
  intros Hm. induction fuel as [|fuel IH]; intros p last b Hp Hf; cbn [parent_loop];
    destruct (Z.ltb_spec (Z.of_nat p) (Z.of_nat last)), (Z.ltb_spec (Z.of_nat p) (Z.of_nat n)); cbn [andb]; try lia;
    try (rewrite (drop_ge m p), take_nil by lia; cbn; rewrite orb_false_r; reflexivity);
    try (replace (last - p)%nat with 0%nat by lia; cbn; rewrite orb_false_r; reflexivity).
  rewrite Nat2Z.id. destruct (lookup_lt_is_Some_2 m p) as [x Hx]; [lia|]. rewrite Hx. cbn [oaccess obind].
  unfold u32. rewrite Z.mod_small by lia. replace (Z.of_nat p + 1) with (Z.of_nat (S p)) by lia. rewrite IH by lia.
  rewrite (drop_S _ _ _ Hx). replace (last - p)%nat with (S (last - S p)) by lia. cbn [firstn existsb].
  unfold id at 2. rewrite orb_assoc. reflexivity.
Qed.

Lemma parent_of_match_spec (m : list bool) h pos : length m = n -> (h <= 20)%nat -> (pos < width n h)%nat ->
  parent_of_match (Z.of_nat n) h (Z.of_nat pos) m = Ret (existsb id (under h pos m)).
Proof.
  intros Hm Hh Hp. apply lt_width in Hp as Hq. unfold parent_of_match, u32.
  assert (Hh2 : 1 <= 2 ^ Z.of_nat h <= 2 ^ 20) by (split; [lia|apply Z.pow_le_mono_r; lia]).
  pose proof (width_le n h). rewrite (Z.mod_small (Z.of_nat pos + 1)) by lia. rewrite !Z.shiftl_mul_pow2 by lia. rewrite <- pow2_Z in *.
  rewrite !Z.mod_small by nia. replace (Z.of_nat pos * Z.of_nat (2 ^ h)) with (Z.of_nat (pos * 2 ^ h)) by lia.
  replace ((Z.of_nat pos + 1) * Z.of_nat (2 ^ h)) with (Z.of_nat ((pos + 1) * 2 ^ h)) by lia.
  rewrite parent_loop_spec by (assumption || lia). cbn [orb]. unfold under.
  replace ((pos + 1) * 2 ^ h - pos * 2 ^ h)%nat with (2 ^ h)%nat by lia. reflexivity.
Qed.

(** ** Extracting what was built *)

(** The selected leaves. *)
Definition picked (z : list (base_uint * bool)) : list base_uint := flat_map (fun p => if p.2 : bool then [p.1] else []) z.

Lemma picked_none z : existsb snd z = false -> picked z = [].
Proof. induction z as [|[x [|]] z IH]; cbn; intros E; [reflexivity|discriminate|auto]. Qed.

Lemma existsb_snd (k : list (base_uint * bool)) : existsb id (map snd k) = existsb snd k.
Proof. induction k as [|p k IH]; cbn; [reflexivity|]. rewrite IH. reflexivity. Qed.

(** Vectors whose sizes an [unsigned int] can count. *)
Definition countable (t : CPartialMerkleTree) : Prop :=
  nTransactions t = Z.of_nat n /\ zlen (vBits t) < 2 ^ 32 /\ zlen (vHash t) < 2 ^ 32.

Lemma lookup_at {A} (pre : list A) x post : (pre ++ x :: post) !! Z.to_nat (zlen pre) = Some x.
Proof. unfold zlen. rewrite Nat2Z.id. apply list_lookup_middle. reflexivity. Qed.

Lemma extract_leaf h pos t pre f post preh x posth ms :
  countable t -> vBits t = pre ++ f :: post -> vHash t = preh ++ x :: posth -> h = 0%nat \/ f = false ->
  TraverseAndExtract H h pos t (mkTraversal (zlen pre) (zlen preh) ms false) =
  Ret (x, mkTraversal (zlen pre + 1) (zlen preh + 1) (ms ++ (if f then [x] else [])) false).
Proof.
  intros (_ & Lb & Lh) Eb Eh Hc.
  assert (zlen pre < zlen (vBits t) /\ zlen preh < zlen (vHash t)) as [Lp Lq].
  { rewrite Eb, Eh, !zlen_app. rewrite !zlen_cons. pose proof (zlen_nonneg post). pose proof (zlen_nonneg posth). lia. }
  destruct h as [|h]; cbn [TraverseAndExtract tr_bits tr_hashes tr_match tr_bad];
    rewrite (proj2 (Z.leb_gt _ _)), Eb, lookup_at by assumption; cbn [oaccess obind];
    [|destruct Hc as [?| ->]; [discriminate|cbn [negb]]];
    rewrite (proj2 (Z.leb_gt _ _)), Eh, lookup_at by assumption; cbn [oaccess obind]; unfold u32;
    rewrite !Z.mod_small by (pose proof (zlen_nonneg pre); pose proof (zlen_nonneg preh); lia);
    [destruct f|]; rewrite ?app_nil_r; reflexivity.
Qed.

Lemma extract_inner h pos t pre post st :
  countable t -> vBits t = pre ++ true :: post -> tr_bits st = zlen pre ->
  TraverseAndExtract H (S h) pos t st =
  let* '(hleft, st) :=
    TraverseAndExtract H h (u32 (pos * 2)) t (mkTraversal (zlen pre + 1) (tr_hashes st) (tr_match st) (tr_bad st)) in
  let* w := CalcTreeWidth (nTransactions t) h in
  let* '(hright, st) :=
    if u32 (u32 (pos * 2) + 1) <? w then TraverseAndExtract H h (u32 (u32 (pos * 2) + 1)) t st else Ret (hleft, st) in
  Ret (H hleft hright, st).
Proof.
  intros (_ & Lb & _) Eb Es. cbn [TraverseAndExtract].
  assert (zlen pre < zlen (vBits t)) as Lp by (rewrite Eb, zlen_app, zlen_cons; pose proof (zlen_nonneg post); lia).
  rewrite Es, (proj2 (Z.leb_gt _ _)), Eb, lookup_at by assumption. cbn [oaccess obind negb tr_hashes tr_match tr_bad].
  replace (u32 (zlen pre + 1)) with (zlen pre + 1); [reflexivity|].
  symmetry. apply Z.mod_small. pose proof (zlen_nonneg pre). lia.
Qed.

Section Built.
Context (z : list (base_uint * bool)) (Hz : length z = n).

(** The hashes are nodes of the tree. *)
Definition tree_hash (x : base_uint) : Prop := exists k i, level k (map fst z) !! i = Some x.

(** The bits [b] and hashes [hs] written for a node: how many, what they do to
    the tree being built, and what reading them gives. *)
Definition node_code (h pos : nat) (b : list bool) (hs : list base_uint) : Prop :=
  (1 <= length b < 2 ^ S h)%nat /\ (length hs <= length b)%nat /\ (length hs <= length (under h pos z))%nat /\
  Forall tree_hash hs /\
  (forall us, nTransactions us = Z.of_nat n -> TraverseAndBuild H h (Z.of_nat pos) (map fst z) (map snd z) us =
     Ret (mkPartialMerkleTree (nTransactions us) (vBits us ++ b) (vHash us ++ hs) (fBad us))) /\
  exists a, level h (map fst z) !! pos = Some a /\
  forall t pre post preh posth ms, countable t -> vBits t = pre ++ b ++ post -> vHash t = preh ++ hs ++ posth ->
    TraverseAndExtract H h (Z.of_nat pos) t (mkTraversal (zlen pre) (zlen preh) ms false) =
    Ret (a, mkTraversal (zlen pre + zlen b) (zlen preh + zlen hs) (ms ++ picked (under h pos z)) false).

(** A node that is not descended into. *)
Lemma stored_node h pos f : (h <= 20)%nat -> (pos < width n h)%nat -> existsb snd (under h pos z) = f ->
  h = 0%nat \/ f = false -> exists a, level h (map fst z) !! pos = Some a /\ node_code h pos [f] [a].
Proof.
  intros Hh Hp Hf Hc. assert (Hl : length (map fst z) = n) by (rewrite length_map; exact Hz).
  assert (Hm : length (map snd z) = n) by (rewrite length_map; exact Hz).
  destruct (level_lookup h (map fst z) pos) as [a Ha]; [rewrite Hl; exact Hp|]. exists a. split; [exact Ha|].
  assert (Hx : existsb id (under h pos (map snd z)) = f) by (rewrite under_map, <- Hf; apply existsb_snd).
  assert (Hpick : picked (under h pos z) = if f then [a] else []).
  { destruct Hc as [-> | ->]; [|apply picked_none; exact Hf]. change (level 0 (map fst z)) with (map fst z) in Ha.
    rewrite list_lookup_fmap in Ha. destruct (z !! pos) as [[x g]|] eqn:Ez; [|discriminate]. injection Ha as <-.
    unfold under in *. change (2 ^ 0)%nat with 1%nat in *. rewrite Nat.mul_1_r, (drop_S _ _ _ Ez) in *. cbn in Hf |- *.
    rewrite orb_false_r in Hf. subst g. destruct f; reflexivity. }
  split; [split; [reflexivity|]; pose proof (pow2_pos h); rewrite Nat.pow_succ_r'; cbn; lia|]. split; [reflexivity|].
  split; [apply under_not_nil; rewrite Hz; exact Hp|]. split; [repeat constructor; exists h, pos; exact Ha|]. split.
  - intros us Hu. destruct h as [|h]; cbn [TraverseAndBuild]; rewrite Hu, parent_of_match_spec, Hx by assumption; cbn [obind];
      [|destruct Hc as [?| ->]; [discriminate|]; cbn [negb]]; unfold push_bit at 1; cbn [nTransactions]; rewrite Hu;
      rewrite (CalcHash_spec _ Hl _ _ a) by assumption; cbn [obind]; unfold push_hash, push_bit; cbn; rewrite Hu; reflexivity.
  - exists a. split; [exact Ha|]. intros t pre post preh posth ms Ht Eb Eh. rewrite Hpick.
    apply (extract_leaf h (Z.of_nat pos) t pre f post preh a posth ms); assumption.
Qed.

(** The same for the right child, which may be missing; [x] is the hash on the
    left, [y] the one on the right. *)
Definition right_code (h pos : nat) (x y : base_uint) (b : list bool) (hs : list base_uint) : Prop :=
  let leaves := if (2 * pos + 1 <? width n h)%nat then under h (2 * pos + 1) z else [] in
  let here {A} (there other : A) := if Z.of_nat (2 * pos + 1) <? Z.of_nat (width n h) then there else other in
  (length b < 2 ^ S h)%nat /\ (length hs <= length b)%nat /\ (length hs <= length leaves)%nat /\ Forall tree_hash hs /\
  (forall us, nTransactions us = Z.of_nat n ->
    here (TraverseAndBuild H h (Z.of_nat (2 * pos + 1)) (map fst z) (map snd z) us) (Ret us) =
    Ret (mkPartialMerkleTree (nTransactions us) (vBits us ++ b) (vHash us ++ hs) (fBad us))) /\
  forall t pre post preh posth ms, countable t -> vBits t = pre ++ b ++ post -> vHash t = preh ++ hs ++ posth ->
    here (TraverseAndExtract H h (Z.of_nat (2 * pos + 1)) t (mkTraversal (zlen pre) (zlen preh) ms false))
         (Ret (x, mkTraversal (zlen pre) (zlen preh) ms false)) =
    Ret (y, mkTraversal (zlen pre + zlen b) (zlen preh + zlen hs) (ms ++ picked leaves) false).

Lemma right_code_ex h pos x y : ((2 * pos + 1 < width n h)%nat -> exists b hs, node_code h (2 * pos + 1) b hs) ->
  (2 * pos + 1 < width n h)%nat /\ level h (map fst z) !! (2 * pos + 1)%nat = Some y \/
  (width n h <= 2 * pos + 1)%nat /\ y = x -> exists b hs, right_code h pos x y b hs.
Proof.
  intros IH [[Hw Hy]|[Hw ->]]; unfold right_code; cbn zeta.
  - destruct (IH Hw) as (b2 & hs2 & (M1 & M2) & M3 & M4 & F2 & B2 & a2 & A2 & X2). exists b2, hs2.
    rewrite A2 in Hy. injection Hy as <-. rewrite (proj2 (Z.ltb_lt _ _)), (proj2 (Nat.ltb_lt _ _)) by lia. split_and!; auto.
  - exists [], []. rewrite (proj2 (Z.ltb_ge _ _)), (proj2 (Nat.ltb_ge _ _)) by lia. pose proof (pow2_pos (S h)).
    split_and!; [cbn [length]; lia..|constructor| |].
    + intros us _. rewrite !app_nil_r. destruct us; reflexivity.
    + intros. cbn. rewrite app_nil_r, !Z.add_0_r. reflexivity.
Qed.

(** An inner node: its own bit, then its children. *)
Lemma node_code_join h pos b1 hs1 b2 hs2 x y : (S h <= 20)%nat -> (pos < width n (S h))%nat ->
  existsb snd (under (S h) pos z) = true -> level (S h) (map fst z) !! pos = Some (H x y) ->
  level h (map fst z) !! (2 * pos)%nat = Some x ->
  node_code h (2 * pos) b1 hs1 -> right_code h pos x y b2 hs2 -> node_code (S h) pos (true :: b1 ++ b2) (hs1 ++ hs2).
Proof.
  intros Hh Hp Ef Ha Hx ((L1 & L2) & L3 & L4 & F1 & B1 & a1 & A1 & X1) (M2 & M3 & M4 & F2 & B2 & X2).
  rewrite A1 in Hx. injection Hx as ->. destruct (child_pos h pos Hp) as (E1 & E2 & Hl).
  assert (Hpow : (2 ^ S (S h) = 2 * 2 ^ S h)%nat) by apply Nat.pow_succ_r'.
  unfold node_code. rewrite under_right, Hz in Ef |- *. cbn [length]. rewrite !length_app. split_and!; [lia..|apply Forall_app; auto| |].
  - intros us Hu. cbn [TraverseAndBuild]. rewrite Hu, parent_of_match_spec by (rewrite ?length_map; assumption).
    rewrite under_map, existsb_snd, under_right, Hz, Ef. cbn [obind negb]. rewrite E2, E1.
    rewrite B1 by exact Hu. cbn [obind nTransactions push_bit]. rewrite Hu, CalcTreeWidth_spec by lia. cbn [obind].
    rewrite B2 by reflexivity. cbn [nTransactions vBits vHash fBad push_bit]. rewrite <- !app_assoc. reflexivity.
  - exists (H x y). split; [exact Ha|]. intros t pre post preh posth ms Ht Eb Eh. cbn [app] in Eb. rewrite <- app_assoc in Eb, Eh.
    rewrite (extract_inner h _ t pre (b1 ++ b2 ++ post)) by assumption || reflexivity. cbn [tr_hashes tr_match tr_bad]. rewrite E2, E1.
    pose proof (X1 t (pre ++ [true]) (b2 ++ post) preh (hs2 ++ posth) ms Ht) as Y1. rewrite zlen_app in Y1.
    change (zlen [true]) with 1 in Y1. rewrite Y1; [|rewrite Eb, <- app_assoc; reflexivity|exact Eh]. cbn [obind].
    rewrite (proj1 Ht), CalcTreeWidth_spec by lia. cbn [obind].
    pose proof (X2 t (pre ++ true :: b1) post (preh ++ hs1) posth (ms ++ picked (under h (2 * pos) z)) Ht) as Y2.
    rewrite !zlen_app, zlen_cons in Y2. replace (zlen pre + 1 + zlen b1) with (zlen pre + (1 + zlen b1)) by lia.
    rewrite Y2; [|rewrite Eb, <- app_assoc; reflexivity|rewrite Eh, <- app_assoc; reflexivity]. cbn [obind].
    unfold picked. rewrite flat_map_app, app_assoc, zlen_cons, !zlen_app. do 3 f_equal; lia.
Qed.

Lemma node_code_ex h : forall pos, (h <= 20)%nat -> (pos < width n h)%nat -> exists b hs, node_code h pos b hs.
Proof.
  induction h as [|h IH]; intros pos Hh Hp;
    [destruct (stored_node 0 pos _ Hh Hp eq_refl) as (a & _ & Ha); [auto|]; eauto|].
  destruct (existsb snd (under (S h) pos z)) eqn:Ef;
    [|destruct (stored_node (S h) pos _ Hh Hp Ef) as (a & _ & Ha); [auto|]; eauto].
  destruct (child_pos h pos Hp) as (_ & _ & Hl). destruct (IH (2 * pos)%nat ltac:(lia) Hl) as (b1 & hs1 & C1).
  assert (Hlen : length (map fst z) = n) by (rewrite length_map; exact Hz).
  destruct (level_lookup (S h) (map fst z) pos) as [a Ha]; [rewrite Hlen; exact Hp|].
  destruct (level_children _ _ _ _ Ha) as (x & y & Hx & -> & Hy). rewrite Hlen in Hy.
  destruct (right_code_ex h pos x y) as (b2 & hs2 & C2); [intros; apply IH; lia|exact Hy|].
  do 2 eexists. apply (node_code_join h pos b1 hs1 b2 hs2 x y); assumption.
Qed.
End Built.

(** ** Extracting from any tree *)

(** The pairs of children that the traversal hashes. *)
Fixpoint traversed_pairs (height : nat) (pos : Z) (t : CPartialMerkleTree) (st : traversal) : list (base_uint * base_uint) :=
  match height with
  | O => []
  | S h =>
      if zlen (vBits t) <=? tr_bits st then []
      else if negb (default false (vBits t !! Z.to_nat (tr_bits st))) then []
      else
        let st := mkTraversal (u32 (tr_bits st + 1)) (tr_hashes st) (tr_match st) (tr_bad st) in
        match TraverseAndExtract H h (u32 (pos * 2)) t st, CalcTreeWidth (nTransactions t) h with
        | Ret (hleft, st1), Ret w =>
            traversed_pairs h (u32 (pos * 2)) t st ++
            (if u32 (u32 (pos * 2) + 1) <? w then
               match TraverseAndExtract H h (u32 (u32 (pos * 2) + 1)) t st1 with
               | Ret (hright, _) => traversed_pairs h (u32 (u32 (pos * 2) + 1)) t st1 ++ [(hleft, hright)]
               | _ => []
               end
             else [(hleft, hleft)])
        | _, _ => []
        end
  end.

(** One call: failure, a hash read, or two children. *)
Lemma extract_inv h pos t st a st' : TraverseAndExtract H h pos t st = Ret (a, st') ->
  tr_bad st' = true \/
  (tr_bad st' = tr_bad st /\ (tr_match st' = tr_match st \/ h = 0%nat /\ tr_match st' = tr_match st ++ [a])) \/
  exists h' st0 x st1 y w, h = S h' /\ tr_match st0 = tr_match st /\ tr_bad st0 = tr_bad st /\
    TraverseAndExtract H h' (u32 (pos * 2)) t st0 = Ret (x, st1) /\ a = H x y /\ CalcTreeWidth (nTransactions t) h' = Ret w /\
    (if u32 (u32 (pos * 2) + 1) <? w then TraverseAndExtract H h' (u32 (u32 (pos * 2) + 1)) t st1 = Ret (y, st')
     else y = x /\ st' = st1) /\
    traversed_pairs h pos t st = traversed_pairs h' (u32 (pos * 2)) t st0 ++
      (if u32 (u32 (pos * 2) + 1) <? w then traversed_pairs h' (u32 (u32 (pos * 2) + 1)) t st1 ++ [(x, y)] else [(x, y)]).
Proof.
  intros E. destruct h as [|h]; cbn [TraverseAndExtract traversed_pairs tr_bits tr_hashes tr_match tr_bad] in E |- *;
    (case_match; [injection E as <- <-; auto|]); apply obind_ret_inv in E as (f & Ef & E); [|destruct f; cbn [negb] in E];
    try (case_match; [injection E as <- <-; auto|]; apply obind_ret_inv in E as (x & _ & E); injection E as <- <-;
         right; left; split; [reflexivity|]; try case_match; auto).
  apply oaccess_ret_inv in Ef. rewrite Ef. cbn [default negb].
  apply obind_ret_inv in E as ([x st1] & E1 & E). apply obind_ret_inv in E as (w & Ew & E).
  apply obind_ret_inv in E as ([y st2] & E2 & E). injection E as <- <-. right. right.
  exists h. eexists _, _, _, _, _. split_and!; [reflexivity| | |exact E1|reflexivity|exact Ew| |]; [reflexivity..| |].
  - case_match; [exact E2|]. injection E2 as <- <-. auto.
  - rewrite E1, Ew. case_match; [rewrite E2; reflexivity|]. injection E2 as <- <-. reflexivity.
Qed.

Lemma extract_bad_keeps h : forall pos t st a st', TraverseAndExtract H h pos t st = Ret (a, st') ->
  tr_bad st = true -> tr_bad st' = true.
Proof.
  induction h as [|h IH]; intros pos t st a st' E Hb; apply extract_inv in E as [E|[[E _]|E]]; try congruence;
    destruct E as (h' & st0 & x & st1 & y & w & Eh & _ & Hb0 & E1 & _ & _ & E2 & _); [discriminate|]. injection Eh as <-.
  assert (tr_bad st1 = true) as H1 by (eapply IH; [exact E1|congruence]).
  case_match; [eapply IH; [exact E2|exact H1]|]. destruct E2 as [_ ->]. exact H1.
Qed.

(** A node that has two children or more beside it is hashed in building the tree. *)
Lemma level_hashed l : forall h p, (forall k, (k <= h)%nat -> (1 < width (length l) k)%nat) -> p ∈ pairs_of (level h l) -> p ∈ hashed_pairs H l.
Proof.
  assert (Hrec : forall h l p, (forall k, (k <= h)%nat -> (2 <= length (level k l))%nat) -> p ∈ pairs_of (level h l) -> p ∈ hashed_pairs H l).
  { clear l. induction h as [|h IH]; intros l p Hk Hp; rewrite (hashed_pairs_step H l) by (apply (Hk 0%nat); lia); apply elem_of_app; [left; exact Hp|right].
    assert (Hs : forall k, level k (next_level H l) = level (S k) l) by (intros k; unfold level; rewrite Nat.iter_succ_r; reflexivity).
    apply IH; [intros k Hkh; rewrite Hs; apply Hk; lia|rewrite Hs; exact Hp]. }
  intros h p Hk Hp. apply (Hrec h); [|exact Hp]. intros k Hkh. rewrite length_level. specialize (Hk k Hkh). lia.
Qed.

Lemma pairs_of_lookup l : forall k x, l !! (2 * k)%nat = Some x -> (x, default x (l !! (2 * k + 1)%nat)) ∈ pairs_of l.
Proof.
  enough (forall m l, (length l <= m)%nat -> forall k x, l !! (2 * k)%nat = Some x -> (x, default x (l !! (2 * k + 1)%nat)) ∈ pairs_of l) as G by (apply (G (length l)); lia).
  clear l. intros m. induction m as [|m IH]; intros [|a [|b l]] Hl k x Hx; try discriminate; [cbn in Hl; lia|cbn in Hl; lia| |].
  - destruct k as [|k]; [|rewrite Nat.mul_succ_r, Nat.add_comm in Hx; discriminate]. injection Hx as ->. left.
  - destruct k as [|k]; [injection Hx as ->; left|]. cbn [pairs_of]. right. replace (2 * S k)%nat with (S (S (2 * k))) in * by lia. replace (S (S (2 * k)) + 1)%nat with (S (S (2 * k + 1))) by lia.
    apply (IH l); [cbn in Hl; lia | exact Hx].
Qed.

(** What is extracted under the hash of a node are leaves under the node, when no
    pair that is hashed on the way collides with one of the tree. *)
Lemma extract_sound l t : length l = n -> nTransactions t = Z.of_nat n -> forall h pos st a st', (h <= 20)%nat -> (forall k, (k < h)%nat -> (1 < width n k)%nat) ->
  coll_free H (traversed_pairs h (Z.of_nat pos) t st) (hashed_pairs H l) ->
  level h l !! pos = Some a -> TraverseAndExtract H h (Z.of_nat pos) t st = Ret (a, st') -> tr_bad st' = false ->
  exists ms, tr_match st' = tr_match st ++ ms /\ ms `sublist_of` under h pos l.
Proof.
  intros Hl Ht. induction h as [|h IH]; intros pos st a st' Hh Hwide Hc Ha E Hb; apply extract_inv in E as [E|[[_ E]|E]]; try congruence.
  - change (level 0 l) with l in Ha.
    assert (Eu : under 0 pos l = [a]).
    { unfold under. change (2 ^ 0)%nat with 1%nat. rewrite Nat.mul_1_r, (drop_S _ _ _ Ha). reflexivity. }
    rewrite Eu. destruct E as [->|[_ ->]]; [exists []; rewrite app_nil_r; split; [reflexivity|apply sublist_nil_l]|exists [a]; auto].
  - destruct E as (h' & ? & ? & ? & ? & ? & Eh & _). discriminate.
  - destruct E as [->|[E _]]; [|discriminate]. exists []. rewrite app_nil_r. split; [reflexivity|apply sublist_nil_l].
  - destruct E as (h' & st0 & x & st1 & y & w & Eh & Em & _ & E1 & Ea & Ew & E2 & Ep). injection Eh as <-. rewrite Ep in Hc. clear Ep.
    apply lookup_lt_Some in Ha as Hp. rewrite length_level, Hl in Hp. destruct (child_pos h pos Hp) as (P1 & P2 & _).
    rewrite P2, P1 in *. rewrite Ht, CalcTreeWidth_spec in Ew by lia. injection Ew as <-.
    apply level_children in Ha as (x' & y' & Hx & Ea' & Hy). rewrite Hl in Hy. rewrite Ea in Ea'.
    assert (Hpair : (x', y') ∈ hashed_pairs H l).
    { apply (level_hashed l h); [rewrite Hl; intros k ?; apply Hwide; lia|]. pose proof (pairs_of_lookup _ _ _ Hx) as Hin.
      destruct Hy as [[_ Hy]|[Hw ->]]; [rewrite Hy in Hin; exact Hin|]. rewrite lookup_ge_None_2 in Hin by (rewrite length_level, Hl; lia). exact Hin. }
    assert (Exy : (x, y) = (x', y')) by (apply Hc; [apply elem_of_app; right; case_match; [apply elem_of_app; right|]; left | exact Hpair | exact Ea']).
    injection Exy as -> ->. rewrite under_right, Hl, <- Em. destruct Hy as [[Hw Hy]|[Hw ->]].
    + rewrite (proj2 (Z.ltb_lt _ _)) in E2, Hc by lia. rewrite (proj2 (Nat.ltb_lt _ _)) by lia.
      assert (tr_bad st1 = false) as Hb1 by (destruct (tr_bad st1) eqn:Eb; [pose proof (extract_bad_keeps _ _ _ _ _ _ E2 Eb); congruence|reflexivity]).
      destruct (IH _ _ _ _ ltac:(lia) ltac:(intros; apply Hwide; lia) ltac:(eapply coll_free_incl; [exact Hc| |auto]; intros q Hq; apply elem_of_app; left; exact Hq) Hx E1 Hb1) as (ms1 & M1 & S1).
      destruct (IH _ _ _ _ ltac:(lia) ltac:(intros; apply Hwide; lia) ltac:(eapply coll_free_incl; [exact Hc| |auto]; intros q Hq; apply elem_of_app; right; apply elem_of_app; left; exact Hq) Hy E2 Hb) as (ms2 & M2 & S2). exists (ms1 ++ ms2).
      rewrite M2, M1, app_assoc. split; [reflexivity|apply sublist_app; assumption].
    + rewrite (proj2 (Z.ltb_ge _ _)) in E2 by lia. rewrite (proj2 (Nat.ltb_ge _ _)) by lia. destruct E2 as [_ ->]. rewrite app_nil_r.
      apply (IH _ _ _ _ ltac:(lia) ltac:(intros; apply Hwide; lia) ltac:(eapply coll_free_incl; [exact Hc| |auto]; intros q Hq; apply elem_of_app; left; exact Hq) Hx E1 Hb).
Qed.

(** No access is out of range, whatever the bits and hashes. *)
Lemma extract_returns t h : forall pos st, (h <= 20)%nat -> 0 <= tr_bits st -> 0 <= tr_hashes st -> nTransactions t = Z.of_nat n ->
  returns (fun p => 0 <= tr_bits p.2 /\ 0 <= tr_hashes p.2) (TraverseAndExtract H h pos t st).
Proof.
  assert (U : forall x, 0 <= u32 x) by (intros x; apply Z.mod_pos_bound; lia).
  assert (A : forall {A} (v : list A) i, (zlen v <=? i) = false -> 0 <= i -> exists x, v !! Z.to_nat i = Some x).
  { intros A v i Hi H0. apply lookup_lt_is_Some_2. unfold zlen in Hi. lia. }
  assert (L : forall st (m : base_uint -> list base_uint) b, 0 <= tr_bits st -> 0 <= tr_hashes st ->
    returns (fun p : base_uint * traversal => 0 <= tr_bits p.2 /\ 0 <= tr_hashes p.2)
      (if zlen (vHash t) <=? tr_hashes st then Ret (uint256_null, mkTraversal (tr_bits st) (tr_hashes st) (tr_match st) true)
       else let* hash := oaccess (vHash t !! Z.to_nat (tr_hashes st)) in
            Ret (hash, mkTraversal (tr_bits st) (u32 (tr_hashes st + 1)) (m hash) b) : io _)).
  { intros st m b Hb0 Hh0. destruct (zlen (vHash t) <=? tr_hashes st) eqn:E; [cbn; auto|].
    destruct (A _ (vHash t) _ E Hh0) as [x ->]. cbn. auto. }
  induction h as [|h IH]; intros pos st Hh Hb0 Hh0 Ht; cbn [TraverseAndExtract];
    destruct (zlen (vBits t) <=? tr_bits st) eqn:E; try (cbn; auto; fail);
    destruct (A _ (vBits t) _ E Hb0) as [f ->]; cbn [oaccess obind tr_bits tr_hashes tr_match tr_bad].
  - apply (L (mkTraversal (u32 (tr_bits st + 1)) (tr_hashes st) (tr_match st) (tr_bad st))
             (fun hash => if f then tr_match st ++ [hash] else tr_match st)); cbn; auto.
  - destruct f; cbn [negb];
      [|apply (L (mkTraversal (u32 (tr_bits st + 1)) (tr_hashes st) (tr_match st) (tr_bad st)) (fun _ => tr_match st)); cbn; auto].
    eapply returns_bind; [apply IH; cbn; auto; lia|]. intros [x st1] [H1 H2]. rewrite Ht, CalcTreeWidth_spec by lia. cbn [obind].
    eapply (returns_bind (fun p : base_uint * traversal => 0 <= tr_bits p.2 /\ 0 <= tr_hashes p.2));
      [case_match; [apply IH; auto; lia|cbn; auto]|]. intros [y st2] H3. exact H3.
Qed.
End Nodes.

(** The padding stays within the last byte. *)
Lemma padding_fits l k : (k <= (l + 7) / 8 * 8 - l)%nat -> (Z.of_nat l + 7) / 8 = (Z.of_nat l + Z.of_nat k + 7) / 8.
Proof.
  intros Hk. pose proof (packed_size l). apply (Z.div_unique _ 8 _ (Z.of_nat l + Z.of_nat k + 7 - 8 * ((Z.of_nat l + 7) / 8))); [left|lia].
  pose proof (Z.div_mod (Z.of_nat l + 7) 8 ltac:(lia)). pose proof (Z.mod_pos_bound (Z.of_nat l + 7) 8 ltac:(lia)).
  assert (Z.of_nat ((l + 7) / 8) = (Z.of_nat l + 7) / 8) by (rewrite Nat2Z.inj_div, Nat2Z.inj_add; reflexivity). lia.
Qed.

(** ** Correctness *)

Section Extraction.
Variable H : base_uint -> base_uint -> base_uint.

Context (n : nat) (Hn : (0 < n)%nat) (Hmax : Z.of_nat n <= MAX_BLOCK_SIZE_CURRENT / 60).

Lemma below_limit : Z.of_nat n <= 2 ^ 20.
Proof. clear Hn. change (MAX_BLOCK_SIZE_CURRENT / 60) with 33333 in Hmax. lia. Qed.

(** The tree that is built, and what is extracted from it however its bits are padded. *)
Lemma built_tree z : length z = n -> exists us,
  CPartialMerkleTree_new H (map fst z) (map snd z) = Ret us /\ nTransactions us = Z.of_nat n /\ fBad us = false /\
  zlen (vBits us) < 2 ^ 21 /\ zlen (vHash us) <= Z.of_nat n /\ Forall (tree_hash H z) (vHash us) /\
  forall k, (k <= (length (vBits us) + 7) / 8 * 8 - length (vBits us))%nat ->
    let t := mkPartialMerkleTree (Z.of_nat n) (vBits us ++ replicate k false) (vHash us) false in
    ExtractMatches H t = Ret (merkle_root H (map fst z), picked z, t).
Proof.
  intros Hz. pose proof below_limit as Hl. destruct (tree_height_spec n Hl) as (h & Hh & Eh & Hw & Hk).
  assert (Hlen : length (map fst z) = n) by (rewrite length_map; exact Hz).
  assert (H0 : (0 < width n h)%nat) by (apply lt_width; lia).
  destruct (node_code_ex H n Hl z Hz h 0 Hh H0) as (b & hs & (L1 & L2) & L3 & L4 & F & B & a & Ha & X).
  assert (Hall : under h 0 z = z).
  { unfold under. cbn [Nat.mul]. rewrite drop_0. apply firstn_all2. rewrite Hz. apply Nat.nlt_ge. intros Hc.
    assert (1 < width n h)%nat by (apply lt_width; lia). lia. }
  rewrite Hall in *. assert (Lb : zlen b < 2 ^ 21).
  { unfold zlen. apply inj_lt in L2. rewrite pow2_Z in L2. pose proof (Z.pow_le_mono_r 2 (Z.of_nat (S h)) 21). lia. }
  exists (mkPartialMerkleTree (Z.of_nat n) b hs false). cbn [nTransactions vBits vHash fBad].
  split_and!; [|reflexivity..|exact Lb|unfold zlen; lia|exact F|].
  - unfold CPartialMerkleTree_new, zlen. rewrite Hlen. unfold u32. rewrite Z.mod_small by lia. cbn [nTransactions].
    rewrite Eh. cbn [obind]. apply B. reflexivity.
  - intros k Hkb. set (t := mkPartialMerkleTree (Z.of_nat n) (b ++ replicate k false) hs false).
    pose proof (Nat.div_mod (length b + 7) 8 ltac:(lia)) as D.
    pose proof (Nat.mod_upper_bound (length b + 7) 8 ltac:(lia)).
    assert (Ht : countable n t).
    { unfold countable, t. cbn [nTransactions vBits vHash]. unfold zlen in *. rewrite length_app, length_replicate. split_and!; lia. }
    unfold ExtractMatches. cbn [nTransactions t]. rewrite (proj2 (Z.eqb_neq _ _)), !(proj2 (Z.ltb_ge _ _)), Eh
      by (cbn [vBits vHash t]; unfold zlen; rewrite ?length_app; lia). cbn [obind fBad t].
    pose proof (X t [] (replicate k false) [] [] [] Ht eq_refl ltac:(cbn; rewrite app_nil_r; reflexivity)) as E.
    change (zlen []) with 0 in E. rewrite !Z.add_0_l in E. change (Z.of_nat 0) with 0 in E. rewrite E.
    cbn [obind tr_bad tr_bits tr_hashes tr_match app vBits vHash t]. unfold u32.
    pose proof (zlen_nonneg b). rewrite Z.mod_small by lia.
    rewrite Z.eqb_refl. rewrite (proj2 (Z.eqb_eq _ _)).
    + cbn [negb]. rewrite <- Hlen in Hk, Hw. rewrite (root_lookup H h _ a Hk Hw Ha). reflexivity.
    + rewrite zlen_app. unfold zlen. rewrite length_replicate. apply padding_fits, Hkb.
Qed.

(** A root that is returned was computed from the tree without a failure. *)
Lemma ExtractMatches_inv t root ms t' : nTransactions t = Z.of_nat n -> ExtractMatches H t = Ret (root, ms, t') ->
  root = uint256_null \/ exists h st, tree_height (nTransactions t) = Ret h /\ (h <= 20)%nat /\ (width n h <= 1)%nat /\ (forall k, (k < h)%nat -> (1 < width n k)%nat) /\
    TraverseAndExtract H h 0 t (mkTraversal 0 0 [] (fBad t)) = Ret (root, st) /\ tr_bad st = false /\ ms = tr_match st.
Proof.
  intros Ht E. unfold ExtractMatches in E. destruct (tree_height_spec n below_limit) as (h & Hh & Eh & Hw & Hk).
  rewrite Ht, Eh in E. do 4 (case_match; [injection E as <- _ _; auto|]). cbn [obind] in E.
  apply obind_ret_inv in E as ([r st] & Er & E). destruct (tr_bad st) eqn:Eb; [injection E as <- _ _; auto|].
  do 2 (case_match; [injection E as <- _ _; auto|]). injection E as <- <- _. right. exists h, st. rewrite Ht. auto 10.
Qed.
End Extraction.

(** ExtractMatches always returns: no peer can make it read outside of the
    vectors it sent. *)
Lemma ExtractMatches_returns H t : 0 <= nTransactions t -> returns (fun _ => True) (ExtractMatches H t).
Proof.
  intros Hn. unfold ExtractMatches. destruct (Z.eqb_spec (nTransactions t) 0) as [|H0]; [exact I|].
  destruct (Z.ltb_spec (MAX_BLOCK_SIZE_CURRENT / 60) (nTransactions t)) as [|Hm]; [exact I|].
  do 2 (case_match; [exact I|]). clear H0. set (n := Z.to_nat (nTransactions t)).
  assert (Ht : nTransactions t = Z.of_nat n) by (unfold n; lia). rewrite Ht in *. pose proof (below_limit n Hm) as Hl.
  destruct (tree_height_spec n Hl) as (h & Hh & -> & _ & _). cbn [obind].
  eapply returns_bind; [apply (extract_returns H n Hl t h); cbn; auto; lia|]. intros [root st] _. repeat case_match; exact I.
Qed.

Lemma hash_children_ok a b : blob_ok 8 a -> blob_ok 8 b -> blob_ok 8 (hash_children a b).
Proof.
  intros [_ La] [_ Lb]. unfold hash_children.
  assert (Hl : zlen (concat [bytes_of a; bytes_of b]) < 2 ^ 61).
  { cbn [concat]. unfold zlen. rewrite !length_app, !length_bytes_of, La, Lb. cbn. lia. }
  pose proof (hash_objects_correct _ Hl) as (_ & _ & -> & _). unfold op_hash256.
  destruct (of_bytes_spec 8 (SHA256 (SHA256 (concat [bytes_of a; bytes_of b])))) as (W & L & _);
    [apply SHA256_bytes|pose proof (SHA256_size (SHA256 (concat [bytes_of a; bytes_of b]))) as E; unfold zlen in E; lia|split; assumption].
Qed.

Lemma tree_hash_ok z x : Forall (blob_ok 8) (map fst z) -> tree_hash hash_children z x -> blob_ok 8 x.
Proof.
  intros Hz (k & i & Hi). revert i x Hi. induction k as [|k IH]; intros i x Hi.
  - eapply Forall_lookup_1; eassumption.
  - apply level_children in Hi as (a & b & Ha & -> & [[_ Hb]|[_ ->]]); apply hash_children_ok; eauto.
Qed.

(** the round trip of a partial merkle tree: built from the transaction
    hashes of a block and a selection of them, sent and received, it gives
    [ExtractMatches] the merkle root of the block and exactly the selected
    hashes, in their order; no step reads outside of a vector. *)
Theorem partial_tree_roundtrip vTxid vMatch rest :
  vTxid <> [] -> zlen vTxid <= MAX_BLOCK_SIZE_CURRENT / 60 -> length vMatch = length vTxid -> Forall (blob_ok 8) vTxid ->
  exists us us', CPartialMerkleTree_new hash_children vTxid vMatch = Ret us /\
    ExtractMatches hash_children us = Ret (merkle_root hash_children vTxid, picked (zip vTxid vMatch), us) /\
    Unserialize partial_tree_codec (Serialize partial_tree_codec us ++ rest) = Ret (us', rest) /\
    ExtractMatches hash_children us' = Ret (merkle_root hash_children vTxid, picked (zip vTxid vMatch), us').
Proof.
  intros Hne Hmax Hl Hok. set (z := zip vTxid vMatch).
  assert (E1 : map fst z = vTxid) by (apply fst_zip; lia). assert (E2 : map snd z = vMatch) by (apply snd_zip; lia).
  assert (Hn : (0 < length vTxid)%nat) by (destruct vTxid; [congruence|cbn; lia]).
  assert (Hz : length z = length vTxid) by (unfold z; rewrite length_zip; lia).
  pose proof (below_limit (length vTxid) Hmax) as Hlim.
  destruct (built_tree hash_children (length vTxid) Hn Hmax z Hz) as (us & Ec & Et & Eb & Lb & Lh & F & X).
  rewrite E1, E2 in *. exists us, (padded us). split; [exact Ec|]. split; [|split].
  - specialize (X 0%nat ltac:(lia)). cbn zeta in X. cbn [replicate] in X. rewrite app_nil_r, <- Et in X.
    destruct us as [n0 b0 h0 f0]; cbn [nTransactions vBits vHash fBad] in *. rewrite Eb in *. exact X.
  - apply partial_tree_sent.
    + unfold uint_range. rewrite Et. lia.
    + split; [|unfold MAX_SIZE; lia]. eapply Forall_impl; [exact F|]. intros x. apply tree_hash_ok. rewrite E1. exact Hok.
    + destruct (pack_bits_spec (vBits us)) as (L & _). unfold zlen, MAX_SIZE in *. rewrite L.
      rewrite Nat2Z.inj_div. apply Z.div_le_upper_bound; lia.
  - unfold padded. rewrite unpack_pack, Et. apply X. lia.
Qed.

(** The pairs that [ExtractMatches] hashes. *)
Definition extracted_pairs (t : CPartialMerkleTree) : list (base_uint * base_uint) :=
  match tree_height (nTransactions t) with Ret h => traversed_pairs hash_children h 0 t (mkTraversal 0 0 [] (fBad t)) | _ => [] end.

(** C17: a partial merkle tree proves what it shows: whatever the bits and hashes
    a peer sends, [ExtractMatches] returns, and when its root is that of a block
    with as many transactions, the extracted hashes are transactions of the block,
    in the order of the block, provided that, of the pairs hashed in extracting and
    in building the tree of the block, none of the one has the hash of a different
    pair of the other. *)
Theorem partial_tree_sound vTxid us : nTransactions us = zlen vTxid ->
  exists root ms us', ExtractMatches hash_children us = Ret (root, ms, us') /\
    (coll_free hash_children (extracted_pairs us) (hashed_pairs hash_children vTxid) ->
     root = merkle_root hash_children vTxid -> root <> uint256_null -> ms `sublist_of` vTxid).
Proof.
  intros Ht. pose proof (ExtractMatches_returns hash_children us ltac:(rewrite Ht; apply zlen_nonneg)) as R.
  destruct (ExtractMatches hash_children us) as [[[root ms] us']| | |] eqn:E; try contradiction.
  exists root, ms, us'. split; [reflexivity|]. intros Hc Hr H0. set (n := length vTxid). change (zlen vTxid) with (Z.of_nat n) in Ht.
  assert (Z.of_nat n <= MAX_BLOCK_SIZE_CURRENT / 60 /\ (0 < n)%nat) as [Hmax Hn].
  { unfold ExtractMatches in E. rewrite Ht in E. destruct (Z.eqb_spec (Z.of_nat n) 0); [injection E as <- _ _; congruence|].
    destruct (Z.ltb_spec (MAX_BLOCK_SIZE_CURRENT / 60) (Z.of_nat n)); [injection E as <- _ _; congruence|lia]. }
  pose proof (below_limit n Hmax) as Hlim.
  apply (ExtractMatches_inv hash_children n Hmax) in E as [E|(h & st & Eh & Hh & Hw & Hk & E & Eb & ->)]; [congruence| |exact Ht].
  unfold extracted_pairs in Hc. rewrite Eh in Hc.
  assert (H1 : (0 < width n h)%nat) by (apply lt_width; lia).
  destruct (level_lookup hash_children h vTxid 0 H1) as [a Ha]. pose proof (root_lookup _ h vTxid a Hk Hw Ha) as Er.
  rewrite <- Er in Hr. subst a.
  destruct (extract_sound hash_children n Hlim vTxid us eq_refl Ht h 0 _ _ _ Hh Hk Hc Ha E Eb) as (ms & Em & Hs).
  cbn [tr_match app] in Em. rewrite Em. etrans; [exact Hs|]. unfold under. etrans; [apply sublist_take|apply sublist_drop].
Qed.

(** ** The number of transactions is the peer's word

    The class comment promises the list of transactions in an authenticated way;
    the two children of a node are not compared, so a tree of four transactions
    whose last two are the same has the root of the block of three. *)
Lemma partial_tree_other_count H a b c :
  let us := mkPartialMerkleTree 4 [true; false; true; true; true] [H a b; c; c] false in
  ExtractMatches H us = Ret (merkle_root H [a; b; c], [c; c], us).
Proof. reflexivity. Qed.

Lemma partial_tree_roundtrip_witness :
  exists us us', CPartialMerkleTree_new hash_children sample_leaves [false; true; false; false; true] = Ret us /\
    Unserialize partial_tree_codec (Serialize partial_tree_codec us ++ [7]) = Ret (us', [7]) /\
    ExtractMatches hash_children us' = Ret (merkle_root hash_children sample_leaves, [of_uint64 8 2; of_uint64 8 5], us').
Proof.
  destruct (partial_tree_roundtrip sample_leaves [false; true; false; false; true] [7]) as (us & us' & H1 & _ & H3 & H4);
    [discriminate|vm_compute; discriminate|reflexivity| |exists us, us'; auto].
  assert (Hu : forall n, 0 <= n < 2 ^ 64 -> blob_ok 8 (of_uint64 8 n)).
  { intros n Hn. destruct (of_uint64_spec 8 n) as (_ & H1 & H2); [lia|lia|]. split; assumption. }
  repeat (apply Forall_cons; split; [apply Hu; lia|]). constructor.
Defined.

(** The tree for the second of three transactions. *)
Definition second_of_three : CPartialMerkleTree :=
  match CPartialMerkleTree_new hash_children three_leaves [false; true; false] with Ret us => us | _ => CPartialMerkleTree_default end.

Lemma partial_tree_sound_witness :
  exists us', ExtractMatches hash_children second_of_three = Ret (merkle_root hash_children three_leaves, [of_uint64 8 2], us') /\ [of_uint64 8 2] `sublist_of` three_leaves.
Proof.
  destruct (partial_tree_sound three_leaves second_of_three) as (root & ms & us' & E & Hs); [vm_compute; reflexivity|].
  assert (match ExtractMatches hash_children second_of_three with
          | Ret (r, m, _) => bool_decide (r = merkle_root hash_children three_leaves) && negb (bool_decide (r = uint256_null)) && bool_decide (m = [of_uint64 8 2])
          | _ => false end = true) as Ev by (vm_compute; reflexivity).
  rewrite E in Ev. apply andb_true_iff in Ev as [Ev Em]. apply andb_true_iff in Ev as [Er En]. apply bool_decide_eq_true in Er, Em. apply negb_true_iff, bool_decide_eq_false in En.
  exists us'. rewrite <- Er, <- Em. split; [exact E|]. apply Hs; [apply coll_free_bool; vm_compute; reflexivity | exact Er | exact En].
Defined.
