(* ===== verification/Bloom.v ===== *)
(** * Bloom filters: [bloom.cpp], [bloom.h], [MurmurHash3] of [hash.cpp]

    A light client sends a filter of the keys and outputs it watches; the node
    relays the transactions that match and adds the outputs that pay to the
    client, so that the transactions spending them match too.  The constructor
    from a false positive rate computes in floating point and is not modelled;
    the filters of the node arrive by [filterload]. *)

From Stdlib Require Import ZArith Lia Bool.
From stdpp Require Import base option numbers list relations.
From S2P Require Import Prelude BaseUInt UInt256 Opcodes Script StackManager Standard StandardProps Serialize Transaction MerkleBlock.

Open Scope Z_scope.
Open Scope outcome_scope.

(** ** MurmurHash3 *)

(** On a 32-bit [x]. *)
Definition ROTL32 (x r : Z) : Z := Z.lor (u32 (Z.shiftl x r)) (Z.shiftr x (32 - r)).

Definition murmur_c1 : Z := 0xcc9e2d51.
Definition murmur_c2 : Z := 0x1b873593.

Definition murmur_mix (k1 : Z) : Z := u32 (ROTL32 (u32 (k1 * murmur_c1)) 15 * murmur_c2).

(** The [uint32_t] blocks from the front; what is left is the tail. *)
Fixpoint murmur_body (h1 : Z) (data : list Z) : Z * list Z :=
  match data with
  | b0 :: b1 :: b2 :: b3 :: data =>
      let h1 := Z.lxor h1 (murmur_mix (le_decode [b0; b1; b2; b3])) in
      murmur_body (u32 (ROTL32 h1 13 * 5 + 0xe6546b64)) data
  | _ => (h1, data)
  end.

Definition murmur_tail (h1 : Z) (tail : list Z) : Z :=
  match tail with
  | [t0; t1; t2] => Z.lxor h1 (murmur_mix (Z.lxor (Z.lxor (Z.shiftl t2 16) (Z.shiftl t1 8)) t0))
  | [t0; t1] => Z.lxor h1 (murmur_mix (Z.lxor (Z.shiftl t1 8) t0))
  | [t0] => Z.lxor h1 (murmur_mix t0)
  | _ => h1
  end.

Definition MurmurHash3 (nHashSeed : Z) (vDataToHash : list Z) : Z :=
  let '(h1, tail) := murmur_body nHashSeed vDataToHash in
  let h1 := murmur_tail h1 tail in
  let h1 := u32 (Z.lxor h1 (zlen vDataToHash)) in
  let h1 := Z.lxor h1 (Z.shiftr h1 16) in
  let h1 := u32 (h1 * 0x85ebca6b) in
  let h1 := Z.lxor h1 (Z.shiftr h1 13) in
  let h1 := u32 (h1 * 0xc2b2ae35) in
  Z.lxor h1 (Z.shiftr h1 16).

(** The vectors of [hash_tests.cpp]. *)
Example murmur_vectors :
  map (fun p => MurmurHash3 p.1 p.2)
    [(0, []); (0xFBA4C795, []); (0xffffffff, []); (0, [0]); (0xFBA4C795, [0]); (0, [0xff]); (0, [0; 0x11]); (0, [0; 0x11; 0x22]);
     (0, [0; 0x11; 0x22; 0x33]); (0, [0; 0x11; 0x22; 0x33; 0x44]); (0, [0; 0x11; 0x22; 0x33; 0x44; 0x55; 0x66; 0x77; 0x88])] =
  [0; 0x6a396f08; 0x81f16f39; 0x514e28b7; 0xea3f0b17; 0xfd6cf10d; 0x16c6b7ab; 0x8eb51c3d; 0xb4471bf8; 0xe2301fa8; 0xb4698def].
Proof. vm_compute. reflexivity. Qed.

(** ** The filter *)

Definition MAX_BLOOM_FILTER_SIZE : Z := 36000.
Definition MAX_HASH_FUNCS : Z := 50.
Definition BLOOM_UPDATE_NONE : Z := 0.
Definition BLOOM_UPDATE_ALL : Z := 1.
Definition BLOOM_UPDATE_P2PUBKEY_ONLY : Z := 2.
Definition BLOOM_UPDATE_MASK : Z := 3.

Record CBloomFilter := mkBloomFilter {
  vData : list Z;
  isFull : bool;
  isEmpty : bool;
  nHashFuncs : Z;
  nTweak : Z;
  nFlags : Z
}.

(** [CBloomFilter()] *)
Definition CBloomFilter_default : CBloomFilter := mkBloomFilter [] true false 0 0 0.

(** The flags that are not part of the wire format keep their defaults. *)
Definition bloom_codec : codec CBloomFilter :=
  object_codec (fun p => mkBloomFilter p.1 true false p.2.1 p.2.2.1 p.2.2.2)
    (fun f => (vData f, (nHashFuncs f, (nTweak f, nFlags f))))
    (pair_codec bytes_codec (pair_codec (uint_codec 4) (pair_codec (uint_codec 4) (uint_codec 1)))).

Section Operations.
Context {E : Type}.

(** [CBloomFilter::Hash]; a division by zero when there are no data. *)
Definition bloom_Hash (f : CBloomFilter) (nHashNum : Z) (vDataToHash : list Z) : outcome E Z :=
  let bits := zlen (vData f) * 8 in
  if bits =? 0 then Undef
  else Ret (u32 (MurmurHash3 (u32 (u32 (nHashNum * 0xFBA4C795) + nTweak f)) vDataToHash mod bits)).

(** [for (unsigned int i = 0; i < nHashFuncs; i++)] with [n] rounds left. *)
Fixpoint insert_loop (n : nat) (i : Z) (vKey : list Z) (f : CBloomFilter) : outcome E CBloomFilter :=
  match n with
  | O => Ret f
  | S n =>
      let* nIndex := bloom_Hash f i vKey in
      let byte := Z.to_nat (Z.shiftr nIndex 3) in
      let* x := oaccess (vData f !! byte) in
      let vData' := <[byte := u8 (Z.lor x (Z.shiftl 1 (Z.land 7 nIndex)))]> (vData f) in
      insert_loop n (u32 (i + 1)) vKey (mkBloomFilter vData' (isFull f) (isEmpty f) (nHashFuncs f) (nTweak f) (nFlags f))
  end.

Definition bloom_insert (f : CBloomFilter) (vKey : list Z) : outcome E CBloomFilter :=
  if isFull f then Ret f
  else
    let* f := insert_loop (Z.to_nat (nHashFuncs f)) 0 vKey f in
    Ret (mkBloomFilter (vData f) (isFull f) false (nHashFuncs f) (nTweak f) (nFlags f)).

Fixpoint contains_loop (n : nat) (i : Z) (vKey : list Z) (f : CBloomFilter) : outcome E bool :=
  match n with
  | O => Ret true
  | S n =>
      let* nIndex := bloom_Hash f i vKey in
      let* x := oaccess (vData f !! Z.to_nat (Z.shiftr nIndex 3)) in
      if Z.land x (Z.shiftl 1 (Z.land 7 nIndex)) =? 0 then Ret false else contains_loop n (u32 (i + 1)) vKey f
  end.

Definition bloom_contains (f : CBloomFilter) (vKey : list Z) : outcome E bool :=
  if isFull f then Ret true
  else if isEmpty f then Ret false
  else contains_loop (Z.to_nat (nHashFuncs f)) 0 vKey f.

(** The overloads for outpoints and hashes. *)
Definition insert_outpoint (f : CBloomFilter) (o : COutPoint) : outcome E CBloomFilter := bloom_insert f (Serialize outpoint_codec o).
Definition insert_hash (f : CBloomFilter) (h : base_uint) : outcome E CBloomFilter := bloom_insert f (bytes_of h).
Definition contains_outpoint (f : CBloomFilter) (o : COutPoint) : outcome E bool := bloom_contains f (Serialize outpoint_codec o).
Definition contains_hash (f : CBloomFilter) (h : base_uint) : outcome E bool := bloom_contains f (bytes_of h).

(** The operations of a script up to a match; [data.size() != 0 && contains(data)]. *)
Fixpoint script_matches (fuel : nat) (f : CBloomFilter) (pc : list Z) : outcome E bool :=
  match pc with
  | [] => Ret false
  | _ =>
      match fuel with
      | O => Undef
      | S fuel =>
          let r := GetOp2 pc in
          if negb (go_ok r) then Ret false
          else
            let* m := if negb (zlen (go_vch r) =? 0) then bloom_contains f (go_vch r) else Ret false in
            if m then Ret true else script_matches fuel f (go_pc r)
      end
  end.

Definition matches_script (f : CBloomFilter) (script : list Z) : outcome E bool := script_matches (length script) f script.
End Operations.

Definition bloom_clear (f : CBloomFilter) : CBloomFilter :=
  mkBloomFilter (replicate (length (vData f)) 0) false true (nHashFuncs f) (nTweak f) (nFlags f).

Definition IsWithinSizeConstraints (f : CBloomFilter) : bool :=
  (zlen (vData f) <=? MAX_BLOOM_FILTER_SIZE) && (nHashFuncs f <=? MAX_HASH_FUNCS).

Definition UpdateEmptyFull (f : CBloomFilter) : CBloomFilter :=
  mkBloomFilter (vData f) (forallb (fun x => x =? 0xff) (vData f)) (forallb (fun x => x =? 0) (vData f))
    (nHashFuncs f) (nTweak f) (nFlags f).

(** What an output that matched adds. *)
Definition update_for_output (hash : base_uint) (i : Z) (txout : CTxOut) (f : CBloomFilter) : result CBloomFilter :=
  let mode := Z.land (nFlags f) BLOOM_UPDATE_MASK in
  if mode =? BLOOM_UPDATE_ALL then insert_outpoint f (mkOutPoint hash i)
  else if mode =? BLOOM_UPDATE_P2PUBKEY_ONLY then
    let* r := ExtractScriptPubKeyFormat (scriptPubKey txout) [] in
    if fr_ok r && (bool_decide (fr_type r = TX_PUBKEY) || bool_decide (fr_type r = TX_MULTISIG))
    then insert_outpoint f (mkOutPoint hash i) else Ret f
  else Ret f.

(** [for (unsigned int i = 0; i < tx.vout.size(); i++)] *)
Fixpoint outputs_loop (hash : base_uint) (i : Z) (vout : list CTxOut) (f : CBloomFilter) (fFound : bool) :
    result (bool * CBloomFilter) :=
  match vout with
  | [] => Ret (fFound, f)
  | txout :: vout =>
      let* m := matches_script f (scriptPubKey txout) in
      if m then
        let* f := update_for_output hash i txout f in
        outputs_loop hash (u32 (i + 1)) vout f true
      else outputs_loop hash (u32 (i + 1)) vout f fFound
  end.

Fixpoint inputs_loop (vin : list CTxIn) (f : CBloomFilter) : result bool :=
  match vin with
  | [] => Ret false
  | txin :: vin =>
      let* c := contains_outpoint f (prevout txin) in
      if c then Ret true
      else
        let* m := matches_script f (scriptSig txin) in
        if m then Ret true else inputs_loop vin f
  end.

Definition IsRelevantAndUpdate (f : CBloomFilter) (tx : CTransaction) : result (bool * CBloomFilter) :=
  if isFull f then Ret (true, f)
  else if isEmpty f then Ret (false, f)
  else
    let hash := tx_hash tx in
    let* fFound := contains_hash f hash in
    let* '(fFound, f) := outputs_loop hash 0 (vout (tx_body tx)) f fFound in
    if fFound then Ret (true, f)
    else
      let* b := inputs_loop (vin (tx_body tx)) f in
      Ret (b, f).

(** The handlers of [filterload] (accepted), [filteradd] and [filterclear] in
    [main.cpp]; [None] is a penalty for the peer. *)
Definition filterload (filter : CBloomFilter) : option CBloomFilter :=
  if negb (IsWithinSizeConstraints filter) then None else Some (UpdateEmptyFull filter).
Definition filteradd {E} (pfilter : CBloomFilter) (vData : list Z) : outcome E (option CBloomFilter) :=
  if MAX_SCRIPT_ELEMENT_SIZE <? zlen vData then Ret None
  else let* f := bloom_insert pfilter vData in Ret (Some f).
Definition filterclear : CBloomFilter := CBloomFilter_default.

(** The filter of [bloom_tests.cpp]: 3 bytes, 5 hash functions. *)
Example bloom_vector :
  let f0 := mkBloomFilter [0; 0; 0] false false 5 0 BLOOM_UPDATE_ALL in
  let k1 := [0x99; 0x10; 0x8a; 0xd8; 0xed; 0x9b; 0xb6; 0x27; 0x4d; 0x39; 0x80; 0xba; 0xb5; 0xa8; 0x5c; 0x04; 0x8f; 0x09; 0x50; 0xc8] in
  let k2 := [0xb5; 0xa2; 0xc7; 0x86; 0xd9; 0xef; 0x46; 0x58; 0x28; 0x7c; 0xed; 0x59; 0x14; 0xb3; 0x7a; 0x1b; 0x4a; 0xa3; 0x2e; 0xee] in
  let k3 := [0xb9; 0x30; 0x06; 0x70; 0xb4; 0xc5; 0x36; 0x6e; 0x95; 0xb2; 0x69; 0x9e; 0x8b; 0x18; 0xbc; 0x75; 0xe5; 0xf7; 0x29; 0xc5] in
  (let* f := bloom_insert f0 k1 in let* f := bloom_insert f k2 in let* f := bloom_insert f k3 in
   let* c := bloom_contains f (0x19 :: tl k1) in Ret (Serialize bloom_codec f, c)) =
  Ret ([0x03; 0x61; 0x4e; 0x9b; 0x05; 0; 0; 0; 0; 0; 0; 0; 0x01], false) :> outcome Empty_set _.
Proof. vm_compute. reflexivity. Qed.

(** ** Bits *)

(** The bit [nIndex] of the data. *)
Definition has (data : list Z) (q : Z) : bool := Z.testbit (default 0 (data !! Z.to_nat (Z.shiftr q 3))) (Z.land 7 q).

(** The indices of a key. *)
Definition bloom_index (bits tweak i : Z) (key : list Z) : Z :=
  u32 (MurmurHash3 (u32 (u32 (i * 0xFBA4C795) + tweak)) key mod bits).
Fixpoint indices (bits tweak : Z) (n : nat) (i : Z) (key : list Z) : list Z :=
  match n with
  | O => []
  | S n => bloom_index bits tweak i key :: indices bits tweak n (u32 (i + 1)) key
  end.

Definition key_indices (f : CBloomFilter) (key : list Z) : list Z :=
  indices (zlen (vData f) * 8) (nTweak f) (Z.to_nat (nHashFuncs f)) 0 key.

Lemma index_split q : 0 <= q -> Z.land 7 q = q mod 8 /\ Z.shiftr q 3 = q / 8.
Proof.
  intros Hq. rewrite Z.land_comm. change 7 with (Z.ones 3). rewrite Z.land_ones, Z.shiftr_div_pow2 by lia. auto.
Qed.

Lemma bloom_index_range bits tweak i key : 0 < bits -> 0 <= bloom_index bits tweak i key < bits.
Proof.
  intros Hb. unfold bloom_index, u32. set (m := _ mod bits). assert (0 <= m < bits) by (apply Z.mod_pos_bound; lia).
  pose proof (Z.mod_le m (2 ^ 32)). pose proof (Z.mod_pos_bound m (2 ^ 32)). lia.
Qed.

Lemma has_set data p x q : 0 <= p -> 0 <= q -> data !! Z.to_nat (Z.shiftr p 3) = Some x ->
  has (<[Z.to_nat (Z.shiftr p 3) := u8 (Z.lor x (Z.shiftl 1 (Z.land 7 p)))]> data) q = has data q || (q =? p).
Proof.
  intros Hp Hq Hx. unfold has. destruct (index_split p Hp) as [E1 E2], (index_split q Hq) as [E3 E4]. rewrite E1, E2, E3, E4 in *.
  pose proof (Z.div_mod p 8 ltac:(lia)). pose proof (Z.div_mod q 8 ltac:(lia)). pose proof (Z.mod_pos_bound p 8 ltac:(lia)).
  pose proof (Z.mod_pos_bound q 8 ltac:(lia)). apply lookup_lt_Some in Hx as Hl. destruct (decide (p / 8 = q / 8)) as [E|E].
  - rewrite <- E, list_lookup_insert_eq, Hx by assumption. change (default 0 (Some ?y)) with y.
    unfold u8. rewrite Z.mod_pow2_bits_low, Z.lor_spec, Z.shiftl_1_l, Z.pow2_bits_eqb by lia. f_equal.
    destruct (Z.eqb_spec (p mod 8) (q mod 8)), (Z.eqb_spec q p); lia.
  - rewrite list_lookup_insert_ne by (intros Ei; apply Z2Nat.inj in Ei; [auto|apply Z.div_pos; lia..]).
    destruct (Z.eqb_spec q p) as [->|]; [lia|]. rewrite orb_false_r. reflexivity.
Qed.

(** ** What the operations do *)

Section Facts.
Context {E : Type}.

Lemma data_pos (f : CBloomFilter) : vData f <> [] -> 0 < zlen (vData f) * 8.
Proof. intros Hne. destruct (vData f); [congruence|]. rewrite zlen_cons. pose proof (zlen_nonneg l). lia. Qed.

Lemma indices_nonneg bits tweak n : forall i key, 0 < bits -> Forall (fun q => 0 <= q) (indices bits tweak n i key).
Proof. induction n as [|n IH]; intros i key Hb; constructor; [apply bloom_index_range, Hb|apply IH, Hb]. Qed.

Lemma key_index_nonneg f key q : vData f <> [] -> In q (key_indices f key) -> 0 <= q.
Proof. intros Hne. revert q. apply List.Forall_forall, indices_nonneg, data_pos, Hne. Qed.

Lemma Hash_index (f : CBloomFilter) i key : vData f <> [] ->
  bloom_Hash (E:=E) f i key = Ret (bloom_index (zlen (vData f) * 8) (nTweak f) i key) /\
  exists x, vData f !! Z.to_nat (Z.shiftr (bloom_index (zlen (vData f) * 8) (nTweak f) i key) 3) = Some x.
Proof.
  intros Hne. pose proof (data_pos f Hne) as Hl.
  unfold bloom_Hash. rewrite (proj2 (Z.eqb_neq _ _)) by lia. split; [reflexivity|].
  pose proof (bloom_index_range (zlen (vData f) * 8) (nTweak f) i key ltac:(lia)) as R. set (p := bloom_index _ _ _ _) in *.
  apply lookup_lt_is_Some_2. destruct (index_split p ltac:(lia)) as [_ ->].
  pose proof (Z.div_lt_upper_bound p 8 (zlen (vData f)) ltac:(lia) ltac:(lia)). pose proof (Z.div_pos p 8 ltac:(lia) ltac:(lia)). unfold zlen in *. lia.
Qed.

Lemma insert_loop_spec n : forall i key f, vData f <> [] ->
  exists data, insert_loop (E:=E) n i key f = Ret (mkBloomFilter data (isFull f) (isEmpty f) (nHashFuncs f) (nTweak f) (nFlags f)) /\
    length data = length (vData f) /\
    forall q, 0 <= q -> has data q = has (vData f) q || existsb (Z.eqb q) (indices (zlen (vData f) * 8) (nTweak f) n i key).
Proof.
  induction n as [|n IH]; intros i key f Hne; cbn [insert_loop indices].
  - exists (vData f). split; [destruct f; reflexivity|]. split; [reflexivity|]. intros. rewrite orb_false_r. reflexivity.
  - destruct (Hash_index f i key Hne) as (-> & x & Hx). cbn [obind]. rewrite Hx. cbn [oaccess obind]. set (p := bloom_index _ _ _ _) in *.
    set (data1 := <[_ := _]> (vData f)). assert (L1 : length data1 = length (vData f)) by apply length_insert.
    assert (N1 : data1 <> []) by (intros E0; apply (f_equal length) in E0; rewrite L1 in E0; destruct (vData f); [congruence|discriminate]).
    destruct (IH (u32 (i + 1)) key (mkBloomFilter data1 (isFull f) (isEmpty f) (nHashFuncs f) (nTweak f) (nFlags f)) N1)
      as (data & -> & L & B). cbn [vData isFull isEmpty nHashFuncs nTweak nFlags] in *. exists data. split; [reflexivity|]. split; [lia|].
    intros q Hq. rewrite B by assumption. unfold data1 at 1. rewrite has_set; [|apply bloom_index_range, data_pos, Hne|assumption..].
    unfold zlen. rewrite L1. cbn [existsb]. rewrite orb_assoc. reflexivity.
Qed.

Lemma contains_loop_spec n : forall i key f, vData f <> [] ->
  contains_loop (E:=E) n i key f = Ret (forallb (has (vData f)) (indices (zlen (vData f) * 8) (nTweak f) n i key)).
Proof.
  induction n as [|n IH]; intros i key f Hne; cbn [contains_loop indices forallb]; [reflexivity|].
  destruct (Hash_index f i key Hne) as (-> & x & Hx). cbn [obind]. rewrite Hx. cbn [oaccess obind].
  assert (R : 0 <= bloom_index (zlen (vData f) * 8) (nTweak f) i key) by (apply bloom_index_range, data_pos, Hne).
  set (p := bloom_index _ _ _ _) in *. destruct (index_split p R) as [El _].
  assert (Hh : has (vData f) p = negb (Z.land x (Z.shiftl 1 (Z.land 7 p)) =? 0)).
  { rewrite land_single_bit by (rewrite El; apply Z.mod_pos_bound; lia). unfold has. rewrite Hx. reflexivity. }
  rewrite Hh. destruct (Z.land x _ =? 0); cbn [negb andb]; [reflexivity|]. apply IH, Hne.
Qed.

(** No operation divides by zero on these. *)
Definition filter_usable (f : CBloomFilter) : Prop := isFull f = true \/ vData f <> [].

(** A key is contained. *)
Definition holds (f : CBloomFilter) (key : list Z) : bool :=
  isFull f || negb (isEmpty f) && forallb (has (vData f)) (key_indices f key).

Lemma contains_spec f key : filter_usable f -> bloom_contains (E:=E) f key = Ret (holds f key).
Proof.
  intros Hu. unfold bloom_contains, holds. destruct (isFull f) eqn:Ef; [reflexivity|]. destruct (isEmpty f); [reflexivity|].
  destruct Hu as [|Hu]; [congruence|]. cbn [orb negb andb]. apply contains_loop_spec, Hu.
Qed.

(** The filter [f'] came from [f] by adding. *)
Record grows (f f' : CBloomFilter) : Prop := mkGrows {
  grows_length : length (vData f') = length (vData f);
  grows_funcs : nHashFuncs f' = nHashFuncs f;
  grows_tweak : nTweak f' = nTweak f;
  grows_flags : nFlags f' = nFlags f;
  grows_full : isFull f' = isFull f;
  grows_empty : isEmpty f = false -> isEmpty f' = false;
  grows_bits : forall q, 0 <= q -> has (vData f) q = true -> has (vData f') q = true
}.

#[export] Instance grows_preorder : PreOrder grows.
Proof.
  split; [intros f; split; auto|]. intros f g h [] []. split; try congruence; auto.
Qed.

Lemma grows_usable f f' : grows f f' -> filter_usable f -> filter_usable f'.
Proof.
  intros G [Hu|Hu]; [left; rewrite (grows_full _ _ G); exact Hu|right]. intros E0. pose proof (grows_length _ _ G) as L. rewrite E0 in L.
  destruct (vData f); [congruence|discriminate].
Qed.

Lemma holds_grows f f' key : grows f f' -> filter_usable f -> holds f key = true -> holds f' key = true.
Proof.
  intros G Hu. unfold holds. rewrite (grows_full _ _ G). destruct (isFull f) eqn:Ef; [auto|]. cbn [orb].
  destruct (isEmpty f) eqn:Ee; [discriminate|]. rewrite (grows_empty _ _ G Ee). cbn [negb andb]. unfold key_indices, zlen.
  rewrite (grows_length _ _ G), (grows_funcs _ _ G), (grows_tweak _ _ G). rewrite !forallb_forall.
  intros Hall q Hq. apply (grows_bits _ _ G); [|apply Hall, Hq]. destruct Hu as [|Hu]; [congruence|].
  apply (key_index_nonneg f key q Hu Hq).
Qed.

Lemma insert_spec f key : filter_usable f ->
  exists f', bloom_insert (E:=E) f key = Ret f' /\ grows f f' /\ holds f' key = true.
Proof.
  intros Hu. unfold bloom_insert. destruct (isFull f) eqn:Ef.
  { exists f. split; [reflexivity|]. split; [reflexivity|]. unfold holds. rewrite Ef. reflexivity. }
  destruct Hu as [|Hu]; [congruence|]. destruct (insert_loop_spec (Z.to_nat (nHashFuncs f)) 0 key f Hu) as (data & -> & L & B).
  cbn [obind vData isFull nHashFuncs nTweak nFlags]. eexists. split; [reflexivity|]. split.
  - split; cbn; auto. intros q Hq Hh. rewrite B, Hh by assumption. reflexivity.
  - unfold holds, key_indices, zlen. cbn [isFull isEmpty vData nHashFuncs nTweak]. rewrite L. apply orb_true_iff. right. cbn [negb andb].
    apply forallb_forall. intros q Hq. rewrite B by apply (key_index_nonneg f key q Hu Hq).
    apply orb_true_iff. right. apply existsb_exists. exists q. split; [exact Hq|apply Z.eqb_refl].
Qed.
End Facts.

(** ** Matching transactions *)

(** The data a script pushes, up to an operation that cannot be read. *)
Fixpoint pushed_data (fuel : nat) (pc : list Z) : list (list Z) :=
  match pc, fuel with
  | [], _ | _, O => []
  | _, S fuel =>
      let r := GetOp2 pc in
      if go_ok r then (if zlen (go_vch r) =? 0 then [] else [go_vch r]) ++ pushed_data fuel (go_pc r) else []
  end.
Definition pushes (script : list Z) : list (list Z) := pushed_data (length script) script.

Lemma script_matches_spec {E} f (Hu : filter_usable f) fuel : forall pc, (length pc <= fuel)%nat ->
  script_matches (E:=E) fuel f pc = Ret (existsb (holds f) (pushed_data fuel pc)).
Proof.
  induction fuel as [|fuel IH]; intros [|b pc] Hf; try reflexivity; [cbn in Hf; lia|]. cbn [script_matches pushed_data].
  pose proof (GetOp2_shorter b pc) as Hs. set (r := GetOp2 (b :: pc)) in *. destruct (go_ok r); cbn [negb]; [|reflexivity].
  rewrite existsb_app. cbn [length] in Hf. destruct (zlen (go_vch r) =? 0); cbn [negb obind existsb orb]; [apply IH; lia|].
  rewrite contains_spec by assumption. cbn [obind]. rewrite orb_false_r. destruct (holds f (go_vch r)); [reflexivity|apply IH; lia].
Qed.

Lemma matches_script_spec {E} f script : filter_usable f -> matches_script (E:=E) f script = Ret (existsb (holds f) (pushes script)).
Proof. intros Hu. apply script_matches_spec; auto. Qed.

Definition outpoint_data (hash : base_uint) (i : Z) : list Z := Serialize outpoint_codec (mkOutPoint hash i).

(** The outputs whose outpoints are added on a match. *)
Definition updates (f : CBloomFilter) (o : CTxOut) : Prop :=
  Z.land (nFlags f) BLOOM_UPDATE_MASK = BLOOM_UPDATE_ALL \/
  Z.land (nFlags f) BLOOM_UPDATE_MASK = BLOOM_UPDATE_P2PUBKEY_ONLY /\
  exists r, ExtractScriptPubKeyFormat (scriptPubKey o) [] = Ret r /\ fr_ok r = true /\ (fr_type r = TX_PUBKEY \/ fr_type r = TX_MULTISIG).

Lemma update_for_output_spec f hash i o : filter_usable f ->
  exists f', update_for_output hash i o f = Ret f' /\ grows f f' /\ (updates f o -> holds f' (outpoint_data hash i) = true).
Proof.
  intros Hu. unfold update_for_output, updates, insert_outpoint.
  destruct (insert_spec (E:=ScriptError) f (outpoint_data hash i) Hu) as (f' & Ei & G & Hh). fold (outpoint_data hash i). rewrite Ei.
  destruct (Z.eqb_spec (Z.land (nFlags f) BLOOM_UPDATE_MASK) BLOOM_UPDATE_ALL); [eauto|].
  destruct (Z.eqb_spec (Z.land (nFlags f) BLOOM_UPDATE_MASK) BLOOM_UPDATE_P2PUBKEY_ONLY).
  - pose proof (Extract_returns (scriptPubKey o)) as R. destruct (ExtractScriptPubKeyFormat (scriptPubKey o) []) as [r| | |]; try contradiction.
    cbn [obind]. destruct (fr_ok r && _) eqn:Eb; [eauto|]. exists f. split_and!; [reflexivity..|].
    intros [|(_ & r' & Er & Hok & Ht)]; [contradiction|]. injection Er as <-. rewrite Hok in Eb. destruct Ht as [Ht|Ht]; rewrite Ht in Eb; discriminate.
  - exists f. split_and!; [reflexivity..|]. intros [|[? _]]; contradiction.
Qed.

(** A key held by the filter is pushed by the script. *)
Definition watches (f : CBloomFilter) (script : list Z) : Prop := exists key, In key (pushes script) /\ holds f key = true.

Lemma watches_grows f f' script : grows f f' -> filter_usable f -> watches f script -> watches f' script.
Proof. intros G Hu (key & Hk & Hh). exists key. eauto using holds_grows. Qed.

Lemma updates_grows f f' o : grows f f' -> updates f o -> updates f' o.
Proof. intros G. unfold updates. rewrite (grows_flags _ _ G). auto. Qed.

Lemma outputs_loop_spec hash vout : forall i f fFound, filter_usable f ->
  exists b f', outputs_loop hash i vout f fFound = Ret (b, f') /\ grows f f' /\ (fFound = true -> b = true) /\
    forall j o, vout !! j = Some o -> watches f (scriptPubKey o) ->
      b = true /\ (updates f o -> holds f' (outpoint_data hash (Nat.iter j (fun i => u32 (i + 1)) i)) = true).
Proof.
  induction vout as [|o vout IH]; intros i f fFound Hu; cbn [outputs_loop].
  { exists fFound, f. split_and!; [reflexivity|reflexivity|auto|intros j o Hj; rewrite lookup_nil in Hj; discriminate]. }
  rewrite matches_script_spec by assumption. cbn [obind]. destruct (existsb (holds f) (pushes (scriptPubKey o))) eqn:Em.
  - destruct (update_for_output_spec f hash i o Hu) as (f1 & -> & G1 & H1). cbn [obind].
    destruct (IH (u32 (i + 1)) f1 true (grows_usable _ _ G1 Hu)) as (b & f' & -> & G & Hb & Hw). exists b, f'.
    split; [reflexivity|]. split; [etrans; eassumption|]. split; [auto|]. intros [|j] o' Ho Hk.
    + injection Ho as <-. split; [auto|]. intros Hup. apply (holds_grows f1 f'); [assumption|eapply grows_usable; eassumption|auto].
    + destruct (Hw j o' Ho (watches_grows _ _ _ G1 Hu Hk)) as [Eb Hp]. split; [exact Eb|]. intros Hup. rewrite Nat.iter_succ_r.
      apply Hp, (updates_grows _ _ _ G1), Hup.
  - destruct (IH (u32 (i + 1)) f fFound Hu) as (b & f' & -> & G & Hb & Hw). exists b, f'. split_and!; auto. intros [|j] o' Ho Hk.
    + injection Ho as <-. destruct Hk as (key & Hin & Hh). assert (existsb (holds f) (pushes (scriptPubKey o)) = true) by (apply existsb_exists; eauto).
      congruence.
    + rewrite Nat.iter_succ_r. apply (Hw j o' Ho Hk).
Qed.

Lemma inputs_loop_spec f vin : filter_usable f ->
  inputs_loop vin f = Ret (existsb (fun i => holds f (Serialize outpoint_codec (prevout i)) || existsb (holds f) (pushes (scriptSig i))) vin).
Proof.
  intros Hu. induction vin as [|i vin IH]; [reflexivity|]. cbn [inputs_loop existsb]. unfold contains_outpoint.
  rewrite contains_spec by assumption. cbn [obind]. destruct (holds f (Serialize outpoint_codec (prevout i))); [reflexivity|].
  rewrite matches_script_spec by assumption. cbn [obind orb]. destruct (existsb (holds f) (pushes (scriptSig i))); [reflexivity|exact IH].
Qed.

(** What makes a transaction relevant. *)
Definition relevant (f : CBloomFilter) (tx : CTransaction) : Prop :=
  holds f (bytes_of (tx_hash tx)) = true \/
  (exists o, In o (vout (tx_body tx)) /\ watches f (scriptPubKey o)) \/
  exists i, In i (vin (tx_body tx)) /\ (holds f (Serialize outpoint_codec (prevout i)) = true \/ watches f (scriptSig i)).

Lemma holds_not_empty f key : holds f key = true -> isFull f = true \/ isEmpty f = false.
Proof. unfold holds. destruct (isFull f), (isEmpty f); auto. Qed.

Lemma watches_not_empty f s : watches f s -> isFull f = true \/ isEmpty f = false.
Proof. intros (k & _ & Hk). eapply holds_not_empty, Hk. Qed.

Lemma iter_index j : (Z.of_nat j < 2 ^ 32) -> Nat.iter j (fun i => u32 (i + 1)) 0 = Z.of_nat j.
Proof.
  induction j as [|j IH]; intros Hj; [reflexivity|]. rewrite Nat.iter_succ, IH by lia. unfold u32. rewrite Z.mod_small; lia.
Qed.

Lemma IsRelevantAndUpdate_spec f tx : filter_usable f ->
  exists b f', IsRelevantAndUpdate f tx = Ret (b, f') /\ grows f f' /\ (relevant f tx -> b = true) /\
    forall j o, vout (tx_body tx) !! j = Some o -> Z.of_nat j < 2 ^ 32 -> watches f (scriptPubKey o) -> updates f o ->
      holds f' (outpoint_data (tx_hash tx) (Z.of_nat j)) = true.
Proof.
  intros Hu. unfold IsRelevantAndUpdate. destruct (isFull f) eqn:Ef.
  { exists true, f. split_and!; [reflexivity|reflexivity|auto|]. intros. unfold holds. rewrite Ef. reflexivity. }
  destruct (isEmpty f) eqn:Ee.
  { assert (Hno : forall key, holds f key = false) by (intros key; unfold holds; rewrite Ef, Ee; reflexivity).
    assert (Hnw : forall s, ~ watches f s) by (intros s (k & _ & Hk); rewrite Hno in Hk; discriminate).
    exists false, f. split_and!; [reflexivity|reflexivity| |intros j o _ _ Hw; destruct (Hnw _ Hw)].
    intros [Hr|[(o & _ & Hr)|(i & _ & [Hr|Hr])]]; try (rewrite Hno in Hr; discriminate); destruct (Hnw _ Hr). }
  unfold contains_hash. rewrite contains_spec by assumption. cbn [obind].
  destruct (outputs_loop_spec (tx_hash tx) (vout (tx_body tx)) 0 f (holds f (bytes_of (tx_hash tx))) Hu) as (b & f' & -> & G & Hb & Hw).
  cbn [obind].
  assert (Hup : forall j o, vout (tx_body tx) !! j = Some o -> Z.of_nat j < 2 ^ 32 -> watches f (scriptPubKey o) -> updates f o ->
    holds f' (outpoint_data (tx_hash tx) (Z.of_nat j)) = true).
  { intros j o Ho Hj Hk Ho'. destruct (Hw j o Ho Hk) as [_ Hp]. rewrite iter_index in Hp by exact Hj. auto. }
  destruct b eqn:Eb; [exists true, f'; auto|]. rewrite inputs_loop_spec by eauto using grows_usable. cbn [obind].
  do 2 eexists. split_and!; [reflexivity|exact G| |exact Hup]. intros [Hr|[(o & Ho & Hk)|(i & Hi & Hr)]].
  - specialize (Hb Hr). discriminate.
  - apply list_elem_of_In, list_elem_of_lookup_1 in Ho as [j Hj]. destruct (Hw j o Hj Hk). discriminate.
  - apply existsb_exists. exists i. split; [exact Hi|]. apply orb_true_iff. destruct Hr as [Hr|(k & Hk & Hr)].
    + left. eapply holds_grows; eassumption.
    + right. apply existsb_exists. exists k. eauto using holds_grows.
Qed.
