(* ===== verification/FilteredBlock.v ===== *)
(** * Sessions of a light client: [filterload], [filteradd] and filtered blocks

    What the filters of [Bloom] promise the peer that loaded them, over any
    sequence of uses, and the blocks [CMerkleBlock] of [merkleblock.cpp] builds
    from them. *)

From Stdlib Require Import ZArith Lia Bool.
From stdpp Require Import base option numbers list relations.
From S2P Require Import Prelude BaseUInt UInt256 Opcodes Script StackManager Standard Serialize Transaction Merkle ConnectBlock MerkleBlock MerkleBlockProps Bloom.

Open Scope Z_scope.
Open Scope outcome_scope.

(** ** Sessions with a peer *)

Lemma loaded_usable f f0 : filterload f = Some f0 -> filter_usable f0.
Proof.
  unfold filterload. destruct (IsWithinSizeConstraints f); cbn [negb]; [|discriminate]. intros E. injection E as <-.
  unfold filter_usable, UpdateEmptyFull. cbn [vData isFull]. destruct (vData f); [left; reflexivity|right; discriminate].
Qed.

(** One use of the filter: something is added, or a transaction is tested. *)
Inductive bloom_step (f f' : CBloomFilter) : Prop :=
| step_insert key : bloom_insert (E:=ScriptError) f key = Ret f' -> bloom_step f f'
| step_test tx b : IsRelevantAndUpdate f tx = Ret (b, f') -> bloom_step f f'.

Lemma step_grows f f' : filter_usable f -> bloom_step f f' -> grows f f'.
Proof.
  intros Hu [key E|tx b E].
  - destruct (insert_spec (E:=ScriptError) f key Hu) as (g & Eg & G & _). rewrite E in Eg. injection Eg as <-. exact G.
  - destruct (IsRelevantAndUpdate_spec f tx Hu) as (b' & g & Eg & G & _). rewrite E in Eg. injection Eg as _ <-. exact G.
Qed.

Lemma session_grows f f' : filter_usable f -> rtc bloom_step f f' -> grows f f' /\ filter_usable f'.
Proof.
  intros Hu H. induction H as [f|f g h Hs Hr IH]; [split; [reflexivity|exact Hu]|].
  pose proof (step_grows f g Hu Hs) as G. destruct (IH (grows_usable _ _ G Hu)) as [G' Hu']. split; [etrans; eassumption|exact Hu'].
Qed.

Lemma index_lookup f key q : vData f <> [] -> forall n i, In q (indices (zlen (vData f) * 8) (nTweak f) n i key) ->
  exists x, vData f !! Z.to_nat (Z.shiftr q 3) = Some x.
Proof.
  intros Hne n. induction n as [|n IH]; intros i Hq; [destruct Hq|]. destruct Hq as [<-|Hq]; [|exact (IH _ Hq)].
  apply (Hash_index (E:=ScriptError) f i key Hne).
Qed.

(** [UpdateEmptyFull] only saves work: the answers are those of the bits. *)
Lemma UpdateEmptyFull_same f key : vData f <> [] -> 0 < nHashFuncs f ->
  holds (UpdateEmptyFull f) key = forallb (has (vData f)) (key_indices f key).
Proof.
  intros Hne Hn. unfold holds, UpdateEmptyFull, key_indices. cbn [isFull isEmpty vData nHashFuncs nTweak]. fold (key_indices f key).
  assert (Hix : forall q, In q (key_indices f key) -> exists x, vData f !! Z.to_nat (Z.shiftr q 3) = Some x /\ 0 <= q).
  { intros q Hq. destruct (index_lookup f key q Hne _ _ Hq) as [x Hx]. exists x. split; [exact Hx|apply (key_index_nonneg f key q Hne Hq)]. }
  destruct (forallb (fun x => x =? 0xff) (vData f)) eqn:Efull; cbn [orb].
  - symmetry. apply forallb_forall. intros q Hq. destruct (Hix q Hq) as (x & Hx & H0). rewrite forallb_forall in Efull.
    assert (x = 0xff) as -> by (apply Z.eqb_eq, Efull; eapply list_elem_of_In, list_elem_of_lookup_2, Hx).
    unfold has. rewrite Hx. destruct (index_split q H0) as [-> _]. change (default 0 (Some 255)) with (Z.ones 8).
    apply Z.ones_spec_low. pose proof (Z.mod_pos_bound q 8). lia.
  - destruct (forallb (fun x => x =? 0) (vData f)) eqn:Eempty; cbn [negb andb]; [|reflexivity].
    assert (Hq : exists q, In q (key_indices f key)).
    { unfold key_indices. destruct (Z.to_nat (nHashFuncs f)) eqn:En; [lia|]. eexists. left. reflexivity. }
    destruct Hq as [q Hq]. destruct (Hix q Hq) as (x & Hx & H0). rewrite forallb_forall in Eempty.
    assert (x = 0) as -> by (apply Z.eqb_eq, Eempty; eapply list_elem_of_In, list_elem_of_lookup_2, Hx).
    symmetry. apply not_true_is_false. rewrite forallb_forall. intros Hall. specialize (Hall q Hq). unfold has in Hall.
    rewrite Hx in Hall. change (default 0 (Some 0)) with 0 in Hall. rewrite Z.bits_0 in Hall. discriminate.
Qed.

(** [clear] leaves a filter without data that is not marked as full; an
    [insert] then divides by zero. *)
Lemma cleared_default_divides E key : bloom_insert (E:=E) (bloom_clear (UpdateEmptyFull (mkBloomFilter [] true false 1 0 0))) key = Undef.
Proof. reflexivity. Qed.

(** ** Filtered blocks *)

Record CMerkleBlock := mkMerkleBlock { mb_header : CBlockHeader; mb_txn : CPartialMerkleTree; vMatchedTxn : list (Z * base_uint) }.

(** The loop of the constructor: [vMatch], [vHashes], [vMatchedTxn] and the filter. *)
Fixpoint merkle_block_loop (i : Z) (vtx : list CTransaction) (filter : CBloomFilter) :
    result (list bool * list base_uint * list (Z * base_uint) * CBloomFilter) :=
  match vtx with
  | [] => Ret ([], [], [], filter)
  | tx :: vtx =>
      let hash := tx_hash tx in
      let* '(m, filter) := IsRelevantAndUpdate filter tx in
      let* '(vMatch, vHashes, matched, filter) := merkle_block_loop (u32 (i + 1)) vtx filter in
      Ret (m :: vMatch, hash :: vHashes, if m then (i, hash) :: matched else matched, filter)
  end.

Definition CMerkleBlock_new (block : CBlock) (filter : CBloomFilter) : result (CMerkleBlock * CBloomFilter) :=
  let* '(vMatch, vHashes, matched, filter) := merkle_block_loop 0 (vtx block) filter in
  match CPartialMerkleTree_new hash_children vHashes vMatch with
  | Ret txn => Ret (mkMerkleBlock (blk_header block) txn matched, filter)
  | Err e => match e with end
  | Throw => Throw
  | Undef => Undef
  end.

Lemma relevant_grows f f' tx : grows f f' -> filter_usable f -> relevant f tx -> relevant f' tx.
Proof.
  intros G Hu [Hr|[(o & Ho & Hr)|(i & Hi & [Hr|Hr])]]; [left|right; left|right; right|right; right]; eauto using holds_grows, watches_grows.
Qed.

(** Position [i], counted from [i0], is that of the transaction with the hash. *)
Definition at_position (i0 : Z) (vtx : list CTransaction) (p : Z * base_uint) : Prop :=
  exists j tx, vtx !! j = Some tx /\ p = (i0 + Z.of_nat j, tx_hash tx).

Lemma merkle_block_loop_spec vtx : forall i f, filter_usable f -> 0 <= i -> i + zlen vtx < 2 ^ 32 ->
  exists vMatch matched f', merkle_block_loop i vtx f = Ret (vMatch, map tx_hash vtx, matched, f') /\ grows f f' /\
    length vMatch = length vtx /\ picked (zip (map tx_hash vtx) vMatch) = map snd matched /\
    Forall (at_position i vtx) matched /\
    forall j tx, vtx !! j = Some tx -> relevant f tx -> In (i + Z.of_nat j, tx_hash tx) matched.
Proof.
  induction vtx as [|tx vtx IH]; intros i f Hu Hi Hl; cbn [merkle_block_loop].
  { exists [], [], f. split_and!; try reflexivity; [constructor|]. intros j tx Hj. rewrite lookup_nil in Hj. discriminate. }
  destruct (IsRelevantAndUpdate_spec f tx Hu) as (m & f1 & -> & G1 & Hm & _). cbn [obind].
  rewrite zlen_cons in Hl. pose proof (zlen_nonneg vtx). assert (E1 : u32 (i + 1) = i + 1) by (apply Z.mod_small; lia). rewrite E1.
  destruct (IH (i + 1) f1 (grows_usable _ _ G1 Hu) ltac:(lia) ltac:(lia)) as (vMatch & matched & f' & -> & G & L & P & F & R).
  cbn [obind map]. do 3 eexists. split; [reflexivity|]. split; [etrans; eassumption|]. split; [cbn [length]; lia|].
  assert (Fs : Forall (at_position i (tx :: vtx)) matched).
  { eapply Forall_impl; [exact F|]. intros p (j & t & Ht & ->). exists (S j), t. split; [exact Ht|]. f_equal. lia. }
  split_and!.
  - cbn [zip zip_with picked flat_map fst snd]. fold (picked (zip (map tx_hash vtx) vMatch)). rewrite P. destruct m; reflexivity.
  - destruct m; [|exact Fs]. constructor; [|exact Fs]. exists 0%nat, tx. rewrite Z.add_0_r. auto.
  - intros [|j] t Ht Hr.
    + injection Ht as <-. rewrite (Hm Hr), Z.add_0_r. left. reflexivity.
    + specialize (R j t Ht (relevant_grows _ _ _ G1 Hu Hr)). replace (i + Z.of_nat (S j)) with (i + 1 + Z.of_nat j) by lia.
      destruct m; [right|]; exact R.
Qed.

(** C18: a filter has no false negatives and no operation on it divides by zero:
    on a filter a peer loaded, whatever was inserted and tested since, every
    insertion and every test returns, and what is inserted is contained from then
    on. *)
Theorem bloom_no_false_negatives sent f0 f :
  filterload sent = Some f0 -> rtc bloom_step f0 f ->
  (forall key, exists f', bloom_insert (E:=ScriptError) f key = Ret f' /\
     forall f'', rtc bloom_step f' f'' -> bloom_contains (E:=ScriptError) f'' key = Ret true) /\
  (forall tx, exists b f', IsRelevantAndUpdate f tx = Ret (b, f')) /\
  (forall key, bloom_contains (E:=ScriptError) f key = Ret true ->
     forall f'', rtc bloom_step f f'' -> bloom_contains (E:=ScriptError) f'' key = Ret true).
Proof.
  intros Hl Hs. destruct (session_grows f0 f (loaded_usable _ _ Hl) Hs) as [_ Hu]. split_and!.
  - intros key. destruct (insert_spec (E:=ScriptError) f key Hu) as (f' & Ei & G & Hh). exists f'. split; [exact Ei|].
    intros f'' Hs'. pose proof (grows_usable _ _ G Hu) as Hu'. destruct (session_grows f' f'' Hu' Hs') as [G' Hu''].
    rewrite contains_spec, (holds_grows _ _ key G' Hu' Hh) by assumption. reflexivity.
  - intros tx. destruct (IsRelevantAndUpdate_spec f tx Hu) as (b & f' & E & _). eauto.
  - intros key Hc f'' Hs'. destruct (session_grows f f'' Hu Hs') as [G' Hu'']. rewrite contains_spec in Hc |- * by assumption.
    injection Hc as Hc. rewrite (holds_grows _ _ key G' Hu Hc). reflexivity.
Qed.

(** C19: the client is shown its payments and what becomes of them: a transaction
    with an output that pushes a key of the filter is relevant, and so is, after
    any further use of the filter, a transaction that spends this output, if the
    flags of the filter ask for its outpoint to be added. *)
Theorem bloom_follows_payments sent f0 f tx1 j o key :
  filterload sent = Some f0 -> rtc bloom_step f0 f ->
  vout (tx_body tx1) !! j = Some o -> Z.of_nat j < 2 ^ 32 -> In key (pushes (scriptPubKey o)) ->
  bloom_contains (E:=ScriptError) f key = Ret true -> updates f o ->
  exists f1, IsRelevantAndUpdate f tx1 = Ret (true, f1) /\
    forall f2 tx2 i, rtc bloom_step f1 f2 -> In i (vin (tx_body tx2)) -> prevout i = mkOutPoint (tx_hash tx1) (Z.of_nat j) ->
      exists f3, IsRelevantAndUpdate f2 tx2 = Ret (true, f3).
Proof.
  intros Hl Hs Ho Hj Hk Hc Hup. destruct (session_grows f0 f (loaded_usable _ _ Hl) Hs) as [_ Hu].
  rewrite contains_spec in Hc by assumption. injection Hc as Hc. assert (Hw : watches f (scriptPubKey o)) by (exists key; auto).
  destruct (IsRelevantAndUpdate_spec f tx1 Hu) as (b & f1 & E1 & G1 & Hr & Hin). exists f1.
  rewrite Hr in E1 by (right; left; exists o; split; [eapply list_elem_of_In, list_elem_of_lookup_2, Ho|exact Hw]). split; [exact E1|].
  intros f2 tx2 i Hs2 Hi Ei. pose proof (grows_usable _ _ G1 Hu) as Hu1. destruct (session_grows f1 f2 Hu1 Hs2) as [G2 Hu2].
  destruct (IsRelevantAndUpdate_spec f2 tx2 Hu2) as (b2 & f3 & E3 & _ & Hr2 & _). exists f3. rewrite E3, Hr2; [reflexivity|].
  right. right. exists i. split; [exact Hi|]. left. rewrite Ei. apply (holds_grows _ _ _ G2 Hu1), (Hin j o); assumption.
Qed.

(** C16: a filtered block proves its matches: for a block of hashed transactions
    within the limit, the partial tree gives the merkle root of the block and the
    hashes of [vMatchedTxn], every one of them is the transaction at its position
    of the block, and every transaction relevant to the filter is among them. *)
Theorem filtered_block_proves block f :
  filter_usable f -> vtx block <> [] -> zlen (vtx block) <= MAX_BLOCK_SIZE_CURRENT / 60 ->
  exists mb f' txn', CMerkleBlock_new block f = Ret (mb, f') /\ mb_header mb = blk_header block /\
    ExtractMatches hash_children (mb_txn mb) = Ret (merkle_root hash_children (map tx_hash (vtx block)), map snd (vMatchedTxn mb), txn') /\
    Forall (at_position 0 (vtx block)) (vMatchedTxn mb) /\
    forall j tx, vtx block !! j = Some tx -> relevant f tx -> In (Z.of_nat j, tx_hash tx) (vMatchedTxn mb).
Proof.
  intros Hu Hne Hmax. change (MAX_BLOCK_SIZE_CURRENT / 60) with 33333 in Hmax.
  destruct (merkle_block_loop_spec (vtx block) 0 f Hu ltac:(lia) ltac:(lia)) as (vMatch & matched & f' & El & _ & L & P & F & R).
  set (z := zip (map tx_hash (vtx block)) vMatch) in *.
  assert (E1 : map fst z = map tx_hash (vtx block)) by (apply fst_zip; rewrite length_map; lia).
  assert (E2 : map snd z = vMatch) by (apply snd_zip; rewrite length_map; lia).
  assert (Hz : length z = length (vtx block)) by (unfold z; rewrite length_zip, length_map; lia).
  destruct (built_tree hash_children (length (vtx block)) ltac:(destruct (vtx block); [congruence|cbn; lia]) Hmax z Hz)
    as (us & Ec & Et & Eb & _ & _ & _ & X).
  rewrite E1, E2 in *. exists (mkMerkleBlock (blk_header block) us matched), f', us. unfold CMerkleBlock_new. rewrite El. cbn [obind].
  rewrite Ec. split; [reflexivity|]. split; [reflexivity|]. cbn [mb_txn vMatchedTxn]. split; [|split; [exact F|exact R]].
  rewrite <- P. specialize (X 0%nat ltac:(lia)). cbn zeta in X. cbn [replicate] in X. rewrite app_nil_r, <- Et in X.
  destruct us as [n0 b0 h0 f1]. cbn [nTransactions MerkleBlock.vBits MerkleBlock.vHash fBad] in *. rewrite Eb in *. exact X.
Qed.

(** ** Witnesses *)

(** A loaded filter of 32 bytes that holds one key, and two transactions: the
    first pays to the key, the second spends the payment. *)
Definition sample_filter : CBloomFilter := mkBloomFilter (replicate 32 0) true false 3 5 BLOOM_UPDATE_ALL.
Definition sample_key : list Z := replicate 20 7.
Definition paying_tx : CTransaction :=
  mkTransaction (of_uint64 8 100) (mkMutable 1 [mkTxIn (mkOutPoint (of_uint64 8 9) 0) [] 0]
    [mkTxOut 5 [OP_META]; mkTxOut 10 ([OP_DUP; OP_HASH160] ++ push_data [] sample_key ++ [OP_EQUALVERIFY; OP_CHECKSIG])] 0).
Definition spending_tx : CTransaction :=
  mkTransaction (of_uint64 8 101) (mkMutable 1 [mkTxIn (mkOutPoint (of_uint64 8 100) 1) [] 0] [mkTxOut 10 []] 0).

Definition loaded_sample : CBloomFilter := mkBloomFilter (replicate 32 0) false true 3 5 BLOOM_UPDATE_ALL.
Definition watching_filter : CBloomFilter :=
  match bloom_insert (E:=ScriptError) loaded_sample sample_key with Ret f => f | _ => loaded_sample end.

Lemma watching_session : rtc bloom_step loaded_sample watching_filter.
Proof. apply rtc_once. apply (step_insert _ _ sample_key). vm_compute. reflexivity. Qed.

Lemma bloom_no_false_negatives_witness :
  filterload sample_filter = Some loaded_sample /\ bloom_contains (E:=ScriptError) watching_filter sample_key = Ret true /\
  bloom_contains (E:=ScriptError) watching_filter [1; 2; 3] = Ret false.
Proof.
  split; [vm_compute; reflexivity|]. split; [|vm_compute; reflexivity].
  destruct (bloom_no_false_negatives sample_filter loaded_sample loaded_sample) as (Hi & _); [vm_compute; reflexivity|apply rtc_refl|].
  destruct (Hi sample_key) as (f' & E & H). apply H. vm_compute in E. injection E as <-. apply rtc_refl.
Defined.

Lemma bloom_follows_payments_witness :
  exists f1, IsRelevantAndUpdate watching_filter paying_tx = Ret (true, f1) /\
    exists f3, IsRelevantAndUpdate f1 spending_tx = Ret (true, f3).
Proof.
  destruct (bloom_follows_payments sample_filter loaded_sample watching_filter paying_tx 1
    (mkTxOut 10 ([OP_DUP; OP_HASH160] ++ push_data [] sample_key ++ [OP_EQUALVERIFY; OP_CHECKSIG])) sample_key) as (f1 & E1 & H);
    [vm_compute; reflexivity|apply watching_session|reflexivity|lia|vm_compute; auto|vm_compute; reflexivity|left; vm_compute; reflexivity|].
  exists f1. split; [exact E1|]. apply (H f1 spending_tx (mkTxIn (mkOutPoint (of_uint64 8 100) 1) [] 0)); [apply rtc_refl|left; reflexivity|reflexivity].
Defined.

Lemma filtered_block_proves_witness :
  exists mb f' txn',
    CMerkleBlock_new (mkBlock (mkHeader 1 uint256_null uint256_null 0 0 0 uint256_null) [spending_tx; paying_tx; spending_tx] []) watching_filter = Ret (mb, f') /\
    ExtractMatches hash_children (mb_txn mb) =
      Ret (merkle_root hash_children [of_uint64 8 101; of_uint64 8 100; of_uint64 8 101], map snd (vMatchedTxn mb), txn') /\
    In (1, of_uint64 8 100) (vMatchedTxn mb).
Proof.
  destruct (filtered_block_proves (mkBlock (mkHeader 1 uint256_null uint256_null 0 0 0 uint256_null) [spending_tx; paying_tx; spending_tx] []) watching_filter)
    as (mb & f' & txn' & E & _ & X & _ & R); [right; vm_compute; discriminate|discriminate|vm_compute; discriminate|].
  exists mb, f', txn'. split; [exact E|]. split; [exact X|]. apply (R 1%nat paying_tx); [reflexivity|].
  right. left. exists (mkTxOut 10 ([OP_DUP; OP_HASH160] ++ push_data [] sample_key ++ [OP_EQUALVERIFY; OP_CHECKSIG])).
  split; [right; left; reflexivity|]. exists sample_key. split; [vm_compute; auto|vm_compute; reflexivity].
Defined.
