(* ===== verification/MempoolAccept.v ===== *)
(** * Acceptance into the memory pool: [main.cpp], [coins.cpp]

    [IsStandardTx], [AreInputsStandard] and the fee rules are policy;
    [AcceptToMemoryPool] joins them with the checks of [Validation] over a cache
    whose backend is the pool in front of the coins of the active chain.  Settings,
    the clocks and the height of the chain are arguments; [pow] is the library's. *)

From Stdlib Require Import ZArith Lia Bool String SpecFloat.
From stdpp Require Import base option numbers list gmap.
From S2P Require Import Prelude BaseUInt UInt256 Serialize Opcodes Script StackManager Interpreter Transaction Standard Coins CoinsCache BlockIndex Validation BlockChecks FeeEstimator Mempool MempoolProps.

Open Scope Z_scope.
Open Scope outcome_scope.

Definition REJECT_DUPLICATE : Z := 0x12.
Definition REJECT_INSUFFICIENTFEE : Z := 0x42.
Definition MAX_P2SH_SIGOPS : Z := 15.
Definition MAX_TX_SIGOPS_CURRENT : Z := 2000000 / 50 / 5.
Definition DEFAULT_BLOCK_PRIORITY_SIZE : Z := 50000.
Definition CURRENT_VERSION : Z := 1.

(** [BaseSignatureChecker()] *)
Definition BaseSignatureChecker_default : BaseSignatureChecker := {| CheckSig := fun _ _ _ => false; CheckCoinstake := false |}.

(** [CCoinsView dummy]: nothing in it. *)
Definition dummy_view : CCoinsView := ViewDB (mkDB ∅ uint256_null).

Section Policy.
Context {SH : ScriptHashes}.
Variable relay : CFeeRate.

(** ** [IsStandardTx] *)

Section Standard.
Variables (chainHeight adjustedTime : Z) (fIsBareMultisigStd : bool) (nMaxDatacarrierBytes : Z).

Fixpoint standard_inputs (ins : list CTxIn) : option string :=
  match ins with
  | [] => None
  | txin :: ins =>
      if zlen (scriptSig txin) >? 1650 then Some "scriptsig-size"%string
      else if negb (IsPushOnly (scriptSig txin)) then Some "scriptsig-not-pushonly"%string
      else standard_inputs ins
  end.

(** The reason for which it is refused, or the number of data outputs. *)
Fixpoint standard_outputs (outs : list CTxOut) (nDataOut : Z) : io (string + Z) :=
  match outs with
  | [] => Ret (inr nDataOut)
  | txout :: outs =>
      let* '(ok, whichType) := counted (IsStandard (scriptPubKey txout) nMaxDatacarrierBytes) in
      if negb ok then Ret (inl "scriptpubkey"%string)
      else if bool_decide (whichType = TX_NULL_DATA) then standard_outputs outs (u32 (nDataOut + 1))
      else if bool_decide (whichType = TX_MULTISIG) && negb fIsBareMultisigStd then Ret (inl "bare-multisig"%string)
      else
        let* dust := IsDust relay txout in
        if dust then Ret (inl "dust"%string) else standard_outputs outs nDataOut
  end.

(** [None]: standard. *)
Definition IsStandardTx (tx : CMutableTransaction) : io (option string) :=
  if (nVersion tx >? CURRENT_VERSION) || (nVersion tx <? 1) then Ret (Some "version"%string)
  else if negb (IsFinalTx tx chainHeight adjustedTime (chainHeight + 1) 0) then Ret (Some "non-final"%string)
  else if u32 (GetSerializeSize mutable_codec tx) >=? MAX_STANDARD_TX_SIZE then Ret (Some "tx-size"%string)
  else
    match standard_inputs (vin tx) with
    | Some reason => Ret (Some reason)
    | None =>
        let* r := standard_outputs (vout tx) 0 in
        match r with
        | inl reason => Ret (Some reason)
        | inr nDataOut => Ret (if nDataOut >? 1 then Some "multi-op-meta"%string else None)
        end
    end.
End Standard.

(** ** [AreInputsStandard] *)

(** The vault form of the last element pushed. *)
Definition vault_argument (stack : list (list Z)) : bool :=
  match stack with
  | [] => false
  | lastElement :: _ => match lastElement with [] => true | [b] => b =? 1 | _ => false end
  end.

Fixpoint inputs_standard (v : CCoinsView) (ins : list CTxIn) : io (CCoinsView * bool) :=
  match ins with
  | [] => Ret (v, true)
  | txin :: ins =>
      let* '(v, prev) := GetOutputFor v txin in
      let* r := counted (ExtractScriptPubKeyFormat (scriptPubKey prev) []) in
      if negb (fr_ok r) then Ret (v, false) else
      let nArgsExpected := ScriptSigArgsExpected (fr_type r) (fr_solutions r) in
      if nArgsExpected <? 0 then Ret (v, false) else
      match EvalScript 0 BaseSignatureChecker_default [] (scriptSig txin) with
      | Throw => Throw
      | Undef => Undef
      | Err _ => Ret (v, false)
      | Ret stack =>
          let next nArgsExpected := if negb (zlen stack =? u32 nArgsExpected) then Ret (v, false) else inputs_standard v ins in
          if bool_decide (fr_type r = TX_VAULT) then
            if negb (vault_argument stack) then Ret (v, false) else next nArgsExpected
          else if bool_decide (fr_type r = TX_SCRIPTHASH) then
            match stack with
            | [] => Ret (v, false)
            | subscript :: _ =>
                let* r2 := counted (ExtractScriptPubKeyFormat subscript []) in
                if fr_ok r2 then
                  let tmpExpected := ScriptSigArgsExpected (fr_type r2) (fr_solutions r2) in
                  if tmpExpected <? 0 then Ret (v, false) else next (nArgsExpected + tmpExpected)
                else let* sigops := counted (GetSigOpCount subscript true) in Ret (v, sigops <=? MAX_P2SH_SIGOPS)
            end
          else next nArgsExpected
      end
  end.

Definition AreInputsStandard (v : CCoinsView) (tx : CMutableTransaction) : io (CCoinsView * bool) :=
  if IsCoinBase tx then Ret (v, true) else inputs_standard v (vin tx).
End Policy.

(** ** [CCoinsViewCache::GetPriority] *)

(** The product of value and age is a signed 64-bit integer. *)
Fixpoint coins_priority (v : CCoinsView) (ins : list CTxIn) (height : Z) (dResult : double) : io (CCoinsView * double) :=
  match ins with
  | [] => Ret (v, dResult)
  | txin :: ins =>
      let '(v, coins) := AccessCoins v (prev_hash (prevout txin)) in
      let* coins := oaccess coins in
      let n := Z.to_nat (prev_n (prevout txin)) in
      if negb (IsAvailable coins n) then coins_priority v ins height dResult
      else if coins_nHeight coins <? height then
        let* o := oaccess (coins_vout coins !! n) in
        let* product := amount_mul (nValue o) (height - coins_nHeight coins) in
        coins_priority v ins height (dadd dResult (double_of product))
      else coins_priority v ins height dResult
  end.

Definition coins_GetPriority (v : CCoinsView) (tx : CMutableTransaction) (height : Z) : io (CCoinsView * double) :=
  if IsCoinBase tx || IsCoinStake tx then Ret (v, double_of 0)
  else let* '(v, dResult) := coins_priority v (vin tx) height (double_of 0) in Ret (v, ComputePriority tx dResult 0).

(** ** Fees *)

Definition TxShouldBePrioritized (p : CTxMemPool) (txHash : list Z) (nBytes : Z) : io bool :=
  let* '(dPriorityDelta, nFeeDelta) := ApplyDeltas p txHash (double_of 0) 0 in
  Ret (SFltb (double_of 0) dPriorityDelta || (nFeeDelta >? 0) || (nBytes <? DEFAULT_BLOCK_PRIORITY_SIZE - 1000)).

(** The static variables of the rate limiter. *)
Record free_limiter := mkLimiter { dFreeCount : double; nLastTime : Z }.

Section Fees.
Variable pow : double -> double -> double.
Variables (nNow limitFreeRelay : Z).
Variable relay : CFeeRate.
Variable relayPriority : bool.

Definition dsub : double -> double -> double := SFsub 53 1024.

Definition RateLimiterAllowsFreeTransaction (state : CValidationState) (nSize : Z) (l : free_limiter) : io (bool * CValidationState * free_limiter) :=
  let decay := dsub (double_of 1) (ddiv (double_of 1) (double_of 600)) in
  let* elapsed := amount_add nNow (- nLastTime l) in
  let count := dmul (dFreeCount l) (pow decay (double_of elapsed)) in
  let* limit := amount_mul limitFreeRelay 10 in
  let* limit := amount_mul limit 1000 in
  if SFleb (double_of limit) count then Ret (false, DoS state 0 REJECT_INSUFFICIENTFEE "rate limited free transaction" false, mkLimiter count nNow)
  else Ret (true, state, mkLimiter (dadd count (double_of nSize)) nNow).

Definition CheckFeesPaidAreAcceptable (p : CTxMemPool) (tx : CTransaction) (nSize : Z) (nFees : CAmount) (currentChainHeight : Z) (fLimitFree : bool)
    (v : CCoinsView) (state : CValidationState) (l : free_limiter) : io (CCoinsView * (bool * CValidationState) * free_limiter) :=
  let minimumRelayFee := GetFee relay nSize in
  let* txShouldHavePriority := TxShouldBePrioritized p (tx_hash tx) nSize in
  if fLimitFree && negb txShouldHavePriority && (nFees <? minimumRelayFee)
  then Ret (v, (false, DoS state 0 REJECT_INSUFFICIENTFEE "insufficient fee" false), l)
  else
    let* '(v, unpriority) :=
      if relayPriority && (nFees <? minimumRelayFee) then
        let* '(v, d) := coins_GetPriority v (tx_body tx) (currentChainHeight + 1) in Ret (v, negb (AllowFree d))
      else Ret (v, false) in
    if unpriority then Ret (v, (false, DoS state 0 REJECT_INSUFFICIENTFEE "insufficient priority" false), l)
    else if fLimitFree && (nFees <? minimumRelayFee) then
      let* '(ok, state, l) := RateLimiterAllowsFreeTransaction state nSize l in
      Ret (v, (ok, state), l)
    else Ret (v, (true, state), l).
End Fees.

(** ** The view in front of the pool and the chain *)

(** The cache [view] and the coins of the chain behind [CCoinsViewMemPool]. *)
Definition pool_view_state : Type := CCoinsViewCache * CCoinsView.

Definition pool_FetchCoins (p : CTxMemPool) (av : pool_view_state) (txid : list Z) : pool_view_state * option CCoins :=
  let '(c, tip) := av in
  match cacheCoins c !! txid with
  | Some e => (av, Some (entry_coins e))
  | None =>
      let '(tip, r) := mempool_GetCoins p tip txid in
      match r with
      | None => ((c, tip), None)
      | Some tmp => ((with_cache c (<[txid := mkEntry tmp false (IsPruned tmp)]> (cacheCoins c)), tip), Some tmp)
      end
  end.

Definition pool_HaveCoins (p : CTxMemPool) (av : pool_view_state) (txid : list Z) : pool_view_state * bool :=
  let '(av, r) := pool_FetchCoins p av txid in
  (av, match r with Some c => negb (length (coins_vout c) =? 0)%nat | None => false end).

(** [for (const CTxIn txin : tx.vin) if (!view.HaveCoins(txin.prevout.hash))] *)
Fixpoint pool_have_all (p : CTxMemPool) (av : pool_view_state) (ins : list CTxIn) : pool_view_state * bool :=
  match ins with
  | [] => (av, true)
  | txin :: ins =>
      let '(av, have) := pool_HaveCoins p av (prev_hash (prevout txin)) in
      if negb have then (av, false) else pool_have_all p av ins
  end.

(** [HaveInputs] of a transaction that is no coinbase. *)
Fixpoint pool_have_inputs (p : CTxMemPool) (av : pool_view_state) (ins : list CTxIn) : pool_view_state * bool :=
  match ins with
  | [] => (av, true)
  | txin :: ins =>
      let '(av, coins) := pool_FetchCoins p av (prev_hash (prevout txin)) in
      match coins with
      | Some coins => if IsAvailable coins (Z.to_nat (prev_n (prevout txin))) then pool_have_inputs p av ins else (av, false)
      | None => (av, false)
      end
  end.

Definition pool_GetBestBlock (av : pool_view_state) : pool_view_state :=
  let '(c, tip) := av in
  if bool_decide (cache_hashBlock c = uint256_null) then
    let '(tip, h) := GetBestBlock tip in (mkCache (cacheCoins c) h (hasModifier c), tip)
  else av.

(** [GetValueIn] *)
Fixpoint pool_value_in (p : CTxMemPool) (av : pool_view_state) (ins : list CTxIn) (nResult : CAmount) : io (pool_view_state * CAmount) :=
  match ins with
  | [] => Ret (av, nResult)
  | txin :: ins =>
      let '(av, coins) := pool_FetchCoins p av (prev_hash (prevout txin)) in
      let* coins := oaccess coins in
      let n := Z.to_nat (prev_n (prevout txin)) in
      oassert (IsAvailable coins n) ;;;
      let* o := oaccess (coins_vout coins !! n) in
      let* nResult := amount_add nResult (nValue o) in
      pool_value_in p av ins nResult
  end.

(** ** [AcceptToMemoryPool] *)

(** The result and what the call leaves behind: the state, [*pfMissingInputs], the
    pool, the coins of the chain with their caches, the rate limiter. *)
Record accept_result := mkAccept {
  ac_ok : bool; ac_state : CValidationState; ac_missing : bool; ac_pool : CTxMemPool; ac_tip : CCoinsView; ac_limiter : free_limiter
}.

Section Accept.
Context {SH : ScriptHashes}.
Variable Verify : CPubKey -> base_uint -> valtype -> bool.
Variables (maxMoney COINBASE_MATURITY : Z).
Variable heap : index_heap.
Variable blockIndexMap : gmap (list Z) positive.
Variables (chainHeight adjustedTime nNow : Z).
Variables (requireStandard fIsBareMultisigStd relayPriority : bool) (nMaxDatacarrierBytes limitFreeRelay : Z).
Variable relay : CFeeRate.
Variable pow : double -> double -> double.
Variables fAddressIndex_ fSpentIndex_ : bool.

(** [if (requireStandard && !IsStandardTx(tx, reason))] *)
Definition nonstandard_reason (tx : CMutableTransaction) : io (option string) :=
  if requireStandard then IsStandardTx relay chainHeight adjustedTime fIsBareMultisigStd nMaxDatacarrierBytes tx else Ret None.

Definition input_checks (tx : CTransaction) (state : CValidationState) (v : CCoinsView) (flags : Z) : io InputsResult :=
  CheckInputs Verify maxMoney COINBASE_MATURITY heap blockIndexMap (tx_body tx) state v 0 0 true flags true None false.

(** From the point where the view has all inputs and is cut off from the pool. *)
Definition accept_with_inputs (p : CTxMemPool) (tx : CTransaction) (nValueIn : CAmount) (v : CCoinsView) (state : CValidationState)
    (fLimitFree ignoreFees : bool) (tip : CCoinsView) (l : free_limiter) : io accept_result :=
  let* '(v, standard) := if requireStandard then AreInputsStandard v (tx_body tx) else Ret (v, true) in
  if negb standard then Ret (mkAccept false state false p tip l) else
  let* nSigOps := GetLegacySigOpCount (tx_body tx) in
  let* '(v, n) := GetP2SHSigOpCount v (tx_body tx) in
  let nSigOps := u32 (nSigOps + n) in
  if nSigOps >? MAX_TX_SIGOPS_CURRENT
  then Ret (mkAccept false (DoS state 0 REJECT_NONSTANDARD "bad-txns-too-many-sigops" false) false p tip l) else
  let* out := GetValueOut (tx_body tx) in
  let* nFees := amount_add nValueIn (- out) in
  let* '(v, dPriority) := coins_GetPriority v (tx_body tx) chainHeight in
  let entry := CTxMemPoolEntry_of tx nFees nNow dPriority (u32 chainHeight) in
  let nSize := u32 (nTxSize entry) in
  let* '(v, (ok, state), l) :=
    if negb ignoreFees then
      CheckFeesPaidAreAcceptable pow nNow limitFreeRelay relay relayPriority p tx nSize nFees chainHeight fLimitFree v state l
    else Ret (v, (true, state), l) in
  if negb ok then Ret (mkAccept false state false p tip l) else
  let* r := input_checks tx state v STANDARD_SCRIPT_VERIFY_FLAGS in
  if negb (ci_result r).1 then Ret (mkAccept false (ci_result r).2 false p tip l) else
  let* r := input_checks tx (ci_result r).2 (ci_view r) MANDATORY_SCRIPT_VERIFY_FLAGS in
  if negb (ci_result r).1 then Ret (mkAccept false (ci_result r).2 false p tip l) else
  let* p := addUnchecked fAddressIndex_ fSpentIndex_ p (tx_hash tx) entry (ci_view r) in
  Ret (mkAccept true (ci_result r).2 false p tip l).

Definition AcceptToMemoryPool (p : CTxMemPool) (state : CValidationState) (tx : CTransaction) (fLimitFree ignoreFees : bool)
    (tip : CCoinsView) (l : free_limiter) : io accept_result :=
  let refuse state := Ret (mkAccept false state false p tip l) in
  let* '(ok, state) := CheckTransaction maxMoney (tx_body tx) state in
  if negb ok then refuse (DoS state 100 REJECT_INVALID "bad-tx" false) else
  if IsCoinBase (tx_body tx) then refuse (DoS state 100 REJECT_INVALID "coinbase" false) else
  if IsCoinStake (tx_body tx) then refuse (DoS state 100 REJECT_INVALID "coinstake" false) else
  let* reason := nonstandard_reason (tx_body tx) in
  match reason with
  | Some reason => refuse (DoS state 0 REJECT_NONSTANDARD reason false)
  | None =>
      if pool_exists p (tx_hash tx) then refuse state else
      if existsb (fun txin => bool_decide (is_Some (mapNextTx p !! prevout txin))) (vin (tx_body tx)) then refuse state else
      let '(av, known) := pool_HaveCoins p (mkCache ∅ uint256_null false, tip) (tx_hash tx) in
      if known then Ret (mkAccept false state false p av.2 l) else
      let '(av, have) := pool_have_all p av (vin (tx_body tx)) in
      if negb have then Ret (mkAccept false state true p av.2 l) else
      let '(av, available) := pool_have_inputs p av (vin (tx_body tx)) in
      if negb available then Ret (mkAccept false (Invalid state REJECT_DUPLICATE "bad-txns-inputs-spent") false p av.2 l) else
      let av := pool_GetBestBlock av in
      let* '(av, nValueIn) := pool_value_in p av (vin (tx_body tx)) 0 in
      accept_with_inputs p tx nValueIn (ViewCache av.1 dummy_view) state fLimitFree ignoreFees av.2 l
  end.
End Accept.
