(* ===== verification/BlockEffect.v ===== *)
(** * The outputs a block makes and spends

    The effect of the transactions of a block on single outputs: what none of them
    spends stays, what they make is there unless a later one spends it, nothing else
    appears.  [ConnectBlock] has this effect. *)

From Stdlib Require Import ZArith Lia Bool String.
From stdpp Require Import base option numbers list gmap relations.
From S2P Require Import Prelude BaseUInt UInt256 Serialize Opcodes ScriptNum Script StackManager Interpreter Transaction Merkle Standard Coins CoinsCache CoinsUpdate Hashes SigHash BlockIndex Chain Subsidy Base58 MasternodeVotes Incentives Pow Validation IndexUpdates ConnectBlock Supply BlockChecks Disconnect.

Open Scope Z_scope.
Open Scope outcome_scope.

(** The unspent output an input refers to, among coins given by [f]. *)
Definition coin_output (f : list Z -> option CCoins) (i : CTxIn) : option CTxOut :=
  match f (prev_hash (prevout i)) with
  | Some c => if IsAvailable c (Z.to_nat (prev_n (prevout i))) then coins_vout c !! Z.to_nat (prev_n (prevout i)) else None
  | None => None
  end.

Lemma coin_output_mono f g i o : (forall k c, f k = Some c -> g k = Some c) -> coin_output f i = Some o -> coin_output g i = Some o.
Proof. unfold coin_output. intros H. destruct (f _) as [c|] eqn:E; [|done]. by rewrite (H _ _ E). Qed.

Lemma coin_output_available f i o : coin_output f i = Some o ->
  exists c, f (prev_hash (prevout i)) = Some c /\ IsAvailable c (Z.to_nat (prev_n (prevout i))) = true /\ coins_vout c !! Z.to_nat (prev_n (prevout i)) = Some o.
Proof. unfold coin_output. destruct (f _) as [c|]; [|done]. destruct (IsAvailable _ _) eqn:E; [|done]. intros H. by exists c. Qed.

(** ** The outputs of a transaction and its block *)

(** The output an input refers to, if it is one of [tx]. *)
Definition made_by (tx : CTransaction) (i : CTxIn) : option CTxOut :=
  if bool_decide ((prev_hash (prevout i) : list Z) = tx_hash tx) then coin_output (fun _ => Some (FromTx (tx_body tx) 0)) i else None.

Lemma output_coin v i : output_at v i = coin_output (coins_at v) i.
Proof. done. Qed.

Lemma FromTx_output tx h h' i : coin_output (fun _ => Some (FromTx tx h)) i = coin_output (fun _ => Some (FromTx tx h')) i.
Proof. done. Qed.

Lemma coin_output_at f i c : f (prev_hash (prevout i)) = Some c -> coin_output f i = coin_output (fun _ => Some c) i.
Proof. intros H. unfold coin_output. by rewrite H. Qed.

Lemma FromTx_bound tx h i o : coin_output (fun _ => Some (FromTx tx h)) i = Some o -> (Z.to_nat (prev_n (prevout i)) < length (vout tx))%nat.
Proof.
  unfold coin_output. destruct (IsAvailable _ _); [|done]. intros Ho%lookup_lt_Some. unfold FromTx, ClearUnspendable in Ho. cbn [Cleanup with_vout coins_vout] in Ho.
  set (l := map clear_unspendable (vout tx)) in *. assert (length l = length (vout tx)) as <- by (unfold l; apply length_map).
  destruct (drop_nulls_split l) as (q & Hq & _). apply (f_equal length) in Hq. rewrite length_app in Hq. lia.
Qed.

(** Spending leaves the other outputs, and no new ones. *)
Lemma Spend_output c n i : coin_output (fun _ => Some (Spend c n).1) i = if bool_decide (Z.to_nat (prev_n (prevout i)) = n) && IsAvailable c n then None else coin_output (fun _ => Some c) i.
Proof.
  unfold coin_output. set (m := Z.to_nat _). destruct (IsAvailable c n) eqn:Hn.
  - destruct (spend_available c n Hn) as (o & Ho & _ & ->). cbn [fst]. rewrite andb_true_r. destruct (decide (m = n)) as [->|Hne].
    + rewrite bool_decide_eq_true_2 by done. by rewrite spent_unavailable by (by apply lookup_lt_Some in Ho).
    + rewrite bool_decide_eq_false_2 by done. unfold IsAvailable. cbn [Cleanup with_vout coins_vout]. set (vo := <[n:=CTxOut_null]> (coins_vout c)).
      assert (vo !! m = coins_vout c !! m) as <- by (unfold vo; by rewrite list_lookup_insert_ne). destruct (drop_nulls_split vo) as (q & Hq & Hnull & _).
      destruct (drop_nulls vo !! m) as [x|] eqn:Ex; [rewrite Hq; by rewrite (lookup_app_l_Some _ _ _ _ Ex)|].
      rewrite Hq. rewrite lookup_app, Ex. destruct (q !! _) as [y|] eqn:Ey; [|done]. rewrite Forall_lookup in Hnull. by rewrite (Hnull _ _ Ey).
  - rewrite andb_false_r. f_equal. unfold Spend. unfold IsAvailable in Hn. destruct (coins_vout c !! n) as [o|]; [|done]. apply negb_false_iff in Hn. by rewrite Hn.
Qed.

Lemma unspent_output (f : list Z -> option CCoins) c i : f (prev_hash (prevout i)) = unspent (Some c) -> coin_output f i = coin_output (fun _ => Some c) i.
Proof.
  intros H. unfold coin_output. rewrite H. cbn [unspent]. destruct (IsPruned c) eqn:Ep; [|done].
  destruct (IsAvailable c _) eqn:Ea; [|done]. apply available_not_pruned in Ea. congruence.
Qed.

Lemma spend_input_output v k n v1 res : cache_ok v -> @store_modify CCoinsView cache_store _ v k (fun c => Spend c n) = Ret (v1, res) ->
  cache_ok v1 /\ forall j, output_at v1 j = if bool_decide ((prev_hash (prevout j) : list Z) = k /\ Z.to_nat (prev_n (prevout j)) = n) then None else output_at v j.
Proof.
  intros Hok E. destruct (@store_modify_spec CCoinsView cache_store _ v k (fun c => Spend c n) Hok) as (c0 & v' & Hcl & Hu & E' & Hok' & Hk & Ho).
  rewrite E' in E. injection E as <- _. split; [done|]. intros j. destruct (decide ((prev_hash (prevout j) : list Z) = k)) as [Eh|Hne].
  - change (coins_at v' k = unspent (Some (Cleanup (Spend c0 n).1))) in Hk. change (unspent (Some c0) = coins_at v k) in Hu.
    rewrite Cleanup_id in Hk by (by apply (Spend_frame c0 n)). rewrite output_coin, (unspent_output _ (Spend c0 n).1) by (by rewrite Eh). rewrite Spend_output.
    rewrite output_coin, (unspent_output (coins_at v) c0) by (by rewrite Eh, Hu).
    destruct (decide (Z.to_nat (prev_n (prevout j)) = n)) as [En|En]; [|rewrite !bool_decide_eq_false_2 by tauto; done].
    rewrite !bool_decide_eq_true_2 by done. cbn [andb]. destruct (IsAvailable c0 n) eqn:Ea; [done|].
    unfold coin_output. by rewrite En, Ea.
  - rewrite bool_decide_eq_false_2 by tauto. unfold output_at. assert (coins_at v' (prev_hash (prevout j)) = coins_at v (prev_hash (prevout j))) as -> by exact (Ho _ Hne). done.
Qed.

Lemma spend_inputs_output ins : forall v v1 undos, cache_ok v -> @CoinsUpdate.spend_inputs CCoinsView cache_store v ins = Ret (v1, undos) ->
  cache_ok v1 /\ forall j, output_at v1 j = if bool_decide (spends j ∈ map spends ins) then None else output_at v j.
Proof.
  induction ins as [|i ins IH]; intros v v1 undos Hok; cbn [CoinsUpdate.spend_inputs].
  { intros [= <- _]. split; [done|]. intros j. rewrite bool_decide_eq_false_2; [done | by intros H%elem_of_nil]. }
  destruct (store_modify _ v _ _) as [[w res]| | |] eqn:E; cbn [obind]; try done. destruct (fst res); cbn [oassert obind]; [|done].
  destruct (CoinsUpdate.spend_inputs w ins) as [[v2 us]| | |] eqn:E2; cbn [obind]; try done. intros [= <- _].
  apply spend_input_output in E as [Hok1 Ho1]; [|done]. destruct (IH _ _ _ Hok1 E2) as [Hok2 Ho2]. split; [done|]. intros j. rewrite Ho2. cbn [map].
  destruct (decide (spends j ∈ map spends ins)) as [Hin|Hin]; [rewrite !bool_decide_eq_true_2; [done | by right | done]|]. rewrite (bool_decide_eq_false_2 (spends j ∈ map spends ins)) by done. rewrite Ho1.
  destruct (decide (spends j = spends i)) as [Es|Es].
  - pose proof Es as Es'. injection Es as Eh En. rewrite !bool_decide_eq_true_2; [done | rewrite Es'; by left | done].
  - rewrite !bool_decide_eq_false_2; [done | by intros [?|?]%elem_of_cons | intros [Eh En]; apply Es; unfold spends; by rewrite Eh, En].
Qed.

(** [tx] spends the output [j] refers to. *)
Definition spent_by (tx : CTransaction) (j : CTxIn) : Prop := IsCoinBase (tx_body tx) = false /\ spends j ∈ map spends (vin (tx_body tx)).
#[local] Instance spent_by_dec tx j : Decision (spent_by tx j).
Proof. unfold spent_by. apply _. Defined.

Lemma UpdateCoins_output tx v h v1 undos : cache_ok v -> UpdateCoinsWithTransaction tx v h = Ret (v1, undos) ->
  cache_ok v1 /\ forall j, output_at v1 j =
    if bool_decide ((prev_hash (prevout j) : list Z) = tx_hash tx) then coin_output (fun _ => Some (FromTx (tx_body tx) h)) j else if bool_decide (spent_by tx j) then None else output_at v j.
Proof.
  intros Hok. unfold UpdateCoinsWithTransaction.
  destruct (if negb (IsCoinBase (tx_body tx)) then _ else _) as [[w us]| | |] eqn:E; cbn [obind]; try done.
  assert (cache_ok w /\ forall j, output_at w j = if bool_decide (spent_by tx j) then None else output_at v j) as [Hokw How].
  { destruct (IsCoinBase (tx_body tx)) eqn:Ecb; cbn [negb] in E.
    - injection E as <- _. split; [done|]. intros j. rewrite bool_decide_eq_false_2; [done|]. intros [H _]. congruence.
    - apply spend_inputs_output in E as [H1 H2]; [|done]. split; [done|]. intros j. rewrite H2. unfold spent_by. destruct (decide (spends j ∈ map spends (vin (tx_body tx)))).
      + by rewrite !bool_decide_eq_true_2. + rewrite !bool_decide_eq_false_2; [done | by intros [] | done]. }
  destruct (@store_modify_spec CCoinsView cache_store unit w (tx_hash tx) (fun _ => (FromTx (tx_body tx) h, tt)) Hokw) as (c0 & v' & _ & _ & Hm & Hok' & Hk & Ho).
  rewrite Hm. cbn [obind fst snd]. intros [= <- _]. split; [done|]. intros j. rewrite <- How. case_bool_decide as Eh.
  - cbn [fst] in Hk. rewrite Cleanup_id in Hk by apply Cleanup_clean. rewrite output_coin. apply unspent_output. rewrite Eh. exact Hk.
  - unfold output_at. assert (coins_at v' (prev_hash (prevout j)) = coins_at w (prev_hash (prevout j))) as -> by exact (Ho _ Eh). done.
Qed.

(** [txs] are applied one after the other to what [v] shows, and [v'] shows the result. *)
Inductive connects (h : Z) : list CTransaction -> CCoinsView -> CCoinsView -> Prop :=
| connects_nil v v' : (forall k, coins_at v' k = coins_at v k) -> connects h [] v v'
| connects_cons tx txs v w w1 undos v' : cache_ok w -> (forall k, coins_at w k = coins_at v k) -> coins_at v (tx_hash tx) = None ->
    UpdateCoinsWithTransaction tx w h = Ret (w1, undos) -> connects h txs w1 v' -> connects h (tx :: txs) v v'.

Lemma coins_output v v' i : (forall k, coins_at v' k = coins_at v k) -> output_at v' i = output_at v i.
Proof. intros H. unfold output_at. by rewrite H. Qed.

(** What the transactions make or leave is there afterwards, and nothing else. *)
Lemma connects_keeps h txs v v' j : connects h txs v v' -> (forall tx, tx ∈ txs -> ~ spent_by tx j) ->
  is_Some (output_at v j) \/ (exists tx, tx ∈ txs /\ is_Some (made_by tx j)) -> is_Some (output_at v' j).
Proof.
  intros Hc. induction Hc as [v v' Hv|tx txs v w w1 undos v' Hok Hw Hnew Hup Hc IH]; intros Hns H.
  { rewrite (coins_output v v' j Hv). destruct H as [H|(tx & Hin & _)]; [done | by apply elem_of_nil in Hin]. }
  apply UpdateCoins_output in Hup as [Hok1 Ho]; [|done]. apply IH; [intros t Ht; apply Hns; by right|]. rewrite Ho.
  destruct (decide ((prev_hash (prevout j) : list Z) = tx_hash tx)) as [Eh|Eh].
  - rewrite bool_decide_eq_true_2 by done. destruct H as [[o Ho']|(t & Hin & Ht)]; [unfold output_at in Ho'; by rewrite Eh, Hnew in Ho'|].
    apply elem_of_cons in Hin as [->|Hin]; [left|right; by exists t]. unfold made_by in Ht. rewrite bool_decide_eq_true_2 in Ht by done. exact Ht.
  - rewrite bool_decide_eq_false_2 by done. rewrite bool_decide_eq_false_2 by (apply Hns; by left). rewrite (coins_output v w j Hw). destruct H as [H|(t & Hin & Ht)]; [by left|].
    apply elem_of_cons in Hin as [->|Hin]; [|right; by exists t]. unfold made_by in Ht. rewrite bool_decide_eq_false_2 in Ht by done. by destruct Ht.
Qed.

Lemma connects_only h txs v v' j : connects h txs v v' -> is_Some (output_at v' j) -> is_Some (output_at v j) \/ exists tx, tx ∈ txs /\ is_Some (made_by tx j).
Proof.
  intros Hc. induction Hc as [v v' Hv|tx txs v w w1 undos v' Hok Hw Hnew Hup Hc IH]; intros H; [left; by rewrite <- (coins_output v v' j Hv)|].
  apply UpdateCoins_output in Hup as [Hok1 Ho]; [|done]. destruct (IH H) as [H1|(t & Hin & Ht)]; [|right; exists t; split; [by right | done]]. rewrite Ho in H1. case_bool_decide as Eh.
  - right. exists tx. split; [by left|]. unfold made_by. rewrite bool_decide_eq_true_2 by done. exact H1.
  - case_bool_decide; [by destruct H1|]. left. by rewrite <- (coins_output v w j Hw).
Qed.

(** ** [ConnectBlock] *)

Lemma connects_read h v w txs v' : (forall k, coins_at w k = coins_at v k) -> connects h txs w v' -> connects h txs v v'.
Proof.
  intros Hw Hc. inversion Hc as [a b Hab|tx txs' a u u1 undos b Hok Hu Hnew Hup Hc']; subst.
  - constructor. intros k. by rewrite Hab.
  - eapply connects_cons; [done | | | done | done]; [intros k; by rewrite Hu | by rewrite <- Hw].
Qed.

Lemma connects_shown h v txs v' w : (forall k, coins_at w k = coins_at v' k) -> connects h txs v v' -> connects h txs v w.
Proof. intros Hw Hc. induction Hc as [v v' Hv|tx txs v u u1 undos v' Hok Hu Hnew Hup Hc IH]; [constructor; intros k; by rewrite Hw | eapply connects_cons; eauto]. Qed.

Section Loop.
Context {SH : ScriptHashes}.
Variable Verify : CPubKey -> base_uint -> valtype -> bool.
Variables (maxMoney maturity : Z).
Hypothesis max_moderate : 0 <= maxMoney < 2 ^ 62.
Variable heap : index_heap.
Variable blockIndexMap : gmap (list Z) positive.
Variables fScriptChecks parallel fAddressIndex fSpentIndex fJustCheck : bool.
Variables (nHeight nFile nDataPos : Z) (nExpectedMint : CBlockRewards).

Lemma check_loop_connects txs : forall i s m,
  cache_ok (bc_view s) -> shows (bc_view s) m -> Forall (tx_fine maxMoney) txs -> NoDup (hashes txs) ->
  Forall (fun tx => m !! (tx_hash tx : list Z) = None) txs ->
  yields (fun r => r.1 = true -> cache_ok (bc_view r.2) /\ connects nHeight txs (bc_view s) (bc_view r.2))
    (check_loop Verify maxMoney maturity heap blockIndexMap fScriptChecks parallel fAddressIndex fSpentIndex fJustCheck nHeight nFile nDataPos nExpectedMint txs i s).
Proof.
  induction txs as [|tx txs IH]; intros i s m Hok Hs Hfine Hnd Hnew; [intros _; split; [done | by constructor]|].
  apply Forall_cons in Hfine as [[Hval Hpn] Hfine]. cbn [hashes map] in Hnd. apply NoDup_cons in Hnd as [Hh Hnd]. apply Forall_cons in Hnew as [Hnew Hrest].
  cbn [check_loop]. destruct (valid_value_out maxMoney max_moderate (tx_body tx) Hval) as [Hout _].
  assert (Hpos : Forall (fun o => 0 <= nValue o) (vout (tx_body tx))) by apply Hval.
  assert (Hndi : NoDup (map spends (vin (tx_body tx)))) by (apply distinct_spends; [apply Hval | done]).
  eapply yields_bind; [apply (check_transaction_step _ _ _ _ _ _ _ _ _ _ _ _ _ _ tx i s m _ Hok Hs Hnew Hout eq_refl Hpos Hndi)|].
  intros [ok s1] H1. cbn [fst snd] in H1. destruct ok; cbn [negb]; [|done].
  destruct (H1 eq_refl) as (outs & fees & m1 & _ & Hok1 & _ & Hs1 & _ & _ & _ & Hn1 & [_ (w & undos & Hr & Hup & _) _]). clear H1.
  assert (Hrest1 : Forall (fun tx => m1 !! (tx_hash tx : list Z) = None) txs).
  { apply Forall_forall. intros tx' Hin. rewrite Forall_forall in Hrest. apply Hn1; [by apply Hrest|]. intros E. apply Hh. apply list_elem_of_fmap. by exists tx'. }
  pose proof (IH (S i) s1 m1 Hok1 Hs1 Hfine Hnd Hrest1) as Hrec.
  destruct (check_loop _ _ _ _ _ _ _ _ _ _ _ _ _ _ txs (S i) s1) as [[ok s2]| | |]; try done. cbn [yields fst snd] in *. intros Ht. destruct (Hrec Ht) as [Hok2 Hc2]. split; [done|].
  eapply connects_cons; [by apply (reads_cache _ _ Hr) | intros k; by apply reads_coins | by rewrite Hs | exact Hup | exact Hc2].
Qed.
End Loop.

Section Block.
Context {SH : ScriptHashes}.
Context {incentives : I_BlockIncentivesPopulator}.
Variable Verify : CPubKey -> base_uint -> valtype -> bool.
Variables (maxMoney maturity LAST_POW_BLOCK : Z) (genesis : list Z).
Hypothesis max_moderate : 0 <= maxMoney < 2 ^ 62.
Variable heap : index_heap.
Variable blockIndexMap : gmap (list Z) positive.
Variables (skip : Z) (parallel fTxIndex fAddressIndex fSpentIndex fVerifyingBlocks : bool).
Variable subsidy : Z -> io CBlockRewards.

Lemma ConnectBlock_connects v m block hash st pindex b prevSupply prevCheckpoint nFile nDataPos db cn :
  cache_ok v -> shows v m -> heap !! pindex = Some b -> hash <> genesis -> Forall (tx_fine maxMoney) (vtx block) -> NoDup (hashes (vtx block)) ->
  ConnectBlock Verify maxMoney maturity LAST_POW_BLOCK genesis heap blockIndexMap skip parallel fTxIndex fAddressIndex fSpentIndex fVerifyingBlocks
    subsidy block hash st pindex prevSupply prevCheckpoint nFile nDataPos v db false = Ret (true, cn) ->
  cache_ok (cn_view cn) /\ connects (nHeight b) (vtx block) v (cn_view cn).
Proof.
  intros Hc Hs Hb Hgen Hfine Hnd. pose proof (proj1 Hc) as Hok.
  intros E. pattern cn. match goal with |- ?P cn => refine (yields_ret (fun r => r.1 = true -> P r.2) _ (true, cn) _ E eq_refl) end. clear E cn. cbn beta. unfold ConnectBlock, deref at 1. cbn [oaccess obind]. rewrite Hb. cbn [oaccess obind].
  eapply (yields_bind (fun v' => reads v v')).
  { unfold VerifyBestBlockIsAtPreviousBlock. apply yields_any. intros h _. pose proof (GetBestBlock_reads v Hok) as Hr. destruct (GetBestBlock v) as [v1 h1]. cbn [fst snd] in *. by destruct (bool_decide _). }
  intros v1 Hr1. rewrite bool_decide_eq_false_2 by done.
  assert (Hbip : let r := CheckEnforcedPoSBlocksAndBIP30 LAST_POW_BLOCK block st (nHeight b) v1 in
    reads v1 r.1 /\ (r.2.1 = true -> Forall (fun tx => coins_at v1 (tx_hash tx) = None) (vtx block))).
  { unfold CheckEnforcedPoSBlocksAndBIP30. destruct (_ && _); [by split; [apply reads_refl, Hr1|]|]. destruct (_ && _); [by split; [apply reads_refl, Hr1|]|]. apply bip30_fresh, Hr1. }
  destruct (CheckEnforcedPoSBlocksAndBIP30 LAST_POW_BLOCK block st (nHeight b) v1) as [v2 [ok st2]]. cbn [fst snd] in Hbip. destruct Hbip as [Hr2 Hfresh].
  destruct ok; cbn [negb]; [|done]. specialize (Hfresh eq_refl). assert (Hr : reads v v2) by (by eapply reads_trans). apply yields_any. intros r _.
  eapply yields_bind; [unfold BlockTransactionChecker_Check; eapply (check_loop_connects Verify maxMoney maturity max_moderate heap blockIndexMap _ _ _ _ _ _ _ _ _ (vtx block) 0 _ m)|]; cbn [bc_view].
  { by eapply reads_cache. } { by eapply shows_reads. } { done. } { done. }
  { apply Forall_forall. intros tx Htx. rewrite Forall_forall in Hfresh. rewrite <-(Hs (tx_hash tx)), <-(reads_coins v v1 _ Hr1). by apply Hfresh. }
  intros [ok s] Hloop. cbn [fst snd bc_view] in Hloop. destruct ok; cbn [negb]; [|done]. destruct (Hloop eq_refl) as [Hoks Hconn]. clear Hloop.
  apply yields_any. intros r' _. apply yields_any. intros [ok3 st3] _. destruct (negb ok3); [done|]. destruct (_ && _); [done|]. apply yields_any. intros ok4 _. destruct (negb ok4); [done|].
  intros _. cbn [snd cn_view]. split; [by apply SetViewBestBlock_ok|]. apply (connects_shown _ _ _ (bc_view s)); [intros k; apply SetViewBestBlock_coins|]. apply (connects_read _ v v2); [intros k; by apply reads_coins | done].
Qed.
End Block.

(** There are finitely many unspent outputs. *)
Lemma view_shown v : view_ok v -> exists m, shows v m.
Proof.
  induction v as [d|c base IH]; cbn [view_ok].
  - intros H. exists (db_coins d). intros k. unfold coins_at. cbn [view]. destruct (db_coins d !! k) as [x|] eqn:E; [|done]. cbn [unspent]. by destruct (H k x E) as [_ ->].
  - intros (Hb & _ & _). destruct (IH Hb) as [m Hm]. exists (omap (fun e => unspent (Some (entry_coins e))) (cacheCoins c) ∪ base.filter (fun x => cacheCoins c !! fst x = None) m).
    intros k. unfold coins_at. cbn [view]. destruct (cacheCoins c !! k) as [e|] eqn:E.
    + assert (base.filter (fun x => cacheCoins c !! fst x = None) m !! k = None) as Hf by (apply map_lookup_filter_None; right; intros x _; cbn [fst]; congruence).
      rewrite lookup_union, lookup_omap, E, Hf. cbn [mbind option_bind]. by destruct (unspent _).
    + rewrite lookup_union, lookup_omap, E. cbn [mbind option_bind]. rewrite map_lookup_filter, <- Hm. cbn [fst]. unfold coins_at. destruct (unspent (view base k)); [|done].
      cbn [mbind option_bind]. by rewrite option_guard_True.
Qed.
