(* ===== verification/MempoolAcceptProps.v ===== *)
(** * What the memory pool accepts

    The view of [AcceptToMemoryPool] shows the outputs of the pool over the coins of
    the chain; cut off from both it reads its cache only.  An accepted transaction
    spends outputs that are there, in either, and the pool stays consistent. *)

From Stdlib Require Import ZArith Lia Bool String SpecFloat.
From stdpp Require Import base option numbers list gmap.
From S2P Require Import Prelude BaseUInt UInt256 Serialize Opcodes Script StackManager Interpreter Transaction Standard Coins CoinsCache CoinsUpdate Hashes BlockIndex Validation Supply BlockChecks BlockEffect FeeEstimator Mempool MempoolProps MempoolIndex MempoolAccept.

Open Scope Z_scope.
Open Scope outcome_scope.

(** ** The coins of the pool over those of the chain *)

Definition pool_coins (p : CTxMemPool) (tip : CCoinsView) (txid : list Z) : option CCoins :=
  match mapTx p !! txid with Some e => Some (FromTx (tx_body (entry_tx e)) MEMPOOL_HEIGHT) | None => coins_at tip txid end.

Definition coin_immature (maturity height : Z) (f : list Z -> option CCoins) (i : CTxIn) : bool :=
  match f (prev_hash (prevout i)) with
  | Some c => (fCoinBase c || fCoinStake c) && (height - coins_nHeight c <? maturity)
  | None => false
  end.

Definition pool_output (p : CTxMemPool) (tip : CCoinsView) : CTxIn -> option CTxOut := coin_output (pool_coins p tip).

(** ** The view while it has its backend *)

Definition cache_map (c : CCoinsViewCache) (k : list Z) : option CCoins := entry_coins <$> cacheCoins c !! k.

Section Backed.
Variables (p : CTxMemPool) (tip : CCoinsView).

Record av_ok (av : pool_view_state) : Prop := mkAv {
  av_tip : reads tip av.2;
  av_cached : forall k c, cache_map av.1 k = Some c -> pool_coins p tip k = Some c;
  av_best : cache_hashBlock av.1 = uint256_null \/ (cache_hashBlock av.1 : list Z) = best tip
}.

(** What was cached stays cached. *)
Definition cache_grows (av av' : pool_view_state) : Prop := forall k c, cache_map av.1 k = Some c -> cache_map av'.1 k = Some c.

Lemma cache_grows_refl a : cache_grows a a.
Proof. by intros k x. Qed.
#[local] Hint Resolve cache_grows_refl : core.

Lemma pool_FetchCoins_spec av k : av_ok av ->
  exists av', pool_FetchCoins p av k = (av', pool_coins p tip k) /\ av_ok av' /\ cache_grows av av' /\ cache_map av'.1 k = pool_coins p tip k /\ cache_hashBlock av'.1 = cache_hashBlock av.1.
Proof.
  destruct av as [c t]. intros [Ht Hc Hb]. cbn [fst snd] in *. unfold pool_FetchCoins. destruct (cacheCoins c !! k) as [e|] eqn:Ek.
  { assert (Hk : cache_map c k = Some (entry_coins e)) by (unfold cache_map; by rewrite Ek). exists (c, t). rewrite (Hc _ _ Hk). by split_and!. }
  assert (Hnone : cache_map c k = None) by (unfold cache_map; by rewrite Ek).
  assert (exists t', mempool_GetCoins p t k = (t', pool_coins p tip k) /\ reads tip t') as (t' & -> & Ht').
  { unfold mempool_GetCoins, lookupOutpoint, lookup, pool_coins. destruct (mapTx p !! k) as [e|]; [by exists t|]. cbn [fmap option_fmap option_map].
    destruct (AccessCoins_spec t k (proj1 Ht)) as (t' & E & Hr). exists t'. change (GetCoins t k) with (AccessCoins t k). rewrite E. split; [|by eapply reads_trans].
    f_equal. rewrite <- (reads_coins tip t k Ht). unfold coins_at, unspent. by destruct (view t k) as [x|]. }
  destruct (pool_coins p tip k) as [x|] eqn:Ex.
  - eexists. split; [reflexivity|]. assert (forall j, cache_map (with_cache c (<[k := mkEntry x false (IsPruned x)]> (cacheCoins c))) j = if decide (j = k) then Some x else cache_map c j) as Hm.
    { intros j. unfold cache_map, with_cache. cbn [cacheCoins]. destruct (decide (j = k)) as [->|Hne]; [by rewrite lookup_insert_eq | by rewrite lookup_insert_ne]. }
    split_and!; [split; cbn [fst snd] | | |]; try done.
    + intros j y. rewrite Hm. destruct (decide (j = k)) as [->|]; [by intros [= <-] | apply Hc].
    + intros j y Hj. cbn [fst] in *. rewrite Hm. destruct (decide (j = k)) as [->|]; [congruence | done].
    + cbn [fst]. rewrite Hm. by rewrite decide_True.
  - exists (c, t'). split; [done|]. split_and!; [by split | by intros j y | exact Hnone | done].
Qed.

Lemma cache_grows_trans a b c : cache_grows a b -> cache_grows b c -> cache_grows a c.
Proof. intros H1 H2 k x Hk. by apply H2, H1. Qed.



Lemma pool_HaveCoins_spec av k : av_ok av ->
  exists av' b, pool_HaveCoins p av k = (av', b) /\ av_ok av' /\ cache_hashBlock av'.1 = cache_hashBlock av.1 /\ (mapTx p !! k = None -> b = false -> pool_coins p tip k = None).
Proof.
  intros Hav. unfold pool_HaveCoins. destruct (pool_FetchCoins_spec av k Hav) as (av' & -> & Hav' & _ & _ & Hb). eexists _, _. split; [reflexivity|]. split; [done|]. split; [done|].
  intros Hk. unfold pool_coins. rewrite Hk. unfold coins_at, unspent. destruct (view tip k) as [c|]; [|done]. destruct (IsPruned c) eqn:Ep; [done|].
  intros H. apply negb_false_iff, Nat.eqb_eq, nil_length_inv in H. unfold IsPruned in Ep. by rewrite H in Ep.
Qed.

Lemma pool_have_all_spec ins : forall av, av_ok av -> exists av' b, pool_have_all p av ins = (av', b) /\ av_ok av' /\ cache_hashBlock av'.1 = cache_hashBlock av.1.
Proof.
  induction ins as [|x ins IH]; intros av Hav; cbn [pool_have_all]; [by exists av, true|].
  destruct (pool_HaveCoins_spec av (prev_hash (prevout x)) Hav) as (av1 & b & -> & Hav1 & Hb1 & _). destruct b; cbn [negb]; [|by exists av1, false].
  destruct (IH av1 Hav1) as (av2 & b & -> & Hav2 & Hb2). exists av2, b. split_and!; congruence.
Qed.

Lemma pool_have_inputs_spec ins : forall av, av_ok av ->
  exists (av' : pool_view_state) b, pool_have_inputs p av ins = (av', b) /\ av_ok av' /\ cache_grows av av' /\ cache_hashBlock av'.1 = cache_hashBlock av.1 /\
    (b = true -> exists outs, Forall2 (fun i o => coin_output (cache_map av'.1) i = Some o) ins outs).
Proof.
  induction ins as [|x ins IH]; intros av Hav; cbn [pool_have_inputs]; [exists av, true; split_and!; try done; intros _; exists []; constructor|].
  destruct (pool_FetchCoins_spec av (prev_hash (prevout x)) Hav) as (av1 & -> & Hav1 & Hg1 & Hc & Hb1). destruct (pool_coins p tip _) as [c|] eqn:Ec; [|exists av1, false; by split_and!].
  destruct (IsAvailable c _) eqn:Ea; [|exists av1, false; by split_and!]. destruct (IH av1 Hav1) as (av2 & b & -> & Hav2 & Hg2 & Hb2 & Ho). exists av2, b.
  split_and!; [done | done | by eapply cache_grows_trans | congruence|]. intros Hb. destruct (Ho Hb) as [outs Houts]. unfold IsAvailable in Ea. destruct (coins_vout c !! _) as [o|] eqn:El; [|done].
  exists (o :: outs). constructor; [|done]. unfold coin_output. rewrite (Hg2 _ _ Hc). unfold IsAvailable. by rewrite El, Ea.
Qed.

Lemma pool_value_in_spec ins outs : forall (av : pool_view_state) n, av_ok av -> Forall2 (fun i o => coin_output (cache_map av.1) i = Some o) ins outs ->
  yields (fun r => r = (av, n + total_value outs)) (pool_value_in p av ins n).
Proof.
  revert outs. induction ins as [|x ins IH]; intros outs av n Hav H; cbn [pool_value_in].
  { inversion H; subst. cbn. by rewrite Z.add_0_r. }
  apply Forall2_cons_inv_l in H as (o & outs' & Ho & H & ->). destruct (coin_output_available _ _ _ Ho) as (c & Hc & Ha & Hl). destruct av as [ca t].
  unfold cache_map in Hc. cbn [fst] in Hc. unfold pool_FetchCoins. destruct (cacheCoins ca !! _) as [e|] eqn:Ee; [|done]. injection Hc as ->. cbn [oaccess obind]. rewrite Ha. cbn [oassert obind]. rewrite Hl. cbn [oaccess obind].
  apply yields_any. intros m Em. unfold amount_add in Em. destruct (_ && _) in Em; cbn [oassert obind] in Em; [|done]. injection Em as <-.
  pose proof (IH outs' (ca, t) (n + nValue o) Hav H) as Hr. destruct (pool_value_in _ _ _ _); try done. cbn in Hr |- *. rewrite Hr. unfold total_value. cbn [foldr]. f_equal. lia.
Qed.

Lemma pool_GetBestBlock_spec av : av_ok av ->
  av_ok (pool_GetBestBlock av) /\ cache_map (pool_GetBestBlock av).1 = cache_map av.1 /\ (cache_hashBlock (pool_GetBestBlock av).1 : list Z) = best tip.
Proof.
  destruct av as [c t]. intros [Ht Hc Hb]. cbn [fst snd] in *. unfold pool_GetBestBlock. case_bool_decide as E.
  - pose proof (GetBestBlock_reads t (proj1 Ht)) as Hr. pose proof (reads_best _ _ Ht) as Hbt. destruct (GetBestBlock t) as [t' h]. cbn [fst snd] in *. split; [|by rewrite Hbt].
    split; cbn [fst snd]; [by eapply reads_trans | done | right; by rewrite Hbt].
  - destruct Hb as [Hb|Hb]; [done|]. split_and!; [split; [done | done | by right] | done | done].
Qed.
End Backed.

(** ** The view cut off from its backend *)

Section Frozen.
Context {SH : ScriptHashes}.
Variable c : CCoinsViewCache.
Abbreviation frozen := (ViewCache c dummy_view).

Lemma frozen_access k : AccessCoins frozen k = (frozen, cache_map c k).
Proof. unfold AccessCoins, cache_map. cbn [FetchCoins]. by destruct (cacheCoins c !! k). Qed.

Lemma frozen_best : GetBestBlock frozen = (frozen, cache_hashBlock c).
Proof. destruct c as [m h b]. cbn [GetBestBlock cache_hashBlock]. case_bool_decide as E; [|done]. by rewrite E. Qed.

Lemma frozen_output i : yields (fun r => r.1 = frozen /\ coin_output (cache_map c) i = Some r.2) (GetOutputFor frozen i).
Proof.
  unfold GetOutputFor, coin_output. rewrite frozen_access. destruct (cache_map c _) as [cs|]; cbn [oaccess obind]; [|done]. destruct (IsAvailable _ _); cbn [oassert obind]; [|done].
  by destruct (coins_vout cs !! _).
Qed.

Lemma frozen_have ins : have_inputs frozen ins = (frozen, forallb (fun i => bool_decide (is_Some (coin_output (cache_map c) i))) ins).
Proof.
  induction ins as [|i ins IH]; [done|]. cbn [have_inputs forallb]. rewrite frozen_access. destruct (coin_output (cache_map c) i) as [o|] eqn:E.
  - destruct (coin_output_available _ _ _ E) as (cs & -> & -> & _). rewrite bool_decide_eq_true_2 by eauto. by rewrite IH.
  - rewrite bool_decide_eq_false_2 by (by intros []). unfold coin_output in E. destruct (cache_map c _) as [cs|]; [|done].
    unfold IsAvailable in E |- *. destruct (coins_vout cs !! _); [|done]. by destruct (negb _).
Qed.

Lemma frozen_p2sh tx : yields (fun r => r.1 = frozen) (GetP2SHSigOpCount frozen tx).
Proof.
  unfold GetP2SHSigOpCount. destruct (IsCoinBase tx); [done|]. generalize 0. induction (vin tx) as [|i ins IH]; intros n; [done|]. cbn [add_p2sh_sigops].
  eapply yields_bind; [apply frozen_output|]. intros [v o] [Hv _]. cbn [fst] in Hv. subst v. apply yields_any. intros m _. apply IH.
Qed.

Lemma frozen_inputs_standard ins : yields (fun r => r.1 = frozen) (inputs_standard frozen ins).
Proof.
  induction ins as [|i ins IH]; [done|]. cbn [inputs_standard]. eapply yields_bind; [apply frozen_output|]. intros [v o] [Hv _]. cbn [fst] in Hv. subst v.
  apply yields_any. intros r _. destruct (negb _); [done|]. destruct (_ <? 0); [done|]. destruct (EvalScript _ _ _ _) as [stack| | |]; try done. cbv zeta.
  assert (forall n, yields (fun r => r.1 = frozen) (if negb (zlen stack =? u32 n) then Ret (frozen, false) else inputs_standard frozen ins)) as H by (intros n; by destruct (negb _)).
  case_bool_decide; [by destruct (negb (vault_argument stack))|]. case_bool_decide; [|apply H]. destruct stack as [|s stack]; [done|]. apply yields_any. intros r2 _.
  destruct (fr_ok r2); [by destruct (_ <? 0)|]. apply yields_any. by intros k _.
Qed.

Lemma frozen_standard tx : yields (fun r => r.1 = frozen) (AreInputsStandard frozen tx).
Proof. unfold AreInputsStandard. destruct (IsCoinBase tx); [done | apply frozen_inputs_standard]. Qed.

Lemma frozen_priority tx h : yields (fun r => r.1 = frozen) (coins_GetPriority frozen tx h).
Proof.
  unfold coins_GetPriority. destruct (_ || _); [done|]. eapply (yields_bind (fun r => r.1 = frozen)); [|by intros [v d] Hv].
  generalize (double_of 0). induction (vin tx) as [|i ins IH]; intros d; [done|]. cbn [coins_priority]. rewrite frozen_access.
  apply yields_any. intros cs _. destruct (negb _); [apply IH|]. destruct (_ <? h); [|apply IH]. apply yields_any. intros o _. apply yields_any. intros n _. apply IH.
Qed.

Variable Verify : CPubKey -> base_uint -> valtype -> bool.
Variables (maxMoney maturity : Z).
Variable heap : index_heap.
Variable blockIndexMap : gmap (list Z) positive.

Abbreviation found ins outs := (Forall2 (fun i o => coin_output (cache_map c) i = Some o) ins outs).

Lemma frozen_values h st ins : forall outs acc, found ins outs ->
  yields (fun '(v', r, acc') => v' = frozen /\ (r.1 = true -> r.2 = st /\ acc' = acc + total_value outs /\ Forall (fun o => 0 <= nValue o <= maxMoney) outs /\
      Forall (fun i => coin_immature maturity h (cache_map c) i = false) ins))
    (check_values maxMoney maturity frozen ins h acc st).
Proof.
  induction ins as [|i ins IH]; intros outs acc H.
  { inversion H; subst. split; [done|]. intros _. split; [done|]. split; [cbn; lia | split; constructor]. }
  apply Forall2_cons_inv_l in H as (o & outs' & Ho & H & ->). cbn [check_values]. rewrite frozen_access.
  destruct (coin_output_available _ _ _ Ho) as (cs & Hc & _ & Hl). rewrite Hc. cbn [oaccess obind].
  assert (Ei : coin_immature maturity h (cache_map c) i = (fCoinBase cs || fCoinStake cs) && (h - coins_nHeight cs <? maturity)) by (unfold coin_immature; by rewrite Hc).
  rewrite <- Ei. destruct (coin_immature _ _ _ _) eqn:Em; [by split|]. rewrite Hl. cbn [oaccess obind]. apply yields_any. intros n En.
  unfold amount_add in En. destruct (_ && _) in En; cbn [oassert obind] in En; [|done]. injection En as <-.
  destruct (MoneyRange (nValue o) maxMoney) eqn:E1; cbn [negb orb]; [|by split]. destruct (MoneyRange (acc + nValue o) maxMoney); cbn [negb]; [|by split].
  pose proof (IH outs' (acc + nValue o) H) as Hrec. destruct (check_values maxMoney maturity frozen ins h (acc + nValue o) st) as [[[v2 r] acc']| | |]; try done.
  destruct Hrec as [H1 H2]. split; [done|]. intros Hok. destruct (H2 Hok) as (? & -> & Hall & Hmat). split; [done|]. split; [unfold total_value; cbn [foldr]; lia|].
  split; [constructor; [by apply MoneyRange_iff | done] | by constructor].
Qed.

Lemma frozen_scripts tx flags cache st outs : forall k, found (drop k (vin tx)) outs ->
  yields (fun '(v', r, _) => v' = frozen /\ (r.1 = true -> r.2 = st /\ Forall (fun x => passes Verify x = true) (checks_of tx flags cache k outs)))
    (check_scripts Verify frozen tx (seq k (length outs)) flags cache None st).
Proof.
  induction outs as [|o outs IH]; intros k H; [by split; [|intros _; split; [|constructor]]|].
  destruct (drop k (vin tx)) as [|i rest] eqn:E; [by inversion H|]. apply Forall2_cons in H as [Ho H].
  assert (Hi : vin tx !! k = Some i) by (rewrite <-(Nat.add_0_r k), <-lookup_drop, E; done).
  assert (drop (S k) (vin tx) = rest) as Hd by (by apply drop_S in Hi; rewrite E in Hi; injection Hi).
  destruct (coin_output_available _ _ _ Ho) as (cs & Hc & _ & Hl). cbn [length seq check_scripts]. rewrite Hi. cbn [oaccess obind]. rewrite frozen_access, Hc. cbn [oaccess obind].
  unfold CScriptCheck_of at 1. rewrite Hi. cbn [oaccess obind]. rewrite Hl. cbn [oaccess obind]. apply yields_any. intros ok Eok. destruct ok; cbn [negb].
  - rewrite <- Hd in H. pose proof (IH (S k) H) as Hr. destruct (check_scripts _ _ _ _ _ _ _ _) as [[[v' r] q]| | |]; try done. destruct Hr as [Hv Hr]. split; [done|]. intros Ht. destruct (Hr Ht) as [Hst Hp].
    split; [done|]. rewrite checks_of_cons. constructor; [|done]. unfold passes. by rewrite Eok.
  - apply yields_any. intros [] _; by split.
Qed.

(** What [CheckInputs] over the cut off view has checked when it succeeds. *)
Record frozen_accepted (tx : CMutableTransaction) (out fees : CAmount) (flags : Z) (outs : list CTxOut) : Prop := mkFrozenAccepted {
  fa_found : found (vin tx) outs;
  fa_range : Forall (fun o => 0 <= nValue o <= maxMoney) outs;
  fa_fee : 0 <= total_value outs - out /\ fees = total_value outs - out;
  fa_mature : exists p b, blockIndexMap !! (cache_hashBlock c : list Z) = Some p /\ heap !! p = Some b /\ Forall (fun i => coin_immature maturity (nHeight b + 1) (cache_map c) i = false) (vin tx);
  fa_scripts : Forall (fun x => passes Verify x = true) (checks_of tx flags true 0 outs)
}.

Lemma frozen_CheckInputs tx st out flags : IsCoinBase tx = false -> IsCoinStake tx = false -> GetValueOut tx = Ret out ->
  yields (fun r => ci_view r = frozen /\ ((ci_result r).1 = true -> (ci_result r).2 = st /\ exists outs, frozen_accepted tx out (ci_nFees r) flags outs))
    (CheckInputs Verify maxMoney maturity heap blockIndexMap tx st frozen 0 0 true flags true None false).
Proof.
  intros Hcb Hcs Hout. unfold CheckInputs. rewrite Hcb. unfold HaveInputs. rewrite Hcb. cbn [negb]. rewrite frozen_have.
  destruct (forallb _ (vin tx)) eqn:Eh; cbn [negb]; [|done].
  assert (exists outs, found (vin tx) outs) as [outs Hf].
  { clear -Eh. induction (vin tx) as [|i ins IH]; [exists []; constructor|]. cbn [forallb] in Eh. apply andb_prop in Eh as [[o Ho]%bool_decide_eq_true Eh]. destruct (IH Eh) as [outs H]. exists (o :: outs). by constructor. }
  rewrite frozen_best. apply yields_any. intros bi Hbi. eapply yields_bind; [by apply frozen_values|]. intros [[v [ok st']] acc] [-> Hv]. cbn [fst snd] in Hv. destruct ok; cbn [negb]; [|done].
  destruct (Hv eq_refl) as (-> & -> & Hr & Hm). rewrite Z.add_0_l. unfold tally_fees. rewrite Hcs, Hout. cbn [negb obind]. destruct (Z.ltb_spec (total_value outs) out); [done|].
  destruct (Z.ltb_spec (total_value outs - out) 0); [done|]. destruct (amount_add 0 _) as [n| | |] eqn:En; cbn [obind]; try done. unfold amount_add in En. destruct (_ && _) in En; cbn [oassert obind] in En; [|done]. injection En as <-.
  destruct (negb (MoneyRange _ _)); cbn [obind negb]; [done|]. rewrite (Forall2_length _ _ _ Hf). eapply yields_bind; [apply frozen_scripts; by rewrite drop_0|].
  intros [[v r] q] [-> Hs]. split; [done|]. cbn [ci_result ci_nFees]. intros Ht. destruct (Hs Ht) as [-> Hp]. split; [done|]. exists outs. split; try done.
  unfold deref in Hbi. destruct (blockIndexMap !! _) as [q'|] eqn:Eq; [|done]. cbn [oaccess obind] in Hbi. destruct (heap !! q') as [b|] eqn:Eb; [|done]. injection Hbi as <-. by exists q', b.
Qed.
End Frozen.

Lemma amount_add_inv a b n : amount_add a b = Ret n -> n = a + b.
Proof. unfold amount_add. destruct (_ && _); cbn [oassert obind]; [by intros [= <-] | done]. Qed.

Lemma found_unique (f : list Z -> option CCoins) ins outs outs' :
  Forall2 (fun i o => coin_output f i = Some o) ins outs -> Forall2 (fun i o => coin_output f i = Some o) ins outs' -> outs' = outs.
Proof.
  intros H. revert outs'. induction H as [|i o ins outs Ho H IH]; intros outs' H'; inversion H' as [|? o' ? l' Ho' Hl']; subst; [done|]. f_equal; [congruence | by apply IH].
Qed.

(** Adding changes the transactions by the new entry. *)
Lemma addUnchecked_mapTx fA fS p hash e v p' : addUnchecked fA fS p hash e v = Ret p' -> mapTx p' = <[hash := e]> (mapTx p).
Proof.
  unfold addUnchecked. cbv zeta. set (p1 := with_transactions _ _ _ _ _ _). intros E.
  assert (exists p2, (if fA then addAddressIndex p1 e v else Ret p1) = Ret p2 /\ mapTx p2 = mapTx p1) as (p2 & E2 & Hm).
  { destruct fA; [|by exists p1]. destruct (addAddressIndex p1 e v) as [p2| | |] eqn:E2; try done. exists p2. split; [done|]. by destruct (addAddressIndex_spec _ _ _ _ E2) as [(m & i & ->) _]. }
  rewrite E2 in E. cbn [obind] in E. destruct fS; [|by injection E as <-]. by destruct (addSpentIndex_form _ _ _ _ E) as (m & i & ->).
Qed.

(** ** [AcceptToMemoryPool] *)

Section Accept.
Context {SH : ScriptHashes}.
Variable Verify : CPubKey -> base_uint -> valtype -> bool.
Variables (maxMoney maturity : Z).
Variable heap : index_heap.
Variable blockIndexMap : gmap (list Z) positive.
Variables (chainHeight adjustedTime nNow : Z).
Variables (requireStandard fIsBareMultisigStd relayPriority : bool) (nMaxDatacarrierBytes limitFreeRelay : Z).
Variable relay : CFeeRate.
Variable pow : double -> double -> double.
Variables fAddressIndex_ fSpentIndex_ : bool.

Abbreviation accept_inputs := (accept_with_inputs Verify maxMoney maturity heap blockIndexMap chainHeight nNow requireStandard relayPriority limitFreeRelay relay pow fAddressIndex_ fSpentIndex_).
Abbreviation accept := (AcceptToMemoryPool Verify maxMoney maturity heap blockIndexMap chainHeight adjustedTime nNow requireStandard fIsBareMultisigStd relayPriority nMaxDatacarrierBytes limitFreeRelay relay pow fAddressIndex_ fSpentIndex_).

(** The fee is enough, or the transaction may pay less. *)
Definition fee_enough (p : CTxMemPool) (fLimitFree ignoreFees : bool) (e : CTxMemPoolEntry) : Prop :=
  ignoreFees = false -> fLimitFree = true -> entry_nFee e < GetFee relay (u32 (nTxSize e)) -> TxShouldBePrioritized p (tx_hash (entry_tx e)) (u32 (nTxSize e)) = Ret true.

Lemma fees_acceptable p tx n fees h lf c st l :
  yields (fun '(v, r, _) => v = ViewCache c dummy_view /\ (r.1 = true -> r.2 = st /\ (lf = true -> fees < GetFee relay n -> TxShouldBePrioritized p (tx_hash tx) n = Ret true)))
    (CheckFeesPaidAreAcceptable pow nNow limitFreeRelay relay relayPriority p tx n fees h lf (ViewCache c dummy_view) st l).
Proof.
  unfold CheckFeesPaidAreAcceptable. cbv zeta. destruct (TxShouldBePrioritized p (tx_hash tx) n) as [b| | |] eqn:Eb; cbn [obind]; try done.
  destruct (lf && negb b && (fees <? GetFee relay n)) eqn:E; [by split|].
  assert (Hp : lf = true -> fees < GetFee relay n -> Ret b = (Ret true : io bool)).
  { intros -> H. destruct b; [done|]. cbn [andb negb] in E. rewrite (proj2 (Z.ltb_lt _ _) H) in E. done. }
  eapply (yields_bind (fun r => r.1 = ViewCache c dummy_view)).
  { destruct (relayPriority && _); [|done]. eapply yields_bind; [apply frozen_priority|]. by intros [v d] Hv. }
  intros [v u] Hv. cbn [fst] in Hv. subst v. destruct u; [by split|]. destruct (lf && (fees <? GetFee relay n)); [|done].
  destruct (RateLimiterAllowsFreeTransaction _ _ _ _ _ _) as [[[ok st'] l']| | |] eqn:Er; cbn [obind]; try done. split; [done|]. cbn [fst snd]. intros ->. split; [|done].
  unfold RateLimiterAllowsFreeTransaction in Er. cbv zeta in Er. destruct (amount_add nNow _); cbn [obind] in Er; try done. destruct (amount_mul limitFreeRelay _) as [lim| | |]; cbn [obind] in Er; try done.
  destruct (amount_mul lim _); cbn [obind] in Er; try done. destruct (SFleb _ _); [done|]. by injection Er as <- _.
Qed.

Lemma accept_inputs_spec p tx outs c st lf ig tip l : IsCoinBase (tx_body tx) = false -> IsCoinStake (tx_body tx) = false ->
  Forall2 (fun i o => coin_output (cache_map c) i = Some o) (vin (tx_body tx)) outs ->
  yields (fun r => ac_tip r = tip /\ (ac_ok r = false -> ac_pool r = p) /\
      (ac_ok r = true -> exists e out, entry_tx e = tx /\ GetValueOut (tx_body tx) = Ret out /\ entry_nFee e = total_value outs - out /\ fee_enough p lf ig e /\
        addUnchecked fAddressIndex_ fSpentIndex_ p (tx_hash tx) e (ViewCache c dummy_view) = Ret (ac_pool r) /\
        exists fees, frozen_accepted c Verify maxMoney maturity heap blockIndexMap (tx_body tx) out fees STANDARD_SCRIPT_VERIFY_FLAGS outs /\
          frozen_accepted c Verify maxMoney maturity heap blockIndexMap (tx_body tx) out fees MANDATORY_SCRIPT_VERIFY_FLAGS outs))
    (accept_inputs p tx (total_value outs) (ViewCache c dummy_view) st lf ig tip l).
Proof.
  intros Hcb Hcs Hf. unfold accept_with_inputs. eapply (yields_bind (fun r => r.1 = ViewCache c dummy_view)); [destruct requireStandard; [apply frozen_standard | done]|].
  intros [v std] Hv. cbn [fst] in Hv. subst v. destruct (negb std); [done|]. apply yields_any. intros n _. eapply yields_bind; [apply frozen_p2sh|]. intros [v n'] Hv. cbn [fst] in Hv. subst v. cbv zeta.
  destruct (_ >? _); [done|]. destruct (GetValueOut (tx_body tx)) as [out| | |] eqn:Eout; cbn [obind]; try done. destruct (amount_add _ _) as [fee| | |] eqn:Ea; cbn [obind]; try done. apply amount_add_inv in Ea.
  eapply yields_bind; [apply frozen_priority|]. intros [v d] Hv. cbn [fst] in Hv. subst v. set (e := CTxMemPoolEntry_of _ _ _ _ _).
  eapply (yields_bind (fun '(v, r, _) => v = ViewCache c dummy_view /\ (r.1 = true -> r.2 = st /\ fee_enough p lf ig e))).
  { destruct ig; cbn [negb]; [by split|]. pose proof (fees_acceptable p tx (u32 (nTxSize e)) fee chainHeight lf c st l) as H.
    destruct (CheckFeesPaidAreAcceptable _ _ _ _ _ _ _ _ _ _ _ _ _ _) as [[[v r] l']| | |]; try done. destruct H as [Hv H]. split; [done|]. intros Ht. destruct (H Ht) as [-> H']. split; [done|]. by intros _. }
  intros [[v [ok st1]] l1] [-> H]. cbn [fst snd] in H. destruct ok; cbn [negb]; [|done]. destruct (H eq_refl) as [-> Hfee]. clear H.
  eapply yields_bind; [by apply frozen_CheckInputs|]. intros r [Hv H]. destruct ((ci_result r).1); cbn [negb]; [|done]. destruct (H eq_refl) as (-> & outs1 & H1). clear H. rewrite Hv.
  eapply yields_bind; [by apply frozen_CheckInputs|]. intros r' [Hv' H]. destruct ((ci_result r').1); cbn [negb]; [|done]. destruct (H eq_refl) as (_ & outs2 & H2). clear H. rewrite Hv'.
  pose proof (found_unique _ _ _ _ Hf (fa_found _ _ _ _ _ _ _ _ _ _ _ H1)) as ->. pose proof (found_unique _ _ _ _ Hf (fa_found _ _ _ _ _ _ _ _ _ _ _ H2)) as ->.
  apply yields_any. intros p' Ep. cbn [ac_tip ac_ok ac_pool]. split; [done|]. split; [done|]. intros _. exists e, out. split_and!; [done | done | cbn [e CTxMemPoolEntry_of entry_nFee]; lia | done | done|].
  exists (ci_nFees r). split; [done|]. replace (ci_nFees r) with (ci_nFees r'); [done|]. destruct (fa_fee _ _ _ _ _ _ _ _ _ _ _ H1), (fa_fee _ _ _ _ _ _ _ _ _ _ _ H2). lia.
Qed.

(** What holds of a transaction that the pool takes in, as the entry [e]. *)
Record admission (p : CTxMemPool) (tip : CCoinsView) (tx : CTransaction) (fLimitFree ignoreFees : bool) (e : CTxMemPoolEntry) (out : CAmount) (outs : list CTxOut) : Prop := mkAdmission {
  ad_entry : entry_tx e = tx;
  ad_valid : tx_valid maxMoney (tx_body tx) /\ IsCoinBase (tx_body tx) = false /\ IsCoinStake (tx_body tx) = false;
  ad_standard : requireStandard = true -> IsStandardTx relay chainHeight adjustedTime fIsBareMultisigStd nMaxDatacarrierBytes (tx_body tx) = Ret None;
  ad_new : admissible p (tx_hash tx) e /\ coins_at tip (tx_hash tx) = None;
  ad_found : Forall2 (fun i o => pool_output p tip i = Some o) (vin (tx_body tx)) outs;
  ad_range : Forall (fun o => 0 <= nValue o <= maxMoney) outs;
  ad_fee : GetValueOut (tx_body tx) = Ret out /\ entry_nFee e = total_value outs - out /\ 0 <= entry_nFee e /\ fee_enough p fLimitFree ignoreFees e;
  ad_mature : exists q b, blockIndexMap !! best tip = Some q /\ heap !! q = Some b /\ Forall (fun i => coin_immature maturity (nHeight b + 1) (pool_coins p tip) i = false) (vin (tx_body tx));
  ad_scripts : forall flags, flags = STANDARD_SCRIPT_VERIFY_FLAGS \/ flags = MANDATORY_SCRIPT_VERIFY_FLAGS ->
    Forall (fun x => passes Verify x = true) (checks_of (tx_body tx) flags true 0 outs)
}.

Hypothesis max_moderate : 0 <= maxMoney < 2 ^ 62.

Lemma accept_cases p st tx lf ig tip l r : view_ok tip -> accept p st tx lf ig tip l = Ret r ->
  reads tip (ac_tip r) /\ (ac_ok r = false -> ac_pool r = p) /\
  (ac_ok r = true -> exists e out outs v, admission p tip tx lf ig e out outs /\ addUnchecked fAddressIndex_ fSpentIndex_ p (tx_hash tx) e v = Ret (ac_pool r)).
Proof.
  intros Hok. pose proof (reads_refl tip Hok) as Hrefl. unfold AcceptToMemoryPool. cbv zeta. destruct (CheckTransaction_spec maxMoney max_moderate (tx_body tx) st) as ([ok st'] & -> & Hct). cbn [obind].
  destruct ok; cbn [negb]; [|by intros [= <-]]. destruct Hct as [[[= ->] Hvalid]|[[[=] _] _]].
  destruct (IsCoinBase (tx_body tx)) eqn:Ecb; [by intros [= <-]|]. destruct (IsCoinStake (tx_body tx)) eqn:Ecs; [by intros [= <-]|].
  destruct (nonstandard_reason _ _ _ _ _ _ _) as [reason| | |] eqn:Estd; cbn [obind]; try done. destruct reason; [by intros [= <-]|].
  destruct (pool_exists p (tx_hash tx)) eqn:Eex; [by intros [= <-]|]. destruct (existsb _ _) eqn:Ecf; [by intros [= <-]|].
  assert (Hav0 : av_ok p tip (mkCache ∅ uint256_null false, tip)) by (split; [done | by intros k c Hk | by left]).
  assert (Hnew : mapTx p !! (tx_hash tx : list Z) = None).
  { unfold pool_exists in Eex. case_bool_decide as H; [done|]. by apply eq_None_not_Some. }
  destruct (pool_HaveCoins_spec p tip _ (tx_hash tx) Hav0) as (av1 & known & -> & Hav1 & _ & Hunk). destruct known; [intros [= <-]; split; [apply Hav1 | done]|]. specialize (Hunk Hnew eq_refl).
  destruct (pool_have_all_spec p tip (vin (tx_body tx)) av1 Hav1) as (av2 & have & -> & Hav2 & _). destruct have; cbn [negb]; [|intros [= <-]; split; [apply Hav2 | done]].
  destruct (pool_have_inputs_spec p tip (vin (tx_body tx)) av2 Hav2) as (av3 & avail & -> & Hav3 & _ & _ & Hf). destruct avail; cbn [negb]; [|intros [= <-]; split; [apply Hav3 | done]].
  destruct (Hf eq_refl) as [outs Houts]. clear Hf. destruct (pool_GetBestBlock_spec p tip av3 Hav3) as (Hav4 & Hcm & Hbest). rewrite <- Hcm in Houts. set (av4 := pool_GetBestBlock av3) in *.
  pose proof (pool_value_in_spec p tip (vin (tx_body tx)) outs av4 0 Hav4 Houts) as Hval. destruct (pool_value_in _ _ _ _) as [[av5 n]| | |]; cbn [obind]; try done. cbn in Hval. injection Hval as -> ->.
  destruct av4 as [c t]. cbn [fst snd] in *. destruct Hav4 as [Ht Hc _]. cbn [fst snd] in *. intros E.
  eapply yields_ret in E; [|by apply accept_inputs_spec]. destruct E as (-> & Hno & Hyes). split; [done|]. split; [done|]. intros Hok'.
  destruct (Hyes Hok') as (e & out & He & Hout & Hfee & Hen & Hadd & fees & [F1 F2 F3 F4 F5] & [_ _ _ _ G5]). exists e, out, outs, (ViewCache c dummy_view). split; [|done]. split; try done.
  - intros ->. unfold nonstandard_reason in Estd. done.
  - split; [|unfold pool_coins in Hunk; by rewrite Hnew in Hunk]. unfold admissible. rewrite He. split_and!; [done | done | apply Hvalid|].
    intros i Hi. apply not_existsb in Ecf. rewrite Forall_forall in Ecf. specialize (Ecf i Hi). cbn beta in Ecf. case_bool_decide as H; [done|]. by apply eq_None_not_Some.
  - eapply Forall2_impl; [exact Houts|]. intros i o H. cbn beta in H. by eapply coin_output_mono.
  - split_and!; try done. rewrite Hfee. apply F3.
  - destruct F4 as (q & b & Hq & Hb & Hm). exists q, b. rewrite <- Hbest. split; [done|]. split; [done|]. rewrite Forall_forall in Hm |- *. intros i Hi. specialize (Hm i Hi).
    apply list_elem_of_lookup_1 in Hi as [j Hj]. destruct (Forall2_lookup_l _ _ _ _ _ Houts Hj) as (o & _ & Ho). destruct (coin_output_available _ _ _ Ho) as (cs & Hcs & _).
    unfold coin_immature in Hm |- *. rewrite Hcs in Hm. by rewrite (Hc _ _ Hcs).
  - intros flags [->| ->]; done.
Qed.

(** C14: [AcceptToMemoryPool] leaves the pool and the coins it shows as they were when
    it refuses (the counter of the rate limiter may have moved); when it
    accepts, the transaction is valid by itself, new to the pool and the chain,
    spends nothing that the pool spends, each of its inputs refers to an output of
    the pool or an unspent output of the chain that is in range and, if a stake made
    it, mature, the scripts pass under the standard and under the mandatory flags,
    the fee it is entered with is what the inputs exceed the outputs by and is not
    negative nor, unless it may be, below the relay fee; and the pool is the old one
    with the transaction under its hash, with all its indices consistent. *)
Theorem memory_pool_accepts p st tx lf ig tip l r : pool_ok p -> view_ok tip -> accept p st tx lf ig tip l = Ret r ->
  reads tip (ac_tip r) /\ (ac_ok r = false -> ac_pool r = p) /\
  (ac_ok r = true -> exists e out outs, admission p tip tx lf ig e out outs /\ mapTx (ac_pool r) = <[(tx_hash tx : list Z) := e]> (mapTx p) /\ pool_ok (ac_pool r)).
Proof.
  intros Hp Hok E. destruct (accept_cases p st tx lf ig tip l r Hok E) as (H1 & H2 & H3). split; [done|]. split; [done|]. intros Ht. destruct (H3 Ht) as (e & out & outs & v & Ha & Hadd).
  exists e, out, outs. split; [done|]. split; [by eapply addUnchecked_mapTx|]. eapply addUnchecked_ok; [apply Ha | done | done].
Qed.
End Accept.

(** ** A transaction that is accepted *)

Definition flat_pow (_ _ : double) : double := double_of 1.
Definition sample_relay : CFeeRate := 1000.

Definition sample_accept (p : CTxMemPool) (tx : CTransaction) (tip : CCoinsView) (l : free_limiter) : io accept_result :=
  AcceptToMemoryPool no_signatures (10 ^ 9 * COIN) 20 sample_heap sample_block_map 119 1600000000 1600000000 false true false 83 15 sample_relay flat_pow true true
    p CValidationState_new tx true false tip l.

Lemma memory_pool_accepts_witness : exists r, sample_accept CTxMemPool_new sample_spend (ViewDB sample_db) (mkLimiter (double_of 0) 0) = Ret r /\
  ac_ok r = true /\ exists e, mapTx (ac_pool r) !! [9] = Some e /\ entry_nFee e = 0 /\ pool_ok (ac_pool r).
Proof.
  destruct (sample_accept CTxMemPool_new sample_spend (ViewDB sample_db) (mkLimiter (double_of 0) 0)) as [r| | |] eqn:E; [|vm_compute in E; discriminate..].
  assert (ac_ok r = true) as Ht by (vm_compute in E; injection E as <-; reflexivity). exists r. split; [reflexivity|]. split; [exact Ht|].
  destruct (memory_pool_accepts no_signatures (10 ^ 9 * COIN) 20 sample_heap sample_block_map 119 1600000000 1600000000 false true false 83 15 sample_relay flat_pow true true
    ltac:(vm_compute; split; [discriminate | reflexivity]) CTxMemPool_new CValidationState_new sample_spend true false (ViewDB sample_db) (mkLimiter (double_of 0) 0) r pool_new_ok sample_db_ok E)
    as (_ & _ & H). destruct (H Ht) as (e & out & outs & Ha & Hm & Hok). exists e. split; [rewrite Hm; apply lookup_insert_eq|]. split; [|exact Hok].
  destruct Ha as [_ _ _ _ Hf _ (Hout & -> & _) _ _].
  vm_compute in Hout. injection Hout as <-. inversion Hf as [|i1 o1 l1 l1' H1 Hf1]; subst. inversion Hf1 as [|i2 o2 l2 l2' H2 Hf2]; subst. inversion Hf2; subst.
  vm_compute in H1, H2. injection H1 as <-. injection H2 as <-. reflexivity.
Defined.

(** ** Where the policy checks go wrong *)

Definition old_coins : CCoinsViewDB := mkDB {[ [1] := mkCoins false false [mkTxOut (10 ^ 7 * COIN) [81]; mkTxOut 5 [82]] 100000 1 ]} (of_uint64 8 11).

(** The product of value and age is an [int64_t]: ten million coins that are ten
    thousand blocks old overflow it. *)
Lemma priority_overflows : db_ok old_coins /\ coins_GetPriority (ViewDB old_coins) (tx_body sample_spend) 110000 = Undef /\ coins_GetPriority (ViewDB old_coins) (tx_body sample_spend) 109000 <> Undef.
Proof.
  split; [|split; [vm_compute; reflexivity | vm_compute; discriminate]]. apply (map_Forall_insert_2 _ ∅ [1]); [split; reflexivity | apply map_Forall_empty].
Qed.

Definition p2sh_out : CTxOut := mkTxOut 5 ([0xa9; 0x14] ++ repeat 7 20 ++ [0x87]).
Definition mixed_coins : CCoinsViewDB := mkDB {[ [1] := mkCoins false false [p2sh_out; mkTxOut 7 [82]] 100 1 ]} (of_uint64 8 11).
Definition p2sh_in : CTxIn := mkTxIn (mkOutPoint [1] 0) [1; 0x61] SEQUENCE_FINAL.
Definition odd_in : CTxIn := mkTxIn (mkOutPoint [1] 1) [] SEQUENCE_FINAL.

(** An input with a redeem script of no standard form ends the loop: what comes after
    it is not looked at. *)
Lemma inputs_standard_by_order :
  inputs_standard (ViewDB mixed_coins) [p2sh_in; odd_in] = Ret (ViewDB mixed_coins, true) /\ inputs_standard (ViewDB mixed_coins) [odd_in; p2sh_in] = Ret (ViewDB mixed_coins, false).
Proof. split; vm_compute; reflexivity. Qed.
