(* ===== verification/MempoolBacked.v ===== *)
(** * The memory pool extends the chain

    What [CTxMemPool::check] asserts of the inputs: each spends an output of the pool
    or an unspent output of the chain.  Accepting, removing, connecting a block and
    disconnecting one keep it so. *)

From Stdlib Require Import ZArith Lia Bool.
From stdpp Require Import base option numbers list gmap relations.
From S2P Require Import Prelude BaseUInt UInt256 Serialize Opcodes ScriptNum Script StackManager Interpreter Transaction Merkle Standard Coins CoinsCache CoinsUpdate Hashes SigHash BlockIndex Chain Subsidy Base58 MasternodeVotes Incentives Pow Validation IndexUpdates ConnectBlock Supply BlockChecks Disconnect BlockEffect FeeEstimator Mempool MempoolProps MempoolIndex MempoolAccept MempoolAcceptProps.

Open Scope Z_scope.
Open Scope outcome_scope.

(** [DisconnectTip]: the transactions of the block go back into the pool or out of it. *)
Section Resurrect.
Variable accept : CTxMemPool -> CTransaction -> CCoinsView -> free_limiter -> io accept_result.

Fixpoint resurrect (p : CTxMemPool) (blockTransactions : list CTransaction) (tip : CCoinsView) (l : free_limiter) : io (CTxMemPool * CCoinsView * free_limiter) :=
  match blockTransactions with
  | [] => Ret (p, tip, l)
  | tx :: txs =>
      let* '(ok, p, tip, l) :=
        if IsCoinBase (tx_body tx) || IsCoinStake (tx_body tx) then Ret (false, p, tip, l)
        else let* r := accept p tx tip l in Ret (ac_ok r, ac_pool r, ac_tip r, ac_limiter r) in
      let* p := if ok then Ret p else let* '(p, _) := remove p tx [] true in Ret p in
      resurrect p txs tip l
  end.
End Resurrect.

(** ** The invariant *)

Definition awaits (pend : list CTransaction) (i : CTxIn) : Prop := exists t, t ∈ pend /\ is_Some (made_by t i).

(** Every input of the pool spends an output of the pool, an unspent output of the
    chain, or an output of one of [pend]. *)
Definition backed_but (pend : list CTransaction) (p : CTxMemPool) (tip : CCoinsView) : Prop :=
  forall h e i, mapTx p !! h = Some e -> i ∈ ins_of e -> 0 <= prev_n (prevout i) /\ (is_Some (pool_output p tip i) \/ awaits pend i).

Definition pool_backed (p : CTxMemPool) (tip : CCoinsView) : Prop :=
  forall h e i, mapTx p !! h = Some e -> i ∈ ins_of e -> 0 <= prev_n (prevout i) /\ is_Some (pool_output p tip i).

Lemma backed_none p tip : backed_but [] p tip <-> pool_backed p tip.
Proof.
  split; intros H h e i He Hi; destruct (H h e i He Hi) as [Hn Ho]; (split; [done|]); [|by left]. destruct Ho as [Ho|(t & Ht & _)]; [done | by apply elem_of_nil in Ht].
Qed.

Lemma pool_output_in p tip i e : mapTx p !! (prev_hash (prevout i) : list Z) = Some e -> pool_output p tip i = coin_output (fun _ => Some (FromTx (tx_body (entry_tx e)) MEMPOOL_HEIGHT)) i.
Proof. intros H. unfold pool_output. apply coin_output_at. unfold pool_coins. by rewrite H. Qed.

Lemma pool_output_out p tip i : mapTx p !! (prev_hash (prevout i) : list Z) = None -> pool_output p tip i = output_at tip i.
Proof. intros H. unfold pool_output, coin_output, pool_coins, output_at. by rewrite H. Qed.

(** The entry that has the input spends an output of the parent. *)
Lemma spends_parent p h e i b : pool_ok p -> mapTx p !! h = Some e -> i ∈ ins_of e -> 0 <= prev_n (prevout i) -> is_Some (coin_output (fun _ => Some (FromTx b MEMPOOL_HEIGHT)) i) ->
  spends_output p (prev_hash (prevout i)) (length (vout b)) h.
Proof.
  intros Hp He Hi Hn [o Ho]. apply FromTx_bound in Ho. apply list_elem_of_lookup_1 in Hi as [j Hj]. exists (Z.to_nat (prev_n (prevout i))), j. split; [done|].
  exists e, i. split; [done|]. split; [done|]. rewrite Z2Nat.id by done. by destruct (prevout i).
Qed.

Lemma backed_same pend p p' tip tip' : mapTx p' = mapTx p -> (forall i, output_at tip' i = output_at tip i) -> backed_but pend p tip -> backed_but pend p' tip'.
Proof.
  intros Hm Ht H h e i He Hi. rewrite Hm in He. destruct (H h e i He Hi) as [Hn Ho]. split; [done|]. destruct Ho as [Ho|Ho]; [left | by right].
  destruct (mapTx p !! (prev_hash (prevout i) : list Z)) as [e'|] eqn:E.
  - rewrite (pool_output_in p' tip' i e') by congruence. by rewrite (pool_output_in p tip i e') in Ho.
  - rewrite pool_output_out by congruence. rewrite pool_output_out in Ho by done. by rewrite Ht.
Qed.

(** Taking out descendants with what they descend from. *)
Lemma backed_closed pend p p' tip : pool_ok p -> subpool p p' -> closed p p' -> backed_but pend p tip -> backed_but pend p' tip.
Proof.
  intros Hp Hs Hc H h e i He Hi. pose proof (subpool_lookup p p' h e Hs He) as He0. destruct (H h e i He0 Hi) as [Hn Ho]. split; [done|]. destruct Ho as [Ho|Ho]; [left | by right].
  destruct (mapTx p !! (prev_hash (prevout i) : list Z)) as [e'|] eqn:E.
  - rewrite (pool_output_in p tip i e') in Ho by done. destruct (mapTx p' !! (prev_hash (prevout i) : list Z)) as [e''|] eqn:E'.
    + rewrite (pool_output_in p' tip i e'') by done. pose proof (subpool_lookup p p' _ _ Hs E'). assert (e'' = e') as -> by congruence. done.
    + exfalso. pose proof (spends_parent p h e i _ Hp He0 Hi Hn Ho) as Hsp. assert (mapTx p' !! h = None); [|congruence]. apply (Hc (prev_hash (prevout i)) h); [by split; [exists e'|] | by exists e'].
  - rewrite pool_output_out in Ho by done. rewrite pool_output_out; [done|]. destruct (Hs (prev_hash (prevout i))); congruence.
Qed.

Lemma remove_backed pend p tip tx removed p' r : pool_ok p -> remove p tx removed true = Ret (p', r) -> backed_but pend p tip -> pool_ok p' /\ backed_but pend p' tip.
Proof.
  intros Hp E. destruct (remove_recursive p tx removed Hp) as (p1 & l & E1 & H1 & H2 & _ & _ & H3 & _). rewrite E1 in E. injection E as <- _. intros H. split; [done|]. by apply (backed_closed pend p).
Qed.

Lemma remove_all_backed txs tip : forall p p', pool_ok p -> remove_all p txs = Ret p' -> backed_but [] p tip -> pool_ok p' /\ backed_but [] p' tip.
Proof.
  induction txs as [|tx txs IH]; intros p p' Hp; cbn [remove_all]; [by intros [= <-]|]. destruct (remove p tx [] true) as [[p1 r]| | |] eqn:E; cbn [obind]; try done. intros E2 H.
  destruct (remove_backed _ _ _ _ _ _ _ Hp E H) as [Hp1 H1]. by apply (IH p1).
Qed.

(** ** A new transaction *)

Lemma backed_add pend p p' tip tx e : mapTx p' = <[(tx_hash tx : list Z) := e]> (mapTx p) -> entry_tx e = tx -> mapTx p !! (tx_hash tx : list Z) = None -> coins_at tip (tx_hash tx) = None ->
  Forall (fun i => 0 <= prev_n (prevout i) /\ is_Some (pool_output p tip i)) (vin (tx_body tx)) -> backed_but (tx :: pend) p tip -> backed_but pend p' tip.
Proof.
  intros Hm He Hnew Hunk Hins H.
  assert (forall i, is_Some (pool_output p tip i) -> is_Some (pool_output p' tip i)) as Hkeep.
  { intros i [o Ho]. exists o. eapply coin_output_mono; [|exact Ho]. intros k c. unfold pool_coins. rewrite Hm. destruct (decide (k = tx_hash tx)) as [->|Hne]; [by rewrite Hnew, Hunk | by rewrite lookup_insert_ne]. }
  intros h e' i He' Hi. rewrite Hm in He'. destruct (decide (h = tx_hash tx)) as [->|Hne].
  - rewrite lookup_insert_eq in He'. injection He' as <-. rewrite He in Hi. rewrite Forall_forall in Hins. destruct (Hins i Hi) as [Hn Ho]. split; [done|]. left. by apply Hkeep.
  - rewrite lookup_insert_ne in He' by done. destruct (H h e' i He' Hi) as [Hn Ho]. split; [done|]. destruct Ho as [Ho|(t & Ht & Hmade)]; [left; by apply Hkeep|].
    apply elem_of_cons in Ht as [->|Ht]; [left | right; by exists t]. unfold made_by in Hmade. case_bool_decide as Eh; [|by destruct Hmade].
    rewrite (pool_output_in p' tip i e); [by rewrite He|]. rewrite Hm, Eh. apply lookup_insert_eq.
Qed.

(** A transaction that is taken out leaves nothing that spends its outputs. *)
Lemma backed_reject pend p tip tx p' r : pool_ok p -> (forall e, mapTx p !! (tx_hash tx : list Z) = Some e -> tx_body (entry_tx e) = tx_body tx) ->
  remove p tx [] true = Ret (p', r) -> backed_but (tx :: pend) p tip -> pool_ok p' /\ backed_but pend p' tip.
Proof.
  intros Hp Hsame E H. destruct (remove_recursive p tx [] Hp) as (p1 & l & E1 & H1 & H2 & _ & _ & H3 & Hgone). rewrite E1 in E. injection E as <- _. split; [done|].
  pose proof (backed_closed _ p p1 tip Hp H2 H3 H) as Hb. intros h e i He Hi. destruct (Hb h e i He Hi) as [Hn Ho]. split; [done|]. destruct Ho as [Ho|(t & Ht & Hmade)]; [by left|].
  apply elem_of_cons in Ht as [->|Ht]; [|right; by exists t]. exfalso. unfold made_by in Hmade. case_bool_decide as Eh; [|by destruct Hmade].
  pose proof (subpool_lookup p p1 h e H2 He) as He0. pose proof (spends_parent p h e i _ Hp He0 Hi Hn Hmade) as Hsp. rewrite Eh in Hsp.
  assert (mapTx p1 !! h = None); [|congruence]. apply Hgone. right. right. exists h. split; [|by apply rtc_refl]. destruct (mapTx p !! (tx_hash tx : list Z)) as [e'|] eqn:E'.
  - rewrite decide_False by done. exists e'. split; [done|]. by rewrite (Hsame e').
  - by rewrite decide_True by done.
Qed.

(** Outpoint indexes are unsigned. *)
Definition indexes_ok (tx : CTransaction) : Prop := Forall (fun i => 0 <= prev_n (prevout i)) (vin (tx_body tx)).

(** Transactions of the pool with the hash of one of [txs] are that one. *)
Definition same_by_hash (p : CTxMemPool) (txs : list CTransaction) : Prop :=
  forall tx e, tx ∈ txs -> mapTx p !! (tx_hash tx : list Z) = Some e -> tx_body (entry_tx e) = tx_body tx.

Lemma same_by_hash_sub p p' txs : subpool p p' -> same_by_hash p txs -> same_by_hash p' txs.
Proof. intros Hs H tx e Hin He. apply (H tx e Hin). by apply (subpool_lookup p p'). Qed.

Section Accepting.
Variable accept : CTxMemPool -> CTransaction -> CCoinsView -> free_limiter -> io accept_result.

(** What [AcceptToMemoryPool] guarantees, by [accept_cases]. *)
Definition accept_sound : Prop := forall p tx tip l r, view_ok tip -> accept p tx tip l = Ret r ->
  reads tip (ac_tip r) /\ (ac_ok r = false -> ac_pool r = p) /\
  (ac_ok r = true -> exists fA fS e outs v, entry_tx e = tx /\ admissible p (tx_hash tx) e /\ coins_at tip (tx_hash tx) = None /\
     Forall2 (fun i o => pool_output p tip i = Some o) (vin (tx_body tx)) outs /\ addUnchecked fA fS p (tx_hash tx) e v = Ret (ac_pool r)).
Hypothesis sound : accept_sound.

Lemma accept_backed pend p tx tip l r : pool_ok p -> view_ok tip -> indexes_ok tx -> accept p tx tip l = Ret r -> ac_ok r = true -> backed_but (tx :: pend) p tip ->
  pool_ok (ac_pool r) /\ backed_but pend (ac_pool r) tip /\ exists e, mapTx (ac_pool r) = <[(tx_hash tx : list Z) := e]> (mapTx p).
Proof.
  intros Hp Hok Hix E Ht H. destruct (sound p tx tip l r Hok E) as (_ & _ & Hyes). destruct (Hyes Ht) as (fA & fS & e & outs & v & He & Ha & Hunk & Hf & Hadd).
  pose proof (addUnchecked_mapTx _ _ _ _ _ _ _ Hadd) as Hm. split; [by eapply addUnchecked_ok|]. split; [|by exists e]. apply (backed_add pend p _ tip tx e); try done; [apply Ha|].
  apply Forall_lookup. intros j i Hj. unfold indexes_ok in Hix. rewrite Forall_lookup in Hix. split; [by apply (Hix j)|]. destruct (Forall2_lookup_l _ _ _ _ _ Hf Hj) as (o & _ & Ho). by exists o.
Qed.

Lemma resurrect_backed txs : forall p tip l p' tip' l', pool_ok p -> view_ok tip -> Forall indexes_ok txs -> NoDup (hashes txs) -> same_by_hash p txs -> backed_but txs p tip ->
  resurrect accept p txs tip l = Ret (p', tip', l') -> pool_ok p' /\ reads tip tip' /\ backed_but [] p' tip'.
Proof.
  induction txs as [|tx txs IH]; intros p tip l p' tip' l' Hp Hok Hix Hnd Hsame H; cbn [resurrect]; [intros [= <- <- _]; split; [done|]; split; [by apply reads_refl | done]|].
  apply Forall_cons in Hix as [Hi Hix]. cbn [hashes map] in Hnd. apply NoDup_cons in Hnd as [Hh Hnd].
  assert (forall p1 tip1 l1, subpool p p1 -> pool_ok p1 -> reads tip tip1 -> (let* p := (let* '(p, _) := remove p1 tx [] true in Ret p) in resurrect accept p txs tip1 l1) = Ret (p', tip', l') -> backed_but (tx :: txs) p1 tip ->
    pool_ok p' /\ reads tip tip' /\ backed_but [] p' tip') as Hreject.
  { intros p1 tip1 l1 Hs1 Hp1 Hr1 E Hb. destruct (remove_recursive p1 tx [] Hp1) as (p2 & r2 & E2 & _ & Hs2 & _). rewrite E2 in E. cbn [obind] in E.
    destruct (backed_reject txs p1 tip tx p2 r2 Hp1) as [Hp2 Hb2]; [intros e He; apply (same_by_hash_sub p p1 (tx :: txs) Hs1 Hsame tx e); [by left | done] | done | done|].
    destruct (IH p2 tip1 l1 p' tip' l' Hp2 (proj1 Hr1) Hix Hnd) as (H1 & H2 & H3); [| |done|split; [done|]; split; [by eapply reads_trans | done]].
    - intros t e Ht. apply (same_by_hash_sub p p2 (tx :: txs)); [by etransitivity | done | by right].
    - apply (backed_same txs p2 p2 tip tip1); [done | intros i; by apply reads_output | done]. }
  destruct (_ || _); cbn [obind].
  { intros E. by apply (Hreject p tip l). }
  destruct (accept p tx tip l) as [r| | |] eqn:Ea; cbn [obind]; try done. destruct (sound p tx tip l r Hok Ea) as (Hr & Hno & _). destruct (ac_ok r) eqn:Eok; cbn [obind].
  - destruct (accept_backed txs p tx tip l r Hp Hok Hi Ea Eok H) as (Hp1 & Hb1 & e & Hm). intros E.
    destruct (IH (ac_pool r) (ac_tip r) (ac_limiter r) p' tip' l' Hp1 (proj1 Hr) Hix Hnd) as (H1 & H2 & H3); [| |done|split; [done|]; split; [by eapply reads_trans | done]].
    + intros t e' Ht He'. rewrite Hm in He'. rewrite lookup_insert_ne in He'; [apply (Hsame t e'); [by right | done]|]. intros Eh. apply Hh. rewrite Eh. apply list_elem_of_fmap. by exists t.
    + apply (backed_same txs (ac_pool r) _ tip _); [done | intros i; by apply reads_output | done].
  - rewrite (Hno eq_refl). intros E. by apply (Hreject p (ac_tip r) (ac_limiter r)).
Qed.
End Accepting.

(** ** A block *)

(** Children go with their parents, but for the parents in [S]. *)
Definition closed_but (S : list Z -> Prop) (p p' : CTxMemPool) : Prop := forall h c, gone p p' h -> child_of p h c -> mapTx p' !! c = None \/ S h.

Lemma closed_but_trans (S : list Z -> Prop) p1 p2 p3 : subpool p1 p2 -> subpool p2 p3 -> closed_but S p1 p2 -> closed_but S p2 p3 -> closed_but S p1 p3.
Proof.
  intros S1 S2 C1 C2 h c Hg Hc. apply (gone_trans p1 p2 p3 h S1 S2) in Hg as [Hg|Hg].
  - destruct (C1 h c Hg Hc) as [Hn|Hh]; [left | by right]. destruct (S2 c) as [E|E]; congruence.
  - destruct (mapTx p2 !! c) as [ec|] eqn:Ec; [|left; destruct (S2 c) as [E|E]; congruence]. apply (C2 h c Hg). destruct Hg as [[eh Heh] _]. destruct Hc as (e & He & i & j & Hi & (e' & inp & He' & Hin)).
    pose proof (subpool_lookup p1 p2 h eh S1 Heh). pose proof (subpool_lookup p1 p2 c ec S1 Ec). exists e. split; [congruence|]. exists i, j. split; [done|]. exists e', inp. split; [congruence | done].
Qed.

Lemma remove_block_txs_closed vtx : forall p conflicts p' r, pool_ok p -> remove_block_txs p vtx conflicts = Ret (p', r) ->
  closed_but (fun h => exists tx, tx ∈ vtx /\ h = tx_hash tx) p p'.
Proof.
  induction vtx as [|tx vtx IH]; intros p conflicts p' r Hp; cbn [remove_block_txs]; [intros [= <- _] h c [[e He] Hn]; congruence|].
  destruct (remove_single p tx [] Hp) as (p1 & l1 & -> & Hp1 & Hs1 & _ & Hg1). cbn [obind]. unfold removeConflicts.
  destruct (remove_conflicts_spec tx (vin (tx_body tx)) p1 conflicts Hp1) as (p2 & l2 & -> & Hp2 & Hs2 & _ & _ & Hc2 & _). cbn [obind]. intros E.
  set (p3 := ClearPrioritisation p2 (tx_hash tx)) in *. assert (pool_ok p3) as Hp3 by (apply (same_pool_ok p2); [by split_and! | done]).
  destruct (remove_block_txs_spec vtx p3 (conflicts ++ l2) Hp3) as (p'' & l & E' & _ & Hs3 & _). rewrite E in E'. injection E' as <- _. pose proof (IH _ _ _ _ Hp3 E) as Hc3.
  assert (subpool p2 p') as Hs3' by exact Hs3. apply (closed_but_trans _ p p1); [done | by etransitivity | |apply (closed_but_trans _ p1 p2); [done | done | |]].
  - intros h c [[e He] Hn] _. right. exists tx. split; [by left|]. apply Hg1 in Hn as [Hn|Hn]; [congruence | done].
  - intros h c Hg Hc. left. by apply (Hc2 h c).
  - intros h c Hg Hc. destruct (Hc3 h c Hg Hc) as [Hn|(t & Ht & Hh)]; [by left | right]. exists t. split; [by right | done].
Qed.

Lemma block_backed minRelayFee shuffle p vtx h conflicts p' r hc tip tip' : pool_ok p -> removeForBlock minRelayFee shuffle p vtx h conflicts = Ret (p', r) ->
  connects hc vtx tip tip' -> Forall indexes_ok vtx -> same_by_hash p vtx -> backed_but [] p tip -> pool_ok p' /\ backed_but [] p' tip'.
Proof.
  unfold removeForBlock. destruct (seenBlock _ _ _ _ _) as [m| | |]; cbn [obind]; try done. intros Hp0 E Hc Hix Hsame0 H0.
  set (q := with_estimator p m) in *. assert (pool_ok q) as Hp by (apply (same_pool_ok p); [by split_and! | done]).
  assert (backed_but [] q tip) as H by (by apply (backed_same [] p q tip tip)). assert (same_by_hash q vtx) as Hsame by exact Hsame0. clearbody q. clear p Hp0 H0 Hsame0 m.
  pose proof (remove_block_txs_closed _ _ _ _ _ Hp E) as Hcl. destruct (remove_block_txs_spec vtx q conflicts Hp) as (p1 & l & E' & Hp' & Hs & _ & _ & Hset & _). rewrite E in E'. injection E' as <- _.
  split; [done|]. intros k e i He Hi. pose proof (subpool_lookup q p' k e Hs He) as He0. destruct (H k e i He0 Hi) as [Hn [Ho|(t & Ht & _)]]; [|by apply elem_of_nil in Ht]. split; [done|]. left.
  (* no transaction of the block spends it *)
  assert (forall tx, tx ∈ vtx -> ~ spent_by tx i) as Hns.
  { intros tx Htx [_ (x & Hx & Hin)%list_elem_of_fmap]. destruct (Hset tx Htx) as (_ & Hnext & _). specialize (Hnext x Hin). rewrite Forall_forall in Hix. specialize (Hix tx Htx). unfold indexes_ok in Hix.
    rewrite Forall_forall in Hix. specialize (Hix x Hin). assert (prevout x = prevout i) as Ex.
    { unfold spends in Hx. injection Hx as Eh En. destruct (prevout x) as [hx nx], (prevout i) as [hi ni]. cbn [prev_hash prev_n] in *. f_equal; [done | lia]. }
    apply list_elem_of_lookup_1 in Hi as [j Hj]. assert (spends_at p' (prevout i) k j) as Hsp by (by exists e, i). apply (po_next p' Hp') in Hsp. congruence. }
  destruct (mapTx p' !! (prev_hash (prevout i) : list Z)) as [e'|] eqn:E1.
  - rewrite (pool_output_in p' tip' i e') by done. pose proof (subpool_lookup q p' _ _ Hs E1) as E0. by rewrite (pool_output_in q tip i e') in Ho.
  - rewrite pool_output_out by done. apply (connects_keeps hc vtx tip tip' i Hc Hns). destruct (mapTx q !! (prev_hash (prevout i) : list Z)) as [e'|] eqn:E0; [right | left; by rewrite pool_output_out in Ho].
    rewrite (pool_output_in q tip i e') in Ho by done. pose proof (spends_parent q k e i _ Hp He0 Hi Hn Ho) as Hsp.
    destruct (Hcl (prev_hash (prevout i)) k) as [Hgone|(tx & Htx & Eh)]; [by split; [exists e'|] | by exists e' | congruence|]. exists tx. split; [done|]. unfold made_by. rewrite bool_decide_eq_true_2 by done.
    by rewrite <- (Hsame tx e' Htx) by (by rewrite <- Eh).
Qed.

(** The transactions of a block that is taken off the chain are pending. *)
Lemma disconnect_pending p hc vtx tip tip' : connects hc vtx tip' tip -> backed_but [] p tip -> backed_but vtx p tip'.
Proof.
  intros Hc H h e i He Hi. destruct (H h e i He Hi) as [Hn [Ho|(t & Ht & _)]]; [|by apply elem_of_nil in Ht]. split; [done|]. destruct (mapTx p !! (prev_hash (prevout i) : list Z)) as [e'|] eqn:E.
  - left. rewrite (pool_output_in p tip i e') in Ho by done. by rewrite (pool_output_in p tip' i e').
  - rewrite pool_output_out in Ho by done. rewrite pool_output_out by done. destruct (connects_only hc vtx tip' tip i Hc Ho) as [Ho'|Ho']; [by left | by right].
Qed.

(** ** Histories of the pool and the chain *)

Section Histories.
Context {SH : ScriptHashes}.
Context {incentives : I_BlockIncentivesPopulator}.
Variable Verify : CPubKey -> base_uint -> valtype -> bool.
Variables (maxMoney maturity LAST_POW_BLOCK : Z) (genesis : list Z).
Variables (requireStandard fIsBareMultisigStd relayPriority : bool) (nMaxDatacarrierBytes limitFreeRelay : Z).
Variable relay : CFeeRate.
Variable pow : double -> double -> double.
Variables fTxIndex fAddressIndex_ fSpentIndex_ fSanityCheck parallel fVerifyingBlocks : bool.
Variable skip : Z.
Variable subsidy : Z -> io CBlockRewards.
Variable random_shuffle : Z -> nat -> list CTxMemPoolEntry -> list CTxMemPoolEntry.

(** What the calls read of the node: the block index, the height of the chain, the clocks. *)
Record surroundings := mkSurroundings { su_heap : index_heap; su_map : gmap (list Z) positive; su_height : Z; su_adjusted : Z; su_now : Z }.

Definition accept_in (u : surroundings) (fLimitFree ignoreFees : bool) (st : CValidationState) (p : CTxMemPool) (tx : CTransaction) (tip : CCoinsView) (l : free_limiter) : io accept_result :=
  AcceptToMemoryPool Verify maxMoney maturity (su_heap u) (su_map u) (su_height u) (su_adjusted u) (su_now u) requireStandard fIsBareMultisigStd relayPriority
    nMaxDatacarrierBytes limitFreeRelay relay pow fAddressIndex_ fSpentIndex_ p st tx fLimitFree ignoreFees tip l.

(** A pool and the coins of the active chain.  A disconnected block leaves the
    outputs that were there before it was connected. *)
Inductive node_step : CTxMemPool * CCoinsView -> CTxMemPool * CCoinsView -> Prop :=
  | ns_read p tip tip' : reads tip tip' -> node_step (p, tip) (p, tip')
  | ns_accept p tip u lf ig st tx l r : indexes_ok tx -> accept_in u lf ig st p tx tip l = Ret r -> node_step (p, tip) (ac_pool r, ac_tip r)
  | ns_remove p tip tx removed p' r : remove p tx removed true = Ret (p', r) -> node_step (p, tip) (p', tip)
  | ns_prioritise p tip hash d n p' : PrioritiseTransaction p hash d n = Ret p' -> node_step (p, tip) (p', tip)
  | ns_clear p tip : node_step (p, tip) (pool_clear p, tip)
  | ns_connect p tip u block hash st pindex b prevSupply prevCheckpoint nFile nDataPos db cn c tip' h conflicts p' r :
      su_heap u !! pindex = Some b -> hash <> genesis -> Forall (tx_fine maxMoney) (vtx block) -> NoDup (hashes (vtx block)) -> same_by_hash p (vtx block) ->
      ConnectBlock Verify maxMoney maturity LAST_POW_BLOCK genesis (su_heap u) (su_map u) skip parallel fTxIndex fAddressIndex_ fSpentIndex_ fVerifyingBlocks
        subsidy block hash st pindex prevSupply prevCheckpoint nFile nDataPos (new_cache tip) db false = Ret (true, cn) ->
      Flush (cn_view cn) = Ret (ViewCache c tip') ->
      removeForBlock relay random_shuffle p (vtx block) h conflicts = Ret (p', r) -> node_step (p, tip) (p', tip')
  | ns_disconnect p tip hc vtx tip0 tip1 u l p2 tip2 l2 h p3 tip3 :
      connects hc vtx tip0 tip -> view_ok tip1 -> (forall i, output_at tip1 i = output_at tip0 i) -> Forall indexes_ok vtx -> NoDup (hashes vtx) -> same_by_hash p vtx ->
      resurrect (accept_in u false false CValidationState_new) p vtx tip1 l = Ret (p2, tip2, l2) ->
      removeCoinbaseSpends fSanityCheck maturity p2 tip2 h = Ret (p3, tip3) -> node_step (p, tip) (p3, tip3).

Hypothesis max_moderate : 0 <= maxMoney < 2 ^ 62.

Lemma accept_in_sound u lf ig st : accept_sound (accept_in u lf ig st).
Proof.
  intros p tx tip l r Hok E. destruct (accept_cases _ _ _ _ _ _ _ _ _ _ _ _ _ _ _ _ _ max_moderate _ _ _ _ _ _ _ _ Hok E) as (H1 & H2 & H3). split; [done|]. split; [done|]. intros Ht.
  destruct (H3 Ht) as (e & out & outs & v & [A1 _ _ [A2 A3] A4 _ _ _ _] & Hadd). by exists fAddressIndex_, fSpentIndex_, e, outs, v.
Qed.

Lemma immature_reads p ins : forall tip h, view_ok tip -> yields (fun r => reads tip r.2) (immature_spend fSanityCheck maturity p ins tip h).
Proof.
  induction ins as [|x ins IH]; intros tip h Hok; cbn [immature_spend]; [by apply reads_refl|]. destruct (lookupOutpoint p _); [by apply IH|].
  destruct (AccessCoins_spec tip (prev_hash (prevout x)) Hok) as (v & -> & Hr). destruct (negb fSanityCheck || _); cbn [oassert obind]; [|done]. destruct (match view tip _ with None => true | Some _ => _ end); [done|].
  pose proof (IH v h (proj1 Hr)) as H. destruct (immature_spend _ _ _ _ v h) as [[b w]| | |]; try done. cbn in *. by eapply reads_trans.
Qed.

Lemma immature_transactions_reads p l : forall tip h, view_ok tip -> yields (fun r => reads tip r.2) (immature_transactions fSanityCheck maturity p l tip h).
Proof.
  induction l as [|[k e] l IH]; intros tip h Hok; cbn [immature_transactions]; [by apply reads_refl|]. eapply yields_bind; [by apply immature_reads|]. intros [b v] Hr. cbn [snd] in Hr.
  eapply yields_bind; [apply IH, Hr|]. intros [l' w] Hr'. cbn in *. by eapply reads_trans.
Qed.

Lemma coinbase_backed p tip h p' tip' : pool_ok p -> view_ok tip -> removeCoinbaseSpends fSanityCheck maturity p tip h = Ret (p', tip') -> backed_but [] p tip ->
  pool_ok p' /\ reads tip tip' /\ backed_but [] p' tip'.
Proof.
  unfold removeCoinbaseSpends. intros Hp Hok. pose proof (immature_transactions_reads p (pool_entries p) tip h Hok) as Hr. destruct (immature_transactions _ _ _ _ _ _) as [[txs v]| | |]; cbn [obind]; try done. cbn in Hr.
  destruct (remove_all p txs) as [p1| | |] eqn:E; cbn [obind]; try done. intros [= <- <-] H. destruct (remove_all_backed txs tip p p1 Hp E H) as [H1 H2]. split; [done|]. split; [done|].
  apply (backed_same [] p1 p1 tip v); [done | intros i; by apply reads_output | done].
Qed.

Definition node_ok (s : CTxMemPool * CCoinsView) : Prop := pool_ok s.1 /\ view_ok s.2 /\ backed_but [] s.1 s.2.

Lemma node_step_ok s s' : node_step s s' -> node_ok s -> node_ok s'.
Proof.
  intros Hst (Hp & Hok & Hb). destruct Hst as [p tip tip' Hr|p tip u lf ig st tx l r Hix E|p tip tx removed p' r E|p tip hash d n p' E|p tip
    |p tip u block hash st pindex b prevSupply prevCheckpoint nFile nDataPos db cn c tip' h conflicts p' r Hb0 Hgen Hfine Hnd Hsame E Efl Erm
    |p tip hc txs tip0 tip1 u l p2 tip2 l2 h p3 tip3 Hc Hok1 Hout Hix Hnd Hsame E Ecb]; cbn [fst snd] in *.
  - split_and!; [done | apply Hr | apply (backed_same [] p p tip); [done | intros i; by apply reads_output | done]].
  - destruct (accept_in_sound u lf ig st p tx tip l r Hok E) as (Hr & Hno & _). destruct (ac_ok r) eqn:Eok.
    + destruct (accept_backed _ (accept_in_sound u lf ig st) [] p tx tip l r Hp Hok Hix E Eok) as (H1 & H2 & _).
      { intros h e i He Hi. destruct (Hb h e i He Hi) as [Hn [Ho|(t & Ht & _)]]; [|by apply elem_of_nil in Ht]. split; [done | by left]. }
      split_and!; [done | apply Hr | apply (backed_same [] (ac_pool r) _ tip); [done | intros i; by apply reads_output | done]].
    + rewrite (Hno eq_refl). split_and!; [done | apply Hr | apply (backed_same [] p p tip); [done | intros i; by apply reads_output | done]].
  - destruct (remove_backed [] p tip tx removed p' r Hp E Hb) as [H1 H2]. by split_and!.
  - unfold PrioritiseTransaction in E. destruct (amount_add _ _); cbn [obind] in E; try done. injection E as <-. split_and!; [by apply (same_pool_ok p); [split_and!|] | done | by apply (backed_same [] p _ tip tip)].
  - split_and!; [|done|by intros h e i He]. split; try done. intros o h i. split; [done|]. by intros (e & inp & He & _).
  - destruct (view_shown (new_cache tip)) as [m Hm]; [done|]. assert (cache_ok (new_cache tip)) as Hc by done.
    destruct (ConnectBlock_connects Verify maxMoney maturity LAST_POW_BLOCK genesis max_moderate _ _ _ _ _ _ _ _ _ _ m _ _ _ _ _ _ _ _ _ _ _ Hc Hm Hb0 Hgen Hfine Hnd E) as [Hcn Hconn].
    destruct (cn_view cn) as [d|c0 base]; [by destruct Hcn|]. destruct (Flush_spec c0 base (proj1 Hcn)) as (base' & Efl' & (Hok' & _) & Hcoins & _). rewrite Efl' in Efl. injection Efl as _ <-.
    destruct (block_backed relay random_shuffle p (vtx block) h conflicts p' r (nHeight b) tip base' Hp Erm) as [H1 H2]; [| |done|done|by split_and!].
    + apply (connects_shown _ _ _ (ViewCache c0 base)); [done|]. apply (connects_read _ tip (new_cache tip)); [|done]. intros k. unfold coins_at, new_cache. cbn [view cacheCoins]. by rewrite lookup_empty.
    + eapply Forall_impl; [exact Hfine|]. by intros tx [_ Htx].
  - pose proof (disconnect_pending p hc txs tip tip0 Hc Hb) as Hpend. assert (backed_but txs p tip1) as Hpend1 by (by apply (backed_same txs p p tip0 tip1)).
    destruct (resurrect_backed _ (accept_in_sound u false false CValidationState_new) txs p tip1 l p2 tip2 l2 Hp Hok1 Hix Hnd Hsame Hpend1 E) as (H1 & H2 & H3).
    destruct (coinbase_backed p2 tip2 h p3 tip3 H1 (proj1 H2) Ecb H3) as (H4 & H5 & H6). split_and!; [done | apply H5 | done].
Qed.

(** C13: in every history of accepted and removed transactions, connected blocks and
    disconnected blocks that starts with an empty pool, every input of every
    transaction of the pool refers to an output that another transaction of the pool
    makes or that is unspent in the coins of the active chain, and the pool is
    consistent in itself, so that no two of its transactions spend the same output:
    the pool always extends the chain, across reorganisations too. *)
Theorem pool_extends_chain tip0 p tip : view_ok tip0 -> rtc node_step (CTxMemPool_new, tip0) (p, tip) ->
  pool_ok p /\ view_ok tip /\ pool_backed p tip.
Proof.
  intros Hok H. assert (node_ok (p, tip)) as (H1 & H2 & H3); [|split_and!; [done | done | by apply backed_none]].
  refine (rtc_ind_r (R := node_step) node_ok (CTxMemPool_new, tip0) _ _ (p, tip) H); [split_and!; [apply pool_new_ok | done | by intros h e i He]|]. intros s s' _ Hst Hs. by apply (node_step_ok s s').
Qed.
End Histories.

(** ** A parent, its child, and the block that takes the parent *)

Definition pool_child : CTransaction := mkTransaction [10] (mkMutable 1 [mkTxIn (mkOutPoint [9] 0) [] SEQUENCE_FINAL] [mkTxOut 7 [84]] 0).
Definition sample_surroundings : surroundings := mkSurroundings two_blocks sample_block_map 119 1600000000 1600000000.
Definition keep_order (_ : Z) (_ : nat) (l : list CTxMemPoolEntry) : list CTxMemPoolEntry := l.

Definition accept_sample (p : CTxMemPool) (tx : CTransaction) : io accept_result :=
  accept_in no_signatures (10 ^ 9 * COIN) 20 false true false 83 15 sample_relay flat_pow true true sample_surroundings true false CValidationState_new p tx (ViewDB sample_db) (mkLimiter (double_of 0) 0).

Definition refused_pool (p : CTxMemPool) (tip : CCoinsView) : accept_result := mkAccept false CValidationState_new false p tip (mkLimiter (double_of 0) 0).
Definition parent_result : accept_result := returned (refused_pool CTxMemPool_new dummy_view) (accept_sample CTxMemPool_new sample_spend).
Definition child_result : accept_result := returned (refused_pool CTxMemPool_new dummy_view) (accept_sample (ac_pool parent_result) pool_child).
Definition mined_connected : Connected := (returned (false, mkConnected dummy_view CValidationState_new 0 0 [] (mkTree ∅ ∅ ∅ ∅ ∅)) connect_mined).2.
Definition mined_flushed : CCoinsView := returned dummy_view (Flush (cn_view mined_connected)).
Definition mined_tip : CCoinsView := match mined_flushed with ViewCache _ base => base | v => v end.
Definition pool_after_block : CTxMemPool := (returned (CTxMemPool_new, []) (removeForBlock sample_relay keep_order (ac_pool child_result) (vtx mined_block) 120 [])).1.

Abbreviation sample_step := (@node_step _ sample_incentives no_signatures (10 ^ 9 * COIN) 20 1000 (of_uint64 8 1) false true false 83 15 sample_relay flat_pow true true true true true true 0
  (GetBlockSubsidity sample_params no_sporks) keep_order).

Lemma sample_history : rtc sample_step (CTxMemPool_new, ViewDB sample_db) (pool_after_block, mined_tip).
Proof.
  assert (E1 : accept_sample CTxMemPool_new sample_spend = Ret parent_result) by (vm_compute; reflexivity).
  assert (E2 : accept_sample (ac_pool parent_result) pool_child = Ret child_result) by (vm_compute; reflexivity).
  assert (T1 : ac_tip parent_result = ViewDB sample_db) by (vm_compute; reflexivity). assert (T2 : ac_tip child_result = ViewDB sample_db) by (vm_compute; reflexivity).
  eapply rtc_l; [eapply ns_accept; [|exact E1]|]; [repeat constructor; vm_compute; discriminate|]. rewrite T1.
  eapply rtc_l; [eapply ns_accept; [|exact E2]|]; [repeat constructor; vm_compute; discriminate|]. rewrite T2. apply rtc_once.
  destruct connect_mined as [[b cn]| | |] eqn:Ec; [|vm_compute in Ec; discriminate..].
  assert (Ecn : cn = mined_connected) by (unfold mined_connected; by rewrite Ec). assert (Eb : b = true) by (vm_compute in Ec; by injection Ec). subst b cn.
  destruct mined_flushed as [d|c base] eqn:Ef; [vm_compute in Ef; discriminate|]. assert (Et : mined_tip = base) by (unfold mined_tip; by rewrite Ef). rewrite Et.
  destruct (removeForBlock sample_relay keep_order (ac_pool child_result) (vtx mined_block) 120 []) as [[q r]| | |] eqn:Er; [|vm_compute in Er; discriminate..].
  assert (Eq : pool_after_block = q) by (unfold pool_after_block; by rewrite Er). rewrite Eq.
  eapply ns_connect with (u := sample_surroundings) (block := mined_block) (hash := of_uint64 8 12) (pindex := 2%positive) (prevCheckpoint := of_uint64 8 0) (cn := mined_connected) (c := c);
    [reflexivity | | | | | exact Ec | | exact Er].
  - intros H. vm_compute in H. discriminate.
  - exact sample_txs_fine.
  - apply (bool_decide_unpack _). vm_compute. exact I.
  - intros tx e Htx He. change (vtx mined_block) with [sample_coinbase; sample_spend] in Htx. apply elem_of_cons in Htx as [->|Htx]; [vm_compute in He; discriminate|].
    apply list_elem_of_singleton in Htx as ->. vm_compute in He. injection He as <-. reflexivity.
  - rewrite <- Ef. unfold mined_flushed. destruct (Flush (cn_view mined_connected)) as [v| | |] eqn:E; [reflexivity | vm_compute in E; discriminate..].
Qed.

Lemma pool_extends_chain_witness : exists p tip, rtc sample_step (CTxMemPool_new, ViewDB sample_db) (p, tip) /\ mapTx p !! [9] = None /\ is_Some (mapTx p !! [10]) /\ pool_backed p tip.
Proof.
  exists pool_after_block, mined_tip. split; [exact sample_history|]. split; [vm_compute; reflexivity|]. split; [vm_compute; eexists; reflexivity|].
  exact (proj2 (proj2 (pool_extends_chain (incentives := sample_incentives) no_signatures (10 ^ 9 * COIN) 20 1000 (of_uint64 8 1) false true false 83 15 sample_relay flat_pow true true true true true true 0
    (GetBlockSubsidity sample_params no_sporks) keep_order ltac:(vm_compute; split; [discriminate | reflexivity]) (ViewDB sample_db) pool_after_block mined_tip sample_db_ok sample_history))).
Defined.
