(* ===== verification/BlockAssembly.v ===== *)
(** * Choosing transactions for a block: [BlockMemoryPoolTransactionCollector.cpp]

    A transaction whose inputs are in the pool waits until its parents are in the
    block; the others are taken by priority, and by fee once the part of the block for
    priority is full.  The shared [COrphan] objects are cells of a list named by their
    position.  Settings, the clock and the choice among elements that the comparison
    does not order, which [std::pop_heap] leaves open, are arguments. *)

From Stdlib Require Import ZArith Lia Bool SpecFloat.
From stdpp Require Import base option numbers list gmap.
From S2P Require Import Prelude BaseUInt UInt256 Serialize Opcodes Script StackManager Interpreter Transaction Coins CoinsCache CoinsUpdate SigHash Standard BlockIndex Validation ConnectBlock BlockChecks FeeEstimator Mempool.

Open Scope Z_scope.
Open Scope outcome_scope.

(** [settings.GetArg] gives a signed 64-bit integer. *)
Definition GetMaxBlockSize (blockmaxsize maxBlockSizeCurrent : Z) : Z := Z.max 1000 (Z.min (u32 (maxBlockSizeCurrent - 1000)) (u32 blockmaxsize)).
Definition GetBlockPrioritySize (blockprioritysize blockMaxSize : Z) : Z := Z.min blockMaxSize (u32 blockprioritysize).
Definition GetBlockMinSize (blockminsize blockMaxSize : Z) : Z := Z.min blockMaxSize (u32 blockminsize).

(** ** Transactions that wait and transactions that can be taken *)

Record COrphan := mkOrphan { orphan_ptx : CTransaction; setDependsOn : gset (list Z); orphan_feeRate : CFeeRate; orphan_dPriority : double }.
Definition COrphan_of (ptxIn : CTransaction) : COrphan := mkOrphan ptxIn ∅ 0 (double_of 0).

Record TxPriority := mkPriority { pr_priority : double; pr_fee : CFeeRate; pr_tx : CTransaction }.

Definition TxPriorityCompare (byFee : bool) (a b : TxPriority) : bool :=
  if byFee then if pr_fee a =? pr_fee b then SFltb (pr_priority a) (pr_priority b) else pr_fee a <? pr_fee b
  else if SFeqb (pr_priority a) (pr_priority b) then pr_fee a <? pr_fee b else SFltb (pr_priority a) (pr_priority b).

(** The [COrphan] objects and [dependentTransactions], whose vectors share them. *)
Record Dependers := mkDependers { orphans : list COrphan; mapDependers : gmap (list Z) (list nat) }.
Definition Dependers_new : Dependers := mkDependers [] ∅.

Definition RecordOrphanTransaction (porphan : option nat) (tx : CTransaction) (txin : CTxIn) (d : Dependers) : nat * Dependers :=
  let '(porphan, os) := match porphan with Some i => (i, orphans d) | None => (length (orphans d), orphans d ++ [COrphan_of tx]) end in
  let hash := prev_hash (prevout txin) in
  (porphan, mkDependers (alter (fun o => mkOrphan (orphan_ptx o) (setDependsOn o ∪ {[ (hash : list Z) ]}) (orphan_feeRate o) (orphan_dPriority o)) porphan os)
     (<[(hash : list Z) := default [] (mapDependers d !! (hash : list Z)) ++ [porphan]]> (mapDependers d))).

Section Collector.
Variable mempool : CTxMemPool.

Definition ComputeTransactionPriority (dPriority : double) (tx : CTransaction) (nTotalIn : CAmount) (porphan : option nat) (d : Dependers) (vecPriority : list TxPriority) : io (Dependers * list TxPriority) :=
  let nTxSize := u32 (GetSerializeSize transaction_codec tx) in
  let dPriority := ComputePriority (tx_body tx) dPriority nTxSize in
  let* '(dPriority, nTotalIn) := ApplyDeltas mempool (tx_hash tx) dPriority nTotalIn in
  let* out := GetValueOut (tx_body tx) in
  let* nFeePaid := amount_add nTotalIn (- out) in
  let* feeRate := CFeeRate_of nFeePaid nTxSize in
  match porphan with
  | Some i => Ret (mkDependers (alter (fun o => mkOrphan (orphan_ptx o) (setDependsOn o) feeRate dPriority) i (orphans d)) (mapDependers d), vecPriority)
  | None => Ret (d, vecPriority ++ [mkPriority dPriority feeRate tx])
  end.

(** [for (auto& porphan : dependentTransactions[hash])] *)
Fixpoint release_dependers (hash : list Z) (l : list nat) (os : list COrphan) (vecPriority : list TxPriority) : io (list COrphan * list TxPriority) :=
  match l with
  | [] => Ret (os, vecPriority)
  | i :: l =>
      let* o := oaccess (os !! i) in
      if bool_decide (setDependsOn o = ∅) then release_dependers hash l os vecPriority
      else
        let o := mkOrphan (orphan_ptx o) (setDependsOn o ∖ {[ hash ]}) (orphan_feeRate o) (orphan_dPriority o) in
        release_dependers hash l (<[i := o]> os)
          (if bool_decide (setDependsOn o = ∅) then vecPriority ++ [mkPriority (orphan_dPriority o) (orphan_feeRate o) (orphan_ptx o)] else vecPriority)
  end.

Definition AddDependingTransactionsToPriorityQueue (d : Dependers) (hash : list Z) (vecPriority : list TxPriority) : io (Dependers * list TxPriority) :=
  match mapDependers d !! hash with
  | None => Ret (d, vecPriority)
  | Some l => let* '(os, vecPriority) := release_dependers hash l (orphans d) vecPriority in Ret (mkDependers os (mapDependers d), vecPriority)
  end.

Variables (blockMaxSize_ blockPrioritySize_ blockMinSize_ : Z).
Variable txFeeRate_ : CFeeRate.

Definition IsFreeTransaction (hash : list Z) (fSortedByFee : bool) (feeRate : CFeeRate) (nBlockSize nTxSize : Z) : io bool :=
  let* '(dPriorityDelta, nFeeDelta) := ApplyDeltas mempool hash (double_of 0) 0 in
  Ret (fSortedByFee && SFleb dPriorityDelta (double_of 0) && (nFeeDelta <=? 0) && (feeRate <? txFeeRate_) && (blockMinSize_ <=? u64 (nBlockSize + nTxSize))).

(** The loop over the inputs: the view, the waiting transactions, and what they come
    to, or nothing if an input is missing. *)
Fixpoint priority_inputs (nHeight : Z) (tx : CTransaction) (ins : list CTxIn) (view : CCoinsView) (d : Dependers) (porphan : option nat) (dPriority : double) (nTotalIn : CAmount)
    : io (CCoinsView * Dependers * option (option nat * double * CAmount)) :=
  match ins with
  | [] => Ret (view, d, Some (porphan, dPriority, nTotalIn))
  | txin :: ins =>
      let '(view, have) := HaveCoins view (prev_hash (prevout txin)) in
      if negb have then
        match lookupOutpoint mempool (prev_hash (prevout txin)) with
        | None => Ret (view, d, None)
        | Some prevTx =>
            let '(i, d) := RecordOrphanTransaction porphan tx txin d in
            let* o := oaccess (vout (tx_body prevTx) !! Z.to_nat (prev_n (prevout txin))) in
            let* nTotalIn := amount_add nTotalIn (nValue o) in
            priority_inputs nHeight tx ins view d (Some i) dPriority nTotalIn
        end
      else
        let '(view, coins) := AccessCoins view (prev_hash (prevout txin)) in
        let* coins := oaccess coins in
        let* o := oaccess (coins_vout coins !! Z.to_nat (prev_n (prevout txin))) in
        let* nTotalIn := amount_add nTotalIn (nValue o) in
        let nConf := nHeight - coins_nHeight coins in
        priority_inputs nHeight tx ins view d porphan (dadd dPriority (dmul (double_of (nValue o)) (double_of nConf))) nTotalIn
  end.

Variables (activeHeight adjustedTime : Z).

Fixpoint PrioritizeMempoolTransactions (nHeight : Z) (entries : list (list Z * CTxMemPoolEntry)) (view : CCoinsView) (d : Dependers) (vecPriority : list TxPriority)
    : io (CCoinsView * Dependers * list TxPriority) :=
  match entries with
  | [] => Ret (view, d, vecPriority)
  | (_, mi) :: entries =>
      let tx := entry_tx mi in
      if IsCoinBase (tx_body tx) || IsCoinStake (tx_body tx) || negb (IsFinalTx (tx_body tx) activeHeight adjustedTime nHeight 0)
      then PrioritizeMempoolTransactions nHeight entries view d vecPriority
      else
        let* '(view, d, r) := priority_inputs nHeight tx (vin (tx_body tx)) view d None (double_of 0) 0 in
        match r with
        | None => PrioritizeMempoolTransactions nHeight entries view d vecPriority
        | Some (porphan, dPriority, nTotalIn) =>
            let* '(d, vecPriority) := ComputeTransactionPriority dPriority tx nTotalIn porphan d vecPriority in
            PrioritizeMempoolTransactions nHeight entries view d vecPriority
        end
  end.

Definition PrioritizeFeePastPrioritySize (fSortedByFee : bool) (nBlockSize nTxSize : Z) (dPriority : double) : bool :=
  fSortedByFee || (blockPrioritySize_ <=? u64 (nBlockSize + nTxSize)) || negb (AllowFree dPriority).

(** [std::pop_heap]: an element that no other is greater than; [choose] picks one. *)
Variable choose : list TxPriority -> nat.

Definition is_top (byFee : bool) (vec : list TxPriority) (a : TxPriority) : bool := forallb (fun b => negb (TxPriorityCompare byFee a b)) vec.
Definition top_index (byFee : bool) (vec : list TxPriority) : nat :=
  let tops := List.filter (fun i => match vec !! i with Some a => is_top byFee vec a | None => false end) (seq 0 (length vec)) in
  default 0%nat (tops !! (choose vec mod length tops)%nat).

(** ** Filling the block *)

Record PrioritizedTransactionData := mkPrioritized { pt_tx : CTransaction; nTxSigOps : Z }.

Context {SH : ScriptHashes}.
Variable Verify : CPubKey -> base_uint -> valtype -> bool.
Variables (maxMoney COINBASE_MATURITY : Z).
Variable heap : index_heap.
Variable blockIndexMap : gmap (list Z) positive.

(** The state of the loop. *)
Record Filling := mkFilling {
  fl_vec : list TxPriority; fl_dependers : Dependers; fl_view : CCoinsView; fl_sorted : bool; nBlockSize : Z; nBlockSigOps : Z; fl_taken : list PrioritizedTransactionData
}.

Definition with_order (s : Filling) (vec : list TxPriority) (sorted : bool) (view : CCoinsView) : Filling :=
  mkFilling vec (fl_dependers s) view sorted (nBlockSize s) (nBlockSigOps s) (fl_taken s).

(** From [HaveInputs] on. *)
Definition try_transaction (nHeight : Z) (tx : CTransaction) (nTxSize nSigOps : Z) (s : Filling) : io Filling :=
  let '(view, have) := HaveInputs (fl_view s) (tx_body tx) in
  let skip view := Ret (with_order s (fl_vec s) (fl_sorted s) view) in
  if negb have then skip view else
  let* '(view, n) := GetP2SHSigOpCount view (tx_body tx) in
  let nSigOps := u32 (nSigOps + n) in
  if MAX_BLOCK_SIGOPS_CURRENT <=? u32 (nBlockSigOps s + nSigOps) then skip view else
  let* r := CheckInputs Verify maxMoney COINBASE_MATURITY heap blockIndexMap (tx_body tx) CValidationState_new view 0 0 true MANDATORY_SCRIPT_VERIFY_FLAGS true None false in
  if negb (ci_result r).1 then skip (ci_view r) else
  let* '(view, _) := UpdateCoinsWithTransaction tx (ci_view r) nHeight in
  let* '(d, vec) := AddDependingTransactionsToPriorityQueue (fl_dependers s) (tx_hash tx) (fl_vec s) in
  Ret (mkFilling vec d view (fl_sorted s) (u64 (nBlockSize s + nTxSize)) (i32 (u32 (nBlockSigOps s + nSigOps))) (fl_taken s ++ [mkPrioritized tx nSigOps])).

(** One round of [while (!vecPriority.empty())]. *)
Definition fill_step (nHeight : Z) (s : Filling) : io Filling :=
  let i := top_index (fl_sorted s) (fl_vec s) in
  let* p := oaccess (fl_vec s !! i) in
  let tx := pr_tx p in
  let s := with_order s (delete i (fl_vec s)) (fl_sorted s) (fl_view s) in
  let nTxSize := u32 (GetSerializeSize transaction_codec tx) in
  let* nTxSigOps := GetLegacySigOpCount (tx_body tx) in
  if (blockMaxSize_ <=? u64 (nBlockSize s + nTxSize)) || (MAX_BLOCK_SIGOPS_CURRENT <=? u32 (nBlockSigOps s + nTxSigOps)) then Ret s
  else
    let* free := IsFreeTransaction (tx_hash tx) (fl_sorted s) (pr_fee p) (nBlockSize s) nTxSize in
    if free then Ret s
    else
      let s := with_order s (fl_vec s) (PrioritizeFeePastPrioritySize (fl_sorted s) (nBlockSize s) nTxSize (pr_priority p)) (fl_view s) in
      try_transaction nHeight tx nTxSize nTxSigOps s.

Fixpoint fill (fuel : nat) (nHeight : Z) (s : Filling) : io Filling :=
  match fl_vec s with
  | [] => Ret s
  | _ :: _ => match fuel with O => Undef | S fuel => let* s := fill_step nHeight s in fill fuel nHeight s end
  end.

Definition PrioritizeTransactions (vecPriority : list TxPriority) (nHeight : Z) (view : CCoinsView) (d : Dependers) : io (list PrioritizedTransactionData * CCoinsView) :=
  let* s := fill (length vecPriority + length (orphans d)) nHeight (mkFilling vecPriority d view (blockPrioritySize_ <=? 0) 1000 100 []) in
  Ret (fl_taken s, fl_view s).

Definition AddTransactionsToBlockIfPossible (nHeight : Z) (view : CCoinsView) (vtx : list CTransaction) : io (list CTransaction * CCoinsView) :=
  let* '(view, d, vecPriority) := PrioritizeMempoolTransactions nHeight (pool_entries mempool) view Dependers_new [] in
  let* '(prioritizedTransactions, view) := PrioritizeTransactions vecPriority nHeight view d in
  Ret (vtx ++ map pt_tx prioritizedTransactions, view).

(** The transactions of the block, and the view that is dropped. *)
Definition CollectTransactionsIntoBlock (previousBlockHeight : Z) (baseCoinsViewCache_ : CCoinsView) (vtx : list CTransaction) : io (list CTransaction * CCoinsView) :=
  AddTransactionsToBlockIfPossible (previousBlockHeight + 1) (new_cache baseCoinsViewCache_) vtx.
End Collector.
