(* ===== verification/BlockAssemblyProps.v ===== *)
(** * The transactions chosen for a block

    The collector always ends, without undefined behaviour, on a pool that extends the
    chain; what it chooses fits into the block and can be connected in its order. *)

From Stdlib Require Import ZArith Lia Bool SpecFloat.
From stdpp Require Import base option numbers list gmap sorting.
From S2P Require Import Prelude BaseUInt UInt256 Serialize Opcodes Script StackManager Interpreter Transaction Coins CoinsCache CoinsUpdate Hashes SigHash Standard BlockIndex Validation ConnectBlock Supply BlockChecks Disconnect BlockEffect FeeEstimator Mempool MempoolProps MempoolIndex MempoolAccept MempoolAcceptProps MempoolBacked BlockAssembly.

Open Scope Z_scope.
Open Scope outcome_scope.

(** ** Signature operations are few *)

Definition script_sum (l : list CScript) : Z := foldr (fun s n => zlen s + n) 0 l.
Definition script_bytes (tx : CMutableTransaction) : Z := script_sum (map scriptSig (vin tx)) + script_sum (map scriptPubKey (vout tx)).

Lemma script_sum_nonneg l : 0 <= script_sum l.
Proof. induction l as [|s l IH]; cbn; [lia|]. pose proof (zlen_nonneg s). unfold script_sum in IH. lia. Qed.

Lemma script_bytes_size tx : script_bytes tx <= GetSerializeSize mutable_codec tx.
Proof.
  assert (forall n, 0 <= GetSizeOfCompactSize n) as Hc by (intros n; unfold GetSizeOfCompactSize; repeat case_match; lia).
  unfold script_bytes. cbn [GetSerializeSize mutable_codec object_codec pair_codec seq_codec vector_codec int_codec uint_codec fst snd].
  assert (script_sum (map scriptSig (vin tx)) <= foldr (fun x n => GetSerializeSize txin_codec x + n) 0 (vin tx)) as H1.
  { induction (vin tx) as [|i l IH]; [done|]. cbn [map script_sum foldr]. fold (script_sum (map scriptSig l)).
    assert (zlen (scriptSig i) <= GetSerializeSize txin_codec i); [|lia].
    cbn [GetSerializeSize txin_codec object_codec pair_codec seq_codec bytes_codec outpoint_codec uint_codec fst snd].
    pose proof (Hc (zlen (scriptSig i))). cbn. lia. }
  assert (script_sum (map scriptPubKey (vout tx)) <= foldr (fun x n => GetSerializeSize txout_codec x + n) 0 (vout tx)) as H2.
  { induction (vout tx) as [|i l IH]; [done|]. cbn [map script_sum foldr]. fold (script_sum (map scriptPubKey l)).
    assert (zlen (scriptPubKey i) <= GetSerializeSize txout_codec i); [|lia].
    cbn [GetSerializeSize txout_codec object_codec pair_codec seq_codec bytes_codec int_codec fst snd].
    pose proof (Hc (zlen (scriptPubKey i))). cbn. lia. }
  pose proof (Hc (zlen (vin tx))). pose proof (Hc (zlen (vout tx))). lia.
Qed.

Lemma add_sigops_bound l : forall n, 0 <= n -> n + 20 * script_sum l < 2 ^ 32 -> exists k, add_sigops l n = Ret k /\ n <= k <= n + 20 * script_sum l.
Proof.
  induction l as [|s l IH]; intros n Hn Hb; cbn [add_sigops script_sum foldr] in *; [exists n; split; [done | lia]|]. fold (script_sum l) in *. pose proof (script_sum_nonneg l). pose proof (zlen_nonneg s).
  destruct (GetSigOpCount_loop_spec (length s) s OP_INVALIDOPCODE 0 0) as (a & i & _ & Hi & Ha & Hl); [done | lia | lia|].
  unfold GetSigOpCount. rewrite Hi. cbn [counted obind]. unfold u32. rewrite Z.mod_small by lia. destruct (IH (n + i)) as (k & -> & Hk); [lia | lia|]. exists k. split; [done | lia].
Qed.

Lemma legacy_bound tx : 20 * script_bytes tx < 2 ^ 32 -> exists k, GetLegacySigOpCount tx = Ret k /\ 0 <= k <= 20 * script_bytes tx.
Proof.
  unfold script_bytes. intros Hb. pose proof (script_sum_nonneg (map scriptSig (vin tx))). pose proof (script_sum_nonneg (map scriptPubKey (vout tx))). unfold GetLegacySigOpCount.
  destruct (add_sigops_bound (map scriptSig (vin tx)) 0) as (n & -> & Hn); [lia | lia|]. cbn [obind]. destruct (add_sigops_bound (map scriptPubKey (vout tx)) n) as (k & -> & Hk); [lia | lia|]. exists k. split; [done | lia].
Qed.

Lemma GetOp2_data b pc : go_ok (GetOp2 (b :: pc)) = true -> zlen (go_vch (GetOp2 (b :: pc))) <= zlen pc.
Proof.
  unfold GetOp2, getop_operand, getop_fail, zlen. repeat case_match; cbn [go_ok go_vch]; try done; intros _; rewrite ?length_take; subst; cbn [length]; rewrite ?length_drop; lia.
Qed.

Lemma last_push_bound fuel : forall data pc, (length pc <= fuel)%nat -> exists r, last_push_loop fuel data pc = Ret r /\ forall d, r = Some d -> zlen d <= Z.max (zlen data) (zlen pc).
Proof.
  induction fuel as [|fuel IH]; intros data [|b pc] Hl; cbn [length] in Hl; try lia; try (exists (Some data); split; [done|]; intros d [= <-]; lia).
  cbn [last_push_loop]. destruct (go_ok (GetOp2 (b :: pc))) eqn:Eok; cbn [negb]; [|by exists None]. destruct (OP_16 <? _); [by exists None|].
  pose proof (GetOp2_shorter b pc). pose proof (GetOp2_data b pc Eok). destruct (IH (go_vch (GetOp2 (b :: pc))) (go_pc (GetOp2 (b :: pc)))) as (r & -> & Hr); [lia|].
  exists r. split; [done|]. intros d Hd. specialize (Hr d Hd). unfold zlen in *. cbn [length]. lia.
Qed.

Lemma p2sh_count_bound s sig : IsPayToScriptHash s = true -> 20 * zlen sig < 2 ^ 32 -> exists k, GetSigOpCount_p2sh s sig = Ret k /\ 0 <= k <= 20 * zlen sig.
Proof.
  intros Hs Hb. unfold GetSigOpCount_p2sh. rewrite Hs. cbn [negb]. destruct (last_push_bound (length sig) [] sig) as (r & -> & Hr); [done|]. cbn [obind]. pose proof (zlen_nonneg sig).
  destruct r as [d|]; [|exists 0; split; [done | lia]]. specialize (Hr d eq_refl). change (zlen (@nil Z)) with 0 in Hr.
  destruct (GetSigOpCount_loop_spec (length d) d OP_INVALIDOPCODE 0 0) as (a & i & Ha & _ & H1 & H2); [done | lia | lia|]. exists a. split; [exact Ha | lia].
Qed.

Lemma p2sh_bound v outs ins : forall w n, reads v w -> Forall2 (fun i o => output_at v i = Some o) ins outs -> 0 <= n -> n + 20 * script_sum (map scriptSig ins) < 2 ^ 32 ->
  exists w' k, add_p2sh_sigops w ins n = Ret (w', k) /\ reads v w' /\ n <= k <= n + 20 * script_sum (map scriptSig ins).
Proof.
  intros w n Hr H. revert w n Hr. induction H as [|i o ins outs Ho H IH]; intros w n Hr Hn Hb; cbn [add_p2sh_sigops map script_sum foldr] in *; [exists w, n; split; [done|]; split; [done | lia]|].
  fold (script_sum (map scriptSig ins)) in *. pose proof (script_sum_nonneg (map scriptSig ins)). pose proof (zlen_nonneg (scriptSig i)). destruct (GetOutputFor_spec w i o) as (w1 & -> & Hr1); [apply Hr | by rewrite (reads_output v w i Hr)|].
  cbn [obind]. assert (reads v w1) as Hr01 by (by eapply reads_trans). destruct (IsPayToScriptHash (scriptPubKey o)) eqn:Es.
  - destruct (p2sh_count_bound _ (scriptSig i) Es) as (k & -> & Hk); [lia|]. cbn [counted obind]. unfold u32. rewrite Z.mod_small by lia. destruct (IH w1 (n + k) Hr01) as (w2 & m & -> & Hr2 & Hm); [lia | lia|]. exists w2, m. split; [done|]. split; [done | lia].
  - cbn [obind]. destruct (IH w1 n Hr01) as (w2 & m & -> & Hr2 & Hm); [lia | lia|]. exists w2, m. split; [done|]. split; [done | lia].
Qed.

(** ** A pool that is ready *)

(** The outputs that are made: those that are not cleared. *)
Lemma FromTx_lookup tx h i o : coin_output (fun _ => Some (FromTx tx h)) i = Some o -> vout tx !! Z.to_nat (prev_n (prevout i)) = Some o.
Proof.
  unfold coin_output. set (n := Z.to_nat _). unfold IsAvailable. unfold FromTx, ClearUnspendable. cbn [Cleanup with_vout coins_vout]. set (l := map clear_unspendable (vout tx)).
  destruct (drop_nulls_split l) as (q & Hq & _). destruct (drop_nulls l !! n) as [x|] eqn:Ex; [|done]. destruct (CTxOut_IsNull x) eqn:En; [done|]. intros [= ->].
  assert (l !! n = Some o) as Hl by (rewrite Hq; by apply lookup_app_l_Some). unfold l in Hl. rewrite list_lookup_fmap in Hl. destruct (vout tx !! n) as [y|]; [|done]. cbn in Hl. injection Hl as Hy.
  unfold clear_unspendable in Hy. destruct (IsUnspendable _); [subst o; done | by subst].
Qed.

Lemma HaveCoins_reads w k : view_ok w -> is_cache w = true -> exists w', HaveCoins w k = (w', bool_decide (is_Some (coins_at w k))) /\ reads w w'.
Proof.
  intros Hok Hc. destruct w as [|c base]; [done|]. destruct (AccessCoins_spec (ViewCache c base) k Hok) as (w' & E & Hr). pose proof (HaveCoins_spec c base k Hok) as H.
  exists w'. split; [|done]. rewrite <- H. unfold AccessCoins in E. unfold HaveCoins. by rewrite E.
Qed.

Definition delta_of (p : CTxMemPool) (h : list Z) : CAmount := (default (double_of 0, 0) (mapDeltas p !! h)).2.

(** A pool that extends the chain, of transactions that are new to it and valid, with
    scripts of bytes and amounts that do not overflow in a fee rate. *)
Record pool_ready (maxMoney : CAmount) (p : CTxMemPool) (tip : CCoinsView) : Prop := mkReady {
  rd_pool : pool_ok p;
  rd_view : view_ok tip;
  rd_backed : pool_backed p tip;
  rd_new : forall h e, mapTx p !! h = Some e -> coins_at tip h = None;
  rd_valid : forall h e, mapTx p !! h = Some e -> tx_valid maxMoney (tx_body (entry_tx e)) /\
    Forall (fun i => bytes_ok (scriptSig i)) (ins_of e) /\ Forall (fun o => bytes_ok (scriptPubKey o)) (vout (tx_body (entry_tx e)));
  rd_coins : forall i o, output_at tip i = Some o -> 0 <= nValue o <= maxMoney /\ bytes_ok (scriptPubKey o);
  rd_fees : forall h e outs, mapTx p !! h = Some e -> Forall2 (fun i o => pool_output p tip i = Some o) (ins_of e) outs -> total_value outs <= maxMoney /\
    -2 ^ 62 <= delta_of p h < 2 ^ 62 /\ -9 * 10 ^ 15 <= total_value outs + delta_of p h - total_value (vout (tx_body (entry_tx e))) <= 9 * 10 ^ 15
}.

Section Choosing.
Variables (maxMoney : CAmount) (p : CTxMemPool) (tip : CCoinsView).
Hypothesis max_moderate : 0 <= maxMoney < 2 ^ 62.
Hypothesis ready : pool_ready maxMoney p tip.
Variables (activeHeight adjustedTime nHeight : Z).

Abbreviation v0 := (new_cache tip).

Lemma v0_ok : cache_ok v0.
Proof. by split; [split; [apply ready|]|]. Qed.

Lemma v0_coins k : coins_at v0 k = coins_at tip k.
Proof. unfold coins_at, new_cache. cbn [view cacheCoins]. by rewrite lookup_empty. Qed.

Lemma v0_output i : output_at v0 i = output_at tip i.
Proof. apply coins_output, v0_coins. Qed.

(** A transaction of the pool that may go into the block. *)
Definition candidate (tx : CTransaction) : Prop := exists e, mapTx p !! (tx_hash tx : list Z) = Some e /\ entry_tx e = tx /\
  IsCoinBase (tx_body tx) = false /\ IsCoinStake (tx_body tx) = false /\ IsFinalTx (tx_body tx) activeHeight adjustedTime nHeight 0 = true.

Lemma pool_output_value i o : pool_output p tip i = Some o -> 0 <= nValue o <= maxMoney /\ bytes_ok (scriptPubKey o).
Proof.
  destruct (mapTx p !! (prev_hash (prevout i) : list Z)) as [e|] eqn:E; [|rewrite pool_output_out by done; apply ready].
  rewrite (pool_output_in p tip i e E). intros H%FromTx_lookup. destruct (rd_valid _ _ _ ready _ _ E) as ([_ _ _ (_ & H0 & Ht) _ _] & _ & Hb). apply list_elem_of_lookup_2 in H.
  rewrite Forall_forall in Hb, H0. split; [|by apply Hb]. split; [by apply H0|]. rewrite Z.add_0_l in Ht. assert (nValue o <= total_value (vout (tx_body (entry_tx e)))); [|lia].
  apply list_elem_of_lookup_1 in H as [k Hk]. clear -Hk H0. revert k Hk. induction (vout (tx_body (entry_tx e))) as [|x l IH]; intros [|k] Hk; try done; unfold total_value; cbn [foldr]; fold (total_value l).
  - injection Hk as ->. assert (0 <= total_value l); [|lia]. apply total_value_nonneg, Forall_forall. intros y Hy. apply H0. by right.
  - assert (0 <= nValue x) by (apply H0; by left). assert (nValue o <= total_value l); [|lia]. apply (IH ltac:(intros y Hy; apply H0; by right) k Hk).
Qed.

(** ** Waiting transactions *)

Definition dep_ok (d : Dependers) : Prop := forall h l i, mapDependers d !! h = Some l -> i ∈ l -> (i < length (orphans d))%nat.

(** [tx] is perhaps the last of the waiting transactions; the others are [os]. *)
Definition recorded (os : list COrphan) (tx : CTransaction) (porphan : option nat) (d : Dependers) : Prop :=
  dep_ok d /\ match porphan with None => orphans d = os | Some i => i = length os /\ exists o, orphans d = os ++ [o] /\ orphan_ptx o = tx end.

Lemma record_recorded os tx porphan txin d : recorded os tx porphan d ->
  recorded os tx (Some (fst (RecordOrphanTransaction porphan tx txin d))) (snd (RecordOrphanTransaction porphan tx txin d)).
Proof.
  intros [Hd Ho]. unfold RecordOrphanTransaction. set (f := fun o => mkOrphan _ _ _ _).
  assert (exists i o os', match porphan with Some i => (i, orphans d) | None => (length (orphans d), orphans d ++ [COrphan_of tx]) end = (i, os') /\ i = length os /\ os' = os ++ [o] /\ orphan_ptx o = tx /\ (length (orphans d) <= length os')%nat)
    as (i & o & os' & -> & -> & -> & Ht & Hl).
  { destruct porphan as [i|]; [destruct Ho as (-> & o & Ho & Ht); exists (length os), o, (os ++ [o]); rewrite Ho; by split_and! | exists (length os), (COrphan_of tx), (os ++ [COrphan_of tx])]. rewrite Ho. split_and!; try done. rewrite length_app. lia. }
  cbn [fst snd]. split; cbn [mapDependers orphans].
  - intros h l i Hl' Hi. cbn [mapDependers orphans] in *. rewrite length_alter. destruct (decide (h = prev_hash (prevout txin))) as [->|Hne].
    + rewrite lookup_insert_eq in Hl'. injection Hl' as <-. apply elem_of_app in Hi as [Hi|Hi%list_elem_of_singleton]; [|subst i; rewrite length_app; cbn; lia].
      destruct (mapDependers d !! _) as [l0|] eqn:E; [|by apply elem_of_nil in Hi]. specialize (Hd _ _ _ E Hi). lia.
    + rewrite lookup_insert_ne in Hl' by done. specialize (Hd _ _ _ Hl' Hi). lia.
  - split; [done|]. exists (f o). split; [|done]. rewrite alter_app_r_alt by done. by rewrite Nat.sub_diag.
Qed.

Lemma priority_inputs_returns tx os ins : forall outs w d porphan pri n, reads v0 w -> recorded os tx porphan d -> Forall2 (fun i o => pool_output p tip i = Some o) ins outs ->
  0 <= n -> n + total_value outs <= maxMoney ->
  exists w' d' porphan' pri', priority_inputs p nHeight tx ins w d porphan pri n = Ret (w', d', Some (porphan', pri', n + total_value outs)) /\ reads v0 w' /\ recorded os tx porphan' d'.
Proof.
  induction ins as [|i ins IH]; intros outs w d porphan pri n Hr Hd H Hn Hb; cbn [priority_inputs].
  { inversion H; subst. exists w, d, porphan, pri. cbn. rewrite Z.add_0_r. by split_and!. }
  apply Forall2_cons_inv_l in H as (o & outs' & Ho & H & ->). destruct (pool_output_value i o Ho) as [[Hv0 Hv1] _].
  assert (Hnn : 0 <= total_value outs').
  { apply total_value_nonneg, Forall_forall. intros x Hx. apply list_elem_of_lookup_1 in Hx as [k Hk]. destruct (Forall2_lookup_r _ _ _ _ _ H Hk) as (j & _ & Hj). by apply pool_output_value in Hj as [[] _]. }
  unfold total_value in Hb |- *. cbn [foldr] in Hb |- *. fold (total_value outs') in Hb |- *. rewrite Z.add_assoc in Hb |- *.
  destruct (HaveCoins_reads w (prev_hash (prevout i)) (proj1 Hr)) as (w1 & -> & Hr1); [by destruct Hr as (_ & _ & _ & ->)|]. assert (reads v0 w1) as Hr01 by (by eapply reads_trans).
  rewrite (reads_coins v0 w _ Hr), v0_coins. destruct (mapTx p !! (prev_hash (prevout i) : list Z)) as [e|] eqn:E.
  - rewrite (rd_new _ _ _ ready _ _ E). rewrite bool_decide_eq_false_2 by (by intros []). cbn [negb]. unfold lookupOutpoint, lookup. rewrite E. cbn [fmap option_fmap option_map].
    pose proof (record_recorded os tx porphan i d Hd) as Hrec. destruct (RecordOrphanTransaction porphan tx i d) as [j d1]. cbn [fst snd] in Hrec.
    rewrite (pool_output_in p tip i e E) in Ho. apply FromTx_lookup in Ho. rewrite Ho. cbn [oaccess obind]. rewrite amount_add_ok by lia. cbn [obind]. by apply IH; [| | |lia|].
  - rewrite pool_output_out in Ho by done. destruct (output_available tip i o Ho) as (c & _ & Hc & _ & Hl). rewrite Hc, bool_decide_eq_true_2 by eauto. cbn [negb].
    destruct (AccessCoins_spec w1 (prev_hash (prevout i)) (proj1 Hr1)) as (w2 & -> & Hr2). assert (reads v0 w2) as Hr02 by (by eapply reads_trans).
    assert (view w1 (prev_hash (prevout i)) = Some c) as ->.
    { assert (output_at w1 i = Some o) as Ho1 by (by rewrite (reads_output v0 w1 i Hr01), v0_output). destruct (output_available w1 i o Ho1) as (c' & Hv & Hc' & _).
      rewrite (reads_coins v0 w1 _ Hr01), v0_coins, Hc in Hc'. congruence. }
    cbn [oaccess obind]. rewrite Hl. cbn [oaccess obind]. rewrite amount_add_ok by lia. cbn [obind]. by apply IH; [| | |lia|].
Qed.

Lemma CFeeRate_of_returns a n : -9 * 10 ^ 15 - 1 <= a <= 9 * 10 ^ 15 + 1 -> exists r, CFeeRate_of a n = Ret r.
Proof.
  intros H. unfold CFeeRate_of. destruct (_ >? 0); [|by eexists]. rewrite amount_mul_returns; [cbn [obind]; by eexists|]. unfold fits_int64, FEE_INCREMENT_STEPSIZE. lia.
Qed.

Definition txs_of (vec : list TxPriority) (os : list COrphan) : list CTransaction := map pr_tx vec ++ map orphan_ptx os.

Lemma ComputeTransactionPriority_returns tx e outs os porphan d pri vec : recorded os tx porphan d -> mapTx p !! (tx_hash tx : list Z) = Some e -> entry_tx e = tx ->
  Forall2 (fun i o => pool_output p tip i = Some o) (vin (tx_body tx)) outs ->
  exists d' vec', ComputeTransactionPriority p pri tx (total_value outs) porphan d vec = Ret (d', vec') /\ dep_ok d' /\ Permutation (txs_of vec' (orphans d')) (tx :: txs_of vec os).
Proof.
  intros [Hd Ho] He Ht Hf. rewrite <- Ht in Hf. destruct (rd_fees _ _ _ ready _ e outs He Hf) as (Htot & Hdelta & Hpaid). destruct (rd_valid _ _ _ ready _ _ He) as [Hval _]. rewrite Ht in *.
  destruct (valid_value_out maxMoney max_moderate _ Hval) as [Hout Hob].
  assert (0 <= total_value outs) as Hnn.
  { apply total_value_nonneg, Forall_forall. intros x Hx. apply list_elem_of_lookup_1 in Hx as [k Hk]. destruct (Forall2_lookup_r _ _ _ _ _ Hf Hk) as (j & _ & Hj). by apply pool_output_value in Hj as [[] _]. }
  unfold ComputeTransactionPriority. cbv zeta. set (pri1 := ComputePriority _ _ _).
  assert (exists pri2, ApplyDeltas p (tx_hash tx) pri1 (total_value outs) = Ret (pri2, total_value outs + delta_of p (tx_hash tx))) as (pri2 & ->).
  { unfold ApplyDeltas. unfold delta_of in *. destruct (mapDeltas p !! (tx_hash tx : list Z)) as [[dp df]|] eqn:Ed; [|exists pri1; cbn; by rewrite Z.add_0_r].
    cbn in Hdelta |- *. rewrite amount_add_ok by lia. cbn [obind]. by eexists. }
  cbn [obind]. rewrite Hout. cbn [obind]. rewrite amount_add_ok by lia. cbn [obind]. destruct (CFeeRate_of_returns (total_value outs + delta_of p (tx_hash tx) + - total_value (vout (tx_body tx))) (u32 (GetSerializeSize transaction_codec tx))) as [r ->]; [lia|]. cbn [obind].
  destruct porphan as [i|].
  - destruct Ho as (-> & o & Ho & Hot). eexists _, _. split; [reflexivity|]. split.
    + intros h l i Hl Hi. cbn [mapDependers orphans] in *. rewrite length_alter. by apply (Hd h l).
    + cbn [orphans]. rewrite Ho, alter_app_r_alt, Nat.sub_diag by done. cbn. unfold txs_of. rewrite map_app. cbn [map orphan_ptx]. rewrite Hot, app_assoc. symmetry. apply Permutation_cons_append.
  - eexists _, _. split; [reflexivity|]. split; [done|]. rewrite Ho. unfold txs_of. rewrite map_app. cbn [map pr_tx]. rewrite <- app_assoc. symmetry. apply Permutation_middle.
Qed.

(** All inputs of the pool are found. *)
Lemma pool_inputs_found h e : mapTx p !! h = Some e -> exists outs, Forall2 (fun i o => pool_output p tip i = Some o) (ins_of e) outs.
Proof.
  intros He. pose proof (rd_backed _ _ _ ready h e) as Hb. assert (forall i, i ∈ ins_of e -> is_Some (pool_output p tip i)) as Ha by (intros i Hi; by apply (Hb i)). clear Hb. clear - Ha.
  induction (ins_of e) as [|i l IH]; [exists []; constructor|]. destruct (Ha i) as [o Ho]; [by left|]. destruct IH as [outs H]; [intros j Hj; apply Ha; by right|]. exists (o :: outs). by constructor.
Qed.

Lemma Prioritize_returns entries : forall w d vec, reads v0 w -> dep_ok d -> (forall k e, (k, e) ∈ entries -> mapTx p !! k = Some e) ->
  NoDup (map fst entries) -> Forall candidate (txs_of vec (orphans d)) -> NoDup (hashes (txs_of vec (orphans d))) -> (forall k, k ∈ hashes (txs_of vec (orphans d)) -> k ∉ map fst entries) ->
  exists w' d' vec', PrioritizeMempoolTransactions p activeHeight adjustedTime nHeight entries w d vec = Ret (w', d', vec') /\ reads v0 w' /\ dep_ok d' /\
    Forall candidate (txs_of vec' (orphans d')) /\ NoDup (hashes (txs_of vec' (orphans d'))).
Proof.
  induction entries as [|[k e] entries IH]; intros w d vec Hr Hd Hent Hnd Hcand Hu Hdis; cbn [PrioritizeMempoolTransactions]; [by exists w, d, vec|].
  cbn [map fst] in Hnd, Hdis. apply NoDup_cons in Hnd as [Hk Hnd]. assert (He : mapTx p !! k = Some e) by (apply Hent; by left). pose proof (po_hash p (rd_pool _ _ _ ready) k e He) as Hh.
  assert (Hent' : forall k e, (k, e) ∈ entries -> mapTx p !! k = Some e) by (intros k' e' Hin; apply Hent; by right).
  destruct (IsCoinBase (tx_body (entry_tx e))) eqn:Ecb; cbn [orb]; [apply IH; try done; intros j Hj Hin; apply (Hdis j Hj); by right|].
  destruct (IsCoinStake (tx_body (entry_tx e))) eqn:Ecs; cbn [orb]; [apply IH; try done; intros j Hj Hin; apply (Hdis j Hj); by right|].
  destruct (IsFinalTx _ _ _ _ _) eqn:Efin; cbn [negb]; [|apply IH; try done; intros j Hj Hin; apply (Hdis j Hj); by right].
  destruct (pool_inputs_found k e He) as [outs Hf]. destruct (rd_fees _ _ _ ready _ e outs He Hf) as (Htot & _).
  destruct (priority_inputs_returns (entry_tx e) (orphans d) (ins_of e) outs w d None (double_of 0) 0 Hr) as (w1 & d1 & po & pri & -> & Hr1 & Hrec); [by split | done | lia | lia|]. cbn [obind]. rewrite Z.add_0_l.
  destruct (ComputeTransactionPriority_returns (entry_tx e) e outs (orphans d) po d1 pri vec Hrec) as (d2 & vec2 & -> & Hd2 & Hperm); [by rewrite Hh | done | done|]. cbn [obind].
  assert (Permutation (hashes (txs_of vec2 (orphans d2))) (k :: hashes (txs_of vec (orphans d)))) as Hph by (rewrite <- Hh; exact (fmap_Permutation (fun tx => tx_hash tx : list Z) _ _ Hperm)).
  apply IH; try done.
  - rewrite Hperm. constructor; [exists e; by rewrite Hh | done].
  - rewrite Hph. apply NoDup_cons. split; [|done]. intros Hin. apply (Hdis k Hin). by left.
  - intros j Hj. rewrite Hph in Hj. apply elem_of_cons in Hj as [->|Hj]; [done|]. intros Hin. apply (Hdis j Hj). by right.
Qed.

(** ** Filling *)

Context {SH : ScriptHashes}.
Variable Verify : CPubKey -> base_uint -> valtype -> bool.
Variable maturity : Z.
Variable heap : index_heap.
Variable blockIndexMap : gmap (list Z) positive.
Hypothesis tip_known : exists q b, blockIndexMap !! best tip = Some q /\ heap !! q = Some b.
Variables (blockMaxSize_ blockPrioritySize_ blockMinSize_ : Z).
Hypothesis max_size : blockMaxSize_ < 2 ^ 32.
Variable txFeeRate_ : CFeeRate.
Variable choose : list TxPriority -> nat.

Abbreviation inputs_checked tx v := (CheckInputs Verify maxMoney maturity heap blockIndexMap (tx_body tx) CValidationState_new v 0 0 true MANDATORY_SCRIPT_VERIFY_FLAGS true None false).

(** The transactions pass the checks of the inputs one after the other, each over the
    coins that those before it leave, and have the signature operations noted. *)
Inductive builds : list PrioritizedTransactionData -> CCoinsView -> Prop :=
  | builds_none w : reads v0 w -> builds [] w
  | builds_next l w w1 tx a b u r w2 undos w' : builds l w -> coins_at w (tx_hash tx) = None -> reads w w1 -> GetLegacySigOpCount (tx_body tx) = Ret a ->
      GetP2SHSigOpCount w1 (tx_body tx) = Ret (u, b) -> reads w1 u -> inputs_checked tx u = Ret r -> (ci_result r).1 = true -> reads u (ci_view r) ->
      UpdateCoinsWithTransaction tx (ci_view r) nHeight = Ret (w2, undos) -> reads w2 w' -> builds (l ++ [mkPrioritized tx (a + b)]) w'.

Lemma builds_reads l w w' : builds l w -> reads w w' -> builds l w'.
Proof. intros H Hr. destruct H; [constructor; by eapply reads_trans | eapply builds_next; eauto; by eapply reads_trans]. Qed.

Definition waiting (os : list COrphan) : list COrphan := base.filter (fun o => setDependsOn o <> ∅) os.

(** What is in the queue or waits. *)
Definition open_txs (vec : list TxPriority) (os : list COrphan) : list CTransaction := map pr_tx vec ++ map orphan_ptx (waiting os).

Lemma waiting_insert os i o o' : os !! i = Some o -> setDependsOn o <> ∅ -> orphan_ptx o' = orphan_ptx o ->
  map orphan_ptx (<[i := o']> os) = map orphan_ptx os /\
  Permutation (if bool_decide (setDependsOn o' = ∅) then orphan_ptx o :: map orphan_ptx (waiting (<[i := o']> os)) else map orphan_ptx (waiting (<[i := o']> os))) (map orphan_ptx (waiting os)).
Proof.
  intros Ho Hne Hp. apply list_elem_of_split_length in Ho as (l1 & l2 & -> & ->). rewrite insert_app_r_alt, Nat.sub_diag by done. cbn [insert list_insert]. split.
  - rewrite !map_app. cbn [map]. by rewrite Hp.
  - unfold waiting. rewrite !filter_app, !filter_cons, (decide_True (P := setDependsOn o <> ∅)) by done. case_bool_decide as He.
    + rewrite decide_False by tauto. rewrite !map_app. cbn [map]. apply Permutation_middle.
    + rewrite decide_True by done. rewrite !map_app. cbn [map]. by rewrite Hp.
Qed.

Lemma release_returns hash l : forall os vec, (forall i, i ∈ l -> (i < length os)%nat) ->
  exists os' vec', release_dependers hash l os vec = Ret (os', vec') /\ length os' = length os /\ map orphan_ptx os' = map orphan_ptx os /\ Permutation (open_txs vec' os') (open_txs vec os).
Proof.
  induction l as [|i l IH]; intros os vec Hl; cbn [release_dependers]; [by exists os, vec|]. destruct (lookup_lt_is_Some_2 os i) as [o Ho]; [apply Hl; by left|]. rewrite Ho. cbn [oaccess obind].
  case_bool_decide as He; [apply IH; intros j Hj; apply Hl; by right|]. set (o' := mkOrphan _ _ _ _). destruct (waiting_insert os i o o' Ho He eq_refl) as [Hm Hw].
  destruct (IH (<[i := o']> os) (if bool_decide (setDependsOn o' = ∅) then vec ++ [mkPriority (orphan_dPriority o') (orphan_feeRate o') (orphan_ptx o')] else vec)) as (os' & vec' & -> & Hlen & Hm' & Hp).
  { intros j Hj. rewrite length_insert. apply Hl. by right. }
  exists os', vec'. split; [done|]. split; [by rewrite Hlen, length_insert|]. split; [congruence|]. rewrite Hp. unfold open_txs. rewrite <- Hw. case_bool_decide; [|done].
  rewrite map_app. cbn [map pr_tx]. change (orphan_ptx o') with (orphan_ptx o). rewrite <- app_assoc. done.
Qed.

Lemma depending_returns d hash vec : dep_ok d -> exists d' vec', AddDependingTransactionsToPriorityQueue d hash vec = Ret (d', vec') /\ dep_ok d' /\
  map orphan_ptx (orphans d') = map orphan_ptx (orphans d) /\ Permutation (open_txs vec' (orphans d')) (open_txs vec (orphans d)).
Proof.
  intros Hd. unfold AddDependingTransactionsToPriorityQueue. destruct (mapDependers d !! hash) as [l|] eqn:El; [|by exists d, vec].
  destruct (release_returns hash l (orphans d) vec) as (os & vec' & -> & Hlen & Hm & Hp); [intros i Hi; by apply (Hd hash l)|]. cbn [obind]. exists (mkDependers os (mapDependers d)), vec'. split; [done|].
  split; [|done]. intros h l' i Hl Hi. cbn [mapDependers orphans] in *. rewrite Hlen. by apply (Hd h l').
Qed.

Definition tx_size (tx : CTransaction) : Z := GetSerializeSize transaction_codec tx.
Definition size_sum (l : list PrioritizedTransactionData) : Z := foldr (fun t n => tx_size (pt_tx t) + n) 0 l.
Definition sigops_sum (l : list PrioritizedTransactionData) : Z := foldr (fun t n => nTxSigOps t + n) 0 l.

Record fill_ok (s : Filling) : Prop := mkFillOk {
  fo_cache : cache_ok (fl_view s);
  fo_best : best (fl_view s) = best tip;
  fo_tame : forall i o, output_at (fl_view s) i = Some o -> 0 <= nValue o <= maxMoney /\ bytes_ok (scriptPubKey o);
  fo_new : forall k, is_Some (coins_at (fl_view s) k) -> is_Some (coins_at tip k) \/ k ∈ hashes (map pt_tx (fl_taken s));
  fo_builds : builds (fl_taken s) (fl_view s);
  fo_size : nBlockSize s = 1000 + size_sum (fl_taken s) /\ (fl_taken s = [] \/ nBlockSize s < blockMaxSize_) /\ 1000 <= nBlockSize s < 2 ^ 32;
  fo_sigops : nBlockSigOps s = 100 + sigops_sum (fl_taken s) /\ 100 <= nBlockSigOps s < MAX_BLOCK_SIGOPS_CURRENT;
  fo_taken : Forall candidate (map pt_tx (fl_taken s));
  fo_cand : Forall candidate (txs_of (fl_vec s) (orphans (fl_dependers s)));
  fo_unique : NoDup (hashes (map pt_tx (fl_taken s) ++ open_txs (fl_vec s) (orphans (fl_dependers s))));
  fo_dep : dep_ok (fl_dependers s)
}.

Definition fill_measure (s : Filling) : nat := length (open_txs (fl_vec s) (orphans (fl_dependers s))).

(** Leaving a transaction out. *)
Lemma skip_ok s x vec sorted w : fill_ok s -> Permutation (fl_vec s) (x :: vec) -> reads (fl_view s) w ->
  fill_ok (with_order s vec sorted w) /\ (fill_measure (with_order s vec sorted w) < fill_measure s)%nat.
Proof.
  intros [H1 H2 H3 H4 H5 H6 H7 H8 H9 H10 H11] Hp Hr. split; [split; cbn [with_order fl_view fl_vec fl_dependers fl_taken nBlockSize nBlockSigOps]; try done|].
  - by apply (reads_cache (fl_view s)).
  - rewrite <- H2. apply (reads_best _ _ Hr).
  - intros i o Ho. rewrite (reads_output _ _ i Hr) in Ho. by apply (H3 i).
  - intros k Hk. rewrite (reads_coins _ _ k Hr) in Hk. by apply H4.
  - by apply (builds_reads _ (fl_view s)).
  - unfold txs_of in H9 |- *. rewrite Hp in H9. cbn [map] in H9. by apply Forall_cons in H9 as [_ H9].
  - unfold open_txs, hashes in H10 |- *. rewrite Hp in H10. cbn [map] in H10. rewrite map_app in H10 |- *. apply NoDup_app in H10 as (A1 & A2 & A3). apply NoDup_app. split; [done|]. cbn [app map] in A2, A3. apply NoDup_cons in A3 as [_ A3]. split; [|done].
    intros y Hy Hin. apply (A2 y Hy). by right.
  - unfold fill_measure, open_txs. cbn [with_order fl_vec fl_dependers]. rewrite !length_app, !length_map. rewrite Hp. cbn [length]. lia.
Qed.

Lemma candidate_small tx : candidate tx -> 0 <= 20 * script_bytes (tx_body tx) <= 20 * tx_size tx /\ tx_size tx <= 100000.
Proof.
  intros (e & He & <- & _). destruct (rd_valid _ _ _ ready _ _ He) as ([_ _ Hs _ _ _] & _). pose proof (script_bytes_size (tx_body (entry_tx e))). change (tx_size (entry_tx e)) with (GetSerializeSize mutable_codec (tx_body (entry_tx e))).
  unfold script_bytes in *. pose proof (script_sum_nonneg (map scriptSig (vin (tx_body (entry_tx e))))). pose proof (script_sum_nonneg (map scriptPubKey (vout (tx_body (entry_tx e))))). lia.
Qed.

(** The outputs a candidate makes are tame. *)
Lemma candidate_outputs tx h i o : candidate tx -> coin_output (fun _ => Some (FromTx (tx_body tx) h)) i = Some o -> 0 <= nValue o <= maxMoney /\ bytes_ok (scriptPubKey o).
Proof.
  intros (e & He & <- & _) Ho. apply (pool_output_value (mkTxIn (mkOutPoint (tx_hash (entry_tx e)) (prev_n (prevout i))) [] 0)). rewrite (pool_output_in p tip _ e) by done. exact Ho.
Qed.

(** Before a candidate is applied, a view without it shows none of its coins. *)
Lemma fill_fresh s x vec : fill_ok s -> Permutation (fl_vec s) (x :: vec) -> candidate (pr_tx x) -> coins_at (fl_view s) (tx_hash (pr_tx x)) = None.
Proof.
  intros Hs Hp (e & He & _). apply eq_None_not_Some. intros [H|H]%(fo_new s Hs); [rewrite (rd_new _ _ _ ready _ _ He) in H; by destruct H|].
  pose proof (fo_unique s Hs) as Hu. unfold hashes in *. rewrite map_app in Hu. apply NoDup_app in Hu as (_ & Hu & _). apply (Hu _ H). unfold open_txs. rewrite Hp. cbn [map app]. by left.
Qed.

(** The inputs of a candidate can be checked and spent. *)
Lemma candidate_applies tx w : candidate tx -> cache_ok w -> best w = best tip -> (forall i o, output_at w i = Some o -> 0 <= nValue o <= maxMoney /\ bytes_ok (scriptPubKey o)) ->
  coins_at w (tx_hash tx) = None -> (exists outs, Forall2 (fun i o => output_at w i = Some o) (vin (tx_body tx)) outs) ->
  exists r, inputs_checked tx w = Ret r /\ reads w (ci_view r) /\
    exists w2 undos, UpdateCoinsWithTransaction tx (ci_view r) nHeight = Ret (w2, undos) /\ cache_ok w2 /\ best w2 = best tip /\
      (forall i o, output_at w2 i = Some o -> 0 <= nValue o <= maxMoney /\ bytes_ok (scriptPubKey o)) /\
      (forall k, is_Some (coins_at w2 k) -> is_Some (coins_at w k) \/ k = tx_hash tx).
Proof.
  intros Hc Hw Hb Ht Hn [outs Ho]. pose proof Hc as (e & He & Hte & Hcb & _). destruct (rd_valid _ _ _ ready _ _ He) as (Hval & Hsig & _). unfold ins_of in Hsig. rewrite Hte in *.
  destruct (valid_value_out maxMoney max_moderate _ Hval) as [Hout _]. destruct tip_known as (q & bi & Hq & Hbi).
  destruct (CheckInputs_spec Verify maxMoney maturity heap blockIndexMap max_moderate w (tx_body tx) CValidationState_new q bi (total_value (vout (tx_body tx))) true MANDATORY_SCRIPT_VERIFY_FLAGS true None false (proj1 Hw) Hcb) as (r & Hr & Hrd & _); [unfold best in *; by rewrite Hb | done | exact Hout | |].
  { eapply Forall_impl; [exact Hsig|]. intros i Hi. split; [done|]. intros o Hoi. destruct (Ht i o Hoi) as [Hv Hs]. split; [unfold moderate; lia | done]. }
  exists r. split; [done|]. split; [done|]. pose proof (reads_cache _ _ Hrd Hw) as Hw1. destruct (view_shown _ (proj1 Hw1)) as [m Hm].
  assert (Hnew : m !! (tx_hash tx : list Z) = None) by (rewrite <- (Hm (tx_hash tx)), (reads_coins _ _ _ Hrd); exact Hn).
  assert (Hpos : Forall (fun o => 0 <= nValue o) (vout (tx_body tx))) by apply Hval.
  assert (Hnd : NoDup (map spends (vin (tx_body tx)))).
  { apply distinct_spends; [apply Hval|]. apply Forall_forall. intros i Hi. apply (rd_backed _ _ _ ready _ e i He). unfold ins_of. by rewrite Hte. }
  destruct (update_shows (ci_view r) m tx nHeight outs Hw1 Hm Hnew Hpos) as (w2 & undos & m' & Hup & Hw2 & Hb2 & Hm2 & _ & Hkeep).
  { right. split; [done|]. split; [|done]. eapply Forall2_impl; [exact Ho|]. intros j o Hj. cbn beta in Hj. by rewrite <- (shows_output _ m j Hm), (reads_output _ _ j Hrd). }
  exists w2, undos. split; [exact Hup|]. split; [done|]. split; [rewrite Hb2, <- Hb; apply (reads_best _ _ Hrd)|]. split.
  - intros i o Hi. destruct (UpdateCoins_output tx _ _ _ _ Hw1 Hup) as [_ Hoj]. rewrite Hoj in Hi. case_bool_decide; [by apply (candidate_outputs tx nHeight i)|]. case_bool_decide; [done|].
    rewrite (reads_output _ _ i Hrd) in Hi. by apply (Ht i).
  - intros k Hk. destruct (decide (k = tx_hash tx)) as [|Hne]; [by right|]. left. rewrite <- (reads_coins _ _ k Hrd), (Hm k). destruct (m !! k) eqn:E; [by eexists|]. rewrite (eq_trans (Hm2 k) (Hkeep k E Hne)) in Hk. by destruct Hk.
Qed.

Lemma size_sum_snoc l t : size_sum (l ++ [t]) = size_sum l + tx_size (pt_tx t).
Proof. induction l as [|x l IH]; cbn [app size_sum foldr]; [lia|]. fold (size_sum (l ++ [t])) (size_sum l). lia. Qed.

Lemma sigops_sum_snoc l t : sigops_sum (l ++ [t]) = sigops_sum l + nTxSigOps t.
Proof. induction l as [|x l IH]; cbn [app sigops_sum foldr]; [lia|]. fold (sigops_sum (l ++ [t])) (sigops_sum l). lia. Qed.

Lemma open_candidates vec os : Forall candidate (txs_of vec os) -> Forall candidate (open_txs vec os).
Proof.
  unfold txs_of, open_txs. rewrite !Forall_app. intros [H1 H2]. split; [done|]. apply Forall_forall. intros tx (o & -> & Ho)%list_elem_of_fmap. unfold waiting in Ho.
  apply list_elem_of_filter in Ho as [_ Ho]. rewrite Forall_forall in H2. apply H2, list_elem_of_fmap. by exists o.
Qed.

(** Taking a transaction. *)
Lemma take_ok s x tx vec sorted a b w1 u r w2 undos w' : fill_ok s -> Permutation (fl_vec s) (x :: vec) -> pr_tx x = tx ->
  candidate tx -> reads (fl_view s) w1 -> GetLegacySigOpCount (tx_body tx) = Ret a -> GetP2SHSigOpCount w1 (tx_body tx) = Ret (u, b) -> reads w1 u -> inputs_checked tx u = Ret r -> (ci_result r).1 = true -> reads u (ci_view r) ->
  UpdateCoinsWithTransaction tx (ci_view r) nHeight = Ret (w2, undos) -> reads w2 w' -> cache_ok w2 -> best w2 = best tip ->
  (forall i o, output_at w2 i = Some o -> 0 <= nValue o <= maxMoney /\ bytes_ok (scriptPubKey o)) ->
  (forall k, is_Some (coins_at w2 k) -> is_Some (coins_at (fl_view s) k) \/ k = tx_hash tx) ->
  0 <= tx_size tx -> nBlockSize s + tx_size tx < blockMaxSize_ -> 0 <= a + b -> nBlockSigOps s + (a + b) < MAX_BLOCK_SIGOPS_CURRENT ->
  exists d' vec', AddDependingTransactionsToPriorityQueue (fl_dependers s) (tx_hash tx) vec = Ret (d', vec') /\
    let s' := mkFilling vec' d' w' sorted (nBlockSize s + tx_size tx) (nBlockSigOps s + (a + b)) (fl_taken s ++ [mkPrioritized tx (a + b)]) in fill_ok s' /\ (fill_measure s' < fill_measure s)%nat.
Proof.
  intros Hs Hp <- Hc Hr1 Ha Hb Hru Hr Hok Hrr Hup Hr2 Hw2 Hb2 Ht2 Hn2 Hsz Hmax Hsig Hmaxs. destruct (depending_returns (fl_dependers s) (tx_hash (pr_tx x)) vec (fo_dep s Hs)) as (d' & vec' & Hdep & Hd' & Hos & Hop). exists d', vec'. split; [done|].
  pose proof (fo_cand s Hs) as Hcand. assert (Hopen : Permutation (open_txs (fl_vec s) (orphans (fl_dependers s))) (pr_tx x :: open_txs vec' (orphans d'))) by (rewrite Hop; unfold open_txs; rewrite Hp; done).
  split; [split; cbn [fl_view fl_vec fl_dependers fl_taken nBlockSize nBlockSigOps]|].
  - by apply (reads_cache w2).
  - rewrite <- Hb2. apply (reads_best _ _ Hr2).
  - intros i o Ho. rewrite (reads_output _ _ i Hr2) in Ho. by apply (Ht2 i).
  - intros k Hk. rewrite (reads_coins _ _ k Hr2) in Hk. rewrite map_app. unfold hashes. rewrite map_app. destruct (Hn2 k Hk) as [H| ->]; [|right; apply elem_of_app; right; by left].
    destruct (fo_new s Hs k H) as [?|?]; [by left | right; apply elem_of_app; by left].
  - eapply builds_next; [apply (fo_builds s Hs) | by apply (fill_fresh s x vec) | exact Hr1 | done | exact Hb | done | exact Hr | done | done | exact Hup | done].
  - pose proof (fo_size s Hs) as (H1 & _ & H3). rewrite size_sum_snoc. cbn [pt_tx]. split; [lia|]. split; [by right | lia].
  - pose proof (fo_sigops s Hs) as (H1 & H3). rewrite sigops_sum_snoc. cbn [nTxSigOps]. lia.
  - rewrite map_app. apply Forall_app. split; [apply (fo_taken s Hs) | by apply Forall_singleton].
  - unfold txs_of in *. apply Forall_app. rewrite Hos. apply Forall_app in Hcand as [_ Ho]. split; [|done].
    pose proof (open_candidates _ _ (fo_cand s Hs)) as Hall. rewrite Hopen in Hall. apply Forall_cons in Hall as [_ Hall]. unfold open_txs in Hall. by apply Forall_app in Hall as [Hall _].
  - rewrite map_app. cbn [map pt_tx]. rewrite <- app_assoc. cbn [app]. pose proof (fo_unique s Hs) as Hu. unfold hashes in *. rewrite Hopen in Hu. done.
  - done.
  - unfold fill_measure. cbn [fl_vec fl_dependers]. rewrite (Permutation_length Hopen). cbn [length]. lia.
Qed.

Lemma sigops_limit : MAX_BLOCK_SIGOPS_CURRENT = 40000.
Proof. reflexivity. Qed.

Lemma try_ok s x tx vec sorted a : fill_ok s -> Permutation (fl_vec s) (x :: vec) -> pr_tx x = tx -> candidate tx -> GetLegacySigOpCount (tx_body tx) = Ret a -> 0 <= a <= 2000000 ->
  nBlockSize s + tx_size tx < blockMaxSize_ ->
  exists s', try_transaction Verify maxMoney maturity heap blockIndexMap nHeight tx (tx_size tx) a (with_order s vec sorted (fl_view s)) = Ret s' /\ fill_ok s' /\ (fill_measure s' < fill_measure s)%nat.
Proof.
  intros Hs Hp Hx Hc Ha Hab Hmax. pose proof (candidate_small tx Hc) as [Hsb Hsz]. pose proof (fill_fresh s x vec Hs Hp) as Hfresh. rewrite Hx in Hfresh. specialize (Hfresh Hc). pose proof Hc as (e & He & Hte & Hcb & _).
  pose proof (fo_cache s Hs) as Hcache. pose proof (fo_sigops s Hs) as [_ Hso]. pose proof (fo_size s Hs) as (_ & _ & Hbs). rewrite sigops_limit in *.
  unfold try_transaction. cbn [with_order fl_view fl_vec fl_dependers fl_sorted nBlockSize nBlockSigOps fl_taken].
  unfold HaveInputs. rewrite Hcb. cbn [negb]. destruct (have_inputs_spec (vin (tx_body tx)) _ (proj1 Hcache)) as (w1 & -> & Hr1).
  assert (Hskip : forall w, reads (fl_view s) w -> exists s', (Ret (with_order (with_order s vec sorted (fl_view s)) vec sorted w) : io Filling) = Ret s' /\ fill_ok s' /\ (fill_measure s' < fill_measure s)%nat).
  { intros w Hw. eexists. split; [reflexivity|]. exact (skip_ok s x vec sorted w Hs Hp Hw). }
  destruct (forallb _ _) eqn:Ef; cbn [negb]; [|by apply Hskip]. apply have_outputs in Ef as [outs Ho].
  assert (Hs1 : 20 * script_sum (map scriptSig (vin (tx_body tx))) <= 2000000).
  { unfold script_bytes in Hsb. pose proof (script_sum_nonneg (map scriptPubKey (vout (tx_body tx)))). lia. }
  destruct (p2sh_bound w1 outs (vin (tx_body tx)) w1 0) as (u & b & Hb & Hru1 & Hbb); [apply reads_refl, Hr1 | | lia | lia|].
  { eapply Forall2_impl; [exact Ho|]. intros j o Hj. cbn beta in Hj. by rewrite (reads_output _ _ j Hr1). }
  assert (Hru : reads (fl_view s) u) by (by eapply reads_trans).
  assert (Hb' : GetP2SHSigOpCount w1 (tx_body tx) = Ret (u, b)) by (unfold GetP2SHSigOpCount; by rewrite Hcb). rewrite Hb'. cbn [obind].
  assert (u32 (a + b) = a + b) as -> by (unfold u32; rewrite Z.mod_small; lia). assert (u32 (nBlockSigOps s + (a + b)) = nBlockSigOps s + (a + b)) as -> by (unfold u32; rewrite Z.mod_small; lia).
  rewrite sigops_limit. destruct (Z.leb_spec 40000 (nBlockSigOps s + (a + b))); [by apply Hskip|].
  assert (Hcu : cache_ok u) by (by apply (reads_cache (fl_view s))).
  destruct (candidate_applies tx u Hc Hcu) as (r & Hr & Hrr & w2 & undos & Hup & Hw2 & Hb2 & Ht2 & Hn2).
  { rewrite <- (fo_best s Hs). apply (reads_best _ _ Hru). }
  { intros i o Hi. rewrite (reads_output _ _ i Hru) in Hi. by apply (fo_tame s Hs i). }
  { by rewrite (reads_coins _ _ _ Hru). }
  { exists outs. eapply Forall2_impl; [exact Ho|]. intros j o Hj. cbn beta in Hj. by rewrite (reads_output _ _ j Hru). }
  rewrite Hr. cbn [obind]. destruct (ci_result r).1 eqn:Eres; cbn [negb]; [|apply Hskip; by eapply reads_trans]. rewrite Hup. cbn [obind].
  cbn [with_order fl_dependers fl_vec fl_sorted fl_taken]. destruct (take_ok s x tx vec sorted a b w1 u r w2 undos w2 Hs Hp Hx Hc Hr1 Ha Hb' Hru1 Hr Eres Hrr Hup) as (d' & vec' & Hdep & Hres); try done; try lia.
  { apply reads_refl, Hw2. } { intros k Hk. rewrite <- (reads_coins _ _ k Hru). by apply Hn2. }
  rewrite Hdep. cbn [obind]. assert (u64 (nBlockSize s + tx_size tx) = nBlockSize s + tx_size tx) as -> by (unfold u64; rewrite Z.mod_small; lia).
  assert (i32 (nBlockSigOps s + (a + b)) = nBlockSigOps s + (a + b)) as ->; [|eexists; split; [reflexivity | exact Hres]]. unfold i32. rewrite Z.mod_small; lia.
Qed.

Lemma top_index_lt byFee vec : vec <> [] -> (top_index choose byFee vec < length vec)%nat.
Proof.
  intros Hne. unfold top_index. set (tops := List.filter _ _). assert (0 < length vec)%nat by (destruct vec; [done | cbn; lia]).
  destruct (tops !! _) as [i|] eqn:E; cbn [default]; [|done]. apply list_elem_of_lookup_2, list_elem_of_In in E. unfold tops in E. apply List.filter_In in E as [E _]. apply List.in_seq in E. cbn [default id]. lia.
Qed.

Lemma free_returns tx sorted rate size n : candidate tx -> exists b, IsFreeTransaction p blockMinSize_ txFeeRate_ (tx_hash tx) sorted rate size n = Ret b.
Proof.
  intros (e & He & Ht & _). destruct (pool_inputs_found _ e He) as [outs Ho]. destruct (rd_fees _ _ _ ready _ e outs He Ho) as (_ & Hd & _). unfold delta_of in Hd.
  unfold IsFreeTransaction, ApplyDeltas. destruct (mapDeltas p !! (tx_hash tx : list Z)) as [[dp df]|]; [|by eexists]. cbn [default snd id] in *. rewrite amount_add_ok by lia. cbn [obind]. by eexists.
Qed.

Lemma fill_step_ok s : fill_ok s -> fl_vec s <> [] ->
  exists s', fill_step p blockMaxSize_ blockPrioritySize_ blockMinSize_ txFeeRate_ choose Verify maxMoney maturity heap blockIndexMap nHeight s = Ret s' /\ fill_ok s' /\ (fill_measure s' < fill_measure s)%nat.
Proof.
  intros Hs Hne. unfold fill_step. pose proof (top_index_lt (fl_sorted s) (fl_vec s) Hne) as Hlt. set (i := top_index _ _ _) in *. clearbody i. destruct (lookup_lt_is_Some_2 _ _ Hlt) as [x Hx]. rewrite Hx. cbn [oaccess obind].
  assert (Hp : Permutation (fl_vec s) (x :: delete i (fl_vec s))) by (by apply delete_Permutation).
  assert (Hc : candidate (pr_tx x)).
  { pose proof (fo_cand s Hs) as Hc. unfold txs_of in Hc. apply Forall_app in Hc as [Hc _]. rewrite Forall_forall in Hc. apply Hc, list_elem_of_fmap. exists x. split; [done|]. by apply list_elem_of_lookup_2 in Hx. }
  destruct (candidate_small _ Hc) as [Hsb Hsz]. destruct (legacy_bound (tx_body (pr_tx x))) as (a & Ha & Hab); [lia|]. rewrite Ha. cbn [obind].
  cbn [with_order nBlockSize nBlockSigOps fl_sorted fl_vec fl_view]. pose proof (fo_size s Hs) as (_ & _ & Hbs). pose proof (fo_sigops s Hs) as [_ Hso]. rewrite sigops_limit in Hso.
  assert (u32 (GetSerializeSize transaction_codec (pr_tx x)) = tx_size (pr_tx x)) as -> by (unfold tx_size in *; unfold u32; rewrite Z.mod_small; lia).
  assert (u64 (nBlockSize s + tx_size (pr_tx x)) = nBlockSize s + tx_size (pr_tx x)) as -> by (unfold u64; rewrite Z.mod_small; lia).
  assert (Hskip : exists s', (Ret (with_order s (delete i (fl_vec s)) (fl_sorted s) (fl_view s)) : io Filling) = Ret s' /\ fill_ok s' /\ (fill_measure s' < fill_measure s)%nat).
  { eexists. split; [reflexivity|]. exact (skip_ok s x _ _ _ Hs Hp (reads_refl _ (proj1 (fo_cache s Hs)))). }
  destruct (Z.leb_spec blockMaxSize_ (nBlockSize s + tx_size (pr_tx x))); cbn [orb]; [done|]. destruct (_ <=? _); [done|].
  destruct (free_returns (pr_tx x) (fl_sorted s) (pr_fee x) (nBlockSize s) (tx_size (pr_tx x)) Hc) as [free ->]. cbn [obind]. destruct free; [done|].
  exact (try_ok s x (pr_tx x) (delete i (fl_vec s)) _ a Hs Hp eq_refl Hc Ha ltac:(lia) ltac:(lia)).
Qed.

Lemma fill_returns fuel : forall s, fill_ok s -> (fill_measure s <= fuel)%nat ->
  exists s', fill p blockMaxSize_ blockPrioritySize_ blockMinSize_ txFeeRate_ choose Verify maxMoney maturity heap blockIndexMap fuel nHeight s = Ret s' /\ fill_ok s'.
Proof.
  induction fuel as [|fuel IH]; intros s Hs Hf; cbn [fill]; (destruct (fl_vec s) as [|y l] eqn:Ev; [by eexists|]).
  - unfold fill_measure, open_txs in Hf. rewrite Ev in Hf. cbn in Hf. lia.
  - destruct (fill_step_ok s Hs) as (s' & -> & Hs' & Hm); [by rewrite Ev|]. cbn [obind]. apply IH; [done | lia].
Qed.

Lemma open_sublist vec os : open_txs vec os `sublist_of` txs_of vec os.
Proof.
  unfold open_txs, txs_of. apply sublist_app; [done|]. apply (fmap_sublist orphan_ptx). apply sublist_filter.
Qed.

Lemma v0_best : best v0 = best tip.
Proof. unfold best, new_cache. cbn [GetBestBlock cache_hashBlock]. rewrite bool_decide_eq_true_2 by done. by destruct (GetBestBlock tip). Qed.

(** The state before the loop. *)
Lemma start_ok w d vec : reads v0 w -> dep_ok d -> Forall candidate (txs_of vec (orphans d)) -> NoDup (hashes (txs_of vec (orphans d))) -> fill_ok (mkFilling vec d w (blockPrioritySize_ <=? 0) 1000 100 []).
Proof.
  intros Hr Hd Hc Hu. split; cbn [fl_view fl_vec fl_dependers fl_taken nBlockSize nBlockSigOps map]; try done.
  - apply (reads_cache v0); [done | apply v0_ok].
  - unfold best at 1. rewrite (reads_best _ _ Hr). apply v0_best.
  - intros i o Ho. rewrite (reads_output _ _ i Hr), v0_output in Ho. by apply (rd_coins _ _ _ ready i).
  - intros k Hk. rewrite (reads_coins _ _ k Hr), v0_coins in Hk. by left.
  - by constructor.
  - cbn. split; [done|]. split; [by left | lia].
  - apply (sublist_NoDup _ (hashes (txs_of vec (orphans d))) Hu). apply (fmap_sublist (fun tx => tx_hash tx : list Z)), open_sublist.
Qed.

(** ** The block connects *)

Lemma connects_snoc h txs v w u tx w2 undos : connects h txs v w -> cache_ok u -> (forall k, coins_at u k = coins_at w k) -> coins_at w (tx_hash tx) = None ->
  UpdateCoinsWithTransaction tx u h = Ret (w2, undos) -> connects h (txs ++ [tx]) v w2.
Proof.
  intros Hc Hu Huw Hn Hup. induction Hc as [v w Hv|t txs v x x1 us w Hok Hx Hnew Hupt Hc IH]; cbn [app].
  - eapply connects_cons; [exact Hu | intros k; by rewrite Huw | by rewrite <- Hv | exact Hup | by constructor].
  - eapply connects_cons; [exact Hok | done | done | exact Hupt|]. by apply IH.
Qed.

Lemma builds_connects l w : builds l w -> cache_ok w /\ connects nHeight (map pt_tx l) tip w.
Proof.
  intros H. induction H as [w Hr|l w w1 tx a b u r w2 undos w' H [Hw IH] Hn Hr1 Ha Hb Hru Hr Hok Hrr Hup Hr2].
  - split; [by apply (reads_cache v0), v0_ok|]. constructor. intros k. by rewrite (reads_coins _ _ k Hr), v0_coins.
  - assert (Hrw : reads w (ci_view r)) by (eapply reads_trans; [exact Hr1|]; by eapply reads_trans). pose proof (reads_cache _ _ Hrw Hw) as Hcr.
    destruct (UpdateCoins_output tx _ _ _ _ Hcr Hup) as [Hw2 _]. split; [by apply (reads_cache w2)|]. rewrite map_app. cbn [map pt_tx].
    apply (connects_shown _ _ _ w2); [intros k; by apply reads_coins|]. eapply connects_snoc; [exact IH | exact Hcr | intros k; by apply reads_coins | exact Hn | exact Hup].
Qed.

(** C10: on a pool that extends the chain the collector ends, by whatever priority and
    settings and choice among equals; it appends to the block transactions of the pool,
    each at most once, that are final and neither coinbase nor coinstake; in their order
    each finds its inputs, passes the checks of the inputs with its scripts and is
    applied over what those before it leave, so that the chosen ones connect to the tip;
    and they keep the block below the size limit and below the limit of signature
    operations, counted with the scripts spent. *)
Theorem collected_block_valid vtx : exists l w,
  CollectTransactionsIntoBlock p blockMaxSize_ blockPrioritySize_ blockMinSize_ txFeeRate_ activeHeight adjustedTime choose Verify maxMoney maturity heap blockIndexMap (nHeight - 1) tip vtx = Ret (vtx ++ map pt_tx l, w) /\
  NoDup (hashes (map pt_tx l)) /\ Forall candidate (map pt_tx l) /\ builds l w /\ connects nHeight (map pt_tx l) tip w /\
  (l = [] \/ 1000 + size_sum l < blockMaxSize_) /\ 100 + sigops_sum l < MAX_BLOCK_SIGOPS_CURRENT.
Proof.
  assert (Hents : Permutation (pool_entries p) (map_to_list (mapTx p))) by apply merge_sort_Permutation.
  unfold CollectTransactionsIntoBlock, AddTransactionsToBlockIfPossible. replace (nHeight - 1 + 1) with nHeight by lia.
  destruct (Prioritize_returns (pool_entries p) v0 Dependers_new []) as (w & d & vec & -> & Hr & Hd & Hc & Hu).
  { apply reads_refl, v0_ok. } { intros h l i H. cbn [Dependers_new mapDependers] in H. by rewrite lookup_empty in H. }
  { intros k e H. rewrite Hents in H. by apply elem_of_map_to_list in H. }
  { rewrite (fmap_Permutation fst _ _ Hents). apply NoDup_fst_map_to_list. }
  { constructor. } { constructor. } { intros k H. by apply elem_of_nil in H. }
  cbn [obind]. unfold PrioritizeTransactions. pose proof (start_ok w d vec Hr Hd Hc Hu) as Hs.
  destruct (fill_returns (length vec + length (orphans d)) _ Hs) as (s & -> & Hs').
  { unfold fill_measure. cbn [fl_vec fl_dependers]. rewrite (sublist_length _ _ (open_sublist vec (orphans d))). unfold txs_of. rewrite length_app, !length_map. lia. }
  cbn [obind]. exists (fl_taken s), (fl_view s). split; [done|]. destruct Hs' as [_ _ _ _ Hb (Hz & Hm & _) (Hg & _ & Hgm) Ht _ Hn _]. unfold hashes in *. rewrite map_app in Hn. apply NoDup_app in Hn as (Hn & _ & _).
  split_and!; try done; [by apply builds_connects| |by rewrite <- Hg]. destruct Hm as [Hm|Hm]; [by left | right; lia].
Qed.
End Choosing.

(** ** A block of a parent and its child *)

Definition family_pool : CTxMemPool := ac_pool child_result.
Abbreviation sample_max := (10 ^ 9 * COIN).

Lemma family_entries h e : mapTx family_pool !! h = Some e -> h = [9] /\ entry_tx e = sample_spend \/ h = [10] /\ entry_tx e = pool_child.
Proof.
  assert (Hm : map_Forall (fun h e => h = [9] /\ entry_tx e = sample_spend \/ h = [10] /\ entry_tx e = pool_child) (mapTx family_pool)); [|apply Hm].
  assert (exists e1 e2, mapTx family_pool = <[ [9] := e1 ]> (<[ [10] := e2 ]> ∅) /\ entry_tx e1 = sample_spend /\ entry_tx e2 = pool_child) as (e1 & e2 & -> & H1 & H2) by (vm_compute; by eexists _, _).
  apply map_Forall_insert_2; [by left|]. apply map_Forall_insert_2; [by right | apply map_Forall_empty].
Qed.

Lemma family_backed : pool_ok family_pool /\ pool_backed family_pool (ViewDB sample_db).
Proof.
  assert (E1 : accept_sample CTxMemPool_new sample_spend = Ret parent_result) by (vm_compute; reflexivity). assert (E2 : accept_sample (ac_pool parent_result) pool_child = Ret child_result) by (vm_compute; reflexivity).
  assert (Hsound : accept_sound (accept_in no_signatures sample_max 20 false true false 83 15 sample_relay flat_pow true true sample_surroundings true false CValidationState_new)) by (apply accept_in_sound; vm_compute; split; [discriminate | reflexivity]).
  assert (Hs : forall p tx r pend, pool_ok p -> indexes_ok tx -> accept_sample p tx = Ret r -> ac_ok r = true -> backed_but (tx :: pend) p (ViewDB sample_db) -> pool_ok (ac_pool r) /\ backed_but pend (ac_pool r) (ViewDB sample_db)).
  { intros p tx r pend Hp Hi E Ht Hb. unfold accept_sample in E. pose proof (accept_backed _ Hsound pend p tx (ViewDB sample_db) (mkLimiter (double_of 0) 0) r Hp sample_db_ok Hi E Ht Hb) as (H1 & H2 & _). exact (conj H1 H2). }
  destruct (Hs CTxMemPool_new sample_spend parent_result [pool_child] pool_new_ok) as [P1 B1]; [repeat constructor; vm_compute; discriminate | exact E1 | vm_compute; reflexivity | |].
  { intros h e i He. cbn [CTxMemPool_new mapTx] in He. by rewrite lookup_empty in He. }
  destruct (Hs (ac_pool parent_result) pool_child child_result [] P1) as [P2 B2]; [repeat constructor; vm_compute; discriminate | exact E2 | vm_compute; reflexivity | done|]. split; [done|]. by apply backed_none.
Qed.

Lemma sample_valid tx : tx = sample_spend \/ tx = pool_child -> tx_valid sample_max (tx_body tx) /\ Forall (fun i => bytes_ok (scriptSig i)) (vin (tx_body tx)) /\ Forall (fun o => bytes_ok (scriptPubKey o)) (vout (tx_body tx)).
Proof.
  intros [-> | ->]; (split; [|split; repeat constructor; try (vm_compute; discriminate)]);
    (constructor; [done | done | vm_compute; discriminate | | apply (bool_decide_unpack _); vm_compute; exact I | intros E; vm_compute in E; discriminate]);
    (split; [|split; [repeat constructor; vm_compute; discriminate | vm_compute; discriminate]]); intros _ _; repeat constructor.
Qed.

Lemma sample_outputs i o : output_at (ViewDB sample_db) i = Some o -> o = mkTxOut 5 [81] \/ o = mkTxOut 7 [82].
Proof.
  intros Ho. destruct (output_available _ i o Ho) as (c & Hv & _ & _ & Hl). cbn [view sample_db db_coins] in Hv. apply lookup_singleton_Some in Hv as [_ <-].
  apply list_elem_of_lookup_2 in Hl. by apply elem_of_cons in Hl as [->|Hl%list_elem_of_singleton]; [left | right].
Qed.

Lemma family_ready : pool_ready sample_max family_pool (ViewDB sample_db).
Proof.
  destruct family_backed as [Hp Hb]. split; [exact Hp | exact sample_db_ok | exact Hb | | | |].
  - intros h e He. destruct (family_entries h e He) as [[-> _]|[-> _]]; reflexivity.
  - intros h e He. unfold ins_of. apply sample_valid. destruct (family_entries h e He) as [[_ ->]|[_ ->]]; [by left | by right].
  - intros i o Ho. destruct (sample_outputs i o Ho) as [-> | ->]; (split; [vm_compute; split; discriminate | repeat constructor; vm_compute; discriminate]).
  - intros h e outs He Hf. assert (delta_of family_pool h = 0) as -> by done. assert (total_value outs = 12) as ->.
    + unfold ins_of in Hf. destruct (family_entries h e He) as [[_ E]|[_ E]]; rewrite E in *; cbn [tx_body sample_spend pool_child vin] in Hf.
      * inversion Hf as [|i1 o1 l1 l1' H1 Hf1]; subst. inversion Hf1 as [|i2 o2 l2 l2' H2 Hf2]; subst. inversion Hf2; subst. vm_compute in H1, H2. injection H1 as <-. injection H2 as <-. reflexivity.
      * inversion Hf as [|i1 o1 l1 l1' H1 Hf1]; subst. inversion Hf1; subst. vm_compute in H1. injection H1 as <-. reflexivity.
    + destruct (family_entries h e He) as [[_ ->]|[_ ->]]; vm_compute; repeat split; discriminate.
Qed.

Definition collect_family : io (list CTransaction * CCoinsView) :=
  CollectTransactionsIntoBlock family_pool 1000000 50000 50000 1000 120 1600000000 (fun _ => 0%nat) no_signatures sample_max 20 two_blocks sample_block_map (120 - 1) (ViewDB sample_db) [sample_coinbase].

Lemma collected_block_valid_witness : exists w, collect_family = Ret ([sample_coinbase; sample_spend; pool_child], w) /\ connects 120 [sample_spend; pool_child] (ViewDB sample_db) w.
Proof.
  destruct (collected_block_valid sample_max family_pool (ViewDB sample_db) ltac:(vm_compute; split; [discriminate | reflexivity]) family_ready 120 1600000000 120 no_signatures 20 two_blocks sample_block_map
    ltac:(by eexists _, _) 1000000 50000 50000 ltac:(reflexivity) 1000 (fun _ => 0%nat) [sample_coinbase]) as (l & w & E & _ & _ & _ & Hc & _).
  exists w. assert (map pt_tx l = [sample_spend; pool_child]) as <-; [|exact (conj E Hc)].
  assert (option_map fst (match collect_family with Ret r => Some r | _ => None end) = Some [sample_coinbase; sample_spend; pool_child]) as Ev by (vm_compute; reflexivity).
  unfold collect_family in Ev. rewrite E in Ev. cbn [option_map fst app] in Ev. congruence.
Defined.
