(* ===== verification/Compressor.v ===== *)
(** * Compressed outputs: [compressor.h], [compressor.cpp]

    Amounts without their trailing zeros, and scripts of three standard forms by their
    hash or key.  The elliptic curve is a parameter. *)

From Stdlib Require Import ZArith Lia Bool.
From stdpp Require Import base option numbers list.
From S2P Require Import Prelude Serialize Opcodes ScriptNum Script StackManager Interpreter Transaction Merkle Standard.

Open Scope Z_scope.
Open Scope outcome_scope.

(** ** Amounts *)

(** [while (((n % 10) == 0) && e < 9)]; [fuel] is [9 - e]. *)
Fixpoint strip_zeros (fuel : nat) (n : Z) (e : nat) : Z * nat :=
  match fuel with
  | O => (n, e)
  | S fuel => if n mod 10 =? 0 then strip_zeros fuel (n / 10) (S e) else (n, e)
  end.

Definition CompressAmount (n : Z) : io Z :=
  if n =? 0 then Ret 0
  else
    let '(n, e) := strip_zeros 9 n 0 in
    if (e <? 9)%nat then
      let d := n mod 10 in
      oassert ((1 <=? d) && (d <=? 9)) ;;;
      let n := n / 10 in Ret (u64 (1 + (n * 9 + d - 1) * 10 + Z.of_nat e))
    else Ret (u64 (1 + (n - 1) * 10 + 9)).

(** [while (e) { n *= 10; e--; }] *)
Fixpoint add_zeros (e : nat) (n : Z) : Z := match e with O => n | S e => add_zeros e (u64 (n * 10)) end.

Definition DecompressAmount (x : Z) : Z :=
  if x =? 0 then 0
  else
    let x := x - 1 in
    let e := x mod 10 in
    let x := x / 10 in
    let n := if e <? 9 then let d := x mod 9 + 1 in let x := x / 9 in u64 (x * 10 + d) else u64 (x + 1) in
    add_zeros (Z.to_nat e) n.

(** ** Public keys on the curve *)

(** [secp256k1_ec_pubkey_parse], and [secp256k1_ec_pubkey_serialize] with
    [SECP256K1_EC_UNCOMPRESSED]. *)
Class KeyCurve := {
  curve_point : Type;
  ec_pubkey_parse : list Z -> option curve_point;
  ec_pubkey_serialize : curve_point -> list Z
}.

(** An uncompressed key that parses is the one serialized, and parses from its
    compressed form: the parity of the second coordinate and the first. *)
Class KeyCurveLaws (C : KeyCurve) : Prop := curve_compresses :
  forall k P, bytes_ok k -> zlen k = 65 -> at_ k 0 = 4 -> ec_pubkey_parse k = Some P ->
    ec_pubkey_serialize P = k /\ ec_pubkey_parse (2 + at_ k 64 mod 2 :: take 32 (drop 1 k)) = Some P.

Section Scripts.
Context {C : KeyCurve}.

Definition IsFullyValid (k : CPubKey) : bool := PubKey_IsValid k && bool_decide (is_Some (ec_pubkey_parse (PubKey_bytes k))).

Definition PubKey_Decompress (k : CPubKey) : option CPubKey :=
  if negb (PubKey_IsValid k) then None
  else match ec_pubkey_parse (PubKey_bytes k) with None => None | Some P => Some (PubKey_Set k (ec_pubkey_serialize P)) end.

(** ** Scripts *)

Definition nSpecialScripts : Z := 6.

Definition IsToKeyID (s : CScript) : option (list Z) :=
  if (zlen s =? 25) && (at_ s 0 =? OP_DUP) && (at_ s 1 =? OP_HASH160) && (at_ s 2 =? 20) && (at_ s 23 =? OP_EQUALVERIFY) && (at_ s 24 =? OP_CHECKSIG)
  then Some (take 20 (drop 3 s)) else None.

Definition IsToScriptID (s : CScript) : option (list Z) :=
  if (zlen s =? 23) && (at_ s 0 =? OP_HASH160) && (at_ s 1 =? 20) && (at_ s 22 =? OP_EQUAL) then Some (take 20 (drop 2 s)) else None.

Definition IsToPubKey (s : CScript) : option CPubKey :=
  if (zlen s =? 35) && (at_ s 0 =? 33) && (at_ s 34 =? OP_CHECKSIG) && ((at_ s 1 =? 0x02) || (at_ s 1 =? 0x03)) then Some (CPubKey_of (take 33 (drop 1 s)))
  else if (zlen s =? 67) && (at_ s 0 =? 65) && (at_ s 66 =? OP_CHECKSIG) && (at_ s 1 =? 0x04) then
    let pubkey := CPubKey_of (take 65 (drop 1 s)) in if IsFullyValid pubkey then Some pubkey else None
  else None.

Definition Compress (s : CScript) : option (list Z) :=
  match IsToKeyID s with
  | Some keyID => Some (0x00 :: keyID)
  | None =>
      match IsToScriptID s with
      | Some scriptID => Some (0x01 :: scriptID)
      | None =>
          match IsToPubKey s with
          | Some pubkey =>
              let b := at_ (pk_vch pubkey) in
              let x := take 32 (drop 1 (pk_vch pubkey)) in
              if (b 0%nat =? 0x02) || (b 0%nat =? 0x03) then Some (b 0%nat :: x)
              else if b 0%nat =? 0x04 then Some (Z.lor 0x04 (Z.land (b 64%nat) 0x01) :: x)
              else None
          | None => None
          end
      end
  end.

Definition GetSpecialSize (nSize : Z) : Z :=
  if (nSize =? 0) || (nSize =? 1) then 20 else if (nSize =? 2) || (nSize =? 3) || (nSize =? 4) || (nSize =? 5) then 32 else 0.

(** The new script, if there is one; [inp] has [GetSpecialSize nSize] bytes. *)
Definition Decompress (nSize : Z) (inp : list Z) : io (option CScript) :=
  if nSize =? 0x00 then Ret (Some ([OP_DUP; OP_HASH160; 20] ++ inp ++ [OP_EQUALVERIFY; OP_CHECKSIG]))
  else if nSize =? 0x01 then Ret (Some ([OP_HASH160; 20] ++ inp ++ [OP_EQUAL]))
  else if (nSize =? 0x02) || (nSize =? 0x03) then Ret (Some ([33; nSize] ++ inp ++ [OP_CHECKSIG]))
  else if (nSize =? 0x04) || (nSize =? 0x05) then
    match PubKey_Decompress (CPubKey_of (nSize - 2 :: inp)) with
    | None => Ret None
    | Some pubkey => oassert (PubKey_size pubkey =? 65) ;;; Ret (Some ([65] ++ take 65 (pk_vch pubkey) ++ [OP_CHECKSIG]))
    end
  else Ret None.

(** The script that is read into is empty before. *)
Definition script_Unserialize : reader CScript := fun inp =>
  let* '(nSize, inp) := Unserialize (CVarInt 32) inp in
  if nSize <? nSpecialScripts then
    let* '(vch, inp) := read (GetSpecialSize nSize) inp in
    let* script := Decompress nSize vch in
    Ret (default [] script, inp)
  else read (nSize - nSpecialScripts) inp.

Definition CScriptCompressor : codec CScript :=
  Codec (fun s => match Compress s with Some compr => compr | None => Serialize (CVarInt 32) (u32 (zlen s + nSpecialScripts)) ++ s end)
        script_Unserialize
        (fun s => match Compress s with Some compr => zlen compr | None => u32 (zlen s + GetSerializeSize (CVarInt 32) (u32 (zlen s + nSpecialScripts))) end).

(** ** Outputs *)

Definition amount_written (nValue : CAmount) : Z := match CompressAmount (u64 nValue) with Ret x => x | _ => 0 end.

Definition CTxOutCompressor : codec CTxOut :=
  object_codec (fun p => mkTxOut (i64 (DecompressAmount p.1)) p.2) (fun o => (amount_written (nValue o), scriptPubKey o))
    (pair_codec (CVarInt 64) CScriptCompressor).
End Scripts.

(** ** Amounts are read back *)

Lemma strip_zeros_spec fuel : forall n e, 0 < n -> let '(m, e') := strip_zeros fuel n e in
  0 < m /\ (e <= e' <= e + fuel)%nat /\ n = m * 10 ^ Z.of_nat (e' - e) /\ ((e' < e + fuel)%nat -> m mod 10 <> 0).
Proof.
  induction fuel as [|fuel IH]; intros n e Hn; cbn [strip_zeros].
  - rewrite Nat.sub_diag. cbn. repeat split; lia.
  - pose proof (Z.div_mod n 10 ltac:(lia)) as Hd. destruct (Z.eqb_spec (n mod 10) 0) as [E|E].
    + specialize (IH (n / 10) (S e) ltac:(lia)). destruct (strip_zeros fuel (n / 10) (S e)) as [m e']. destruct IH as (H1 & H2 & H3 & H4).
      split; [done|]. split; [lia|]. split; [|intros H; apply H4; lia]. replace (e' - e)%nat with (S (e' - S e)) by lia. rewrite Nat2Z.inj_succ, Z.pow_succ_r by lia. lia.
    + rewrite Nat.sub_diag. cbn. repeat split; lia.
Qed.

Lemma add_zeros_exact e : forall n, 0 <= n -> n * 10 ^ Z.of_nat e < 2 ^ 64 -> add_zeros e n = n * 10 ^ Z.of_nat e.
Proof.
  induction e as [|e IH]; intros n Hn Hb; cbn [add_zeros]; [cbn; lia|]. rewrite Nat2Z.inj_succ, Z.pow_succ_r in * by lia. assert (0 < 10 ^ Z.of_nat e) by (apply Z.pow_pos_nonneg; lia).
  unfold u64. rewrite Z.mod_small by nia. rewrite IH by nia. lia.
Qed.

Lemma amount_roundtrip n : 0 <= n < 2 ^ 60 -> exists x, CompressAmount n = Ret x /\ 0 <= x < 2 ^ 64 /\ DecompressAmount x = n.
Proof.
  intros Hn. unfold CompressAmount. destruct (Z.eqb_spec n 0) as [->|Hz]; [by exists 0|]. pose proof (strip_zeros_spec 9 n 0 ltac:(lia)) as Hs. destruct (strip_zeros 9 n 0) as [m e]. destruct Hs as (Hm & He & Hnm & Hd).
  rewrite Nat.sub_0_r in Hnm. assert (0 < 10 ^ Z.of_nat e) by (apply Z.pow_pos_nonneg; lia). assert (m <= n) by nia. pose proof (Z.div_mod m 10 ltac:(lia)) as Hdm. pose proof (Z.mod_pos_bound m 10 ltac:(lia)).
  set (q := m / 10) in *. set (d := m mod 10) in *. clearbody q d. destruct (Nat.ltb_spec e 9) as [Hlt|Hge].
  - specialize (Hd Hlt). replace ((1 <=? d) && (d <=? 9)) with true by lia. cbn [oassert obind]. unfold u64. rewrite Z.mod_small by lia. eexists. split; [reflexivity|]. split; [lia|].
    unfold DecompressAmount. rewrite (proj2 (Z.eqb_neq _ _)) by lia. replace (1 + (q * 9 + d - 1) * 10 + Z.of_nat e - 1) with (Z.of_nat e + (q * 9 + d - 1) * 10) by lia. rewrite Z.mod_add, Z.div_add by lia.
    rewrite (Z.mod_small (Z.of_nat e)), (Z.div_small (Z.of_nat e)) by lia. rewrite (proj2 (Z.ltb_lt _ _)) by lia. rewrite Z.add_0_l. replace (q * 9 + d - 1) with (d - 1 + q * 9) by lia. rewrite Z.mod_add, Z.div_add by lia.
    rewrite (Z.mod_small (d - 1)), (Z.div_small (d - 1)) by lia. unfold u64. rewrite Z.mod_small by lia. rewrite Nat2Z.id, add_zeros_exact by nia. nia.
  - assert (e = 9%nat) as -> by lia. change (10 ^ Z.of_nat 9) with 1000000000 in *. unfold u64. rewrite Z.mod_small by lia. eexists. split; [reflexivity|]. split; [lia|].
    unfold DecompressAmount. rewrite (proj2 (Z.eqb_neq _ _)) by lia. replace (1 + (m - 1) * 10 + 9 - 1) with (9 + (m - 1) * 10) by lia. rewrite Z.mod_add, Z.div_add by lia. change (9 mod 10) with 9. change (9 / 10) with 0.
    cbn [Z.ltb Z.compare Pos.compare Pos.compare_cont]. unfold u64. rewrite Z.mod_small by lia. change (Z.to_nat 9) with 9%nat. rewrite add_zeros_exact; change (10 ^ Z.of_nat 9) with 1000000000; lia.
Qed.

(** ** Scripts are read back *)

Lemma drop_at s i c : at_ s i = c -> (i < length s)%nat -> drop i s = c :: drop (S i) s.
Proof. intros <- Hi. destruct (lookup_lt_is_Some_2 s i Hi) as [x Hx]. unfold at_. rewrite Hx. by apply drop_S. Qed.

(** A part of the script between what the form fixes. *)
Lemma drop_part (s : list Z) i n l : drop (i + n) s = l -> take n (drop i s) ++ l = drop i s.
Proof. intros <-. rewrite <- drop_drop. apply take_drop. Qed.

Lemma drop_end (s : list Z) n : zlen s = Z.of_nat n -> drop n s = [].
Proof. unfold zlen. intros H. apply drop_ge. lia. Qed.

Lemma take_part_length (s : list Z) i n : Z.of_nat (i + n) <= zlen s -> zlen (take n (drop i s)) = Z.of_nat n.
Proof. unfold zlen. intros H. rewrite length_take, length_drop. lia. Qed.

Lemma key_of_bytes k : GetLen (at_ k 0) = zlen k -> GetLen (at_ k 0) <> 0 -> pk_vch (CPubKey_of k) = k ++ drop (length k) (replicate 65 0).
Proof. destruct k as [|b l]; [done|]. intros H1 H2. unfold CPubKey_of, PubKey_Set. rewrite (proj2 (Z.eqb_neq _ _)), (proj2 (Z.eqb_eq _ _)) by done. done. Qed.

Lemma short_size b l : 0 <= b < 6 -> Unserialize (CVarInt 32) (b :: l) = Ret (b, l).
Proof.
  intros Hb. pose proof (CVarInt_restores 32 ltac:(lia) b l ltac:(cbv beta; lia)) as H. cbn [Serialize CVarInt] in H. rewrite <- H. f_equal.
  assert (b = 0 \/ b = 1 \/ b = 2 \/ b = 3 \/ b = 4 \/ b = 5) as Hc by lia. by repeat (destruct Hc as [-> |Hc] || subst).
Qed.

Section ScriptsBack.
Context {C : KeyCurve} {laws : KeyCurveLaws C}.

Definition script_storable (s : CScript) : Prop := bytes_ok s /\ zlen s + 16 < 2 ^ 32.

Lemma special_back b l rest s : 0 <= b < 6 -> zlen l = GetSpecialSize b -> Decompress b l = Ret (Some s) -> script_Unserialize (b :: l ++ rest) = Ret (s, rest).
Proof.
  intros Hb Hl Hd. unfold script_Unserialize. rewrite short_size by done. cbn [obind]. unfold nSpecialScripts. rewrite (proj2 (Z.ltb_lt b 6)) by lia.
  rewrite read_app by done. cbn [obind]. by rewrite Hd.
Qed.

Lemma keyid_back s keyID rest : IsToKeyID s = Some keyID -> script_Unserialize (0x00 :: keyID ++ rest) = Ret (s, rest).
Proof.
  unfold IsToKeyID. destruct (_ && _) eqn:E; [|done]. bool_prop. intros [= <-]. assert (length s = 25%nat) as Hl by (unfold zlen in *; lia).
  apply special_back; [lia | rewrite take_part_length by lia; done|]. unfold Decompress. cbn [Z.eqb]. do 2 f_equal.
  rewrite (drop_part s 3 20) by (cbn [Nat.add]; rewrite (drop_at s 23 OP_EQUALVERIFY), (drop_at s 24 OP_CHECKSIG), (drop_end s 25) by (done || lia); done).
  cbn [app]. by rewrite <- (drop_at s 2 20), <- (drop_at s 1 OP_HASH160), <- (drop_at s 0 OP_DUP) by (done || lia).
Qed.

Lemma scriptid_back s scriptID rest : IsToScriptID s = Some scriptID -> script_Unserialize (0x01 :: scriptID ++ rest) = Ret (s, rest).
Proof.
  unfold IsToScriptID. destruct (_ && _) eqn:E; [|done]. bool_prop. intros [= <-]. assert (length s = 23%nat) as Hl by (unfold zlen in *; lia).
  apply special_back; [lia | rewrite take_part_length by lia; done|]. unfold Decompress. cbn [Z.eqb]. do 2 f_equal.
  rewrite (drop_part s 2 20) by (cbn [Nat.add]; rewrite (drop_at s 22 OP_EQUAL), (drop_end s 23) by (done || lia); done).
  cbn [app]. by rewrite <- (drop_at s 1 20), <- (drop_at s 0 OP_HASH160) by (done || lia).
Qed.

Lemma at_take s i n j : (j < n)%nat -> at_ (take n (drop i s)) j = at_ s (i + j).
Proof. intros H. unfold at_. by rewrite lookup_take_lt, lookup_drop by lia. Qed.

(** A compressed key in the script. *)
Lemma short_key_back s rest : length s = 35%nat -> at_ s 0 = 33 -> at_ s 34 = OP_CHECKSIG -> at_ s 1 = 0x02 \/ at_ s 1 = 0x03 ->
  script_Unserialize (at_ s 1 :: take 32 (drop 2 s) ++ rest) = Ret (s, rest).
Proof.
  intros Hl H0 H34 H1. apply special_back; [lia | |]. { rewrite take_part_length by (unfold zlen; lia). by destruct H1 as [-> | ->]. }
  assert (Decompress (at_ s 1) (take 32 (drop 2 s)) = Ret (Some ([33; at_ s 1] ++ take 32 (drop 2 s) ++ [OP_CHECKSIG]))) as -> by (by destruct H1 as [-> | ->]).
  do 2 f_equal. rewrite (drop_part s 2 32) by (cbn [Nat.add]; rewrite (drop_at s 34 OP_CHECKSIG), (drop_end s 35) by (done || unfold zlen; lia); done).
  cbn [app]. by rewrite <- (drop_at s 1 (at_ s 1)), <- (drop_at s 0 33) by (done || lia).
Qed.

(** An uncompressed key that the curve knows. *)
Lemma long_key_back s rest : bytes_ok s -> length s = 67%nat -> at_ s 0 = 65 -> at_ s 66 = OP_CHECKSIG -> at_ s 1 = 0x04 -> IsFullyValid (CPubKey_of (take 65 (drop 1 s))) = true ->
  script_Unserialize (Z.lor 0x04 (Z.land (at_ s 65) 0x01) :: take 32 (drop 2 s) ++ rest) = Ret (s, rest).
Proof.
  intros Hb Hl H0 H66 H1. set (k := take 65 (drop 1 s)). assert (Hk : zlen k = 65) by (unfold k; rewrite take_part_length by (unfold zlen; lia); done).
  assert (Hk0 : at_ k 0 = 4) by (unfold k; by rewrite at_take by lia). assert (Hk64 : at_ k 64 = at_ s 65) by (unfold k; by rewrite at_take by lia).
  assert (Hkb : bytes_ok k) by (apply Forall_take, Forall_drop, Hb). assert (Hx : take 32 (drop 1 k) = take 32 (drop 2 s)).
  { unfold k. rewrite skipn_firstn_comm, drop_drop, take_take. done. }
  assert (Hvch : pk_vch (CPubKey_of k) = k).
  { rewrite key_of_bytes by (rewrite Hk0, ?Hk; done). rewrite drop_ge, app_nil_r; [done|]. rewrite length_replicate. unfold zlen in Hk. lia. }
  assert (Hbytes : PubKey_bytes (CPubKey_of k) = k).
  { unfold PubKey_bytes, PubKey_size. rewrite Hvch. assert (nth 0 k 0 = 4) as -> by (unfold at_ in Hk0; destruct k; done). apply take_ge. unfold zlen in Hk. cbn. lia. }
  unfold IsFullyValid. rewrite Hbytes. intros [_ Hp]%andb_true_iff. apply bool_decide_eq_true in Hp as [P HP]. destruct (laws k P Hkb Hk Hk0 HP) as [Hser Hcomp]. rewrite Hk64, Hx in Hcomp.
  set (y := at_ s 65) in *. assert (Hy : Z.lor 4 (Z.land y 1) = 4 + y mod 2).
  { change 1 with (Z.ones 1). rewrite Z.land_ones by lia. change (2 ^ 1) with 2. pose proof (Z.mod_pos_bound y 2 ltac:(lia)). assert (y mod 2 = 0 \/ y mod 2 = 1) as [-> | ->] by lia; done. }
  rewrite Hy. pose proof (Z.mod_pos_bound y 2 ltac:(lia)) as Hm. set (c := 2 + y mod 2 :: take 32 (drop 2 s)) in *.
  assert (Hc : zlen c = 33) by (unfold c; rewrite zlen_cons, take_part_length by (unfold zlen; lia); done). assert (Hg : GetLen (at_ c 0) = 33).
  { cbn. assert (y mod 2 = 0 \/ y mod 2 = 1) as [-> | ->] by lia; done. }
  assert (Hcv : pk_vch (CPubKey_of c) = c ++ replicate 32 0). { rewrite key_of_bytes by (rewrite Hg, ?Hc; done). assert (length c = 33%nat) as -> by (unfold zlen in Hc; lia). done. }
  assert (Hcl : length c = 33%nat) by (unfold zlen in Hc; lia).
  assert (Hcb : PubKey_bytes (CPubKey_of c) = c /\ PubKey_size (CPubKey_of c) = 33).
  { unfold PubKey_bytes, PubKey_size. rewrite Hcv. assert (nth 0 (c ++ replicate 32 0) 0 = at_ c 0) as -> by done. rewrite Hg. split; [|done]. by rewrite take_app_le, take_ge by lia. }
  destruct Hcb as [Hcb Hcs].
  apply special_back; [lia | |].
  { rewrite take_part_length by (unfold zlen; lia). assert (y mod 2 = 0 \/ y mod 2 = 1) as [-> | ->] by lia; done. }
  assert (Decompress (4 + y mod 2) (take 32 (drop 2 s)) = match PubKey_Decompress (CPubKey_of c) with
    | None => Ret None | Some pubkey => oassert (PubKey_size pubkey =? 65) ;;; Ret (Some ([65] ++ take 65 (pk_vch pubkey) ++ [OP_CHECKSIG])) end) as ->.
  { unfold Decompress, c. assert (y mod 2 = 0 \/ y mod 2 = 1) as [-> | ->] by lia; done. }
  unfold PubKey_Decompress, PubKey_IsValid. rewrite Hcs, Hcb, Hcomp, Hser. cbn [negb Z.ltb Z.compare].
  assert (Hset : pk_vch (PubKey_Set (CPubKey_of c) k) = k).
  { unfold PubKey_Set. destruct k as [|b l] eqn:Ek; [done|]. cbn in Hk0. subst b. rewrite <- Ek in *. change (GetLen 4) with 65. rewrite Hk. cbn [Z.eqb negb andb Pos.eqb]. cbn [pk_vch].
    rewrite drop_ge, app_nil_r; [done|]. rewrite Hcv, length_app, length_replicate. unfold zlen in Hk. lia. }
  unfold PubKey_size. rewrite Hset. assert (nth 0 k 0 = 4) as -> by (unfold at_ in Hk0; destruct k; done). cbn [oassert obind GetLen Z.eqb Pos.eqb orb]. do 2 f_equal. rewrite take_ge by (unfold zlen in Hk; lia).
  unfold k. rewrite (drop_part s 1 65) by (cbn [Nat.add]; rewrite (drop_at s 66 OP_CHECKSIG), (drop_end s 67) by (done || unfold zlen; lia); done).
  cbn [app]. by rewrite <- (drop_at s 0 65) by (done || lia).
Qed.
End ScriptsBack.

Section OutputsBack.
Context {C : KeyCurve} {laws : KeyCurveLaws C}.

Lemma compressed_back s compr rest : bytes_ok s -> Compress s = Some compr -> script_Unserialize (compr ++ rest) = Ret (s, rest).
Proof.
  intros Hb. unfold Compress. destruct (IsToKeyID s) as [h|] eqn:E1; [intros [= <-]; by apply keyid_back|]. destruct (IsToScriptID s) as [h|] eqn:E2; [intros [= <-]; by apply scriptid_back|].
  unfold IsToPubKey. destruct (_ && _) eqn:E3.
  - bool_prop. assert (length s = 35%nat) as Hl by (unfold zlen in *; lia). match goal with H : _ || _ = true |- _ => apply orb_true_iff in H; rename H into Hb1 end. assert (Hk1 : at_ s 1 = 0x02 \/ at_ s 1 = 0x03) by (destruct Hb1 as [Hb1|Hb1]; apply Z.eqb_eq in Hb1; auto).
    set (k := take 33 (drop 1 s)). assert (Hk0 : at_ k 0 = at_ s 1) by (unfold k; by rewrite at_take by lia).
    assert (Hv : pk_vch (CPubKey_of k) = k ++ replicate 32 0).
    { assert (zlen k = 33) as Hk by (unfold k; by rewrite take_part_length by lia). rewrite key_of_bytes by (rewrite Hk0, ?Hk; by destruct Hk1 as [-> | ->]). assert (length k = 33%nat) as -> by (unfold zlen in Hk; lia). done. }
    assert (Hb0 : at_ (k ++ replicate 32 0) 0 = at_ s 1). { rewrite <- Hk0. unfold at_. rewrite lookup_app_l; [done|]. unfold k. rewrite length_take, length_drop. lia. }
    assert (Hx : take 32 (drop 1 (k ++ replicate 32 0)) = take 32 (drop 2 s)).
    { rewrite drop_app_le by (unfold k; rewrite length_take, length_drop; lia). rewrite take_app_le by (rewrite length_drop; unfold k; rewrite length_take, length_drop; lia). unfold k. by rewrite skipn_firstn_comm, drop_drop, take_take. }
    rewrite Hv, Hb0, Hx. assert ((at_ s 1 =? 2) || (at_ s 1 =? 3) = true) as -> by (by destruct Hk1 as [-> | ->]). intros [= <-]. by apply short_key_back.
  - clear E3. destruct (_ && _) eqn:E4; [|done]. bool_prop. destruct (IsFullyValid _) eqn:Ev; [|done]. assert (length s = 67%nat) as Hl by (unfold zlen in *; lia). set (k := take 65 (drop 1 s)) in *.
    assert (Hk0 : at_ k 0 = 4) by (unfold k; by rewrite at_take by lia). assert (Hk64 : at_ k 64 = at_ s 65) by (unfold k; by rewrite at_take by lia).
    assert (Hv : pk_vch (CPubKey_of k) = k).
    { assert (zlen k = 65) as Hk by (unfold k; by rewrite take_part_length by lia). rewrite key_of_bytes by (rewrite Hk0, ?Hk; done). rewrite drop_ge, app_nil_r; [done|]. rewrite length_replicate. unfold zlen in Hk. lia. }
    rewrite Hv, Hk0, Hk64. cbn [Z.eqb Pos.eqb orb]. intros [= <-]. unfold k. rewrite skipn_firstn_comm, drop_drop, take_take. by apply long_key_back.
Qed.

Lemma script_restores : reads_back CScriptCompressor script_storable.
Proof.
  intros s rest [Hb Hl]. cbn [Serialize Unserialize CScriptCompressor]. destruct (Compress s) as [compr|] eqn:E; [by apply compressed_back|].
  pose proof (zlen_nonneg s). unfold nSpecialScripts. assert (u32 (zlen s + 6) = zlen s + 6) as -> by (unfold u32; rewrite Z.mod_small; lia). rewrite <- app_assoc. unfold script_Unserialize.
  rewrite (CVarInt_restores 32) by lia. cbn [obind]. unfold nSpecialScripts. rewrite (proj2 (Z.ltb_ge _ _)) by lia. apply read_app. lia.
Qed.

Definition txout_storable (o : CTxOut) : Prop := 0 <= nValue o < 2 ^ 60 /\ script_storable (scriptPubKey o).

Lemma txout_restores : reads_back CTxOutCompressor txout_storable.
Proof.
  apply (object_restores _ _ _ (fun p => (0 <= p.1 < 2 ^ 64 /\ 0 <= i64 (DecompressAmount p.1) < 2 ^ 60) /\ script_storable p.2)).
  - intros [n s] [Hn Hs]. cbn [nValue scriptPubKey fst snd] in *. unfold amount_written. assert (u64 n = n) as -> by (unfold u64; rewrite Z.mod_small; lia).
    destruct (amount_roundtrip n Hn) as (x & -> & Hx & ->). assert (i64 n = n) as -> by (unfold i64; rewrite Z.mod_small; lia). exact (conj (conj (conj Hx Hn) Hs) eq_refl).
  - apply (seq_restores _ _ (fun x => 0 <= x < 2 ^ 64 /\ 0 <= i64 (DecompressAmount x) < 2 ^ 60) (fun _ => script_storable)); [|intros _ _; apply script_restores].
    intros x rest [Hx _]. by apply (CVarInt_restores 64).
Qed.

(** The assertion on the last digit holds, and the announced sizes are right. *)
Lemma amount_written_exact n : 0 <= n < 2 ^ 60 -> CompressAmount (u64 n) = Ret (amount_written n).
Proof.
  intros Hn. unfold amount_written. assert (u64 n = n) as -> by (unfold u64; rewrite Z.mod_small; lia). by destruct (amount_roundtrip n Hn) as (x & -> & _).
Qed.

Lemma amount_written_range n : 0 <= n < 2 ^ 60 -> 0 <= amount_written n < 2 ^ 64.
Proof. intros Hn. unfold amount_written. assert (u64 n = n) as -> by (unfold u64; rewrite Z.mod_small; lia). by destruct (amount_roundtrip n Hn) as (x & -> & H & _). Qed.

Lemma varint_short n : 0 <= n < 2 ^ 32 -> varint_length 32 n <= 5.
Proof. intros Hn. destruct (varint_codec 32 ltac:(lia) n [] [] Hn) as (bs & _ & H & Hl & _). unfold varint_length. rewrite H. exact Hl. Qed.

Lemma script_size s : zlen s + 16 < 2 ^ 32 -> GetSerializeSize CScriptCompressor s = zlen (Serialize CScriptCompressor s).
Proof.
  intros Hl. pose proof (zlen_nonneg s). cbn [Serialize GetSerializeSize CScriptCompressor CVarInt]. destruct (Compress s); [done|]. unfold nSpecialScripts. assert (u32 (zlen s + 6) = zlen s + 6) as -> by (unfold u32; rewrite Z.mod_small; lia).
  pose proof (varint_short (zlen s + 6) ltac:(lia)). destruct (CVarInt_writes 32 (zlen s + 6)) as (_ & _ & E); [lia | lia|]. rewrite zlen_app, E in *. pose proof (zlen_nonneg (varint_bytes 32 (zlen s + 6))). unfold u32. rewrite Z.mod_small; lia.
Qed.

Lemma txout_size o : 0 <= nValue o < 2 ^ 60 -> zlen (scriptPubKey o) + 16 < 2 ^ 32 -> GetSerializeSize CTxOutCompressor o = zlen (Serialize CTxOutCompressor o).
Proof.
  intros Hn Hs. unfold CTxOutCompressor. cbn [Serialize GetSerializeSize object_codec pair_codec seq_codec fst snd]. rewrite script_size, zlen_app by done. f_equal.
  cbn [GetSerializeSize Serialize CVarInt]. apply CVarInt_writes; [lia | by apply amount_written_range].
Qed.
End OutputsBack.
