(* ===== verification/CoinsDisk.v ===== *)
(** * Coins and undo data on disk: [coins.h], [undo.h], [BlockUndo.h]

    Only the outputs that are left are written, behind a mask that tells which they
    are; undo data has height and version with the last output of a transaction. *)

From Stdlib Require Import ZArith Lia Bool.
From stdpp Require Import base option numbers list.
From S2P Require Import Prelude Serialize Opcodes ScriptNum Script StackManager Interpreter Transaction Merkle Standard Coins CoinsCache CoinsUpdate Compressor.

Open Scope Z_scope.
Open Scope outcome_scope.

Section Disk.
Context {C : KeyCurve}.

(** ** [CCoins] *)

(** [chAvail] of mask byte [b]. *)
Definition mask_byte (c : CCoins) (b : nat) : Z :=
  fold_left (fun chAvail i => if IsAvailable c (2 + b * 8 + i) then Z.lor chAvail (Z.shiftl 1 (Z.of_nat i)) else chAvail) (seq 0 8) 0.

Definition CCoins_Serialize (c : CCoins) : io (list Z) :=
  let '(nMaskSize, nMaskCode) := CalcMaskSize c in
  oassert (IsAvailable c 0 || IsAvailable c 1 || negb (nMaskCode =? 0)%nat) ;;;
  Ret (Serialize (CVarInt_int) (coins_nVersion c) ++ Serialize (CVarInt 32) (u32 (header_code 16 c)) ++ map (mask_byte c) (seq 0 nMaskSize) ++
       flat_map (Serialize CTxOutCompressor) (List.filter (fun o => negb (CTxOut_IsNull o)) (coins_vout c)) ++ Serialize CVarInt_int (coins_nHeight c)).

(** [while (nMaskCode > 0)]: every round reads a byte. *)
Fixpoint read_masks (fuel : nat) (nMaskCode : Z) : reader (list bool) := fun inp =>
  if 0 <? nMaskCode then
    match fuel with
    | O => Undef
    | S fuel =>
        let* '(chAvail, inp) := Unserialize (uint_codec 1) inp in
        let bits := map (fun p => negb (Z.land chAvail (Z.shiftl 1 (Z.of_nat p)) =? 0)) (seq 0 8) in
        let* '(vAvail, inp) := read_masks fuel (if negb (chAvail =? 0) then nMaskCode - 1 else nMaskCode) inp in
        Ret (bits ++ vAvail, inp)
    end
  else Ret ([], inp).

(** The elements of [vout] start as [CTxOut()]. *)
Fixpoint read_available (vAvail : list bool) : reader (list CTxOut) := fun inp =>
  match vAvail with
  | [] => Ret ([], inp)
  | f :: vAvail =>
      let* '(o, inp) := if f : bool then Unserialize CTxOutCompressor inp else Ret (CTxOut_null, inp) in
      let* '(os, inp) := read_available vAvail inp in
      Ret (o :: os, inp)
  end.

Definition CCoins_Unserialize : reader CCoins := fun inp =>
  let* '(nVersion, inp) := Unserialize CVarInt_int inp in
  let* '(nCode, inp) := Unserialize (CVarInt 32) inp in
  let fCoinBase := negb (Z.land nCode 1 =? 0) in
  let fCoinStake := negb (Z.land nCode 2 =? 0) in
  let vAvail := [negb (Z.land nCode 4 =? 0); negb (Z.land nCode 8 =? 0)] in
  let nMaskCode := nCode / 16 + (if negb (Z.land nCode 12 =? 0) then 0 else 1) in
  let* '(masks, inp) := read_masks (S (length inp)) nMaskCode inp in
  let* '(vout, inp) := read_available (vAvail ++ masks) inp in
  let* '(nHeight, inp) := Unserialize CVarInt_int inp in
  Ret (Cleanup (mkCoins fCoinBase fCoinStake vout nHeight nVersion), inp).

(** ** Undo data *)

Definition undo_code (u : CTxInUndo) : Z := u32 (undo_nHeight u * 4 + (if undo_fCoinBase u then 2 else 0) + (if undo_fCoinStake u then 1 else 0)).

Definition CTxInUndo_codec : codec CTxInUndo :=
  Codec (fun u => Serialize (CVarInt 32) (undo_code u) ++ (if 0 <? undo_nHeight u then Serialize CVarInt_int (undo_nVersion u) else []) ++ Serialize CTxOutCompressor (undo_txout u))
        (fun inp =>
           let* '(nCode, inp) := Unserialize (CVarInt 32) inp in
           let nHeight := Z.shiftr nCode 2 in
           let* '(nVersion, inp) := if 0 <? nHeight then Unserialize CVarInt_int inp else Ret (0, inp) in
           let* '(txout, inp) := Unserialize CTxOutCompressor inp in
           Ret (mkUndo txout (negb (Z.land nCode 2 =? 0)) (negb (Z.land nCode 1 =? 0)) nHeight nVersion, inp))
        (fun u => GetSerializeSize (CVarInt 32) (undo_code u) + (if 0 <? undo_nHeight u then GetSerializeSize CVarInt_int (undo_nVersion u) else 0) +
           GetSerializeSize CTxOutCompressor (undo_txout u)).

(** Sizes of the objects in memory on the 64-bit platforms. *)
Definition sizeof_CTxInUndo : Z := 48.
Definition sizeof_CTxUndo : Z := 24.

(** [CTxUndo], [CBlockUndo]: their one member. *)
Definition CTxUndo_codec : codec (list CTxInUndo) := vector_codec sizeof_CTxInUndo CTxInUndo_codec.
Definition CBlockUndo_codec : codec (list (list CTxInUndo)) := vector_codec sizeof_CTxUndo CTxUndo_codec.
End Disk.

(** ** What is left of a version *)

(** Below zero only the last seven bits are written. *)
Definition stored_version (n : Z) : Z := if n <? 0 then n mod 128 else n.
Definition stored_coins (c : CCoins) : CCoins := mkCoins (fCoinBase c) (fCoinStake c) (coins_vout c) (coins_nHeight c) (stored_version (coins_nVersion c)).
Definition stored_undo (u : CTxInUndo) : CTxInUndo := mkUndo (undo_txout u) (undo_fCoinBase u) (undo_fCoinStake u) (undo_nHeight u) (stored_version (undo_nVersion u)).

Lemma stored_version_bytes n : varint_bytes 32 (stored_version n) = varint_bytes 32 n.
Proof. unfold stored_version. destruct (Z.ltb_spec n 0); [|done]. by destruct (varint_negative n). Qed.

Lemma stored_version_range n : int_range 4 n -> 0 <= stored_version n < 2 ^ 31.
Proof. unfold int_range, stored_version. change (8 * Z.of_nat 4 - 1) with 31. intros H. destruct (Z.ltb_spec n 0); [|lia]. pose proof (Z.mod_pos_bound n 128 ltac:(lia)). lia. Qed.

(** ** The mask *)

Section Mask.
Variable c : CCoins.
Abbreviation used b := (mask_byte_used (coins_vout c) b).
Abbreviation len := (length (coins_vout c)).

Lemma used_available b : used b = existsb (fun i => IsAvailable c (2 + b * 8 + i)) (seq 0 8).
Proof. done. Qed.

Definition byte_bits (ch : Z) : list bool := map (fun p => negb (Z.land ch (Z.shiftl 1 (Z.of_nat p)) =? 0)) (seq 0 8).

Lemma mask_byte_bits b : byte_bits (mask_byte c b) = map (fun i => IsAvailable c (2 + b * 8 + i)) (seq 0 8) /\ (mask_byte c b =? 0) = negb (used b) /\ 0 <= mask_byte c b < 256.
Proof.
  rewrite used_available. unfold mask_byte. cbn [seq fold_left map existsb]. generalize (IsAvailable c (2 + b * 8 + 0)), (IsAvailable c (2 + b * 8 + 1)), (IsAvailable c (2 + b * 8 + 2)), (IsAvailable c (2 + b * 8 + 3)),
    (IsAvailable c (2 + b * 8 + 4)), (IsAvailable c (2 + b * 8 + 5)), (IsAvailable c (2 + b * 8 + 6)), (IsAvailable c (2 + b * 8 + 7)).
  intros [] [] [] [] [] [] [] []; vm_compute; (split; [reflexivity|]; split; [reflexivity|]; split; [discriminate | reflexivity]).
Qed.

Definition used_count (bs : list nat) : nat := length (List.filter (fun b => used b) bs).

Lemma used_bound b : used b = true -> (2 + b * 8 < len)%nat.
Proof.
  rewrite used_available. intros (i & Hi & Ha)%existsb_exists. unfold IsAvailable in Ha. destruct (coins_vout c !! _) as [o|] eqn:E; [|done]. apply lookup_lt_Some in E. lia.
Qed.

Lemma unused_behind b j : (len <= 2 + b * 8)%nat -> (b <= j)%nat -> used j = false.
Proof. intros Hl Hj. destruct (used j) eqn:E; [|done]. apply used_bound in E. lia. Qed.

(** The mask ends with a byte that is used. *)
Lemma mask_loop_spec fuel : forall b last n, (len <= 2 + (b + fuel) * 8)%nat -> let '(L, N) := mask_loop fuel (coins_vout c) b last n in
  L = last /\ N = n /\ (forall j, (b <= j)%nat -> used j = false) \/
  (b < L)%nat /\ used (L - 1) = true /\ N = (n + used_count (seq b (L - b)))%nat /\ (forall j, (L <= j)%nat -> used j = false).
Proof.
  induction fuel as [|fuel IH]; intros b last n Hf; cbn [mask_loop].
  { left. split_and!; try done. intros j. apply unused_behind. lia. }
  destruct (Nat.ltb_spec (2 + b * 8) len) as [Hlt|Hge]; [|left; split_and!; try done; intros j; by apply unused_behind].
  destruct (used b) eqn:Hu.
  - specialize (IH (b + 1)%nat (b + 1)%nat (n + 1)%nat ltac:(lia)). destruct (mask_loop fuel _ _ _ _) as [L N]. right. destruct IH as [(-> & -> & Hno)|(Hb & Hl & -> & Hno)].
    + replace (b + 1 - 1)%nat with b by lia. replace (b + 1 - b)%nat with 1%nat by lia. unfold used_count. cbn [seq List.filter]. rewrite Hu. split_and!; [lia | done | done|]. intros j Hj. apply Hno. lia.
    + replace (L - b)%nat with (S (L - (b + 1))) by lia. unfold used_count. cbn [seq List.filter]. rewrite Hu. cbn [length]. replace (S b) with (b + 1)%nat by lia. split_and!; [lia | done | lia | done].
  - specialize (IH (b + 1)%nat last n ltac:(lia)). destruct (mask_loop fuel _ _ _ _) as [L N]. destruct IH as [(-> & -> & Hno)|(Hb & Hl & -> & Hno)].
    + left. split_and!; try done. intros j Hj. destruct (decide (j = b)) as [->|]; [done|]. apply Hno. lia.
    + right. replace (L - b)%nat with (S (L - (b + 1))) by lia. unfold used_count. cbn [seq List.filter]. rewrite Hu. replace (S b) with (b + 1)%nat by lia. split_and!; [lia | done | lia | done].
Qed.

Lemma CalcMaskSize_spec : let '(L, N) := CalcMaskSize c in N = used_count (seq 0 L) /\ (L = 0%nat \/ used (L - 1) = true) /\ (forall j, (L <= j)%nat -> used j = false) /\ (L <= len)%nat.
Proof.
  unfold CalcMaskSize. pose proof (mask_loop_spec len 0 0 0 ltac:(lia)) as H. destruct (mask_loop _ _ _ _ _) as [L N]. destruct H as [(-> & -> & H)|(H1 & H2 & -> & H)].
  - split_and!; try done; [by left | lia].
  - rewrite Nat.sub_0_r. split_and!; try done; [by right|]. apply used_bound in H2. lia.
Qed.
End Mask.

(** ** Reading the mask *)

Lemma read_byte b rest : 0 <= b < 256 -> Unserialize (uint_codec 1) (b :: rest) = Ret (b, rest).
Proof. intros Hb. pose proof (law_roundtrip (uint_lawful 1) b rest) as H. cbn [Serialize uint_codec le_encode] in H. rewrite Z.mod_small in H by lia. apply H. unfold uint_range. change (2 ^ (8 * Z.of_nat 1)) with 256. lia. Qed.

Definition nonzero_count (ms : list Z) : nat := length (List.filter (fun m => negb (m =? 0)) ms).

(** Reading stops behind the last byte, which is not zero. *)
Lemma read_masks_back ms : forall fuel rest, Forall (fun m => 0 <= m < 256) ms -> (ms = [] \/ List.last ms 0 <> 0) -> (length ms < fuel)%nat ->
  read_masks fuel (Z.of_nat (nonzero_count ms)) (ms ++ rest) = Ret (flat_map byte_bits ms, rest).
Proof.
  induction ms as [|m ms IH]; intros fuel rest Hr Hl Hf; (destruct fuel as [|fuel]; [cbn in Hf; lia|]); [done|]. apply Forall_cons in Hr as [Hm Hr]. cbn [read_masks app].
  assert (Hpos : (0 < nonzero_count (m :: ms))%nat).
  { destruct Hl as [Hl|Hl]; [done|]. unfold nonzero_count. destruct (List.filter _ (m :: ms)) eqn:E; [|cbn; lia]. exfalso. apply Hl. assert (List.last (m :: ms) 0 ∈ m :: ms) as Hin.
    { apply list_elem_of_In. rewrite (app_removelast_last 0 (l := m :: ms)) at 2 by done. apply in_app_iff. right. by left. }
    destruct (Z.eqb_spec (List.last (m :: ms) 0) 0); [done|]. assert (In (List.last (m :: ms) 0) (List.filter (fun m => negb (m =? 0)) (m :: ms))) as Hc.
    { apply List.filter_In. split; [by apply list_elem_of_In|]. by rewrite (proj2 (Z.eqb_neq _ _)). } by rewrite E in Hc. }
  rewrite (proj2 (Z.ltb_lt _ _)) by lia. rewrite read_byte by done. cbn [obind]. fold (byte_bits m).
  assert ((if negb (m =? 0) then Z.of_nat (nonzero_count (m :: ms)) - 1 else Z.of_nat (nonzero_count (m :: ms))) = Z.of_nat (nonzero_count ms)) as ->.
  { unfold nonzero_count. cbn [List.filter]. destruct (m =? 0); cbn [negb length]; lia. }
  rewrite IH; [done | done | | cbn in Hf; lia]. destruct ms; [by left|]. right. by destruct Hl.
Qed.

(** ** Reading coins *)

Lemma drop_nulls_pad v k : drop_nulls (v ++ replicate k CTxOut_null) = drop_nulls v.
Proof.
  unfold drop_nulls. rewrite rev_app_distr. f_equal. assert (rev (replicate k CTxOut_null) = replicate k CTxOut_null) as -> by (induction k as [|k IH]; [done|]; cbn [replicate rev]; rewrite IH; by rewrite <- replicate_cons_app).
  induction k as [|k IH]; [done|]. exact IH.
Qed.

Lemma flags_padded c m : (length (coins_vout c) <= m)%nat -> map (IsAvailable c) (seq 0 m) = map (fun o => negb (CTxOut_IsNull o)) (coins_vout c ++ replicate (m - length (coins_vout c)) CTxOut_null).
Proof.
  intros Hm. apply list_eq. intros i. rewrite !list_lookup_fmap. destruct (decide (i < m)%nat) as [Hi|Hi].
  - rewrite lookup_seq_lt by done. cbn [fmap option_fmap option_map]. unfold IsAvailable. cbn [Nat.add]. destruct (coins_vout c !! i) as [o|] eqn:E.
    + by rewrite (lookup_app_l_Some _ _ _ _ E).
    + apply lookup_ge_None in E. rewrite lookup_app_r, lookup_replicate_2 by lia. done.
  - rewrite lookup_seq_ge by lia. rewrite (lookup_ge_None_2 (_ ++ _)) by (rewrite length_app, length_replicate; lia). done.
Qed.

Lemma mask_flags c L : flat_map byte_bits (map (mask_byte c) (seq 0 L)) = map (IsAvailable c) (seq 2 (L * 8)).
Proof.
  induction L as [|L IH]; [done|]. rewrite seq_S, map_app, flat_map_app, IH. cbn [map flat_map Nat.add]. rewrite app_nil_r. rewrite (proj1 (mask_byte_bits c L)).
  replace (S L * 8)%nat with (L * 8 + 8)%nat by lia. rewrite seq_app, map_app. f_equal. cbn [seq map].
  repeat (apply f_equal2; [apply f_equal; lia|]). done.
Qed.

Section Coins.
Context {C : KeyCurve} {laws : KeyCurveLaws C}.

Definition output_storable (o : CTxOut) : Prop := o = CTxOut_null \/ CTxOut_IsNull o = false /\ txout_storable o.

Lemma read_available_back w : forall rest, Forall output_storable w ->
  read_available (map (fun o => negb (CTxOut_IsNull o)) w) (flat_map (Serialize CTxOutCompressor) (List.filter (fun o => negb (CTxOut_IsNull o)) w) ++ rest) = Ret (w, rest).
Proof.
  induction w as [|o w IH]; intros rest Hw; [done|]. apply Forall_cons in Hw as [Ho Hw]. cbn [map read_available List.filter]. destruct Ho as [-> | [Hn Ho]].
  - cbn [CTxOut_IsNull CTxOut_null nValue Z.eqb Pos.eqb negb obind]. by rewrite IH.
  - rewrite Hn. cbn [negb flat_map]. rewrite <- app_assoc, txout_restores by done. cbn [obind]. by rewrite IH.
Qed.

(** Coins that can be written: something is left, nothing spent at the end. *)
Record coins_storable (c : CCoins) : Prop := mkStorable {
  cs_left : IsPruned c = false;
  cs_clean : drop_nulls (coins_vout c) = coins_vout c;
  cs_outputs : Forall output_storable (coins_vout c);
  cs_count : Z.of_nat (length (coins_vout c)) < 2 ^ 30;
  cs_height : 0 <= coins_nHeight c < 2 ^ 31;
  cs_version : int_range 4 (coins_nVersion c)
}.

(** The bits of the header code. *)
Lemma header_bits (m : Z) (b0 b1 b2 b3 : bool) : 0 <= m ->
  let n := 16 * m + (if b0 then 1 else 0) + (if b1 then 2 else 0) + (if b2 then 4 else 0) + (if b3 then 8 else 0) in
  negb (Z.land n 1 =? 0) = b0 /\ negb (Z.land n 2 =? 0) = b1 /\ negb (Z.land n 4 =? 0) = b2 /\ negb (Z.land n 8 =? 0) = b3 /\ negb (Z.land n 12 =? 0) = b2 || b3 /\ n / 16 = m.
Proof.
  intros Hm n. set (r := (if b0 then 1 else 0) + (if b1 then 2 else 0) + (if b2 then 4 else 0) + (if b3 then 8 else 0)). assert (0 <= r < 16) as Hr by (unfold r; destruct b0, b1, b2, b3; lia).
  assert (Hn : n = m * 16 + r) by (unfold n, r; lia). assert (Hl : forall k, 0 <= k < 16 -> Z.land n k = Z.land r k).
  { intros k Hk. rewrite Hn. apply Z.bits_inj'. intros i Hi. rewrite !Z.land_spec. destruct (Z.ltb_spec i 4).
    - f_equal. rewrite <- (Z.mod_pow2_bits_low _ 4 i) by lia. change (2 ^ 4) with 16. rewrite Z.add_comm, Z.mod_add, Z.mod_small by lia. done.
    - assert (Z.testbit k i = false) as -> by (rewrite <- (Z.mod_small k (2 ^ 4)) by (change (2 ^ 4) with 16; lia); apply Z.mod_pow2_bits_high; lia). by rewrite !andb_false_r. }
  rewrite !Hl by lia. split_and!; try (unfold r; by destruct b0, b1, b2, b3). rewrite Hn. rewrite Z.add_comm, Z.div_add, Z.div_small by lia. lia.
Qed.

Lemma available_used c b i : (i < 8)%nat -> IsAvailable c (2 + b * 8 + i) = true -> mask_byte_used (coins_vout c) b = true.
Proof. intros Hi Ha. rewrite used_available. apply existsb_exists. exists i. split; [apply in_seq; lia | done]. Qed.

Lemma used_nonzero c L : used_count c (seq 0 L) = nonzero_count (map (mask_byte c) (seq 0 L)).
Proof.
  unfold used_count, nonzero_count. induction (seq 0 L) as [|b l IH]; [done|]. cbn [map List.filter]. destruct (mask_byte_bits c b) as (_ & -> & _). rewrite negb_involutive. destruct (mask_byte_used _ b); cbn [length]; lia.
Qed.

(** What the mask of storable coins is. *)
Lemma storable_mask c : coins_storable c -> let '(L, N) := CalcMaskSize c in
  N = nonzero_count (map (mask_byte c) (seq 0 L)) /\ (map (mask_byte c) (seq 0 L) = [] \/ List.last (map (mask_byte c) (seq 0 L)) 0 <> 0) /\
  (length (coins_vout c) <= 2 + L * 8)%nat /\ Z.of_nat N < 2 ^ 28 - 1 /\ IsAvailable c 0 || IsAvailable c 1 || negb (N =? 0)%nat = true.
Proof.
  intros [Hp Hcl _ Hc _ _]. pose proof (CalcMaskSize_spec c) as H. destruct (CalcMaskSize c) as [L N]. destruct H as (-> & HL & Hno & _).
  assert (Hlast : (1 <= length (coins_vout c))%nat /\ IsAvailable c (length (coins_vout c) - 1) = true).
  { destruct (drop_nulls_split (coins_vout c)) as (_ & _ & _ & Hh). rewrite Hcl, last_lookup in Hh. unfold IsPruned in Hp. destruct (coins_vout c) as [|o l] eqn:E; [done|]. rewrite <- E in *.
    assert (1 <= length (coins_vout c))%nat by (rewrite E; cbn; lia). split; [done|]. unfold IsAvailable. destruct (lookup_lt_is_Some_2 (coins_vout c) (length (coins_vout c) - 1)) as [x Hx]; [lia|]. rewrite Hx.
    rewrite (Hh x); [done|]. by replace (pred (length (coins_vout c))) with (length (coins_vout c) - 1)%nat by lia. }
  destruct Hlast as [Hlen Hav]. set (n := length (coins_vout c)) in *.
  assert (Hcover : (n <= 2 + L * 8)%nat).
  { destruct (decide (n <= 2)%nat); [lia|]. assert (mask_byte_used (coins_vout c) ((n - 3) / 8) = true) as Hu.
    { apply (available_used c _ ((n - 3) mod 8)); [apply Nat.mod_upper_bound; lia|]. pose proof (Nat.div_mod (n - 3) 8). replace (2 + (n - 3) / 8 * 8 + (n - 3) mod 8)%nat with (n - 1)%nat by lia. done. }
    destruct (decide (n <= 2 + L * 8)%nat); [done|]. rewrite Hno in Hu; [done|]. apply Nat.div_le_lower_bound; lia. }
  assert (Hsmall : (L <= n / 8 + 1)%nat). { destruct HL as [-> |HL%used_bound]; [lia|]. fold n in HL. pose proof (Nat.div_mod n 8). pose proof (Nat.mod_upper_bound n 8). lia. }
  assert (HN : (used_count c (seq 0 L) <= L)%nat). { unfold used_count. rewrite <- (length_seq L 0) at 2. apply List.filter_length_le. }
  rewrite <- used_nonzero. split_and!; try done.
  - destruct HL as [-> |HL]; [by left|]. destruct L as [|L]; [by left|]. right. rewrite seq_S, map_app. cbn [map]. rewrite last_last. cbn [Nat.add] in *. replace (S L - 1)%nat with L in HL by lia.
    destruct (mask_byte_bits c L) as (_ & Hz & _). rewrite HL in Hz. cbn [negb] in Hz. by apply Z.eqb_neq.
  - pose proof (Nat.div_mod n 8). lia.
  - destruct (IsAvailable c 0) eqn:E0; [done|]. destruct (IsAvailable c 1) eqn:E1; [done|]. cbn [orb]. apply negb_true_iff, Nat.eqb_neq. assert (3 <= n)%nat as Hn3.
    { destruct (decide (n = 1)%nat) as [Hn|]; [rewrite Hn in Hav; cbn in Hav; congruence|]. destruct (decide (n = 2)%nat) as [Hn|]; [rewrite Hn in Hav; cbn in Hav; congruence | lia]. }
    destruct HL as [-> |HL]; [lia|]. unfold used_count. destruct L as [|L]; [lia|]. rewrite seq_S, List.filter_app. cbn [List.filter Nat.add]. replace (S L - 1)%nat with L in HL by lia. rewrite HL, length_app. cbn [length]. lia.
Qed.
End Coins.

Section Stored.
Context {C : KeyCurve} {laws : KeyCurveLaws C}.

Lemma int_back n rest : 0 <= n < 2 ^ 31 -> Unserialize CVarInt_int (varint_bytes 32 n ++ rest) = Ret (n, rest).
Proof. apply CVarInt_int_restores. Qed.

Lemma version_back n rest : int_range 4 n -> Unserialize CVarInt_int (varint_bytes 32 n ++ rest) = Ret (stored_version n, rest).
Proof. intros H. rewrite <- (stored_version_bytes n). apply int_back. by apply stored_version_range. Qed.

Lemma coins_back c : coins_storable c -> exists bs, CCoins_Serialize c = Ret bs /\ forall rest, CCoins_Unserialize (bs ++ rest) = Ret (stored_coins c, rest).
Proof.
  intros Hs. pose proof (storable_mask c Hs) as Hm. unfold CCoins_Serialize, header_code. destruct (CalcMaskSize c) as [L N]. cbn [snd]. destruct Hm as (HN & Hlast & Hcover & Hsmall & Hassert). rewrite Hassert. cbn [oassert obind].
  destruct Hs as [_ Hcl Hout _ Hh Hv]. eexists. split; [reflexivity|]. intros rest. set (f0 := IsAvailable c 0) in *. set (f1 := IsAvailable c 1) in *. set (m := Z.of_nat N - (if f0 || f1 then 0 else 1)).
  assert (Hm0 : 0 <= m) by (unfold m; destruct (f0 || f1); cbn [orb] in Hassert; bool_prop; destruct N; try done; lia).
  destruct (header_bits m (fCoinBase c) (fCoinStake c) f0 f1 Hm0) as (B0 & B1 & B2 & B3 & B4 & B5). set (n := 16 * m + _ + _ + _ + _) in *.
  assert (0 <= n < 2 ^ 32) as Hn by (unfold n, m; destruct (fCoinBase c), (fCoinStake c), f0, f1; cbn [orb] in *; lia).
  assert (u32 n = n) as -> by (unfold u32; rewrite Z.mod_small; lia). rewrite <- !app_assoc. unfold CCoins_Unserialize. cbn [Serialize CVarInt_int CVarInt].
  rewrite version_back by done. cbn [obind]. pose proof (CVarInt_restores 32 ltac:(lia) n) as Hr. cbn [Serialize CVarInt] in Hr. rewrite Hr by (cbv beta; lia). cbn [obind]. clear Hr. rewrite B4, B5.
  assert (m + (if f0 || f1 then 0 else 1) = Z.of_nat (nonzero_count (map (mask_byte c) (seq 0 L)))) as -> by (unfold m; rewrite <- HN; destruct (f0 || f1); lia).
  rewrite read_masks_back; [| |done|rewrite length_app, length_map; lia]. 2: { apply Forall_forall. intros x (b & -> & _)%list_elem_of_fmap. apply mask_byte_bits. }
  cbn [obind]. rewrite B0, B1, B2, B3, mask_flags. change (?x :: ?y :: ?l) with ([x; y] ++ l).
  assert ([f0; f1] ++ map (IsAvailable c) (seq 2 (L * 8)) = map (IsAvailable c) (seq 0 (2 + L * 8))) as Hfl by done. cbn [app] in Hfl |- *. rewrite Hfl, flags_padded by done. clear Hfl.
  set (k := (2 + L * 8 - length (coins_vout c))%nat).
  assert (List.filter (fun o => negb (CTxOut_IsNull o)) (coins_vout c) = List.filter (fun o => negb (CTxOut_IsNull o)) (coins_vout c ++ replicate k CTxOut_null)) as ->.
  { rewrite List.filter_app. assert (List.filter (fun o => negb (CTxOut_IsNull o)) (replicate k CTxOut_null) = []) as ->; [|by rewrite app_nil_r]. clear. by induction k. }
  rewrite read_available_back. 2: { apply Forall_app. split; [done|]. apply Forall_forall. intros o Ho%elem_of_replicate_inv. by left. }
  cbn [obind]. rewrite int_back by done. cbn [obind]. unfold stored_coins, Cleanup, with_vout. cbn [coins_vout fCoinBase fCoinStake coins_nHeight coins_nVersion]. by rewrite drop_nulls_pad, Hcl.
Qed.

Definition undo_storable (u : CTxInUndo) : Prop :=
  txout_storable (undo_txout u) /\ 0 <= undo_nHeight u < 2 ^ 30 /\ int_range 4 (undo_nVersion u) /\ (undo_nHeight u = 0 -> undo_nVersion u = 0).

Lemma undo_back u rest : undo_storable u -> Unserialize CTxInUndo_codec (Serialize CTxInUndo_codec u ++ rest) = Ret (stored_undo u, rest).
Proof.
  intros (Ho & Hh & Hv & H0). cbn [Serialize Unserialize CTxInUndo_codec]. unfold undo_code. set (n := undo_nHeight u * 4 + _ + _). rewrite <- !app_assoc.
  assert (0 <= n < 2 ^ 32) as Hn by (unfold n; destruct (undo_fCoinBase u), (undo_fCoinStake u); lia). assert (u32 n = n) as -> by (unfold u32; rewrite Z.mod_small; lia).
  pose proof (CVarInt_restores 32 ltac:(lia) n) as Hr. rewrite Hr by (cbv beta; lia). cbn [obind]. clear Hr.
  assert (Z.shiftr n 2 = undo_nHeight u) as ->. { rewrite Z.shiftr_div_pow2 by lia. change (2 ^ 2) with 4. unfold n. symmetry. apply (Z.div_unique_pos _ _ _ ((if undo_fCoinBase u then 2 else 0) + (if undo_fCoinStake u then 1 else 0))); destruct (undo_fCoinBase u), (undo_fCoinStake u); lia. }
  assert (Hbits : negb (Z.land n 2 =? 0) = undo_fCoinBase u /\ negb (Z.land n 1 =? 0) = undo_fCoinStake u).
  { assert (forall k, 0 <= k < 4 -> Z.land n k = Z.land (n mod 4) k) as Hl.
    { intros k Hk. change 4 with (2 ^ 2). rewrite <- Z.land_ones by lia. rewrite <- Z.land_assoc. f_equal. rewrite Z.land_comm, Z.land_ones by lia. change (2 ^ 2) with 4. by rewrite Z.mod_small. }
    rewrite !Hl by lia. assert (n mod 4 = (if undo_fCoinBase u then 2 else 0) + (if undo_fCoinStake u then 1 else 0)) as ->; [|by destruct (undo_fCoinBase u), (undo_fCoinStake u)].
    unfold n. rewrite <- Z.add_assoc, Z.add_comm, Z.mod_add, Z.mod_small; destruct (undo_fCoinBase u), (undo_fCoinStake u); lia. }
  destruct Hbits as [-> ->]. assert (Hver : (let* '(nVersion, inp) := if 0 <? undo_nHeight u then Unserialize CVarInt_int ((if 0 <? undo_nHeight u then Serialize CVarInt_int (undo_nVersion u) else []) ++ Serialize CTxOutCompressor (undo_txout u) ++ rest)
      else Ret (0, (if 0 <? undo_nHeight u then Serialize CVarInt_int (undo_nVersion u) else []) ++ Serialize CTxOutCompressor (undo_txout u) ++ rest) in
      let* '(txout, inp) := Unserialize CTxOutCompressor inp in Ret (mkUndo txout (undo_fCoinBase u) (undo_fCoinStake u) (undo_nHeight u) nVersion, inp)) = Ret (stored_undo u, rest)); [|exact Hver].
  destruct (Z.ltb_spec 0 (undo_nHeight u)).
  - cbn [Serialize CVarInt_int]. rewrite version_back by done. cbn [obind]. by rewrite txout_restores.
  - cbn [app obind]. rewrite txout_restores by done. cbn [obind]. unfold stored_undo. by rewrite H0 by lia.
Qed.

(** Undo data cannot be told from what is read back. *)
Lemma stored_undo_bytes u : Serialize CTxInUndo_codec (stored_undo u) = Serialize CTxInUndo_codec u.
Proof. cbn [Serialize CTxInUndo_codec]. unfold undo_code, stored_undo. cbn [undo_nHeight undo_fCoinBase undo_fCoinStake undo_nVersion undo_txout Serialize CVarInt_int]. by rewrite stored_version_bytes. Qed.

Lemma stored_version_idem n : stored_version (stored_version n) = stored_version n.
Proof. unfold stored_version. destruct (Z.ltb_spec n 0); [|rewrite (proj2 (Z.ltb_ge _ _)) by lia; done]. pose proof (Z.mod_pos_bound n 128 ltac:(lia)). by rewrite (proj2 (Z.ltb_ge _ _)) by lia. Qed.

Definition as_stored (l : list (list CTxInUndo)) : list (list CTxInUndo) := map (map stored_undo) l.

Definition undos_storable (l : list (list CTxInUndo)) : Prop := vector_fits (vector_fits undo_storable) l.

(** A vector of [f x] is written like one of [x]. *)
Lemma vector_bytes {A} (f : A -> A) sizeof (c : codec A) l : (forall x, Serialize c (f x) = Serialize c x) -> Serialize (vector_codec sizeof c) (map f l) = Serialize (vector_codec sizeof c) l.
Proof. intros H. cbn [Serialize vector_codec]. unfold zlen. rewrite length_map. f_equal. induction l as [|x l IH]; [done|]. cbn [map flat_map]. by rewrite H, IH. Qed.

Lemma as_stored_bytes l : Serialize CBlockUndo_codec (as_stored l) = Serialize CBlockUndo_codec l.
Proof. unfold CBlockUndo_codec, as_stored. apply vector_bytes. intros x. unfold CTxUndo_codec. apply vector_bytes, stored_undo_bytes. Qed.

Lemma map_fits {A} (f : A -> A) (P Q : A -> Prop) l : (forall x, P x -> Q (f x)) -> vector_fits P l -> vector_fits Q (map f l).
Proof. intros H [H1 H2]. split; [|unfold zlen in *; by rewrite length_map]. apply Forall_fmap. eapply Forall_impl; [exact H1 | exact H]. Qed.

(** What is read back is fixed by writing and reading again. *)
Definition undo_settled (u : CTxInUndo) : Prop := undo_storable u /\ stored_undo u = u.

Lemma undo_restores : reads_back CTxInUndo_codec undo_settled.
Proof. intros u rest [H E]. rewrite undo_back by done. by rewrite E. Qed.

Lemma stored_undo_settled u : undo_storable u -> undo_settled (stored_undo u).
Proof.
  intros (H1 & H2 & H3 & H4). split; [|unfold stored_undo; cbn [undo_nVersion undo_txout undo_fCoinBase undo_fCoinStake undo_nHeight]; by rewrite stored_version_idem]. split_and!; [done | apply H2 | apply H2 | |].
  - cbn [stored_undo undo_nVersion]. pose proof (stored_version_range _ H3). unfold int_range in *. change (8 * Z.of_nat 4 - 1) with 31 in *. lia.
  - cbn [stored_undo undo_nVersion undo_nHeight]. intros E. by rewrite H4.
Qed.

Lemma undos_back l rest : undos_storable l -> Unserialize CBlockUndo_codec (Serialize CBlockUndo_codec l ++ rest) = Ret (as_stored l, rest).
Proof.
  intros H. rewrite <- as_stored_bytes. apply (vector_restores CTxUndo_codec (vector_fits undo_settled) sizeof_CTxUndo ltac:(unfold sizeof_CTxUndo; lia)).
  - apply vector_restores; [unfold sizeof_CTxInUndo; lia | apply undo_restores].
  - unfold as_stored. eapply map_fits; [|exact H]. intros x Hx. eapply map_fits; [|exact Hx]. apply stored_undo_settled.
Qed.
End Stored.

(** ** Announced sizes *)

Section Sizes.
Context {C : KeyCurve}.

Lemma int_size n : int_range 4 n -> varint_length 32 n = zlen (varint_bytes 32 n).
Proof.
  intros Hn. pose proof (stored_version_range n Hn) as Hr. destruct (CVarInt_writes 32 (stored_version n)) as (_ & _ & H); [lia | lia|].
  rewrite (stored_version_bytes n) in H. rewrite <- H. unfold stored_version. destruct (Z.ltb_spec n 0); [|done]. by destruct (varint_negative n).
Qed.

Lemma undo_size u : undo_storable u -> GetSerializeSize CTxInUndo_codec u = zlen (Serialize CTxInUndo_codec u).
Proof.
  intros ([Hv [_ Hs]] & Hh & Hr & _). cbn [GetSerializeSize Serialize CTxInUndo_codec]. rewrite !zlen_app, (txout_size (undo_txout u) Hv Hs). cbn [GetSerializeSize Serialize CVarInt CVarInt_int].
  destruct (CVarInt_writes 32 (undo_code u)) as (_ & _ & ->); [lia | unfold undo_code, u32; apply Z.mod_pos_bound; lia|]. destruct (Z.ltb_spec 0 (undo_nHeight u)); [rewrite int_size by done|]; unfold zlen; cbn [length]; lia.
Qed.

Lemma vector_size {A} sizeof (c : codec A) l : Forall (fun x => GetSerializeSize c x = zlen (Serialize c x)) l -> GetSerializeSize (vector_codec sizeof c) l = zlen (Serialize (vector_codec sizeof c) l).
Proof.
  intros H. cbn [GetSerializeSize Serialize vector_codec]. rewrite zlen_app, size_of_compact_size by apply zlen_nonneg. f_equal. induction H as [|x l Hx _ IH]; [done|]. cbn [foldr flat_map]. by rewrite zlen_app, Hx, IH.
Qed.

Lemma undos_size l : undos_storable l -> GetSerializeSize CBlockUndo_codec l = zlen (Serialize CBlockUndo_codec l).
Proof.
  intros [H _]. apply vector_size. eapply Forall_impl; [exact H|]. intros x [Hx _]. apply vector_size. eapply Forall_impl; [exact Hx|]. apply undo_size.
Qed.
End Sizes.

(** ** Working on what was read back *)

Lemma stored_null_undo : stored_undo CTxInUndo_empty = CTxInUndo_empty.
Proof. reflexivity. Qed.

Lemma spend_stored c n : Spend (stored_coins c) n = (stored_coins (Spend c n).1, ((Spend c n).2.1, stored_undo (Spend c n).2.2)).
Proof.
  unfold Spend. cbn [stored_coins coins_vout]. destruct (coins_vout c !! n) as [o|]; [|done]. destruct (CTxOut_IsNull o); [done|].
  set (c1 := Cleanup (with_vout c _)). set (c2 := Cleanup (with_vout (stored_coins c) _)). assert (c2 = stored_coins c1) as -> by done. cbn [stored_coins coins_vout fst snd]. by destruct (length (coins_vout c1) =? 0)%nat.
Qed.

Lemma restore_stored n u d fClean : UpdateCoinsForRestoredInputs n (stored_undo u) (stored_coins d) fClean =
  (stored_coins (UpdateCoinsForRestoredInputs n u d fClean).1, (UpdateCoinsForRestoredInputs n u d fClean).2).
Proof. unfold UpdateCoinsForRestoredInputs. cbn [stored_undo undo_nHeight]. by destruct (negb (undo_nHeight u =? 0)). Qed.

Lemma remove_stored tx h : (remove_outputs tx h (stored_coins (FromTx tx h))).2 = true.
Proof.
  unfold remove_outputs. assert (ClearUnspendable (stored_coins (FromTx tx h)) = stored_coins (FromTx tx h)) as ->.
  { assert (forall c, ClearUnspendable (stored_coins c) = stored_coins (ClearUnspendable c)) as H by done. rewrite H. unfold FromTx. by rewrite ClearUnspendable_idem. }
  unfold stored_coins. cbn [fCoinBase fCoinStake coins_vout coins_nHeight coins_nVersion snd]. unfold stored_version. apply orb_true_iff. right. apply bool_decide_eq_true. set (f := FromTx tx h). destruct (Z.ltb_spec (coins_nVersion f) 0); by destruct f.
Qed.

Lemma as_stored_same l : Forall (Forall (fun u => 0 <= undo_nVersion u)) l -> as_stored l = l.
Proof.
  intros H. unfold as_stored. induction H as [|us l Hus _ IH]; [done|]. cbn [map]. f_equal; [|done]. induction Hus as [|u us Hu _ IHu]; [done|]. cbn [map]. f_equal; [|done].
  unfold stored_undo, stored_version. rewrite (proj2 (Z.ltb_ge _ _)) by done. by destruct u.
Qed.

(** C12: coins that are not all spent and have no spent output at the end, with
    amounts, scripts, height and number of outputs in range, can be written without
    failing the assertion; reading gives the same coins and leaves what follows,
    except that a version below zero comes back as its last seven bits; so does undo
    data.  That loss is all: spending an output of coins that were read back, and
    restoring one with undo data that was read back, give the same answers as on the
    originals, and the coins and undo data that the originals would give when
    written and read back; and coins of a transaction that were read back are still
    recognised as its coins when it is disconnected. *)
Theorem coins_and_undo_stored {C : KeyCurve} {laws : KeyCurveLaws C} c l rest : coins_storable c -> undos_storable l ->
  (exists bs, CCoins_Serialize c = Ret bs /\ CCoins_Unserialize (bs ++ rest) = Ret (stored_coins c, rest)) /\
  Unserialize CBlockUndo_codec (Serialize CBlockUndo_codec l ++ rest) = Ret (as_stored l, rest) /\
  (0 <= coins_nVersion c -> stored_coins c = c) /\ (Forall (Forall (fun u => 0 <= undo_nVersion u)) l -> as_stored l = l) /\
  (forall n, Spend (stored_coins c) n = (stored_coins (Spend c n).1, ((Spend c n).2.1, stored_undo (Spend c n).2.2))) /\
  (forall n u d fClean, UpdateCoinsForRestoredInputs n (stored_undo u) (stored_coins d) fClean =
    (stored_coins (UpdateCoinsForRestoredInputs n u d fClean).1, (UpdateCoinsForRestoredInputs n u d fClean).2)) /\
  (forall tx h, (remove_outputs tx h (stored_coins (FromTx tx h))).2 = true).
Proof.
  intros Hc Hl. split_and!.
  - destruct (coins_back c Hc) as (bs & H1 & H2). by exists bs.
  - by apply undos_back.
  - intros Hv. unfold stored_coins, stored_version. rewrite (proj2 (Z.ltb_ge _ _)) by done. by destruct c.
  - apply as_stored_same.
  - apply spend_stored.
  - apply restore_stored.
  - apply remove_stored.
Qed.

(** ** Coins with a key, on a curve of equal coordinates *)

#[local] Instance diagonal : KeyCurve := {|
  curve_point := list Z;
  ec_pubkey_parse k :=
    let x := take 32 (drop 1 k) in
    if (zlen k =? 65) && (at_ k 0 =? 4) && bool_decide (drop 33 k = x) then Some x
    else if (zlen k =? 33) && (at_ k 0 =? 2 + at_ x 31 mod 2) then Some x else None;
  ec_pubkey_serialize x := 4 :: x ++ x
|}.

Lemma diagonal_laws : KeyCurveLaws diagonal.
Proof.
  intros k P Hb Hl H0 HP. cbn [ec_pubkey_parse ec_pubkey_serialize diagonal] in *. rewrite Hl, H0 in HP. cbn [Z.eqb Pos.eqb andb] in HP. case_bool_decide as Hd; [|done]. injection HP as <-.
  assert (length k = 65%nat) as Hlen by (unfold zlen in Hl; lia). split.
  - rewrite <- Hd at 2. replace (drop 33 k) with (drop 32 (drop 1 k)) by (by rewrite drop_drop). rewrite take_drop. by rewrite <- (drop_at k 0 4) by (done || lia).
  - assert (Hx : length (take 32 (drop 1 k)) = 32%nat) by (rewrite length_take, length_drop; lia). set (x := take 32 (drop 1 k)) in *.
    assert (at_ k 64 = at_ x 31) as ->. { rewrite <- Hd. unfold at_. by rewrite lookup_drop. }
    cbn [drop]. rewrite (take_ge x) by lia. assert (zlen (2 + at_ x 31 mod 2 :: x) = 33) as -> by (rewrite zlen_cons; unfold zlen; lia). cbn [Z.eqb Pos.eqb andb at_ lookup list_lookup default].
    cbn. by rewrite Z.eqb_refl.
Qed.

Definition sample_pay_script : CScript := [65; 4] ++ replicate 64 7 ++ [OP_CHECKSIG].
Definition sample_disk_coins : CCoins := mkCoins true false ([CTxOut_null; mkTxOut 123400000 sample_pay_script] ++ replicate 9 CTxOut_null ++ [mkTxOut 7 [81]]) 120891 (-2).
Definition sample_undo_data : list (list CTxInUndo) := [[CTxInUndo_of (mkTxOut 7 [81]); mkUndo (mkTxOut 500000000 sample_pay_script) true false 120000 1]].

Lemma sample_txout_storable n : 0 <= n < 2 ^ 60 -> txout_storable (mkTxOut n sample_pay_script) /\ txout_storable (mkTxOut n [81]).
Proof.
  assert (Hk : bytes_ok sample_pay_script) by (repeat constructor; vm_compute; discriminate).
  intros Hn. split; (split; [exact Hn|]; split; [first [exact Hk | repeat constructor; vm_compute; discriminate] | reflexivity]).
Qed.

Lemma sample_undo_storable : undos_storable sample_undo_data.
Proof.
  split; [|vm_compute; discriminate]. constructor; [|constructor]. split; [|vm_compute; discriminate]. constructor; [|constructor; [|constructor]]; (split; [apply sample_txout_storable; lia|]); (split; [vm_compute; split; [discriminate | reflexivity]|]; split; [vm_compute; split; [discriminate | reflexivity] | done]).
Qed.

Lemma coins_and_undo_stored_witness : exists bs,
  CCoins_Serialize sample_disk_coins = Ret bs /\ zlen bs = 45 /\ CCoins_Unserialize (bs ++ [1; 2]) = Ret (stored_coins sample_disk_coins, [1; 2]) /\
  Unserialize CBlockUndo_codec (Serialize CBlockUndo_codec sample_undo_data ++ [1; 2]) = Ret (as_stored sample_undo_data, [1; 2]).
Proof.
  assert (Hc : coins_storable sample_disk_coins).
  { split; [reflexivity | reflexivity | | reflexivity | vm_compute; split; [discriminate | reflexivity] | vm_compute; split; [discriminate | reflexivity]].
    apply Forall_app. split; [|apply Forall_app; split; [apply Forall_replicate; by left|]].
    - constructor; [by left|]. constructor; [|constructor]. right. split; [reflexivity | apply sample_txout_storable; lia].
    - constructor; [|constructor]. right. split; [reflexivity | apply sample_txout_storable; lia]. }
  destruct (@coins_and_undo_stored diagonal diagonal_laws sample_disk_coins sample_undo_data [1; 2] Hc sample_undo_storable) as ((bs & H1 & H2) & H3 & _). exists bs. split; [exact H1|]. split; [|exact (conj H2 H3)].
  assert (match CCoins_Serialize sample_disk_coins with Ret b => zlen b | _ => 0 end = 45) as E by (vm_compute; reflexivity). by rewrite H1 in E.
Defined.
