(* ===== verification/BlockFiles.v ===== *)
(** * Block and undo files: [main.cpp], [BlockDiskAccessor.cpp], [BlockUndo.cpp], [BlockFileOpener.cpp], [blockFileInfo.cpp]

    Where blocks and undo data go in the [blk] and [rev] files, writing them there and
    reading them.  A file is its bytes; files can be opened and written, what the disk
    has room for is an argument, and [fsync] changes nothing. *)

From Stdlib Require Import ZArith Lia Bool.
From stdpp Require Import base option numbers list gmap relations.
From S2P Require Import Prelude BaseUInt UInt256 Serialize Opcodes ScriptNum Script StackManager Interpreter Transaction Merkle Hashes Standard Coins CoinsCache CoinsUpdate BlockIndex Pow Validation BlockChecks Compressor CoinsDisk.

Open Scope Z_scope.
Open Scope outcome_scope.

Definition MAX_BLOCKFILE_SIZE : Z := 0x8000000.
Definition BLOCKFILE_CHUNK_SIZE : Z := 0x1000000.
Definition UNDOFILE_CHUNK_SIZE : Z := 0x100000.

Record CDiskBlockPos := mkDiskPos { pos_nFile : Z; pos_nPos : Z }.
Definition DiskPos_null : CDiskBlockPos := mkDiskPos (-1) 0.
Definition DiskPos_IsNull (p : CDiskBlockPos) : bool := pos_nFile p =? -1.

Record CBlockFileInfo := mkFileInfo {
  fi_nBlocks : Z; fi_nSize : Z; fi_nUndoSize : Z; fi_nHeightFirst : Z; fi_nHeightLast : Z; fi_nTimeFirst : Z; fi_nTimeLast : Z
}.
Definition FileInfo_null : CBlockFileInfo := mkFileInfo 0 0 0 0 0 0 0.

Definition FileInfo_AddBlock (i : CBlockFileInfo) (nHeightIn nTimeIn : Z) : CBlockFileInfo :=
  mkFileInfo (u32 (fi_nBlocks i + 1)) (fi_nSize i) (fi_nUndoSize i)
    (if (fi_nBlocks i =? 0) || (nHeightIn <? fi_nHeightFirst i) then nHeightIn else fi_nHeightFirst i)
    (if fi_nHeightLast i <? nHeightIn then nHeightIn else fi_nHeightLast i)
    (if (fi_nBlocks i =? 0) || (nTimeIn <? fi_nTimeFirst i) then nTimeIn else fi_nTimeFirst i)
    (if fi_nTimeLast i <? nTimeIn then nTimeIn else fi_nTimeLast i).

Definition with_nSize (n : Z) (i : CBlockFileInfo) : CBlockFileInfo := mkFileInfo (fi_nBlocks i) n (fi_nUndoSize i) (fi_nHeightFirst i) (fi_nHeightLast i) (fi_nTimeFirst i) (fi_nTimeLast i).
Definition with_nUndoSize (n : Z) (i : CBlockFileInfo) : CBlockFileInfo := mkFileInfo (fi_nBlocks i) (fi_nSize i) n (fi_nHeightFirst i) (fi_nHeightLast i) (fi_nTimeFirst i) (fi_nTimeLast i).

(** ** Files *)

(** ["blk"] and ["rev"]. *)
Inductive prefix := blk | rev.
#[export] Instance prefix_eq_dec : EqDecision prefix.
Proof. solve_decision. Defined.
#[export, refine] Instance prefix_countable : Countable prefix := inj_countable' (fun p => match p with blk => true | rev => false end) (fun b : bool => if b then blk else rev) _.
Proof. by intros []. Defined.

Abbreviation file_table := (gmap (prefix * Z) (list Z)).

(** Writing behind the end leaves zeros between. *)
Definition filled (f : list Z) (n : nat) : list Z := f ++ replicate (n - length f) 0.
Definition write_at (n : nat) (bs : list Z) (f : list Z) : list Z := take n (filled f n) ++ bs ++ drop (n + length bs) f.

(** [TruncateFile]; [AllocateFileRange] by [posix_fallocate]. *)
Definition TruncateFile (n : nat) (f : list Z) : list Z := take n (filled f n).
Definition AllocateFileRange (offset length : Z) (f : list Z) : list Z := filled f (Z.to_nat (offset + length)).

(** The files after opening, if it succeeds; the position is [pos.nPos]. *)
Definition OpenDiskFile (pos : CDiskBlockPos) (p : prefix) (fReadOnly : bool) (d : file_table) : option file_table :=
  if DiskPos_IsNull pos then None
  else match d !! (p, pos_nFile pos) with
       | Some _ => Some d
       | None => if fReadOnly then None else Some (<[(p, pos_nFile pos) := []]> d)
       end.

Definition OpenBlockFile (pos : CDiskBlockPos) : bool -> file_table -> option file_table := OpenDiskFile pos blk.
Definition OpenUndoFile (pos : CDiskBlockPos) : bool -> file_table -> option file_table := OpenDiskFile pos rev.

(** What can be read behind the position, after [OpenDiskFile(pos, prefix, true)]. *)
Definition file_behind (pos : CDiskBlockPos) (p : prefix) (d : file_table) : option (list Z) :=
  match OpenDiskFile pos p true d with
  | Some d => match d !! (p, pos_nFile pos) with Some f => Some (drop (Z.to_nat (pos_nPos pos)) f) | None => None end
  | None => None
  end.

(** ** Positions *)

Record BlockStore := mkStore { vinfoBlockFile : list CBlockFileInfo; nLastBlockFile : Z; store_files : file_table }.

Definition with_files (s : BlockStore) (d : file_table) : BlockStore := mkStore (vinfoBlockFile s) (nLastBlockFile s) d.
Definition with_info (s : BlockStore) (nFile : Z) (f : CBlockFileInfo -> CBlockFileInfo) : BlockStore := mkStore (alter f (Z.to_nat nFile) (vinfoBlockFile s)) (nLastBlockFile s) (store_files s).

(** [if (vinfoBlockFile.size() <= nFile) vinfoBlockFile.resize(nFile + 1);] *)
Definition resize_info (nFile : Z) (s : BlockStore) : BlockStore :=
  mkStore (vinfoBlockFile s ++ replicate (Z.to_nat nFile + 1 - length (vinfoBlockFile s)) FileInfo_null) (nLastBlockFile s) (store_files s).

Definition info_at (s : BlockStore) (nFile : Z) : io CBlockFileInfo := oaccess (vinfoBlockFile s !! Z.to_nat nFile).

Definition finalize_file (p : prefix) (nFile n : Z) (d : file_table) : file_table := alter (TruncateFile (Z.to_nat n)) (p, nFile) d.

Definition FlushBlockFile (fFinalize : bool) (s : BlockStore) : io BlockStore :=
  let posOld := mkDiskPos (nLastBlockFile s) 0 in
  let* s :=
    match OpenBlockFile posOld false (store_files s) with
    | None => Ret s
    | Some d => if fFinalize then let* i := info_at s (nLastBlockFile s) in Ret (with_files s (finalize_file blk (nLastBlockFile s) (fi_nSize i) d)) else Ret (with_files s d)
    end in
  match OpenUndoFile posOld false (store_files s) with
  | None => Ret s
  | Some d => if fFinalize then let* i := info_at s (nLastBlockFile s) in Ret (with_files s (finalize_file rev (nLastBlockFile s) (fi_nUndoSize i) d)) else Ret (with_files s d)
  end.

(** [CheckDiskSpace]: whether there is room for so many bytes. *)
Variant disk_space := room (CheckDiskSpace : Z -> bool).
Definition CheckDiskSpace (d : disk_space) (n : Z) : bool := match d with room f => f n end.

(** Allocating up to the end of the last chunk in use; [None] is "out of disk space". *)
Definition allocate_chunks (space : disk_space) (chunk : Z) (p : prefix) (pos : CDiskBlockPos) (nNewSize : Z) (d : file_table) : option file_table :=
  let nOldChunks := u32 (pos_nPos pos + chunk - 1) / chunk in
  let nNewChunks := u32 (nNewSize + chunk - 1) / chunk in
  if nOldChunks <? nNewChunks then
    let n := u32 (nNewChunks * chunk - pos_nPos pos) in
    if CheckDiskSpace space n then
      match OpenDiskFile pos p false d with
      | Some d => Some (alter (AllocateFileRange (pos_nPos pos) n) (p, pos_nFile pos) d)
      | None => Some d
      end
    else None
  else Some d.

(** [while (vinfoBlockFile[nFile].nSize + nAddSize >= MAX_BLOCKFILE_SIZE)] *)
Fixpoint find_file (fuel : nat) (nFile nAddSize : Z) (s : BlockStore) : io (Z * BlockStore) :=
  let* i := info_at s nFile in
  if MAX_BLOCKFILE_SIZE <=? u32 (fi_nSize i + nAddSize) then
    match fuel with
    | O => Undef
    | S fuel =>
        let* s := FlushBlockFile true s in
        find_file fuel (nFile + 1) nAddSize (resize_info (nFile + 1) s)
    end
  else Ret (nFile, s).

(** The result, [pos] and the state after the call. *)
Definition FindBlockPos (space : disk_space) (pos : CDiskBlockPos) (nAddSize nHeight nTime : Z) (fKnown : bool) (s : BlockStore) : io (bool * CDiskBlockPos * BlockStore) :=
  let nFile := if fKnown then pos_nFile pos else nLastBlockFile s in
  let s := resize_info nFile s in
  let* '(nFile, pos, s) :=
    if negb fKnown then
      let* '(nFile, s) := find_file (S (length (vinfoBlockFile s))) nFile nAddSize s in
      let* i := info_at s nFile in
      Ret (nFile, mkDiskPos nFile (fi_nSize i), s)
    else Ret (nFile, pos, s) in
  let s := mkStore (vinfoBlockFile s) nFile (store_files s) in
  let* i := info_at s nFile in
  let nSize := if fKnown then Z.max (u32 (pos_nPos pos + nAddSize)) (fi_nSize i) else u32 (fi_nSize i + nAddSize) in
  let s := with_info s nFile (fun i => with_nSize nSize (FileInfo_AddBlock i nHeight nTime)) in
  if negb fKnown then
    match allocate_chunks space BLOCKFILE_CHUNK_SIZE blk pos nSize (store_files s) with
    | None => Ret (false, pos, s)
    | Some d => Ret (true, pos, with_files s d)
    end
  else Ret (true, pos, s).

Definition FindUndoPos (space : disk_space) (nFile nAddSize : Z) (s : BlockStore) : io (bool * CDiskBlockPos * BlockStore) :=
  let* i := info_at s nFile in
  let pos := mkDiskPos nFile (fi_nUndoSize i) in
  let nNewSize := u32 (fi_nUndoSize i + nAddSize) in
  let s := with_info s nFile (with_nUndoSize nNewSize) in
  match allocate_chunks space UNDOFILE_CHUNK_SIZE rev pos nNewSize (store_files s) with
  | None => Ret (false, pos, s)
  | Some d => Ret (true, pos, with_files s d)
  end.

(** ** Writing and reading *)

Section Access.
Context {C : KeyCurve}.
(** [Params().MessageStart()], [HashQuark], [Params()]. *)
Variable MessageStart : list Z.
Variable HashQuark : list Z -> list Z.
Variable params : WorkParams.

Definition index_header (nSize : Z) : list Z := MessageStart ++ Serialize (uint_codec 4) nSize.

(** The position behind the header, and the files; [None] if opening fails. *)
Definition write_indexed (p : prefix) (nSize : Z) (data : list Z) (pos : CDiskBlockPos) (d : file_table) : option (CDiskBlockPos * file_table) :=
  match OpenDiskFile pos p false d with
  | None => None
  | Some d => Some (mkDiskPos (pos_nFile pos) (pos_nPos pos + zlen (index_header nSize)), alter (write_at (Z.to_nat (pos_nPos pos)) (index_header nSize ++ data)) (p, pos_nFile pos) d)
  end.

Definition WriteBlockToDisk (block : CBlock) (pos : CDiskBlockPos) (d : file_table) : option (CDiskBlockPos * file_table) :=
  write_indexed blk (GetSerializeSize block_codec block) (Serialize block_codec block) pos d.

(** Reading the block; [None] stands for every error. *)
Definition ReadBlockFromDisk (pos : CDiskBlockPos) (d : file_table) : io (option CBlock) :=
  match file_behind pos blk d with
  | None => Ret None
  | Some inp =>
      match Unserialize block_codec inp with
      | Ret (block, _) => if negb (IsProofOfStake (vtx block)) && negb (CheckProofOfWork params (header_GetHash HashQuark (blk_header block)) (nBits (blk_header block))) then Ret None else Ret (Some block)
      | Throw => Ret None
      | Err e => Err e
      | Undef => Undef
      end
  end.

(** The overload for an index entry: its [GetBlockPos()] and [GetBlockHash()]. *)
Definition ReadIndexedBlock (pos : CDiskBlockPos) (hash : list Z) (d : file_table) : io (option CBlock) :=
  let* r := ReadBlockFromDisk pos d in
  match r with
  | None => Ret None
  | Some block => if bool_decide (header_GetHash HashQuark (blk_header block) = hash) then Ret (Some block) else Ret None
  end.

Definition undo_checksum (hashBlock : list Z) (undo : list (list CTxInUndo)) : list Z :=
  CHashWriter_GetHash (CHashWriter_write (CHashWriter_write (CHashWriter_new SER_GETHASH PROTOCOL_VERSION) (bytes_of hashBlock)) (Serialize CBlockUndo_codec undo)).

Definition Undo_WriteToDisk (undo : list (list CTxInUndo)) (pos : CDiskBlockPos) (hashBlock : list Z) (d : file_table) : option (CDiskBlockPos * file_table) :=
  write_indexed rev (GetSerializeSize CBlockUndo_codec undo) (Serialize CBlockUndo_codec undo ++ undo_checksum hashBlock undo) pos d.

Definition Undo_ReadFromDisk (pos : CDiskBlockPos) (hashBlock : list Z) (d : file_table) : io (option (list (list CTxInUndo))) :=
  match file_behind pos rev d with
  | None => Ret None
  | Some inp =>
      match (let* '(undo, inp) := Unserialize CBlockUndo_codec inp in let* '(hashChecksum, inp) := read 32 inp in Ret (undo, hashChecksum)) with
      | Ret (undo, hashChecksum) => if bool_decide (hashChecksum = undo_checksum hashBlock undo) then Ret (Some undo) else Ret None
      | Throw => Ret None
      | Err e => Err e
      | Undef => Undef
      end
  end.

(** [AcceptBlock] and [WriteUndoDataToDisk]: a place, then writing there. *)
Definition store_block (space : disk_space) (block : CBlock) (nHeight : Z) (s : BlockStore) : io (option CDiskBlockPos * BlockStore) :=
  let nBlockSize := u32 (GetSerializeSize block_codec block) in
  let* '(ok, pos, s) := FindBlockPos space DiskPos_null (u32 (nBlockSize + 8)) nHeight (nTime (blk_header block)) false s in
  if negb ok then Ret (None, s)
  else match WriteBlockToDisk block pos (store_files s) with
       | None => Ret (None, s)
       | Some (pos, d) => Ret (Some pos, with_files s d)
       end.

Definition store_undo (space : disk_space) (nFile : Z) (undo : list (list CTxInUndo)) (hashPrev : list Z) (s : BlockStore) : io (option CDiskBlockPos * BlockStore) :=
  let* '(ok, pos, s) := FindUndoPos space nFile (u32 (GetSerializeSize CBlockUndo_codec undo + 40)) s in
  if negb ok then Ret (None, s)
  else match Undo_WriteToDisk undo pos hashPrev (store_files s) with
       | None => Ret (None, s)
       | Some (pos, d) => Ret (Some pos, with_files s d)
       end.
End Access.

(** ** Bytes that stay *)

(** [bs] lies at [n] in [f]. *)
Definition lies_at (n : nat) (bs f : list Z) : Prop := forall j x, bs !! j = Some x -> f !! (n + j)%nat = Some x.

Lemma lies_behind bs : forall n f, lies_at n bs f -> drop n f = bs ++ drop (n + length bs) f.
Proof.
  induction bs as [|b bs IH]; intros n f H; [cbn; by rewrite Nat.add_0_r|]. pose proof (H 0%nat b eq_refl) as H0. rewrite Nat.add_0_r in H0. rewrite (drop_S _ _ _ H0). cbn [app length]. f_equal.
  rewrite (IH (S n) f); [f_equal; f_equal; lia|]. intros j x Hj. replace (S n + j)%nat with (n + S j)%nat by lia. by apply H.
Qed.

Lemma behind_lies bs n f rest : drop n f = bs ++ rest -> lies_at n bs f.
Proof. intros H j x Hj. rewrite <- lookup_drop, H. by apply lookup_app_l_Some. Qed.

Lemma lies_part n bs1 bs2 f : lies_at n (bs1 ++ bs2) f -> lies_at (n + length bs1) bs2 f.
Proof. intros H j x Hj. rewrite <- Nat.add_assoc. apply H. by rewrite lookup_app_r, Nat.add_comm, Nat.add_sub by lia. Qed.

Lemma filled_lookup f n i x : f !! i = Some x -> filled f n !! i = Some x.
Proof. intros H. unfold filled. by apply lookup_app_l_Some. Qed.

Lemma filled_length f n : (n <= length (filled f n))%nat.
Proof. unfold filled. rewrite length_app, length_replicate. lia. Qed.

Lemma write_below n bs f i x : f !! i = Some x -> (i < n)%nat -> write_at n bs f !! i = Some x.
Proof. intros H Hi. unfold write_at. apply lookup_app_l_Some. rewrite lookup_take_lt by done. by apply filled_lookup. Qed.

Lemma write_lies n bs f : lies_at n bs (write_at n bs f).
Proof.
  intros j x Hj. unfold write_at. pose proof (filled_length f n). assert (length (take n (filled f n)) = n) as Hl by (rewrite length_take; lia). rewrite lookup_app_r by lia. rewrite Hl, Nat.add_comm, Nat.add_sub.
  by apply lookup_app_l_Some.
Qed.

Lemma truncate_below n f i x : f !! i = Some x -> (i < n)%nat -> TruncateFile n f !! i = Some x.
Proof. intros H Hi. unfold TruncateFile. rewrite lookup_take_lt by done. by apply filled_lookup. Qed.

(** Below the limits [L] the files keep what they have. *)
Definition files_keep (L : prefix * Z -> Z) (d d' : file_table) : Prop :=
  forall k f, d !! k = Some f -> exists f', d' !! k = Some f' /\ forall i x, f !! i = Some x -> Z.of_nat i < L k -> f' !! i = Some x.

Lemma files_keep_refl L d : files_keep L d d.
Proof. intros k f H. by exists f. Qed.

Lemma files_keep_trans L d1 d2 d3 : files_keep L d1 d2 -> files_keep L d2 d3 -> files_keep L d1 d3.
Proof. intros H1 H2 k f Hf. destruct (H1 k f Hf) as (f2 & Hf2 & H12). destruct (H2 k f2 Hf2) as (f3 & Hf3 & H23). exists f3. split; [done|]. auto. Qed.

Lemma files_keep_alter L d k g : (forall f i x, f !! i = Some x -> Z.of_nat i < L k -> g f !! i = Some x) -> files_keep L d (alter g k d).
Proof.
  intros Hg k' f Hf. destruct (decide (k' = k)) as [->|Hne].
  - rewrite lookup_alter_eq, Hf. exists (g f). split; [done|]. by apply Hg.
  - rewrite lookup_alter_ne, Hf by done. by exists f.
Qed.

Lemma open_keeps L pos p ro d d' : OpenDiskFile pos p ro d = Some d' -> files_keep L d d' /\ is_Some (d' !! (p, pos_nFile pos)).
Proof.
  unfold OpenDiskFile. destruct (DiskPos_IsNull pos); [done|]. destruct (d !! _) as [f|] eqn:E; [intros [= <-]; split; [apply files_keep_refl | by eexists]|].
  destruct ro; [done|]. intros [= <-]. split; [|rewrite lookup_insert_eq; by eexists]. intros k f Hf. exists f. split; [|done]. rewrite lookup_insert_ne; [done|]. intros <-. congruence.
Qed.

Lemma allocate_keeps L space chunk p pos n d d' : allocate_chunks space chunk p pos n d = Some d' -> files_keep L d d'.
Proof.
  unfold allocate_chunks. destruct (_ <? _); [|intros [= <-]; apply files_keep_refl]. destruct (CheckDiskSpace _ _); [|done]. destruct (OpenDiskFile pos p false d) as [d1|] eqn:E; intros [= <-]; [|apply files_keep_refl].
  eapply files_keep_trans; [eapply open_keeps; exact E|]. apply files_keep_alter. intros f i x H _. by apply filled_lookup.
Qed.

Lemma record_keeps L MessageStart p nSize data pos d pos' d' : write_indexed MessageStart p nSize data pos d = Some (pos', d') -> L (p, pos_nFile pos) <= pos_nPos pos -> 0 <= pos_nPos pos ->
  files_keep L d d' /\ pos' = mkDiskPos (pos_nFile pos) (pos_nPos pos + zlen (index_header MessageStart nSize)) /\
  exists f, d' !! (p, pos_nFile pos) = Some f /\ lies_at (Z.to_nat (pos_nPos pos')) data f.
Proof.
  unfold write_indexed. destruct (OpenDiskFile pos p false d) as [d1|] eqn:E; [|done]. intros [= <- <-] Hl H0. destruct (open_keeps L _ _ _ _ _ E) as [Hk [f Hf]]. split; [|split; [done|]].
  - eapply files_keep_trans; [exact Hk|]. apply files_keep_alter. intros g i x Hi Hlt. apply write_below; [done | lia].
  - rewrite lookup_alter_eq, Hf. eexists. split; [reflexivity|]. cbn [pos_nPos]. rewrite Z2Nat.inj_add by (done || apply zlen_nonneg). unfold zlen. rewrite Nat2Z.id. apply lies_part, write_lies.
Qed.

(** ** Sizes *)

Definition size_at (s : BlockStore) (k : prefix * Z) : Z :=
  match vinfoBlockFile s !! Z.to_nat k.2 with Some i => match k.1 with blk => fi_nSize i | rev => fi_nUndoSize i end | None => 0 end.

Record store_ok (s : BlockStore) : Prop := mkStoreOk {
  so_last : 0 <= nLastBlockFile s;
  so_sizes : Forall (fun i => 0 <= fi_nSize i <= 2 ^ 31 /\ 0 <= fi_nUndoSize i < 2 ^ 32) (vinfoBlockFile s)
}.

(** What is stored stays. *)
Record preserves (s s' : BlockStore) : Prop := mkPreserves {
  pr_files : files_keep (size_at s) (store_files s) (store_files s');
  pr_grows : forall k, size_at s k <= size_at s' k
}.

Lemma keeps_less L L' d d' : (forall k, L k <= L' k) -> files_keep L' d d' -> files_keep L d d'.
Proof. intros HL H k f Hf. destruct (H k f Hf) as (f' & Hf' & Hx). exists f'. split; [done|]. intros i x Hi Hlt. apply Hx; [done|]. specialize (HL k). lia. Qed.

Lemma preserves_refl s : preserves s s.
Proof. split; [apply files_keep_refl | done]. Qed.

Lemma preserves_trans s1 s2 s3 : preserves s1 s2 -> preserves s2 s3 -> preserves s1 s3.
Proof. intros [H1 G1] [H2 G2]. split; [eapply files_keep_trans; [exact H1|]; by eapply keeps_less | intros k; etransitivity; eauto]. Qed.

Lemma size_nonneg s k : store_ok s -> 0 <= size_at s k.
Proof. intros [_ H]. unfold size_at. destruct (_ !! _) as [i|] eqn:E; [|lia]. rewrite Forall_lookup in H. destruct (H _ _ E). destruct k.1; lia. Qed.

Lemma resize_spec n s : store_ok s -> 0 <= n -> store_ok (resize_info n s) /\ (forall k, size_at (resize_info n s) k = size_at s k) /\ (Z.to_nat n < length (vinfoBlockFile (resize_info n s)))%nat /\
  (forall i, (length (vinfoBlockFile s) <= i < length (vinfoBlockFile (resize_info n s)))%nat -> vinfoBlockFile (resize_info n s) !! i = Some FileInfo_null).
Proof.
  intros [H1 H2] Hn. unfold resize_info. split; [|split; [|split]]; cbn [vinfoBlockFile nLastBlockFile].
  - split; [done|]. apply Forall_app. split; [done|]. apply Forall_forall. intros i Hi%elem_of_replicate_inv. subst i. cbn. lia.
  - intros k. unfold size_at. cbn [vinfoBlockFile]. rewrite lookup_app. destruct (vinfoBlockFile s !! _); [done|]. destruct (replicate _ _ !! _) as [i|] eqn:E; [|done]. apply lookup_replicate in E as [-> _]. by destruct k.1.
  - rewrite length_app, length_replicate. lia.
  - intros i. rewrite length_app, length_replicate. intros Hi. rewrite lookup_app_r, lookup_replicate_2 by lia. done.
Qed.

Lemma resize_preserves n s : store_ok s -> 0 <= n -> preserves s (resize_info n s).
Proof. intros H Hn. destruct (resize_spec n s H Hn) as (_ & Hs & _). split; [apply files_keep_refl | intros k; by rewrite Hs]. Qed.

(** Changing the files only. *)
Lemma files_preserves s d : files_keep (size_at s) (store_files s) d -> preserves s (with_files s d).
Proof. intros H. by split. Qed.

Lemma finalize_keeps s p n d : n = size_at s (p, nLastBlockFile s) -> files_keep (size_at s) d (finalize_file p (nLastBlockFile s) n d).
Proof. intros ->. apply files_keep_alter. intros f i x Hi Hl. apply truncate_below; [done|]. lia. Qed.

Lemma flush_one s p i d fin : vinfoBlockFile s !! Z.to_nat (nLastBlockFile s) = Some i -> OpenDiskFile (mkDiskPos (nLastBlockFile s) 0) p false (store_files s) = Some d ->
  exists d', (if fin : bool then let* i := info_at s (nLastBlockFile s) in Ret (with_files s (finalize_file p (nLastBlockFile s) (match p with blk => fi_nSize i | rev => fi_nUndoSize i end) d)) else Ret (with_files s d) : io BlockStore) = Ret (with_files s d') /\
    files_keep (size_at s) (store_files s) d'.
Proof.
  intros Hi Ho. destruct (open_keeps (size_at s) _ _ _ _ _ Ho) as [Hk _]. unfold info_at. rewrite Hi. cbn [oaccess obind]. destruct fin; [|by exists d]. eexists. split; [reflexivity|].
  eapply files_keep_trans; [exact Hk|]. apply finalize_keeps. unfold size_at. cbn [fst snd]. by rewrite Hi.
Qed.

Lemma FlushBlockFile_spec fin s i : vinfoBlockFile s !! Z.to_nat (nLastBlockFile s) = Some i -> exists d, FlushBlockFile fin s = Ret (with_files s d) /\ preserves s (with_files s d).
Proof.
  intros Hi. unfold FlushBlockFile, OpenBlockFile, OpenUndoFile.
  assert (forall s1, vinfoBlockFile s1 = vinfoBlockFile s -> nLastBlockFile s1 = nLastBlockFile s -> files_keep (size_at s) (store_files s) (store_files s1) -> exists d,
    match OpenDiskFile (mkDiskPos (nLastBlockFile s) 0) rev false (store_files s1) with
    | None => Ret s1 | Some d => if fin then let* i := info_at s1 (nLastBlockFile s1) in Ret (with_files s1 (finalize_file rev (nLastBlockFile s1) (fi_nUndoSize i) d)) else Ret (with_files s1 d) end = Ret (with_files s d) :> io BlockStore /\
    files_keep (size_at s) (store_files s) d) as Hrev.
  { intros s1 Hv Hl Hk. assert (size_at s1 = size_at s) as Hs by (unfold size_at; by rewrite Hv). assert (forall d, with_files s1 d = with_files s d) as Hw by (intros d; unfold with_files; by rewrite Hv, Hl).
    destruct (OpenDiskFile _ rev false (store_files s1)) as [d|] eqn:E; [|exists (store_files s1); split; [by rewrite <- Hw; destruct s1 | done]].
    destruct (flush_one s1 rev i d fin) as (d' & Hd & Hk'); [by rewrite Hv, Hl | by rewrite Hl|]. exists d'. rewrite <- Hw. split; [exact Hd|]. eapply files_keep_trans; [exact Hk|]. by rewrite <- Hs. }
  destruct (OpenDiskFile _ blk false (store_files s)) as [d|] eqn:E.
  - destruct (flush_one s blk i d fin Hi E) as (d1 & Hd1 & Hk1). rewrite Hd1. cbn [obind]. destruct (Hrev (with_files s d1) eq_refl eq_refl Hk1) as (d2 & Hd2 & Hk2). exists d2. split; [exact Hd2|]. by apply files_preserves.
  - cbn [obind]. destruct (Hrev s eq_refl eq_refl (files_keep_refl _ _)) as (d2 & Hd2 & Hk2). exists d2. split; [exact Hd2|]. by apply files_preserves.
Qed.

Lemma with_files_ok s d : store_ok s -> store_ok (with_files s d).
Proof. intros [H1 H2]. by split. Qed.

(** The search ends at the latest with the first file behind those there are. *)
Lemma find_file_spec nAddSize : 0 <= nAddSize < MAX_BLOCKFILE_SIZE -> forall fuel nFile s, store_ok s -> (Z.to_nat (nLastBlockFile s) < length (vinfoBlockFile s))%nat -> 0 <= nFile ->
  (Z.to_nat nFile < length (vinfoBlockFile s))%nat -> (length (vinfoBlockFile s) - Z.to_nat nFile <= fuel)%nat ->
  exists n s' i, find_file fuel nFile nAddSize s = Ret (n, s') /\ store_ok s' /\ preserves s s' /\ 0 <= n /\ vinfoBlockFile s' !! Z.to_nat n = Some i /\ fi_nSize i + nAddSize < MAX_BLOCKFILE_SIZE.
Proof.
  unfold MAX_BLOCKFILE_SIZE. intros Ha fuel. induction fuel as [|fuel IH]; intros nFile s Hok Hlast Hn Hlt Hf; [lia|].
  destruct (lookup_lt_is_Some_2 _ _ Hlt) as [i Hi]. assert (Hsz : 0 <= fi_nSize i <= 2 ^ 31) by (destruct Hok as [_ H]; rewrite Forall_lookup in H; by apply (H _ _ Hi)).
  cbn [find_file]. unfold info_at at 1. rewrite Hi. cbn [oaccess obind]. unfold MAX_BLOCKFILE_SIZE. assert (u32 (fi_nSize i + nAddSize) = fi_nSize i + nAddSize) as -> by (unfold u32; rewrite Z.mod_small; lia).
  destruct (Z.leb_spec 0x8000000 (fi_nSize i + nAddSize)); [|exists nFile, s, i; split_and!; try done; apply preserves_refl].
  destruct (lookup_lt_is_Some_2 _ _ Hlast) as [il Hil]. destruct (FlushBlockFile_spec true s il Hil) as (d & -> & Hp). cbn [obind].
  pose proof (with_files_ok s d Hok) as Hok1. destruct (resize_spec (nFile + 1) (with_files s d) Hok1 ltac:(lia)) as (Hok2 & Hsame & Hlen & Hnew). pose proof (resize_preserves (nFile + 1) _ Hok1 ltac:(lia)) as Hp2.
  set (s2 := resize_info (nFile + 1) (with_files s d)) in *. assert (Hp02 : preserves s s2) by (eapply preserves_trans; [exact Hp | exact Hp2]).
  assert (Hlen2 : (length (vinfoBlockFile s) <= length (vinfoBlockFile s2))%nat) by (unfold s2, resize_info; cbn [vinfoBlockFile with_files]; rewrite length_app; lia).
  destruct (decide (Z.to_nat nFile + 1 < length (vinfoBlockFile s))%nat) as [Hin|Hout].
  - assert (length (vinfoBlockFile s2) = length (vinfoBlockFile s)) as Hl2 by (unfold s2, resize_info; cbn [vinfoBlockFile with_files]; rewrite length_app, length_replicate; lia).
    destruct (IH (nFile + 1) s2 Hok2) as (n & s' & j & H1 & H2 & H3 & H4); [cbn [nLastBlockFile s2 resize_info with_files] in *; lia | lia | lia | lia|].
    exists n, s', j. split; [exact H1|]. split; [done|]. split; [|done]. by eapply preserves_trans.
  - assert (vinfoBlockFile s2 !! Z.to_nat (nFile + 1) = Some FileInfo_null) as Hnull by (apply Hnew; cbn [with_files vinfoBlockFile]; lia).
    exists (nFile + 1), s2, FileInfo_null. split; [|split_and!; try done; [lia | cbn; lia]].
    destruct fuel; cbn [find_file]; unfold info_at; rewrite Hnull; cbn [oaccess obind FileInfo_null fi_nSize]; rewrite (Z.add_0_l nAddSize); unfold MAX_BLOCKFILE_SIZE; (assert (u32 nAddSize = nAddSize) as -> by (unfold u32; rewrite Z.mod_small; lia)); by rewrite (proj2 (Z.leb_gt _ _)) by lia.
Qed.

(** Entering a new size. *)
Lemma with_info_spec s nFile i f p n : store_ok s -> vinfoBlockFile s !! Z.to_nat nFile = Some i -> 0 <= nFile -> size_at s (p, nFile) <= n ->
  (match p with blk => fi_nSize (f i) | rev => fi_nUndoSize (f i) end) = n -> (match p with blk => fi_nUndoSize (f i) | rev => fi_nSize (f i) end) = (match p with blk => fi_nUndoSize i | rev => fi_nSize i end) ->
  n <= match p with blk => 2 ^ 31 | rev => 2 ^ 32 - 1 end ->
  store_ok (with_info s nFile f) /\ preserves s (with_info s nFile f) /\ size_at (with_info s nFile f) (p, nFile) = n.
Proof.
  intros Hok Hi Hn Hle Hp Hother Hmax. pose proof (size_nonneg s (p, nFile) Hok). assert (Hat : size_at (with_info s nFile f) (p, nFile) = n).
  { unfold size_at, with_info. cbn [vinfoBlockFile fst snd]. rewrite list_lookup_alter_eq, Hi. cbn. by destruct p. }
  split; [|split; [|done]].
  - destruct Hok as [H1 H2]. split; [done|]. unfold with_info. cbn [vinfoBlockFile]. rewrite Forall_lookup in H2 |- *. pose proof (H2 _ _ Hi). intros j x Hx. destruct (decide (j = Z.to_nat nFile)) as [->|Hne].
    + rewrite list_lookup_alter_eq, Hi in Hx. injection Hx as <-. destruct p; rewrite Hp, Hother; lia.
    + rewrite list_lookup_alter_ne in Hx by done. by apply (H2 j).
  - split; [apply files_keep_refl|]. intros [q m]. unfold size_at at 2. unfold with_info. cbn [vinfoBlockFile fst snd]. destruct (decide (Z.to_nat m = Z.to_nat nFile)) as [E|Hne].
    + rewrite E, list_lookup_alter_eq, Hi. cbn [fmap option_fmap option_map]. unfold size_at in Hle |- *. cbn [fst snd] in *. rewrite E, Hi in *. destruct p, q; lia.
    + rewrite list_lookup_alter_ne by done. unfold size_at. cbn [fst snd]. done.
Qed.

Definition has_room (space : disk_space) : Prop := forall n, CheckDiskSpace space n = true.

Lemma allocate_room space chunk p pos n d : has_room space -> allocate_chunks space chunk p pos n d <> None.
Proof. intros H. unfold allocate_chunks. destruct (_ <? _); [|done]. rewrite H. by destruct (OpenDiskFile _ _ _ _). Qed.

(** A place is behind all that is stored in its file, and reserved. *)
Definition placed (s s' : BlockStore) (p : prefix) (pos : CDiskBlockPos) (nAddSize : Z) : Prop :=
  store_ok s' /\ preserves s s' /\ 0 <= pos_nFile pos /\ size_at s (p, pos_nFile pos) <= pos_nPos pos /\ 0 <= pos_nPos pos /\ pos_nPos pos + nAddSize <= size_at s' (p, pos_nFile pos).

Lemma FindBlockPos_spec space pos nAddSize nHeight nTime s : store_ok s -> 0 <= nAddSize < MAX_BLOCKFILE_SIZE ->
  exists ok pos' s', FindBlockPos space pos nAddSize nHeight nTime false s = Ret (ok, pos', s') /\ (has_room space -> ok = true) /\ placed s s' blk pos' nAddSize.
Proof.
  unfold MAX_BLOCKFILE_SIZE. intros Hok Ha. unfold FindBlockPos. cbn [negb]. destruct (resize_spec (nLastBlockFile s) s Hok (so_last s Hok)) as (Hok1 & Hsame & Hlen & _). pose proof (resize_preserves (nLastBlockFile s) s Hok (so_last s Hok)) as Hp1.
  set (s1 := resize_info (nLastBlockFile s) s) in *. destruct (find_file_spec nAddSize Ha (S (length (vinfoBlockFile s1))) (nLastBlockFile s) s1 Hok1) as (n & s2 & i & -> & Hok2 & Hp2 & Hn & Hi & Hsize); [done | apply Hok | done | lia|].
  cbn [obind]. unfold info_at at 1. rewrite Hi. cbn [oaccess obind]. set (s3 := mkStore (vinfoBlockFile s2) n (store_files s2)).
  assert (Hok3 : store_ok s3) by (split; [done | apply Hok2]). assert (Hp3 : preserves s s3).
  { eapply preserves_trans; [exact Hp1|]. eapply preserves_trans; [exact Hp2|]. by split; [apply files_keep_refl | intros k]. }
  unfold info_at. change (vinfoBlockFile s3) with (vinfoBlockFile s2). rewrite Hi. cbn [oaccess obind]. assert (Hi0 : 0 <= fi_nSize i <= 2 ^ 31) by (destruct Hok2 as [_ H]; rewrite Forall_lookup in H; by apply (H _ _ Hi)).
  unfold MAX_BLOCKFILE_SIZE in Hsize. assert (u32 (fi_nSize i + nAddSize) = fi_nSize i + nAddSize) as -> by (unfold u32; rewrite Z.mod_small; lia). set (f := fun i0 => with_nSize _ _).
  assert (Hat : size_at s3 (blk, n) = fi_nSize i) by (unfold size_at; cbn [fst snd vinfoBlockFile s3]; by rewrite Hi).
  destruct (with_info_spec s3 n i f blk (fi_nSize i + nAddSize) Hok3) as (Hok4 & Hp4 & Hat4); [done | done | lia | done | done | lia|]. set (s4 := with_info s3 n f) in *.
  assert (Hp04 : preserves s s4) by (by eapply preserves_trans). assert (Hbase : size_at s (blk, n) <= fi_nSize i) by (rewrite <- Hat; apply Hp3).
  destruct (allocate_chunks _ _ _ _ _ _) as [d|] eqn:Ed; eexists _, _, _; (split; [reflexivity|]); (split; [intros Hroom; first [done | by apply allocate_room in Ed]|]); unfold placed; cbn [pos_nFile pos_nPos].
  - pose proof (allocate_keeps (size_at s4) _ _ _ _ _ _ _ Ed) as Hk. split; [by apply with_files_ok|]. split; [eapply preserves_trans; [exact Hp04|]; by apply files_preserves|]. change (size_at (with_files s4 d)) with (size_at s4). rewrite Hat4. split_and!; lia.
  - rewrite Hat4. split_and!; try done; lia.
Qed.

Lemma FindBlockPos_known space pos nAddSize nHeight nTime s : store_ok s -> 0 <= pos_nFile pos -> 0 <= pos_nPos pos -> 0 <= nAddSize -> pos_nPos pos + nAddSize <= 2 ^ 31 ->
  exists s', FindBlockPos space pos nAddSize nHeight nTime true s = Ret (true, pos, s') /\ store_ok s' /\ preserves s s' /\ pos_nPos pos + nAddSize <= size_at s' (blk, pos_nFile pos).
Proof.
  intros Hok Hf Hpos Ha Hmax. unfold FindBlockPos. cbn [negb obind]. destruct (resize_spec (pos_nFile pos) s Hok Hf) as (Hok1 & Hsame & Hlen & _). pose proof (resize_preserves (pos_nFile pos) s Hok Hf) as Hp1.
  set (s1 := resize_info (pos_nFile pos) s) in *. destruct (lookup_lt_is_Some_2 _ _ Hlen) as [i Hi]. set (s2 := mkStore (vinfoBlockFile s1) (pos_nFile pos) (store_files s1)).
  assert (Hok2 : store_ok s2) by (split; [done | apply Hok1]). assert (Hp2 : preserves s s2) by (eapply preserves_trans; [exact Hp1|]; by split; [apply files_keep_refl | intros k]).
  unfold info_at. change (vinfoBlockFile s2) with (vinfoBlockFile s1). rewrite Hi. cbn [oaccess obind]. assert (Hi0 : 0 <= fi_nSize i <= 2 ^ 31) by (destruct Hok1 as [_ H]; rewrite Forall_lookup in H; by apply (H _ _ Hi)).
  assert (u32 (pos_nPos pos + nAddSize) = pos_nPos pos + nAddSize) as -> by (unfold u32; rewrite Z.mod_small; lia). set (f := fun i0 => with_nSize _ _).
  assert (Hat : size_at s2 (blk, pos_nFile pos) = fi_nSize i) by (unfold size_at; cbn [fst snd vinfoBlockFile s2]; by rewrite Hi).
  destruct (with_info_spec s2 (pos_nFile pos) i f blk (Z.max (pos_nPos pos + nAddSize) (fi_nSize i)) Hok2) as (Hok4 & Hp4 & Hat4); [done | done | lia | done | done | lia|].
  eexists. split; [reflexivity|]. split; [done|]. split; [by eapply preserves_trans|]. rewrite Hat4. lia.
Qed.

Lemma FindUndoPos_spec space nFile nAddSize s : store_ok s -> 0 <= nFile -> (Z.to_nat nFile < length (vinfoBlockFile s))%nat -> 0 <= nAddSize -> size_at s (rev, nFile) + nAddSize < 2 ^ 32 ->
  exists ok pos' s', FindUndoPos space nFile nAddSize s = Ret (ok, pos', s') /\ (has_room space -> ok = true) /\ placed s s' rev pos' nAddSize.
Proof.
  intros Hok Hf Hlen Ha Hmax. unfold FindUndoPos, info_at. destruct (lookup_lt_is_Some_2 _ _ Hlen) as [i Hi]. rewrite Hi. cbn [oaccess obind].
  assert (Hat : size_at s (rev, nFile) = fi_nUndoSize i) by (unfold size_at; cbn [fst snd]; by rewrite Hi). rewrite Hat in Hmax. assert (Hi0 : 0 <= fi_nUndoSize i) by (rewrite <- Hat; by apply size_nonneg).
  assert (u32 (fi_nUndoSize i + nAddSize) = fi_nUndoSize i + nAddSize) as -> by (unfold u32; rewrite Z.mod_small; lia).
  destruct (with_info_spec s nFile i (with_nUndoSize (fi_nUndoSize i + nAddSize)) rev (fi_nUndoSize i + nAddSize) Hok) as (Hok4 & Hp4 & Hat4); [done | done | lia | done | done | lia|]. set (s4 := with_info s nFile _) in *.
  destruct (allocate_chunks _ _ _ _ _ _) as [d|] eqn:Ed; eexists _, _, _; (split; [reflexivity|]); (split; [intros Hroom; first [done | by apply allocate_room in Ed]|]); unfold placed; cbn [pos_nFile pos_nPos].
  - pose proof (allocate_keeps (size_at s4) _ _ _ _ _ _ _ Ed) as Hk. split; [by apply with_files_ok|]. split; [eapply preserves_trans; [exact Hp4|]; by apply files_preserves|]. change (size_at (with_files s4 d)) with (size_at s4). rewrite Hat4. split_and!; lia.
  - rewrite Hat4. split_and!; try done; lia.
Qed.

(** ** Histories *)

Inductive stored := stored_block (pos : CDiskBlockPos) (block : CBlock) | stored_undos (pos : CDiskBlockPos) (hashPrev : list Z) (undo : list (list CTxInUndo)).

Definition store_new : BlockStore := mkStore [] 0 ∅.

Section Histories.
Context {C : KeyCurve} {laws : KeyCurveLaws C}.
Variable MessageStart : list Z.
Hypothesis message_start : zlen MessageStart = 4.
Variable HashQuark : list Z -> list Z.
Variable params : WorkParams.

Definition place_of (e : stored) : prefix * CDiskBlockPos := match e with stored_block pos _ => (blk, pos) | stored_undos pos _ _ => (rev, pos) end.
Definition bytes_stored (e : stored) : list Z :=
  match e with stored_block _ b => Serialize block_codec b | stored_undos _ h l => Serialize CBlockUndo_codec l ++ undo_checksum h l end.

(** A block as [CheckBlock] lets it pass; undo data in range. *)
Definition work_shown (b : CBlock) : Prop := IsProofOfStake (vtx b) = false -> CheckProofOfWork params (header_GetHash HashQuark (blk_header b)) (nBits (blk_header b)) = true.
Definition storable (e : stored) : Prop := match e with stored_block _ b => block_ok b /\ work_shown b | stored_undos _ _ l => undos_storable l end.

Record intact (s : BlockStore) (e : stored) : Prop := mkIntact {
  in_storable : storable e;
  in_place : 0 <= pos_nFile (place_of e).2 /\ 0 <= pos_nPos (place_of e).2;
  in_bytes : exists f, store_files s !! ((place_of e).1, pos_nFile (place_of e).2) = Some f /\ lies_at (Z.to_nat (pos_nPos (place_of e).2)) (bytes_stored e) f;
  in_size : pos_nPos (place_of e).2 + zlen (bytes_stored e) <= size_at s ((place_of e).1, pos_nFile (place_of e).2)
}.

Lemma intact_kept s s' e : preserves s s' -> intact s e -> intact s' e.
Proof.
  intros [Hk Hg] [H1 [Hf0 Hp0] (f & Hf & Hl) H4]. split; [done | done | | specialize (Hg ((place_of e).1, pos_nFile (place_of e).2)); lia].
  destruct (Hk _ _ Hf) as (f' & Hf' & Hx). exists f'. split; [done|]. intros j x Hj. apply Hx; [by apply Hl|]. apply lookup_lt_Some in Hj. unfold zlen in H4. lia.
Qed.

(** Reading finds what was stored. *)
Lemma intact_behind s e : intact s e -> exists rest, file_behind (place_of e).2 (place_of e).1 (store_files s) = Some (bytes_stored e ++ rest).
Proof.
  intros [_ [Hf0 Hp0] (f & Hf & Hl) _]. unfold file_behind, OpenDiskFile, DiskPos_IsNull. rewrite (proj2 (Z.eqb_neq _ _)) by lia. rewrite Hf, Hf. eexists. f_equal. by apply lies_behind.
Qed.

Lemma checksum_length h l : zlen (undo_checksum h l) = 32.
Proof. reflexivity. Qed.

Lemma checksum_as_stored h l : undo_checksum h (as_stored l) = undo_checksum h l.
Proof. unfold undo_checksum. by rewrite as_stored_bytes. Qed.

Definition read_back (s : BlockStore) (e : stored) : Prop :=
  match e with
  | stored_block pos b => ReadIndexedBlock HashQuark params pos (header_GetHash HashQuark (blk_header b)) (store_files s) = Ret (Some b)
  | stored_undos pos h l => Undo_ReadFromDisk pos h (store_files s) = Ret (Some (as_stored l)) /\
      forall h', Undo_ReadFromDisk pos h' (store_files s) = Ret None \/ undo_checksum h' l = undo_checksum h l
  end.

Lemma intact_readable s e : intact s e -> read_back s e.
Proof.
  intros H. destruct (intact_behind s e H) as [rest Hb]. destruct H as [Hs _ _ _]. destruct e as [pos b|pos h l]; cbn [place_of bytes_stored storable read_back fst snd] in *.
  - destruct Hs as [Hok Hwork]. unfold ReadIndexedBlock, ReadBlockFromDisk. rewrite Hb. rewrite (law_roundtrip block_lawful) by done.
    assert (negb (IsProofOfStake (vtx b)) && negb (CheckProofOfWork params (header_GetHash HashQuark (blk_header b)) (nBits (blk_header b))) = false) as ->.
    { destruct (IsProofOfStake (vtx b)) eqn:E; [done|]. by rewrite (Hwork E). }
    cbn [obind]. by rewrite bool_decide_eq_true_2.
  - assert (Hread : forall h', Undo_ReadFromDisk pos h' (store_files s) = if bool_decide (undo_checksum h l = undo_checksum h' (as_stored l)) then Ret (Some (as_stored l)) else Ret None).
    { intros h'. unfold Undo_ReadFromDisk. rewrite Hb, <- app_assoc, undos_back by done. cbn [obind]. by rewrite read_app by apply checksum_length. }
    split; [rewrite Hread, checksum_as_stored; by rewrite bool_decide_eq_true_2|]. intros h'. rewrite Hread, checksum_as_stored. case_bool_decide as E; [by right | by left].
Qed.

(** Writing at a place that was found. *)
Lemma placed_written s s1 p pos nAddSize nSize data : placed s s1 p pos nAddSize -> nAddSize = zlen data + 8 -> exists d, write_indexed MessageStart p nSize data pos (store_files s1) = Some (mkDiskPos (pos_nFile pos) (pos_nPos pos + 8), d) /\
  store_ok (with_files s1 d) /\ preserves s (with_files s1 d) /\ (exists f, d !! (p, pos_nFile pos) = Some f /\ lies_at (Z.to_nat (pos_nPos pos + 8)) data f) /\
  0 <= pos_nFile pos /\ 0 <= pos_nPos pos + 8 /\ pos_nPos pos + 8 + zlen data <= size_at (with_files s1 d) (p, pos_nFile pos).
Proof.
  intros (Hok & [Hk Hg] & Hf & Hl & Hp & Hs) ->. assert (Hh : zlen (index_header MessageStart nSize) = 8) by (unfold index_header; rewrite zlen_app, message_start; done).
  destruct (write_indexed MessageStart p nSize data pos (store_files s1)) as [[pos' d]|] eqn:E.
  - destruct (record_keeps (size_at s) _ _ _ _ _ _ _ _ E Hl Hp) as (Hk' & -> & Hlies). rewrite Hh in *. exists d. split; [done|]. split; [by apply with_files_ok|]. split; [split; [by eapply files_keep_trans | done]|]. split; [exact Hlies|].
    change (size_at (with_files s1 d)) with (size_at s1). split_and!; lia.
  - exfalso. unfold write_indexed, OpenDiskFile, DiskPos_IsNull in E. rewrite (proj2 (Z.eqb_neq _ _)) in E by lia. by destruct (store_files s1 !! _).
Qed.

Lemma store_block_spec space b h s : store_ok s -> block_ok b -> work_shown b -> zlen (Serialize block_codec b) + 8 < MAX_BLOCKFILE_SIZE ->
  exists r s', store_block MessageStart space b h s = Ret (r, s') /\ (has_room space -> r <> None) /\ store_ok s' /\ preserves s s' /\ forall pos, r = Some pos -> intact s' (stored_block pos b).
Proof.
  intros Hok Hb Hw Hlen. pose proof (zlen_nonneg (Serialize block_codec b)). unfold MAX_BLOCKFILE_SIZE in Hlen. unfold store_block. rewrite (law_size block_lawful) by done.
  assert (u32 (zlen (Serialize block_codec b)) = zlen (Serialize block_codec b)) as -> by (unfold u32; rewrite Z.mod_small; lia). assert (u32 (zlen (Serialize block_codec b) + 8) = zlen (Serialize block_codec b) + 8) as -> by (unfold u32; rewrite Z.mod_small; lia).
  destruct (FindBlockPos_spec space DiskPos_null (zlen (Serialize block_codec b) + 8) h (nTime (blk_header b)) s Hok) as (ok & pos & s1 & -> & Hroom & Hpl); [unfold MAX_BLOCKFILE_SIZE; lia|]. cbn [obind].
  destruct ok; cbn [negb]; [|exists None, s1; split; [done|]; split; [intros Hr; by specialize (Hroom Hr)|]; split; [apply Hpl|]; split; [apply Hpl | done]].
  unfold WriteBlockToDisk. destruct (placed_written s s1 blk pos _ (GetSerializeSize block_codec b) (Serialize block_codec b) Hpl eq_refl) as (d & -> & Hok' & Hp' & Hlies & Hf0 & H8 & Hsz).
  eexists _, _. split; [reflexivity|]. split; [done|]. split; [done|]. split; [done|]. intros pos' [= <-]. by split.
Qed.

Lemma store_undo_spec space nFile l h s : store_ok s -> undos_storable l -> 0 <= nFile -> (Z.to_nat nFile < length (vinfoBlockFile s))%nat -> size_at s (rev, nFile) + zlen (Serialize CBlockUndo_codec l) + 40 < 2 ^ 32 ->
  exists r s', store_undo MessageStart space nFile l h s = Ret (r, s') /\ (has_room space -> r <> None) /\ store_ok s' /\ preserves s s' /\ forall pos, r = Some pos -> intact s' (stored_undos pos h l).
Proof.
  intros Hok Hl Hf Hlen Hmax. pose proof (zlen_nonneg (Serialize CBlockUndo_codec l)). pose proof (size_nonneg s (rev, nFile) Hok). unfold store_undo. rewrite undos_size by done.
  assert (u32 (zlen (Serialize CBlockUndo_codec l) + 40) = zlen (Serialize CBlockUndo_codec l) + 40) as -> by (unfold u32; rewrite Z.mod_small; lia).
  destruct (FindUndoPos_spec space nFile (zlen (Serialize CBlockUndo_codec l) + 40) s Hok) as (ok & pos & s1 & -> & Hroom & Hpl); [done | done | lia | lia|]. cbn [obind].
  destruct ok; cbn [negb]; [|exists None, s1; split; [done|]; split; [intros Hr; by specialize (Hroom Hr)|]; split; [apply Hpl|]; split; [apply Hpl | done]].
  unfold Undo_WriteToDisk. destruct (placed_written s s1 rev pos _ (GetSerializeSize CBlockUndo_codec l) (Serialize CBlockUndo_codec l ++ undo_checksum h l) Hpl) as (d & -> & Hok' & Hp' & Hlies & Hf1 & H8 & Hsz); [rewrite zlen_app, checksum_length; lia|].
  eexists _, _. split; [reflexivity|]. split; [done|]. split; [done|]. split; [done|]. intros pos' [= <-]. by split.
Qed.

(** What happens to the files: a block is stored, a block that lies in a file already
    is entered while the index is built anew, undo data is stored in a file that has
    room in 32 bits, the files are flushed. *)
Inductive storage_step : BlockStore * list stored -> BlockStore * list stored -> Prop :=
  | st_block s log space b h r s' : block_ok b -> work_shown b -> zlen (Serialize block_codec b) + 8 < MAX_BLOCKFILE_SIZE -> store_block MessageStart space b h s = Ret (r, s') ->
      storage_step (s, log) (s', match r with Some pos => stored_block pos b :: log | None => log end)
  | st_reindex s log space pos b rest h t r pos' s' : block_ok b -> work_shown b -> 0 <= pos_nFile pos -> 0 <= pos_nPos pos -> pos_nPos pos + (zlen (Serialize block_codec b) + 8) <= 2 ^ 31 ->
      file_behind pos blk (store_files s) = Some (Serialize block_codec b ++ rest) -> FindBlockPos space pos (u32 (u32 (GetSerializeSize block_codec b) + 8)) h t true s = Ret (r, pos', s') ->
      storage_step (s, log) (s', stored_block pos' b :: log)
  | st_undo s log space nFile l h r s' : undos_storable l -> 0 <= nFile -> (Z.to_nat nFile < length (vinfoBlockFile s))%nat -> size_at s (rev, nFile) + zlen (Serialize CBlockUndo_codec l) + 40 < 2 ^ 32 ->
      store_undo MessageStart space nFile l h s = Ret (r, s') -> storage_step (s, log) (s', match r with Some pos => stored_undos pos h l :: log | None => log end)
  | st_flush s log fin s' : (Z.to_nat (nLastBlockFile s) < length (vinfoBlockFile s))%nat -> FlushBlockFile fin s = Ret s' -> storage_step (s, log) (s', log).

Lemma step_keeps s log s' log' : storage_step (s, log) (s', log') -> store_ok s -> Forall (intact s) log -> store_ok s' /\ Forall (intact s') log'.
Proof.
  intros Hst Hok Hlog. assert (Hkeep : forall s', preserves s s' -> Forall (intact s') log) by (intros t Ht; eapply Forall_impl; [exact Hlog | intros e; by apply intact_kept]).
  inversion Hst as [s0 l0 space b h r t Hb Hw Hlen E|s0 l0 space pos b rest h t r pos' t' Hb Hw Hf Hp Hmax Hbeh E|s0 l0 space nFile l h r t Hl Hf Hlen Hmax E|s0 l0 fin t Hlen E]; subst.
  - destruct (store_block_spec space b h s Hok Hb Hw Hlen) as (r' & t' & E' & _ & Hok' & Hp & Hi). rewrite E in E'. injection E' as <- <-. split; [done|]. destruct r as [pos|]; [constructor; [by apply Hi|]|]; by apply Hkeep.
  - pose proof (zlen_nonneg (Serialize block_codec b)). rewrite (law_size block_lawful) in E by done. assert (u32 (u32 (zlen (Serialize block_codec b)) + 8) = zlen (Serialize block_codec b) + 8) as Eu by (unfold u32; rewrite (Z.mod_small (zlen _)) by lia; apply Z.mod_small; lia). rewrite Eu in E.
    destruct (FindBlockPos_known space pos (zlen (Serialize block_codec b) + 8) h t s Hok Hf Hp) as (t2 & E' & Hok' & Hpr & Hsz); [lia | lia|]. rewrite E in E'. injection E' as -> -> ->. split; [done|]. constructor; [|by apply Hkeep].
    split; [by split | by split | | cbn [place_of bytes_stored fst snd]; lia]. unfold file_behind in Hbeh. cbn [place_of bytes_stored fst snd].
    destruct (OpenDiskFile pos blk true (store_files s)) as [d|] eqn:Eo; [|done]. unfold OpenDiskFile in Eo. destruct (DiskPos_IsNull pos); [done|]. destruct (store_files s !! (blk, pos_nFile pos)) as [f|] eqn:Ef; [|done]. injection Eo as <-.
    rewrite Ef in Hbeh. assert (drop (Z.to_nat (pos_nPos pos)) f = Serialize block_codec b ++ rest) as Hbeh' by congruence. pose proof (behind_lies _ _ _ _ Hbeh') as Hlies.
    assert (store_files t2 = store_files s) as -> by (unfold FindBlockPos in E; cbn [negb obind] in E; unfold info_at in E; destruct (_ !! _) in E; [|done]; cbn [oaccess obind] in E; by injection E as <-).
    by exists f.
  - destruct (store_undo_spec space nFile l h s Hok Hl Hf Hlen Hmax) as (r' & t' & E' & _ & Hok' & Hp & Hi). rewrite E in E'. injection E' as <- <-. split; [done|]. destruct r as [pos|]; [constructor; [by apply Hi|]|]; by apply Hkeep.
  - destruct (lookup_lt_is_Some_2 _ _ Hlen) as [i Hi]. destruct (FlushBlockFile_spec fin s i Hi) as (d & E' & Hp). rewrite E in E'. injection E' as ->. split; [by apply with_files_ok | by apply Hkeep].
Qed.

(** C11: whatever blocks and undo data are stored, in files that fill up, are truncated
    and grow in chunks, as the disk has room, and entered anew: everything that was
    stored and not refused can be read where it was put, the block with its hash, and
    the undo data, up to negative versions, with the hash of the block it belongs to,
    while with another hash it is refused unless the checksums collide; and storing
    another block below the size of a file returns, and is not refused if there is room. *)
Theorem stored_data_kept s log : rtc storage_step (store_new, []) (s, log) ->
  (forall e, e ∈ log -> read_back s e) /\
  (forall space b h, block_ok b -> work_shown b -> zlen (Serialize block_codec b) + 8 < MAX_BLOCKFILE_SIZE -> exists r s', store_block MessageStart space b h s = Ret (r, s') /\ (has_room space -> r <> None)).
Proof.
  intros H. assert (store_ok s /\ Forall (intact s) log) as [Hok Hlog].
  { assert (Hgen : forall x y, rtc storage_step x y -> store_ok x.1 /\ Forall (intact x.1) x.2 -> store_ok y.1 /\ Forall (intact y.1) y.2).
    { induction 1 as [x|[x1 l1] [x2 l2] y Hst _ IH]; [done|]. intros [H1 H2]. apply IH. cbn [fst snd] in *. by eapply step_keeps. }
    apply (Hgen _ _ H). split; [|constructor]. split; [done | constructor]. }
  split; [intros e He; apply intact_readable; rewrite Forall_forall in Hlog; by apply Hlog|]. intros space b h Hb Hw Hlen. destruct (store_block_spec space b h s Hok Hb Hw Hlen) as (r & s' & E & Hr & _). by exists r, s'.
Qed.
End Histories.

(** A block and its undo data in the first file. *)
Lemma first_info {C : KeyCurve} MessageStart space b h r s' : zlen (Serialize block_codec b) + 8 < MAX_BLOCKFILE_SIZE -> block_ok b ->
  store_block MessageStart space b h store_new = Ret (r, s') -> exists i, vinfoBlockFile s' = [i] /\ fi_nUndoSize i = 0.
Proof.
  unfold MAX_BLOCKFILE_SIZE. intros Hlen Hb. pose proof (zlen_nonneg (Serialize block_codec b)). unfold store_block. rewrite (law_size block_lawful) by done.
  assert (u32 (u32 (zlen (Serialize block_codec b)) + 8) = zlen (Serialize block_codec b) + 8) as -> by (unfold u32; rewrite (Z.mod_small (zlen _)) by lia; apply Z.mod_small; lia).
  assert (Hfind : forall k a, 0 <= a < 0x8000000 -> find_file k 0 a (resize_info 0 store_new) = Ret (0, resize_info 0 store_new)).
  { intros k a Ha. assert (u32 (0 + a) = a) as E by (unfold u32; rewrite Z.mod_small; lia). destruct k; cbn [find_file]; change (info_at (resize_info 0 store_new) 0) with (Ret (E := Empty_set) FileInfo_null); cbn [obind]; change (fi_nSize FileInfo_null) with 0; rewrite E; unfold MAX_BLOCKFILE_SIZE; by rewrite (proj2 (Z.leb_gt _ _)) by lia. }
  unfold FindBlockPos. cbn [negb]. change (nLastBlockFile store_new) with 0. rewrite Hfind by lia. cbn [obind]. change (info_at (resize_info 0 store_new) 0) with (Ret (E := Empty_set) FileInfo_null). cbn [obind].
  change (info_at (mkStore (vinfoBlockFile (resize_info 0 store_new)) 0 (store_files (resize_info 0 store_new))) 0) with (Ret (E := Empty_set) FileInfo_null). cbn [obind].
  destruct (allocate_chunks _ _ _ _ _ _) as [d|]; cbn [obind negb]; [destruct (WriteBlockToDisk _ _ _ _) as [[p d']|]|]; intros [= <- <-]; by eexists.
Qed.

Definition sample_start : list Z := [0xdf; 0xa0; 0x8d; 0x8f].
Definition plain_hash (bytes : list Z) : list Z := take 32 bytes.
Definition roomy : disk_space := room (fun _ => true).

Lemma stored_data_kept_witness : exists pos posu s,
  @rtc (BlockStore * list stored) (@storage_step diagonal sample_start plain_hash main_work) (store_new, []) (s, [stored_undos posu (replicate 32 5) sample_undo_data; stored_block pos sample_block]) /\
  ReadIndexedBlock plain_hash main_work pos (header_GetHash plain_hash (blk_header sample_block)) (store_files s) = Ret (Some sample_block) /\
  @Undo_ReadFromDisk diagonal posu (replicate 32 5) (store_files s) = Ret (Some (as_stored sample_undo_data)).
Proof.
  generalize plain_hash main_work. intros HashQuark params.
  assert (Hlen : zlen (Serialize block_codec sample_block) + 8 < MAX_BLOCKFILE_SIZE) by (vm_compute; reflexivity). assert (Hw : work_shown HashQuark params sample_block) by (intros Hs; exfalso; vm_compute in Hs; discriminate Hs).
  destruct (@store_block_spec diagonal sample_start eq_refl HashQuark params roomy sample_block 7 store_new) as ([pos|] & s1 & E1 & Hr & Hok1 & _); [by split; [done | constructor] | exact sample_block_ok | exact Hw | exact Hlen | | by destruct Hr].
  destruct (@first_info diagonal _ _ _ _ _ _ Hlen sample_block_ok E1) as (i & Hi & Hu0).
  assert (Hroom : size_at s1 (rev, 0) + zlen (@Serialize _ (@CBlockUndo_codec diagonal) sample_undo_data) + 40 < 2 ^ 32) by (replace (size_at s1 (rev, 0)) with 0 by (unfold size_at; cbn [fst snd]; rewrite Hi; symmetry; exact Hu0); vm_compute; reflexivity).
  assert (Hl1 : (Z.to_nat 0 < length (vinfoBlockFile s1))%nat) by (rewrite Hi; cbn; lia).
  destruct (@store_undo_spec diagonal sample_start eq_refl HashQuark params roomy 0 sample_undo_data (replicate 32 5) s1 Hok1 sample_undo_storable) as ([posu|] & s2 & E2 & Hr2 & _); [done | exact Hl1 | exact Hroom | | by destruct Hr2].
  exists pos, posu, s2.
  assert (Hrun : @rtc (BlockStore * list stored) (@storage_step diagonal sample_start HashQuark params) (store_new, []) (s2, [stored_undos posu (replicate 32 5) sample_undo_data; stored_block pos sample_block])).
  { eapply rtc_l; [exact (@st_block diagonal _ _ _ store_new [] roomy sample_block 7 (Some pos) s1 sample_block_ok Hw Hlen E1)|].
    eapply rtc_l; [exact (@st_undo diagonal _ _ _ s1 _ roomy 0 sample_undo_data (replicate 32 5) (Some posu) s2 sample_undo_storable ltac:(done) Hl1 Hroom E2)|]. apply rtc_refl. }
  split; [exact Hrun|]. destruct (@stored_data_kept diagonal diagonal_laws sample_start eq_refl HashQuark params s2 _ Hrun) as [Hread _].
  split; [apply (Hread (stored_block pos sample_block)); set_solver | apply (Hread (stored_undos posu (replicate 32 5) sample_undo_data)); set_solver].
Defined.
